(* ===== verification/_CoqProject ===== *)
-Q . S2P
Prelude.v
Bytes.v
Ieee.v
CString.v
StringUtil.v
Value.v
Types.v
TypesCorrect.v
ValueFactory.v
TypeProperties.v
Timestamp.v
Schema.v
RWLatch.v
Rid.v
Replacer.v
LRUReplacer.v
ClockReplacer.v
DiskManager.v
BufferPoolManager.v
BufferPool.v
BufferPoolCorrect.v
PoolClient.v
ParallelBufferPool.v
ParallelCorrect.v
ParallelProperties.v
Bitmap.v
HashBucketPage.v
HashDirectoryPage.v
ExtendibleHashTable.v
HashTableCorrect.v
HashTableSplit.v
HashTableInsert.v
HashPageLayout.v
HashTableProperties.v
HeaderPage.v
BPlusTreePage.v
TablePage.v
TablePageCorrect.v
TupleValues.v
TupleCorrect.v
Transaction.v
TableHeap.v
TableHeapCorrect.v
TableScan.v
TableHeapProperties.v
LockManager.v
LockManagerCorrect.v
Log.v
TransactionManager.v
TransactionUndo.v
TransactionPrograms.v
TransactionProperties.v
RecordChange.v
HashUtil.v
Expression.v
Catalog.v
CatalogCorrect.v
IndexContract.v
HashIndex.v
HashIndexCorrect.v
BPlusTree.v
Executor.v
ReadExecutors.v
JoinExecutors.v
AggregationExecutor.v
WriteExecutors.v
ExecutionEngine.v
QuerySemantics.v
Matrix.v
ScanCorrect.v
JoinCorrect.v
AggregationCorrect.v
QueryCorrect.v
WriteCorrect.v
QueryProperties.v
IndexKeeping.v
WriteRun.v
InsertCorrect.v
WriteProperties.v
TableGenerator.v
