(* ===== verification/Prelude.v ===== *)
(** * A verification of BusTub

    BusTub is a disk-oriented relational database written in C++.  This library
    models its storage engine, its concurrency control and its type system as
    Rocq functions and proves what they do.

    ** Parts

    From the bottom up (paths are under [src/]):
    - *types* ([type/]): [Ieee], [CString], [Value], [Types], [ValueFactory]
      with the lemmas [TypesCorrect] and the properties [TypeProperties];
      [Timestamp] (the class no instance of which is registered).  A
      value is a record of its type id, its union and its size; each class of
      [type/] is a group of functions, and a virtual call goes through the table
      of instances ([Value.GetInstance]);
    - *disk* ([storage/disk]): [DiskManager], files as lists of bytes;
    - *buffer pool* ([buffer/]): [Replacer] (the interface), [LRUReplacer],
      [ClockReplacer], [BufferPoolManager] (the interface), [BufferPool] (the
      instance) with [BufferPoolCorrect]; [PoolClient]
      (programs that use a pool), [ParallelBufferPool] (instances over one disk)
      with [ParallelCorrect] and [ParallelProperties];
    - *hash index* ([container/hash], [storage/page/hash_table_*]): [Bitmap],
      [HashBucketPage], [HashDirectoryPage], [ExtendibleHashTable] with
      [HashTableCorrect], [HashTableSplit], [HashTableInsert], [HashPageLayout]
      and [HashTableProperties]; [HashIndex] ([storage/index]) has the keys of
      indexes, their comparator, and the index class on the hash table, an
      instance of [Catalog.Index]; [IndexContract] says what the executors rely
      on (an index is a set of entries on pages of its own), [HashIndexCorrect]
      proves it for that class, for indexes that fit one bucket, and has the
      property of longer runs;
    - *B+ tree* ([storage/page/b_plus_tree_*], [storage/index/b_plus_tree*],
      [storage/index/index_iterator]): [BPlusTreePage] (leaf and internal pages,
      complete in the code but for the moves between pages), [BPlusTree] (the tree,
      whose root is kept in the header page, its iterator and its index class;
      what else there is of them are stubs, in the code and in the model);
    - *tables* ([storage/table], [storage/page/table_page], [catalog/schema],
      [catalog/column]): [Rid], [TablePage] (slotted pages, on bytes), [Schema],
      [TupleValues] (rows), [TableHeap] (with its iterator) and their
      [TablePageCorrect], [TupleCorrect], [TableHeapCorrect], [TableScan],
      [TableHeapProperties]; [HeaderPage] (names and root pages, on bytes);
    - *transactions* ([concurrency/], [common/rwlatch.h]): [Transaction],
      [LockManager], [RWLatch] and [LockManagerCorrect]; [TransactionManager],
      with [TransactionUndo] (what rolling back and applying a write does to a
      heap, and the loops of commit and abort),
      [TransactionPrograms] (a whole transaction) and [TransactionProperties];
      [Log] ([recovery/]) has the log records and the stubs around them;
    - *queries* ([execution/], [catalog/catalog.h], [common/util/hash_util.h]):
      [HashUtil] (hashes of values, the unordered containers), [Expression] (with
      the plans),
      [Catalog] with [CatalogCorrect], [Executor] (the interface and its
      contract), [ReadExecutors] (scan, limit, distinct), [JoinExecutors],
      [AggregationExecutor], [WriteExecutors] (insert, delete, update) and
      [ExecutionEngine] (the factory and [Execute]).  [QuerySemantics] is a
      reference evaluator of plans over rows of values; [ScanCorrect],
      [JoinCorrect] and [AggregationCorrect] show that each
      executor produces the rows of the reference if its children do,
      [QueryCorrect] puts them together and [QueryProperties] has the properties,
      the comparison of the two joins among them.
      [RecordChange] is about changing single records of a heap, the undoing of
      that and the marks it leaves; with it [WriteCorrect] follows the loop of a plan that deletes or
      updates what a scan of the same table finds, [IndexKeeping] shows that the
      indexes of the table keep an entry per row meanwhile, [WriteRun] runs such
      statements and queries in sequence, [InsertCorrect] follows the
      insertion of rows of values, and [WriteProperties] has the properties,
      the ends of a script by [Commit] and [Abort] among them, and a table with
      an index on which they are run;
    - *test tables* ([catalog/table_generator]): [TableGenerator], over the
      catalog and the heaps;
    - *primer* ([primer/p0_starter.h]): [Matrix]; *utilities*
      ([common/util/string_util]): [StringUtil].

    ** How the parts interact

    The access methods (hash table, heap) are code over the type class
    [BufferPoolManager], a buffer pool with page pointers; what they rely on is
    [BufferPoolSpec]: the pool is a store of pages, kept as long as its clients
    follow the pinning discipline.  [BufferPool.BPI_spec] proves the contract
    for the instance, over any replacer that meets [ReplacerSpec] and any disk
    that meets [DiskSpec]; the two replacers and the disk manager do.  So a
    theorem about the hash table or the heap holds for every such pool, and
    its witness runs on the concrete one of [BufferPoolCorrect.fresh_pool], or,
    for the hash table, of [HashPageLayout.zero_pool], whose file already holds
    zeros: the table's constructor unpins its new buckets as clean, which loses
    them on a file that does not.  How a page class lies
    in the bytes of a page is the interface [HashPages], met by [HashPageLayout];
    the table page works on bytes directly.  Executors use their children
    through [AbstractExecutor]; what a parent relies on is
    [Executor.implements], which each executor that reads is shown to meet, so
    that a theorem on a whole plan goes by induction on the plan.  The catalog
    and the executors use indexes through the class [Catalog.Index], whose
    contract is [IndexContract.IndexSpec].  Tables, indexes and whatever else is
    in a pool do not disturb each other because each keeps to pages of its own:
    [ScanCorrect.Frame] is a part of the pool that stays as it is while others
    change pages it does not use, and [IndexKeeping.index_frame] the one that
    follows the rows of a table.

    ** Conventions

    A 32-bit integer is a [Z] with [signed 32] or [unsigned 32] written where
    the code stores it; a signed addition that leaves the type is an error
    ([int_op]: pin counts, counters), except for the count of page writes, which
    wraps (the method has no result, and the count is only reported).  A call that can fail returns [res]; [Err] carries the
    exception thrown or the undefined behaviour reached (access out of bounds,
    null pointer, signed overflow, failed assertion).  Code over a shared state
    is in the state monad [M S] ([do!]); [wp] is its weakest precondition and
    says that the call returns.  Loops that are not structural have fuel:
    [Err OutOfFuel] is no behaviour of the code, and every theorem that says
    what a call does also says that the fuel is enough ([wp] and [Ok] exclude
    it).  The fuel is the number of pages a file can have for the loops over a
    heap, 11 for the splits of the hash table (each round lengthens a local
    depth, and the directory holds at most 512 entries), one more than those
    entries for its merges.  For a query the fuel is computed from the rows of
    its tables and intermediate results; the theorem gives a bound and holds for
    any fuel above it.

    ** What the theorems show

    - types: arithmetic is exact, null, or fails in the one way stated;
      comparison and conversion agree with the integers; printing and reading
      back is the identity; every operation keeps values well formed;
    - buffer pool: each method on every branch, the invariant, the contract;
      the replacers implement a queue of the evictable frames; pages behave as
      an array on disk; the parallel pool meets the same contract, so that every
      client theorem holds over it, and serves any disciplined program of calls,
      flushes included, as a store of pages from its constructor on;
    - hash index: lookup, insertion with splits and doubling, removal with
      merges, against the map from keys to lists of values.  Insertion into a
      full bucket is covered when the bucket has the directory's full depth and
      parts from the key within nine bits; what a split does to the directory
      otherwise is a theorem of its own;
    - tables: the slotted page refines a list of slots on every run; rows
      round-trip; the heap refines a list of pages of slots; a scan ends and
      visits the tuples in order; the header page refines a list of names;
    - transactions: exclusion of locks and two-phase discipline under every
      interleaving of calls without wounds, the failure that wounds bring, the
      wound rule; exclusion and absence of lost wake-ups for the latch; a
      transaction that aborts leaves a heap's records as they were, one that
      commits makes exactly its writes final, both give every lock back, for
      programs that delete and update records that are there and unmarked and do
      not shrink them; every answer on the way is the one of an abstract heap;
    - queries: the catalog's look-ups agree with what was created; [Execute] on a
      plan that reads returns the rows that the reference evaluator gives for the
      stored rows, in its order, and leaves the world as it was.  The reference
      is undefined (and the theorem silent) where the code has no meaning: keys
      that are null or of several types, hash joins with two left rows of one
      key, values outside their column.  A hash join and the nested loop join
      on the equality of its keys answer the same rows.  A script of queries, deletions and
      updates of one table answers and leaves what the reference says, statement
      by statement, with an entry per row in every index of the table;
      committing its transaction makes that final, and aborting it leaves the
      table's records as they were, but not the indexes.  An insertion of rows
      adds exactly the rows before the first that fits no page, and their
      entries;
    - indexes on the hash table: a sequence of calls answers as a set of entries
      does, as long as every insertion finds a free slot or a bucket that can be
      split (as above);
    - B+ tree: on any run of calls a leaf page is a list of entries with different
      keys, an internal page a list of children; what the removal from a leaf does
      to the entries; the root of a tree is recorded in the header page as in a
      list of names and roots; the size of a log record is the length of its
      documented layout, but for new pages;
    - index keys: they read back as the columns of their row and are ordered
      like the rows, unless a column is null;
    - test tables: [GenerateTestTables] on an empty catalog makes every table of
      its list, with exactly the rows the list asks for;
    - timestamps: a value is never cast to one, as the cast goes through a null
      instance; the lines behind it that read a text are inverse to printing;
      strings: splitting undoes joining, and where it does not end;
    - matrices: the general product is the one of linear algebra when the sizes
      match.
    Several theorems state faults of the code: those about dirty flags, page
    deletion, splits that do not grow the directory, the disk offset, null
    strings, null index keys, narrowing of strings, updates of columns that are
    not INTEGER, aborted writes to indexes, removals from leaves of the B+ tree,
    the look-up and the bounds of its internal pages, and wounds.

    ** Parameters

    [common/config.h] is not in the repository: its constants are the fields of
    [Config], with the facts the code relies on.  The hash function and the key
    comparator of the index are parameters with their laws; for an index as a
    set of entries the comparator calls only equal keys equal, which
    [GenericComparator] does on rows without nulls.  What numbers a random
    distribution draws, and in which order an unordered container lists its
    elements, is up to the implementation: parameters without laws, and with the
    law that the elements are the same.

    ** Not modelled

    The branches on [enable_logging], which nothing sets, the log buffers and the
    flush thread; what INSERT ... SELECT does and what an update does that changes the length of a tuple (the executors are
    modelled; the theorems cover queries that read, insertions of values, and
    deletions and updates by a scan, and indexes whose pages are unpinned, whose
    keys fit and whose entries fit one bucket, so that the index keeps its pages); the state of the world
    after an exception that [Execute] catches; of the transaction manager's
    abort, the theorems cover the table writes (the code of the index writes is
    modelled over an interface of indexes; no executor asks for any); the index scan and the nested index
    join are stubs in the code, and in the model; the bytes of the pages of
    the B+ tree (its operations do not use them), and the drawing and printing of
    a tree and the reading of its keys from a file;
    [StringUtil::Format] (it calls [vsnprintf]); page latches and the table latch of the
    hash index (an operation is a sequential piece of code, except those of the
    lock manager and the latch); printing for logs. *)

From stdpp Require Export base tactics numbers strings sets gmap list.

#[global] Open Scope Z_scope.

(** ** Configuration constants

    [src/include/common/config.h] is not part of the repository (it is an
    ignored generated name), so the constants it declares are parameters.  The
    fields below [PAGE_SIZE_pos] are the only facts about them that the
    development relies on. *)
Class Config : Type := {
  PAGE_SIZE : Z;
  INVALID_PAGE_ID : Z;
  INVALID_LSN : Z;
  HEADER_PAGE_ID : Z;
  PAGE_SIZE_pos : 0 < PAGE_SIZE;
  PAGE_SIZE_int : PAGE_SIZE < 2 ^ 31;
  INVALID_PAGE_ID_neg : - 2 ^ 31 <= INVALID_PAGE_ID < 0;
  INVALID_LSN_int : - 2 ^ 31 <= INVALID_LSN < 2 ^ 31;
  HEADER_PAGE_ID_nonneg : 0 <= HEADER_PAGE_ID
}.

(** The values the course project ships, used by the witnesses. *)
#[export] Program Instance course_config : Config := {|
  PAGE_SIZE := 4096;
  INVALID_PAGE_ID := -1;
  INVALID_LSN := -1;
  HEADER_PAGE_ID := 0
|}.
Solve All Obligations with lia.

(** ** Machine integers *)

(** [unsigned w z] is the value of [z] converted to a [w]-bit unsigned type. *)
Definition unsigned (w z : Z) : Z := z mod 2 ^ w.

(** [signed w z] is the value of [z] converted to a [w]-bit two's complement
    type. *)
Definition signed (w z : Z) : Z := (z + 2 ^ (w - 1)) mod 2 ^ w - 2 ^ (w - 1).

Definition is_unsigned (w z : Z) : Prop := 0 <= z < 2 ^ w.
Definition is_signed (w z : Z) : Prop := - 2 ^ (w - 1) <= z < 2 ^ (w - 1).

#[export] Instance is_unsigned_dec w z : Decision (is_unsigned w z).
Proof. unfold is_unsigned. apply _. Defined.
#[export] Instance is_signed_dec w z : Decision (is_signed w z).
Proof. unfold is_signed. apply _. Defined.

(** ** Outcomes of C++ code

    [Ok] is a normal return.  The failures are the exceptions the source throws
    ([Raised] for [bustub::Exception] with its [ExceptionType], the others from
    the standard library) and what it does when it leaves the defined behaviour
    of the language or stops. *)
Inductive ExceptionType : Type :=
| EX_INVALID
| EX_OUT_OF_RANGE
| EX_CONVERSION
| EX_UNKNOWN_TYPE
| EX_DECIMAL
| EX_MISMATCH_TYPE
| EX_DIVIDE_BY_ZERO
| EX_INCOMPATIBLE_TYPE
| EX_OUT_OF_MEMORY
| EX_NOT_IMPLEMENTED.

#[export] Instance ExceptionType_eq_dec : EqDecision ExceptionType.
Proof. solve_decision. Defined.

Inductive failure : Type :=
| Raised (e : ExceptionType)
| StdInvalidArgument
| StdOutOfRange
| AssertionFailure
| OutOfBounds
| NullDereference
| IntegerOverflow
| DanglingIterator
| TypeConfusion
| DivisionByZero
| StdLogicError
| StdRuntimeError
| InvalidBool
| OutOfFuel.

#[export] Instance failure_eq_dec : EqDecision failure.
Proof. solve_decision. Defined.

Inductive res (A : Type) : Type :=
| Ok (a : A)
| Err (e : failure).
Arguments Ok {A} a.
Arguments Err {A} e.

#[export] Instance res_eq_dec `{EqDecision A} : EqDecision (res A).
Proof. solve_decision. Defined.

Definition rbind {A B} (m : res A) (f : A -> res B) : res B :=
  match m with Ok a => f a | Err e => Err e end.
Arguments rbind {A B} !m f /.

Notation "'let!' x := e 'in' k" := (rbind e (fun x => k))
  (at level 200, x name, e at level 100, k at level 200, right associativity).
Notation "'let!' ' x := e 'in' k" := (rbind e (fun x => k))
  (at level 200, x strict pattern, e at level 100, k at level 200, right associativity).

#[export] Instance res_fmap : FMap res := fun A B f m =>
  match m with Ok a => Ok (f a) | Err e => Err e end.

Definition of_option {A} (e : failure) (o : option A) : res A :=
  match o with Some a => Ok a | None => Err e end.

(** [assert(b)] / [BUSTUB_ASSERT(b, _)]. *)
Definition assert (b : bool) : res unit := if b then Ok tt else Err AssertionFailure.

(** State-passing code over a state [S]. *)
Definition M (S A : Type) : Type := S -> res (A * S).

Definition sret {S A} (a : A) : M S A := fun s => Ok (a, s).
Definition sbind {S A B} (m : M S A) (f : A -> M S B) : M S B := fun s =>
  match m s with Ok (a, s') => f a s' | Err e => Err e end.
Definition lift {S A} (r : res A) : M S A := fun s => let! a := r in Ok (a, s).
Definition get {S} : M S S := fun s => Ok (s, s).
Definition put {S} (s : S) : M S unit := fun _ => Ok (tt, s).
Definition fail {S A} (e : failure) : M S A := fun _ => Err e.
(** A pointer that is dereferenced. *)
Definition deref {S A} (p : option A) : M S A :=
  match p with Some f => sret f | None => fail NullDereference end.

Notation "'do!' x := e 'in' k" := (sbind e (fun x => k))
  (at level 200, x name, e at level 100, k at level 200, right associativity).
Notation "'do!' ' x := e 'in' k" := (sbind e (fun x => k))
  (at level 200, x strict pattern, e at level 100, k at level 200, right associativity).

(** Total-correctness weakest precondition: the code returns, and [Q] holds of
    the result and of the final state. *)
Definition wp {S A} (m : M S A) (Q : A -> S -> Prop) (s : S) : Prop :=
  match m s with Ok (a, s') => Q a s' | Err _ => False end.

(** ** Arrays indexed by a C++ integer *)

(** [l[i]]: reading outside the array is undefined behaviour. *)
Definition zlookup {A} (l : list A) (i : Z) : res A :=
  if decide (0 <= i) then of_option OutOfBounds (l !! Z.to_nat i) else Err OutOfBounds.

(** [l[i] = x]. *)
Definition zupdate {A} (l : list A) (i : Z) (x : A) : res (list A) :=
  if decide (0 <= i < Z.of_nat (length l)) then Ok (<[Z.to_nat i := x]> l) else Err OutOfBounds.

(** Overwrite [l] from index [n] with [l']; meant for [n + length l' <= length l]. *)
Definition splice {A} (n : nat) (l' l : list A) : list A :=
  take n l ++ l' ++ drop (n + length l') l.

(** ** Tactics *)

Create Rewrite HintDb len.
#[export] Hint Rewrite @length_app @length_take @length_drop @length_insert
  @length_replicate @length_fmap @length_cons @length_nil @length_reverse : len.

(** Normalise list lengths and close the arithmetic. *)
Ltac len := autorewrite with len in *; simpl length in *; try lia.

(** Split a [res]/[option] computation that is known to succeed. *)
Ltac res_inv :=
  repeat match goal with
  | H : Ok _ = Ok _ |- _ => inversion H; subst; clear H
  | H : Err _ = Ok _ |- _ => discriminate H
  | H : Ok _ = Err _ |- _ => discriminate H
  | H : Some _ = Some _ |- _ => inversion H; subst; clear H
  end.

(** ** Lemmas: integers *)

(** Arithmetic on [int]. *)
Definition int_op (z : Z) : res Z := if decide (is_signed 32 z) then Ok z else Err IntegerOverflow.

Lemma int_op_ok z : is_signed 32 z -> int_op z = Ok z.
Proof. intros. unfold int_op. by rewrite decide_True. Qed.

Lemma unsigned_id w z : is_unsigned w z -> unsigned w z = z.
Proof. intros. unfold unsigned. by apply Z.mod_small. Qed.

Lemma unsigned_range w z : 0 <= w -> is_unsigned w (unsigned w z).
Proof. intros. unfold unsigned, is_unsigned. apply Z.mod_pos_bound. lia. Qed.

Lemma signed_id w z : 0 < w -> is_signed w z -> signed w z = z.
Proof.
  intros Hw [H1 H2]. unfold signed.
  replace w with ((w - 1) + 1) at 2 by lia.
  rewrite Z.pow_add_r, Z.pow_1_r by lia.
  rewrite Z.mod_small; lia.
Qed.

Lemma signed_range w z : 0 < w -> is_signed w (signed w z).
Proof.
  intros Hw. unfold signed, is_signed.
  assert (E : 2 ^ w = 2 * 2 ^ (w - 1)).
  { replace w with ((w - 1) + 1) at 1 by lia. rewrite Z.pow_add_r, Z.pow_1_r; lia. }
  pose proof (Z.mod_pos_bound (z + 2 ^ (w - 1)) (2 ^ w) ltac:(lia)). lia.
Qed.

Lemma signed_unsigned w z : 0 < w -> signed w (unsigned w z) = signed w z.
Proof.
  intros Hw. unfold signed, unsigned. f_equal.
  by rewrite Zplus_mod_idemp_l.
Qed.

Lemma unsigned_signed w z : 0 < w -> unsigned w (signed w z) = unsigned w z.
Proof.
  intros Hw. unfold signed, unsigned.
  rewrite Zminus_mod_idemp_l. f_equal. lia.
Qed.

(** [(a << k) | b] for a [b] that fits the low [k] bits. *)
Lemma lor_shiftl_add a b k : 0 <= k -> 0 <= b < 2 ^ k -> Z.lor (Z.shiftl a k) b = a * 2 ^ k + b.
Proof.
  intros Hk Hb. rewrite <- Z.shiftl_mul_pow2 by lia. symmetry. apply Z.add_nocarry_lor.
  apply Z.bits_inj'. intros n Hn. rewrite Z.land_spec, Z.bits_0, Z.shiftl_spec by done.
  destruct (decide (n < k)); [by rewrite Z.testbit_neg_r by lia|].
  rewrite <- (Z.mod_small b (2 ^ k)) by lia. by rewrite Z.mod_pow2_bits_high, andb_false_r by lia.
Qed.

(** [x & (2^k - 1)]. *)
Lemma land_mask x k : 0 <= k -> Z.land x (2 ^ k - 1) = x mod 2 ^ k.
Proof. intros Hk. rewrite <- Z.land_ones, Z.ones_equiv by done. by rewrite <- Z.sub_1_r. Qed.

(** ** Lemmas: the monads *)

Lemma rbind_ok {A B} (m : res A) (f : A -> res B) b :
  rbind m f = Ok b <-> exists a, m = Ok a /\ f a = Ok b.
Proof. destruct m; simpl; split; naive_solver. Qed.

Lemma wp_ret {S A} (a : A) (Q : A -> S -> Prop) s : Q a s -> wp (sret a) Q s.
Proof. done. Qed.

Lemma wp_bind {S A B} (m : M S A) (f : A -> M S B) Q s :
  wp m (fun a s' => wp (f a) Q s') s -> wp (sbind m f) Q s.
Proof. unfold wp, sbind. destruct (m s) as [[a s']|]; done. Qed.

Lemma wp_mono {S A} (m : M S A) (Q Q' : A -> S -> Prop) s :
  wp m Q s -> (forall a s', Q a s' -> Q' a s') -> wp m Q' s.
Proof. unfold wp. destruct (m s) as [[a s']|]; naive_solver. Qed.

Lemma wp_lift {S A} (r : res A) (Q : A -> S -> Prop) s a :
  r = Ok a -> Q a s -> wp (lift r) Q s.
Proof. intros ->. done. Qed.

Lemma wp_deref {S A} (o : option A) (Q : A -> S -> Prop) s a : o = Some a -> Q a s -> wp (deref o) Q s.
Proof. intros ->. apply wp_ret. Qed.

Lemma wp_get {S} (Q : S -> S -> Prop) s : Q s s -> wp get Q s.
Proof. done. Qed.

Lemma wp_put {S} (s' : S) (Q : unit -> S -> Prop) s : Q tt s' -> wp (put s') Q s.
Proof. done. Qed.

Lemma wp_run {S A} (m : M S A) (Q : A -> S -> Prop) s :
  wp m Q s <-> exists a s', m s = Ok (a, s') /\ Q a s'.
Proof.
  unfold wp. destruct (m s) as [[a s']|]; split; try naive_solver.
Qed.

(** ** Lemmas: arrays *)

Lemma zlookup_ok {A} (l : list A) i x :
  zlookup l i = Ok x <-> 0 <= i /\ l !! Z.to_nat i = Some x.
Proof.
  unfold zlookup. case_decide; [|split; [done|lia]].
  destruct (l !! Z.to_nat i); simpl; split; naive_solver.
Qed.

Lemma zlookup_nat {A} (l : list A) (i : nat) x : l !! i = Some x -> zlookup l (Z.of_nat i) = Ok x.
Proof. intros. apply zlookup_ok. rewrite Nat2Z.id. split; [lia|done]. Qed.

Lemma zlookup_is_ok {A} (l : list A) i :
  0 <= i < Z.of_nat (length l) -> exists x, zlookup l i = Ok x.
Proof.
  intros H. destruct (lookup_lt_is_Some_2 l (Z.to_nat i)) as [x Hx]; [lia|].
  exists x. apply zlookup_ok. split; [lia|done].
Qed.

Lemma zupdate_ok {A} (l : list A) i x :
  0 <= i < Z.of_nat (length l) -> zupdate l i x = Ok (<[Z.to_nat i := x]> l).
Proof. intros. unfold zupdate. by rewrite decide_True. Qed.

Lemma zupdate_inv {A} (l l' : list A) i x :
  zupdate l i x = Ok l' -> 0 <= i < Z.of_nat (length l) /\ l' = <[Z.to_nat i := x]> l.
Proof. unfold zupdate. case_decide; naive_solver. Qed.

Lemma zupdate_length {A} (l l' : list A) i x : zupdate l i x = Ok l' -> length l' = length l.
Proof. intros [_ ->]%zupdate_inv. by rewrite length_insert. Qed.

Lemma zlookup_insert {A} (l : list A) f g x :
  0 <= f < Z.of_nat (length l) -> 
  zlookup (<[Z.to_nat f := x]> l) g = if decide (f = g) then Ok x else zlookup l g.
Proof.
  intros Hf. unfold zlookup. case_decide as Hg; case_decide; subst; try lia; [..|done].
  - rewrite list_lookup_insert_eq by lia. done.
  - rewrite list_lookup_insert_ne by lia. done.
Qed.

Lemma filter_fmap_iff {A B} (f : A -> B) (P : B -> Prop) (Q : A -> Prop)
    `{forall x, Decision (P x)} `{forall x, Decision (Q x)} (l : list A) :
  (forall x, x ∈ l -> Q x <-> P (f x)) -> f <$> filter Q l = filter P (f <$> l).
Proof.
  induction l as [|x l IH]; [done|]. intros Hiff. rewrite fmap_cons, !filter_cons.
  pose proof (Hiff x ltac:(set_solver)) as Hx. specialize (IH ltac:(set_solver)).
  repeat case_decide; try tauto; by rewrite ?fmap_cons, IH.
Qed.

Lemma filter_ext_in {A} (P Q : A -> Prop) `{forall x, Decision (P x)} `{forall x, Decision (Q x)} (l : list A) :
  (forall x, x ∈ l -> P x <-> Q x) -> filter P l = filter Q l.
Proof. intros Hiff. pose proof (filter_fmap_iff id Q P l Hiff) as E. by rewrite !list_fmap_id in E. Qed.

Lemma filter_none {A} (P : A -> Prop) `{forall x, Decision (P x)} (l : list A) :
  (forall x, x ∈ l -> ~ P x) -> filter P l = [].
Proof.
  induction l as [|x l IH]; [done|]. intros Hn.
  rewrite filter_cons, decide_False by (apply Hn; set_solver). apply IH. set_solver.
Qed.

Lemma splice_length {A} n (l' l : list A) :
  (n + length l' <= length l)%nat -> length (splice n l' l) = length l.
Proof. intros. unfold splice. len. Qed.

Lemma lookup_splice_old {A} n (l' l : list A) i :
  (n + length l' <= length l)%nat ->
  (i < n \/ n + length l' <= i)%nat -> splice n l' l !! i = l !! i.
Proof.
  intros Hl [Hi|Hi]; unfold splice.
  - rewrite lookup_app_l by len. by rewrite lookup_take_lt.
  - rewrite lookup_app_r by len. rewrite lookup_app_r by len.
    rewrite lookup_drop. f_equal. len.
Qed.

Lemma lookup_splice_new {A} n (l' l : list A) i :
  (n + length l' <= length l)%nat ->
  (n <= i < n + length l')%nat -> splice n l' l !! i = l' !! (i - n)%nat.
Proof.
  intros Hl Hi. unfold splice.
  rewrite lookup_app_r by len. rewrite lookup_app_l by len.
  f_equal. len.
Qed.


(** ** Lemmas: slot arrays *)

(** The entries of an array of slots, in slot order. *)
Fixpoint entries_of {A} (l : list (option A)) : list A :=
  match l with
  | [] => []
  | Some x :: l => x :: entries_of l
  | None :: l => entries_of l
  end.

Lemma entries_of_app {A} (l1 l2 : list (option A)) : entries_of (l1 ++ l2) = entries_of l1 ++ entries_of l2.
Proof. induction l1 as [|[x|] l1 IH]; simpl; by rewrite ?IH. Qed.

Lemma entries_of_set {A} (l : list (option A)) i x :
  l !! i = Some None -> entries_of (<[i := Some x]> l) ≡ₚ x :: entries_of l.
Proof.
  revert i. induction l as [|o l IH]; intros [|i] Hi; simplify_eq/=; [done|].
  destruct o as [y|]; simpl.
  - rewrite (IH _ Hi). apply perm_swap.
  - apply (IH _ Hi).
Qed.

Lemma entries_of_clear {A} (l : list (option A)) i x :
  l !! i = Some (Some x) -> entries_of l ≡ₚ x :: entries_of (<[i := None]> l).
Proof.
  intros Hi. rewrite <- (entries_of_set (<[i := None]> l) i x).
  - by rewrite list_insert_insert_eq, list_insert_id.
  - apply list_lookup_insert_eq. by apply lookup_lt_Some in Hi.
Qed.

Lemma elem_of_entries {A} (l : list (option A)) x : x ∈ entries_of l <-> Some x ∈ l.
Proof. induction l as [|[y|] l IH]; simpl; rewrite ?elem_of_cons, ?IH; set_solver. Qed.

Lemma entries_of_length {A} (l : list (option A)) : (length (entries_of l) <= length l)%nat.
Proof. induction l as [|[x|] l IH]; simpl; lia. Qed.

(** All slots are taken exactly when there are as many entries as slots. *)
Lemma entries_of_full {A} (l : list (option A)) :
  length (entries_of l) = length l <-> None ∉ l.
Proof.
  induction l as [|[x|] l IH]; simpl; [set_solver|..].
  - rewrite not_elem_of_cons. split.
    + intros [= H]. split; [done|]. by apply IH.
    + intros [_ Hn]. f_equal. by apply IH.
  - pose proof (entries_of_length l) as Hl. split; [lia|]. set_solver.
Qed.
