(* ===== verification/Bytes.v ===== *)
(** Page memory: byte arrays with the C memory operations the storage layer uses.

    A page's [char data_[PAGE_SIZE]] is a [list Z] of bytes in [0, 256).
    [memcpy], [memmove] and [memset] on it are [mem_write], [mem_move] and
    [mem_set]; reading a 4-byte integer through a [reinterpret_cast] is
    [load_u32]/[load_i32], copying one in is [store_u32].  Every access outside
    the array is [Err OutOfBounds].  Integers are little endian. *)

From S2P Require Import Prelude.

(** ** Definitions *)

Notation bytes := (list Z).

Definition is_byte (b : Z) : Prop := 0 <= b < 256.
Definition is_bytes (m : bytes) : Prop := Forall is_byte m.

(** [memcpy(out, m + off, n)]. *)
Definition mem_read (m : bytes) (off n : Z) : res bytes :=
  if decide (0 <= off /\ 0 <= n /\ off + n <= Z.of_nat (length m))
  then Ok (take (Z.to_nat n) (drop (Z.to_nat off) m))
  else Err OutOfBounds.

(** [memcpy(m + off, bs, sizeof bs)]. *)
Definition mem_write (m : bytes) (off : Z) (bs : bytes) : res bytes :=
  if decide (0 <= off /\ off + Z.of_nat (length bs) <= Z.of_nat (length m))
  then Ok (splice (Z.to_nat off) bs m)
  else Err OutOfBounds.

(** [memmove(m + dst, m + src, n)]: the source is read before anything is
    written, so the regions may overlap. *)
Definition mem_move (m : bytes) (dst src n : Z) : res bytes :=
  let! bs := mem_read m src n in mem_write m dst bs.

(** [memset(m + off, b, n)]. *)
Definition mem_set (m : bytes) (off b n : Z) : res bytes :=
  if decide (0 <= n) then mem_write m off (replicate (Z.to_nat n) (unsigned 8 b))
  else Err OutOfBounds.

(** Little-endian encoding of the low [n] bytes of [z], and its inverse. *)
Fixpoint le_split (n : nat) (z : Z) : bytes :=
  match n with
  | O => []
  | S n => z mod 256 :: le_split n (z / 256)
  end.

Fixpoint le_combine (bs : bytes) : Z :=
  match bs with
  | [] => 0
  | b :: bs => b + 256 * le_combine bs
  end.

Definition load_u32 (m : bytes) (off : Z) : res Z := le_combine <$> mem_read m off 4.
Definition load_i32 (m : bytes) (off : Z) : res Z := (signed 32 ∘ le_combine) <$> mem_read m off 4.
Definition store_u32 (m : bytes) (off z : Z) : res bytes := mem_write m off (le_split 4 z).

(** ** Encoding lemmas *)

Lemma le_split_length n z : length (le_split n z) = n.
Proof. revert z. induction n; intros z; simpl; [done|by rewrite IHn]. Qed.
#[export] Hint Rewrite le_split_length : len.

Lemma le_split_bytes n z : is_bytes (le_split n z).
Proof.
  revert z. induction n; intros z; simpl; constructor; [|apply IHn].
  unfold is_byte. pose proof (Z.mod_pos_bound z 256). lia.
Qed.

Lemma le_combine_split n z : le_combine (le_split n z) = z mod 256 ^ Z.of_nat n.
Proof.
  revert z. induction n as [|n IH]; intros z.
  - simpl. by rewrite Z.mod_1_r.
  - cbn [le_split le_combine]. rewrite IH.
    replace (Z.of_nat (S n)) with (1 + Z.of_nat n) by lia.
    rewrite Z.pow_add_r, Z.pow_1_r by lia.
    rewrite Z.rem_mul_r by lia. lia.
Qed.

Lemma le_combine_split_u32 z : le_combine (le_split 4 z) = unsigned 32 z.
Proof. by rewrite le_combine_split. Qed.

Lemma le_combine_range bs : is_bytes bs -> 0 <= le_combine bs < 256 ^ Z.of_nat (length bs).
Proof.
  unfold is_bytes, is_byte. induction 1 as [|b bs Hb Hbs IH]; [simpl; lia|].
  cbn [le_combine length]. rewrite Nat2Z.inj_succ, Z.pow_succ_r by lia. lia.
Qed.

Lemma le_split_combine bs : is_bytes bs -> le_split (length bs) (le_combine bs) = bs.
Proof.
  unfold is_bytes, is_byte. induction 1 as [|b bs Hb Hbs IH]; [done|].
  cbn [le_combine length le_split]. f_equal.
  - rewrite Z.mul_comm, Z.mod_add, Z.mod_small; lia.
  - rewrite Z.mul_comm, Z.div_add, Z.div_small, Z.add_0_l by lia. exact IH.
Qed.

(** ** Memory lemmas *)

Lemma mem_read_inv m off n bs :
  mem_read m off n = Ok bs ->
  0 <= off /\ 0 <= n /\ off + n <= Z.of_nat (length m)
  /\ bs = take (Z.to_nat n) (drop (Z.to_nat off) m).
Proof. unfold mem_read. case_decide; naive_solver. Qed.

Lemma mem_read_ok m off n :
  0 <= off -> 0 <= n -> off + n <= Z.of_nat (length m) ->
  mem_read m off n = Ok (take (Z.to_nat n) (drop (Z.to_nat off) m)).
Proof. intros. unfold mem_read. by rewrite decide_True. Qed.

Lemma mem_read_length m off n bs : mem_read m off n = Ok bs -> Z.of_nat (length bs) = n.
Proof. intros (?&?&?&->)%mem_read_inv. len. Qed.

Lemma mem_read_bytes m off n bs : is_bytes m -> mem_read m off n = Ok bs -> is_bytes bs.
Proof. intros Hm (?&?&?&->)%mem_read_inv. by apply Forall_take, Forall_drop. Qed.

Lemma mem_write_inv m off bs m' :
  mem_write m off bs = Ok m' ->
  0 <= off /\ off + Z.of_nat (length bs) <= Z.of_nat (length m)
  /\ m' = splice (Z.to_nat off) bs m.
Proof. unfold mem_write. case_decide; naive_solver. Qed.

Lemma mem_write_ok m off bs :
  0 <= off -> off + Z.of_nat (length bs) <= Z.of_nat (length m) ->
  mem_write m off bs = Ok (splice (Z.to_nat off) bs m).
Proof. intros. unfold mem_write. by rewrite decide_True. Qed.

Lemma mem_write_length m off bs m' : mem_write m off bs = Ok m' -> length m' = length m.
Proof. intros (?&?&->)%mem_write_inv. rewrite splice_length; lia. Qed.

Lemma mem_write_bytes m off bs m' :
  is_bytes m -> is_bytes bs -> mem_write m off bs = Ok m' -> is_bytes m'.
Proof.
  intros Hm Hb (?&?&->)%mem_write_inv. unfold splice, is_bytes.
  rewrite !Forall_app. split; [by apply Forall_take|split; [done|by apply Forall_drop]].
Qed.

(** Pointwise view of a read, the form disjointness arguments use. *)
Lemma mem_read_ext m m' off n :
  length m = length m' ->
  (forall i, off <= i < off + n -> m !! Z.to_nat i = m' !! Z.to_nat i) ->
  mem_read m off n = mem_read m' off n.
Proof.
  intros Hl Hi. unfold mem_read. rewrite Hl. case_decide as Hd; [|done]. f_equal.
  apply list_eq. intros j. destruct (decide (j < Z.to_nat n)%nat).
  - rewrite !lookup_take_lt, !lookup_drop by done.
    pose proof (Hi (off + Z.of_nat j) ltac:(lia)) as He.
    by replace (Z.to_nat (off + Z.of_nat j)) with (Z.to_nat off + j)%nat in He by lia.
  - rewrite !lookup_ge_None_2; [done|len..].
Qed.

Lemma mem_read_write_same m off bs m' n :
  mem_write m off bs = Ok m' -> n = Z.of_nat (length bs) -> mem_read m' off n = Ok bs.
Proof.
  intros Hw ->. pose proof (mem_write_length _ _ _ _ Hw) as Hl.
  apply mem_write_inv in Hw as (?&?&->).
  rewrite mem_read_ok by lia. rewrite Nat2Z.id. f_equal.
  unfold splice. rewrite drop_app_ge by len.
  replace (Z.to_nat off - length (take (Z.to_nat off) m))%nat with O by len.
  by rewrite drop_0, take_app_length.
Qed.

Lemma mem_read_write_disjoint m off bs m' off' n :
  mem_write m off bs = Ok m' ->
  off' + n <= off \/ off + Z.of_nat (length bs) <= off' ->
  mem_read m' off' n = mem_read m off' n.
Proof.
  intros Hw Hd. pose proof (mem_write_length _ _ _ _ Hw) as Hl.
  apply mem_write_inv in Hw as (?&?&->).
  destruct (decide (0 <= off')).
  - apply mem_read_ext; [done|]. intros i Hi. apply lookup_splice_old; lia.
  - unfold mem_read. rewrite !decide_False by lia. done.
Qed.

(** A read of [n] bytes contains the read of any sub-range. *)
Lemma mem_read_sub m off n bs d k :
  mem_read m off n = Ok bs -> 0 <= d -> 0 <= k -> d + k <= n ->
  mem_read m (off + d) k = mem_read bs d k.
Proof.
  intros Hr ???. pose proof (mem_read_length _ _ _ _ Hr) as Hl.
  apply mem_read_inv in Hr as (?&?&?&->).
  rewrite !mem_read_ok by lia. f_equal.
  rewrite skipn_firstn_comm, drop_drop, take_take.
  f_equal; [lia|f_equal; lia].
Qed.

(** ** Integers in memory *)

Lemma store_u32_is_ok m off z :
  0 <= off -> off + 4 <= Z.of_nat (length m) -> exists m', store_u32 m off z = Ok m'.
Proof. intros. unfold store_u32. rewrite mem_write_ok; eauto; len. Qed.

Lemma store_u32_length m off z m' : store_u32 m off z = Ok m' -> length m' = length m.
Proof. apply mem_write_length. Qed.

Lemma store_u32_bytes m off z m' : is_bytes m -> store_u32 m off z = Ok m' -> is_bytes m'.
Proof. intros ?. apply mem_write_bytes; [done|apply le_split_bytes]. Qed.

Lemma load_store_u32_same m off z m' :
  store_u32 m off z = Ok m' -> load_u32 m' off = Ok (unsigned 32 z).
Proof.
  intros Hs. unfold load_u32, store_u32 in *.
  rewrite (mem_read_write_same _ _ _ _ 4 Hs) by len.
  cbn. by rewrite <- le_combine_split_u32.
Qed.

Lemma load_store_i32_same m off z m' :
  store_u32 m off z = Ok m' -> is_signed 32 z -> load_i32 m' off = Ok z.
Proof.
  intros Hs Hz. unfold load_i32, store_u32 in *.
  rewrite (mem_read_write_same _ _ _ _ 4 Hs) by len.
  cbn [fmap res_fmap]. f_equal. unfold compose.
  rewrite le_combine_split_u32, signed_unsigned by lia. by apply signed_id.
Qed.

Lemma mem_read_store_disjoint m off z m' off' n :
  store_u32 m off z = Ok m' -> off' + n <= off \/ off + 4 <= off' ->
  mem_read m' off' n = mem_read m off' n.
Proof. intros Hs Hd. eapply mem_read_write_disjoint; [exact Hs|len]. Qed.

Lemma load_u32_store_disjoint m off z m' off' :
  store_u32 m off z = Ok m' -> off' + 4 <= off \/ off + 4 <= off' ->
  load_u32 m' off' = load_u32 m off'.
Proof. intros Hs Hd. unfold load_u32. by rewrite (mem_read_store_disjoint _ _ _ _ _ _ Hs). Qed.

Lemma load_i32_store_disjoint m off z m' off' :
  store_u32 m off z = Ok m' -> off' + 4 <= off \/ off + 4 <= off' ->
  load_i32 m' off' = load_i32 m off'.
Proof. intros Hs Hd. unfold load_i32. by rewrite (mem_read_store_disjoint _ _ _ _ _ _ Hs). Qed.

Lemma load_u32_write_disjoint m off bs m' off' :
  mem_write m off bs = Ok m' -> off' + 4 <= off \/ off + Z.of_nat (length bs) <= off' ->
  load_u32 m' off' = load_u32 m off'.
Proof. intros Hs Hd. unfold load_u32. by rewrite (mem_read_write_disjoint _ _ _ _ _ _ Hs). Qed.

Lemma load_i32_write_disjoint m off bs m' off' :
  mem_write m off bs = Ok m' -> off' + 4 <= off \/ off + Z.of_nat (length bs) <= off' ->
  load_i32 m' off' = load_i32 m off'.
Proof. intros Hs Hd. unfold load_i32. by rewrite (mem_read_write_disjoint _ _ _ _ _ _ Hs). Qed.

Lemma load_u32_is_ok m off :
  0 <= off -> off + 4 <= Z.of_nat (length m) -> exists z, load_u32 m off = Ok z.
Proof. intros. unfold load_u32. rewrite mem_read_ok by lia. eexists. reflexivity. Qed.

Lemma load_u32_range m off z : is_bytes m -> load_u32 m off = Ok z -> is_unsigned 32 z.
Proof.
  unfold load_u32. intros Hm. destruct (mem_read m off 4) as [bs|] eqn:Hr; [|done].
  cbn. intros [= <-]. pose proof (mem_read_length _ _ _ _ Hr) as Hl.
  pose proof (le_combine_range bs (mem_read_bytes _ _ _ _ Hm Hr)) as H.
  rewrite Hl in H. exact H.
Qed.
