(* ===== verification/Ieee.v ===== *)
(** IEEE 754 double precision: the C++ [double] operations the DECIMAL type
    ([src/type/decimal_type.cpp]) uses, on the Standard Library's [spec_float]
    at precision 53 and maximal exponent 1024.

    The arithmetic is the Standard Library's ([SFadd], [SFmul], ...), rounded to
    nearest even.  A NaN has no sign and no payload. *)

From Stdlib Require Import SpecFloat.
From S2P Require Import Prelude.

(** ** Definitions *)

Notation double := spec_float.

#[export] Instance double_eq_dec : EqDecision double.
Proof. solve_decision. Defined.

Definition prec : Z := 53.
Definition emax : Z := 1024.

(** [static_cast<double>(z)] for an integer [z]. *)
Definition double_of_Z (z : Z) : double := binary_normalize prec emax z 0 false.

Definition dadd : double -> double -> double := SFadd prec emax.
Definition dsub : double -> double -> double := SFsub prec emax.
Definition dmul : double -> double -> double := SFmul prec emax.
Definition ddiv : double -> double -> double := SFdiv prec emax.
Definition dsqrt : double -> double := SFsqrt prec emax.

(** [std::trunc]. *)
Definition dtrunc (d : double) : double :=
  match d with
  | S754_finite s m e =>
    if 0 <=? e then d else binary_normalize prec emax (cond_Zopp s (Zpos m / 2 ^ (- e))) 0 s
  | _ => d
  end.

(** The integral part of a double; there is none for an infinity or a NaN. *)
Definition Z_of_double (d : double) : option Z :=
  match d with
  | S754_zero _ => Some 0
  | S754_finite s m e => Some (cond_Zopp s (if 0 <=? e then Zpos m * 2 ^ e else Zpos m / 2 ^ (- e)))
  | _ => None
  end.

(** [static_cast<intN_t>(d)]: undefined when the integral part does not fit. *)
Definition double_to_int (w : Z) (d : double) : res Z :=
  match Z_of_double d with
  | Some z => if decide (is_signed w z) then Ok z else Err IntegerOverflow
  | None => Err IntegerOverflow
  end.

(** [DBL_MAX], [std::numeric_limits<double>::lowest()], and [lowest()] of
    [float] converted to [double]. *)
Definition DBL_MAX : double := S754_finite false (2 ^ 53 - 1)%positive 971.
Definition DBL_LOWEST : double := S754_finite true (2 ^ 53 - 1)%positive 971.
Definition FLT_LOWEST : double := double_of_Z (- ((2 ^ 24 - 1) * 2 ^ 104)).

(** The nearest double to [m1 / m2]. *)
Definition double_of_ratio (s : bool) (m1 m2 : Z) : double :=
  let '(m, e, l) := SFdiv_core_binary prec emax m1 0 m2 0 in binary_round_aux prec emax s m e l.

(** The object representation as a 64-bit number. *)
Definition double_bits (d : double) : Z :=
  match d with
  | S754_zero s => Z.b2z s * 2 ^ 63
  | S754_infinity s => Z.b2z s * 2 ^ 63 + 2047 * 2 ^ 52
  | S754_nan => 2047 * 2 ^ 52 + 2 ^ 51
  | S754_finite s m e =>
    if Zpos m <? 2 ^ 52
    then Z.b2z s * 2 ^ 63 + Zpos m
    else Z.b2z s * 2 ^ 63 + (e + 1075) * 2 ^ 52 + (Zpos m - 2 ^ 52)
  end.

Definition bits_double (n : Z) : double :=
  let s := Z.odd (n / 2 ^ 63) in
  let be := (n / 2 ^ 52) mod 2 ^ 11 in
  let f := n mod 2 ^ 52 in
  if be =? 2047 then (if f =? 0 then S754_infinity s else S754_nan)
  else if be =? 0 then match f with Zpos m => S754_finite s m (- 1074) | _ => S754_zero s end
  else S754_finite s (Z.to_pos (f + 2 ^ 52)) (be - 1075).

(** ** Lemmas *)

(** A double the machine can hold. *)
Definition is_double (d : double) : Prop := valid_binary prec emax d = true.

Lemma digits2_pos_size m : digits2_pos m = Pos.size m.
Proof. induction m; simpl; by rewrite ?IHm. Qed.

(** The normal and the subnormal numbers. *)
Lemma is_double_finite s m e :
  is_double (S754_finite s m e) ->
  (2 ^ 52 <= Zpos m < 2 ^ 53 /\ - 1074 <= e <= 971) \/ (Zpos m < 2 ^ 52 /\ e = - 1074).
Proof.
  unfold is_double, valid_binary, bounded, canonical_mantissa, fexp, emin, prec, emax.
  rewrite digits2_pos_size. intros [Hc%Zeq_bool_eq Hb%Z.leb_le]%andb_prop.
  pose proof (Pos.size_gt m) as Hgt. pose proof (Pos.size_le m) as Hle.
  apply Pos2Z.pos_lt_pos in Hgt. apply Pos2Z.pos_le_pos in Hle.
  rewrite Pos2Z.inj_pow in Hgt, Hle.
  set (k := Zpos (Pos.size m)) in *.
  assert (Hk : 1 <= k) by (unfold k; lia).
  assert (k = 53 \/ k < 53) as [->|Hs] by lia.
  - left. lia.
  - right. split; [|lia].
    assert (2 ^ k <= 2 ^ 52) by (apply Z.pow_le_mono_r; lia). lia.
Qed.

Lemma double_bits_range d : is_double d -> is_unsigned 64 (double_bits d).
Proof.
  unfold is_unsigned. intros Hd. assert (Hb : forall s, 0 <= Z.b2z s <= 1) by (intros []; simpl; lia).
  destruct d as [s|s| |s m e]; cbn [double_bits]; try (try pose proof (Hb s); lia).
  apply is_double_finite in Hd. pose proof (Hb s).
  destruct (Zpos m <? 2 ^ 52) eqn:E; [apply Z.ltb_lt in E|apply Z.ltb_ge in E]; lia.
Qed.

(** The three fields of a representation. *)
Lemma bits_fields (s : bool) be f :
  0 <= be < 2 ^ 11 -> 0 <= f < 2 ^ 52 ->
  let n := Z.b2z s * 2 ^ 63 + be * 2 ^ 52 + f in
  Z.odd (n / 2 ^ 63) = s /\ (n / 2 ^ 52) mod 2 ^ 11 = be /\ n mod 2 ^ 52 = f.
Proof.
  intros Hbe Hf n. assert (Hb : 0 <= Z.b2z s <= 1) by (destruct s; simpl; lia).
  split_and!.
  - assert (E : n / 2 ^ 63 = Z.b2z s).
    { symmetry. apply (Z.div_unique _ _ _ (be * 2 ^ 52 + f)); unfold n; lia. }
    rewrite E. by destruct s.
  - assert (E : n / 2 ^ 52 = Z.b2z s * 2 ^ 11 + be).
    { symmetry. apply (Z.div_unique _ _ _ f); unfold n; lia. }
    rewrite E. symmetry. apply (Z.mod_unique _ _ (Z.b2z s)); lia.
  - symmetry. apply (Z.mod_unique _ _ (Z.b2z s * 2 ^ 11 + be)); unfold n; lia.
Qed.

(** The object representation determines the double. *)
Lemma bits_double_bits d : is_double d -> bits_double (double_bits d) = d.
Proof.
  intros Hd. unfold bits_double. destruct d as [s|s| |s m e].
  - pose proof (bits_fields s 0 0 ltac:(lia) ltac:(lia)) as (Es & Ee & Ef).
    cbn [double_bits]. rewrite !Z.mul_0_l, !Z.add_0_r in Es, Ee, Ef. by rewrite Es, Ee, Ef.
  - pose proof (bits_fields s 2047 0 ltac:(lia) ltac:(lia)) as (Es & Ee & Ef).
    cbn [double_bits]. rewrite !Z.add_0_r in Es, Ee, Ef. by rewrite Es, Ee, Ef.
  - reflexivity.
  - apply is_double_finite in Hd. cbn [double_bits].
    destruct (Zpos m <? 2 ^ 52) eqn:E; [apply Z.ltb_lt in E|apply Z.ltb_ge in E].
    + pose proof (bits_fields s 0 (Zpos m) ltac:(lia) ltac:(lia)) as (Es & Ee & Ef).
      rewrite Z.mul_0_l, Z.add_0_r in Es, Ee, Ef. rewrite Es, Ee, Ef.
      destruct Hd as [Hd| [_ ->]]; [lia|done].
    + pose proof (bits_fields s (e + 1075) (Zpos m - 2 ^ 52) ltac:(lia) ltac:(lia)) as (Es & Ee & Ef).
      rewrite Es, Ee, Ef. rewrite !(proj2 (Z.eqb_neq _ _)) by lia.
      f_equal; [|lia]. rewrite Z.sub_add. done.
Qed.
