(* ===== verification/CString.v ===== *)
(** Strings and their conversions: the parts of the C++ standard library that
    the type system ([src/type]) relies on.

    A [std::string] is its list of bytes.  [std::to_string], [stoi], [stoll] and
    [stod] are written out; [stoi]/[stoll]/[stod] throw [std::invalid_argument]
    when there is no number to read and [std::out_of_range] when it does not
    fit, and ignore what follows the number. *)

From Stdlib Require Import SpecFloat String Ascii.
From S2P Require Import Prelude Bytes Ieee.

(** ** Definitions *)

(** A string literal. *)
Definition str (s : string) : bytes := (fun a => Z.of_N (Ascii.N_of_ascii a)) <$> list_ascii_of_string s.
Arguments str s%_string.

(** The decimal digits of [n], most significant first, in front of [acc]. *)
Fixpoint digits_loop (fuel : nat) (n : Z) (acc : bytes) : bytes :=
  match fuel with
  | O => acc
  | S fuel =>
    let acc := 48 + n mod 10 :: acc in
    if n / 10 =? 0 then acc else digits_loop fuel (n / 10) acc
  end.
Definition digits (n : Z) : bytes := digits_loop (S (Z.to_nat (Z.log2 n))) n [].

(** [std::to_string] of an integer. *)
Definition to_string (z : Z) : bytes := if z <? 0 then 45 :: digits (- z) else digits z.

Definition isspace (c : Z) : bool := ((9 <=? c) && (c <=? 13)) || (c =? 32).
Definition isdigit (c : Z) : bool := (48 <=? c) && (c <=? 57).

(** [::tolower]. *)
Definition tolower (c : Z) : Z := if (65 <=? c) && (c <=? 90) then c + 32 else c.

Fixpoint skip_space (s : bytes) : bytes :=
  match s with
  | c :: s' => if isspace c then skip_space s' else s
  | [] => []
  end.

(** The sign in front of a number: whether it is [-], and the rest. *)
Definition read_sign (s : bytes) : bool * bytes :=
  match s with
  | c :: s' => if c =? 45 then (true, s') else if c =? 43 then (false, s') else (false, s)
  | [] => (false, [])
  end.

(** The longest prefix of digits, as the values of the digits, and the rest. *)
Fixpoint span_digits (s : bytes) : list Z * bytes :=
  match s with
  | c :: s' =>
    if isdigit c then let '(ds, r) := span_digits s' in (c - 48 :: ds, r) else ([], s)
  | [] => ([], [])
  end.

Definition digits_value (base : Z) (ds : list Z) : Z := fold_left (fun a d => a * base + d) ds 0.

(** [stoi] ([w = 32]) and [stoll] ([w = 64]). *)
Definition sto (w : Z) (s : bytes) : res Z :=
  let '(neg, s) := read_sign (skip_space s) in
  let '(ds, _) := span_digits s in
  match ds with
  | [] => Err StdInvalidArgument
  | _ =>
    let z := cond_Zopp neg (digits_value 10 ds) in
    if decide (is_signed w z) then Ok z else Err StdOutOfRange
  end.
Definition stoi : bytes -> res Z := sto 32.
Definition stoll : bytes -> res Z := sto 64.

(** ** [std::to_string] of a double: ["%f"], six digits after the point, the
    exact value rounded to nearest even. *)

Definition round_half_even (n d : Z) : Z :=
  let q := n / d in
  match 2 * (n mod d) ?= d with
  | Lt => q
  | Gt => q + 1
  | Eq => if Z.even q then q else q + 1
  end.

Definition pad6 (ds : bytes) : bytes := replicate (6 - length ds) 48 ++ ds.

Definition double_to_string (d : double) : bytes :=
  match d with
  | S754_zero s => (if s then str "-" else []) ++ str "0.000000"
  | S754_infinity s => (if s then str "-" else []) ++ str "inf"
  | S754_nan => str "nan"
  | S754_finite s m e =>
    let n := if 0 <=? e then Zpos m * 2 ^ e * 10 ^ 6 else round_half_even (Zpos m * 10 ^ 6) (2 ^ (- e)) in
    (if s then str "-" else []) ++ digits (n / 10 ^ 6) ++ str "." ++ pad6 (digits (n mod 10 ^ 6))
  end.

(** ** [stod] *)

Definition hexdigit (c : Z) : option Z :=
  if isdigit c then Some (c - 48)
  else let l := tolower c in if (97 <=? l) && (l <=? 102) then Some (l - 87) else None.

Fixpoint span_hex (s : bytes) : list Z * bytes :=
  match s with
  | c :: s' =>
    match hexdigit c with Some d => let '(ds, r) := span_hex s' in (d :: ds, r) | None => ([], s) end
  | [] => ([], [])
  end.

Fixpoint has_prefix (p s : bytes) : bool :=
  match p, s with
  | [], _ => true
  | a :: p, c :: s => (tolower c =? a) && has_prefix p s
  | _ :: _, [] => false
  end.

(** The significand: the digits around the point, the number of digits after
    it, and the rest. *)
Definition significand (span : bytes -> list Z * bytes) (s : bytes) : list Z * nat * bytes :=
  let '(ds, r) := span s in
  match r with
  | c :: r' => if c =? 46 then let '(fs, r'') := span r' in (ds ++ fs, length fs, r'') else (ds, O, r)
  | [] => (ds, O, r)
  end.

(** The exponent, when there is one with at least one digit. *)
Definition exponent (mark : Z) (s : bytes) : Z :=
  match s with
  | c :: s' =>
    if tolower c =? mark then
      let '(neg, r) := read_sign s' in
      let '(ds, _) := span_digits r in cond_Zopp neg (digits_value 10 ds)
    else 0
  | [] => 0
  end.

(** [m1 / m2] as a double; [strtod] reports a range error when it overflows
    and when the result is subnormal or zero and not exact. *)
Definition ranged_ratio (s : bool) (m1 m2 : Z) : res double :=
  if m1 =? 0 then Ok (S754_zero s) else
  let d := double_of_ratio s m1 m2 in
  match d with
  | S754_finite _ m e =>
    if (Zpos m <? 2 ^ 52) && negb (Zpos m * m2 =? m1 * 2 ^ (- e)) then Err StdOutOfRange else Ok d
  | _ => Err StdOutOfRange
  end.

Definition scaled (s : bool) (base m e : Z) : res double :=
  if 0 <=? e then ranged_ratio s (m * base ^ e) 1 else ranged_ratio s m (base ^ (- e)).

Definition stod (s : bytes) : res double :=
  let '(neg, s) := read_sign (skip_space s) in
  if has_prefix (str "inf") s then Ok (S754_infinity neg)
  else if has_prefix (str "nan") s then Ok S754_nan
  else
    let '(ds, frac, r) := significand span_hex (drop 2 s) in
    if has_prefix (str "0x") s && negb (bool_decide (ds = [])) then
      scaled neg 2 (digits_value 16 ds) (exponent 112 r - 4 * Z.of_nat frac)
    else
      let '(ds, frac, r) := significand span_digits s in
      if bool_decide (ds = []) then Err StdInvalidArgument
      else scaled neg 10 (digits_value 10 ds) (exponent 101 r - Z.of_nat frac).

(** ** Lemmas *)

(** One round of the printing loop. *)
Lemma digits_loop_succ f n acc :
  digits_loop (S f) n acc
  = if n / 10 =? 0 then 48 + n mod 10 :: acc else digits_loop f (n / 10) (48 + n mod 10 :: acc).
Proof. reflexivity. Qed.

Lemma digits_loop_acc f n acc : digits_loop f n acc = digits_loop f n [] ++ acc.
Proof.
  revert n acc. induction f as [|f IH]; intros n acc; [done|].
  rewrite !digits_loop_succ. destruct (n / 10 =? 0); [done|].
  rewrite (IH _ (_ :: acc)), (IH _ [_]). by rewrite <- app_assoc.
Qed.

Lemma fold_digits base ds a :
  fold_left (fun a d => a * base + d) ds a = a * base ^ Z.of_nat (length ds) + digits_value base ds.
Proof.
  unfold digits_value. revert a. induction ds as [|d ds IH]; intros a; simpl fold_left.
  - simpl. lia.
  - rewrite IH, (IH (0 * base + d)). simpl length. rewrite Nat2Z.inj_succ, Z.pow_succ_r by lia. lia.
Qed.

Lemma digits_value_app base ds es :
  digits_value base (ds ++ es) = digits_value base ds * base ^ Z.of_nat (length es) + digits_value base es.
Proof. unfold digits_value at 1. by rewrite fold_left_app, fold_digits. Qed.

(** What the printing loop leaves, the reading loop takes back. *)
Definition reads_back (l : bytes) (n : Z) : Prop :=
  forall r, (match r with c :: _ => isdigit c | [] => false end) = false ->
  exists ds, ds <> [] /\ span_digits (l ++ r) = (ds, r) /\ digits_value 10 ds = n.

Lemma digits_loop_reads f n : 0 <= n < 2 ^ Z.of_nat f -> (0 < f)%nat -> reads_back (digits_loop f n []) n.
Proof.
  assert (Hspan : forall ds r, Forall (fun c => isdigit c = true) ds ->
      (match r with c :: _ => isdigit c | [] => false end) = false ->
      span_digits (ds ++ r) = ((fun c => c - 48) <$> ds, r)).
  { induction 1 as [|c ds Hc Hds IH]; intros Hr; [by destruct r as [|c r]; simpl; [|rewrite Hr]|].
    simpl. by rewrite Hc, IH. }
  assert (Hloop : forall f n, 0 <= n < 2 ^ Z.of_nat f -> (0 < f)%nat ->
      let l := digits_loop f n [] in
      l <> [] /\ Forall (fun c => isdigit c = true) l /\ digits_value 10 ((fun c => c - 48) <$> l) = n).
  { clear. induction f as [|f IH]; intros n Hn Hf; [lia|]. cbv zeta. rewrite digits_loop_succ.
    pose proof (Z.div_mod n 10) as Hdm. pose proof (Z.mod_pos_bound n 10) as Hm.
    assert (Hd : isdigit (48 + n mod 10) = true) by (unfold isdigit; lia).
    destruct (n / 10 =? 0) eqn:E; [apply Z.eqb_eq in E|apply Z.eqb_neq in E].
    - split; [done|]. split; [by repeat constructor|]. unfold digits_value. simpl. lia.
    - rewrite Nat2Z.inj_succ, Z.pow_succ_r in Hn by lia.
      assert (0 < f)%nat by (destruct f; [simpl in Hn; lia|lia]).
      destruct (IH (n / 10)) as (Hne & Hall & Hv); [lia|done|].
      rewrite digits_loop_acc. split; [by destruct (digits_loop f (n / 10) [])|].
      split; [apply Forall_app; split; [done|by repeat constructor]|].
      rewrite fmap_app, digits_value_app, Hv. unfold digits_value. simpl. lia. }
  intros Hn Hf r Hr. destruct (Hloop f n Hn Hf) as (Hne & Hall & Hv).
  eexists. split; [|split; [by apply Hspan|exact Hv]].
  intros E. apply Hne. by destruct (digits_loop f n []).
Qed.

Lemma digits_reads n : 0 <= n -> reads_back (digits n) n.
Proof.
  intros Hn. unfold digits. apply digits_loop_reads; [|lia].
  rewrite Nat2Z.inj_succ, Z2Nat.id by apply Z.log2_nonneg.
  destruct (decide (n = 0)) as [->|]; [simpl; lia|].
  pose proof (Z.log2_spec n ltac:(lia)). lia.
Qed.

Lemma digits_head n : 0 <= n -> exists c l, digits n = c :: l /\ isdigit c = true.
Proof.
  intros Hn. destruct (digits_reads n Hn [] eq_refl) as (ds & Hne & Hs & _).
  rewrite app_nil_r in Hs. destruct (digits n) as [|c l]; simpl in Hs; [by simplify_eq|].
  exists c, l. split; [done|]. by destruct (isdigit c); [|simplify_eq].
Qed.

(** Printing an integer and reading it back gives the integer. *)
Lemma sto_to_string w z : is_signed w z -> sto w (to_string z) = Ok z.
Proof.
  intros Hz. unfold to_string.
  destruct (z <? 0) eqn:E; [apply Z.ltb_lt in E|apply Z.ltb_ge in E].
  - destruct (digits_reads (- z) ltac:(lia) [] eq_refl) as (ds & Hne & Hs & Hv).
    rewrite app_nil_r in Hs. unfold sto. simpl. rewrite Hs. destruct ds as [|d ds]; [done|].
    rewrite Hv. simpl. by rewrite Z.opp_involutive, decide_True.
  - destruct (digits_reads z E [] eq_refl) as (ds & Hne & Hs & Hv).
    destruct (digits_head z E) as (c & l & Hc & Hd). rewrite app_nil_r in Hs. unfold sto.
    unfold isdigit in Hd. apply andb_true_iff in Hd as [H1 H2].
    assert (Hk : skip_space (digits z) = digits z).
    { rewrite Hc. simpl. assert (isspace c = false) as ->; [|done]. unfold isspace. lia. }
    assert (Hr : read_sign (digits z) = (false, digits z)).
    { rewrite Hc. simpl. destruct (c =? 45) eqn:?; [lia|]. by destruct (c =? 43) eqn:?; [lia|]. }
    rewrite Hk, Hr, Hs. destruct ds as [|d ds]; [done|]. rewrite Hv. simpl. by rewrite decide_True.
Qed.
