(* ===== verification/StringUtil.v ===== *)
(** String utilities ([src/common/util/string_util.cpp]).

    A [std::string] is its list of bytes, an iterator range a list.  [Format] is
    not modelled: it hands its arguments to [vsnprintf]. *)

From Stdlib Require Import SpecFloat.
From S2P Require Import Prelude Bytes Ieee CString.

(** ** Definitions *)

(** *** The standard library *)

(** Whether [s] begins with [p]. *)
Fixpoint begins_with (p s : bytes) : bool :=
  match p, s with
  | [], _ => true
  | x :: p, y :: s => (x =? y) && begins_with p s
  | _ :: _, [] => false
  end.

(** The first place where [needle] occurs, and [std::string::find] from [pos]
    on ([npos] is [None]). *)
Fixpoint find_from (needle s : bytes) : option nat :=
  if begins_with needle s then Some 0%nat else
  match s with
  | [] => None
  | _ :: s => Datatypes.S <$> find_from needle s
  end.
Definition find (s needle : bytes) (pos : nat) : option nat :=
  if (length s <? pos)%nat then None else Nat.add pos <$> find_from needle (drop pos s).

(** [std::equal(p.begin(), p.end(), s.begin())] reads as many elements of [s] as
    it needs to decide. *)
Fixpoint equal (p s : bytes) : res bool :=
  match p, s with
  | [], _ => Ok true
  | _ :: _, [] => Err OutOfBounds
  | x :: p, y :: s => if x =? y then equal p s else Ok false
  end.

(** [std::isspace((int)c)] of a signed [char]: defined for the characters and
    for [EOF] (the byte 255). *)
Definition isspace_char (c : Z) : res bool :=
  if (128 <=? c) && (c <? 255) then Err OutOfBounds else Ok (isspace c).

Definition toupper (c : Z) : Z := if (97 <=? c) && (c <=? 122) then c - 32 else c.

(** *** [StringUtil] *)

Definition Contains (haystack needle : bytes) : bool := match find haystack needle 0 with Some _ => true | None => false end.

Fixpoint RTrim_loop (rstr : bytes) : res bytes :=
  match rstr with
  | [] => Ok []
  | c :: rstr' => let! space := isspace_char c in if space : bool then RTrim_loop rstr' else Ok rstr
  end.
Definition RTrim (s : bytes) : res bytes := let! r := RTrim_loop (rev s) in Ok (rev r).

(** A negative number is a length error. *)
Definition Indent (num_indent : Z) : res bytes :=
  if num_indent <? 0 then Err StdLogicError else Ok (replicate (Z.to_nat num_indent) 32).

Definition StartsWith (s prefix : bytes) : res bool := equal prefix s.
Definition EndsWith (s suffix : bytes) : res bool :=
  if (length s <? length suffix)%nat then Ok false else equal (rev suffix) (rev s).

Definition Repeat (s : bytes) (n : Z) : bytes :=
  if (n =? 0) || bool_decide (s = []) then [] else concat (replicate (Z.to_nat (signed 32 n)) s).

(** The lines that [std::getline] reads: what follows the last delimiter is a
    line only if it is not empty. *)
Fixpoint getlines (delimiter : Z) (temp s : bytes) : list bytes :=
  match s with
  | [] => match temp with [] => [] | _ => [rev temp] end
  | c :: s => if c =? delimiter then rev temp :: getlines delimiter [] s else getlines delimiter (c :: temp) s
  end.
Definition Split_char (s : bytes) (delimiter : Z) : list bytes := getlines delimiter [] s.

Definition Join (input : list bytes) (separator : bytes) : bytes :=
  match input with
  | [] => []
  | s :: input => s ++ concat ((fun s => separator ++ s) <$> input)
  end.

Definition Prefix (s prefix : bytes) : bytes :=
  match Split_char s 10 with
  | [] => []
  | line :: lines => (prefix ++ line) ++ concat ((fun line => 10 :: prefix ++ line) <$> lines)
  end.

(** A finite double that is not negative, with two digits after the point. *)
Definition fixed2 (d : double) : bytes :=
  match d with
  | S754_finite false m e =>
      let n := if 0 <=? e then Zpos m * 2 ^ e * 100 else round_half_even (Zpos m * 100) (2 ^ (- e)) in
      let frac := digits (n mod 100) in
      digits (n / 100) ++ str "." ++ replicate (2 - length frac) 48 ++ frac
  | _ => str "0.00"
  end.

Definition FormatSize (bytes : Z) : Bytes.bytes :=
  let base := double_of_Z 1024 in
  let kb := base in
  let mb := dmul kb base in
  let gb := dmul mb base in
  let b := double_of_Z bytes in
  if SFleb gb b then fixed2 (ddiv b gb) ++ str " GB"
  else if SFleb mb b then fixed2 (ddiv b mb) ++ str " MB"
  else if SFleb kb b then fixed2 (ddiv b kb) ++ str " KB"
  else to_string bytes ++ str " bytes".

Definition Bold (s : bytes) : bytes := (27 :: str "[0;1m") ++ s ++ (27 :: str "[0;0m").

Definition Upper (s : bytes) : bytes := toupper <$> s.
Definition Lower (s : bytes) : bytes := tolower <$> s.

(** The loop of the second [Split], for at most [fuel] rounds. *)
Fixpoint Split_loop (fuel : nat) (input split : bytes) (last : nat) : res (list bytes) :=
  match fuel with
  | O => Err OutOfFuel
  | Datatypes.S fuel =>
      if (length input <? last)%nat then Ok [] else
      let next := match find input split last with Some next => next | None => length input end in
      let substr := take (next - last) (drop last input) in
      let! splits := Split_loop fuel input split (next + length split) in
      Ok (match substr with [] => splits | _ => substr :: splits end)
  end.
Definition Split (fuel : nat) (input split : bytes) : res (list bytes) := Split_loop fuel input split 0.

Definition Strip (s : bytes) (c : Z) : bytes := List.filter (fun x => negb (x =? c)) s.

(** ** Lemmas *)

Lemma begins_with_spec p s : begins_with p s = true <-> exists r, s = p ++ r.
Proof.
  revert s. induction p as [|x p IH]; intros s; [split; [by exists s|done]|].
  destruct s as [|y s]; cbn [begins_with]; [split; [done|by intros [r [=]]]|]. rewrite andb_true_iff, Z.eqb_eq, IH. split.
  - intros [-> [r ->]]. by exists r.
  - intros [r [= -> ->]]. split; [done|by exists r].
Qed.

(** [needle] occurs nowhere in [s]. *)
Definition absent (needle s : bytes) : Prop := forall u v, s <> u ++ needle ++ v.

Lemma find_from_spec needle s :
  match find_from needle s with
  | Some n => exists r, s = take n s ++ needle ++ r /\ (n + length needle <= length s)%nat
      /\ forall u v, s = u ++ needle ++ v -> (n <= length u)%nat
  | None => absent needle s
  end.
Proof.
  induction s as [|c s IH]; cbn [find_from].
  - destruct (begins_with needle []) eqn:E.
    + apply begins_with_spec in E as [r Hr]. exists r. cbn [take app]. split; [done|]. split; [|lia]. rewrite Hr, length_app. lia.
    + intros u v Hs. symmetry in Hs. apply app_nil in Hs as [-> Hs]. enough (begins_with needle [] = true) by congruence.
      apply begins_with_spec. by exists v.
  - destruct (begins_with needle (c :: s)) eqn:E.
    + apply begins_with_spec in E as [r Hr]. exists r. cbn [take app]. split; [done|]. split; [|lia]. rewrite Hr, length_app. lia.
    + assert (Hu : forall u v, c :: s = u ++ needle ++ v -> exists u', u = c :: u' /\ s = u' ++ needle ++ v).
      { intros [|x u] v Hs.
        - enough (begins_with needle (c :: s) = true) by congruence. apply begins_with_spec. by exists v.
        - injection Hs as -> ->. by exists u. }
      destruct (find_from needle s) as [n|]; cbn [fmap option_fmap option_map].
      * destruct IH as (r & Hs & Hl & Hmin). exists r. cbn [take app length]. split; [by rewrite <- Hs|]. split; [lia|].
        intros u v (u' & -> & Hs')%Hu. simpl. specialize (Hmin u' v Hs'). lia.
      * intros u v (u' & _ & Hs')%Hu. exact (IH u' v Hs').
Qed.

Lemma absent_before needle s n : (n <= length s)%nat -> 0 < Z.of_nat (length needle) ->
  (forall u v, s = u ++ needle ++ v -> (n <= length u)%nat) -> absent needle (take n s).
Proof.
  intros Hn Hne Hmin u v Hs. assert (Hl : length (take n s) = length (u ++ needle ++ v)) by (by rewrite Hs).
  rewrite length_take, !length_app in Hl. specialize (Hmin u (v ++ drop n s)).
  enough (n <= length u)%nat by lia. apply Hmin. rewrite <- (take_drop n s) at 1. by rewrite Hs, <- !app_assoc.
Qed.

Lemma Join_cons part parts sep : parts <> [] -> Join (part :: parts) sep = part ++ sep ++ Join parts sep.
Proof. destruct parts as [|p parts]; [done|]. intros _. cbn [Join fmap list_fmap concat]. by rewrite <- !app_assoc. Qed.

Lemma Split_loop_ok fuel input split last : split <> [] -> (last <= length input + length split)%nat ->
  (Datatypes.S (length input - last) < fuel)%nat \/ (length input < last)%nat /\ (0 < fuel)%nat ->
  exists parts, Split_loop fuel input split last = Ok (List.filter (fun p => negb (bool_decide (p = []))) parts)
    /\ Forall (absent split) parts /\ ((last <= length input)%nat -> parts <> [] /\ Join parts split = drop last input)
    /\ ((length input < last)%nat -> parts = []).
Proof.
  intros Hne. revert last. induction fuel as [|fuel IH]; intros last Hlast Hf; [lia|]. cbn [Split_loop].
  destruct (Nat.ltb_spec (length input) last) as [Hlt|Hle]; [by exists []; split_and!; try done; lia|].
  assert (Hsl : (0 < length split)%nat) by (destruct split; [done|simpl; lia]).
  unfold find. rewrite (proj2 (Nat.ltb_ge _ _) Hle). pose proof (find_from_spec split (drop last input)) as Hfind.
  assert (Hld : length (drop last input) = (length input - last)%nat) by apply length_drop.
  destruct (find_from split (drop last input)) as [n|]; cbn [fmap option_fmap option_map].
  - destruct Hfind as (r & Hs & Hl & Hmin). rewrite Hld in Hl.
    destruct (IH (last + n + length split)%nat) as (parts & -> & Hall & Hin & Hout); [lia| |].
    { destruct (decide (length input < last + n + length split)%nat); [right|left]; lia. }
    exists (take n (drop last input) :: parts). cbn [rbind]. replace (last + n - last)%nat with n by lia. split_and!.
    + cbn [List.filter]. by destruct (take n (drop last input)).
    + constructor; [|done]. apply absent_before; [lia|lia|done].
    + intros _. split; [done|]. destruct (Hin ltac:(lia)) as [Hp Hj]. rewrite Join_cons, Hj by done.
      assert (Hr : r = drop (last + n + length split) input).
      { replace (last + n + length split)%nat with (last + (n + length split))%nat by lia. rewrite <- drop_drop, Hs at 1.
        rewrite app_assoc, drop_app_length'; [done|]. rewrite length_app, length_take. lia. }
      by rewrite <- Hr, <- Hs.
    + intros Hx. lia.
  - destruct (IH (length input + length split)%nat) as (parts & -> & _ & _ & Hout); [lia|right; lia|].
    rewrite (Hout ltac:(lia)). exists [drop last input]. cbn [rbind List.filter]. rewrite take_ge by lia. split_and!.
    + by destruct (drop last input).
    + by repeat constructor.
    + intros _. split; [done|]. cbn [Join fmap list_fmap concat]. by rewrite app_nil_r.
    + intros Hx. lia.
Qed.

Lemma getlines_app d cur w s : d ∉ w -> getlines d cur (w ++ d :: s) = (rev cur ++ w) :: getlines d [] s.
Proof.
  revert cur. induction w as [|c w IH]; intros cur Hd; cbn [app getlines].
  - by rewrite Z.eqb_refl, app_nil_r.
  - rewrite (proj2 (Z.eqb_neq _ _)) by set_solver. rewrite IH by set_solver. cbn [rev]. by rewrite <- app_assoc.
Qed.

Lemma getlines_last d cur w : d ∉ w -> getlines d cur w = match rev cur ++ w with [] => [] | l => [l] end.
Proof.
  revert cur. induction w as [|c w IH]; intros cur Hd; cbn [getlines].
  - rewrite app_nil_r. destruct cur as [|c cur]; [done|]. cbn [rev]. by destruct (rev cur).
  - rewrite (proj2 (Z.eqb_neq _ _)) by set_solver. rewrite IH by set_solver. cbn [rev]. by rewrite <- app_assoc.
Qed.

(** ** Properties *)

(** splitting and joining.  [Split] by a character gives back the lines that
    [Join] put together, when no line contains the character and the last is not
    empty.  [Split] by a string that is not empty ends, and gives the pieces
    between the occurrences of the string that are not empty: with the empty
    ones they join to the input, and none of them contains the string.  By the
    empty string it never ends. *)
Theorem Split_Join :
  (forall (lines : list bytes) d, Forall (fun l => d ∉ l) lines -> last lines <> Some [] -> Split_char (Join lines [d]) d = lines) /\
  (forall input split fuel, split <> [] -> (Datatypes.S (length input) < fuel)%nat -> exists parts,
     Split fuel input split = Ok (List.filter (fun p => negb (bool_decide (p = []))) parts)
     /\ Join parts split = input /\ Forall (absent split) parts) /\
  (forall input fuel, Split fuel input [] = Err OutOfFuel).
Proof.
  split; [|split].
  - intros lines d Hd. unfold Split_char. induction Hd as [|l lines Hl Hd IH]; [done|]. intros Hlast.
    destruct lines as [|l' lines].
    + cbn [Join fmap list_fmap concat]. rewrite app_nil_r, getlines_last by done. cbn [rev app]. by destruct l.
    + rewrite Join_cons by done. cbn [app]. rewrite getlines_app by done. cbn [rev app]. by rewrite IH.
  - intros input split fuel Hne Hf. destruct (Split_loop_ok fuel input split 0 Hne ltac:(lia) ltac:(left; lia)) as (parts & Hrun & Hall & Hin & _).
    exists parts. destruct (Hin ltac:(lia)) as [_ Hj]. by rewrite drop_0 in Hj.
  - intros input fuel. unfold Split. assert (Hloop : forall last, (last <= length input)%nat -> Split_loop fuel input [] last = Err OutOfFuel); [|apply Hloop; lia].
    induction fuel as [|fuel IH]; intros last Hl; [done|]. cbn [Split_loop]. rewrite (proj2 (Nat.ltb_ge _ _) Hl).
    assert (Hfind : find input [] last = Some last).
    { unfold find. rewrite (proj2 (Nat.ltb_ge _ _) Hl). destruct (drop last input); cbn [find_from begins_with]; by rewrite fmap_Some_2 with (x := 0%nat), Nat.add_0_r. }
    rewrite Hfind, Nat.add_0_r. by rewrite IH.
Qed.

Lemma Split_Join_witness : Split_char (str "a,,b") 44 = [str "a"; []; str "b"]
  /\ exists parts, Split 11 (str "x--y----z") (str "--") = Ok (List.filter (fun p => negb (bool_decide (p = []))) parts)
       /\ Join parts (str "--") = str "x--y----z".
Proof.
  destruct Split_Join as (Hchar & Hstr & _). split.
  - apply (Hchar [str "a"; []; str "b"] 44); [|done]. repeat constructor; apply (bool_decide_unpack _); by vm_compute.
  - destruct (Hstr (str "x--y----z") (str "--") 11%nat) as (parts & Hrun & Hj & _); [done|by apply Nat.ltb_lt|]. by exists parts.
Defined.
