(* ===== verification/Value.v ===== *)
(** SQL values: [src/include/type/type_id.h], [src/include/type/limits.h],
    [src/include/type/value.h], [src/type/value.cpp] and the static part of
    [src/type/type.cpp].

    The union [Val] is the member that was written last; [VInt] stands for the
    five integral members, whose width is the one of the value's [type_id_].
    The bytes behind a [varlen_] pointer are part of the value: an unmanaged
    value shares them with its creator, which outlives it in the source. *)

From Stdlib Require Import SpecFloat.
From S2P Require Import Prelude Bytes Ieee CString.

(** ** Definitions *)

Inductive TypeId : Type :=
| INVALID | BOOLEAN | TINYINT | SMALLINT | INTEGER | BIGINT | DECIMAL | VARCHAR | TIMESTAMP.

#[export] Instance TypeId_eq_dec : EqDecision TypeId.
Proof. solve_decision. Defined.

Inductive CmpBool : Type := CmpFalse | CmpTrue | CmpNull.

#[export] Instance CmpBool_eq_dec : EqDecision CmpBool.
Proof. solve_decision. Defined.

Definition GetCmpBool (boolean : bool) : CmpBool := if boolean then CmpTrue else CmpFalse.

(** [limits.h]. *)
Definition BUSTUB_INT8_MIN : Z := - 2 ^ 7 + 1.
Definition BUSTUB_INT16_MIN : Z := - 2 ^ 15 + 1.
Definition BUSTUB_INT32_MIN : Z := - 2 ^ 31 + 1.
Definition BUSTUB_INT64_MIN : Z := - 2 ^ 63 + 1.
Definition BUSTUB_DECIMAL_MIN : double := FLT_LOWEST.
Definition BUSTUB_INT8_MAX : Z := 2 ^ 7 - 1.
Definition BUSTUB_INT16_MAX : Z := 2 ^ 15 - 1.
Definition BUSTUB_INT32_MAX : Z := 2 ^ 31 - 1.
Definition BUSTUB_INT64_MAX : Z := 2 ^ 63 - 1.
Definition BUSTUB_DECIMAL_MAX : double := DBL_MAX.
Definition BUSTUB_TIMESTAMP_MAX : Z := 11231999986399999999.
Definition BUSTUB_VALUE_NULL : Z := 2 ^ 32 - 1.
Definition BUSTUB_INT8_NULL : Z := - 2 ^ 7.
Definition BUSTUB_INT16_NULL : Z := - 2 ^ 15.
Definition BUSTUB_INT32_NULL : Z := - 2 ^ 31.
Definition BUSTUB_INT64_NULL : Z := - 2 ^ 63.
Definition BUSTUB_TIMESTAMP_NULL : Z := 2 ^ 64 - 1.
Definition BUSTUB_DECIMAL_NULL : double := DBL_LOWEST.
Definition BUSTUB_BOOLEAN_NULL : Z := - 2 ^ 7.
Definition BUSTUB_VARCHAR_MAX_LEN : Z := 2 ^ 32 - 1.

Inductive Val : Type :=
| VUninit
| VInt (z : Z)
| VDecimal (d : double)
| VVarlen (p : option bytes).

Record Value : Type := MkValue {
  type_id_ : TypeId;
  value_ : Val;
  len_ : Z;
  manage_data_ : bool
}.

#[export] Instance Val_eq_dec : EqDecision Val.
Proof. solve_decision. Defined.
#[export] Instance Value_eq_dec : EqDecision Value.
Proof. solve_decision. Defined.

Definition IsNull (v : Value) : bool := len_ v =? BUSTUB_VALUE_NULL.

(** [value_.tinyint_], ..., [GetAs<int8_t>()], ...: the active integral member. *)
Definition GetAs_int (v : Value) : res Z :=
  match value_ v with VInt z => Ok z | _ => Err TypeConfusion end.
Definition GetAs_double (v : Value) : res double :=
  match value_ v with VDecimal d => Ok d | _ => Err TypeConfusion end.

(** *** Constructors *)

Definition Value_type (type : TypeId) : Value := MkValue type VUninit BUSTUB_VALUE_NULL false.

(** Store [i] in an integral member of [w] bits whose null is [null]. *)
Definition set_int (type : TypeId) (w null i : Z) : Value :=
  MkValue type (VInt (signed w i)) (if signed w i =? null then BUSTUB_VALUE_NULL else 0) false.
Definition set_timestamp (type : TypeId) (i : Z) : Value :=
  MkValue type (VInt (unsigned 64 i)) (if unsigned 64 i =? BUSTUB_TIMESTAMP_NULL then BUSTUB_VALUE_NULL else 0) false.

Definition Value_int8 (type : TypeId) (i : Z) : res Value :=
  match type with
  | BOOLEAN => Ok (set_int type 8 BUSTUB_BOOLEAN_NULL i)
  | TINYINT => Ok (set_int type 8 BUSTUB_INT8_NULL i)
  | SMALLINT => Ok (set_int type 16 BUSTUB_INT16_NULL i)
  | INTEGER => Ok (set_int type 32 BUSTUB_INT32_NULL i)
  | BIGINT => Ok (set_int type 64 BUSTUB_INT64_NULL i)
  | _ => Err (Raised EX_INCOMPATIBLE_TYPE)
  end.

Definition Value_int16 (type : TypeId) (i : Z) : res Value :=
  match type with
  | BOOLEAN => Ok (set_int type 8 BUSTUB_BOOLEAN_NULL i)
  | TINYINT => Ok (set_int type 8 BUSTUB_INT8_NULL i)
  | SMALLINT => Ok (set_int type 16 BUSTUB_INT16_NULL i)
  | INTEGER => Ok (set_int type 32 BUSTUB_INT32_NULL i)
  | BIGINT => Ok (set_int type 64 BUSTUB_INT64_NULL i)
  | TIMESTAMP => Ok (set_timestamp type i)
  | _ => Err (Raised EX_INCOMPATIBLE_TYPE)
  end.

Definition Value_int32 (type : TypeId) (i : Z) : res Value :=
  match type with
  | BOOLEAN => Ok (set_int type 8 BUSTUB_BOOLEAN_NULL i)
  | TINYINT => Ok (set_int type 8 BUSTUB_INT8_NULL i)
  | SMALLINT => Ok (set_int type 16 BUSTUB_INT16_NULL i)
  | INTEGER => Ok (set_int type 32 BUSTUB_INT32_NULL i)
  | BIGINT => Ok (set_int type 64 BUSTUB_INT64_NULL i)
  | TIMESTAMP => Ok (set_timestamp type i)
  | _ => Err (Raised EX_INCOMPATIBLE_TYPE)
  end.

Definition Value_int64 (type : TypeId) (i : Z) : res Value :=
  match type with
  | BOOLEAN => Ok (set_int type 8 BUSTUB_BOOLEAN_NULL i)
  | TINYINT => Ok (set_int type 8 BUSTUB_INT8_NULL i)
  | SMALLINT => Ok (set_int type 16 BUSTUB_INT16_NULL i)
  | INTEGER => Ok (set_int type 32 BUSTUB_INT32_NULL i)
  | BIGINT => Ok (set_int type 64 BUSTUB_INT64_NULL i)
  | TIMESTAMP => Ok (set_timestamp type i)
  | _ => Err (Raised EX_INCOMPATIBLE_TYPE)
  end.

Definition Value_uint64 (type : TypeId) (i : Z) : res Value :=
  match type with
  | BIGINT => Ok (set_int type 64 BUSTUB_INT64_NULL i)
  | TIMESTAMP => Ok (set_timestamp type i)
  | _ => Err (Raised EX_INCOMPATIBLE_TYPE)
  end.

Definition Value_double (type : TypeId) (d : double) : res Value :=
  match type with
  | DECIMAL =>
    Ok (MkValue type (VDecimal d) (if SFeqb d BUSTUB_DECIMAL_NULL then BUSTUB_VALUE_NULL else 0) false)
  | _ => Err (Raised EX_INCOMPATIBLE_TYPE)
  end.

(** [data] is the memory from the pointer on, [None] for [nullptr]. *)
Definition Value_varlen (type : TypeId) (data : option bytes) (len : Z) (manage_data : bool) : res Value :=
  match type with
  | VARCHAR =>
    match data with
    | None => Ok (MkValue type (VVarlen None) BUSTUB_VALUE_NULL false)
    | Some p =>
      if manage_data then
        let! _ := assert (len <? BUSTUB_VARCHAR_MAX_LEN) in
        let! bs := mem_read p 0 len in
        Ok (MkValue type (VVarlen (Some bs)) len manage_data)
      else Ok (MkValue type (VVarlen (Some p)) len manage_data)
    end
  | _ => Err (Raised EX_INCOMPATIBLE_TYPE)
  end.

(** The [len] bytes copied from [data.c_str()] include the terminator. *)
Definition Value_string (type : TypeId) (data : bytes) : res Value :=
  match type with
  | VARCHAR =>
    let len := unsigned 32 (unsigned 32 (Z.of_nat (length data)) + 1) in
    let! bs := mem_read (data ++ [0]) 0 len in
    Ok (MkValue type (VVarlen (Some bs)) len true)
  | _ => Err (Raised EX_INCOMPATIBLE_TYPE)
  end.

(** The copy constructor. *)
Definition Value_copy (other : Value) : res Value :=
  match type_id_ other with
  | VARCHAR =>
    if len_ other =? BUSTUB_VALUE_NULL
    then Ok (MkValue (type_id_ other) (VVarlen None) (len_ other) (manage_data_ other))
    else if manage_data_ other then
      match value_ other with
      | VVarlen (Some p) =>
        let! bs := mem_read p 0 (len_ other) in
        Ok (MkValue (type_id_ other) (VVarlen (Some bs)) (len_ other) (manage_data_ other))
      | VVarlen None => Err NullDereference
      | _ => Err TypeConfusion
      end
    else Ok other
  | _ => Ok other
  end.

(** *** Checks *)

Definition CheckComparable (v o : Value) : bool :=
  match type_id_ v with
  | BOOLEAN => match type_id_ o with BOOLEAN | VARCHAR => true | _ => false end
  | TINYINT | SMALLINT | INTEGER | BIGINT | DECIMAL =>
    match type_id_ o with
    | TINYINT | SMALLINT | INTEGER | BIGINT | DECIMAL | VARCHAR => true
    | _ => false
    end
  | VARCHAR => true
  | _ => false
  end.

Definition CheckInteger (v : Value) : bool :=
  match type_id_ v with TINYINT | SMALLINT | INTEGER | BIGINT => true | _ => false end.

(** *** The static part of [Type] *)

Definition GetTypeSize (type_id : TypeId) : res Z :=
  match type_id with
  | BOOLEAN | TINYINT => Ok 1
  | SMALLINT => Ok 2
  | INTEGER => Ok 4
  | BIGINT | DECIMAL | TIMESTAMP => Ok 8
  | VARCHAR => Ok 0
  | INVALID => Err (Raised EX_UNKNOWN_TYPE)
  end.

(** [IsCoercableFrom] of the type instance [self]. *)
Definition IsCoercableFrom (self type_id : TypeId) : bool :=
  match self with
  | INVALID => false
  | BOOLEAN => true
  | TINYINT | SMALLINT | INTEGER | BIGINT | DECIMAL =>
    match type_id with TINYINT | SMALLINT | INTEGER | BIGINT | DECIMAL | VARCHAR => true | _ => false end
  | TIMESTAMP => match type_id with VARCHAR | TIMESTAMP => true | _ => false end
  | VARCHAR =>
    match type_id with
    | BOOLEAN | TINYINT | SMALLINT | INTEGER | BIGINT | DECIMAL | TIMESTAMP | VARCHAR => true
    | _ => false
    end
  end.

Definition TypeIdToString (type_id : TypeId) : bytes :=
  match type_id with
  | INVALID => str "INVALID"
  | BOOLEAN => str "BOOLEAN"
  | TINYINT => str "TINYINT"
  | SMALLINT => str "SMALLINT"
  | INTEGER => str "INTEGER"
  | BIGINT => str "BIGINT"
  | DECIMAL => str "DECIMAL"
  | TIMESTAMP => str "TIMESTAMP"
  | VARCHAR => str "VARCHAR"
  end.

Definition GetMinValue (type_id : TypeId) : res Value :=
  match type_id with
  | BOOLEAN => Value_int32 type_id 0
  | TINYINT => Value_int8 type_id BUSTUB_INT8_MIN
  | SMALLINT => Value_int16 type_id BUSTUB_INT16_MIN
  | INTEGER => Value_int32 type_id BUSTUB_INT32_MIN
  | BIGINT => Value_int64 type_id BUSTUB_INT64_MIN
  | DECIMAL => Value_double type_id BUSTUB_DECIMAL_MIN
  | TIMESTAMP => Value_int32 type_id 0
  | VARCHAR => Value_string type_id []
  | INVALID => Err (Raised EX_MISMATCH_TYPE)
  end.

Definition GetMaxValue (type_id : TypeId) : res Value :=
  match type_id with
  | BOOLEAN => Value_int32 type_id 1
  | TINYINT => Value_int8 type_id BUSTUB_INT8_MAX
  | SMALLINT => Value_int16 type_id BUSTUB_INT16_MAX
  | INTEGER => Value_int32 type_id BUSTUB_INT32_MAX
  | BIGINT => Value_int64 type_id BUSTUB_INT64_MAX
  | DECIMAL => Value_double type_id BUSTUB_DECIMAL_MAX
  | TIMESTAMP => Value_uint64 type_id BUSTUB_TIMESTAMP_MAX
  | VARCHAR => Value_varlen type_id None 0 false
  | INVALID => Err (Raised EX_MISMATCH_TYPE)
  end.

(** *** Virtual calls

    [k_types] has fourteen entries of which eight are initialised: there is no
    instance for [TIMESTAMP].  A [vtable] holds one method of every instance. *)
Record vtable (A : Type) : Type := MkVtable {
  vt_invalid : A; vt_boolean : A; vt_tinyint : A; vt_smallint : A;
  vt_integer : A; vt_bigint : A; vt_decimal : A; vt_varchar : A
}.
Arguments MkVtable {A}.
Arguments vt_invalid {A}. Arguments vt_boolean {A}. Arguments vt_tinyint {A}. Arguments vt_smallint {A}.
Arguments vt_integer {A}. Arguments vt_bigint {A}. Arguments vt_decimal {A}. Arguments vt_varchar {A}.

Definition GetInstance {A} (k_types : vtable A) (type_id : TypeId) : res A :=
  match type_id with
  | INVALID => Ok (vt_invalid k_types)
  | BOOLEAN => Ok (vt_boolean k_types)
  | TINYINT => Ok (vt_tinyint k_types)
  | SMALLINT => Ok (vt_smallint k_types)
  | INTEGER => Ok (vt_integer k_types)
  | BIGINT => Ok (vt_bigint k_types)
  | DECIMAL => Ok (vt_decimal k_types)
  | VARCHAR => Ok (vt_varchar k_types)
  | TIMESTAMP => Err NullDereference
  end.

(** Every method of the base class [Type]. *)
Definition Type_not_implemented {A} : res A := Err (Raised EX_NOT_IMPLEMENTED).
(** [throw Exception("type error")]. *)
Definition type_error {A} : res A := Err (Raised EX_INVALID).
