(* ===== verification/Types.v ===== *)
(** The type instances: one group of definitions per class of [src/type]
    ([BooleanType], [TinyintType], [SmallintType], [IntegerType], [BigintType],
    [DecimalType], [VarlenType]) and the virtual calls of [value.h] on them.

    The groups are layered the way the methods call each other: [ToString] and
    [Copy], then [CastAs], then the null and zero tests, the comparisons, the
    arithmetic, minimum and maximum, and the storage format.  The source writes
    the comparison and arithmetic switches as macros with the operator as an
    argument; they are functions of [cmp_op] and of the two operations here. *)

From Stdlib Require Import SpecFloat.
From S2P Require Import Prelude Bytes Ieee CString Value.

(** ** Definitions *)

(** *** ToString *)

Definition BooleanType_ToString (val : Value) : res bytes :=
  let! b := GetAs_int val in
  Ok (if b =? 1 then str "true" else if b =? 0 then str "false" else str "boolean_null").

Definition TinyintType_ToString (val : Value) : res bytes :=
  let! _ := assert (CheckInteger val) in
  if IsNull val then Ok (str "tinyint_null") else to_string <$> GetAs_int val.

Definition SmallintType_ToString (val : Value) : res bytes :=
  let! _ := assert (CheckInteger val) in
  match type_id_ val with
  | TINYINT => if IsNull val then Ok (str "tinyint_null") else to_string <$> GetAs_int val
  | SMALLINT => if IsNull val then Ok (str "smallint_null") else to_string <$> GetAs_int val
  | INTEGER => if IsNull val then Ok (str "integer_null") else to_string <$> GetAs_int val
  | BIGINT => if IsNull val then Ok (str "bigint_null") else to_string <$> GetAs_int val
  | _ => type_error
  end.

Definition IntegerType_ToString (val : Value) : res bytes :=
  let! _ := assert (CheckInteger val) in
  if IsNull val then Ok (str "integer_null") else to_string <$> GetAs_int val.

Definition BigintType_ToString (val : Value) : res bytes :=
  let! _ := assert (CheckInteger val) in
  if IsNull val then Ok (str "bigint_null") else to_string <$> GetAs_int val.

Definition DecimalType_ToString (val : Value) : res bytes :=
  if IsNull val then Ok (str "decimal_null") else double_to_string <$> GetAs_double val.

(** [val.value_.varlen_] and [val.size_.len_]. *)
Definition VarlenType_GetData (val : Value) : res (option bytes) :=
  match value_ val with VVarlen p => Ok p | _ => Err TypeConfusion end.
Definition VarlenType_GetLength (val : Value) : res Z := Ok (len_ val).

(** The first [n] bytes behind a pointer. *)
Definition read_data (p : option bytes) (n : Z) : res bytes :=
  match p with Some m => mem_read m 0 n | None => Err NullDereference end.

Definition VarlenType_ToString (val : Value) : res bytes :=
  let! len := VarlenType_GetLength val in
  if IsNull val then Ok (str "varlen_null")
  else if len =? BUSTUB_VARCHAR_MAX_LEN then Ok (str "varlen_max")
  else if len =? 0 then Ok []
  else let! p := VarlenType_GetData val in read_data p (len - 1).

Definition Value_ToString (v : Value) : res bytes :=
  let! f := GetInstance (MkVtable (fun _ => Type_not_implemented) BooleanType_ToString TinyintType_ToString
              SmallintType_ToString IntegerType_ToString BigintType_ToString DecimalType_ToString
              VarlenType_ToString) (type_id_ v) in
  f v.

(** [GetLength] and [GetData] of a value. *)
Definition Value_GetLength (v : Value) : res Z :=
  let! f := GetInstance (MkVtable (fun _ => Type_not_implemented) (fun _ => Type_not_implemented)
              (fun _ => Type_not_implemented) (fun _ => Type_not_implemented) (fun _ => Type_not_implemented)
              (fun _ => Type_not_implemented) (fun _ => Type_not_implemented) VarlenType_GetLength) (type_id_ v) in
  f v.
Definition Value_GetData (v : Value) : res (option bytes) :=
  let! f := GetInstance (MkVtable (fun _ => Type_not_implemented) (fun _ => Type_not_implemented)
              (fun _ => Type_not_implemented) (fun _ => Type_not_implemented) (fun _ => Type_not_implemented)
              (fun _ => Type_not_implemented) (fun _ => Type_not_implemented) VarlenType_GetData) (type_id_ v) in
  f v.

(** *** Copy *)

Definition BooleanType_Copy (val : Value) : res Value := let! b := GetAs_int val in Value_int8 BOOLEAN b.
Definition TinyintType_Copy (val : Value) : res Value :=
  let! _ := assert (CheckInteger val) in let! z := GetAs_int val in Value_int8 TINYINT z.
Definition SmallintType_Copy (val : Value) : res Value :=
  let! _ := assert (CheckInteger val) in let! z := GetAs_int val in Value_int16 SMALLINT z.
Definition IntegerType_Copy (val : Value) : res Value :=
  let! _ := assert (CheckInteger val) in let! z := GetAs_int val in Value_int32 (type_id_ val) z.
Definition BigintType_Copy (val : Value) : res Value := let! z := GetAs_int val in Value_int64 BIGINT z.
Definition DecimalType_Copy (val : Value) : res Value := let! d := GetAs_double val in Value_double DECIMAL d.
Definition VarlenType_Copy (val : Value) : res Value := Value_copy val.

Definition Value_Copy (v : Value) : res Value :=
  let! f := GetInstance (MkVtable (fun _ => Type_not_implemented) BooleanType_Copy TinyintType_Copy
              SmallintType_Copy IntegerType_Copy BigintType_Copy DecimalType_Copy VarlenType_Copy) (type_id_ v) in
  f v.

(** *** CastAs *)

(** A null value, or the value [k] computes. *)
Definition unless_null (val : Value) (null : res Value) (k : res Value) : res Value :=
  if IsNull val then null else k.

(** [if (z > max || z < min) throw OUT_OF_RANGE]. *)
Definition check_range (z min max : Z) : res unit :=
  if (max <? z) || (z <? min) then Err (Raised EX_OUT_OF_RANGE) else Ok tt.
Definition check_double_range (d min max : double) : res unit :=
  if SFltb max d || SFltb d min then Err (Raised EX_OUT_OF_RANGE) else Ok tt.

Definition cast_to_varchar (val : Value) (k : res bytes) : res Value :=
  unless_null val (Value_varlen VARCHAR None 0 false) (let! s := k in Value_string VARCHAR s).

Definition BooleanType_CastAs (val : Value) (type_id : TypeId) : res Value :=
  match type_id with
  | BOOLEAN => BooleanType_Copy val
  | VARCHAR => cast_to_varchar val (Value_ToString val)
  | _ => type_error
  end.

Definition TinyintType_CastAs (val : Value) (type_id : TypeId) : res Value :=
  match type_id with
  | TINYINT => unless_null val (Value_int8 type_id BUSTUB_INT8_NULL) (TinyintType_Copy val)
  | SMALLINT => unless_null val (Value_int16 type_id BUSTUB_INT16_NULL) (let! z := GetAs_int val in Value_int16 type_id (signed 16 z))
  | INTEGER => unless_null val (Value_int32 type_id BUSTUB_INT32_NULL) (let! z := GetAs_int val in Value_int32 type_id (signed 32 z))
  | BIGINT => unless_null val (Value_int64 type_id BUSTUB_INT64_NULL) (let! z := GetAs_int val in Value_int64 type_id (signed 64 z))
  | DECIMAL => unless_null val (Value_double type_id BUSTUB_DECIMAL_NULL)
      (let! z := GetAs_int val in Value_double type_id (double_of_Z z))
  | VARCHAR => cast_to_varchar val (Value_ToString val)
  | _ => type_error
  end.

Definition SmallintType_CastAs (val : Value) (type_id : TypeId) : res Value :=
  match type_id with
  | TINYINT => unless_null val (Value_int8 type_id BUSTUB_INT8_NULL) (
      let! z := GetAs_int val in
      let! _ := check_range z BUSTUB_INT8_MIN BUSTUB_INT8_MAX in
      Value_int8 type_id (signed 8 z))
  | SMALLINT => unless_null val (Value_int16 type_id BUSTUB_INT16_NULL) (SmallintType_Copy val)
  | INTEGER => unless_null val (Value_int32 type_id BUSTUB_INT32_NULL) (let! z := GetAs_int val in Value_int32 type_id (signed 32 z))
  | BIGINT => unless_null val (Value_int64 type_id BUSTUB_INT64_NULL) (let! z := GetAs_int val in Value_int64 type_id (signed 64 z))
  | DECIMAL => unless_null val (Value_double type_id BUSTUB_DECIMAL_NULL)
      (let! z := GetAs_int val in Value_double type_id (double_of_Z z))
  | VARCHAR => cast_to_varchar val (Value_ToString val)
  | _ => type_error
  end.

Definition IntegerType_CastAs (val : Value) (type_id : TypeId) : res Value :=
  match type_id with
  | TINYINT => unless_null val (Value_int8 type_id BUSTUB_INT8_NULL) (
      let! z := GetAs_int val in
      let! _ := check_range z BUSTUB_INT8_MIN BUSTUB_INT8_MAX in
      Value_int8 type_id (signed 8 z))
  | SMALLINT => unless_null val (Value_int16 type_id BUSTUB_INT16_NULL) (
      let! z := GetAs_int val in
      let! _ := check_range z BUSTUB_INT16_MIN BUSTUB_INT16_MAX in
      Value_int16 type_id (signed 16 z))
  | INTEGER => unless_null val (Value_int32 type_id BUSTUB_INT32_NULL) (let! z := GetAs_int val in Value_int32 type_id (signed 32 z))
  | BIGINT => unless_null val (Value_int64 type_id BUSTUB_INT64_NULL) (let! z := GetAs_int val in Value_int64 type_id (signed 64 z))
  | DECIMAL => unless_null val (Value_double type_id BUSTUB_DECIMAL_NULL)
      (let! z := GetAs_int val in Value_double type_id (double_of_Z z))
  | VARCHAR => cast_to_varchar val (Value_ToString val)
  | _ => type_error
  end.

Definition BigintType_CastAs (val : Value) (type_id : TypeId) : res Value :=
  match type_id with
  | TINYINT => unless_null val (Value_int8 type_id BUSTUB_INT8_NULL) (
      let! z := GetAs_int val in
      let! _ := check_range z BUSTUB_INT8_MIN BUSTUB_INT8_MAX in
      Value_int8 type_id (signed 8 z))
  | SMALLINT => unless_null val (Value_int16 type_id BUSTUB_INT16_NULL) (
      let! z := GetAs_int val in
      let! _ := check_range z BUSTUB_INT16_MIN BUSTUB_INT16_MAX in
      Value_int16 type_id (signed 16 z))
  | INTEGER => unless_null val (Value_int32 type_id BUSTUB_INT32_NULL) (
      let! z := GetAs_int val in
      let! _ := check_range z BUSTUB_INT32_MIN BUSTUB_INT32_MAX in
      Value_int32 type_id (signed 32 z))
  | BIGINT => unless_null val (Value_int64 type_id BUSTUB_INT64_NULL) (BigintType_Copy val)
  | DECIMAL => unless_null val (Value_double type_id BUSTUB_DECIMAL_NULL)
      (let! z := GetAs_int val in Value_double type_id (double_of_Z z))
  | VARCHAR => cast_to_varchar val (Value_ToString val)
  | _ => type_error
  end.

Definition DecimalType_CastAs (val : Value) (type_id : TypeId) : res Value :=
  match type_id with
  | TINYINT => unless_null val (Value_int8 type_id BUSTUB_INT8_NULL) (
      let! d := GetAs_double val in
      let! _ := check_double_range d (double_of_Z BUSTUB_INT8_MIN) (double_of_Z BUSTUB_INT8_MAX) in
      let! z := double_to_int 8 d in
      Value_int8 type_id z)
  | SMALLINT => unless_null val (Value_int16 type_id BUSTUB_INT16_NULL) (
      let! d := GetAs_double val in
      let! _ := check_double_range d (double_of_Z BUSTUB_INT16_MIN) (double_of_Z BUSTUB_INT16_MAX) in
      let! z := double_to_int 16 d in
      Value_int16 type_id z)
  | INTEGER => unless_null val (Value_int32 type_id BUSTUB_INT32_NULL) (
      let! d := GetAs_double val in
      let! _ := check_double_range d (double_of_Z BUSTUB_INT32_MIN) (double_of_Z BUSTUB_INT32_MAX) in
      let! z := double_to_int 32 d in
      Value_int32 type_id z)
  | BIGINT => unless_null val (Value_int64 type_id BUSTUB_INT64_NULL) (
      let! d := GetAs_double val in
      let! _ := check_double_range d (double_of_Z BUSTUB_INT64_MIN) (double_of_Z BUSTUB_INT64_MAX) in
      let! z := double_to_int 64 d in
      Value_int64 type_id z)
  | DECIMAL => Value_Copy val
  | VARCHAR => cast_to_varchar val (Value_ToString val)
  | _ => type_error
  end.

(** [catch (std::out_of_range &e) { throw Exception(OUT_OF_RANGE, ...); }]. *)
Definition catch_out_of_range {A} (r : res A) : res A :=
  match r with Err StdOutOfRange => Err (Raised EX_OUT_OF_RANGE) | _ => r end.

Definition VarlenType_CastAs (value : Value) (type_id : TypeId) : res Value :=
  match type_id with
  | BOOLEAN =>
    let! s := Value_ToString value in
    let s := tolower <$> s in
    if bool_decide (s = str "true") || bool_decide (s = str "1") || bool_decide (s = str "t")
    then Value_int32 type_id 1
    else if bool_decide (s = str "false") || bool_decide (s = str "0") || bool_decide (s = str "f")
    then Value_int32 type_id 0
    else Err (Raised EX_INVALID)
  | TINYINT =>
    let! s := Value_ToString value in
    let! i := catch_out_of_range (stoi s) in
    let tinyint := signed 8 i in
    if tinyint <? BUSTUB_INT8_MIN then Err (Raised EX_OUT_OF_RANGE) else Value_int8 type_id tinyint
  | SMALLINT =>
    let! s := Value_ToString value in
    let! i := catch_out_of_range (stoi s) in
    let smallint := signed 16 i in
    if smallint <? BUSTUB_INT16_MIN then Err (Raised EX_OUT_OF_RANGE) else Value_int16 type_id smallint
  | INTEGER =>
    let! s := Value_ToString value in
    let! integer := catch_out_of_range (stoi s) in
    Value_int32 type_id integer
  | BIGINT =>
    let! s := Value_ToString value in
    let! bigint := catch_out_of_range (stoll s) in
    let! _ := check_range bigint BUSTUB_INT64_MIN BUSTUB_INT64_MAX in
    Value_int64 type_id bigint
  | DECIMAL =>
    let! s := Value_ToString value in
    let! d := catch_out_of_range (stod s) in
    let! _ := check_double_range d BUSTUB_DECIMAL_MIN BUSTUB_DECIMAL_MAX in
    Value_double type_id d
  | VARCHAR => Value_Copy value
  | _ => type_error
  end.

Definition Value_CastAs (v : Value) (type_id : TypeId) : res Value :=
  let! f := GetInstance (MkVtable (fun _ _ => Type_not_implemented) BooleanType_CastAs TinyintType_CastAs
              SmallintType_CastAs IntegerType_CastAs BigintType_CastAs DecimalType_CastAs
              VarlenType_CastAs) (type_id_ v) in
  f v type_id.

(** *** IsZero and OperateNull *)

Definition TinyintType_IsZero (val : Value) : res bool := let! z := GetAs_int val in Ok (z =? 0).
Definition SmallintType_IsZero (val : Value) : res bool := let! z := GetAs_int val in Ok (z =? 0).
Definition IntegerType_IsZero (val : Value) : res bool := let! z := GetAs_int val in Ok (z =? 0).
Definition BigintType_IsZero (val : Value) : res bool := let! z := GetAs_int val in Ok (z =? 0).
Definition DecimalType_IsZero (val : Value) : res bool :=
  let! d := GetAs_double val in Ok (SFeqb d (S754_zero false)).

Definition Value_IsZero (v : Value) : res bool :=
  let! f := GetInstance (MkVtable (fun _ => Type_not_implemented) (fun _ => Type_not_implemented)
              TinyintType_IsZero SmallintType_IsZero IntegerType_IsZero BigintType_IsZero DecimalType_IsZero
              (fun _ => Type_not_implemented)) (type_id_ v) in
  f v.

Definition TinyintType_OperateNull (left right : Value) : res Value :=
  match type_id_ right with
  | TINYINT => Value_int8 TINYINT BUSTUB_INT8_NULL
  | SMALLINT => Value_int16 SMALLINT BUSTUB_INT16_NULL
  | INTEGER => Value_int32 INTEGER BUSTUB_INT32_NULL
  | BIGINT => Value_int64 BIGINT BUSTUB_INT64_NULL
  | DECIMAL => Value_double DECIMAL BUSTUB_DECIMAL_NULL
  | _ => type_error
  end.
Definition SmallintType_OperateNull (left right : Value) : res Value :=
  match type_id_ right with
  | TINYINT | SMALLINT => Value_int16 SMALLINT BUSTUB_INT16_NULL
  | INTEGER => Value_int32 INTEGER BUSTUB_INT32_NULL
  | BIGINT => Value_int64 BIGINT BUSTUB_INT64_NULL
  | DECIMAL => Value_double DECIMAL BUSTUB_DECIMAL_NULL
  | _ => type_error
  end.
Definition IntegerType_OperateNull (left right : Value) : res Value :=
  match type_id_ right with
  | TINYINT | SMALLINT | INTEGER => Value_int32 INTEGER BUSTUB_INT32_NULL
  | BIGINT => Value_int64 BIGINT BUSTUB_INT64_NULL
  | DECIMAL => Value_double DECIMAL BUSTUB_DECIMAL_NULL
  | _ => type_error
  end.
Definition BigintType_OperateNull (left right : Value) : res Value :=
  match type_id_ right with
  | TINYINT | SMALLINT | INTEGER | BIGINT => Value_int64 BIGINT BUSTUB_INT64_NULL
  | DECIMAL => Value_double DECIMAL BUSTUB_DECIMAL_NULL
  | _ => type_error
  end.
Definition DecimalType_OperateNull (left right : Value) : res Value := Value_double DECIMAL BUSTUB_DECIMAL_NULL.

Definition Value_OperateNull (v o : Value) : res Value :=
  let! f := GetInstance (MkVtable (fun _ _ => Type_not_implemented) (fun _ _ => Type_not_implemented)
              TinyintType_OperateNull SmallintType_OperateNull IntegerType_OperateNull BigintType_OperateNull
              DecimalType_OperateNull (fun _ _ => Type_not_implemented)) (type_id_ v) in
  f v o.

(** *** Comparisons *)

Inductive cmp_op : Type := OpEq | OpNe | OpLt | OpLe | OpGt | OpGe.

Definition zcmp (op : cmp_op) (x y : Z) : bool :=
  match op with
  | OpEq => x =? y | OpNe => negb (x =? y) | OpLt => x <? y | OpLe => x <=? y | OpGt => y <? x | OpGe => y <=? x
  end.
Definition dcmp (op : cmp_op) (x y : double) : bool :=
  match op with
  | OpEq => SFeqb x y | OpNe => negb (SFeqb x y) | OpLt => SFltb x y | OpLe => SFleb x y | OpGt => SFltb y x
  | OpGe => SFleb y x
  end.

(** The comparison switch of an integer type [self]. *)
Definition INTEGER_COMPARE_FUNC (self : TypeId) (OP : cmp_op) (left right : Value) : res CmpBool :=
  let! x := GetAs_int left in
  match type_id_ right with
  | TINYINT | SMALLINT | INTEGER | BIGINT => let! y := GetAs_int right in Ok (GetCmpBool (zcmp OP x y))
  | DECIMAL => let! y := GetAs_double right in Ok (GetCmpBool (dcmp OP (double_of_Z x) y))
  | VARCHAR =>
    let! r_value := Value_CastAs right self in
    let! y := GetAs_int r_value in Ok (GetCmpBool (zcmp OP x y))
  | _ => type_error
  end.
Definition TINYINT_COMPARE_FUNC : cmp_op -> Value -> Value -> res CmpBool := INTEGER_COMPARE_FUNC TINYINT.
Definition SMALLINT_COMPARE_FUNC : cmp_op -> Value -> Value -> res CmpBool := INTEGER_COMPARE_FUNC SMALLINT.
Definition INT_COMPARE_FUNC : cmp_op -> Value -> Value -> res CmpBool := INTEGER_COMPARE_FUNC INTEGER.
Definition BIGINT_COMPARE_FUNC : cmp_op -> Value -> Value -> res CmpBool := INTEGER_COMPARE_FUNC BIGINT.

Definition DECIMAL_COMPARE_FUNC (OP : cmp_op) (left right : Value) : res CmpBool :=
  let! x := GetAs_double left in
  match type_id_ right with
  | TINYINT | SMALLINT | INTEGER | BIGINT =>
    let! y := GetAs_int right in Ok (GetCmpBool (dcmp OP x (double_of_Z y)))
  | DECIMAL => let! y := GetAs_double right in Ok (GetCmpBool (dcmp OP x y))
  | VARCHAR =>
    let! r_value := Value_CastAs right DECIMAL in
    let! y := GetAs_double r_value in Ok (GetCmpBool (dcmp OP x y))
  | _ => type_error
  end.

Definition BOOLEAN_COMPARE_FUNC (OP : cmp_op) (left right : Value) : res CmpBool :=
  let! x := GetAs_int left in
  let! r_value := Value_CastAs right BOOLEAN in
  let! y := GetAs_int r_value in Ok (GetCmpBool (zcmp OP x y)).

(** [memcmp] on the first [n] bytes: the difference of the first bytes that differ. *)
Fixpoint memcmp (n : nat) (s1 s2 : bytes) : res Z :=
  match n with
  | O => Ok 0
  | S n =>
    match s1, s2 with
    | b1 :: s1, b2 :: s2 => if b1 =? b2 then memcmp n s1 s2 else Ok (b1 - b2)
    | _, _ => Err OutOfBounds
    end
  end.

(** The lengths are [int] parameters; the difference of two of them is one too. *)
Definition CompareStrings (str1 : option bytes) (len1 : Z) (str2 : option bytes) (len2 : Z) : res Z :=
  match str1, str2 with
  | Some s1, Some s2 =>
    let! _ := assert (0 <=? len1) in
    let! _ := assert (0 <=? len2) in
    let! ret := memcmp (Z.to_nat (Z.min len1 len2)) s1 s2 in
    Ok (if (ret =? 0) && negb (len1 =? len2) then len1 - len2 else ret)
  | _, _ => Err AssertionFailure
  end.

Definition VARLEN_COMPARE_FUNC (OP : cmp_op) (left right : Value) : res CmpBool :=
  let! str1 := Value_GetData left in
  let! n1 := VarlenType_GetLength left in
  let len1 := unsigned 32 (n1 - 1) in
  let! r_value := if decide (type_id_ right = VARCHAR) then Ok right else Value_CastAs right VARCHAR in
  let! str2 := Value_GetData r_value in
  let! n2 := VarlenType_GetLength r_value in
  let len2 := unsigned 32 (n2 - 1) in
  let! c := CompareStrings str1 (signed 32 len1) str2 (signed 32 len2) in
  Ok (GetCmpBool (zcmp OP c 0)).

(** The part every comparison starts with. *)
Definition compare_checked (check : bool) (func : Value -> Value -> res CmpBool) (left right : Value) : res CmpBool :=
  let! _ := assert check in
  let! _ := assert (CheckComparable left right) in
  if IsNull left || IsNull right then Ok CmpNull else func left right.

(** The varlen comparisons look at the lengths before the bytes. *)
Definition varlen_compare (OP : cmp_op) (left right : Value) : res CmpBool :=
  compare_checked true (fun left right =>
    let! n1 := VarlenType_GetLength left in
    let! n2 := VarlenType_GetLength right in
    if (n1 =? BUSTUB_VARCHAR_MAX_LEN) || (n2 =? BUSTUB_VARCHAR_MAX_LEN)
    then Ok (GetCmpBool (zcmp OP n1 n2))
    else VARLEN_COMPARE_FUNC OP left right) left right.

Definition BooleanType_CompareEquals (left right : Value) : res CmpBool :=
  compare_checked true (BOOLEAN_COMPARE_FUNC OpEq) left right.
Definition TinyintType_CompareEquals (left right : Value) : res CmpBool :=
  compare_checked (CheckInteger left) (TINYINT_COMPARE_FUNC OpEq) left right.
Definition SmallintType_CompareEquals (left right : Value) : res CmpBool :=
  compare_checked (CheckInteger left) (SMALLINT_COMPARE_FUNC OpEq) left right.
Definition IntegerType_CompareEquals (left right : Value) : res CmpBool :=
  compare_checked (CheckInteger left) (INT_COMPARE_FUNC OpEq) left right.
Definition BigintType_CompareEquals (left right : Value) : res CmpBool :=
  compare_checked (CheckInteger left) (BIGINT_COMPARE_FUNC OpEq) left right.
Definition DecimalType_CompareEquals (left right : Value) : res CmpBool :=
  compare_checked true (DECIMAL_COMPARE_FUNC OpEq) left right.
Definition VarlenType_CompareEquals (left right : Value) : res CmpBool := varlen_compare OpEq left right.
Definition Value_CompareEquals (v o : Value) : res CmpBool :=
  let! f := GetInstance (MkVtable (fun _ _ => Type_not_implemented) BooleanType_CompareEquals TinyintType_CompareEquals
              SmallintType_CompareEquals IntegerType_CompareEquals BigintType_CompareEquals DecimalType_CompareEquals VarlenType_CompareEquals)
              (type_id_ v) in
  f v o.

Definition BooleanType_CompareNotEquals (left right : Value) : res CmpBool :=
  compare_checked true (BOOLEAN_COMPARE_FUNC OpNe) left right.
Definition TinyintType_CompareNotEquals (left right : Value) : res CmpBool :=
  compare_checked (CheckInteger left) (TINYINT_COMPARE_FUNC OpNe) left right.
Definition SmallintType_CompareNotEquals (left right : Value) : res CmpBool :=
  compare_checked (CheckInteger left) (SMALLINT_COMPARE_FUNC OpNe) left right.
Definition IntegerType_CompareNotEquals (left right : Value) : res CmpBool :=
  compare_checked (CheckInteger left) (INT_COMPARE_FUNC OpNe) left right.
Definition BigintType_CompareNotEquals (left right : Value) : res CmpBool :=
  compare_checked (CheckInteger left) (BIGINT_COMPARE_FUNC OpNe) left right.
Definition DecimalType_CompareNotEquals (left right : Value) : res CmpBool :=
  compare_checked true (DECIMAL_COMPARE_FUNC OpNe) left right.
Definition VarlenType_CompareNotEquals (left right : Value) : res CmpBool := varlen_compare OpNe left right.
Definition Value_CompareNotEquals (v o : Value) : res CmpBool :=
  let! f := GetInstance (MkVtable (fun _ _ => Type_not_implemented) BooleanType_CompareNotEquals TinyintType_CompareNotEquals
              SmallintType_CompareNotEquals IntegerType_CompareNotEquals BigintType_CompareNotEquals DecimalType_CompareNotEquals VarlenType_CompareNotEquals)
              (type_id_ v) in
  f v o.

Definition BooleanType_CompareLessThan (left right : Value) : res CmpBool :=
  compare_checked true (BOOLEAN_COMPARE_FUNC OpLt) left right.
Definition TinyintType_CompareLessThan (left right : Value) : res CmpBool :=
  compare_checked (CheckInteger left) (TINYINT_COMPARE_FUNC OpLt) left right.
Definition SmallintType_CompareLessThan (left right : Value) : res CmpBool :=
  compare_checked (CheckInteger left) (SMALLINT_COMPARE_FUNC OpLt) left right.
Definition IntegerType_CompareLessThan (left right : Value) : res CmpBool :=
  compare_checked (CheckInteger left) (INT_COMPARE_FUNC OpLt) left right.
Definition BigintType_CompareLessThan (left right : Value) : res CmpBool :=
  compare_checked (CheckInteger left) (BIGINT_COMPARE_FUNC OpLt) left right.
Definition DecimalType_CompareLessThan (left right : Value) : res CmpBool :=
  compare_checked true (DECIMAL_COMPARE_FUNC OpLt) left right.
Definition VarlenType_CompareLessThan (left right : Value) : res CmpBool := varlen_compare OpLt left right.
Definition Value_CompareLessThan (v o : Value) : res CmpBool :=
  let! f := GetInstance (MkVtable (fun _ _ => Type_not_implemented) BooleanType_CompareLessThan TinyintType_CompareLessThan
              SmallintType_CompareLessThan IntegerType_CompareLessThan BigintType_CompareLessThan DecimalType_CompareLessThan VarlenType_CompareLessThan)
              (type_id_ v) in
  f v o.

Definition BooleanType_CompareLessThanEquals (left right : Value) : res CmpBool :=
  compare_checked true (BOOLEAN_COMPARE_FUNC OpLe) left right.
Definition TinyintType_CompareLessThanEquals (left right : Value) : res CmpBool :=
  compare_checked (CheckInteger left) (TINYINT_COMPARE_FUNC OpLe) left right.
Definition SmallintType_CompareLessThanEquals (left right : Value) : res CmpBool :=
  compare_checked (CheckInteger left) (SMALLINT_COMPARE_FUNC OpLe) left right.
Definition IntegerType_CompareLessThanEquals (left right : Value) : res CmpBool :=
  compare_checked (CheckInteger left) (INT_COMPARE_FUNC OpLe) left right.
Definition BigintType_CompareLessThanEquals (left right : Value) : res CmpBool :=
  compare_checked (CheckInteger left) (BIGINT_COMPARE_FUNC OpLe) left right.
Definition DecimalType_CompareLessThanEquals (left right : Value) : res CmpBool :=
  compare_checked true (DECIMAL_COMPARE_FUNC OpLe) left right.
Definition VarlenType_CompareLessThanEquals (left right : Value) : res CmpBool := varlen_compare OpLe left right.
Definition Value_CompareLessThanEquals (v o : Value) : res CmpBool :=
  let! f := GetInstance (MkVtable (fun _ _ => Type_not_implemented) BooleanType_CompareLessThanEquals TinyintType_CompareLessThanEquals
              SmallintType_CompareLessThanEquals IntegerType_CompareLessThanEquals BigintType_CompareLessThanEquals DecimalType_CompareLessThanEquals VarlenType_CompareLessThanEquals)
              (type_id_ v) in
  f v o.

Definition BooleanType_CompareGreaterThan (left right : Value) : res CmpBool :=
  compare_checked true (BOOLEAN_COMPARE_FUNC OpGt) left right.
Definition TinyintType_CompareGreaterThan (left right : Value) : res CmpBool :=
  compare_checked (CheckInteger left) (TINYINT_COMPARE_FUNC OpGt) left right.
Definition SmallintType_CompareGreaterThan (left right : Value) : res CmpBool :=
  compare_checked (CheckInteger left) (SMALLINT_COMPARE_FUNC OpGt) left right.
Definition IntegerType_CompareGreaterThan (left right : Value) : res CmpBool :=
  compare_checked (CheckInteger left) (INT_COMPARE_FUNC OpGt) left right.
Definition BigintType_CompareGreaterThan (left right : Value) : res CmpBool :=
  compare_checked (CheckInteger left) (BIGINT_COMPARE_FUNC OpGt) left right.
Definition DecimalType_CompareGreaterThan (left right : Value) : res CmpBool :=
  compare_checked true (DECIMAL_COMPARE_FUNC OpGt) left right.
Definition VarlenType_CompareGreaterThan (left right : Value) : res CmpBool := varlen_compare OpGt left right.
Definition Value_CompareGreaterThan (v o : Value) : res CmpBool :=
  let! f := GetInstance (MkVtable (fun _ _ => Type_not_implemented) BooleanType_CompareGreaterThan TinyintType_CompareGreaterThan
              SmallintType_CompareGreaterThan IntegerType_CompareGreaterThan BigintType_CompareGreaterThan DecimalType_CompareGreaterThan VarlenType_CompareGreaterThan)
              (type_id_ v) in
  f v o.

Definition BooleanType_CompareGreaterThanEquals (left right : Value) : res CmpBool :=
  compare_checked true (BOOLEAN_COMPARE_FUNC OpGe) left right.
Definition TinyintType_CompareGreaterThanEquals (left right : Value) : res CmpBool :=
  compare_checked (CheckInteger left) (TINYINT_COMPARE_FUNC OpGe) left right.
Definition SmallintType_CompareGreaterThanEquals (left right : Value) : res CmpBool :=
  compare_checked (CheckInteger left) (SMALLINT_COMPARE_FUNC OpGe) left right.
Definition IntegerType_CompareGreaterThanEquals (left right : Value) : res CmpBool :=
  compare_checked (CheckInteger left) (INT_COMPARE_FUNC OpGe) left right.
Definition BigintType_CompareGreaterThanEquals (left right : Value) : res CmpBool :=
  compare_checked (CheckInteger left) (BIGINT_COMPARE_FUNC OpGe) left right.
Definition DecimalType_CompareGreaterThanEquals (left right : Value) : res CmpBool :=
  compare_checked true (DECIMAL_COMPARE_FUNC OpGe) left right.
Definition VarlenType_CompareGreaterThanEquals (left right : Value) : res CmpBool := varlen_compare OpGe left right.
Definition Value_CompareGreaterThanEquals (v o : Value) : res CmpBool :=
  let! f := GetInstance (MkVtable (fun _ _ => Type_not_implemented) BooleanType_CompareGreaterThanEquals TinyintType_CompareGreaterThanEquals
              SmallintType_CompareGreaterThanEquals IntegerType_CompareGreaterThanEquals BigintType_CompareGreaterThanEquals DecimalType_CompareGreaterThanEquals VarlenType_CompareGreaterThanEquals)
              (type_id_ v) in
  f v o.

(** *** Arithmetic *)

(** The template parameters of [AddValue], ... *)
Inductive int_type : Type := int8_t | int16_t | int32_t | int64_t.
Definition bits (T : int_type) : Z := match T with int8_t => 8 | int16_t => 16 | int32_t => 32 | int64_t => 64 end.
Definition Value_int (T : int_type) : TypeId -> Z -> res Value :=
  match T with int8_t => Value_int8 | int16_t => Value_int16 | int32_t => Value_int32 | int64_t => Value_int64 end.

(** The type [x OP y] is computed in: the wider operand's, at least [int];
    signed overflow is undefined. *)
Definition promoted (T1 T2 : int_type) : Z := Z.max 32 (Z.max (bits T1) (bits T2)).
Definition checked (w z : Z) : res Z := if decide (is_signed w z) then Ok z else Err IntegerOverflow.
Definition throw_out_of_range_if (b : bool) : res unit := if b then Err (Raised EX_OUT_OF_RANGE) else Ok tt.

Definition AddValue (T1 T2 : int_type) (left right : Value) : res Value :=
  let! x := GetAs_int left in
  let! y := GetAs_int right in
  let! s := checked (promoted T1 T2) (x + y) in
  let sum1 := signed (bits T1) s in
  let sum2 := signed (bits T2) s in
  let! _ := throw_out_of_range_if (negb (s =? sum1) && negb (s =? sum2)) in
  if bits T2 <=? bits T1 then
    let! _ := throw_out_of_range_if
                ((0 <? x) && (0 <? y) && (sum1 <? 0) || (x <? 0) && (y <? 0) && (0 <? sum1)) in
    Value_int T1 (type_id_ left) sum1
  else
    let! _ := throw_out_of_range_if
                ((0 <? x) && (0 <? y) && (sum2 <? 0) || (x <? 0) && (y <? 0) && (0 <? sum2)) in
    Value_int T2 (type_id_ right) sum2.

Definition SubtractValue (T1 T2 : int_type) (left right : Value) : res Value :=
  let! x := GetAs_int left in
  let! y := GetAs_int right in
  let! d := checked (promoted T1 T2) (x - y) in
  let diff1 := signed (bits T1) d in
  let diff2 := signed (bits T2) d in
  let! _ := throw_out_of_range_if (negb (d =? diff1) && negb (d =? diff2)) in
  if bits T2 <=? bits T1 then
    let! _ := throw_out_of_range_if
                ((0 <? x) && (y <? 0) && (diff1 <? 0) || (x <? 0) && (0 <? y) && (0 <? diff1)) in
    Value_int T1 (type_id_ left) diff1
  else
    let! _ := throw_out_of_range_if
                ((0 <? x) && (y <? 0) && (diff2 <? 0) || (x <? 0) && (0 <? y) && (0 <? diff2)) in
    Value_int T2 (type_id_ right) diff2.

(** [y != 0 && prod / y != x]. *)
Definition product_mismatch (w x y prod : Z) : res bool :=
  if y =? 0 then Ok false else let! q := checked w (Z.quot prod y) in Ok (negb (q =? x)).

Definition MultiplyValue (T1 T2 : int_type) (left right : Value) : res Value :=
  let! x := GetAs_int left in
  let! y := GetAs_int right in
  let! p := checked (promoted T1 T2) (x * y) in
  let prod1 := signed (bits T1) p in
  let prod2 := signed (bits T2) p in
  let! _ := throw_out_of_range_if (negb (p =? prod1) && negb (p =? prod2)) in
  if bits T2 <=? bits T1 then
    let! b := product_mismatch (promoted T1 T2) x y prod1 in
    let! _ := throw_out_of_range_if b in
    Value_int T1 (type_id_ left) prod1
  else
    let! b := product_mismatch (promoted T1 T2) x y prod2 in
    let! _ := throw_out_of_range_if b in
    Value_int T2 (type_id_ right) prod2.

Definition DivideValue (T1 T2 : int_type) (left right : Value) : res Value :=
  let! x := GetAs_int left in
  let! y := GetAs_int right in
  if y =? 0 then Err (Raised EX_DIVIDE_BY_ZERO) else
  let! q := checked (promoted T1 T2) (Z.quot x y) in
  if bits T2 <=? bits T1
  then Value_int T1 (type_id_ left) (signed (bits T1) q)
  else Value_int T2 (type_id_ right) (signed (bits T2) q).

(** [x % y] is undefined when [x / y] overflows. *)
Definition ModuloValue (T1 T2 : int_type) (left right : Value) : res Value :=
  let! x := GetAs_int left in
  let! y := GetAs_int right in
  if y =? 0 then Err (Raised EX_DIVIDE_BY_ZERO) else
  let! _ := checked (promoted T1 T2) (Z.quot x y) in
  let r := Z.rem x y in
  if bits T2 <=? bits T1
  then Value_int T1 (type_id_ left) (signed (bits T1) r)
  else Value_int T2 (type_id_ right) (signed (bits T2) r).

Definition ValMod (x y : double) : double := dsub x (dmul (dtrunc (ddiv x y)) y).

(** The arithmetic switch of an integer type [self] stored as a [T1]. *)
Definition INTEGER_MODIFY_FUNC (self : TypeId) (T1 : int_type) (METHOD : int_type -> int_type -> Value -> Value -> res Value)
    (OP : double -> double -> double) (left right : Value) : res Value :=
  match type_id_ right with
  | TINYINT => METHOD T1 int8_t left right
  | SMALLINT => METHOD T1 int16_t left right
  | INTEGER => METHOD T1 int32_t left right
  | BIGINT => METHOD T1 int64_t left right
  | DECIMAL =>
    let! x := GetAs_int left in
    let! y := GetAs_double right in
    Value_double DECIMAL (OP (double_of_Z x) y)
  | VARCHAR => let! r_value := Value_CastAs right self in METHOD T1 T1 left r_value
  | _ => type_error
  end.
Definition TINYINT_MODIFY_FUNC : (int_type -> int_type -> Value -> Value -> res Value) ->
    (double -> double -> double) -> Value -> Value -> res Value := INTEGER_MODIFY_FUNC TINYINT int8_t.
Definition SMALLINT_MODIFY_FUNC : (int_type -> int_type -> Value -> Value -> res Value) ->
    (double -> double -> double) -> Value -> Value -> res Value := INTEGER_MODIFY_FUNC SMALLINT int16_t.
Definition INT_MODIFY_FUNC : (int_type -> int_type -> Value -> Value -> res Value) ->
    (double -> double -> double) -> Value -> Value -> res Value := INTEGER_MODIFY_FUNC INTEGER int32_t.
Definition BIGINT_MODIFY_FUNC : (int_type -> int_type -> Value -> Value -> res Value) ->
    (double -> double -> double) -> Value -> Value -> res Value := INTEGER_MODIFY_FUNC BIGINT int64_t.

Definition DECIMAL_MODIFY_FUNC (OP : double -> double -> double) (left right : Value) : res Value :=
  let! x := GetAs_double left in
  match type_id_ right with
  | TINYINT | SMALLINT | INTEGER | BIGINT => let! y := GetAs_int right in Value_double DECIMAL (OP x (double_of_Z y))
  | DECIMAL => let! y := GetAs_double right in Value_double DECIMAL (OP x y)
  | VARCHAR =>
    let! r_value := Value_CastAs right DECIMAL in
    let! y := GetAs_double r_value in Value_double DECIMAL (OP x y)
  | _ => type_error
  end.

(** The part the arithmetic operations start with; the last two also test the divisor. *)
Definition arith_checked (check : bool) (func : Value -> Value -> res Value) (left right : Value) : res Value :=
  let! _ := assert check in
  let! _ := assert (CheckComparable left right) in
  if IsNull left || IsNull right then Value_OperateNull left right else func left right.
Definition unless_zero (func : Value -> Value -> res Value) (left right : Value) : res Value :=
  let! z := Value_IsZero right in
  if (z : bool) then Err (Raised EX_DIVIDE_BY_ZERO) else func left right.

Definition TinyintType_Add (left right : Value) : res Value :=
  arith_checked (CheckInteger left) (TINYINT_MODIFY_FUNC AddValue dadd) left right.
Definition SmallintType_Add (left right : Value) : res Value :=
  arith_checked (CheckInteger left) (SMALLINT_MODIFY_FUNC AddValue dadd) left right.
Definition IntegerType_Add (left right : Value) : res Value :=
  arith_checked (CheckInteger left) (INT_MODIFY_FUNC AddValue dadd) left right.
Definition BigintType_Add (left right : Value) : res Value :=
  arith_checked (CheckInteger left) (BIGINT_MODIFY_FUNC AddValue dadd) left right.
Definition DecimalType_Add (left right : Value) : res Value :=
  arith_checked true (DECIMAL_MODIFY_FUNC dadd) left right.
Definition Value_Add (v o : Value) : res Value :=
  let! f := GetInstance (MkVtable (fun _ _ => Type_not_implemented) (fun _ _ => Type_not_implemented) TinyintType_Add
              SmallintType_Add IntegerType_Add BigintType_Add DecimalType_Add
              (fun _ _ => Type_not_implemented)) (type_id_ v) in
  f v o.

Definition TinyintType_Subtract (left right : Value) : res Value :=
  arith_checked (CheckInteger left) (TINYINT_MODIFY_FUNC SubtractValue dsub) left right.
Definition SmallintType_Subtract (left right : Value) : res Value :=
  arith_checked (CheckInteger left) (SMALLINT_MODIFY_FUNC SubtractValue dsub) left right.
Definition IntegerType_Subtract (left right : Value) : res Value :=
  arith_checked (CheckInteger left) (INT_MODIFY_FUNC SubtractValue dsub) left right.
Definition BigintType_Subtract (left right : Value) : res Value :=
  arith_checked (CheckInteger left) (BIGINT_MODIFY_FUNC SubtractValue dsub) left right.
Definition DecimalType_Subtract (left right : Value) : res Value :=
  arith_checked true (DECIMAL_MODIFY_FUNC dsub) left right.
Definition Value_Subtract (v o : Value) : res Value :=
  let! f := GetInstance (MkVtable (fun _ _ => Type_not_implemented) (fun _ _ => Type_not_implemented) TinyintType_Subtract
              SmallintType_Subtract IntegerType_Subtract BigintType_Subtract DecimalType_Subtract
              (fun _ _ => Type_not_implemented)) (type_id_ v) in
  f v o.

Definition TinyintType_Multiply (left right : Value) : res Value :=
  arith_checked (CheckInteger left) (TINYINT_MODIFY_FUNC MultiplyValue dmul) left right.
Definition SmallintType_Multiply (left right : Value) : res Value :=
  arith_checked (CheckInteger left) (SMALLINT_MODIFY_FUNC MultiplyValue dmul) left right.
Definition IntegerType_Multiply (left right : Value) : res Value :=
  arith_checked (CheckInteger left) (INT_MODIFY_FUNC MultiplyValue dmul) left right.
Definition BigintType_Multiply (left right : Value) : res Value :=
  arith_checked (CheckInteger left) (BIGINT_MODIFY_FUNC MultiplyValue dmul) left right.
Definition DecimalType_Multiply (left right : Value) : res Value :=
  arith_checked true (DECIMAL_MODIFY_FUNC dmul) left right.
Definition Value_Multiply (v o : Value) : res Value :=
  let! f := GetInstance (MkVtable (fun _ _ => Type_not_implemented) (fun _ _ => Type_not_implemented) TinyintType_Multiply
              SmallintType_Multiply IntegerType_Multiply BigintType_Multiply DecimalType_Multiply
              (fun _ _ => Type_not_implemented)) (type_id_ v) in
  f v o.

Definition TinyintType_Divide (left right : Value) : res Value :=
  arith_checked (CheckInteger left) (unless_zero (TINYINT_MODIFY_FUNC DivideValue ddiv)) left right.
Definition SmallintType_Divide (left right : Value) : res Value :=
  arith_checked (CheckInteger left) (unless_zero (SMALLINT_MODIFY_FUNC DivideValue ddiv)) left right.
Definition IntegerType_Divide (left right : Value) : res Value :=
  arith_checked (CheckInteger left) (unless_zero (INT_MODIFY_FUNC DivideValue ddiv)) left right.
Definition BigintType_Divide (left right : Value) : res Value :=
  arith_checked (CheckInteger left) (unless_zero (BIGINT_MODIFY_FUNC DivideValue ddiv)) left right.
Definition DecimalType_Divide (left right : Value) : res Value :=
  arith_checked true (unless_zero (DECIMAL_MODIFY_FUNC ddiv)) left right.
Definition Value_Divide (v o : Value) : res Value :=
  let! f := GetInstance (MkVtable (fun _ _ => Type_not_implemented) (fun _ _ => Type_not_implemented) TinyintType_Divide
              SmallintType_Divide IntegerType_Divide BigintType_Divide DecimalType_Divide
              (fun _ _ => Type_not_implemented)) (type_id_ v) in
  f v o.

Definition TinyintType_Modulo (left right : Value) : res Value :=
  arith_checked (CheckInteger left) (unless_zero (TINYINT_MODIFY_FUNC ModuloValue ValMod)) left right.
Definition SmallintType_Modulo (left right : Value) : res Value :=
  arith_checked (CheckInteger left) (unless_zero (SMALLINT_MODIFY_FUNC ModuloValue ValMod)) left right.
Definition IntegerType_Modulo (left right : Value) : res Value :=
  arith_checked (CheckInteger left) (unless_zero (INT_MODIFY_FUNC ModuloValue ValMod)) left right.
Definition BigintType_Modulo (left right : Value) : res Value :=
  arith_checked (CheckInteger left) (unless_zero (BIGINT_MODIFY_FUNC ModuloValue ValMod)) left right.
Definition DecimalType_Modulo (left right : Value) : res Value :=
  arith_checked true (unless_zero (DECIMAL_MODIFY_FUNC ValMod)) left right.
Definition Value_Modulo (v o : Value) : res Value :=
  let! f := GetInstance (MkVtable (fun _ _ => Type_not_implemented) (fun _ _ => Type_not_implemented) TinyintType_Modulo
              SmallintType_Modulo IntegerType_Modulo BigintType_Modulo DecimalType_Modulo
              (fun _ _ => Type_not_implemented)) (type_id_ v) in
  f v o.

(** [std::sqrt] of an integer that is not negative. *)
Definition sqrt_int (z : Z) : res Value :=
  if z <? 0 then Err (Raised EX_DECIMAL) else Value_double DECIMAL (dsqrt (double_of_Z z)).
Definition TinyintType_Sqrt (val : Value) : res Value :=
  let! _ := assert (CheckInteger val) in
  if IsNull val then Value_double DECIMAL BUSTUB_DECIMAL_NULL else let! z := GetAs_int val in sqrt_int z.
Definition SmallintType_Sqrt (val : Value) : res Value :=
  let! _ := assert (CheckInteger val) in
  if IsNull val then Value_double DECIMAL BUSTUB_DECIMAL_NULL else let! z := GetAs_int val in sqrt_int z.
Definition IntegerType_Sqrt (val : Value) : res Value :=
  let! _ := assert (CheckInteger val) in
  if IsNull val then IntegerType_OperateNull val val else let! z := GetAs_int val in sqrt_int z.
Definition BigintType_Sqrt (val : Value) : res Value :=
  let! _ := assert (CheckInteger val) in
  if IsNull val then Value_double DECIMAL BUSTUB_DECIMAL_NULL else let! z := GetAs_int val in sqrt_int z.
Definition DecimalType_Sqrt (val : Value) : res Value :=
  if IsNull val then Value_double DECIMAL BUSTUB_DECIMAL_NULL else
  let! d := GetAs_double val in
  if SFltb d (S754_zero false) then Err (Raised EX_DECIMAL) else Value_double DECIMAL (dsqrt d).
Definition Value_Sqrt (v : Value) : res Value :=
  let! f := GetInstance (MkVtable (fun _ => Type_not_implemented) (fun _ => Type_not_implemented) TinyintType_Sqrt
              SmallintType_Sqrt IntegerType_Sqrt BigintType_Sqrt DecimalType_Sqrt
              (fun _ => Type_not_implemented)) (type_id_ v) in
  f v.

(** *** Minimum and maximum *)

(** [cond(left, right) == CmpTrue ? left.Copy() : right.Copy()]. *)
Definition pick (cond : Value -> Value -> res CmpBool) (left right : Value) : res Value :=
  let! c := cond left right in if decide (c = CmpTrue) then Value_Copy left else Value_Copy right.

Definition IntegerParentType_Min (left right : Value) : res Value :=
  arith_checked (CheckInteger left) (pick Value_CompareLessThan) left right.
Definition IntegerParentType_Max (left right : Value) : res Value :=
  arith_checked (CheckInteger left) (pick Value_CompareGreaterThanEquals) left right.
Definition DecimalType_Min (left right : Value) : res Value :=
  arith_checked true (pick Value_CompareLessThanEquals) left right.
Definition DecimalType_Max (left right : Value) : res Value :=
  arith_checked true (pick Value_CompareGreaterThanEquals) left right.
Definition VarlenType_Min (left right : Value) : res Value :=
  arith_checked true (pick Value_CompareLessThan) left right.
Definition VarlenType_Max (left right : Value) : res Value :=
  arith_checked true (pick Value_CompareGreaterThan) left right.

Definition Value_Min (v o : Value) : res Value :=
  let! f := GetInstance (MkVtable (fun _ _ => Type_not_implemented) (fun _ _ => Type_not_implemented)
              IntegerParentType_Min IntegerParentType_Min IntegerParentType_Min IntegerParentType_Min
              DecimalType_Min VarlenType_Min) (type_id_ v) in
  f v o.
Definition Value_Max (v o : Value) : res Value :=
  let! f := GetInstance (MkVtable (fun _ _ => Type_not_implemented) (fun _ _ => Type_not_implemented)
              IntegerParentType_Max IntegerParentType_Max IntegerParentType_Max IntegerParentType_Max
              DecimalType_Max VarlenType_Max) (type_id_ v) in
  f v o.

(** *** The storage format *)

(** Write the integral member as [n] bytes. *)
Definition store_int (n : nat) (val : Value) (m : bytes) (off : Z) : res bytes :=
  let! z := GetAs_int val in mem_write m off (le_split n z).
Definition fetch_int (n : nat) (m : bytes) (off : Z) : res Z :=
  let! bs := mem_read m off (Z.of_nat n) in Ok (signed (8 * Z.of_nat n) (le_combine bs)).

Definition BooleanType_SerializeTo (val : Value) (m : bytes) (off : Z) : res bytes := store_int 1 val m off.
Definition TinyintType_SerializeTo (val : Value) (m : bytes) (off : Z) : res bytes := store_int 1 val m off.
Definition SmallintType_SerializeTo (val : Value) (m : bytes) (off : Z) : res bytes := store_int 2 val m off.
Definition IntegerType_SerializeTo (val : Value) (m : bytes) (off : Z) : res bytes := store_int 4 val m off.
Definition BigintType_SerializeTo (val : Value) (m : bytes) (off : Z) : res bytes := store_int 8 val m off.
Definition DecimalType_SerializeTo (val : Value) (m : bytes) (off : Z) : res bytes :=
  let! d := GetAs_double val in mem_write m off (le_split 8 (double_bits d)).
Definition VarlenType_SerializeTo (val : Value) (m : bytes) (off : Z) : res bytes :=
  let! len := VarlenType_GetLength val in
  if len =? BUSTUB_VALUE_NULL then store_u32 m off len else
  let! m := store_u32 m off len in
  let! p := VarlenType_GetData val in
  let! bs := read_data p len in
  mem_write m (off + 4) bs.

Definition Value_SerializeTo (v : Value) (m : bytes) (off : Z) : res bytes :=
  let! f := GetInstance (MkVtable (fun _ _ _ => Type_not_implemented) BooleanType_SerializeTo TinyintType_SerializeTo
              SmallintType_SerializeTo IntegerType_SerializeTo BigintType_SerializeTo DecimalType_SerializeTo
              VarlenType_SerializeTo) (type_id_ v) in
  f v m off.

Definition BooleanType_DeserializeFrom (m : bytes) (off : Z) : res Value :=
  let! z := fetch_int 1 m off in Value_int8 BOOLEAN z.
Definition TinyintType_DeserializeFrom (m : bytes) (off : Z) : res Value :=
  let! z := fetch_int 1 m off in Value_int8 TINYINT z.
Definition SmallintType_DeserializeFrom (m : bytes) (off : Z) : res Value :=
  let! z := fetch_int 2 m off in Value_int16 SMALLINT z.
Definition IntegerType_DeserializeFrom (m : bytes) (off : Z) : res Value :=
  let! z := fetch_int 4 m off in Value_int32 INTEGER z.
Definition BigintType_DeserializeFrom (m : bytes) (off : Z) : res Value :=
  let! z := fetch_int 8 m off in Value_int64 BIGINT z.
Definition DecimalType_DeserializeFrom (m : bytes) (off : Z) : res Value :=
  let! bs := mem_read m off 8 in Value_double DECIMAL (bits_double (le_combine bs)).
Definition VarlenType_DeserializeFrom (m : bytes) (off : Z) : res Value :=
  let! len := load_u32 m off in
  if len =? BUSTUB_VALUE_NULL then Value_varlen VARCHAR None len false
  else Value_varlen VARCHAR (Some (drop (Z.to_nat (off + 4)) m)) len true.

Definition Value_DeserializeFrom (m : bytes) (off : Z) (type_id : TypeId) : res Value :=
  let! f := GetInstance (MkVtable (fun _ _ => Type_not_implemented) BooleanType_DeserializeFrom
              TinyintType_DeserializeFrom SmallintType_DeserializeFrom IntegerType_DeserializeFrom
              BigintType_DeserializeFrom DecimalType_DeserializeFrom VarlenType_DeserializeFrom) type_id in
  f m off.
