(* ===== verification/TypesCorrect.v ===== *)
(** Facts about values and types: well-formed values, the conversions, integer
    arithmetic and comparison, the order of strings and the storage format.
    The properties are in [TypeProperties]. *)

From Stdlib Require Import SpecFloat.
From S2P Require Import Prelude Bytes Ieee CString Value Types.

(** ** Integer values *)

Definition int_type_of (t : TypeId) : option int_type :=
  match t with
  | TINYINT => Some int8_t | SMALLINT => Some int16_t | INTEGER => Some int32_t | BIGINT => Some int64_t
  | _ => None
  end.

(** The sentinel that stands for null. *)
Definition null_int (T : int_type) : Z := - 2 ^ (bits T - 1).

(** The value of type [t], stored as a [T], that holds [z]. *)
Definition int_value (t : TypeId) (T : int_type) (z : Z) : Value :=
  MkValue t (VInt z) (if z =? null_int T then BUSTUB_VALUE_NULL else 0) false.

Definition decimal_value (d : double) : Value :=
  MkValue DECIMAL (VDecimal d) (if SFeqb d BUSTUB_DECIMAL_NULL then BUSTUB_VALUE_NULL else 0) false.

(** A number that is not the sentinel of its type. *)
Definition proper_int (T : int_type) (z : Z) : Prop := is_signed (bits T) z /\ z <> null_int T.

Lemma bits_pos T : 0 < bits T.
Proof. by destruct T. Qed.

(** Which constructor is called does not matter: the type decides the width. *)
Lemma Value_int_ok T' t T z :
  int_type_of t = Some T -> Value_int T' t z = Ok (int_value t T (signed (bits T) z)).
Proof. destruct t; intros [= <-]; by destruct T'. Qed.

Lemma Value_int_bool T' z : Value_int T' BOOLEAN z = Ok (int_value BOOLEAN int8_t (signed 8 z)).
Proof. by destruct T'. Qed.

Lemma IsNull_int t T z : IsNull (int_value t T z) = (z =? null_int T).
Proof. unfold IsNull, int_value. simpl. by destruct (z =? null_int T). Qed.

Lemma IsNull_decimal d : IsNull (decimal_value d) = SFeqb d BUSTUB_DECIMAL_NULL.
Proof. unfold IsNull, decimal_value. simpl. by destruct (SFeqb _ _). Qed.

Lemma Value_double_ok d : Value_double DECIMAL d = Ok (decimal_value d).
Proof. reflexivity. Qed.

(** ** Well-formed values *)

(** The active member is the one of the type, an integral member fits its
    width, null is what the constructors make it, and the bytes of a string
    are there. *)
Definition wf_value (v : Value) : Prop :=
  match type_id_ v with
  | BOOLEAN => exists z, is_signed 8 z /\ v = int_value BOOLEAN int8_t z
  | TINYINT => exists z, is_signed 8 z /\ v = int_value TINYINT int8_t z
  | SMALLINT => exists z, is_signed 16 z /\ v = int_value SMALLINT int16_t z
  | INTEGER => exists z, is_signed 32 z /\ v = int_value INTEGER int32_t z
  | BIGINT => exists z, is_signed 64 z /\ v = int_value BIGINT int64_t z
  | DECIMAL => exists d, v = decimal_value d
  | VARCHAR =>
    is_unsigned 32 (len_ v) /\
    match value_ v with
    | VVarlen (Some p) => len_ v <= Z.of_nat (length p)
    | VVarlen None => len_ v = BUSTUB_VALUE_NULL
    | _ => False
    end
  | TIMESTAMP => exists z, is_unsigned 64 z /\ v = set_timestamp TIMESTAMP z
  | INVALID => v = Value_type INVALID
  end.

Lemma wf_int_value t T z : int_type_of t = Some T -> is_signed (bits T) z -> wf_value (int_value t T z).
Proof. destruct t; intros [= <-] Hz; unfold wf_value; simpl; eauto. Qed.

Lemma wf_bool_value z : is_signed 8 z -> wf_value (int_value BOOLEAN int8_t z).
Proof. intros Hz. unfold wf_value. simpl. eauto. Qed.

Lemma wf_decimal_value d : wf_value (decimal_value d).
Proof. unfold wf_value. simpl. eauto. Qed.

Lemma wf_int_inv v t T :
  type_id_ v = t -> int_type_of t = Some T -> wf_value v ->
  exists z, is_signed (bits T) z /\ v = int_value t T z.
Proof. intros Ht HT. unfold wf_value. rewrite Ht. by destruct t; simplify_eq/=. Qed.

Lemma wf_decimal_inv v : type_id_ v = DECIMAL -> wf_value v -> exists d, v = decimal_value d.
Proof. intros Ht. unfold wf_value. by rewrite Ht. Qed.

(** The constructors. *)
Lemma Value_int_wf T t z v : t <> TIMESTAMP -> Value_int T t z = Ok v -> wf_value v /\ type_id_ v = t.
Proof.
  intros Ht Hv. destruct (int_type_of t) as [T'|] eqn:E.
  - rewrite (Value_int_ok _ _ _ _ E) in Hv. res_inv.
    split; [|done]. apply wf_int_value; [done|apply signed_range, bits_pos].
  - destruct (decide (t = BOOLEAN)) as [->|].
    + rewrite Value_int_bool in Hv. res_inv. split; [|done]. by apply wf_bool_value, signed_range.
    + by destruct T, t.
Qed.

Lemma Value_double_wf t d v : Value_double t d = Ok v -> wf_value v /\ type_id_ v = t.
Proof. destruct t; simpl; intros; res_inv. split; [apply wf_decimal_value|done]. Qed.

Lemma Value_string_wf t s v : Value_string t s = Ok v -> wf_value v /\ type_id_ v = t.
Proof.
  destruct t; try done. unfold Value_string. intros (bs & Hbs & [= <-])%rbind_ok.
  split; [|done]. unfold wf_value. cbn. split; [apply unsigned_range; lia|].
  apply mem_read_length in Hbs. cbn in Hbs. lia.
Qed.

Lemma Value_null_varlen_wf b v : Value_varlen VARCHAR None 0 b = Ok v -> wf_value v /\ type_id_ v = VARCHAR.
Proof. intros [= <-]. unfold wf_value, is_unsigned. done. Qed.

Lemma Value_copy_wf v r : wf_value v -> Value_copy v = Ok r -> wf_value r /\ type_id_ r = type_id_ v.
Proof.
  unfold Value_copy. intros Hv Hr. destruct (type_id_ v) eqn:Et; res_inv; try done.
  unfold wf_value in Hv. rewrite Et in Hv. destruct Hv as [Hu Hp].
  destruct (len_ v =? BUSTUB_VALUE_NULL) eqn:En.
  - res_inv. apply Z.eqb_eq in En. unfold wf_value. cbn. by rewrite ?En in *.
  - destruct (manage_data_ v).
    + destruct (value_ v) as [| | |[p|]]; try done.
      apply rbind_ok in Hr as (bs & Hbs & [= <-]). unfold wf_value. cbn. split; [|done].
      split; [done|]. apply mem_read_length in Hbs. lia.
    + res_inv. unfold wf_value. by rewrite Et.
Qed.

(** ** Types of results *)

(** Run a computation that returns a value and read off the type of what the
    constructor at its end made. *)
Ltac typed_result :=
  repeat match goal with
  | H : rbind _ _ = Ok _ |- _ => apply rbind_ok in H as (?&?&H)
  | H : (if ?b then _ else _) = Ok _ |- _ => destruct b
  | H : unless_null _ _ _ = Ok _ |- _ => unfold unless_null in H
  | H : cast_to_varchar _ _ = Ok _ |- _ => unfold cast_to_varchar in H
  | H : Err _ = Ok _ |- _ => discriminate H
  | H : type_error = Ok _ |- _ => discriminate H
  | H : Type_not_implemented = Ok _ |- _ => discriminate H
  | H : Value_int8 _ _ = Ok _ |- _ => apply (Value_int_wf int8_t) in H; [exact H|done]
  | H : Value_int16 _ _ = Ok _ |- _ => apply (Value_int_wf int16_t) in H; [exact H|done]
  | H : Value_int32 _ _ = Ok _ |- _ => apply (Value_int_wf int32_t) in H; [exact H|done]
  | H : Value_int64 _ _ = Ok _ |- _ => apply (Value_int_wf int64_t) in H; [exact H|done]
  | H : Value_int _ _ _ = Ok _ |- _ => apply Value_int_wf in H; [exact H|done]
  | H : Value_double _ _ = Ok _ |- _ => apply Value_double_wf in H; exact H
  | H : Value_string _ _ = Ok _ |- _ => apply Value_string_wf in H; exact H
  | H : Value_varlen VARCHAR None 0 _ = Ok _ |- _ => apply Value_null_varlen_wf in H; exact H
  | H : Value_copy _ = Ok _ |- _ => apply Value_copy_wf in H; [|done]
  end.

Lemma Value_Copy_typed v r : wf_value v -> Value_Copy v = Ok r -> wf_value r /\ type_id_ r = type_id_ v.
Proof.
  unfold Value_Copy. intros Hv Hr. destruct (type_id_ v) eqn:Et; try discriminate Hr; cbn in Hr;
    unfold BooleanType_Copy, TinyintType_Copy, SmallintType_Copy, IntegerType_Copy, BigintType_Copy,
      DecimalType_Copy, VarlenType_Copy in Hr; rewrite ?Et in Hr; typed_result.
  by rewrite Et in Hr.
Qed.

Lemma Value_CastAs_typed v t r : wf_value v -> Value_CastAs v t = Ok r -> wf_value r /\ type_id_ r = t.
Proof.
  unfold Value_CastAs. intros Hv Hr.
  assert (Hcopy : forall k, Value_Copy v = Ok k -> wf_value k /\ type_id_ k = type_id_ v)
    by (intros; by apply Value_Copy_typed).
  unfold Value_Copy in Hcopy.
  destruct (type_id_ v) eqn:Et; try discriminate Hr; cbn [GetInstance rbind vt_boolean vt_tinyint vt_smallint
    vt_integer vt_bigint vt_decimal vt_varchar vt_invalid] in Hr, Hcopy; try discriminate Hr;
    unfold BooleanType_CastAs, TinyintType_CastAs, SmallintType_CastAs, IntegerType_CastAs, BigintType_CastAs,
      DecimalType_CastAs, VarlenType_CastAs, Value_Copy in Hr; rewrite ?Et in Hr;
    destruct t; cbn [GetInstance rbind vt_decimal vt_varchar] in Hr; typed_result; by apply Hcopy.
Qed.

(** The five arithmetic operations. *)
Inductive arith_op : Type := OpAdd | OpSubtract | OpMultiply | OpDivide | OpModulo.

Definition Value_arith (op : arith_op) : Value -> Value -> res Value :=
  match op with
  | OpAdd => Value_Add | OpSubtract => Value_Subtract | OpMultiply => Value_Multiply
  | OpDivide => Value_Divide | OpModulo => Value_Modulo
  end.
Definition arith_method (op : arith_op) : int_type -> int_type -> Value -> Value -> res Value :=
  match op with
  | OpAdd => AddValue | OpSubtract => SubtractValue | OpMultiply => MultiplyValue
  | OpDivide => DivideValue | OpModulo => ModuloValue
  end.
Definition arith_double (op : arith_op) : double -> double -> double :=
  match op with OpAdd => dadd | OpSubtract => dsub | OpMultiply => dmul | OpDivide => ddiv | OpModulo => ValMod end.
(** Division and remainder test the divisor first. *)
Definition arith_guard (op : arith_op) (func : Value -> Value -> res Value) : Value -> Value -> res Value :=
  match op with OpDivide | OpModulo => unless_zero func | _ => func end.

(** The type of a result: the wider operand's, where a string takes the type of
    the left operand and DECIMAL is the widest. *)
Definition type_rank (t : TypeId) : Z :=
  match t with TINYINT => 1 | SMALLINT => 2 | INTEGER => 3 | BIGINT => 4 | DECIMAL => 5 | _ => 0 end.
Definition result_type (t1 t2 : TypeId) : TypeId := if type_rank t2 <=? type_rank t1 then t1 else t2.

Definition integral_dispatch (op : arith_op) (t : TypeId) (T : int_type) (v o : Value) : res Value :=
  arith_checked (CheckInteger v) (arith_guard op (INTEGER_MODIFY_FUNC t T (arith_method op) (arith_double op))) v o.

(** The four integer classes are one. *)
Lemma Value_arith_int op v o T :
  int_type_of (type_id_ v) = Some T -> Value_arith op v o = integral_dispatch op (type_id_ v) T v o.
Proof.
  destruct op; cbn [Value_arith]; unfold Value_Add, Value_Subtract, Value_Multiply, Value_Divide, Value_Modulo;
    destruct (type_id_ v); intros [= <-]; reflexivity.
Qed.

Lemma Value_arith_decimal op v o :
  type_id_ v = DECIMAL ->
  Value_arith op v o = arith_checked true (arith_guard op (DECIMAL_MODIFY_FUNC (arith_double op))) v o.
Proof.
  destruct op; cbn [Value_arith]; unfold Value_Add, Value_Subtract, Value_Multiply, Value_Divide, Value_Modulo;
    intros ->; reflexivity.
Qed.

Lemma Value_arith_other op v o :
  int_type_of (type_id_ v) = None -> type_id_ v <> DECIMAL -> exists e, Value_arith op v o = Err e.
Proof.
  destruct op; cbn [Value_arith]; unfold Value_Add, Value_Subtract, Value_Multiply, Value_Divide, Value_Modulo;
    destruct (type_id_ v); intros; try done; by eexists.
Qed.

Lemma arith_method_typed op T1 T2 l r v :
  type_id_ l <> TIMESTAMP -> type_id_ r <> TIMESTAMP -> arith_method op T1 T2 l r = Ok v ->
  wf_value v /\ type_id_ v = if bits T2 <=? bits T1 then type_id_ l else type_id_ r.
Proof.
  intros Hl Hr. destruct op; cbn [arith_method];
    unfold AddValue, SubtractValue, MultiplyValue, DivideValue, ModuloValue, throw_out_of_range_if;
    intros H; destruct (bits T2 <=? bits T1); typed_result.
Qed.

Lemma OperateNull_typed v o r :
  Value_OperateNull v o = Ok r -> wf_value r /\ type_id_ r = result_type (type_id_ v) (type_id_ o).
Proof.
  unfold Value_OperateNull. destruct (type_id_ v) eqn:Et; try done; cbn [GetInstance rbind vt_tinyint vt_smallint
    vt_integer vt_bigint vt_decimal]; unfold TinyintType_OperateNull, SmallintType_OperateNull,
    IntegerType_OperateNull, BigintType_OperateNull, DecimalType_OperateNull;
    destruct (type_id_ o); intros; typed_result.
Qed.

Lemma INTEGER_MODIFY_typed op T v o r :
  int_type_of (type_id_ v) = Some T -> wf_value o ->
  INTEGER_MODIFY_FUNC (type_id_ v) T (arith_method op) (arith_double op) v o = Ok r ->
  wf_value r /\ type_id_ r = result_type (type_id_ v) (type_id_ o).
Proof.
  intros HT Ho. assert (Hv : type_id_ v <> TIMESTAMP) by (intros E; by rewrite E in HT).
  unfold INTEGER_MODIFY_FUNC. destruct (type_id_ o) eqn:Eo; try done; intros H.
  1-4: (apply arith_method_typed in H as [? ->]; [|done|by rewrite Eo]);
       (split; [done|]); rewrite Eo; destruct (type_id_ v); simplify_eq/=; reflexivity.
  - typed_result. apply Value_double_wf in H as [? ->]. split; [done|].
    by destruct (type_id_ v); simplify_eq/=.
  - apply rbind_ok in H as (w & Hw & H). apply Value_CastAs_typed in Hw as [_ Hw]; [|done].
    apply arith_method_typed in H as [? ->]; [|done|by rewrite Hw].
    split; [done|]. rewrite Z.leb_refl. by destruct (type_id_ v); simplify_eq/=.
Qed.

Lemma DECIMAL_MODIFY_typed op v o r :
  DECIMAL_MODIFY_FUNC (arith_double op) v o = Ok r -> wf_value r /\ type_id_ r = DECIMAL.
Proof. unfold DECIMAL_MODIFY_FUNC. intros H. destruct (type_id_ o); typed_result. Qed.

Lemma arith_guard_ok op f v o r : arith_guard op f v o = Ok r -> f v o = Ok r.
Proof. destruct op; simpl; try done; unfold unless_zero; intros H; typed_result; done. Qed.

Lemma Value_arith_typed op v o r :
  wf_value v -> wf_value o -> Value_arith op v o = Ok r ->
  wf_value r /\ type_id_ r = result_type (type_id_ v) (type_id_ o).
Proof.
  intros Hv Ho Hr. destruct (int_type_of (type_id_ v)) as [T|] eqn:ET.
  - rewrite (Value_arith_int _ _ _ _ ET) in Hr. unfold integral_dispatch, arith_checked in Hr.
    apply rbind_ok in Hr as (_ & _ & Hr). apply rbind_ok in Hr as (_ & _ & Hr).
    destruct (IsNull v || IsNull o); [by apply OperateNull_typed|].
    apply arith_guard_ok in Hr. by apply INTEGER_MODIFY_typed in Hr.
  - destruct (decide (type_id_ v = DECIMAL)) as [Ed|].
    + rewrite (Value_arith_decimal _ _ _ Ed) in Hr. unfold arith_checked in Hr.
      apply rbind_ok in Hr as (_ & _ & Hr). apply rbind_ok in Hr as (_ & _ & Hr).
      destruct (IsNull v || IsNull o); [by apply OperateNull_typed|].
      apply arith_guard_ok in Hr. apply DECIMAL_MODIFY_typed in Hr as [? ->].
      rewrite Ed. unfold result_type. by destruct (type_id_ o).
    + destruct (Value_arith_other op v o ET ltac:(done)) as [e He]. by rewrite He in Hr.
Qed.

(** ** Integer arithmetic *)

(** The exact result. *)
Definition zarith (op : arith_op) (x y : Z) : Z :=
  match op with
  | OpAdd => x + y | OpSubtract => x - y | OpMultiply => x * y | OpDivide => Z.quot x y | OpModulo => Z.rem x y
  end.

(** What the C++ code does with it: undefined when the machine operation
    overflows, an exception when the result does not fit the wider operand. *)
Definition int_result (op : arith_op) (T1 T2 : int_type) (t : TypeId) (x y : Z) : res Value :=
  let T := if bits T2 <=? bits T1 then T1 else T2 in
  let z := zarith op x y in
  match op with
  | OpDivide | OpModulo => if y =? 0 then Err (Raised EX_DIVIDE_BY_ZERO) else Ok (int_value t T z)
  | _ =>
    if decide (is_signed (promoted T1 T2) z) then
      if decide (is_signed (bits T) z) then Ok (int_value t T z) else Err (Raised EX_OUT_OF_RANGE)
    else Err IntegerOverflow
  end.

Lemma quot_range w x y : 0 < w -> is_signed w x -> x <> - 2 ^ (w - 1) -> is_signed w (Z.quot x y).
Proof.
  unfold is_signed. intros Hw Hx Hn.
  assert (Z.abs (Z.quot x y) <= Z.abs x); [|lia].
  destruct (decide (y = 0)) as [->|Hy]; [replace (Z.quot x 0) with 0 by (by destruct x); lia|].
  rewrite <- Z.quot_abs by done. rewrite Z.quot_div_nonneg by lia.
  apply Z.div_le_upper_bound; [lia|]. nia.
Qed.

Lemma rem_range w x y : 0 < w -> is_signed w x -> x <> - 2 ^ (w - 1) -> is_signed w (Z.rem x y).
Proof.
  unfold is_signed. intros Hw Hx Hn.
  assert (Z.abs (Z.rem x y) <= Z.abs x); [|lia].
  destruct (decide (y = 0)) as [->|Hy]; [replace (Z.rem x 0) with x by (by destruct x); lia|].
  rewrite <- Z.rem_abs by done. rewrite Z.rem_mod_nonneg by lia. apply Z.mod_le; lia.
Qed.

Lemma is_signed_mono w w' z : w <= w' -> 0 < w -> is_signed w z -> is_signed w' z.
Proof.
  unfold is_signed. intros Hw Hp Hz. assert (2 ^ (w - 1) <= 2 ^ (w' - 1)) by (apply Z.pow_le_mono_r; lia). lia.
Qed.

Lemma signed_fits w z : 0 < w -> (z =? signed w z) = bool_decide (is_signed w z).
Proof.
  intros Hw. case_bool_decide as Hz.
  - by rewrite signed_id, Z.eqb_refl.
  - apply Z.eqb_neq. intros E. apply Hz. rewrite E. by apply signed_range.
Qed.

(** The first test of [AddValue], ...: the result fits neither operand's type. *)
Lemma fits_neither T1 T2 z :
  negb (z =? signed (bits T1) z) && negb (z =? signed (bits T2) z)
  = negb (bool_decide (is_signed (bits (if bits T2 <=? bits T1 then T1 else T2)) z)).
Proof.
  rewrite !signed_fits by apply bits_pos.
  pose proof (bits_pos T1). pose proof (bits_pos T2).
  destruct (bits T2 <=? bits T1) eqn:E; [apply Z.leb_le in E|apply Z.leb_gt in E];
    repeat case_bool_decide; try done; exfalso;
    match goal with Hn : ~ is_signed _ _ |- _ => apply Hn; eapply is_signed_mono; [|..|eassumption]; lia end.
Qed.

Lemma product_mismatch_exact w x y : is_signed w x -> product_mismatch w x y (x * y) = Ok false.
Proof.
  intros Hx. unfold product_mismatch. destruct (y =? 0) eqn:E; [done|]. apply Z.eqb_neq in E.
  rewrite Z.quot_mul by done. unfold checked. rewrite decide_True by done. simpl. by rewrite Z.eqb_refl.
Qed.

Lemma promoted_max T1 T2 :
  bits T1 <= promoted T1 T2 /\ bits T2 <= promoted T1 T2.
Proof. unfold promoted. lia. Qed.

Lemma checked_ok w z : is_signed w z -> checked w z = Ok z.
Proof. intros. unfold checked. by rewrite decide_True. Qed.

(** The second test, on signs or on the quotient, never fires. *)
Lemma arith_method_exact op T1 T2 t1 t2 x y :
  int_type_of t1 = Some T1 -> int_type_of t2 = Some T2 -> proper_int T1 x -> proper_int T2 y ->
  arith_method op T1 T2 (int_value t1 T1 x) (int_value t2 T2 y)
  = int_result op T1 T2 (if bits T2 <=? bits T1 then t1 else t2) x y.
Proof.
  intros Ht1 Ht2 [Hx Hxn] [Hy Hyn]. destruct (promoted_max T1 T2) as [Hw1 Hw2].
  pose proof (bits_pos T1) as Hp1. pose proof (bits_pos T2) as Hp2.
  assert (Hxw : is_signed (promoted T1 T2) x) by (eapply is_signed_mono; [|..|exact Hx]; lia).
  assert (Hq : is_signed (bits T1) (Z.quot x y)) by (by apply quot_range).
  assert (Hr : is_signed (bits T1) (Z.rem x y)) by (by apply rem_range).
  assert (Hq2 : bits T1 < bits T2 -> is_signed (bits T2) (Z.quot x y))
    by (intros; eapply is_signed_mono; [|..|exact Hq]; lia).
  assert (Hr2 : bits T1 < bits T2 -> is_signed (bits T2) (Z.rem x y))
    by (intros; eapply is_signed_mono; [|..|exact Hr]; lia).
  destruct op; cbn [arith_method]; unfold AddValue, SubtractValue, MultiplyValue, DivideValue, ModuloValue;
    cbn [GetAs_int int_value value_ type_id_ rbind int_result zarith].
  1-3: unfold checked at 1; case_decide as Hw; [|done]; cbn [rbind]; rewrite fits_neither;
    unfold throw_out_of_range_if; destruct (bits T2 <=? bits T1); case_bool_decide as Hz;
    cbn [negb rbind]; try (by rewrite decide_False); rewrite decide_True, signed_id by done.
  1-4: match goal with |- context [if ?b then Err _ else Ok tt] => assert (b = false) as -> by lia end.
  5-6: rewrite product_mismatch_exact by done.
  1-6: cbn [rbind]; erewrite Value_int_ok by done; by rewrite signed_id.
  all: destruct (y =? 0); [done|]; rewrite checked_ok by (eapply is_signed_mono; [|..|exact Hq]; lia);
    cbn [rbind]; destruct (bits T2 <=? bits T1) eqn:E; [|apply Z.leb_gt in E]; erewrite Value_int_ok by done;
    rewrite !signed_id by auto using signed_range; reflexivity.
Qed.

(** The whole operation, nulls included. *)
Lemma Value_arith_exact op t1 T1 x t2 T2 y :
  int_type_of t1 = Some T1 -> int_type_of t2 = Some T2 -> is_signed (bits T1) x -> is_signed (bits T2) y ->
  Value_arith op (int_value t1 T1 x) (int_value t2 T2 y)
  = let t := if bits T2 <=? bits T1 then t1 else t2 in
    let T := if bits T2 <=? bits T1 then T1 else T2 in
    if (x =? null_int T1) || (y =? null_int T2) then Ok (int_value t T (null_int T))
    else int_result op T1 T2 t x y.
Proof.
  intros H1 H2 Hx Hy. rewrite (Value_arith_int op _ _ T1) by done.
  unfold integral_dispatch, arith_checked.
  assert (CheckInteger (int_value t1 T1 x) = true) as -> by (by destruct t1; simplify_eq/=).
  assert (CheckComparable (int_value t1 T1 x) (int_value t2 T2 y) = true) as ->
    by (by destruct t1, t2; simplify_eq/=).
  cbn [rbind assert]. rewrite !IsNull_int.
  destruct ((x =? null_int T1) || (y =? null_int T2)) eqn:En.
  - unfold Value_OperateNull. destruct t1, t2; simplify_eq/=; reflexivity.
  - apply orb_false_iff in En as [Ex%Z.eqb_neq Ey%Z.eqb_neq].
    assert (E : INTEGER_MODIFY_FUNC t1 T1 (arith_method op) (arith_double op) (int_value t1 T1 x) (int_value t2 T2 y)
                = arith_method op T1 T2 (int_value t1 T1 x) (int_value t2 T2 y))
      by (by destruct t2; simplify_eq/=).
    rewrite <- arith_method_exact, <- E by done.
    destruct op; cbn [arith_guard]; try done; unfold unless_zero;
      (assert (Value_IsZero (int_value t2 T2 y) = Ok (y =? 0)) as -> by (by destruct t2; simplify_eq/=));
      cbn [rbind]; (destruct (y =? 0) eqn:Ey0; [|done]); rewrite E, arith_method_exact by done;
      unfold int_result; by rewrite Ey0.
Qed.

(** ** Integer comparison *)

Definition Value_compare (op : cmp_op) : Value -> Value -> res CmpBool :=
  match op with
  | OpEq => Value_CompareEquals | OpNe => Value_CompareNotEquals | OpLt => Value_CompareLessThan
  | OpLe => Value_CompareLessThanEquals | OpGt => Value_CompareGreaterThan | OpGe => Value_CompareGreaterThanEquals
  end.

Lemma Value_compare_int op v o :
  CheckInteger v = true -> Value_compare op v o = compare_checked true (INTEGER_COMPARE_FUNC (type_id_ v) op) v o.
Proof.
  intros Hv. rewrite <- Hv. unfold CheckInteger in Hv.
  destruct op; cbn [Value_compare]; unfold Value_CompareEquals, Value_CompareNotEquals, Value_CompareLessThan,
    Value_CompareLessThanEquals, Value_CompareGreaterThan, Value_CompareGreaterThanEquals;
    destruct (type_id_ v); by try discriminate Hv.
Qed.

Lemma Value_compare_exact op t1 T1 x t2 T2 y :
  int_type_of t1 = Some T1 -> int_type_of t2 = Some T2 ->
  Value_compare op (int_value t1 T1 x) (int_value t2 T2 y)
  = Ok (if (x =? null_int T1) || (y =? null_int T2) then CmpNull else GetCmpBool (zcmp op x y)).
Proof.
  intros H1 H2. rewrite Value_compare_int by (by destruct t1; simplify_eq/=). unfold compare_checked.
  assert (CheckComparable (int_value t1 T1 x) (int_value t2 T2 y) = true) as ->
    by (by destruct t1, t2; simplify_eq/=).
  cbn [rbind assert]. rewrite !IsNull_int.
  destruct ((x =? null_int T1) || (y =? null_int T2)); [done|]. by destruct t2; simplify_eq/=.
Qed.

(** ** Integer conversions *)

(** The largest number of a type; the smallest is its opposite, the next one
    down is null. *)
Definition max_int (T : int_type) : Z := 2 ^ (bits T - 1) - 1.

Lemma proper_int_max T z : proper_int T z <-> - max_int T <= z <= max_int T.
Proof. unfold proper_int, is_signed, null_int, max_int. split; intros; [lia|split; lia]. Qed.

Lemma Value_CastAs_int t1 T1 x t2 T2 :
  int_type_of t1 = Some T1 -> int_type_of t2 = Some T2 -> proper_int T1 x ->
  Value_CastAs (int_value t1 T1 x) t2
  = if decide (proper_int T2 x) then Ok (int_value t2 T2 x) else Err (Raised EX_OUT_OF_RANGE).
Proof.
  intros H1 H2 Hx. pose proof Hx as [Hs Hn]. pose proof (IsNull_int t1 T1 x) as En.
  rewrite (proj2 (Z.eqb_neq _ _) Hn) in En.
  assert (Hok : forall T', proper_int T2 x -> Value_int T' t2 (signed (bits T2) x) = Ok (int_value t2 T2 x)).
  { intros T' [Hp _]. rewrite (Value_int_ok _ _ _ _ H2), !signed_id by auto using bits_pos, signed_range. done. }
  assert (Hid : forall T', proper_int T2 x -> Value_int T' t2 x = Ok (int_value t2 T2 x)).
  { intros T' Hp. rewrite <- (Hok T' Hp). rewrite signed_id; [done|apply bits_pos|apply Hp]. }
  unfold Value_CastAs. rewrite proper_int_max in Hx. unfold max_int in Hx.
  case_decide as Hp.
  - pose proof Hp as Hm. rewrite proper_int_max in Hm. unfold max_int in Hm.
    pose proof (Hok int8_t Hp) as K8. pose proof (Hok int16_t Hp) as K16. pose proof (Hok int32_t Hp) as K32.
    pose proof (Hok int64_t Hp) as K64. pose proof (Hid int8_t Hp) as I8. pose proof (Hid int16_t Hp) as I16.
    pose proof (Hid int64_t Hp) as I64.
    destruct t1; try discriminate H1; injection H1 as <-; destruct t2; try discriminate H2; injection H2 as <-;
      cbn [GetInstance rbind int_value type_id_ vt_tinyint vt_smallint vt_integer vt_bigint];
      unfold TinyintType_CastAs, SmallintType_CastAs, IntegerType_CastAs, BigintType_CastAs, unless_null;
      fold (int_value TINYINT int8_t x) (int_value SMALLINT int16_t x) (int_value INTEGER int32_t x)
        (int_value BIGINT int64_t x); rewrite En;
      cbn [GetAs_int int_value value_ rbind TinyintType_Copy SmallintType_Copy BigintType_Copy CheckInteger type_id_
           assert];
      unfold check_range;
      try (match goal with |- context [if ?b then Err _ else Ok tt] => assert (b = false) as -> by
        (cbn in Hm; unfold BUSTUB_INT8_MAX, BUSTUB_INT8_MIN, BUSTUB_INT16_MAX, BUSTUB_INT16_MIN, BUSTUB_INT32_MAX,
           BUSTUB_INT32_MIN; lia) end; cbn [rbind]);
      first [exact K8|exact K16|exact K32|exact K64|exact I8|exact I16|exact I64].
  - rewrite proper_int_max in Hp. unfold max_int in Hp.
    destruct t1; try discriminate H1; injection H1 as <-; destruct t2; try discriminate H2; injection H2 as <-;
      cbn [bits] in Hp, Hx; try (exfalso; lia);
      cbn [GetInstance rbind int_value type_id_ vt_tinyint vt_smallint vt_integer vt_bigint];
      unfold TinyintType_CastAs, SmallintType_CastAs, IntegerType_CastAs, BigintType_CastAs, unless_null;
      fold (int_value TINYINT int8_t x) (int_value SMALLINT int16_t x) (int_value INTEGER int32_t x)
        (int_value BIGINT int64_t x); rewrite En; cbn [GetAs_int int_value value_ rbind]; unfold check_range;
      (match goal with |- context [if ?b then Err _ else Ok tt] => assert (b = true) as -> by
        (unfold BUSTUB_INT8_MAX, BUSTUB_INT8_MIN, BUSTUB_INT16_MAX, BUSTUB_INT16_MIN, BUSTUB_INT32_MAX,
           BUSTUB_INT32_MIN; lia) end); reflexivity.
Qed.

(** ** Strings *)

(** The value that holds the string [s]. *)
Definition varchar_value (s : bytes) : Value :=
  MkValue VARCHAR (VVarlen (Some (s ++ [0]))) (Z.of_nat (length s) + 1) true.

(** A string with its terminator fits an [int]. *)
Definition short (s : bytes) : Prop := Z.of_nat (length s) < 2 ^ 31 - 1.

Lemma read_prefix (s r : bytes) n : n = Z.of_nat (length s) -> mem_read (s ++ r) 0 n = Ok s.
Proof.
  intros ->. rewrite mem_read_ok by len. rewrite Nat2Z.id. change (Z.to_nat 0) with O.
  by rewrite drop_0, take_app_length.
Qed.

Lemma read_all (s : bytes) : mem_read s 0 (Z.of_nat (length s)) = Ok s.
Proof. rewrite <- (app_nil_r s) at 1. by apply read_prefix. Qed.

Lemma Value_string_ok s : short s -> Value_string VARCHAR s = Ok (varchar_value s).
Proof.
  unfold short, Value_string, varchar_value. intros Hs.
  rewrite (unsigned_id 32 (Z.of_nat (length s))) by (unfold is_unsigned; lia).
  rewrite unsigned_id by (unfold is_unsigned; lia).
  assert (Z.of_nat (length s) + 1 = Z.of_nat (length (s ++ [0]))) as -> by len. by rewrite read_all.
Qed.

Lemma IsNull_varchar s : short s -> IsNull (varchar_value s) = false.
Proof. unfold short, IsNull, varchar_value, BUSTUB_VALUE_NULL. intros. apply Z.eqb_neq. simpl. lia. Qed.

Lemma Value_ToString_varchar s : short s -> Value_ToString (varchar_value s) = Ok s.
Proof.
  intros Hs. unfold Value_ToString. cbn [varchar_value type_id_ GetInstance rbind vt_varchar].
  unfold VarlenType_ToString. fold (varchar_value s). rewrite IsNull_varchar by done.
  unfold short in Hs. cbn [VarlenType_GetLength VarlenType_GetData rbind varchar_value len_ value_ read_data].
  rewrite (proj2 (Z.eqb_neq _ BUSTUB_VARCHAR_MAX_LEN)) by (unfold BUSTUB_VARCHAR_MAX_LEN; lia).
  rewrite (proj2 (Z.eqb_neq _ 0)) by lia. apply read_prefix. lia.
Qed.

(** The order of strings: byte by byte, a proper prefix first. *)
Fixpoint lex_compare (s1 s2 : bytes) : comparison :=
  match s1, s2 with
  | [], [] => Eq
  | [], _ :: _ => Lt
  | _ :: _, [] => Gt
  | b1 :: s1, b2 :: s2 => match b1 ?= b2 with Eq => lex_compare s1 s2 | c => c end
  end.

Definition cmp_holds (op : cmp_op) (c : comparison) : bool :=
  match op, c with
  | OpEq, Eq | OpNe, (Lt | Gt) | OpLt, Lt | OpLe, (Lt | Eq) | OpGt, Gt | OpGe, (Gt | Eq) => true
  | _, _ => false
  end.

Lemma zcmp_holds op c : zcmp op c 0 = cmp_holds op (c ?= 0).
Proof. destruct op, (Z.compare_spec c 0); cbn [zcmp cmp_holds]; lia. Qed.

Lemma memcmp_lex s1 s2 r1 r2 :
  exists c, memcmp (length s1 `min` length s2) (s1 ++ r1) (s2 ++ r2) = Ok c /\
    ((if (c =? 0)%Z && negb (length s1 =? length s2)%nat
      then Z.of_nat (length s1) - Z.of_nat (length s2) else c) ?= 0) = lex_compare s1 s2.
Proof.
  revert s2. induction s1 as [|b1 s1 IH]; intros [|b2 s2]; simpl length; cbn [Nat.min memcmp app lex_compare].
  1-3: (eexists; split; [reflexivity|]); cbn; try done; by rewrite ?Pos2Z.opp_pos.
  destruct (Z.compare_spec b1 b2) as [->|Hlt|Hgt].
  - rewrite Z.eqb_refl. destruct (IH s2) as (c & Hc & He). exists c. split; [exact Hc|].
    rewrite <- He. cbn [Nat.eqb]. destruct (_ && _); [|done]. f_equal. lia.
  - rewrite (proj2 (Z.eqb_neq _ _)) by lia. eexists; split; [done|].
    rewrite (proj2 (Z.eqb_neq _ 0)) by lia. simpl. apply Z.compare_lt_iff. lia.
  - rewrite (proj2 (Z.eqb_neq _ _)) by lia. eexists; split; [done|].
    rewrite (proj2 (Z.eqb_neq _ 0)) by lia. simpl. apply Z.compare_gt_iff. lia.
Qed.

Lemma CompareStrings_lex s1 s2 r1 r2 :
  exists c, CompareStrings (Some (s1 ++ r1)) (Z.of_nat (length s1)) (Some (s2 ++ r2)) (Z.of_nat (length s2)) = Ok c
    /\ (c ?= 0) = lex_compare s1 s2.
Proof.
  destruct (memcmp_lex s1 s2 r1 r2) as (c & Hc & He). unfold CompareStrings.
  rewrite !(proj2 (Z.leb_le 0 _)) by lia. cbn [assert rbind].
  rewrite <- Nat2Z.inj_min, Nat2Z.id, Hc. cbn [rbind]. eexists. split; [done|].
  rewrite <- He.
  assert ((Z.of_nat (length s1) =? Z.of_nat (length s2)) = (length s1 =? length s2)%nat) as ->; [|done].
  apply eq_true_iff_eq. rewrite Z.eqb_eq, Nat.eqb_eq. lia.
Qed.

(** The value a VARCHAR is compared with, as a string. *)
Lemma VARLEN_COMPARE_lex op s1 s2 o :
  short s1 -> short s2 ->
  (if decide (type_id_ o = VARCHAR) then Ok o else Value_CastAs o VARCHAR) = Ok (varchar_value s2) ->
  VARLEN_COMPARE_FUNC op (varchar_value s1) o = Ok (GetCmpBool (cmp_holds op (lex_compare s1 s2))).
Proof.
  unfold short. intros H1 H2 Ho. unfold VARLEN_COMPARE_FUNC.
  change (Value_GetData (varchar_value s1)) with (Ok (Some (s1 ++ [0]))).
  cbn [rbind VarlenType_GetLength]. rewrite Ho. cbn [rbind].
  change (Value_GetData (varchar_value s2)) with (Ok (Some (s2 ++ [0]))).
  cbn [rbind VarlenType_GetLength varchar_value len_]. rewrite !Z.add_simpl_r.
  rewrite !unsigned_id by (unfold is_unsigned; lia). rewrite !signed_id by (try unfold is_signed; lia).
  destruct (CompareStrings_lex s1 s2 [0] [0]) as (c & -> & <-). cbn [rbind]. by rewrite zcmp_holds.
Qed.

Lemma Value_compare_varchar op v o :
  type_id_ v = VARCHAR -> Value_compare op v o = varlen_compare op v o.
Proof.
  intros Hv. destruct op; cbn [Value_compare]; unfold Value_CompareEquals, Value_CompareNotEquals, Value_CompareLessThan,
    Value_CompareLessThanEquals, Value_CompareGreaterThan, Value_CompareGreaterThanEquals; by rewrite Hv.
Qed.

Lemma Value_compare_lex op s1 s2 o :
  short s1 -> short s2 -> IsNull o = false -> 
  (if decide (type_id_ o = VARCHAR) then Ok o else Value_CastAs o VARCHAR) = Ok (varchar_value s2) ->
  Value_compare op (varchar_value s1) o = Ok (GetCmpBool (cmp_holds op (lex_compare s1 s2))).
Proof.
  intros H1 H2 Hn Ho. rewrite Value_compare_varchar by done. unfold varlen_compare, compare_checked.
  change (CheckComparable (varchar_value s1) o) with true. cbn [assert rbind].
  rewrite IsNull_varchar, Hn by done. cbn [orb VarlenType_GetLength rbind].
  pose proof (IsNull_varchar s1 H1) as E1. unfold IsNull in E1, Hn.
  unfold BUSTUB_VARCHAR_MAX_LEN. fold BUSTUB_VALUE_NULL. rewrite E1, Hn. cbn [orb].
  by apply VARLEN_COMPARE_lex.
Qed.

(** *** Numbers as strings *)

Lemma digits_loop_length f n acc : (length (digits_loop f n acc) <= f + length acc)%nat.
Proof.
  revert n acc. induction f as [|f IH]; intros n acc; [simpl; lia|].
  rewrite digits_loop_succ. destruct (n / 10 =? 0); [simpl; lia|].
  pose proof (IH (n / 10) (48 + n mod 10 :: acc)). simpl in *. lia.
Qed.

Lemma to_string_short z : is_signed 64 z -> short (to_string z).
Proof.
  unfold is_signed, short, to_string, digits. intros Hz.
  assert (Hd : forall n, 0 <= n <= 2 ^ 63 -> (length (digits_loop (S (Z.to_nat (Z.log2 n))) n []) <= 64)%nat).
  { intros n Hn. pose proof (digits_loop_length (S (Z.to_nat (Z.log2 n))) n []) as H. change (length []) with O in H.
    pose proof (Z.log2_le_mono n (2 ^ 63) ltac:(lia)) as Hl. rewrite Z.log2_pow2 in Hl by lia. lia. }
  destruct (z <? 0) eqn:E; [apply Z.ltb_lt in E|apply Z.ltb_ge in E].
  - pose proof (Hd (- z) ltac:(lia)). rewrite length_cons. lia.
  - pose proof (Hd z ltac:(lia)). lia.
Qed.

Lemma signed_max32 T z : is_signed (bits T) z -> is_signed (Z.max 32 (bits T)) z.
Proof. apply is_signed_mono; [lia|apply bits_pos]. Qed.

Lemma to_string_short_int T z : is_signed (bits T) z -> short (to_string z).
Proof. intros Hz. apply to_string_short. eapply is_signed_mono; [|apply (bits_pos T)|exact Hz]. by destruct T. Qed.

Lemma int_to_varchar t T z :
  int_type_of t = Some T -> proper_int T z ->
  Value_CastAs (int_value t T z) VARCHAR = Ok (varchar_value (to_string z)).
Proof.
  intros HT [Hs Hn]. pose proof (IsNull_int t T z) as En. rewrite (proj2 (Z.eqb_neq _ _) Hn) in En.
  pose proof (to_string_short_int T z Hs) as Hsh.
  assert (Hstr : Value_ToString (int_value t T z) = Ok (to_string z)).
  { unfold Value_ToString. destruct t; try discriminate HT; injection HT as <-; cbn; unfold TinyintType_ToString,
      SmallintType_ToString, IntegerType_ToString, BigintType_ToString; rewrite En; reflexivity. }
  assert (Hc : cast_to_varchar (int_value t T z) (Value_ToString (int_value t T z)) = Ok (varchar_value (to_string z))).
  { unfold cast_to_varchar, unless_null. rewrite En, Hstr. simpl. by apply Value_string_ok. }
  rewrite <- Hc. by destruct t; simplify_eq/=.
Qed.

(** Reading a number out of a string: TINYINT and SMALLINT go through [int] and
    keep the low bits. *)
Lemma varchar_to_int z t T :
  int_type_of t = Some T -> is_signed (Z.max 32 (bits T)) z ->
  Value_CastAs (varchar_value (to_string z)) t
  = if decide (t <> INTEGER /\ signed (bits T) z = null_int T) then Err (Raised EX_OUT_OF_RANGE)
    else Ok (int_value t T (signed (bits T) z)).
Proof.
  intros HT Hz.
  assert (Hsh : short (to_string z)) by (apply to_string_short; eapply is_signed_mono; [|..|exact Hz]; by destruct T).
  unfold Value_CastAs. cbn [varchar_value type_id_ GetInstance rbind vt_varchar]. fold (varchar_value (to_string z)).
  unfold VarlenType_CastAs. rewrite Value_ToString_varchar by done.
  pose proof (signed_range (bits T) z (bits_pos T)) as Hr. unfold is_signed in Hr.
  destruct t; try discriminate HT; injection HT as <-; cbn [bits Z.max Z.compare Pos.compare Pos.compare_cont] in *;
    cbn [rbind]; unfold stoi, stoll; rewrite sto_to_string by done; cbn [rbind catch_out_of_range];
    unfold check_range, BUSTUB_INT8_MIN, BUSTUB_INT16_MIN, BUSTUB_INT64_MIN, BUSTUB_INT64_MAX, null_int; cbn [bits].
  - case_decide as Hd; [by rewrite (proj2 (Z.ltb_lt _ _)) by lia|].
    rewrite (proj2 (Z.ltb_ge _ _)) by (assert (signed 8 z <> - 2 ^ (8 - 1)) by naive_solver; lia).
    change Value_int8 with (Value_int int8_t). erewrite Value_int_ok by done.
    by rewrite signed_id by (done || by apply signed_range).
  - case_decide as Hd; [by rewrite (proj2 (Z.ltb_lt _ _)) by lia|].
    rewrite (proj2 (Z.ltb_ge _ _)) by (assert (signed 16 z <> - 2 ^ (16 - 1)) by naive_solver; lia).
    change Value_int16 with (Value_int int16_t). erewrite Value_int_ok by done.
    by rewrite signed_id by (done || by apply signed_range).
  - by rewrite decide_False by naive_solver.
  - rewrite signed_id in Hr |- * by done.
    case_decide as Hd.
    + by rewrite (proj2 (orb_true_iff _ _)) by lia.
    + rewrite (proj2 (orb_false_iff _ _)) by (assert (z <> - 2 ^ (64 - 1)) by naive_solver; lia).
      cbn [rbind]. change Value_int64 with (Value_int int64_t). erewrite Value_int_ok by done. by rewrite signed_id.
Qed.

(** ** The storage format *)

(** The values that come back unchanged: a string that owns exactly its bytes. *)
Definition storable (v : Value) : Prop :=
  match type_id_ v with
  | INVALID | TIMESTAMP => False
  | DECIMAL => exists d, is_double d /\ v = decimal_value d
  | VARCHAR =>
    v = MkValue VARCHAR (VVarlen None) BUSTUB_VALUE_NULL false \/
    exists bs, Z.of_nat (length bs) < BUSTUB_VALUE_NULL /\
      v = MkValue VARCHAR (VVarlen (Some bs)) (Z.of_nat (length bs)) true
  | _ => wf_value v
  end.

(** The bytes a value takes in a tuple. *)
Definition encode (v : Value) : bytes :=
  match value_ v with
  | VInt z =>
    le_split (match type_id_ v with SMALLINT => 2 | INTEGER => 4 | BIGINT => 8 | _ => 1 end) z
  | VDecimal d => le_split 8 (double_bits d)
  | VVarlen None => le_split 4 BUSTUB_VALUE_NULL
  | VVarlen (Some bs) => le_split 4 (len_ v) ++ bs
  | VUninit => []
  end.

(** Two writes in a row. *)
Lemma splice_app {A} n (a b l : list A) :
  (n + length a + length b <= length l)%nat ->
  splice (n + length a) b (splice n a l) = splice n (a ++ b) l.
Proof.
  intros Hl. unfold splice. rewrite (assoc_L (++) (take n l) a).
  assert (Ht : length (take n l ++ a) = (n + length a)%nat) by len.
  rewrite <- Ht at 1. rewrite take_app_length.
  rewrite drop_app_ge by lia. rewrite Ht, drop_drop. rewrite <- !(assoc_L (++)).
  do 3 f_equal. f_equal. rewrite length_app. lia.
Qed.

Lemma mem_write_app m off a b m' :
  mem_write m off a = Ok m' -> off + Z.of_nat (length a) + Z.of_nat (length b) <= Z.of_nat (length m) ->
  mem_write m' (off + Z.of_nat (length a)) b = mem_write m off (a ++ b).
Proof.
  intros (Ho & Hl & ->)%mem_write_inv Hb. rewrite !mem_write_ok by (rewrite ?splice_length, ?length_app; lia).
  f_equal. rewrite <- splice_app by lia. f_equal. lia.
Qed.

Lemma fetch_le_split n m off z :
  mem_read m off (Z.of_nat n) = Ok (le_split n z) -> is_signed (8 * Z.of_nat n) z -> (0 < n)%nat ->
  fetch_int n m off = Ok z.
Proof.
  intros Hr Hz Hn. unfold fetch_int. rewrite Hr. cbn [rbind]. f_equal.
  rewrite le_combine_split. replace (256 ^ Z.of_nat n) with (2 ^ (8 * Z.of_nat n))
    by (change 256 with (2 ^ 8); by rewrite <- Z.pow_mul_r by lia).
  fold (unsigned (8 * Z.of_nat n) z). rewrite signed_unsigned by lia. apply signed_id; [lia|done].
Qed.

(** A length and the bytes behind it. *)
Lemma read_string m off bs :
  Z.of_nat (length bs) < BUSTUB_VALUE_NULL ->
  mem_read m off (Z.of_nat (length (le_split 4 (Z.of_nat (length bs)) ++ bs))) = Ok (le_split 4 (Z.of_nat (length bs)) ++ bs) ->
  VarlenType_DeserializeFrom m off = Ok (MkValue VARCHAR (VVarlen (Some bs)) (Z.of_nat (length bs)) true).
Proof.
  unfold BUSTUB_VALUE_NULL. intros Hl Hr. pose proof (mem_read_inv _ _ _ _ Hr) as (Ho & _ & Hb & _).
  rewrite length_app, le_split_length in Hr, Hb.
  unfold VarlenType_DeserializeFrom, load_u32.
  assert (mem_read m off 4 = Ok (le_split 4 (Z.of_nat (length bs)))) as ->.
  { replace off with (off + 0) by lia. rewrite (mem_read_sub _ _ _ _ 0 4 Hr) by lia. by apply read_prefix. }
  cbn [fmap res_fmap rbind]. rewrite le_combine_split_u32, unsigned_id by (unfold is_unsigned; lia).
  rewrite (proj2 (Z.eqb_neq _ BUSTUB_VALUE_NULL)) by (unfold BUSTUB_VALUE_NULL; lia).
  unfold Value_varlen, BUSTUB_VARCHAR_MAX_LEN. rewrite (proj2 (Z.ltb_lt _ _)) by lia. cbn [assert rbind].
  assert (mem_read (drop (Z.to_nat (off + 4)) m) 0 (Z.of_nat (length bs)) = Ok bs) as ->; [|done].
  assert (Hd : mem_read m (off + 4) (Z.of_nat (length bs)) = Ok bs).
  { rewrite (mem_read_sub _ _ _ _ 4 (Z.of_nat (length bs)) Hr) by lia.
    rewrite mem_read_ok by len. f_equal. rewrite Nat2Z.id. change (Z.to_nat 4) with 4%nat.
    rewrite drop_app_ge by len. rewrite le_split_length. by rewrite Nat.sub_diag, drop_0, take_ge. }
  apply mem_read_inv in Hd as (_ & _ & _ & Hd). rewrite mem_read_ok by len. f_equal.
  change (Z.to_nat 0) with O. by rewrite drop_0, <- Hd.
Qed.

(** Writing a storable value writes its encoding, and reading the encoding gives
    the value back. *)
Lemma SerializeTo_encode v m off :
  storable v -> 0 <= off -> off + Z.of_nat (length (encode v)) <= Z.of_nat (length m) ->
  Value_SerializeTo v m off = mem_write m off (encode v).
Proof.
  unfold storable, Value_SerializeTo. intros Hv Ho Hl.
  destruct (type_id_ v) eqn:Et; try done.
  1-5: (unfold wf_value in Hv; rewrite Et in Hv; destruct Hv as (z & _ & ->); reflexivity).
  - destruct Hv as (d & _ & ->). reflexivity.
  - destruct Hv as [->|(bs & Hbs & ->)]; [reflexivity|].
    cbn [GetInstance rbind vt_varchar]. unfold VarlenType_SerializeTo.
    cbn [encode value_ len_ VarlenType_GetLength VarlenType_GetData rbind read_data] in *.
    rewrite length_app, le_split_length in Hl.
    rewrite (proj2 (Z.eqb_neq _ BUSTUB_VALUE_NULL)) by lia.
    destruct (store_u32_is_ok m off (Z.of_nat (length bs))) as [m' Hm']; [lia..|].
    rewrite Hm'. cbn [rbind].
    rewrite read_all. cbn [rbind].
    apply (mem_write_app m off (le_split 4 (Z.of_nat (length bs))) bs m' Hm'). rewrite le_split_length. lia.
Qed.

Lemma DeserializeFrom_encode v m off :
  storable v -> mem_read m off (Z.of_nat (length (encode v))) = Ok (encode v) ->
  Value_DeserializeFrom m off (type_id_ v) = Ok v.
Proof.
  unfold storable, Value_DeserializeFrom. intros Hv Hr.
  destruct (type_id_ v) eqn:Et; try done; cbn [GetInstance rbind vt_boolean vt_tinyint vt_smallint vt_integer
    vt_bigint vt_decimal vt_varchar].
  1-5: (unfold wf_value in Hv; rewrite Et in Hv; destruct Hv as (z & Hz & ->);
        cbn [encode value_ type_id_ int_value] in Hr; rewrite le_split_length in Hr;
        unfold BooleanType_DeserializeFrom, TinyintType_DeserializeFrom, SmallintType_DeserializeFrom,
          IntegerType_DeserializeFrom, BigintType_DeserializeFrom;
        rewrite (fetch_le_split _ _ _ _ Hr) by (exact Hz || lia); cbn [rbind Value_int8 Value_int16 Value_int32
          Value_int64]; unfold set_int; by rewrite signed_id).
  - destruct Hv as (d & Hd & ->). cbn [encode value_ type_id_ decimal_value] in Hr.
    rewrite le_split_length in Hr. unfold DecimalType_DeserializeFrom. change (Z.of_nat 8) with 8 in Hr.
    rewrite Hr. cbn [rbind]. rewrite le_combine_split. change (256 ^ Z.of_nat 8) with (2 ^ 64).
    rewrite Z.mod_small by (by apply double_bits_range). by rewrite bits_double_bits.
  - destruct Hv as [->|(bs & Hbs & ->)].
    + cbn [encode value_] in Hr. unfold VarlenType_DeserializeFrom, load_u32.
      rewrite le_split_length in Hr. change (Z.of_nat 4) with 4 in Hr. rewrite Hr. reflexivity.
    + by apply read_string.
Qed.
