(* ===== verification/ValueFactory.v ===== *)
(** The value factory: [src/include/type/value_factory.h].

    The pool argument of the source is unused there and left out.  The message
    of a "not coercable" exception prints the value, which can itself fail. *)

From Stdlib Require Import SpecFloat.
From S2P Require Import Prelude Bytes Ieee CString Value Types.

(** ** Definitions *)

Definition Clone (src : Value) : res Value := Value_Copy src.
Definition GetTinyIntValue (value : Z) : res Value := Value_int8 TINYINT value.
Definition GetSmallIntValue (value : Z) : res Value := Value_int16 SMALLINT value.
Definition GetIntegerValue (value : Z) : res Value := Value_int32 INTEGER value.
Definition GetBigIntValue (value : Z) : res Value := Value_int64 BIGINT value.
Definition GetTimestampValue (value : Z) : res Value := Value_int64 TIMESTAMP (signed 64 value).
Definition GetDecimalValue (value : double) : res Value := Value_double DECIMAL value.

(** The three overloads of [GetBooleanValue]. *)
Definition GetBooleanValue_cmp (value : CmpBool) : res Value :=
  Value_int8 BOOLEAN (match value with CmpNull => BUSTUB_BOOLEAN_NULL | CmpTrue => 1 | CmpFalse => 0 end).
Definition GetBooleanValue_bool (value : bool) : res Value := Value_int8 BOOLEAN (Z.b2z value).
Definition GetBooleanValue_int8 (value : Z) : res Value := Value_int8 BOOLEAN value.

(** [strlen]: the bytes before the first zero, which has to be there. *)
Fixpoint strlen (s : bytes) : res Z :=
  match s with
  | [] => Err OutOfBounds
  | c :: s => if c =? 0 then Ok 0 else let! n := strlen s in Ok (n + 1)
  end.

(** The three overloads of [GetVarcharValue]. *)
Definition GetVarcharValue_len (value : option bytes) (len : Z) (manage_data : bool) : res Value :=
  Value_varlen VARCHAR value len manage_data.
Definition GetVarcharValue_cstr (value : option bytes) (manage_data : bool) : res Value :=
  let! len := match value with None => Ok 0 | Some s => let! n := strlen s in Ok (unsigned 32 (n + 1)) end in
  GetVarcharValue_len value len manage_data.
Definition GetVarcharValue (value : bytes) : res Value := Value_string VARCHAR value.

Definition GetNullValueByType (type_id : TypeId) : res Value :=
  match type_id with
  | BOOLEAN => GetBooleanValue_int8 BUSTUB_BOOLEAN_NULL
  | TINYINT => GetTinyIntValue BUSTUB_INT8_NULL
  | SMALLINT => GetSmallIntValue BUSTUB_INT16_NULL
  | INTEGER => GetIntegerValue BUSTUB_INT32_NULL
  | BIGINT => GetBigIntValue BUSTUB_INT64_NULL
  | DECIMAL => GetDecimalValue BUSTUB_DECIMAL_NULL
  | VARCHAR => GetVarcharValue_cstr None false
  | _ => Err (Raised EX_UNKNOWN_TYPE)
  end.

Definition GetZeroValueByType (type_id : TypeId) : res Value :=
  match type_id with
  | BOOLEAN => GetBooleanValue_bool false
  | TINYINT => GetTinyIntValue 0
  | SMALLINT => GetSmallIntValue 0
  | INTEGER => GetIntegerValue 0
  | BIGINT => GetBigIntValue 0
  | DECIMAL => GetDecimalValue (double_of_Z 0)
  | VARCHAR => GetVarcharValue (str "0")
  | _ => Err (Raised EX_UNKNOWN_TYPE)
  end.

(** [throw Exception(ToString(value) + " is not coercable to ...")]. *)
Definition not_coercable (value : Value) : res Value :=
  let! _ := Value_ToString value in Err (Raised EX_INVALID).

(** [catch (std::out_of_range &e) {...} catch (std::invalid_argument &e) {...}]. *)
Definition catch_conversion {A} (r : res A) : res A :=
  match r with
  | Err StdOutOfRange => Err (Raised EX_OUT_OF_RANGE)
  | Err StdInvalidArgument => Err (Raised EX_INVALID)
  | _ => r
  end.

Definition CastAsBigInt (value : Value) : res Value :=
  if IsCoercableFrom BIGINT (type_id_ value) then
    if IsNull value then GetBigIntValue BUSTUB_INT64_NULL else
    match type_id_ value with
    | TINYINT | SMALLINT | INTEGER | BIGINT => let! z := GetAs_int value in GetBigIntValue z
    | DECIMAL =>
      let! d := GetAs_double value in
      let! _ := check_double_range d (double_of_Z BUSTUB_INT64_MIN) (double_of_Z BUSTUB_INT64_MAX) in
      let! z := double_to_int 64 d in
      GetBigIntValue z
    | VARCHAR =>
      let! s := Value_ToString value in
      let! bigint := catch_conversion (stoll s) in
      let! _ := check_range bigint BUSTUB_INT64_MIN BUSTUB_INT64_MAX in
      GetBigIntValue bigint
    | _ => not_coercable value
    end
  else not_coercable value.

Definition CastAsInteger (value : Value) : res Value :=
  if IsCoercableFrom INTEGER (type_id_ value) then
    if IsNull value then GetIntegerValue BUSTUB_INT32_NULL else
    match type_id_ value with
    | TINYINT | SMALLINT | INTEGER => let! z := GetAs_int value in GetIntegerValue z
    | BIGINT =>
      let! z := GetAs_int value in
      let! _ := check_range z BUSTUB_INT32_MIN BUSTUB_INT32_MAX in
      GetIntegerValue (signed 32 z)
    | DECIMAL =>
      let! d := GetAs_double value in
      let! _ := check_double_range d (double_of_Z BUSTUB_INT32_MIN) (double_of_Z BUSTUB_INT32_MAX) in
      let! z := double_to_int 32 d in
      GetIntegerValue z
    | VARCHAR =>
      let! s := Value_ToString value in
      let! integer := catch_conversion (stoi s) in
      GetIntegerValue integer
    | _ => not_coercable value
    end
  else not_coercable value.

Definition CastAsSmallInt (value : Value) : res Value :=
  if IsCoercableFrom SMALLINT (type_id_ value) then
    if IsNull value then GetSmallIntValue BUSTUB_INT16_NULL else
    match type_id_ value with
    | TINYINT | SMALLINT => let! z := GetAs_int value in GetSmallIntValue z
    | INTEGER | BIGINT =>
      let! z := GetAs_int value in
      let! _ := check_range z BUSTUB_INT16_MIN BUSTUB_INT16_MAX in
      GetSmallIntValue (signed 16 z)
    | DECIMAL =>
      let! d := GetAs_double value in
      let! _ := check_double_range d (double_of_Z BUSTUB_INT16_MIN) (double_of_Z BUSTUB_INT16_MAX) in
      let! z := double_to_int 16 d in
      GetSmallIntValue z
    | VARCHAR =>
      let! s := Value_ToString value in
      let! i := catch_conversion (stoi s) in
      let smallint := signed 16 i in
      if smallint <? BUSTUB_INT16_MIN then Err (Raised EX_OUT_OF_RANGE) else GetSmallIntValue smallint
    | _ => not_coercable value
    end
  else not_coercable value.

Definition CastAsTinyInt (value : Value) : res Value :=
  if IsCoercableFrom TINYINT (type_id_ value) then
    if IsNull value then GetTinyIntValue BUSTUB_INT8_NULL else
    match type_id_ value with
    | TINYINT => let! z := GetAs_int value in GetTinyIntValue z
    | SMALLINT | INTEGER | BIGINT =>
      let! z := GetAs_int value in
      let! _ := check_range z BUSTUB_INT8_MIN BUSTUB_INT8_MAX in
      GetTinyIntValue (signed 8 z)
    | DECIMAL =>
      let! d := GetAs_double value in
      let! _ := check_double_range d (double_of_Z BUSTUB_INT8_MIN) (double_of_Z BUSTUB_INT8_MAX) in
      let! z := double_to_int 8 d in
      GetTinyIntValue z
    | VARCHAR =>
      let! s := Value_ToString value in
      let! i := catch_conversion (stoi s) in
      let tinyint := signed 8 i in
      if tinyint <? BUSTUB_INT8_MIN then Err (Raised EX_OUT_OF_RANGE) else GetTinyIntValue tinyint
    | _ => not_coercable value
    end
  else not_coercable value.

Definition CastAsDecimal (value : Value) : res Value :=
  if IsCoercableFrom DECIMAL (type_id_ value) then
    if IsNull value then GetDecimalValue BUSTUB_DECIMAL_NULL else
    match type_id_ value with
    | TINYINT | SMALLINT | INTEGER | BIGINT => let! z := GetAs_int value in GetDecimalValue (double_of_Z z)
    | DECIMAL => let! d := GetAs_double value in GetDecimalValue d
    | VARCHAR =>
      let! s := Value_ToString value in
      let! d := catch_conversion (stod s) in
      let! _ := check_double_range d BUSTUB_DECIMAL_MIN BUSTUB_DECIMAL_MAX in
      GetDecimalValue d
    | _ => not_coercable value
    end
  else not_coercable value.

Definition CastAsVarchar (value : Value) : res Value :=
  if IsCoercableFrom VARCHAR (type_id_ value) then
    if IsNull value then GetVarcharValue_cstr None false else
    match type_id_ value with
    | BOOLEAN | TINYINT | SMALLINT | INTEGER | BIGINT | DECIMAL | VARCHAR =>
      let! s := Value_ToString value in GetVarcharValue s
    | _ => not_coercable value
    end
  else not_coercable value.

(** The type instance of [TIMESTAMP] is a null pointer: the function stops at
    its first line. *)
Definition CastAsTimestamp (value : Value) : res Value :=
  let! self := GetInstance (MkVtable INVALID BOOLEAN TINYINT SMALLINT INTEGER BIGINT DECIMAL VARCHAR) TIMESTAMP in
  if IsCoercableFrom self (type_id_ value) then type_error else not_coercable value.

Definition CastAsBoolean (value : Value) : res Value :=
  if IsCoercableFrom BOOLEAN (type_id_ value) then
    if IsNull value then GetBooleanValue_int8 BUSTUB_BOOLEAN_NULL else
    match type_id_ value with
    | BOOLEAN => let! z := GetAs_int value in GetBooleanValue_int8 z
    | VARCHAR =>
      let! s := Value_ToString value in
      let s := tolower <$> s in
      if bool_decide (s = str "true") || bool_decide (s = str "1") || bool_decide (s = str "t")
      then GetBooleanValue_bool true
      else if bool_decide (s = str "false") || bool_decide (s = str "0") || bool_decide (s = str "f")
      then GetBooleanValue_bool false
      else Err (Raised EX_INVALID)
    | _ => not_coercable value
    end
  else not_coercable value.

(** ** Lemmas *)

(** The factory's cast to a type. *)
Definition factory_cast (t : TypeId) : Value -> res Value :=
  match t with
  | BOOLEAN => CastAsBoolean
  | TINYINT => CastAsTinyInt | SMALLINT => CastAsSmallInt | INTEGER => CastAsInteger | BIGINT => CastAsBigInt
  | DECIMAL => CastAsDecimal | VARCHAR => CastAsVarchar | _ => CastAsTimestamp
  end.
