(* ===== verification/TypeProperties.v ===== *)
(** The properties of the type system ([Value], [Types], [ValueFactory]). *)

From Stdlib Require Import SpecFloat.
From S2P Require Import Prelude Bytes Ieee CString Value Types TypesCorrect ValueFactory.

(** C16: arithmetic on integer values of any two of the four integer types.  A
    null operand gives the null of the wider type.  Otherwise the result is the
    exact one, in the wider type; it is OUT_OF_RANGE when it does not fit,
    DIVIDE_BY_ZERO for a zero divisor, and undefined behaviour when the machine
    operation (of at least 32 bits) overflows, which needs an INTEGER or BIGINT
    operand.  The sign and quotient tests the source makes afterwards never
    fire.  A sum, difference or product equal to the smallest number of the type
    is not an error: it is null. *)
Theorem Value_integer_arithmetic op t1 T1 x t2 T2 y :
  int_type_of t1 = Some T1 -> int_type_of t2 = Some T2 -> is_signed (bits T1) x -> is_signed (bits T2) y ->
  let t := if bits T2 <=? bits T1 then t1 else t2 in
  let T := if bits T2 <=? bits T1 then T1 else T2 in
  let z := zarith op x y in
  Value_arith op (int_value t1 T1 x) (int_value t2 T2 y)
  = if (x =? null_int T1) || (y =? null_int T2) then Ok (int_value t T (null_int T)) else
    match op with
    | OpDivide | OpModulo => if y =? 0 then Err (Raised EX_DIVIDE_BY_ZERO) else Ok (int_value t T z)
    | _ =>
      if decide (is_signed (bits T) z) then Ok (int_value t T z)
      else if decide (is_signed 32 z \/ bits T = 64 /\ is_signed 64 z) then Err (Raised EX_OUT_OF_RANGE)
      else Err IntegerOverflow
    end.
Proof.
  intros H1 H2 Hx Hy t T z. rewrite Value_arith_exact by done. fold t T.
  destruct ((x =? null_int T1) || (y =? null_int T2)); [done|].
  assert (Hp : is_signed (promoted T1 T2) z <-> is_signed 32 z \/ bits T = 64 /\ is_signed 64 z).
  { assert (promoted T1 T2 = if bits T =? 64 then 64 else 32) as -> by (by destruct T1, T2).
    clearbody z T. unfold is_signed. destruct T; simpl; lia. }
  unfold int_result. fold z T.
  destruct op; try done; repeat case_decide; try done; exfalso; try tauto;
    match goal with Hn : ~ is_signed (promoted _ _) _ |- _ => apply Hn end;
    (eapply is_signed_mono; [|apply (bits_pos T)|eassumption]); unfold T, promoted; destruct T1, T2; simpl; lia.
Qed.

Lemma Value_integer_arithmetic_witness :
  Value_arith OpAdd (int_value TINYINT int8_t 100) (int_value SMALLINT int16_t 1000) = Ok (int_value SMALLINT int16_t 1100)
  /\ Value_arith OpMultiply (int_value TINYINT int8_t 100) (int_value TINYINT int8_t 2) = Err (Raised EX_OUT_OF_RANGE)
  /\ Value_arith OpAdd (int_value INTEGER int32_t (2 ^ 31 - 1)) (int_value TINYINT int8_t 1) = Err IntegerOverflow.
Proof.
  split_and!.
  - by rewrite (Value_integer_arithmetic OpAdd TINYINT int8_t 100 SMALLINT int16_t 1000).
  - by rewrite (Value_integer_arithmetic OpMultiply TINYINT int8_t 100 TINYINT int8_t 2).
  - by rewrite (Value_integer_arithmetic OpAdd INTEGER int32_t (2 ^ 31 - 1) TINYINT int8_t 1).
Defined.

(** ** Numeric values *)

Definition numeric (t : TypeId) : Prop := is_Some (int_type_of t) \/ t = DECIMAL.

Lemma numeric_inv v :
  wf_value v -> numeric (type_id_ v) ->
  (exists t T x, int_type_of t = Some T /\ is_signed (bits T) x /\ v = int_value t T x) \/ exists d, v = decimal_value d.
Proof.
  intros Hv [[T HT]|Hd]; [left|right; by apply wf_decimal_inv].
  destruct (wf_int_inv v _ T eq_refl HT Hv) as (z & Hz & E). exists (type_id_ v), T, z. done.
Qed.

(** The three ways arithmetic on numbers fails. *)
Definition arith_error (e : failure) : Prop :=
  e = Raised EX_OUT_OF_RANGE \/ e = Raised EX_DIVIDE_BY_ZERO \/ e = IntegerOverflow.

Lemma unless_zero_error (func : Value -> Value -> res Value) v o e :
  wf_value o -> numeric (type_id_ o) -> (forall e, func v o <> Err e) -> unless_zero func v o = Err e -> arith_error e.
Proof.
  intros Ho Hn Hf. unfold unless_zero, arith_error.
  assert (exists b, Value_IsZero o = Ok b) as [b ->].
  { destruct (numeric_inv o Ho Hn) as [(t & T & x & HT & _ & ->)|(d & ->)]; [|by eexists].
    destruct t; try discriminate HT; by eexists. }
  cbn [rbind]. destruct b; [intros [= <-]; tauto|]. intros E. by apply Hf in E.
Qed.

Lemma Value_arith_decimal_error op v o e :
  wf_value v -> wf_value o -> numeric (type_id_ v) -> numeric (type_id_ o) ->
  type_id_ v = DECIMAL \/ type_id_ o = DECIMAL -> Value_arith op v o = Err e -> arith_error e.
Proof.
  intros Hv Ho Hnv Hno Hd. destruct (numeric_inv v Hv Hnv) as [(t & T & x & HT & _ & ->)|(d & ->)].
  - destruct Hd as [Hd|Hd]; [simpl in Hd; by subst t|].
    destruct (wf_decimal_inv o Hd Ho) as [d ->]. rewrite (Value_arith_int _ _ _ T) by done.
    unfold integral_dispatch, arith_checked.
    assert (CheckInteger (int_value t T x) = true) as -> by (by destruct t; simplify_eq/=).
    assert (CheckComparable (int_value t T x) (decimal_value d) = true) as -> by (by destruct t; simplify_eq/=).
    cbn [assert rbind]. destruct (_ || _).
    + unfold Value_OperateNull. by destruct t; simplify_eq/=.
    + destruct op; cbn [arith_guard]; try done; apply unless_zero_error; done.
  - rewrite Value_arith_decimal by done. unfold arith_checked.
    destruct (numeric_inv o Ho Hno) as [(t & T & x & HT & _ & ->)|(d' & ->)].
    + assert (CheckComparable (decimal_value d) (int_value t T x) = true) as -> by (by destruct t; simplify_eq/=).
      cbn [assert rbind]. destruct (_ || _); [done|].
      assert (Hf : forall e, DECIMAL_MODIFY_FUNC (arith_double op) (decimal_value d) (int_value t T x) <> Err e)
        by (by destruct t; simplify_eq/=).
      destruct op; cbn [arith_guard]; (by apply unless_zero_error) || (intros E; by apply Hf in E).
    + cbn [CheckComparable decimal_value type_id_ assert rbind]. fold (decimal_value d) (decimal_value d').
      destruct (_ || _); [done|].
      destruct op; cbn [arith_guard]; try done; by apply unless_zero_error.
Qed.

Lemma Value_arith_int_error op t1 T1 x t2 T2 y e :
  int_type_of t1 = Some T1 -> int_type_of t2 = Some T2 -> is_signed (bits T1) x -> is_signed (bits T2) y ->
  Value_arith op (int_value t1 T1 x) (int_value t2 T2 y) = Err e -> arith_error e.
Proof.
  intros H1 H2 Hx Hy. rewrite Value_arith_exact by done. cbv zeta. unfold int_result, arith_error.
  destruct (_ || _); [done|]. destruct op; repeat case_decide; try (destruct (y =? 0)); intros [= <-]; tauto.
Qed.

(** C25: type soundness of values.  Arithmetic on well-formed numbers gives a
    well-formed value of the type the operands' types determine (the wider one,
    DECIMAL being the widest), or fails in one of three ways: OUT_OF_RANGE,
    DIVIDE_BY_ZERO or machine overflow; it never reads the wrong member of the
    union, fails an assertion, or throws a type error.  A cast that succeeds
    gives a well-formed value of the type asked for, a copy one of the same
    type. *)
Theorem Value_type_soundness v o :
  wf_value v -> wf_value o ->
  (forall op, numeric (type_id_ v) -> numeric (type_id_ o) ->
    match Value_arith op v o with
    | Ok r => wf_value r /\ type_id_ r = result_type (type_id_ v) (type_id_ o)
    | Err e => arith_error e
    end) /\
  (forall t r, Value_CastAs v t = Ok r -> wf_value r /\ type_id_ r = t) /\
  (forall r, Value_Copy v = Ok r -> wf_value r /\ type_id_ r = type_id_ v).
Proof.
  intros Hv Ho. split_and!; [|intros; by apply (Value_CastAs_typed v)|intros; by apply Value_Copy_typed].
  intros op Hnv Hno. destruct (Value_arith op v o) as [r|e] eqn:E; [by apply Value_arith_typed in E|].
  destruct (decide (type_id_ v = DECIMAL \/ type_id_ o = DECIMAL)) as [Hd|Hd];
    [by apply Value_arith_decimal_error in E|].
  destruct (numeric_inv v Hv Hnv) as [(t1 & T1 & x & H1 & Hx & ->)|(d & ->)]; [|naive_solver].
  destruct (numeric_inv o Ho Hno) as [(t2 & T2 & y & H2 & Hy & ->)|(d & ->)]; [|naive_solver].
  by apply Value_arith_int_error in E.
Qed.

Lemma Value_type_soundness_witness :
  match Value_arith OpAdd (int_value TINYINT int8_t 1) (decimal_value (double_of_Z 3)) with
  | Ok r => wf_value r /\ type_id_ r = DECIMAL
  | Err e => arith_error e
  end.
Proof.
  refine (proj1 (Value_type_soundness (int_value TINYINT int8_t 1) (decimal_value (double_of_Z 3)) _ _) OpAdd _ _).
  - by apply wf_int_value.
  - apply wf_decimal_value.
  - unfold numeric. left. by eexists.
  - unfold numeric. by right.
Defined.

(** comparison of integer values of any two of the four types is the
    comparison of the numbers, for each of the six operators, and CmpNull as
    soon as one of them is null. *)
Theorem Value_integer_comparison op t1 T1 x t2 T2 y :
  int_type_of t1 = Some T1 -> int_type_of t2 = Some T2 ->
  Value_compare op (int_value t1 T1 x) (int_value t2 T2 y)
  = Ok (if (x =? null_int T1) || (y =? null_int T2) then CmpNull else GetCmpBool (zcmp op x y)).
Proof. apply Value_compare_exact. Qed.

Lemma Value_integer_comparison_witness :
  Value_compare OpLt (int_value TINYINT int8_t 100) (int_value BIGINT int64_t 1000) = Ok CmpTrue
  /\ Value_compare OpNe (int_value TINYINT int8_t (-128)) (int_value BIGINT int64_t 1000) = Ok CmpNull.
Proof.
  split.
  - by rewrite (Value_integer_comparison OpLt TINYINT int8_t 100 BIGINT int64_t 1000).
  - by rewrite (Value_integer_comparison OpNe TINYINT int8_t (-128) BIGINT int64_t 1000).
Defined.

(** a comparison with a string depends on the side the string is on.  A
    VARCHAR on the left compares lexicographically, byte by byte, also with a
    number, which is printed first; a VARCHAR on the right of an integer is read
    as a number.  So [a < b] and [b > a] can differ: with the number 10 and the
    string 9 both [10 < '9'] and [10 > '9'] computed as ['9' < 10] are false. *)
Theorem Value_string_comparison op s t T x y :
  short s -> int_type_of t = Some T -> proper_int T x -> proper_int T y ->
  (forall s', short s' ->
    Value_compare op (varchar_value s) (varchar_value s') = Ok (GetCmpBool (cmp_holds op (lex_compare s s')))) /\
  Value_compare op (varchar_value s) (int_value t T x)
    = Ok (GetCmpBool (cmp_holds op (lex_compare s (to_string x)))) /\
  Value_compare op (int_value t T x) (varchar_value (to_string y)) = Ok (GetCmpBool (zcmp op x y)).
Proof.
  intros Hs HT Hx Hy. pose proof (IsNull_int t T x) as En. rewrite (proj2 (Z.eqb_neq _ _) (proj2 Hx)) in En.
  assert (Hsh : forall z, proper_int T z -> short (to_string z)) by (intros z [Hz _]; by apply (to_string_short_int T)).
  split_and!.
  - intros s' Hs'. apply Value_compare_lex; try done. by apply IsNull_varchar.
  - apply Value_compare_lex; try done; [by apply Hsh|].
    rewrite decide_False by (by destruct t; simplify_eq/=). by apply int_to_varchar.
  - rewrite Value_compare_int by (by destruct t; simplify_eq/=). unfold compare_checked.
    assert (CheckComparable (int_value t T x) (varchar_value (to_string y)) = true) as ->
      by (by destruct t; simplify_eq/=).
    cbn [assert rbind]. rewrite En, IsNull_varchar by (by apply Hsh). cbn [orb].
    unfold INTEGER_COMPARE_FUNC. cbn [GetAs_int int_value value_ type_id_ rbind varchar_value].
    fold (varchar_value (to_string y)). destruct Hy as [Hys Hyn].
    rewrite (varchar_to_int y t T) by (done || by apply signed_max32).
    rewrite signed_id by (done || apply bits_pos). rewrite decide_False by tauto. done.
Qed.

Lemma Value_string_comparison_witness :
  Value_compare OpLt (int_value INTEGER int32_t 10) (varchar_value (to_string 9)) = Ok CmpFalse
  /\ Value_compare OpLt (varchar_value (str "9")) (int_value INTEGER int32_t 10) = Ok CmpFalse.
Proof.
  split.
  - by rewrite (proj2 (proj2 (Value_string_comparison OpLt (str "9") INTEGER int32_t 10 9 eq_refl eq_refl
      ltac:(done) ltac:(done)))).
  - by rewrite (proj1 (proj2 (Value_string_comparison OpLt (str "9") INTEGER int32_t 10 9 eq_refl eq_refl
      ltac:(done) ltac:(done)))).
Defined.

(** conversions between the integer types are exact or OUT_OF_RANGE, and
    printing a number to a VARCHAR and reading it back gives the number. *)
Theorem Value_integer_conversion t1 T1 x :
  int_type_of t1 = Some T1 -> proper_int T1 x ->
  (forall t2 T2, int_type_of t2 = Some T2 ->
    Value_CastAs (int_value t1 T1 x) t2
    = if decide (proper_int T2 x) then Ok (int_value t2 T2 x) else Err (Raised EX_OUT_OF_RANGE)) /\
  (let! s := Value_CastAs (int_value t1 T1 x) VARCHAR in Value_CastAs s t1) = Ok (int_value t1 T1 x).
Proof.
  intros H1 Hx. split; [intros; by apply Value_CastAs_int|].
  rewrite int_to_varchar by done. cbn [rbind]. destruct Hx as [Hs Hn].
  rewrite (varchar_to_int x t1 T1) by (done || by apply signed_max32).
  rewrite signed_id by (done || apply bits_pos). by rewrite decide_False by tauto.
Qed.

Lemma Value_integer_conversion_witness :
  Value_CastAs (int_value INTEGER int32_t 300) TINYINT = Err (Raised EX_OUT_OF_RANGE)
  /\ (let! s := Value_CastAs (int_value INTEGER int32_t (-45)) VARCHAR in Value_CastAs s INTEGER)
     = Ok (int_value INTEGER int32_t (-45)).
Proof.
  split.
  - by rewrite (proj1 (Value_integer_conversion INTEGER int32_t 300 eq_refl ltac:(done)) TINYINT int8_t eq_refl).
  - by apply (Value_integer_conversion INTEGER int32_t (-45)).
Defined.

(** a VARCHAR that holds a number is converted to TINYINT or SMALLINT by
    keeping the low bits of the number: only the bit pattern of null is
    refused, not a number that does not fit.  The string 300 becomes the
    TINYINT 44, where the INTEGER 300 is OUT_OF_RANGE. *)
Theorem Value_string_narrowing t T z :
  (t = TINYINT /\ T = int8_t) \/ (t = SMALLINT /\ T = int16_t) -> is_signed 32 z ->
  Value_CastAs (varchar_value (to_string z)) t
  = if decide (signed (bits T) z = null_int T) then Err (Raised EX_OUT_OF_RANGE)
    else Ok (int_value t T (signed (bits T) z)).
Proof.
  intros Ht Hz. rewrite (varchar_to_int z t T) by (destruct Ht as [[-> ->]|[-> ->]]; done).
  repeat case_decide; try done; exfalso; destruct Ht as [[-> ->]|[-> ->]]; naive_solver.
Qed.

Lemma Value_string_narrowing_witness :
  Value_CastAs (varchar_value (str "300")) TINYINT = Ok (int_value TINYINT int8_t 44).
Proof. change (str "300") with (to_string 300). rewrite (Value_string_narrowing TINYINT int8_t 300); [done|by left|done]. Defined.
