(* ===== verification/Timestamp.v ===== *)
(** Timestamps ([src/type/timestamp_type.cpp], and the lines of [CastAsTimestamp]
    in [src/include/type/value_factory.h] that read a text).

    No instance of [TimestampType] is registered ([k_types]), so that every
    virtual call on a TIMESTAMP dereferences a null pointer ([GetInstance]) and
    this code runs only when it is called directly.  It is modelled for itself:
    the text form of a timestamp and its packing into 64 bits. *)

From S2P Require Import Prelude Bytes CString Value Types TypesCorrect ValueFactory.

(** ** Definitions *)

(** *** [TimestampType] *)

Section Comparisons.
Implicit Types left right val : Value.

Definition compare_timestamps (null : bool) (cmp : Z -> Z -> bool) left right : res CmpBool :=
  let! _ := assert (CheckComparable left right) in
  if null then Ok CmpNull else
  let! x := GetAs_int left in
  let! y := GetAs_int right in
  Ok (GetCmpBool (cmp x y)).
Definition either_null left right : bool := IsNull left || IsNull right.

Definition TimestampType_CompareEquals left right := compare_timestamps (either_null left right) Z.eqb left right.
Definition TimestampType_CompareNotEquals left right :=
  compare_timestamps (IsNull right) (fun x y => negb (x =? y)) left right.
Definition TimestampType_CompareLessThan left right := compare_timestamps (either_null left right) Z.ltb left right.
Definition TimestampType_CompareLessThanEquals left right := compare_timestamps (either_null left right) Z.leb left right.
(** Compared as signed numbers. *)
Definition TimestampType_CompareGreaterThan left right :=
  compare_timestamps (either_null left right) (fun x y => signed 64 y <? signed 64 x) left right.
Definition TimestampType_CompareGreaterThanEquals left right :=
  compare_timestamps (either_null left right) (fun x y => y <=? x) left right.

Definition TimestampType_Min left right : res Value :=
  let! _ := assert (CheckComparable left right) in
  if either_null left right then Value_OperateNull left right else
  let! c := Value_CompareLessThan left right in
  if bool_decide (c = CmpTrue) then Value_Copy left else Value_Copy right.
Definition TimestampType_Max left right : res Value :=
  let! _ := assert (CheckComparable left right) in
  if either_null left right then Value_OperateNull left right else
  let! c := Value_CompareGreaterThanEquals left right in
  if bool_decide (c = CmpTrue) then Value_Copy left else Value_Copy right.

(** [sprintf("%0nd")] of a number that is not negative. *)
Definition pad (n : nat) (z : Z) : bytes := replicate (n - length (digits z)) 48 ++ digits z.

Definition TimestampType_ToString val : res bytes :=
  if IsNull val then Ok (str "timestamp_null") else
  let! tm := GetAs_int val in
  let micro := unsigned 32 (tm mod 1000000) in
  let tm := tm / 1000000 in
  let second := unsigned 32 (tm mod 100000) in
  let sec := unsigned 16 (second mod 60) in
  let second := second / 60 in
  let min := unsigned 16 (second mod 60) in
  let second := second / 60 in
  let hour := unsigned 16 (second mod 24) in
  let tm := tm / 100000 in
  let year := unsigned 16 (tm mod 10000) in
  let tm := tm / 10000 in
  let tz := signed 32 (tm mod 27) - 12 in
  let tm := tm / 27 in
  let day := unsigned 16 (tm mod 32) in
  let tm := tm / 32 in
  let month := unsigned 16 tm in
  Ok (pad 4 year ++ 45 :: pad 2 month ++ 45 :: pad 2 day ++ 32 :: pad 2 hour ++ 58 :: pad 2 min ++ 58 :: pad 2 sec ++ 46 :: pad 6 micro
      ++ (if 0 <=? tz then 43 else 45) :: pad 2 (if tz <? 0 then - tz else tz)).

Definition TimestampType_SerializeTo val (storage : bytes) (off : Z) : res bytes :=
  let! z := GetAs_int val in mem_write storage off (le_split 8 z).
Definition TimestampType_DeserializeFrom (storage : bytes) (off : Z) : res Value :=
  let! bs := mem_read storage off 8 in Value_uint64 TIMESTAMP (le_combine bs).
Definition TimestampType_Copy val : res Value := Ok val.

Definition TimestampType_CastAs val (type_id : TypeId) : res Value :=
  match type_id with
  | TIMESTAMP => TimestampType_Copy val
  | VARCHAR =>
      if IsNull val then GetVarcharValue_cstr None false else
      let! s := Value_ToString val in GetVarcharValue s
  | _ => Err (Raised EX_INVALID)
  end.
End Comparisons.

(** *** The text of a timestamp

    The lines of [CastAsTimestamp] that read a text.  No call reaches them:
    [CastAsTimestamp] stops at its first line, a call through the null instance
    of TIMESTAMP ([ValueFactory.CastAsTimestamp]).  They are modelled as the
    function from texts to timestamps that they are. *)

Definition format_error {A} : res A := Err (Raised EX_INVALID).
Definition timestamp_range {A} : res A := Err (Raised EX_OUT_OF_RANGE).

(** The places of the digits of "YYYY-MM-DD hh:mm:ss.uuuuuu+zz". *)
Definition is_digit : list bool :=
  [true; true; true; true; false; true; true; false; true; true;
   false; true; true; false; true; true; false; true; true; false;
   true; true; true; true; true; true; false; true; true].
Fixpoint digits_loop_ok (is_digit : list bool) (s : bytes) : bool :=
  match is_digit, s with
  | d :: is_digit, c :: s => (negb d || isdigit c) && digits_loop_ok is_digit s
  | _, _ => true
  end.

(** A conversion [%nu] of [sscanf] at [off]: all the characters are digits. *)
Definition scan_field (s : bytes) (off n : nat) : Z := digits_value 10 ((fun c => c - 48) <$> take n (drop off s)).

Definition max_day (year month : Z) : res Z :=
  if (year mod 4 =? 0) && negb (year mod 100 =? 0) || (year mod 400 =? 0)
  then zlookup [0; 31; 29; 31; 30; 31; 30; 31; 31; 30; 31; 30; 31] month
  else zlookup [0; 31; 28; 31; 30; 31; 30; 31; 31; 30; 31; 30; 31] month.

Definition pack_timestamp (month day timezone year hour min sec micro : Z) : Z :=
  let res := unsigned 64 (0 + month) in
  let res := unsigned 64 (res * 32) in
  let res := unsigned 64 (res + day) in
  let res := unsigned 64 (res * 27) in
  let res := unsigned 64 (res + timezone) in
  let res := unsigned 64 (res * 10000) in
  let res := unsigned 64 (res + year) in
  let res := unsigned 64 (res * 100000) in
  let res := unsigned 64 (res + unsigned 32 (hour * 3600 + min * 60 + sec)) in
  let res := unsigned 64 (res * 1000000) in
  unsigned 64 (res + micro).

Definition timestamp_of_text (s : bytes) : res Value :=
  let s := if (length s =? 22)%nat then take 19 s ++ str ".000000" ++ take 3 (drop 19 s) else s in
  if negb (length s =? 29)%nat then format_error else
  let! c10 := zlookup s 10 in let! c4 := zlookup s 4 in let! c7 := zlookup s 7 in let! c13 := zlookup s 13 in
  let! c16 := zlookup s 16 in let! c19 := zlookup s 19 in let! c26 := zlookup s 26 in
  if negb (c10 =? 32) || negb (c4 =? 45) || negb (c7 =? 45) || negb (c13 =? 58) || negb (c16 =? 58) || negb (c19 =? 46)
     || (negb (c26 =? 43) && negb (c26 =? 45)) then format_error else
  if negb (digits_loop_ok is_digit s) then format_error else
  let year := scan_field s 0 4 in
  let month := scan_field s 5 2 in
  let day := scan_field s 8 2 in
  let hour := scan_field s 11 2 in
  let min := scan_field s 14 2 in
  let sec := scan_field s 17 2 in
  let micro := scan_field s 20 6 in
  let tz := if c26 =? 45 then - scan_field s 27 2 else scan_field s 27 2 in
  if (9999 <? year) || (12 <? month) || (31 <? day) || (23 <? hour) || (59 <? min) || (59 <? sec) || (999999 <? micro)
     || (day =? 0) || (month =? 0) then timestamp_range else
  let! max := max_day year month in
  if max <? day then timestamp_range else
  let timezone := unsigned 32 (tz + 12) in
  if 26 <? tz then format_error else
  GetTimestampValue (pack_timestamp month day timezone year hour min sec micro).

(** ** Padded numbers *)

Lemma digits_loop_short f n z : 0 <= z < 10 ^ Z.of_nat n -> (0 < n)%nat -> (length (digits_loop f z []) <= n)%nat.
Proof.
  revert n z. induction f as [|f IH]; intros n z Hz Hn; [simpl; lia|]. rewrite digits_loop_succ.
  destruct (z / 10 =? 0) eqn:E; [simpl; lia|]. apply Z.eqb_neq in E. rewrite digits_loop_acc, length_app. cbn [length].
  destruct n as [|[|n]]; [lia| |].
  - destruct E. apply Z.div_small. simpl in Hz. lia.
  - specialize (IH (S n) (z / 10)). rewrite Nat2Z.inj_succ, Z.pow_succ_r in Hz by lia.
    assert (0 <= z / 10 < 10 ^ Z.of_nat (S n)) by (split; [apply Z.div_pos; lia|apply Z.div_lt_upper_bound; lia]).
    specialize (IH H ltac:(lia)). lia.
Qed.

Lemma span_digits_all l ds : span_digits l = (ds, []) -> Forall (fun c => isdigit c = true) l /\ ds = (fun c => c - 48) <$> l.
Proof.
  revert ds. induction l as [|c l IH]; intros ds Hs; cbn [span_digits] in Hs; [by injection Hs as <-|].
  destruct (isdigit c) eqn:Ec; [|done]. destruct (span_digits l) as [ds' r]. injection Hs as <- ->.
  destruct (IH ds' eq_refl) as [Hall ->]. split; [by constructor|done].
Qed.

(** A field of a text. *)
Record field_of (n : nat) (z : Z) (l : bytes) : Prop := {
  fo_length : length l = n;
  fo_digits : Forall (fun c => isdigit c = true) l;
  fo_value : digits_value 10 ((fun c => c - 48) <$> l) = z
}.

Lemma pad_field n z : 0 <= z < 10 ^ Z.of_nat n -> (0 < n)%nat -> field_of n z (pad n z).
Proof.
  intros Hz Hn. pose proof (digits_loop_short (S (Z.to_nat (Z.log2 z))) n z Hz Hn) as Hl. fold (digits z) in Hl.
  destruct (digits_reads z ltac:(lia) [] eq_refl) as (ds & _ & Hs & Hv). rewrite app_nil_r in Hs.
  apply span_digits_all in Hs as [Hall ->]. unfold pad. split.
  - rewrite length_app, length_replicate. lia.
  - apply Forall_app. split; [by apply Forall_replicate|done].
  - rewrite fmap_app, digits_value_app, Hv, fmap_replicate.
    assert (Hzero : forall k, digits_value 10 (replicate k (48 - 48)) = 0); [|rewrite Hzero; lia].
    intros k. unfold digits_value. induction k as [|k IH]; [done|]. cbn [replicate fold_left]. exact IH.
Qed.

(** ** Points in time *)

Record time : Type := MkTime { year : Z; month : Z; day : Z; hour : Z; min : Z; sec : Z; micro : Z; tz : Z }.

Record valid_time (t : time) : Prop := {
  vt_year : 0 <= year t <= 9999;
  vt_month : 1 <= month t <= 12;
  vt_day : 1 <= day t /\ exists m, max_day (year t) (month t) = Ok m /\ day t <= m;
  vt_hour : 0 <= hour t <= 23;
  vt_min : 0 <= min t <= 59;
  vt_sec : 0 <= sec t <= 59;
  vt_micro : 0 <= micro t <= 999999;
  vt_tz : -12 <= tz t <= 14
}.

Definition text (t : time) : bytes :=
  pad 4 (year t) ++ 45 :: pad 2 (month t) ++ 45 :: pad 2 (day t) ++ 32 :: pad 2 (hour t) ++ 58 :: pad 2 (min t) ++ 58 :: pad 2 (sec t)
  ++ 46 :: pad 6 (micro t) ++ (if 0 <=? tz t then 43 else 45) :: pad 2 (Z.abs (tz t)).

(** The number of a point in time. *)
Definition packed (t : time) : Z :=
  ((((month t * 32 + day t) * 27 + (tz t + 12)) * 10000 + year t) * 100000 + (hour t * 3600 + min t * 60 + sec t)) * 1000000 + micro t.

Lemma max_day_bound y m d : max_day y m = Ok d -> d <= 31.
Proof.
  unfold max_day. assert (Hall : forall l, Forall (fun x => x <= 31) l -> zlookup l m = Ok d -> d <= 31).
  { intros l Hl [_ Hd]%zlookup_ok. by apply (Forall_lookup_1 _ _ _ _ Hl Hd). }
  destruct (_ || _); apply Hall; repeat constructor; lia.
Qed.

Lemma packed_range t : valid_time t -> 0 <= packed t < BUSTUB_TIMESTAMP_NULL.
Proof.
  intros [? ? [Hd (m & Hm%max_day_bound & Hd')] ? ? ? ? ?]. unfold packed, BUSTUB_TIMESTAMP_NULL. lia.
Qed.

Lemma pack_timestamp_ok t : valid_time t ->
  pack_timestamp (month t) (day t) (unsigned 32 (tz t + 12)) (year t) (hour t) (min t) (sec t) (micro t) = packed t.
Proof.
  intros Ht. pose proof (packed_range t Ht) as Hr. destruct Ht as [? ? [Hd (m & Hm%max_day_bound & Hd')] ? ? ? ? ?].
  unfold pack_timestamp. unfold packed, BUSTUB_TIMESTAMP_NULL in *. rewrite !(unsigned_id 32) by (unfold is_unsigned; lia).
  repeat match goal with |- context [unsigned 64 ?z] =>
    lazymatch z with context [unsigned 64 _] => fail | _ => rewrite (unsigned_id 64 z) by (unfold is_unsigned; lia) end end.
  lia.
Qed.

Lemma split_number q k r : 0 <= r < k -> (q * k + r) / k = q /\ (q * k + r) mod k = r.
Proof.
  intros Hr. rewrite Z.add_comm. split; [rewrite Z.div_add by lia; rewrite Z.div_small by done; lia|].
  rewrite Z.mod_add by lia. by apply Z.mod_small.
Qed.

Lemma print_packed t : valid_time t -> TimestampType_ToString (set_timestamp TIMESTAMP (packed t)) = Ok (text t).
Proof.
  intros Ht. pose proof (packed_range t Ht) as Hr. destruct Ht as [? ? [Hd (m & Hm%max_day_bound & Hd')] ? ? ? ? ?].
  assert (Hu : unsigned 64 (packed t) = packed t) by (apply unsigned_id; unfold is_unsigned, BUSTUB_TIMESTAMP_NULL in *; lia).
  unfold TimestampType_ToString, IsNull, set_timestamp. cbn [len_ value_ GetAs_int]. rewrite Hu, (proj2 (Z.eqb_neq (packed t) BUSTUB_TIMESTAMP_NULL)) by lia.
  change (0 =? BUSTUB_VALUE_NULL) with false. cbn [rbind]. unfold packed.
  destruct (split_number ((((month t * 32 + day t) * 27 + (tz t + 12)) * 10000 + year t) * 100000 + (hour t * 3600 + min t * 60 + sec t))
    1000000 (micro t)) as [-> ->]; [lia|].
  destruct (split_number (((month t * 32 + day t) * 27 + (tz t + 12)) * 10000 + year t) 100000 (hour t * 3600 + min t * 60 + sec t)) as [-> ->]; [lia|].
  destruct (split_number ((month t * 32 + day t) * 27 + (tz t + 12)) 10000 (year t)) as [-> ->]; [lia|].
  destruct (split_number (month t * 32 + day t) 27 (tz t + 12)) as [-> ->]; [lia|].
  destruct (split_number (month t) 32 (day t)) as [-> ->]; [lia|].
  rewrite !(unsigned_id 32) by (unfold is_unsigned; lia).
  assert (E1 : hour t * 3600 + min t * 60 + sec t = (hour t * 60 + min t) * 60 + sec t) by lia. rewrite E1.
  destruct (split_number (hour t * 60 + min t) 60 (sec t)) as [-> ->]; [lia|]. destruct (split_number (hour t) 60 (min t)) as [-> ->]; [lia|].
  rewrite (Z.mod_small (hour t)) by lia. rewrite !(unsigned_id 16) by (unfold is_unsigned; lia). rewrite signed_id by (unfold is_signed; lia).
  replace (tz t + 12 - 12) with (tz t) by lia. unfold text. do 16 f_equal. destruct (Z.ltb_spec (tz t) 0); f_equal; lia.
Qed.

Lemma text_length t : valid_time t -> length (text t) = 29%nat.
Proof.
  intros [Hy Hmo [Hd (m & Hm%max_day_bound & Hd')] Hh Hmi Hs Hmu Htz].
  pose proof (fo_length _ _ _ (pad_field 4 (year t) ltac:(lia) ltac:(lia))). pose proof (fo_length _ _ _ (pad_field 2 (month t) ltac:(lia) ltac:(lia))).
  pose proof (fo_length _ _ _ (pad_field 2 (day t) ltac:(lia) ltac:(lia))). pose proof (fo_length _ _ _ (pad_field 2 (hour t) ltac:(lia) ltac:(lia))).
  pose proof (fo_length _ _ _ (pad_field 2 (min t) ltac:(lia) ltac:(lia))). pose proof (fo_length _ _ _ (pad_field 2 (sec t) ltac:(lia) ltac:(lia))).
  pose proof (fo_length _ _ _ (pad_field 6 (micro t) ltac:(lia) ltac:(lia))). pose proof (fo_length _ _ _ (pad_field 2 (Z.abs (tz t)) ltac:(lia) ltac:(lia))).
  unfold text. repeat (rewrite length_app || (progress cbn [length])). lia.
Qed.

Lemma set_timestamp_signed z : set_timestamp TIMESTAMP (signed 64 z) = set_timestamp TIMESTAMP z.
Proof.
  unfold set_timestamp. by rewrite unsigned_signed.
Qed.

Lemma field2 z l : field_of 2 z l -> exists a b, l = [a; b] /\ isdigit a = true /\ isdigit b = true
  /\ digits_value 10 [a - 48; b - 48] = z.
Proof.
  intros [Hl Hd Hv]. destruct l as [|a [|b [|]]]; try done. exists a, b. inversion Hd as [|? ? Ha Hd']; inversion Hd' as [|? ? Hb _]; subst. done.
Qed.
Lemma field4 z l : field_of 4 z l -> exists a b c d, l = [a; b; c; d] /\ isdigit a = true /\ isdigit b = true /\ isdigit c = true
  /\ isdigit d = true /\ digits_value 10 [a - 48; b - 48; c - 48; d - 48] = z.
Proof.
  intros [Hl Hd Hv]. destruct l as [|a [|b [|c [|d [|]]]]]; try done. exists a, b, c, d. rewrite !Forall_cons in Hd. naive_solver.
Qed.
Lemma field6 z l : field_of 6 z l -> exists a b c d e f, l = [a; b; c; d; e; f] /\ isdigit a = true /\ isdigit b = true /\ isdigit c = true
  /\ isdigit d = true /\ isdigit e = true /\ isdigit f = true /\ digits_value 10 [a - 48; b - 48; c - 48; d - 48; e - 48; f - 48] = z.
Proof.
  intros [Hl Hd Hv]. destruct l as [|a [|b [|c [|d [|e [|f [|]]]]]]]; try done. exists a, b, c, d, e, f. rewrite !Forall_cons in Hd. naive_solver.
Qed.

Lemma parse_text t : valid_time t -> timestamp_of_text (text t) = Ok (set_timestamp TIMESTAMP (packed t)).
Proof.
  intros Ht. pose proof (pack_timestamp_ok t Ht) as Hpack. destruct Ht as [Hy Hmo [Hd (m & Hm & Hd')] Hh Hmi Hs Hmu Htz].
  pose proof (max_day_bound _ _ _ Hm) as Hm31. unfold text.
  destruct (field4 _ _ (pad_field 4 (year t) ltac:(lia) ltac:(lia))) as (y1 & y2 & y3 & y4 & -> & ? & ? & ? & ? & Ey).
  destruct (field2 _ _ (pad_field 2 (month t) ltac:(lia) ltac:(lia))) as (m1 & m2 & -> & ? & ? & Emo).
  destruct (field2 _ _ (pad_field 2 (day t) ltac:(lia) ltac:(lia))) as (d1 & d2 & -> & ? & ? & Ed).
  destruct (field2 _ _ (pad_field 2 (hour t) ltac:(lia) ltac:(lia))) as (h1 & h2 & -> & ? & ? & Eh).
  destruct (field2 _ _ (pad_field 2 (min t) ltac:(lia) ltac:(lia))) as (i1 & i2 & -> & ? & ? & Ei).
  destruct (field2 _ _ (pad_field 2 (sec t) ltac:(lia) ltac:(lia))) as (s1 & s2 & -> & ? & ? & Es).
  destruct (field6 _ _ (pad_field 6 (micro t) ltac:(lia) ltac:(lia))) as (u1 & u2 & u3 & u4 & u5 & u6 & -> & ? & ? & ? & ? & ? & ? & Eu).
  destruct (field2 _ _ (pad_field 2 (Z.abs (tz t)) ltac:(lia) ltac:(lia))) as (z1 & z2 & -> & ? & ? & Ez).
  assert (Hsign : exists sign, (if 0 <=? tz t then 43 else 45) = sign /\ (sign = 43 \/ sign = 45)
    /\ (if sign =? 45 then - Z.abs (tz t) else Z.abs (tz t)) = tz t).
  { destruct (Z.leb_spec 0 (tz t)); eexists; (split; [done|]; split; [tauto|]); cbn; lia. }
  destruct Hsign as (sign & -> & Hsign & Etz).
  cbn [app]. unfold timestamp_of_text. cbn [length Nat.eqb negb].
  unfold scan_field. cbn [drop take fmap list_fmap]. rewrite Ey, Emo, Ed, Eh, Ei, Es, Eu, Ez.
  repeat match goal with |- context [zlookup ?l ?i] => let x := eval lazy in (zlookup l i) in change (zlookup l i) with x; cbn [rbind] end.
  cbn [digits_loop_ok is_digit negb orb andb].
  repeat match goal with H : isdigit _ = true |- _ => rewrite H; clear H end. cbn [negb orb andb].
  change (32 =? 32) with true. change (45 =? 45) with true. change (58 =? 58) with true. change (46 =? 46) with true. cbn [negb orb].
  assert (E26 : negb (sign =? 43) && negb (sign =? 45) = false) by (destruct Hsign as [-> | ->]; done). rewrite E26.
  rewrite !(proj2 (Z.ltb_ge _ _)) by lia. rewrite !(proj2 (Z.eqb_neq _ 0)) by lia. cbn [orb]. rewrite Hm. cbn [rbind].
  rewrite (proj2 (Z.ltb_ge m (day t))) by lia. rewrite Etz, Hpack.
  unfold GetTimestampValue, Value_int64. by rewrite set_timestamp_signed.
Qed.

(** ** The round trip *)

(** The text form of a timestamp.  For every date and time with a zone from -12
    to +14, the lines that read its text give the timestamp that packs its
    fields, and [TimestampType::ToString] of that timestamp gives the text back.
    (Neither is reached by a call through [Value].) *)
Lemma timestamp_text t : valid_time t ->
  exists v, timestamp_of_text (text t) = Ok v /\ value_ v = VInt (packed t) /\ IsNull v = false
     /\ TimestampType_ToString v = Ok (text t).
Proof.
  intros Ht. pose proof (packed_range t Ht) as Hr.
  assert (Hu : unsigned 64 (packed t) = packed t) by (apply unsigned_id; unfold is_unsigned, BUSTUB_TIMESTAMP_NULL in *; lia).
  exists (set_timestamp TIMESTAMP (packed t)). split; [by apply parse_text|]. unfold set_timestamp at 1 2. rewrite Hu.
  split; [done|]. split; [|by apply print_packed].
  unfold IsNull. cbn [len_]. by rewrite (proj2 (Z.eqb_neq (packed t) BUSTUB_TIMESTAMP_NULL)) by lia.
Qed.

(** The zone is checked before 12 is added to it: a zone of +26 is accepted and
    overflows into the day. *)
Example timestamp_zone : exists v, timestamp_of_text (str "2020-01-01 00:00:00.000000+26") = Ok v
  /\ TimestampType_ToString v = Ok (str "2020-01-02 00:00:00.000000-01").
Proof. eexists. split; [vm_compute; reflexivity|vm_compute; reflexivity]. Qed.

(** The call that would read a text stops at the null instance. *)
Lemma CastAsTimestamp_null (v : Value) : CastAsTimestamp v = Err NullDereference.
Proof. done. Qed.
