(* ===== verification/Schema.v ===== *)
(** Columns and schemas: [src/include/catalog/column.h], [schema.h],
    [src/catalog/column.cpp], [schema.cpp].

    [E] is the type of the expressions a column of an output schema points to;
    an absent expression is [None].  The debug line of [TypeSize] for an invalid
    type is not modelled. *)

From S2P Require Import Prelude Bytes Ieee CString Value.

(** ** Definitions *)

Record Column (E : Type) : Type := MkColumn {
  column_name_ : bytes;
  column_type_ : TypeId;
  fixed_length_ : Z;
  variable_length_ : Z;
  column_offset_ : Z;
  expr_ : option E
}.
Arguments MkColumn {E}. Arguments column_name_ {E}. Arguments column_type_ {E}. Arguments fixed_length_ {E}.
Arguments variable_length_ {E}. Arguments column_offset_ {E}. Arguments expr_ {E}.

Record Schema (E : Type) : Type := MkSchema {
  length_ : Z;
  columns_ : list (Column E);
  tuple_is_inlined_ : bool;
  uninlined_columns_ : list Z
}.
Arguments MkSchema {E}. Arguments length_ {E}. Arguments columns_ {E}. Arguments tuple_is_inlined_ {E}.
Arguments uninlined_columns_ {E}.

Definition TypeSize (type : TypeId) : Z :=
  match type with
  | BOOLEAN => 1
  | TINYINT => 1
  | SMALLINT => 2
  | INTEGER => 4
  | BIGINT | DECIMAL | TIMESTAMP => 8
  | VARCHAR => 12
  | INVALID => 0
  end.

Section Schema.
Context {E : Type}.
Implicit Types c : Column E.
Implicit Types s : Schema E.

(** The constructor for the types of a fixed length. *)
Definition Column_fixed (column_name : bytes) (type : TypeId) (expr : option E) : res (Column E) :=
  let! _ := assert (negb (bool_decide (type = VARCHAR))) in
  Ok (MkColumn column_name type (TypeSize type) 0 0 expr).

(** The constructor for VARCHAR: the length is not used. *)
Definition Column_varlen (column_name : bytes) (type : TypeId) (length : Z) (expr : option E) : res (Column E) :=
  let! _ := assert (bool_decide (type = VARCHAR)) in
  Ok (MkColumn column_name type (TypeSize type) 0 0 expr).

Definition Column_IsInlined c : bool := negb (bool_decide (column_type_ c = VARCHAR)).
Definition Column_GetLength c : Z := if Column_IsInlined c then fixed_length_ c else variable_length_ c.
Definition Column_GetTypeSize c : Z := TypeSize (column_type_ c).

Definition Column_ToString c : bytes :=
  str "Column[" ++ column_name_ c ++ str ", " ++ TypeIdToString (column_type_ c) ++ str ", " ++
  str "Offset:" ++ to_string (column_offset_ c) ++ str ", " ++
  (if Column_IsInlined c then str "FixedLength:" ++ to_string (fixed_length_ c)
   else str "VarLength:" ++ to_string (variable_length_ c)) ++ str "]".

(** The loop of the constructor, from column [index] and [curr_offset] on: the
    placed columns, the indices of those that are not inlined, the end. *)
Fixpoint Schema_loop (columns : list (Column E)) (index curr_offset : Z) : list (Column E) * list Z * Z :=
  match columns with
  | [] => ([], [], curr_offset)
  | column :: columns =>
    let '(placed, uninlined, fin) := Schema_loop columns (index + 1) (unsigned 32 (curr_offset + fixed_length_ column)) in
    (MkColumn (column_name_ column) (column_type_ column) (fixed_length_ column) (variable_length_ column)
       curr_offset (expr_ column) :: placed,
     (if Column_IsInlined column then uninlined else index :: uninlined), fin)
  end.

Definition Schema_new (columns : list (Column E)) : Schema E :=
  let '(placed, uninlined, fin) := Schema_loop columns 0 0 in
  MkSchema fin placed (forallb Column_IsInlined columns) uninlined.

Definition GetColumn s (col_idx : Z) : res (Column E) := zlookup (columns_ s) col_idx.

Fixpoint CopySchema_loop (columns : list (Column E)) (attrs : list Z) : res (list (Column E)) :=
  match attrs with
  | [] => Ok []
  | i :: attrs =>
    let! c := zlookup columns i in
    let! cols := CopySchema_loop columns attrs in
    Ok (c :: cols)
  end.
Definition CopySchema (from : Schema E) (attrs : list Z) : res (Schema E) :=
  let! cols := CopySchema_loop (columns_ from) attrs in Ok (Schema_new cols).

(** [UNREACHABLE] throws [std::logic_error]. *)
Fixpoint GetColIdx_loop (columns : list (Column E)) (i : Z) (col_name : bytes) : res Z :=
  match columns with
  | [] => Err StdLogicError
  | c :: columns => if bool_decide (column_name_ c = col_name) then Ok i else GetColIdx_loop columns (i + 1) col_name
  end.
Definition GetColIdx s (col_name : bytes) : res Z := GetColIdx_loop (columns_ s) 0 col_name.

Definition GetColumnCount s : Z := unsigned 32 (Z.of_nat (length (columns_ s))).
Definition GetUnlinedColumnCount s : Z := unsigned 32 (Z.of_nat (length (uninlined_columns_ s))).

Definition Schema_ToString s : bytes :=
  str "Schema[" ++ str "NumColumns:" ++ to_string (GetColumnCount s) ++ str ", " ++
  str "IsInlined:" ++ to_string (Z.b2z (tuple_is_inlined_ s)) ++ str ", " ++
  str "Length:" ++ to_string (length_ s) ++ str "]" ++ str " :: (" ++
  (match columns_ s with
   | [] => []
   | c :: cs => Column_ToString c ++ (cs ≫= fun c => str ", " ++ Column_ToString c)
   end) ++ str ")".

(** ** Lemmas *)

(** The columns [cs] lie one after the other from [off] to [fin]. *)
Fixpoint laid_out (cs : list (Column E)) (off fin : Z) : Prop :=
  match cs with
  | [] => off = fin
  | c :: cs => column_offset_ c = off /\ 0 <= fixed_length_ c /\ laid_out cs (off + fixed_length_ c) fin
  end.

(** The indices, from [i] on, of the columns stored behind the fixed part. *)
Fixpoint uninlined_from (cs : list (Column E)) (i : Z) : list Z :=
  match cs with
  | [] => []
  | c :: cs => if Column_IsInlined c then uninlined_from cs (i + 1) else i :: uninlined_from cs (i + 1)
  end.

(** The length of the fixed part. *)
Definition fixed_size (cs : list (Column E)) : Z := foldr (fun c n => fixed_length_ c + n) 0 cs.

Lemma fixed_size_nonneg cs : Forall (fun c => 0 <= fixed_length_ c) cs -> 0 <= fixed_size cs.
Proof. unfold fixed_size. induction 1; simpl; lia. Qed.

Lemma Schema_loop_ok cs i off placed un fin :
  Forall (fun c => 0 <= fixed_length_ c) cs -> 0 <= off -> off + fixed_size cs < 2 ^ 32 ->
  Schema_loop cs i off = (placed, un, fin) ->
  fin = off + fixed_size cs /\ laid_out placed off fin /\ un = uninlined_from placed i /\
  column_type_ <$> placed = column_type_ <$> cs /\ fixed_length_ <$> placed = fixed_length_ <$> cs.
Proof.
  intros Hf. revert i off placed un fin. induction Hf as [|c cs Hc Hcs IH]; intros i off placed un fin Ho Hb Hl.
  - simplify_eq/=. split_and!; try done. lia.
  - cbn [Schema_loop] in Hl. change (fixed_size (c :: cs)) with (fixed_length_ c + fixed_size cs) in *.
    pose proof (fixed_size_nonneg cs Hcs).
    rewrite unsigned_id in Hl by (unfold is_unsigned; lia).
    destruct (Schema_loop cs (i + 1) (off + fixed_length_ c)) as [[p u] f] eqn:E0.
    destruct (IH (i + 1) (off + fixed_length_ c) p u f ltac:(lia) ltac:(lia) E0) as (-> & Hl' & -> & Ht & Hx). simplify_eq/=.
    split_and!; try done; [lia|by rewrite Ht|by rewrite Hx].
Qed.

Lemma Schema_new_ok cs :
  Forall (fun c => 0 <= fixed_length_ c) cs -> fixed_size cs < 2 ^ 32 ->
  let s := Schema_new cs in
  length_ s = fixed_size cs /\ laid_out (columns_ s) 0 (length_ s) /\
  uninlined_columns_ s = uninlined_from (columns_ s) 0 /\
  column_type_ <$> columns_ s = column_type_ <$> cs /\ fixed_length_ <$> columns_ s = fixed_length_ <$> cs.
Proof.
  intros Hf Hb. unfold Schema_new. destruct (Schema_loop cs 0 0) as [[p u] f] eqn:E0. cbn.
  by destruct (Schema_loop_ok cs 0 0 p u f Hf ltac:(lia) ltac:(lia) E0) as (-> & ? & ? & ? & ?).
Qed.

End Schema.
