(* ===== verification/RWLatch.v ===== *)
(** The reader-writer latch ([src/include/common/rwlatch.h]) and the threads that
    use it.

    Each method runs under [mutex_] and gives it up only inside a wait, so that
    a method is a few atomic steps.  A thread that waits sleeps until it is
    notified (or wakes up by itself, as a condition variable may); which sleeper
    [notify_one] wakes is not determined. *)

From S2P Require Import Prelude.

(** ** Definitions *)

Record ReaderWriterLatch : Type := MkLatch {
  reader_count_ : Z;
  writer_entered_ : bool
}.

Definition MAX_READERS : Z := 2 ^ 32 - 1.
Definition Latch_new : ReaderWriterLatch := MkLatch 0 false.

(** Where a thread stands: a reader asleep on [reader_] or woken up and about to
    test again; a writer the same, before ([1]) or after ([2]) it has entered. *)
Inductive phase : Type :=
| Idle | RSleep | RWoken | Reading | WSleep1 | WWoken1 | WSleep2 | WWoken2 | Writing.

#[export] Instance phase_eq_dec : EqDecision phase.
Proof. solve_decision. Defined.

(** What a method notifies before it returns. *)
Inductive notification : Type := NotifyNothing | NotifyReaderAll | NotifyReaderOne | NotifyWriterOne.

(** One test of the loop of [RLock], and what follows when it lets the thread in. *)
Definition RLock (l : ReaderWriterLatch) : phase * ReaderWriterLatch :=
  if writer_entered_ l || (reader_count_ l =? MAX_READERS) then (RSleep, l)
  else (Reading, MkLatch (unsigned 32 (reader_count_ l + 1)) (writer_entered_ l)).

(** One test of the second loop of [WLock]. *)
Definition WLock_drain (l : ReaderWriterLatch) : phase * ReaderWriterLatch :=
  if 0 <? reader_count_ l then (WSleep2, l) else (Writing, l).

(** One test of the first loop of [WLock], and what follows. *)
Definition WLock (l : ReaderWriterLatch) : phase * ReaderWriterLatch :=
  if writer_entered_ l then (WSleep1, l) else WLock_drain (MkLatch (reader_count_ l) true).

Definition WUnlock (l : ReaderWriterLatch) : notification * ReaderWriterLatch :=
  (NotifyReaderAll, MkLatch (reader_count_ l) false).

Definition RUnlock (l : ReaderWriterLatch) : notification * ReaderWriterLatch :=
  let count := unsigned 32 (reader_count_ l - 1) in
  (if writer_entered_ l then (if count =? 0 then NotifyWriterOne else NotifyNothing)
   else (if count =? MAX_READERS - 1 then NotifyReaderOne else NotifyNothing),
   MkLatch count (writer_entered_ l)).

(** *** Threads *)

Record LatchSystem : Type := MkLatchSystem {
  latch : ReaderWriterLatch;
  threads : gmap Z phase
}.

Definition wake_reader (p : phase) : phase :=
  match p with RSleep => RWoken | WSleep1 => WWoken1 | p => p end.
Definition wake_writer (p : phase) : phase := match p with WSleep2 => WWoken2 | p => p end.

(** The effect of a notification on the sleepers; [notify_one] has an effect
    when somebody sleeps there. *)
Inductive notifies : notification -> gmap Z phase -> gmap Z phase -> Prop :=
| notifies_nothing m : notifies NotifyNothing m m
| notifies_reader_all m : notifies NotifyReaderAll m (wake_reader <$> m)
| notifies_reader_one m i p :
    m !! i = Some p -> wake_reader p <> p -> notifies NotifyReaderOne m (<[i := wake_reader p]> m)
| notifies_reader_none m : (forall i p, m !! i = Some p -> wake_reader p = p) -> notifies NotifyReaderOne m m
| notifies_writer_one m i : m !! i = Some WSleep2 -> notifies NotifyWriterOne m (<[i := WWoken2]> m)
| notifies_writer_none m : (forall i, m !! i <> Some WSleep2) -> notifies NotifyWriterOne m m.

Inductive latch_step : LatchSystem -> LatchSystem -> Prop :=
| step_RLock l m i p : m !! i = Some p -> p = Idle \/ p = RWoken ->
    latch_step (MkLatchSystem l m) (MkLatchSystem (RLock l).2 (<[i := (RLock l).1]> m))
| step_WLock l m i p : m !! i = Some p -> p = Idle \/ p = WWoken1 ->
    latch_step (MkLatchSystem l m) (MkLatchSystem (WLock l).2 (<[i := (WLock l).1]> m))
| step_WLock_drain l m i : m !! i = Some WWoken2 ->
    latch_step (MkLatchSystem l m) (MkLatchSystem (WLock_drain l).2 (<[i := (WLock_drain l).1]> m))
| step_RUnlock l m i m' : m !! i = Some Reading -> notifies (RUnlock l).1 (<[i := Idle]> m) m' ->
    latch_step (MkLatchSystem l m) (MkLatchSystem (RUnlock l).2 m')
| step_WUnlock l m i m' : m !! i = Some Writing -> notifies (WUnlock l).1 (<[i := Idle]> m) m' ->
    latch_step (MkLatchSystem l m) (MkLatchSystem (WUnlock l).2 m')
| step_spurious l m i p : m !! i = Some p ->
    latch_step (MkLatchSystem l m) (MkLatchSystem l (<[i := wake_writer (wake_reader p)]> m)).

(** The threads start outside the latch. *)
Definition latch_start (n : nat) : LatchSystem :=
  MkLatchSystem Latch_new (list_to_map ((fun i => (Z.of_nat i, Idle)) <$> seq 0 n)).

Inductive latch_reachable (n : nat) : LatchSystem -> Prop :=
| reach_start : latch_reachable n (latch_start n)
| reach_step s s' : latch_reachable n s -> latch_step s s' -> latch_reachable n s'.

(** ** The invariant *)

(** The threads in a phase. *)
Definition count_of (p : phase) (m : gmap Z phase) : nat := size (filter (fun kv => kv.2 = p) m).

(** The writer that has entered. *)
Definition entered (p : phase) : Prop := p = WSleep2 \/ p = WWoken2 \/ p = Writing.

Record latch_core (n : nat) (l : ReaderWriterLatch) (m : gmap Z phase) : Prop := {
  lc_size : size m = n;
  lc_count : reader_count_ l = Z.of_nat (count_of Reading m);
  lc_entered : writer_entered_ l = true <-> exists i p, m !! i = Some p /\ entered p;
  lc_unique i j p q : m !! i = Some p -> m !! j = Some q -> entered p -> entered q -> i = j;
  lc_writing i : m !! i = Some Writing -> reader_count_ l = 0
}.

(** Nobody sleeps on a condition that holds. *)
Record latch_inv (n : nat) (s : LatchSystem) : Prop := {
  li_core : latch_core n (latch s) (threads s);
  li_sleep1 i p : threads s !! i = Some p -> wake_reader p <> p -> writer_entered_ (latch s) = true;
  li_sleep2 i : threads s !! i = Some WSleep2 -> 0 < reader_count_ (latch s)
}.

#[export] Instance entered_dec p : Decision (entered p).
Proof. unfold entered. apply _. Defined.

Lemma count_set p r i (m : gmap Z phase) :
  count_of p (<[i := r]> m) = (count_of p (delete i m) + (if decide (r = p) then 1 else 0))%nat.
Proof.
  unfold count_of. rewrite <- insert_delete_eq, map_filter_insert, delete_delete_eq. simpl.
  case_decide; [|lia]. rewrite map_size_insert_None; [lia|].
  rewrite map_lookup_filter_None. left. apply lookup_delete_eq.
Qed.

Lemma phase_count_insert p q r i (m : gmap Z phase) :
  m !! i = Some q ->
  (count_of p (<[i := r]> m) + (if decide (q = p) then 1 else 0) = count_of p m + (if decide (r = p) then 1 else 0))%nat.
Proof. intros Hi. rewrite <- (insert_id m i q Hi) at 2. rewrite !count_set. lia. Qed.

Lemma count_wake m : count_of Reading (wake_reader <$> m) = count_of Reading m.
Proof.
  unfold count_of. rewrite map_filter_fmap, map_size_fmap. f_equal. apply map_filter_ext.
  intros i p _. simpl. by destruct p.
Qed.

Lemma count_pos p i (m : gmap Z phase) : m !! i = Some p -> (0 < count_of p m)%nat.
Proof. intros Hi. rewrite <- (insert_id m i p Hi), count_set, decide_True by done. lia. Qed.

Lemma count_le p (m : gmap Z phase) : (count_of p m <= size m)%nat.
Proof. apply map_subseteq_size, map_filter_subseteq. Qed.

Lemma count_zero p (m : gmap Z phase) : count_of p m = O -> forall i, m !! i <> Some p.
Proof. intros Hc i Hi. apply count_pos in Hi. lia. Qed.

(** A thread moves to another phase. *)
Lemma core_change n l m i p q l' :
  latch_core n l m -> m !! i = Some p ->
  reader_count_ l' = reader_count_ l + (if decide (q = Reading) then 1 else 0) - (if decide (p = Reading) then 1 else 0) ->
  writer_entered_ l' = (if decide (entered q) then true else if decide (entered p) then false else writer_entered_ l) ->
  (entered q -> ~ entered p -> writer_entered_ l = false) ->
  (q = Reading -> writer_entered_ l = false) -> (q = Writing -> reader_count_ l' = 0) ->
  latch_core n l' (<[i := q]> m).
Proof.
  intros [Hs Hc He Hu Hw] Hi Hc' He' Hq Hr Hz.
  assert (Hother : forall j r, i <> j -> m !! j = Some r -> entered r -> ~ entered p /\ ~ entered q).
  { intros j r Hne Hj Hent. assert (Hp : ~ entered p) by (intros Hp; by apply Hne, (Hu i j p r)).
    split; [done|]. intros Hq'. assert (writer_entered_ l = true) by (apply He; eauto). rewrite (Hq Hq' Hp) in *. done. }
  split.
  - rewrite map_size_insert_Some; [done|by eexists].
  - pose proof (phase_count_insert Reading p q i m Hi). rewrite Hc', Hc. repeat case_decide; lia.
  - rewrite He'. split.
    + destruct (decide (entered q)); [by exists i, q; rewrite lookup_insert_eq|].
      destruct (decide (entered p)); [done|].
      intros (j & r & Hj & Hent)%He. exists j, r. split; [|done]. rewrite lookup_insert_ne; [done|].
      intros <-. by simplify_eq.
    + intros (j & r & [[<- <-]|[Hne Hj]]%lookup_insert_Some & Hent); [by rewrite decide_True|].
      destruct (Hother j r Hne Hj Hent). rewrite !decide_False by done. apply He. eauto.
  - intros j k r r' Hj Hk Hr1 Hr2. apply lookup_insert_Some in Hj as [[<- <-]|[Hnj Hj]], Hk as [[<- <-]|[Hnk Hk]].
    + done.
    + by destruct (Hother k r' Hnk Hk Hr2).
    + by destruct (Hother j r Hnj Hj Hr1).
    + by apply (Hu j k r r').
  - intros j [[<- ->]|[Hne Hj]]%lookup_insert_Some; [by apply Hz|].
    assert (Hent : entered Writing) by (unfold entered; tauto). destruct (Hother j _ Hne Hj Hent) as [Hp _].
    pose proof (Hw j Hj) as H0. rewrite Hc'. rewrite H0.
    assert (p <> Reading). { intros ->. apply count_pos in Hi. lia. }
    assert (q <> Reading). { intros Hq'. assert (writer_entered_ l = true) by (apply He; eauto). rewrite (Hr Hq') in *. done. }
    by rewrite !decide_False.
Qed.

(** Waking threads up moves nobody in or out. *)
Lemma core_wake n l m : latch_core n l m -> latch_core n l (wake_reader <$> m).
Proof.
  intros [Hs Hc He Hu Hw].
  assert (Hb : forall j r, (wake_reader <$> m) !! j = Some r -> entered r -> m !! j = Some r).
  { intros j r. rewrite lookup_fmap, fmap_Some. intros (p & Hj & ->) Hent. by destruct p; destruct Hent as [|[|]]. }
  split.
  - by rewrite map_size_fmap.
  - by rewrite count_wake.
  - rewrite He. split; intros (i & p & Hi & Hp).
    + exists i, p. rewrite lookup_fmap, Hi. split; [|done]. by destruct Hp as [ -> | [ -> | -> ]].
    + exists i, p. auto.
  - intros i j p q Hi Hj Hp Hq. by apply (Hu i j p q); [apply Hb|apply Hb| |].
  - intros i Hi. apply (Hw i). apply Hb; [done|]. unfold entered. tauto.
Qed.

(** The threads other than [i]. *)
Lemma sleep1_insert (b : bool) (m : gmap Z phase) i q :
  (forall j p, m !! j = Some p -> wake_reader p <> p -> b = true) -> (wake_reader q <> q -> b = true) ->
  forall j p, <[i := q]> m !! j = Some p -> wake_reader p <> p -> b = true.
Proof. intros Hm Hq j p [[<- <-]|[_ Hj]]%lookup_insert_Some; eauto. Qed.

Lemma not_entered n l m : latch_core n l m -> writer_entered_ l = false -> forall i p, m !! i = Some p -> ~ entered p.
Proof.
  intros Hc Hl i p Hi Hp. assert (writer_entered_ l = true) by (apply (lc_entered _ _ _ Hc); eauto). congruence.
Qed.

Lemma count_bound n l m i p :
  latch_core n l m -> m !! i = Some p -> p <> Reading -> 0 <= reader_count_ l /\ reader_count_ l + 1 <= Z.of_nat n.
Proof.
  intros Hc Hi Hp. rewrite (lc_count _ _ _ Hc), <- (lc_size _ _ _ Hc). split; [lia|].
  pose proof (phase_count_insert Reading p Reading i m Hi) as Hn. rewrite decide_False, decide_True in Hn by done.
  pose proof (count_le Reading (<[i := Reading]> m)) as Hle. rewrite map_size_insert_Some in Hle by (by eexists). lia.
Qed.

(** *** Each method *)

Section Steps.
Context (n : nat) (Hn : Z.of_nat n <= MAX_READERS).

Lemma RLock_inv l m i p :
  latch_inv n (MkLatchSystem l m) -> m !! i = Some p -> p = Idle \/ p = RWoken ->
  latch_inv n (MkLatchSystem (RLock l).2 (<[i := (RLock l).1]> m)).
Proof.
  intros [Hc H1 H2] Hi Hp. simpl in *. assert (Hpr : p <> Reading) by (by destruct Hp; subst).
  assert (Hpe : ~ entered p) by (unfold entered; destruct Hp; subst; intuition discriminate).
  destruct (count_bound n l m i p Hc Hi Hpr) as [Hb0 Hb]. unfold RLock.
  rewrite (proj2 (Z.eqb_neq (reader_count_ l) MAX_READERS)) by lia. rewrite orb_false_r.
  assert (Hsr : ~ entered RSleep /\ ~ entered Reading) by (unfold entered; intuition discriminate).
  destruct Hsr as [Hs Hr]. destruct (writer_entered_ l) eqn:El; simpl.
  - split; simpl.
    + apply (core_change n l m i p RSleep l Hc Hi); try done; [rewrite !decide_False by done; lia|].
      by rewrite !decide_False.
    + rewrite El. by apply sleep1_insert.
    + intros j [[_ ?]|[_ Hj]]%lookup_insert_Some; [done|by apply (H2 j)].
  - unfold MAX_READERS in *. rewrite unsigned_id by (unfold is_unsigned; lia). split; simpl.
    + apply (core_change n l m i p Reading _ Hc Hi); try done; simpl.
      * destruct (decide (p = Reading)); [done|lia].
      * by rewrite !decide_False.
    + by apply sleep1_insert.
    + intros j _. lia.
Qed.

Lemma drain_inv l m i p :
  latch_core n l m -> m !! i = Some p -> entered p -> writer_entered_ l = true ->
  (forall j, j <> i -> m !! j <> Some WSleep2) ->
  latch_inv n (MkLatchSystem (WLock_drain l).2 (<[i := (WLock_drain l).1]> m)).
Proof.
  intros Hc Hi Hp El Hoth.
  assert (Hcount : 0 <= reader_count_ l) by (rewrite (lc_count _ _ _ Hc); lia).
  assert (Hpr : p <> Reading) by (unfold entered in Hp; intuition congruence).
  assert (Hcore : forall q, q = WSleep2 \/ q = Writing /\ reader_count_ l = 0 -> latch_core n l (<[i := q]> m)).
  { intros q Hq. assert (entered q) by (unfold entered; tauto).
    apply (core_change n l m i p q l Hc Hi); try tauto.
    - rewrite !decide_False; [lia|done|]. destruct Hq as [ -> | [ -> _ ]]; done.
    - by rewrite decide_True.
    - destruct Hq as [ -> | [ -> _ ]]; done.
    - destruct Hq as [ -> | [ -> ? ]]; done. }
  unfold WLock_drain. destruct (Z.ltb_spec 0 (reader_count_ l)); simpl; split; simpl.
  - apply Hcore. tauto.
  - by apply sleep1_insert.
  - done.
  - apply Hcore. right. split; [done|lia].
  - by apply sleep1_insert.
  - intros j [[_ ?]|[Hne Hj]]%lookup_insert_Some; [done|]. by destruct (Hoth j).
Qed.

Lemma WLock_inv l m i p :
  latch_inv n (MkLatchSystem l m) -> m !! i = Some p -> p = Idle \/ p = WWoken1 ->
  latch_inv n (MkLatchSystem (WLock l).2 (<[i := (WLock l).1]> m)).
Proof.
  intros [Hc H1 H2] Hi Hp. simpl in *. assert (Hpr : p <> Reading) by (by destruct Hp; subst).
  assert (Hpe : ~ entered p) by (unfold entered; destruct Hp; subst; intuition discriminate).
  destruct (count_bound n l m i p Hc Hi Hpr) as [Hb0 _].
  unfold WLock. destruct (writer_entered_ l) eqn:El; simpl.
  - assert (Hs : ~ entered WSleep1) by (unfold entered; intuition discriminate). split; simpl.
    + apply (core_change n l m i p WSleep1 l Hc Hi); try done; [rewrite !decide_False by done; lia|].
      by rewrite !decide_False.
    + rewrite El. by apply sleep1_insert.
    + intros j [[_ ?]|[_ Hj]]%lookup_insert_Some; [done|by apply (H2 j)].
  - assert (Hnone : forall j, m !! j <> Some WSleep2).
    { intros j Hj. eapply (not_entered n l m Hc El j); [exact Hj|]. unfold entered. tauto. }
    assert (Hcore : forall q, q = WSleep2 \/ q = Writing /\ reader_count_ l = 0 ->
              latch_core n (MkLatch (reader_count_ l) true) (<[i := q]> m)).
    { intros q Hq. assert (entered q) by (unfold entered; tauto).
      apply (core_change n l m i p q _ Hc Hi); try tauto; simpl.
      - destruct (decide (p = Reading)); [done|]. rewrite decide_False; [lia|]. destruct Hq as [ -> | [ -> _ ]]; done.
      - by rewrite decide_True.
      - destruct Hq as [ -> | [ -> ? ]]; done. }
    unfold WLock_drain. simpl. destruct (Z.ltb_spec 0 (reader_count_ l)); simpl; split; simpl; try done.
    + apply Hcore. tauto.
    + apply Hcore. right. split; [done|lia].
    + intros j [[_ ?]|[_ Hj]]%lookup_insert_Some; [done|by destruct (Hnone j)].
Qed.

Lemma WUnlock_inv l m i m' :
  latch_inv n (MkLatchSystem l m) -> m !! i = Some Writing -> notifies (WUnlock l).1 (<[i := Idle]> m) m' ->
  latch_inv n (MkLatchSystem (WUnlock l).2 m').
Proof.
  intros [Hc H1 H2] Hi Hm. simpl in *. inversion Hm; subst; clear Hm.
  assert (Hw : entered Writing) by (unfold entered; tauto).
  assert (Hid : ~ entered Idle) by (unfold entered; intuition discriminate). split; simpl.
  - apply core_wake. apply (core_change n l m i Writing Idle _ Hc Hi); try done; simpl; lia.
  - intros j p. rewrite lookup_fmap, fmap_Some. intros (q & _ & ->). by destruct q.
  - intros j. rewrite lookup_fmap, fmap_Some. intros (q & Hj & Hq). destruct q; try done.
    apply lookup_insert_Some in Hj as [[_ ?]|[Hne Hj]]; [done|]. exfalso. apply Hne.
    apply (lc_unique _ _ _ Hc i j Writing WSleep2 Hi Hj Hw). unfold entered. tauto.
Qed.

Lemma RUnlock_inv l m i m' :
  latch_inv n (MkLatchSystem l m) -> m !! i = Some Reading -> notifies (RUnlock l).1 (<[i := Idle]> m) m' ->
  latch_inv n (MkLatchSystem (RUnlock l).2 m').
Proof.
  intros [Hc H1 H2] Hi Hm. simpl in Hc, H1, H2.
  assert (Hid : ~ entered Idle /\ ~ entered Reading) by (unfold entered; intuition discriminate).
  destruct Hid as [Hid Hrd]. pose proof (count_pos _ _ _ Hi) as Hpos. pose proof (count_le Reading m) as Hle.
  rewrite (lc_size _ _ _ Hc) in Hle. pose proof (lc_count _ _ _ Hc) as Hcnt.
  unfold RUnlock, MAX_READERS in *. simpl in *.
  rewrite unsigned_id in * by (unfold is_unsigned; lia). set (l' := MkLatch _ _).
  assert (Hcore : latch_core n l' (<[i := Idle]> m)).
  { apply (core_change n l m i Reading Idle _ Hc Hi); try done; simpl; lia. }
  assert (Hold : forall j, <[i := Idle]> m !! j = Some WSleep2 -> m !! j = Some WSleep2).
  { intros j [[_ ?]|[_ Hj]]%lookup_insert_Some; done. }
  assert (Hs1 : forall j p, <[i := Idle]> m !! j = Some p -> wake_reader p <> p -> writer_entered_ l = true)
    by (apply sleep1_insert; done).
  assert (Hne : writer_entered_ l = false -> forall j, m !! j <> Some WSleep2).
  { intros El j Hj. eapply (not_entered n l m Hc El j); [exact Hj|]. unfold entered. tauto. }
  destruct (writer_entered_ l) eqn:El.
  - destruct (Z.eqb_spec (reader_count_ l - 1) 0) as [Hz|Hz]; inversion Hm; subst; clear Hm.
    + match goal with Hj : _ !! ?j = Some WSleep2 |- _ => rename Hj into Hj0; rename j into j0 end.
      assert (Hent : entered WSleep2 /\ entered WWoken2) by (unfold entered; tauto). destruct Hent as [He1 He2].
      split; simpl.
      * apply (core_change n l' _ j0 WSleep2 WWoken2 l' Hcore Hj0); try done; simpl; try lia; by rewrite decide_True.
      * by apply sleep1_insert.
      * intros k [[_ ?]|[Hk Hk2]]%lookup_insert_Some; [done|]. exfalso. apply Hk.
        apply (lc_unique _ _ _ Hcore j0 k WSleep2 WSleep2 Hj0 Hk2 He1 He1).
    + split; [done|done|]. simpl. intros j Hj. by destruct (H j).
    + split; [done|done|]. simpl. intros j Hj. lia.
  - destruct (Z.eqb_spec (reader_count_ l - 1) (2 ^ 32 - 1 - 1)); inversion Hm; subst; clear Hm.
    + by pose proof (Hs1 _ _ H H0).
    + split; [done|done|]. simpl. intros j Hj%Hold. by destruct (Hne eq_refl j).
    + split; [done|done|]. simpl. intros j Hj%Hold. by destruct (Hne eq_refl j).
Qed.

Lemma spurious_inv l m i p :
  latch_inv n (MkLatchSystem l m) -> m !! i = Some p ->
  latch_inv n (MkLatchSystem l (<[i := wake_writer (wake_reader p)]> m)).
Proof.
  intros [Hc H1 H2] Hi. simpl in *. split; simpl.
  - destruct p; simpl; try (by rewrite insert_id).
    all: eapply (core_change n l m i _ _ l Hc Hi); try (by unfold entered; intuition discriminate); simpl; try lia.
    all: unfold entered; repeat case_decide; try done; try (exfalso; intuition discriminate).
    apply (lc_entered _ _ _ Hc). exists i, WSleep2. split; [done|]. unfold entered. tauto.
  - apply sleep1_insert; [done|]. by destruct p.
  - intros j [[_ Hj]|[_ Hj]]%lookup_insert_Some; [by destruct p|by apply (H2 j)].
Qed.

Lemma latch_step_inv s s' : latch_inv n s -> latch_step s s' -> latch_inv n s'.
Proof.
  intros Hs Hstep. destruct Hstep as [l m i p Hi Hp|l m i p Hi Hp|l m i Hi|l m i m' Hi Hm|l m i m' Hi Hm|l m i p Hi].
  - by apply (RLock_inv l m i p).
  - by apply (WLock_inv l m i p).
  - assert (Hw : entered WWoken2 /\ entered WSleep2) by (unfold entered; tauto). destruct Hw as [Hw Hw2].
    pose proof (li_core _ _ Hs) as Hc. simpl in Hc. apply (drain_inv l m i WWoken2); try done.
    + apply (lc_entered _ _ _ Hc). by exists i, WWoken2.
    + intros j Hne Hj. apply Hne. by apply (lc_unique _ _ _ Hc j i WSleep2 WWoken2).
  - by apply (RUnlock_inv l m i).
  - by apply (WUnlock_inv l m i).
  - by apply spurious_inv.
Qed.

Lemma latch_start_phase k i p : threads (latch_start k) !! i = Some p -> p = Idle.
Proof.
  simpl. intros Hi%elem_of_list_to_map_2. apply list_elem_of_fmap in Hi as (j & [= -> ->] & _). done.
Qed.

Lemma latch_start_inv : latch_inv n (latch_start n).
Proof.
  pose proof (latch_start_phase n) as Hidle. split; [split| |]; simpl in *.
  - rewrite map_size_list_to_map; [by rewrite length_fmap, length_seq|].
    rewrite <- list_fmap_compose. apply NoDup_fmap_2; [intros ? ? ?; simpl in *; lia|apply NoDup_seq].
  - unfold count_of. rewrite map_empty_filter_2; [done|].
    intros i p Hi Hp. simpl in Hp. apply Hidle in Hi. congruence.
  - split; [done|]. intros (i & p & Hi%Hidle & Hp). subst. unfold entered in Hp. intuition discriminate.
  - intros i j p q Hi%Hidle _ Hp _. subst. unfold entered in Hp. intuition discriminate.
  - intros i Hi%Hidle. done.
  - intros i p Hi%Hidle Hp. by subst.
  - intros i Hi%Hidle. done.
Qed.

Lemma latch_reachable_inv s : latch_reachable n s -> latch_inv n s.
Proof. induction 1; [apply latch_start_inv|by eapply latch_step_inv]. Qed.
End Steps.

(** ** Properties *)

(** C17: the latch excludes: in every reachable state of at most 2^32 - 1 threads
    (whatever the order of calls, wake-ups and notifications), a thread that
    holds the latch for writing is the only one that holds it at all, and the
    two fields say exactly who is inside. *)
Theorem RWLatch_exclusion n s :
  Z.of_nat n <= MAX_READERS -> latch_reachable n s ->
  (forall i j p, threads s !! i = Some Writing -> threads s !! j = Some p -> p = Reading \/ p = Writing -> i = j) /\
  reader_count_ (latch s) = Z.of_nat (count_of Reading (threads s)) /\
  (writer_entered_ (latch s) = true <-> exists i p, threads s !! i = Some p /\ entered p).
Proof.
  intros Hn Hs. apply latch_reachable_inv in Hs as [Hc _ _]; [|done].
  split; [|split; [apply (lc_count _ _ _ Hc)|apply (lc_entered _ _ _ Hc)]].
  intros i j p Hi Hj [ -> | -> ].
  - pose proof (lc_writing _ _ _ Hc i Hi) as Hz. rewrite (lc_count _ _ _ Hc) in Hz. apply count_pos in Hj. lia.
  - apply (lc_unique _ _ _ Hc i j Writing Writing); unfold entered; tauto.
Qed.

(** C32: no wake-up is lost.  In every reachable state a thread that sleeps
    waits for a condition that does not hold, and somebody is there to change
    it: a thread that holds the latch and will notify when it leaves, or a
    writer that was woken up and takes the latch at its next step. *)
Theorem RWLatch_no_lost_wakeup n s i p :
  Z.of_nat n <= MAX_READERS -> latch_reachable n s -> threads s !! i = Some p ->
  p = RSleep \/ p = WSleep1 \/ p = WSleep2 ->
  (if decide (p = WSleep2) then 0 < reader_count_ (latch s) else writer_entered_ (latch s) = true) /\
  exists j q, threads s !! j = Some q /\
    (q = Reading \/ q = Writing \/ q = WWoken2 /\ (WLock_drain (latch s)).1 = Writing).
Proof.
  intros Hn Hs Hi Hp. apply latch_reachable_inv in Hs as [Hc H1 H2]; [|done].
  assert (Hreader : 0 < reader_count_ (latch s) -> exists j, threads s !! j = Some Reading).
  { intros Hpos. rewrite (lc_count _ _ _ Hc) in Hpos. unfold count_of in Hpos.
    destruct (map_choose (filter (fun kv => kv.2 = Reading) (threads s))) as (j & q & Hj).
    { intros E. rewrite E, map_size_empty in Hpos. lia. }
    apply map_lookup_filter_Some in Hj as [Hj Hq]. simpl in Hq. subst. by exists j. }
  case_decide as Hd; [subst p|].
  - pose proof (H2 i Hi) as Hpos. split; [done|]. destruct (Hreader Hpos) as [j Hj]. exists j, Reading. tauto.
  - assert (He : writer_entered_ (latch s) = true) by (apply (H1 i p Hi); by destruct Hp as [ -> | [ -> | -> ]]).
    split; [done|]. apply (lc_entered _ _ _ Hc) in He as (j & q & Hj & Hq).
    destruct (Z.ltb_spec 0 (reader_count_ (latch s))) as [Hpos|Hpos].
    + destruct (Hreader Hpos) as [k Hk]. exists k, Reading. tauto.
    + exists j, q. split; [done|]. unfold WLock_drain. rewrite (proj2 (Z.ltb_ge _ _)) by done.
      destruct Hq as [ -> | [ -> | -> ]]; [|tauto..]. apply H2 in Hj. lia.
Qed.

(** A writer inside and a reader asleep. *)
Lemma latch_contention : latch_reachable 2 (MkLatchSystem (MkLatch 0 true) {[0 := Writing; 1 := RSleep]}).
Proof.
  assert (H0 : latch_reachable 2 (latch_start 2)) by constructor.
  assert (H1 : latch_reachable 2 (MkLatchSystem (MkLatch 0 true) {[0 := Writing; 1 := Idle]})).
  { eapply reach_step; [exact H0|]. apply (step_WLock Latch_new (threads (latch_start 2)) 0 Idle); [done|tauto]. }
  eapply reach_step; [exact H1|].
  replace ({[0 := Writing; 1 := RSleep]} : gmap Z phase) with (<[1 := RSleep]> ({[0 := Writing; 1 := Idle]} : gmap Z phase))
    by (vm_compute; reflexivity).
  apply (step_RLock (MkLatch 0 true) {[0 := Writing; 1 := Idle]} 1 Idle); [done|tauto].
Qed.

Lemma RWLatch_exclusion_witness :
  exists s, latch_reachable 2 s /\ threads s !! 0 = Some Writing /\
    (forall j p, threads s !! j = Some p -> p = Reading \/ p = Writing -> 0 = j).
Proof.
  exists (MkLatchSystem (MkLatch 0 true) {[0 := Writing; 1 := RSleep]}). split; [apply latch_contention|]. split; [done|].
  intros j p Hj Hp. by apply (proj1 (RWLatch_exclusion 2 _ ltac:(done) latch_contention) 0 j p).
Defined.

Lemma RWLatch_no_lost_wakeup_witness :
  exists s j q, latch_reachable 2 s /\ threads s !! 1 = Some RSleep /\ threads s !! j = Some q /\ q <> RSleep.
Proof.
  destruct (RWLatch_no_lost_wakeup 2 _ 1 RSleep ltac:(done) latch_contention eq_refl ltac:(tauto)) as (_ & j & q & Hj & Hq).
  exists (MkLatchSystem (MkLatch 0 true) {[0 := Writing; 1 := RSleep]}), j, q. split; [apply latch_contention|].
  split; [done|]. split; [exact Hj|]. intros ->. intuition discriminate.
Defined.
