(* ===== verification/Rid.v ===== *)
(** Record identifiers ([src/include/common/rid.h]).

    A [RID] is a page id (32-bit signed) and a slot number (32-bit unsigned); it
    is packed into one 64-bit integer by [Get] and unpacked by the [int64_t]
    constructor. *)

From S2P Require Import Prelude.

(** ** Definitions *)

Record RID : Type := MkRID {
  page_id_ : Z;
  slot_num_ : Z
}.

#[export] Instance RID_eq_dec : EqDecision RID.
Proof. solve_decision. Defined.

#[export] Instance RID_countable : Countable RID.
Proof.
  refine (inj_countable' (fun r => (page_id_ r, slot_num_ r)) (fun p => MkRID p.1 p.2) _).
  by intros [].
Defined.

(** [RID() = default]: the invalid record id. *)
Definition RID_default `{Config} : RID := MkRID INVALID_PAGE_ID 0.

(** [explicit RID(int64_t rid)]. *)
Definition RID_of_int64 (rid : Z) : RID :=
  MkRID (signed 32 (Z.shiftr rid 32)) (unsigned 32 rid).

(** [int64_t Get() const]. *)
Definition RID_Get (r : RID) : Z := Z.lor (Z.shiftl (page_id_ r) 32) (slot_num_ r).

Definition RID_Set (page_id slot_num : Z) : RID := MkRID page_id slot_num.

(** [bool operator==(const RID &other) const]. *)
Definition RID_eqb (a b : RID) : bool := (page_id_ a =? page_id_ b) && (slot_num_ a =? slot_num_ b).

(** The C++ types of the two members. *)
Definition RID_wf (r : RID) : Prop := is_signed 32 (page_id_ r) /\ is_unsigned 32 (slot_num_ r).

(** ** Lemmas *)

Lemma RID_Get_sum r : RID_wf r -> RID_Get r = page_id_ r * 2 ^ 32 + slot_num_ r.
Proof.
  intros [_ Hs]. unfold RID_Get, is_unsigned in *.
  by apply lor_shiftl_add.
Qed.

Lemma RID_Get_int64 r : RID_wf r -> is_signed 64 (RID_Get r).
Proof.
  intros Hr. rewrite RID_Get_sum by done. destruct Hr as [Hp Hs].
  unfold is_signed, is_unsigned in *. simpl in *. lia.
Qed.

Lemma RID_of_int64_Get r : RID_wf r -> RID_of_int64 (RID_Get r) = r.
Proof.
  intros Hr. rewrite RID_Get_sum by done. destruct r as [p s]. destruct Hr as [Hp Hs].
  cbn [page_id_ slot_num_] in *. unfold RID_of_int64, is_unsigned in *. f_equal.
  - rewrite Z.shiftr_div_pow2, Z.div_add_l, Z.div_small, Z.add_0_r by lia.
    by apply signed_id.
  - unfold unsigned. rewrite Z.add_comm, Z.mod_add, Z.mod_small; lia.
Qed.

Lemma RID_Get_of_int64 z : is_signed 64 z -> RID_Get (RID_of_int64 z) = z /\ RID_wf (RID_of_int64 z).
Proof.
  intros Hz.
  assert (Hw : RID_wf (RID_of_int64 z)).
  { split; cbn [page_id_ slot_num_]; [by apply signed_range|by apply unsigned_range]. }
  split; [|done]. rewrite RID_Get_sum by done. unfold RID_of_int64. cbn [page_id_ slot_num_].
  rewrite Z.shiftr_div_pow2 by lia. rewrite signed_id; [|lia|].
  - unfold unsigned. pose proof (Z.div_mod z (2 ^ 32) ltac:(lia)). lia.
  - unfold is_signed in *. change (2 ^ (64 - 1)) with (2 ^ 31 * 2 ^ 32) in Hz.
    split; [apply Z.div_le_lower_bound|apply Z.div_lt_upper_bound]; simpl; lia.
Qed.

Lemma RID_eqb_spec a b : RID_eqb a b = true <-> a = b.
Proof.
  unfold RID_eqb. rewrite andb_true_iff, !Z.eqb_eq. destruct a, b; simpl; naive_solver.
Qed.

(** ** Properties *)

(** packing a record id into 64 bits and unpacking it is the identity in
    both directions, and comparing packed ids ([TableIterator::operator==],
    [std::hash<RID>]) is the same as [RID::operator==]. *)
Theorem RID_pack_roundtrip (r r' : RID) (z : Z) :
  RID_wf r -> RID_wf r' -> is_signed 64 z ->
  RID_of_int64 (RID_Get r) = r
  /\ RID_Get (RID_of_int64 z) = z
  /\ is_signed 64 (RID_Get r)
  /\ (RID_Get r =? RID_Get r') = RID_eqb r r'.
Proof.
  intros Hr Hr' Hz. split_and!.
  - by apply RID_of_int64_Get.
  - by apply RID_Get_of_int64.
  - by apply RID_Get_int64.
  - apply eq_true_iff_eq. rewrite Z.eqb_eq, RID_eqb_spec. split; [|by intros ->].
    intros E. by rewrite <- (RID_of_int64_Get r), <- (RID_of_int64_Get r'), E.
Qed.

Lemma RID_pack_roundtrip_witness :
  RID_Get (MkRID (-1) 0) = -4294967296
  /\ RID_of_int64 (RID_Get (MkRID (-1) 7)) = MkRID (-1) 7.
Proof.
  split; [reflexivity|].
  apply (RID_pack_roundtrip (MkRID (-1) 7) (MkRID 3 4) 0); unfold RID_wf, is_signed, is_unsigned; simpl; lia.
Defined.
