(* ===== verification/Replacer.v ===== *)
(** The replacement-policy interface ([src/include/buffer/replacer.h]).

    [Replacer] has the four virtual methods of the abstract class;
    [ReplacerSpec] is the contract the buffer pool relies on: an implementation
    maintains a duplicate-free queue of evictable frames (newest first), whose
    last element is the victim. *)

From S2P Require Import Prelude.

(** [Victim] returns the boolean result and the value written to the
    [frame_id] out-parameter. *)
Class Replacer (R : Type) : Type := {
  Victim : R -> res (bool * Z * R);
  Pin : Z -> R -> res R;
  Unpin : Z -> R -> res R;
  Size : R -> Z
}.

(** The abstract policy: a queue of frames, newest first. *)
Definition queue_unpin (f : Z) (q : list Z) : list Z := if decide (f ∈ q) then q else f :: q.
Definition queue_pin (f : Z) (q : list Z) : list Z := filter (fun g => g <> f) q.

Class ReplacerSpec `{Config} (R : Type) `{Replacer R} : Type := {
  replacer_ok : R -> Prop;
  evictable : R -> list Z;
  capacity : R -> Z;
  evictable_nodup r : replacer_ok r -> NoDup (evictable r);
  evictable_range r f : replacer_ok r -> f ∈ evictable r -> 0 <= f < capacity r;
  Victim_none r : replacer_ok r -> evictable r = [] -> Victim r = Ok (false, INVALID_PAGE_ID, r);
  Victim_some r q f : replacer_ok r -> evictable r = q ++ [f] ->
    exists r', Victim r = Ok (true, f, r') /\ replacer_ok r' /\ evictable r' = q /\ capacity r' = capacity r;
  Pin_spec r f : replacer_ok r -> 0 <= f < capacity r ->
    exists r', Pin f r = Ok r' /\ replacer_ok r' /\ evictable r' = queue_pin f (evictable r)
               /\ capacity r' = capacity r;
  Unpin_spec r f : replacer_ok r -> 0 <= f < capacity r ->
    exists r', Unpin f r = Ok r' /\ replacer_ok r' /\ evictable r' = queue_unpin f (evictable r)
               /\ capacity r' = capacity r;
  Size_spec r : replacer_ok r -> Size r = Z.of_nat (length (evictable r))
}.

(** ** Queue lemmas *)

Lemma queue_pin_not_in f q : f ∉ q -> queue_pin f q = q.
Proof.
  unfold queue_pin. induction q as [|g q IH]; [done|]. intros Hn.
  rewrite filter_cons, decide_True by set_solver. f_equal. apply IH. set_solver.
Qed.

Lemma elem_of_queue_pin f g q : g ∈ queue_pin f q <-> g <> f /\ g ∈ q.
Proof. unfold queue_pin. by rewrite list_elem_of_filter. Qed.

Lemma elem_of_queue_unpin f g q : g ∈ queue_unpin f q <-> g = f \/ g ∈ q.
Proof. unfold queue_unpin. case_decide; rewrite ?elem_of_cons; naive_solver. Qed.

Lemma queue_pin_app f q1 q2 : queue_pin f (q1 ++ q2) = queue_pin f q1 ++ queue_pin f q2.
Proof. apply list.filter_app. Qed.

Lemma queue_pin_unpin f q : f ∉ q -> queue_pin f (queue_unpin f q) = q.
Proof.
  intros Hn. unfold queue_unpin. rewrite decide_False by done.
  unfold queue_pin. rewrite filter_cons, decide_False by tauto. by apply queue_pin_not_in.
Qed.
