(* ===== verification/LRUReplacer.v ===== *)
(** The LRU replacer ([src/buffer/lru_replacer.cpp]).

    [wait_list_] is a [std::list] of frames; [page2iter_] maps a frame to the
    iterator of its node.  A node is a fresh identifier paired with the frame it
    holds, an iterator is the identifier of the node it points to, and the
    value-initialised iterator is [None].  [fresh_] is the allocator of node
    identifiers; as it only grows, it also timestamps the insertions. *)

From S2P Require Import Prelude Replacer.

(** ** Definitions *)

Definition iterator : Type := option nat.

Record LRUReplacer : Type := MkLRU {
  wait_list_ : list (nat * Z);
  page2iter_ : list iterator;
  fresh_ : nat
}.

(** [LRUReplacer(size_t num_pages) : page2iter_{num_pages}]. *)
Definition LRUReplacer_new (num_pages : nat) : LRUReplacer :=
  MkLRU [] (replicate num_pages None) 0.

(** [page2iter_[frame_id] != std::list<frame_id_t>::iterator{}]. *)
Definition LRUReplacer_IsInReplacer (frame_id : Z) (r : LRUReplacer) : res bool :=
  let! it := zlookup (page2iter_ r) frame_id in Ok (bool_decide (it <> None)).

(** [wait_list_.erase(it)]: the iterator must point to a node of the list. *)
Definition list_erase (it : iterator) (l : list (nat * Z)) : res (list (nat * Z)) :=
  match it with
  | None => Err DanglingIterator
  | Some a =>
      if decide (a ∈ l.*1) then Ok (filter (fun n => n.1 <> a) l) else Err DanglingIterator
  end.

Definition LRUReplacer_Victim `{Config} (r : LRUReplacer) : res (bool * Z * LRUReplacer) :=
  match last (wait_list_ r) with
  | None => Ok (false, INVALID_PAGE_ID, r)
  | Some (_, frame_id) =>
      let! page2iter := zupdate (page2iter_ r) frame_id None in
      Ok (true, frame_id, MkLRU (removelast (wait_list_ r)) page2iter (fresh_ r))
  end.

Definition LRUReplacer_Pin (frame_id : Z) (r : LRUReplacer) : res LRUReplacer :=
  let! in_replacer := LRUReplacer_IsInReplacer frame_id r in
  if negb in_replacer then Ok r else
  let! it := zlookup (page2iter_ r) frame_id in
  let! wait_list := list_erase it (wait_list_ r) in
  let! page2iter := zupdate (page2iter_ r) frame_id None in
  Ok (MkLRU wait_list page2iter (fresh_ r)).

Definition LRUReplacer_Unpin (frame_id : Z) (r : LRUReplacer) : res LRUReplacer :=
  let! in_replacer := LRUReplacer_IsInReplacer frame_id r in
  if in_replacer then Ok r else
  let! page2iter := zupdate (page2iter_ r) frame_id (Some (fresh_ r)) in
  Ok (MkLRU ((fresh_ r, frame_id) :: wait_list_ r) page2iter (S (fresh_ r))).

Definition LRUReplacer_Size (r : LRUReplacer) : Z := Z.of_nat (length (wait_list_ r)).

#[export] Instance LRUReplacer_ops `{Config} : Replacer LRUReplacer := {|
  Victim := LRUReplacer_Victim;
  Pin := LRUReplacer_Pin;
  Unpin := LRUReplacer_Unpin;
  Size := LRUReplacer_Size
|}.

(** The representation invariant: nodes are older and older towards the back
    (so identifiers are distinct), and [page2iter_] is exactly the index of the
    list. *)
Definition descending (l : list nat) : Prop := forall i j a b,
  (i < j)%nat -> l !! i = Some a -> l !! j = Some b -> (b < a)%nat.

Record lru_inv (r : LRUReplacer) : Prop := {
  lru_desc : descending (fresh_ r :: (wait_list_ r).*1);
  lru_index f a : (a, f) ∈ wait_list_ r <-> zlookup (page2iter_ r) f = Ok (Some a)
}.

(** The abstraction: the frames, newest first. *)
Definition lru_queue (r : LRUReplacer) : list Z := (wait_list_ r).*2.

(** ** Lemmas on the list of nodes *)

Lemma descending_cons a l : descending (a :: l) <-> Forall (fun b => b < a)%nat l /\ descending l.
Proof.
  split.
  - intros Hd. split.
    + apply Forall_lookup. intros j b Hj. apply (Hd 0%nat (S j) a b); [lia|done|done].
    + intros i j x y Hij Hx Hy. apply (Hd (S i) (S j) x y); [lia|done|done].
  - intros [Ha Hd] [|i] [|j] x y Hij Hx Hy; simpl in *; try lia.
    + simplify_eq. rewrite Forall_lookup in Ha. by eapply Ha.
    + apply (Hd i j x y); [lia|done|done].
Qed.

Lemma descending_NoDup l : descending l -> NoDup l.
Proof.
  induction l as [|a l IH]; [by constructor|]. rewrite descending_cons. intros [Ha Hd].
  constructor; [|by apply IH]. rewrite Forall_forall in Ha. intros Hin.
  pose proof (Ha a Hin). lia.
Qed.

Lemma descending_sublist l k : sublist l k -> descending k -> descending l.
Proof.
  induction 1 as [|a l k Hs IH|a l k Hs IH]; [done|..]; rewrite ?descending_cons; [|naive_solver].
  intros [Ha Hd]. split; [|by apply IH]. rewrite Forall_forall in *. intros b Hb. apply Ha.
  by eapply sublist_subseteq.
Qed.

Lemma list_filter_sublist {A} (P : A -> Prop) `{forall x, Decision (P x)} l : sublist (filter P l) l.
Proof.
  induction l as [|a l IH]; [constructor|]. rewrite filter_cons.
  case_decide; by constructor.
Qed.

Lemma fmap_sublist {A B} (f : A -> B) (l k : list A) : sublist l k -> sublist (f <$> l) (f <$> k).
Proof. induction 1; rewrite ?fmap_cons; by constructor. Qed.

Lemma lru_desc_list r : lru_inv r -> descending (wait_list_ r).*1.
Proof. intros [Hd _]. by apply descending_cons in Hd as [_ ?]. Qed.

Lemma lru_node_inj r a f g : lru_inv r -> (a, f) ∈ wait_list_ r -> (a, g) ∈ wait_list_ r -> f = g.
Proof.
  intros Hr Hf Hg. apply lru_desc_list, descending_NoDup in Hr.
  apply list_elem_of_lookup in Hf as [i Hi], Hg as [j Hj].
  assert (i = j) as ->; [|congruence].
  eapply (NoDup_lookup _ i j a); [done|rewrite list_lookup_fmap..]; [by rewrite Hi|by rewrite Hj].
Qed.

Lemma lru_queue_nodup r : lru_inv r -> NoDup (lru_queue r).
Proof.
  intros Hr. pose proof (lru_index r Hr) as Hi.
  pose proof (descending_NoDup _ (lru_desc_list r Hr)) as Hn. unfold lru_queue.
  apply NoDup_fmap_2_strong; [|by apply NoDup_fmap_1 in Hn].
  intros [a f] [b g] Ha Hb Hfg; simpl in *; subst.
  apply Hi in Ha, Hb. congruence.
Qed.

Lemma elem_of_lru_queue r f :
  lru_inv r -> f ∈ lru_queue r <-> exists a, zlookup (page2iter_ r) f = Ok (Some a).
Proof.
  intros Hr. unfold lru_queue. rewrite list_elem_of_fmap. split.
  - intros [[a g] [-> Hin]]. exists a. by apply (lru_index r Hr).
  - intros [a Ha]. exists (a, f). split; [done|]. by apply (lru_index r Hr).
Qed.

Lemma lru_is_in r f :
  lru_inv r -> 0 <= f < Z.of_nat (length (page2iter_ r)) ->
  LRUReplacer_IsInReplacer f r = Ok (bool_decide (f ∈ lru_queue r)).
Proof.
  intros Hr Hf. unfold LRUReplacer_IsInReplacer.
  destruct (zlookup_is_ok _ _ Hf) as [it Hit]. rewrite Hit. cbn. f_equal.
  apply bool_decide_ext. rewrite (elem_of_lru_queue r f Hr), Hit.
  destruct it; naive_solver.
Qed.

(** ** Operation lemmas *)

Lemma removelast_app_one {A} (l : list A) x : removelast (l ++ [x]) = l.
Proof. by rewrite removelast_last. Qed.

Lemma lru_new_inv n : lru_inv (LRUReplacer_new n).
Proof.
  split; simpl.
  - apply descending_cons. split; [constructor|]. intros ? ? ? ? _ Hx. by rewrite lookup_nil in Hx.
  - intros f a. split; [set_solver|]. intros [_ Hl]%zlookup_ok.
    by apply lookup_replicate in Hl as [? _].
Qed.

Lemma lru_Victim_some `{Config} r q f :
  lru_inv r -> lru_queue r = q ++ [f] ->
  exists r', LRUReplacer_Victim r = Ok (true, f, r') /\ lru_inv r' /\ lru_queue r' = q
    /\ length (page2iter_ r') = length (page2iter_ r).
Proof.
  intros Hr Hq. unfold lru_queue in Hq.
  apply fmap_app_inv in Hq as (l & k & -> & Hk & Hl).
  destruct k as [|[a g] [|? ?]]; simplify_eq/=.
  assert (Hin : (a, g) ∈ wait_list_ r) by (rewrite Hl; set_solver).
  pose proof (proj1 (lru_index r Hr g a) Hin) as Hz.
  pose proof Hz as [Hg Hlt]%zlookup_ok. apply lookup_lt_Some in Hlt.
  exists (MkLRU l (<[Z.to_nat g := None]> (page2iter_ r)) (fresh_ r)).
  unfold LRUReplacer_Victim. rewrite Hl, last_snoc, zupdate_ok, removelast_app_one by lia.
  split_and!; [done| |done|by simpl; rewrite length_insert].
  pose proof (lru_desc r Hr) as Hd. rewrite Hl in Hd. split; simpl.
  - eapply descending_sublist; [|exact Hd]. apply sublist_skip. rewrite fmap_app.
    by apply sublist_inserts_r.
  - intros f b. rewrite zlookup_insert by lia. case_decide as E; subst.
    + split; [|done]. intros Hf.
      assert (Hf' : (b, f) ∈ wait_list_ r) by (rewrite Hl; set_solver).
      apply (lru_index r Hr) in Hf'. rewrite Hz in Hf'. simplify_eq.
      pose proof (descending_NoDup _ (lru_desc_list r Hr)) as Hn.
      rewrite Hl, fmap_app in Hn. apply NoDup_app in Hn as (_ & Hn & _).
      exfalso. eapply (Hn b); [|set_solver]. apply list_elem_of_fmap. by exists (b, f).
    + rewrite <- (lru_index r Hr f b), Hl. set_solver.
Qed.

Lemma lru_Victim_none `{Config} r :
  lru_queue r = [] -> LRUReplacer_Victim r = Ok (false, INVALID_PAGE_ID, r).
Proof. unfold lru_queue, LRUReplacer_Victim. destruct (wait_list_ r); done. Qed.

Lemma filter_node_frame r a f :
  lru_inv r -> (a, f) ∈ wait_list_ r ->
  (filter (fun n => n.1 <> a) (wait_list_ r)).*2 = queue_pin f (lru_queue r).
Proof.
  intros Hr Hin. apply filter_fmap_iff. intros [b g] Hb. simpl.
  apply not_iff_compat. split; intros ->.
  - by eapply lru_node_inj.
  - apply (lru_index r Hr) in Hb, Hin. congruence.
Qed.

Lemma lru_Pin_spec r f :
  lru_inv r -> 0 <= f < Z.of_nat (length (page2iter_ r)) ->
  exists r', LRUReplacer_Pin f r = Ok r' /\ lru_inv r' /\ lru_queue r' = queue_pin f (lru_queue r)
    /\ length (page2iter_ r') = length (page2iter_ r).
Proof.
  intros Hr Hf. unfold LRUReplacer_Pin. rewrite lru_is_in by done. cbn.
  case_bool_decide as Hin; cbn.
  2:{ exists r. by rewrite queue_pin_not_in. }
  apply elem_of_lru_queue in Hin as [a Ha]; [|done]. rewrite Ha. cbn.
  pose proof (proj2 (lru_index r Hr f a) Ha) as Hw.
  rewrite decide_True by (apply list_elem_of_fmap; by exists (a, f)). cbn.
  rewrite zupdate_ok by done. cbn.
  eexists; split_and!; [done| | |by simpl; rewrite length_insert].
  2:{ by apply filter_node_frame. }
  split; simpl.
  - eapply descending_sublist; [|exact (lru_desc r Hr)].
    apply sublist_skip, fmap_sublist, list_filter_sublist.
  - intros g b. rewrite list_elem_of_filter, zlookup_insert by done. simpl.
    case_decide as E; subst.
    + split; [|done]. intros [Hb Hg]. apply (lru_index r Hr) in Hg. congruence.
    + rewrite <- (lru_index r Hr g b). split; [tauto|]. intros Hg. split; [|done].
      intros ->. by apply E, (lru_node_inj r a).
Qed.

Lemma lru_Unpin_spec r f :
  lru_inv r -> 0 <= f < Z.of_nat (length (page2iter_ r)) ->
  exists r', LRUReplacer_Unpin f r = Ok r' /\ lru_inv r' /\ lru_queue r' = queue_unpin f (lru_queue r)
    /\ length (page2iter_ r') = length (page2iter_ r).
Proof.
  intros Hr Hf. unfold LRUReplacer_Unpin, queue_unpin. rewrite lru_is_in by done. cbn.
  case_bool_decide as Hin.
  { exists r. by rewrite decide_True. }
  rewrite zupdate_ok by done. cbn. rewrite decide_False by done.
  eexists; split_and!; [done| |done|by simpl; rewrite length_insert].
  pose proof (lru_desc r Hr) as Hd.
  split; simpl.
  - apply descending_cons. split; [|done]. constructor; [lia|].
    apply descending_cons in Hd as [Hd _]. eapply Forall_impl; [exact Hd|]. simpl. lia.
  - intros g b. rewrite zlookup_insert, elem_of_cons by done. case_decide as E; subst.
    + split; [|naive_solver]. intros [?|Hg]; [naive_solver|]. exfalso. apply Hin.
      apply list_elem_of_fmap. by exists (b, g).
    + rewrite <- (lru_index r Hr g b). naive_solver.
Qed.

(** The LRU replacer keeps the contract of the interface. *)
#[export] Program Instance LRUReplacer_spec `{Config} : ReplacerSpec LRUReplacer := {|
  replacer_ok := lru_inv;
  evictable := lru_queue;
  capacity r := Z.of_nat (length (page2iter_ r))
|}.
Next Obligation. intros. by apply lru_queue_nodup. Qed.
Next Obligation.
  intros ? r f Hr Hf. apply elem_of_lru_queue in Hf as [a Ha]; [|done].
  apply zlookup_ok in Ha as [? Ha%lookup_lt_Some]. lia.
Qed.
Next Obligation. intros. by apply lru_Victim_none. Qed.
Next Obligation.
  intros ? r q f Hr Hq. destruct (lru_Victim_some r q f Hr Hq) as (r' & ? & ? & ? & He).
  exists r'. rewrite He. split_and!; done.
Qed.
Next Obligation.
  intros ? r f Hr Hf. destruct (lru_Pin_spec r f Hr Hf) as (r' & ? & ? & ? & He).
  exists r'. by rewrite He.
Qed.
Next Obligation.
  intros ? r f Hr Hf. destruct (lru_Unpin_spec r f Hr Hf) as (r' & ? & ? & ? & He).
  exists r'. by rewrite He.
Qed.
Next Obligation. intros. simpl. unfold LRUReplacer_Size, lru_queue. by rewrite length_fmap. Qed.

(** ** Properties *)

(** The operations of a replacer, and running a sequence of them.  [Victim]
    appends the frame it evicts to the output. *)
Inductive replacer_op : Type := OpVictim | OpPin (f : Z) | OpUnpin (f : Z).

Definition lru_step `{Config} (r : LRUReplacer) (op : replacer_op) : res (LRUReplacer * list Z) :=
  match op with
  | OpVictim => let! '(ok, f, r') := LRUReplacer_Victim r in Ok (r', if ok then [f] else [])
  | OpPin f => let! r' := LRUReplacer_Pin f r in Ok (r', [])
  | OpUnpin f => let! r' := LRUReplacer_Unpin f r in Ok (r', [])
  end.

Fixpoint lru_run `{Config} (r : LRUReplacer) (ops : list replacer_op) : res (LRUReplacer * list Z) :=
  match ops with
  | [] => Ok (r, [])
  | op :: ops =>
      let! '(r', out) := lru_step r op in
      let! '(r'', out') := lru_run r' ops in
      Ok (r'', out ++ out')
  end.

(** The abstract queue machine the replacer implements. *)
Definition queue_step (q : list Z) (op : replacer_op) : list Z * list Z :=
  match op with
  | OpVictim => match last q with Some f => (removelast q, [f]) | None => (q, []) end
  | OpPin f => (queue_pin f q, [])
  | OpUnpin f => (queue_unpin f q, [])
  end.

Fixpoint queue_run (q : list Z) (ops : list replacer_op) : list Z * list Z :=
  match ops with
  | [] => (q, [])
  | op :: ops =>
      let '(q', out) := queue_step q op in
      let '(q'', out') := queue_run q' ops in
      (q'', out ++ out')
  end.

Definition op_in_range (n : nat) (op : replacer_op) : Prop :=
  match op with OpVictim => True | OpPin f | OpUnpin f => 0 <= f < Z.of_nat n end.

Lemma lru_step_refines `{Config} r op :
  lru_inv r -> op_in_range (length (page2iter_ r)) op ->
  exists r', lru_step r op = Ok (r', (queue_step (lru_queue r) op).2)
    /\ lru_inv r' /\ lru_queue r' = (queue_step (lru_queue r) op).1
    /\ length (page2iter_ r') = length (page2iter_ r).
Proof.
  intros Hr. destruct op as [|f|f]; simpl; intros Hf.
  - destruct (lru_queue r) as [|f q _] eqn:Hq using rev_ind.
    + rewrite lru_Victim_none by done. exists r. by simpl.
    + destruct (lru_Victim_some r q f Hr Hq) as (r' & -> & ? & ? & ?).
      rewrite last_snoc, removelast_app_one. by exists r'.
  - destruct (lru_Pin_spec r f Hr Hf) as (r' & -> & ? & ? & ?). by exists r'.
  - destruct (lru_Unpin_spec r f Hr Hf) as (r' & -> & ? & ? & ?). by exists r'.
Qed.

Lemma lru_run_inv `{Config} ops r r' out :
  lru_inv r -> Forall (op_in_range (length (page2iter_ r))) ops -> lru_run r ops = Ok (r', out) ->
  lru_inv r'.
Proof.
  intros Hr Hops. revert r Hr r' out Hops.
  induction ops as [|op ops IH]; intros r Hr r' out Hops Hrun; simpl in Hrun; [by simplify_eq|].
  apply Forall_cons in Hops as [Hop Hops].
  destruct (lru_step_refines r op Hr Hop) as (r1 & Hs & Hr1 & _ & Hn). rewrite Hs in Hrun. simpl in Hrun.
  destruct (lru_run r1 ops) as [[r2 o2]|] eqn:E; simplify_eq/=.
  eapply IH; [exact Hr1| |exact E]. by rewrite Hn.
Qed.

(** C29: the linked list with its iterator index ([wait_list_], [page2iter_])
    implements the duplicate-free queue: on every sequence of operations on
    frames within the constructor's bound no iterator is dangling, no index is
    out of range, and exactly the frames the queue evicts are evicted, in
    order. *)
Theorem LRUReplacer_refines_queue `{Config} (n : nat) (ops : list replacer_op) :
  Forall (op_in_range n) ops ->
  exists r', lru_run (LRUReplacer_new n) ops = Ok (r', (queue_run [] ops).2)
    /\ lru_queue r' = (queue_run [] ops).1
    /\ LRUReplacer_Size r' = Z.of_nat (length (queue_run [] ops).1).
Proof.
  intros Hops.
  assert (Hgen : forall r, lru_inv r -> length (page2iter_ r) = n ->
    exists r', lru_run r ops = Ok (r', (queue_run (lru_queue r) ops).2)
      /\ lru_queue r' = (queue_run (lru_queue r) ops).1).
  { induction Hops as [|op ops Hop Hops IH]; intros r Hr Hn; simpl; [by exists r|]. subst n.
    destruct (lru_step_refines r op Hr Hop) as (r1 & -> & Hr1 & Hq1 & Hn1). simpl.
    destruct (IH r1 Hr1 Hn1) as (r' & -> & Hq'). rewrite Hq1 in Hq' |- *.
    destruct (queue_step (lru_queue r) op) as [q1 out]; simpl in *.
    destruct (queue_run q1 ops) as [q2 out']; simpl in *. by exists r'. }
  destruct (Hgen (LRUReplacer_new n) (lru_new_inv n)) as (r' & Hrun & Hq).
  { by simpl; rewrite length_replicate. }
  exists r'. split_and!; [done|done|]. unfold LRUReplacer_Size.
  change (queue_run [] ops).1 with (queue_run (lru_queue (LRUReplacer_new n)) ops).1.
  rewrite <- Hq. unfold lru_queue. by rewrite length_fmap.
Qed.

Lemma LRUReplacer_refines_queue_witness :
  (queue_run [] [OpUnpin 1; OpUnpin 2; OpPin 1; OpUnpin 1; OpUnpin 2; OpVictim]).2 = [2]
  /\ exists r', lru_run (LRUReplacer_new 3)
       [OpUnpin 1; OpUnpin 2; OpPin 1; OpUnpin 1; OpUnpin 2; OpVictim] = Ok (r', [2]).
Proof.
  split; [reflexivity|].
  destruct (LRUReplacer_refines_queue 3 [OpUnpin 1; OpUnpin 2; OpPin 1; OpUnpin 1; OpUnpin 2; OpVictim])
    as (r' & Hr & _ & _).
  - repeat constructor; simpl; lia.
  - exists r'. exact Hr.
Defined.

(** the victim is the least recently unpinned frame.  Node identifiers are
    handed out in order of insertion, and the frame [Victim] returns carries a
    smaller one than every frame that stays. *)
Theorem LRUReplacer_victim_oldest `{Config} (r r' : LRUReplacer) (f : Z) :
  lru_inv r -> LRUReplacer_Victim r = Ok (true, f, r') ->
  exists a, (a, f) ∈ wait_list_ r
    /\ (forall b g, (b, g) ∈ wait_list_ r' -> (a < b)%nat)
    /\ f ∉ lru_queue r'.
Proof.
  intros Hr Hv. destruct (lru_queue r) as [|g q _] eqn:Hq using rev_ind.
  { by rewrite lru_Victim_none in Hv. }
  destruct (lru_Victim_some r q g Hr Hq) as (r1 & Hv1 & Hr1 & Hq1 & _).
  rewrite Hv in Hv1. simplify_eq.
  pose proof (lru_queue_nodup r Hr) as Hn. rewrite Hq in Hn.
  apply NoDup_app in Hn as (_ & Hn & _).
  unfold LRUReplacer_Victim in Hv. destruct (last (wait_list_ r)) as [[a h]|] eqn:Hl; [|done].
  apply last_Some in Hl as [l Hl]. 
  destruct (zupdate (page2iter_ r) h None) as [p|]; simplify_eq/=.
  exists a. split_and!; [rewrite Hl; set_solver| |set_solver].
  intros b h. rewrite Hl, removelast_app_one. intros Hb.
  pose proof (lru_desc_list r Hr) as Hd. rewrite Hl, fmap_app in Hd.
  apply (list_elem_of_fmap_2 fst) in Hb. apply list_elem_of_lookup in Hb as [i Hi].
  pose proof (lookup_lt_Some _ _ _ Hi).
  eapply (Hd i (length l)); [by rewrite length_fmap in *|by rewrite lookup_app_l|].
  by rewrite lookup_app_r, length_fmap, Nat.sub_diag by (by rewrite length_fmap).
Qed.

Lemma LRUReplacer_victim_oldest_witness :
  exists r r', lru_inv r /\ LRUReplacer_Victim r = Ok (true, 1, r') /\ 1 ∉ lru_queue r'.
Proof.
  set (r := MkLRU [(1%nat, 0); (0%nat, 1)] [Some 1%nat; Some 0%nat] 2).
  set (r' := MkLRU [(1%nat, 0)] [Some 1%nat; None] 2).
  assert (Hr : lru_inv r).
  { apply (lru_run_inv [OpUnpin 1; OpUnpin 0] (LRUReplacer_new 2) r []);
      [apply lru_new_inv|repeat constructor; simpl; lia|reflexivity]. }
  exists r, r'. split_and!; [done|reflexivity|].
  destruct (LRUReplacer_victim_oldest r r' 1 Hr eq_refl) as (a & _ & _ & Hn). exact Hn.
Defined.
