(* ===== verification/ClockReplacer.v ===== *)
(** The "clock" replacer ([src/buffer/clock_replacer.cpp]).

    The class carries the same members as [LRUReplacer] and its methods have the
    same bodies (without the latch).  It is modelled on its own, and then shown
    to behave step for step as the LRU replacer, which also discharges the
    replacer contract for it. *)

From S2P Require Import Prelude Replacer LRUReplacer.

(** ** Definitions *)

Record ClockReplacer : Type := MkClock {
  clock_wait_list_ : list (nat * Z);
  clock_page2iter_ : list iterator;
  clock_fresh_ : nat
}.

Definition ClockReplacer_new (num_pages : nat) : ClockReplacer :=
  MkClock [] (replicate num_pages None) 0.

Definition ClockReplacer_IsInReplacer (frame_id : Z) (r : ClockReplacer) : res bool :=
  let! it := zlookup (clock_page2iter_ r) frame_id in Ok (bool_decide (it <> None)).

Definition ClockReplacer_Victim `{Config} (r : ClockReplacer) : res (bool * Z * ClockReplacer) :=
  match last (clock_wait_list_ r) with
  | None => Ok (false, INVALID_PAGE_ID, r)
  | Some (_, frame_id) =>
      let! page2iter := zupdate (clock_page2iter_ r) frame_id None in
      Ok (true, frame_id, MkClock (removelast (clock_wait_list_ r)) page2iter (clock_fresh_ r))
  end.

Definition ClockReplacer_Pin (frame_id : Z) (r : ClockReplacer) : res ClockReplacer :=
  let! in_replacer := ClockReplacer_IsInReplacer frame_id r in
  if negb in_replacer then Ok r else
  let! it := zlookup (clock_page2iter_ r) frame_id in
  let! wait_list := list_erase it (clock_wait_list_ r) in
  let! page2iter := zupdate (clock_page2iter_ r) frame_id None in
  Ok (MkClock wait_list page2iter (clock_fresh_ r)).

Definition ClockReplacer_Unpin (frame_id : Z) (r : ClockReplacer) : res ClockReplacer :=
  let! in_replacer := ClockReplacer_IsInReplacer frame_id r in
  if in_replacer then Ok r else
  let! page2iter := zupdate (clock_page2iter_ r) frame_id (Some (clock_fresh_ r)) in
  Ok (MkClock ((clock_fresh_ r, frame_id) :: clock_wait_list_ r) page2iter (S (clock_fresh_ r))).

Definition ClockReplacer_Size (r : ClockReplacer) : Z := Z.of_nat (length (clock_wait_list_ r)).

#[export] Instance ClockReplacer_ops `{Config} : Replacer ClockReplacer := {|
  Victim := ClockReplacer_Victim;
  Pin := ClockReplacer_Pin;
  Unpin := ClockReplacer_Unpin;
  Size := ClockReplacer_Size
|}.

(** The LRU replacer with the same contents. *)
Definition to_lru (r : ClockReplacer) : LRUReplacer :=
  MkLRU (clock_wait_list_ r) (clock_page2iter_ r) (clock_fresh_ r).

Definition clock_step `{Config} (r : ClockReplacer) (op : replacer_op) : res (ClockReplacer * list Z) :=
  match op with
  | OpVictim => let! '(ok, f, r') := ClockReplacer_Victim r in Ok (r', if ok then [f] else [])
  | OpPin f => let! r' := ClockReplacer_Pin f r in Ok (r', [])
  | OpUnpin f => let! r' := ClockReplacer_Unpin f r in Ok (r', [])
  end.

Fixpoint clock_run `{Config} (r : ClockReplacer) (ops : list replacer_op) : res (ClockReplacer * list Z) :=
  match ops with
  | [] => Ok (r, [])
  | op :: ops =>
      let! '(r', out) := clock_step r op in
      let! '(r'', out') := clock_run r' ops in
      Ok (r'', out ++ out')
  end.

(** ** Lemmas *)

Lemma to_lru_inj r r' : to_lru r = to_lru r' -> r = r'.
Proof. destruct r, r'. by intros [= -> -> ->]. Qed.

Lemma clock_Pin_lru f r : LRUReplacer_Pin f (to_lru r) = to_lru <$> ClockReplacer_Pin f r.
Proof.
  unfold LRUReplacer_Pin, ClockReplacer_Pin, LRUReplacer_IsInReplacer, ClockReplacer_IsInReplacer. simpl.
  destruct (zlookup (clock_page2iter_ r) f) as [it|]; simpl; [|done].
  destruct it as [a|]; simpl; [|by destruct r]. case_decide; simpl; [|done].
  by destruct (zupdate (clock_page2iter_ r) f None).
Qed.

Lemma clock_Unpin_lru f r : LRUReplacer_Unpin f (to_lru r) = to_lru <$> ClockReplacer_Unpin f r.
Proof.
  unfold LRUReplacer_Unpin, ClockReplacer_Unpin, LRUReplacer_IsInReplacer, ClockReplacer_IsInReplacer. simpl.
  destruct (zlookup (clock_page2iter_ r) f) as [it|]; simpl; [|done].
  destruct it as [a|]; simpl; [by destruct r|].
  by destruct (zupdate (clock_page2iter_ r) f (Some (clock_fresh_ r))).
Qed.

Lemma clock_Victim_lru `{Config} r :
  LRUReplacer_Victim (to_lru r) = prod_map id to_lru <$> ClockReplacer_Victim r.
Proof.
  unfold LRUReplacer_Victim, ClockReplacer_Victim. simpl.
  destruct (last (clock_wait_list_ r)) as [[a f]|]; simpl; [|by destruct r].
  by destruct (zupdate (clock_page2iter_ r) f None).
Qed.

Lemma clock_fmap_ok (m : res ClockReplacer) l :
  to_lru <$> m = Ok l -> exists r, m = Ok r /\ to_lru r = l.
Proof. destruct m; naive_solver. Qed.

(** The contract, transported from the LRU replacer. *)
#[export] Program Instance ClockReplacer_spec `{Config} : ReplacerSpec ClockReplacer := {|
  replacer_ok r := lru_inv (to_lru r);
  evictable r := lru_queue (to_lru r);
  capacity r := Z.of_nat (length (page2iter_ (to_lru r)))
|}.
Next Obligation. intros. by apply lru_queue_nodup. Qed.
Next Obligation. intros ? r f Hr Hf. exact (@evictable_range _ LRUReplacer _ LRUReplacer_spec (to_lru r) f Hr Hf). Qed.
Next Obligation.
  intros ? r Hr Hq. pose proof (lru_Victim_none (to_lru r) Hq) as Hv. rewrite clock_Victim_lru in Hv.
  simpl in *. destruct (ClockReplacer_Victim r) as [[[ok f] r']|]; simplify_eq/=.
  destruct r, r'; naive_solver.
Qed.
Next Obligation.
  intros ? r q f Hr Hq. destruct (@Victim_some _ LRUReplacer _ LRUReplacer_spec (to_lru r) q f Hr Hq) as (l & Hv & Hl).
  simpl in Hv. rewrite clock_Victim_lru in Hv. simpl in *.
  destruct (ClockReplacer_Victim r) as [[[ok g] r']|]; simplify_eq/=. by exists r'.
Qed.
Next Obligation.
  intros ? r f Hr Hf. destruct (@Pin_spec _ LRUReplacer _ LRUReplacer_spec (to_lru r) f Hr Hf) as (l & Hp & Hl).
  simpl in Hp |- *. rewrite clock_Pin_lru in Hp. apply clock_fmap_ok in Hp as (r' & -> & <-). by exists r'.
Qed.
Next Obligation.
  intros ? r f Hr Hf. destruct (@Unpin_spec _ LRUReplacer _ LRUReplacer_spec (to_lru r) f Hr Hf) as (l & Hp & Hl).
  simpl in Hp |- *. rewrite clock_Unpin_lru in Hp. apply clock_fmap_ok in Hp as (r' & -> & <-). by exists r'.
Qed.
Next Obligation. intros ? r Hr. exact (@Size_spec _ LRUReplacer _ LRUReplacer_spec (to_lru r) Hr). Qed.

(** ** Properties *)

(** the clock replacer keeps no reference bits and does not approximate LRU:
    on every sequence of operations it evicts exactly the frames [LRUReplacer]
    evicts, and fails exactly when [LRUReplacer] does. *)
Theorem ClockReplacer_is_LRU `{Config} (n : nat) (ops : list replacer_op) :
  lru_run (LRUReplacer_new n) ops = prod_map to_lru id <$> clock_run (ClockReplacer_new n) ops.
Proof.
  change (LRUReplacer_new n) with (to_lru (ClockReplacer_new n)).
  generalize (ClockReplacer_new n). induction ops as [|op ops IH]; intros r; [done|]. simpl.
  assert (Hs : lru_step (to_lru r) op = prod_map to_lru id <$> clock_step r op).
  { destruct op as [|f|f]; simpl.
    - rewrite clock_Victim_lru. by destruct (ClockReplacer_Victim r) as [[[ok f] r']|].
    - rewrite clock_Pin_lru. by destruct (ClockReplacer_Pin f r).
    - rewrite clock_Unpin_lru. by destruct (ClockReplacer_Unpin f r). }
  rewrite Hs. destruct (clock_step r op) as [[r' out]|]; simpl; [|done].
  rewrite IH. by destruct (clock_run r' ops) as [[r'' out']|].
Qed.
