(* ===== verification/DiskManager.v ===== *)
(** The disk manager ([src/storage/disk/disk_manager.cpp]).

    A file is the list of its bytes.  [WritePage] seeks to [page_id * PAGE_SIZE]
    and writes one page, extending the file (a gap before the page reads as
    zeros); [ReadPage] reads at most one page into the caller's buffer.  The
    streams are assumed to be open and not to report hardware errors ([bad()]).
    The log file is append only ([std::ios::app]).  The counters are [int]s:
    [num_flushes_++] of the largest is an overflow error of [WriteLog]; the
    void [WritePage] has no error, and its counter, which only [GetNumWrites]
    reads, wraps as the machine's addition does. *)

From S2P Require Import Prelude Bytes.

(** ** Definitions *)

Record DiskManager : Type := MkDisk {
  db_io_ : bytes;
  log_io_ : bytes;
  num_flushes_ : Z;
  num_writes_ : Z;
  flush_log_ : bool;
  (* the static pointer [buffer_used]: the address of the last log buffer *)
  buffer_used : option Z
}.

Definition DiskManager_new (db log : bytes) : DiskManager := MkDisk db log 0 0 false None.

(** Writing [data] at [offset] of a file: bytes between the end of the file and
    [offset] read as zero. *)
Definition file_write (f : bytes) (offset : Z) (data : bytes) : bytes :=
  let o := Z.to_nat offset in
  let f' := f ++ replicate (o - length f) 0 in
  take o f' ++ data ++ drop (o + length data) f'.

(** [GetFileSize]: the size as an [int]. *)
Definition DiskManager_GetFileSize (f : bytes) : Z := signed 32 (Z.of_nat (length f)).

Definition DiskManager_WritePage `{Config} (page_id : Z) (page_data : bytes) (d : DiskManager) : DiskManager :=
  (* size_t offset = static_cast<size_t>(page_id) * PAGE_SIZE *)
  let offset := unsigned 64 (unsigned 64 page_id * PAGE_SIZE) in
  MkDisk (file_write (db_io_ d) offset page_data) (log_io_ d) (num_flushes_ d) (signed 32 (num_writes_ d + 1))
         (flush_log_ d) (buffer_used d).

(** [page_data] is the buffer before the call; the result is the buffer after
    it.  [int offset = page_id * PAGE_SIZE] must not overflow. *)
Definition DiskManager_ReadPage `{Config} (page_id : Z) (page_data : bytes) (d : DiskManager) : res bytes :=
  let offset := page_id * PAGE_SIZE in
  if negb (bool_decide (is_signed 32 offset)) then Err IntegerOverflow else
  if DiskManager_GetFileSize (db_io_ d) <? offset then
    Ok page_data
  else
    let got := take (Z.to_nat PAGE_SIZE) (drop (Z.to_nat offset) (db_io_ d)) in
    let read_count := Z.of_nat (length got) in
    let! page_data := mem_write page_data 0 got in
    if read_count <? PAGE_SIZE
    then mem_set page_data read_count 0 (PAGE_SIZE - read_count)
    else Ok page_data.

(** [WriteLog(log_data, size)] for the buffer at address [addr] whose first
    [size] bytes are [log_data]; the flush future is not set. *)
Definition DiskManager_WriteLog (addr : Z) (log_data : bytes) (d : DiskManager) : res DiskManager :=
  let! _ := assert (negb (bool_decide (buffer_used d = Some addr))) in
  let d1 := MkDisk (db_io_ d) (log_io_ d) (num_flushes_ d) (num_writes_ d) (flush_log_ d) (Some addr) in
  if Z.of_nat (length log_data) =? 0 then Ok d1 else
  let! num_flushes := int_op (num_flushes_ d + 1) in
  Ok (MkDisk (db_io_ d) (log_io_ d ++ log_data) num_flushes (num_writes_ d) false (Some addr)).

(** [ReadLog(log_data, size, offset)]: the boolean result and the buffer. *)
Definition DiskManager_ReadLog (log_data : bytes) (size offset : Z) (d : DiskManager) : res (bool * bytes) :=
  if DiskManager_GetFileSize (log_io_ d) <=? offset then Ok (false, log_data) else
  let got := take (Z.to_nat size) (drop (Z.to_nat offset) (log_io_ d)) in
  let read_count := Z.of_nat (length got) in
  let! log_data := mem_write log_data 0 got in
  if read_count <? size
  then let! log_data := mem_set log_data read_count 0 (size - read_count) in Ok (true, log_data)
  else Ok (true, log_data).

Definition DiskManager_GetNumFlushes (d : DiskManager) : Z := num_flushes_ d.
Definition DiskManager_GetNumWrites (d : DiskManager) : Z := num_writes_ d.
Definition DiskManager_GetFlushState (d : DiskManager) : bool := flush_log_ d.

(** ** The disk as the buffer pool sees it

    [Disk K D] is the part of the interface the buffer pool calls, for pages
    with contents in [D]; [DiskSpec] is the contract it relies on.  [stored k p]
    is the content of page [p] if the file of [k] reaches past it. *)
Class Disk (K D : Type) : Type := {
  ReadPage : Z -> D -> K -> res D;
  WritePage : Z -> D -> K -> K
}.

Class DiskSpec (K D : Type) `{Disk K D} : Type := {
  disk_ok : K -> Prop;
  data_ok : D -> Prop;
  page_ok : Z -> Prop;
  stored : K -> Z -> option D;
  ReadPage_stored k p buf x : disk_ok k -> page_ok p -> data_ok buf -> stored k p = Some x ->
    ReadPage p buf k = Ok x;
  stored_data_ok k p x : disk_ok k -> stored k p = Some x -> data_ok x;
  WritePage_ok k p x : disk_ok k -> page_ok p -> data_ok x -> disk_ok (WritePage p x k);
  WritePage_same k p x : disk_ok k -> page_ok p -> data_ok x -> stored (WritePage p x k) p = Some x;
  WritePage_other k p q x y : disk_ok k -> page_ok p -> data_ok x -> q <> p ->
    stored k q = Some y -> stored (WritePage p x k) q = Some y
}.

(** The page array a file of whole pages amounts to: the abstract disk.  Reading
    the page just past the end yields zeros, reading further leaves the buffer
    as it was; writing past the end zero-fills the gap. *)
Section PageArray.
Context {D : Type} (zero : D).

Definition array_read (p : Z) (buf : D) (l : list D) : D :=
  if decide (p < Z.of_nat (length l)) then default buf (l !! Z.to_nat p)
  else if decide (p = Z.of_nat (length l)) then zero else buf.

Definition array_write (p : Z) (x : D) (l : list D) : list D :=
  let o := Z.to_nat p in
  let l' := l ++ replicate (S o - length l) zero in <[o := x]> l'.
End PageArray.

#[export] Instance DiskManager_disk `{Config} : Disk DiskManager bytes := {|
  ReadPage := DiskManager_ReadPage;
  WritePage := DiskManager_WritePage
|}.

(** A file made of whole pages that an [int] can address, and the page ids
    within it. *)
Definition page_len `{Config} (x : bytes) : Prop := Z.of_nat (length x) = PAGE_SIZE.
Definition page_addressable `{Config} (p : Z) : Prop := 0 <= p /\ (p + 1) * PAGE_SIZE < 2 ^ 31.
(** The page of a file at a page-aligned offset. *)
Definition file_page `{Config} (f : bytes) (p : Z) : option bytes :=
  if decide (0 <= p /\ (p + 1) * PAGE_SIZE <= Z.of_nat (length f))
  then Some (take (Z.to_nat PAGE_SIZE) (drop (Z.to_nat (p * PAGE_SIZE)) f))
  else None.

(** [l] is the array of pages the file [f] consists of. *)
Definition file_pages `{Config} (f : bytes) (l : list bytes) : Prop :=
  Z.of_nat (length f) = PAGE_SIZE * Z.of_nat (length l)
  /\ (forall i x, l !! i = Some x -> file_page f (Z.of_nat i) = Some x)
  /\ Z.of_nat (length f) < 2 ^ 31.

Definition zero_page `{Config} : bytes := replicate (Z.to_nat PAGE_SIZE) 0.

(** ** Lemmas *)

Lemma file_write_length f o x :
  0 <= o -> length (file_write f o x) = Nat.max (length f) (Z.to_nat o + length x).
Proof. intros. unfold file_write; cbv zeta. len. Qed.

Lemma file_write_lookup_new f o x i :
  (Z.to_nat o <= i < Z.to_nat o + length x)%nat -> file_write f o x !! i = x !! (i - Z.to_nat o)%nat.
Proof.
  intros Hi. unfold file_write; cbv zeta.
  rewrite lookup_app_r by len. rewrite lookup_app_l by len. f_equal. len.
Qed.

Lemma file_write_lookup_old f o x i :
  (i < Z.to_nat o \/ Z.to_nat o + length x <= i)%nat -> (i < length f)%nat ->
  file_write f o x !! i = f !! i.
Proof.
  intros [Hi|Hi] Hf; unfold file_write; cbv zeta.
  - rewrite lookup_app_l by len. rewrite lookup_take_lt by done. by rewrite lookup_app_l.
  - rewrite lookup_app_r by len. rewrite lookup_app_r by len. rewrite lookup_drop.
    rewrite lookup_app_l by len. f_equal. len.
Qed.

Lemma file_write_lookup_gap f o x i :
  (length f <= i < Z.to_nat o)%nat -> file_write f o x !! i = Some 0.
Proof.
  intros Hi. unfold file_write; cbv zeta.
  rewrite lookup_app_l by len. rewrite lookup_take_lt by lia.
  rewrite lookup_app_r by lia. apply lookup_replicate. lia.
Qed.

Lemma take_drop_lookup {A} (l : list A) n k i :
  (i < n)%nat -> take n (drop k l) !! i = l !! (k + i)%nat.
Proof. intros. by rewrite lookup_take_lt, lookup_drop. Qed.

Lemma write_offset `{Config} p : 0 <= p < 2 ^ 31 ->
  unsigned 64 (unsigned 64 p * PAGE_SIZE) = p * PAGE_SIZE.
Proof.
  intros Hp. pose proof PAGE_SIZE_pos. pose proof PAGE_SIZE_int.
  assert (0 <= p * PAGE_SIZE < 2 ^ 31 * 2 ^ 31) by nia.
  rewrite (unsigned_id 64 p); [apply unsigned_id|]; unfold is_unsigned; simpl in *; lia.
Qed.

Lemma page_addressable_int `{Config} p : page_addressable p -> 0 <= p < 2 ^ 31.
Proof. intros [Hp Hs]. pose proof PAGE_SIZE_pos. nia. Qed.

Lemma file_page_write_same `{Config} f p x :
  0 <= p -> page_len x -> file_page (file_write f (p * PAGE_SIZE) x) p = Some x.
Proof.
  intros Hp Hx. pose proof PAGE_SIZE_pos as HP. unfold page_len in Hx.
  unfold file_page. rewrite decide_True.
  2:{ rewrite file_write_length by nia. nia. }
  f_equal. apply list_eq. intros i. destruct (decide (i < Z.to_nat PAGE_SIZE)%nat).
  - rewrite take_drop_lookup, file_write_lookup_new by lia. f_equal. lia.
  - rewrite !lookup_ge_None_2; [done|lia|]. rewrite length_take. lia.
Qed.

Lemma file_page_write_gap `{Config} f p q x :
  page_len x -> 0 <= q < p -> Z.of_nat (length f) <= q * PAGE_SIZE ->
  file_page (file_write f (p * PAGE_SIZE) x) q = Some zero_page.
Proof.
  intros Hx Hq Hf. pose proof PAGE_SIZE_pos as HP. unfold page_len in Hx.
  unfold file_page. rewrite decide_True by (rewrite file_write_length by nia; nia).
  f_equal. apply list_eq. intros i. unfold zero_page. destruct (decide (i < Z.to_nat PAGE_SIZE)%nat).
  - rewrite take_drop_lookup by lia. rewrite file_write_lookup_gap by nia.
    symmetry. by apply lookup_replicate.
  - rewrite !lookup_ge_None_2; [done|rewrite length_replicate; lia|rewrite length_take; lia].
Qed.

Lemma file_page_write_other `{Config} f p q x y :
  page_addressable p -> page_len x -> q <> p ->
  file_page f q = Some y -> file_page (file_write f (p * PAGE_SIZE) x) q = Some y.
Proof.
  intros [Hp Hs] Hx Hne. pose proof PAGE_SIZE_pos as HP. unfold page_len in Hx.
  unfold file_page. case_decide as Hd; [|done]. intros [= <-].
  rewrite decide_True by (rewrite file_write_length by nia; nia).
  f_equal. apply list_eq. intros i. destruct (decide (i < Z.to_nat PAGE_SIZE)%nat).
  - rewrite !take_drop_lookup by lia. apply file_write_lookup_old; nia.
  - rewrite !lookup_ge_None_2; [done|rewrite length_take; lia..].
Qed.

(** Reading a page the file contains yields it, whatever the buffer held. *)
Lemma ReadPage_file_page `{Config} d p buf x :
  page_addressable p -> Z.of_nat (length (db_io_ d)) < 2 ^ 31 -> page_len buf ->
  file_page (db_io_ d) p = Some x -> DiskManager_ReadPage p buf d = Ok x.
Proof.
  intros [Hp Hs] Hf Hb. unfold file_page. case_decide as Hd; [|done]. intros [= <-].
  pose proof PAGE_SIZE_pos as HP. unfold page_len in Hb.
  unfold DiskManager_ReadPage, DiskManager_GetFileSize.
  rewrite bool_decide_eq_true_2 by (unfold is_signed; simpl in *; nia). simpl negb. cbv iota.
  rewrite (signed_id 32) by (unfold is_signed; simpl in *; lia).
  destruct (Z.ltb_spec (Z.of_nat (length (db_io_ d))) (p * PAGE_SIZE)); [nia|].
  set (got := take _ _).
  assert (Hg : Z.of_nat (length got) = PAGE_SIZE) by (unfold got; rewrite length_take, length_drop; nia).
  rewrite mem_write_ok by lia. cbn [rbind].
  destruct (Z.ltb_spec (Z.of_nat (length got)) PAGE_SIZE); [lia|].
  f_equal. unfold splice. simpl. rewrite drop_ge by lia. apply app_nil_r.
Qed.

#[export] Program Instance DiskManager_spec `{Config} : DiskSpec DiskManager bytes := {|
  disk_ok d := Z.of_nat (length (db_io_ d)) < 2 ^ 31;
  data_ok := page_len;
  page_ok := page_addressable;
  stored d p := file_page (db_io_ d) p
|}.
Next Obligation. intros; by apply ReadPage_file_page. Qed.
Next Obligation.
  intros ? k p x Hk. unfold file_page, page_len. case_decide as Hd; [|done]. intros [= <-].
  pose proof PAGE_SIZE_pos. rewrite length_take, length_drop. nia.
Qed.
Next Obligation.
  intros ? k p x Hk Hp Hx. simpl. unfold DiskManager_WritePage. simpl.
  rewrite write_offset by (by apply page_addressable_int). destruct Hp. unfold page_len in *. pose proof PAGE_SIZE_pos.
  rewrite file_write_length by nia. lia.
Qed.
Next Obligation.
  intros. simpl. rewrite write_offset by (by apply page_addressable_int). by apply file_page_write_same; [match goal with H : page_addressable _ |- _ => apply H end|].
Qed.
Next Obligation.
  intros. simpl. rewrite write_offset by (by apply page_addressable_int). by apply file_page_write_other.
Qed.

(** ** Properties *)

(** C30: on a file of whole pages, and for a page whose bytes all lie at offsets
    an [int] can hold, the byte-level [WritePage]/[ReadPage] are the page array: a
    write stores exactly that page (zero-filling a gap), counts one write (while
    the [int] counter has not reached its end) and leaves the log alone; a read
    returns the page, zeros just past the end, and leaves the buffer untouched
    further out.  A page past those offsets is written but cannot be read:
    [DiskManager_read_overflow]. *)
Theorem DiskManager_page_array `{Config} (d : DiskManager) (l : list bytes) (p : Z) (x buf : bytes) :
  file_pages (db_io_ d) l -> page_addressable p -> page_len x -> page_len buf ->
  let d' := DiskManager_WritePage p x d in
  file_pages (db_io_ d') (array_write zero_page p x l)
  /\ (is_signed 32 (num_writes_ d + 1) -> num_writes_ d' = num_writes_ d + 1) /\ log_io_ d' = log_io_ d
  /\ DiskManager_ReadPage p buf d = Ok (array_read zero_page p buf l).
Proof.
  intros (Hl & Hi & Hs) Hp Hx Hb. pose proof PAGE_SIZE_pos as HP. destruct (Hp) as [Hp0 Hp1].
  cbv zeta. split_and!; [|by apply (signed_id 32)|done|].
  - unfold DiskManager_WritePage. simpl. rewrite write_offset by (by apply page_addressable_int).
    assert (Hla : length (array_write zero_page p x l) = Nat.max (length l) (S (Z.to_nat p))).
    { unfold array_write. rewrite length_insert, length_app, length_replicate. lia. }
    split_and!.
    + rewrite file_write_length, Hla by nia. unfold page_len in Hx. nia.
    + intros i y Hy. destruct (decide (i = Z.to_nat p)) as [->|Hne].
      * unfold array_write in Hy. rewrite list_lookup_insert_eq in Hy
          by (rewrite length_app, length_replicate; lia).
        simplify_eq. rewrite Z2Nat.id by done. by apply file_page_write_same.
      * unfold array_write in Hy. rewrite list_lookup_insert_ne in Hy by done.
        destruct (decide (i < length l)%nat).
        -- rewrite lookup_app_l in Hy by done. apply file_page_write_other; [done|done|lia|by apply Hi].
        -- rewrite lookup_app_r in Hy by lia. apply lookup_replicate in Hy as [-> Hlt].
           apply file_page_write_gap; [done|lia|nia].
    + rewrite file_write_length by nia. unfold page_len in Hx. nia.
  - unfold array_read. case_decide as Hd1; [|case_decide as Hd2].
    + destruct (lookup_lt_is_Some_2 l (Z.to_nat p)) as [y Hy]; [lia|]. rewrite Hy. simpl.
      apply ReadPage_file_page; [done..|]. rewrite <- (Z2Nat.id p) by done. by apply Hi.
    + unfold DiskManager_ReadPage, DiskManager_GetFileSize. unfold page_len in *.
      rewrite bool_decide_eq_true_2 by (unfold is_signed; simpl in *; nia). simpl negb. cbv iota.
      rewrite (signed_id 32) by (unfold is_signed; simpl in *; lia).
      destruct (Z.ltb_spec (Z.of_nat (length (db_io_ d))) (p * PAGE_SIZE)); [nia|].
      rewrite drop_ge, take_nil by nia. rewrite mem_write_ok by (simpl; lia). cbn [rbind].
      change (Z.of_nat (length (@nil Z))) with 0. destruct (Z.ltb_spec 0 PAGE_SIZE); [|lia].
      unfold mem_set. rewrite decide_True by lia. rewrite Z.sub_0_r.
      rewrite mem_write_ok by (rewrite ?length_replicate; unfold splice; len).
      f_equal. unfold splice, zero_page. rewrite !length_replicate. simpl.
      rewrite drop_drop, (drop_ge buf) by lia. apply app_nil_r.
    + unfold DiskManager_ReadPage, DiskManager_GetFileSize.
      rewrite bool_decide_eq_true_2 by (unfold is_signed; simpl in *; nia). simpl negb. cbv iota.
      rewrite (signed_id 32) by (unfold is_signed; simpl in *; lia).
      destruct (Z.ltb_spec (Z.of_nat (length (db_io_ d))) (p * PAGE_SIZE)); [done|nia].
Qed.

(** A configuration with tiny pages, for witnesses that evaluate page contents. *)
Definition tiny_config : Config.
Proof. refine {| PAGE_SIZE := 4; INVALID_PAGE_ID := -1; INVALID_LSN := -1; HEADER_PAGE_ID := 0 |}; lia. Defined.

Lemma DiskManager_page_array_witness :
  let _ := tiny_config in
  DiskManager_ReadPage 1 [9; 9; 9; 9] (DiskManager_WritePage 2 [5; 6; 7; 8] (DiskManager_new [1; 2; 3; 4] []))
    = Ok [0; 0; 0; 0]
  /\ num_writes_ (DiskManager_WritePage 2 [5; 6; 7; 8] (DiskManager_new [1; 2; 3; 4] [])) = 1
  /\ DiskManager_ReadPage 2 [9; 9; 9; 9] (DiskManager_new [1; 2; 3; 4] []) = Ok [9; 9; 9; 9].
Proof.
  intros C. split; [vm_compute; reflexivity|].
  destruct (@DiskManager_page_array C (DiskManager_new [1; 2; 3; 4] []) [[1; 2; 3; 4]] 2 [5; 6; 7; 8] [9; 9; 9; 9])
    as (_ & Hn & _ & Hr); [|split; vm_compute; done|reflexivity|reflexivity|].
  - split_and!; [reflexivity| |vm_compute; done]. intros [|i] x Hx; simpl in Hx; simplify_eq. reflexivity.
  - split; [apply Hn; vm_compute; done|]. rewrite Hr. reflexivity.
Defined.

(** a page whose byte offset does not fit an [int] can be written but not
    read back: [WritePage] computes the offset as [size_t], [ReadPage] as [int]. *)
Theorem DiskManager_read_overflow `{Config} (d : DiskManager) (p : Z) (x buf : bytes) :
  0 <= p < 2 ^ 31 -> 2 ^ 31 <= p * PAGE_SIZE -> page_len x ->
  file_page (db_io_ (DiskManager_WritePage p x d)) p = Some x
  /\ DiskManager_ReadPage p buf (DiskManager_WritePage p x d) = Err IntegerOverflow.
Proof.
  intros Hp Ho Hx. split.
  - unfold DiskManager_WritePage. simpl. rewrite write_offset by done. apply file_page_write_same; [lia|done].
  - unfold DiskManager_ReadPage. rewrite bool_decide_eq_false_2; [done|].
    unfold is_signed. simpl in *. lia.
Qed.

Lemma DiskManager_read_overflow_witness :
  exists x : bytes, length x = 4096%nat
  /\ DiskManager_ReadPage 524288 x (DiskManager_WritePage 524288 x (DiskManager_new [] [])) = Err IntegerOverflow.
Proof.
  exists (replicate 4096 7). split; [reflexivity|].
  apply DiskManager_read_overflow; [lia|simpl; lia|reflexivity].
Defined.

(** the log is an append-only byte stream: after [WriteLog] appends a
    record, [ReadLog] at the old end reads it back, one more flush is counted
    exactly when the record is not empty, and writing from the same buffer twice
    in a row is refused by the assertion. *)
Theorem DiskManager_log_roundtrip `{Config} (d : DiskManager) (addr : Z) (rec buf : bytes) :
  buffer_used d <> Some addr ->
  Z.of_nat (length (log_io_ d)) + Z.of_nat (length rec) < 2 ^ 31 -> 0 <= num_flushes_ d < 2 ^ 31 - 1 ->
  length buf = length rec ->
  exists d', DiskManager_WriteLog addr rec d = Ok d'
  /\ log_io_ d' = log_io_ d ++ rec /\ db_io_ d' = db_io_ d
  /\ num_flushes_ d' = num_flushes_ d + (if decide (rec = []) then 0 else 1)
  /\ (rec <> [] -> DiskManager_ReadLog buf (Z.of_nat (length rec)) (Z.of_nat (length (log_io_ d))) d' = Ok (true, rec))
  /\ DiskManager_WriteLog addr rec d' = Err AssertionFailure.
Proof.
  intros Hb Hl Hf Hbuf. unfold DiskManager_WriteLog. rewrite bool_decide_eq_false_2 by done. cbn [negb assert rbind].
  destruct (Z.eqb_spec (Z.of_nat (length rec)) 0) as [Hz|Hz].
  - destruct rec; [|simpl in Hz; lia]. eexists. split_and!; [done|by rewrite app_nil_r|done| |done|].
    + simpl. lia.
    + by rewrite bool_decide_eq_true_2.
  - cbn [num_flushes_]. rewrite int_op_ok by (unfold is_signed; simpl in *; lia). cbn [rbind].
    eexists. split_and!; [done|done|done| | |].
    + simpl. case_decide; [by subst|lia].
    + intros _. unfold DiskManager_ReadLog, DiskManager_GetFileSize. cbn [log_io_].
      rewrite length_app, (signed_id 32) by (unfold is_signed; simpl in *; lia).
      destruct (Z.leb_spec (Z.of_nat (length (log_io_ d) + length rec)) (Z.of_nat (length (log_io_ d)))); [lia|].
      rewrite !Nat2Z.id, drop_app_length, firstn_all.
      rewrite mem_write_ok by lia. cbn [rbind]. rewrite Z.ltb_irrefl. do 2 f_equal.
      unfold splice. simpl. rewrite drop_ge by lia. apply app_nil_r.
    + cbn [buffer_used]. by rewrite bool_decide_eq_true_2.
Qed.

Lemma DiskManager_log_roundtrip_witness :
  exists d', DiskManager_WriteLog 8 [1; 2; 3] (DiskManager_new [] [7; 7]) = Ok d'
  /\ DiskManager_ReadLog [0; 0; 0] 3 2 d' = Ok (true, [1; 2; 3]).
Proof.
  destruct (DiskManager_log_roundtrip (DiskManager_new [] [7; 7]) 8 [1; 2; 3] [0; 0; 0])
    as (d' & Hw & _ & _ & _ & Hr & _); [done|simpl; lia|simpl; lia|done|].
  exists d'. split; [exact Hw|]. apply Hr. done.
Defined.
