(* ===== verification/BufferPoolManager.v ===== *)
(** The buffer pool interface ([src/include/buffer/buffer_pool_manager.h]).

    [BufferPoolManager S P D] has the methods of the abstract class that the
    access methods (hash table, table heap, B+ tree) call, over a pool state [S],
    page pointers [P] and page contents [D].  [BufferPoolSpec] is the contract:
    the pool presents a store of pages ([logical]); it is kept as long as its
    clients follow the pinning discipline stated by the hypotheses of the laws,
    in particular that the last unpin of a page that differs from its disk copy
    passes [is_dirty = true]. *)

From S2P Require Import Prelude.

(** ** Definitions *)

(** The grading wrappers [FetchPage], [UnpinPage], ... call the [*PgImp] methods
    with callbacks that default to [nullptr]; [GetData]/[SetData] read and write
    [page->GetData()] through a [Page*]. *)
Class BufferPoolManager (S P D : Type) : Type := {
  FetchPage : Z -> M S (option P);
  UnpinPage : Z -> bool -> M S bool;
  FlushPage : Z -> M S bool;
  NewPage : M S (option (Z * P));
  DeletePage : Z -> M S bool;
  FlushAllPages : M S unit;
  GetData : P -> M S D;
  SetData : P -> D -> M S unit
}.

(** What a client can know about a pool state: the contents of each page, the
    positive pin counts, the number of frames, the allocated page ids, which
    pointer leads to which page, which pages agree with their disk copy, and how
    many more pages can be allocated. *)
Record PoolView (P D : Type) : Type := MkView {
  logical : Z -> option D;
  pins : gmap Z Z;
  frames : nat;
  live : Z -> Prop;
  holds : P -> Z -> Prop;
  synced : Z -> Prop;
  budget : nat -> Prop
}.
Arguments MkView {P D} _ _ _ _ _ _ _.
Arguments logical {P D} _ _.
Arguments pins {P D} _.
Arguments frames {P D} _.
Arguments live {P D} _ _.
Arguments holds {P D} _ _ _.
Arguments synced {P D} _ _.
Arguments budget {P D} _ _.

(** A step that may change page [p] only ([None]: no page). *)
Record keeps {P D} (p : option Z) (v v' : PoolView P D) : Prop := {
  keeps_logical q y : p <> Some q -> logical v q = Some y -> logical v' q = Some y;
  keeps_frames : frames v' = frames v;
  keeps_live q : live v q -> live v' q;
  keeps_holds f q : is_Some (pins v !! q) -> holds v f q -> holds v' f q;
  keeps_synced q : p <> Some q -> synced v q -> synced v' q
}.

Definition pin_add (p : Z) (m : gmap Z Z) : gmap Z Z := <[p := default 0 (m !! p) + 1]> m.
Definition pin_sub (p n : Z) (m : gmap Z Z) : gmap Z Z := if n =? 1 then delete p m else <[p := n - 1]> m.

Class BufferPoolSpec (S P D : Type) `{!BufferPoolManager S P D} : Type := {
  pool_ok : S -> Prop;
  view : S -> PoolView P D;
  good_data : D -> Prop;
  zero_data : D;
  FetchPage_spec s p x :
    pool_ok s -> live (view s) p -> logical (view s) p = Some x ->
    match pins (view s) !! p with Some n => n < 2 ^ 31 - 1 | None => (size (pins (view s)) < frames (view s))%nat end ->
    wp (FetchPage p) (fun r s' => exists f, r = Some f /\ pool_ok s' /\ holds (view s') f p
      /\ keeps None (view s) (view s') /\ pins (view s') = pin_add p (pins (view s))
      /\ (pins (view s) !! p = None -> synced (view s') p)
      /\ (forall n, budget (view s) n -> budget (view s') n)) s;
  NewPage_spec s n :
    pool_ok s -> budget (view s) (1 + n) -> (size (pins (view s)) < frames (view s))%nat ->
    wp NewPage (fun r s' => exists p f, r = Some (p, f) /\ pool_ok s'
      /\ is_signed 32 p /\ ~ live (view s) p /\ live (view s') p /\ pins (view s) !! p = None
      /\ holds (view s') f p /\ logical (view s') p = Some zero_data
      /\ keeps (Some p) (view s) (view s') /\ pins (view s') = <[p := 1]> (pins (view s))
      /\ budget (view s') n) s;
  UnpinPage_spec s p n d :
    pool_ok s -> pins (view s) !! p = Some n -> (n = 1 -> d = true \/ synced (view s) p) ->
    wp (UnpinPage p d) (fun r s' => r = true /\ pool_ok s'
      /\ keeps None (view s) (view s') /\ pins (view s') = pin_sub p n (pins (view s))
      /\ (forall n, budget (view s) n -> budget (view s') n)) s;
  FlushPage_spec s p :
    pool_ok s -> live (view s) p ->
    wp (FlushPage p) (fun r s' => (is_Some (pins (view s) !! p) -> r = true) /\ pool_ok s'
      /\ keeps None (view s) (view s') /\ pins (view s') = pins (view s)
      /\ (forall n, budget (view s) n -> budget (view s') n)) s;
  FlushAllPages_spec s :
    pool_ok s ->
    wp FlushAllPages (fun _ s' => pool_ok s'
      /\ keeps None (view s) (view s') /\ pins (view s') = pins (view s)
      /\ (forall n, budget (view s) n -> budget (view s') n)) s;
  GetData_spec s f p x :
    pool_ok s -> holds (view s) f p -> is_Some (pins (view s) !! p) -> logical (view s) p = Some x ->
    GetData f s = Ok (x, s);
  SetData_spec s f p x :
    pool_ok s -> holds (view s) f p -> is_Some (pins (view s) !! p) -> good_data x ->
    wp (SetData f x) (fun _ s' => pool_ok s' /\ logical (view s') p = Some x
      /\ keeps (Some p) (view s) (view s') /\ pins (view s') = pins (view s)
      /\ (forall n, budget (view s) n -> budget (view s') n)) s;
  logical_good s p x : pool_ok s -> live (view s) p -> logical (view s) p = Some x -> good_data x;
  pins_live s p : pool_ok s -> is_Some (pins (view s) !! p) -> live (view s) p;
  holds_inj s f p q : pool_ok s -> holds (view s) f p -> holds (view s) f q -> p = q;
  live_page_id s p : pool_ok s -> live (view s) p -> 0 <= p < 2 ^ 31;
  (** The memory of an unpinned page is not touched before the next call. *)
  UnpinPage_read s s' f p n d r x :
    pool_ok s -> pins (view s) !! p = Some n -> (n = 1 -> d = true \/ synced (view s) p) ->
    holds (view s) f p -> logical (view s) p = Some x -> UnpinPage p d s = Ok (r, s') -> GetData f s' = Ok (x, s')
}.

(** ** Lemmas *)

Lemma keeps_refl {P D} p (v : PoolView P D) : keeps p v v.
Proof. by split. Qed.

Lemma keeps_none_trans {P D} o (v1 v2 v3 : PoolView P D) :
  keeps None v1 v2 -> pins v2 = pins v1 -> keeps o v2 v3 -> keeps o v1 v3.
Proof.
  intros [A1 A2 A3 A4 A5] Hp [B1 B2 B3 B4 B5]. split.
  - intros q y Hq Hy. by apply B1, A1.
  - congruence.
  - intros q Hq. by apply B3, A3.
  - intros f q Hq Hf. apply B4; [by rewrite Hp|by apply A4].
  - intros q Hq Hs. by apply B5, A5.
Qed.

Lemma pin_sub_add p (m : gmap Z Z) : m !! p = None -> pin_sub p 1 (pin_add p m) = m.
Proof.
  intros Hp. unfold pin_sub, pin_add. simpl. by rewrite delete_insert_id.
Qed.

Lemma pin_add_lookup p (m : gmap Z Z) : m !! p = None -> pin_add p m !! p = Some 1.
Proof. intros Hp. unfold pin_add. by rewrite Hp, lookup_insert_eq. Qed.

Lemma pin_add_lookup_ne p q (m : gmap Z Z) : p <> q -> pin_add p m !! q = m !! q.
Proof. intros. unfold pin_add. by rewrite lookup_insert_ne. Qed.

(** [keeps] without the page pointers, which is transitive. *)
Record evolves {P D} (p : option Z) (v v' : PoolView P D) : Prop := {
  ev_logical q y : p <> Some q -> logical v q = Some y -> logical v' q = Some y;
  ev_frames : frames v' = frames v;
  ev_live q : live v q -> live v' q;
  ev_synced q : p <> Some q -> synced v q -> synced v' q
}.

Lemma keeps_evolves {P D} p (v v' : PoolView P D) : keeps p v v' -> evolves p v v'.
Proof. by intros []. Qed.

Lemma evolves_refl {P D} p (v : PoolView P D) : evolves p v v.
Proof. by split. Qed.

Lemma evolves_trans {P D} p (v1 v2 v3 : PoolView P D) : evolves p v1 v2 -> evolves p v2 v3 -> evolves p v1 v3.
Proof.
  intros [A1 A2 A3 A4] [B1 B2 B3 B4]. split; [|congruence|..]; eauto.
Qed.

(** A step that changes no page is one that may change any page. *)
Lemma evolves_none {P D} p (v v' : PoolView P D) : evolves None v v' -> evolves p v v'.
Proof. intros [A1 A2 A3 A4]. split; [|done|done|]; intros; [by apply A1|by apply A4]. Qed.

(** Steps that may change the pages of a set. *)
Record evolves_in {P D} (X : gset Z) (v v' : PoolView P D) : Prop := {
  ei_logical q y : q ∉ X -> logical v q = Some y -> logical v' q = Some y;
  ei_frames : frames v' = frames v;
  ei_live q : live v q -> live v' q;
  ei_synced q : q ∉ X -> synced v q -> synced v' q
}.

Lemma evolves_in_refl {P D} X (v : PoolView P D) : evolves_in X v v.
Proof. by split. Qed.

Lemma evolves_in_trans {P D} X (v1 v2 v3 : PoolView P D) : evolves_in X v1 v2 -> evolves_in X v2 v3 -> evolves_in X v1 v3.
Proof. intros [A1 A2 A3 A4] [B1 B2 B3 B4]. split; [|congruence|..]; eauto. Qed.

Lemma keeps_evolves_in {P D} X p (v v' : PoolView P D) :
  (forall q, p = Some q -> q ∈ X) -> keeps p v v' -> evolves_in X v v'.
Proof.
  intros Hp [A1 A2 A3 A4 A5]. split; [|done|done|]; intros q; intros.
  - apply A1; [|done]. intros E. by apply Hp in E.
  - apply A5; [|done]. intros E. by apply Hp in E.
Qed.

Lemma evolves_evolves_in {P D} X p (v v' : PoolView P D) :
  (forall q, p = Some q -> q ∈ X) -> evolves p v v' -> evolves_in X v v'.
Proof.
  intros Hp [A1 A2 A3 A4]. split; [|done|done|]; intros q; intros.
  - apply A1; [|done]. intros E. by apply Hp in E.
  - apply A4; [|done]. intros E. by apply Hp in E.
Qed.

Lemma evolves_in_none {P D} X (v v' : PoolView P D) : evolves None v v' -> evolves_in X v v'.
Proof. by apply evolves_evolves_in. Qed.

(** ** One page at a time *)

Section OnePage.
Context {S P D : Type} `{!BufferPoolManager S P D} `{!BufferPoolSpec S P D}.
Implicit Types (s : S) (p : Z) (f : P).

(** Room for [n] more pins. *)
Definition room (n : nat) s : Prop := (size (pins (view s)) + n <= frames (view s))%nat.

(** Fetching a page that is not pinned. *)
Record fetched s s' f p : Prop := {
  ft_ok : pool_ok s';
  ft_holds : holds (view s') f p;
  ft_keeps : keeps None (view s) (view s');
  ft_pins : pins (view s') = <[p := 1]> (pins (view s));
  ft_synced : synced (view s') p;
  ft_budget n : budget (view s) n -> budget (view s') n
}.

Lemma fetch_run s p :
  pool_ok s -> live (view s) p -> (exists x, logical (view s) p = Some x) ->
  pins (view s) !! p = None -> room 1 s ->
  exists f s', FetchPage p s = Ok (Some f, s') /\ fetched s s' f p.
Proof.
  intros Hs Hl [x Hx] Hp Hr. assert (Hsz : (size (pins (view s)) < frames (view s))%nat) by (unfold room in Hr; lia).
  pose proof (FetchPage_spec s p x Hs Hl Hx ltac:(by rewrite Hp)) as Hf.
  apply wp_run in Hf as (r & s' & Hrun & f & -> & Hs' & Hf & Hk & Hpins & Hsy & Hb).
  exists f, s'. split; [done|]. split; try done; [|by apply Hsy].
  rewrite Hpins. unfold pin_add. by rewrite Hp.
Qed.

Lemma wp_fetch_some {C} s p (k : option P -> M S C) (Q : C -> S -> Prop) :
  pool_ok s -> live (view s) p -> (exists x, logical (view s) p = Some x) ->
  pins (view s) !! p = None -> room 1 s ->
  (forall f s', fetched s s' f p -> wp (k (Some f)) Q s') -> wp (sbind (FetchPage p) k) Q s.
Proof.
  intros Hs Hl Hx Hp Hr HQ. destruct (fetch_run s p Hs Hl Hx Hp Hr) as (f & s' & Hrun & Hf).
  unfold wp, sbind. rewrite Hrun. by apply (HQ f s').
Qed.

Lemma wp_fetch {C} s p (k : P -> M S C) (Q : C -> S -> Prop) :
  pool_ok s -> live (view s) p -> (exists x, logical (view s) p = Some x) ->
  pins (view s) !! p = None -> room 1 s ->
  (forall f s', pool_ok s' -> holds (view s') f p -> keeps None (view s) (view s') ->
     pins (view s') = <[p := 1]> (pins (view s)) -> synced (view s') p ->
     (forall n, budget (view s) n -> budget (view s') n) -> wp (k f) Q s') ->
  wp (sbind (do! r := FetchPage p in deref r) k) Q s.
Proof.
  intros Hs Hl Hx Hp Hr HQ. apply wp_bind. apply wp_fetch_some; [done..|].
  intros f s' [Ho Hf Hk Hpin Hsy Hb]. apply wp_ret. by apply HQ.
Qed.

Lemma wp_unpin {A} s p dirty (k : bool -> M S A) (Q : A -> S -> Prop) :
  pool_ok s -> pins (view s) !! p = Some 1 -> dirty = true \/ synced (view s) p ->
  (forall s', pool_ok s' -> keeps None (view s) (view s') -> pins (view s') = delete p (pins (view s)) ->
     (forall n, budget (view s) n -> budget (view s') n) -> wp (k true) Q s') ->
  wp (sbind (UnpinPage p dirty) k) Q s.
Proof.
  intros Hs Hp Hd HQ. apply wp_bind. eapply wp_mono; [by apply (UnpinPage_spec s p 1 dirty Hs Hp)|].
  simpl. intros r s' (-> & Hs' & Hk & Hpins & Hb). by apply HQ.
Qed.

(** The last pin is given back and the page read once more. *)
Lemma wp_unpin_read {A} s p f x dirty (k : bool -> M S A) (Q : A -> S -> Prop) :
  pool_ok s -> pins (view s) !! p = Some 1 -> dirty = true \/ synced (view s) p ->
  holds (view s) f p -> logical (view s) p = Some x ->
  (forall s', pool_ok s' -> keeps None (view s) (view s') -> pins (view s') = delete p (pins (view s)) ->
     (forall n, budget (view s) n -> budget (view s') n) -> GetData f s' = Ok (x, s') -> wp (k true) Q s') ->
  wp (sbind (UnpinPage p dirty) k) Q s.
Proof.
  intros Hs Hp Hd Hf Hx HQ. pose proof (UnpinPage_spec s p 1 dirty Hs Hp ltac:(done)) as Hu.
  apply wp_run in Hu as (r & s' & Hrun & -> & Hs' & Hk & Hpins & Hb).
  pose proof (UnpinPage_read s s' f p 1 dirty true x Hs Hp ltac:(done) Hf Hx Hrun) as Hg.
  unfold wp, sbind. rewrite Hrun. by apply HQ.
Qed.

(** A second pin of a page and its return. *)
Lemma wp_fetch_again {C} s p n (k : option P -> M S C) (Q : C -> S -> Prop) :
  pool_ok s -> live (view s) p -> (exists x, logical (view s) p = Some x) -> pins (view s) !! p = Some n -> n < 2 ^ 31 - 1 ->
  (forall f s', pool_ok s' -> holds (view s') f p -> keeps None (view s) (view s') ->
     pins (view s') = <[p := n + 1]> (pins (view s)) ->
     (forall n, budget (view s) n -> budget (view s') n) -> wp (k (Some f)) Q s') ->
  wp (sbind (FetchPage p) k) Q s.
Proof.
  intros Hs Hl [x Hx] Hp Hn HQ. apply wp_bind. eapply wp_mono.
  - apply (FetchPage_spec s p x Hs Hl Hx). by rewrite Hp.
  - simpl. intros r s' (f & -> & Hs' & Hf & Hk & Hpins & Hsy & Hb). apply HQ; try done.
    rewrite Hpins. unfold pin_add. by rewrite Hp.
Qed.

Lemma wp_unpin_again {A} s p n dirty (k : bool -> M S A) (Q : A -> S -> Prop) :
  pool_ok s -> pins (view s) !! p = Some n -> n <> 1 ->
  (forall s', pool_ok s' -> keeps None (view s) (view s') -> pins (view s') = <[p := n - 1]> (pins (view s)) ->
     (forall n, budget (view s) n -> budget (view s') n) -> wp (k true) Q s') ->
  wp (sbind (UnpinPage p dirty) k) Q s.
Proof.
  intros Hs Hp Hn HQ. apply wp_bind. eapply wp_mono; [by apply (UnpinPage_spec s p n dirty Hs Hp)|].
  simpl. intros r s' (-> & Hs' & Hk & Hpins & Hb). apply HQ; try done.
  rewrite Hpins. unfold pin_sub. by rewrite (proj2 (Z.eqb_neq n 1)).
Qed.
End OnePage.
