(* ===== verification/BufferPool.v ===== *)
(** The buffer pool manager instance ([src/buffer/buffer_pool_manager_instance.cpp]).

    The pool is a fixed array of frames; [page_table_] maps the resident page
    ids to frames, [free_list_] holds the frames that hold no page, and the
    replacer the frames whose page is not pinned.  The model is generic in the
    page contents [D], in the replacer [R] and in the disk [K] (their interfaces
    are [Replacer] and [Disk]).  Every method runs under [latch_], so it is one
    atomic function of the state.  A [Page*] is the index of its frame and
    [nullptr] is [None]. *)

From S2P Require Import Prelude Bytes Replacer DiskManager BufferPoolManager.

(** ** Definitions *)

(** The content [memset(data, 0, PAGE_SIZE)] leaves in a page. *)
Class PageData (D : Type) : Type := page_zero : D.

Record Page (D : Type) : Type := MkPage {
  data_ : D;
  pg_page_id_ : Z;
  pin_count_ : Z;
  is_dirty_ : bool
}.
Arguments MkPage {D} _ _ _ _.
Arguments data_ {D} _.
Arguments pg_page_id_ {D} _.
Arguments pin_count_ {D} _.
Arguments is_dirty_ {D} _.

Record BPI (D R K : Type) : Type := MkBPI {
  pool_size_ : nat;
  num_instances_ : Z;
  instance_index_ : Z;
  next_page_id_ : Z;
  pages_ : list (Page D);
  disk_manager_ : K;
  page_table_ : gmap Z Z;
  replacer_ : R;
  free_list_ : list Z
}.
Arguments MkBPI {D R K} _ _ _ _ _ _ _ _ _.
Arguments pool_size_ {D R K} _.
Arguments num_instances_ {D R K} _.
Arguments instance_index_ {D R K} _.
Arguments next_page_id_ {D R K} _.
Arguments pages_ {D R K} _.
Arguments disk_manager_ {D R K} _.
Arguments page_table_ {D R K} _.
Arguments replacer_ {D R K} _.
Arguments free_list_ {D R K} _.

Section BufferPool.
Context `{Config} {D R K : Type} `{!PageData D} `{!Replacer R} `{!Disk K D}.
Notation bpi := (BPI D R K).
Implicit Types (b : bpi) (pg : Page D).

(** Assignments to the members. *)
Definition set_next (n : Z) b : bpi :=
  MkBPI (pool_size_ b) (num_instances_ b) (instance_index_ b) n (pages_ b) (disk_manager_ b)
        (page_table_ b) (replacer_ b) (free_list_ b).
Definition set_pages (l : list (Page D)) b : bpi :=
  MkBPI (pool_size_ b) (num_instances_ b) (instance_index_ b) (next_page_id_ b) l (disk_manager_ b)
        (page_table_ b) (replacer_ b) (free_list_ b).
Definition set_disk (k : K) b : bpi :=
  MkBPI (pool_size_ b) (num_instances_ b) (instance_index_ b) (next_page_id_ b) (pages_ b) k
        (page_table_ b) (replacer_ b) (free_list_ b).
Definition set_table (t : gmap Z Z) b : bpi :=
  MkBPI (pool_size_ b) (num_instances_ b) (instance_index_ b) (next_page_id_ b) (pages_ b) (disk_manager_ b)
        t (replacer_ b) (free_list_ b).
Definition set_replacer (r : R) b : bpi :=
  MkBPI (pool_size_ b) (num_instances_ b) (instance_index_ b) (next_page_id_ b) (pages_ b) (disk_manager_ b)
        (page_table_ b) r (free_list_ b).
Definition set_free (l : list Z) b : bpi :=
  MkBPI (pool_size_ b) (num_instances_ b) (instance_index_ b) (next_page_id_ b) (pages_ b) (disk_manager_ b)
        (page_table_ b) (replacer_ b) l.

(** [pages_[frame_id].member = ...]. *)
Definition set_page (frame_id : Z) (pg : Page D) b : res bpi :=
  let! l := zupdate (pages_ b) frame_id pg in Ok (set_pages l b).

(** The constructor; [replacer] is the fresh replacer of capacity [pool_size]. *)
Definition BPI_new (pool_size : nat) (num_instances instance_index : Z) (replacer : R) (disk : K) : res bpi :=
  let! _ := assert (0 <? num_instances) in
  let! _ := assert (instance_index <? num_instances) in
  Ok (MkBPI pool_size num_instances instance_index instance_index
        (replicate pool_size (MkPage page_zero INVALID_PAGE_ID 0 false)) disk ∅ replacer
        (Z.of_nat <$> seq 0 pool_size)).

(** [FindPage]: the frame of a page, or -1. *)
Definition BPI_FindPage (page_id : Z) b : Z := default (-1) (page_table_ b !! page_id).

(** [FlushPg]: [pages_[-1]] is read when the page is not resident. *)
Definition BPI_FlushPg (page_id : Z) b : res bpi :=
  let! pg := zlookup (pages_ b) (BPI_FindPage page_id b) in
  if is_dirty_ pg then Ok (set_disk (WritePage page_id (data_ pg) (disk_manager_ b)) b) else Ok b.

Definition BPI_FindFreshPage b : res (Z * bpi) :=
  match free_list_ b with
  | frame_id :: rest => Ok (frame_id, set_free rest b)
  | [] =>
      let! '(found, frame_id, r) := Victim (replacer_ b) in
      let b := set_replacer r b in
      if negb found then Ok (-1, b) else
      let! pg := zlookup (pages_ b) frame_id in
      let page_id := pg_page_id_ pg in
      let! b := BPI_FlushPg page_id b in
      let b := set_table (delete page_id (page_table_ b)) b in
      let! b := set_page frame_id (MkPage (data_ pg) (pg_page_id_ pg) (pin_count_ pg) false) b in
      Ok (frame_id, b)
  end.

Definition BPI_ValidatePageId (page_id : Z) b : res unit :=
  if num_instances_ b =? 0 then Err DivisionByZero else
  assert (unsigned 32 page_id mod num_instances_ b =? instance_index_ b).

Definition BPI_AllocatePage b : res (Z * bpi) :=
  let next_page_id := next_page_id_ b in
  let b := set_next (signed 32 (next_page_id + num_instances_ b)) b in
  let! _ := BPI_ValidatePageId next_page_id b in
  Ok (next_page_id, b).

(** The result is [nullptr], or the new page id and the frame. *)
Definition BPI_NewPgImp b : res (option (Z * Z) * bpi) :=
  let! '(frame_id, b) := BPI_FindFreshPage b in
  if frame_id =? -1 then Ok (None, b) else
  let! '(page_id, b) := BPI_AllocatePage b in
  let! pg := zlookup (pages_ b) frame_id in
  let! pin_count := int_op (pin_count_ pg + 1) in
  let! b := set_page frame_id (MkPage page_zero page_id pin_count (is_dirty_ pg)) b in
  Ok (Some (page_id, frame_id), set_table (<[page_id := frame_id]> (page_table_ b)) b).

Definition BPI_FetchPgImp (page_id : Z) b : res (option Z * bpi) :=
  let frame_id := BPI_FindPage page_id b in
  if negb (frame_id =? -1) then
    let! r := Pin frame_id (replacer_ b) in
    let b := set_replacer r b in
    let! pg := zlookup (pages_ b) frame_id in
    let! pin_count := int_op (pin_count_ pg + 1) in
    let! b := set_page frame_id (MkPage (data_ pg) (pg_page_id_ pg) pin_count true) b in
    Ok (Some frame_id, b)
  else
    let! '(frame_id, b) := BPI_FindFreshPage b in
    if frame_id =? -1 then Ok (None, b) else
    let b := set_table (<[page_id := frame_id]> (page_table_ b)) b in
    let! r := Pin frame_id (replacer_ b) in
    let b := set_replacer r b in
    let! pg := zlookup (pages_ b) frame_id in
    let! pin_count := int_op (pin_count_ pg + 1) in
    let! data := ReadPage page_id (data_ pg) (disk_manager_ b) in
    let! b := set_page frame_id (MkPage data page_id pin_count false) b in
    Ok (Some frame_id, b).

Definition BPI_UnpinPgImp (page_id : Z) (is_dirty : bool) b : res (bool * bpi) :=
  let frame_id := BPI_FindPage page_id b in
  if frame_id =? -1 then Ok (false, b) else
  let! pg := zlookup (pages_ b) frame_id in
  if pin_count_ pg =? 0 then Ok (false, b) else
  let! b := set_page frame_id (MkPage (data_ pg) (pg_page_id_ pg) (pin_count_ pg - 1) is_dirty) b in
  if pin_count_ pg - 1 =? 0 then
    let! r := Unpin frame_id (replacer_ b) in
    let! b := BPI_FlushPg page_id (set_replacer r b) in
    Ok (true, b)
  else Ok (true, b).

Definition BPI_FlushPgImp (page_id : Z) b : res (bool * bpi) :=
  match page_table_ b !! page_id with
  | None => Ok (false, b)
  | Some frame_id =>
      let! b := BPI_FlushPg page_id b in
      let! pg := zlookup (pages_ b) frame_id in
      let! b := set_page frame_id (MkPage (data_ pg) (pg_page_id_ pg) (pin_count_ pg) false) b in
      Ok (true, b)
  end.

(** [FlushPgImp] for every key of the page table, in the table's order. *)
Definition BPI_FlushAllPgsImp b : res bpi :=
  foldl (fun acc p => let! b := acc in let! '(_, b) := BPI_FlushPgImp p b in Ok b)
        (Ok b) (map_to_list (page_table_ b)).*1.

Definition BPI_DeletePgImp (page_id : Z) b : res (bool * bpi) :=
  let frame_id := BPI_FindPage page_id b in
  if frame_id =? -1 then Ok (true, b) else
  let! pg := zlookup (pages_ b) frame_id in
  if negb (pin_count_ pg =? 0) then Ok (false, b) else
  let b := set_table (delete page_id (page_table_ b)) b in
  let! b := set_page frame_id (MkPage page_zero INVALID_PAGE_ID (pin_count_ pg) false) b in
  Ok (true, set_free (free_list_ b ++ [frame_id]) b).

(** Reading and writing a page's data through a [Page*]. *)
Definition BPI_GetData (frame_id : Z) b : res D :=
  let! pg := zlookup (pages_ b) frame_id in Ok (data_ pg).
Definition BPI_SetData (frame_id : Z) (x : D) b : res bpi :=
  let! pg := zlookup (pages_ b) frame_id in
  set_page frame_id (MkPage x (pg_page_id_ pg) (pin_count_ pg) (is_dirty_ pg)) b.
End BufferPool.

(** ** The invariant and the abstraction *)

Section Invariant.
Context `{Config} {D R K : Type} `{!PageData D} `{!Replacer R} `{!Disk K D}.
Context `{!ReplacerSpec R} `{!DiskSpec K D}.
Notation bpi := (BPI D R K).
Implicit Types (b : bpi) (pg : Page D).

Definition frame b (f : Z) pg : Prop := zlookup (pages_ b) f = Ok pg.

(** The page ids this instance has handed out, all of which the disk can
    address. *)
Definition allocated b (p : Z) : Prop :=
  0 <= p < next_page_id_ b /\ p mod num_instances_ b = instance_index_ b /\ page_ok p.

(** [out] is a frame that an operation in progress has taken and not yet put
    back; it is [None] between operations. *)
Record pool_inv (out : option Z) b : Prop := {
  inv_len : length (pages_ b) = pool_size_ b;
  inv_rep : replacer_ok (replacer_ b);
  inv_cap : capacity (replacer_ b) = Z.of_nat (pool_size_ b);
  inv_disk : disk_ok (disk_manager_ b);
  inv_data f pg : frame b f pg -> data_ok (data_ pg);
  inv_table p f : page_table_ b !! p = Some f ->
    allocated b p /\ exists pg, frame b f pg /\ pg_page_id_ pg = p /\ 0 <= pin_count_ pg
      /\ (pin_count_ pg = 0 -> f ∈ evictable (replacer_ b) /\ stored (disk_manager_ b) p = Some (data_ pg));
  inv_evict f : f ∈ evictable (replacer_ b) ->
    exists p pg, page_table_ b !! p = Some f /\ frame b f pg /\ pin_count_ pg = 0;
  inv_free_nodup : NoDup (free_list_ b);
  inv_free f : f ∈ free_list_ b \/ out = Some f ->
    (exists pg, frame b f pg /\ pin_count_ pg = 0 /\ is_dirty_ pg = false)
    /\ (forall p, page_table_ b !! p <> Some f);
  inv_out f : out = Some f -> f ∉ free_list_ b;
  inv_cover f : 0 <= f < Z.of_nat (pool_size_ b) ->
    f ∈ free_list_ b \/ out = Some f \/ exists p, page_table_ b !! p = Some f;
  inv_num : 0 < num_instances_ b < 2 ^ 31 /\ 0 <= instance_index_ b < num_instances_ b;
  inv_next : 0 <= next_page_id_ b < 2 ^ 31 /\ next_page_id_ b mod num_instances_ b = instance_index_ b
}.

(** The store of pages the pool presents: the frame of a resident page, the
    disk copy of any other. *)
Definition pool_logical b (p : Z) : option D :=
  match page_table_ b !! p with
  | Some f => match zlookup (pages_ b) f with Ok pg => Some (data_ pg) | Err _ => None end
  | None => stored (disk_manager_ b) p
  end.

Definition pool_pins b : gmap Z Z :=
  omap (fun f => match zlookup (pages_ b) f with
                 | Ok pg => if decide (0 < pin_count_ pg) then Some (pin_count_ pg) else None
                 | Err _ => None end) (page_table_ b).

Definition pool_synced b (p : Z) : Prop :=
  exists x, pool_logical b p = Some x /\ stored (disk_manager_ b) p = Some x.

(** [n] more pages can be allocated within the addressable disk. *)
Definition pool_budget b (n : nat) : Prop :=
  next_page_id_ b + Z.of_nat n * num_instances_ b < 2 ^ 31
  /\ forall i, (i < n)%nat -> page_ok (next_page_id_ b + Z.of_nat i * num_instances_ b).

Definition pool_view b : PoolView Z D :=
  MkView (pool_logical b) (pool_pins b) (pool_size_ b) (allocated b)
         (fun f p => page_table_ b !! p = Some f) (pool_synced b) (pool_budget b).

(** *** Basic facts *)

Lemma allocated_mono b b' q :
  next_page_id_ b <= next_page_id_ b' -> num_instances_ b' = num_instances_ b ->
  instance_index_ b' = instance_index_ b -> allocated b q -> allocated b' q.
Proof. intros Hn Hu Hx (H1 & H2 & H3). unfold allocated. rewrite Hu, Hx. split_and!; [lia|lia|done|done]. Qed.

Lemma frame_inj b f pg pg' : frame b f pg -> frame b f pg' -> pg = pg'.
Proof. unfold frame. congruence. Qed.

Lemma frame_range b out f pg : pool_inv out b -> frame b f pg -> 0 <= f < Z.of_nat (pool_size_ b).
Proof. intros Hi [? ?%lookup_lt_Some]%zlookup_ok. rewrite (inv_len _ _ Hi) in *. lia. Qed.

Lemma table_frame b out p f :
  pool_inv out b -> page_table_ b !! p = Some f ->
  exists pg, frame b f pg /\ pg_page_id_ pg = p /\ 0 <= pin_count_ pg.
Proof. intros Hi Hp. destruct (inv_table _ _ Hi p f Hp) as (_ & pg & ? & ? & ? & _). by exists pg. Qed.

Lemma table_inj b out p q f :
  pool_inv out b -> page_table_ b !! p = Some f -> page_table_ b !! q = Some f -> p = q.
Proof.
  intros Hi Hp Hq. destruct (table_frame _ _ _ _ Hi Hp) as (pg & Hf & <- & _).
  destruct (table_frame _ _ _ _ Hi Hq) as (pg' & Hf' & <- & _). by rewrite (frame_inj _ _ _ _ Hf Hf').
Qed.

Lemma pool_logical_table b p f pg :
  page_table_ b !! p = Some f -> frame b f pg -> pool_logical b p = Some (data_ pg).
Proof. intros Hp Hf. unfold pool_logical. by rewrite Hp, Hf. Qed.

Lemma pool_pins_lookup b p n :
  pool_pins b !! p = Some n <->
  exists f pg, page_table_ b !! p = Some f /\ frame b f pg /\ pin_count_ pg = n /\ 0 < n.
Proof.
  unfold pool_pins, frame. rewrite lookup_omap, bind_Some. split.
  - intros (f & Hp & Hf). destruct (zlookup (pages_ b) f) as [pg|] eqn:E; [|done].
    case_decide; simplify_eq. by exists f, pg.
  - intros (f & pg & Hp & Hf & <- & Hn). exists f. rewrite Hp, Hf. by rewrite decide_True.
Qed.

(** Pin counts agree when the page tables do and every resident frame keeps
    its count. *)
Lemma pool_pins_ext b b' :
  (forall p n, (exists f pg, page_table_ b !! p = Some f /\ frame b f pg /\ pin_count_ pg = n /\ 0 < n)
            <-> (exists f pg, page_table_ b' !! p = Some f /\ frame b' f pg /\ pin_count_ pg = n /\ 0 < n)) ->
  pool_pins b' = pool_pins b.
Proof. intros Hx. apply map_eq. intros p. apply option_eq. intros n. by rewrite !pool_pins_lookup, Hx. Qed.

Lemma FindPage_some b out p f :
  pool_inv out b -> page_table_ b !! p = Some f -> BPI_FindPage p b = f /\ f <> -1.
Proof.
  intros Hi Hp. unfold BPI_FindPage. rewrite Hp. split; [done|].
  destruct (table_frame _ _ _ _ Hi Hp) as (pg & Hf & _). pose proof (frame_range _ _ _ _ Hi Hf). simpl. lia.
Qed.

Lemma FindPage_none b p : page_table_ b !! p = None -> BPI_FindPage p b = -1.
Proof. intros Hp. unfold BPI_FindPage. by rewrite Hp. Qed.

Lemma frame_set_pages b f pg g x y :
  frame b f pg ->
  frame (set_pages (<[Z.to_nat f := x]> (pages_ b)) b) g y <-> (if decide (f = g) then y = x else frame b g y).
Proof.
  intros [? ?%lookup_lt_Some]%zlookup_ok. unfold frame. simpl. rewrite zlookup_insert by lia.
  case_decide; naive_solver.
Qed.

Lemma set_page_ok b f pg x :
  frame b f pg -> set_page f x b = Ok (set_pages (<[Z.to_nat f := x]> (pages_ b)) b).
Proof. intros [? ?%lookup_lt_Some]%zlookup_ok. unfold set_page. by rewrite zupdate_ok by lia. Qed.

(** *** Updating the frame of a resident page *)

Definition update_frame (f : Z) pg' (r' : R) b : bpi :=
  set_pages (<[Z.to_nat f := pg']> (pages_ b)) (set_replacer r' b).

Lemma frame_update b f pg pg' r' g y :
  frame b f pg ->
  frame (update_frame f pg' r' b) g y <-> (if decide (f = g) then y = pg' else frame b g y).
Proof. apply (frame_set_pages (set_replacer r' b)). Qed.

Section Update.
Context b (out : option Z) (p f : Z) pg pg' (r' : R).
Hypothesis Hi : pool_inv out b.
Hypothesis Hp : page_table_ b !! p = Some f.
Hypothesis Hf : frame b f pg.
Notation b' := (update_frame f pg' r' b).

Lemma update_frame_inv :
  pg_page_id_ pg' = p -> 0 <= pin_count_ pg' -> data_ok (data_ pg') ->
  replacer_ok r' -> capacity r' = capacity (replacer_ b) ->
  (forall g, g ∈ evictable r' <-> if decide (f = g) then pin_count_ pg' = 0 else g ∈ evictable (replacer_ b)) ->
  (pin_count_ pg' = 0 -> stored (disk_manager_ b) p = Some (data_ pg')) ->
  pool_inv out b'.
Proof.
  intros Hid Hpin Hd Hr Hc He Hs. split; simpl.
  - rewrite length_insert. apply (inv_len _ _ Hi).
  - done.
  - rewrite Hc. apply (inv_cap _ _ Hi).
  - apply (inv_disk _ _ Hi).
  - intros g y Hy. apply (frame_update _ _ _ _ _ _ _ Hf) in Hy. case_decide; subst; [done|].
    by eapply (inv_data _ _ Hi).
  - intros q g Hq. destruct (inv_table _ _ Hi q g Hq) as (Ha & x & Hx & Hxid & Hxpin & Hx0).
    split; [done|]. destruct (decide (f = g)) as [<-|Hne].
    + rewrite (table_inj _ _ _ _ _ Hi Hq Hp). exists pg'. split_and!; [|done|done|].
      * apply (frame_update _ _ _ _ _ _ _ Hf). by rewrite decide_True.
      * intros H0. split; [|by apply Hs]. apply He. by rewrite decide_True.
    + exists x. split_and!; [|done|done|].
      * apply (frame_update _ _ _ _ _ _ _ Hf). by rewrite decide_False.
      * intros H0. split; [|by apply Hx0]. apply He. rewrite decide_False by done. by apply Hx0.
  - intros g Hg. apply He in Hg. case_decide as Hfg; subst.
    + exists (pg_page_id_ pg'), pg'. split_and!; [done| |done].
      apply (frame_update _ _ _ _ _ _ _ Hf). by rewrite decide_True.
    + destruct (inv_evict _ _ Hi g Hg) as (q & x & Hq & Hx & H0). exists q, x. split_and!; [done| |done].
      apply (frame_update _ _ _ _ _ _ _ Hf). by rewrite decide_False.
  - apply (inv_free_nodup _ _ Hi).
  - intros g Hg. destruct (inv_free _ _ Hi g Hg) as ((x & Hx & Hx0 & Hxd) & Hn). split; [|done].
    exists x. split_and!; [|done|done]. apply (frame_update _ _ _ _ _ _ _ Hf).
    rewrite decide_False; [done|]. intros ->. by apply (Hn p).
  - apply (inv_out _ _ Hi).
  - apply (inv_cover _ _ Hi).
  - apply (inv_num _ _ Hi).
  - apply (inv_next _ _ Hi).
Qed.

Lemma update_frame_logical q :
  pool_logical b' q = if decide (q = p) then Some (data_ pg') else pool_logical b q.
Proof.
  unfold pool_logical. simpl. case_decide as Hq; subst.
  - rewrite Hp. pose proof (proj2 (frame_update b f pg pg' r' f pg' Hf)) as Hx.
    rewrite decide_True in Hx by done. specialize (Hx eq_refl). unfold frame in Hx. simpl in Hx.
    by rewrite Hx.
  - destruct (page_table_ b !! q) as [g|] eqn:Hg; [|done].
    assert (f <> g) by (intros <-; by apply Hq, (table_inj _ _ _ _ _ Hi Hg Hp)).
    pose proof Hf as [? ?%lookup_lt_Some]%zlookup_ok.
    rewrite zlookup_insert by lia. by rewrite decide_False.
Qed.

Lemma update_frame_pins :
  pool_pins b' = if decide (0 < pin_count_ pg') then <[p := pin_count_ pg']> (pool_pins b)
                 else delete p (pool_pins b).
Proof.
  apply map_eq. intros q. apply option_eq. intros n. rewrite pool_pins_lookup.
  destruct (decide (q = p)) as [->|Hq].
  - assert (Heq : (exists f0 pg0, page_table_ b' !! p = Some f0 /\ frame b' f0 pg0 /\ pin_count_ pg0 = n /\ 0 < n)
      <-> pin_count_ pg' = n /\ 0 < n).
    { simpl. rewrite Hp. split.
      - intros (g & x & [= <-] & Hx & H1). apply (frame_update _ _ _ _ _ _ _ Hf) in Hx.
        rewrite decide_True in Hx by done. by subst.
      - intros Hn. exists f, pg'. split_and!; [done| |naive_solver..].
        apply (frame_update _ _ _ _ _ _ _ Hf). by rewrite decide_True. }
    rewrite Heq. case_decide; [rewrite lookup_insert_eq|rewrite lookup_delete_eq]; naive_solver lia.
  - assert (Hl : (if decide (0 < pin_count_ pg') then <[p := pin_count_ pg']> (pool_pins b)
                 else delete p (pool_pins b)) !! q = pool_pins b !! q).
    { case_decide; [by rewrite lookup_insert_ne|by rewrite lookup_delete_ne]. }
    rewrite Hl, pool_pins_lookup. simpl. split; intros (g & x & Hg & Hx & H1); exists g, x;
      (split; [done|]); (assert (f <> g) by (intros <-; by apply Hq, (table_inj _ _ _ _ _ Hi Hg Hp)));
      (split; [|done]).
    + apply (frame_update _ _ _ _ _ _ _ Hf) in Hx. by rewrite decide_False in Hx.
    + apply (frame_update _ _ _ _ _ _ _ Hf). by rewrite decide_False.
Qed.
End Update.

(** *** Writing a resident page to disk *)

Definition write_back (p : Z) pg b : bpi := set_disk (WritePage p (data_ pg) (disk_manager_ b)) b.

Lemma write_back_stored b out p f pg q x :
  pool_inv out b -> page_table_ b !! p = Some f -> frame b f pg ->
  (q = p -> x = data_ pg) -> stored (disk_manager_ b) q = Some x ->
  stored (disk_manager_ (write_back p pg b)) q = Some x.
Proof.
  intros Hi Hp Hf Hq Hx. destruct (inv_table _ _ Hi p f Hp) as ((_ & _ & Hok) & _).
  simpl. destruct (decide (q = p)) as [->|Hne].
  - rewrite Hq by done. apply WritePage_same; [apply (inv_disk _ _ Hi)|done|by eapply (inv_data _ _ Hi)].
  - apply WritePage_other; [apply (inv_disk _ _ Hi)|done|by eapply (inv_data _ _ Hi)|done|done].
Qed.

Lemma write_back_inv b out p f pg :
  pool_inv out b -> page_table_ b !! p = Some f -> frame b f pg -> pool_inv out (write_back p pg b).
Proof.
  intros Hi Hp Hf. destruct (inv_table _ _ Hi p f Hp) as ((_ & _ & Hok) & _).
  pose proof Hi as []. split; try done.
  - apply WritePage_ok; [done|done|]. by eapply inv_data0.
  - intros q g Hq. change (page_table_ b !! q = Some g) in Hq.
    destruct (inv_table0 q g Hq) as (Ha & x & Hx & Hid & Hpin & H0).
    split; [done|]. exists x. split_and!; [done..|]. intros Hz. split; [by apply H0|].
    apply (write_back_stored _ _ _ _ _ _ _ Hi Hp Hf); [|by apply H0].
    intros ->. assert (g = f) as -> by congruence. f_equal. by eapply frame_inj.
Qed.

Lemma write_back_logical b out p f pg q y :
  pool_inv out b -> page_table_ b !! p = Some f -> frame b f pg ->
  pool_logical b q = Some y -> pool_logical (write_back p pg b) q = Some y.
Proof.
  intros Hi Hp Hf. unfold pool_logical. cbn [page_table_ pages_ write_back set_disk].
  destruct (page_table_ b !! q) as [g|] eqn:Hq; [done|]. intros Hy.
  apply (write_back_stored _ _ _ _ _ _ _ Hi Hp Hf); [|done]. intros ->. congruence.
Qed.
(** *** Taking a frame: [FindFreshPage] *)

(** Nothing a client can see of the pages changes between [b] and [b']; pages
    that are not pinned may leave the page table. *)
Record detached b b' : Prop := {
  det_next : next_page_id_ b' = next_page_id_ b;
  det_num : num_instances_ b' = num_instances_ b;
  det_idx : instance_index_ b' = instance_index_ b;
  det_size : pool_size_ b' = pool_size_ b;
  det_logical q y : pool_logical b q = Some y -> pool_logical b' q = Some y;
  det_pins : pool_pins b' = pool_pins b;
  det_table q : is_Some (pool_pins b !! q) -> page_table_ b' !! q = page_table_ b !! q;
  det_sub q g : page_table_ b' !! q = Some g -> page_table_ b !! q = Some g;
  det_synced q : pool_synced b q -> pool_synced b' q
}.

Lemma pool_pins_table b q n :
  pool_pins b !! q = Some n -> is_Some (page_table_ b !! q).
Proof. intros (f & pg & Hf & _)%pool_pins_lookup. by exists f. Qed.

Definition detach (p f : Z) pg (r' : R) b : bpi :=
  set_pages (<[Z.to_nat f := MkPage (data_ pg) (pg_page_id_ pg) (pin_count_ pg) false]> (pages_ b))
    (set_table (delete p (page_table_ b)) (set_replacer r' b)).

Section Detach.
Context b (p f : Z) pg (r' : R).
Hypothesis Hi : pool_inv None b.
Hypothesis Hp : page_table_ b !! p = Some f.
Hypothesis Hf : frame b f pg.
Hypothesis Hpin : pin_count_ pg = 0.
Notation b' := (detach p f pg r' b).

Lemma frame_detach g y :
  frame b' g y <-> if decide (f = g) then y = MkPage (data_ pg) (pg_page_id_ pg) (pin_count_ pg) false
                   else frame b g y.
Proof. exact (frame_set_pages (set_table (delete p (page_table_ b)) (set_replacer r' b)) f pg g _ y Hf). Qed.

Lemma detach_other q g : page_table_ b' !! q = Some g -> page_table_ b !! q = Some g /\ q <> p /\ f <> g.
Proof.
  simpl. intros [Hne Hq]%lookup_delete_Some. split_and!; [done|done|].
  intros <-. by apply Hne, (table_inj _ _ _ _ _ Hi Hp).
Qed.

Lemma detach_inv :
  replacer_ok r' -> capacity r' = capacity (replacer_ b) ->
  (forall g, g ∈ evictable r' <-> g <> f /\ g ∈ evictable (replacer_ b)) ->
  pool_inv (Some f) b'.
Proof.
  intros Hr Hc He. split; try (simpl; apply Hi).
  - simpl. rewrite length_insert. apply (inv_len _ _ Hi).
  - done.
  - simpl. rewrite Hc. apply (inv_cap _ _ Hi).
  - intros g y Hy. apply frame_detach in Hy. case_decide; subst; simpl; by eapply (inv_data _ _ Hi).
  - intros q g Hq. apply detach_other in Hq as (Hq & Hqp & Hg).
    destruct (inv_table _ _ Hi q g Hq) as (Ha & x & Hx & ? & ? & H0). split; [done|].
    exists x. split_and!; [apply frame_detach; by rewrite decide_False|done..|].
    intros Hz. split; [|by apply H0]. apply He. split; [done|by apply H0].
  - intros g [Hne Hg]%He. destruct (inv_evict _ _ Hi g Hg) as (q & x & Hq & Hx & H0).
    exists q, x. split_and!; [|apply frame_detach; by rewrite decide_False by done|done].
    simpl. rewrite lookup_delete_ne; [done|]. intros <-. congruence.
  - intros g [Hg|[= <-]].
    + destruct (inv_free _ _ Hi g (or_introl Hg)) as ((x & Hx & ? & ?) & Hn).
      split; [|intros q Hq; apply detach_other in Hq as (Hq & _); by apply (Hn q)].
      exists x. split_and!; [|done|done]. apply frame_detach. rewrite decide_False; [done|].
      intros <-. by apply (Hn p).
    + split; [|intros q Hq; by apply detach_other in Hq as (_ & _ & ?)].
      eexists. split_and!; [apply frame_detach; by rewrite decide_True|done|done].
  - intros g [= <-] Hg. destruct (inv_free _ _ Hi f (or_introl Hg)) as (_ & Hn). by apply (Hn p).
  - intros g Hg. destruct (inv_cover _ _ Hi g Hg) as [?|[?|[q Hq]]]; [by left|done|].
    destruct (decide (f = g)) as [<-|Hne]; [by right; left|].
    right; right. exists q. simpl. rewrite lookup_delete_ne; [done|]. intros <-. congruence.
Qed.

Lemma detach_view :
  stored (disk_manager_ b) p = Some (data_ pg) -> detached b b'.
Proof.
  intros Hs.
  assert (Hlog : forall q y, pool_logical b q = Some y -> pool_logical b' q = Some y).
  { intros q y. destruct (decide (q = p)) as [->|Hne].
    - rewrite (pool_logical_table _ _ _ _ Hp Hf). intros [= <-].
      unfold pool_logical. simpl. by rewrite lookup_delete_eq.
    - unfold pool_logical. simpl. rewrite lookup_delete_ne by done.
      destruct (page_table_ b !! q) as [g|] eqn:Hq; [|done].
      assert (f <> g) by (intros <-; by apply Hne, (table_inj _ _ _ _ _ Hi Hq Hp)).
      destruct (table_frame _ _ _ _ Hi Hq) as (x & Hx & _).
      assert (Hx' : frame b' g x) by (apply frame_detach; by rewrite decide_False).
      unfold frame in Hx, Hx'. simpl in Hx'. by rewrite Hx, Hx'. }
  split; try done.
  - apply pool_pins_ext. intros q n. split.
    + intros (g & x & Hq & Hx & Hn & H0). exists g, x.
      assert (f <> g) by (intros <-; pose proof (frame_inj _ _ _ _ Hf Hx); subst; lia).
      split_and!; [|apply frame_detach; by rewrite decide_False|done|done].
      simpl. rewrite lookup_delete_ne; [done|]. intros <-. congruence.
    + intros (g & x & (Hq & _ & Hg)%detach_other & Hx & Hn). exists g, x. split; [done|]. split; [|done].
      apply frame_detach in Hx. by rewrite decide_False in Hx.
  - intros q [n (g & x & Hq & Hx & Hn & H0)%pool_pins_lookup]. simpl.
    rewrite lookup_delete_ne; [done|]. intros <-.
    assert (f = g) as <- by congruence. pose proof (frame_inj _ _ _ _ Hf Hx). subst. lia.
  - intros q g Hq. by apply detach_other in Hq as [? _].
  - intros q (x & Hx & Hst). exists x. split; [by apply Hlog|done].
Qed.
End Detach.

Lemma write_back_detached b p f pg :
  pool_inv None b -> page_table_ b !! p = Some f -> frame b f pg -> detached b (write_back p pg b).
Proof.
  intros Hi Hp Hf. split; try done.
  - intros q y. exact (write_back_logical _ _ _ _ _ q y Hi Hp Hf).
  - intros q (x & Hx & Hs). exists x. split; [exact (write_back_logical _ _ _ _ _ q x Hi Hp Hf Hx)|].
    apply (write_back_stored _ _ _ _ _ _ _ Hi Hp Hf); [|exact Hs]. intros ->.
    rewrite (pool_logical_table _ _ _ _ Hp Hf) in Hx. congruence.
Qed.

Lemma detached_trans b1 b2 b3 : detached b1 b2 -> detached b2 b3 -> detached b1 b3.
Proof.
  intros H1 H2. split.
  - by rewrite (det_next _ _ H2), (det_next _ _ H1).
  - by rewrite (det_num _ _ H2), (det_num _ _ H1).
  - by rewrite (det_idx _ _ H2), (det_idx _ _ H1).
  - by rewrite (det_size _ _ H2), (det_size _ _ H1).
  - intros q y Hq. by apply (det_logical _ _ H2), (det_logical _ _ H1).
  - by rewrite (det_pins _ _ H2), (det_pins _ _ H1).
  - intros q Hq. rewrite (det_table _ _ H2), (det_table _ _ H1); [done|done|by rewrite (det_pins _ _ H1)].
  - intros q g Hq. by apply (det_sub _ _ H1), (det_sub _ _ H2).
  - intros q Hq. by apply (det_synced _ _ H2), (det_synced _ _ H1).
Qed.

Lemma take_free_inv b f rest :
  pool_inv None b -> free_list_ b = f :: rest -> pool_inv (Some f) (set_free rest b).
Proof.
  intros Hi Hl. pose proof (inv_free_nodup _ _ Hi) as Hn. rewrite Hl in Hn.
  apply NoDup_cons in Hn as [Hnf Hn].
  split; try (simpl; apply Hi); try done.
  - intros g [Hg|[= <-]]; apply (inv_free _ _ Hi); left; rewrite Hl; simpl in *; set_solver.
  - by intros g [= <-].
  - intros g Hg. destruct (inv_cover _ _ Hi g Hg) as [Hx|[?|?]]; [|done|by right; right].
    rewrite Hl in Hx. simpl. set_solver.
Qed.

(** The frames are as many as the pinned pages when none can be taken. *)
Lemma pool_full b :
  pool_inv None b -> free_list_ b = [] -> evictable (replacer_ b) = [] ->
  (pool_size_ b <= size (pool_pins b))%nat.
Proof.
  intros Hi Hl He. 
  set (L := (fun p => default 0 (page_table_ b !! p)) <$> (map_to_list (pool_pins b)).*1).
  assert (Hsub : seqZ 0 (Z.of_nat (pool_size_ b)) ⊆+ L).
  { apply NoDup_submseteq; [apply NoDup_seqZ|]. intros f Hf%elem_of_seqZ.
    destruct (inv_cover _ _ Hi f) as [Hx|[?|[p Hp]]]; [lia|rewrite Hl in Hx; set_solver|done|].
    destruct (inv_table _ _ Hi p f Hp) as (_ & pg & Hx & _ & Hpin & H0).
    apply list_elem_of_fmap. exists p. split; [by rewrite Hp|].
    apply list_elem_of_fmap. exists (p, pin_count_ pg). split; [done|].
    apply elem_of_map_to_list, pool_pins_lookup. exists f, pg. split_and!; [done..|].
    destruct (decide (pin_count_ pg = 0)) as [Hz|]; [|lia].
    apply H0 in Hz as [Hz _]. rewrite He in Hz. set_solver. }
  apply submseteq_length in Hsub. rewrite length_seqZ, Nat2Z.id in Hsub.
  etransitivity; [exact Hsub|]. unfold L. by rewrite !length_fmap, length_map_to_list.
Qed.

Lemma take_free_detached b rest : detached b (set_free rest b).
Proof. split; done. Qed.

Lemma FlushPg_resident b b0 out p f pg :
  pool_inv out b -> page_table_ b !! p = Some f -> frame b f pg ->
  page_table_ b0 = page_table_ b -> pages_ b0 = pages_ b -> disk_manager_ b0 = disk_manager_ b ->
  BPI_FlushPg p b0 = Ok (if is_dirty_ pg then write_back p pg b0 else b0).
Proof.
  intros Hi Hp Hf Ht Hpg Hd. unfold BPI_FlushPg, BPI_FindPage. rewrite Ht, Hp, Hpg. simpl.
  unfold frame in Hf. rewrite Hf. simpl. by destruct (is_dirty_ pg).
Qed.

(** With nothing free and nothing evictable there is no frame to take. *)
Lemma FindFreshPage_none b :
  pool_inv None b -> free_list_ b = [] -> evictable (replacer_ b) = [] ->
  BPI_FindFreshPage b = Ok (-1, b).
Proof.
  intros Hi Hl He. unfold BPI_FindFreshPage. rewrite Hl, Victim_none by (done || apply Hi).
  simpl. by destruct b.
Qed.

Lemma FindFreshPage_some b :
  pool_inv None b -> free_list_ b <> [] \/ evictable (replacer_ b) <> [] ->
  exists f b', BPI_FindFreshPage b = Ok (f, b') /\ f <> -1 /\ pool_inv (Some f) b' /\ detached b b'.
Proof.
  intros Hi Hroom. unfold BPI_FindFreshPage.
  destruct (free_list_ b) as [|f rest] eqn:Hl.
  - destruct (evictable (replacer_ b)) as [|f q _] eqn:He using rev_ind; [by destruct Hroom|].
    destruct (Victim_some (replacer_ b) q f (inv_rep _ _ Hi) He) as (r' & -> & Hr' & Hq & Hc).
    cbn [rbind negb].
    destruct (inv_evict _ _ Hi f) as (p & pg & Hp & Hf & Hpin); [rewrite He; set_solver|].
    pose proof (evictable_nodup _ (inv_rep _ _ Hi)) as Hnd. rewrite He in Hnd.
    destruct (inv_table _ _ Hi p f Hp) as (_ & pg0 & Hf0 & Hid & _ & H0).
    pose proof (frame_inj _ _ _ _ Hf Hf0) as <-. destruct (H0 Hpin) as [_ Hst].
    change (pages_ (set_replacer r' b)) with (pages_ b).
    pose proof Hf as Hf1. unfold frame in Hf1. rewrite Hf1. cbn [rbind]. rewrite Hid.
    rewrite (FlushPg_resident b _ None p f pg Hi Hp Hf) by done. cbn [rbind].
    set (bw := if is_dirty_ pg then write_back p pg b else b).
    assert (Hbw : pool_inv None bw /\ detached b bw /\ page_table_ bw = page_table_ b
                  /\ pages_ bw = pages_ b /\ replacer_ bw = replacer_ b
                  /\ stored (disk_manager_ bw) p = Some (data_ pg)).
    { unfold bw. destruct (is_dirty_ pg); [|by split_and!].
      split_and!; [by eapply write_back_inv|by eapply write_back_detached|done..|].
      by apply (write_back_stored _ _ _ _ _ _ _ Hi Hp Hf). }
    destruct Hbw as (Hiw & Hdw & Htw & Hpw & Hrw & Hsw).
    assert (Hpw' : page_table_ bw !! p = Some f) by by rewrite Htw.
    assert (Hfw : frame bw f pg) by (unfold frame; by rewrite Hpw).
    exists f, (detach p f pg r' bw). split_and!.
    + replace (if is_dirty_ pg then write_back p pg (set_replacer r' b) else set_replacer r' b)
        with (set_replacer r' bw) by (unfold bw; by destruct (is_dirty_ pg)).
      cbv zeta. erewrite set_page_ok by exact Hfw. cbn [rbind]. unfold detach. by rewrite Hid.
    + pose proof (frame_range _ _ _ _ Hi Hf). lia.
    + eapply detach_inv; [done..|by rewrite Hrw|]. intros g. rewrite Hrw, He, Hq.
      apply NoDup_app in Hnd as (_ & Hnd & _). set_solver.
    + eapply detached_trans; [exact Hdw|]. eapply detach_view; done.
  - exists f, (set_free rest b). split_and!; [done| |by apply take_free_inv|done].
    destruct (inv_free _ _ Hi f) as ((pg & Hf & _) & _); [left; rewrite Hl; set_solver|].
    pose proof (frame_range _ _ _ _ Hi Hf). lia.
Qed.

Lemma pool_room b :
  pool_inv None b -> (size (pool_pins b) < pool_size_ b)%nat ->
  free_list_ b <> [] \/ evictable (replacer_ b) <> [].
Proof.
  intros Hi Hs. destruct (free_list_ b) eqn:Hl; [|by left].
  destruct (evictable (replacer_ b)) eqn:He; [|by right].
  pose proof (pool_full b Hi Hl He). lia.
Qed.

(** *** Putting a page into a taken frame *)

Definition attach (p f : Z) (x : D) (d : bool) (n : Z) (r' : R) b : bpi :=
  set_pages (<[Z.to_nat f := MkPage x p 1 d]> (pages_ b))
    (set_table (<[p := f]> (page_table_ b)) (set_replacer r' (set_next n b))).

Section Attach.
Context b (p f : Z) (x : D) (d : bool) (n : Z) pg (r' : R).
Hypothesis Hi : pool_inv (Some f) b.
Hypothesis Hp : page_table_ b !! p = None.
Hypothesis Hf : frame b f pg.
Notation b' := (attach p f x d n r' b).

Lemma frame_attach g y :
  frame b' g y <-> if decide (f = g) then y = MkPage x p 1 d else frame b g y.
Proof.
  exact (frame_set_pages (set_table (<[p := f]> (page_table_ b)) (set_replacer r' (set_next n b)))
           f pg g _ y Hf).
Qed.

Lemma attach_other q g : page_table_ b !! q = Some g -> q <> p /\ f <> g.
Proof.
  intros Hq. split; [intros ->; congruence|]. intros <-.
  destruct (inv_free _ _ Hi f (or_intror eq_refl)) as (_ & Hn). by apply (Hn q).
Qed.

Lemma attach_lookup q g :
  page_table_ b' !! q = Some g <-> (q = p /\ g = f) \/ page_table_ b !! q = Some g.
Proof.
  simpl. rewrite lookup_insert_Some. split; [naive_solver|].
  intros [[-> ->]|Hq]; [by left|]. right. split; [|done]. intros <-. congruence.
Qed.

Lemma attach_inv :
  next_page_id_ b <= n < 2 ^ 31 -> n mod num_instances_ b = instance_index_ b ->
  0 <= p < n -> p mod num_instances_ b = instance_index_ b -> page_ok p -> data_ok x ->
  replacer_ok r' -> capacity r' = capacity (replacer_ b) ->
  (forall g, g ∈ evictable r' <-> g ∈ evictable (replacer_ b)) ->
  pool_inv None b'.
Proof.
  intros Hn1 Hn2 Hp1 Hp2 Hp3 Hx Hr Hc He. split; try (simpl; apply Hi); try done.
  - simpl. rewrite length_insert. apply (inv_len _ _ Hi).
  - simpl. rewrite Hc. apply (inv_cap _ _ Hi).
  - intros g y Hy. apply frame_attach in Hy. case_decide; subst; [done|]. by eapply (inv_data _ _ Hi).
  - intros q g [[-> ->]|Hq]%attach_lookup.
    + split; [done|]. eexists. split_and!; [apply frame_attach; by rewrite decide_True|done|simpl; lia|].
      simpl. lia.
    + destruct (inv_table _ _ Hi q g Hq) as (Ha & y & Hy & ? & ? & H0).
      split; [eapply allocated_mono, Ha; [simpl; lia|done|done]|].
      exists y. split_and!; [|done|done|].
      * apply frame_attach. rewrite decide_False; [done|]. by destruct (attach_other _ _ Hq).
      * intros Hz. split; [|by apply H0]. apply He. by apply H0.
  - intros g Hg%He. destruct (inv_evict _ _ Hi g Hg) as (q & y & Hq & Hy & H0).
    exists q, y. split_and!; [apply attach_lookup; by right| |done].
    apply frame_attach. rewrite decide_False; [done|]. by destruct (attach_other _ _ Hq).
  - intros g [Hg|Hg]; [|done]. simpl in Hg.
    destruct (inv_free _ _ Hi g (or_introl Hg)) as ((y & Hy & ? & ?) & Hn).
    assert (f <> g) by (intros <-; by apply (inv_out _ _ Hi f eq_refl)).
    split; [exists y; split_and!; [apply frame_attach; by rewrite decide_False|done|done]|].
    intros q [[-> ->]|Hq]%attach_lookup; [done|]. by apply (Hn q).
  - intros g Hg. destruct (inv_cover _ _ Hi g Hg) as [?|[[= <-]|[q Hq]]]; [by left|..]; right; right.
    + exists p. apply attach_lookup. by left.
    + exists q. apply attach_lookup. by right.
  - simpl. pose proof (inv_next _ _ Hi). split; [lia|done].
Qed.

Lemma attach_logical q :
  pool_logical b' q = if decide (q = p) then Some x else pool_logical b q.
Proof.
  unfold pool_logical. case_decide as Hq; subst.
  - rewrite (proj2 (attach_lookup p f)) by (by left).
    pose proof (proj2 (frame_attach f (MkPage x p 1 d))) as Hx. rewrite decide_True in Hx by done.
    unfold frame in Hx. by rewrite (Hx eq_refl).
  - destruct (page_table_ b !! q) as [g|] eqn:Hg.
    + rewrite (proj2 (attach_lookup q g)) by (by right).
      destruct (zlookup (pages_ b) g) as [y|] eqn:Hy.
      * pose proof (proj2 (frame_attach g y)) as Hx.
        rewrite decide_False in Hx by (by destruct (attach_other _ _ Hg)).
        unfold frame in Hx. by rewrite (Hx Hy).
      * exfalso. destruct (inv_table _ _ Hi q g Hg) as (_ & y & Hy' & _). unfold frame in Hy'. congruence.
    + simpl. by rewrite lookup_insert_ne, Hg.
Qed.

Lemma attach_pins : pool_pins b' = <[p := 1]> (pool_pins b) /\ pool_pins b !! p = None.
Proof.
  assert (Hnone : pool_pins b !! p = None).
  { destruct (pool_pins b !! p) as [k|] eqn:E; [|done]. apply pool_pins_table in E as [g Hg]. congruence. }
  split; [|done]. apply map_eq. intros q. apply option_eq. intros k.
  rewrite pool_pins_lookup, lookup_insert_Some, pool_pins_lookup. split.
  - intros (g & y & [[-> ->]|Hq]%attach_lookup & Hy & Hk & H0).
    + apply frame_attach in Hy. rewrite decide_True in Hy by done. subst. by left.
    + right. pose proof (attach_other q g Hq) as [? ?]. split; [done|]. exists g, y.
      apply frame_attach in Hy. by rewrite decide_False in Hy.
  - intros [[<- <-]|[Hne (g & y & Hq & Hy & Hk & H0)]].
    + exists f, (MkPage x p 1 d). split_and!; [apply attach_lookup; by left| |done|lia].
      apply frame_attach. by rewrite decide_True.
    + exists g, y. split_and!; [apply attach_lookup; by right| |done|done].
      apply frame_attach. rewrite decide_False; [done|]. by destruct (attach_other _ _ Hq).
Qed.

(** What the client sees of a page becoming resident. *)
Lemma attach_keeps b0 :
  next_page_id_ b <= n ->
  detached b0 b -> keeps (Some p) (pool_view b0) (pool_view b').
Proof.
  intros Hn Hd. split; simpl.
  - intros q y Hq Hy. rewrite attach_logical, decide_False by congruence. by apply (det_logical _ _ Hd).
  - apply (det_size _ _ Hd).
  - intros q. apply allocated_mono; simpl; [rewrite <- (det_next _ _ Hd); lia|apply Hd|apply Hd].
  - intros g q Hq Hg. rewrite <- (det_table _ _ Hd q Hq) in Hg.
    change (page_table_ b' !! q = Some g). apply attach_lookup. by right.
  - intros q Hq Hs. apply (det_synced _ _ Hd) in Hs as (y & Hy & Hst). exists y.
    rewrite attach_logical, decide_False by congruence. done.
Qed.
End Attach.

(** What the client sees of an update of a resident frame, possibly after a
    write-back. *)
Lemma update_keeps b0 b p f pg pg' r' (o : option Z) :
  detached b0 b -> page_table_ b = page_table_ b0 ->
  pool_inv None b -> page_table_ b !! p = Some f -> frame b f pg ->
  (o = Some p \/ data_ pg' = data_ pg) ->
  keeps o (pool_view b0) (pool_view (update_frame f pg' r' b)).
Proof.
  intros Hd Ht Hi Hp Hf Ho.
  assert (Hlog : forall q y, o <> Some q -> pool_logical b q = Some y ->
    pool_logical (update_frame f pg' r' b) q = Some y).
  { intros q y Hq Hy. rewrite (update_frame_logical _ _ _ _ _ _ _ Hi Hp Hf). case_decide as E; [|done].
    subst. destruct Ho as [->| ->]; [done|]. by rewrite <- (pool_logical_table _ _ _ _ Hp Hf). }
  split; simpl.
  - intros q y Hq Hy. apply Hlog; [done|]. by apply (det_logical _ _ Hd).
  - apply (det_size _ _ Hd).
  - intros q. apply allocated_mono; simpl; [rewrite (det_next _ _ Hd); lia|apply Hd|apply Hd].
  - intros g q _ Hg. by rewrite Ht.
  - intros q Hq Hs. apply (det_synced _ _ Hd) in Hs as (y & Hy & Hst).
    exists y. split; [by apply Hlog|done].
Qed.

Lemma detached_refl b : detached b b.
Proof. by split. Qed.

Lemma budget_keeps b b' n :
  next_page_id_ b' = next_page_id_ b -> num_instances_ b' = num_instances_ b ->
  pool_budget b n -> pool_budget b' n.
Proof. intros Hn Hu. unfold pool_budget. by rewrite Hn, Hu. Qed.

Lemma pins_default b out p f pg :
  pool_inv out b -> page_table_ b !! p = Some f -> frame b f pg ->
  default 0 (pool_pins b !! p) = pin_count_ pg.
Proof.
  intros Hi Hp Hf. destruct (table_frame _ _ _ _ Hi Hp) as (pg0 & Hf0 & _ & Hpin).
  rewrite (frame_inj _ _ _ _ Hf0 Hf) in Hpin.
  destruct (pool_pins b !! p) as [k|] eqn:E.
  - apply pool_pins_lookup in E as (g & y & Hg & Hy & <- & _). assert (g = f) as -> by congruence.
    by rewrite (frame_inj _ _ _ _ Hy Hf).
  - destruct (decide (pin_count_ pg = 0)) as [Hz|Hz]; [by rewrite Hz|].
    enough (pool_pins b !! p = Some (pin_count_ pg)) by congruence.
    apply pool_pins_lookup. exists f, pg. split_and!; [done|done|done|lia].
Qed.

(** *** The methods *)

Lemma Fetch_hit b p f :
  pool_inv None b -> page_table_ b !! p = Some f -> default 0 (pool_pins b !! p) < 2 ^ 31 - 1 ->
  exists b', BPI_FetchPgImp p b = Ok (Some f, b') /\ pool_inv None b'
    /\ keeps None (pool_view b) (pool_view b') /\ pool_pins b' = pin_add p (pool_pins b)
    /\ page_table_ b' = page_table_ b /\ disk_manager_ b' = disk_manager_ b
    /\ next_page_id_ b' = next_page_id_ b /\ num_instances_ b' = num_instances_ b
    /\ (pool_pins b !! p = None -> pool_synced b' p).
Proof.
  intros Hi Hp Hmax. destruct (FindPage_some _ _ _ _ Hi Hp) as [Hfp Hne].
  destruct (inv_table _ _ Hi p f Hp) as (_ & pg & Hf & Hid & Hpin & H0).
  rewrite (pins_default _ _ _ _ _ Hi Hp Hf) in Hmax.
  pose proof (frame_range _ _ _ _ Hi Hf) as Hrange.
  destruct (Pin_spec (replacer_ b) f) as (r' & Hpin' & Hr' & Hev & Hc);
    [apply (inv_rep _ _ Hi)|by rewrite (inv_cap _ _ Hi)|].
  unfold BPI_FetchPgImp. rewrite Hfp. destruct (Z.eqb_spec f (-1)); [done|]. cbn [negb].
  rewrite Hpin'. cbn [rbind]. change (pages_ (set_replacer r' b)) with (pages_ b).
  pose proof Hf as Hf1. unfold frame in Hf1. rewrite Hf1. cbn [rbind].
  rewrite int_op_ok by (unfold is_signed; lia). cbn [rbind].
  set (pg' := MkPage (data_ pg) (pg_page_id_ pg) (pin_count_ pg + 1) true).
  rewrite (set_page_ok (set_replacer r' b) f pg) by done. cbn [rbind].
  exists (update_frame f pg' r' b). split_and!; [done| | | |done|done|done|done|].
  - eapply update_frame_inv; try done; simpl; [lia|by eapply (inv_data _ _ Hi)| |lia].
    intros g. rewrite Hev, elem_of_queue_pin. case_decide; [subst; naive_solver lia|naive_solver].
  - eapply update_keeps; [apply detached_refl|done|done|exact Hp|exact Hf|by right].
  - rewrite (update_frame_pins _ _ _ _ _ _ _ Hi Hp Hf). simpl. rewrite decide_True by lia.
    unfold pin_add. by rewrite (pins_default _ _ _ _ _ Hi Hp Hf).
  - intros Hnone. exists (data_ pg). split.
    + by rewrite (update_frame_logical _ _ _ _ _ _ _ Hi Hp Hf), decide_True.
    + pose proof (pins_default _ _ _ _ _ Hi Hp Hf) as Hd. rewrite Hnone in Hd. by apply H0.
Qed.

Lemma Fetch_overflow b p f :
  pool_inv None b -> page_table_ b !! p = Some f -> ~ default 0 (pool_pins b !! p) < 2 ^ 31 - 1 ->
  BPI_FetchPgImp p b = Err IntegerOverflow.
Proof.
  intros Hi Hp Hmax. destruct (FindPage_some _ _ _ _ Hi Hp) as [Hfp Hne].
  destruct (inv_table _ _ Hi p f Hp) as (_ & pg & Hf & _). rewrite (pins_default _ _ _ _ _ Hi Hp Hf) in Hmax.
  pose proof (frame_range _ _ _ _ Hi Hf) as Hrange.
  destruct (Pin_spec (replacer_ b) f) as (r' & Hpin' & _); [apply (inv_rep _ _ Hi)|by rewrite (inv_cap _ _ Hi)|].
  unfold BPI_FetchPgImp. rewrite Hfp. destruct (Z.eqb_spec f (-1)); [done|]. cbn [negb].
  rewrite Hpin'. cbn [rbind]. change (pages_ (set_replacer r' b)) with (pages_ b).
  unfold frame in Hf. rewrite Hf. cbn [rbind]. unfold int_op. rewrite decide_False; [done|].
  unfold is_signed. lia.
Qed.

Lemma detached_not_resident b b' p :
  detached b b' -> page_table_ b !! p = None -> page_table_ b' !! p = None.
Proof.
  intros Hd Hp. destruct (page_table_ b' !! p) as [g|] eqn:E; [|done].
  apply (det_sub _ _ Hd) in E. congruence.
Qed.

Lemma Fetch_miss b p x :
  pool_inv None b -> page_table_ b !! p = None -> allocated b p -> stored (disk_manager_ b) p = Some x ->
  free_list_ b <> [] \/ evictable (replacer_ b) <> [] ->
  exists f b', BPI_FetchPgImp p b = Ok (Some f, b') /\ pool_inv None b'
    /\ keeps None (pool_view b) (pool_view b') /\ pool_pins b' = pin_add p (pool_pins b)
    /\ page_table_ b' !! p = Some f /\ pool_logical b' p = Some x /\ pool_synced b' p
    /\ next_page_id_ b' = next_page_id_ b /\ num_instances_ b' = num_instances_ b.
Proof.
  intros Hi Hp Ha Hx Hroom.
  destruct (FindFreshPage_some b Hi Hroom) as (f & b1 & Hff & Hne & Hi1 & Hd).
  pose proof (detached_not_resident _ _ _ Hd Hp) as Hp1.
  assert (Hlx : pool_logical b p = Some x) by (unfold pool_logical; by rewrite Hp).
  pose proof (det_logical _ _ Hd _ _ Hlx) as Hx1. unfold pool_logical in Hx1. rewrite Hp1 in Hx1.
  destruct (inv_free _ _ Hi1 f (or_intror eq_refl)) as ((pg & Hf & Hpin & Hdirty) & Hn).
  pose proof (frame_range _ _ _ _ Hi1 Hf) as Hrange.
  destruct (Pin_spec (replacer_ b1) f) as (r' & Hpin' & Hr' & Hev & Hc);
    [apply (inv_rep _ _ Hi1)|by rewrite (inv_cap _ _ Hi1)|].
  assert (Hrd : ReadPage p (data_ pg) (disk_manager_ b1) = Ok x).
  { apply ReadPage_stored; [apply (inv_disk _ _ Hi1)|apply Ha|by eapply (inv_data _ _ Hi1)|done]. }
  set (b' := attach p f x false (next_page_id_ b1) r' b1).
  assert (Hrun : BPI_FetchPgImp p b = Ok (Some f, b')).
  { unfold BPI_FetchPgImp. rewrite FindPage_none by done. cbn [negb Z.eqb Pos.eqb]. rewrite Hff. cbn [rbind].
    destruct (Z.eqb_spec f (-1)); [done|]. cbn [replacer_ set_table]. rewrite Hpin'. cbn [rbind].
    cbn [pages_ disk_manager_ set_table set_replacer].
    pose proof Hf as Hf1. unfold frame in Hf1. rewrite Hf1. cbn [rbind].
    rewrite Hpin. cbn [Z.add rbind]. rewrite int_op_ok by done. cbn [rbind]. rewrite Hrd. cbn [rbind].
    erewrite set_page_ok by exact Hf. done. }
  assert (Hk : keeps (Some p) (pool_view b) (pool_view b')) by (eapply attach_keeps; done || lia).
  destruct (attach_pins b1 p f x false (next_page_id_ b1) pg r' Hi1 Hp1 Hf) as [Hpins Hnone]. fold b' in Hpins.
  pose proof (attach_logical b1 p f x false (next_page_id_ b1) pg r' Hi1 Hp1 Hf p) as Hl.
  rewrite decide_True in Hl by done. fold b' in Hl.
  exists f, b'. split_and!; [done| | | | |done|by exists x|apply Hd|apply Hd].
  - destruct Ha as ((? & ?) & ? & ?). eapply attach_inv; try done.
    + pose proof (inv_next _ _ Hi1). lia.
    + apply (inv_next _ _ Hi1).
    + rewrite (det_next _ _ Hd). lia.
    + by rewrite (det_num _ _ Hd), (det_idx _ _ Hd).
    + eapply stored_data_ok; [apply (inv_disk _ _ Hi)|done].
    + intros g. rewrite Hev, elem_of_queue_pin. split; [tauto|]. intros Hg. split; [|done].
      intros ->. destruct (inv_evict _ _ Hi1 f Hg) as (q & ? & Hq & _). by apply (Hn q).
  - split; try apply Hk.
    + intros q y _ Hy. destruct (decide (q = p)) as [->|]; [|apply Hk; [congruence|done]].
      change (pool_logical b p = Some y) in Hy. change (pool_logical b' p = Some y). congruence.
    + intros q _ Hs. destruct (decide (q = p)) as [->|]; [by exists x|apply Hk; [congruence|done]].
  - rewrite Hpins. unfold pin_add. rewrite <- (det_pins _ _ Hd), Hnone. done.
  - simpl. by rewrite lookup_insert_eq.
Qed.

Lemma FindFreshPage_fail_Fetch b p :
  pool_inv None b -> page_table_ b !! p = None -> free_list_ b = [] -> evictable (replacer_ b) = [] ->
  BPI_FetchPgImp p b = Ok (None, b).
Proof.
  intros Hi Hp Hl He. unfold BPI_FetchPgImp. rewrite FindPage_none by done. cbn [negb Z.eqb Pos.eqb].
  by rewrite FindFreshPage_none.
Qed.

Lemma signed_next b :
  pool_inv None b -> next_page_id_ b + num_instances_ b < 2 ^ 31 ->
  signed 32 (next_page_id_ b + num_instances_ b) = next_page_id_ b + num_instances_ b.
Proof.
  intros Hi Hb. pose proof (inv_next _ _ Hi). pose proof (inv_num _ _ Hi).
  apply signed_id; [lia|]. unfold is_signed. simpl in *. lia.
Qed.

(** [AllocatePage] hands out the next page id of this instance, which maps back
    to it. *)
Lemma AllocatePage_ok b out :
  pool_inv out b -> next_page_id_ b + num_instances_ b < 2 ^ 31 ->
  BPI_AllocatePage b = Ok (next_page_id_ b, set_next (next_page_id_ b + num_instances_ b) b).
Proof.
  intros Hi Hb. pose proof (inv_next _ _ Hi) as [Hn Hm]. pose proof (inv_num _ _ Hi) as [Hu Hx].
  unfold BPI_AllocatePage, BPI_ValidatePageId. cbn [num_instances_ set_next instance_index_].
  destruct (Z.eqb_spec (num_instances_ b) 0); [lia|].
  rewrite unsigned_id by (unfold is_unsigned; simpl in *; lia). rewrite Hm, Z.eqb_refl. cbn [assert rbind].
  rewrite signed_id; [done|lia|]. unfold is_signed. simpl in *. lia.
Qed.

Lemma New_ok b n :
  data_ok page_zero -> pool_inv None b -> pool_budget b (S n) ->
  free_list_ b <> [] \/ evictable (replacer_ b) <> [] ->
  exists f b', BPI_NewPgImp b = Ok (Some (next_page_id_ b, f), b') /\ pool_inv None b'
    /\ keeps (Some (next_page_id_ b)) (pool_view b) (pool_view b')
    /\ pool_pins b' = <[next_page_id_ b := 1]> (pool_pins b) /\ pool_pins b !! next_page_id_ b = None
    /\ page_table_ b' !! next_page_id_ b = Some f
    /\ pool_logical b' (next_page_id_ b) = Some page_zero
    /\ allocated b' (next_page_id_ b) /\ pool_budget b' n
    /\ next_page_id_ b' = next_page_id_ b + num_instances_ b /\ num_instances_ b' = num_instances_ b.
Proof.
  intros Hz Hi [Hb1 Hb2] Hroom. pose proof (inv_next _ _ Hi) as [Hn Hm]. pose proof (inv_num _ _ Hi) as [Hu Hx].
  destruct (FindFreshPage_some b Hi Hroom) as (f & b1 & Hff & Hne & Hi1 & Hd).
  assert (Hp : page_table_ b !! next_page_id_ b = None).
  { destruct (page_table_ b !! next_page_id_ b) as [g|] eqn:E; [|done].
    destruct (inv_table _ _ Hi _ _ E) as ((? & _) & _). lia. }
  pose proof (detached_not_resident _ _ _ Hd Hp) as Hp1.
  destruct (inv_free _ _ Hi1 f (or_intror eq_refl)) as ((pg & Hf & Hpin & Hdirty) & Hnf).
  set (p := next_page_id_ b) in *. set (n' := p + num_instances_ b).
  set (b' := attach p f page_zero false n' (replacer_ b1) b1).
  assert (Hrun : BPI_NewPgImp b = Ok (Some (p, f), b')).
  { unfold BPI_NewPgImp. rewrite Hff. cbn [rbind]. destruct (Z.eqb_spec f (-1)); [done|].
    rewrite (AllocatePage_ok _ _ Hi1) by (rewrite (det_next _ _ Hd), (det_num _ _ Hd); lia).
    cbn [rbind]. rewrite (det_next _ _ Hd), (det_num _ _ Hd). fold p n'. cbn [pages_ set_next].
    pose proof Hf as Hf1. unfold frame in Hf1. rewrite Hf1. cbn [rbind].
    rewrite Hpin, Hdirty, int_op_ok by done. cbn [rbind]. by erewrite set_page_ok by exact Hf. }
  destruct (attach_pins b1 p f page_zero false n' pg (replacer_ b1) Hi1 Hp1 Hf) as [Hpins Hnone]. fold b' in Hpins.
  pose proof (attach_logical b1 p f page_zero false n' pg (replacer_ b1) Hi1 Hp1 Hf p) as Hl.
  rewrite decide_True in Hl by done. fold b' in Hl.
  pose proof (Hb2 0%nat ltac:(lia)) as Hok. rewrite Z.mul_0_l, Z.add_0_r in Hok. fold p in Hok.
  exists f, b'. split_and!; [done| | | | | |done| | |done|by apply Hd].
  - apply (attach_inv b1 p f page_zero false n' pg (replacer_ b1) Hi1 Hp1 Hf);
      rewrite ?(det_next _ _ Hd), ?(det_num _ _ Hd), ?(det_idx _ _ Hd); fold p;
      first [done|apply (inv_rep _ _ Hi1)|unfold n'; lia|idtac].
    unfold n'. rewrite <- (Z.mul_1_l (num_instances_ b)) at 1. by rewrite Z.mod_add by lia.
  - eapply attach_keeps; try done. rewrite (det_next _ _ Hd). fold p. lia.
  - by rewrite Hpins, (det_pins _ _ Hd).
  - by rewrite <- (det_pins _ _ Hd).
  - simpl. by rewrite lookup_insert_eq.
  - unfold allocated. simpl. rewrite (det_num _ _ Hd), (det_idx _ _ Hd).
    split_and!; [lia|lia|done|done].
  - unfold pool_budget. simpl. rewrite (det_num _ _ Hd). split; [lia|]. intros i Hlt.
    pose proof (Hb2 (S i) ltac:(lia)) as Hbi.
    by replace (n' + Z.of_nat i * num_instances_ b) with (p + Z.of_nat (S i) * num_instances_ b) by lia.
Qed.

(** [UnpinPgImp] of a pinned page.  The last pin writes the page back if it is
    reported dirty, and else leaves the disk alone; the frame joins the queue of
    the evictable ones.  The invariant is kept exactly if the disk copy is then
    the page. *)
Lemma Unpin_run b p n d :
  pool_inv None b -> pool_pins b !! p = Some n ->
  exists b', BPI_UnpinPgImp p d b = Ok (true, b')
    /\ keeps None (pool_view b) (pool_view b') /\ pool_pins b' = pin_sub p n (pool_pins b)
    /\ page_table_ b' = page_table_ b
    /\ next_page_id_ b' = next_page_id_ b /\ num_instances_ b' = num_instances_ b
    /\ (n = 1 /\ d = true -> pool_synced b' p)
    /\ (n <> 1 \/ d = false -> disk_manager_ b' = disk_manager_ b)
    /\ (exists f pg, page_table_ b' !! p = Some f /\ frame b' f pg /\ is_dirty_ pg = d)
    /\ (pool_inv None b' <-> (n = 1 -> d = true \/ pool_synced b p)).
Proof.
  intros Hi (f & pg & Hp & Hf & <- & Hpos)%pool_pins_lookup.
  destruct (FindPage_some _ _ _ _ Hi Hp) as [Hfp Hne].
  destruct (inv_table _ _ Hi p f Hp) as (Ha & pg0 & Hf0 & Hid & _).
  pose proof (frame_inj _ _ _ _ Hf Hf0) as <-.
  pose proof (frame_range _ _ _ _ Hi Hf) as Hrange.
  set (pg' := MkPage (data_ pg) (pg_page_id_ pg) (pin_count_ pg - 1) d).
  unfold BPI_UnpinPgImp. rewrite Hfp. destruct (Z.eqb_spec f (-1)); [done|].
  pose proof Hf as Hf1. unfold frame in Hf1. rewrite Hf1. cbn [rbind].
  destruct (Z.eqb_spec (pin_count_ pg) 0); [lia|].
  rewrite (set_page_ok b f pg) by done. cbn [rbind].
  destruct (Z.eqb_spec (pin_count_ pg - 1) 0) as [Hlast|Hlast].
  - destruct (Unpin_spec (replacer_ b) f) as (r' & Hun & Hr' & Hev & Hc);
      [apply (inv_rep _ _ Hi)|by rewrite (inv_cap _ _ Hi)|].
    cbn [replacer_ set_pages]. rewrite Hun. cbn [rbind]. fold pg'.
    set (bw := if d then write_back p pg b else b).
    assert (Hbw : pool_inv None bw /\ detached b bw /\ page_table_ bw = page_table_ b
                  /\ pages_ bw = pages_ b /\ replacer_ bw = replacer_ b
                  /\ (d = true -> stored (disk_manager_ bw) p = Some (data_ pg))
                  /\ (d = false -> disk_manager_ bw = disk_manager_ b)).
    { unfold bw. destruct d; split_and!; try done.
      - by eapply write_back_inv.
      - by eapply write_back_detached.
      - intros _. simpl. apply WritePage_same; [apply (inv_disk _ _ Hi)|apply Ha|by eapply (inv_data _ _ Hi)]. }
    destruct Hbw as (Hiw & Hdw & Htw & Hpw & Hrw & Hsw & Hcl).
    assert (Hpw' : page_table_ bw !! p = Some f) by by rewrite Htw.
    assert (Hfw : frame bw f pg) by (unfold frame; by rewrite Hpw).
    set (b' := update_frame f pg' r' bw).
    assert (Hfb : frame b' f pg').
    { unfold frame, b', update_frame. cbn [pages_ set_replacer set_pages]. rewrite Hpw.
      rewrite zlookup_insert by (rewrite (inv_len _ _ Hi); lia). by rewrite decide_True. }
    exists b'.
    assert (Hrun : BPI_FlushPg p (set_replacer r' (set_pages (<[Z.to_nat f := pg']> (pages_ b)) b))
                   = Ok b').
    { unfold BPI_FlushPg, BPI_FindPage. cbn [page_table_ pages_ set_replacer set_pages]. rewrite Hp.
      cbn [default]. rewrite zlookup_insert by (rewrite (inv_len _ _ Hi); lia). rewrite decide_True by done.
      cbn [rbind is_dirty_ pg' data_ disk_manager_]. unfold b', bw. by destruct d. }
    rewrite Hrun. cbn [rbind].
    assert (Hlog : pool_logical b' p = Some (data_ pg)) by (by rewrite (pool_logical_table b' p f pg')).
    assert (Hiff : pool_inv None b' <-> stored (disk_manager_ bw) p = Some (data_ pg)).
    { split.
      - intros Hi'. destruct (inv_table _ _ Hi' p f Hpw') as (_ & y & Hy & _ & _ & H0).
        rewrite (frame_inj _ _ _ _ Hy Hfb) in H0. apply H0. simpl. lia.
      - intros Hst. eapply (update_frame_inv bw None p f pg); try done; simpl; [lia|by eapply (inv_data _ _ Hi)|by rewrite Hrw|].
        intros g. rewrite Hev, elem_of_queue_unpin, Hrw. case_decide; naive_solver. }
    split_and!; [done| | |done|apply Hdw|apply Hdw| | |by exists f, pg'|].
    + eapply update_keeps; [exact Hdw|done|done|exact Hpw'|exact Hfw|by right].
    + unfold b'. rewrite (update_frame_pins _ _ _ _ _ _ _ Hiw Hpw' Hfw). simpl. rewrite decide_False by lia.
      unfold pin_sub. rewrite (proj2 (Z.eqb_eq _ 1)) by lia. by rewrite (det_pins _ _ Hdw).
    + intros [_ Hd]. exists (data_ pg). split; [done|]. by apply Hsw.
    + intros [?|Hd]; [lia|]. by apply Hcl.
    + rewrite Hiff. destruct d; [split; [by left|by intros _; apply Hsw]|]. rewrite Hcl by done. split.
      * intros Hst _. right. exists (data_ pg). split; [by apply (pool_logical_table _ _ _ _ Hp Hf)|done].
      * intros [?|(x & Hx & Hst)]; [lia|done|]. rewrite (pool_logical_table _ _ _ _ Hp Hf) in Hx. congruence.
  - exists (update_frame f pg' (replacer_ b) b).
    split_and!; [f_equal; by destruct b| | |done|done|done|intros [? _]; lia|done| |].
    + eapply update_keeps; [apply detached_refl|done|done|exact Hp|exact Hf|by right].
    + rewrite (update_frame_pins _ _ _ _ _ _ _ Hi Hp Hf). simpl. rewrite decide_True by lia.
      unfold pin_sub. by rewrite (proj2 (Z.eqb_neq _ 1)) by lia.
    + exists f, pg'. split_and!; [done| |done]. unfold frame, update_frame. cbn [pages_ set_replacer set_pages].
      rewrite zlookup_insert by (rewrite (inv_len _ _ Hi); lia). by rewrite decide_True.
    + split; [intros _ ?; lia|intros _].
      eapply (update_frame_inv b None p f pg); try done; simpl; try lia; [by eapply (inv_data _ _ Hi)|apply Hi|].
      intros g. case_decide as Hfg; [|done]. rewrite <- Hfg. split; [|lia]. intros Hg.
      destruct (inv_evict _ _ Hi f Hg) as (q & y & _ & Hy & H0).
      rewrite (frame_inj _ _ _ _ Hf Hy) in Hpos. lia.
Qed.

Lemma Unpin_ok b p n d :
  pool_inv None b -> pool_pins b !! p = Some n -> (n = 1 -> d = true \/ pool_synced b p) ->
  exists b', BPI_UnpinPgImp p d b = Ok (true, b') /\ pool_inv None b'
    /\ keeps None (pool_view b) (pool_view b') /\ pool_pins b' = pin_sub p n (pool_pins b)
    /\ page_table_ b' = page_table_ b
    /\ next_page_id_ b' = next_page_id_ b /\ num_instances_ b' = num_instances_ b.
Proof.
  intros Hi Hp Hd. destruct (Unpin_run b p n d Hi Hp) as (b' & Hrun & Hk & Hpins & Ht & Hn & Hu & _ & _ & _ & Hinv).
  exists b'. split_and!; try done. by apply Hinv.
Qed.

Lemma GetData_ok b p f pg x :
  pool_inv None b -> page_table_ b !! p = Some f -> pool_logical b p = Some x ->
  frame b f pg -> BPI_GetData f b = Ok x /\ data_ pg = x.
Proof.
  intros Hi Hp Hx Hf. rewrite (pool_logical_table _ _ _ _ Hp Hf) in Hx. simplify_eq.
  unfold BPI_GetData. unfold frame in Hf. by rewrite Hf.
Qed.

Lemma SetData_ok b p f x n :
  pool_inv None b -> page_table_ b !! p = Some f -> pool_pins b !! p = Some n -> data_ok x ->
  exists b', BPI_SetData f x b = Ok b' /\ pool_inv None b' /\ pool_logical b' p = Some x
    /\ keeps (Some p) (pool_view b) (pool_view b') /\ pool_pins b' = pool_pins b
    /\ next_page_id_ b' = next_page_id_ b /\ num_instances_ b' = num_instances_ b.
Proof.
  intros Hi Hp (g & pg & Hg & Hf & Hpin & Hpos)%pool_pins_lookup Hx.
  assert (g = f) as -> by congruence.
  destruct (inv_table _ _ Hi p f Hp) as (_ & pg0 & Hf0 & Hid & _).
  pose proof (frame_inj _ _ _ _ Hf Hf0) as <-.
  set (pg' := MkPage x (pg_page_id_ pg) (pin_count_ pg) (is_dirty_ pg)).
  exists (update_frame f pg' (replacer_ b) b). split_and!.
  - unfold BPI_SetData. pose proof Hf as Hf1. unfold frame in Hf1. rewrite Hf1. cbn [rbind].
    rewrite (set_page_ok b f pg) by done. f_equal.
  - apply (update_frame_inv b None p f pg);
      [done|done|done|done|simpl; lia|done|apply (inv_rep _ _ Hi)|done| |simpl; lia].
    intros h. case_decide as Hfh; [|done]. rewrite <- Hfh. simpl. split; [|lia]. intros Hh.
    destruct (inv_evict _ _ Hi f Hh) as (q & y & _ & Hy & H0).
    pose proof (frame_inj _ _ _ _ Hf Hy) as <-. lia.
  - by rewrite (update_frame_logical _ _ _ _ _ _ _ Hi Hp Hf), decide_True.
  - eapply update_keeps; [apply detached_refl|done|done|exact Hp|exact Hf|by left].
  - rewrite (update_frame_pins _ _ _ _ _ _ _ Hi Hp Hf). simpl. rewrite decide_True by lia.
    apply insert_id. apply pool_pins_lookup. exists f, pg. split_and!; [done|done|done|lia].
  - done.
  - done.
Qed.
(** *** Flushing *)

(** [FlushPgImp] of a resident page. *)
Lemma FlushPgImp_resident b p f :
  pool_inv None b -> page_table_ b !! p = Some f ->
  exists b', BPI_FlushPgImp p b = Ok (true, b') /\ pool_inv None b'
    /\ keeps None (pool_view b) (pool_view b') /\ pool_pins b' = pool_pins b
    /\ page_table_ b' = page_table_ b
    /\ next_page_id_ b' = next_page_id_ b /\ num_instances_ b' = num_instances_ b
    /\ ((forall pg, frame b f pg -> is_dirty_ pg = false -> pool_synced b p) -> pool_synced b' p).
Proof.
  intros Hi Hp. destruct (table_frame _ _ _ _ Hi Hp) as (pg & Hf & Hid & Hpin).
  pose proof (frame_range _ _ _ _ Hi Hf) as Hr.
  set (pg' := MkPage (data_ pg) (pg_page_id_ pg) (pin_count_ pg) false).
  set (bw := if is_dirty_ pg then write_back p pg b else b).
  assert (Hbw : pool_inv None bw /\ detached b bw /\ page_table_ bw = page_table_ b
                /\ pages_ bw = pages_ b /\ replacer_ bw = replacer_ b).
  { unfold bw. destruct (is_dirty_ pg); split_and!; try done;
      [by eapply write_back_inv|by eapply write_back_detached]. }
  destruct Hbw as (Hiw & Hdw & Htw & Hpw & Hrw).
  assert (Hpw' : page_table_ bw !! p = Some f) by by rewrite Htw.
  assert (Hfw : frame bw f pg) by (unfold frame; by rewrite Hpw).
  exists (update_frame f pg' (replacer_ b) bw).
  assert (Hk : keeps None (pool_view b) (pool_view (update_frame f pg' (replacer_ b) bw)))
    by (eapply update_keeps; [exact Hdw|done|done|exact Hpw'|exact Hfw|by right]).
  split_and!; [| |done| |done|apply Hdw|apply Hdw|].
  - unfold BPI_FlushPgImp. rewrite Hp.
    rewrite (FlushPg_resident b b None p f pg Hi Hp Hf) by done. fold bw. cbn [rbind].
    pose proof Hfw as Hfw1. unfold frame in Hfw1. rewrite Hfw1. cbn [rbind].
    rewrite (set_page_ok bw f pg) by done. cbn [rbind]. do 2 f_equal. unfold update_frame. rewrite <- Hrw.
    unfold set_replacer, set_pages. simpl. done.
  - destruct (inv_table _ _ Hiw p f Hpw') as (_ & y & Hy & _ & _ & H0).
    pose proof (frame_inj _ _ _ _ Hfw Hy) as <-.
    eapply (update_frame_inv bw None p f pg); try done; simpl;
      [by eapply (inv_data _ _ Hi)|apply (inv_rep _ _ Hi)|by rewrite Hrw| |by apply H0].
    intros g. rewrite Hrw. case_decide as Hfg; [subst g|done]. split; [|rewrite <- Hrw; by apply H0].
    intros Hg. destruct (inv_evict _ _ Hi f Hg) as (q & z & _ & Hz & ?).
    by rewrite (frame_inj _ _ _ _ Hf Hz).
  - rewrite (update_frame_pins _ _ _ _ _ _ _ Hiw Hpw' Hfw). simpl. rewrite (det_pins _ _ Hdw).
    case_decide as Hpos; [|apply delete_id].
    + apply insert_id, pool_pins_lookup. exists f, pg. by split_and!.
    + destruct (pool_pins b !! p) as [n|] eqn:E; [|done].
      apply pool_pins_lookup in E as (g & y & Hg & Hy & <- & ?). assert (g = f) as -> by congruence.
      pose proof (frame_inj _ _ _ _ Hf Hy) as <-. lia.
  - intros Hs. exists (data_ pg). split.
    + by rewrite (update_frame_logical _ _ _ _ _ _ _ Hiw Hpw' Hfw), decide_True.
    + change (stored (disk_manager_ bw) p = Some (data_ pg)). unfold bw.
      destruct (is_dirty_ pg) eqn:Hdirty.
      * destruct (inv_table _ _ Hi p f Hp) as ((_ & _ & Hok) & _).
        apply WritePage_same; [apply (inv_disk _ _ Hi)|done|by eapply (inv_data _ _ Hi)].
      * destruct (Hs pg Hf Hdirty) as (x & Hx & Hst).
        rewrite (pool_logical_table _ _ _ _ Hp Hf) in Hx. congruence.
Qed.

Lemma keeps_trans_none b1 b2 b3 :
  keeps None (pool_view b1) (pool_view b2) -> keeps None (pool_view b2) (pool_view b3) ->
  pool_pins b2 = pool_pins b1 -> keeps None (pool_view b1) (pool_view b3).
Proof.
  intros H1 H2 Hp. split.
  - intros q y Hq Hy. by apply (keeps_logical _ _ _ H2), (keeps_logical _ _ _ H1).
  - by rewrite (keeps_frames _ _ _ H2), (keeps_frames _ _ _ H1).
  - intros q Hq. by apply (keeps_live _ _ _ H2), (keeps_live _ _ _ H1).
  - intros f q Hq Hf. pose proof (keeps_holds _ _ _ H1 f q Hq Hf) as Hf2.
    refine (keeps_holds _ _ _ H2 f q _ Hf2). simpl in *. by rewrite Hp.
  - intros q Hq Hs. by apply (keeps_synced _ _ _ H2), (keeps_synced _ _ _ H1).
Qed.

(** The dirty flag of a resident page. *)
Definition flagged b (p : Z) : Prop :=
  exists f pg, page_table_ b !! p = Some f /\ frame b f pg /\ is_dirty_ pg = true.

Lemma FlushPgImp_flags b b' p r q :
  pool_inv None b -> BPI_FlushPgImp p b = Ok (r, b') -> q <> p -> flagged b q -> flagged b' q.
Proof.
  intros Hi Hrun Hne (g & y & Hq & Hy & Hd). unfold BPI_FlushPgImp in Hrun.
  destruct (page_table_ b !! p) as [f|] eqn:Hp; [|by simplify_eq; exists g, y].
  destruct (table_frame _ _ _ _ Hi Hp) as (pg & Hf & _).
  rewrite (FlushPg_resident b b None p f pg Hi Hp Hf) in Hrun by done. cbn [rbind] in Hrun.
  set (bw := if is_dirty_ pg then write_back p pg b else b) in *.
  assert (Hbw : pages_ bw = pages_ b /\ page_table_ bw = page_table_ b) by (unfold bw; by destruct (is_dirty_ pg)).
  destruct Hbw as [Hpw Htw].
  assert (Hfw : frame bw f pg) by (unfold frame; by rewrite Hpw).
  pose proof Hfw as Hfw1. unfold frame in Hfw1. rewrite Hfw1 in Hrun. cbn [rbind] in Hrun.
  rewrite (set_page_ok bw f pg) in Hrun by done. cbn [rbind] in Hrun. simplify_eq.
  exists g, y. split_and!; [by simpl; rewrite Htw| |done].
  apply (frame_set_pages bw f pg g _ y Hfw). rewrite decide_False.
  - unfold frame. by rewrite Hpw.
  - intros <-. by apply Hne, (table_inj _ _ _ _ _ Hi Hq Hp).
Qed.

Lemma FlushAll_keys (l : list Z) b :
  pool_inv None b -> NoDup l -> (forall p, p ∈ l -> is_Some (page_table_ b !! p)) ->
  exists b', foldl (fun acc p => let! b := acc in let! '(_, b) := BPI_FlushPgImp p b in Ok b) (Ok b) l = Ok b'
    /\ pool_inv None b' /\ keeps None (pool_view b) (pool_view b') /\ pool_pins b' = pool_pins b
    /\ page_table_ b' = page_table_ b
    /\ next_page_id_ b' = next_page_id_ b /\ num_instances_ b' = num_instances_ b
    /\ (forall p, p ∈ l -> flagged b p -> pool_synced b' p).
Proof.
  revert b. induction l as [|p l IH]; intros b Hi Hnd Hl.
  { exists b. split_and!; try done; set_solver. }
  apply NoDup_cons in Hnd as [Hnp Hnd].
  destruct (Hl p) as [f Hp]; [set_solver|].
  destruct (FlushPgImp_resident b p f Hi Hp) as (b1 & Hrun & Hi1 & Hk1 & Hpin1 & Ht1 & Hn1 & Hu1 & Hs1).
  destruct (IH b1 Hi1 Hnd) as (b2 & Hr & Hi2 & Hk2 & Hpin2 & Ht2 & Hn2 & Hu2 & Hs2).
  { intros q Hq. rewrite Ht1. apply Hl. set_solver. }
  exists b2. cbn [foldl]. cbn [rbind]. rewrite Hrun. cbn [rbind].
  split_and!; [done|done|by eapply keeps_trans_none|congruence..|].
  intros q [->|Hq]%elem_of_cons Hfl.
  - apply (keeps_synced _ _ _ Hk2); [done|]. apply Hs1. intros pg Hf Hcl.
    destruct Hfl as (g & y & Hg & Hy & Hd). assert (g = f) as -> by congruence.
    pose proof (frame_inj _ _ _ _ Hf Hy). congruence.
  - apply Hs2; [done|]. eapply FlushPgImp_flags; [exact Hi|exact Hrun|set_solver|done].
Qed.

Lemma FlushAll_ok b :
  pool_inv None b ->
  exists b', BPI_FlushAllPgsImp b = Ok b' /\ pool_inv None b' /\ keeps None (pool_view b) (pool_view b')
    /\ pool_pins b' = pool_pins b /\ page_table_ b' = page_table_ b
    /\ next_page_id_ b' = next_page_id_ b /\ num_instances_ b' = num_instances_ b
    /\ (forall p, flagged b p -> pool_synced b' p).
Proof.
  intros Hi. destruct (FlushAll_keys (map_to_list (page_table_ b)).*1 b Hi) as (b' & Hr & H1 & H2 & H3 & H4 & H6 & H7 & H5).
  - apply NoDup_fst_map_to_list.
  - intros p ([q f] & -> & Hq%elem_of_map_to_list)%list_elem_of_fmap. by exists f.
  - exists b'. split_and!; try done. intros p Hp. apply H5; [|done].
    destruct Hp as (f & pg & Hf & _). apply list_elem_of_fmap. exists (p, f). split; [done|].
    by apply elem_of_map_to_list.
Qed.
End Invariant.

(** ** The instance is a buffer pool *)

Class ZeroPageOk (K D : Type) `{!PageData D} `{!Disk K D} `{!DiskSpec K D} : Prop :=
  page_zero_ok : data_ok (page_zero : D).

#[export] Instance BPI_manager `{Config} {D R K} `{!PageData D} `{!Replacer R} `{!Disk K D} :
    BufferPoolManager (BPI D R K) Z D := {|
  FetchPage := BPI_FetchPgImp;
  UnpinPage := BPI_UnpinPgImp;
  FlushPage := BPI_FlushPgImp;
  NewPage := BPI_NewPgImp;
  DeletePage := BPI_DeletePgImp;
  FlushAllPages b := let! b' := BPI_FlushAllPgsImp b in Ok (tt, b');
  GetData f b := let! x := BPI_GetData f b in Ok (x, b);
  SetData f x b := let! b' := BPI_SetData f x b in Ok (tt, b')
|}.

#[export] Program Instance BPI_spec `{Config} {D R K} `{!PageData D} `{!Replacer R} `{!Disk K D}
    `{!ReplacerSpec R} `{!DiskSpec K D} `{!ZeroPageOk K D} : BufferPoolSpec (BPI D R K) Z D := {|
  pool_ok := pool_inv None;
  view := pool_view;
  good_data := data_ok;
  zero_data := page_zero
|}.
Next Obligation.
  intros ? D R K ?????? b p x Hi Ha Hx Hroom. simpl in *. apply wp_run.
  destruct (page_table_ b !! p) as [f|] eqn:Hp.
  - destruct (Fetch_hit b p f Hi Hp) as (b' & -> & Hi' & Hk & Hpins & Ht & _ & Hn & Hu & Hs); [by destruct (pool_pins b !! p)|].
    exists (Some f), b'. split; [done|]. exists f. split_and!; try done; [by simpl; rewrite Ht|].
    intros n. by apply budget_keeps.
  - assert (Hr : free_list_ b <> [] \/ evictable (replacer_ b) <> []).
    { destruct (pool_pins b !! p) as [n|] eqn:Hn; [apply pool_pins_table in Hn; rewrite Hp in Hn; by destruct Hn|by apply pool_room]. }
    assert (Hst : stored (disk_manager_ b) p = Some x) by (unfold pool_logical in Hx; by rewrite Hp in Hx).
    destruct (Fetch_miss b p x Hi Hp Ha Hst Hr) as (f & b' & -> & Hi' & Hk & Hpins & Ht & _ & Hs & Hn & Hu).
    exists (Some f), b'. split; [done|]. exists f. split_and!; try done. intros n. by apply budget_keeps.
Qed.
Next Obligation.
  intros ? D R K ????? Hz b n Hi Hb Hroom. simpl in *. apply wp_run.
  destruct (New_ok b n Hz Hi Hb (pool_room b Hi Hroom)) as (f & b' & -> & Hi' & Hk & Hpins & Hnone & Ht & Hl & Ha & Hb' & _).
  assert (Hsg : is_signed 32 (next_page_id_ b)).
  { pose proof (inv_next _ _ Hi) as [Hnx _]. unfold is_signed. simpl in *. lia. }
  eexists _, b'. split; [done|]. exists (next_page_id_ b), f.
  split; [done|]. split; [done|]. split; [exact Hsg|]. split_and!; try done.
  intros ((_ & ?) & _). lia.
Qed.
Next Obligation.
  intros ? D R K ?????? b p n d Hi Hp Hd. simpl in *. apply wp_run.
  destruct (Unpin_ok b p n d Hi Hp Hd) as (b' & -> & Hi' & Hk & Hpins & _ & Hn & Hu).
  exists true, b'. split; [done|]. split_and!; try done. intros k. by apply budget_keeps.
Qed.
Next Obligation.
  intros ? D R K ?????? b p Hi _. simpl in *. apply wp_run. destruct (page_table_ b !! p) as [f|] eqn:Hp.
  - destruct (FlushPgImp_resident b p f Hi Hp) as (b' & -> & Hi' & Hk & Hpins & _ & Hn & Hu & _).
    exists true, b'. split; [done|]. split_and!; try done. intros k. by apply budget_keeps.
  - exists false, b. unfold BPI_FlushPgImp. rewrite Hp. split; [done|]. split_and!; try done.
    intros [n Hn%pool_pins_table]. rewrite Hp in Hn. by destruct Hn.
Qed.
Next Obligation.
  intros ? D R K ?????? b Hi. simpl in *. apply wp_run.
  destruct (FlushAll_ok b Hi) as (b' & -> & Hi' & Hk & Hpins & _ & Hn & Hu & _).
  exists tt, b'. split; [done|]. split_and!; try done. intros k. by apply budget_keeps.
Qed.
Next Obligation.
  intros ? D R K ?????? b f p x Hi Hp Hpin Hx. simpl in *.
  destruct (table_frame _ _ _ _ Hi Hp) as (pg & Hf & _).
  by destruct (GetData_ok b p f pg x Hi Hp Hx Hf) as [-> _].
Qed.
Next Obligation.
  intros ? D R K ?????? b f p x Hi Hp [n Hn] Hx. simpl in *. apply wp_run.
  destruct (SetData_ok b p f x n Hi Hp Hn Hx) as (b' & -> & Hi' & Hl & Hk & Hpins & Hnx & Hu).
  exists tt, b'. split; [done|]. split_and!; try done. intros k. by apply budget_keeps.
Qed.
Next Obligation.
  intros ? D R K ?????? b p x Hi Ha Hx. simpl in *. unfold pool_logical in Hx.
  destruct (page_table_ b !! p) as [f|] eqn:Hp.
  - destruct (zlookup (pages_ b) f) as [pg|] eqn:Hf; simplify_eq. by eapply (inv_data _ _ Hi).
  - eapply stored_data_ok; [apply (inv_disk _ _ Hi)|done].
Qed.
Next Obligation.
  intros ? D R K ?????? b p Hi [n (f & pg & Hp & _)%pool_pins_lookup]. by destruct (inv_table _ _ Hi p f Hp).
Qed.
Next Obligation. intros ? D R K ?????? b f p q Hi Hp Hq. exact (table_inj b None p q f Hi Hp Hq). Qed.
Next Obligation.
  intros ? D R K ?????? b p Hi ((? & ?) & _). pose proof (inv_next _ _ Hi). lia.
Qed.
Next Obligation.
  intros ? D R K ?????? b b' f p n d r x Hi Hp Hd Hf Hx Hrun. simpl in *.
  destruct (Unpin_ok b p n d Hi Hp Hd) as (b1 & Hrun1 & Hi1 & Hk & _ & Ht & _). rewrite Hrun1 in Hrun. simplify_eq.
  assert (Hp' : page_table_ b' !! p = Some f) by (by rewrite Ht).
  destruct (table_frame _ _ _ _ Hi1 Hp') as (pg & Hfr & _).
  destruct (GetData_ok b' p f pg x Hi1 Hp' (keeps_logical _ _ _ Hk p x ltac:(done) Hx) Hfr) as [-> _]. done.
Qed.

(** The pool over files of bytes. *)
#[export] Instance bytes_page_data `{Config} : PageData bytes := zero_page.

#[export] Instance bytes_zero_ok `{Config} : ZeroPageOk DiskManager bytes.
Proof.
  unfold ZeroPageOk. simpl. unfold page_len, page_zero, bytes_page_data, zero_page. rewrite length_replicate.
  pose proof PAGE_SIZE_pos. lia.
Qed.
