(* ===== verification/BufferPoolCorrect.v ===== *)
(** Correctness of the buffer pool manager instance: each [*PgImp] method on
    every branch, for any replacer and disk that meet their contracts, and three
    runs of the concrete pool (LRU replacer, disk manager) outside the pinning
    discipline. *)

From S2P Require Import Prelude Bytes Replacer LRUReplacer DiskManager BufferPoolManager BufferPool.

Section Correct.
Context `{Config} {D R K : Type} `{!PageData D} `{!Replacer R} `{!Disk K D}.
Context `{!ReplacerSpec R} `{!DiskSpec K D}.
Implicit Types b : BPI D R K.

(** *** Lemmas *)

Lemma BPI_new_inv (n : nat) (num idx : Z) (r : R) (k : K) :
  0 < num < 2 ^ 31 -> 0 <= idx < num -> disk_ok k -> data_ok (page_zero : D) ->
  replacer_ok r -> evictable r = [] -> capacity r = Z.of_nat n ->
  exists b, BPI_new n num idx r k = Ok b /\ pool_inv None b /\ pool_pins b = ∅
    /\ next_page_id_ b = idx /\ num_instances_ b = num.
Proof.
  intros Hn Hx Hk Hz Hr He Hc. unfold BPI_new.
  rewrite (proj2 (Z.ltb_lt 0 num)), (proj2 (Z.ltb_lt idx num)) by lia. cbn [assert rbind].
  eexists. split; [done|]. split; [|split_and!; [|done|done]].
  2:{ unfold pool_pins. simpl. apply omap_empty. }
  assert (Hfr : forall f pg, zlookup (replicate n (MkPage (page_zero : D) INVALID_PAGE_ID 0 false)) f = Ok pg ->
    pg = MkPage page_zero INVALID_PAGE_ID 0 false).
  { intros f pg [_ Hf]%zlookup_ok. by apply lookup_replicate in Hf as [-> _]. }
  split; simpl; try done.
  - apply length_replicate.
  - intros f pg Hf. apply Hfr in Hf as ->. done.
  - intros f Hf. rewrite He in Hf. set_solver.
  - apply NoDup_fmap_2; [apply _|apply NoDup_seq].
  - intros f [Hf|Hf]; [|done]. apply list_elem_of_fmap in Hf as (i & -> & Hi%elem_of_seq).
    split; [|done]. exists (MkPage page_zero INVALID_PAGE_ID 0 false).
    split_and!; [|done|done]. apply zlookup_nat, lookup_replicate_2. lia.
  - intros f Hf. left. apply list_elem_of_fmap. exists (Z.to_nat f). split; [lia|]. apply elem_of_seq. lia.
  - split; [lia|]. apply Z.mod_small. lia.
Qed.

(** A free or an evictable frame is one that no pinned page occupies. *)
Lemma pool_room_inv b :
  pool_inv None b -> free_list_ b <> [] \/ evictable (replacer_ b) <> [] ->
  (size (pool_pins b) < pool_size_ b)%nat.
Proof.
  intros Hi Hroom.
  assert (Hspare : exists f, 0 <= f < Z.of_nat (pool_size_ b)
    /\ forall p, is_Some (pool_pins b !! p) -> page_table_ b !! p <> Some f) .
  { destruct Hroom as [Hl|He].
    - destruct (free_list_ b) as [|f l] eqn:E; [done|]. exists f.
      destruct (inv_free _ _ Hi f) as ((pg & Hf & _) & Hno); [rewrite E; set_solver|].
      split; [exact (frame_range _ _ _ _ Hi Hf)|]. intros p _. apply Hno.
    - destruct (evictable (replacer_ b)) as [|f l] eqn:E; [done|]. exists f.
      destruct (inv_evict _ _ Hi f) as (q & pg & Hq & Hf & H0); [rewrite E; set_solver|].
      split; [exact (frame_range _ _ _ _ Hi Hf)|]. intros p [n Hn] Hp.
      apply pool_pins_lookup in Hn as (g & y & Hg & Hy & Hn & Hpos). assert (g = f) as -> by congruence.
      pose proof (frame_inj _ _ _ _ Hf Hy). subst. lia. }
  destruct Hspare as (f & Hf & Hno).
  set (L := f :: ((fun p => default 0 (page_table_ b !! p)) <$> (map_to_list (pool_pins b)).*1)).
  assert (HL : NoDup L /\ forall g, g ∈ L -> g ∈ seqZ 0 (Z.of_nat (pool_size_ b))).
  { assert (Hel : forall p, p ∈ (map_to_list (pool_pins b)).*1 -> exists g pg,
      is_Some (pool_pins b !! p) /\ page_table_ b !! p = Some g /\ frame b g pg).
    { intros p ([q n] & -> & Hq)%list_elem_of_fmap. apply elem_of_map_to_list in Hq. simpl.
      pose proof Hq as (g & pg & Hg & Hpg & _)%pool_pins_lookup. by exists g, pg. }
    split.
    - apply NoDup_cons. split.
      + intros (p & Hp & Hin)%list_elem_of_fmap. destruct (Hel p Hin) as (g & pg & Hs & Hg & _).
        rewrite Hg in Hp. simpl in Hp. subst. by apply (Hno p).
      + apply NoDup_fmap_2_strong; [|apply NoDup_fst_map_to_list].
        intros p q Hp Hq. destruct (Hel p Hp) as (g & ? & _ & Hg & _), (Hel q Hq) as (g' & ? & _ & Hg' & _).
        rewrite Hg, Hg'. simpl. intros ->. exact (table_inj _ _ _ _ _ Hi Hg Hg').
    - intros g. unfold L. rewrite elem_of_cons. intros [->|(p & -> & Hin)%list_elem_of_fmap].
      + apply elem_of_seqZ. lia.
      + destruct (Hel p Hin) as (g & pg & _ & Hg & Hpg). rewrite Hg. simpl.
        pose proof (frame_range _ _ _ _ Hi Hpg). apply elem_of_seqZ. lia. }
  destruct HL as [HL Hsub]. pose proof (NoDup_submseteq _ _ HL Hsub) as Hlen%submseteq_length.
  rewrite length_seqZ, Nat2Z.id in Hlen. unfold L in Hlen.
  simpl in Hlen. rewrite !length_fmap, length_map_to_list in Hlen. lia.
Qed.
End Correct.

(** ** Properties *)

(** C14: [FetchPgImp] of an allocated page on a pool with room (or already
    resident) returns a frame holding the page's current contents with one more
    pin, preserves the pool invariant and changes no other page; the page is
    read from disk only when it is not resident.  The pin count is an [int]: the
    call overflows it exactly when it is at its maximum. *)
Theorem BPI_FetchPgImp_correct `{Config} {D R K} `{!PageData D} `{!Replacer R} `{!Disk K D}
    `{!ReplacerSpec R} `{!DiskSpec K D} (b : BPI D R K) (p : Z) (x : D) :
  pool_inv None b -> allocated b p -> pool_logical b p = Some x ->
  is_Some (page_table_ b !! p) \/ (size (pool_pins b) < pool_size_ b)%nat ->
  if decide (default 0 (pool_pins b !! p) < 2 ^ 31 - 1) then
    exists f b', BPI_FetchPgImp p b = Ok (Some f, b') /\ pool_inv None b'
      /\ page_table_ b' !! p = Some f /\ BPI_GetData f b' = Ok x
      /\ pool_pins b' = <[p := default 0 (pool_pins b !! p) + 1]> (pool_pins b)
      /\ keeps None (pool_view b) (pool_view b')
      /\ (is_Some (page_table_ b !! p) -> disk_manager_ b' = disk_manager_ b)
  else BPI_FetchPgImp p b = Err IntegerOverflow.
Proof.
  intros Hi Ha Hx Hroom. destruct (page_table_ b !! p) as [f|] eqn:Hp.
  - case_decide as Hmax; [|by apply (Fetch_overflow b p f)].
    destruct (Fetch_hit b p f Hi Hp Hmax) as (b' & Hrun & Hi' & Hk & Hpins & Ht & Hd & _).
    assert (Hp' : page_table_ b' !! p = Some f) by by rewrite Ht.
    exists f, b'. split_and!; try done.
    destruct (table_frame _ _ _ _ Hi' Hp') as (pg & Hf & _).
    by apply (GetData_ok b' p f pg x Hi' Hp' (keeps_logical _ _ _ Hk _ _ ltac:(done) Hx) Hf).
  - destruct Hroom as [[? ?]|Hs]; [done|]. rewrite decide_True.
    2:{ destruct (pool_pins b !! p) as [n|] eqn:E; [|done]. apply pool_pins_table in E. rewrite Hp in E. by destruct E. }
    assert (Hst : stored (disk_manager_ b) p = Some x) by (unfold pool_logical in Hx; by rewrite Hp in Hx).
    destruct (Fetch_miss b p x Hi Hp Ha Hst (pool_room b Hi Hs))
      as (f & b' & Hrun & Hi' & Hk & Hpins & Hp' & Hx' & _).
    exists f, b'. split_and!; try done.
    destruct (table_frame _ _ _ _ Hi' Hp') as (pg & Hf & _). by apply (GetData_ok b' p f pg x Hi' Hp' Hx' Hf).
Qed.

(** a pool hands out a frame exactly when fewer pages are pinned than it has
    frames: [NewPgImp] and [FetchPgImp] of a non-resident page return [nullptr]
    and change nothing when every frame is pinned, and only then. *)
Theorem BPI_no_frame `{Config} {D R K} `{!PageData D} `{!Replacer R} `{!Disk K D}
    `{!ReplacerSpec R} `{!DiskSpec K D} (b : BPI D R K) (p : Z) :
  pool_inv None b -> page_table_ b !! p = None ->
  ((size (pool_pins b) < pool_size_ b)%nat -> exists f b', BPI_FindFreshPage b = Ok (f, b') /\ 0 <= f)
  /\ (~ (size (pool_pins b) < pool_size_ b)%nat ->
      BPI_NewPgImp b = Ok (None, b) /\ BPI_FetchPgImp p b = Ok (None, b)).
Proof.
  intros Hi Hp. split.
  - intros Hs. destruct (FindFreshPage_some b Hi (pool_room b Hi Hs)) as (f & b' & Hrun & _ & Hi' & _).
    destruct (inv_free _ _ Hi' f (or_intror eq_refl)) as ((pg & Hf & _) & _).
    exists f, b'. split; [done|]. pose proof (frame_range _ _ _ _ Hi' Hf). lia.
  - intros Hs. destruct (free_list_ b) as [|f l] eqn:Hl.
    2:{ destruct Hs. apply pool_room_inv; [done|]. left. by rewrite Hl. }
    destruct (evictable (replacer_ b)) as [|f l] eqn:He.
    2:{ destruct Hs. apply pool_room_inv; [done|]. right. by rewrite He. }
    split; [|by apply FindFreshPage_fail_Fetch].
    unfold BPI_NewPgImp. by rewrite FindFreshPage_none.
Qed.

(** C22: [NewPgImp] returns a page id never handed out before, congruent to the
    instance index, whose frame holds zeros with one pin, and changes no other
    page. *)
Theorem BPI_NewPgImp_correct `{Config} {D R K} `{!PageData D} `{!Replacer R} `{!Disk K D}
    `{!ReplacerSpec R} `{!DiskSpec K D} (b : BPI D R K) (n : nat) :
  data_ok page_zero -> pool_inv None b -> pool_budget b (S n) ->
  (size (pool_pins b) < pool_size_ b)%nat ->
  exists p f b', BPI_NewPgImp b = Ok (Some (p, f), b') /\ pool_inv None b'
    /\ ~ allocated b p /\ allocated b' p /\ p mod num_instances_ b = instance_index_ b
    /\ page_table_ b' !! p = Some f /\ BPI_GetData f b' = Ok page_zero
    /\ pool_pins b' = <[p := 1]> (pool_pins b)
    /\ keeps (Some p) (pool_view b) (pool_view b').
Proof.
  intros Hz Hi Hb Hs.
  destruct (New_ok b n Hz Hi Hb (pool_room b Hi Hs)) as (f & b' & Hrun & Hi' & Hk & Hpins & _ & Ht & Hl & Ha & _).
  exists (next_page_id_ b), f, b'. split_and!; try done; [|by apply (inv_next _ _ Hi)|].
  - intros ((_ & ?) & _). lia.
  - destruct (table_frame _ _ _ _ Hi' Ht) as (pg & Hf & _). by apply (GetData_ok b' _ f pg _ Hi' Ht Hl Hf).
Qed.

(** C21: [UnpinPgImp] fails without effect on a page that is not resident or has
    no pin.  Otherwise it removes one pin, keeps every page's contents and sets
    the dirty flag to [is_dirty], whatever it was.  Only the last pin with
    [is_dirty] set writes the page to disk.  After the last pin the disk copy is
    the page exactly if it was reported dirty or its copy was up to date before;
    in the other case, the last clean unpin of a page with changes, the
    invariant of the pool is lost, and only in that case: evicting the page then
    loses the changes. *)
Theorem BPI_UnpinPgImp_correct `{Config} {D R K} `{!PageData D} `{!Replacer R} `{!Disk K D}
    `{!ReplacerSpec R} `{!DiskSpec K D} (b : BPI D R K) (p : Z) (d : bool) :
  pool_inv None b ->
  match pool_pins b !! p with
  | None => BPI_UnpinPgImp p d b = Ok (false, b)
  | Some n => exists b', BPI_UnpinPgImp p d b = Ok (true, b')
      /\ pool_pins b' = pin_sub p n (pool_pins b) /\ keeps None (pool_view b) (pool_view b')
      /\ (exists f pg, page_table_ b' !! p = Some f /\ frame b' f pg /\ is_dirty_ pg = d)
      /\ (n <> 1 \/ d = false -> disk_manager_ b' = disk_manager_ b)
      /\ (n = 1 -> pool_synced b' p <-> d = true \/ pool_synced b p)
      /\ (pool_inv None b' <-> (n = 1 -> d = true \/ pool_synced b p))
  end.
Proof.
  intros Hi. destruct (pool_pins b !! p) as [n|] eqn:E.
  - destruct (Unpin_run b p n d Hi E) as (b' & Hrun & Hk & Hpins & Ht & _ & _ & Hw & Hcl & Hfl & Hinv).
    exists b'. split_and!; try done. intros ->. split.
    + destruct d; [by left|]. intros (x & Hx & Hs). right. rewrite Hcl in Hs by (by right).
      apply pool_pins_lookup in E as (f & pg & Hp & Hf & _). pose proof (pool_logical_table _ _ _ _ Hp Hf) as Hl.
      pose proof (keeps_logical _ _ _ Hk p _ ltac:(done) Hl) as Hl'. simpl in Hl'. exists x. split; [congruence|done].
    + intros [->|Hs]; [by apply Hw|]. by apply (keeps_synced _ _ _ Hk).
  - unfold BPI_UnpinPgImp. destruct (page_table_ b !! p) as [f|] eqn:Hp.
    + destruct (FindPage_some _ _ _ _ Hi Hp) as [-> Hne]. destruct (Z.eqb_spec f (-1)); [done|].
      destruct (table_frame _ _ _ _ Hi Hp) as (pg & Hf & _ & Hpin).
      pose proof (pins_default b None p f pg Hi Hp Hf) as H0. rewrite E in H0. simpl in H0.
      unfold frame in Hf. rewrite Hf. cbn [rbind]. by rewrite <- H0.
    + by rewrite FindPage_none.
Qed.

(** [FlushPgImp] reports whether the page is resident; a flush and
    [FlushAllPgsImp] preserve the invariant, every page's contents and pins, and
    make the disk copy of every resident page flagged dirty equal to its
    contents. *)
Theorem BPI_flush_correct `{Config} {D R K} `{!PageData D} `{!Replacer R} `{!Disk K D}
    `{!ReplacerSpec R} `{!DiskSpec K D} (b : BPI D R K) (p : Z) :
  pool_inv None b ->
  (exists b', BPI_FlushPgImp p b = Ok (bool_decide (is_Some (page_table_ b !! p)), b') /\ pool_inv None b'
     /\ keeps None (pool_view b) (pool_view b') /\ pool_pins b' = pool_pins b
     /\ (flagged b p -> pool_synced b' p))
  /\ exists b', BPI_FlushAllPgsImp b = Ok b' /\ pool_inv None b'
     /\ keeps None (pool_view b) (pool_view b') /\ pool_pins b' = pool_pins b
     /\ (forall q, flagged b q -> pool_synced b' q).
Proof.
  intros Hi. split.
  - destruct (page_table_ b !! p) as [f|] eqn:Hp.
    + destruct (FlushPgImp_resident b p f Hi Hp) as (b' & Hrun & Hi' & Hk & Hpins & _ & _ & _ & Hs).
      exists b'. split_and!; try done. intros (g & pg & Hg & Hpg & Hd). apply Hs.
      intros pg' Hf' Hcl. assert (g = f) as -> by congruence. pose proof (frame_inj _ _ _ _ Hpg Hf'). congruence.
    + exists b. unfold BPI_FlushPgImp. rewrite Hp. split_and!; try done.
      intros (g & pg & Hg & _). congruence.
  - destruct (FlushAll_ok b Hi) as (b' & Hrun & Hi' & Hk & Hpins & _ & _ & _ & Hs). by exists b'.
Qed.

(** [DeletePgImp] of a page that is not resident returns true and of a
    pinned page returns false, without effect.  Of an unpinned resident page it
    erases the page and frees its frame, but the frame stays in the replacer:
    it is free and evictable at once, which the pool invariant excludes. *)
Theorem BPI_DeletePgImp_cases `{Config} {D R K} `{!PageData D} `{!Replacer R} `{!Disk K D}
    `{!ReplacerSpec R} `{!DiskSpec K D} (b : BPI D R K) (p : Z) :
  pool_inv None b ->
  match page_table_ b !! p, pool_pins b !! p with
  | None, _ => BPI_DeletePgImp p b = Ok (true, b)
  | Some _, Some _ => BPI_DeletePgImp p b = Ok (false, b)
  | Some f, None => exists b', BPI_DeletePgImp p b = Ok (true, b')
      /\ page_table_ b' = delete p (page_table_ b) /\ free_list_ b' = free_list_ b ++ [f]
      /\ disk_manager_ b' = disk_manager_ b
      /\ f ∈ evictable (replacer_ b') /\ ~ pool_inv None b'
  end.
Proof.
  intros Hi. destruct (page_table_ b !! p) as [f|] eqn:Hp.
  2:{ unfold BPI_DeletePgImp. by rewrite FindPage_none. }
  destruct (inv_table _ _ Hi p f Hp) as (_ & pg & Hf & Hid & Hpin & H0).
  pose proof (pins_default b None p f pg Hi Hp Hf) as Hd.
  unfold BPI_DeletePgImp. destruct (FindPage_some _ _ _ _ Hi Hp) as [-> Hne].
  destruct (Z.eqb_spec f (-1)); [done|]. pose proof Hf as Hf1. unfold frame in Hf1. rewrite Hf1. cbn [rbind].
  rewrite <- Hd. destruct (pool_pins b !! p) as [k|] eqn:E; simpl in *.
  - apply pool_pins_lookup in E as (_ & _ & _ & _ & _ & Hpos). by destruct (Z.eqb_spec k 0); [lia|].
  - destruct (H0 (eq_sym Hd)) as [Hev _]. erewrite (set_page_ok (set_table _ b) f pg) by done. cbn [rbind].
    eexists. split_and!; [done..|]. intros Hi'.
    destruct (inv_evict _ _ Hi' f Hev) as (q & y & Hq & _).
    destruct (inv_free _ _ Hi' f) as (_ & Hno); [left; simpl; set_solver|]. by apply (Hno q).
Qed.

(** [UnpinPgImp] overwrites the dirty flag instead of accumulating it: when
    one holder of a page unpins it dirty and the last holder unpins it clean,
    nothing is written, and a page that differed from its disk copy is left
    evictable without having been saved. *)
Theorem BPI_UnpinPgImp_forgets_dirty `{Config} {D R K} `{!PageData D} `{!Replacer R} `{!Disk K D}
    `{!ReplacerSpec R} `{!DiskSpec K D} (b : BPI D R K) (p : Z) (x : D) :
  pool_inv None b -> pool_pins b !! p = Some 2 -> pool_logical b p = Some x ->
  stored (disk_manager_ b) p <> Some x ->
  exists f b1 b2, BPI_UnpinPgImp p true b = Ok (true, b1) /\ BPI_UnpinPgImp p false b1 = Ok (true, b2)
    /\ page_table_ b2 !! p = Some f /\ f ∈ evictable (replacer_ b2)
    /\ disk_manager_ b2 = disk_manager_ b /\ stored (disk_manager_ b2) p <> Some x.
Proof.
  intros Hi Hn Hx Hst.
  pose proof Hn as (f & pg & Hp & Hf & Hpin & _)%pool_pins_lookup.
  destruct (FindPage_some _ _ _ _ Hi Hp) as [Hfp Hne].
  destruct (Unpin_spec (replacer_ b) f) as (r' & Hun & _ & Hev & _);
    [apply (inv_rep _ _ Hi)|rewrite (inv_cap _ _ Hi); exact (frame_range _ _ _ _ Hi Hf)|].
  set (pg1 := MkPage (data_ pg) (pg_page_id_ pg) 1 true).
  set (b1 := set_pages (<[Z.to_nat f := pg1]> (pages_ b)) b).
  assert (Hf1 : frame b1 f pg1) by (apply (frame_set_pages b f pg f pg1 pg1 Hf); by rewrite decide_True).
  set (pg2 := MkPage (data_ pg) (pg_page_id_ pg) 0 false).
  set (b2 := set_pages (<[Z.to_nat f := pg2]> (pages_ b1)) b1).
  assert (Hf2 : frame b2 f pg2) by (apply (frame_set_pages b1 f pg1 f pg2 pg2 Hf1); by rewrite decide_True).
  exists f, b1, (set_replacer r' b2).
  split_and!; [| |done|simpl; rewrite Hev; apply elem_of_queue_unpin; by left|done|done].
  - unfold BPI_UnpinPgImp. rewrite Hfp. destruct (Z.eqb_spec f (-1)); [done|].
    unfold frame in Hf. rewrite Hf. cbn [rbind]. rewrite Hpin. cbn [Z.eqb Pos.eqb].
    by rewrite (set_page_ok b f pg).
  - unfold BPI_UnpinPgImp. change (BPI_FindPage p b1) with (BPI_FindPage p b). rewrite Hfp.
    destruct (Z.eqb_spec f (-1)); [done|].
    pose proof Hf1 as Hf1'. unfold frame in Hf1'. rewrite Hf1'. cbn [rbind pg1 pin_count_].
    rewrite (set_page_ok b1 f pg1) by done. cbn [rbind data_ pg_page_id_ Z.eqb Z.sub Z.add Z.opp Z.pos_sub].
    fold pg2. change (set_pages _ b1) with b2.
    match goal with |- context [Unpin f ?r] => change r with (replacer_ b) end. rewrite Hun. cbn [rbind].
    unfold BPI_FlushPg. change (BPI_FindPage p (set_replacer r' b2)) with (BPI_FindPage p b). rewrite Hfp.
    change (pages_ (set_replacer r' b2)) with (pages_ b2). unfold frame in Hf2. by rewrite Hf2.
Qed.

(** ** Concrete pools *)

Section Tiny.
#[local] Existing Instance tiny_config | 0.
Notation pool := (BPI bytes LRUReplacer DiskManager).

(** A pool of [n] frames over an empty file, pages of four bytes. *)
Definition tiny_new (n : nat) : res pool := BPI_new n 1 0 (LRUReplacer_new n) (DiskManager_new [] []).
(** ... in which page 0 has just been allocated. *)
Definition tiny_one (n : nat) : res pool :=
  let! b := tiny_new n in let! '(_, b) := BPI_NewPgImp b in Ok b.

Lemma tiny_new_inv n :
  exists b : pool, tiny_new n = Ok b /\ pool_inv None b /\ pool_pins b = ∅ /\ next_page_id_ b = 0
    /\ num_instances_ b = 1 /\ pool_size_ b = n.
Proof.
  destruct (BPI_new_inv n 1 0 (LRUReplacer_new n) (DiskManager_new [] []) : _) as (b & Hb & Hi & Hp & Hn & Hu).
  - lia.
  - lia.
  - simpl. lia.
  - apply page_zero_ok.
  - apply lru_new_inv.
  - done.
  - simpl. by rewrite length_replicate.
  - exists b. split_and!; try done. unfold BPI_new in Hb. simpl in Hb. by simplify_eq.
Qed.

Lemma tiny_budget (b : pool) (n : nat) :
  num_instances_ b = 1 -> 0 <= next_page_id_ b -> next_page_id_ b + Z.of_nat n < 2 ^ 28 -> pool_budget b n.
Proof.
  intros Hu H0 Hn. unfold pool_budget. rewrite Hu. simpl in *. split; [lia|].
  intros i Hi. split; simpl; lia.
Qed.

Lemma tiny_one_inv n :
  exists b b1 : pool, tiny_new (S n) = Ok b /\ BPI_NewPgImp b = Ok (Some (0, 0), b1)
    /\ tiny_one (S n) = Ok b1 /\ pool_inv None b1 /\ pool_pins b1 = {[0 := 1]}
    /\ page_table_ b1 !! 0 = Some 0 /\ pool_logical b1 0 = Some zero_page /\ allocated b1 0
    /\ next_page_id_ b1 = 1 /\ num_instances_ b1 = 1 /\ pool_size_ b1 = S n.
Proof.
  destruct (tiny_new_inv (S n)) as (b & Hb & Hi & Hp & Hn & Hu & Hs).
  destruct (New_ok b 0 (page_zero_ok (K := DiskManager)) Hi) as (f & b1 & Hrun & Hi1 & Hk & Hpins & _ & Ht & Hl & Ha & _ & Hn1 & _).
  - apply tiny_budget; simpl in *; lia.
  - apply pool_room; [done|]. rewrite Hp, Hs, map_size_empty. lia.
  - assert (f = 0) as ->.
    { unfold tiny_new, BPI_new in Hb. simpl in Hb. simplify_eq. unfold BPI_NewPgImp in Hrun. simpl in Hrun. by simplify_eq. }
    rewrite Hn in *. exists b, b1. split_and!; try done.
    + unfold tiny_one. rewrite Hb. simpl. by rewrite Hrun.
    + by rewrite Hpins, Hp.
    + lia.
    + unfold BPI_NewPgImp in Hrun. unfold tiny_new, BPI_new in Hb. simpl in Hb. simplify_eq. simpl in Hrun. by simplify_eq.
    + pose proof (keeps_frames _ _ _ Hk) as Hf. simpl in Hf. congruence.
Qed.

Lemma BPI_FetchPgImp_correct_witness :
  exists b b' : pool, tiny_one 2 = Ok b /\ BPI_FetchPgImp 0 b = Ok (Some 0, b')
    /\ BPI_GetData 0 b' = Ok [0; 0; 0; 0] /\ pool_pins b' !! 0 = Some 2.
Proof.
  destruct (tiny_one_inv 1) as (_ & b & _ & _ & Hb & Hi & Hp & Ht & Hl & Ha & _).
  pose proof (BPI_FetchPgImp_correct b 0 zero_page Hi Ha Hl ltac:(left; by rewrite Ht)) as Hf.
  rewrite decide_True in Hf by (by rewrite Hp). destruct Hf as (f & b' & Hrun & _ & Ht' & Hd & Hpins & Hk & _).
  assert (f = 0) as ->.
  { pose proof (keeps_holds _ _ _ Hk 0 0) as Hh. simpl in Hh. rewrite Hp in Hh.
    specialize (Hh ltac:(by exists 1) Ht). congruence. }
  exists b, b'. split_and!; [done|done|done|]. by rewrite Hpins, Hp.
Defined.

Lemma BPI_no_frame_witness :
  exists b : pool, tiny_one 1 = Ok b /\ BPI_NewPgImp b = Ok (None, b) /\ BPI_FetchPgImp 7 b = Ok (None, b).
Proof.
  destruct (tiny_one_inv 0) as (_ & b & _ & _ & Hb & Hi & Hp & Ht & _ & _ & Hn & Hu & Hs).
  exists b. split; [done|]. apply (BPI_no_frame b 7 Hi).
  - destruct (page_table_ b !! 7) as [f|] eqn:E; [|done].
    destruct (inv_table _ _ Hi _ _ E) as ((Hlt & _) & _). rewrite Hn in Hlt. lia.
  - rewrite Hp, Hs, map_size_singleton. lia.
Defined.

Lemma BPI_NewPgImp_correct_witness :
  exists (b b' : pool) f, tiny_one 2 = Ok b /\ BPI_NewPgImp b = Ok (Some (1, f), b')
    /\ BPI_GetData f b' = Ok [0; 0; 0; 0] /\ pool_pins b' = {[0 := 1; 1 := 1]}.
Proof.
  destruct (tiny_one_inv 1) as (_ & b & _ & _ & Hb & Hi & Hp & Ht & _ & _ & Hn & Hu & Hs).
  destruct (BPI_NewPgImp_correct b 0 (page_zero_ok (K := DiskManager)) Hi)
    as (p & f & b' & Hrun & Hi' & Hna & Ha & _ & _ & Hd & Hpins & _).
  - apply tiny_budget; simpl in *; lia.
  - rewrite Hp, Hs, map_size_singleton. lia.
  - assert (p = 1) as ->.
    { unfold tiny_one, tiny_new, BPI_new in Hb. simpl in Hb. simplify_eq. unfold BPI_NewPgImp in Hrun.
      simpl in Hrun. by simplify_eq. }
    exists b, b', f. split_and!; [done|done|done|]. rewrite Hpins, Hp. reflexivity.
Defined.

Lemma BPI_UnpinPgImp_correct_witness :
  exists b b' b'' : pool, tiny_one 2 = Ok b /\ BPI_UnpinPgImp 0 true b = Ok (true, b') /\ pool_synced b' 0 /\ pool_inv None b'
    /\ BPI_UnpinPgImp 0 false b = Ok (true, b'') /\ disk_manager_ b'' = disk_manager_ b /\ ~ pool_inv None b''
    /\ BPI_UnpinPgImp 9 true b = Ok (false, b).
Proof.
  destruct (tiny_one_inv 1) as (_ & b & _ & _ & Hb & Hi & Hp & _).
  pose proof (BPI_UnpinPgImp_correct b 0 true Hi) as Hu. rewrite Hp in Hu. simpl in Hu.
  destruct Hu as (b' & Hrun & _ & _ & _ & _ & Hs & Hinv).
  pose proof (BPI_UnpinPgImp_correct b 0 false Hi) as Hc. rewrite Hp in Hc. simpl in Hc.
  destruct Hc as (b'' & Hrun' & _ & _ & _ & Hd & _ & Hinv').
  pose proof (BPI_UnpinPgImp_correct b 9 true Hi) as Hv. rewrite Hp in Hv. simpl in Hv.
  exists b, b', b''. split_and!; [done|done|apply Hs; [done|by left]|apply Hinv; by left|done|apply Hd; by right| |done].
  rewrite Hinv'. intros Hn. destruct (Hn eq_refl) as [?|(x & _ & Hst)]; [done|].
  unfold tiny_one, tiny_new, BPI_new in Hb. vm_compute in Hb. injection Hb as <-. by vm_compute in Hst.
Defined.

Lemma BPI_flush_correct_witness :
  exists b b' : pool, tiny_one 2 = Ok b /\ BPI_FlushPgImp 0 b = Ok (true, b') /\ pool_pins b' = {[0 := 1]}.
Proof.
  destruct (tiny_one_inv 1) as (_ & b & _ & _ & Hb & Hi & Hp & Ht & _).
  destruct (BPI_flush_correct b 0 Hi) as [(b' & Hrun & _ & _ & Hpins & _) _].
  rewrite Ht in Hrun. exists b, b'. split_and!; [done|done|congruence].
Defined.

Lemma BPI_DeletePgImp_cases_witness :
  exists b b1 b2 : pool, tiny_one 1 = Ok b /\ BPI_DeletePgImp 0 b = Ok (false, b)
    /\ BPI_UnpinPgImp 0 true b = Ok (true, b1) /\ BPI_DeletePgImp 0 b1 = Ok (true, b2)
    /\ free_list_ b2 = [0] /\ 0 ∈ evictable (replacer_ b2).
Proof.
  destruct (tiny_one_inv 0) as (_ & b & _ & _ & Hb & Hi & Hp & Ht & _).
  destruct (Unpin_ok b 0 1 true Hi) as (b1 & Hrun & Hi1 & _ & Hpins & Ht1 & _); [by rewrite Hp|by left|].
  pose proof (BPI_DeletePgImp_cases b 0 Hi) as Hd. rewrite Ht, Hp in Hd. simpl in Hd.
  pose proof (BPI_DeletePgImp_cases b1 0 Hi1) as Hd1. rewrite Ht1, Ht, Hpins, Hp in Hd1. simpl in Hd1.
  destruct Hd1 as (b2 & Hdel & _ & Hfree & _ & Hev & _).
  exists b, b1, b2. split_and!; try done. rewrite Hfree.
  unfold tiny_one, tiny_new, BPI_new in Hb. simpl in Hb. simplify_eq. unfold BPI_UnpinPgImp in Hrun.
  vm_compute in Hrun. injection Hrun as <-. reflexivity.
Defined.

Lemma BPI_UnpinPgImp_forgets_dirty_witness :
  exists b b0 b1 b2 : pool, tiny_one 1 = Ok b /\ BPI_FetchPgImp 0 b = Ok (Some 0, b0)
    /\ BPI_UnpinPgImp 0 true b0 = Ok (true, b1) /\ BPI_UnpinPgImp 0 false b1 = Ok (true, b2)
    /\ db_io_ (disk_manager_ b2) = [].
Proof.
  destruct (tiny_one_inv 0) as (_ & b & _ & _ & Hb & Hi & Hp & Ht & Hl & Ha & _).
  destruct (Fetch_hit b 0 0 Hi Ht ltac:(by rewrite Hp)) as (b0 & Hrun & Hi0 & Hk & Hpins & _ & Hd & _).
  assert (Hdb : db_io_ (disk_manager_ b) = []).
  { unfold tiny_one, tiny_new, BPI_new in Hb. simpl in Hb. by simplify_eq. }
  destruct (BPI_UnpinPgImp_forgets_dirty b0 0 zero_page Hi0) as (f & b1 & b2 & H1 & H2 & _ & _ & H3 & _).
  - by rewrite Hpins, Hp.
  - by apply (keeps_logical _ _ _ Hk).
  - rewrite Hd. simpl. by rewrite Hdb.
  - exists b, b0, b1, b2. split_and!; try done. by rewrite H3, Hd, Hdb.
Defined.

(** deleting an unpinned page of a one-frame pool lets two later
    [NewPgImp] calls hand out the same frame to two pinned pages, where the
    pool should report that it is full; the first page's id is lost from the
    page table. *)
Theorem BPI_delete_aliases_frame :
  (let! b := tiny_one 1 in
   let! '(_, b) := BPI_UnpinPgImp 0 true b in
   let! '(_, b) := BPI_DeletePgImp 0 b in
   let! '(r1, b1) := BPI_NewPgImp b in
   let! '(r2, b2) := BPI_NewPgImp b1 in
   Ok (r1, pool_pins b1, r2, pool_pins b2, page_table_ b2 !! 1))
  = Ok (Some (1, 0), {[1 := 1]}, Some (2, 0), {[2 := 2]}, None).
Proof. vm_compute. reflexivity. Qed.

(** a new page that is unpinned clean is never written, and fetching it
    again after its frame was reused reads past the end of the file and
    returns the bytes of whichever page the frame held: here page 2 comes back
    with the contents of page 0. *)
Theorem BPI_clean_new_page_is_stale :
  (let! b := tiny_one 1 in
   let! b := BPI_SetData 0 [7; 7; 7; 7] b in
   let! '(_, b) := BPI_UnpinPgImp 0 true b in
   let! '(_, b) := BPI_NewPgImp b in
   let! '(_, b) := BPI_UnpinPgImp 1 false b in
   let! '(r, b) := BPI_NewPgImp b in
   let! x := BPI_GetData 0 b in
   let! '(_, b) := BPI_UnpinPgImp 2 false b in
   let! '(_, b) := BPI_FetchPgImp 0 b in
   let! '(_, b) := BPI_UnpinPgImp 0 false b in
   let! '(_, b) := BPI_FetchPgImp 2 b in
   let! y := BPI_GetData 0 b in
   Ok (r, x, y)) = Ok (Some (2, 0), [0; 0; 0; 0], [7; 7; 7; 7]).
Proof. vm_compute. reflexivity. Qed.
End Tiny.

(** ** A buffer pool over an empty file, as a server starts with: the pool of the
    concrete runs of the access methods *)

Section Fresh.
Notation pool := (BPI bytes LRUReplacer DiskManager).

(** A pool of [n] frames over an empty file. *)
Definition fresh_pool (n : nat) : res pool := BPI_new n 1 0 (LRUReplacer_new n) (DiskManager_new [] []).

Lemma fresh_pool_inv n :
  exists b : pool, fresh_pool n = Ok b /\ pool_ok b /\ pins (view b) = ∅ /\ frames (view b) = n
    /\ forall k, Z.of_nat k <= 10000 -> budget (view b) k.
Proof.
  destruct (BPI_new_inv n 1 0 (LRUReplacer_new n) (DiskManager_new [] []) : _) as (b & Hb & Hi & Hp & Hn & Hu).
  - lia.
  - lia.
  - simpl. lia.
  - apply page_zero_ok.
  - apply lru_new_inv.
  - done.
  - simpl. by rewrite length_replicate.
  - exists b. unfold fresh_pool. unfold BPI_new in Hb. simpl in Hb. simplify_eq. split_and!; try done.
    intros k Hk. split; [simpl; lia|]. intros i Hi'. split; simpl; lia.
Qed.
End Fresh.

