(* ===== verification/PoolClient.v ===== *)
(** Clients of a buffer pool.

    A client of [BufferPoolManager] is a program that calls its methods and goes
    on with their answers.  A client that keeps the pinning discipline cannot
    tell the pool from a plain store of pages: it never fails, and every answer
    is the one the store gives.  The theorem holds for whatever meets
    [BufferPoolSpec]. *)

From S2P Require Import Prelude BufferPoolManager.

(** ** Definitions *)

Inductive call (D : Type) : Type :=
| CNew
| CFetch (p : Z)
| CUnpin (p : Z) (dirty : bool)
| CRead (p : Z)
| CWrite (p : Z) (x : D)
| CFlush (p : Z)
| CFlushAll.
Arguments CNew {D}.
Arguments CFetch {D} _.
Arguments CUnpin {D} _ _.
Arguments CRead {D} _.
Arguments CWrite {D} _ _.
Arguments CFlush {D} _.
Arguments CFlushAll {D}.

Inductive answer (D : Type) : Type :=
| ANew (p : Z)
| ANull
| ABool (b : bool)
| AData (x : D)
| ADone.
Arguments ANew {D} _.
Arguments ANull {D}.
Arguments ABool {D} _.
Arguments AData {D} _.
Arguments ADone {D}.

Inductive client (D : Type) : Type :=
| Return
| Call (c : call D) (k : answer D -> client D).
Arguments Return {D}.
Arguments Call {D} _ _.

(** *** On a pool *)

Section Run.
Context {S P D : Type} `{!BufferPoolManager S P D}.

(** The client keeps the pointer each page id was last given with. *)
Definition with_pool {A} (m : M S A) : M (S * gmap Z P) A :=
  fun '(s, h) => let! '(a, s) := m s in Ok (a, (s, h)).
Definition remember (p : Z) (f : P) : M (S * gmap Z P) unit := fun '(s, h) => Ok (tt, (s, <[p := f]> h)).
Definition pointer (p : Z) : M (S * gmap Z P) P := fun '(s, h) =>
  let! f := of_option NullDereference (h !! p) in Ok (f, (s, h)).

Definition exec_call (c : call D) : M (S * gmap Z P) (answer D) :=
  match c with
  | CNew =>
      do! r := with_pool NewPage in
      match r with
      | Some (p, f) => do! _ := remember p f in sret (ANew p)
      | None => sret ANull
      end
  | CFetch p =>
      do! r := with_pool (FetchPage p) in
      match r with
      | Some f => do! _ := remember p f in sret ADone
      | None => sret ANull
      end
  | CUnpin p dirty => do! r := with_pool (UnpinPage p dirty) in sret (ABool r)
  | CRead p => do! f := pointer p in do! x := with_pool (GetData f) in sret (AData x)
  | CWrite p x => do! f := pointer p in do! _ := with_pool (SetData f x) in sret ADone
  | CFlush p => do! r := with_pool (FlushPage p) in sret (ABool r)
  | CFlushAll => do! _ := with_pool FlushAllPages in sret ADone
  end.

Fixpoint run (cl : client D) : M (S * gmap Z P) (list (answer D)) :=
  match cl with
  | Return => sret []
  | Call c k => do! r := exec_call c in do! rs := run (k r) in sret (r :: rs)
  end.
End Run.

(** *** On a store of pages *)

(** [unsaved]: the pages whose last unpin has to say that they are dirty;
    [spare]: how many pages may still be created. *)
Record Store (D : Type) : Type := MkStore {
  contents : gmap Z D;
  counts : gmap Z Z;
  unsaved : gset Z;
  spare : nat
}.
Arguments MkStore {D} _ _ _ _.
Arguments contents {D} _.
Arguments counts {D} _.
Arguments unsaved {D} _.
Arguments spare {D} _.

(** The discipline, for a pool of [n] frames. *)
Definition permitted {D} (good : D -> Prop) (n : nat) (a : Store D) (c : call D) : Prop :=
  match c with
  | CNew => (size (counts a) < n)%nat /\ spare a <> O
  | CFetch p => is_Some (contents a !! p) /\ match counts a !! p with Some k => k < 2 ^ 31 - 1 | None => (size (counts a) < n)%nat end
  | CUnpin p dirty => exists k, counts a !! p = Some k /\ (k = 1 -> dirty = true \/ p ∉ unsaved a)
  | CRead p => is_Some (counts a !! p)
  | CWrite p x => is_Some (counts a !! p) /\ good x
  | CFlush p => is_Some (contents a !! p)
  | CFlushAll => True
  end.

(** What a call answers and does.  The id of a new page is not determined, nor
    whether a page that is not pinned is resident when it is flushed. *)
Inductive store_step {D} (zero : D) (a : Store D) : call D -> answer D -> Store D -> Prop :=
| store_new p :
    contents a !! p = None ->
    store_step zero a CNew (ANew p)
      (MkStore (<[p := zero]> (contents a)) (<[p := 1]> (counts a)) ({[p]} ∪ unsaved a) (pred (spare a)))
| store_fetch p :
    store_step zero a (CFetch p) ADone
      (MkStore (contents a) (pin_add p (counts a))
         (match counts a !! p with Some _ => unsaved a | None => unsaved a ∖ {[p]} end) (spare a))
| store_unpin p dirty k :
    counts a !! p = Some k ->
    store_step zero a (CUnpin p dirty) (ABool true) (MkStore (contents a) (pin_sub p k (counts a)) (unsaved a) (spare a))
| store_read p x : contents a !! p = Some x -> store_step zero a (CRead p) (AData x) a
| store_write p x :
    store_step zero a (CWrite p x) ADone (MkStore (<[p := x]> (contents a)) (counts a) ({[p]} ∪ unsaved a) (spare a))
| store_flush p r : (is_Some (counts a !! p) -> r = true) -> store_step zero a (CFlush p) (ABool r) a
| store_flush_all : store_step zero a CFlushAll ADone a.

(** A client all of whose calls are permitted, whatever new ids it gets. *)
Fixpoint disciplined {D} (good : D -> Prop) (zero : D) (n : nat) (a : Store D) (cl : client D) : Prop :=
  match cl with
  | Return => True
  | Call c k => permitted good n a c /\
      forall r a', store_step zero a c r a' -> disciplined good zero n a' (k r)
  end.

(** The answers the store gives a client. *)
Inductive answers {D} (zero : D) : Store D -> client D -> list (answer D) -> Prop :=
| answers_return a : answers zero a Return []
| answers_call a c k r a' rs :
    store_step zero a c r a' -> answers zero a' (k r) rs -> answers zero a (Call c k) (r :: rs).

(** ** The pool is a store of pages *)

Section Refinement.
Context {S P D : Type} `{!BufferPoolManager S P D} `{!BufferPoolSpec S P D}.
Implicit Types (s : S) (h : gmap Z P) (a : Store D) (c : call D).
Notation good := (good_data (S := S) (P := P) (D := D)).
Notation zero := (zero_data (S := S) (P := P) (D := D)).

Record represents s h a : Prop := {
  rp_ok : pool_ok s;
  rp_contents p x : contents a !! p = Some x -> live (view s) p /\ logical (view s) p = Some x;
  rp_counts : pins (view s) = counts a;
  rp_known p : is_Some (counts a !! p) -> is_Some (contents a !! p);
  rp_handles p : is_Some (counts a !! p) -> exists f, h !! p = Some f /\ holds (view s) f p;
  rp_saved p : is_Some (counts a !! p) -> p ∉ unsaved a -> synced (view s) p;
  rp_spare : budget (view s) (spare a)
}.

(** Before its first call a client holds no pins. *)
Lemma represents_start s (m : gmap Z D) n :
  pool_ok s -> pins (view s) = ∅ -> budget (view s) n ->
  (forall p x, m !! p = Some x -> live (view s) p /\ logical (view s) p = Some x) ->
  represents s ∅ (MkStore m ∅ ∅ n).
Proof.
  intros Hs Hp Hb Hm. split; simpl; [done|done|done|..]; try done;
    intros p [? Hx]; by rewrite lookup_empty in Hx.
Qed.

Lemma rp_pinned s h a p :
  represents s h a -> is_Some (counts a !! p) ->
  exists f x, h !! p = Some f /\ holds (view s) f p /\ contents a !! p = Some x
    /\ logical (view s) p = Some x /\ is_Some (pins (view s) !! p).
Proof.
  intros Hr Hp. destruct (rp_handles _ _ _ Hr p Hp) as (f & Hf & Hh). destruct (rp_known _ _ _ Hr p Hp) as [x Hx].
  destruct (rp_contents _ _ _ Hr p x Hx) as [_ Hl]. exists f, x. rewrite (rp_counts _ _ _ Hr). done.
Qed.

(** One call on both sides. *)
Definition simulated s h a c : Prop :=
  exists r s' h' a', exec_call c (s, h) = Ok (r, (s', h')) /\ store_step zero a c r a' /\ represents s' h' a'
    /\ frames (view s') = frames (view s).

Lemma new_simulated s h a : represents s h a -> permitted good (frames (view s)) a CNew -> simulated s h a CNew.
Proof.
  intros Hr [Hsz Hsp]. destruct (spare a) as [|n] eqn:En; [done|].
  pose proof (rp_spare _ _ _ Hr) as Hb. rewrite En in Hb. rewrite <- (rp_counts _ _ _ Hr) in Hsz.
  pose proof (NewPage_spec s n (rp_ok _ _ _ Hr) Hb Hsz) as Hw.
  apply wp_run in Hw as (r & s' & Hrun & p & f & -> & Hs' & _ & Hnl & Hl & _ & Hf & Hz & Hk & Hpins & Hb').
  assert (Hnone : contents a !! p = None).
  { destruct (contents a !! p) as [x|] eqn:E; [|done]. by apply (rp_contents _ _ _ Hr) in E as [? _]. }
  eexists _, s', (<[p := f]> h), _. split.
  { cbn [exec_call]. unfold sbind, with_pool. rewrite Hrun. done. }
  split; [by constructor|]. split; [|apply Hk]. split; cbn [contents counts unsaved spare]; [done|..].
  - intros q y. destruct (decide (q = p)) as [->|Hq]; [rewrite lookup_insert_eq; intros [= <-]; done|].
    rewrite lookup_insert_ne by done. intros [H1 H2]%(rp_contents _ _ _ Hr).
    split; [by apply Hk|]. apply Hk; [congruence|done].
  - by rewrite Hpins, (rp_counts _ _ _ Hr).
  - intros q. rewrite !lookup_insert_is_Some. intros [->|[Hq Hc]]; [by left|].
    right. split; [done|]. by apply (rp_known _ _ _ Hr).
  - intros q. rewrite lookup_insert_is_Some. intros [->|[Hq Hc]]; [rewrite lookup_insert_eq; by exists f|].
    rewrite lookup_insert_ne by done. destruct (rp_handles _ _ _ Hr q Hc) as (g & Hg & Hh). exists g.
    split; [done|]. apply Hk; [|done]. by rewrite (rp_counts _ _ _ Hr).
  - intros q. rewrite lookup_insert_is_Some, not_elem_of_union, not_elem_of_singleton.
    intros [->|[Hq Hc]] [Hne Hu]; [done|]. apply Hk; [congruence|]. by apply (rp_saved _ _ _ Hr).
  - by rewrite En.
Qed.

Lemma fetch_simulated s h a p :
  represents s h a -> permitted good (frames (view s)) a (CFetch p) -> simulated s h a (CFetch p).
Proof.
  intros Hr [[x Hx] Hroom]. destruct (rp_contents _ _ _ Hr p x Hx) as [Hl Hlx].
  rewrite <- (rp_counts _ _ _ Hr) in Hroom.
  pose proof (FetchPage_spec s p x (rp_ok _ _ _ Hr) Hl Hlx Hroom) as Hw.
  apply wp_run in Hw as (r & s' & Hrun & f & -> & Hs' & Hf & Hk & Hpins & Hsy & Hb).
  eexists _, s', (<[p := f]> h), _. split.
  { cbn [exec_call]. unfold sbind, with_pool. rewrite Hrun. done. }
  split; [by constructor|]. split; [|apply Hk].
  assert (Hin : forall q, q <> p -> is_Some (pin_add p (counts a) !! q) -> is_Some (counts a !! q)).
  { intros q Hq. by rewrite pin_add_lookup_ne by done. }
  split; cbn [contents counts unsaved spare]; [done|..].
  - intros q y [H1 H2]%(rp_contents _ _ _ Hr). split; [by apply Hk|]. by apply Hk.
  - by rewrite Hpins, (rp_counts _ _ _ Hr).
  - intros q Hc. destruct (decide (q = p)) as [->|Hq]; [done|]. by apply (rp_known _ _ _ Hr), Hin.
  - intros q Hc. destruct (decide (q = p)) as [->|Hq]; [rewrite lookup_insert_eq; by exists f|].
    rewrite lookup_insert_ne by done. destruct (rp_handles _ _ _ Hr q (Hin q Hq Hc)) as (g & Hg & Hh). exists g.
    split; [done|]. apply Hk; [|done]. rewrite (rp_counts _ _ _ Hr). by apply Hin.
  - intros q Hc Hu. destruct (decide (q = p)) as [->|Hq].
    + destruct (counts a !! p) as [k|] eqn:Ek; [|apply Hsy; by rewrite (rp_counts _ _ _ Hr)].
      apply Hk; [done|]. by apply (rp_saved _ _ _ Hr); [rewrite Ek|].
    + apply Hk; [done|]. apply (rp_saved _ _ _ Hr); [by apply Hin|].
      destruct (counts a !! p); [done|]. set_solver.
  - apply Hb, Hr.
Qed.

Lemma pin_sub_known q p k (m : gmap Z Z) : m !! p = Some k -> is_Some (pin_sub p k m !! q) -> is_Some (m !! q).
Proof.
  intros Hp. unfold pin_sub. destruct (k =? 1).
  - rewrite lookup_delete_is_Some. tauto.
  - rewrite lookup_insert_is_Some. intros [<-|[_ ?]]; [by rewrite Hp|done].
Qed.

Lemma unpin_simulated s h a p d :
  represents s h a -> permitted good (frames (view s)) a (CUnpin p d) -> simulated s h a (CUnpin p d).
Proof.
  intros Hr (k & Hc & Hd). pose proof Hc as Hp. rewrite <- (rp_counts _ _ _ Hr) in Hp.
  assert (Hd' : k = 1 -> d = true \/ synced (view s) p).
  { intros E. destruct (Hd E) as [?|?]; [by left|]. right. by apply (rp_saved _ _ _ Hr); [rewrite Hc|]. }
  pose proof (UnpinPage_spec s p k d (rp_ok _ _ _ Hr) Hp Hd') as Hw.
  apply wp_run in Hw as (r & s' & Hrun & -> & Hs' & Hk & Hpins & Hb).
  eexists _, s', h, _. split; [cbn [exec_call]; unfold sbind, with_pool; by rewrite Hrun|].
  split; [by constructor|]. split; [|apply Hk].
  pose proof (fun q => pin_sub_known q p k (counts a) Hc) as Hin.
  split; cbn [contents counts unsaved spare]; [done|..].
  - intros q y [H1 H2]%(rp_contents _ _ _ Hr). split; [by apply Hk|]. by apply Hk.
  - by rewrite Hpins, (rp_counts _ _ _ Hr).
  - intros q Hq%Hin. by apply (rp_known _ _ _ Hr).
  - intros q Hq%Hin. destruct (rp_handles _ _ _ Hr q Hq) as (g & Hg & Hh). exists g.
    split; [done|]. apply Hk; [|done]. by rewrite (rp_counts _ _ _ Hr).
  - intros q Hq%Hin Hu. apply Hk; [done|]. by apply (rp_saved _ _ _ Hr).
  - apply Hb, Hr.
Qed.

Lemma read_simulated s h a p :
  represents s h a -> permitted good (frames (view s)) a (CRead p) -> simulated s h a (CRead p).
Proof.
  intros Hr Hc. destruct (rp_pinned _ _ _ _ Hr Hc) as (f & x & Hf & Hh & Hx & Hl & Hp).
  pose proof (GetData_spec s f p x (rp_ok _ _ _ Hr) Hh Hp Hl) as Hrun.
  exists (AData x), s, h, a. split; [|split; [by constructor|done]].
  cbn [exec_call]. unfold sbind, pointer, with_pool. rewrite Hf. cbn [of_option rbind]. by rewrite Hrun.
Qed.

Lemma write_simulated s h a p y :
  represents s h a -> permitted good (frames (view s)) a (CWrite p y) -> simulated s h a (CWrite p y).
Proof.
  intros Hr [Hc Hy]. destruct (rp_pinned _ _ _ _ Hr Hc) as (f & x & Hf & Hh & Hx & Hl & Hp).
  pose proof (SetData_spec s f p y (rp_ok _ _ _ Hr) Hh Hp Hy) as Hw.
  apply wp_run in Hw as ([] & s' & Hrun & Hs' & Hly & Hk & Hpins & Hb).
  eexists _, s', h, _. split.
  { cbn [exec_call]. unfold sbind, pointer, with_pool. rewrite Hf. cbn [of_option rbind]. by rewrite Hrun. }
  split; [by constructor|]. split; [|apply Hk]. split; cbn [contents counts unsaved spare]; [done|..].
  - intros q z. destruct (decide (q = p)) as [->|Hq].
    + rewrite lookup_insert_eq. intros [= <-]. split; [|done]. by apply Hk, (rp_contents _ _ _ Hr _ _ Hx).
    + rewrite lookup_insert_ne by done. intros [H1 H2]%(rp_contents _ _ _ Hr).
      split; [by apply Hk|]. apply Hk; [congruence|done].
  - by rewrite Hpins, (rp_counts _ _ _ Hr).
  - intros q Hq. rewrite lookup_insert_is_Some'. right. by apply (rp_known _ _ _ Hr).
  - intros q Hq. destruct (rp_handles _ _ _ Hr q Hq) as (g & Hg & Hhg). exists g.
    split; [done|]. apply Hk; [|done]. by rewrite (rp_counts _ _ _ Hr).
  - intros q Hq [Hne Hu]%not_elem_of_union. rewrite not_elem_of_singleton in Hne.
    apply Hk; [congruence|]. by apply (rp_saved _ _ _ Hr).
  - apply Hb, Hr.
Qed.

(** A call that changes no page and no pin. *)
Lemma represents_same s s' h a :
  represents s h a -> pool_ok s' -> keeps None (view s) (view s') -> pins (view s') = pins (view s) ->
  (forall n, budget (view s) n -> budget (view s') n) -> represents s' h a.
Proof.
  intros Hr Hs Hk Hp Hb. split.
  - done.
  - intros q y [H1 H2]%(rp_contents _ _ _ Hr). split; [by apply Hk|]. by apply Hk.
  - by rewrite Hp, (rp_counts _ _ _ Hr).
  - apply Hr.
  - intros q Hq. destruct (rp_handles _ _ _ Hr q Hq) as (g & Hg & Hh). exists g.
    split; [done|]. apply Hk; [|done]. by rewrite (rp_counts _ _ _ Hr).
  - intros q Hq Hu. apply Hk; [done|]. by apply (rp_saved _ _ _ Hr).
  - apply Hb, Hr.
Qed.

Lemma flush_simulated s h a p :
  represents s h a -> permitted good (frames (view s)) a (CFlush p) -> simulated s h a (CFlush p).
Proof.
  intros Hr [x Hx]. destruct (rp_contents _ _ _ Hr p x Hx) as [Hl _].
  pose proof (FlushPage_spec s p (rp_ok _ _ _ Hr) Hl) as Hw.
  apply wp_run in Hw as (r & s' & Hrun & Hres & Hs' & Hk & Hpins & Hb).
  exists (ABool r), s', h, a. split; [cbn [exec_call]; unfold sbind, with_pool; by rewrite Hrun|].
  split; [constructor; by rewrite <- (rp_counts _ _ _ Hr)|]. split; [by apply (represents_same s)|apply Hk].
Qed.

Lemma flush_all_simulated s h a : represents s h a -> simulated s h a CFlushAll.
Proof.
  intros Hr. pose proof (FlushAllPages_spec s (rp_ok _ _ _ Hr)) as Hw.
  apply wp_run in Hw as (r & s' & Hrun & Hs' & Hk & Hpins & Hb).
  exists ADone, s', h, a. split; [cbn [exec_call]; unfold sbind, with_pool; by rewrite Hrun|].
  split; [constructor|]. split; [by apply (represents_same s)|apply Hk].
Qed.

Lemma call_simulated s h a c : represents s h a -> permitted good (frames (view s)) a c -> simulated s h a c.
Proof.
  destruct c; eauto using new_simulated, fetch_simulated, unpin_simulated, read_simulated, write_simulated,
    flush_simulated, flush_all_simulated.
Qed.

(** Every disciplined client runs to its end and gets the answers of a store. *)
Lemma client_refines (cl : client D) s h a :
  represents s h a -> disciplined good zero (frames (view s)) a cl ->
  exists rs s' h', run cl (s, h) = Ok (rs, (s', h')) /\ answers zero a cl rs /\ pool_ok s'.
Proof.
  revert s h a. induction cl as [|c k IH]; intros s h a Hr Hd.
  - exists [], s, h. split; [done|]. split; [constructor|apply Hr].
  - destruct Hd as [Hp Hd]. destruct (call_simulated s h a c Hr Hp) as (r & s' & h' & a' & Hrun & Hst & Hr' & Hf).
    destruct (IH r s' h' a' Hr' ltac:(rewrite Hf; by apply Hd)) as (rs & s'' & h'' & Hrun' & Ha & Hok).
    exists (r :: rs), s'', h''. split; [|split; [by econstructor|done]].
    cbn [run]. unfold sbind at 1. rewrite Hrun. unfold sbind. by rewrite Hrun'.
Qed.
End Refinement.
