(* ===== verification/ParallelBufferPool.v ===== *)
(** The parallel buffer pool ([src/buffer/parallel_buffer_pool_manager.cpp]):
    several instances over one disk manager, each responsible for the page ids
    congruent to its index.

    The instances share the disk manager through a pointer; the object is
    [shared_disk_], which an instance finds in its [disk_manager_] while one of
    its methods runs.  A [Page*] is the index of its instance and the frame. *)

From S2P Require Import Prelude Bytes Replacer DiskManager BufferPoolManager BufferPool.

(** ** Definitions *)

Record ParallelPool (D R K : Type) : Type := MkParallel {
  bpmis_ : list (BPI D R K);
  last_alloc_index_ : Z;
  par_pool_size_ : Z;
  shared_disk_ : K
}.
Arguments MkParallel {D R K} _ _ _ _.
Arguments bpmis_ {D R K} _.
Arguments last_alloc_index_ {D R K} _.
Arguments par_pool_size_ {D R K} _.
Arguments shared_disk_ {D R K} _.

Section Parallel.
Context `{Config} {D R K : Type} `{!PageData D} `{!Replacer R} `{!Disk K D}.
Notation ppool := (ParallelPool D R K).
Implicit Types (s : ppool).

(** [i % bpmis_.size()], in [size_t]. *)
Definition mod_size (i : Z) s : res Z :=
  if Z.of_nat (length (bpmis_ s)) =? 0 then Err DivisionByZero
  else Ok (unsigned 64 i mod Z.of_nat (length (bpmis_ s))).

(** [bpmis_[i]->method(...)]. *)
Definition on_instance {A} (i : Z) (method : BPI D R K -> res (A * BPI D R K)) s : res (A * ppool) :=
  let! b := zlookup (bpmis_ s) i in
  let! '(a, b) := method (set_disk (shared_disk_ s) b) in
  let! l := zupdate (bpmis_ s) i b in
  Ok (a, MkParallel l (last_alloc_index_ s) (par_pool_size_ s) (disk_manager_ b)).

(** The loop of the constructor; [new_replacer] allocates a replacer of the
    size of an instance. *)
Fixpoint Instances_loop (count : nat) (instance_index num_instances : Z) (pool_size : nat) (new_replacer : nat -> R)
    (disk : K) : res (list (BPI D R K)) :=
  match count with
  | O => Ok []
  | Datatypes.S count =>
      let! b := BPI_new pool_size num_instances instance_index (new_replacer pool_size) disk in
      let! l := Instances_loop count (unsigned 32 (instance_index + 1)) num_instances pool_size new_replacer disk in
      Ok (b :: l)
  end.

(** [num_instances] is converted to [uint32_t] for the instances. *)
Definition Parallel_new (num_instances pool_size : nat) (new_replacer : nat -> R) (disk : K) : res ppool :=
  let! l := Instances_loop num_instances 0 (unsigned 32 (Z.of_nat num_instances)) pool_size new_replacer disk in
  Ok (MkParallel l 0 (Z.of_nat pool_size) disk).

Definition Parallel_GetPoolSize s : Z := unsigned 64 (Z.of_nat (length (bpmis_ s)) * par_pool_size_ s).

(** The instance responsible for a page; a negative page id is converted to
    [size_t] first. *)
Definition GetBufferPoolManager (page_id : Z) s : res Z := mod_size page_id s.

Definition Parallel_FetchPgImp (page_id : Z) s : res (option (Z * Z) * ppool) :=
  let! i := GetBufferPoolManager page_id s in
  let! '(frame, s) := on_instance i (BPI_FetchPgImp page_id) s in
  Ok ((fun f => (i, f)) <$> frame, s).

Definition Parallel_UnpinPgImp (page_id : Z) (is_dirty : bool) s : res (bool * ppool) :=
  let! i := GetBufferPoolManager page_id s in on_instance i (BPI_UnpinPgImp page_id is_dirty) s.

Definition Parallel_FlushPgImp (page_id : Z) s : res (bool * ppool) :=
  let! i := GetBufferPoolManager page_id s in on_instance i (BPI_FlushPgImp page_id) s.

Definition Parallel_DeletePgImp (page_id : Z) s : res (bool * ppool) :=
  let! i := GetBufferPoolManager page_id s in on_instance i (BPI_DeletePgImp page_id) s.

(** [last_alloc_index_ = (last_alloc_index_ + 1) % bpmis_.size()]. *)
Definition bump_last s : res ppool :=
  let! n := mod_size (unsigned 32 (last_alloc_index_ s + 1)) s in
  Ok (MkParallel (bpmis_ s) (unsigned 32 n) (par_pool_size_ s) (shared_disk_ s)).

(** The do-while loop of [NewPgImp], one round per instance. *)
Fixpoint NewPgImp_loop (fuel : nat) (start_index : Z) s : res (option (Z * (Z * Z)) * ppool) :=
  match fuel with
  | O => Err OutOfFuel
  | Datatypes.S fuel =>
      let! i := mod_size start_index s in
      let! '(page, s) := on_instance i BPI_NewPgImp s in
      match page with
      | Some (page_id, frame) => let! s := bump_last s in Ok (Some (page_id, (i, frame)), s)
      | None =>
          let! next := mod_size (unsigned 32 (start_index + 1)) s in
          let start_index := unsigned 32 next in
          if negb (start_index =? last_alloc_index_ s) then NewPgImp_loop fuel start_index s else
          let! s := bump_last s in Ok (None, s)
      end
  end.

Definition Parallel_NewPgImp s : res (option (Z * (Z * Z)) * ppool) :=
  NewPgImp_loop (length (bpmis_ s)) (last_alloc_index_ s) s.

Definition Parallel_FlushAllPgsImp s : res ppool :=
  foldl (fun acc i => let! s := acc in
           let! '(_, s) := on_instance (Z.of_nat i) (fun b => let! b := BPI_FlushAllPgsImp b in Ok (tt, b)) s in Ok s)
        (Ok s) (seq 0 (length (bpmis_ s))).

(** A page's memory through a [Page*]. *)
Definition Parallel_GetData (page : Z * Z) s : res (D * ppool) :=
  let! b := zlookup (bpmis_ s) page.1 in
  let! x := BPI_GetData page.2 b in Ok (x, s).
Definition Parallel_SetData (page : Z * Z) (x : D) s : res (unit * ppool) :=
  on_instance page.1 (fun b => let! b := BPI_SetData page.2 x b in Ok (tt, b)) s.
End Parallel.

#[export] Instance Parallel_manager `{Config} {D R K} `{!PageData D} `{!Replacer R} `{!Disk K D} :
    BufferPoolManager (ParallelPool D R K) (Z * Z) D := {|
  FetchPage := Parallel_FetchPgImp;
  UnpinPage := Parallel_UnpinPgImp;
  FlushPage := Parallel_FlushPgImp;
  NewPage := Parallel_NewPgImp;
  DeletePage := Parallel_DeletePgImp;
  FlushAllPages s := let! s' := Parallel_FlushAllPgsImp s in Ok (tt, s');
  GetData := Parallel_GetData;
  SetData := Parallel_SetData
|}.
