(* ===== verification/ParallelCorrect.v ===== *)
(** The parallel pool meets the contract of a buffer pool: the instances do not
    disturb each other although they share the disk, because each only touches
    the page ids congruent to its index. *)

From S2P Require Import Prelude Bytes Replacer LRUReplacer DiskManager BufferPoolManager BufferPool BufferPoolCorrect.
From S2P Require Import PoolClient ParallelBufferPool.

(** ** The invariant and the abstraction *)

Section Correct.
Context `{Config} {D R K : Type} `{!PageData D} `{!Replacer R} `{!Disk K D}.
Context `{!ReplacerSpec R} `{!DiskSpec K D}.
Notation ppool := (ParallelPool D R K).
Implicit Types (s : ppool) (b : BPI D R K) (p q i : Z).

Definition count s : Z := Z.of_nat (length (bpmis_ s)).

(** The instances, each with the shared disk. *)
Definition instances s : list (BPI D R K) := set_disk (shared_disk_ s) <$> bpmis_ s.
Definition index_of s p : nat := Z.to_nat (p mod count s).
Definition home s p : option (BPI D R K) := instances s !! index_of s p.

Record par_inv s : Prop := {
  pi_count : 0 < count s < 2 ^ 31;
  pi_last : 0 <= last_alloc_index_ s < count s;
  pi_inst (k : nat) b : instances s !! k = Some b ->
    pool_inv None b /\ num_instances_ b = count s /\ instance_index_ b = Z.of_nat k
    /\ pool_size_ b = Z.to_nat (par_pool_size_ s)
}.

Definition par_logical s p : option D := home s p ≫= fun b => pool_logical b p.
Definition par_pins s : gmap Z Z := ⋃ (pool_pins <$> instances s).
Definition par_live s p : Prop := exists b, home s p = Some b /\ allocated b p.
Definition par_holds s (f : Z * Z) p : Prop :=
  f.1 = p mod count s /\ exists b, home s p = Some b /\ page_table_ b !! p = Some f.2.
Definition par_synced s p : Prop := exists b, home s p = Some b /\ pool_synced b p.
Definition par_budget s (n : nat) : Prop := forall b, b ∈ instances s -> pool_budget b n.

(** The pool always has a frame as long as fewer pages are pinned than one
    instance holds. *)
Definition par_view s : PoolView (Z * Z) D :=
  MkView (par_logical s) (par_pins s) (Z.to_nat (par_pool_size_ s)) (par_live s) (par_holds s) (par_synced s)
         (par_budget s).

(** ** Lemmas *)

Lemma length_instances s : Z.of_nat (length (instances s)) = count s.
Proof. unfold instances, count. by rewrite length_fmap. Qed.

Lemma instance_range s p : par_inv s -> 0 <= p mod count s < count s.
Proof. intros Hi. apply Z.mod_pos_bound. pose proof (pi_count _ Hi). lia. Qed.

Lemma home_some s p :
  par_inv s -> exists b, home s p = Some b /\ instances s !! index_of s p = Some b /\ pool_inv None b
    /\ num_instances_ b = count s /\ instance_index_ b = p mod count s
    /\ pool_size_ b = Z.to_nat (par_pool_size_ s).
Proof.
  intros Hi. pose proof (instance_range s p Hi) as Hr.
  destruct (lookup_lt_is_Some_2 (instances s) (index_of s p)) as [b Hb].
  { unfold index_of. pose proof (length_instances s). lia. }
  exists b. split; [done|]. split; [done|]. destruct (pi_inst _ Hi _ _ Hb) as (H1 & H2 & H3 & H4).
  split_and!; [done|done| |done]. rewrite H3. unfold index_of. lia.
Qed.

(** A page is pinned by its own instance only. *)
Lemma pins_foreign b q : pool_inv None b -> q mod num_instances_ b <> instance_index_ b -> pool_pins b !! q = None.
Proof.
  intros Hi Hq. destruct (pool_pins b !! q) as [n|] eqn:E; [|done].
  apply pool_pins_lookup in E as (f & pg & Hf & _). by destruct (inv_table _ _ Hi q f Hf) as ((_ & ? & _) & _).
Qed.

Lemma union_list_lookup (l : list (gmap Z Z)) (k : nat) m q :
  l !! k = Some m -> (forall j m', j <> k -> l !! j = Some m' -> m' !! q = None) -> (⋃ l) !! q = m !! q.
Proof.
  revert k. induction l as [|m0 l IH]; intros [|k] Hk Ho; try done; cbn [union_list foldr fmap].
  - simpl in Hk. simplify_eq. change ((m ∪ ⋃ l) !! q = m !! q).
    destruct (m !! q) as [x|] eqn:E; [by apply lookup_union_Some_l|].
    rewrite lookup_union_r by done. clear IH. assert (Ho' : forall m', m' ∈ l -> m' !! q = None).
    { intros m' [j Hj]%list_elem_of_lookup. by apply (Ho (Datatypes.S j)). }
    clear Ho. induction l as [|m1 l IH]; [done|]. change ((m1 ∪ ⋃ l) !! q = None).
    apply lookup_union_None. split; [apply Ho'; set_solver|]. apply IH. intros m' Hm. apply Ho'. set_solver.
  - change ((m0 ∪ ⋃ l) !! q = m !! q). rewrite lookup_union_r by (by apply (Ho 0%nat)).
    apply (IH k Hk). intros j m' Hj Hl. by apply (Ho (Datatypes.S j)); [lia|].
Qed.

Lemma par_pins_home s q b : par_inv s -> home s q = Some b -> par_pins s !! q = pool_pins b !! q.
Proof.
  intros Hi Hb. apply (union_list_lookup _ (index_of s q)).
  - rewrite list_lookup_fmap. unfold home in Hb. by rewrite Hb.
  - intros j m' Hj. rewrite list_lookup_fmap. destruct (instances s !! j) as [bj|] eqn:E; [|done].
    intros [= <-]. destruct (pi_inst _ Hi _ _ E) as (H1 & H2 & H3 & _). apply pins_foreign; [done|].
    rewrite H2, H3. intros Eq. apply Hj. unfold index_of. lia.
Qed.

Lemma par_pins_sub s k b : par_inv s -> instances s !! k = Some b -> (size (pool_pins b) <= size (par_pins s))%nat.
Proof.
  intros Hi Hb. apply map_subseteq_size, map_subseteq_spec. intros q n Hq.
  destruct (pi_inst _ Hi _ _ Hb) as (H1 & H2 & H3 & _).
  assert (Hh : home s q = Some b).
  { unfold home, index_of. apply pool_pins_lookup in Hq as (f & pg & Hf & _).
    destruct (inv_table _ _ H1 q f Hf) as ((_ & Hm & _) & _). rewrite <- H2, Hm, H3, Nat2Z.id. done. }
  by rewrite (par_pins_home s q b Hi Hh).
Qed.

(** *** One instance takes a step *)

Lemma set_disk_same b : set_disk (disk_manager_ b) b = b.
Proof. by destruct b. Qed.

(** What an instance does leaves the pages of the others on disk alone. *)
Lemma stored_foreign b b' o q y :
  pool_inv None b -> pool_inv None b' -> keeps o (pool_view b) (pool_view b') -> o <> Some q ->
  num_instances_ b' = num_instances_ b -> instance_index_ b' = instance_index_ b ->
  q mod num_instances_ b <> instance_index_ b ->
  stored (disk_manager_ b) q = Some y -> stored (disk_manager_ b') q = Some y.
Proof.
  intros Hi Hi' Hk Ho Hn Hx Hq Hs.
  assert (Hno : forall c, pool_inv None c -> num_instances_ c = num_instances_ b -> instance_index_ c = instance_index_ b ->
    page_table_ c !! q = None).
  { intros c Hc Hcn Hci. destruct (page_table_ c !! q) as [f|] eqn:E; [|done].
    destruct (inv_table _ _ Hc q f E) as ((_ & Hm & _) & _). congruence. }
  assert (Hl : pool_logical b q = Some y) by (unfold pool_logical; by rewrite Hno).
  apply (keeps_logical _ _ _ Hk q y Ho) in Hl. simpl in Hl. unfold pool_logical in Hl. by rewrite Hno in Hl.
Qed.

Lemma inst_base s (k : nat) b :
  par_inv s -> instances s !! k = Some b ->
  pool_inv None b /\ num_instances_ b = count s /\ instance_index_ b = Z.of_nat k
  /\ pool_size_ b = Z.to_nat (par_pool_size_ s) /\ disk_manager_ b = shared_disk_ s /\ (k < length (bpmis_ s))%nat.
Proof.
  intros Hi Hb. destruct (pi_inst _ Hi _ _ Hb) as (H1 & H2 & H3 & H4). split_and!; try done.
  - unfold instances in Hb. rewrite list_lookup_fmap in Hb. destruct (bpmis_ s !! k); by simplify_eq/=.
  - apply lookup_lt_Some in Hb. unfold instances in Hb. by rewrite length_fmap in Hb.
Qed.

Section Step.
Context s (k : nat) b b' (o : option Z) (last : Z).
Hypothesis Hi : par_inv s.
Hypothesis Hb : instances s !! k = Some b.
Hypothesis Hb' : pool_inv None b'.
Hypothesis Hn : num_instances_ b' = num_instances_ b.
Hypothesis Hx : instance_index_ b' = instance_index_ b.
Hypothesis Hk : keeps o (pool_view b) (pool_view b').
Hypothesis Ho : forall q, o = Some q -> q mod count s = Z.of_nat k.
Hypothesis Hlast : 0 <= last < count s.
Notation s' := (MkParallel (<[k := b']> (bpmis_ s)) last (par_pool_size_ s) (disk_manager_ b')).

Lemma step_count : count s' = count s.
Proof. unfold count. simpl. by rewrite length_insert. Qed.

Lemma step_here : instances s' !! k = Some b'.
Proof.
  destruct (inst_base s k b Hi Hb) as (_ & _ & _ & _ & _ & Hlt). unfold instances. simpl.
  rewrite list_lookup_fmap, list_lookup_insert_eq by done. simpl. by rewrite set_disk_same.
Qed.

Lemma step_there j : j <> k -> instances s' !! j = set_disk (disk_manager_ b') <$> instances s !! j.
Proof.
  intros Hj. unfold instances. simpl. rewrite !list_lookup_fmap, list_lookup_insert_ne by done.
  by destruct (bpmis_ s !! j).
Qed.

Lemma step_foreign j bj q y :
  j <> k -> instances s !! j = Some bj -> q mod count s = Z.of_nat j ->
  stored (disk_manager_ bj) q = Some y -> stored (disk_manager_ b') q = Some y.
Proof.
  intros Hj Hbj Hq Hs. destruct (inst_base s k b Hi Hb) as (H1 & H2 & H3 & _ & H5 & _).
  apply (stored_foreign b b' o q y); try done.
  - intros E. apply Ho in E. lia.
  - rewrite H2, H3. lia.
  - rewrite H5. unfold instances in Hbj. rewrite list_lookup_fmap in Hbj. destruct (bpmis_ s !! j); by simplify_eq/=.
Qed.

Lemma step_other_inv j bj : j <> k -> instances s !! j = Some bj -> pool_inv None (set_disk (disk_manager_ b') bj).
Proof.
  intros Hj Hbj. destruct (pi_inst _ Hi _ _ Hbj) as (I & Ij & Ix & Is).
  split; simpl; try (by apply I).
  - by apply (inv_disk _ _ Hb').
  - intros p f Hp. destruct (inv_table _ _ I p f Hp) as (Ha & pg & Hf & Hid & Hpin & H0).
    split; [done|]. exists pg. split_and!; try done. intros E. destruct (H0 E) as [He Hs]. split; [done|].
    apply (step_foreign j bj p _ Hj Hbj); [|done]. destruct Ha as (_ & Ha & _). congruence.
Qed.

Lemma step_inv : par_inv s'.
Proof.
  destruct (inst_base s k b Hi Hb) as (H1 & H2 & H3 & H4 & _ & _). split.
  - rewrite step_count. apply (pi_count _ Hi).
  - by rewrite step_count.
  - intros j c. rewrite step_count. destruct (decide (j = k)) as [->|Hj].
    + rewrite step_here. intros [= <-]. split_and!; [done|congruence|congruence|].
      etransitivity; [apply (keeps_frames _ _ _ Hk)|exact H4].
    + rewrite step_there by done. destruct (instances s !! j) as [bj|] eqn:E; [|done]. intros [= <-].
      destruct (pi_inst _ Hi _ _ E) as (J1 & J2 & J3 & J4). split; [by apply (step_other_inv j)|done].
Qed.

Lemma step_home q :
  (index_of s q = k -> home s q = Some b /\ home s' q = Some b') /\
  (index_of s q <> k -> exists bj, home s q = Some bj /\ home s' q = Some (set_disk (disk_manager_ b') bj)
     /\ forall y, stored (disk_manager_ bj) q = Some y -> stored (disk_manager_ b') q = Some y).
Proof.
  unfold home. replace (index_of s' q) with (index_of s q) by (unfold index_of; by rewrite step_count). split.
  - intros ->. by rewrite step_here.
  - intros Hq. destruct (home_some s q Hi) as (bj & _ & Hbj & _). exists bj. split; [done|].
    rewrite step_there, Hbj by done. split; [done|]. intros y. apply (step_foreign _ _ _ _ Hq Hbj).
    unfold index_of. pose proof (instance_range s q Hi). lia.
Qed.

Lemma step_keeps : keeps o (par_view s) (par_view s').
Proof.
  assert (Hother : forall q (bj : BPI D R K), (forall y, stored (disk_manager_ bj) q = Some y -> stored (disk_manager_ b') q = Some y) ->
    (forall y, pool_logical bj q = Some y -> pool_logical (set_disk (disk_manager_ b') bj) q = Some y)
    /\ (pool_synced bj q -> pool_synced (set_disk (disk_manager_ b') bj) q)).
  { intros q bj Hst. assert (Hlog : forall y, pool_logical bj q = Some y -> pool_logical (set_disk (disk_manager_ b') bj) q = Some y).
    { intros y. unfold pool_logical. simpl. destruct (page_table_ bj !! q); [done|apply Hst]. }
    split; [done|]. intros (y & Hy & Hs). exists y. split; [by apply Hlog|by apply Hst]. }
  split; simpl; [..|].
  - intros q y Hq. unfold par_logical. destruct (step_home q) as [Heq Hne].
    destruct (decide (index_of s q = k)) as [E|E].
    + destruct (Heq E) as [-> ->]. simpl. by apply (keeps_logical _ _ _ Hk).
    + destruct (Hne E) as (bj & -> & -> & Hst). simpl. by apply Hother.
  - done.
  - intros q (c & Hc & Ha). unfold par_live. destruct (step_home q) as [Heq Hne].
    destruct (decide (index_of s q = k)) as [E|E].
    + destruct (Heq E) as [Hh ->]. exists b'. split; [done|]. rewrite Hh in Hc. simplify_eq. by apply (keeps_live _ _ _ Hk).
    + destruct (Hne E) as (bj & Hh & -> & _). rewrite Hh in Hc. simplify_eq. by eexists.
  - intros [i f] q Hq [Hf (c & Hc & Ht)]. split; [by rewrite step_count|]. simpl in *. destruct (step_home q) as [Heq Hne].
    destruct (decide (index_of s q = k)) as [E|E].
    + destruct (Heq E) as [Hh ->]. exists b'. split; [done|]. rewrite Hh in Hc. simplify_eq.
      apply (keeps_holds _ _ _ Hk f q); [|done]. simpl. by rewrite <- (par_pins_home s q c Hi Hb).
    + destruct (Hne E) as (bj & Hh & -> & _). rewrite Hh in Hc. simplify_eq. by eexists.
  - intros q Hq (c & Hc & Hs). unfold par_synced. destruct (step_home q) as [Heq Hne].
    destruct (decide (index_of s q = k)) as [E|E].
    + destruct (Heq E) as [Hh ->]. exists b'. split; [done|]. rewrite Hh in Hc. simplify_eq. by apply (keeps_synced _ _ _ Hk).
    + destruct (Hne E) as (bj & Hh & -> & Hst). rewrite Hh in Hc. simplify_eq. eexists. split; [done|]. by apply Hother.
Qed.

(** A change [g] of the pins that only looks at one page of the instance. *)
Lemma step_pins (g : gmap Z Z -> gmap Z Z) p :
  pool_pins b' = g (pool_pins b) -> index_of s p = k ->
  (forall m q, q <> p -> g m !! q = m !! q) -> (forall m m', m !! p = m' !! p -> g m !! p = g m' !! p) ->
  par_pins s' = g (par_pins s).
Proof.
  intros Hg Hp Hne Heq. apply map_eq. intros q. destruct (step_home q) as [Hhere Hthere].
  destruct (decide (index_of s q = k)) as [E|E].
  - destruct (Hhere E) as [Hh Hh']. rewrite (par_pins_home _ _ _ step_inv Hh'), Hg.
    destruct (decide (q = p)) as [->|Hq]; [apply Heq|rewrite !Hne by done]; by rewrite (par_pins_home _ _ _ Hi Hh).
  - destruct (Hthere E) as (bj & Hh & Hh' & _). rewrite (par_pins_home _ _ _ step_inv Hh').
    rewrite Hne by congruence. by rewrite (par_pins_home _ _ _ Hi Hh).
Qed.

Lemma step_pins_same : pool_pins b' = pool_pins b -> par_pins s' = par_pins s.
Proof.
  intros Hg. apply map_eq. intros q. destruct (step_home q) as [Hhere Hthere].
  destruct (decide (index_of s q = k)) as [E|E].
  - destruct (Hhere E) as [Hh Hh']. by rewrite (par_pins_home _ _ _ step_inv Hh'), (par_pins_home _ _ _ Hi Hh), Hg.
  - destruct (Hthere E) as (bj & Hh & Hh' & _).
    by rewrite (par_pins_home _ _ _ step_inv Hh'), (par_pins_home _ _ _ Hi Hh).
Qed.

Lemma step_budget n : par_budget s n -> pool_budget b' n -> par_budget s' n.
Proof.
  intros Hs Hn' c [j Hj]%list_elem_of_lookup. destruct (decide (j = k)) as [->|Hjk].
  - rewrite step_here in Hj. by simplify_eq.
  - rewrite step_there in Hj by done. destruct (instances s !! j) as [bj|] eqn:E; [|done]. simplify_eq/=.
    apply (Hs bj). apply list_elem_of_lookup. by exists j.
Qed.
End Step.

(** *** The operations *)

Lemma mod_size_ok s p : par_inv s -> 0 <= p < 2 ^ 63 -> mod_size p s = Ok (p mod count s).
Proof.
  intros Hi Hp. pose proof (pi_count _ Hi). unfold mod_size, count in *. destruct (Z.eqb_spec (Z.of_nat (length (bpmis_ s))) 0); [lia|].
  rewrite unsigned_id; [done|]. unfold is_unsigned. lia.
Qed.

Lemma bump_last_ok s :
  par_inv s -> bump_last s = Ok (MkParallel (bpmis_ s) ((last_alloc_index_ s + 1) mod count s) (par_pool_size_ s) (shared_disk_ s)).
Proof.
  intros Hi. pose proof (pi_count _ Hi). pose proof (pi_last _ Hi). unfold bump_last.
  rewrite (unsigned_id 32 (_ + 1)) by (unfold is_unsigned; lia).
  rewrite mod_size_ok by (done || lia). cbn [rbind]. rewrite unsigned_id; [done|].
  pose proof (Z.mod_pos_bound (last_alloc_index_ s + 1) (count s) ltac:(lia)). unfold is_unsigned. lia.
Qed.

Lemma on_instance_ok {A} s (k : nat) b (m : BPI D R K -> res (A * BPI D R K)) a b' :
  instances s !! k = Some b -> m b = Ok (a, b') ->
  on_instance (Z.of_nat k) m s
  = Ok (a, MkParallel (<[k := b']> (bpmis_ s)) (last_alloc_index_ s) (par_pool_size_ s) (disk_manager_ b')).
Proof.
  unfold instances. rewrite list_lookup_fmap. destruct (bpmis_ s !! k) as [c|] eqn:E; [|done]. intros [= <-] Hm.
  unfold on_instance. rewrite (zlookup_nat _ _ _ E). cbn [rbind]. rewrite Hm. cbn [rbind].
  apply lookup_lt_Some in E. rewrite zupdate_ok by lia. by rewrite Nat2Z.id.
Qed.

(** The index of an instance never changes. *)
Lemma same_index b b' (j : Z) :
  pool_inv None b -> pool_inv None b' -> num_instances_ b' = num_instances_ b ->
  next_page_id_ b' = next_page_id_ b + j * num_instances_ b -> instance_index_ b' = instance_index_ b.
Proof.
  intros Hi Hi' Hn Hx. rewrite <- (proj2 (inv_next _ _ Hi)), <- (proj2 (inv_next _ _ Hi')), Hn, Hx.
  apply Z.mod_add. pose proof (inv_num _ _ Hi). lia.
Qed.

Lemma home_index s p b : par_inv s -> home s p = Some b -> Z.of_nat (index_of s p) = p mod count s /\ instances s !! index_of s p = Some b.
Proof. intros Hi Hh. split; [|done]. unfold index_of. pose proof (instance_range s p Hi). lia. Qed.

Lemma live_id s p : par_inv s -> par_live s p -> 0 <= p < 2 ^ 31.
Proof.
  intros Hi (b & Hb & (Hp & _ & _)). destruct (home_index s p b Hi Hb) as [_ Hk].
  destruct (pi_inst _ Hi _ _ Hk) as (H1 & _). pose proof (inv_next _ _ H1). lia.
Qed.

Lemma manager_of s p : par_inv s -> par_live s p -> GetBufferPoolManager p s = Ok (p mod count s).
Proof. intros Hi Hl. pose proof (live_id s p Hi Hl). apply mod_size_ok; [done|lia]. Qed.

(** A call that goes to the instance of its page. *)
Section Routed.
Context s p b (Hi : par_inv s) (Hh : home s p = Some b).

Lemma routed {A} (m : BPI D R K -> res (A * BPI D R K)) a b' o :
  m b = Ok (a, b') -> pool_inv None b' -> num_instances_ b' = num_instances_ b -> next_page_id_ b' = next_page_id_ b ->
  keeps o (pool_view b) (pool_view b') -> (forall q, o = Some q -> q = p) ->
  exists s', on_instance (p mod count s) m s = Ok (a, s') /\ par_inv s' /\ keeps o (par_view s) (par_view s')
    /\ home s' p = Some b' /\ count s' = count s
    /\ (forall g, pool_pins b' = g (pool_pins b) -> (forall m q, q <> p -> g m !! q = m !! q) ->
        (forall m m', m !! p = m' !! p -> g m !! p = g m' !! p) -> par_pins s' = g (par_pins s))
    /\ (forall n, par_budget s n -> par_budget s' n).
Proof.
  intros Hm Hb' Hn Hx Hk Ho. destruct (home_index s p b Hi Hh) as [Hp Hb].
  destruct (pi_inst _ Hi _ _ Hb) as (H1 & _).
  assert (Hx' : instance_index_ b' = instance_index_ b) by (apply (same_index b b' 0); [done..|lia]).
  assert (Ho' : forall q, o = Some q -> q mod count s = Z.of_nat (index_of s p)) by (intros q ->%Ho; lia).
  pose proof (on_instance_ok s _ b m a b' Hb Hm) as Hrun. rewrite Hp in Hrun.
  eexists. split; [exact Hrun|].
  pose proof (pi_last _ Hi) as Hl. split_and!.
  - by apply (step_inv s _ b b' o).
  - by apply (step_keeps s _ b b' o).
  - by apply (step_home s _ b b' o).
  - apply step_count.
  - intros g Hg Hne Heq. by apply (step_pins s (index_of s p) b b' o _) with (p := p).
  - intros n Hs. eapply (step_budget s _ b b'); try done. apply (budget_keeps b); [done..|].
    apply Hs. apply list_elem_of_lookup. by eexists.
Qed.
End Routed.

Lemma par_logical_home s p b : home s p = Some b -> par_logical s p = pool_logical b p.
Proof. intros Hh. unfold par_logical. by rewrite Hh. Qed.

(** *** [NewPgImp] *)

(** An instance all of whose frames are pinned. *)
Definition full s i : Prop :=
  exists b, instances s !! Z.to_nat i = Some b /\ ~ (size (pool_pins b) < pool_size_ b)%nat.

(** The instance tried in round [j]. *)
Definition round s (j : Z) : Z := (last_alloc_index_ s + j) mod count s.

Lemma round_range s j : par_inv s -> 0 <= round s j < count s.
Proof. intros Hi. apply Z.mod_pos_bound. pose proof (pi_count _ Hi). lia. Qed.

Lemma round_next s j : par_inv s -> (round s j + 1) mod count s = round s (j + 1).
Proof. intros Hi. unfold round. rewrite Zplus_mod_idemp_l. f_equal. lia. Qed.

Lemma round_first s j : par_inv s -> 0 < j <= count s -> round s j = last_alloc_index_ s <-> j = count s.
Proof.
  intros Hi Hj. pose proof (pi_count _ Hi). pose proof (pi_last _ Hi). unfold round. split.
  - intros E. destruct (decide (last_alloc_index_ s + j < count s)).
    + rewrite Z.mod_small in E by lia. lia.
    + rewrite <- (Z.mod_unique _ (count s) 1 (last_alloc_index_ s + j - count s)) in E by lia. lia.
  - intros ->. rewrite <- (Z.mod_unique _ (count s) 1 (last_alloc_index_ s)); lia.
Qed.

(** What a round without success does: nothing that shows. *)
Record unchanged s s' : Prop := {
  un_inv : par_inv s';
  un_instances : instances s' = instances s;
  un_keeps : keeps None (par_view s) (par_view s');
  un_pins : par_pins s' = par_pins s;
  un_count : count s' = count s
}.

Lemma last_unchanged s last :
  par_inv s -> 0 <= last < count s -> unchanged s (MkParallel (bpmis_ s) last (par_pool_size_ s) (shared_disk_ s)).
Proof.
  intros Hi Hl. split; try done. destruct Hi as [H1 H2 H3]. by split.
Qed.

Lemma unchanged_keeps s1 s2 s3 o : unchanged s1 s2 -> keeps o (par_view s2) (par_view s3) -> keeps o (par_view s1) (par_view s3).
Proof. intros [A1 A2 A3 A4 A5]. by apply keeps_none_trans. Qed.

Lemma par_unchanged_trans s1 s2 s3 : unchanged s1 s2 -> unchanged s2 s3 -> unchanged s1 s3.
Proof.
  intros A [B1 B2 B3 B4 B5]. pose proof A as [A1 A2 A3 A4 A5].
  split; [done|congruence|by apply (unchanged_keeps s1 s2)|congruence..].
Qed.

Lemma full_round s i :
  par_inv s -> 0 <= i -> full s i ->
  exists s', on_instance i BPI_NewPgImp s = Ok (None, s') /\ unchanged s s' /\ last_alloc_index_ s' = last_alloc_index_ s.
Proof.
  intros Hi Hr (b & Hb & Hs). destruct (pi_inst _ Hi _ _ Hb) as (H1 & H2 & H3 & H4).
  assert (Hrun : BPI_NewPgImp b = Ok (None, b)).
  { destruct (free_list_ b) as [|f l] eqn:Hl; [|destruct Hs; apply pool_room_inv; [done|left; by rewrite Hl]].
    destruct (evictable (replacer_ b)) as [|f l] eqn:He; [|destruct Hs; apply pool_room_inv; [done|right; by rewrite He]].
    unfold BPI_NewPgImp. by rewrite FindFreshPage_none. }
  pose proof (on_instance_ok s _ b _ None b Hb Hrun) as Hon. rewrite Z2Nat.id in Hon by done.
  eexists. split; [exact Hon|]. split; [|done]. pose proof (pi_last _ Hi).
  pose proof (keeps_refl None (pool_view b)) as Hk. split.
  - by apply (step_inv s (Z.to_nat i) b b None).
  - destruct (inst_base s _ b Hi Hb) as (_ & _ & _ & _ & H5 & _). unfold instances. simpl. rewrite H5.
    rewrite list_fmap_insert. apply list_insert_id. unfold instances in Hb. rewrite Hb. f_equal. rewrite <- H5.
    symmetry. apply set_disk_same.
  - by apply (step_keeps s (Z.to_nat i) b b None).
  - by apply (step_pins_same s (Z.to_nat i) b b None).
  - apply step_count.
Qed.

(** What a round that finds a frame does. *)
Record created s s' (i p f : Z) (n : nat) : Prop := {
  cr_inv : par_inv s';
  cr_id : 0 <= p < 2 ^ 31;
  cr_fresh : ~ par_live s p;
  cr_live : par_live s' p;
  cr_home : p mod count s = i;
  cr_unpinned : par_pins s !! p = None;
  cr_pins : par_pins s' = <[p := 1]> (par_pins s);
  cr_holds : par_holds s' (i, f) p;
  cr_zero : par_logical s' p = Some page_zero;
  cr_keeps : keeps (Some p) (par_view s) (par_view s');
  cr_budget : par_budget s' n
}.

Lemma room_round s i n :
  data_ok (page_zero : D) -> par_inv s -> 0 <= i < count s -> ~ full s i -> par_budget s (Datatypes.S n) ->
  exists p f s', on_instance i BPI_NewPgImp s = Ok (Some (p, f), s') /\ created s s' i p f n
    /\ count s' = count s /\ last_alloc_index_ s' = last_alloc_index_ s.
Proof.
  intros Hz Hi Hr Hs Hb. destruct (lookup_lt_is_Some_2 (instances s) (Z.to_nat i)) as [b Hbk].
  { pose proof (length_instances s). lia. }
  destruct (pi_inst _ Hi _ _ Hbk) as (H1 & H2 & H3 & H4). rewrite Z2Nat.id in H3 by lia.
  assert (Hroom : (size (pool_pins b) < pool_size_ b)%nat).
  { destruct (decide (size (pool_pins b) < pool_size_ b)%nat) as [?|Hno]; [done|]. destruct Hs. by exists b. }
  assert (Hbb : pool_budget b (Datatypes.S n)) by (apply Hb, list_elem_of_lookup; by eexists).
  destruct (New_ok b n Hz H1 Hbb (pool_room b H1 Hroom))
    as (f & b' & Hrun & Hi' & Hk & Hpins & Hnone & Ht & Hl & Ha & Hb' & Hnx & Hnum).
  set (p := next_page_id_ b) in *. pose proof (inv_next _ _ H1) as [Hp Hm]. fold p in Hp, Hm.
  assert (Hx : instance_index_ b' = instance_index_ b) by (apply (same_index b b' 1); [done..|lia]).
  pose proof (on_instance_ok s _ b _ (Some (p, f)) b' Hbk Hrun) as Hon. rewrite Z2Nat.id in Hon by lia.
  assert (Hpi : p mod count s = i) by congruence.
  assert (Hidx : index_of s p = Z.to_nat i) by (unfold index_of; by rewrite Hpi).
  assert (Ho : forall q, Some p = Some q -> q mod count s = Z.of_nat (Z.to_nat i)) by (intros q [= <-]; lia).
  pose proof (pi_last _ Hi) as Hlast.
  set (s' := MkParallel (<[Z.to_nat i := b']> (bpmis_ s)) (last_alloc_index_ s) (par_pool_size_ s) (disk_manager_ b')).
  assert (Hhome : home s p = Some b) by (unfold home; by rewrite Hidx).
  assert (Hhome' : home s' p = Some b') by (by apply (step_home s (Z.to_nat i) b b' (Some p))).
  exists p, f, s'. split; [exact Hon|]. split; [|split; [apply step_count|done]]. split; try done.
  - by apply (step_inv s (Z.to_nat i) b b' (Some p)).
  - intros (c & Hc & ((_ & ?) & _)). rewrite Hhome in Hc. simplify_eq. lia.
  - by exists b'.
  - by rewrite (par_pins_home s p b Hi Hhome).
  - apply (step_pins s (Z.to_nat i) b b' (Some p) _) with (p := p) (g := fun m => <[p := 1]> m); try done.
    + intros m q Hq. by rewrite lookup_insert_ne.
    + intros m m' _. by rewrite !lookup_insert_eq.
  - split; [simpl; unfold s'; by rewrite step_count|]. by exists b'.
  - by rewrite (par_logical_home _ _ _ Hhome').
  - by apply (step_keeps s (Z.to_nat i) b b' (Some p)).
  - eapply (step_budget s (Z.to_nat i) b b'); try done. intros c Hc. destruct (Hb c Hc) as [B1 B2]. split.
    + destruct (list_elem_of_lookup_1 _ _ Hc) as [k Hck]. destruct (pi_inst _ Hi _ _ Hck) as (C1 & _).
      pose proof (inv_num _ _ C1). lia.
    + intros j Hj. apply B2. lia.
Qed.

End Correct.
