(* ===== verification/ParallelProperties.v ===== *)
(** The properties of the parallel pool: it is a buffer pool, and it allocates
    round robin. *)

From S2P Require Import Prelude Bytes Replacer LRUReplacer DiskManager BufferPoolManager BufferPool BufferPoolCorrect.
From S2P Require Import PoolClient ParallelBufferPool ParallelCorrect.

(** ** Allocation *)

Section Allocation.
Context `{Config} {D R K : Type} `{!PageData D} `{!Replacer R} `{!Disk K D}.
Context `{!ReplacerSpec R} `{!DiskSpec K D}.
Notation ppool := (ParallelPool D R K).
Implicit Types (s : ParallelPool D R K) (i p j : Z).

Lemma created_after s s1 s2 i p f n : unchanged s s1 -> created s1 s2 i p f n -> created s s2 i p f n.
Proof.
  intros Hu Hc. pose proof Hu as [U1 U2 U3 U4 U5]. destruct Hc as [C1 C2 C3 C4 C5 C6 C7 C8 C9 C10 C11].
  split; [done|done| |done|congruence|congruence|congruence|done|done|by apply (unchanged_keeps s s1)|done].
  intros Hl. apply C3. by apply (keeps_live _ _ _ U3).
Qed.

Lemma created_bump s s' i p f n :
  created s s' i p f n ->
  exists s'', bump_last s' = Ok s'' /\ created s s'' i p f n /\ last_alloc_index_ s'' = round s' 1.
Proof.
  intros Hc. pose proof (cr_inv _ _ _ _ _ _ Hc) as Hi. pose proof (pi_count _ Hi) as Hn.
  eexists. split; [by apply bump_last_ok|]. split; [|done].
  destruct Hc as [C1 C2 C3 C4 C5 C6 C7 C8 C9 C10 C11]. split; try done.
  apply (last_unchanged s' _ C1). apply Z.mod_pos_bound. lia.
Qed.

Lemma round_start s j : par_inv s -> mod_size (round s j) s = Ok (round s j).
Proof.
  intros Hi. pose proof (round_range s j Hi). pose proof (pi_count _ Hi).
  rewrite mod_size_ok by (done || lia). by rewrite Z.mod_small by lia.
Qed.

(** The bookkeeping between two rounds. *)
Lemma round_step s s1 j :
  par_inv s -> unchanged s s1 -> last_alloc_index_ s1 = last_alloc_index_ s ->
  mod_size (unsigned 32 (round s j + 1)) s1 = Ok (round s (j + 1)) /\ unsigned 32 (round s (j + 1)) = round s (j + 1)
  /\ (forall j', round s1 j' = round s j') /\ (forall j', full s1 j' <-> full s j').
Proof.
  intros Hi [U1 U2 U3 U4 U5] Hl. pose proof (pi_count _ Hi). pose proof (round_range s j Hi). pose proof (round_range s (j + 1) Hi).
  rewrite !unsigned_id by (unfold is_unsigned; lia). split_and!; [|done| |].
  - rewrite mod_size_ok by (done || lia). by rewrite U5, round_next.
  - intros j'. unfold round. by rewrite Hl, U5.
  - intros j'. unfold full. by rewrite U2.
Qed.

Lemma loop_created (fuel : nat) n : data_ok (page_zero : D) ->
  forall s j j1, par_inv s -> Z.of_nat fuel = count s - j -> 0 <= j <= j1 -> j1 < count s ->
  (forall j', j <= j' < j1 -> full s (round s j')) -> ~ full s (round s j1) -> par_budget s (Datatypes.S n) ->
  exists p f s', NewPgImp_loop fuel (round s j) s = Ok (Some (p, (round s j1, f)), s')
    /\ created s s' (round s j1) p f n /\ last_alloc_index_ s' = round s 1.
Proof.
  intros Hz. induction fuel as [|fuel IH]; intros s j j1 Hi Hf Hj Hj1 Hfull Hroom Hb; [lia|].
  cbn [NewPgImp_loop]. rewrite round_start by done. cbn [rbind]. pose proof (round_range s j Hi) as Hr.
  destruct (decide (j = j1)) as [->|Hne].
  - destruct (room_round s (round s j1) n Hz Hi Hr Hroom Hb) as (p & f & s1 & Hrun & Hc & Hcnt & Hlast). rewrite Hrun. cbn [rbind].
    destruct (created_bump _ _ _ _ _ _ Hc) as (s2 & -> & Hc2 & Hl2). exists p, f, s2. split; [done|]. split; [done|].
    rewrite Hl2. unfold round. by rewrite Hlast, Hcnt.
  - destruct (full_round s (round s j) Hi ltac:(lia) (Hfull j ltac:(lia))) as (s1 & Hrun & Hu & Hl). rewrite Hrun. cbn [rbind].
    destruct (round_step s s1 j Hi Hu Hl) as (-> & Hnext & Hrs & Hfs). cbn [rbind]. rewrite Hnext, Hl.
    destruct (Z.eqb_spec (round s (j + 1)) (last_alloc_index_ s)) as [E|_]; [apply round_first in E; [lia|done|lia]|].
    cbn [negb]. rewrite <- !Hrs.
    destruct (IH s1 (j + 1) j1 (un_inv _ _ Hu)) as (p & f & s' & Hrun' & Hc & Hl');
      [rewrite (un_count _ _ Hu); lia|lia|rewrite (un_count _ _ Hu); lia|..].
    + intros j' Hj'. rewrite Hrs, Hfs. apply Hfull. lia.
    + by rewrite Hrs, Hfs.
    + unfold par_budget. by rewrite (un_instances _ _ Hu).
    + exists p, f, s'. split; [exact Hrun'|]. split; [|done].
      by apply (created_after s s1).
Qed.

Lemma loop_full (fuel : nat) : forall s j, par_inv s -> Z.of_nat fuel = count s - j -> 0 <= j < count s ->
  (forall j', j <= j' < count s -> full s (round s j')) ->
  exists s', NewPgImp_loop fuel (round s j) s = Ok (None, s') /\ unchanged s s' /\ last_alloc_index_ s' = round s 1.
Proof.
  induction fuel as [|fuel IH]; intros s j Hi Hf Hj Hfull; [lia|].
  cbn [NewPgImp_loop]. rewrite round_start by done. cbn [rbind]. pose proof (round_range s j Hi) as Hr.
  destruct (full_round s (round s j) Hi ltac:(lia) (Hfull j ltac:(lia))) as (s1 & Hrun & Hu & Hl). rewrite Hrun. cbn [rbind].
  destruct (round_step s s1 j Hi Hu Hl) as (-> & Hnext & Hrs & Hfs). cbn [rbind]. rewrite Hnext, Hl.
  destruct (Z.eqb_spec (round s (j + 1)) (last_alloc_index_ s)) as [E|E]; cbn [negb].
  - rewrite bump_last_ok by apply Hu. cbn [rbind]. pose proof (un_inv _ _ Hu) as Hi1. eexists. split; [done|].
    split; [|exact (Hrs 1)]. apply (par_unchanged_trans s s1); [done|]. apply last_unchanged; [done|].
    apply Z.mod_pos_bound. pose proof (pi_count _ Hi1). lia.
  - rewrite round_first in E by (done || lia). rewrite <- !Hrs.
    destruct (IH s1 (j + 1) (un_inv _ _ Hu)) as (s' & Hrun' & Hu' & Hl'); [rewrite (un_count _ _ Hu); lia..| |].
    + intros j' Hj'. rewrite (un_count _ _ Hu) in Hj'. rewrite Hrs, Hfs. apply Hfull. lia.
    + exists s'. split; [exact Hrun'|]. split; [by apply (par_unchanged_trans s s1)|done].
Qed.

(** [NewPgImp] asks the instances in turn, from [last_alloc_index_] on and
    around, and takes the first one that has a frame that is not pinned: the
    page id it returns is new and belongs to that instance, and no other page
    changes.  It returns [nullptr] exactly when every frame of every instance is
    pinned, and then nothing changes.  The starting point moves on by one in
    both cases. *)
Theorem Parallel_NewPgImp_round_robin s n :
  data_ok (page_zero : D) -> par_inv s -> par_budget s (Datatypes.S n) ->
  (forall j, 0 <= j < count s -> (forall j', 0 <= j' < j -> full s (round s j')) -> ~ full s (round s j) ->
     exists p f s', Parallel_NewPgImp s = Ok (Some (p, (round s j, f)), s')
       /\ created s s' (round s j) p f n /\ last_alloc_index_ s' = (last_alloc_index_ s + 1) mod count s)
  /\ ((forall i, 0 <= i < count s -> full s i) ->
     exists s', Parallel_NewPgImp s = Ok (None, s') /\ unchanged s s'
       /\ last_alloc_index_ s' = (last_alloc_index_ s + 1) mod count s).
Proof.
  intros Hz Hi Hb. pose proof (pi_last _ Hi) as Hl. unfold Parallel_NewPgImp.
  assert (H0 : last_alloc_index_ s = round s 0) by (unfold round; rewrite Z.add_0_r, Z.mod_small; lia).
  split.
  - intros j Hj Hfull Hroom.
    pose proof (loop_created (length (bpmis_ s)) n Hz s 0 j Hi) as Hloop. rewrite <- H0 in Hloop.
    apply Hloop; first [done|unfold count; lia|lia].
  - intros Hfull. pose proof (loop_full (length (bpmis_ s)) s 0 Hi) as Hloop. rewrite <- H0 in Hloop.
    apply Hloop; [unfold count; lia|lia|]. intros j' _. by apply Hfull, round_range.
Qed.
End Allocation.

(** ** The parallel pool is a buffer pool *)

Section Operations.
Context `{Config} {D R K : Type} `{!PageData D} `{!Replacer R} `{!Disk K D}.
Context `{!ReplacerSpec R} `{!DiskSpec K D}.
Implicit Types (s : ParallelPool D R K) (b : BPI D R K) (p : Z).

Lemma fetch_instance b p x :
  pool_inv None b -> allocated b p -> pool_logical b p = Some x ->
  match pool_pins b !! p with Some n => n < 2 ^ 31 - 1 | None => (size (pool_pins b) < pool_size_ b)%nat end ->
  exists f b', BPI_FetchPgImp p b = Ok (Some f, b') /\ pool_inv None b' /\ keeps None (pool_view b) (pool_view b')
    /\ pool_pins b' = pin_add p (pool_pins b) /\ page_table_ b' !! p = Some f
    /\ (pool_pins b !! p = None -> pool_synced b' p)
    /\ next_page_id_ b' = next_page_id_ b /\ num_instances_ b' = num_instances_ b.
Proof.
  intros Hi Ha Hx Hroom. destruct (page_table_ b !! p) as [f|] eqn:Hp.
  - destruct (Fetch_hit b p f Hi Hp ltac:(by destruct (pool_pins b !! p))) as (b' & Hrun & Hi' & Hk & Hpins & Ht & _ & Hn & Hu & Hs).
    exists f, b'. split_and!; try done. by rewrite Ht.
  - assert (Hr : free_list_ b <> [] \/ evictable (replacer_ b) <> []).
    { destruct (pool_pins b !! p) as [n|] eqn:Hn; [apply pool_pins_table in Hn; rewrite Hp in Hn; by destruct Hn|by apply pool_room]. }
    assert (Hst : stored (disk_manager_ b) p = Some x) by (unfold pool_logical in Hx; by rewrite Hp in Hx).
    destruct (Fetch_miss b p x Hi Hp Ha Hst Hr) as (f & b' & Hrun & Hi' & Hk & Hpins & Ht & _ & Hs & Hn & Hu).
    exists f, b'. by split_and!.
Qed.

(** The instance of a live page. *)
Lemma live_home s p :
  par_inv s -> par_live s p ->
  exists b, home s p = Some b /\ pool_inv None b /\ allocated b p /\ pool_pins b !! p = par_pins s !! p
    /\ pool_logical b p = par_logical s p /\ (size (pool_pins b) <= size (par_pins s))%nat
    /\ pool_size_ b = Z.to_nat (par_pool_size_ s).
Proof.
  intros Hi (b & Hh & Ha). destruct (home_index s p b Hi Hh) as [_ Hb]. destruct (pi_inst _ Hi _ _ Hb) as (H1 & _ & _ & H4).
  exists b. split_and!; try done.
  - by rewrite (par_pins_home s p b Hi Hh).
  - by rewrite (par_logical_home s p b Hh).
  - by apply (par_pins_sub s _ b Hi Hb).
Qed.

Lemma Parallel_fetch s p x :
  par_inv s -> par_live s p -> par_logical s p = Some x ->
  match par_pins s !! p with Some n => n < 2 ^ 31 - 1 | None => (size (par_pins s) < Z.to_nat (par_pool_size_ s))%nat end ->
  wp (Parallel_FetchPgImp p) (fun r s' => exists f, r = Some f /\ par_inv s' /\ par_holds s' f p
    /\ keeps None (par_view s) (par_view s') /\ par_pins s' = pin_add p (par_pins s)
    /\ (par_pins s !! p = None -> par_synced s' p) /\ (forall n, par_budget s n -> par_budget s' n)) s.
Proof.
  intros Hi Hl Hx Hroom. destruct (live_home s p Hi Hl) as (b & Hh & H1 & Ha & Hpin & Hlog & Hsz & Hps).
  destruct (fetch_instance b p x H1 Ha ltac:(congruence)) as (f & b' & Hrun & Hi' & Hk & Hpins & Ht & Hs & Hnx & Hnum).
  { rewrite Hpin, Hps. destruct (par_pins s !! p); [done|lia]. }
  destruct (routed s p b Hi Hh _ _ b' None Hrun Hi' Hnum Hnx Hk ltac:(done)) as (s' & Hon & Hinv & Hkk & Hh' & Hcnt & Hpp & Hbud).
  apply wp_run. exists (Some (p mod count s, f)), s'. split.
  { unfold Parallel_FetchPgImp. rewrite manager_of by done. cbn [rbind]. by rewrite Hon. }
  exists (p mod count s, f). split_and!; try done.
  - split; [by rewrite Hcnt|]. by exists b'.
  - apply Hpp; [done|intros m q Hq; by apply pin_add_lookup_ne|].
    intros m m' E. unfold pin_add. by rewrite E, !lookup_insert_eq.
  - intros Hnone. exists b'. split; [done|]. apply Hs. by rewrite Hpin.
Qed.

Lemma pinned_live s p : par_inv s -> is_Some (par_pins s !! p) -> par_live s p.
Proof.
  intros Hi [n Hn]. destruct (home_some s p Hi) as (b & Hh & Hb & H1 & _). exists b. split; [done|].
  rewrite (par_pins_home s p b Hi Hh) in Hn. apply pool_pins_lookup in Hn as (f & pg & Hf & _).
  by destruct (inv_table _ _ H1 p f Hf).
Qed.

(** Reading through the pointer of a resident page. *)
Lemma read_instance s p b f x :
  par_inv s -> home s p = Some b -> page_table_ b !! p = Some f -> pool_logical b p = Some x ->
  Parallel_GetData (p mod count s, f) s = Ok (x, s).
Proof.
  intros Hi Hh Ht Hx. destruct (home_index s p b Hi Hh) as [Hp Hb]. destruct (pi_inst _ Hi _ _ Hb) as (H1 & _).
  destruct (table_frame _ _ _ _ H1 Ht) as (pg & Hf & _). destruct (GetData_ok b p f pg x H1 Ht Hx Hf) as [Hg _].
  unfold Parallel_GetData. cbn [fst snd]. rewrite <- Hp. unfold instances in Hb. rewrite list_lookup_fmap in Hb.
  destruct (bpmis_ s !! index_of s p) as [c|] eqn:E; [|done]. simplify_eq/=.
  rewrite (zlookup_nat _ _ _ E). cbn [rbind]. change (BPI_GetData f c) with (BPI_GetData f (set_disk (shared_disk_ s) c)).
  by rewrite Hg.
Qed.

Lemma Parallel_unpin s p n d :
  par_inv s -> par_pins s !! p = Some n -> par_live s p -> (n = 1 -> d = true \/ par_synced s p) ->
  wp (Parallel_UnpinPgImp p d) (fun r s' => r = true /\ par_inv s' /\ keeps None (par_view s) (par_view s')
    /\ par_pins s' = pin_sub p n (par_pins s) /\ (forall n, par_budget s n -> par_budget s' n)
    /\ forall f x, par_holds s f p -> par_logical s p = Some x -> Parallel_GetData f s' = Ok (x, s')) s.
Proof.
  intros Hi Hp Hl Hd. destruct (live_home s p Hi Hl) as (b & Hh & H1 & Ha & Hpin & Hlog & Hsz & Hps).
  rewrite Hp in Hpin. destruct (Unpin_ok b p n d H1 Hpin) as (b' & Hrun & Hi' & Hk & Hpins & Ht & Hnx & Hnum).
  { intros E. destruct (Hd E) as [?|(c & Hc & Hs)]; [by left|]. right. by assert (c = b) as -> by congruence. }
  destruct (routed s p b Hi Hh _ _ b' None Hrun Hi' Hnum Hnx Hk ltac:(done)) as (s' & Hon & Hinv & Hkk & Hh' & Hcnt & Hpp & Hbud).
  apply wp_run. exists true, s'. split.
  { unfold Parallel_UnpinPgImp. rewrite manager_of by done. exact Hon. }
  split_and!; try done.
  - apply Hpp; [done|..].
    + intros m q Hq. unfold pin_sub. case_match; [by rewrite lookup_delete_ne|by rewrite lookup_insert_ne].
    + intros m m' E. unfold pin_sub. case_match; [by rewrite !lookup_delete_eq|by rewrite !lookup_insert_eq].
  - intros [i f] x [Hf (c & Hc & Hcf)] Hx. simpl in Hf, Hcf. assert (c = b) as -> by congruence. subst i.
    rewrite <- Hcnt. apply (read_instance s' p b'); [done|done|by rewrite Ht|].
    apply (keeps_logical _ _ _ Hk p x ltac:(done)). simpl. congruence.
Qed.

Lemma Parallel_write s f p x :
  par_inv s -> par_holds s f p -> par_live s p -> is_Some (par_pins s !! p) -> data_ok x ->
  wp (Parallel_SetData f x) (fun _ s' => par_inv s' /\ par_logical s' p = Some x
    /\ keeps (Some p) (par_view s) (par_view s') /\ par_pins s' = par_pins s
    /\ (forall n, par_budget s n -> par_budget s' n)) s.
Proof.
  intros Hi [Hf (c & Hc & Ht)] Hl [n Hp] Hx. destruct (live_home s p Hi Hl) as (b & Hh & H1 & Ha & Hpin & Hlog & Hsz & Hps).
  assert (c = b) as -> by congruence. rewrite Hp in Hpin. destruct f as [i f]. simpl in Hf, Ht. subst i.
  destruct (SetData_ok b p f x n H1 Ht Hpin Hx) as (b' & Hrun & Hi' & Hlx & Hk & Hpins & Hnx & Hnum).
  assert (Hm : (let! b := BPI_SetData f x b in Ok (tt, b)) = Ok (tt, b')) by by rewrite Hrun.
  destruct (routed s p b Hi Hh (fun b => let! b := BPI_SetData f x b in Ok (tt, b)) tt b' (Some p) Hm Hi' Hnum Hnx Hk ltac:(naive_solver))
    as (s' & Hon & Hinv & Hkk & Hh' & Hcnt & Hpp & Hbud).
  apply wp_run. exists tt, s'. split; [exact Hon|]. split_and!; try done.
  - by rewrite (par_logical_home s' p b').
  - by apply (Hpp (fun m => m)).
Qed.

Lemma Parallel_flush s p :
  par_inv s -> par_live s p ->
  wp (Parallel_FlushPgImp p) (fun r s' => (is_Some (par_pins s !! p) -> r = true) /\ par_inv s'
    /\ keeps None (par_view s) (par_view s') /\ par_pins s' = par_pins s /\ (forall n, par_budget s n -> par_budget s' n)) s.
Proof.
  intros Hi Hl. destruct (live_home s p Hi Hl) as (b & Hh & H1 & Ha & Hpin & _).
  assert (Hfl : exists r b', BPI_FlushPgImp p b = Ok (r, b') /\ (is_Some (pool_pins b !! p) -> r = true) /\ pool_inv None b'
    /\ keeps None (pool_view b) (pool_view b') /\ pool_pins b' = pool_pins b
    /\ next_page_id_ b' = next_page_id_ b /\ num_instances_ b' = num_instances_ b).
  { destruct (page_table_ b !! p) as [f|] eqn:Ht.
    - destruct (FlushPgImp_resident b p f H1 Ht) as (b' & Hrun & Hi' & Hk & Hpins & _ & Hn & Hu & _). by exists true, b'.
    - exists false, b. unfold BPI_FlushPgImp. rewrite Ht. split_and!; try done.
      intros [n Hn%pool_pins_table]. rewrite Ht in Hn. by destruct Hn. }
  destruct Hfl as (r & b' & Hrun & Hr & Hi' & Hk & Hpins & Hnx & Hnum).
  destruct (routed s p b Hi Hh _ _ b' None Hrun Hi' Hnum Hnx Hk ltac:(done)) as (s' & Hon & Hinv & Hkk & Hh' & Hcnt & Hpp & Hbud).
  apply wp_run. exists r, s'. split; [unfold Parallel_FlushPgImp; rewrite manager_of by done; exact Hon|].
  split_and!; try done; [by rewrite <- Hpin|by apply (Hpp (fun m => m))].
Qed.

(** One round of [FlushAllPgsImp]. *)
Lemma flush_round s (i : nat) :
  par_inv s -> (i < length (bpmis_ s))%nat ->
  exists s', on_instance (Z.of_nat i) (fun b => let! b := BPI_FlushAllPgsImp b in Ok (tt, b)) s = Ok (tt, s') /\ par_inv s'
    /\ keeps None (par_view s) (par_view s') /\ par_pins s' = par_pins s /\ (forall n, par_budget s n -> par_budget s' n)
    /\ length (bpmis_ s') = length (bpmis_ s).
Proof.
  intros Hi Hlt. destruct (lookup_lt_is_Some_2 (instances s) i) as [b Hb]; [unfold instances; by rewrite length_fmap|].
  destruct (pi_inst _ Hi _ _ Hb) as (H1 & H2 & H3 & H4).
  destruct (FlushAll_ok b H1) as (b' & Hrun & Hi' & Hk & Hpins & _ & Hn & Hu & _).
  assert (Hm : (let! b := BPI_FlushAllPgsImp b in Ok (tt, b)) = Ok (tt, b')) by by rewrite Hrun.
  assert (Hx : instance_index_ b' = instance_index_ b) by (apply (same_index b b' 0); [done..|lia]).
  eexists. split; [by apply (on_instance_ok s i b (fun b => let! b := BPI_FlushAllPgsImp b in Ok (tt, b)))|].
  pose proof (pi_last _ Hi). split_and!.
  - by apply (step_inv s i b b' None).
  - by apply (step_keeps s i b b' None).
  - by apply (step_pins_same s i b b' None).
  - intros n Hs. eapply (step_budget s i b b'); try done. apply (budget_keeps b); [done..|].
    apply Hs. apply list_elem_of_lookup. by eexists.
  - simpl. by rewrite length_insert.
Qed.

Lemma Parallel_flush_all s :
  par_inv s ->
  wp (fun s => let! s' := Parallel_FlushAllPgsImp s in Ok (tt, s')) (fun _ s' => par_inv s'
    /\ keeps None (par_view s) (par_view s') /\ par_pins s' = par_pins s /\ (forall n, par_budget s n -> par_budget s' n)) s.
Proof.
  intros Hi. apply wp_run. unfold Parallel_FlushAllPgsImp.
  assert (Hall : forall i, i ∈ seq 0 (length (bpmis_ s)) -> (i < length (bpmis_ s))%nat) by (intros i Hin%elem_of_seq; lia).
  revert Hall. generalize (seq 0 (length (bpmis_ s))) as l. intros l. revert s Hi.
  induction l as [|i l IH]; intros s Hi Hl; cbn [foldl rbind].
  - exists tt, s. split; [done|]. split_and!; try done.
  - destruct (flush_round s i Hi (Hl i ltac:(set_solver))) as (s1 & -> & Hi1 & Hk1 & Hp1 & Hb1 & Hlen). cbn [rbind].
    destruct (IH s1 Hi1) as (u & s2 & Hrun & Hi2 & Hk2 & Hp2 & Hb2); [intros j Hj; rewrite Hlen; apply Hl; set_solver|].
    exists u, s2. split; [exact Hrun|]. split_and!; [done|by eapply keeps_none_trans|congruence|]. intros n Hn. by apply Hb2, Hb1.
Qed.

(** A page whose contents are known is one the pool can hand out. *)
Lemma Parallel_create s n :
  data_ok (page_zero : D) -> par_inv s -> par_budget s (Datatypes.S n) -> (size (par_pins s) < Z.to_nat (par_pool_size_ s))%nat ->
  wp Parallel_NewPgImp (fun r s' => exists p f, r = Some (p, (round s 0, f)) /\ created s s' (round s 0) p f n) s.
Proof.
  intros Hz Hi Hb Hsz. pose proof (pi_last _ Hi) as Hl. pose proof (pi_count _ Hi) as Hn.
  assert (H0 : last_alloc_index_ s = round s 0) by (unfold round; rewrite Z.add_0_r, Z.mod_small; lia).
  pose proof (loop_created (length (bpmis_ s)) n Hz s 0 0 Hi) as Hloop. rewrite <- H0 in Hloop.
  destruct Hloop as (p & f & s' & Hrun & Hc & _); [unfold count; lia|lia|lia|lia| |done|].
  - intros (b & Hbk & Hno). pose proof (par_pins_sub s _ b Hi Hbk). destruct (pi_inst _ Hi _ _ Hbk) as (_ & _ & _ & ?). lia.
  - apply wp_run. rewrite <- H0. eexists _, s'. split; [exact Hrun|]. by exists p, f.
Qed.
End Operations.

#[export] Program Instance Parallel_spec `{Config} {D R K} `{!PageData D} `{!Replacer R} `{!Disk K D}
    `{!ReplacerSpec R} `{!DiskSpec K D} `{!ZeroPageOk K D} : BufferPoolSpec (ParallelPool D R K) (Z * Z) D := {|
  pool_ok := par_inv;
  view := par_view;
  good_data := data_ok;
  zero_data := page_zero
|}.
Next Obligation. intros ? D R K ?????? s p x. apply Parallel_fetch. Qed.
Next Obligation.
  intros ? D R K ????? Hz s n Hi Hb Hroom. simpl in *.
  eapply wp_mono; [by apply (Parallel_create s n)|]. intros r s' (p & f & -> & [C1 C2 C3 C4 C5 C6 C7 C8 C9 C10 C11]).
  exists p, (round s 0, f). split_and!; try done; unfold is_signed; simpl in *; lia.
Qed.
Next Obligation.
  intros ? D R K ?????? s p n d Hi Hp Hd. simpl in *.
  eapply wp_mono; [apply (Parallel_unpin s p n d Hi Hp); [by apply pinned_live; [|eexists]|done]|]. intros r s' (-> & A1 & A2 & A3 & A4 & _). done.
Qed.
Next Obligation. intros ? D R K ?????? s p. apply Parallel_flush. Qed.
Next Obligation. intros ? D R K ?????? s Hi. exact (Parallel_flush_all s Hi). Qed.
Next Obligation.
  intros ? D R K ?????? s [i f] p x Hi [Hf (b & Hh & Ht)] Hp Hx. simpl in *. subst i.
  apply (read_instance s p b); [done..|]. by rewrite <- (par_logical_home s p b).
Qed.
Next Obligation.
  intros ? D R K ?????? s f p x Hi Hf Hp Hx. simpl in *. apply Parallel_write; try done. by apply pinned_live.
Qed.
Next Obligation.
  intros ? D R K ?????? s p x Hi Hl Hx. simpl in *. destruct (live_home s p Hi Hl) as (b & Hh & H1 & Ha & _ & Hlog & _).
  rewrite <- Hlog in Hx. unfold pool_logical in Hx. destruct (page_table_ b !! p) as [f|].
  - destruct (zlookup (pages_ b) f) as [pg|] eqn:Hf; simplify_eq. by eapply (inv_data _ _ H1).
  - eapply stored_data_ok; [apply (inv_disk _ _ H1)|done].
Qed.
Next Obligation. intros ? D R K ?????? s p Hi. apply pinned_live, Hi. Qed.
Next Obligation.
  intros ? D R K ?????? s [i f] p q Hi [Hp (b & Hh & Ht)] [Hq (c & Hh' & Ht')]. simpl in *.
  unfold home, index_of in *. rewrite <- Hp in Hh. rewrite <- Hq in Hh'. assert (c = b) as -> by congruence.
  destruct (pi_inst _ Hi _ _ Hh) as (H1 & _). exact (table_inj b None p q f H1 Ht Ht').
Qed.
Next Obligation. intros ? D R K ?????? s p. apply live_id. Qed.
Next Obligation.
  intros ? D R K ?????? s s' f p n d r x Hi Hp Hd Hf Hx Hrun. simpl in *.
  pose proof (Parallel_unpin s p n d Hi Hp (pinned_live s p Hi ltac:(by eexists)) Hd) as Hw.
  apply wp_run in Hw as (r' & s1 & Hrun' & _ & _ & _ & _ & _ & Hread). rewrite Hrun' in Hrun. simplify_eq. by apply Hread.
Qed.

(** ** Properties *)

(** The constructor makes a pool without pins. *)
Lemma Instances_loop_ok `{Config} {D R K} `{!PageData D} `{!Replacer R} `{!Disk K D} `{!ReplacerSpec R} `{!DiskSpec K D}
    (n : nat) (idx num : Z) (size : nat) (new_replacer : nat -> R) (disk : K) :
  0 <= idx -> idx + Z.of_nat n = num -> num < 2 ^ 31 -> disk_ok disk -> data_ok (page_zero : D) ->
  replacer_ok (new_replacer size) -> evictable (new_replacer size) = [] -> capacity (new_replacer size) = Z.of_nat size ->
  exists l : list (BPI D R K), Instances_loop n idx num size new_replacer disk = Ok l /\ length l = n
    /\ forall k b, l !! k = Some b -> pool_inv None b /\ pool_pins b = ∅ /\ num_instances_ b = num
         /\ next_page_id_ b = idx + Z.of_nat k /\ instance_index_ b = idx + Z.of_nat k /\ pool_size_ b = size
         /\ disk_manager_ b = disk.
Proof.
  revert idx. induction n as [|n IH]; intros idx Hx Hn Hlt Hd Hz Hr He Hc; [by exists []|]. cbn [Instances_loop].
  destruct (BPI_new_inv size num idx (new_replacer size) disk) as (b & Hb & Hi & Hp & Hnx & Hnum); try done; [lia..|].
  assert (Hm : instance_index_ b = idx /\ pool_size_ b = size /\ disk_manager_ b = disk).
  { revert Hb. unfold BPI_new. destruct (assert _); [|done]. cbn [rbind]. destruct (assert _); [|done]. cbn [rbind].
    by intros [= <-]. }
  rewrite Hb. cbn [rbind]. rewrite unsigned_id by (unfold is_unsigned; lia).
  destruct (IH (idx + 1)) as (l & -> & Hl & Hall); try done; [lia..|]. cbn [rbind]. exists (b :: l).
  split; [done|]. split; [simpl; lia|]. intros [|k] c Hk; simpl in Hk.
  - injection Hk as <-. destruct Hm as (M1 & M2 & M3). split_and!; try done; lia.
  - destruct (Hall k c Hk) as (A1 & A2 & A3 & A4 & A5 & A6 & A7). split_and!; try done; lia.
Qed.

Lemma Parallel_new_ok `{Config} {D R K} `{!PageData D} `{!Replacer R} `{!Disk K D} `{!ReplacerSpec R} `{!DiskSpec K D}
    (n size : nat) (new_replacer : nat -> R) (disk : K) :
  (0 < n)%nat -> Z.of_nat n < 2 ^ 31 -> disk_ok disk -> data_ok (page_zero : D) ->
  replacer_ok (new_replacer size) -> evictable (new_replacer size) = [] -> capacity (new_replacer size) = Z.of_nat size ->
  exists s : ParallelPool D R K, Parallel_new n size new_replacer disk = Ok s /\ par_inv s /\ par_pins s = ∅
    /\ count s = Z.of_nat n /\ par_pool_size_ s = Z.of_nat size /\ last_alloc_index_ s = 0
    /\ forall b, b ∈ instances s -> num_instances_ b = Z.of_nat n /\ 0 <= next_page_id_ b < Z.of_nat n.
Proof.
  intros Hn Hlt Hd Hz Hr He Hc. unfold Parallel_new. rewrite unsigned_id by (unfold is_unsigned; lia).
  destruct (Instances_loop_ok n 0 (Z.of_nat n) size new_replacer disk) as (l & -> & Hl & Hall); try done. cbn [rbind].
  set (s := MkParallel l 0 (Z.of_nat size) disk).
  assert (Hin : forall k b, instances s !! k = Some b -> l !! k = Some b).
  { intros k b. unfold instances, s. simpl. rewrite list_lookup_fmap. destruct (l !! k) as [c|] eqn:E; [|done]. intros [= <-].
    destruct (Hall k c E) as (_ & _ & _ & _ & _ & _ & <-). by rewrite set_disk_same. }
  assert (Hcnt : count s = Z.of_nat n) by (unfold count, s; simpl; by rewrite Hl).
  assert (Hi : par_inv s).
  { split; [lia|rewrite Hcnt; simpl; lia|]. intros k b Hb%Hin. destruct (Hall k b Hb) as (A1 & A2 & A3 & A4 & A5 & A6 & A7).
    simpl. split_and!; [done|congruence|lia|lia]. }
  exists s. split; [done|]. split; [done|]. split_and!; try done.
  - apply map_empty. intros q. destruct (home_some s q Hi) as (b & Hh & Hb & _). rewrite (par_pins_home s q b Hi Hh).
    apply Hin in Hb. destruct (Hall _ b Hb) as (_ & -> & _). apply lookup_empty.
  - intros b [k Hk%Hin]%list_elem_of_lookup. pose proof (lookup_lt_Some _ _ _ Hk).
    destruct (Hall k b Hk) as (A1 & A2 & A3 & A4 & _). split; [done|lia].
Qed.

(** *** Clients of a new pool *)

(** C12: the parallel pool is a buffer pool.  Over any number of instances that
    share a disk, on the pool that the constructor makes, a client that creates,
    fetches, unpins, reads, writes and flushes pages within the pinning discipline
    (of a pool with as many frames as one instance) runs to its end, and every
    answer it gets is the one a plain store of pages gives.  The discipline asks
    that the last unpin of a changed page reports it dirty; deletions of pages are
    outside of it. *)
Theorem Parallel_serves_clients `{Config} {D R K} `{!PageData D} `{!Replacer R} `{!Disk K D}
    `{!ReplacerSpec R} `{!DiskSpec K D} `{!ZeroPageOk K D} (n size spare : nat) (new_replacer : nat -> R) (disk : K)
    (cl : client D) :
  (0 < n)%nat -> disk_ok disk ->
  replacer_ok (new_replacer size) -> evictable (new_replacer size) = [] -> capacity (new_replacer size) = Z.of_nat size ->
  Z.of_nat n * (Z.of_nat spare + 1) < 2 ^ 31 -> (forall p, 0 <= p < Z.of_nat n * (Z.of_nat spare + 1) -> page_ok p) ->
  disciplined data_ok page_zero size (MkStore ∅ ∅ ∅ spare) cl ->
  exists (s s' : ParallelPool D R K) h' rs, Parallel_new n size new_replacer disk = Ok s
    /\ run cl (s, ∅) = Ok (rs, (s', h')) /\ answers page_zero (MkStore ∅ ∅ ∅ spare) cl rs /\ par_inv s'.
Proof.
  intros Hn Hk Hr He Hc Hmax Hok Hd.
  destruct (Parallel_new_ok n size new_replacer disk Hn ltac:(nia) Hk page_zero_ok Hr He Hc)
    as (s & Hrun & Hi & Hp & Hcnt & Hs & _ & Hb).
  assert (Hbud : par_budget s spare).
  { intros b [H1 H2]%Hb. unfold pool_budget. rewrite H1. split; [nia|]. intros i Hi'. apply Hok. nia. }
  destruct (client_refines cl s ∅ (MkStore ∅ ∅ ∅ spare)) as (rs & s' & h' & Hr' & Ha & Hi').
  - apply represents_start; [done|done|done|]. intros p x Hx. by rewrite lookup_empty in Hx.
  - simpl. by rewrite Hs, Nat2Z.id.
  - by exists s, s', h', rs.
Qed.

(** *** Witnesses *)

(** Two instances of two frames each over an empty file. *)
Notation demo_pool := (ParallelPool bytes LRUReplacer DiskManager).

Lemma demo_pool_ok (n size : nat) :
  (0 < n <= 1000)%nat ->
  exists s : demo_pool, Parallel_new n size LRUReplacer_new (DiskManager_new [] []) = Ok s /\ par_inv s
    /\ par_pins s = ∅ /\ count s = Z.of_nat n /\ par_pool_size_ s = Z.of_nat size /\ last_alloc_index_ s = 0
    /\ par_budget s 100.
Proof.
  intros Hn.
  destruct (Parallel_new_ok (D := bytes) (K := DiskManager) n size LRUReplacer_new (DiskManager_new [] []))
    as (s & Hrun & Hi & Hp & Hc & Hs & Hl & Hb);
    try first [done|lia|apply page_zero_ok|apply lru_new_inv|simpl; lia|simpl; by rewrite length_replicate].
  - exists s. split_and!; try done. intros b [H1 H2]%Hb. split; [rewrite H1; lia|].
    intros i Hi'. rewrite H1. split; simpl; nia.
Qed.

Definition demo_data : bytes := replicate (Z.to_nat PAGE_SIZE) 7.

Definition demo_client : client bytes :=
  Call CNew (fun r =>
  match r with
  | ANew p =>
      Call (CWrite p demo_data) (fun _ => Call (CFlush p) (fun _ =>
      Call (CUnpin p true) (fun _ => Call CFlushAll (fun _ => Call (CFetch p) (fun _ => Call (CRead p) (fun _ => Return))))))
  | _ => Return
  end).

Lemma demo_disciplined : disciplined data_ok (page_zero : bytes) 2 (MkStore ∅ ∅ ∅ 100) demo_client.
Proof.
  cbn [demo_client disciplined]. split; [split; [simpl; rewrite map_size_empty; lia|done]|]. intros r a1 St1. inversion St1; subst.
  cbn [disciplined]. split.
  { split; [simpl; rewrite lookup_insert_eq; by eexists|]. simpl. unfold page_len, demo_data. by rewrite length_replicate. }
  intros r a2 St2. inversion St2; subst. split; [simpl; rewrite lookup_insert_eq; by eexists|].
  intros r2 a2' St2b. inversion St2b; subst. split.
  { exists 1. split; [simpl; by rewrite lookup_insert_eq|by left]. }
  intros r3 a3 St3. inversion St3; subst. split; [done|]. intros r4 a3' St3b. inversion St3b; subst. split.
  { split; [simpl; rewrite lookup_insert_eq; by eexists|].
    match goal with E : _ !! p = Some _ |- _ => simpl in E; rewrite lookup_insert_eq in E; injection E as <- end.
    simpl. unfold pin_sub. simpl. rewrite delete_insert_id by apply lookup_empty. rewrite lookup_empty, map_size_empty. lia. }
  intros r5 a4 St4. inversion St4; subst. split; [|done]. simpl. unfold pin_add. rewrite lookup_insert_eq. by eexists.
Qed.

Lemma Parallel_serves_clients_witness :
  exists (s s' : demo_pool) h' rs, Parallel_new 2 2 LRUReplacer_new (DiskManager_new [] []) = Ok s
    /\ run demo_client (s, ∅) = Ok (rs, (s', h')) /\ answers page_zero (MkStore ∅ ∅ ∅ 100) demo_client rs.
Proof.
  destruct (Parallel_serves_clients (K := DiskManager) 2 2 100 LRUReplacer_new (DiskManager_new [] []) demo_client)
    as (s & s' & h' & rs & Hrun & Hr & Ha & _);
    try first [done|lia|apply lru_new_inv|apply demo_disciplined|simpl; by rewrite length_replicate].
  - intros p Hp. split; simpl; nia.
  - by exists s, s', h', rs.
Defined.

Lemma Parallel_NewPgImp_round_robin_witness :
  exists (s s' : demo_pool) p f, Parallel_new 3 2 LRUReplacer_new (DiskManager_new [] []) = Ok s
    /\ Parallel_NewPgImp s = Ok (Some (p, (0, f)), s') /\ last_alloc_index_ s' = 1.
Proof.
  destruct (demo_pool_ok 3 2 ltac:(lia)) as (s & Hrun & Hi & Hp & Hc & Hs & Hl & Hb).
  destruct (Parallel_NewPgImp_round_robin s 99 (page_zero_ok (K := DiskManager)) Hi Hb) as [Hok _].
  assert (Hr : round s 0 = 0) by (unfold round; rewrite Hl, Hc; done).
  destruct (Hok 0) as (p & f & s' & Hnew & _ & Hlast); [rewrite Hc; lia|lia| |].
  - rewrite Hr. intros (b & Hbk & Hno). pose proof (par_pins_sub s _ b Hi Hbk) as Hle. rewrite Hp, map_size_empty in Hle.
    destruct (pi_inst _ Hi _ _ Hbk) as (_ & _ & _ & Hsz). rewrite Hs in Hsz. lia.
  - exists s, s', p, f. split; [done|]. rewrite Hr in Hnew. split; [done|]. by rewrite Hlast, Hl, Hc.
Defined.
