(* ===== verification/Bitmap.v ===== *)
(** Arrays of bits packed in bytes, as the hash bucket page keeps its
    [occupied_] and [readable_] flags
    ([src/include/storage/page/hash_table_bucket_page.h]). *)

From S2P Require Import Prelude Bytes.

(** ** Definitions *)

(** [GetLocation]: the byte and the bit of a slot. *)
Definition GetLocation (bucket_idx : Z) : Z * Z := (bucket_idx / 8, bucket_idx mod 8).

(** [GetMask], as the byte pattern of the [char] it returns. *)
Definition GetMask (which bit : Z) : Z :=
  if bit =? 0 then unsigned 8 (Z.lnot (Z.shiftl 1 which)) else unsigned 8 (Z.shiftl 1 which).

(** [(flags[location.first] & (1 << location.second)) != 0]. *)
Definition bitmap_get (flags : bytes) (bucket_idx : Z) : res bool :=
  let! c := zlookup flags (GetLocation bucket_idx).1 in
  Ok (negb (Z.land c (Z.shiftl 1 (GetLocation bucket_idx).2) =? 0)).

Definition bitmap_set (flags : bytes) (bucket_idx bit : Z) : res bytes :=
  let mask := GetMask (GetLocation bucket_idx).2 bit in
  let! c := zlookup flags (GetLocation bucket_idx).1 in
  zupdate flags (GetLocation bucket_idx).1 (if bit =? 0 then Z.land c mask else Z.lor c mask).

(** The loop of [NumReadable] on one byte: clear the lowest set bit until none
    is left.  The byte loses one bit per round, so eight rounds suffice. *)
Fixpoint clear_lowest (fuel : nat) (readable num_readable : Z) : res Z :=
  if readable =? 0 then Ok num_readable else
  match fuel with
  | O => Err OutOfFuel
  | S fuel => clear_lowest fuel (Z.land readable (readable - 1)) (unsigned 32 (num_readable + 1))
  end.

Definition bitmap_count (flags : bytes) : res Z :=
  foldl (fun acc c => let! n := acc in clear_lowest 8 c n) (Ok 0) flags.

(** The bit the flags hold at an index, [false] out of range. *)
Definition bit_at (flags : bytes) (i : nat) : bool :=
  match flags !! (i / 8)%nat with Some c => Z.testbit c (Z.of_nat (i mod 8)) | None => false end.

(** The number of set bits of a byte, and of all of them. *)
Definition byte_weight (c : Z) : nat := length (filter (fun k => Z.testbit c k = true) (seqZ 0 8)).
Definition bitmap_weight (flags : bytes) : nat := sum_list (byte_weight <$> flags).

(** ** Lemmas *)

Lemma land_bit c k : 0 <= k -> negb (Z.land c (Z.shiftl 1 k) =? 0) = Z.testbit c k.
Proof.
  intros Hk. rewrite Z.shiftl_1_l.
  assert (Hl : Z.land c (2 ^ k) = if Z.testbit c k then 2 ^ k else 0).
  { apply Z.bits_inj'. intros n Hn. rewrite Z.land_spec, Z.pow2_bits_eqb by lia.
    destruct (Z.eqb_spec k n) as [->|Hne].
    - destruct (Z.testbit c n) eqn:E; [by rewrite Z.pow2_bits_true by lia|by rewrite Z.bits_0].
    - rewrite andb_false_r. destruct (Z.testbit c k); [by rewrite Z.pow2_bits_false by lia|by rewrite Z.bits_0]. }
  rewrite Hl. destruct (Z.testbit c k).
  - pose proof (Z.pow_pos_nonneg 2 k). destruct (Z.eqb_spec (2 ^ k) 0); [lia|done].
  - done.
Qed.

Lemma byte_land a b : is_byte a -> 0 <= b -> is_byte (Z.land a b).
Proof.
  unfold is_byte. intros Ha Hb. split; [apply Z.land_nonneg; lia|].
  apply Z.le_lt_trans with a; [|lia].
  assert (Z.land a b + Z.ldiff a b = a).
  { rewrite Z.add_nocarry_lxor by (apply Z.bits_inj'; intros; rewrite !Z.land_spec, Z.ldiff_spec, Z.bits_0;
      destruct (Z.testbit a n), (Z.testbit b n); done).
    apply Z.bits_inj'. intros n Hn. rewrite Z.lxor_spec, Z.land_spec, Z.ldiff_spec.
    by destruct (Z.testbit a n), (Z.testbit b n). }
  pose proof (proj2 (Z.ldiff_nonneg a b) ltac:(left; lia)). lia.
Qed.

Lemma byte_lor a b : is_byte a -> is_byte b -> is_byte (Z.lor a b).
Proof.
  unfold is_byte. intros Ha Hb. split; [apply Z.lor_nonneg; lia|].
  destruct (decide (Z.lor a b = 0)) as [->|Hne]; [lia|].
  assert (0 < Z.lor a b) by (pose proof (proj2 (Z.lor_nonneg a b)); lia).
  change 256 with (2 ^ 8). apply Z.log2_lt_pow2; [done|].
  rewrite Z.log2_lor by lia. apply Z.max_lub_lt.
  - destruct (decide (a = 0)) as [->|]; [done|]. apply Z.log2_lt_pow2; lia.
  - destruct (decide (b = 0)) as [->|]; [done|]. apply Z.log2_lt_pow2; lia.
Qed.

Lemma GetMask_byte which bit : is_byte (GetMask which bit).
Proof. unfold GetMask, is_byte. destruct (bit =? 0); apply (unsigned_range 8); lia. Qed.

Lemma GetMask_testbit which bit n :
  0 <= which < 8 -> 0 <= n < 8 ->
  Z.testbit (GetMask which bit) n = if bit =? 0 then negb (which =? n) else which =? n.
Proof.
  intros Hw Hn. unfold GetMask, unsigned. destruct (bit =? 0); rewrite Z.mod_pow2_bits_low by lia.
  - rewrite Z.lnot_spec, Z.shiftl_1_l, Z.pow2_bits_eqb by lia. done.
  - by rewrite Z.shiftl_1_l, Z.pow2_bits_eqb by lia.
Qed.

Lemma location_nat (i : nat) : GetLocation (Z.of_nat i) = (Z.of_nat (i / 8), Z.of_nat (i mod 8)).
Proof. unfold GetLocation. by rewrite Nat2Z.inj_div, Nat2Z.inj_mod. Qed.

Lemma byte_index_range (flags : bytes) (i : nat) :
  (i < 8 * length flags)%nat -> is_Some (flags !! (i / 8)%nat).
Proof. intros Hi. apply lookup_lt_is_Some_2. apply Nat.Div0.div_lt_upper_bound. lia. Qed.

Lemma bitmap_get_ok (flags : bytes) (i : nat) :
  (i < 8 * length flags)%nat -> bitmap_get flags (Z.of_nat i) = Ok (bit_at flags i).
Proof.
  intros Hi. destruct (byte_index_range flags i Hi) as [c Hc].
  unfold bitmap_get, bit_at. rewrite location_nat. cbn [fst snd]. rewrite (zlookup_nat _ _ c Hc), Hc.
  cbn [rbind]. by rewrite land_bit by lia.
Qed.

Lemma bitmap_set_ok (flags : bytes) (i : nat) (bit : Z) :
  is_bytes flags -> (i < 8 * length flags)%nat ->
  exists flags', bitmap_set flags (Z.of_nat i) bit = Ok flags' /\ is_bytes flags' /\ length flags' = length flags
    /\ forall j, bit_at flags' j = if decide (j = i) then negb (bit =? 0) else bit_at flags j.
Proof.
  intros Hb Hi. destruct (byte_index_range flags i Hi) as [c Hc].
  unfold bitmap_set. rewrite location_nat. cbn [fst snd]. rewrite (zlookup_nat _ _ c Hc). cbn [rbind].
  assert (Hlt : (i / 8 < length flags)%nat) by (by apply lookup_lt_Some in Hc).
  rewrite zupdate_ok by lia. rewrite Nat2Z.id.
  assert (Hcb : is_byte c) by (by apply (Forall_lookup_1 _ _ _ _ Hb Hc)).
  set (c' := if bit =? 0 then _ else _).
  eexists. split; [done|]. split_and!.
  - apply Forall_insert; [done|]. unfold c'. destruct (bit =? 0).
    + apply byte_land; [done|]. pose proof (GetMask_byte (Z.of_nat (i mod 8)) bit) as [? _]. done.
    + apply byte_lor; [done|apply GetMask_byte].
  - by rewrite length_insert.
  - intros j. unfold bit_at. destruct (decide (j / 8 = i / 8)%nat) as [He|Hne].
    + rewrite He, list_lookup_insert_eq, Hc by done.
      pose proof (Nat.mod_upper_bound i 8). pose proof (Nat.mod_upper_bound j 8).
      assert (Ht : Z.testbit c' (Z.of_nat (j mod 8)) =
        if decide (j = i) then negb (bit =? 0) else Z.testbit c (Z.of_nat (j mod 8))).
      { pose proof (GetMask_testbit (Z.of_nat (i mod 8)) bit (Z.of_nat (j mod 8)) ltac:(lia) ltac:(lia)) as Hm.
        pose proof (Nat.div_mod_eq i 8). pose proof (Nat.div_mod_eq j 8).
        unfold c'. destruct (bit =? 0); rewrite ?Z.land_spec, ?Z.lor_spec, Hm;
          case_decide as Hij; destruct (Z.eqb_spec (Z.of_nat (i mod 8)) (Z.of_nat (j mod 8))); subst; try lia;
          rewrite ?andb_true_r, ?andb_false_r, ?orb_true_r, ?orb_false_r; done. }
      exact Ht.
    + rewrite list_lookup_insert_ne by done. rewrite decide_False by (by intros ->). done.
Qed.

(** Kernighan's loop counts the set bits: checked on each of the 256 bytes. *)
Lemma clear_lowest_shift fuel c n :
  clear_lowest fuel c (unsigned 32 n) = (fun k => unsigned 32 (n + k)) <$> clear_lowest fuel c 0.
Proof.
  assert (Hgen : forall m, clear_lowest fuel c (unsigned 32 (m + n)) =
    (fun k => unsigned 32 (n + k)) <$> clear_lowest fuel c (unsigned 32 m)).
  { revert c. induction fuel as [|fuel IH]; intros c m; simpl; destruct (c =? 0).
    - unfold fmap, res_fmap. f_equal. unfold unsigned. rewrite Zplus_mod_idemp_r. f_equal. lia.
    - done.
    - unfold fmap, res_fmap. f_equal. unfold unsigned. rewrite Zplus_mod_idemp_r. f_equal. lia.
    - pose proof (IH (Z.land c (c - 1)) (m + 1)) as IH1. unfold unsigned in *.
      rewrite !Zplus_mod_idemp_l. replace (m + n + 1) with (m + 1 + n) by lia. exact IH1. }
  exact (Hgen 0).
Qed.

Lemma clear_lowest_byte c : is_byte c -> clear_lowest 8 c 0 = Ok (Z.of_nat (byte_weight c)).
Proof.
  intros Hc.
  assert (Hall : Forall (fun c => clear_lowest 8 c 0 = Ok (Z.of_nat (byte_weight c))) (seqZ 0 256)).
  { apply (bool_decide_unpack _). vm_compute. done. }
  rewrite Forall_forall in Hall. apply Hall. apply elem_of_seqZ. unfold is_byte in Hc. lia.
Qed.

Lemma bitmap_count_ok (flags : bytes) :
  is_bytes flags -> (8 * Z.of_nat (length flags)) < 2 ^ 32 ->
  bitmap_count flags = Ok (Z.of_nat (bitmap_weight flags)).
Proof.
  intros Hb Hl. unfold bitmap_count.
  assert (Hw : forall c, is_byte c -> Z.of_nat (byte_weight c) <= 8).
  { intros c _. unfold byte_weight. pose proof (length_filter (fun k => Z.testbit c k = true) (seqZ 0 8)).
    change (length (seqZ 0 8)) with 8%nat in *. lia. }
  assert (Hgen : forall n, 0 <= n -> n + 8 * Z.of_nat (length flags) < 2 ^ 32 ->
    foldl (fun acc c => let! k := acc in clear_lowest 8 c k) (Ok n) flags = Ok (n + Z.of_nat (bitmap_weight flags))).
  { clear Hl. induction Hb as [|c l Hc Hb IH]; intros n Hn Hl; cbn [foldl]; [simpl; f_equal; unfold bitmap_weight; simpl; lia|].
    cbn [rbind]. pose proof (Hw c Hc) as Hwc. simpl length in Hl.
    rewrite <- (unsigned_id 32 n) at 1 by (unfold is_unsigned; lia).
    rewrite clear_lowest_shift, clear_lowest_byte by done. unfold fmap, res_fmap.
    rewrite unsigned_id by (unfold is_unsigned; lia).
    rewrite IH by lia. f_equal. unfold bitmap_weight. rewrite fmap_cons. simpl. lia. }
  rewrite Hgen by lia. done.
Qed.

(** The weight is the number of indices whose bit is set. *)
Lemma byte_weight_seq c : byte_weight c = length (filter (fun i => Z.testbit c (Z.of_nat i) = true) (seq 0 8)).
Proof.
  unfold byte_weight. change (seqZ 0 8) with (Z.of_nat <$> seq 0 8).
  rewrite <- (filter_fmap_iff Z.of_nat (fun k => Z.testbit c k = true) (fun i => Z.testbit c (Z.of_nat i) = true)) by done.
  by rewrite length_fmap.
Qed.

Lemma bitmap_weight_count (flags : bytes) :
  bitmap_weight flags = length (filter (fun i => bit_at flags i = true) (seq 0 (8 * length flags))).
Proof.
  induction flags as [|c l IH]; [done|].
  change (bitmap_weight (c :: l)) with (byte_weight c + bitmap_weight l)%nat.
  replace (8 * length (c :: l))%nat with (8 + 8 * length l)%nat by (simpl; lia).
  rewrite seq_app, list.filter_app, length_app. f_equal.
  - rewrite byte_weight_seq. reflexivity.
  - rewrite IH. change (0 + 8)%nat with (8 + 0)%nat. rewrite <- (fmap_add_seq 8 0 (8 * length l)).
    rewrite <- (filter_fmap_iff (Nat.add 8) (fun i => bit_at (c :: l) i = true) (fun i => bit_at l i = true)).
    + by rewrite length_fmap.
    + intros i _. unfold bit_at.
      replace (8 + i)%nat with (i + 1 * 8)%nat by lia. rewrite Nat.div_add, Nat.Div0.mod_add by lia.
      replace (i / 8 + 1)%nat with (S (i / 8)) by lia. done.
Qed.
