(* ===== verification/HashBucketPage.v ===== *)
(** The bucket page of the extendible hash table
    ([src/storage/page/hash_table_bucket_page.cpp]).

    A bucket is an array of key/value pairs with two bitmaps; the state is the
    one the class has, and the loops are the code's.  Its contents are the
    entries of the readable slots, in slot order. *)

From S2P Require Import Prelude Bytes Bitmap.

(** ** Definitions *)

(** What the class template is instantiated with: [std::pair<KeyType, ValueType>],
    its size, the comparator, [ValueType::operator==] and the pair that zeroed
    memory represents. *)
Class MappingType (K V : Type) : Type := {
  KeyComparator : K -> K -> Z;
  sizeof_MappingType : Z;
  ValueType_eqb : V -> V -> bool;
  zero_mapping : K * V
}.

Class MappingOk `{Config} (K V : Type) `{!MappingType K V} : Prop := {
  cmp_refl (k : K) : KeyComparator k k = 0;
  cmp_sym (k k' : K) : KeyComparator k k' = 0 -> KeyComparator k' k = 0;
  cmp_trans (k1 k2 k3 : K) : KeyComparator k1 k2 = 0 -> KeyComparator k2 k3 = 0 -> KeyComparator k1 k3 = 0;
  eqb_spec (v v' : V) : ValueType_eqb v v' = true <-> v = v';
  sizeof_ok : 0 < sizeof_MappingType < PAGE_SIZE
}.

Record HashTableBucketPage (K V : Type) : Type := MkBucket {
  occupied_ : bytes;
  readable_ : bytes;
  array_ : list (K * V)
}.
Arguments MkBucket {K V} _ _ _.
Arguments occupied_ {K V} _.
Arguments readable_ {K V} _.
Arguments array_ {K V} _.

Section Bucket.
Context `{Config} {K V : Type} `{!MappingType K V}.
Implicit Types (b : HashTableBucketPage K V) (key : K) (value : V).

Definition BUCKET_ARRAY_SIZE : Z := 4 * PAGE_SIZE / (4 * sizeof_MappingType + 1).
Definition GetNumofChars : Z := (BUCKET_ARRAY_SIZE - 1) / 8 + 1.

(** The bucket that a zeroed page represents. *)
Definition Bucket_zero : HashTableBucketPage K V :=
  MkBucket (replicate (Z.to_nat GetNumofChars) 0) (replicate (Z.to_nat GetNumofChars) 0)
           (replicate (Z.to_nat BUCKET_ARRAY_SIZE) zero_mapping).

Definition Bucket_KeyAt (bucket_idx : Z) b : res K := fst <$> zlookup (array_ b) bucket_idx.
Definition Bucket_ValueAt (bucket_idx : Z) b : res V := snd <$> zlookup (array_ b) bucket_idx.
Definition Bucket_IsOccupied (bucket_idx : Z) b : res bool := bitmap_get (occupied_ b) bucket_idx.
Definition Bucket_IsReadable (bucket_idx : Z) b : res bool := bitmap_get (readable_ b) bucket_idx.
Definition Bucket_SetOccupied (bucket_idx bit : Z) b : res (HashTableBucketPage K V) :=
  let! l := bitmap_set (occupied_ b) bucket_idx bit in Ok (MkBucket l (readable_ b) (array_ b)).
Definition Bucket_SetReadable (bucket_idx bit : Z) b : res (HashTableBucketPage K V) :=
  let! l := bitmap_set (readable_ b) bucket_idx bit in Ok (MkBucket (occupied_ b) l (array_ b)).

Definition Bucket_NumReadable b : res Z := bitmap_count (readable_ b).
Definition Bucket_IsFull b : res bool := let! n := Bucket_NumReadable b in Ok (n =? BUCKET_ARRAY_SIZE).
Definition Bucket_IsEmpty b : res bool := let! n := Bucket_NumReadable b in Ok (n =? 0).

(** The loop of [GetValue] from slot [i], [n] slots left: the values appended to
    [result]. *)
Fixpoint GetValue_loop (n : nat) (i : Z) key b (result : list V) : res (list V) :=
  match n with
  | O => Ok result
  | S n =>
      let! readable := Bucket_IsReadable i b in
      if negb readable then
        let! occupied := Bucket_IsOccupied i b in
        if negb occupied then Ok result else GetValue_loop n (i + 1) key b result
      else
        let! k := Bucket_KeyAt i b in
        if KeyComparator key k =? 0 then
          let! v := Bucket_ValueAt i b in GetValue_loop n (i + 1) key b (result ++ [v])
        else GetValue_loop n (i + 1) key b result
  end.

Definition Bucket_GetValue key b (result : list V) : res (bool * list V) :=
  let! result := GetValue_loop (Z.to_nat BUCKET_ARRAY_SIZE) 0 key b result in
  Ok (negb (Nat.eqb (length result) 0), result).

Fixpoint Insert_loop (n : nat) (i : Z) key value b : res (HashTableBucketPage K V) :=
  match n with
  | O => Ok b
  | S n =>
      let! readable := Bucket_IsReadable i b in
      if negb readable then
        let! array := zupdate (array_ b) i (key, value) in
        let! b := Bucket_SetReadable i 1 (MkBucket (occupied_ b) (readable_ b) array) in
        Bucket_SetOccupied i 1 b
      else Insert_loop n (i + 1) key value b
  end.

Definition Bucket_Insert key value b : res (bool * HashTableBucketPage K V) :=
  let! full := Bucket_IsFull b in
  if full then Ok (false, b) else
  let! '(_, result) := Bucket_GetValue key b [] in
  if existsb (fun v => ValueType_eqb v value) result then Ok (false, b) else
  let! b := Insert_loop (Z.to_nat BUCKET_ARRAY_SIZE) 0 key value b in
  Ok (true, b).

Fixpoint Remove_loop (n : nat) (i : Z) key value b : res (bool * HashTableBucketPage K V) :=
  match n with
  | O => Ok (false, b)
  | S n =>
      let! readable := Bucket_IsReadable i b in
      if negb readable then Remove_loop n (i + 1) key value b else
      let! k := Bucket_KeyAt i b in
      let! v := Bucket_ValueAt i b in
      if (KeyComparator key k =? 0) && ValueType_eqb v value then
        let! b := Bucket_SetReadable i 0 b in Ok (true, b)
      else Remove_loop n (i + 1) key value b
  end.

Definition Bucket_Remove key value b : res (bool * HashTableBucketPage K V) :=
  Remove_loop (Z.to_nat BUCKET_ARRAY_SIZE) 0 key value b.

Definition Bucket_RemoveAt (bucket_idx : Z) b : res (HashTableBucketPage K V) :=
  let! b := Bucket_SetOccupied bucket_idx 1 b in Bucket_SetReadable bucket_idx 0 b.

(** ** The contents and the invariant *)

Definition bucket_size : nat := Z.to_nat BUCKET_ARRAY_SIZE.

Definition slot b (i : nat) : option (K * V) := if bit_at (readable_ b) i then array_ b !! i else None.
Definition slots b : list (option (K * V)) := slot b <$> seq 0 bucket_size.
Definition entries b : list (K * V) := entries_of (slots b).

Definition key_match key (e : K * V) : bool := KeyComparator key e.1 =? 0.
Definition entry_match key value (e : K * V) : bool := key_match key e && ValueType_eqb e.2 value.

Definition slot_match key value (o : option (K * V)) : bool :=
  match o with Some e => entry_match key value e | None => false end.

(** The values stored under a key. *)
Definition values_at key (l : list (K * V)) : list V := snd <$> filter (fun e => key_match key e = true) l.

(** Every readable slot is occupied and within the array; the occupied slots
    are a prefix of it. *)
Record bucket_inv b : Prop := {
  bkt_array : length (array_ b) = bucket_size;
  bkt_readable : is_bytes (readable_ b) /\ length (readable_ b) = Z.to_nat GetNumofChars;
  bkt_occupied : is_bytes (occupied_ b) /\ length (occupied_ b) = Z.to_nat GetNumofChars;
  bkt_sub i : bit_at (readable_ b) i = true -> bit_at (occupied_ b) i = true /\ (i < bucket_size)%nat;
  bkt_prefix i j : (j <= i)%nat -> bit_at (occupied_ b) i = true -> bit_at (occupied_ b) j = true
}.

End Bucket.

Section BucketLemmas.
Context `{Config} {K V : Type} `{!MappingType K V} `{!MappingOk K V}.
Implicit Types (b : HashTableBucketPage K V) (key : K) (value : V).

Lemma array_size_pos : 0 < BUCKET_ARRAY_SIZE.
Proof.
  unfold BUCKET_ARRAY_SIZE. pose proof (sizeof_ok (K := K) (V := V)). apply Z.div_str_pos. lia.
Qed.

Lemma array_size_bound : BUCKET_ARRAY_SIZE < 2 ^ 31.
Proof.
  unfold BUCKET_ARRAY_SIZE. pose proof (sizeof_ok (K := K) (V := V)). pose proof PAGE_SIZE_int.
  apply Z.div_lt_upper_bound; [lia|]. simpl in *. nia.
Qed.

Lemma bucket_size_Z : Z.of_nat bucket_size = BUCKET_ARRAY_SIZE.
Proof. unfold bucket_size. pose proof array_size_pos. lia. Qed.

Lemma num_chars : BUCKET_ARRAY_SIZE <= 8 * GetNumofChars < BUCKET_ARRAY_SIZE + 8.
Proof.
  unfold GetNumofChars. pose proof array_size_pos.
  pose proof (Z.div_mod (BUCKET_ARRAY_SIZE - 1) 8). pose proof (Z.mod_pos_bound (BUCKET_ARRAY_SIZE - 1) 8). lia.
Qed.

Lemma slot_range (i : nat) : (i < bucket_size)%nat -> (i < 8 * Z.to_nat GetNumofChars)%nat.
Proof. pose proof num_chars. pose proof bucket_size_Z. lia. Qed.

Lemma IsReadable_ok b i : bucket_inv b -> (i < bucket_size)%nat ->
  Bucket_IsReadable (Z.of_nat i) b = Ok (bit_at (readable_ b) i).
Proof. intros Hb Hi. apply bitmap_get_ok. rewrite (proj2 (bkt_readable _ Hb)). by apply slot_range. Qed.

Lemma IsOccupied_ok b i : bucket_inv b -> (i < bucket_size)%nat ->
  Bucket_IsOccupied (Z.of_nat i) b = Ok (bit_at (occupied_ b) i).
Proof. intros Hb Hi. apply bitmap_get_ok. rewrite (proj2 (bkt_occupied _ Hb)). by apply slot_range. Qed.

Lemma slot_at b i : bucket_inv b -> (i < bucket_size)%nat ->
  exists e, array_ b !! i = Some e /\ Bucket_KeyAt (Z.of_nat i) b = Ok e.1 /\ Bucket_ValueAt (Z.of_nat i) b = Ok e.2
    /\ slot b i = if bit_at (readable_ b) i then Some e else None.
Proof.
  intros Hb Hi. destruct (lookup_lt_is_Some_2 (array_ b) i) as [e He]; [by rewrite (bkt_array _ Hb)|].
  exists e. unfold Bucket_KeyAt, Bucket_ValueAt, slot. rewrite (zlookup_nat _ _ e He), He. by destruct (bit_at _ i).
Qed.

Lemma slots_length b : length (slots b) = bucket_size.
Proof. unfold slots. by rewrite length_fmap, length_seq. Qed.

Lemma slots_lookup b i : (i < bucket_size)%nat -> slots b !! i = Some (slot b i).
Proof. intros Hi. unfold slots. rewrite list_lookup_fmap, lookup_seq_lt by done. done. Qed.

Lemma slots_drop b i : (i < bucket_size)%nat -> drop i (slots b) = slot b i :: drop (S i) (slots b).
Proof. intros Hi. apply drop_S. by apply slots_lookup. Qed.

(** Slots from an unoccupied one on are empty. *)
Lemma slots_unoccupied b i :
  bucket_inv b -> bit_at (occupied_ b) i = false -> entries_of (drop i (slots b)) = [].
Proof.
  intros Hb Ho. assert (Hn : forall e, e ∉ entries_of (drop i (slots b))).
  { intros e He%elem_of_entries. apply list_elem_of_lookup in He as [j Hj]. rewrite lookup_drop in Hj.
    pose proof (lookup_lt_Some _ _ _ Hj) as Hlt. rewrite slots_length in Hlt.
    rewrite slots_lookup in Hj by done. simplify_eq. unfold slot in Hj.
    destruct (bit_at (readable_ b) (i + j)) eqn:Hr; [|done].
    apply (bkt_sub _ Hb) in Hr as [Hr _].
    rewrite (bkt_prefix _ Hb (i + j) i) in Ho by (done || lia). done. }
  destruct (entries_of _) as [|e l]; [done|]. destruct (Hn e). set_solver.
Qed.

Lemma values_at_cons key (e : K * V) l :
  values_at key (e :: l) = (if key_match key e then [e.2] else []) ++ values_at key l.
Proof. unfold values_at. rewrite filter_cons. destruct (key_match key e); done. Qed.

Lemma values_at_app key (l1 l2 : list (K * V)) : values_at key (l1 ++ l2) = values_at key l1 ++ values_at key l2.
Proof. unfold values_at. by rewrite list.filter_app, fmap_app. Qed.

Lemma GetValue_loop_ok b key n i result :
  bucket_inv b -> (i + n = bucket_size)%nat ->
  GetValue_loop n (Z.of_nat i) key b result = Ok (result ++ values_at key (entries_of (drop i (slots b)))).
Proof.
  intros Hb. revert i result. induction n as [|n IH]; intros i result Hn.
  { simpl. rewrite drop_ge by (rewrite slots_length; lia). by rewrite app_nil_r. }
  cbn [GetValue_loop]. rewrite IsReadable_ok by (done || lia). cbn [rbind].
  destruct (slot_at b i Hb) as (e & He & Hk & Hv & Hs); [lia|].
  rewrite slots_drop by lia. rewrite Hs.
  replace (Z.of_nat i + 1) with (Z.of_nat (S i)) by lia.
  destruct (bit_at (readable_ b) i) eqn:Hr; cbn [negb].
  - rewrite Hk. cbn [rbind entries_of]. rewrite values_at_cons. unfold key_match at 1.
    destruct (KeyComparator key e.1 =? 0); [rewrite Hv; cbn [rbind]|]; rewrite IH by lia.
    + by rewrite <- app_assoc.
    + done.
  - rewrite IsOccupied_ok by (done || lia). cbn [rbind entries_of].
    destruct (bit_at (occupied_ b) i) eqn:Ho; cbn [negb]; [by rewrite IH by lia|].
    pose proof (slots_unoccupied b i Hb Ho) as Hd. rewrite slots_drop, Hs in Hd by lia. simpl in Hd.
    rewrite Hd. by rewrite app_nil_r.
Qed.

Lemma GetValue_ok b key result :
  bucket_inv b ->
  Bucket_GetValue key b result
  = Ok (negb (Nat.eqb (length (result ++ values_at key (entries b))) 0), result ++ values_at key (entries b)).
Proof.
  intros Hb. unfold Bucket_GetValue. change 0 with (Z.of_nat 0).
  rewrite GetValue_loop_ok by done. cbn [rbind]. change (drop 0 (slots b)) with (slots b). fold (entries b).
  by destruct (result ++ values_at key (entries b)).
Qed.

Lemma NumReadable_ok b : bucket_inv b -> Bucket_NumReadable b = Ok (Z.of_nat (length (entries b))).
Proof.
  intros Hb. destruct (bkt_readable _ Hb) as [Hr Hl]. unfold Bucket_NumReadable.
  pose proof num_chars. pose proof array_size_pos. pose proof array_size_bound. simpl in *.
  rewrite bitmap_count_ok by (rewrite ?Hl; done || lia). f_equal. f_equal.
  rewrite bitmap_weight_count, Hl.
  assert (Hsz : (8 * Z.to_nat GetNumofChars = bucket_size + (8 * Z.to_nat GetNumofChars - bucket_size))%nat)
    by (pose proof bucket_size_Z; lia).
  rewrite Hsz, seq_app, list.filter_app, length_app.
  assert (Htail : forall m, length (filter (fun i => bit_at (readable_ b) i = true) (seq (0 + bucket_size) m)) = 0%nat).
  { intros m. rewrite filter_none; [done|]. intros i Hi%elem_of_seq Hbit. apply (bkt_sub _ Hb) in Hbit as [_ ?]. lia. }
  rewrite Htail, Nat.add_0_r. unfold entries, slots.
  assert (Hgen : forall n, (n <= bucket_size)%nat ->
    length (filter (fun i => bit_at (readable_ b) i = true) (seq 0 n)) = length (entries_of (slot b <$> seq 0 n))).
  { induction n as [|n IH]; intros Hn; [done|].
    rewrite seq_S, list.filter_app, fmap_app, entries_of_app, !length_app, IH by lia. f_equal. cbn [fmap list_fmap Nat.add].
    destruct (slot_at b n Hb) as (e & _ & _ & _ & ->); [lia|].
    rewrite filter_cons, filter_nil. case_decide as Hd; [by rewrite Hd|].
    by destruct (bit_at (readable_ b) n). }
  by apply Hgen.
Qed.

Lemma IsFull_ok b : bucket_inv b -> Bucket_IsFull b = Ok (bool_decide (length (entries b) = bucket_size)).
Proof.
  intros Hb. unfold Bucket_IsFull. rewrite NumReadable_ok by done. cbn [rbind]. f_equal.
  rewrite <- bucket_size_Z. apply eq_true_iff_eq. rewrite bool_decide_eq_true, Z.eqb_eq. lia.
Qed.

Lemma IsEmpty_ok b : bucket_inv b -> Bucket_IsEmpty b = Ok (Nat.eqb (length (entries b)) 0).
Proof.
  intros Hb. unfold Bucket_IsEmpty. rewrite NumReadable_ok by done. cbn [rbind]. f_equal.
  by destruct (entries b).
Qed.

Lemma bucket_zero_inv : bucket_inv (Bucket_zero : HashTableBucketPage K V) /\ entries (Bucket_zero : HashTableBucketPage K V) = [].
Proof.
  assert (Hbit : forall n i, bit_at (replicate n 0) i = false).
  { intros n i. unfold bit_at. destruct (replicate n 0 !! (i / 8)%nat) as [c|] eqn:E; [|done].
    apply lookup_replicate in E as [-> _]. apply Z.testbit_0_l. }
  assert (Hby : forall n, is_bytes (replicate n 0)) by (intros n; apply Forall_replicate; unfold is_byte; lia).
  split.
  - split; simpl.
    + by rewrite length_replicate.
    + by rewrite length_replicate.
    + by rewrite length_replicate.
    + intros i Hi. by rewrite Hbit in Hi.
    + intros i j _ Hi. by rewrite Hbit in Hi.
  - unfold entries, slots. induction (seq 0 bucket_size) as [|i l IH]; [done|].
    cbn [fmap list_fmap]. unfold slot at 1. simpl. rewrite Hbit. exact IH.
Qed.

(** *** Updating one slot *)

Lemma slots_ext b (l : list (option (K * V))) :
  length l = bucket_size -> (forall j, (j < bucket_size)%nat -> l !! j = Some (slot b j)) -> slots b = l.
Proof.
  intros Hl Hj. apply list_eq. intros j. destruct (decide (j < bucket_size)%nat).
  - by rewrite slots_lookup, Hj.
  - rewrite !lookup_ge_None_2; [done|lia|rewrite slots_length; lia].
Qed.

(** Filling the first free slot. *)
Lemma fill_slot b i (e : K * V) :
  bucket_inv b -> (i < bucket_size)%nat -> bit_at (readable_ b) i = false ->
  (forall j, (j < i)%nat -> bit_at (readable_ b) j = true) ->
  exists b', (let! array := zupdate (array_ b) (Z.of_nat i) e in
              let! b1 := Bucket_SetReadable (Z.of_nat i) 1 (MkBucket (occupied_ b) (readable_ b) array) in
              Bucket_SetOccupied (Z.of_nat i) 1 b1) = Ok b'
    /\ bucket_inv b' /\ slots b' = <[i := Some e]> (slots b) /\ array_ b' = <[i := e]> (array_ b).
Proof.
  intros Hb Hi Hfree Hbelow. pose proof (slot_range i Hi) as Hr.
  destruct (bkt_readable _ Hb) as [Hrb Hrl]. destruct (bkt_occupied _ Hb) as [Hob Hol].
  rewrite zupdate_ok by (rewrite (bkt_array _ Hb); lia). cbn [rbind]. rewrite Nat2Z.id.
  destruct (bitmap_set_ok (readable_ b) i 1 Hrb) as (rd & Hset & Hrd & Hrdl & Hrdj); [by rewrite Hrl|].
  destruct (bitmap_set_ok (occupied_ b) i 1 Hob) as (oc & Hset' & Hoc & Hocl & Hocj); [by rewrite Hol|].
  unfold Bucket_SetReadable, Bucket_SetOccupied. cbn [readable_ occupied_ array_]. rewrite Hset. cbn [rbind occupied_].
  rewrite Hset'. cbn [rbind]. eexists. split; [done|]. split_and!; [| |done].
  - split; simpl.
    + rewrite length_insert. apply (bkt_array _ Hb).
    + split; [done|congruence].
    + split; [done|congruence].
    + intros j. rewrite Hrdj, Hocj. case_decide; subst; [done|]. apply (bkt_sub _ Hb).
    + intros j k Hk. rewrite !Hocj. case_decide as Hji; case_decide as Hki; subst; try done.
      * intros _. apply (bkt_sub _ Hb). apply Hbelow. lia.
      * by apply (bkt_prefix _ Hb).
  - apply slots_ext; [by rewrite length_insert, slots_length|]. intros j Hj.
    unfold slot. simpl. rewrite Hrdj. case_decide as Hji.
    + subst. rewrite !list_lookup_insert_eq; [done|by rewrite (bkt_array _ Hb)|by rewrite slots_length].
    + rewrite !list_lookup_insert_ne by done. by apply slots_lookup.
Qed.

Lemma clear_slot b i :
  bucket_inv b -> (i < bucket_size)%nat ->
  exists b', Bucket_SetReadable (Z.of_nat i) 0 b = Ok b' /\ bucket_inv b' /\ slots b' = <[i := None]> (slots b)
    /\ array_ b' = array_ b /\ (forall j, bit_at (readable_ b') j = if decide (j = i) then false else bit_at (readable_ b) j).
Proof.
  intros Hb Hi. pose proof (slot_range i Hi) as Hr. destruct (bkt_readable _ Hb) as [Hrb Hrl].
  destruct (bitmap_set_ok (readable_ b) i 0 Hrb) as (rd & Hset & Hrd & Hrdl & Hrdj); [by rewrite Hrl|].
  unfold Bucket_SetReadable. rewrite Hset. cbn [rbind]. eexists. split; [done|]. split_and!; [|..|done|done].
  - split; simpl; try apply Hb.
    + split; [done|]. rewrite Hrdl. apply (bkt_readable _ Hb).
    + intros j. rewrite Hrdj. case_decide; [done|]. apply (bkt_sub _ Hb).
  - apply slots_ext; [by rewrite length_insert, slots_length|]. intros j Hj.
    unfold slot. simpl. rewrite Hrdj. case_decide as Hji.
    + subst. rewrite list_lookup_insert_eq; [done|by rewrite slots_length].
    + rewrite list_lookup_insert_ne by done. by apply slots_lookup.
Qed.

(** [RemoveAt] of an occupied slot. *)
Lemma RemoveAt_ok b i :
  bucket_inv b -> (i < bucket_size)%nat -> bit_at (readable_ b) i = true ->
  exists b', Bucket_RemoveAt (Z.of_nat i) b = Ok b' /\ bucket_inv b' /\ slots b' = <[i := None]> (slots b)
    /\ array_ b' = array_ b /\ (forall j, bit_at (readable_ b') j = if decide (j = i) then false else bit_at (readable_ b) j).
Proof.
  intros Hb Hi Hrd. pose proof (slot_range i Hi) as Hr. destruct (bkt_occupied _ Hb) as [Hob Hol].
  destruct (bitmap_set_ok (occupied_ b) i 1 Hob) as (oc & Hset' & Hoc & Hocl & Hocj); [by rewrite Hol|].
  unfold Bucket_RemoveAt, Bucket_SetOccupied. rewrite Hset'. cbn [rbind].
  set (b1 := MkBucket oc (readable_ b) (array_ b)).
  assert (Hb1 : bucket_inv b1).
  { split; simpl; try apply Hb.
    - split; [done|]. rewrite Hocl. apply (bkt_occupied _ Hb).
    - intros j Hj. rewrite Hocj. case_decide; [|by apply (bkt_sub _ Hb)]. subst. done.
    - intros j k Hk. rewrite !Hocj. destruct (bkt_sub _ Hb i Hrd) as [Ho _].
      case_decide as Hji; case_decide as Hki; subst; try done; intros Hx.
      + by apply (bkt_prefix _ Hb i).
      + by apply (bkt_prefix _ Hb j). }
  exact (clear_slot b1 i Hb1 Hi).
Qed.

(** *** [Insert] and [Remove] *)

Lemma Insert_loop_ok b key value k n i :
  bucket_inv b -> (i + n = bucket_size)%nat -> (i <= k < bucket_size)%nat ->
  bit_at (readable_ b) k = false -> (forall j, (j < k)%nat -> bit_at (readable_ b) j = true) ->
  exists b', Insert_loop n (Z.of_nat i) key value b = Ok b' /\ bucket_inv b'
    /\ slots b' = <[k := Some (key, value)]> (slots b) /\ array_ b' = <[k := (key, value)]> (array_ b).
Proof.
  intros Hb Hn Hk Hfree Hbelow. revert i Hn Hk. induction n as [|n IH]; intros i Hn Hk; [lia|].
  cbn [Insert_loop]. rewrite IsReadable_ok by (done || lia). cbn [rbind].
  destruct (decide (i = k)) as [->|Hne].
  - rewrite Hfree. cbn [negb]. apply fill_slot; done || lia.
  - rewrite Hbelow by lia. cbn [negb]. replace (Z.of_nat i + 1) with (Z.of_nat (S i)) by lia.
    apply IH; lia.
Qed.

(** A bucket that is not full has a first free slot. *)
Lemma first_free b :
  bucket_inv b -> length (entries b) <> bucket_size ->
  exists k, (k < bucket_size)%nat /\ slots b !! k = Some None /\ bit_at (readable_ b) k = false
    /\ (forall j, (j < k)%nat -> bit_at (readable_ b) j = true).
Proof.
  intros Hb Hne. destruct (list_find (fun o => o = None) (slots b)) as [[k o]|] eqn:Hf.
  - apply list_find_Some in Hf as (Hk & -> & Hlt). pose proof (lookup_lt_Some _ _ _ Hk) as Hks.
    rewrite slots_length in Hks. exists k. split_and!; [done|done| |].
    + rewrite slots_lookup in Hk by done. destruct (slot_at b k Hb Hks) as (e & _ & _ & _ & He).
      rewrite He in Hk. by destruct (bit_at _ k).
    + intros j Hj. destruct (slot_at b j Hb) as (e & _ & _ & _ & He); [lia|].
      destruct (bit_at (readable_ b) j); [done|].
      exfalso. refine (Hlt j None _ Hj eq_refl). rewrite slots_lookup by lia. by rewrite He.
  - apply list_find_None in Hf. destruct Hne. unfold entries. rewrite <- (slots_length b).
    apply entries_of_full. intros Hin. rewrite Forall_forall in Hf. by apply (Hf None).
Qed.

Lemma existsb_value value (l : list V) : existsb (fun v => ValueType_eqb v value) l = true <-> value ∈ l.
Proof.
  rewrite existsb_exists. split.
  - intros (v & Hv & ->%eqb_spec). by apply list_elem_of_In.
  - intros Hv. exists value. split; [by apply list_elem_of_In|by apply eqb_spec].
Qed.

Lemma Insert_ok b key value :
  bucket_inv b ->
  if decide (length (entries b) = bucket_size) then Bucket_Insert key value b = Ok (false, b)
  else (value ∈ values_at key (entries b) -> Bucket_Insert key value b = Ok (false, b))
    /\ (value ∉ values_at key (entries b) ->
        exists k b', Bucket_Insert key value b = Ok (true, b') /\ bucket_inv b'
          /\ slots b !! k = Some None /\ slots b' = <[k := Some (key, value)]> (slots b)
          /\ array_ b' = <[k := (key, value)]> (array_ b)).
Proof.
  intros Hb. unfold Bucket_Insert. rewrite IsFull_ok by done. cbn [rbind].
  case_decide as Hfull; [by rewrite bool_decide_eq_true_2|]. rewrite bool_decide_eq_false_2 by done.
  rewrite GetValue_ok by done. cbn [rbind app]. split; intros Hv.
  - by rewrite (proj2 (existsb_value _ _) Hv).
  - rewrite (not_true_is_false _ (fun H => Hv (proj1 (existsb_value _ _) H))).
    destruct (first_free b Hb Hfull) as (k & Hk & Hs & Hr & Hbelow).
    change 0 with (Z.of_nat 0).
    destruct (Insert_loop_ok b key value k (Z.to_nat BUCKET_ARRAY_SIZE) 0 Hb) as (b' & -> & Hb' & Hs' & Ha');
      [done|lia|done|done|]. by exists k, b'.
Qed.

Lemma Remove_loop_ok b key value n i :
  bucket_inv b -> (i + n = bucket_size)%nat ->
  match list_find (fun o => slot_match key value o = true) (drop i (slots b)) with
  | Some (k, _) => exists b', Remove_loop n (Z.of_nat i) key value b = Ok (true, b') /\ bucket_inv b'
      /\ slots b' = <[(i + k)%nat := None]> (slots b) /\ array_ b' = array_ b
  | None => Remove_loop n (Z.of_nat i) key value b = Ok (false, b)
  end.
Proof.
  intros Hb. revert i. induction n as [|n IH]; intros i Hn.
  { by rewrite drop_ge by (rewrite slots_length; lia). }
  rewrite slots_drop by lia. cbn [list_find Remove_loop].
  rewrite IsReadable_ok by (done || lia). cbn [rbind].
  destruct (slot_at b i Hb) as (e & He & Hk & Hv & Hs); [lia|]. rewrite Hs.
  replace (Z.of_nat i + 1) with (Z.of_nat (S i)) by lia. specialize (IH (S i) ltac:(lia)).
  assert (Hskip : forall m, (match list_find (fun o => slot_match key value o = true) (drop (S i) (slots b)) with
     | Some (k, _) => exists b', m = Ok (true, b') /\ bucket_inv b' /\ slots b' = <[(S i + k)%nat := None]> (slots b)
         /\ array_ b' = array_ b
     | None => m = Ok (false, b) end) ->
    match prod_map S id <$> list_find (fun o => slot_match key value o = true) (drop (S i) (slots b)) with
     | Some (k, _) => exists b', m = Ok (true, b') /\ bucket_inv b' /\ slots b' = <[(i + k)%nat := None]> (slots b)
         /\ array_ b' = array_ b
     | None => m = Ok (false, b) end).
  { intros m. destruct (list_find _ _) as [[k o]|]; [|done]. simpl. by rewrite Nat.add_succ_r. }
  destruct (bit_at (readable_ b) i) eqn:Hr; cbn [negb].
  - rewrite Hk, Hv. cbn [rbind]. cbn [slot_match]. unfold entry_match, key_match.
    destruct ((KeyComparator key e.1 =? 0) && ValueType_eqb e.2 value) eqn:Hm.
    + rewrite decide_True by done. rewrite Nat.add_0_r.
      destruct (clear_slot b i Hb) as (b' & -> & Hb' & Hs' & Ha' & _); [lia|]. by exists b'.
    + rewrite decide_False by done. by apply Hskip.
  - rewrite decide_False by done. by apply Hskip.
Qed.

Lemma Remove_ok b key value :
  bucket_inv b ->
  match list_find (fun o => slot_match key value o = true) (slots b) with
  | Some (k, _) => exists b', Bucket_Remove key value b = Ok (true, b') /\ bucket_inv b'
      /\ slots b' = <[k := None]> (slots b) /\ array_ b' = array_ b
  | None => Bucket_Remove key value b = Ok (false, b)
  end.
Proof. intros Hb. apply (Remove_loop_ok b key value (Z.to_nat BUCKET_ARRAY_SIZE) 0 Hb). done. Qed.
End BucketLemmas.

(** ** The instance [HashTableBucketPage<int, int, IntComparator>] *)

Definition IntComparator (lhs rhs : Z) : Z := if lhs <? rhs then -1 else if rhs <? lhs then 1 else 0.

#[export] Instance int_mapping : MappingType Z Z := {|
  KeyComparator := IntComparator;
  sizeof_MappingType := 8;
  ValueType_eqb := Z.eqb;
  zero_mapping := (0, 0)
|}.

Lemma IntComparator_eq a b : IntComparator a b = 0 <-> a = b.
Proof. unfold IntComparator. destruct (Z.ltb_spec a b), (Z.ltb_spec b a); lia. Qed.

Lemma int_mapping_ok `{Config} : 8 < PAGE_SIZE -> MappingOk Z Z.
Proof.
  intros HP. split; simpl.
  - intros k. by apply IntComparator_eq.
  - intros k k' ->%IntComparator_eq. by apply IntComparator_eq.
  - intros k1 k2 k3 ->%IntComparator_eq ->%IntComparator_eq. by apply IntComparator_eq.
  - intros v v'. apply Z.eqb_eq.
  - lia.
Qed.

(** Pages of 64 bytes: seven slots per bucket. *)
Definition small_config : Config.
Proof. refine {| PAGE_SIZE := 64; INVALID_PAGE_ID := -1; INVALID_LSN := -1; HEADER_PAGE_ID := 0 |}; lia. Defined.

(** ** Properties *)

(** a bucket answers lookups from its readable slots: [GetValue] appends to
    [result] the values of the entries whose key compares equal, in slot order,
    and says whether [result] is non-empty; [NumReadable] counts the entries
    with the bit-clearing loop, and [IsFull] and [IsEmpty] follow from it. *)
Theorem Bucket_lookup_correct `{Config} {K V} `{!MappingType K V} `{!MappingOk K V}
    (b : HashTableBucketPage K V) (key : K) (result : list V) :
  bucket_inv b ->
  Bucket_GetValue key b result
    = Ok (negb (Nat.eqb (length (result ++ values_at key (entries b))) 0), result ++ values_at key (entries b))
  /\ Bucket_NumReadable b = Ok (Z.of_nat (length (entries b)))
  /\ Bucket_IsFull b = Ok (bool_decide (Z.of_nat (length (entries b)) = BUCKET_ARRAY_SIZE))
  /\ Bucket_IsEmpty b = Ok (Nat.eqb (length (entries b)) 0).
Proof.
  intros Hb. split_and!; [by apply GetValue_ok|by apply NumReadable_ok| |by apply IsEmpty_ok].
  rewrite IsFull_ok by done. f_equal. apply bool_decide_ext. rewrite <- bucket_size_Z. lia.
Qed.

(** [Insert] refuses a full bucket and a pair whose value is already stored
    under the key, without effect; otherwise it adds exactly that pair and keeps
    the bucket invariant. *)
Theorem Bucket_Insert_correct `{Config} {K V} `{!MappingType K V} `{!MappingOk K V}
    (b : HashTableBucketPage K V) (key : K) (value : V) :
  bucket_inv b ->
  (length (entries b) = bucket_size \/ value ∈ values_at key (entries b) -> Bucket_Insert key value b = Ok (false, b))
  /\ (length (entries b) <> bucket_size -> value ∉ values_at key (entries b) ->
      exists b', Bucket_Insert key value b = Ok (true, b') /\ bucket_inv b'
        /\ entries b' ≡ₚ (key, value) :: entries b).
Proof.
  intros Hb. pose proof (Insert_ok b key value Hb) as Hi. case_decide as Hfull; [by split|].
  destruct Hi as [Hdup Hnew]. split.
  - intros [?|Hv]; [done|]. by apply Hdup.
  - intros _ Hv. destruct (Hnew Hv) as (k & b' & Hrun & Hb' & Hk & Hs & _). exists b'. split_and!; [done|done|].
    unfold entries. rewrite Hs. by apply entries_of_set.
Qed.

(** [Remove] removes exactly one entry, the first one in slot order with an
    equal key and the same value, and keeps the invariant; without such an
    entry it returns false without effect. *)
Theorem Bucket_Remove_correct `{Config} {K V} `{!MappingType K V} `{!MappingOk K V}
    (b : HashTableBucketPage K V) (key : K) (value : V) :
  bucket_inv b ->
  (value ∉ values_at key (entries b) -> Bucket_Remove key value b = Ok (false, b))
  /\ (value ∈ values_at key (entries b) ->
      exists b' e l1 l2, Bucket_Remove key value b = Ok (true, b') /\ bucket_inv b'
        /\ entry_match key value e = true /\ Forall (fun e => entry_match key value e = false) l1
        /\ entries b = l1 ++ e :: l2 /\ entries b' = l1 ++ l2).
Proof.
  intros Hb. pose proof (Remove_ok b key value Hb) as Hr.
  assert (Hval : forall l, value ∈ values_at key l <-> exists e, e ∈ l /\ entry_match key value e = true).
  { intros l. unfold values_at. rewrite list_elem_of_fmap. unfold entry_match.
    split; intros (e & H1 & H2); exists e.
    - apply list_elem_of_filter in H2 as [-> ?]. split; [done|]. by apply eqb_spec.
    - apply andb_true_iff in H2 as [? ->%eqb_spec]. split; [done|]. by apply list_elem_of_filter. }
  destruct (list_find _ (slots b)) as [[k o]|] eqn:Hf.
  - apply list_find_Some in Hf as (Hk & Ho & Hlt). destruct o as [e|]; [|done]. simpl in Ho.
    pose proof (take_drop_middle _ _ _ Hk) as Hsplit.
    assert (He : entries b = entries_of (take k (slots b)) ++ e :: entries_of (drop (S k) (slots b))).
    { unfold entries. by rewrite <- Hsplit, entries_of_app at 1. }
    split.
    + intros []. apply Hval. exists e. split; [|done]. rewrite He. set_solver.
    + intros _. destruct Hr as (b' & Hrun & Hb' & Hs' & _).
      exists b', e, (entries_of (take k (slots b))), (entries_of (drop (S k) (slots b))).
      split_and!; [done|done|done| |done|].
      * apply Forall_forall. intros x Hx%elem_of_entries. apply list_elem_of_lookup in Hx as [j Hj].
        apply lookup_take_Some in Hj as [Hj Hjk]. pose proof (Hlt j _ Hj Hjk) as Hn. by apply not_true_is_false.
      * unfold entries. rewrite Hs', insert_take_drop by (by apply lookup_lt_Some in Hk). by rewrite entries_of_app.
  - apply list_find_None in Hf. split; [done|]. intros (e & He & Hm)%Hval.
    apply elem_of_entries in He. rewrite Forall_forall in Hf. by apply Hf in He.
Qed.

Section SmallBuckets.
#[local] Existing Instance small_config | 0.

Lemma Bucket_lookup_correct_witness :
  Bucket_GetValue (V := Z) 5 Bucket_zero [9] = Ok (true, [9]) /\ Bucket_NumReadable (Bucket_zero (K := Z) (V := Z)) = Ok 0.
Proof.
  pose proof (@int_mapping_ok small_config eq_refl) as Hm.
  destruct bucket_zero_inv as [Hi He].
  destruct (Bucket_lookup_correct (Bucket_zero : HashTableBucketPage Z Z) 5 [9] Hi) as (H1 & H2 & _).
  rewrite He in H1, H2. split; [exact H1|exact H2].
Defined.

Lemma Bucket_Insert_correct_witness :
  exists b, Bucket_Insert 5 7 (Bucket_zero (K := Z) (V := Z)) = Ok (true, b) /\ entries b = [(5, 7)].
Proof.
  pose proof (@int_mapping_ok small_config eq_refl) as Hm.
  destruct bucket_zero_inv as [Hi He].
  destruct (Bucket_Insert_correct (Bucket_zero : HashTableBucketPage Z Z) 5 7 Hi) as [_ Hn].
  destruct Hn as (b & Hrun & _ & Hp); [by rewrite He|rewrite He; apply not_elem_of_nil|].
  exists b. split; [exact Hrun|]. rewrite He in Hp. by apply Permutation_singleton_r in Hp.
Defined.

Lemma Bucket_Remove_correct_witness :
  exists b b', Bucket_Insert 5 7 (Bucket_zero (K := Z) (V := Z)) = Ok (true, b)
    /\ Bucket_Remove 5 7 b = Ok (true, b') /\ entries b' = [] /\ Bucket_Remove 5 8 b = Ok (false, b).
Proof.
  pose proof (@int_mapping_ok small_config eq_refl) as Hm.
  destruct bucket_zero_inv as [Hi He].
  pose proof (Insert_ok (Bucket_zero : HashTableBucketPage Z Z) 5 7 Hi) as Hins.
  rewrite He in Hins. rewrite decide_False in Hins by done.
  destruct (proj2 Hins (not_elem_of_nil _)) as (k & b & Hrun & Hb & Hk & Hs & _).
  assert (Hbe : entries b = [(5, 7)]).
  { apply Permutation_singleton_r. unfold entries. rewrite Hs. rewrite entries_of_set by done. by fold (entries (Bucket_zero : HashTableBucketPage Z Z)); rewrite He. }
  destruct (Bucket_Remove_correct b 5 7 Hb) as [_ Hr].
  destruct Hr as (b' & e & l1 & l2 & Hrun' & _ & _ & _ & H1 & H2).
  { rewrite Hbe. unfold values_at. simpl. set_solver. }
  destruct (Bucket_Remove_correct b 5 8 Hb) as [Hr _].
  exists b, b'. split_and!; [done|done| |].
  - rewrite H2. rewrite Hbe in H1. destruct l1 as [|? [|??]]; simplify_eq/=; done.
  - apply Hr. rewrite Hbe. unfold values_at. simpl. set_solver.
Defined.
End SmallBuckets.
