(* ===== verification/HashDirectoryPage.v ===== *)
(** The directory page of the extendible hash table
    ([src/storage/page/hash_table_directory_page.cpp]).

    [uint32_t] and [uint8_t] members wrap; array accesses outside the 512
    entries, shifts by 32 or more and a power that does not fit [uint32_t] are
    failures. *)

From S2P Require Import Prelude Bytes.

(** ** Definitions *)

Definition DIRECTORY_ARRAY_SIZE : Z := 512.

Record HashTableDirectoryPage : Type := MkDir {
  dir_page_id_ : Z;
  dir_lsn_ : Z;
  global_depth_ : Z;
  local_depths_ : list Z;
  bucket_page_ids_ : list Z
}.

(** The directory that a zeroed page represents. *)
Definition Dir_zero : HashTableDirectoryPage :=
  MkDir 0 0 0 (replicate (Z.to_nat DIRECTORY_ARRAY_SIZE) 0) (replicate (Z.to_nat DIRECTORY_ARRAY_SIZE) 0).

Section Directory.
Implicit Types d : HashTableDirectoryPage.

(** [static_cast<uint32_t>(std::pow(base, power))]: exact while the power fits. *)
Definition Dir_Pow (base power : Z) : res Z :=
  if base ^ power <? 2 ^ 32 then Ok (base ^ power) else Err IntegerOverflow.

(** [x << n] and [x >> n] on [uint32_t]. *)
Definition shl32 (x n : Z) : res Z := if n <? 32 then Ok (unsigned 32 (Z.shiftl x n)) else Err IntegerOverflow.
Definition shr32 (x n : Z) : res Z := if n <? 32 then Ok (Z.shiftr x n) else Err IntegerOverflow.

Definition Dir_GetPageId d : Z := dir_page_id_ d.
Definition Dir_SetPageId (page_id : Z) d : HashTableDirectoryPage :=
  MkDir page_id (dir_lsn_ d) (global_depth_ d) (local_depths_ d) (bucket_page_ids_ d).
Definition Dir_GetLSN d : Z := dir_lsn_ d.
Definition Dir_SetLSN (lsn : Z) d : HashTableDirectoryPage :=
  MkDir (dir_page_id_ d) lsn (global_depth_ d) (local_depths_ d) (bucket_page_ids_ d).

Definition Dir_GetGlobalDepth d : Z := global_depth_ d.
Definition set_global (g : Z) d : HashTableDirectoryPage :=
  MkDir (dir_page_id_ d) (dir_lsn_ d) g (local_depths_ d) (bucket_page_ids_ d).
Definition Dir_IncrGlobalDepth d : HashTableDirectoryPage := set_global (unsigned 32 (global_depth_ d + 1)) d.
Definition Dir_DecrGlobalDepth d : HashTableDirectoryPage := set_global (unsigned 32 (global_depth_ d - 1)) d.
Definition Dir_GetGlobalDepthMask d : res Z := let! p := Dir_Pow 2 (global_depth_ d) in Ok (unsigned 32 (p - 1)).
Definition Dir_Size d : res Z := Dir_Pow 2 (global_depth_ d).

Definition Dir_GetBucketPageId (bucket_idx : Z) d : res Z := zlookup (bucket_page_ids_ d) bucket_idx.
Definition Dir_SetBucketPageId (bucket_idx bucket_page_id : Z) d : res HashTableDirectoryPage :=
  let! l := zupdate (bucket_page_ids_ d) bucket_idx bucket_page_id in
  Ok (MkDir (dir_page_id_ d) (dir_lsn_ d) (global_depth_ d) (local_depths_ d) l).

Definition Dir_GetLocalDepth (bucket_idx : Z) d : res Z := zlookup (local_depths_ d) bucket_idx.
Definition Dir_SetLocalDepth (bucket_idx local_depth : Z) d : res HashTableDirectoryPage :=
  let! l := zupdate (local_depths_ d) bucket_idx (unsigned 8 local_depth) in
  Ok (MkDir (dir_page_id_ d) (dir_lsn_ d) (global_depth_ d) l (bucket_page_ids_ d)).
Definition Dir_IncrLocalDepth (bucket_idx : Z) d : res HashTableDirectoryPage :=
  let! l := Dir_GetLocalDepth bucket_idx d in Dir_SetLocalDepth bucket_idx (l + 1) d.
Definition Dir_DecrLocalDepth (bucket_idx : Z) d : res HashTableDirectoryPage :=
  let! l := Dir_GetLocalDepth bucket_idx d in Dir_SetLocalDepth bucket_idx (l - 1) d.
Definition Dir_GetLocalDepthMask (bucket_idx : Z) d : res Z :=
  let! l := Dir_GetLocalDepth bucket_idx d in
  let! p := Dir_Pow 2 l in Ok (unsigned 32 (p - 1)).

Definition Dir_GetLocalHighBit (bucket_idx : Z) d : res Z :=
  let! local_depth := Dir_GetLocalDepth bucket_idx d in
  let! hi := shr32 bucket_idx (unsigned 32 (local_depth - 1)) in
  shl32 (unsigned 32 (hi + 1)) (unsigned 32 (local_depth - 1)).

Definition Dir_GetSplitImageIndex (bucket_idx : Z) d : res Z :=
  let! high_bits := Dir_GetLocalHighBit bucket_idx d in
  let! local_depth := Dir_GetLocalDepth bucket_idx d in
  let! p := Dir_Pow 2 (unsigned 32 (local_depth - 1)) in
  let split_image_index := Z.lor high_bits (Z.land bucket_idx (unsigned 32 (p - 1))) in
  let! mask := Dir_GetLocalDepthMask bucket_idx d in
  Ok (Z.land split_image_index mask).

(** The loop of [CanShrink] over the entries from [i]. *)
Fixpoint CanShrink_loop (n : nat) (i : Z) d : res bool :=
  match n with
  | O => Ok true
  | S n =>
      let! l := Dir_GetLocalDepth i d in
      if l =? global_depth_ d then Ok false else CanShrink_loop n (i + 1) d
  end.
Definition Dir_CanShrink d : res bool := let! size := Dir_Size d in CanShrink_loop (Z.to_nat size) 0 d.

(** [VerifyIntegrity]: the maps from page ids to the number of pointers and to
    the local depth, built by the first loop ... *)
Fixpoint Verify_loop (n : nat) (curr_idx : Z) (page_id_to_count page_id_to_ld : gmap Z Z) d
    : res (gmap Z Z * gmap Z Z) :=
  match n with
  | O => Ok (page_id_to_count, page_id_to_ld)
  | S n =>
      let! curr_page_id := Dir_GetBucketPageId curr_idx d in
      let! curr_ld := Dir_GetLocalDepth curr_idx d in
      let! _ := assert (curr_ld <=? global_depth_ d) in
      let count := <[curr_page_id := default 0 (page_id_to_count !! curr_page_id) + 1]> page_id_to_count in
      match page_id_to_ld !! curr_page_id with
      | Some old_ld =>
          if negb (curr_ld =? old_ld) then Err AssertionFailure
          else Verify_loop n (curr_idx + 1) count (<[curr_page_id := curr_ld]> page_id_to_ld) d
      | None => Verify_loop n (curr_idx + 1) count (<[curr_page_id := curr_ld]> page_id_to_ld) d
      end
  end.

(** ... and the check of each count by the second. *)
Definition Verify_count (page_id_to_ld : gmap Z Z) (entry : Z * Z) d : res unit :=
  let curr_ld := default 0 (page_id_to_ld !! entry.1) in
  let! required_count := shl32 1 (global_depth_ d - curr_ld) in
  assert (entry.2 =? required_count).

Definition Dir_VerifyIntegrity d : res unit :=
  let! size := Dir_Size d in
  let! '(count, ld) := Verify_loop (Z.to_nat size) 0 ∅ ∅ d in
  foldl (fun acc e => let! _ := acc in Verify_count ld e d) (Ok tt) (map_to_list count).

(** ** The directory as a function *)

Definition dir_page d (i : Z) : Z := default 0 (bucket_page_ids_ d !! Z.to_nat i).
Definition dir_depth d (i : Z) : Z := default 0 (local_depths_ d !! Z.to_nat i).
Definition dir_size d : Z := 2 ^ global_depth_ d.

(** The arrays have their declared lengths and the members their types. *)
Record dir_wf d : Prop := {
  wf_depths : length (local_depths_ d) = Z.to_nat DIRECTORY_ARRAY_SIZE;
  wf_pages : length (bucket_page_ids_ d) = Z.to_nat DIRECTORY_ARRAY_SIZE;
  wf_depth_bytes : is_bytes (local_depths_ d);
  wf_page_ints : Forall (is_signed 32) (bucket_page_ids_ d);
  wf_global : is_unsigned 32 (global_depth_ d);
  wf_page_id : is_signed 32 (dir_page_id_ d);
  wf_lsn : is_signed 32 (dir_lsn_ d)
}.

(** The shape of an extendible hashing directory: two entries lead to the same
    bucket exactly when they agree on the bucket's local depth many low bits. *)
Record dir_inv d : Prop := {
  inv_wf : dir_wf d;
  inv_global : 1 <= global_depth_ d <= 9;
  inv_local i : 0 <= i < dir_size d -> 1 <= dir_depth d i <= global_depth_ d;
  inv_share i j : 0 <= i < dir_size d -> 0 <= j < dir_size d ->
    dir_page d i = dir_page d j <-> i mod 2 ^ dir_depth d i = j mod 2 ^ dir_depth d i;
  inv_same i j : 0 <= i < dir_size d -> 0 <= j < dir_size d ->
    dir_page d i = dir_page d j -> dir_depth d i = dir_depth d j
}.
End Directory.

(** The pure split image: the entry that differs in the highest bit of the
    bucket's local depth. *)
Definition split_image (i l : Z) : Z := (i + 2 ^ (l - 1)) mod 2 ^ l.

Section DirectoryLemmas.
Implicit Types d : HashTableDirectoryPage.

Lemma dir_size_bound d : 1 <= global_depth_ d <= 9 -> 2 <= dir_size d <= DIRECTORY_ARRAY_SIZE.
Proof.
  intros Hg. unfold dir_size, DIRECTORY_ARRAY_SIZE. split.
  - apply (Z.pow_le_mono_r 2 1); lia.
  - apply (Z.pow_le_mono_r 2 _ 9); lia.
Qed.

Lemma pow2_bound l : 0 <= l <= 9 -> 1 <= 2 ^ l <= 512.
Proof. intros Hl. split; [apply (Z.pow_le_mono_r 2 0); lia|apply (Z.pow_le_mono_r 2 _ 9); lia]. Qed.

Lemma Pow_ok l : 0 <= l < 32 -> Dir_Pow 2 l = Ok (2 ^ l).
Proof.
  intros Hl. unfold Dir_Pow. pose proof (Z.pow_lt_mono_r 2 l 32). by rewrite (proj2 (Z.ltb_lt _ _)) by lia.
Qed.

Lemma mask_ok l : 0 <= l < 32 -> unsigned 32 (2 ^ l - 1) = 2 ^ l - 1.
Proof.
  intros Hl. apply unsigned_id. unfold is_unsigned.
  pose proof (Z.pow_lt_mono_r 2 l 32). pose proof (Z.pow_pos_nonneg 2 l). lia.
Qed.

Lemma Size_ok d : 1 <= global_depth_ d <= 9 -> Dir_Size d = Ok (dir_size d).
Proof. intros. apply Pow_ok. lia. Qed.

Lemma GlobalMask_ok d : 1 <= global_depth_ d <= 9 -> Dir_GetGlobalDepthMask d = Ok (dir_size d - 1).
Proof.
  intros Hg. unfold Dir_GetGlobalDepthMask. rewrite Pow_ok by lia. cbn [rbind]. by rewrite mask_ok by lia.
Qed.

Section Entries.
Context d (Hw : dir_wf d) (i : Z) (Hi : 0 <= i < DIRECTORY_ARRAY_SIZE).

Lemma GetBucketPageId_ok : Dir_GetBucketPageId i d = Ok (dir_page d i).
Proof using Hi Hw.
  unfold Dir_GetBucketPageId, dir_page. destruct (zlookup_is_ok (bucket_page_ids_ d) i) as [x Hx].
  { rewrite (wf_pages _ Hw). lia. }
  rewrite Hx. apply zlookup_ok in Hx as [_ ->]. done.
Qed.

Lemma GetLocalDepth_ok : Dir_GetLocalDepth i d = Ok (dir_depth d i) /\ is_byte (dir_depth d i).
Proof using Hi Hw.
  unfold Dir_GetLocalDepth, dir_depth. destruct (zlookup_is_ok (local_depths_ d) i) as [x Hx].
  { rewrite (wf_depths _ Hw). lia. }
  rewrite Hx. apply zlookup_ok in Hx as [_ Hx]. rewrite Hx. split; [done|].
  by apply (Forall_lookup_1 _ _ _ _ (wf_depth_bytes _ Hw) Hx).
Qed.

Lemma SetBucketPageId_ok p : is_signed 32 p ->
  exists d', Dir_SetBucketPageId i p d = Ok d' /\ dir_wf d' /\ global_depth_ d' = global_depth_ d
    /\ dir_page_id_ d' = dir_page_id_ d
    /\ (forall j, 0 <= j -> dir_page d' j = if decide (j = i) then p else dir_page d j)
    /\ (forall j, dir_depth d' j = dir_depth d j).
Proof using Hi Hw.
  intros Hp. unfold Dir_SetBucketPageId. rewrite zupdate_ok by (rewrite (wf_pages _ Hw); lia). cbn [rbind].
  eexists. split; [done|]. split_and!; try done.
  - destruct Hw. split; simpl; try done; [by rewrite length_insert|by apply Forall_insert].
  - intros j Hj. unfold dir_page. simpl. case_decide as E.
    + subst. rewrite list_lookup_insert_eq; [done|]. rewrite (wf_pages _ Hw). lia.
    + rewrite list_lookup_insert_ne; [done|]. lia.
Qed.

Lemma SetLocalDepth_ok l : is_byte l ->
  exists d', Dir_SetLocalDepth i l d = Ok d' /\ dir_wf d' /\ global_depth_ d' = global_depth_ d
    /\ dir_page_id_ d' = dir_page_id_ d
    /\ (forall j, dir_page d' j = dir_page d j)
    /\ (forall j, 0 <= j -> dir_depth d' j = if decide (j = i) then l else dir_depth d j).
Proof using Hi Hw.
  intros Hl. unfold Dir_SetLocalDepth. rewrite zupdate_ok by (rewrite (wf_depths _ Hw); lia). cbn [rbind].
  eexists. split; [done|]. split_and!; try done.
  - destruct Hw. split; simpl; try done; [by rewrite length_insert|].
    apply Forall_insert; [done|]. by apply (unsigned_range 8).
  - intros j Hj. unfold dir_depth. simpl. case_decide as E.
    + subst. rewrite list_lookup_insert_eq; [|rewrite (wf_depths _ Hw); lia]. simpl.
      apply unsigned_id. exact Hl.
    + rewrite list_lookup_insert_ne; [done|]. lia.
Qed.

Lemma SplitImage_ok : 1 <= dir_depth d i <= 9 ->
  Dir_GetSplitImageIndex i d = Ok (split_image i (dir_depth d i)).
Proof using Hi Hw.
  intros Hl. unfold Dir_GetSplitImageIndex, Dir_GetLocalHighBit, Dir_GetLocalDepthMask.
  destruct GetLocalDepth_ok as [-> _]. cbn [rbind]. set (l := dir_depth d i) in *.
  unfold shr32, shl32. rewrite (unsigned_id 32 (l - 1)) by (unfold is_unsigned; lia).
  rewrite (proj2 (Z.ltb_lt (l - 1) 32)) by lia. cbn [rbind].
  rewrite !Pow_ok by lia. cbn [rbind]. rewrite !mask_ok by lia.
  unfold DIRECTORY_ARRAY_SIZE in Hi. rewrite Z.shiftr_div_pow2 by lia.
  pose proof (pow2_bound (l - 1) ltac:(lia)) as Hp.
  assert (Hdiv : 0 <= i / 2 ^ (l - 1) <= i).
  { split; [apply Z.div_pos; lia|]. apply Z.div_le_upper_bound; nia. }
  rewrite (unsigned_id 32 (i / 2 ^ (l - 1) + 1)) by (unfold is_unsigned; simpl; lia).
  pose proof (Z.div_mod i (2 ^ (l - 1)) ltac:(lia)) as Hdm.
  pose proof (Z.mod_pos_bound i (2 ^ (l - 1)) ltac:(lia)) as Hm.
  rewrite unsigned_id.
  2:{ rewrite Z.shiftl_mul_pow2 by lia. unfold is_unsigned. simpl. nia. }
  rewrite !land_mask by lia. rewrite lor_shiftl_add by lia. unfold split_image. f_equal. f_equal. lia.
Qed.
End Entries.

(** *** The split image *)

Lemma split_image_facts i l : 1 <= l -> 0 <= i ->
  let s := split_image i l in
  0 <= s < 2 ^ l /\ s mod 2 ^ (l - 1) = i mod 2 ^ (l - 1) /\ s <> i mod 2 ^ l
  /\ (forall h, h mod 2 ^ (l - 1) = i mod 2 ^ (l - 1) -> h mod 2 ^ l = s \/ h mod 2 ^ l = i mod 2 ^ l).
Proof.
  intros Hl Hi. unfold split_image. cbv zeta.
  assert (E : 2 ^ l = 2 * 2 ^ (l - 1)).
  { replace l with ((l - 1) + 1) at 1 by lia. rewrite Z.pow_add_r by lia. lia. }
  rewrite E. set (m := 2 ^ (l - 1)). assert (0 < m) by (apply Z.pow_pos_nonneg; lia).
  split; [apply Z.mod_pos_bound; lia|].
  assert (Hmm : forall x, x mod (2 * m) = x mod m \/ x mod (2 * m) = x mod m + m).
  { intros x. pose proof (Z.mod_pos_bound x (2 * m) ltac:(lia)).
    destruct (decide (x mod (2 * m) < m)); [left|right].
    - symmetry. rewrite (Z.div_mod x (2 * m)) at 1 by lia.
      replace (2 * m * (x / (2 * m)) + x mod (2 * m)) with (x mod (2 * m) + (2 * (x / (2 * m))) * m) by lia.
      rewrite Z.mod_add by lia. apply Z.mod_small; lia.
    - enough (x mod m = x mod (2 * m) - m) by lia. rewrite (Z.div_mod x (2 * m)) at 1 by lia.
      replace (2 * m * (x / (2 * m)) + x mod (2 * m)) with (x mod (2 * m) - m + (2 * (x / (2 * m)) + 1) * m) by lia.
      rewrite Z.mod_add by lia. apply Z.mod_small. lia. }
  assert (Hs : (i + m) mod m = i mod m) by (replace (i + m) with (i + 1 * m) by lia; by rewrite Z.mod_add by lia).
  assert (Hne : (i + m) mod (2 * m) <> i mod (2 * m)).
  { intros Hx. assert (Hd : (i + m - i) mod (2 * m) = 0) by (rewrite Zminus_mod, Hx, Z.sub_diag; by apply Z.mod_0_l; lia).
    replace (i + m - i) with m in Hd by lia. rewrite Z.mod_small in Hd; lia. }
  split_and!.
  - rewrite <- Hs. destruct (Hmm (i + m)) as [-> | ->].
    + apply Z.mod_mod. lia.
    + replace ((i + m) mod m + m) with ((i + m) mod m + 1 * m) by lia. rewrite Z.mod_add by lia. apply Z.mod_mod. lia.
  - done.
  - intros h Hh. destruct (Hmm h), (Hmm i), (Hmm (i + m)); lia.
Qed.

(** *** How the operations of the hash table change the shape *)

Lemma mod_pow_le h a b : 0 <= a <= b -> (h mod 2 ^ b) mod 2 ^ a = h mod 2 ^ a.
Proof.
  intros Hab. rewrite <- Znumtheory.Zmod_div_mod; [done|apply Z.pow_pos_nonneg; lia..|].
  exists (2 ^ (b - a)). rewrite <- Z.pow_add_r by lia. f_equal. lia.
Qed.

Lemma size_mod d h : 1 <= global_depth_ d <= 9 -> 0 <= h mod dir_size d < dir_size d.
Proof. intros. pose proof (dir_size_bound d). apply Z.mod_pos_bound. lia. Qed.

(** Entries that agree on [l] low bits agree on fewer. *)
Lemma mod_weaken x y a b : 0 <= a <= b -> x mod 2 ^ b = y mod 2 ^ b -> x mod 2 ^ a = y mod 2 ^ a.
Proof. intros Hab Hx. rewrite <- (mod_pow_le x a b), <- (mod_pow_le y a b) by done. by rewrite Hx. Qed.

Lemma dir_share_sym d i j :
  dir_inv d -> 0 <= i < dir_size d -> 0 <= j < dir_size d ->
  i mod 2 ^ dir_depth d i = j mod 2 ^ dir_depth d i -> dir_depth d i = dir_depth d j /\ dir_page d i = dir_page d j.
Proof. intros Hd Hi Hj Hm. apply (inv_share _ Hd i j Hi Hj) in Hm as Hp. split; [by apply (inv_same _ Hd)|done]. Qed.

(** A split that doubles the directory: the bucket had the full depth. *)
Lemma split_grow_inv d d' i P :
  dir_inv d -> dir_wf d' -> 0 <= i < dir_size d -> dir_depth d i = global_depth_ d -> global_depth_ d < 9 ->
  global_depth_ d' = global_depth_ d + 1 -> (forall j, 0 <= j < dir_size d -> dir_page d j <> P) ->
  let s := split_image i (global_depth_ d + 1) in
  (forall j, 0 <= j < dir_size d' -> dir_page d' j = if decide (j = s) then P else dir_page d (j mod dir_size d)) ->
  (forall j, 0 <= j < dir_size d' ->
     dir_depth d' j = if decide (j = s \/ j = i) then global_depth_ d + 1 else dir_depth d (j mod dir_size d)) ->
  s = i + dir_size d /\ dir_inv d'.
Proof.
  intros Hd Hw Hi Hfull Hlt Hg HP s Hpage Hdepth. pose proof (inv_global _ Hd) as Hgd. set (g := global_depth_ d) in *.
  assert (Hsz : dir_size d' = 2 * dir_size d).
  { unfold dir_size. rewrite Hg. fold g. rewrite Z.pow_add_r by lia. lia. }
  pose proof (dir_size_bound d Hgd) as Hszb.
  assert (Hs : s = i + dir_size d).
  { unfold s, split_image. replace (g + 1 - 1) with g by lia. change (2 ^ g) with (dir_size d).
    replace (2 ^ (g + 1)) with (dir_size d') by (unfold dir_size; by rewrite Hg). apply Z.mod_small. lia. }
  split; [exact Hs|].
  assert (Hg1 : 2 ^ (g + 1) = dir_size d') by (unfold dir_size; by rewrite Hg).
  assert (Hin : forall j, 0 <= j mod dir_size d < dir_size d) by (intros; by apply size_mod).
  assert (Hi0 : i mod dir_size d = i) by (apply Z.mod_small; lia).
  assert (Hlow : forall j, 0 <= j < dir_size d' -> j mod dir_size d = i -> j = i \/ j = s).
  { intros j Hj Hji. pose proof (Z.div_mod j (dir_size d) ltac:(lia)).
    assert (0 <= j / dir_size d < 2) by (split; [apply Z.div_pos|apply Z.div_lt_upper_bound]; lia).
    assert (j / dir_size d = 0 \/ j / dir_size d = 1) as [E|E] by lia; rewrite E in *; lia. }
  assert (Hmd : forall j l, 0 <= l <= g -> (j mod dir_size d) mod 2 ^ l = j mod 2 ^ l).
  { intros j l Hl. unfold dir_size. fold g. by apply mod_pow_le. }
  assert (Hloc : forall j, 1 <= dir_depth d (j mod dir_size d) <= g) by (intros; by apply (inv_local _ Hd)).
  (* an entry below the split pair does not agree with [i] *)
  assert (Hoff : forall a l, 0 <= a < dir_size d' -> a <> i -> a <> s -> l = dir_depth d (a mod dir_size d) ->
    a mod 2 ^ l <> i mod 2 ^ l).
  { intros a l Ha Hai Has -> Hm. destruct (dir_share_sym d (a mod dir_size d) i Hd (Hin a) Hi) as [_ Hp].
    { by rewrite Hmd by (specialize (Hloc a); lia). }
    symmetry in Hp. apply (inv_share _ Hd i _ Hi (Hin a)) in Hp. rewrite Hfull in Hp. fold g in Hp.
    rewrite Hmd in Hp by lia. fold (dir_size d) in Hp. change (2 ^ g) with (dir_size d) in Hp.
    rewrite Hi0 in Hp. destruct (Hlow a Ha); [done|done|done]. }
  split; [done|lia| | |].
  - intros j Hj. rewrite Hdepth, Hg by done. fold g. case_decide; [lia|]. specialize (Hloc j). lia.
  - intros a b Ha Hb. rewrite (Hdepth a Ha), (Hpage a Ha), (Hpage b Hb).
    destruct (decide (a = s \/ a = i)) as [Hab|Hab].
    + rewrite Hg1. rewrite !(Z.mod_small _ (dir_size d')) by lia.
      destruct (decide (a = s)) as [->|Has]; case_decide as Hbs.
      * by subst.
      * split; [|by intros ->]. intros Hp. symmetry in Hp. by apply HP in Hp.
      * split; [intros Hp; by apply HP in Hp|]. by intros ->.
      * destruct Hab as [?| ->]; [done|]. rewrite Hi0. split; [|by intros ->; rewrite Hi0].
        intros Hp. apply (inv_share _ Hd i _ Hi (Hin b)) in Hp. rewrite Hfull in Hp. fold g in Hp.
        rewrite Hmd in Hp by lia. change (2 ^ g) with (dir_size d) in Hp. rewrite Hi0 in Hp.
        destruct (Hlow b Hb); done.
    + assert (Has : a <> s) by tauto. assert (Hai : a <> i) by tauto. rewrite (decide_False (P := a = s)) by done.
      pose proof (Hloc a) as Hla. case_decide as Hbs.
      * subst b. split; [intros Hp; by apply HP in Hp|]. intros Hm. destruct (Hoff a _ Ha Hai Has eq_refl).
        rewrite Hm. rewrite Hs. rewrite <- (Hmd (i + dir_size d)) by lia.
        replace (i + dir_size d) with (i + 1 * dir_size d) by lia. rewrite Z.mod_add by lia. by rewrite Hi0.
      * rewrite (inv_share _ Hd _ _ (Hin a) (Hin b)). by rewrite !Hmd by lia.
  - intros a b Ha Hb. rewrite (Hdepth a Ha), (Hdepth b Hb), (Hpage a Ha), (Hpage b Hb). intros Hp.
    destruct (decide (a = s)) as [->|Has], (decide (b = s)) as [->|Hbs].
    + by rewrite !decide_True by tauto.
    + symmetry in Hp. by apply HP in Hp.
    + by apply HP in Hp.
    + pose proof (inv_same _ Hd _ _ (Hin a) (Hin b) Hp) as Hsame.
      assert (Hii : forall x y, 0 <= x < dir_size d' -> 0 <= y < dir_size d' -> x = i -> y <> s ->
        dir_page d (x mod dir_size d) = dir_page d (y mod dir_size d) -> y = i).
      { intros x y Hx Hy -> Hys Hpp. rewrite Hi0 in Hpp. apply (inv_share _ Hd i _ Hi (Hin y)) in Hpp.
        rewrite Hfull in Hpp. fold g in Hpp. rewrite Hmd in Hpp by lia. change (2 ^ g) with (dir_size d) in Hpp.
        rewrite Hi0 in Hpp. by destruct (Hlow y Hy). }
      destruct (decide (a = i)) as [Hai|Hai].
      * rewrite (Hii a b Ha Hb Hai Hbs Hp). rewrite Hai. by rewrite !decide_True by tauto.
      * destruct (decide (b = i)) as [Hbi|Hbi]; [by destruct Hai; apply (Hii b a)|].
        by rewrite !decide_False by tauto.
Qed.

(** The entries that lead to a bucket, by its local depth. *)
Lemma share_iff d i j : dir_inv d -> 0 <= i < dir_size d -> 0 <= j < dir_size d ->
  dir_page d j = dir_page d i <-> j mod 2 ^ dir_depth d i = i mod 2 ^ dir_depth d i.
Proof. intros Hd Hi Hj. pose proof (inv_share _ Hd i j Hi Hj). split; intros Hx; symmetry; symmetry in Hx; tauto. Qed.

(** Merging a bucket with its split image: every entry of either now leads to
    the image's page, one bit shallower. *)
Lemma merge_inv d d' i :
  dir_inv d -> dir_wf d' -> 0 <= i < dir_size d -> 1 < dir_depth d i ->
  let s := split_image i (dir_depth d i) in
  dir_depth d s = dir_depth d i -> global_depth_ d' = global_depth_ d ->
  (forall j, 0 <= j < dir_size d -> dir_page d' j =
     if decide (dir_page d j = dir_page d i \/ dir_page d j = dir_page d s) then dir_page d s else dir_page d j) ->
  (forall j, 0 <= j < dir_size d -> dir_depth d' j =
     if decide (dir_page d j = dir_page d i \/ dir_page d j = dir_page d s) then dir_depth d i - 1 else dir_depth d j) ->
  dir_inv d'.
Proof.
  intros Hd Hw Hi Hdeep s Hds Hg Hpage Hdepth. pose proof (inv_global _ Hd) as Hgd.
  pose proof (inv_local _ Hd i Hi) as Hli. set (l := dir_depth d i) in *.
  assert (Hsz : dir_size d' = dir_size d) by (unfold dir_size; by rewrite Hg).
  destruct (split_image_facts i l) as (Hs & Hlow & Hne & Hcases); [lia|lia|]. fold s in Hs, Hlow, Hne, Hcases.
  assert (Hsr : 0 <= s < dir_size d).
  { split; [lia|]. apply Z.lt_le_trans with (2 ^ l); [lia|]. apply Z.pow_le_mono_r; lia. }
  assert (Hs0 : s mod 2 ^ l = s) by (apply Z.mod_small; lia).
  set (pair := fun j => dir_page d j = dir_page d i \/ dir_page d j = dir_page d s).
  assert (Hpair : forall j, 0 <= j < dir_size d -> pair j <-> j mod 2 ^ (l - 1) = i mod 2 ^ (l - 1)).
  { intros j Hj. unfold pair. rewrite (share_iff d i j Hd Hi Hj), (share_iff d s j Hd Hsr Hj). rewrite Hds. fold l.
    rewrite Hs0. split.
    - intros [Hm|Hm]; [by apply (mod_weaken _ _ _ l); [lia|]|]. rewrite <- Hlow, <- Hm. by rewrite mod_pow_le by lia.
    - intros Hm. destruct (Hcases j Hm); tauto. }
  assert (Hout : forall a b, 0 <= a < dir_size d -> 0 <= b < dir_size d -> ~ pair a -> pair b ->
    a mod 2 ^ dir_depth d a <> b mod 2 ^ dir_depth d a).
  { intros a b Ha Hb Hna Hpb Hm. apply (inv_share _ Hd a b Ha Hb) in Hm. apply Hna. unfold pair in *. by rewrite Hm. }
  split; [done|by rewrite Hg|..].
  - intros j Hj. rewrite Hsz in Hj. rewrite Hdepth, Hg by done. pose proof (inv_local _ Hd j Hj). case_decide; lia.
  - intros a b Ha Hb. rewrite Hsz in Ha, Hb. rewrite (Hdepth a Ha), (Hpage a Ha), (Hpage b Hb).
    destruct (decide _) as [Hpa|Hpa]; fold (pair a) in Hpa; destruct (decide _) as [Hpb|Hpb]; fold (pair b) in Hpb.
    + pose proof (proj1 (Hpair a Ha) Hpa) as H1. pose proof (proj1 (Hpair b Hb) Hpb) as H2. by rewrite H1, H2.
    + split.
      * intros Hx. destruct Hpb. right. done.
      * intros Hm. destruct Hpb. apply Hpair; [done|]. rewrite <- Hm. by apply Hpair.
    + split.
      * intros Hx. destruct Hpa. right. done.
      * intros Hm. by destruct (Hout a b Ha Hb Hpa Hpb).
    + by apply (inv_share _ Hd).
  - intros a b Ha Hb. rewrite Hsz in Ha, Hb. rewrite (Hdepth a Ha), (Hdepth b Hb), (Hpage a Ha), (Hpage b Hb).
    destruct (decide _) as [Hpa|Hpa]; fold (pair a) in Hpa; destruct (decide _) as [Hpb|Hpb]; fold (pair b) in Hpb.
    + done.
    + intros Hx. destruct Hpb. by right.
    + intros Hx. destruct Hpa. by right.
    + by apply (inv_same _ Hd).
Qed.

(** Halving the directory when no bucket has the full depth. *)
Lemma shrink_inv d :
  dir_inv d -> (forall i, 0 <= i < dir_size d -> dir_depth d i <> global_depth_ d) ->
  let d' := set_global (global_depth_ d - 1) d in
  dir_inv d' /\ 2 <= global_depth_ d
  /\ (forall h, dir_page d' (h mod dir_size d') = dir_page d (h mod dir_size d))
  /\ (forall h, dir_depth d' (h mod dir_size d') = dir_depth d (h mod dir_size d)).
Proof.
  intros Hd Hno d'. pose proof (inv_global _ Hd) as Hgd. set (g := global_depth_ d) in *.
  assert (Hlt : forall i, 0 <= i < dir_size d -> 1 <= dir_depth d i <= g - 1).
  { intros i Hi. pose proof (inv_local _ Hd i Hi). specialize (Hno i Hi). fold g in H. lia. }
  pose proof (dir_size_bound d Hgd) as Hb.
  assert (H2 : 2 <= g) by (specialize (Hlt 0 ltac:(lia)); lia).
  assert (Hsz : dir_size d = 2 * dir_size d').
  { unfold dir_size. fold g. simpl. replace g with ((g - 1) + 1) at 1 by lia. rewrite Z.pow_add_r by lia. lia. }
  assert (Hh : forall h, let a := h mod dir_size d' in let b := h mod dir_size d in
    0 <= a < dir_size d /\ 0 <= b < dir_size d /\ dir_depth d a = dir_depth d b /\ dir_page d a = dir_page d b).
  { intros h. cbv zeta. pose proof (Z.mod_pos_bound h (dir_size d') ltac:(lia)). pose proof (Z.mod_pos_bound h (dir_size d) ltac:(lia)).
    assert (Ha : 0 <= h mod dir_size d' < dir_size d) by lia. split; [done|]. split; [done|].
    apply dir_share_sym; [done|done|done|]. specialize (Hlt _ Ha). set (l := dir_depth d _) in *.
    change (dir_size d') with (2 ^ (g - 1)). change (dir_size d) with (2 ^ g). by rewrite !mod_pow_le by lia. }
  split; [|split; [done|split; intros h; symmetry; by destruct (Hh h) as (_ & _ & ? & ?)]].
  split.
  - destruct (inv_wf _ Hd). split; try done. unfold is_unsigned in *. simpl. fold g. fold g in wf_global0. lia.
  - simpl. fold g. lia.
  - intros i Hi. change (dir_depth d' i) with (dir_depth d i). simpl. fold g. apply Hlt. lia.
  - intros i j Hi Hj. apply (inv_share _ Hd); lia.
  - intros i j Hi Hj. apply (inv_same _ Hd); lia.
Qed.

(** A split that does not double the directory keeps the shape exactly when the
    bucket had two entries. *)
Lemma split_pair_inv d d' i P :
  dir_inv d -> dir_wf d' -> 0 <= i < dir_size d -> dir_depth d i + 1 = global_depth_ d ->
  global_depth_ d' = global_depth_ d -> (forall j, 0 <= j < dir_size d -> dir_page d j <> P) ->
  let s := split_image i (dir_depth d i + 1) in
  (forall j, 0 <= j < dir_size d -> dir_page d' j = if decide (j = s) then P else dir_page d j) ->
  (forall j, 0 <= j < dir_size d ->
     dir_depth d' j = if decide (j = s \/ j = i) then dir_depth d i + 1 else dir_depth d j) ->
  dir_inv d'.
Proof.
  intros Hd Hw Hi Hg1 Hg HP s Hpage Hdepth. pose proof (inv_global _ Hd) as Hgd.
  pose proof (inv_local _ Hd i Hi) as Hli. set (l := dir_depth d i) in *.
  assert (Hsz : dir_size d' = dir_size d) by (unfold dir_size; by rewrite Hg).
  assert (Hl1 : 2 ^ (l + 1) = dir_size d) by (unfold dir_size; by rewrite Hg1).
  destruct (split_image_facts i (l + 1)) as (Hs & Hlow & Hne & Hcases); [lia|lia|]. fold s in Hs, Hlow, Hne, Hcases.
  replace (l + 1 - 1) with l in * by lia. rewrite Hl1 in *.
  assert (Hi0 : i mod dir_size d = i) by (apply Z.mod_small; lia). rewrite Hi0 in *.
  assert (Hbk : forall j, 0 <= j < dir_size d -> dir_page d j = dir_page d i <-> j = s \/ j = i).
  { intros j Hj. rewrite (share_iff d i j Hd Hi Hj). fold l. split.
    - intros Hm. destruct (Hcases j Hm) as [Hx|Hx]; rewrite Z.mod_small in Hx by lia; auto.
    - intros [-> | ->]; done. }
  assert (Hps : dir_page d s = dir_page d i) by (apply Hbk; [done|by left]).
  split; [done|by rewrite Hg|..].
  - intros j Hj. rewrite Hsz in Hj. rewrite Hdepth, Hg by done. pose proof (inv_local _ Hd j Hj). case_decide; lia.
  - intros a b Ha Hb. rewrite Hsz in Ha, Hb. rewrite (Hdepth a Ha), (Hpage a Ha), (Hpage b Hb).
    destruct (decide (a = s \/ a = i)) as [Hab|Hab].
    + rewrite Hl1, !(Z.mod_small _ (dir_size d)) by lia.
      destruct (decide (a = s)) as [->|Has], (decide (b = s)) as [->|Hbs].
      * done.
      * split; [|by intros ->]. intros Hp. symmetry in Hp. by apply HP in Hp.
      * split; [intros Hp; by apply HP in Hp|]. by intros ->.
      * destruct Hab as [?| ->]; [done|]. split; [|by intros ->].
        intros Hp. symmetry in Hp. apply Hbk in Hp; [|done]. by destruct Hp.
    + rewrite (decide_False (P := a = s)) by tauto. destruct (decide (b = s)) as [->|Hbs].
      * split; [intros Hp; by apply HP in Hp|]. intros Hm. destruct Hab. apply Hbk; [done|].
        rewrite <- Hps. by apply (inv_share _ Hd a s Ha Hs).
      * by apply (inv_share _ Hd).
  - intros a b Ha Hb. rewrite Hsz in Ha, Hb. rewrite (Hdepth a Ha), (Hdepth b Hb), (Hpage a Ha), (Hpage b Hb).
    destruct (decide (a = s)) as [->|Has], (decide (b = s)) as [->|Hbs].
    + by rewrite !decide_True by tauto.
    + intros Hp. symmetry in Hp. by apply HP in Hp.
    + intros Hp. by apply HP in Hp.
    + intros Hp. destruct (decide (a = i)) as [->|Hai].
      * symmetry in Hp. apply Hbk in Hp as [?| ->]; done.
      * destruct (decide (b = i)) as [->|Hbi]; [apply Hbk in Hp as [?| ->]; done|].
        rewrite !decide_False by tauto. by apply (inv_same _ Hd).
Qed.

(** *** [CanShrink] *)

Lemma CanShrink_loop_ok d n i :
  dir_wf d -> 0 <= i -> i + Z.of_nat n <= DIRECTORY_ARRAY_SIZE ->
  exists r, CanShrink_loop n i d = Ok r
    /\ (r = true <-> forall j, i <= j < i + Z.of_nat n -> dir_depth d j <> global_depth_ d).
Proof.
  intros Hw. revert i. induction n as [|n IH]; intros i Hi Hb.
  { exists true. split; [done|]. split; [intros; lia|done]. }
  cbn [CanShrink_loop]. destruct (GetLocalDepth_ok d Hw i) as [-> _]; [lia|]. cbn [rbind].
  destruct (Z.eqb_spec (dir_depth d i) (global_depth_ d)) as [E|E].
  - exists false. split; [done|]. split; [done|]. intros Hall. by destruct (Hall i ltac:(lia)).
  - destruct (IH (i + 1)) as (r & -> & Hr); [lia|lia|]. exists r. split; [done|]. rewrite Hr. split.
    + intros Hall j Hj. destruct (decide (j = i)) as [->|]; [done|]. apply Hall. lia.
    + intros Hall j Hj. apply Hall. lia.
Qed.

Lemma CanShrink_ok d : dir_inv d -> exists r, Dir_CanShrink d = Ok r
  /\ (r = true <-> forall j, 0 <= j < dir_size d -> dir_depth d j <> global_depth_ d).
Proof.
  intros Hd. pose proof (dir_size_bound d (inv_global _ Hd)). unfold Dir_CanShrink.
  rewrite Size_ok by apply (inv_global _ Hd). cbn [rbind].
  destruct (CanShrink_loop_ok d (Z.to_nat (dir_size d)) 0 (inv_wf _ Hd)) as (r & -> & Hr); [lia|lia|].
  exists r. split; [done|]. rewrite Hr. by replace (0 + Z.of_nat (Z.to_nat (dir_size d))) with (dir_size d) by lia.
Qed.

(** *** [VerifyIntegrity] *)

(** The number of the entries below [n] that lead to page [p]. *)
Definition pointers d (n p : Z) : Z := Z.of_nat (length (filter (fun j => dir_page d j = p) (seqZ 0 n))).

(** What the comment above [VerifyIntegrity] asks for. *)
Record integrity d : Prop := {
  int_depth i : 0 <= i < dir_size d -> dir_depth d i <= global_depth_ d;
  int_count i : 0 <= i < dir_size d -> pointers d (dir_size d) (dir_page d i) = 2 ^ (global_depth_ d - dir_depth d i);
  int_same i j : 0 <= i < dir_size d -> 0 <= j < dir_size d ->
    dir_page d i = dir_page d j -> dir_depth d i = dir_depth d j
}.

Lemma pointers_succ d n p : 0 <= n ->
  pointers d (n + 1) p = pointers d n p + (if decide (dir_page d n = p) then 1 else 0).
Proof.
  intros Hn. unfold pointers. rewrite seqZ_app by lia. rewrite list.filter_app, length_app.
  replace (seqZ (0 + n) 1) with [n] by (rewrite seqZ_cons by lia; rewrite seqZ_nil by lia; f_equal; lia).
  rewrite filter_cons, filter_nil. case_decide; simpl; lia.
Qed.

Lemma pointers_pos d n p : 0 < pointers d n p <-> exists j, 0 <= j < n /\ dir_page d j = p.
Proof.
  unfold pointers. split.
  - intros Hlen. destruct (filter _ _) as [|j l] eqn:E; [simpl in Hlen; lia|].
    assert (Hj : j ∈ filter (fun j => dir_page d j = p) (seqZ 0 n)) by (rewrite E; set_solver).
    apply list_elem_of_filter in Hj as [Hp Hj%elem_of_seqZ]. exists j. split; [lia|done].
  - intros (j & Hj & Hp). destruct (filter _ _) as [|x l] eqn:E; [|simpl; lia].
    assert (Hin : j ∈ filter (fun j => dir_page d j = p) (seqZ 0 n)).
    { apply list_elem_of_filter. split; [done|]. apply elem_of_seqZ. lia. }
    rewrite E in Hin. set_solver.
Qed.

(** The maps of the first loop, after the entries below [n]. *)
Record verify_maps d (n : Z) (count ld : gmap Z Z) : Prop := {
  vm_count p c : count !! p = Some c <-> 0 < c /\ c = pointers d n p;
  vm_ld p l : ld !! p = Some l <-> exists j, 0 <= j < n /\ dir_page d j = p /\ dir_depth d j = l;
  vm_depth i : 0 <= i < n -> dir_depth d i <= global_depth_ d;
  vm_same i j : 0 <= i < n -> 0 <= j < n -> dir_page d i = dir_page d j -> dir_depth d i = dir_depth d j
}.

Lemma Verify_loop_ok d n i count ld :
  dir_wf d -> 0 <= i -> i + Z.of_nat n <= DIRECTORY_ARRAY_SIZE -> verify_maps d i count ld ->
  match Verify_loop n i count ld d with
  | Ok (count', ld') => verify_maps d (i + Z.of_nat n) count' ld'
  | Err _ => ~ ((forall j, 0 <= j < i + Z.of_nat n -> dir_depth d j <= global_depth_ d)
      /\ (forall j k, 0 <= j < i + Z.of_nat n -> 0 <= k < i + Z.of_nat n ->
          dir_page d j = dir_page d k -> dir_depth d j = dir_depth d k))
  end.
Proof.
  intros Hw. revert i count ld. induction n as [|n IH]; intros i count ld Hi Hb Hvm.
  { simpl. by replace (i + Z.of_nat 0) with i by lia. }
  cbn [Verify_loop]. rewrite (GetBucketPageId_ok d Hw i) by lia. cbn [rbind].
  destruct (GetLocalDepth_ok d Hw i) as [-> _]; [lia|]. cbn [rbind].
  unfold assert. destruct (Z.leb_spec (dir_depth d i) (global_depth_ d)) as [Hle|Hle]; cbn [rbind].
  2:{ intros [Hd _]. specialize (Hd i). lia. }
  set (p := dir_page d i). set (l := dir_depth d i).
  assert (Hnext : (forall j, 0 <= j < i -> dir_page d j = p -> dir_depth d j = l) ->
    verify_maps d (i + 1) (<[p := default 0 (count !! p) + 1]> count) (<[p := l]> ld)).
  { intros Hsame. pose proof Hvm as [Hc Hl Hdp Hsm]. split.
    - intros q c. rewrite lookup_insert, pointers_succ by lia. fold p. case_decide as E.
      + subst q. assert (Hcp : default 0 (count !! p) = pointers d i p).
        { destruct (count !! p) as [c'|] eqn:Ec; [by apply Hc in Ec as [_ ->]|].
          simpl. destruct (decide (0 < pointers d i p)) as [Hpos|Hpos]; [|unfold pointers in *; lia].
          rewrite (proj2 (Hc p (pointers d i p)) (conj Hpos eq_refl)) in Ec. done. }
        rewrite Hcp. split; [intros [= <-]|intros [_ ->]; done]. split; [unfold pointers; lia|done].
      + rewrite Hc. replace (pointers d i q + 0) with (pointers d i q) by lia. done.
    - intros q k. rewrite lookup_insert. case_decide as E.
      + subst q. split.
        * intros [= <-]. exists i. split_and!; [lia|lia|done|done].
        * intros (j & Hj & Hq & <-). f_equal. destruct (decide (j = i)) as [->|]; [done|]. symmetry. apply Hsame; [lia|done].
      + rewrite Hl. split; intros (j & Hj & Hq & Hk); exists j; split_and!; try done; try lia.
        destruct (decide (j = i)) as [->|]; [done|lia].
    - intros j Hj. destruct (decide (j = i)) as [->|]; [done|]. apply Hdp. lia.
    - intros a b Ha Hb'. destruct (decide (a = i)) as [->|], (decide (b = i)) as [->|]; [done|..].
      + intros Hp. symmetry. apply Hsame; [lia|done].
      + intros Hp. apply Hsame; [lia|done].
      + apply Hsm; lia. }
  replace (i + Z.of_nat (S n)) with (i + 1 + Z.of_nat n) in * by lia.
  destruct (ld !! p) as [old|] eqn:Hold.
  - apply (vm_ld _ _ _ _ Hvm) in Hold as (j & Hj & Hp & <-). destruct (Z.eqb_spec l (dir_depth d j)) as [E|E]; cbn [negb].
    + apply IH; [lia|lia|]. apply Hnext. intros k Hk Hkp. rewrite E. apply (vm_same _ _ _ _ Hvm); [done|done|congruence].
    + intros [_ Hs]. destruct E. apply (Hs i j); [lia|lia|done].
  - apply IH; [lia|lia|]. apply Hnext. intros k Hk Hkp.
    enough (ld !! p = Some (dir_depth d k)) by congruence. apply (vm_ld _ _ _ _ Hvm). by exists k.
Qed.

Lemma fold_check_ok {A} (f : A -> res unit) (l : list A) :
  foldl (fun acc e => let! _ := acc in f e) (Ok tt) l = Ok tt <-> Forall (fun e => f e = Ok tt) l.
Proof.
  assert (Herr : forall l e, foldl (fun acc e => let! _ := acc in f e) (Err e) l = Err e) by (induction l0; done).
  induction l as [|x l IH]; [done|]. cbn [foldl rbind]. rewrite Forall_cons.
  destruct (f x) as [[]|e]; [rewrite IH; tauto|]. rewrite Herr. naive_solver.
Qed.

(** [VerifyIntegrity] passes exactly on the directories its comment describes. *)
Lemma VerifyIntegrity_ok d :
  dir_wf d -> 1 <= global_depth_ d <= 9 -> Dir_VerifyIntegrity d = Ok tt <-> integrity d.
Proof.
  intros Hw Hg. pose proof (dir_size_bound d Hg) as Hsz. unfold Dir_VerifyIntegrity. rewrite Size_ok by done. cbn [rbind].
  pose proof (Verify_loop_ok d (Z.to_nat (dir_size d)) 0 ∅ ∅ Hw ltac:(lia) ltac:(lia)) as Hl.
  replace (0 + Z.of_nat (Z.to_nat (dir_size d))) with (dir_size d) in Hl by lia.
  destruct (Verify_loop _ _ _ _ _) as [[count ld]|e].
  2:{ split; [done|]. intros [Hd _ Hs]. destruct Hl; [|done]. split; try (intros; lia).
      - intros p c. rewrite lookup_empty. split; [done|]. intros [Hpos ->]. apply pointers_pos in Hpos as (j & ? & _). lia.
      - intros p l. rewrite lookup_empty. split; [done|]. intros (j & ? & _). lia. }
  assert (Hvm : verify_maps d (dir_size d) count ld).
  { apply Hl. split; try (intros; lia).
    - intros p c. rewrite lookup_empty. split; [done|]. intros [Hpos ->]. apply pointers_pos in Hpos as (j & ? & _). lia.
    - intros p l. rewrite lookup_empty. split; [done|]. intros (j & ? & _). lia. }
  clear Hl. destruct Hvm as [Hc Hld Hd Hs]. cbn [rbind]. rewrite fold_check_ok.
  assert (Hcheck : forall i, 0 <= i < dir_size d -> forall c,
    Verify_count ld (dir_page d i, c) d = Ok tt <-> c = 2 ^ (global_depth_ d - dir_depth d i)).
  { intros i Hi c. unfold Verify_count. cbn [fst snd].
    rewrite (proj2 (Hld (dir_page d i) (dir_depth d i))) by (by exists i). cbn [default].
    pose proof (Hd i Hi). assert (0 <= dir_depth d i) by (pose proof (GetLocalDepth_ok d Hw i ltac:(lia)) as [_ [? _]]; done).
    unfold shl32. change (id (dir_depth d i)) with (dir_depth d i).
    rewrite (proj2 (Z.ltb_lt (global_depth_ d - dir_depth d i) 32)) by lia. cbn [rbind]. rewrite Z.shiftl_1_l.
    pose proof (pow2_bound (global_depth_ d - dir_depth d i) ltac:(lia)).
    rewrite unsigned_id by (unfold is_unsigned; simpl; lia). unfold assert.
    destruct (Z.eqb_spec c (2 ^ (global_depth_ d - dir_depth d i))); naive_solver. }
  rewrite Forall_forall. split.
  - intros Hall. split; [done| |done]. intros i Hi. symmetry. symmetry. apply Hcheck; [done|].
    apply (Hall (dir_page d i, pointers d (dir_size d) (dir_page d i))). apply elem_of_map_to_list, Hc.
    split; [|done]. apply pointers_pos. by exists i.
  - intros [_ Hcnt _] [p c] Hin%elem_of_map_to_list%Hc. destruct Hin as [Hpos ->].
    apply pointers_pos in Hpos as (i & Hi & <-). apply Hcheck; [done|]. by apply Hcnt.
Qed.

(** As many entries share [l] low bits as the remaining bits can tell apart. *)
Lemma count_residue (g l r : Z) :
  0 <= l <= g -> 0 <= r < 2 ^ l ->
  Z.of_nat (length (filter (fun j => j mod 2 ^ l = r) (seqZ 0 (2 ^ g)))) = 2 ^ (g - l).
Proof.
  intros Hl Hr. set (m := 2 ^ l) in *. assert (Hm : 0 < m) by (apply Z.pow_pos_nonneg; lia).
  assert (Hk : 0 < 2 ^ (g - l)) by (apply Z.pow_pos_nonneg; lia).
  assert (Hg : 2 ^ g = m * 2 ^ (g - l)) by (unfold m; rewrite <- Z.pow_add_r by lia; f_equal; lia).
  assert (Hp : filter (fun j => j mod m = r) (seqZ 0 (2 ^ g)) ≡ₚ (fun q => r + m * q) <$> seqZ 0 (2 ^ (g - l))).
  { apply NoDup_Permutation.
    - apply NoDup_filter, NoDup_seqZ.
    - apply NoDup_fmap_2_strong; [intros; nia|apply NoDup_seqZ].
    - intros j. rewrite list_elem_of_filter, elem_of_seqZ, list_elem_of_fmap. split.
      + intros [Hj Hb]. exists (j / m). rewrite elem_of_seqZ. pose proof (Z.div_mod j m ltac:(lia)).
        split; [lia|]. split; [apply Z.div_pos; lia|]. apply Z.div_lt_upper_bound; lia.
      + intros (q & -> & Hq%elem_of_seqZ). rewrite (Z.mul_comm m q), Z.mod_add by lia.
        rewrite Z.mod_small by lia. split; [done|]. nia. }
  rewrite Hp, length_fmap, length_seqZ. lia.
Qed.

Lemma dir_inv_integrity d : dir_inv d -> integrity d.
Proof.
  intros Hd. pose proof (inv_global _ Hd) as Hg. split.
  - intros i Hi. apply (inv_local _ Hd i Hi).
  - intros i Hi. pose proof (inv_local _ Hd i Hi) as Hl.
    rewrite <- (count_residue (global_depth_ d) (dir_depth d i) (i mod 2 ^ dir_depth d i)); [|lia|].
    2:{ apply Z.mod_pos_bound, Z.pow_pos_nonneg; lia. }
    unfold pointers. fold (dir_size d). do 2 f_equal. apply filter_ext_in.
    intros j Hj%elem_of_seqZ. apply share_iff; [done|done|lia].
  - apply (inv_same _ Hd).
Qed.
End DirectoryLemmas.

(** ** Properties *)

(** [VerifyIntegrity] returns (no assertion fails) exactly on the
    directories its comment describes: no local depth above the global depth,
    2^(GD - LD) pointers to each bucket and one local depth per bucket.  Every
    directory with the shape of extendible hashing passes. *)
Theorem Dir_VerifyIntegrity_correct (d : HashTableDirectoryPage) :
  dir_wf d -> 1 <= global_depth_ d <= 9 ->
  (Dir_VerifyIntegrity d = Ok tt <-> integrity d) /\ (dir_inv d -> Dir_VerifyIntegrity d = Ok tt).
Proof.
  intros Hw Hg. split; [by apply VerifyIntegrity_ok|].
  intros Hd. apply VerifyIntegrity_ok; [done|done|by apply dir_inv_integrity].
Qed.

(** The directory the constructor of the hash table builds. *)
Definition Dir_initial (page_id bucket_0 bucket_1 : Z) : HashTableDirectoryPage :=
  MkDir page_id 0 1 (<[1%nat := 1]> (<[0%nat := 1]> (local_depths_ Dir_zero)))
        (<[1%nat := bucket_1]> (<[0%nat := bucket_0]> (bucket_page_ids_ Dir_zero))).

Lemma Dir_initial_inv page_id b0 b1 :
  is_signed 32 page_id -> is_signed 32 b0 -> is_signed 32 b1 -> b0 <> b1 -> dir_inv (Dir_initial page_id b0 b1).
Proof.
  intros Hp H0 H1 Hne.
  assert (Hz : forall n : nat, Forall (is_signed 32) (replicate n 0)) by (intros n; apply Forall_replicate; done).
  assert (Hzb : forall n : nat, is_bytes (replicate n 0)) by (intros n; apply Forall_replicate; done).
  assert (Hpg : dir_page (Dir_initial page_id b0 b1) 0 = b0 /\ dir_page (Dir_initial page_id b0 b1) 1 = b1) by done.
  assert (Hdp : dir_depth (Dir_initial page_id b0 b1) 0 = 1 /\ dir_depth (Dir_initial page_id b0 b1) 1 = 1) by done.
  assert (Hin : forall i, 0 <= i < dir_size (Dir_initial page_id b0 b1) -> i = 0 \/ i = 1)
    by (change (dir_size (Dir_initial page_id b0 b1)) with 2; lia).
  destruct Hpg as [P0 P1], Hdp as [D0 D1]. split.
  - split; try done.
    + apply Forall_insert; [|done]. apply Forall_insert; [apply Hzb|done].
    + apply Forall_insert; [|done]. apply Forall_insert; [apply Hz|done].
  - simpl. lia.
  - intros i [-> | ->]%Hin; simpl; lia.
  - intros i j [-> | ->]%Hin [-> | ->]%Hin; rewrite ?P0, ?P1, ?D0, ?D1; split; done.
  - intros i j [-> | ->]%Hin [-> | ->]%Hin; rewrite ?P0, ?P1, ?D0, ?D1; done.
Qed.

Lemma Dir_VerifyIntegrity_correct_witness :
  Dir_VerifyIntegrity (Dir_initial 0 1 2) = Ok tt.
Proof.
  assert (Hi : dir_inv (Dir_initial 0 1 2)) by (apply Dir_initial_inv; done).
  apply (Dir_VerifyIntegrity_correct (Dir_initial 0 1 2)); [apply (inv_wf _ Hi)|apply (inv_global _ Hi)|exact Hi].
Defined.
