(* ===== verification/ExtendibleHashTable.v ===== *)
(** The extendible hash table ([src/container/hash/extendible_hash_table.cpp]).

    The table is code over the buffer pool interface: it fetches and pins the
    directory page and bucket pages, reads and writes them in place through
    their [Page*], and unpins them with a dirty flag.  How the two page classes
    lie in a page's memory ([reinterpret_cast]) is the interface [HashPages].
    The table latch and the page latches are not modelled: an operation is a
    sequential piece of code. *)

From S2P Require Import Prelude Bytes Bitmap HashBucketPage HashDirectoryPage BufferPoolManager.

(** ** Definitions *)

(** [HashFunction<KeyType>::GetHash], a constructor argument of the table. *)
Class HashFunction (K : Type) : Type := GetHash : K -> Z.

(** Reading a page's memory as a directory or as a bucket, and writing one of
    them back. *)
Class HashPages (D K V : Type) : Type := {
  as_dir : D -> HashTableDirectoryPage;
  put_dir : HashTableDirectoryPage -> D -> D;
  as_bucket : D -> HashTableBucketPage K V;
  put_bucket : HashTableBucketPage K V -> D -> D
}.

Record ExtendibleHashTable : Type := MkHashTable {
  directory_page_id_ : Z
}.

Section HashTable.
Context `{Config} {S P D K V : Type} `{!BufferPoolManager S P D}
  `{!MappingType K V} `{!HashFunction K} `{!HashPages D K V}.
Implicit Types (t : ExtendibleHashTable) (key : K) (value : V) (d : HashTableDirectoryPage).

(** Calling a method of the page behind [f], without and with changes to it. *)
Definition on_dir {A} (f : P) (g : HashTableDirectoryPage -> res A) : M S A :=
  do! x := GetData f in lift (g (as_dir x)).
Definition upd_dir {A} (f : P) (g : HashTableDirectoryPage -> res (A * HashTableDirectoryPage)) : M S A :=
  do! x := GetData f in
  do! ' (a, d) := lift (g (as_dir x)) in
  do! _ := SetData f (put_dir d x) in sret a.
Definition on_bucket {A} (f : P) (g : HashTableBucketPage K V -> res A) : M S A :=
  do! x := GetData f in lift (g (as_bucket x)).
(** A method of the bucket that reports whether it wrote: a failed [Insert] or
    [Remove] leaves the memory of the page alone. *)
Definition try_bucket (f : P) (g : HashTableBucketPage K V -> res (bool * HashTableBucketPage K V)) : M S bool :=
  do! x := GetData f in
  do! ' (success, b) := lift (g (as_bucket x)) in
  do! _ := if success then SetData f (put_bucket b x) else sret tt in sret success.

Definition HashTable_Hash key : Z := unsigned 32 (GetHash key).

Definition KeyToDirectoryIndex key d : res Z :=
  let! m := Dir_GetGlobalDepthMask d in Ok (Z.land (HashTable_Hash key) m).

Definition KeyToPageId key d : res Z :=
  let! i := KeyToDirectoryIndex key d in Dir_GetBucketPageId i d.

Definition FetchDirectoryPage t : M S P :=
  do! r := FetchPage (directory_page_id_ t) in deref r.

Definition FetchBucketPage (bucket_page_id : Z) : M S P :=
  do! r := FetchPage bucket_page_id in deref r.

(** The constructor up to the point where it unpins its pages ... *)
Definition HashTable_init : M S (ExtendibleHashTable * Z * Z) :=
  do! r := NewPage in
  do! ' (directory_page_id, dir_page) := deref r in
  do! _ := GetData dir_page in
  do! r := NewPage in
  do! ' (bucket_0_page_id, _) := deref r in
  do! r := NewPage in
  do! ' (bucket_1_page_id, _) := deref r in
  do! _ := upd_dir dir_page (fun d =>
    let! d := Dir_SetBucketPageId 0 bucket_0_page_id d in
    let! d := Dir_SetLocalDepth 0 1 d in
    let! d := Dir_SetBucketPageId 1 bucket_1_page_id d in
    let! d := Dir_SetLocalDepth 1 1 d in
    let d := Dir_IncrGlobalDepth d in
    Ok (tt, Dir_SetPageId directory_page_id d)) in
  sret (MkHashTable directory_page_id, bucket_0_page_id, bucket_1_page_id).

(** ... and the whole constructor.  (A [nullptr] for a bucket page is never
    dereferenced by the code; its page id would be left uninitialised, which
    the model treats as the failure it leads to.) *)
Definition HashTable_new : M S ExtendibleHashTable :=
  do! ' (t, bucket_0_page_id, bucket_1_page_id) := HashTable_init in
  do! _ := UnpinPage (directory_page_id_ t) true in
  do! _ := UnpinPage bucket_0_page_id false in
  do! _ := UnpinPage bucket_1_page_id false in
  sret t.

Definition HashTable_GetValue t key (result : list V) : M S (bool * list V) :=
  do! dir_page := FetchDirectoryPage t in
  do! bucket_page_id := on_dir dir_page (KeyToPageId key) in
  do! bucket_page := FetchBucketPage bucket_page_id in
  do! r := on_bucket bucket_page (fun b => Bucket_GetValue key b result) in
  do! _ := UnpinPage bucket_page_id false in
  do! _ := UnpinPage (directory_page_id_ t) false in
  sret r.

(** *** Insertion *)

(** Moving to the split page the entries that now belong there.  A slot that is
    not readable would be visited forever. *)
Fixpoint Rehash_loop (fuel : nat) (num_read num_readable bucket_idx split_bucket_idx : Z)
    (dir_page bucket_page split_page : P) : M S unit :=
  if num_read =? num_readable then sret tt else
  match fuel with
  | O => fail OutOfFuel
  | Datatypes.S fuel =>
      do! readable := on_bucket bucket_page (Bucket_IsReadable num_read) in
      if negb readable then
        Rehash_loop fuel num_read num_readable bucket_idx split_bucket_idx dir_page bucket_page split_page
      else
      do! key := on_bucket bucket_page (Bucket_KeyAt num_read) in
      do! size := on_dir dir_page (fun d => let! l := Dir_GetLocalDepth bucket_idx d in Dir_Pow 2 l) in
      let which_bucket := Z.land (HashTable_Hash key) (unsigned 32 (size - 1)) in
      do! _ :=
        if Z.lxor which_bucket split_bucket_idx =? 0 then
          do! value := on_bucket bucket_page (Bucket_ValueAt num_read) in
          do! _ := try_bucket split_page (Bucket_Insert key value) in
          do! _ := try_bucket bucket_page (fun b => let! b := Bucket_RemoveAt num_read b in Ok (true, b)) in
          sret tt
        else sret tt in
      Rehash_loop fuel (num_read + 1) num_readable bucket_idx split_bucket_idx dir_page bucket_page split_page
  end.

(** Growing the directory if the bucket has its full depth; the result is the
    value of [is_growing] afterwards. *)
Definition Split_grow (bucket_idx : Z) (is_growing : bool) d : res (bool * HashTableDirectoryPage) :=
  let! l := Dir_GetLocalDepth bucket_idx d in
  if l =? Dir_GetGlobalDepth d then Ok (true, Dir_IncrGlobalDepth d) else Ok (is_growing, d).

Definition Split_image (bucket_idx : Z) d : res (Z * HashTableDirectoryPage) :=
  let! d := Dir_IncrLocalDepth bucket_idx d in
  let! s := Dir_GetSplitImageIndex bucket_idx d in Ok (s, d).

Definition Split_link (bucket_idx split_bucket_idx split_page_id : Z) d : res HashTableDirectoryPage :=
  let! d := Dir_SetBucketPageId split_bucket_idx split_page_id d in
  let! l := Dir_GetLocalDepth bucket_idx d in
  Dir_SetLocalDepth split_bucket_idx l d.

(** Redirecting the new half of the directory, from entry [i], [n] entries. *)
Fixpoint Redirect_loop (n : nat) (i old_size split_bucket_idx : Z) d : res HashTableDirectoryPage :=
  match n with
  | O => Ok d
  | Datatypes.S n =>
      if i =? split_bucket_idx then Redirect_loop n (i + 1) old_size split_bucket_idx d else
      let redirect_bucket_idx := Z.land i (unsigned 32 (old_size - 1)) in
      let! p := Dir_GetBucketPageId redirect_bucket_idx d in
      let! d := Dir_SetBucketPageId i p d in
      let! l := Dir_GetLocalDepth redirect_bucket_idx d in
      let! d := Dir_SetLocalDepth i l d in
      Redirect_loop n (i + 1) old_size split_bucket_idx d
  end.

Definition Split_redirect (old_global_depth split_bucket_idx : Z) d : res HashTableDirectoryPage :=
  let! old_size := Dir_Pow 2 old_global_depth in
  let! size := Dir_Size d in
  Redirect_loop (Z.to_nat (size - old_size)) old_size old_size split_bucket_idx d.

(** Splitting the bucket at entry [bucket_idx]: grow the directory if needed,
    link a new page, move the entries and redirect the new half; the result is
    [is_growing]. *)
Definition Split_bucket (dir_page bucket_page : P) (old_global_depth bucket_idx : Z) (is_growing : bool) : M S bool :=
  do! is_growing := upd_dir dir_page (Split_grow bucket_idx is_growing) in
  do! split_bucket_idx := upd_dir dir_page (Split_image bucket_idx) in
  do! r := NewPage in
  do! ' (split_page_id, split_page) := deref r in
  do! _ := upd_dir dir_page (fun d =>
    let! d := Split_link bucket_idx split_bucket_idx split_page_id d in Ok (tt, d)) in
  do! num_readable := on_bucket bucket_page Bucket_NumReadable in
  do! _ := Rehash_loop (Z.to_nat BUCKET_ARRAY_SIZE) 0 num_readable bucket_idx split_bucket_idx
             dir_page bucket_page split_page in
  do! _ := UnpinPage split_page_id true in
  do! _ := upd_dir dir_page (fun d =>
    let! d := Split_redirect old_global_depth split_bucket_idx d in Ok (tt, d)) in
  sret is_growing.

(** The loop of [SplitInsert]: the results are [success] and [is_growing]. *)
Fixpoint SplitInsert_loop (fuel : nat) (dir_page : P) key value (is_growing : bool) : M S (bool * bool) :=
  match fuel with
  | O => fail OutOfFuel
  | Datatypes.S fuel =>
      do! old_global_depth := on_dir dir_page (fun d => Ok (Dir_GetGlobalDepth d)) in
      do! bucket_idx := on_dir dir_page (KeyToDirectoryIndex key) in
      do! bucket_page_id := on_dir dir_page (KeyToPageId key) in
      do! bucket_page := FetchBucketPage bucket_page_id in
      do! full := on_bucket bucket_page Bucket_IsFull in
      if full then
        do! is_growing := Split_bucket dir_page bucket_page old_global_depth bucket_idx is_growing in
        do! _ := UnpinPage bucket_page_id true in
        SplitInsert_loop fuel dir_page key value is_growing
      else
        do! success := try_bucket bucket_page (Bucket_Insert key value) in
        do! _ := UnpinPage bucket_page_id true in
        sret (success, is_growing)
  end.

(** Each split deepens the key's bucket by one and the directory has room for
    nine levels, so that the loop ends, or leaves the directory's arrays, within
    [split_fuel] rounds. *)
Definition split_fuel : nat := 11.

Definition HashTable_SplitInsert t key value : M S bool :=
  do! dir_page := FetchDirectoryPage t in
  do! ' (success, is_growing) := SplitInsert_loop split_fuel dir_page key value false in
  do! _ := UnpinPage (directory_page_id_ t) is_growing in
  sret success.

Definition HashTable_Insert t key value : M S bool :=
  do! dir_page := FetchDirectoryPage t in
  do! bucket_page_id := on_dir dir_page (KeyToPageId key) in
  do! bucket_page := FetchBucketPage bucket_page_id in
  do! full := on_bucket bucket_page Bucket_IsFull in
  if full then
    do! _ := UnpinPage bucket_page_id false in
    do! _ := UnpinPage (directory_page_id_ t) false in
    HashTable_SplitInsert t key value
  else
    do! success := try_bucket bucket_page (Bucket_Insert key value) in
    do! _ := UnpinPage bucket_page_id success in
    do! _ := UnpinPage (directory_page_id_ t) false in
    sret success.

(** *** Removal *)

(** The inner loop of [Merge] over the entries from [j], [n] left. *)
Fixpoint MergeRedirect_loop (n : nat) (j i split_bucket_idx bucket_page_id new_bucket_page_id : Z) d
    : res HashTableDirectoryPage :=
  match n with
  | O => Ok d
  | Datatypes.S n =>
      let next := MergeRedirect_loop n (j + 1) i split_bucket_idx bucket_page_id new_bucket_page_id in
      if (j =? i) || (j =? split_bucket_idx) then next d else
      let! cur := Dir_GetBucketPageId j d in
      if (cur =? bucket_page_id) || (cur =? new_bucket_page_id) then
        let! l := Dir_GetLocalDepth i d in
        let! d := Dir_SetLocalDepth j l d in
        let! d := Dir_SetBucketPageId j new_bucket_page_id d in
        next d
      else next d
  end.

(** What [Merge] does to the directory for an empty bucket at entry [i]. *)
Definition Merge_empty (i old_local_depth bucket_page_id : Z) d : res HashTableDirectoryPage :=
  let! split_bucket_idx := Dir_GetSplitImageIndex i d in
  let! l := Dir_GetLocalDepth split_bucket_idx d in
  let! d :=
    if l =? old_local_depth then
      let! d := Dir_DecrLocalDepth i d in
      let! d := Dir_DecrLocalDepth split_bucket_idx d in
      let! p := Dir_GetBucketPageId split_bucket_idx d in
      let! d := Dir_SetBucketPageId i p d in
      let! new_bucket_page_id := Dir_GetBucketPageId i d in
      let! size := Dir_Size d in
      MergeRedirect_loop (Z.to_nat size) 0 i split_bucket_idx bucket_page_id new_bucket_page_id d
    else Ok d in
  let! shrink := Dir_CanShrink d in
  Ok (if shrink then Dir_DecrGlobalDepth d else d).

(** The outer loop; [i] stays within the 512 entries, so that [merge_fuel]
    rounds suffice. *)
Definition merge_fuel : nat := 513.

Fixpoint Merge_loop (fuel : nat) (i : Z) (dir_page : P) : M S unit :=
  match fuel with
  | O => fail OutOfFuel
  | Datatypes.S fuel =>
      do! size := on_dir dir_page Dir_Size in
      if size <=? i then sret tt else
      do! old_local_depth := on_dir dir_page (Dir_GetLocalDepth i) in
      do! bucket_page_id := on_dir dir_page (Dir_GetBucketPageId i) in
      do! bucket_page := FetchBucketPage bucket_page_id in
      do! empty := if 1 <? old_local_depth then on_bucket bucket_page Bucket_IsEmpty else sret false in
      do! _ :=
        if empty then
          upd_dir dir_page (fun d => let! d := Merge_empty i old_local_depth bucket_page_id d in Ok (tt, d))
        else sret tt in
      do! _ := UnpinPage bucket_page_id false in
      Merge_loop fuel (unsigned 32 (i + 1)) dir_page
  end.

Definition HashTable_Merge t key value : M S unit :=
  do! dir_page := FetchDirectoryPage t in
  do! _ := Merge_loop merge_fuel 0 dir_page in
  do! _ := UnpinPage (directory_page_id_ t) true in
  sret tt.

Definition HashTable_Remove t key value : M S bool :=
  do! dir_page := FetchDirectoryPage t in
  do! bucket_page_id := on_dir dir_page (KeyToPageId key) in
  do! bucket_page := FetchBucketPage bucket_page_id in
  do! success := try_bucket bucket_page (Bucket_Remove key value) in
  do! empty := if success then on_bucket bucket_page Bucket_IsEmpty else sret false in
  if empty then
    do! _ := UnpinPage bucket_page_id success in
    do! _ := UnpinPage (directory_page_id_ t) false in
    do! _ := HashTable_Merge t key value in
    sret success
  else
    do! _ := UnpinPage bucket_page_id success in
    do! _ := UnpinPage (directory_page_id_ t) false in
    sret success.

Definition HashTable_GetGlobalDepth t : M S Z :=
  do! dir_page := FetchDirectoryPage t in
  do! global_depth := on_dir dir_page (fun d => Ok (Dir_GetGlobalDepth d)) in
  do! ok := UnpinPage (directory_page_id_ t) false in
  do! _ := lift (assert ok) in
  sret global_depth.

Definition HashTable_VerifyIntegrity t : M S unit :=
  do! dir_page := FetchDirectoryPage t in
  do! _ := on_dir dir_page Dir_VerifyIntegrity in
  do! ok := UnpinPage (directory_page_id_ t) false in
  do! _ := lift (assert ok) in
  sret tt.
End HashTable.
