(* ===== verification/HashTableCorrect.v ===== *)
(** Correctness of the extendible hash table over any buffer pool that keeps
    its contract: what the pool's pages say about the table, and how each
    operation changes it. *)

From S2P Require Import Prelude Bytes Bitmap HashBucketPage HashDirectoryPage BufferPoolManager ExtendibleHashTable.

(** ** What the code relies on *)

(** Equal keys have equal hashes. *)
Class HashFunctionOk (K V : Type) `{!MappingType K V} `{!HashFunction K} : Prop :=
  hash_compat (k k' : K) : KeyComparator k k' = 0 -> (GetHash k : Z) = GetHash k'.

(** Writing a page object and reading it back, for objects whose members fit
    their types; zeroed memory is the empty directory and the empty bucket. *)
Class HashPagesOk `{Config} (D K V : Type) `{!MappingType K V} `{!HashPages D K V} (good : D -> Prop) (zero : D) : Type := {
  storable : K * V -> Prop;
  put_dir_ok d x : dir_wf d -> good x -> as_dir (put_dir d x) = d /\ good (put_dir d x);
  put_bucket_ok b x : bucket_inv b -> Forall storable (array_ b) -> good x ->
    as_bucket (put_bucket b x) = b /\ good (put_bucket b x);
  dir_zero : as_dir zero = Dir_zero;
  bucket_zero : as_bucket zero = Bucket_zero;
  storable_zero : storable zero_mapping
}.

Section Correct.
Context `{Config} {S P D K V : Type} `{!BufferPoolManager S P D} `{!BufferPoolSpec S P D}
  `{!MappingType K V} `{!MappingOk K V} `{!HashFunction K} `{!HashFunctionOk K V}
  `{!HashPages D K V} `{!HashPagesOk D K V (good_data (S := S) (P := P)) (zero_data (S := S) (P := P))}.
Implicit Types (t : ExtendibleHashTable) (key : K) (value : V) (d : HashTableDirectoryPage)
  (b : HashTableBucketPage K V) (B : Z -> HashTableBucketPage K V) (s : S) (p : Z) (f : P) (m : gmap Z Z).

(** ** The abstraction *)

(** A live page whose contents are a given directory or bucket. *)
Definition dir_at s p d : Prop :=
  live (view s) p /\ exists x, logical (view s) p = Some x /\ as_dir x = d.
Definition bucket_at s p b : Prop :=
  live (view s) p /\ exists x, logical (view s) p = Some x /\ as_bucket x = b.

Definition bucket_good b : Prop := bucket_inv b /\ Forall storable (array_ b).

(** The buckets, given by their page ids, behind a directory: every entry is in
    the bucket its hash leads to, and no value is stored twice under a key. *)
Record hash_inv d B : Prop := {
  hi_dir : dir_inv d;
  hi_good i : 0 <= i < dir_size d -> bucket_good (B (dir_page d i));
  hi_hash i e : 0 <= i < dir_size d -> e ∈ entries (B (dir_page d i)) ->
    HashTable_Hash e.1 mod 2 ^ dir_depth d i = i mod 2 ^ dir_depth d i;
  hi_uniq i key : 0 <= i < dir_size d -> NoDup (values_at key (entries (B (dir_page d i))))
}.

(** The entry of the directory a key leads to, and the values stored under it. *)
Definition key_index key d : Z := HashTable_Hash key mod dir_size d.
Definition key_page key d : Z := dir_page d (key_index key d).
Definition table_values d B key : list V := values_at key (entries (B (key_page key d))).

Record table_rep t s d B : Prop := {
  tr_ok : pool_ok s;
  tr_hash : hash_inv d B;
  tr_dir : dir_at s (directory_page_id_ t) d;
  tr_bucket i : 0 <= i < dir_size d -> bucket_at s (dir_page d i) (B (dir_page d i));
  tr_sep i : 0 <= i < dir_size d -> dir_page d i <> directory_page_id_ t
}.

Definition unpinned t d m : Prop :=
  m !! directory_page_id_ t = None /\ forall i, 0 <= i < dir_size d -> m !! dir_page d i = None.

(** The table at rest: no operation holds a pin on its pages. *)
Definition table_inv t s d B : Prop := table_rep t s d B /\ unpinned t d (pins (view s)).

(** ** The pool's methods, for one page at a time *)

Lemma dir_at_keeps s s' o p d : evolves o (view s) (view s') -> o <> Some p -> dir_at s p d -> dir_at s' p d.
Proof.
  intros Hk Ho (Hl & x & Hx & Hd). split; [by apply (ev_live _ _ _ Hk)|].
  exists x. split; [by apply (ev_logical _ _ _ Hk)|done].
Qed.

Lemma bucket_at_keeps s s' o p b : evolves o (view s) (view s') -> o <> Some p -> bucket_at s p b -> bucket_at s' p b.
Proof.
  intros Hk Ho (Hl & x & Hx & Hd). split; [by apply (ev_live _ _ _ Hk)|].
  exists x. split; [by apply (ev_logical _ _ _ Hk)|done].
Qed.

Lemma wp_on_dir {A C} s f p d (g : HashTableDirectoryPage -> res A) a (k : A -> M S C) (Q : C -> S -> Prop) :
  pool_ok s -> holds (view s) f p -> is_Some (pins (view s) !! p) -> dir_at s p d -> g d = Ok a ->
  wp (k a) Q s -> wp (sbind (on_dir f g) k) Q s.
Proof.
  intros Hs Hf Hp (_ & x & Hx & Hd) Hg HQ. unfold wp, sbind, on_dir, sbind, lift.
  rewrite (GetData_spec s f p x Hs Hf Hp Hx). rewrite Hd, Hg. exact HQ.
Qed.

Lemma wp_on_bucket {A C} s f p b (g : HashTableBucketPage K V -> res A) a (k : A -> M S C) (Q : C -> S -> Prop) :
  pool_ok s -> holds (view s) f p -> is_Some (pins (view s) !! p) -> bucket_at s p b -> g b = Ok a ->
  wp (k a) Q s -> wp (sbind (on_bucket f g) k) Q s.
Proof.
  intros Hs Hf Hp (_ & x & Hx & Hd) Hg HQ. unfold wp, sbind, on_bucket, sbind, lift.
  rewrite (GetData_spec s f p x Hs Hf Hp Hx). rewrite Hd, Hg. exact HQ.
Qed.

Lemma wp_upd_dir {A C} s f p d (g : HashTableDirectoryPage -> res (A * HashTableDirectoryPage)) a d'
    (k : A -> M S C) (Q : C -> S -> Prop) :
  pool_ok s -> holds (view s) f p -> is_Some (pins (view s) !! p) -> dir_at s p d -> g d = Ok (a, d') -> dir_wf d' ->
  (forall s', pool_ok s' -> dir_at s' p d' -> keeps (Some p) (view s) (view s') -> pins (view s') = pins (view s) ->
     (forall n, budget (view s) n -> budget (view s') n) -> wp (k a) Q s') ->
  wp (sbind (upd_dir f g) k) Q s.
Proof.
  intros Hs Hf Hp (Hl & x & Hx & Hd) Hg Hw HQ.
  destruct (put_dir_ok d' x Hw (logical_good s p x Hs Hl Hx)) as [Hpd Hgood].
  pose proof (SetData_spec s f p (put_dir d' x) Hs Hf Hp Hgood) as Hset.
  unfold wp, sbind, upd_dir, sbind, lift in *. rewrite (GetData_spec s f p x Hs Hf Hp Hx).
  rewrite Hd, Hg. cbn [rbind]. destruct (SetData f (put_dir d' x) s) as [[u s']|]; [|done].
  destruct Hset as (Hs' & Hl' & Hk & Hpins & Hb). apply HQ; try done.
  split; [by apply (keeps_live _ _ _ Hk)|]. by exists (put_dir d' x).
Qed.

Lemma wp_try_bucket {C} s f p b (g : HashTableBucketPage K V -> res (bool * HashTableBucketPage K V)) b'
    (k : bool -> M S C) (Q : C -> S -> Prop) :
  pool_ok s -> holds (view s) f p -> is_Some (pins (view s) !! p) -> bucket_at s p b -> g b = Ok (true, b') -> bucket_good b' ->
  (forall s', pool_ok s' -> bucket_at s' p b' -> keeps (Some p) (view s) (view s') -> pins (view s') = pins (view s) ->
     (forall n, budget (view s) n -> budget (view s') n) -> wp (k true) Q s') ->
  wp (sbind (try_bucket f g) k) Q s.
Proof.
  intros Hs Hf Hp (Hl & x & Hx & Hd) Hg [Hw Hst] HQ.
  destruct (put_bucket_ok b' x Hw Hst (logical_good s p x Hs Hl Hx)) as [Hpd Hgood].
  pose proof (SetData_spec s f p (put_bucket b' x) Hs Hf Hp Hgood) as Hset.
  unfold wp, sbind, try_bucket, sbind, lift in *. rewrite (GetData_spec s f p x Hs Hf Hp Hx).
  rewrite Hd, Hg. cbn [rbind]. destruct (SetData f (put_bucket b' x) s) as [[u s']|]; [|done].
  destruct Hset as (Hs' & Hl' & Hk & Hpins & Hb). apply HQ; try done.
  split; [by apply (keeps_live _ _ _ Hk)|]. by exists (put_bucket b' x).
Qed.

Lemma wp_try_bucket_fail {C} s f p b (g : HashTableBucketPage K V -> res (bool * HashTableBucketPage K V)) b'
    (k : bool -> M S C) (Q : C -> S -> Prop) :
  pool_ok s -> holds (view s) f p -> is_Some (pins (view s) !! p) -> bucket_at s p b -> g b = Ok (false, b') ->
  wp (k false) Q s -> wp (sbind (try_bucket f g) k) Q s.
Proof.
  intros Hs Hf Hp (Hl & x & Hx & Hd) Hg HQ.
  unfold wp, sbind, try_bucket, sbind, lift in *. rewrite (GetData_spec s f p x Hs Hf Hp Hx). by rewrite Hd, Hg.
Qed.

(** ** Steps that keep the table *)

Lemma rep_keeps t s s' d B : table_rep t s d B -> pool_ok s' -> evolves None (view s) (view s') -> table_rep t s' d B.
Proof.
  intros [Ho Hh Hd Hb Hs] Hs' Hk. split; [done|done|by eapply dir_at_keeps| |done].
  intros i Hi. eapply bucket_at_keeps; [exact Hk|done|by apply Hb].
Qed.

Lemma index_range d key : dir_inv d -> 0 <= key_index key d < dir_size d.
Proof. intros Hd. apply (size_mod d). apply (inv_global _ Hd). Qed.

Lemma KeyToDirectoryIndex_ok d key : dir_inv d -> KeyToDirectoryIndex key d = Ok (key_index key d).
Proof.
  intros Hd. unfold KeyToDirectoryIndex. rewrite GlobalMask_ok by apply (inv_global _ Hd). cbn [rbind].
  unfold dir_size. rewrite land_mask by (pose proof (inv_global _ Hd); lia). done.
Qed.

Lemma dir_index d i : dir_inv d -> 0 <= i < dir_size d -> 0 <= i < DIRECTORY_ARRAY_SIZE.
Proof. intros Hd Hi. pose proof (dir_size_bound d (inv_global _ Hd)). lia. Qed.

Lemma KeyToPageId_ok d key : dir_inv d -> KeyToPageId key d = Ok (key_page key d).
Proof.
  intros Hd. unfold KeyToPageId. rewrite KeyToDirectoryIndex_ok by done. cbn [rbind].
  apply GetBucketPageId_ok; [apply (inv_wf _ Hd)|]. apply (dir_index d); [done|by apply index_range].
Qed.

(** The buckets with one of them replaced. *)
Definition set_bucket p b B : Z -> HashTableBucketPage K V := fun q => if decide (q = p) then b else B q.

Lemma set_bucket_eq p b B : set_bucket p b B p = b.
Proof. unfold set_bucket. by rewrite decide_True. Qed.

Lemma set_bucket_ne p q b B : q <> p -> set_bucket p b B q = B q.
Proof. intros. unfold set_bucket. by rewrite decide_False. Qed.

Lemma hash_inv_set d B i b :
  hash_inv d B -> 0 <= i < dir_size d -> bucket_good b ->
  (forall e, e ∈ entries b -> HashTable_Hash e.1 mod 2 ^ dir_depth d i = i mod 2 ^ dir_depth d i) ->
  (forall key, NoDup (values_at key (entries b))) ->
  hash_inv d (set_bucket (dir_page d i) b B).
Proof.
  intros [Hd Hg Hh Hu] Hi Hb He Hn. split; [done|..].
  - intros j Hj. unfold set_bucket. case_decide; [done|by apply Hg].
  - intros j e Hj. unfold set_bucket. case_decide as E; [|by apply Hh].
    intros Hin. rewrite (inv_same _ Hd j i Hj Hi E). rewrite (He e Hin).
    symmetry. exact (proj1 (share_iff d i j Hd Hi Hj) E).
  - intros j key Hj. unfold set_bucket. case_decide; [by apply Hn|by apply Hu].
Qed.

Lemma rep_set_bucket t s s' d B i b :
  table_rep t s d B -> 0 <= i < dir_size d -> pool_ok s' -> evolves (Some (dir_page d i)) (view s) (view s') ->
  bucket_at s' (dir_page d i) b -> hash_inv d (set_bucket (dir_page d i) b B) ->
  table_rep t s' d (set_bucket (dir_page d i) b B).
Proof.
  intros [Ho Hh Hd Hb Hs] Hi Hs' Hk Hat Hinv. split; [done|done| |..|done].
  - eapply dir_at_keeps; [exact Hk| |done]. intros [= E]. by apply (Hs i).
  - intros j Hj. unfold set_bucket. case_decide as E; [by rewrite E|].
    eapply bucket_at_keeps; [exact Hk| |by apply Hb]. intros [= ?]. congruence.
Qed.

Lemma unpin_both m p q : m !! p = None -> m !! q = None -> p <> q ->
  delete q (delete p (<[p := 1]> (<[q := 1]> m))) = m :> gmap Z Z.
Proof.
  intros Hp Hq Hne. rewrite delete_insert_id; [by rewrite delete_insert_id|].
  by rewrite lookup_insert_ne.
Qed.

Lemma rep_page_live t s d B i : table_rep t s d B -> 0 <= i < dir_size d ->
  live (view s) (dir_page d i) /\ exists x, logical (view s) (dir_page d i) = Some x.
Proof. intros Hr Hi. destruct (tr_bucket _ _ _ _ Hr i Hi) as (Hl & x & Hx & _). split; [done|by exists x]. Qed.

Lemma rep_dir_live t s d B : table_rep t s d B ->
  live (view s) (directory_page_id_ t) /\ exists x, logical (view s) (directory_page_id_ t) = Some x.
Proof. intros Hr. destruct (tr_dir _ _ _ _ Hr) as (Hl & x & Hx & _). split; [done|by exists x]. Qed.

(** The common opening of the operations: the directory page and the key's
    bucket page are fetched. *)
Record opened t s0 s d B key (fd fb : P) : Prop := {
  op_rep : table_rep t s d B;
  op_keeps : evolves None (view s0) (view s);
  op_dir : holds (view s) fd (directory_page_id_ t);
  op_bucket : holds (view s) fb (key_page key d);
  op_pins : pins (view s) = <[key_page key d := 1]> (<[directory_page_id_ t := 1]> (pins (view s0)));
  op_synced_dir : synced (view s) (directory_page_id_ t);
  op_synced_bucket : synced (view s) (key_page key d);
  op_budget n : budget (view s0) n -> budget (view s) n
}.

Lemma wp_open {C} t s d B key (k : P -> Z -> P -> M S C) (Q : C -> S -> Prop) :
  table_inv t s d B -> room 2 s ->
  (forall fd fb s', opened t s s' d B key fd fb -> wp (k fd (key_page key d) fb) Q s') ->
  wp (do! fd := FetchDirectoryPage t in
      do! bucket_page_id := on_dir fd (KeyToPageId key) in
      do! fb := FetchBucketPage bucket_page_id in k fd bucket_page_id fb) Q s.
Proof.
  intros [Hr [Hud Hub]] Hroom HQ. destruct (rep_dir_live _ _ _ _ Hr) as [Hl Hx].
  pose proof (hi_dir _ _ (tr_hash _ _ _ _ Hr)) as Hd. pose proof (index_range d key Hd) as Hi.
  pose proof (tr_ok _ _ _ _ Hr) as Hs. pose proof (tr_sep _ _ _ _ Hr _ Hi) as Hsep.
  unfold room in Hroom. apply (wp_fetch s (directory_page_id_ t)); [done|done|done|done|unfold room; lia|].
  intros fd s1 Hs1 Hfd Hk1 Hp1 Hy1 Hb1.
  pose proof (rep_keeps _ _ _ _ _ Hr Hs1 (keeps_evolves _ _ _ Hk1)) as Hr1.
  eapply wp_on_dir; [done|exact Hfd|by rewrite Hp1, lookup_insert_eq; eexists|apply (tr_dir _ _ _ _ Hr1)|
    by apply KeyToPageId_ok|].
  destruct (rep_page_live _ _ _ _ _ Hr1 Hi) as [Hl1 Hx1].
  apply (wp_fetch s1 (key_page key d)); [done|done|done| | |].
  { rewrite Hp1, lookup_insert_ne by (symmetry; exact Hsep). by apply Hub. }
  { unfold room. rewrite Hp1, map_size_insert_None, (keeps_frames _ _ _ Hk1) by done. lia. }
  intros fb s2 Hs2 Hfb Hk2 Hp2 Hy2 Hb2. apply HQ. split.
  - eapply rep_keeps; [exact Hr1|done|by apply keeps_evolves].
  - eapply evolves_trans; by apply keeps_evolves.
  - apply (keeps_holds _ _ _ Hk2); [|exact Hfd]. rewrite Hp1, lookup_insert_eq. by eexists.
  - exact Hfb.
  - by rewrite Hp2, Hp1.
  - by apply (keeps_synced _ _ _ Hk2).
  - exact Hy2.
  - intros n Hn. by apply Hb2, Hb1.
Qed.

(** The common closing: the bucket page and the directory page are unpinned. *)
Lemma wp_close {C} s m p q dp dq (k : M S C) (Q : C -> S -> Prop) :
  pool_ok s -> pins (view s) = <[p := 1]> (<[q := 1]> m) -> m !! p = None -> m !! q = None -> p <> q ->
  dp = true \/ synced (view s) p -> dq = true \/ synced (view s) q ->
  (forall s', pool_ok s' -> evolves None (view s) (view s') -> pins (view s') = m ->
     (forall n, budget (view s) n -> budget (view s') n) -> wp k Q s') ->
  wp (do! _ := UnpinPage p dp in do! _ := UnpinPage q dq in k) Q s.
Proof.
  intros Hs Hp Hmp Hmq Hne Hdp Hdq HQ.
  apply (wp_unpin s p); [done|by rewrite Hp, lookup_insert_eq|done|].
  intros s1 Hs1 Hk1 Hp1 Hb1.
  apply (wp_unpin s1 q); [done| | |].
  - by rewrite Hp1, Hp, lookup_delete_ne, lookup_insert_ne, lookup_insert_eq by done.
  - destruct Hdq as [?|Hdq]; [by left|right]. by apply (keeps_synced _ _ _ Hk1).
  - intros s2 Hs2 Hk2 Hp2 Hb2. apply HQ; [done| | |by intros; apply Hb2, Hb1].
    + eapply evolves_trans; by apply keeps_evolves.
    + by rewrite Hp2, Hp1, Hp, unpin_both.
Qed.

Lemma inv_unpinned_key t s d B key : table_inv t s d B ->
  pins (view s) !! directory_page_id_ t = None /\ pins (view s) !! key_page key d = None
  /\ key_page key d <> directory_page_id_ t /\ 0 <= key_index key d < dir_size d.
Proof.
  intros [Hr [H1 H2]]. pose proof (index_range d key (hi_dir _ _ (tr_hash _ _ _ _ Hr))) as Hi.
  split_and!; [done|by apply H2|by apply (tr_sep _ _ _ _ Hr)|lia|lia].
Qed.

(** ** The operations *)

Lemma GetValue_wp t s d B key result :
  table_inv t s d B -> room 2 s ->
  wp (HashTable_GetValue t key result) (fun r s' =>
    r = (negb (Nat.eqb (length (result ++ table_values d B key)) 0), result ++ table_values d B key)
    /\ table_inv t s' d B /\ evolves None (view s) (view s') /\ pins (view s') = pins (view s)
    /\ (forall n, budget (view s) n -> budget (view s') n)) s.
Proof.
  intros Hinv Hroom. destruct (inv_unpinned_key _ _ _ _ key Hinv) as (Hmd & Hmb & Hsep & Hi).
  unfold HashTable_GetValue. eapply wp_open; [exact Hinv|done|]. intros fd fb s1 [Hr1 Hk1 Hd1 Hf1 Hp1 Hyd1 Hyb1 Hb1].
  pose proof (tr_ok _ _ _ _ Hr1) as Hs1. pose proof (tr_hash _ _ _ _ Hr1) as Hh.
  eapply wp_on_bucket; [done|exact Hf1|by rewrite Hp1, lookup_insert_eq; eexists|by apply (tr_bucket _ _ _ _ Hr1)| |].
  { apply GetValue_ok. by apply (hi_good _ _ Hh). }
  apply (wp_close s1 (pins (view s))); [done|done|done|done|done|by right|by right|].
  intros s2 Hs2 Hk2 Hp2 Hb2. apply wp_ret. split_and!; [done| | |done|by intros; apply Hb2, Hb1].
  - destruct Hinv as [_ Hu]. split; [by eapply rep_keeps|]. by rewrite Hp2.
  - by eapply evolves_trans.
Qed.

(** *** What one bucket's insertion does to the table *)

Lemma values_at_perm key (l1 l2 : list (K * V)) : l1 ≡ₚ l2 -> values_at key l1 ≡ₚ values_at key l2.
Proof. intros Hp. unfold values_at. by rewrite Hp. Qed.

Lemma key_match_equiv k k' (e : K * V) : KeyComparator k k' = 0 -> key_match k e = key_match k' e.
Proof.
  intros Hk. unfold key_match. apply eq_true_iff_eq. rewrite !Z.eqb_eq. split; intros He.
  - eapply cmp_trans; [by apply cmp_sym|done].
  - by eapply cmp_trans.
Qed.

Lemma values_at_equiv k k' (l : list (K * V)) : KeyComparator k k' = 0 -> values_at k l = values_at k' l.
Proof.
  intros Hk. unfold values_at. f_equal. apply filter_ext_in. intros e _. by rewrite (key_match_equiv k k').
Qed.

Lemma key_page_equiv k k' d : KeyComparator k k' = 0 -> key_page k d = key_page k' d.
Proof.
  intros Hk. unfold key_page, key_index, HashTable_Hash. by rewrite (hash_compat (V := V) k k' Hk).
Qed.

(** The values added for one inserted pair. *)
Definition added key value k' : list V := if KeyComparator k' key =? 0 then [value] else [].

Lemma bucket_insert_cases b key value :
  bucket_good b -> storable (key, value) -> length (entries b) <> bucket_size ->
  (value ∈ values_at key (entries b) /\ Bucket_Insert key value b = Ok (false, b))
  \/ (value ∉ values_at key (entries b) /\ exists b', Bucket_Insert key value b = Ok (true, b') /\ bucket_good b'
       /\ entries b' ≡ₚ (key, value) :: entries b).
Proof.
  intros [Hb Hst] Hkv Hfull. pose proof (Insert_ok b key value Hb) as Hi. rewrite decide_False in Hi by done.
  destruct Hi as [Hdup Hnew].
  destruct (existsb (fun v => ValueType_eqb v value) (values_at key (entries b))) eqn:E.
  - left. apply existsb_value in E. split; [done|by apply Hdup].
  - right. assert (Hv : value ∉ values_at key (entries b)) by (intros Hin%existsb_value; congruence).
    split; [done|]. destruct (Hnew Hv) as (k & b' & Hrun & Hb' & Hk & Hs & Ha). exists b'. split_and!; [done| |].
    + split; [done|]. rewrite Ha. by apply Forall_insert.
    + unfold entries. rewrite Hs. by apply entries_of_set.
Qed.

Lemma insert_hash_inv d B b' key value :
  hash_inv d B -> bucket_good b' -> value ∉ table_values d B key ->
  entries b' ≡ₚ (key, value) :: entries (B (key_page key d)) ->
  hash_inv d (set_bucket (key_page key d) b' B)
  /\ forall k', table_values d (set_bucket (key_page key d) b' B) k' ≡ₚ added key value k' ++ table_values d B k'.
Proof.
  intros Hh Hb Hv Hp. pose proof (index_range d key (hi_dir _ _ Hh)) as Hi.
  assert (Hvals : forall k', values_at k' (entries b') ≡ₚ added key value k' ++ values_at k' (entries (B (key_page key d)))).
  { intros k'. rewrite (values_at_perm k' _ _ Hp), values_at_cons. done. }
  split.
  - apply hash_inv_set; [done|done|done| |].
    + intros e He. rewrite Hp in He. apply elem_of_cons in He as [->|He]; [|by apply (hi_hash _ _ Hh)].
      simpl. unfold key_index, dir_size. symmetry. pose proof (inv_local _ (hi_dir _ _ Hh) _ Hi).
      apply mod_pow_le. unfold key_index, dir_size in *. lia.
    + intros k'. rewrite (Hvals k'). unfold added. destruct (KeyComparator k' key =? 0) eqn:E; [|by apply (hi_uniq _ _ Hh)].
      apply Z.eqb_eq in E. simpl. apply NoDup_cons. split; [|by apply (hi_uniq _ _ Hh)].
      rewrite (values_at_equiv _ _ _ E). exact Hv.
  - intros k'. unfold table_values. destruct (decide (key_page k' d = key_page key d)) as [Hpg|Hpg].
    + rewrite Hpg, set_bucket_eq. apply Hvals.
    + rewrite set_bucket_ne by done. unfold added. destruct (KeyComparator k' key =? 0) eqn:E; [|done].
      apply Z.eqb_eq in E. destruct Hpg. by apply key_page_equiv.
Qed.

(** The pages of the table are among [X]. *)
Definition inside t d (X : gset Z) : Prop :=
  directory_page_id_ t ∈ X /\ forall i, 0 <= i < dir_size d -> dir_page d i ∈ X.

(** A step that changes only pages the table is allowed. *)
Definition stays t d s s' : Prop :=
  (forall X, inside t d X -> evolves_in X (view s) (view s')) /\ (forall n, budget (view s) n -> budget (view s') n).

Lemma stays_none t d s s' : evolves None (view s) (view s') -> (forall n, budget (view s) n -> budget (view s') n) -> stays t d s s'.
Proof. intros Hk Hb. split; [|done]. intros X _. by apply evolves_in_none. Qed.

Lemma stays_dir t d s s' : evolves (Some (directory_page_id_ t)) (view s) (view s') -> (forall n, budget (view s) n -> budget (view s') n) ->
  stays t d s s'.
Proof. intros Hk Hb. split; [|done]. intros X [HX _]. eapply evolves_evolves_in; [|exact Hk]. by intros q [= <-]. Qed.

Lemma stays_page t d i s s' : 0 <= i < dir_size d -> evolves (Some (dir_page d i)) (view s) (view s') ->
  (forall n, budget (view s) n -> budget (view s') n) -> stays t d s s'.
Proof. intros Hi Hk Hb. split; [|done]. intros X [_ HX]. eapply evolves_evolves_in; [|exact Hk]. intros q [= <-]. by apply HX. Qed.

Lemma stays_trans t d s1 s2 s3 : stays t d s1 s2 -> stays t d s2 s3 -> stays t d s1 s3.
Proof.
  intros [H1 B1] [H2 B2]. split; [|by intros n Hn; apply B2, B1]. intros X HX. eapply evolves_in_trans; [by apply H1|by apply H2].
Qed.

(** The table after [Insert]: unchanged if the value was there, with the one
    pair added otherwise. *)
Definition insert_result t d B s key value (r : bool) s' : Prop :=
  exists d' B', table_inv t s' d' B' /\ (r = true <-> value ∉ table_values d B key)
    /\ (forall k', table_values d' B' k' ≡ₚ (if r then added key value k' else []) ++ table_values d B k')
    /\ pins (view s') = pins (view s) /\ frames (view s') = frames (view s).

(** [Insert] into a bucket with a free slot; no page but the table's changes. *)
Lemma Insert_not_full_in t s d B key value :
  table_inv t s d B -> room 2 s -> storable (key, value) ->
  length (entries (B (key_page key d))) <> bucket_size ->
  wp (HashTable_Insert t key value) (fun r s' => exists B', table_inv t s' d B' /\ (r = true <-> value ∉ table_values d B key)
    /\ (forall k', table_values d B' k' ≡ₚ (if r then added key value k' else []) ++ table_values d B k')
    /\ pins (view s') = pins (view s) /\ stays t d s s') s.
Proof.
  intros Hinv Hroom Hkv Hfull. destruct (inv_unpinned_key _ _ _ _ key Hinv) as (Hmd & Hmb & Hsep & Hi).
  unfold HashTable_Insert. eapply wp_open; [exact Hinv|done|]. intros fd fb s1 [Hr1 Hk1 Hd1 Hf1 Hp1 Hyd1 Hyb1 Hb1].
  pose proof (tr_ok _ _ _ _ Hr1) as Hs1. pose proof (tr_hash _ _ _ _ Hr1) as Hh.
  assert (Hpin : is_Some (pins (view s1) !! key_page key d)) by (rewrite Hp1, lookup_insert_eq; by eexists).
  eapply wp_on_bucket; [done|exact Hf1|done|by apply (tr_bucket _ _ _ _ Hr1)| |].
  { apply IsFull_ok. by apply (hi_good _ _ Hh). }
  rewrite bool_decide_eq_false_2 by done.
  destruct (bucket_insert_cases _ key value (hi_good _ _ Hh _ Hi) Hkv Hfull) as [[Hv Hrun]|[Hv (b' & Hrun & Hb' & Hperm)]].
  - eapply wp_try_bucket_fail; [done|exact Hf1|done|by apply (tr_bucket _ _ _ _ Hr1)|exact Hrun|].
    apply (wp_close s1 (pins (view s))); [done|done|done|done|done|by right|by right|].
    intros s2 Hs2 Hk2 Hp2 Hb2. apply wp_ret. exists B. split_and!; [| |done|done|].
    + destruct Hinv as [_ Hu]. split; [by eapply rep_keeps|]. by rewrite Hp2.
    + split; [done|]. intros Hn. by destruct Hn.
    + apply stays_none; [by eapply evolves_trans|]. intros n Hn. by apply Hb2, Hb1.
  - destruct (insert_hash_inv d B b' key value Hh Hb' Hv Hperm) as [Hh' Hvals].
    eapply wp_try_bucket; [done|exact Hf1|done|by apply (tr_bucket _ _ _ _ Hr1)|exact Hrun|done|].
    intros s2 Hs2 Hat2 Hk2 Hp2 Hb2.
    pose proof (rep_set_bucket t s1 s2 d B _ b' Hr1 Hi Hs2 (keeps_evolves _ _ _ Hk2) Hat2 Hh') as Hr2.
    apply (wp_close s2 (pins (view s))); [done|by rewrite Hp2|done|done|done|by left| |].
    { right. apply (keeps_synced _ _ _ Hk2); [|done]. intros [= E]. by destruct Hsep. }
    intros s3 Hs3 Hk3 Hp3 Hb3. apply wp_ret. exists (set_bucket (key_page key d) b' B). split_and!; [|done|done|done|].
    + destruct Hinv as [_ Hu]. split; [by eapply rep_keeps|]. by rewrite Hp3.
    + eapply stays_trans; [by apply (stays_none t d s s1)|]. eapply stays_trans; [|by apply stays_none].
      by eapply stays_page, Hb2; [exact Hi|apply keeps_evolves].
Qed.

Lemma stays_frames t s d B s' : table_inv t s d B -> stays t d s s' -> frames (view s') = frames (view s).
Proof.
  intros _ [Hst _]. apply (ei_frames (list_to_set (directory_page_id_ t :: map (dir_page d) (seqZ 0 (dir_size d))))).
  apply Hst. split; [set_solver|]. intros i Hi. apply elem_of_list_to_set. right. apply list_elem_of_fmap.
  exists i. split; [done|]. apply elem_of_seqZ. lia.
Qed.

Lemma Insert_not_full_wp t s d B key value :
  table_inv t s d B -> room 2 s -> storable (key, value) ->
  length (entries (B (key_page key d))) <> bucket_size ->
  wp (HashTable_Insert t key value) (insert_result t d B s key value) s.
Proof.
  intros Hinv Hroom Hkv Hfull. eapply wp_mono; [by apply Insert_not_full_in|].
  intros r s' (B' & H1 & H2 & H3 & H4 & H5). exists d, B'. split_and!; try done. by eapply stays_frames.
Qed.

(** *** Merging empty buckets *)

Lemma MergeRedirect_loop_ok n j i sp bp np d :
  dir_wf d -> 0 <= j -> j + Z.of_nat n <= DIRECTORY_ARRAY_SIZE -> 0 <= i < DIRECTORY_ARRAY_SIZE -> is_signed 32 np ->
  let hit k := j <= k < j + Z.of_nat n /\ k <> i /\ k <> sp /\ (dir_page d k = bp \/ dir_page d k = np) in
  exists d', MergeRedirect_loop n j i sp bp np d = Ok d' /\ dir_wf d' /\ global_depth_ d' = global_depth_ d
    /\ dir_page_id_ d' = dir_page_id_ d
    /\ (forall k, 0 <= k -> (hit k -> dir_page d' k = np) /\ (~ hit k -> dir_page d' k = dir_page d k))
    /\ (forall k, 0 <= k -> (hit k -> dir_depth d' k = dir_depth d i) /\ (~ hit k -> dir_depth d' k = dir_depth d k)).
Proof.
  intros Hw Hj Hn Hi Hnp. revert j d Hw Hj Hn. induction n as [|n IH]; intros j d Hw Hj Hn.
  { simpl. exists d. split_and!; try done; intros k Hk; (split; [intros [? _]; lia|done]). }
  cbn [MergeRedirect_loop].
  assert (Hskip : (j = i \/ j = sp \/ ~ (dir_page d j = bp \/ dir_page d j = np)) -> exists d',
     MergeRedirect_loop n (j + 1) i sp bp np d = Ok d' /\ dir_wf d' /\ global_depth_ d' = global_depth_ d
    /\ dir_page_id_ d' = dir_page_id_ d
    /\ (forall k, 0 <= k -> let hit := j <= k < j + Z.of_nat (Datatypes.S n) /\ k <> i /\ k <> sp /\ (dir_page d k = bp \/ dir_page d k = np) in
         (hit -> dir_page d' k = np) /\ (~ hit -> dir_page d' k = dir_page d k))
    /\ (forall k, 0 <= k -> let hit := j <= k < j + Z.of_nat (Datatypes.S n) /\ k <> i /\ k <> sp /\ (dir_page d k = bp \/ dir_page d k = np) in
         (hit -> dir_depth d' k = dir_depth d i) /\ (~ hit -> dir_depth d' k = dir_depth d k))).
  { intros Hno. destruct (IH (j + 1) d Hw) as (d' & Hrun & Hw' & Hg & Hpid & Hp & Hl); [lia|lia|].
    exists d'. split_and!; try done; intros k Hk; [destruct (Hp k Hk) as [P1 P2]|destruct (Hl k Hk) as [P1 P2]];
      (split; [intros (Hr & H1 & H2 & H3); apply P1; split_and!; [|lia|done..]; destruct (decide (k = j)); [subst; naive_solver|lia]
              |intros Hx; apply P2; intros (? & ? & ? & ?); apply Hx; split_and!; [lia|lia|done..]]). }
  destruct (Z.eqb_spec j i) as [Eji|Eji]; cbn [orb]; [apply Hskip; by left|].
  destruct (Z.eqb_spec j sp) as [Ejs|Ejs]; cbn [orb]; [apply Hskip; by right; left|].
  rewrite (GetBucketPageId_ok d Hw j) by lia. cbn [rbind].
  destruct ((dir_page d j =? bp) || (dir_page d j =? np)) eqn:E.
  2:{ apply Hskip. right; right. apply orb_false_iff in E as [E1%Z.eqb_neq E2%Z.eqb_neq]. tauto. }
  assert (Hhit : dir_page d j = bp \/ dir_page d j = np) by (apply orb_true_iff in E as [E%Z.eqb_eq|E%Z.eqb_eq]; tauto).
  destruct (GetLocalDepth_ok d Hw i Hi) as [-> Hbyte]. cbn [rbind].
  destruct (SetLocalDepth_ok d Hw j ltac:(lia) _ Hbyte) as (d1 & -> & Hw1 & Hg1 & Hid1 & Hp1 & Hl1). cbn [rbind].
  destruct (SetBucketPageId_ok d1 Hw1 j ltac:(lia) np Hnp) as (d2 & -> & Hw2 & Hg2 & Hid2 & Hp2 & Hl2). cbn [rbind].
  destruct (IH (j + 1) d2 Hw2) as (d' & -> & Hw' & Hg' & Hid' & Hp' & Hl'); [lia|lia|].
  assert (Hpk : forall k, 0 <= k -> dir_page d2 k = if decide (k = j) then np else dir_page d k)
    by (intros k Hk; rewrite Hp2 by done; case_decide; [done|apply Hp1]).
  assert (Hlk : forall k, 0 <= k -> dir_depth d2 k = if decide (k = j) then dir_depth d i else dir_depth d k)
    by (intros k Hk; rewrite Hl2; by apply Hl1).
  assert (Hli : dir_depth d2 i = dir_depth d i) by (rewrite Hlk by lia; by rewrite decide_False by congruence).
  exists d'. split_and!; [done|done|congruence|congruence|..]; intros k Hk.
  - destruct (Hp' k Hk) as [P1 P2]. rewrite Hpk in P1, P2 by done. destruct (decide (k = j)) as [->|Hkj].
    + split; [intros _; apply P2; intros (? & _); lia|]. intros Hx. destruct Hx. split_and!; [lia|lia|done..].
    + split; [intros (? & ? & ? & ?); apply P1; split_and!; [lia|lia|done..]|].
      intros Hx. apply P2. intros (? & ? & ? & ?). apply Hx. split_and!; [lia|lia|done..].
  - destruct (Hl' k Hk) as [P1 P2]. rewrite Hpk in P1, P2 by done. rewrite Hlk in P2 by done. rewrite Hli in P1.
    destruct (decide (k = j)) as [->|Hkj].
    + split; [intros _; apply P2; intros (? & _); lia|]. intros Hx. destruct Hx. split_and!; [lia|lia|done..].
    + split; [intros (? & ? & ? & ?); apply P1; split_and!; [lia|lia|done..]|].
      intros Hx. apply P2. intros (? & ? & ? & ?). apply Hx. split_and!; [lia|lia|done..].
Qed.

Lemma split_image_range d i : dir_inv d -> 0 <= i < dir_size d -> 0 <= split_image i (dir_depth d i) < dir_size d.
Proof.
  intros Hd Hi. pose proof (inv_local _ Hd i Hi). pose proof (inv_global _ Hd).
  destruct (split_image_facts i (dir_depth d i)) as [Hs _]; [lia|lia|]. split; [lia|].
  apply Z.lt_le_trans with (2 ^ dir_depth d i); [lia|]. apply Z.pow_le_mono_r; lia.
Qed.

Definition merged d i d' : Prop :=
  let s := split_image i (dir_depth d i) in
  (forall j, 0 <= j < dir_size d -> dir_page d' j =
     if decide (dir_page d j = dir_page d i \/ dir_page d j = dir_page d s) then dir_page d s else dir_page d j)
  /\ (forall j, 0 <= j < dir_size d -> dir_depth d' j =
     if decide (dir_page d j = dir_page d i \/ dir_page d j = dir_page d s) then dir_depth d i - 1 else dir_depth d j).

Lemma Merge_link_ok d i :
  dir_inv d -> 0 <= i < dir_size d -> 1 < dir_depth d i ->
  let s := split_image i (dir_depth d i) in
  dir_depth d s = dir_depth d i ->
  exists d', (let! d1 := Dir_DecrLocalDepth i d in
      let! d2 := Dir_DecrLocalDepth s d1 in
      let! p := Dir_GetBucketPageId s d2 in
      let! d3 := Dir_SetBucketPageId i p d2 in
      let! new_bucket_page_id := Dir_GetBucketPageId i d3 in
      let! size := Dir_Size d3 in
      MergeRedirect_loop (Z.to_nat size) 0 i s (dir_page d i) new_bucket_page_id d3) = Ok d'
    /\ dir_wf d' /\ global_depth_ d' = global_depth_ d /\ merged d i d'.
Proof.
  intros Hd Hi Hdeep s Hds. pose proof (inv_wf _ Hd) as Hw. pose proof (inv_global _ Hd) as Hg.
  pose proof (split_image_range d i Hd Hi) as Hsr. fold s in Hsr.
  pose proof (dir_index d i Hd Hi) as Hi5. pose proof (dir_index d s Hd Hsr) as Hs5.
  destruct (split_image_facts i (dir_depth d i)) as (Hsb & _ & Hne & _); [lia|lia|]. fold s in Hne, Hsb.
  assert (Hsi : s <> i).
  { intros E. apply Hne. transitivity (s mod 2 ^ dir_depth d i); [|by rewrite E]. symmetry. by apply Z.mod_small. }
  pose proof (inv_local _ Hd i Hi) as Hli.
  assert (Hb : is_byte (dir_depth d i - 1)) by (unfold is_byte; lia).
  unfold Dir_DecrLocalDepth. destruct (GetLocalDepth_ok d Hw i Hi5) as [-> _]. cbn [rbind].
  destruct (SetLocalDepth_ok d Hw i Hi5 _ Hb) as (d1 & -> & Hw1 & Hg1 & Hid1 & Hp1 & Hl1). cbn [rbind].
  destruct (GetLocalDepth_ok d1 Hw1 s Hs5) as [-> _]. cbn [rbind].
  rewrite (Hl1 s) by lia. rewrite decide_False by done. rewrite Hds.
  destruct (SetLocalDepth_ok d1 Hw1 s Hs5 _ Hb) as (d2 & -> & Hw2 & Hg2 & Hid2 & Hp2 & Hl2). cbn [rbind].
  rewrite (GetBucketPageId_ok d2 Hw2 s Hs5). cbn [rbind].
  assert (Hps : dir_page d2 s = dir_page d s) by (by rewrite Hp2, Hp1). rewrite Hps.
  assert (Hint : is_signed 32 (dir_page d s)).
  { unfold dir_page. destruct (bucket_page_ids_ d !! Z.to_nat s) as [x|] eqn:E; [|done].
    exact (Forall_lookup_1 _ _ _ _ (wf_page_ints _ Hw) E). }
  destruct (SetBucketPageId_ok d2 Hw2 i Hi5 _ Hint) as (d3 & -> & Hw3 & Hg3 & Hid3 & Hp3 & Hl3). cbn [rbind].
  rewrite (GetBucketPageId_ok d3 Hw3 i Hi5). cbn [rbind].
  assert (Hg' : global_depth_ d3 = global_depth_ d) by congruence.
  rewrite Size_ok by (rewrite Hg'; done). cbn [rbind].
  assert (Hsz : dir_size d3 = dir_size d) by (unfold dir_size; by rewrite Hg'). rewrite Hsz.
  assert (Hp3i : dir_page d3 i = dir_page d s) by (rewrite Hp3 by lia; by rewrite decide_True).
  pose proof (dir_size_bound d Hg) as Hszb. rewrite Hp3i.
  destruct (MergeRedirect_loop_ok (Z.to_nat (dir_size d)) 0 i s (dir_page d i) (dir_page d s) d3 Hw3)
    as (d' & -> & Hw' & Hg4 & _ & Hp' & Hl'); [lia|lia|done|done|].
  replace (0 + Z.of_nat (Z.to_nat (dir_size d))) with (dir_size d) in * by lia.
  assert (Hpj : forall j, 0 <= j -> j <> i -> dir_page d3 j = dir_page d j).
  { intros j Hj Hji. rewrite Hp3 by done. rewrite decide_False by done. by rewrite Hp2, Hp1. }
  assert (Hlj : forall j, 0 <= j -> dir_depth d3 j = if decide (j = s \/ j = i) then dir_depth d i - 1 else dir_depth d j).
  { intros j Hj. rewrite Hl3, Hl2 by done. case_decide as E1; [by rewrite decide_True by tauto|].
    rewrite Hl1 by done. case_decide as E2; [by rewrite decide_True by tauto|]. by rewrite decide_False by tauto. }
  exists d'. split_and!; [done|done|congruence|]. split; fold s; intros j Hj.
  - destruct (Hp' j) as [P1 P2]; [lia|].
    destruct (decide (j = i)) as [->|Hji]; [rewrite P2 by tauto; by rewrite decide_True by tauto|].
    destruct (decide (j = s)) as [->|Hjs]; [rewrite P2 by tauto; rewrite Hpj by (done || lia); by case_decide|].
    rewrite Hpj in P1, P2 by (done || lia). case_decide; [apply P1; tauto|apply P2; tauto].
  - destruct (Hl' j) as [P1 P2]; [lia|]. rewrite Hlj in P1, P2 by lia. rewrite (decide_True (P := i = s \/ i = i)) in P1 by tauto.
    destruct (decide (j = i)) as [->|Hji]; [rewrite P2 by tauto; by rewrite !decide_True by tauto|].
    destruct (decide (j = s)) as [->|Hjs]; [rewrite P2 by tauto; by rewrite !decide_True by tauto|].
    rewrite Hpj in P1, P2 by (done || lia). rewrite (decide_False (P := j = s \/ j = i)) in P2 by tauto.
    case_decide; [apply P1; tauto|apply P2; tauto].
Qed.

Lemma values_at_nil key (l : list (K * V)) : (forall e, e ∈ l -> KeyComparator key e.1 <> 0) -> values_at key l = [].
Proof.
  intros Hn. unfold values_at. rewrite filter_none; [done|]. intros e He Hm. apply (Hn e He).
  unfold key_match in Hm. by apply Z.eqb_eq in Hm.
Qed.

(** Merging an empty bucket keeps every value where its key leads. *)
Lemma merged_hash_inv d d' B i :
  hash_inv d B -> dir_wf d' -> 0 <= i < dir_size d -> 1 < dir_depth d i ->
  dir_depth d (split_image i (dir_depth d i)) = dir_depth d i ->
  entries (B (dir_page d i)) = [] -> global_depth_ d' = global_depth_ d -> merged d i d' ->
  hash_inv d' B /\ (forall k, table_values d' B k = table_values d B k).
Proof.
  intros Hh Hw Hi Hdeep Hds Hempty Hg [Hpg Hdp]. pose proof (hi_dir _ _ Hh) as Hd.
  pose proof (merge_inv d d' i Hd Hw Hi Hdeep Hds Hg Hpg Hdp) as Hd'.
  set (s := split_image i (dir_depth d i)) in *. set (l := dir_depth d i) in *.
  pose proof (split_image_range d i Hd Hi) as Hsr. fold l s in Hsr.
  pose proof (inv_local _ Hd i Hi) as Hli. fold l in Hli.
  destruct (split_image_facts i l) as (Hs & Hlow & Hne & _); [lia|lia|]. fold s in Hs, Hlow, Hne.
  assert (Hsz : dir_size d' = dir_size d) by (unfold dir_size; by rewrite Hg).
  assert (Hpair : forall j, 0 <= j < dir_size d -> dir_page d j = dir_page d i \/ dir_page d j = dir_page d s ->
    j mod 2 ^ (l - 1) = s mod 2 ^ (l - 1)).
  { intros j Hj [E|E].
    - rewrite Hlow. apply (mod_weaken _ _ _ l); [lia|]. by apply (share_iff d i j Hd Hi Hj).
    - apply (mod_weaken _ _ _ l); [lia|]. rewrite <- Hds. by apply (share_iff d s j Hd Hsr Hj). }
  split.
  - split; [done|..].
    + intros j Hj. rewrite Hsz in Hj. rewrite Hpg by done. case_decide; by apply (hi_good _ _ Hh).
    + intros j e Hj. rewrite Hsz in Hj. rewrite Hpg, Hdp by done. case_decide as Hpr; [|by apply (hi_hash _ _ Hh)].
      intros He. rewrite (Hpair j Hj Hpr). apply (mod_weaken _ _ _ l); [lia|].
      rewrite <- Hds. by apply (hi_hash _ _ Hh).
    + intros j k Hj. rewrite Hsz in Hj. rewrite Hpg by done. case_decide; by apply (hi_uniq _ _ Hh).
  - intros k. unfold table_values, key_page, key_index. rewrite Hsz. fold (key_index k d).
    pose proof (index_range d k Hd) as Hk. rewrite Hpg by done. case_decide as Hpr; [|done].
    destruct Hpr as [E|E]; [|by rewrite E]. rewrite E, Hempty. apply values_at_nil.
    intros e He Hm. pose proof (hi_hash _ _ Hh s e Hsr He) as Hx. rewrite Hds in Hx. fold l in Hx.
    apply (share_iff d i _ Hd Hi Hk) in E. fold l in E. unfold key_index, dir_size in E.
    rewrite mod_pow_le in E by lia. apply Hne. rewrite <- E.
    unfold HashTable_Hash in Hx |- *. rewrite (hash_compat (V := V) k e.1 Hm), Hx. symmetry. by apply Z.mod_small.
Qed.

Lemma shrink_hash_inv d B :
  hash_inv d B -> (forall i, 0 <= i < dir_size d -> dir_depth d i <> global_depth_ d) ->
  let d' := Dir_DecrGlobalDepth d in
  hash_inv d' B /\ (forall k, table_values d' B k = table_values d B k)
  /\ dir_size d' <= dir_size d /\ (forall i, dir_page d' i = dir_page d i).
Proof.
  intros Hh Hno. pose proof (hi_dir _ _ Hh) as Hd.
  destruct (shrink_inv d Hd Hno) as (Hd' & Hg2 & Hpg & _). pose proof (inv_global _ Hd) as Hg.
  unfold Dir_DecrGlobalDepth. rewrite unsigned_id by (unfold is_unsigned; simpl; lia).
  set (d' := set_global (global_depth_ d - 1) d) in *. cbv zeta.
  assert (Hsz : dir_size d' <= dir_size d) by (unfold dir_size; apply Z.pow_le_mono_r; simpl; lia).
  split_and!; [|..|done|done].
  - split; [done|..]; intros j; intros; [apply (hi_good _ _ Hh)|apply (hi_hash _ _ Hh)|apply (hi_uniq _ _ Hh)]; try done; lia.
  - intros k. unfold table_values, key_page, key_index. by rewrite Hpg.
Qed.

(** The whole step for an empty bucket. *)
Lemma Merge_empty_ok d B i :
  hash_inv d B -> 0 <= i < dir_size d -> 1 < dir_depth d i -> entries (B (dir_page d i)) = [] ->
  exists d', Merge_empty i (dir_depth d i) (dir_page d i) d = Ok d' /\ hash_inv d' B
    /\ (forall k, table_values d' B k = table_values d B k)
    /\ (forall j, 0 <= j < dir_size d' -> exists j0, 0 <= j0 < dir_size d /\ dir_page d' j = dir_page d j0).
Proof.
  intros Hh Hi Hdeep Hempty. pose proof (hi_dir _ _ Hh) as Hd. pose proof (inv_wf _ Hd) as Hw.
  pose proof (inv_global _ Hd) as Hg. pose proof (inv_local _ Hd i Hi) as Hli.
  unfold Merge_empty. rewrite (SplitImage_ok d Hw i) by (by apply (dir_index d) || lia). cbn [rbind].
  set (s := split_image i (dir_depth d i)).
  pose proof (split_image_range d i Hd Hi) as Hsr. fold s in Hsr.
  destruct (GetLocalDepth_ok d Hw s) as [-> _]; [by apply (dir_index d)|]. cbn [rbind].
  assert (Hmid : exists d1, (if dir_depth d s =? dir_depth d i then
      let! d1 := Dir_DecrLocalDepth i d in
      let! d2 := Dir_DecrLocalDepth s d1 in
      let! p := Dir_GetBucketPageId s d2 in
      let! d3 := Dir_SetBucketPageId i p d2 in
      let! new_bucket_page_id := Dir_GetBucketPageId i d3 in
      let! size := Dir_Size d3 in
      MergeRedirect_loop (Z.to_nat size) 0 i s (dir_page d i) new_bucket_page_id d3
    else Ok d) = Ok d1 /\ hash_inv d1 B /\ (forall k, table_values d1 B k = table_values d B k)
    /\ dir_size d1 = dir_size d
    /\ (forall j, 0 <= j < dir_size d -> exists j0, 0 <= j0 < dir_size d /\ dir_page d1 j = dir_page d j0)).
  { destruct (Z.eqb_spec (dir_depth d s) (dir_depth d i)) as [Hds|Hds].
    - destruct (Merge_link_ok d i Hd Hi Hdeep Hds) as (d1 & Hrun & Hw1 & Hg1 & Hm). exists d1.
      destruct (merged_hash_inv d d1 B i Hh Hw1 Hi Hdeep Hds Hempty Hg1 Hm) as [Hh1 Hv1].
      split_and!; [exact Hrun|done|done|unfold dir_size; by rewrite Hg1|].
      intros j Hj. destruct Hm as [Hpg _]. rewrite Hpg by done. fold s. case_decide; eauto.
    - exists d. split_and!; eauto. }
  destruct Hmid as (d1 & Hrun & Hh1 & Hv1 & Hsz1 & Hpg1). rewrite Hrun. cbn [rbind].
  destruct (CanShrink_ok d1 (hi_dir _ _ Hh1)) as (r & -> & Hr). cbn [rbind]. destruct r.
  - destruct (shrink_hash_inv d1 B Hh1 (proj1 Hr eq_refl)) as (Hh2 & Hv2 & Hsz2 & Hpg2).
    eexists. split; [done|]. split_and!; [done|by intros; rewrite Hv2|].
    intros j Hj. rewrite Hpg2. apply Hpg1. lia.
  - exists d1. split_and!; [done|done|done|]. intros j Hj. apply Hpg1. lia.
Qed.

(** A directory that leads to some of the same pages. *)
Definition sub_dir d' d : Prop := forall j, 0 <= j < dir_size d' -> exists j0, 0 <= j0 < dir_size d /\ dir_page d' j = dir_page d j0.

Lemma sub_dir_refl d : sub_dir d d.
Proof. intros j Hj. by exists j. Qed.

Lemma sub_dir_trans d1 d2 d3 : sub_dir d1 d2 -> sub_dir d2 d3 -> sub_dir d1 d3.
Proof. intros H1 H2 j Hj. destruct (H1 j Hj) as (j0 & Hj0 & ->). by apply H2. Qed.

Lemma inside_sub t d d' X : sub_dir d' d -> inside t d X -> inside t d' X.
Proof. intros Hsub [H1 H2]. split; [done|]. intros i Hi. destruct (Hsub i Hi) as (j & Hj & ->). by apply H2. Qed.

Lemma stays_sub t d d' s s' : sub_dir d' d -> stays t d' s s' -> stays t d s s'.
Proof. intros Hsub [H1 H2]. split; [|done]. intros X HX. apply H1. by eapply inside_sub. Qed.

(** Replacing the directory by such a one. *)
Lemma rep_set_dir t s s' d d' B :
  table_rep t s d B -> pool_ok s' -> evolves (Some (directory_page_id_ t)) (view s) (view s') ->
  dir_at s' (directory_page_id_ t) d' -> hash_inv d' B ->
  sub_dir d' d -> table_rep t s' d' B.
Proof.
  intros [Ho Hh Hd Hb Hs] Hs' Hk Hat Hinv Hsub. split; [done|done|done|..].
  - intros j Hj. destruct (Hsub j Hj) as (j0 & Hj0 & ->).
    eapply bucket_at_keeps; [exact Hk| |by apply Hb]. intros [= E]. by apply (Hs j0).
  - intros j Hj. destruct (Hsub j Hj) as (j0 & Hj0 & ->). by apply Hs.
Qed.

Lemma unpinned_sub t d d' m : unpinned t d m -> sub_dir d' d -> unpinned t d' m.
Proof. intros [H1 H2] Hsub. split; [done|]. intros j Hj. destruct (Hsub j Hj) as (j0 & Hj0 & ->). by apply H2. Qed.

Lemma Merge_loop_wp t fd m fuel i s d B (Q : unit -> S -> Prop) :
  table_rep t s d B -> holds (view s) fd (directory_page_id_ t) ->
  pins (view s) = <[directory_page_id_ t := 1]> m -> unpinned t d m -> (size m + 2 <= frames (view s))%nat ->
  0 <= i <= 512 -> i + Z.of_nat fuel = 513 ->
  (forall s' d', table_rep t s' d' B -> pins (view s') = pins (view s) ->
     unpinned t d' m -> (forall k, table_values d' B k = table_values d B k) -> stays t d s s' -> sub_dir d' d -> Q tt s') ->
  wp (Merge_loop fuel i fd) Q s.
Proof.
  set (dp := directory_page_id_ t).
  revert i s d. induction fuel as [|fuel IH]; intros i s d Hr Hfd Hpins Hun Hroom Hi Hfuel HQ; [lia|].
  pose proof (tr_hash _ _ _ _ Hr) as Hh. pose proof (hi_dir _ _ Hh) as Hd. pose proof (tr_ok _ _ _ _ Hr) as Hs.
  assert (Hpd : is_Some (pins (view s) !! dp)) by (rewrite Hpins, lookup_insert_eq; by eexists).
  cbn [Merge_loop]. eapply wp_on_dir; [done|exact Hfd|done|apply (tr_dir _ _ _ _ Hr)|apply Size_ok, (inv_global _ Hd)|].
  destruct (Z.leb_spec (dir_size d) i) as [Hle|Hlt]; [apply wp_ret; apply (HQ s d); [done|done|done|done|apply stays_none; [apply evolves_refl|done]|apply sub_dir_refl]|].
  assert (Hir : 0 <= i < dir_size d) by lia. pose proof (dir_index d i Hd Hir) as Hi5.
  eapply wp_on_dir; [done|exact Hfd|done|apply (tr_dir _ _ _ _ Hr)|apply (GetLocalDepth_ok d (inv_wf _ Hd) i Hi5)|].
  eapply wp_on_dir; [done|exact Hfd|done|apply (tr_dir _ _ _ _ Hr)|apply (GetBucketPageId_ok d (inv_wf _ Hd) i Hi5)|].
  destruct (rep_page_live _ _ _ _ _ Hr Hir) as [Hl Hx].
  pose proof (tr_sep _ _ _ _ Hr i Hir) as Hsep. fold dp in Hsep.
  assert (Hmi : m !! dir_page d i = None) by by apply Hun.
  apply (wp_fetch s (dir_page d i)); [done|done|done| | |].
  { by rewrite Hpins, lookup_insert_ne by congruence. }
  { unfold room. rewrite Hpins, map_size_insert_None by apply Hun. lia. }
  intros fb s1 Hs1 Hfb Hk1 Hp1 Hy1 Hb1.
  pose proof (rep_keeps _ _ _ _ _ Hr Hs1 (keeps_evolves _ _ _ Hk1)) as Hr1.
  assert (Hpd1 : is_Some (pins (view s1) !! dp)) by (by rewrite Hp1, lookup_insert_ne).
  assert (Hfd1 : holds (view s1) fd dp) by (by apply (keeps_holds _ _ _ Hk1)).
  (* the rest of the round, from the directory the merging step left *)
  assert (Hrest : forall s2 d2, table_rep t s2 d2 B -> holds (view s2) fd dp -> pins (view s2) = pins (view s1) ->
    frames (view s2) = frames (view s) -> synced (view s2) (dir_page d i) ->
    unpinned t d2 m -> (forall k, table_values d2 B k = table_values d B k) -> stays t d s s2 -> sub_dir d2 d ->
    wp (do! _ := UnpinPage (dir_page d i) false in Merge_loop fuel (unsigned 32 (i + 1)) fd) Q s2).
  { intros s2 d2 Hr2 Hfd2 Hp2 Hf2 Hy2 Hun2 Hv2 Hst2 Hsub2. pose proof (tr_ok _ _ _ _ Hr2) as Hs2.
    apply (wp_unpin s2 (dir_page d i)); [done|by rewrite Hp2, Hp1, lookup_insert_eq|by right|].
    intros s3 Hs3 Hk3 Hp3 Hb3.
    assert (Hp3' : pins (view s3) = <[dp := 1]> m).
    { rewrite Hp3, Hp2, Hp1, Hpins. apply delete_insert_id. by rewrite lookup_insert_ne. }
    pose proof (dir_size_bound d (inv_global _ Hd)) as Hsz. unfold DIRECTORY_ARRAY_SIZE in Hsz.
    rewrite unsigned_id by (unfold is_unsigned; simpl; lia).
    apply (IH (i + 1) s3 d2); [| |done|done| |lia|lia|].
    - eapply rep_keeps; [exact Hr2|done|by apply keeps_evolves].
    - apply (keeps_holds _ _ _ Hk3); [|done]. rewrite Hp2. done.
    - rewrite (keeps_frames _ _ _ Hk3), Hf2. done.
    - intros s4 d4 Hr4 Hp4 Hun4 Hv4 Hst4 Hsub4.
      apply (HQ s4 d4); [done|by rewrite Hp4, Hp3', Hpins|done|by intros; rewrite Hv4, Hv2| |by eapply sub_dir_trans].
      eapply stays_trans; [exact Hst2|]. eapply stays_trans; [by apply stays_none; [apply keeps_evolves|]|]. by eapply stays_sub. }
  assert (Hst1 : stays t d s s1) by (by apply stays_none; [apply keeps_evolves|]).
  assert (Hempty : forall Q', (forall e : bool, (e = true -> 1 < dir_depth d i /\ entries (B (dir_page d i)) = []) -> Q' e s1) ->
    wp (if 1 <? dir_depth d i then on_bucket fb Bucket_IsEmpty else sret false) Q' s1).
  { intros Q' HQ'. destruct (Z.ltb_spec 1 (dir_depth d i)) as [Hdeep|]; [|by apply wp_ret, HQ'].
    destruct (tr_bucket _ _ _ _ Hr1 i Hir) as (_ & x & Hxl & Hxb). unfold wp, on_bucket, sbind, lift.
    rewrite (GetData_spec s1 fb (dir_page d i) x Hs1 Hfb) by (done || by rewrite Hp1, lookup_insert_eq; eexists).
    rewrite Hxb, IsEmpty_ok by (by apply (hi_good _ _ Hh)). cbn [rbind]. apply HQ'. intros He. split; [done|].
    by destruct (entries (B (dir_page d i))). }
  apply wp_bind. apply Hempty. intros e He. destruct e.
  - destruct (He eq_refl) as [Hdeep Hent].
    destruct (Merge_empty_ok d B i Hh Hir Hdeep Hent) as (d2 & Hrun & Hh2 & Hv2 & Hsub).
    eapply wp_upd_dir; [done|exact Hfd1|done|apply (tr_dir _ _ _ _ Hr1)|by rewrite Hrun|apply (inv_wf _ (hi_dir _ _ Hh2))|].
    intros s2 Hs2 Hat2 Hk2 Hp2 Hb2. apply (Hrest s2 d2).
    + by eapply rep_set_dir; [exact Hr1|done|by apply keeps_evolves|..].
    + apply (keeps_holds _ _ _ Hk2); done.
    + done.
    + by rewrite (keeps_frames _ _ _ Hk2), (keeps_frames _ _ _ Hk1).
    + apply (keeps_synced _ _ _ Hk2); [|done]. intros [= E]. by destruct Hsep.
    + by eapply unpinned_sub.
    + done.
    + eapply stays_trans; [exact Hst1|]. by apply stays_dir; [apply keeps_evolves|].
    + exact Hsub.
  - apply wp_bind, wp_ret. apply (Hrest s1 d); [done|done|done|by rewrite (keeps_frames _ _ _ Hk1)|done|done|done|done|apply sub_dir_refl].
Qed.

Lemma Merge_wp t s d B key value :
  table_inv t s d B -> room 2 s ->
  wp (HashTable_Merge t key value) (fun _ s' => exists d', table_inv t s' d' B
    /\ (forall k, table_values d' B k = table_values d B k) /\ pins (view s') = pins (view s)
    /\ stays t d s s' /\ sub_dir d' d) s.
Proof.
  intros [Hr Hun] Hroom. destruct (rep_dir_live _ _ _ _ Hr) as [Hl Hx]. pose proof (tr_ok _ _ _ _ Hr) as Hs.
  pose proof (proj1 Hun) as Hmd. unfold room in Hroom. unfold HashTable_Merge.
  apply (wp_fetch s (directory_page_id_ t)); [done|done|done|done|unfold room; lia|].
  intros fd s1 Hs1 Hfd Hk1 Hp1 Hy1 Hb1.
  pose proof (rep_keeps _ _ _ _ _ Hr Hs1 (keeps_evolves _ _ _ Hk1)) as Hr1.
  apply wp_bind. apply (Merge_loop_wp t fd (pins (view s)) merge_fuel 0 s1 d B); [done|done|done|done| |lia|done|].
  { rewrite (keeps_frames _ _ _ Hk1). lia. }
  intros s2 d2 Hr2 Hp2 Hun2 Hv2 Hst2 Hsub2.
  apply (wp_unpin s2 (directory_page_id_ t)); [apply (tr_ok _ _ _ _ Hr2)|by rewrite Hp2, Hp1, lookup_insert_eq|by left|].
  intros s3 Hs3 Hk3 Hp3 Hb3. apply wp_ret. exists d2.
  assert (Hp3' : pins (view s3) = pins (view s)) by (rewrite Hp3, Hp2, Hp1; by apply delete_insert_id).
  split_and!; [|done|done| |done]; [split; [eapply rep_keeps; [exact Hr2|done|by apply keeps_evolves]|by rewrite Hp3']|].
  eapply stays_trans; [by apply stays_none; [apply keeps_evolves|]|]. eapply stays_trans; [exact Hst2|].
  by apply stays_none; [apply keeps_evolves|].
Qed.

(** *** Removal *)

Lemma bucket_remove_cases b key value :
  bucket_good b ->
  (value ∉ values_at key (entries b) /\ Bucket_Remove key value b = Ok (false, b))
  \/ (value ∈ values_at key (entries b) /\ exists b' e, Bucket_Remove key value b = Ok (true, b') /\ bucket_good b'
       /\ entry_match key value e = true /\ entries b ≡ₚ e :: entries b').
Proof.
  intros [Hb Hst]. pose proof (Remove_ok b key value Hb) as Hr.
  destruct (list_find _ (slots b)) as [[k o]|] eqn:Hf.
  - right. apply list_find_Some in Hf as (Hk & Ho & _). destruct o as [e|]; [|done]. simpl in Ho.
    destruct Hr as (b' & Hrun & Hb' & Hs & Ha). split.
    + unfold values_at. apply list_elem_of_fmap. exists e. unfold entry_match in Ho.
      apply andb_true_iff in Ho as [Hm Hv%eqb_spec]. split; [done|]. apply list_elem_of_filter. split; [done|].
      apply elem_of_entries, list_elem_of_lookup. by exists k.
    + exists b', e. split_and!; [done|split; [done|by rewrite Ha]|done|].
      unfold entries. rewrite Hs. by apply entries_of_clear.
  - left. split; [|done]. apply list_find_None in Hf. unfold values_at. intros (e & -> & He)%list_elem_of_fmap.
    apply list_elem_of_filter in He as [Hm He%elem_of_entries]. rewrite Forall_forall in Hf.
    apply (Hf _ He). simpl. unfold entry_match. rewrite Hm. by apply eqb_spec.
Qed.

Lemma remove_hash_inv d B b' key value e :
  hash_inv d B -> bucket_good b' -> entry_match key value e = true ->
  entries (B (key_page key d)) ≡ₚ e :: entries b' ->
  hash_inv d (set_bucket (key_page key d) b' B)
  /\ forall k', table_values d B k' ≡ₚ added key value k' ++ table_values d (set_bucket (key_page key d) b' B) k'.
Proof.
  intros Hh Hb Hm Hp. pose proof (index_range d key (hi_dir _ _ Hh)) as Hi.
  apply andb_true_iff in Hm as [Hke%Z.eqb_eq Hv%eqb_spec].
  assert (Hvals : forall k', values_at k' (entries (B (key_page key d))) ≡ₚ added key value k' ++ values_at k' (entries b')).
  { intros k'. rewrite (values_at_perm k' _ _ Hp), values_at_cons, Hv. unfold added, key_match.
    destruct (Z.eqb_spec (KeyComparator k' e.1) 0) as [E|E], (Z.eqb_spec (KeyComparator k' key) 0) as [E'|E']; try done.
    - destruct E'. eapply cmp_trans; [done|by apply cmp_sym].
    - destruct E. by eapply cmp_trans. }
  split.
  - apply hash_inv_set; [done|done|done| |].
    + intros x Hx. apply (hi_hash _ _ Hh); [done|]. fold (key_page key d). rewrite Hp. set_solver.
    + intros k'. pose proof (hi_uniq _ _ Hh _ k' Hi) as Hn. fold (key_page key d) in Hn. rewrite (Hvals k') in Hn.
      by apply NoDup_app in Hn as (_ & _ & ?).
  - intros k'. unfold table_values. destruct (decide (key_page k' d = key_page key d)) as [Hpg|Hpg].
    + rewrite Hpg, set_bucket_eq. apply Hvals.
    + rewrite set_bucket_ne by done. unfold added. destruct (KeyComparator k' key =? 0) eqn:E; [|done].
      apply Z.eqb_eq in E. destruct Hpg. by apply key_page_equiv.
Qed.

Definition remove_result t d B s key value (r : bool) s' : Prop :=
  exists d' B', table_inv t s' d' B' /\ (r = true <-> value ∈ table_values d B key)
    /\ (forall k', table_values d B k' ≡ₚ (if r then added key value k' else []) ++ table_values d' B' k')
    /\ pins (view s') = pins (view s) /\ stays t d s s' /\ sub_dir d' d.

Lemma Remove_wp t s d B key value :
  table_inv t s d B -> room 2 s -> wp (HashTable_Remove t key value) (remove_result t d B s key value) s.
Proof.
  intros Hinv Hroom. destruct (inv_unpinned_key _ _ _ _ key Hinv) as (Hmd & Hmb & Hsep & Hi).
  unfold HashTable_Remove. eapply wp_open; [exact Hinv|done|]. intros fd fb s1 [Hr1 Hk1 Hd1 Hf1 Hp1 Hyd1 Hyb1 Hb1].
  pose proof (tr_ok _ _ _ _ Hr1) as Hs1. pose proof (tr_hash _ _ _ _ Hr1) as Hh.
  assert (Hpin : is_Some (pins (view s1) !! key_page key d)) by (rewrite Hp1, lookup_insert_eq; by eexists).
  destruct (bucket_remove_cases _ key value (hi_good _ _ Hh _ Hi)) as [[Hv Hrun]|[Hv (b' & e & Hrun & Hb' & Hm & Hperm)]].
  - eapply wp_try_bucket_fail; [done|exact Hf1|done|by apply (tr_bucket _ _ _ _ Hr1)|exact Hrun|].
    apply wp_bind, wp_ret.
    apply (wp_close s1 (pins (view s))); [done|done|done|done|done|by right|by right|].
    intros s2 Hs2 Hk2 Hp2 Hb2. apply wp_ret. exists d, B. split_and!; [| |done|done| |apply sub_dir_refl].
    + destruct Hinv as [_ Hu]. split; [by eapply rep_keeps|]. by rewrite Hp2.
    + split; [done|]. intros Hn. by destruct Hv.
    + apply stays_none; [by eapply evolves_trans|]. intros n Hn. by apply Hb2, Hb1.
  - destruct (remove_hash_inv d B b' key value e Hh Hb' Hm Hperm) as [Hh' Hvals].
    eapply wp_try_bucket; [done|exact Hf1|done|by apply (tr_bucket _ _ _ _ Hr1)|exact Hrun|done|].
    intros s2 Hs2 Hat2 Hk2 Hp2 Hb2.
    pose proof (rep_set_bucket t s1 s2 d B _ b' Hr1 Hi Hs2 (keeps_evolves _ _ _ Hk2) Hat2 Hh') as Hr2.
    assert (Hf2 : holds (view s2) fb (key_page key d)) by by apply (keeps_holds _ _ _ Hk2).
    eapply wp_on_bucket; [done|exact Hf2|by rewrite Hp2|exact Hat2|by apply IsEmpty_ok, Hb'|].
    set (B' := set_bucket (key_page key d) b' B) in *.
    assert (Hclosed : forall s3, pool_ok s3 -> evolves None (view s2) (view s3) -> pins (view s3) = pins (view s) ->
      table_inv t s3 d B').
    { intros s3 Hs3 Hk3 Hp3. destruct Hinv as [_ Hu]. split; [by eapply rep_keeps|]. by rewrite Hp3. }
    assert (Hyd2 : synced (view s2) (directory_page_id_ t)).
    { apply (keeps_synced _ _ _ Hk2); [|done]. intros [= E]. by destruct Hsep. }
    assert (Hst2 : stays t d s s2).
    { eapply stays_trans; [by apply (stays_none t d s s1)|]. by eapply stays_page, Hb2; [exact Hi|apply keeps_evolves]. }
    destruct (Nat.eqb (length (entries b')) 0).
    + apply (wp_close s2 (pins (view s))); [done|by rewrite Hp2|done|done|done|by left|by right|].
      intros s3 Hs3 Hk3 Hp3 Hb3. apply wp_bind. eapply wp_mono.
      * apply (Merge_wp t s3 d B' key value); [by apply Hclosed|]. unfold room in *.
        rewrite Hp3, (ev_frames _ _ _ Hk3), (keeps_frames _ _ _ Hk2), (ev_frames _ _ _ Hk1). done.
      * simpl. intros _ s4 (d' & Hinv4 & Hv4 & Hp4 & Hst4 & Hsub4). apply wp_ret. exists d', B'.
        split_and!; [done|done| |congruence| |done]; [intros k'; rewrite Hv4; apply Hvals|].
        eapply stays_trans; [exact Hst2|]. eapply stays_trans; [by apply stays_none|exact Hst4].
    + apply (wp_close s2 (pins (view s))); [done|by rewrite Hp2|done|done|done|by left|by right|].
      intros s3 Hs3 Hk3 Hp3 Hb3. apply wp_ret. exists d, B'. split_and!; [by apply Hclosed|done|done|done| |apply sub_dir_refl].
      eapply stays_trans; [exact Hst2|by apply stays_none].
Qed.
End Correct.
