(* ===== verification/HashTableSplit.v ===== *)
(** Splitting a bucket of the extendible hash table: the directory steps, the
    rehash loop, and the insertion that splits until the key's bucket has
    room. *)

From S2P Require Import Prelude Bytes Bitmap HashBucketPage HashDirectoryPage BufferPoolManager ExtendibleHashTable HashTableCorrect.

(** ** The directory steps of a split *)

Section SplitDirectory.
Implicit Types d : HashTableDirectoryPage.

Lemma dir_page_signed d i : dir_wf d -> is_signed 32 (dir_page d i).
Proof.
  intros Hw. unfold dir_page. destruct (bucket_page_ids_ d !! Z.to_nat i) as [x|] eqn:E; [|done].
  exact (Forall_lookup_1 _ _ _ _ (wf_page_ints _ Hw) E).
Qed.

Lemma Redirect_loop_ok n i g sp d :
  dir_wf d -> 0 <= g <= 9 -> 2 ^ g <= i -> i + Z.of_nat n <= DIRECTORY_ARRAY_SIZE ->
  exists d', Redirect_loop n i (2 ^ g) sp d = Ok d' /\ dir_wf d' /\ global_depth_ d' = global_depth_ d
    /\ dir_page_id_ d' = dir_page_id_ d
    /\ (forall k, 0 <= k -> dir_page d' k =
          if decide (i <= k < i + Z.of_nat n /\ k <> sp) then dir_page d (k mod 2 ^ g) else dir_page d k)
    /\ (forall k, 0 <= k -> dir_depth d' k =
          if decide (i <= k < i + Z.of_nat n /\ k <> sp) then dir_depth d (k mod 2 ^ g) else dir_depth d k).
Proof.
  intros Hw Hg. pose proof (pow2_bound g Hg) as Hp. revert i d Hw. induction n as [|n IH]; intros i d Hw Hi Hb.
  { exists d. split_and!; try done; intros k Hk; rewrite decide_False by lia; done. }
  assert (Hmod : forall k, 0 <= k mod 2 ^ g < 2 ^ g) by (intros; apply Z.mod_pos_bound; lia).
  cbn [Redirect_loop]. destruct (Z.eqb_spec i sp) as [->|Hne].
  - destruct (IH (sp + 1) d Hw) as (d' & -> & Hw' & Hg' & Hid & Hpg & Hdp); [lia|lia|].
    exists d'. split_and!; try done; intros k Hk; rewrite ?Hpg, ?Hdp by done;
      repeat case_decide; try done; lia.
  - rewrite mask_ok, land_mask by lia. pose proof (Hmod i) as Hmi.
    rewrite (GetBucketPageId_ok d Hw) by lia. cbn [rbind].
    destruct (SetBucketPageId_ok d Hw i ltac:(lia) _ (dir_page_signed d (i mod 2 ^ g) Hw))
      as (d1 & -> & Hw1 & Hg1 & Hid1 & Hp1 & Hl1). cbn [rbind].
    destruct (GetLocalDepth_ok d1 Hw1 (i mod 2 ^ g)) as [-> Hbyte]; [lia|]. cbn [rbind].
    destruct (SetLocalDepth_ok d1 Hw1 i ltac:(lia) _ Hbyte) as (d2 & -> & Hw2 & Hg2 & Hid2 & Hp2 & Hl2). cbn [rbind].
    destruct (IH (i + 1) d2 Hw2) as (d' & -> & Hw' & Hg' & Hid & Hpg & Hdp); [lia|lia|].
    assert (Hpk : forall k, 0 <= k -> dir_page d2 k = if decide (k = i) then dir_page d (i mod 2 ^ g) else dir_page d k)
      by (intros k Hk; rewrite Hp2; by apply Hp1).
    assert (Hlk : forall k, 0 <= k -> dir_depth d2 k = if decide (k = i) then dir_depth d (i mod 2 ^ g) else dir_depth d k)
      by (intros k Hk; rewrite Hl2, !Hl1 by done; done).
    exists d'. split_and!; [done|done|congruence|congruence|..]; intros k Hk; pose proof (Hmod k).
    + rewrite Hpg by done. rewrite !Hpk by lia. rewrite (decide_False (P := k mod 2 ^ g = i)) by lia.
      repeat case_decide; subst; try done; lia.
    + rewrite Hdp by done. rewrite !Hlk by lia. rewrite (decide_False (P := k mod 2 ^ g = i)) by lia.
      repeat case_decide; subst; try done; lia.
Qed.

(** The four steps on a bucket of full depth, with the new page's id [P]. *)
Lemma split_dir_ok d i ig :
  dir_inv d -> 0 <= i < dir_size d -> dir_depth d i = global_depth_ d -> global_depth_ d < 9 ->
  let g := global_depth_ d in
  let s := split_image i (g + 1) in
  exists dA dB, Split_grow i ig d = Ok (true, dA) /\ Split_image i dA = Ok (s, dB) /\ dir_wf dA /\ dir_wf dB
  /\ forall P, is_signed 32 P -> (forall j, 0 <= j < dir_size d -> dir_page d j <> P) ->
    exists dC dD, Split_link i s P dB = Ok dC /\ Split_redirect g s dC = Ok dD
    /\ dir_wf dC /\ dir_wf dD /\ dir_depth dC i = g + 1 /\ global_depth_ dD = g + 1
    /\ s = i + dir_size d /\ dir_inv dD
    /\ (forall j, 0 <= j < dir_size dD -> dir_page dD j = if decide (j = s) then P else dir_page d (j mod dir_size d))
    /\ (forall j, 0 <= j < dir_size dD -> dir_depth dD j = if decide (j = s \/ j = i) then g + 1 else dir_depth d (j mod dir_size d)).
Proof.
  intros Hd Hi Hfull Hlt g s. pose proof (inv_wf _ Hd) as Hw. pose proof (inv_global _ Hd) as Hg. fold g in Hg, Hfull, Hlt.
  pose proof (dir_size_bound d (inv_global _ Hd)) as Hsz.
  assert (Hi5 : 0 <= i < DIRECTORY_ARRAY_SIZE) by lia.
  assert (Hi2 : 2 ^ (g + 1) = 2 * dir_size d) by (unfold dir_size; fold g; rewrite Z.pow_add_r by lia; lia).
  assert (Hs : s = i + dir_size d).
  { unfold s, split_image. replace (g + 1 - 1) with g by lia. change (2 ^ g) with (dir_size d).
    rewrite Hi2. apply Z.mod_small. lia. }
  assert (Hs2 : 2 * dir_size d <= 512) by (rewrite <- Hi2; apply pow2_bound; lia).
  assert (Hs5 : 0 <= s < DIRECTORY_ARRAY_SIZE) by (unfold DIRECTORY_ARRAY_SIZE; lia).
  (* growing *)
  set (dA := set_global (g + 1) d).
  assert (HwA : dir_wf dA) by (destruct Hw; split; try done; unfold dA, is_unsigned; simpl; lia).
  assert (EA : Split_grow i ig d = Ok (true, dA)).
  { unfold Split_grow. destruct (GetLocalDepth_ok d Hw i Hi5) as [-> _]. cbn [rbind]. unfold Dir_GetGlobalDepth.
    fold g. rewrite Hfull, Z.eqb_refl. unfold Dir_IncrGlobalDepth. fold g.
    by rewrite unsigned_id by (unfold is_unsigned; simpl; lia). }
  (* the split image *)
  assert (Hb1 : is_byte (g + 1)) by (unfold is_byte; lia).
  destruct (SetLocalDepth_ok dA HwA i Hi5 _ Hb1) as (dB & EB0 & HwB & HgB & HidB & HpB & HlB).
  assert (HlBi : dir_depth dB i = g + 1) by (rewrite HlB by lia; by rewrite decide_True).
  assert (EB : Split_image i dA = Ok (s, dB)).
  { unfold Split_image, Dir_IncrLocalDepth. destruct (GetLocalDepth_ok dA HwA i Hi5) as [-> _]. cbn [rbind].
    change (dir_depth dA i) with (dir_depth d i). rewrite Hfull, EB0. cbn [rbind].
    rewrite (SplitImage_ok dB HwB i Hi5) by (rewrite HlBi; lia). by rewrite HlBi. }
  exists dA, dB. split_and!; try done. intros P HP Hfresh.
  (* linking the new page *)
  destruct (SetBucketPageId_ok dB HwB s Hs5 P HP) as (d1 & E1 & Hw1 & Hg1 & Hid1 & Hp1 & Hl1).
  destruct (SetLocalDepth_ok d1 Hw1 s Hs5 _ Hb1) as (dC & EC0 & HwC & HgC & HidC & HpC & HlC).
  assert (EC : Split_link i s P dB = Ok dC).
  { unfold Split_link. rewrite E1. cbn [rbind]. destruct (GetLocalDepth_ok d1 Hw1 i Hi5) as [-> _]. cbn [rbind].
    by rewrite Hl1, HlBi. }
  (* redirecting the new half *)
  assert (HgC' : global_depth_ dC = g + 1) by (rewrite HgC, Hg1, HgB; done).
  destruct (Redirect_loop_ok (Z.to_nat (dir_size d)) (2 ^ g) g s dC HwC) as (dD & ED & HwD & HgD & _ & HpD & HlD);
    [lia|lia|change (2 ^ g) with (dir_size d); unfold DIRECTORY_ARRAY_SIZE; lia|].
  assert (ED' : Split_redirect g s dC = Ok dD).
  { unfold Split_redirect. rewrite Pow_ok by lia. cbn [rbind]. rewrite Size_ok by lia. cbn [rbind].
    unfold dir_size at 1. rewrite HgC', Hi2. change (2 ^ g) with (dir_size d) in *.
    by replace (2 * dir_size d - dir_size d) with (dir_size d) by lia. }
  assert (HgD' : global_depth_ dD = g + 1) by congruence.
  assert (HszD : dir_size dD = 2 * dir_size d) by (unfold dir_size at 1; by rewrite HgD', Hi2).
  assert (Hmod : forall j, 0 <= j mod dir_size d < dir_size d) by (intros; apply Z.mod_pos_bound; lia).
  change (2 ^ g) with (dir_size d) in *. rewrite Z2Nat.id in HpD, HlD by lia.
  assert (HpgD : forall j, 0 <= j < dir_size dD -> dir_page dD j = if decide (j = s) then P else dir_page d (j mod dir_size d)).
  { intros j Hj. rewrite HpD, !HpC, !Hp1, !HpB by (specialize (Hmod j); lia).
    change (dir_page dA) with (dir_page d). specialize (Hmod j).
    destruct (decide (j = s)) as [->|Hjs]; [rewrite decide_False by tauto; done|].
    rewrite (decide_False (P := j mod dir_size d = s)) by lia.
    case_decide; [done|]. by rewrite Z.mod_small by lia. }
  assert (HdpD : forall j, 0 <= j < dir_size dD -> dir_depth dD j = if decide (j = s \/ j = i) then g + 1 else dir_depth d (j mod dir_size d)).
  { intros j Hj. rewrite HlD, !HlC, !Hl1, !HlB by (specialize (Hmod j); lia).
    change (dir_depth dA) with (dir_depth d). specialize (Hmod j).
    destruct (decide (j = s)) as [->|Hjs]; [rewrite decide_False by tauto; by rewrite decide_True by tauto|].
    rewrite (decide_False (P := j mod dir_size d = s)) by lia.
    destruct (decide (j < dir_size d)) as [Hlow|Hhigh].
    - rewrite (decide_False (P := dir_size d <= j < _ /\ _)) by lia. rewrite Z.mod_small by lia.
      repeat case_decide; try done; tauto.
    - rewrite (decide_True (P := dir_size d <= j < _ /\ _)) by lia.
      rewrite (decide_False (P := j mod dir_size d = i)).
      + rewrite decide_False by lia. done.
      + intros E. apply Hjs. rewrite Hs. rewrite <- E. replace j with (j - dir_size d + 1 * dir_size d) at 2 by lia.
        rewrite Z.mod_add by lia. rewrite Z.mod_small; lia. }
  destruct (split_grow_inv d dD i P Hd HwD Hi Hfull Hlt HgD' Hfresh HpgD HdpD) as [_ HinvD].
  exists dC, dD. split_and!; try done. rewrite HlC by lia. rewrite decide_False by lia. by rewrite Hl1.
Qed.
End SplitDirectory.

(** ** Moving the entries to the split page *)

Section Rehash.
Context `{Config} {S P D K V : Type} `{!BufferPoolManager S P D} `{!BufferPoolSpec S P D}
  `{!MappingType K V} `{!MappingOk K V} `{!HashFunction K} `{!HashFunctionOk K V}
  `{!HashPages D K V} `{!HashPagesOk D K V (good_data (S := S) (P := P)) (zero_data (S := S) (P := P))}.
Implicit Types (t : ExtendibleHashTable) (key : K) (value : V) (d : HashTableDirectoryPage)
  (b c : HashTableBucketPage K V) (B : Z -> HashTableBucketPage K V) (s : S) (p : Z) (f : P) (m : gmap Z Z).

Lemma dir_at_in X s s' p d : evolves_in X (view s) (view s') -> p ∉ X -> dir_at s p d -> dir_at s' p d.
Proof.
  intros Hk Ho (Hl & x & Hx & Hd). split; [by apply (ei_live _ _ _ Hk)|].
  exists x. split; [by apply (ei_logical _ _ _ Hk)|done].
Qed.

Lemma bucket_at_in X s s' p b : evolves_in X (view s) (view s') -> p ∉ X -> bucket_at s p b -> bucket_at s' p b.
Proof.
  intros Hk Ho (Hl & x & Hx & Hd). split; [by apply (ei_live _ _ _ Hk)|].
  exists x. split; [by apply (ei_logical _ _ _ Hk)|done].
Qed.

(** The entries that belong to the split image. *)
Definition moves (L sp : Z) (e : K * V) : bool := HashTable_Hash e.1 mod 2 ^ L =? sp.
Definition stay (L sp : Z) (e : K * V) : option (K * V) := if moves L sp e then None else Some e.

Lemma entries_stay L sp (l : list (K * V)) :
  entries_of (stay L sp <$> l) = filter (fun e => moves L sp e = false) l.
Proof.
  induction l as [|e l IH]; [done|]. cbn [fmap list_fmap]. rewrite filter_cons. unfold stay at 1.
  destruct (moves L sp e); simpl; [exact IH|by rewrite <- IH].
Qed.

Lemma full_entries b :
  bucket_inv b -> length (entries b) = bucket_size -> slots b = Some <$> array_ b /\ entries b = array_ b.
Proof.
  intros Hb Hfull.
  assert (Hno : None ∉ slots b) by (apply entries_of_full; by rewrite slots_length).
  assert (Hs : slots b = Some <$> array_ b).
  { apply slots_ext; [by rewrite length_fmap, (bkt_array _ Hb)|]. intros j Hj. rewrite list_lookup_fmap.
    destruct (slot_at b j Hb Hj) as (e & -> & _ & _ & Hsl). rewrite Hsl. simpl.
    destruct (bit_at (readable_ b) j) eqn:E; [done|]. destruct Hno. rewrite <- Hsl.
    apply list_elem_of_lookup. exists j. rewrite slots_lookup by done. by rewrite Hsl. }
  split; [done|]. unfold entries. rewrite Hs. clear. induction (array_ b) as [|e l IH]; [done|]. simpl. f_equal. exact IH.
Qed.

(** The two buckets after [r] slots of the full bucket [b]. *)
Record rehashed b (L sp : Z) (r : nat) b1 c1 : Prop := {
  rh_good : bucket_good b1 /\ bucket_good c1;
  rh_array : array_ b1 = array_ b;
  rh_slots : slots b1 = (stay L sp <$> take r (array_ b)) ++ (Some <$> drop r (array_ b));
  rh_moved : entries c1 ≡ₚ filter (fun e => moves L sp e = true) (take r (array_ b))
}.

Lemma rehash_start b L sp :
  bucket_good b -> length (entries b) = bucket_size -> rehashed b L sp 0 b Bucket_zero.
Proof.
  intros Hb Hfull. destruct (full_entries b (proj1 Hb) Hfull) as [Hs _].
  destruct bucket_zero_inv as [Hz He]. split.
  - split; [done|]. split; [done|]. apply Forall_replicate. apply storable_zero.
  - done.
  - by rewrite take_0, drop_0.
  - by rewrite take_0, He.
Qed.

Lemma rehash_slot b L sp r b1 c1 e :
  rehashed b L sp r b1 c1 -> (r < bucket_size)%nat -> array_ b !! r = Some e ->
  bit_at (readable_ b1) r = true /\ Bucket_KeyAt (Z.of_nat r) b1 = Ok e.1 /\ Bucket_ValueAt (Z.of_nat r) b1 = Ok e.2.
Proof.
  intros [[Hb1 _] Ha Hs _] Hr He. destruct (slot_at b1 r (proj1 Hb1) Hr) as (e' & He' & Hk & Hv & Hsl).
  rewrite Ha, He in He'. simplify_eq. split_and!; [|done|done].
  pose proof (slots_lookup b1 r Hr) as Hl. rewrite Hs in Hl. pose proof (lookup_lt_Some _ _ _ He) as Hlt.
  rewrite lookup_app_r in Hl by (rewrite length_fmap, length_take; lia).
  rewrite length_fmap, length_take, Nat.min_l, Nat.sub_diag, list_lookup_fmap, lookup_drop, Nat.add_0_r, He in Hl by lia.
  simpl in Hl. rewrite Hsl in Hl. by destruct (bit_at _ r).
Qed.

(** One slot: an entry that stays, and one that moves. *)
Lemma rehash_stay b L sp r b1 c1 e :
  rehashed b L sp r b1 c1 -> array_ b !! r = Some e -> moves L sp e = false -> rehashed b L sp (Datatypes.S r) b1 c1.
Proof.
  intros [Hg Ha Hs Hm] He Hst. split; [done|done| |].
  - rewrite (take_S_r _ _ _ He), fmap_app, <- app_assoc. rewrite (drop_S _ _ _ He) in Hs. rewrite Hs. f_equal.
    simpl. unfold stay. by rewrite Hst.
  - rewrite (take_S_r _ _ _ He), list.filter_app, filter_cons, decide_False, filter_nil, app_nil_r by congruence. done.
Qed.

Lemma rehash_move b L sp r b1 c1 e :
  rehashed b L sp r b1 c1 -> (r < bucket_size)%nat -> array_ b !! r = Some e -> moves L sp e = true ->
  Forall storable (array_ b) -> (forall key, NoDup (values_at key (array_ b))) ->
  exists b2 c2, Bucket_Insert e.1 e.2 c1 = Ok (true, c2) /\ Bucket_RemoveAt (Z.of_nat r) b1 = Ok b2
    /\ bucket_good b2 /\ bucket_good c2 /\ rehashed b L sp (Datatypes.S r) b2 c2.
Proof.
  intros Hrh Hr He Hmv Hst Hn. destruct (rehash_slot _ _ _ _ _ _ _ Hrh Hr He) as (Hbit & _ & _).
  destruct Hrh as [[Hb1 Hc1] Ha Hs Hm].
  pose proof (bkt_array _ (proj1 Hb1)) as Hlen. rewrite Ha in Hlen.
  assert (Hsub : forall key, values_at key (entries c1) ≡ₚ values_at key (filter (fun e => moves L sp e = true) (take r (array_ b))))
    by (intros key; by apply values_at_perm).
  destruct (bucket_insert_cases c1 e.1 e.2 Hc1) as [[Hin _]|[_ (c2 & Hins & Hc2 & Hperm)]].
  { destruct e as [k v]. by apply (Forall_lookup_1 _ _ _ _ Hst He). }
  { apply Permutation_length in Hm. pose proof (length_filter (fun e => moves L sp e = true) (take r (array_ b))) as Hle.
    rewrite length_take in Hle. lia. }
  { exfalso. rewrite (Hsub e.1) in Hin. specialize (Hn e.1). rewrite <- (take_drop_middle _ _ _ He) in Hn.
    rewrite values_at_app, values_at_cons in Hn. unfold key_match in Hn. rewrite cmp_refl in Hn. simpl in Hn.
    apply NoDup_app in Hn as (_ & Hdis & _). apply (Hdis e.2); [|set_solver].
    unfold values_at in *. apply list_elem_of_fmap in Hin as (x & -> & Hx). apply list_elem_of_filter in Hx as [Hk Hx].
    apply list_elem_of_filter in Hx as [_ Hx]. apply list_elem_of_fmap. exists x. split; [done|]. by apply list_elem_of_filter. }
  destruct (RemoveAt_ok b1 r (proj1 Hb1) Hr Hbit) as (b2 & Hrm & Hb2 & Hs2 & Ha2 & _).
  assert (Hgood2 : bucket_good b2) by (split; [done|rewrite Ha2, Ha; done]).
  exists b2, c2. split_and!; [done|done|done|done|]. split; [done|congruence| |].
  - rewrite Hs2, Hs. rewrite (take_S_r _ _ _ He), fmap_app, <- app_assoc, (drop_S _ _ _ He).
    rewrite insert_app_r_alt by (rewrite length_fmap, length_take; lia).
    rewrite length_fmap, length_take, Nat.min_l, Nat.sub_diag by lia. f_equal. simpl. unfold stay. by rewrite Hmv.
  - rewrite Hperm, Hm. rewrite (take_S_r _ _ _ He), list.filter_app, filter_cons, decide_True, filter_nil by done.
    rewrite Permutation_app_comm. simpl. by destruct e.
Qed.

Lemma rehash_end b L sp b1 c1 :
  rehashed b L sp bucket_size b1 c1 -> bucket_inv b ->
  entries b1 = filter (fun e => moves L sp e = false) (array_ b)
  /\ entries c1 ≡ₚ filter (fun e => moves L sp e = true) (array_ b).
Proof.
  intros [_ _ Hs Hm] Hb. rewrite take_ge in Hs, Hm by (by rewrite (bkt_array _ Hb)).
  split; [|done]. unfold entries. rewrite Hs, drop_ge by (by rewrite (bkt_array _ Hb)).
  rewrite app_nil_r. apply entries_stay.
Qed.

(** *** The loop *)

Record same_pins s s' : Prop := {
  sp_ok : pool_ok s';
  sp_pins : pins (view s') = pins (view s);
  sp_holds f q : is_Some (pins (view s) !! q) -> holds (view s) f q -> holds (view s') f q;
  sp_budget n : budget (view s) n -> budget (view s') n
}.

Lemma same_pins_refl s : pool_ok s -> same_pins s s.
Proof. by split. Qed.

Lemma same_pins_trans s1 s2 s3 : same_pins s1 s2 -> same_pins s2 s3 -> same_pins s1 s3.
Proof.
  intros [A1 A2 A3 A4] [B1 B2 B3 B4]. split; [done|congruence| |auto].
  intros f q Hq Hf. apply B3; [by rewrite A2|by apply A3].
Qed.

Lemma same_pins_step s s' o : pool_ok s' -> keeps o (view s) (view s') -> pins (view s') = pins (view s) ->
  (forall n, budget (view s) n -> budget (view s') n) -> same_pins s s'.
Proof. intros Hs Hk Hp Hb. split; [done|done|apply (keeps_holds _ _ _ Hk)|done]. Qed.

Lemma Rehash_loop_wp fd fb fs dp bp np i L spl dC b n r s b1 c1 :
  dir_wf dC -> dir_depth dC i = L -> 1 <= L <= 9 -> 0 <= i < DIRECTORY_ARRAY_SIZE ->
  bucket_good b -> length (entries b) = bucket_size -> (forall key, NoDup (values_at key (array_ b))) ->
  dp <> bp -> dp <> np -> bp <> np ->
  (forall q, q = dp \/ q = bp \/ q = np -> is_Some (pins (view s) !! q)) ->
  pool_ok s -> holds (view s) fd dp -> holds (view s) fb bp -> holds (view s) fs np ->
  dir_at s dp dC -> bucket_at s bp b1 -> bucket_at s np c1 -> rehashed b L spl r b1 c1 -> (r + n = bucket_size)%nat ->
  wp (Rehash_loop n (Z.of_nat r) BUCKET_ARRAY_SIZE i spl fd fb fs) (fun _ s' =>
    same_pins s s' /\ evolves_in {[bp; np]} (view s) (view s') /\
    exists b2 c2, bucket_at s' bp b2 /\ bucket_at s' np c2 /\ rehashed b L spl bucket_size b2 c2) s.
Proof.
  intros HwC HL HLr Hi Hb Hfull Hn Hdb Hdn Hbn. revert r s b1 c1.
  induction n as [|n IH]; intros r s b1 c1 Hpin Hs Hfd Hfb Hfs Hdir Hbk Hsp Hrh Hrn.
  { unfold Rehash_loop. rewrite (proj2 (Z.eqb_eq _ _)) by (pose proof bucket_size_Z; lia). apply wp_ret.
    replace r with bucket_size in Hrh by lia. split; [by apply same_pins_refl|]. split; [apply evolves_in_refl|].
    by exists b1, c1. }
  destruct (lookup_lt_is_Some_2 (array_ b) r) as [e He]; [rewrite (bkt_array _ (proj1 Hb)); lia|].
  destruct (rehash_slot _ _ _ _ _ _ _ Hrh ltac:(lia) He) as (Hbit & Hkey & Hval).
  pose proof (rh_good _ _ _ _ _ _ Hrh) as [Hb1 Hc1].
  assert (Hpd : is_Some (pins (view s) !! dp)) by (apply Hpin; tauto).
  assert (Hpb : is_Some (pins (view s) !! bp)) by (apply Hpin; tauto).
  assert (Hps : is_Some (pins (view s) !! np)) by (apply Hpin; tauto).
  cbn [Rehash_loop]. rewrite (proj2 (Z.eqb_neq _ _)) by (pose proof bucket_size_Z; lia).
  eapply wp_on_bucket; [done|exact Hfb|done|exact Hbk|by apply IsReadable_ok; [apply Hb1|lia]|]. rewrite Hbit. cbn [negb].
  eapply wp_on_bucket; [done|exact Hfb|done|exact Hbk|exact Hkey|].
  eapply wp_on_dir; [done|exact Hfd|done|exact Hdir| |].
  { destruct (GetLocalDepth_ok dC HwC i Hi) as [-> _]. cbn [rbind]. rewrite HL. apply Pow_ok. lia. }
  cbv zeta. rewrite mask_ok, land_mask by lia.
  assert (Hx : (Z.lxor (HashTable_Hash e.1 mod 2 ^ L) spl =? 0) = moves L spl e).
  { unfold moves. apply eq_true_iff_eq. rewrite !Z.eqb_eq, Z.lxor_eq_0_iff. done. }
  rewrite Hx. replace (Z.of_nat r + 1) with (Z.of_nat (Datatypes.S r)) by lia. destruct (moves L spl e) eqn:Hmv.
  - destruct (rehash_move _ _ _ _ _ _ _ Hrh ltac:(lia) He Hmv (proj2 Hb) Hn) as (b2 & c2 & Hins & Hrm & Hb2 & Hc2 & Hrh2).
    apply wp_bind. eapply wp_on_bucket; [done|exact Hfb|done|exact Hbk|exact Hval|].
    eapply wp_try_bucket; [done|exact Hfs|done|exact Hsp|exact Hins|done|].
    intros s1 Hs1 Hsp1 Hk1 Hp1 Hbd1.
    assert (Hbk1 : bucket_at s1 bp b1) by (eapply bucket_at_keeps; [by apply keeps_evolves| |done]; congruence).
    eapply (wp_try_bucket s1 fb bp); [done|by apply (keeps_holds _ _ _ Hk1)|by rewrite Hp1|exact Hbk1|by rewrite Hrm|done|].
    intros s2 Hs2 Hbk2 Hk2 Hp2 Hbd2. apply wp_ret.
    pose proof (same_pins_trans s s1 s2 (same_pins_step _ _ _ Hs1 Hk1 Hp1 Hbd1) (same_pins_step _ _ _ Hs2 Hk2 Hp2 Hbd2)) as Hsp02.
    assert (Hev : evolves_in {[bp; np]} (view s) (view s2)).
    { eapply evolves_in_trans; (eapply keeps_evolves_in; [|eassumption]; intros q [= <-]; set_solver). }
    eapply wp_mono; [apply (IH (Datatypes.S r) s2 b2 c2)|].
    + intros q Hq. rewrite (sp_pins _ _ Hsp02). by apply Hpin.
    + done.
    + by apply (sp_holds _ _ Hsp02).
    + by apply (sp_holds _ _ Hsp02).
    + by apply (sp_holds _ _ Hsp02).
    + eapply dir_at_in; [exact Hev|set_solver|done].
    + done.
    + eapply bucket_at_keeps; [by apply keeps_evolves| |exact Hsp1]. congruence.
    + done.
    + lia.
    + simpl. intros _ s3 (Hsp3 & Hev3 & Hrest). split_and!; [by eapply same_pins_trans|by eapply evolves_in_trans|done].
  - apply wp_bind, wp_ret. apply (IH (Datatypes.S r) s b1 c1); try done; [by eapply rehash_stay|lia].
Qed.

(** ** The table after a split *)

(** [dD] doubles [d], with the split image of entry [i] leading to [np]. *)
Record doubled d i np dD : Prop := {
  db_inv : dir_inv dD;
  db_global : global_depth_ dD = global_depth_ d + 1;
  db_image : split_image i (global_depth_ d + 1) = i + dir_size d;
  db_page j : 0 <= j < dir_size dD -> dir_page dD j = if decide (j = i + dir_size d) then np else dir_page d (j mod dir_size d);
  db_depth j : 0 <= j < dir_size dD -> dir_depth dD j =
    if decide (j = i + dir_size d \/ j = i) then global_depth_ d + 1 else dir_depth d (j mod dir_size d)
}.

Lemma doubled_size d i np dD : dir_inv d -> doubled d i np dD -> dir_size dD = 2 * dir_size d.
Proof.
  intros Hd Hx. unfold dir_size. rewrite (db_global _ _ _ _ Hx), Z.pow_add_r by (pose proof (inv_global _ Hd); lia). lia.
Qed.

(** An index of the doubled directory and the one below it. *)
Lemma half_index d j : dir_inv d -> 0 <= j < 2 * dir_size d ->
  0 <= j mod dir_size d < dir_size d /\ (j = j mod dir_size d \/ j = j mod dir_size d + dir_size d)
  /\ forall l, 0 <= l <= global_depth_ d -> (j mod dir_size d) mod 2 ^ l = j mod 2 ^ l.
Proof.
  intros Hd Hj. pose proof (dir_size_bound d (inv_global _ Hd)) as Hsz.
  pose proof (Z.mod_pos_bound j (dir_size d) ltac:(lia)). pose proof (Z.div_mod j (dir_size d) ltac:(lia)).
  split; [done|]. split.
  - assert (0 <= j / dir_size d < 2) by (split; [apply Z.div_pos|apply Z.div_lt_upper_bound]; lia).
    assert (j / dir_size d = 0 \/ j / dir_size d = 1) as [E|E] by lia; rewrite E in *; lia.
  - intros l Hl. by apply mod_pow_le.
Qed.

(** In a bucket of full depth every entry has the index of the bucket, so that
    the next bit of its hash tells which half it goes to. *)
Lemma full_depth_index d B i e :
  hash_inv d B -> 0 <= i < dir_size d -> dir_depth d i = global_depth_ d -> e ∈ entries (B (dir_page d i)) ->
  HashTable_Hash e.1 mod dir_size d = i
  /\ (HashTable_Hash e.1 mod (2 * dir_size d) = i \/ HashTable_Hash e.1 mod (2 * dir_size d) = i + dir_size d).
Proof.
  intros Hh Hi Hfull He. pose proof (hi_dir _ _ Hh) as Hd. pose proof (dir_size_bound d (inv_global _ Hd)) as Hsz.
  pose proof (hi_hash _ _ Hh i e Hi He) as Hx. rewrite Hfull in Hx. fold (dir_size d) in Hx.
  rewrite (Z.mod_small i) in Hx by lia. split; [done|].
  pose proof (Z.mod_pos_bound (HashTable_Hash e.1) (2 * dir_size d) ltac:(lia)) as Hb.
  destruct (half_index d _ Hd Hb) as (_ & Hc & _).
  assert (Hy : (HashTable_Hash e.1 mod (2 * dir_size d)) mod dir_size d = i).
  { rewrite <- Hx. symmetry. apply Znumtheory.Zmod_div_mod; [lia|lia|]. by exists 2. }
  rewrite Hy in Hc. done.
Qed.

Lemma moves_iff d B i e :
  hash_inv d B -> 0 <= i < dir_size d -> dir_depth d i = global_depth_ d -> e ∈ entries (B (dir_page d i)) ->
  moves (global_depth_ d + 1) (i + dir_size d) e = bool_decide (HashTable_Hash e.1 mod (2 * dir_size d) = i + dir_size d).
Proof.
  intros Hh Hi Hfull He. unfold moves. apply eq_true_iff_eq. rewrite Z.eqb_eq, bool_decide_eq_true.
  unfold dir_size. rewrite Z.pow_add_r by (pose proof (inv_global _ (hi_dir _ _ Hh)); lia).
  by rewrite (Z.mul_comm (2 ^ _) (2 ^ 1)).
Qed.

Lemma values_at_filter_NoDup k (Q : K * V -> Prop) `{forall e, Decision (Q e)} (l : list (K * V)) :
  NoDup (values_at k l) -> NoDup (values_at k (filter Q l)).
Proof.
  induction l as [|e l IH]; [done|]. rewrite values_at_cons, filter_cons. intros Hn.
  apply NoDup_app in Hn as (H1 & H2 & H3). case_decide; [|by apply IH].
  rewrite values_at_cons. apply NoDup_app. split_and!; [done| |by apply IH].
  intros v Hv Hin. apply (H2 v Hv). unfold values_at in *. apply list_elem_of_fmap in Hin as (x & -> & Hx).
  apply list_elem_of_filter in Hx as [Hk Hx]. apply list_elem_of_filter in Hx as [_ Hx].
  apply list_elem_of_fmap. exists x. split; [done|]. by apply list_elem_of_filter.
Qed.

Lemma split_hash_inv d B i np dD b2 c2 :
  hash_inv d B -> 0 <= i < dir_size d -> dir_depth d i = global_depth_ d -> doubled d i np dD ->
  (forall j, 0 <= j < dir_size d -> dir_page d j <> np) -> bucket_good b2 -> bucket_good c2 ->
  let mv := moves (global_depth_ d + 1) (i + dir_size d) in
  let l := entries (B (dir_page d i)) in
  entries b2 = filter (fun e => mv e = false) l -> entries c2 ≡ₚ filter (fun e => mv e = true) l ->
  let B' := set_bucket np c2 (set_bucket (dir_page d i) b2 B) in
  hash_inv dD B' /\ (forall k, table_values dD B' k ≡ₚ table_values d B k).
Proof.
  intros Hh Hi Hfull Hdb Hfresh Hb2 Hc2 mv l Hb2e Hc2e B'. pose proof (hi_dir _ _ Hh) as Hd.
  pose proof (dir_size_bound d (inv_global _ Hd)) as Hszb. pose proof (doubled_size _ _ _ _ Hd Hdb) as Hsz.
  pose proof (inv_global _ Hd) as Hg.
  assert (Hpow : 2 ^ (global_depth_ d + 1) = 2 * dir_size d) by (unfold dir_size; rewrite Z.pow_add_r by lia; lia).
  assert (Hc2in : forall e, e ∈ entries c2 -> e ∈ l /\ HashTable_Hash e.1 mod (2 * dir_size d) = i + dir_size d).
  { intros e He. rewrite Hc2e in He. apply list_elem_of_filter in He as [Hm He]. split; [done|].
    unfold mv in Hm. rewrite (moves_iff d B i e) in Hm by done. by apply bool_decide_eq_true in Hm. }
  assert (Hb2in : forall e, e ∈ entries b2 -> e ∈ l /\ HashTable_Hash e.1 mod (2 * dir_size d) = i).
  { intros e He. rewrite Hb2e in He. apply list_elem_of_filter in He as [Hm He]. split; [done|].
    unfold mv in Hm. rewrite (moves_iff d B i e) in Hm by done. apply bool_decide_eq_false in Hm.
    destruct (full_depth_index d B i e Hh Hi Hfull He) as [_ [?|?]]; done. }
  (* what the page of an index holds, in the doubled directory *)
  assert (Hcase : forall j, 0 <= j < dir_size dD ->
    (j = i + dir_size d /\ B' (dir_page dD j) = c2 /\ dir_depth dD j = global_depth_ d + 1)
    \/ (j = i /\ B' (dir_page dD j) = b2 /\ dir_depth dD j = global_depth_ d + 1)
    \/ (j mod dir_size d <> i /\ B' (dir_page dD j) = B (dir_page d (j mod dir_size d))
        /\ dir_depth dD j = dir_depth d (j mod dir_size d))).
  { intros j Hj. rewrite (db_page _ _ _ _ Hdb j Hj), (db_depth _ _ _ _ Hdb j Hj). rewrite Hsz in Hj.
    destruct (half_index d j Hd Hj) as (Hm & Hor & _). pose proof (Hfresh _ Hm) as Hfr. unfold B'.
    destruct (decide (j = i + dir_size d)) as [->|Hjs].
    - left. rewrite set_bucket_eq. by rewrite decide_True by tauto.
    - right. rewrite set_bucket_ne by done. destruct (decide (j = i)) as [->|Hji].
      + left. rewrite Z.mod_small by lia. rewrite set_bucket_eq. by rewrite decide_True by tauto.
      + right. rewrite decide_False by tauto. assert (Hne : j mod dir_size d <> i) by lia.
        split; [done|]. split; [|done]. apply set_bucket_ne. intros E. apply Hne.
        apply (share_iff d i _ Hd Hi Hm) in E. rewrite Hfull in E. fold (dir_size d) in E.
        rewrite (Z.mod_small i), Z.mod_mod in E by lia. done. }
  split.
  - split; [apply (db_inv _ _ _ _ Hdb)|..]; intros j.
    + intros Hj. destruct (Hcase j Hj) as [(_ & -> & _)|[(_ & -> & _)|(_ & -> & _)]]; [done|done|].
      apply (hi_good _ _ Hh). apply Z.mod_pos_bound. lia.
    + intros e Hj. destruct (Hcase j Hj) as [(-> & -> & ->)|[(-> & -> & ->)|(Hne & -> & ->)]]; intros He.
      * rewrite Hpow. rewrite (proj2 (Hc2in e He)). symmetry. apply Z.mod_small. lia.
      * rewrite Hpow. rewrite (proj2 (Hb2in e He)). symmetry. apply Z.mod_small. lia.
      * rewrite Hsz in Hj. destruct (half_index d j Hd Hj) as (Hm & _ & Hl).
        rewrite (hi_hash _ _ Hh _ e Hm He). apply Hl. pose proof (inv_local _ Hd _ Hm). lia.
    + intros k Hj. destruct (Hcase j Hj) as [(_ & -> & _)|[(_ & -> & _)|(_ & -> & _)]].
      * rewrite (values_at_perm k _ _ Hc2e). pose proof (hi_uniq _ _ Hh i k Hi) as Hn. fold l in Hn.
        by apply values_at_filter_NoDup.
      * rewrite Hb2e. pose proof (hi_uniq _ _ Hh i k Hi) as Hn. fold l in Hn.
        by apply values_at_filter_NoDup.
      * apply (hi_uniq _ _ Hh). apply Z.mod_pos_bound. lia.
  - intros k. unfold table_values at 1. unfold key_page.
    pose proof (index_range dD k (db_inv _ _ _ _ Hdb)) as Hk.
    assert (Hkd : key_index k dD mod dir_size d = key_index k d).
    { unfold key_index. rewrite Hsz. symmetry. apply Znumtheory.Zmod_div_mod; [lia|lia|]. by exists 2. }
    assert (Hsub : forall (Pm : bool) (j : Z), key_index k dD = j ->
      (forall e, e ∈ l -> KeyComparator k e.1 = 0 -> HashTable_Hash e.1 mod (2 * dir_size d) = j)).
    { intros _ j Hj e He Hm. rewrite <- Hj. unfold key_index, HashTable_Hash. rewrite Hsz.
      by rewrite (hash_compat (V := V) k e.1 Hm). }
    assert (Hfilt : forall v, (forall e, e ∈ l -> key_match k e = true -> mv e = v) ->
      values_at k (filter (fun e => mv e = v) l) = values_at k l).
    { intros v Hv. unfold values_at. f_equal. rewrite list_filter_filter. apply filter_ext_in.
      intros e He. specialize (Hv e He). naive_solver. }
    assert (Hmv : forall v j, key_index k dD = j -> (v = bool_decide (j = i + dir_size d)) ->
      forall e, e ∈ l -> key_match k e = true -> mv e = v).
    { intros v j Hj -> e He Hm%Z.eqb_eq. unfold mv. rewrite (moves_iff d B i e) by done.
      by rewrite (Hsub true j Hj e He Hm). }
    destruct (Hcase _ Hk) as [(E & -> & _)|[(E & -> & _)|(Hne & -> & _)]].
    + rewrite (values_at_perm k _ _ Hc2e). rewrite Hfilt.
      * unfold table_values, key_page. rewrite <- Hkd, E. replace (i + dir_size d) with (i + 1 * dir_size d) by lia.
        rewrite Z.mod_add, Z.mod_small by lia. done.
      * apply (Hmv true _ E). by rewrite bool_decide_eq_true_2.
    + rewrite Hb2e, Hfilt.
      * unfold table_values, key_page. rewrite <- Hkd, E. by rewrite Z.mod_small by lia.
      * apply (Hmv false _ E). rewrite bool_decide_eq_false_2; [done|lia].
    + unfold table_values, key_page. by rewrite <- Hkd.
Qed.

(** The key's bucket after the split has the full depth again, and if it is
    full it has kept every entry. *)
Lemma split_key_bucket d B key np dD b2 c2 :
  hash_inv d B -> dir_depth d (key_index key d) = global_depth_ d -> doubled d (key_index key d) np dD ->
  (forall j, 0 <= j < dir_size d -> dir_page d j <> np) ->
  let l := entries (B (key_page key d)) in
  let mv := moves (global_depth_ d + 1) (key_index key d + dir_size d) in
  entries b2 = filter (fun e => mv e = false) l -> entries c2 ≡ₚ filter (fun e => mv e = true) l ->
  let B' := set_bucket np c2 (set_bucket (key_page key d) b2 B) in
  dir_depth dD (key_index key dD) = global_depth_ dD
  /\ (length (entries (B' (key_page key dD))) = length l -> forall e, e ∈ l -> e ∈ entries (B' (key_page key dD))).
Proof.
  intros Hh Hfull Hdb Hfresh l mv Hb2 Hc2 B'. pose proof (hi_dir _ _ Hh) as Hd. set (i := key_index key d) in *.
  pose proof (index_range d key Hd) as Hi. fold i in Hi. pose proof (doubled_size _ _ _ _ Hd Hdb) as Hsz.
  pose proof (index_range dD key (db_inv _ _ _ _ Hdb)) as Hk. rewrite Hsz in Hk.
  pose proof (dir_size_bound d (inv_global _ Hd)) as Hszb.
  assert (Hki : key_index key dD = i \/ key_index key dD = i + dir_size d).
  { destruct (half_index d _ Hd Hk) as (_ & Hor & _).
    assert (E : key_index key dD mod dir_size d = i).
    { unfold i, key_index. rewrite Hsz. symmetry. apply Znumtheory.Zmod_div_mod; [lia|lia|]. by exists 2. }
    by rewrite E in Hor. }
  assert (Hkd : 0 <= key_index key dD < dir_size dD) by lia.
  split; [rewrite (db_depth _ _ _ _ Hdb _ Hkd), (db_global _ _ _ _ Hdb); rewrite decide_True by tauto; done|].
  assert (Hlen : (length (filter (fun e => mv e = true) l) + length (filter (fun e => mv e = false) l) = length l)%nat).
  { clear. induction l as [|e l IH]; [done|]. rewrite !filter_cons. destruct (mv e); simpl; lia. }
  assert (Hnil : forall v, length (filter (fun e => mv e = v) l) = 0%nat -> forall e, e ∈ l -> mv e <> v).
  { intros v Hv e He E. apply nil_length_inv in Hv.
    assert (Hin : e ∈ filter (fun e => mv e = v) l) by (by apply list_elem_of_filter). rewrite Hv in Hin. set_solver. }
  unfold key_page, B'. rewrite (db_page _ _ _ _ Hdb _ Hkd).
  destruct Hki as [E|E]; rewrite E.
  - rewrite decide_False by lia. rewrite (Z.mod_small i) by lia.
    rewrite set_bucket_ne by (by apply Hfresh). fold (key_page key d). unfold key_page. fold i. rewrite set_bucket_eq, Hb2.
    intros Hl e He. apply list_elem_of_filter. split; [|done].
    pose proof (Hnil true ltac:(lia) e He). by destruct (mv e).
  - rewrite decide_True by done. rewrite set_bucket_eq.
    intros Hl e He. rewrite Hc2. rewrite (Permutation_length Hc2) in Hl. apply list_elem_of_filter. split; [|done].
    pose proof (Hnil false ltac:(lia) e He). by destruct (mv e).
Qed.

(** ** [SplitInsert] *)

(** The key's bucket can be split until there is room: it has the directory's
    full depth, and some entry differs from the key in the nine hash bits a
    directory can use. *)
Definition separable d B key : Prop :=
  dir_depth d (key_index key d) = global_depth_ d
  /\ exists e, e ∈ entries (B (key_page key d)) /\ HashTable_Hash e.1 mod 512 <> HashTable_Hash key mod 512.

Lemma separable_depth d B key : hash_inv d B -> separable d B key -> global_depth_ d < 9.
Proof.
  intros Hh [Hfull (e & He & Hne)]. pose proof (hi_dir _ _ Hh) as Hd. pose proof (inv_global _ Hd) as Hg.
  destruct (decide (global_depth_ d = 9)) as [E|]; [|lia]. destruct Hne.
  destruct (full_depth_index d B _ e Hh (index_range d key Hd) Hfull He) as [Hx _].
  unfold dir_size in Hx. rewrite E in Hx. change (2 ^ 9) with 512 in Hx. rewrite Hx.
  unfold key_index, dir_size. by rewrite E.
Qed.

(** One split, with the directory page and the bucket page pinned. *)
Lemma Split_bucket_wp t s d B key fd fb ig m n :
  table_rep t s d B -> holds (view s) fd (directory_page_id_ t) -> holds (view s) fb (key_page key d) ->
  pins (view s) = <[key_page key d := 1]> (<[directory_page_id_ t := 1]> m) -> unpinned t d m ->
  (size m + 3 <= frames (view s))%nat -> budget (view s) (Datatypes.S n) ->
  length (entries (B (key_page key d))) = bucket_size -> separable d B key ->
  wp (Split_bucket fd fb (global_depth_ d) (key_index key d) ig) (fun r s' => r = true /\
    exists dD B', table_rep t s' dD B' /\ holds (view s') fd (directory_page_id_ t)
     /\ pins (view s') = pins (view s) /\ unpinned t dD m /\ frames (view s') = frames (view s)
     /\ budget (view s') n
     /\ global_depth_ dD = global_depth_ d + 1
     /\ (forall k, table_values dD B' k ≡ₚ table_values d B k)
     /\ (length (entries (B' (key_page key dD))) = bucket_size -> separable dD B' key)) s.
Proof.
  intros Hr Hfd Hfb Hpins Hun Hroom Hbud Hfull Hsep.
  pose proof (tr_hash _ _ _ _ Hr) as Hh. pose proof (hi_dir _ _ Hh) as Hd. pose proof (tr_ok _ _ _ _ Hr) as Hs.
  pose proof (separable_depth d B key Hh Hsep) as Hlt. destruct Hsep as [Hdepth (e & He & Hne)].
  set (i := key_index key d) in *. pose proof (index_range d key Hd) as Hi. fold i in Hi.
  set (dp := directory_page_id_ t) in *. set (bp := key_page key d) in *.
  pose proof (tr_sep _ _ _ _ Hr i Hi) as Hdb. change (dir_page d i) with bp in Hdb. fold dp in Hdb.
  pose proof (tr_bucket _ _ _ _ Hr i Hi) as Hbk. change (dir_page d i) with bp in Hbk.
  pose proof (hi_good _ _ Hh i Hi) as Hgood. change (dir_page d i) with bp in Hgood.
  assert (Hpd : is_Some (pins (view s) !! dp)) by (rewrite Hpins, lookup_insert_ne, lookup_insert_eq by done; by eexists).
  assert (Hpb : is_Some (pins (view s) !! bp)) by (rewrite Hpins, lookup_insert_eq; by eexists).
  destruct (split_dir_ok d i ig Hd Hi Hdepth Hlt) as (dA & dB & EA & EB & HwA & HwB & Hnew).
  set (spl := split_image i (global_depth_ d + 1)) in *. unfold Split_bucket.
  eapply (wp_upd_dir s fd dp); [done|exact Hfd|done|apply (tr_dir _ _ _ _ Hr)|exact EA|done|].
  intros s1 Hs1 Hat1 Hk1 Hp1 Hb1.
  pose proof (same_pins_step _ _ _ Hs1 Hk1 Hp1 Hb1) as Hsp1.
  eapply (wp_upd_dir s1 fd dp); [done|by apply (sp_holds _ _ Hsp1)|by rewrite Hp1|exact Hat1|exact EB|done|].
  intros s2 Hs2 Hat2 Hk2 Hp2 Hb2.
  pose proof (same_pins_trans _ _ _ Hsp1 (same_pins_step _ _ _ Hs2 Hk2 Hp2 Hb2)) as Hsp2.
  assert (Hev2 : evolves_in {[dp]} (view s) (view s2)).
  { eapply evolves_in_trans; (eapply keeps_evolves_in; [|eassumption]; intros q [= <-]; set_solver). }
  apply wp_bind. eapply wp_mono.
  { apply (NewPage_spec s2 n Hs2).
    - by apply (sp_budget _ _ Hsp2).
    - rewrite (sp_pins _ _ Hsp2), Hpins, (ei_frames _ _ _ Hev2).
      destruct Hun as [Hun1 Hun2]. rewrite !map_size_insert_None; [lia|done|].
      rewrite lookup_insert_ne by done. apply (Hun2 i Hi). }
  simpl. intros r s3 (np & fs & -> & Hs3 & Hsg & Hnl & Hl3 & Hnp & Hfs & Hz3 & Hk3 & Hp3 & Hb3).
  apply wp_bind, wp_ret.
  assert (Hnd : np <> dp) by (intros ->; apply Hnl, (ei_live _ _ _ Hev2); apply (tr_dir _ _ _ _ Hr)).
  assert (Hfresh : forall j, 0 <= j < dir_size d -> dir_page d j <> np).
  { intros j Hj E. apply Hnl. rewrite <- E. apply (ei_live _ _ _ Hev2). apply (tr_bucket _ _ _ _ Hr j Hj). }
  assert (Hnb : np <> bp) by (intros E; by apply (Hfresh i Hi)).
  destruct (Hnew np Hsg Hfresh) as (dC & dD & EC & ED & HwC & HwD & HdC & HgD & Hspl & HinvD & HpgD & HdpD).
  assert (Hsp3 : forall f q, is_Some (pins (view s) !! q) -> holds (view s) f q -> holds (view s3) f q).
  { intros f q Hq Hf. apply (keeps_holds _ _ _ Hk3); [by rewrite (sp_pins _ _ Hsp2)|by apply (sp_holds _ _ Hsp2)]. }
  assert (Hp3' : pins (view s3) = <[np := 1]> (pins (view s))) by (rewrite Hp3, (sp_pins _ _ Hsp2); done).
  assert (Hpin3 : forall q, q = dp \/ q = bp \/ q = np -> is_Some (pins (view s3) !! q)).
  { intros q Hq. rewrite Hp3', lookup_insert. case_decide as E; [by eexists|].
    destruct Hq as [->|[->| ->]]; [done|done|]. by destruct E. }
  set (X := {[dp; bp; np]} : gset Z).
  assert (Hev3 : evolves_in X (view s) (view s3)).
  { eapply evolves_in_trans; [eapply (keeps_evolves_in X (Some dp)); [|exact Hk1]; intros q [= <-]; set_solver|].
    eapply evolves_in_trans; [eapply (keeps_evolves_in X (Some dp)); [|exact Hk2]; intros q [= <-]; set_solver|].
    eapply (keeps_evolves_in X (Some np)); [|exact Hk3]; intros q [= <-]; set_solver. }
  assert (Hbk3 : bucket_at s3 bp (B bp)).
  { eapply bucket_at_keeps; [apply keeps_evolves, Hk3|congruence|]. eapply bucket_at_in; [exact Hev2|set_solver|done]. }
  assert (Hdir3 : dir_at s3 dp dB) by (eapply dir_at_keeps; [apply keeps_evolves, Hk3|congruence|done]).
  assert (Hnp3 : bucket_at s3 np Bucket_zero).
  { split; [done|]. exists zero_data. split; [done|]. apply bucket_zero. }
  eapply (wp_upd_dir s3 fd dp); [done|by apply Hsp3|by apply Hpin3; tauto|exact Hdir3|by rewrite EC|exact HwC|].
  intros s4 Hs4 Hdir4 Hk4 Hp4 Hb4.
  assert (Hbk4 : bucket_at s4 bp (B bp)) by (eapply bucket_at_keeps; [apply keeps_evolves, Hk4|congruence|done]).
  assert (Hnp4 : bucket_at s4 np Bucket_zero) by (eapply bucket_at_keeps; [apply keeps_evolves, Hk4|congruence|done]).
  assert (Hpin4 : forall q, q = dp \/ q = bp \/ q = np -> is_Some (pins (view s4) !! q)) by (rewrite Hp4; exact Hpin3).
  assert (Hfd4 : holds (view s4) fd dp) by (apply (keeps_holds _ _ _ Hk4); [apply Hpin3; tauto|by apply Hsp3]).
  assert (Hfb4 : holds (view s4) fb bp) by (apply (keeps_holds _ _ _ Hk4); [apply Hpin3; tauto|by apply Hsp3]).
  assert (Hfs4 : holds (view s4) fs np) by (apply (keeps_holds _ _ _ Hk4); [apply Hpin3; tauto|done]).
  eapply (wp_on_bucket s4 fb bp); [done|done|apply Hpin4; tauto|exact Hbk4|by apply NumReadable_ok, Hgood|].
  rewrite Hfull, bucket_size_Z. destruct (full_entries (B bp) (proj1 Hgood) Hfull) as [_ Hent].
  assert (Huniq : forall k, NoDup (values_at k (array_ (B bp)))).
  { intros k. rewrite <- Hent. apply (hi_uniq _ _ Hh i k Hi). }
  apply wp_bind. eapply wp_mono.
  { apply (Rehash_loop_wp fd fb fs dp bp np i (global_depth_ d + 1) spl dC (B bp) (Z.to_nat BUCKET_ARRAY_SIZE) 0 s4
             (B bp) Bucket_zero); try done; try (pose proof (inv_global _ Hd); lia); try congruence.
    - apply (dir_index d i Hd Hi).
    - by apply rehash_start. }
  simpl. intros _ s5 (Hsp5 & Hev5 & b2 & c2 & Hbk5 & Hnp5 & Hrh).
  destruct (rh_good _ _ _ _ _ _ Hrh) as [Hgb2 Hgc2].
  destruct (rehash_end _ _ _ _ _ Hrh (proj1 Hgood)) as [Hb2e Hc2e]. rewrite <- Hent in Hb2e, Hc2e.
  assert (Hp5 : pins (view s5) = <[np := 1]> (pins (view s))) by (by rewrite (sp_pins _ _ Hsp5), Hp4).
  apply (wp_unpin s5 np); [apply (sp_ok _ _ Hsp5)|by rewrite Hp5, lookup_insert_eq|by left|].
  intros s6 Hs6 Hk6 Hp6 Hb6.
  assert (Hmnp : pins (view s) !! np = None) by (by rewrite <- (sp_pins _ _ Hsp2)).
  assert (Hp6' : pins (view s6) = pins (view s)) by (rewrite Hp6, Hp5; by apply delete_insert_id).
  assert (Hfd6 : holds (view s6) fd dp).
  { apply (keeps_holds _ _ _ Hk6); [by rewrite Hp5, lookup_insert_ne|]. apply (sp_holds _ _ Hsp5); [apply Hpin4; tauto|done]. }
  assert (Hdir6 : dir_at s6 dp dC).
  { eapply dir_at_keeps; [apply keeps_evolves, Hk6|done|]. eapply dir_at_in; [exact Hev5|set_solver|done]. }
  eapply (wp_upd_dir s6 fd dp); [done|exact Hfd6|by rewrite Hp6'|exact Hdir6|by rewrite ED|exact HwD|].
  intros s7 Hs7 Hdir7 Hk7 Hp7 Hb7. apply wp_ret. split; [done|].
  assert (Hev7 : evolves_in X (view s) (view s7)).
  { eapply evolves_in_trans; [exact Hev3|].
    eapply evolves_in_trans; [eapply (keeps_evolves_in X (Some dp)); [|exact Hk4]; intros q [= <-]; set_solver|].
    eapply evolves_in_trans.
    { destruct Hev5 as [E1 E2 E3 E4]. split; [|exact E2|exact E3|]; intros q; intros; [apply E1|apply E4]; try done; set_solver. }
    eapply evolves_in_trans; [eapply (keeps_evolves_in X None); [|exact Hk6]; done|].
    eapply (keeps_evolves_in X (Some dp)); [|exact Hk7]; intros q [= <-]; set_solver. }
  assert (Hbk7 : bucket_at s7 bp b2).
  { eapply bucket_at_keeps; [apply keeps_evolves, Hk7|congruence|]. eapply bucket_at_keeps; [apply keeps_evolves, Hk6|done|done]. }
  assert (Hnp7 : bucket_at s7 np c2).
  { eapply bucket_at_keeps; [apply keeps_evolves, Hk7|congruence|]. eapply bucket_at_keeps; [apply keeps_evolves, Hk6|done|done]. }
  rewrite Hspl in *.
  assert (Hdbl : doubled d i np dD) by (by split).
  destruct (split_hash_inv d B i np dD b2 c2 Hh Hi Hdepth Hdbl Hfresh Hgb2 Hgc2 Hb2e Hc2e) as [HhD HvD].
  change (dir_page d i) with bp in HhD, HvD.
  destruct (split_key_bucket d B key np dD b2 c2 Hh Hdepth Hdbl Hfresh Hb2e Hc2e) as [HkD HkE].
  change (key_page key d) with bp in HkD, HkE.
  pose proof (doubled_size _ _ _ _ Hd Hdbl) as HszD.
  assert (Hj0 : forall j, 0 <= j < dir_size dD -> 0 <= j mod dir_size d < dir_size d).
  { intros j Hj. apply Z.mod_pos_bound. pose proof (dir_size_bound d (inv_global _ Hd)). lia. }
  exists dD, (set_bucket np c2 (set_bucket bp b2 B)). split_and!; try done.
  - split; [done|done|done|..]; intros j Hj; rewrite (HpgD j Hj); pose proof (Hj0 j Hj) as Hj1.
    + case_decide; [by rewrite set_bucket_eq|]. rewrite set_bucket_ne by (by apply Hfresh).
      destruct (decide (dir_page d (j mod dir_size d) = bp)) as [->|Hq]; [by rewrite set_bucket_eq|].
      rewrite set_bucket_ne by done. eapply bucket_at_in; [exact Hev7| |by apply (tr_bucket _ _ _ _ Hr)].
      pose proof (Hfresh _ Hj1). pose proof (tr_sep _ _ _ _ Hr _ Hj1). unfold X. set_solver.
    + case_decide; [done|by apply (tr_sep _ _ _ _ Hr)].
  - apply (keeps_holds _ _ _ Hk7); [by rewrite Hp6'|done].
  - congruence.
  - destruct Hun as [Hun1 Hun2]. split; [done|]. intros j Hj. rewrite (HpgD j Hj).
    case_decide; [|by apply Hun2, Hj0]. rewrite Hpins in Hmnp. by rewrite !lookup_insert_ne in Hmnp by done.
  - by rewrite (ei_frames _ _ _ Hev7).
  - apply Hb7, Hb6, (sp_budget _ _ Hsp5), Hb4. exact Hb3.
  - intros Hl. split; [done|]. exists e. split; [|done]. apply HkE; [by rewrite Hl|done].
Qed.
End Rehash.
