(* ===== verification/HashTableInsert.v ===== *)
(** Insertion into the extendible hash table, with its splits; the
    constructor; the operations that only look at the directory; a table as a
    set of entries, and rows of insertions that fill a bucket. *)

From S2P Require Import Prelude Bytes Bitmap HashBucketPage HashDirectoryPage BufferPoolManager ExtendibleHashTable HashTableCorrect HashTableSplit.

Section Insert.
Context `{Config} {S P D K V : Type} `{!BufferPoolManager S P D} `{!BufferPoolSpec S P D}
  `{!MappingType K V} `{!MappingOk K V} `{!HashFunction K} `{!HashFunctionOk K V}
  `{!HashPages D K V} `{!HashPagesOk D K V (good_data (S := S) (P := P)) (zero_data (S := S) (P := P))}.
Implicit Types (t : ExtendibleHashTable) (key : K) (value : V) (d : HashTableDirectoryPage)
  (b : HashTableBucketPage K V) (B : Z -> HashTableBucketPage K V) (s : S) (p : Z) (f : P) (m : gmap Z Z).

(** ** The loop of [SplitInsert] *)

(** Between two rounds only the directory page is pinned. *)
Record split_loop t s d B m (fd : P) (ig : bool) : Prop := {
  sl_rep : table_rep t s d B;
  sl_dir : holds (view s) fd (directory_page_id_ t);
  sl_pins : pins (view s) = <[directory_page_id_ t := 1]> m;
  sl_unpinned : unpinned t d m;
  sl_synced : ig = true \/ synced (view s) (directory_page_id_ t)
}.

(** What the loop leaves: the result [r] of the insertion and the table. *)
Definition split_done t d B m fd key value (n : nat) (r : bool * bool) s' : Prop :=
  exists d' B', split_loop t s' d' B' m fd r.2 /\ frames (view s') = n
    /\ (r.1 = true <-> value ∉ table_values d B key)
    /\ (forall k', table_values d' B' k' ≡ₚ (if r.1 then added key value k' else []) ++ table_values d B k').

Lemma split_loop_bucket t s d B m fd ig key (fb : P) s1 :
  split_loop t s d B m fd ig -> pool_ok s1 -> keeps None (view s) (view s1) ->
  pins (view s1) = <[key_page key d := 1]> (pins (view s)) ->
  table_rep t s1 d B /\ holds (view s1) fd (directory_page_id_ t)
  /\ pins (view s1) = <[key_page key d := 1]> (<[directory_page_id_ t := 1]> m)
  /\ (ig = true \/ synced (view s1) (directory_page_id_ t)).
Proof.
  intros [Hr Hfd Hp Hu Hy] Hs1 Hk Hp1. split_and!.
  - eapply rep_keeps; [exact Hr|done|by apply keeps_evolves].
  - apply (keeps_holds _ _ _ Hk); [|done]. rewrite Hp, lookup_insert_eq. by eexists.
  - by rewrite Hp1, Hp.
  - destruct Hy as [?|Hy]; [by left|right]. by apply (keeps_synced _ _ _ Hk).
Qed.

(** A round that ends the loop. *)
Lemma split_insert_now t s d B m fd fb ig key value :
  table_rep t s d B -> holds (view s) fd (directory_page_id_ t) -> holds (view s) fb (key_page key d) ->
  pins (view s) = <[key_page key d := 1]> (<[directory_page_id_ t := 1]> m) -> unpinned t d m ->
  (ig = true \/ synced (view s) (directory_page_id_ t)) -> storable (key, value) ->
  length (entries (B (key_page key d))) <> bucket_size ->
  wp (do! success := try_bucket fb (Bucket_Insert key value) in
      do! _ := UnpinPage (key_page key d) true in
      sret (success, ig)) (split_done t d B m fd key value (frames (view s))) s.
Proof.
  intros Hr Hfd Hfb Hp Hu Hy Hkv Hfull. pose proof (tr_hash _ _ _ _ Hr) as Hh. pose proof (tr_ok _ _ _ _ Hr) as Hs.
  pose proof (index_range d key (hi_dir _ _ Hh)) as Hi. pose proof (tr_sep _ _ _ _ Hr _ Hi) as Hsep.
  change (dir_page d (key_index key d)) with (key_page key d) in Hsep.
  set (dp := directory_page_id_ t) in *. set (bp := key_page key d) in *.
  assert (Hpb : pins (view s) !! bp = Some 1) by (by rewrite Hp, lookup_insert_eq).
  assert (Hmb : m !! bp = None) by by apply (proj2 Hu).
  assert (Hrest : forall B' s1 r, table_rep t s1 d B' -> holds (view s1) fd dp -> pins (view s1) = pins (view s) ->
    frames (view s1) = frames (view s) -> (ig = true \/ synced (view s1) dp) -> (r = true <-> value ∉ table_values d B key) ->
    (forall k', table_values d B' k' ≡ₚ (if r then added key value k' else []) ++ table_values d B k') ->
    wp (do! _ := UnpinPage bp true in sret (r, ig)) (split_done t d B m fd key value (frames (view s))) s1).
  { intros B' s1 r Hr1 Hfd1 Hp1 Hfr1 Hy1 Hres Hvals.
    apply (wp_unpin s1 bp); [apply (tr_ok _ _ _ _ Hr1)|by rewrite Hp1|by left|].
    intros s2 Hs2 Hk2 Hp2 Hb2. apply wp_ret. exists d, B'.
    split_and!; [|by rewrite (keeps_frames _ _ _ Hk2)|done|done]. split.
    - eapply rep_keeps; [exact Hr1|done|by apply keeps_evolves].
    - apply (keeps_holds _ _ _ Hk2); [|done]. rewrite Hp1, Hp, lookup_insert_ne, lookup_insert_eq by done. by eexists.
    - rewrite Hp2, Hp1, Hp. apply delete_insert_id. by rewrite lookup_insert_ne.
    - done.
    - destruct Hy1 as [?|Hy1]; [by left|right]. by apply (keeps_synced _ _ _ Hk2). }
  destruct (bucket_insert_cases _ key value (hi_good _ _ Hh _ Hi) Hkv Hfull) as [[Hv Hrun]|[Hv (b' & Hrun & Hb' & Hperm)]].
  - eapply wp_try_bucket_fail; [done|exact Hfb|by rewrite Hpb|by apply (tr_bucket _ _ _ _ Hr)|exact Hrun|].
    apply (Hrest B); try done.
  - destruct (insert_hash_inv d B b' key value Hh Hb' Hv Hperm) as [Hh' Hvals].
    eapply wp_try_bucket; [done|exact Hfb|by rewrite Hpb|by apply (tr_bucket _ _ _ _ Hr)|exact Hrun|done|].
    intros s1 Hs1 Hat1 Hk1 Hp1 Hb1. apply (Hrest (set_bucket bp b' B)); try done.
    + by apply (rep_set_bucket t s s1 d B _ b' Hr Hi Hs1 (keeps_evolves _ _ _ Hk1) Hat1).
    + apply (keeps_holds _ _ _ Hk1); [|done]. rewrite Hp, lookup_insert_ne, lookup_insert_eq by done. by eexists.
    + apply (keeps_frames _ _ _ Hk1).
    + destruct Hy as [?|Hy]; [by left|right]. apply (keeps_synced _ _ _ Hk1); [|done]. intros [= E]. by destruct Hsep.
Qed.

Lemma SplitInsert_loop_wp t key value fd m fuel s d B ig :
  split_loop t s d B m fd ig -> (size m + 3 <= frames (view s))%nat -> storable (key, value) ->
  budget (view s) (Z.to_nat (9 - global_depth_ d)) ->
  (length (entries (B (key_page key d))) = bucket_size -> separable d B key) ->
  (Z.to_nat (9 - global_depth_ d) < fuel)%nat ->
  wp (SplitInsert_loop fuel fd key value ig) (split_done t d B m fd key value (frames (view s))) s.
Proof.
  revert s d B ig. induction fuel as [|fuel IH]; intros s d B ig Hl Hroom Hkv Hbud Hsep Hfuel; [lia|].
  pose proof Hl as [Hr Hfd Hp Hu Hy]. pose proof (tr_hash _ _ _ _ Hr) as Hh. pose proof (hi_dir _ _ Hh) as Hd.
  pose proof (index_range d key Hd) as Hi. pose proof (tr_ok _ _ _ _ Hr) as Hs.
  pose proof (tr_sep _ _ _ _ Hr _ Hi) as Hdb. change (dir_page d (key_index key d)) with (key_page key d) in Hdb.
  assert (Hpd : is_Some (pins (view s) !! directory_page_id_ t)) by (rewrite Hp, lookup_insert_eq; by eexists).
  cbn [SplitInsert_loop].
  eapply wp_on_dir; [done|exact Hfd|done|apply (tr_dir _ _ _ _ Hr)|reflexivity|].
  eapply wp_on_dir; [done|exact Hfd|done|apply (tr_dir _ _ _ _ Hr)|by apply KeyToDirectoryIndex_ok|].
  eapply wp_on_dir; [done|exact Hfd|done|apply (tr_dir _ _ _ _ Hr)|by apply KeyToPageId_ok|].
  destruct (rep_page_live _ _ _ _ _ Hr Hi) as [Hlv Hx].
  apply (wp_fetch s (key_page key d)); [done|done|done| | |].
  { rewrite Hp, lookup_insert_ne by done. by apply (proj2 Hu). }
  { unfold room. rewrite Hp, map_size_insert_None by apply (proj1 Hu). lia. }
  intros fb s1 Hs1 Hfb Hk1 Hp1 _ Hb1.
  destruct (split_loop_bucket t s d B m fd ig key fb s1 Hl Hs1 Hk1 Hp1) as (Hr1 & Hfd1 & Hp1' & Hy1).
  eapply wp_on_bucket; [done|exact Hfb|by rewrite Hp1', lookup_insert_eq; eexists|by apply (tr_bucket _ _ _ _ Hr1)| |].
  { apply IsFull_ok. by apply (hi_good _ _ Hh). }
  change (dir_page d (key_index key d)) with (key_page key d).
  destruct (decide (length (entries (B (key_page key d))) = bucket_size)) as [Hfull|Hfull].
  2:{ rewrite bool_decide_eq_false_2 by done. rewrite <- (keeps_frames _ _ _ Hk1). by apply split_insert_now. }
  rewrite bool_decide_eq_true_2 by done. pose proof (separable_depth d B key Hh (Hsep Hfull)) as Hlt.
  apply wp_bind. eapply wp_mono.
  { apply (Split_bucket_wp t s1 d B key fd fb ig m (Z.to_nat (9 - (global_depth_ d + 1)))); try done.
    - by rewrite (keeps_frames _ _ _ Hk1).
    - apply Hb1. by replace (Datatypes.S (Z.to_nat (9 - (global_depth_ d + 1)))) with (Z.to_nat (9 - global_depth_ d)) by lia.
    - by apply Hsep. }
  simpl. intros r s2 (-> & dD & B' & Hr2 & Hfd2 & Hp2 & Hu2 & Hfr2 & Hb2 & Hg2 & Hv2 & Hsep2).
  apply (wp_unpin s2 (key_page key d)); [apply (tr_ok _ _ _ _ Hr2)|by rewrite Hp2, Hp1', lookup_insert_eq|by left|].
  intros s3 Hs3 Hk3 Hp3 Hb3. eapply wp_mono; [apply (IH s3 dD B' true)|].
  - split; [|..|done|by left].
    + eapply rep_keeps; [exact Hr2|done|by apply keeps_evolves].
    + apply (keeps_holds _ _ _ Hk3); [|done]. rewrite Hp2, Hp1', lookup_insert_ne, lookup_insert_eq by done. by eexists.
    + rewrite Hp3, Hp2, Hp1'. apply delete_insert_id. rewrite lookup_insert_ne by done. by apply (proj2 Hu).
  - by rewrite (keeps_frames _ _ _ Hk3), Hfr2, (keeps_frames _ _ _ Hk1).
  - done.
  - apply Hb3. by rewrite Hg2.
  - done.
  - rewrite Hg2. lia.
  - simpl. intros [r ig'] s4 (d' & B'' & Hl4 & Hf4 & Hres & Hvals). exists d', B''.
    split_and!; [done|by rewrite Hf4, (keeps_frames _ _ _ Hk3), Hfr2, (keeps_frames _ _ _ Hk1)| |].
    + rewrite Hres. by rewrite (Hv2 key).
    + intros k'. by rewrite Hvals, Hv2.
Qed.

Lemma SplitInsert_wp t s d B key value :
  table_inv t s d B -> room 3 s -> storable (key, value) -> budget (view s) (Z.to_nat (9 - global_depth_ d)) ->
  (length (entries (B (key_page key d))) = bucket_size -> separable d B key) ->
  wp (HashTable_SplitInsert t key value) (insert_result t d B s key value) s.
Proof.
  intros Hinv Hroom Hkv Hbud Hsep. pose proof Hinv as [Hr Hu]. pose proof (tr_ok _ _ _ _ Hr) as Hs.
  destruct (rep_dir_live _ _ _ _ Hr) as [Hl Hx]. pose proof (inv_global _ (hi_dir _ _ (tr_hash _ _ _ _ Hr))) as Hg.
  unfold room in Hroom. unfold HashTable_SplitInsert.
  apply (wp_fetch s (directory_page_id_ t)); [done|done|done|apply (proj1 Hu)|unfold room; lia|].
  intros fd s1 Hs1 Hfd Hk1 Hp1 Hy1 Hb1. apply wp_bind. eapply wp_mono.
  { apply (SplitInsert_loop_wp t key value fd (pins (view s)) split_fuel s1 d B false); try done.
    - split; [eapply rep_keeps; [exact Hr|done|by apply keeps_evolves]|done|done|done|by right].
    - by rewrite (keeps_frames _ _ _ Hk1).
    - by apply Hb1.
    - unfold split_fuel. lia. }
  simpl. intros [r ig] s2 (d' & B' & Hl2 & Hf2 & Hres & Hvals). cbn [fst snd] in *.
  apply (wp_unpin s2 (directory_page_id_ t)); [apply (tr_ok _ _ _ _ (sl_rep _ _ _ _ _ _ _ Hl2))| |apply (sl_synced _ _ _ _ _ _ _ Hl2)|].
  { by rewrite (sl_pins _ _ _ _ _ _ _ Hl2), lookup_insert_eq. }
  intros s3 Hs3 Hk3 Hp3 Hb3. apply wp_ret. exists d', B'.
  assert (Hp3' : pins (view s3) = pins (view s)).
  { rewrite Hp3, (sl_pins _ _ _ _ _ _ _ Hl2). apply delete_insert_id. apply (proj1 Hu). }
  split_and!; [|done|done|done|by rewrite (keeps_frames _ _ _ Hk3), Hf2, (keeps_frames _ _ _ Hk1)].
  split; [|rewrite Hp3'; apply (sl_unpinned _ _ _ _ _ _ _ Hl2)].
  eapply rep_keeps; [apply (sl_rep _ _ _ _ _ _ _ Hl2)|done|by apply keeps_evolves].
Qed.

(** [Insert], on every branch. *)
Lemma Insert_wp t s d B key value :
  table_inv t s d B -> room 3 s -> storable (key, value) -> budget (view s) (Z.to_nat (9 - global_depth_ d)) ->
  (length (entries (B (key_page key d))) = bucket_size -> separable d B key) ->
  wp (HashTable_Insert t key value) (insert_result t d B s key value) s.
Proof.
  intros Hinv Hroom Hkv Hbud Hsep.
  destruct (decide (length (entries (B (key_page key d))) = bucket_size)) as [Hfull|Hfull].
  2:{ apply Insert_not_full_wp; try done. unfold room in *. lia. }
  destruct (inv_unpinned_key _ _ _ _ key Hinv) as (Hmd & Hmb & Hsp & Hi).
  unfold HashTable_Insert. eapply wp_open; [exact Hinv|unfold room in *; lia|].
  intros fd fb s1 [Hr1 Hk1 Hd1 Hf1 Hp1 Hyd1 Hyb1 Hb1].
  pose proof (tr_ok _ _ _ _ Hr1) as Hs1. pose proof (tr_hash _ _ _ _ Hr1) as Hh.
  eapply wp_on_bucket; [done|exact Hf1|by rewrite Hp1, lookup_insert_eq; eexists|by apply (tr_bucket _ _ _ _ Hr1)| |].
  { apply IsFull_ok. by apply (hi_good _ _ Hh). }
  rewrite bool_decide_eq_true_2 by done.
  apply (wp_close s1 (pins (view s))); [done|done|done|done|done|by right|by right|].
  intros s2 Hs2 Hk2 Hp2 Hb2. eapply wp_mono; [apply (SplitInsert_wp t s2 d B key value)|].
  - destruct Hinv as [_ Hu]. split; [by eapply rep_keeps|]. by rewrite Hp2.
  - unfold room in *. by rewrite Hp2, (ev_frames _ _ _ Hk2), (ev_frames _ _ _ Hk1).
  - done.
  - by apply Hb2, Hb1.
  - done.
  - simpl. intros r s3 (d' & B' & H1 & H2 & H3 & H4 & H5). exists d', B'.
    split_and!; [done|done|done|congruence|by rewrite H5, (ev_frames _ _ _ Hk2), (ev_frames _ _ _ Hk1)].
Qed.

(** ** The constructor *)

Lemma wp_new_page {C} s n (k : Z * P -> M S C) (Q : C -> S -> Prop) :
  pool_ok s -> budget (view s) (1 + n) -> room 1 s ->
  (forall p f s', pool_ok s' -> is_signed 32 p -> ~ live (view s) p -> pins (view s) !! p = None ->
     live (view s') p -> holds (view s') f p ->
     logical (view s') p = Some zero_data -> keeps (Some p) (view s) (view s') ->
     pins (view s') = <[p := 1]> (pins (view s)) -> budget (view s') n -> wp (k (p, f)) Q s') ->
  wp (do! r := NewPage in sbind (deref r) k) Q s.
Proof.
  intros Hs Hb Hr HQ. apply wp_bind. eapply wp_mono; [apply (NewPage_spec s n Hs Hb); unfold room in Hr; lia|].
  simpl. intros r s' (p & f & -> & Hs' & Hsg & Hnl & Hl & Hp & Hf & Hz & Hk & Hp' & Hb'). apply wp_bind, wp_ret.
  by apply HQ.
Qed.

(** The constructor's writes to the zeroed directory page. *)
Lemma initial_dir (dp b0 b1 : Z) :
  is_signed 32 b0 -> is_signed 32 b1 ->
  (let! d := Dir_SetBucketPageId 0 b0 Dir_zero in
   let! d := Dir_SetLocalDepth 0 1 d in
   let! d := Dir_SetBucketPageId 1 b1 d in
   let! d := Dir_SetLocalDepth 1 1 d in
   let d := Dir_IncrGlobalDepth d in
   Ok (tt, Dir_SetPageId dp d)) = Ok (tt, Dir_initial dp b0 b1).
Proof. intros _ _. reflexivity. Qed.

(** The table the constructor has built when it starts to unpin its pages. *)
Definition constructed (x : ExtendibleHashTable * Z * Z) s s' : Prop :=
  let '(t, b0, b1) := x in
  let d := Dir_initial (directory_page_id_ t) b0 b1 in
  table_rep t s' d (fun _ => Bucket_zero) /\ b0 <> b1
  /\ pins (view s) !! directory_page_id_ t = None /\ pins (view s) !! b0 = None /\ pins (view s) !! b1 = None
  /\ pins (view s') = <[b1 := 1]> (<[b0 := 1]> (<[directory_page_id_ t := 1]> (pins (view s))))
  /\ frames (view s') = frames (view s).

Lemma initial_entry (dp b0 b1 i : Z) : 0 <= i < dir_size (Dir_initial dp b0 b1) ->
  dir_page (Dir_initial dp b0 b1) i = b0 \/ dir_page (Dir_initial dp b0 b1) i = b1.
Proof.
  change (dir_size (Dir_initial dp b0 b1)) with 2. intros Hi.
  assert (i = 0 \/ i = 1) as [-> | ->] by lia; [by left|by right].
Qed.

Lemma initial_hash_inv (dp b0 b1 : Z) :
  is_signed 32 dp -> is_signed 32 b0 -> is_signed 32 b1 -> b0 <> b1 ->
  hash_inv (Dir_initial dp b0 b1) (fun _ => Bucket_zero (K := K) (V := V)).
Proof.
  intros H0 H1 H2 Hne. destruct bucket_zero_inv as [Hz He]. split.
  - by apply Dir_initial_inv.
  - intros i _. split; [done|]. apply Forall_replicate. apply storable_zero.
  - intros i e _. rewrite He. set_solver.
  - intros i key _. rewrite He. unfold values_at. simpl. apply NoDup_nil_2.
Qed.

Lemma init_wp s n :
  pool_ok s -> budget (view s) (3 + n) -> room 3 s ->
  wp HashTable_init (fun x s' => constructed x s s' /\ budget (view s') n) s.
Proof.
  intros Hs Hb Hr. unfold HashTable_init. unfold room in Hr.
  apply (wp_new_page s (2 + n)); [done|done|unfold room; lia|].
  intros dp fd s1 Hs1 Hsg1 Hn1 Hm1 Hl1 Hf1 Hz1 Hk1 Hp1 Hb1.
  assert (Hpd1 : is_Some (pins (view s1) !! dp)) by (rewrite Hp1, lookup_insert_eq; by eexists).
  apply wp_bind. unfold wp at 1. rewrite (GetData_spec s1 fd dp zero_data Hs1 Hf1 Hpd1 Hz1).
  apply (wp_new_page s1 (1 + n)); [done|done| |].
  { unfold room. rewrite Hp1, map_size_insert_None, (keeps_frames _ _ _ Hk1) by done. lia. }
  intros b0 f0 s2 Hs2 Hsg2 Hn2 Hm2 Hl2 Hf2 Hz2 Hk2 Hp2 Hb2.
  assert (Hne0 : b0 <> dp) by (intros ->; by apply Hn2).
  apply (wp_new_page s2 n); [done|done| |].
  { unfold room. rewrite Hp2, map_size_insert_None by done. rewrite Hp1, map_size_insert_None by done.
    rewrite (keeps_frames _ _ _ Hk2), (keeps_frames _ _ _ Hk1). lia. }
  intros b1 f1 s3 Hs3 Hsg3 Hn3 Hm3 Hl3 Hf3 Hz3 Hk3 Hp3 Hb3.
  assert (Hne1 : b1 <> dp) by (intros ->; apply Hn3; by apply (keeps_live _ _ _ Hk2)).
  assert (Hne2 : b1 <> b0) by (intros ->; by apply Hn3).
  assert (Hpd2 : is_Some (pins (view s2) !! dp)) by (by rewrite Hp2, lookup_insert_ne).
  assert (Hpd3 : is_Some (pins (view s3) !! dp)) by (by rewrite Hp3, lookup_insert_ne).
  assert (Hdir3 : dir_at s3 dp Dir_zero).
  { eapply dir_at_keeps; [apply keeps_evolves, Hk3|congruence|]. eapply dir_at_keeps; [apply keeps_evolves, Hk2|congruence|].
    split; [done|]. exists zero_data. split; [done|]. apply dir_zero. }
  assert (Hbk3 : forall q, q = b0 \/ q = b1 -> bucket_at s3 q Bucket_zero).
  { intros q [->| ->].
    - eapply bucket_at_keeps; [apply keeps_evolves, Hk3|congruence|]. split; [done|]. exists zero_data. split; [done|]. apply bucket_zero.
    - split; [done|]. exists zero_data. split; [done|]. apply bucket_zero. }
  assert (Hh : hash_inv (Dir_initial dp b0 b1) (fun _ => Bucket_zero)) by (apply initial_hash_inv; congruence).
  eapply (wp_upd_dir s3 fd dp); [done| |done|exact Hdir3|by apply initial_dir|apply (inv_wf _ (hi_dir _ _ Hh))|].
  { apply (keeps_holds _ _ _ Hk3); [done|]. apply (keeps_holds _ _ _ Hk2); [done|done]. }
  intros s4 Hs4 Hdir4 Hk4 Hp4 Hb4. apply wp_ret. split; [|by apply Hb4].
  unfold constructed. cbn [directory_page_id_]. rewrite Hp1 in Hm2. rewrite Hp2, Hp1 in Hm3.
  rewrite lookup_insert_ne in Hm2 by done. rewrite !lookup_insert_ne in Hm3 by done.
  split_and!; try done.
  - split; [done|done|done|..]; intros i [-> | ->]%initial_entry; cbn [directory_page_id_]; try done.
    + eapply bucket_at_keeps; [apply keeps_evolves, Hk4|congruence|apply Hbk3; tauto].
    + eapply bucket_at_keeps; [apply keeps_evolves, Hk4|congruence|apply Hbk3; tauto].
  - by rewrite Hp4, Hp3, Hp2, Hp1.
  - by rewrite (keeps_frames _ _ _ Hk4), (keeps_frames _ _ _ Hk3), (keeps_frames _ _ _ Hk2), (keeps_frames _ _ _ Hk1).
Qed.

(** Giving back the three pages of the constructor. *)
Lemma delete_constructed m (p b0 b1 : Z) :
  m !! p = None -> m !! b0 = None -> m !! b1 = None ->
  delete b1 (delete b0 (delete p (<[b1 := 1]> (<[b0 := 1]> (<[p := 1]> m))))) = m.
Proof.
  intros Hp H0 H1. apply map_eq. intros q. rewrite !lookup_delete, !lookup_insert. by repeat (case_decide; [by subst|]).
Qed.

(** The constructor unpins its two buckets as clean.  The contract of the pool
    allows this of pages that equal their disk copy, as new pages of a file
    that is zero where they lie do; see the findings for the others. *)
Lemma new_wp s n :
  pool_ok s -> budget (view s) (3 + n) -> room 3 s ->
  (forall t (b0 b1 : Z) s', HashTable_init s = Ok ((t, b0, b1), s') -> synced (view s') b0 /\ synced (view s') b1) ->
  wp HashTable_new (fun t s' => exists b0 b1 : Z, table_inv t s' (Dir_initial (directory_page_id_ t) b0 b1) (fun _ => Bucket_zero)
     /\ pins (view s') = pins (view s) /\ frames (view s') = frames (view s) /\ budget (view s') n) s.
Proof.
  intros Hs Hb Hr Hsync. pose proof (init_wp s n Hs Hb Hr) as Hw.
  apply wp_run in Hw as ([[t b0] b1] & s1 & Hrun & (Hr1 & Hne & Hmd & Hm0 & Hm1 & Hp1 & Hf1) & Hb1).
  destruct (Hsync _ _ _ _ Hrun) as [Hy0 Hy1]. unfold HashTable_new. apply wp_bind. unfold wp at 1. rewrite Hrun.
  assert (Hs0 : b0 <> directory_page_id_ t) by apply (tr_sep _ _ _ _ Hr1 0 ltac:(change (dir_size _) with 2; lia)).
  assert (Hs1 : b1 <> directory_page_id_ t) by apply (tr_sep _ _ _ _ Hr1 1 ltac:(change (dir_size _) with 2; lia)).
  apply (wp_unpin s1 (directory_page_id_ t)); [apply (tr_ok _ _ _ _ Hr1)| |by left|].
  { rewrite Hp1, !lookup_insert_ne by done. apply lookup_insert_eq. }
  intros s2 Hok2 Hk2 Hp2 Hb2. rewrite Hp1 in Hp2.
  apply (wp_unpin s2 b0); [done| |right; by apply (keeps_synced _ _ _ Hk2)|].
  { rewrite Hp2, lookup_delete_ne, lookup_insert_ne by done. apply lookup_insert_eq. }
  intros s3 Hok3 Hk3 Hp3 Hb3. rewrite Hp2 in Hp3.
  apply (wp_unpin s3 b1); [done| |right; apply (keeps_synced _ _ _ Hk3); [done|]; by apply (keeps_synced _ _ _ Hk2)|].
  { rewrite Hp3, !lookup_delete_ne by done. apply lookup_insert_eq. }
  intros s4 Hok4 Hk4 Hp4 Hb4. rewrite Hp3, delete_constructed in Hp4 by done. apply wp_ret. exists b0, b1.
  split_and!; [|done|by rewrite (keeps_frames _ _ _ Hk4), (keeps_frames _ _ _ Hk3), (keeps_frames _ _ _ Hk2)|by apply Hb4, Hb3, Hb2].
  split; [|rewrite Hp4; split; [done|]; intros i [-> | ->]%initial_entry; done].
  eapply rep_keeps; [exact Hr1|done|]. eapply evolves_trans; [apply keeps_evolves, Hk2|].
  eapply evolves_trans; by apply keeps_evolves.
Qed.

(** ** Looking at the directory *)

Lemma wp_dir_only {A C} t s d B (g : HashTableDirectoryPage -> res A) (h : A -> C) a :
  table_inv t s d B -> room 1 s -> g d = Ok a ->
  wp (do! dir_page := FetchDirectoryPage t in
      do! x := on_dir dir_page g in
      do! ok := UnpinPage (directory_page_id_ t) false in
      do! _ := lift (assert ok) in
      sret (h x)) (fun x s' => x = h a /\ table_inv t s' d B /\ pins (view s') = pins (view s)) s.
Proof.
  intros [Hr Hu] Hroom Hg. destruct (rep_dir_live _ _ _ _ Hr) as [Hl Hx]. pose proof (proj1 Hu) as Hmd.
  apply (wp_fetch s (directory_page_id_ t)); [apply (tr_ok _ _ _ _ Hr)|done|done|done|done|].
  intros fd s1 Hs1 Hfd Hk1 Hp1 Hy1 Hb1.
  pose proof (rep_keeps _ _ _ _ _ Hr Hs1 (keeps_evolves _ _ _ Hk1)) as Hr1.
  eapply wp_on_dir; [done|exact Hfd|by rewrite Hp1, lookup_insert_eq; eexists|apply (tr_dir _ _ _ _ Hr1)|exact Hg|].
  apply (wp_unpin s1 (directory_page_id_ t)); [done|by rewrite Hp1, lookup_insert_eq|by right|].
  intros s2 Hs2 Hk2 Hp2 Hb2. apply wp_bind, (wp_lift _ _ _ tt); [done|]. apply wp_ret.
  rewrite Hp1, delete_insert_id in Hp2 by done. split_and!; [done| |done]. split; [|by rewrite Hp2].
  eapply rep_keeps; [exact Hr1|done|by apply keeps_evolves].
Qed.
End Insert.

(** ** A hash table as a set of entries *)

(** Keys that compare equal are equal. *)
Class ExactMapping (K V : Type) `{!MappingType K V} : Prop := exact_mapping (k k' : K) : KeyComparator k k' = 0 -> k = k'.

Section Entries.
Context `{Config} {K V : Type} `{Countable K, Countable V} `{!MappingType K V} `{!MappingOk K V} `{!ExactMapping K V}
  `{!HashFunction K}.
Implicit Types (d : HashTableDirectoryPage) (B : Z -> HashTableBucketPage K V) (es : gset (K * V)) (key : K) (value : V).

Definition entry_set d B es : Prop := forall k v, (k, v) ∈ es <-> v ∈ table_values d B k.

Lemma elem_of_values_at k v (l : list (K * V)) : v ∈ values_at k l <-> (k, v) ∈ l.
Proof.
  unfold values_at, key_match. rewrite list_elem_of_fmap. split.
  - intros ([k' v'] & -> & [Hm%Z.eqb_eq He]%list_elem_of_filter). apply exact_mapping in Hm. simpl in Hm. by subst k'.
  - intros He. exists (k, v). split; [done|]. apply list_elem_of_filter. split; [|done]. simpl. by rewrite cmp_refl.
Qed.

Lemma NoDup_by_key (l : list (K * V)) : (forall k, NoDup (values_at k l)) -> NoDup l.
Proof.
  induction l as [|[k v] l IH]; intros Hn; constructor.
  - specialize (Hn k). rewrite values_at_cons in Hn. unfold key_match in Hn. simpl in Hn. rewrite cmp_refl in Hn. simpl in Hn.
    apply NoDup_cons in Hn as [Hn _]. by rewrite elem_of_values_at in Hn.
  - apply IH. intros k'. specialize (Hn k'). rewrite values_at_cons in Hn. destruct (key_match _ _); [by apply NoDup_cons in Hn as [_ ?]|done].
Qed.

Lemma added_exact key value k v : v ∈ added key value k <-> (k, v) = (key, value).
Proof.
  unfold added. destruct (Z.eqb_spec (KeyComparator k key) 0) as [E|E].
  - apply exact_mapping in E as ->. rewrite list_elem_of_singleton. naive_solver.
  - split; [by intros ?%not_elem_of_nil|]. intros [= -> ->]. destruct E. apply cmp_refl.
Qed.

(** The set after an insertion and after a removal. *)
Lemma entry_set_insert d B d' B' es key value (r : bool) :
  entry_set d B es -> (r = true <-> value ∉ table_values d B key) ->
  (forall k, table_values d' B' k ≡ₚ (if r then added key value k else []) ++ table_values d B k) ->
  entry_set d' B' ({[(key, value)]} ∪ es).
Proof.
  intros Hes Hres Hvals k v. rewrite elem_of_union, elem_of_singleton, (Hes k v), (Hvals k). destruct r.
  - by rewrite elem_of_app, added_exact.
  - cbn [app]. split; [|by right]. intros [[= -> ->]|]; [|done]. destruct (decide (value ∈ table_values d B key)) as [|Hn]; [done|].
    by apply Hres in Hn.
Qed.
End Entries.

Section Filling.
Context `{Config} {S P D K V : Type} `{!BufferPoolManager S P D} `{!BufferPoolSpec S P D} `{Countable K, Countable V}
  `{!MappingType K V} `{!MappingOk K V} `{!ExactMapping K V} `{!HashFunction K} `{!HashFunctionOk K V}
  `{!HashPages D K V} `{!HashPagesOk D K V (good_data (S := S) (P := P)) (zero_data (S := S) (P := P))}.
Implicit Types (t : ExtendibleHashTable) (key : K) (value : V) (d : HashTableDirectoryPage)
  (B : Z -> HashTableBucketPage K V) (s : S) (es : gset (K * V)).

Lemma entry_set_remove d B d' B' es key value (r : bool) :
  hash_inv d B -> entry_set d B es -> (r = true <-> value ∈ table_values d B key) ->
  (forall k, table_values d B k ≡ₚ (if r then added key value k else []) ++ table_values d' B' k) ->
  entry_set d' B' (es ∖ {[(key, value)]}).
Proof.
  intros Hh Hes Hres Hvals k v. rewrite elem_of_difference, elem_of_singleton, (Hes k v), (Hvals k).
  pose proof (hi_uniq _ _ Hh _ k (index_range d k (hi_dir _ _ Hh))) as Hn. fold (key_page k d) in Hn. fold (table_values d B k) in Hn.
  destruct r.
  - rewrite (Hvals k) in Hn. apply NoDup_app in Hn as (_ & Hdis & _). rewrite elem_of_app, added_exact. split.
    + intros [[?|?] Hne]; [done|done].
    + intros Hv. split; [by right|]. intros E%added_exact. by apply (Hdis v).
  - cbn [app]. split; [tauto|]. intros Hv. split; [done|]. intros [= -> ->]. rewrite (Hvals key) in Hres.
    by apply Hres in Hv.
Qed.

Lemma bucket_entry d B i e : hash_inv d B -> 0 <= i < dir_size d -> e ∈ entries (B (dir_page d i)) -> e.2 ∈ table_values d B e.1.
Proof.
  intros Hh Hi He. pose proof (hi_dir _ _ Hh) as Hd. pose proof (index_range d e.1 Hd) as Hk.
  assert (E : key_page e.1 d = dir_page d i).
  { apply (share_iff d i _ Hd Hi Hk). rewrite <- (hi_hash _ _ Hh i e Hi He). unfold key_index, dir_size.
    pose proof (inv_local _ Hd i Hi). apply mod_pow_le. lia. }
  unfold table_values. rewrite E. apply elem_of_values_at. by destruct e.
Qed.

Lemma bucket_distinct d B i : hash_inv d B -> 0 <= i < dir_size d -> NoDup (entries (B (dir_page d i))).
Proof. intros Hh Hi. apply NoDup_by_key. intros k. by apply (hi_uniq _ _ Hh). Qed.

(** No bucket holds more entries than the table. *)
Lemma bucket_sub d B es i : hash_inv d B -> entry_set d B es -> 0 <= i < dir_size d ->
  list_to_set (entries (B (dir_page d i))) ⊆ es.
Proof.
  intros Hh Hes Hi [k v] He%elem_of_list_to_set. apply Hes. exact (bucket_entry d B i (k, v) Hh Hi He).
Qed.

Lemma bucket_bound d B es i : hash_inv d B -> entry_set d B es -> 0 <= i < dir_size d ->
  (length (entries (B (dir_page d i))) <= size es)%nat.
Proof.
  intros Hh Hes Hi. rewrite <- (size_list_to_set (C := gset (K * V)) _ (bucket_distinct d B i Hh Hi)).
  by apply subseteq_size, bucket_sub.
Qed.

(** A full bucket of a table with no more entries than a bucket holds all. *)
Lemma bucket_all d B es i : hash_inv d B -> entry_set d B es -> 0 <= i < dir_size d ->
  (size es <= length (entries (B (dir_page d i))))%nat -> forall e, e ∈ es -> e ∈ entries (B (dir_page d i)).
Proof.
  intros Hh Hes Hi Hsz e He. pose proof (bucket_sub d B es i Hh Hes Hi) as Hsub.
  assert (E : list_to_set (entries (B (dir_page d i))) = es).
  { apply leibniz_equiv, set_subseteq_size_equiv; [done|]. by rewrite (size_list_to_set _ (bucket_distinct d B i Hh Hi)). }
  by rewrite <- E, elem_of_list_to_set in He.
Qed.

(** A row of insertions, as a client makes them. *)
Fixpoint insert_all t (l : list (K * V)) : M S unit :=
  match l with
  | [] => sret tt
  | (key, value) :: l => do! _ := HashTable_Insert t key value in insert_all t l
  end.

(** As many as one bucket has slots never split a bucket. *)
Lemma insert_all_wp t l : forall s d B es,
  table_inv t s d B -> room 2 s -> entry_set d B es -> Forall storable l -> (size es + length l <= bucket_size)%nat ->
  wp (insert_all t l) (fun _ s' => exists B', table_inv t s' d B' /\ entry_set d B' (list_to_set l ∪ es)
    /\ pins (view s') = pins (view s) /\ frames (view s') = frames (view s) /\ (forall n, budget (view s) n -> budget (view s') n)) s.
Proof.
  induction l as [|[key value] l IH]; intros s d B es Hi Hr Hes Hst Hsz; cbn [insert_all length list_to_set] in *.
  - apply wp_ret. exists B. split_and!; try done. by rewrite union_empty_l_L.
  - inversion Hst as [|? ? Hkv Hst']; subst. pose proof (tr_hash _ _ _ _ (proj1 Hi)) as Hh. apply wp_bind.
    eapply wp_mono; [apply (Insert_not_full_in t s d B key value Hi Hr Hkv)|].
    { pose proof (bucket_bound d B es _ Hh Hes (index_range d key (hi_dir _ _ Hh))). unfold key_page. lia. }
    intros r s1 (B1 & Hi1 & Hres & Hvals & Hp1 & Hst1). pose proof (stays_frames _ _ _ _ _ Hi Hst1) as Hf1. destruct Hst1 as [_ Hb1].
    pose proof (entry_set_insert d B d B1 es key value r Hes Hres Hvals) as Hes1.
    eapply wp_mono; [apply (IH s1 d B1 ({[(key, value)]} ∪ es)); try done|].
    + unfold room in *. congruence.
    + rewrite size_union_alt, size_singleton. pose proof (subseteq_size (es ∖ {[(key, value)]}) es ltac:(set_solver)). lia.
    + intros u s2 (B2 & Hi2 & Hes2 & Hp2 & Hf2 & Hb2). exists B2. split_and!; [done| |congruence|congruence|by intros n Hn; apply Hb2, Hb1].
      by rewrite (union_comm_L {[(key, value)]}), <- union_assoc_L.
Qed.
End Filling.
