(* ===== verification/HashPageLayout.v ===== *)
(** How the two page classes of the hash table lie in a page's memory
    ([src/include/storage/page/hash_table_directory_page.h],
    [src/include/storage/page/hash_table_bucket_page.h]), for any type of entries
    of a fixed size, and for keys and values of type [int].

    The members follow each other in declaration order; [array_] starts at the
    next multiple of 4.  The directory takes the first 2572 bytes.

    At the end, the pool on which the concrete tables are constructed. *)

From S2P Require Import Prelude Bytes Bitmap Replacer LRUReplacer DiskManager BufferPoolManager BufferPool BufferPoolCorrect HashBucketPage HashDirectoryPage ExtendibleHashTable HashTableCorrect.

(** ** Definitions *)

(** Reading [n] consecutive 4-byte words, and writing words. *)
Fixpoint words (n : nat) (m : bytes) : list Z :=
  match n with
  | O => []
  | S n => le_combine (take 4 m) :: words n (drop 4 m)
  end.

Fixpoint of_words (l : list Z) : bytes :=
  match l with
  | [] => []
  | z :: l => le_split 4 z ++ of_words l
  end.

Section Layout.
Context `{Config}.

Definition dir_bytes (d : HashTableDirectoryPage) : bytes :=
  le_split 4 (dir_page_id_ d) ++ le_split 4 (dir_lsn_ d) ++ le_split 4 (global_depth_ d)
  ++ local_depths_ d ++ of_words (bucket_page_ids_ d).

Definition Dir_of_page (m : bytes) : HashTableDirectoryPage :=
  MkDir (signed 32 (le_combine (take 4 m))) (signed 32 (le_combine (take 4 (drop 4 m))))
        (le_combine (take 4 (drop 8 m))) (take 512 (drop 12 m)) (signed 32 <$> words 512 (drop 524 m)).

Definition Dir_to_page (d : HashTableDirectoryPage) (m : bytes) : bytes := splice 0 (dir_bytes d) m.

End Layout.

(** How an entry of a bucket lies in memory. *)
Class EntryLayout (K V : Type) `{!MappingType K V} : Type := {
  entry_bytes : K * V -> bytes;
  entry_of_bytes : bytes -> K * V
}.
Definition entry_size {K V} `{!MappingType K V} : nat := Z.to_nat (sizeof_MappingType (K := K) (V := V)).

Fixpoint entries_of_bytes {K V} `{!MappingType K V} `{!EntryLayout K V} (n : nat) (m : bytes) : list (K * V) :=
  match n with
  | O => []
  | S n => entry_of_bytes (take (entry_size (K := K) (V := V)) m) :: entries_of_bytes n (drop (entry_size (K := K) (V := V)) m)
  end.

Section BucketLayout.
Context `{Config} {K V : Type} `{!MappingType K V} `{!EntryLayout K V}.

Definition num_chars_nat : nat := Z.to_nat (GetNumofChars (K := K) (V := V)).
Definition array_size : nat := bucket_size (K := K) (V := V).
Definition array_offset : nat := Z.to_nat ((2 * GetNumofChars (K := K) (V := V) + 3) / 4 * 4).

Definition Bucket_of_page (m : bytes) : HashTableBucketPage K V :=
  MkBucket (take num_chars_nat m) (take num_chars_nat (drop num_chars_nat m)) (entries_of_bytes array_size (drop array_offset m)).

Definition Bucket_to_page (b : HashTableBucketPage K V) (m : bytes) : bytes :=
  splice array_offset (mjoin (entry_bytes <$> array_ b)) (splice 0 (occupied_ b ++ readable_ b) m).

#[export] Instance page_layout : HashPages bytes K V := {|
  as_dir := Dir_of_page;
  put_dir := Dir_to_page;
  as_bucket := Bucket_of_page;
  put_bucket := Bucket_to_page
|}.
End BucketLayout.

(** Pairs of [int]s: two words. *)
#[export] Instance int_layout : EntryLayout Z Z := {
  entry_bytes e := le_split 4 e.1 ++ le_split 4 e.2;
  entry_of_bytes m := (signed 32 (le_combine (take 4 m)), signed 32 (le_combine (take 4 (drop 4 m))))
}.

(** [HashFunction<int>] for which the hash is the key: the table's code only
    uses its low 32 bits. *)
#[export] Instance identity_hash : HashFunction Z := fun key => key.

(** ** Lemmas *)

Lemma of_words_length l : length (of_words l) = (4 * length l)%nat.
Proof. induction l as [|z l IH]; [done|]. cbn [of_words length]. rewrite length_app, le_split_length, IH. lia. Qed.

Lemma words_of_words l rest : words (length l) (of_words l ++ rest) = unsigned 32 <$> l.
Proof.
  induction l as [|z l IH]; [done|]. cbn [length of_words words fmap list_fmap]. rewrite <- app_assoc.
  rewrite take_app_length' by done. rewrite drop_app_length' by done.
  by rewrite IH, le_combine_split_u32.
Qed.

Lemma signed_words l : Forall (is_signed 32) l -> signed 32 <$> (unsigned 32 <$> l) = l.
Proof.
  induction 1 as [|z l Hz _ IH]; [done|]. rewrite !fmap_cons, IH, signed_unsigned, signed_id by (done || lia). done.
Qed.

Definition int_entry (e : Z * Z) : Prop := is_signed 32 e.1 /\ is_signed 32 e.2.

Lemma le_split_u32 z : is_unsigned 32 z -> le_combine (le_split 4 z) = z.
Proof. intros. rewrite le_combine_split_u32. by apply unsigned_id. Qed.

Lemma le_split_i32 z : is_signed 32 z -> signed 32 (le_combine (le_split 4 z)) = z.
Proof. intros. rewrite le_combine_split_u32, signed_unsigned by lia. apply signed_id; [lia|done]. Qed.

(** Entries whose layout reads back. *)
Definition sound_entry {K V} `{!MappingType K V} `{!EntryLayout K V} (e : K * V) : Prop :=
  length (entry_bytes e) = entry_size (K := K) (V := V) /\ entry_of_bytes (entry_bytes e) = e.

Lemma int_entry_sound e : int_entry e -> sound_entry e.
Proof.
  intros [H1 H2]. split; cbn [entry_bytes entry_of_bytes int_layout]; [by rewrite length_app, !le_split_length|].
  rewrite take_app_length', drop_app_length' by done. rewrite take_ge by done. rewrite !le_split_i32 by done. by destruct e.
Qed.

Section Entries.
Context {K V : Type} `{!MappingType K V} `{!EntryLayout K V}.
Implicit Types l : list (K * V).

Lemma entries_length l : Forall sound_entry l -> length (mjoin (entry_bytes <$> l)) = (entry_size (K := K) (V := V) * length l)%nat.
Proof.
  induction 1 as [|e l [He _] _ IH]; [simpl; lia|]. change (mjoin (entry_bytes <$> e :: l)) with (entry_bytes e ++ mjoin (entry_bytes <$> l)).
  rewrite length_app, He, IH. simpl. lia.
Qed.

Lemma entries_read l rest : Forall sound_entry l -> entries_of_bytes (length l) (mjoin (entry_bytes <$> l) ++ rest) = l.
Proof.
  induction 1 as [|e l [He Hr] _ IH]; [done|]. change (mjoin (entry_bytes <$> e :: l)) with (entry_bytes e ++ mjoin (entry_bytes <$> l)).
  cbn [length entries_of_bytes]. rewrite <- app_assoc.
  rewrite take_app_length', drop_app_length' by done. by rewrite Hr, IH.
Qed.
End Entries.

Section Sound.
Context `{Config} (Hdir : 2572 <= PAGE_SIZE).

Definition page_good (m : bytes) : Prop := Z.of_nat (length m) = PAGE_SIZE.

Lemma dir_bytes_length d : dir_wf d -> length (dir_bytes d) = 2572%nat.
Proof.
  intros Hw. unfold dir_bytes. rewrite !length_app, !le_split_length, of_words_length, (wf_depths _ Hw), (wf_pages _ Hw). done.
Qed.

Lemma Dir_layout d m : dir_wf d -> page_good m -> Dir_of_page (Dir_to_page d m) = d /\ page_good (Dir_to_page d m).
Proof using Hdir.
  intros Hw Hm. unfold page_good in *. pose proof (dir_bytes_length d Hw) as Hl. split.
  2:{ unfold Dir_to_page. rewrite splice_length; lia. }
  unfold Dir_to_page, splice. rewrite take_0, app_nil_l. unfold dir_bytes. set (rest := drop _ m). clearbody rest.
  pose proof (wf_depths _ Hw) as H1. pose proof (wf_pages _ Hw) as H2. change (Z.to_nat DIRECTORY_ARRAY_SIZE) with 512%nat in *.
  pose proof (fun z => le_split_length 4 z) as H4.
  destruct d as [pid lsn g ld bp]; cbn [dir_page_id_ dir_lsn_ global_depth_ local_depths_ bucket_page_ids_] in *.
  unfold Dir_of_page. rewrite <- !app_assoc.
  rewrite take_app_length' by done.
  assert (E8 : forall l : bytes, drop 8 l = drop 4 (drop 4 l)) by (intros; by rewrite drop_drop).
  assert (E12 : forall l : bytes, drop 12 l = drop 4 (drop 4 (drop 4 l))) by (intros; by rewrite !drop_drop).
  assert (E524 : forall l : bytes, drop 524 l = drop 512 (drop 4 (drop 4 (drop 4 l)))) by (intros; by rewrite !drop_drop).
  rewrite E524, E12, E8, !drop_app_length' by done.
  rewrite !take_app_length' by done. rewrite <- H2 at 1. rewrite words_of_words.
  rewrite signed_words by apply (wf_page_ints _ Hw). f_equal.
  - apply le_split_i32, (wf_page_id _ Hw).
  - apply le_split_i32, (wf_lsn _ Hw).
  - apply le_split_u32, (wf_global _ Hw).
Qed.

End Sound.

Section BucketSound.
Context `{Config} {K V : Type} `{!MappingType K V} `{!EntryLayout K V}.
Notation array_offset := (array_offset (K := K) (V := V)).
Notation num_chars_nat := (num_chars_nat (K := K) (V := V)).
Notation array_size := (array_size (K := K) (V := V)).
Hypothesis (Hbucket : (array_offset + entry_size (K := K) (V := V) * array_size <= Z.to_nat PAGE_SIZE)%nat).

Lemma array_offset_bound : (2 * num_chars_nat <= array_offset)%nat.
Proof.
  unfold num_chars_nat, array_offset. pose proof (Z.div_mod (2 * GetNumofChars (K := K) (V := V) + 3) 4 ltac:(lia)).
  pose proof (Z.mod_pos_bound (2 * GetNumofChars (K := K) (V := V) + 3) 4 ltac:(lia)). lia.
Qed.

Lemma Bucket_layout (b : HashTableBucketPage K V) m : bucket_inv b -> Forall sound_entry (array_ b) -> page_good m ->
  Bucket_of_page (Bucket_to_page b m) = b /\ page_good (Bucket_to_page b m).
Proof using Hbucket.
  intros Hb He Hm. unfold page_good in *. pose proof array_offset_bound as Ho.
  destruct (bkt_occupied _ Hb) as [_ H1]. destruct (bkt_readable _ Hb) as [_ H2]. pose proof (bkt_array _ Hb) as H3.
  fold num_chars_nat in H1, H2. fold array_size in H3. destruct b as [occ rd arr]; cbn [array_ occupied_ readable_] in *.
  pose proof (entries_length arr He) as Hl. set (body := mjoin (entry_bytes <$> arr)) in *.
  change (length arr = array_size) in H3. rewrite H3 in Hl.
  assert (Hlm : length (splice 0 (occ ++ rd) m) = length m) by (apply splice_length; rewrite length_app; lia).
  unfold Bucket_to_page. cbn [array_ occupied_ readable_]. fold body. split; [|rewrite splice_length; lia].
  unfold Bucket_of_page, splice at 1 3 5.
  set (m0 := splice 0 (occ ++ rd) m) in *.
  assert (Hpre : take (2 * num_chars_nat) m0 = occ ++ rd).
  { unfold m0, splice. rewrite take_0, app_nil_l. apply take_app_length'. rewrite length_app. lia. }
  assert (Htake : forall rest, take num_chars_nat (take array_offset m0 ++ rest) = occ
    /\ take num_chars_nat (drop num_chars_nat (take array_offset m0 ++ rest)) = rd).
  { intros rest.
    assert (E : take (2 * num_chars_nat) (take array_offset m0 ++ rest) = occ ++ rd).
    { rewrite take_app_le by (rewrite length_take; lia). by rewrite take_take, Nat.min_l by lia. }
    split.
    - replace num_chars_nat with (num_chars_nat `min` (2 * num_chars_nat))%nat at 1 by lia.
      rewrite <- take_take, E. by rewrite take_app_length'.
    - rewrite take_drop_commute.
      replace (num_chars_nat + num_chars_nat)%nat with (2 * num_chars_nat)%nat by lia.
      rewrite E. by rewrite drop_app_length'. }
  destruct (Htake (body ++ drop (array_offset + length body) m0)) as [-> ->].
  rewrite drop_app_length' by (rewrite length_take; lia). rewrite <- H3. unfold body. by rewrite entries_read.
Qed.
End BucketSound.

(** ** The layout for the course's constants *)

Lemma course_fits : (array_offset (K := Z) (V := Z) + entry_size (K := Z) (V := Z) * array_size (K := Z) (V := Z) <= Z.to_nat PAGE_SIZE)%nat.
Proof. apply Nat.leb_le. by vm_compute. Qed.

#[export] Instance int_mapping_course : MappingOk Z Z.
Proof. by apply int_mapping_ok. Qed.

#[export] Instance identity_hash_ok : HashFunctionOk Z Z.
Proof. by intros k k' ->%IntComparator_eq. Qed.

#[export] Program Instance course_layout_ok :
    HashPagesOk bytes Z Z (good_data (S := BPI bytes LRUReplacer DiskManager) (P := Z))
      (zero_data (S := BPI bytes LRUReplacer DiskManager) (P := Z)) := {|
  storable := int_entry
|}.
Next Obligation. intros d x Hd Hx. by apply Dir_layout. Qed.
Next Obligation. intros b x Hb He Hx. apply Bucket_layout; [apply course_fits|done| |done]. eapply Forall_impl; [exact He|]. apply int_entry_sound. Qed.
Next Obligation. by vm_compute. Qed.
Next Obligation. by vm_compute. Qed.
Next Obligation. by split. Qed.

(** ** A pool for the constructor of a table *)

Section Start.
Notation pool := (BPI bytes LRUReplacer DiskManager).

(** A pool of [n] frames over a database file of three zero pages, as one that
    was allocated before: a new page of such a pool equals its disk copy. *)
Definition zero_pool (n : nat) : res pool :=
  BPI_new n 1 0 (LRUReplacer_new n) (DiskManager_new (replicate (Z.to_nat (3 * PAGE_SIZE)) 0) []).

Lemma zero_pool_inv n :
  exists b : pool, zero_pool n = Ok b /\ pool_ok b /\ pins (view b) = ∅ /\ frames (view b) = n
    /\ forall k, Z.of_nat k <= 10000 -> budget (view b) k.
Proof.
  destruct (BPI_new_inv n 1 0 (LRUReplacer_new n) (DiskManager_new (replicate (Z.to_nat (3 * PAGE_SIZE)) 0) []) : _)
    as (b & Hb & Hi & Hp & Hn & Hu).
  - lia.
  - lia.
  - cbn [disk_ok DiskManager_spec db_io_ DiskManager_new]. rewrite length_replicate. simpl. lia.
  - apply page_zero_ok.
  - apply lru_new_inv.
  - done.
  - simpl. by rewrite length_replicate.
  - exists b. split; [done|]. split; [done|]. split; [done|]. split; [|intros k Hk; split].
    + revert Hb. unfold BPI_new. simpl. by intros [= <-].
    + rewrite Hn, Hu. simpl. lia.
    + intros i Hi'. rewrite Hn, Hu. split; simpl; lia.
Qed.

(** Whether a page equals its disk copy, and whether the buckets of a table do
    when the constructor starts to unpin its pages. *)
Definition same_as_disk (b : pool) (p : Z) : bool :=
  match pool_logical b p, stored (disk_manager_ b) p with Some x, Some y => bool_decide (x = y) | _, _ => false end.
Definition buckets_saved (r : res (ExtendibleHashTable * Z * Z * pool)) : bool :=
  match r with Ok ((_, b0, b1), b) => same_as_disk b b0 && same_as_disk b b1 | Err _ => false end.

Lemma same_as_disk_synced b p : same_as_disk b p = true -> synced (view b) p.
Proof.
  unfold same_as_disk. destruct (pool_logical b p) as [x|] eqn:E1; [|done]. destruct (stored _ p) as [y|] eqn:E2; [|done].
  intros ->%bool_decide_eq_true. by exists y.
Qed.

Lemma buckets_saved_synced m (s : pool) : buckets_saved (m s) = true ->
  forall t (b0 b1 : Z) s', m s = Ok ((t, b0, b1), s') -> synced (view s') b0 /\ synced (view s') b1.
Proof.
  intros Hs t b0 b1 s' E. rewrite E in Hs. apply andb_true_iff in Hs as [H0 H1]. by split; apply same_as_disk_synced.
Qed.
End Start.
