(* ===== verification/HashTableProperties.v ===== *)
(** The theorems about the extendible hash table, over any buffer pool that
    keeps its contract, with witnesses on a table over a fresh pool. *)

From S2P Require Import Prelude Bytes Bitmap Replacer LRUReplacer DiskManager BufferPoolManager BufferPool BufferPoolCorrect HashBucketPage HashDirectoryPage ExtendibleHashTable HashTableCorrect HashTableSplit HashTableInsert HashPageLayout.

(** ** A split that does not grow the directory *)

Section NoGrowth.
Implicit Types d : HashTableDirectoryPage.

Lemma split_no_growth_dir d i p :
  dir_inv d -> 0 <= i < dir_size d -> dir_depth d i < global_depth_ d -> is_signed 32 p ->
  let l := dir_depth d i in
  let s := split_image i (l + 1) in
  exists d1 d2, Split_grow i false d = Ok (false, d) /\ Split_image i d = Ok (s, d1) /\ Split_link i s p d1 = Ok d2
    /\ Split_redirect (global_depth_ d) s d2 = Ok d2 /\ dir_wf d2 /\ global_depth_ d2 = global_depth_ d
    /\ 0 <= s < dir_size d
    /\ (forall j, 0 <= j -> dir_page d2 j = if decide (j = s) then p else dir_page d j)
    /\ (forall j, 0 <= j -> dir_depth d2 j = if decide (j = s \/ j = i) then l + 1 else dir_depth d j).
Proof.
  intros Hd Hi Hlt Hp l s. pose proof (inv_wf _ Hd) as Hw. pose proof (inv_global _ Hd) as Hg.
  pose proof (inv_local _ Hd i Hi) as Hl. fold l in Hl, Hlt. pose proof (dir_index d i Hd Hi) as Hi5.
  destruct (split_image_facts i (l + 1)) as (Hs & _); [lia|lia|]. fold s in Hs.
  assert (Hsz : 2 ^ (l + 1) <= dir_size d) by (apply Z.pow_le_mono_r; lia).
  pose proof (dir_size_bound d Hg) as Hszb. unfold DIRECTORY_ARRAY_SIZE in *.
  assert (Hs5 : 0 <= s < DIRECTORY_ARRAY_SIZE) by (unfold DIRECTORY_ARRAY_SIZE; lia).
  assert (Hb1 : is_byte (l + 1)) by (unfold is_byte; lia).
  destruct (SetLocalDepth_ok d Hw i Hi5 _ Hb1) as (d1 & E1 & Hw1 & Hg1 & _ & Hp1 & Hl1).
  destruct (SetBucketPageId_ok d1 Hw1 s Hs5 p Hp) as (d' & E' & Hw' & Hg' & _ & Hp' & Hl').
  destruct (SetLocalDepth_ok d' Hw' s Hs5 _ Hb1) as (d2 & E2 & Hw2 & Hg2 & _ & Hp2 & Hl2).
  assert (Hli : dir_depth d1 i = l + 1) by (rewrite Hl1 by lia; by rewrite decide_True).
  exists d1, d2. split_and!; [| | | |done|congruence|lia|lia|..].
  - unfold Split_grow. destruct (GetLocalDepth_ok d Hw i Hi5) as [-> _]. cbn [rbind]. fold l.
    unfold Dir_GetGlobalDepth. by rewrite (proj2 (Z.eqb_neq _ _)) by lia.
  - unfold Split_image, Dir_IncrLocalDepth. destruct (GetLocalDepth_ok d Hw i Hi5) as [-> _]. cbn [rbind]. fold l.
    rewrite E1. cbn [rbind]. rewrite (SplitImage_ok d1 Hw1 i Hi5) by (rewrite Hli; lia). by rewrite Hli.
  - unfold Split_link. rewrite E'. cbn [rbind]. destruct (GetLocalDepth_ok d' Hw' i Hi5) as [-> _]. cbn [rbind].
    by rewrite Hl', Hli.
  - unfold Split_redirect. rewrite Pow_ok by lia. cbn [rbind]. rewrite Size_ok by (rewrite Hg2, Hg', Hg1; lia).
    cbn [rbind]. replace (dir_size d2) with (2 ^ global_depth_ d) by (unfold dir_size; congruence).
    by rewrite Z.sub_diag.
  - intros j Hj. by rewrite Hp2, Hp', Hp1 by done.
  - intros j Hj. rewrite Hl2, Hl', Hl1 by done.
    destruct (decide (j = s)); [by rewrite decide_True by tauto|].
    destruct (decide (j = i)); [by rewrite decide_True by tauto|]. by rewrite decide_False by tauto.
Qed.
End NoGrowth.

(** C28: The directory steps of a split whose bucket has less than the full
    depth: the split image is linked to the new page, [is_growing] stays
    [false] although the directory has changed, and nothing is redirected.  If
    the bucket had two entries the shape is kept.  If it had more, another
    entry that agrees with the split image in the new depth still leads to the
    old page, so that the keys moved to the new page are not found through it,
    and [VerifyIntegrity] does not pass. *)
Theorem Split_without_growth (d : HashTableDirectoryPage) (i p : Z) :
  dir_inv d -> 0 <= i < dir_size d -> dir_depth d i < global_depth_ d -> is_signed 32 p ->
  (forall j, 0 <= j < dir_size d -> dir_page d j <> p) ->
  let l := dir_depth d i in
  let s := split_image i (l + 1) in
  exists d1 d2, Split_grow i false d = Ok (false, d) /\ Split_image i d = Ok (s, d1) /\ Split_link i s p d1 = Ok d2
    /\ Split_redirect (global_depth_ d) s d2 = Ok d2
    /\ dir_page d2 s = p /\ dir_page d s <> p
    /\ (l + 1 = global_depth_ d -> dir_inv d2)
    /\ (l + 1 < global_depth_ d -> Dir_VerifyIntegrity d2 <> Ok tt
        /\ exists j, 0 <= j < dir_size d2 /\ j mod 2 ^ (l + 1) = s /\ dir_page d2 j = dir_page d i).
Proof.
  intros Hd Hi Hlt Hp Hfresh l s. pose proof (inv_local _ Hd i Hi) as Hl. fold l in Hl.
  destruct (split_no_growth_dir d i p Hd Hi Hlt Hp) as (d1 & d2 & E1 & E2 & E3 & E4 & Hw2 & Hg2 & Hs & Hpg & Hdp).
  fold l in E2, E3, E4, Hs, Hpg, Hdp. fold s in E2, E3, E4, Hs, Hpg, Hdp.
  exists d1, d2. split_and!; [done|done|done|done|rewrite Hpg by lia; by rewrite decide_True|by apply Hfresh|..].
  - intros Hpair. apply (split_pair_inv d d2 i p Hd Hw2 Hi Hpair Hg2 Hfresh); intros j Hj; [apply Hpg|apply Hdp]; lia.
  - intros Hdeep. destruct (split_image_facts i (l + 1)) as (Hs' & Hlow & Hne & _); [lia|lia|]. fold s in Hs', Hlow, Hne.
    replace (l + 1 - 1) with l in Hlow by lia.
    assert (Hsz : dir_size d2 = dir_size d) by (unfold dir_size; congruence).
    assert (H2 : 2 ^ (l + 2) <= dir_size d) by (apply Z.pow_le_mono_r; lia).
    assert (E : 2 ^ (l + 2) = 2 ^ (l + 1) + 2 ^ (l + 1)).
    { replace (l + 2) with (l + 1 + 1) by lia. rewrite (Z.pow_add_r 2 (l + 1) 1) by lia. lia. }
    set (j := s + 2 ^ (l + 1)). assert (Hj : 0 <= j < dir_size d) by lia.
    assert (Hjm : j mod 2 ^ (l + 1) = s).
    { unfold j. replace (s + 2 ^ (l + 1)) with (s + 1 * 2 ^ (l + 1)) by lia. rewrite Z.mod_add by lia. by apply Z.mod_small. }
    assert (Hjs : j <> s) by lia.
    assert (Hji : j <> i) by (intros Ex; apply Hne; by rewrite <- Ex, Hjm).
    assert (His : i <> s) by (intros Hx; apply Hne; rewrite <- Hx; symmetry; apply Z.mod_small; lia).
    assert (Hpj : dir_page d2 j = dir_page d i).
    { rewrite Hpg by lia. rewrite decide_False by done. apply (share_iff d i j Hd Hi Hj). fold l.
      rewrite <- (mod_pow_le j l (l + 1)), Hjm by lia. done. }
    split; [|exists j; split_and!; [lia|lia|done|done]].
    intros Hv%(VerifyIntegrity_ok d2 Hw2); [|rewrite Hg2; apply (inv_global _ Hd)].
    pose proof (int_same _ Hv i j ltac:(lia) ltac:(lia)) as Hx.
    rewrite Hpj in Hx. rewrite Hpg in Hx by lia. rewrite decide_False in Hx by done. specialize (Hx eq_refl).
    rewrite !Hdp in Hx by lia. rewrite decide_True in Hx by tauto. rewrite decide_False in Hx by tauto.
    pose proof (inv_same _ Hd i j Hi Hj) as Hy. rewrite Hpg in Hpj by lia. rewrite decide_False in Hpj by done.
    specialize (Hy (eq_sym Hpj)). fold l in Hy. lia.
Qed.

(** ** The operations *)

Section Properties.
Context `{Config} {S P D K V : Type} `{!BufferPoolManager S P D} `{!BufferPoolSpec S P D}
  `{!MappingType K V} `{!MappingOk K V} `{!HashFunction K} `{!HashFunctionOk K V}
  `{!HashPages D K V} `{!HashPagesOk D K V (good_data (S := S) (P := P)) (zero_data (S := S) (P := P))}.
Implicit Types (t : ExtendibleHashTable) (key : K) (value : V) (d : HashTableDirectoryPage)
  (B : Z -> HashTableBucketPage K V) (s : S).

(** C24: [GetValue] on a table at rest with two frames free appends the values
    stored under the key to [result], reports whether the result is not empty,
    and leaves the table as it was with no page pinned. *)
Theorem HashTable_GetValue_correct t s d B key (result : list V) :
  table_inv t s d B -> room 2 s ->
  exists s', HashTable_GetValue t key result s
      = Ok ((negb (Nat.eqb (length (result ++ table_values d B key)) 0), result ++ table_values d B key), s')
    /\ table_inv t s' d B /\ pins (view s') = pins (view s).
Proof.
  intros Hi Hr. pose proof (GetValue_wp t s d B key result Hi Hr) as Hw.
  apply wp_run in Hw as (r & s' & Hrun & -> & Hi' & _ & Hp & _). by exists s'.
Qed.

(** C1: [Insert] of a pair, when the key's bucket has a free slot, or is full but
    has the directory's full depth and an entry that differs from the key in the
    nine hash bits a directory can use (a full bucket of a lower depth may lose
    keys to its split: [Split_without_growth]): it returns [true] exactly when
    the value was not stored under the key, in which case the pair and nothing
    else is added to the table, and leaves the table well formed with no page
    pinned.  The bucket may be split, and the directory doubled, up to eight
    times. *)
Theorem HashTable_Insert_correct t s d B key value :
  table_inv t s d B -> room 3 s -> storable (key, value) -> budget (view s) (Z.to_nat (9 - global_depth_ d)) ->
  (length (entries (B (key_page key d))) = bucket_size -> separable d B key) ->
  exists r s' d' B', HashTable_Insert t key value s = Ok (r, s') /\ table_inv t s' d' B'
    /\ (r = true <-> value ∉ table_values d B key)
    /\ (forall k, table_values d' B' k ≡ₚ (if r then added key value k else []) ++ table_values d B k)
    /\ pins (view s') = pins (view s).
Proof.
  intros Hi Hr Hst Hb Hsep. pose proof (Insert_wp t s d B key value Hi Hr Hst Hb Hsep) as Hw.
  apply wp_run in Hw as (r & s' & Hrun & d' & B' & H1 & H2 & H3 & H4 & _). by exists r, s', d', B'.
Qed.

(** C18: [Remove] of a pair: it returns [true] exactly when the pair was there,
    in which case it and nothing else is removed; an emptied bucket sends every
    mergeable empty bucket through [Merge], which ends, keeps the shape of the
    directory and loses no entry. *)
Theorem HashTable_Remove_correct t s d B key value :
  table_inv t s d B -> room 2 s ->
  exists r s' d' B', HashTable_Remove t key value s = Ok (r, s') /\ table_inv t s' d' B'
    /\ (r = true <-> value ∈ table_values d B key)
    /\ (forall k, table_values d B k ≡ₚ (if r then added key value k else []) ++ table_values d' B' k)
    /\ pins (view s') = pins (view s).
Proof.
  intros Hi Hr. pose proof (Remove_wp t s d B key value Hi Hr) as Hw.
  apply wp_run in Hw as (r & s' & Hrun & d' & B' & H1 & H2 & H3 & H4 & _). by exists r, s', d', B'.
Qed.

(** what the constructor has built before it unpins its pages: a directory
    of global depth 1 over two distinct empty buckets, three pages pinned once.
    (It then unpins the buckets as clean, which the contract of the pool allows
    only for pages that equal their disk copy; see the findings.) *)
Theorem HashTable_init_correct s (n : nat) :
  pool_ok s -> budget (view s) (3 + n) -> room 3 s ->
  exists t b0 b1 s', HashTable_init s = Ok ((t, b0, b1), s')
    /\ table_rep t s' (Dir_initial (directory_page_id_ t) b0 b1) (fun _ => Bucket_zero) /\ b0 <> b1
    /\ pins (view s') = <[b1 := 1]> (<[b0 := 1]> (<[directory_page_id_ t := 1]> (pins (view s))))
    /\ forall key, table_values (Dir_initial (directory_page_id_ t) b0 b1) (fun _ => Bucket_zero) key = [].
Proof.
  intros Hs Hb Hr. pose proof (init_wp s n Hs Hb Hr) as Hw.
  apply wp_run in Hw as ([[t b0] b1] & s' & Hrun & (H1 & H2 & _ & _ & _ & H3 & _) & _).
  exists t, b0, b1, s'. split_and!; [done|done|done|done|]. intros key. unfold table_values.
  destruct bucket_zero_inv as [_ ->]. done.
Qed.

(** on a table at rest [VerifyIntegrity] passes and [GetGlobalDepth] reads
    the depth; neither changes the table. *)
Theorem HashTable_VerifyIntegrity_correct t s d B :
  table_inv t s d B -> room 1 s ->
  (exists s', HashTable_VerifyIntegrity t s = Ok (tt, s') /\ table_inv t s' d B)
  /\ (exists s', HashTable_GetGlobalDepth t s = Ok (global_depth_ d, s') /\ table_inv t s' d B).
Proof.
  intros Hi Hr. pose proof (tr_hash _ _ _ _ (proj1 Hi)) as Hh. pose proof (hi_dir _ _ Hh) as Hd. split.
  - assert (Hv : Dir_VerifyIntegrity d = Ok tt).
    { apply VerifyIntegrity_ok; [apply (inv_wf _ Hd)|apply (inv_global _ Hd)|by apply dir_inv_integrity]. }
    pose proof (wp_dir_only t s d B Dir_VerifyIntegrity (fun _ => tt) tt Hi Hr Hv) as Hw.
    apply wp_run in Hw as (x & s' & Hrun & -> & H1 & _). by exists s'.
  - pose proof (wp_dir_only t s d B (fun d => Ok (Dir_GetGlobalDepth d)) id _ Hi Hr eq_refl) as Hw.
    apply wp_run in Hw as (x & s' & Hrun & -> & H1 & _). by exists s'.
Qed.
End Properties.

(** ** Witnesses *)

Section Concrete.
Notation pool := (BPI bytes LRUReplacer DiskManager).

(** A table the constructor has made, over a pool of three frames. *)
Lemma fresh_table :
  exists (t : ExtendibleHashTable) (s0 s : pool) (b0 b1 : Z), zero_pool 3 = Ok s0 /\ HashTable_new s0 = Ok (t, s)
    /\ table_inv t s (Dir_initial (directory_page_id_ t) b0 b1) (fun _ => Bucket_zero (K := Z) (V := Z))
    /\ room 3 s /\ budget (view s) 8.
Proof.
  destruct (zero_pool_inv 3) as (s0 & Hrun0 & Hs & Hp & Hf & Hb).
  assert (Hroom : room 3 s0) by (unfold room; rewrite Hp, Hf, map_size_empty; lia).
  assert (Hsaved : buckets_saved (HashTable_init s0) = true).
  { assert (E : (let! s0 := zero_pool 3 in Ok (buckets_saved (HashTable_init s0))) = Ok true) by by vm_compute.
    rewrite Hrun0 in E. by injection E. }
  pose proof (new_wp s0 8 Hs (Hb (3 + 8)%nat ltac:(lia)) Hroom (buckets_saved_synced _ _ Hsaved)) as Hw.
  apply wp_run in Hw as (t & s & Hrun & b0 & b1 & Hi & Hp1 & Hf1 & Hb1). exists t, s0, s, b0, b1.
  split_and!; [done|done|done| |done]. unfold room. rewrite Hp1, Hf1, Hp, Hf, map_size_empty. lia.
Qed.

Lemma fresh_values (t : ExtendibleHashTable) (b0 b1 key : Z) :
  table_values (Dir_initial (directory_page_id_ t) b0 b1) (fun _ => Bucket_zero) key = ([] : list Z).
Proof. unfold table_values. by destruct bucket_zero_inv as [_ ->]. Qed.

(** A directory of depth 3 in which entry 1 still has depth 1: entry 0 has been
    split twice. *)
Lemma deep_directory : exists d, dir_inv d /\ global_depth_ d = 3 /\ dir_depth d 1 = 1
  /\ forall j, 0 <= j < dir_size d -> dir_page d j < 5.
Proof.
  set (d0 := Dir_initial 0 1 2).
  assert (H0 : dir_inv d0) by (by apply Dir_initial_inv).
  assert (P0 : forall j, 0 <= j < dir_size d0 -> dir_page d0 j < 3).
  { intros j [E | E]%initial_entry; fold d0 in E; lia. }
  destruct (split_dir_ok d0 0 false H0) as (dA & dB & _ & _ & _ & _ & Hn1); [done|done|done|].
  destruct (Hn1 3) as (dC & d1 & _ & _ & _ & _ & _ & G1 & _ & H1 & P1 & D1); [done|intros j Hj; specialize (P0 j Hj); lia|].
  assert (S0 : dir_size d0 = 2) by done. rewrite S0 in *. change (global_depth_ d0 + 1) with 2 in *.
  assert (S1 : dir_size d1 = 4) by (unfold dir_size; by rewrite G1). rewrite S1 in *.
  assert (P1' : forall j, 0 <= j < 4 -> dir_page d1 j < 4).
  { intros j Hj. rewrite P1 by done. case_decide; [lia|]. pose proof (Z.mod_pos_bound j 2 ltac:(lia)) as Hm. specialize (P0 _ Hm). lia. }
  destruct (split_dir_ok d1 0 false H1) as (dA2 & dB2 & _ & _ & _ & _ & Hn2); [by rewrite S1|by rewrite D1, G1|by rewrite G1|].
  destruct (Hn2 4) as (dC2 & d2 & _ & _ & _ & _ & _ & G2 & _ & H2 & P2 & D2); [done| |].
  { rewrite S1. intros j Hj. specialize (P1' j Hj). lia. }
  rewrite G1 in G2, P2, D2. change (2 + 1) with 3 in *. assert (S2 : dir_size d2 = 8) by (unfold dir_size; by rewrite G2). rewrite S1, S2 in *.
  exists d2. split_and!; [done|done| |].
  - rewrite D2 by done. rewrite decide_False by (intros [E|E]; vm_compute in E; done).
    change (1 mod 4) with 1. rewrite D1 by done. by rewrite decide_False by (intros [E|E]; done).
  - rewrite S2. intros j Hj. rewrite P2 by done. case_decide; [lia|].
    pose proof (Z.mod_pos_bound j 4 ltac:(lia)) as Hm. specialize (P1' _ Hm). lia.
Qed.

Lemma Split_without_growth_witness :
  exists d d1 d2, dir_inv d /\ global_depth_ d = 3 /\ Split_image 1 d = Ok (split_image 1 2, d1)
    /\ Split_link 1 (split_image 1 2) 5 d1 = Ok d2 /\ Dir_VerifyIntegrity d2 <> Ok tt.
Proof.
  destruct deep_directory as (d & Hd & Hg & Hl & Hp).
  assert (Hs : dir_size d = 8) by (unfold dir_size; by rewrite Hg).
  destruct (Split_without_growth d 1 5 Hd) as (d1 & d2 & _ & E1 & E2 & _ & _ & _ & _ & Hbad).
  - by rewrite Hs.
  - by rewrite Hl, Hg.
  - done.
  - intros j Hj E. specialize (Hp j Hj). lia.
  - rewrite Hl in *. exists d, d1, d2. split_and!; [done|done|done|done|]. apply Hbad. by rewrite Hg.
Defined.

Lemma HashTable_GetValue_correct_witness :
  exists (t : ExtendibleHashTable) (s s' : pool), HashTable_GetValue t 5 [8] s = Ok ((true, [8]), s').
Proof.
  destruct fresh_table as (t & s0 & s & b0 & b1 & _ & _ & Hi & Hr & _).
  destruct (HashTable_GetValue_correct t s _ _ 5 [8] Hi) as (s' & Hrun & _); [unfold room in *; lia|].
  rewrite fresh_values in Hrun. by exists t, s, s'.
Defined.

(** Entries that fill the bucket of the even keys. *)
Definition even_entries : list (Z * Z) := (fun i => (2 * Z.of_nat i, Z.of_nat i)) <$> seq 0 496.

#[local] Instance int_exact : ExactMapping Z Z.
Proof. intros k k'. apply IntComparator_eq. Qed.

Lemma elem_of_even k v : (k, v) ∈ even_entries <-> k = 2 * v /\ 0 <= v < 496.
Proof.
  unfold even_entries. rewrite list_elem_of_fmap. split.
  - intros (i & [= -> ->] & Hi%elem_of_seq). lia.
  - intros [-> Hv]. exists (Z.to_nat v). rewrite elem_of_seq, Z2Nat.id by lia. split; [done|lia].
Qed.

Lemma size_even : size (list_to_set even_entries : gset (Z * Z)) = 496%nat.
Proof.
  rewrite size_list_to_set; [by unfold even_entries; rewrite length_fmap, length_seq|].
  apply NoDup_fmap_2_strong; [|apply NoDup_seq]. intros i j _ _ [= _ E]. lia.
Qed.

(** A table filled up to where the next even key splits the bucket. *)
Lemma full_table :
  exists (t : ExtendibleHashTable) (s0 s1 s : pool) b0 b1 (B : Z -> HashTableBucketPage Z Z),
    let d := Dir_initial (directory_page_id_ t) b0 b1 in
    zero_pool 3 = Ok s0 /\ HashTable_new s0 = Ok (t, s1) /\ insert_all t even_entries s1 = Ok (tt, s)
    /\ table_inv t s d B /\ entry_set d B (list_to_set even_entries) /\ room 3 s /\ budget (view s) 8
    /\ length (entries (B (key_page 992 d))) = bucket_size (K := Z) (V := Z)
    /\ (forall e, e ∈ even_entries -> e ∈ entries (B (key_page 992 d))).
Proof.
  destruct fresh_table as (t & s0 & s1 & b0 & b1 & Hrun0 & Hrun1 & Hi & Hr & Hb). set (d := Dir_initial (directory_page_id_ t) b0 b1) in *.
  assert (Hsz : bucket_size (K := Z) (V := Z) = 496%nat) by by vm_compute.
  assert (Hst : Forall storable even_entries).
  { apply Forall_forall. intros [k v] [-> Hv]%elem_of_even. split; unfold is_signed; simpl; lia. }
  assert (Hes0 : entry_set d (fun _ => Bucket_zero (K := Z) (V := Z)) ∅).
  { intros k v. unfold d. rewrite (fresh_values t b0 b1 k). split; [set_solver|by intros ?%not_elem_of_nil]. }
  assert (Hr2 : room 2 s1) by (unfold room in *; lia).
  assert (Hlen : (size (∅ : gset (Z * Z)) + length even_entries <= bucket_size (K := Z) (V := Z))%nat).
  { rewrite size_empty, Hsz. unfold even_entries. by rewrite length_fmap, length_seq. }
  pose proof (insert_all_wp t even_entries s1 d _ ∅ Hi Hr2 Hes0 Hst Hlen) as Hw.
  apply wp_run in Hw as ([] & s & Hrun & B & Hi' & Hes & Hp' & Hf' & Hb'). rewrite union_empty_r_L in Hes.
  pose proof (tr_hash _ _ _ _ (proj1 Hi')) as Hh. assert (Hix : 0 <= key_index 992 d < dir_size d) by (split; [by vm_compute|by vm_compute]).
  assert (Hall : forall e, e ∈ even_entries -> e ∈ entries (B (key_page 992 d))).
  { intros [k v] He. assert (Hk : key_page k d = key_page 992 d).
    { apply elem_of_even in He as [-> Hv]. unfold key_page. f_equal. unfold key_index, HashTable_Hash, GetHash, identity_hash.
      change (dir_size d) with 2. rewrite !unsigned_id by (unfold is_unsigned; simpl; lia). rewrite Z.mul_comm, Z.mod_mul by done. done. }
    apply elem_of_values_at. rewrite <- Hk. apply (Hes k v). by apply elem_of_list_to_set. }
  exists t, s0, s1, s, b0, b1, B. fold d. split_and!; [done|done|done|done|done| |by apply Hb'| |done].
  - unfold room in *. congruence.
  - rewrite Hsz. apply Nat.le_antisymm.
    + rewrite <- size_even. apply (bucket_bound d B _ _ Hh Hes Hix).
    + rewrite <- size_even. rewrite <- (size_list_to_set (C := gset (Z * Z)) (entries (B (key_page 992 d))) (bucket_distinct d B _ Hh Hix)).
      apply subseteq_size. intros e He%elem_of_list_to_set. apply elem_of_list_to_set. by apply Hall.
Qed.

Lemma HashTable_Insert_correct_witness :
  exists (t : ExtendibleHashTable) (s0 s1 s s' : pool) d B d' B',
    zero_pool 3 = Ok s0 /\ HashTable_new s0 = Ok (t, s1) /\ insert_all t even_entries s1 = Ok (tt, s)
    /\ table_inv t s d B /\ length (entries (B (key_page 992 d))) = bucket_size (K := Z) (V := Z)
    /\ HashTable_Insert t 992 7 s = Ok (true, s') /\ table_inv t s' d' B'
    /\ table_values d' B' 992 = [7] /\ 495 ∈ table_values d' B' 990 /\ table_values d' B' 5 = [].
Proof.
  destruct full_table as (t & s0 & s1 & s & b0 & b1 & B & Hrun0 & Hrun1 & Hfill & Hi & Hes & Hr & Hb & Hfull & Hall).
  set (d := Dir_initial (directory_page_id_ t) b0 b1) in *.
  assert (Hnone : forall k, (forall v, (k, v) ∉ even_entries) -> table_values d B k = []).
  { intros k Hk. destruct (table_values d B k) as [|v l] eqn:E; [done|]. destruct (Hk v).
    apply (elem_of_list_to_set (C := gset (Z * Z))). apply (Hes k v). rewrite E. by left. }
  assert (H992 : table_values d B 992 = []) by (apply Hnone; intros v [E Hv]%elem_of_even; lia).
  assert (H5 : table_values d B 5 = []) by (apply Hnone; intros v [E Hv]%elem_of_even; lia).
  destruct (HashTable_Insert_correct t s d B 992 7 Hi Hr) as (r & s' & d' & B' & Hrun & Hi' & Hres & Hv & _).
  - by split.
  - exact Hb.
  - intros _. split; [by vm_compute|]. exists (0, 0). split; [apply Hall, elem_of_even; lia|by vm_compute].
  - rewrite H992 in Hres. rewrite (proj2 Hres) in * by apply not_elem_of_nil.
    exists t, s0, s1, s, s', d, B, d', B'. pose proof (Hv 992) as E1. pose proof (Hv 5) as E2. rewrite H992 in E1. rewrite H5 in E2.
    split_and!; [done|done|done|done|done|done|done|by apply Permutation_singleton_r in E1| |by apply Permutation_nil_r in E2].
    rewrite (Hv 990). apply (Hes 990 495). apply elem_of_list_to_set, elem_of_even. lia.
Defined.

Lemma HashTable_Remove_correct_witness :
  exists (t : ExtendibleHashTable) (s s1 s2 : pool), HashTable_Insert t 5 7 s = Ok (true, s1)
    /\ HashTable_Remove t 5 7 s1 = Ok (true, s2).
Proof.
  destruct fresh_table as (t & s0 & s & b0 & b1 & _ & _ & Hi & Hr & Hb).
  assert (Hins : wp (HashTable_Insert t 5 7) (insert_result t (Dir_initial (directory_page_id_ t) b0 b1) (fun _ => Bucket_zero) s 5 7) s).
  { apply Insert_not_full_wp; [exact Hi|unfold room in *; lia|by split|].
    destruct bucket_zero_inv as [_ ->]. simpl. intros E. by vm_compute in E. }
  apply wp_run in Hins as (r & s1 & Hrun & d' & B' & Hi1 & Hres & Hv & Hp1 & Hf1). rewrite fresh_values in Hres.
  rewrite (proj2 Hres) in * by apply not_elem_of_nil. pose proof (Hv 5) as H5. rewrite fresh_values in H5.
  apply Permutation_singleton_r in H5.
  destruct (HashTable_Remove_correct t s1 d' B' 5 7 Hi1) as (r' & s2 & d2 & B2 & Hrun' & _ & Hr' & _).
  - unfold room in *. rewrite Hp1, Hf1. lia.
  - exists t, s, s1, s2. split; [done|]. rewrite Hrun'. rewrite (proj2 Hr'); [done|]. rewrite H5. set_solver.
Defined.

Lemma HashTable_init_correct_witness :
  exists (t : ExtendibleHashTable) b0 b1 (s s' : pool), fresh_pool 3 = Ok s /\ HashTable_init s = Ok ((t, b0, b1), s').
Proof.
  destruct (fresh_pool_inv 3) as (s0 & Hrun & Hs & Hp & Hf & Hb).
  destruct (HashTable_init_correct s0 9 Hs) as (t & b0 & b1 & s' & Hinit & _).
  - apply Hb. lia.
  - unfold room. rewrite Hp, Hf, map_size_empty. lia.
  - by exists t, b0, b1, s0, s'.
Defined.

Lemma HashTable_VerifyIntegrity_correct_witness :
  exists (t : ExtendibleHashTable) (s s1 s2 : pool), HashTable_VerifyIntegrity t s = Ok (tt, s1)
    /\ HashTable_GetGlobalDepth t s = Ok (1, s2).
Proof.
  destruct fresh_table as (t & s0 & s & b0 & b1 & _ & _ & Hi & Hr & _).
  destruct (HashTable_VerifyIntegrity_correct t s _ _ Hi) as [(s1 & H1 & _) (s2 & H2 & _)]; [unfold room in *; lia|].
  by exists t, s, s1, s2.
Defined.
End Concrete.
