(* ===== verification/HeaderPage.v ===== *)
(** The header page ([src/storage/page/header_page.cpp]): a page that maps the
    names of tables and indexes to their root pages, on the bytes of the page.

    After a record count come records of 36 bytes, a name of up to 31 characters
    with its terminating zero and a page id.  The code never checks that a
    record fits in the page: the write past its end is [Err OutOfBounds]. *)

From S2P Require Import Prelude Bytes.

(** ** Definitions *)

(** [strcmp(m + off, s.c_str()) == 0]; [s.c_str()] ends at the first zero. *)
Fixpoint strcmp_eq (m : bytes) (off : Z) (s : bytes) : res bool :=
  let! b := zlookup m off in
  match s with
  | [] => Ok (b =? 0)
  | c :: s => if c =? 0 then Ok (b =? 0) else if b =? c then strcmp_eq m (off + 1) s else Ok false
  end.

Section Header.
Context `{Config}.
Implicit Types (m name : bytes).

Definition HP_GetRecordCount m : res Z := load_i32 m 0.
Definition HP_SetRecordCount (record_count : Z) m : res bytes := store_u32 m 0 record_count.
Definition HP_Init m : res bytes := HP_SetRecordCount 0 m.

(** [4 + i * 36]. *)
Definition record_offset (i : Z) : res Z := let! x := int_op (i * 36) in int_op (4 + x).

Fixpoint FindRecord_loop (fuel : nat) (i record_num : Z) name m : res Z :=
  match fuel with
  | O => Ok (-1)
  | S fuel =>
      if i <? record_num then
        let! offset := record_offset i in
        let! eq := strcmp_eq m offset name in
        if eq : bool then Ok i else FindRecord_loop fuel (i + 1) record_num name m
      else Ok (-1)
  end.

(** The loop runs once per record. *)
Definition HP_FindRecord name m : res Z :=
  let! record_num := HP_GetRecordCount m in
  FindRecord_loop (Z.to_nat record_num) 0 record_num name m.

Definition HP_InsertRecord name (root_id : Z) m : res (bool * bytes) :=
  let! _ := assert (Z.of_nat (length name) <? 32) in
  let! _ := assert (INVALID_PAGE_ID <? root_id) in
  let! record_num := HP_GetRecordCount m in
  let! offset := record_offset record_num in
  let! index := HP_FindRecord name m in
  if negb (index =? -1) then Ok (false, m) else
  let! m := mem_write m offset (name ++ [0]) in
  let! m := store_u32 m (offset + 32) root_id in
  let! m := HP_SetRecordCount (record_num + 1) m in
  Ok (true, m).

Definition HP_DeleteRecord name m : res (bool * bytes) :=
  let! record_num := HP_GetRecordCount m in
  let! _ := assert (0 <? record_num) in
  let! index := HP_FindRecord name m in
  if index =? -1 then Ok (false, m) else
  let! offset := record_offset index in
  let! m := mem_move m offset (offset + 36) ((record_num - index - 1) * 36) in
  let! m := HP_SetRecordCount (record_num - 1) m in
  Ok (true, m).

Definition HP_UpdateRecord name (root_id : Z) m : res (bool * bytes) :=
  let! _ := assert (Z.of_nat (length name) <? 32) in
  let! index := HP_FindRecord name m in
  if index =? -1 then Ok (false, m) else
  let! offset := record_offset index in
  let! m := store_u32 m (offset + 32) root_id in
  Ok (true, m).

(** The result is [false], or the root page id. *)
Definition HP_GetRootId name m : res (option Z) :=
  let! _ := assert (Z.of_nat (length name) <? 32) in
  let! index := HP_FindRecord name m in
  if index =? -1 then Ok None else
  let! offset := int_op ((index + 1) * 36) in
  let! root_id := load_i32 m offset in
  Ok (Some root_id).
End Header.

(** ** The page as a list of records *)

Definition good_name (name : bytes) : Prop := Forall (fun b => 0 < b < 256) name /\ (length name < 32)%nat.

(** The record [e] lies at index [i]. *)
Definition record_at (m : bytes) (i : nat) (e : bytes * Z) : Prop :=
  good_name e.1 /\ is_signed 32 e.2
  /\ mem_read m (4 + 36 * Z.of_nat i) (Z.of_nat (length (e.1 ++ [0]))) = Ok (e.1 ++ [0])
  /\ load_i32 m (36 * (Z.of_nat i + 1)) = Ok e.2.

Record header_rep `{Config} (m : bytes) (l : list (bytes * Z)) : Prop := {
  hr_size : Z.of_nat (length m) = PAGE_SIZE;
  hr_count : load_i32 m 0 = Ok (Z.of_nat (length l));
  hr_record i e : l !! i = Some e -> record_at m i e;
  hr_names : NoDup l.*1
}.

(** The index of a name, or -1. *)
Fixpoint find_name (name : bytes) (l : list (bytes * Z)) (i : Z) : Z :=
  match l with
  | [] => -1
  | e :: l => if decide (e.1 = name) then i else find_name name l (i + 1)
  end.

Definition set_root (name : bytes) (root : Z) (l : list (bytes * Z)) : list (bytes * Z) :=
  (fun e => if decide (e.1 = name) then (e.1, root) else e) <$> l.
Definition drop_name (name : bytes) (l : list (bytes * Z)) : list (bytes * Z) := filter (fun e => e.1 <> name) l.

(** ** Lemmas *)

Lemma record_offset_ok i : 0 <= i -> i * 36 + 4 < 2 ^ 31 -> record_offset i = Ok (4 + 36 * i).
Proof.
  intros. unfold record_offset. rewrite !int_op_ok by (unfold is_signed; lia). cbn [rbind].
  rewrite int_op_ok by (unfold is_signed; lia). f_equal. lia.
Qed.

Lemma mem_read_cons m off b bs n :
  mem_read m off n = Ok (b :: bs) -> zlookup m off = Ok b /\ mem_read m (off + 1) (n - 1) = Ok bs.
Proof.
  intros Hr. pose proof (mem_read_length _ _ _ _ Hr) as Hl. rewrite length_cons in Hl.
  apply mem_read_inv in Hr as (Ho & Hn & Hlen & E). split.
  - apply zlookup_ok. split; [done|]. pose proof (f_equal (fun l => l !! O) E) as E0. cbn beta in E0.
    rewrite lookup_take_lt, lookup_drop, Nat.add_0_r in E0 by lia. done.
  - rewrite mem_read_ok by lia. f_equal. apply (f_equal (drop 1)) in E. simpl in E. rewrite drop_0 in E. rewrite E.
    rewrite skipn_firstn_comm, drop_drop. f_equal; [lia|]. f_equal. lia.
Qed.

Lemma strcmp_ok m off n s :
  Forall (fun b => 0 < b < 256) n -> Forall (fun b => 0 < b < 256) s ->
  mem_read m off (Z.of_nat (length (n ++ [0]))) = Ok (n ++ [0]) ->
  strcmp_eq m off s = Ok (bool_decide (n = s)).
Proof.
  intros Hn. revert off s. induction Hn as [|b n Hb Hn IH]; intros off s Hs Hr; simpl in Hr;
    apply mem_read_cons in Hr as [Hb0 Hr]; destruct Hs as [|c s Hc Hs]; cbn [strcmp_eq]; rewrite Hb0; cbn [rbind].
  - done.
  - destruct (Z.eqb_spec c 0); [lia|]. destruct (Z.eqb_spec 0 c); [lia|]. done.
  - destruct (Z.eqb_spec b 0); [lia|]. done.
  - destruct (Z.eqb_spec c 0); [lia|]. destruct (Z.eqb_spec b c) as [->|Hne].
    + rewrite IH; [|done|rewrite <- Hr; f_equal; lia]. f_equal. apply bool_decide_ext. split; congruence.
    + f_equal. symmetry. apply bool_decide_eq_false. congruence.
Qed.

Lemma find_name_spec name l i :
  0 <= i ->
  (name ∉ l.*1 /\ find_name name l i = -1) \/
  (exists k e, l !! k = Some e /\ e.1 = name /\ (forall j e', (j < k)%nat -> l !! j = Some e' -> e'.1 <> name)
     /\ find_name name l i = i + Z.of_nat k).
Proof.
  revert i. induction l as [|e l IH]; intros i Hi; [left; split; [set_solver|done]|]. cbn [find_name]. case_decide as Hd.
  - right. exists O, e. split_and!; [done|done| |lia]. intros; lia.
  - destruct (IH (i + 1) ltac:(lia)) as [[Hn E]|(k & e' & Hk & He & Hlt & E)].
    + left. rewrite fmap_cons, not_elem_of_cons. done.
    + right. exists (S k), e'. split_and!; [done|done| |lia]. intros [|j] e'' Hj Hl; simpl in Hl; [by simplify_eq|].
      apply (Hlt j); [lia|done].
Qed.

Lemma drop_name_delete name l k e :
  NoDup l.*1 -> l !! k = Some e -> e.1 = name -> drop_name name l = delete k l.
Proof.
  revert k. induction l as [|e0 l IH]; intros [|k] Hd Hk He; try done; simpl in Hk; inversion Hd as [|?? Hn Hd']; subst.
  - simplify_eq. unfold drop_name. rewrite filter_cons, decide_False by tauto. change (delete O (e :: l)) with l.
    pose proof (filter_ext_in (fun e' => e'.1 <> e.1) (fun _ => True) l) as E. cbn beta in E. rewrite E.
    + clear. induction l as [|x l IH]; [done|]. rewrite filter_cons, decide_True by done. by rewrite IH.
    + intros x Hx. split; [done|]. intros _ Eq. apply Hn. apply list_elem_of_fmap. exists x. split; [by symmetry|done].
  - unfold drop_name. rewrite filter_cons, decide_True.
    + change (delete (S k) (e0 :: l)) with (e0 :: delete k l). f_equal. by apply IH.
    + intros Eq. apply Hn. rewrite Eq. apply list_elem_of_fmap. exists e. split; [done|].
      apply list_elem_of_lookup. by exists k.
Qed.

Lemma set_root_insert name root l k e :
  NoDup l.*1 -> l !! k = Some e -> e.1 = name -> set_root name root l = <[k := (name, root)]> l.
Proof.
  intros Hd Hk He. apply list_eq. intros j. unfold set_root. rewrite list_lookup_fmap.
  pose proof (lookup_lt_Some _ _ _ Hk) as Hlt. destruct (decide (j = k)) as [->|Hj].
  - rewrite Hk, list_lookup_insert_eq by done. simpl. rewrite decide_True by done. by rewrite He.
  - rewrite list_lookup_insert_ne by done. destruct (l !! j) as [e'|] eqn:E; [|done]. simpl. case_decide as Hn; [|done].
    destruct Hj. apply (NoDup_lookup l.*1 j k name Hd); rewrite list_lookup_fmap; [by rewrite E, <- Hn|by rewrite Hk, <- He].
Qed.

Lemma load_i32_read m m' off off' : mem_read m' off' 4 = mem_read m off 4 -> load_i32 m' off' = load_i32 m off.
Proof. unfold load_i32. by intros ->. Qed.

(** A record depends on its 36 bytes. *)
Lemma record_moved m m' i i' e :
  (forall d n, 0 <= d -> 0 <= n -> d + n <= 36 ->
     mem_read m' (4 + 36 * Z.of_nat i' + d) n = mem_read m (4 + 36 * Z.of_nat i + d) n) ->
  record_at m i e -> record_at m' i' e.
Proof.
  intros Heq (Hg & Hs & Hn & Hr). split; [done|]. split; [done|]. destruct Hg as [_ Hg]. split.
  - rewrite <- Hn. pose proof (Heq 0 (Z.of_nat (length (e.1 ++ [0])))) as E. rewrite !Z.add_0_r in E. apply E; len.
  - rewrite <- Hr. apply load_i32_read. pose proof (Heq 32 4 ltac:(lia) ltac:(lia) ltac:(lia)) as E.
    replace (36 * (Z.of_nat i' + 1)) with (4 + 36 * Z.of_nat i' + 32) by lia.
    by replace (36 * (Z.of_nat i + 1)) with (4 + 36 * Z.of_nat i + 32) by lia.
Qed.

Section Rep.
Context `{Config}.
Implicit Types (m name : bytes) (l : list (bytes * Z)).

Lemma load_bound m off z : load_i32 m off = Ok z -> 0 <= off /\ off + 4 <= Z.of_nat (length m).
Proof. unfold load_i32. destruct (mem_read m off 4) as [bs|] eqn:E; [|done]. apply mem_read_inv in E. lia. Qed.

Lemma rep_bound m l : header_rep m l -> 4 + 36 * Z.of_nat (length l) <= PAGE_SIZE.
Proof.
  intros Hr. rewrite <- (hr_size _ _ Hr). destruct l as [|e0 l'] eqn:E using rev_ind.
  - pose proof (load_bound _ _ _ (hr_count _ _ Hr)). simpl. lia.
  - destruct (hr_record _ _ Hr (length l') e0) as (_ & _ & _ & Hld).
    { subst l. rewrite lookup_app_r by done. by rewrite Nat.sub_diag. }
    apply load_bound in Hld. len.
Qed.

Lemma count_small m l : header_rep m l -> Z.of_nat (length l) * 36 + 4 < 2 ^ 31.
Proof. intros Hr. pose proof (rep_bound m l Hr). pose proof PAGE_SIZE_int. lia. Qed.

Lemma FindRecord_ok m l name :
  header_rep m l -> good_name name -> HP_FindRecord name m = Ok (find_name name l 0).
Proof.
  intros Hr [Hn _]. pose proof (count_small m l Hr) as Hc. unfold HP_FindRecord, HP_GetRecordCount.
  rewrite (hr_count _ _ Hr). cbn [rbind]. rewrite Nat2Z.id.
  assert (Hgen : forall fuel i, (i + fuel = length l)%nat ->
    FindRecord_loop fuel (Z.of_nat i) (Z.of_nat (length l)) name m = Ok (find_name name (drop i l) (Z.of_nat i))).
  { induction fuel as [|fuel IH]; intros i Hi; cbn [FindRecord_loop].
    - by rewrite drop_ge by lia.
    - rewrite (proj2 (Z.ltb_lt _ _)) by lia. rewrite record_offset_ok by lia. cbn [rbind].
      destruct (lookup_lt_is_Some_2 l i) as [e He]; [lia|]. rewrite (drop_S l e i He). cbn [find_name].
      destruct (hr_record _ _ Hr i e He) as ([Hg _] & _ & Hrd & _). rewrite (strcmp_ok m _ e.1 name Hg Hn Hrd). cbn [rbind].
      case_bool_decide; case_decide; try done. replace (Z.of_nat i + 1) with (Z.of_nat (S i)) by lia. apply IH. lia. }
  apply (Hgen _ O). lia.
Qed.

(** The position of a name and the record there. *)
Lemma found_record m l name k e :
  header_rep m l -> l !! k = Some e -> e.1 = name ->
  record_offset (Z.of_nat k) = Ok (4 + 36 * Z.of_nat k) /\ load_i32 m (4 + 36 * Z.of_nat k + 32) = Ok e.2
  /\ (k < length l)%nat.
Proof.
  intros Hr Hk He. pose proof (count_small m l Hr). pose proof (lookup_lt_Some _ _ _ Hk).
  split; [apply record_offset_ok; lia|]. split; [|done]. destruct (hr_record _ _ Hr k e Hk) as (_ & _ & _ & Hl).
  rewrite <- Hl. f_equal. lia.
Qed.

(** *** The operations on a page with room *)

Lemma Insert_new m l name root :
  header_rep m l -> good_name name -> is_signed 32 root -> INVALID_PAGE_ID < root -> name ∉ l.*1 ->
  if decide (4 + 36 * (Z.of_nat (length l) + 1) <= PAGE_SIZE)
  then exists m', HP_InsertRecord name root m = Ok (true, m') /\ header_rep m' (l ++ [(name, root)])
  else HP_InsertRecord name root m = Err OutOfBounds.
Proof.
  intros Hr Hg Hs Hroot Hn. pose proof (count_small m l Hr) as Hc. pose proof (hr_size _ _ Hr) as Hsz.
  assert (Hrun : HP_InsertRecord name root m =
    let! m1 := mem_write m (4 + 36 * Z.of_nat (length l)) (name ++ [0]) in
    let! m2 := store_u32 m1 (4 + 36 * Z.of_nat (length l) + 32) root in
    let! m3 := HP_SetRecordCount (Z.of_nat (length l) + 1) m2 in Ok (true, m3)).
  { unfold HP_InsertRecord. destruct Hg as [Hg1 Hg2].
    rewrite (proj2 (Z.ltb_lt (Z.of_nat (length name)) 32)), (proj2 (Z.ltb_lt _ _) Hroot) by lia. cbn [assert rbind].
    unfold HP_GetRecordCount. rewrite (hr_count _ _ Hr). cbn [rbind]. rewrite record_offset_ok by lia. cbn [rbind].
    rewrite (FindRecord_ok m l name Hr (conj Hg1 Hg2)). cbn [rbind].
    destruct (find_name_spec name l 0) as [[_ ->]|(k & e & Hk & He & _)]; [lia|done|].
    destruct Hn. apply list_elem_of_fmap. exists e. split; [done|]. apply list_elem_of_lookup. by exists k. }
  rewrite Hrun. clear Hrun. assert (Hlen : Z.of_nat (length (name ++ [0])) <= 32) by (destruct Hg as [_ Hg]; len).
  case_decide as Hfit.
  - rewrite (mem_write_ok m) by lia. cbn [rbind]. set (m1 := splice _ _ _).
    assert (Hw1 : mem_write m (4 + 36 * Z.of_nat (length l)) (name ++ [0]) = Ok m1) by (apply mem_write_ok; lia).
    pose proof (mem_write_length _ _ _ _ Hw1) as Hl1.
    destruct (store_u32_is_ok m1 (4 + 36 * Z.of_nat (length l) + 32) root ltac:(lia) ltac:(lia)) as [m2 Hw2]. rewrite Hw2. cbn [rbind].
    pose proof (store_u32_length _ _ _ _ Hw2) as Hl2.
    destruct (store_u32_is_ok m2 0 (Z.of_nat (length l) + 1) ltac:(lia) ltac:(lia)) as [m3 Hw3].
    unfold HP_SetRecordCount. rewrite Hw3. cbn [rbind]. pose proof (store_u32_length _ _ _ _ Hw3) as Hl3.
    exists m3. split; [done|]. split.
    + lia.
    + rewrite (load_store_i32_same _ _ _ _ Hw3) by (unfold is_signed; lia). f_equal. len.
    + intros i e Hi. destruct (decide (i < length l)%nat) as [Hlt|Hge].
      * rewrite lookup_app_l in Hi by done. apply (record_moved m m3 i i); [|by apply (hr_record _ _ Hr)].
        intros d n Hd Hd' Hdn. rewrite (mem_read_store_disjoint _ _ _ _ _ _ Hw3) by lia.
        rewrite (mem_read_store_disjoint _ _ _ _ _ _ Hw2) by lia. by rewrite (mem_read_write_disjoint _ _ _ _ _ _ Hw1) by lia.
      * rewrite lookup_app_r in Hi by lia. apply list_lookup_singleton_Some in Hi as [Hi <-].
        replace i with (length l) by lia. split; [done|]. split; [done|]. cbn [fst snd]. split.
        -- rewrite (mem_read_store_disjoint _ _ _ _ _ _ Hw3) by lia. rewrite (mem_read_store_disjoint _ _ _ _ _ _ Hw2) by lia.
           by apply (mem_read_write_same _ _ _ _ _ Hw1).
        -- rewrite (load_i32_store_disjoint _ _ _ _ _ Hw3) by lia.
           replace (36 * (Z.of_nat (length l) + 1)) with (4 + 36 * Z.of_nat (length l) + 32) by lia.
           by apply (load_store_i32_same _ _ _ _ Hw2).
    + rewrite fmap_app. apply NoDup_app. split; [apply Hr|]. split; [|apply NoDup_singleton]. simpl.
      intros x Hx Hx'. apply list_elem_of_singleton in Hx'. by subst.
  - unfold mem_write at 1. case_decide; [|done]. cbn [rbind]. unfold store_u32, mem_write at 1.
    rewrite decide_False; [done|]. rewrite splice_length by lia. rewrite le_split_length. lia.
Qed.

Lemma Delete_found m l name k e :
  header_rep m l -> good_name name -> l !! k = Some e -> e.1 = name -> find_name name l 0 = Z.of_nat k ->
  exists m', HP_DeleteRecord name m = Ok (true, m') /\ header_rep m' (drop_name name l).
Proof.
  intros Hr Hg Hk He Hf. pose proof (count_small m l Hr) as Hc. pose proof (hr_size _ _ Hr) as Hsz. pose proof (rep_bound m l Hr) as Hb.
  destruct (found_record m l name k e Hr Hk He) as (Ho & _ & Hlt).
  unfold HP_DeleteRecord, HP_GetRecordCount. rewrite (hr_count _ _ Hr). cbn [rbind].
  rewrite (proj2 (Z.ltb_lt 0 _)) by lia. cbn [assert rbind]. rewrite (FindRecord_ok m l name Hr Hg), Hf. cbn [rbind].
  destruct (Z.eqb_spec (Z.of_nat k) (-1)) as [?|_]; [lia|]. rewrite Ho. cbn [rbind]. unfold mem_move.
  set (sz := (Z.of_nat (length l) - Z.of_nat k - 1) * 36).
  destruct (mem_read m (4 + 36 * Z.of_nat k + 36) sz) as [bs|] eqn:Hrd; [|rewrite mem_read_ok in Hrd by lia; done]. cbn [rbind].
  pose proof (mem_read_length _ _ _ _ Hrd) as Hbs.
  rewrite mem_write_ok by lia. cbn [rbind]. set (m1 := splice _ _ _).
  assert (Hw1 : mem_write m (4 + 36 * Z.of_nat k) bs = Ok m1) by (apply mem_write_ok; lia).
  pose proof (mem_write_length _ _ _ _ Hw1) as Hl1.
  destruct (store_u32_is_ok m1 0 (Z.of_nat (length l) - 1) ltac:(lia) ltac:(lia)) as [m2 Hw2].
  unfold HP_SetRecordCount. rewrite Hw2. cbn [rbind]. pose proof (store_u32_length _ _ _ _ Hw2) as Hl2.
  exists m2. split; [done|]. rewrite (drop_name_delete name l k e (hr_names _ _ Hr) Hk He). split.
  - lia.
  - rewrite (load_store_i32_same _ _ _ _ Hw2) by (unfold is_signed; lia). f_equal. rewrite length_delete by by eexists. lia.
  - intros i e' Hi. destruct (decide (i < k)%nat) as [Hik|Hik].
    + rewrite list_lookup_delete_lt in Hi by done. apply (record_moved m m2 i i); [|by apply (hr_record _ _ Hr)].
      intros d n Hd Hd' Hdn. rewrite (mem_read_store_disjoint _ _ _ _ _ _ Hw2) by lia.
      by rewrite (mem_read_write_disjoint _ _ _ _ _ _ Hw1) by lia.
    + rewrite list_lookup_delete_ge in Hi by lia. pose proof (lookup_lt_Some _ _ _ Hi) as Hli.
      apply (record_moved m m2 (S i) i); [|by apply (hr_record _ _ Hr)].
      intros d n Hd Hd' Hdn. rewrite (mem_read_store_disjoint _ _ _ _ _ _ Hw2) by lia.
      pose proof (mem_read_write_same m _ bs m1 sz Hw1 (eq_sym Hbs)) as Hsame.
      set (o := 36 * (Z.of_nat i - Z.of_nat k) + d).
      replace (4 + 36 * Z.of_nat i + d) with (4 + 36 * Z.of_nat k + o) by (unfold o; lia).
      replace (4 + 36 * Z.of_nat (S i) + d) with (4 + 36 * Z.of_nat k + 36 + o) by (unfold o; lia).
      rewrite (mem_read_sub _ _ _ _ o n Hsame) by (unfold o, sz; lia).
      by rewrite (mem_read_sub _ _ _ _ o n Hrd) by (unfold o, sz; lia).
  - rewrite list_fmap_delete. eapply sublist_NoDup; [apply (hr_names _ _ Hr)|apply sublist_delete].
Qed.

Lemma Update_found m l name root k e :
  header_rep m l -> good_name name -> is_signed 32 root -> l !! k = Some e -> e.1 = name -> find_name name l 0 = Z.of_nat k ->
  exists m', HP_UpdateRecord name root m = Ok (true, m') /\ header_rep m' (set_root name root l).
Proof.
  intros Hr Hg Hs Hk He Hf. pose proof (hr_size _ _ Hr) as Hsz. pose proof (rep_bound m l Hr) as Hb.
  destruct (found_record m l name k e Hr Hk He) as (Ho & _ & Hlt).
  unfold HP_UpdateRecord. rewrite (proj2 (Z.ltb_lt (Z.of_nat (length name)) 32)) by (destruct Hg; lia). cbn [assert rbind].
  rewrite (FindRecord_ok m l name Hr Hg), Hf. cbn [rbind]. destruct (Z.eqb_spec (Z.of_nat k) (-1)) as [?|_]; [lia|]. rewrite Ho. cbn [rbind].
  destruct (store_u32_is_ok m (4 + 36 * Z.of_nat k + 32) root ltac:(lia) ltac:(lia)) as [m1 Hw]. rewrite Hw. cbn [rbind].
  pose proof (store_u32_length _ _ _ _ Hw) as Hl1. exists m1. split; [done|].
  rewrite (set_root_insert name root l k e (hr_names _ _ Hr) Hk He). split.
  - lia.
  - rewrite (load_i32_store_disjoint _ _ _ _ _ Hw) by lia. rewrite length_insert. apply Hr.
  - intros i e' Hi. destruct (decide (i = k)) as [->|Hne].
    + rewrite list_lookup_insert_eq in Hi by done. injection Hi as <-. destruct (hr_record _ _ Hr k e Hk) as (A1 & A2 & A3 & A4).
      rewrite He in *. split; [done|]. split; [done|]. cbn [fst snd]. split.
      * rewrite <- A3. apply (mem_read_store_disjoint _ _ _ _ _ _ Hw). left. destruct Hg as [_ Hg]. len.
      * replace (36 * (Z.of_nat k + 1)) with (4 + 36 * Z.of_nat k + 32) by lia. by apply (load_store_i32_same _ _ _ _ Hw).
    + rewrite list_lookup_insert_ne in Hi by done. apply (record_moved m m1 i i); [|by apply (hr_record _ _ Hr)].
      intros d n Hd Hd' Hdn. apply (mem_read_store_disjoint _ _ _ _ _ _ Hw). lia.
  - rewrite list_fmap_insert. simpl. rewrite list_insert_id; [apply Hr|]. rewrite list_lookup_fmap, Hk. simpl. by rewrite He.
Qed.
End Rep.

(** ** Runs of operations *)

Inductive hp_op : Type :=
| HInsert (name : bytes) (root : Z)
| HDelete (name : bytes)
| HUpdate (name : bytes) (root : Z)
| HGet (name : bytes).

Inductive hp_answer : Type :=
| HBool (b : bool)
| HRoot (root : option Z).

Section Runs.
Context `{Config}.
Implicit Types (m name : bytes) (l : list (bytes * Z)) (op : hp_op).

Definition HP_exec op m : res (hp_answer * bytes) :=
  match op with
  | HInsert name root => let! ' (b, m) := HP_InsertRecord name root m in Ok (HBool b, m)
  | HDelete name => let! ' (b, m) := HP_DeleteRecord name m in Ok (HBool b, m)
  | HUpdate name root => let! ' (b, m) := HP_UpdateRecord name root m in Ok (HBool b, m)
  | HGet name => let! r := HP_GetRootId name m in Ok (HRoot r, m)
  end.

(** The same on a list of records: what the class means to do. *)
Fixpoint root_of name l : option Z :=
  match l with
  | [] => None
  | e :: l => if decide (e.1 = name) then Some e.2 else root_of name l
  end.

Definition header_exec op l : res (hp_answer * list (bytes * Z)) :=
  match op with
  | HInsert name root =>
      let! _ := assert (INVALID_PAGE_ID <? root) in
      if decide (name ∈ l.*1) then Ok (HBool false, l)
      else if decide (4 + 36 * (Z.of_nat (length l) + 1) <= PAGE_SIZE) then Ok (HBool true, l ++ [(name, root)])
      else Err OutOfBounds
  | HDelete name =>
      let! _ := assert (0 <? Z.of_nat (length l)) in
      if decide (name ∈ l.*1) then Ok (HBool true, drop_name name l) else Ok (HBool false, l)
  | HUpdate name root => if decide (name ∈ l.*1) then Ok (HBool true, set_root name root l) else Ok (HBool false, l)
  | HGet name => Ok (HRoot (root_of name l), l)
  end.

Fixpoint run_ops {T} (exec : hp_op -> T -> res (hp_answer * T)) (ops : list hp_op) (t : T) : res (list hp_answer * T) :=
  match ops with
  | [] => Ok ([], t)
  | op :: ops => let! ' (a, t) := exec op t in let! ' (rs, t) := run_ops exec ops t in Ok (a :: rs, t)
  end.

Definition hp_op_ok op : Prop :=
  match op with
  | HInsert name root | HUpdate name root => good_name name /\ is_signed 32 root
  | HDelete name | HGet name => good_name name
  end.

Lemma found_name name l k e : l !! k = Some e -> e.1 = name -> name ∈ l.*1.
Proof. intros Hk He. apply list_elem_of_fmap. exists e. split; [done|]. apply list_elem_of_lookup. by exists k. Qed.

Lemma root_of_found name l k e :
  l !! k = Some e -> e.1 = name -> (forall j e', (j < k)%nat -> l !! j = Some e' -> e'.1 <> name) -> root_of name l = Some e.2.
Proof.
  revert k. induction l as [|e0 l IH]; intros [|k] Hk He Hlt; try done; simpl in Hk; cbn [root_of].
  - simplify_eq. by rewrite decide_True.
  - rewrite decide_False by (by apply (Hlt O); [lia|]). apply (IH k Hk He). intros j e' Hj. apply (Hlt (S j)). lia.
Qed.

Lemma root_of_none name l : name ∉ l.*1 -> root_of name l = None.
Proof.
  induction l as [|e l IH]; [done|]. rewrite fmap_cons, not_elem_of_cons. intros [Hne Hn]. cbn [root_of].
  rewrite decide_False by congruence. by apply IH.
Qed.

Lemma header_exec_ok op m l :
  header_rep m l -> hp_op_ok op ->
  match header_exec op l with
  | Ok (a, l') => exists m', HP_exec op m = Ok (a, m') /\ header_rep m' l'
  | Err e => HP_exec op m = Err e
  end.
Proof.
  intros Hr Hop.
  assert (Hfind : forall name, good_name name -> HP_FindRecord name m = Ok (find_name name l 0)) by (intros; by apply FindRecord_ok).
  destruct op as [name root|name|name root|name]; cbn [header_exec HP_exec]; cbn [hp_op_ok] in Hop;
    destruct (find_name_spec name l 0 ltac:(lia)) as [[Hn Hf]|(k & e & Hk & He & Hlt & Hf)];
    try pose proof (found_name _ _ _ _ Hk He) as Hin.
  - destruct Hop as [Hg Hs]. destruct (Z.ltb_spec INVALID_PAGE_ID root) as [Hroot|Hroot]; cbn [assert rbind].
    + rewrite decide_False by done. pose proof (Insert_new m l name root Hr Hg Hs Hroot Hn) as Hi. case_decide.
      * destruct Hi as (m' & -> & Hr'). by exists m'.
      * by rewrite Hi.
    + unfold HP_InsertRecord. rewrite (proj2 (Z.ltb_lt (Z.of_nat (length name)) 32)) by (destruct Hg; lia). cbn [assert rbind].
      by rewrite (proj2 (Z.ltb_ge _ _) Hroot).
  - destruct Hop as [Hg Hs]. unfold HP_InsertRecord, HP_GetRecordCount.
    rewrite (proj2 (Z.ltb_lt (Z.of_nat (length name)) 32)) by (destruct Hg; lia). cbn [assert rbind].
    destruct (INVALID_PAGE_ID <? root); cbn [assert rbind]; [|done]. rewrite decide_True by done.
    rewrite (hr_count _ _ Hr). cbn [rbind]. pose proof (count_small m l Hr). rewrite record_offset_ok by lia. cbn [rbind].
    rewrite Hfind, Hf by done. cbn [rbind]. destruct (Z.eqb_spec (0 + Z.of_nat k) (-1)); [lia|]. by exists m.
  - destruct (Z.ltb_spec 0 (Z.of_nat (length l))) as [H0|H0]; cbn [assert rbind]; unfold HP_DeleteRecord, HP_GetRecordCount;
      rewrite (hr_count _ _ Hr); cbn [rbind]; [rewrite (proj2 (Z.ltb_lt _ _) H0)|rewrite (proj2 (Z.ltb_ge _ _) H0)]; cbn [assert rbind]; [|done].
    rewrite decide_False by done. rewrite Hfind, Hf by done. by exists m.
  - pose proof (lookup_lt_Some _ _ _ Hk). rewrite (proj2 (Z.ltb_lt 0 _)) by lia. cbn [assert rbind]. rewrite decide_True by done.
    destruct (Delete_found m l name k e Hr Hop Hk He Hf) as (m' & -> & Hr'). by exists m'.
  - destruct Hop as [Hg Hs]. rewrite decide_False by done. unfold HP_UpdateRecord.
    rewrite (proj2 (Z.ltb_lt (Z.of_nat (length name)) 32)) by (destruct Hg; lia). cbn [assert rbind].
    rewrite Hfind, Hf by done. by exists m.
  - destruct Hop as [Hg Hs]. rewrite decide_True by done.
    destruct (Update_found m l name root k e Hr Hg Hs Hk He Hf) as (m' & -> & Hr'). by exists m'.
  - unfold HP_GetRootId. rewrite (proj2 (Z.ltb_lt (Z.of_nat (length name)) 32)) by (destruct Hop; lia). cbn [assert rbind].
    rewrite Hfind, Hf by done. rewrite root_of_none by done. by exists m.
  - unfold HP_GetRootId. rewrite (proj2 (Z.ltb_lt (Z.of_nat (length name)) 32)) by (destruct Hop; lia). cbn [assert rbind].
    rewrite Hfind, Hf by done. cbn [rbind]. destruct (Z.eqb_spec (0 + Z.of_nat k) (-1)) as [?|_]; [lia|].
    destruct (found_record m l name k e Hr Hk He) as (_ & Hld & Hl). pose proof (count_small m l Hr).
    rewrite int_op_ok by (unfold is_signed; lia). cbn [rbind].
    replace ((0 + Z.of_nat k + 1) * 36) with (4 + 36 * Z.of_nat k + 32) by lia. rewrite Hld. cbn [rbind].
    rewrite (root_of_found name l k e Hk He Hlt). by exists m.
Qed.

(** [Init] makes an empty header page out of any page. *)
Lemma HP_Init_ok m : Z.of_nat (length m) = PAGE_SIZE -> 4 <= PAGE_SIZE -> exists m', HP_Init m = Ok m' /\ header_rep m' [].
Proof.
  intros Hl Hp. destruct (store_u32_is_ok m 0 0 ltac:(lia) ltac:(lia)) as [m' Hw]. exists m'. split; [done|]. split.
  - by rewrite (store_u32_length _ _ _ _ Hw).
  - rewrite (load_store_i32_same _ _ _ _ Hw); [done|]. unfold is_signed. lia.
  - intros i e Hi. by rewrite lookup_nil in Hi.
  - constructor.
Qed.

(** C31: the header page is a list of records with distinct names.  Every
    sequence of insertions, deletions, updates and lookups of names of up to 31
    characters gives, on the bytes of the page, the answers it gives on the
    list: duplicates are refused, the other records are kept, the order of
    insertion is kept.  The sequence fails exactly at an assertion (an invalid
    page id, a deletion from an empty page) or at the insertion of one record
    more than the page holds, which writes past its end. *)
Theorem HeaderPage_refines_list (ops : list hp_op) m l :
  header_rep m l -> Forall hp_op_ok ops ->
  match run_ops header_exec ops l with
  | Ok (answers, l') => exists m', run_ops HP_exec ops m = Ok (answers, m') /\ header_rep m' l'
  | Err e => run_ops HP_exec ops m = Err e
  end.
Proof.
  intros Hrep Hops. revert m l Hrep. induction Hops as [|op ops Hop _ IH]; intros m l Hrep; cbn [run_ops]; [by exists m|].
  pose proof (header_exec_ok op m l Hrep Hop) as He. destruct (header_exec op l) as [[a l1]|e]; cbn [rbind]; [|by rewrite He].
  destruct He as (m1 & -> & Hrep1). cbn [rbind]. specialize (IH m1 l1 Hrep1).
  destruct (run_ops header_exec ops l1) as [[rs l2]|e]; cbn [rbind]; [|by rewrite IH].
  destruct IH as (m2 & -> & Hrep2). by exists m2.
Qed.
End Runs.

(** On a page with room for two records: a duplicate, an update, a deletion and
    the insertion that goes past the end. *)
Definition small_page : Config := {|
  PAGE_SIZE := 80; INVALID_PAGE_ID := -1; INVALID_LSN := -1; HEADER_PAGE_ID := 0;
  PAGE_SIZE_pos := ltac:(lia); PAGE_SIZE_int := ltac:(lia); INVALID_PAGE_ID_neg := ltac:(lia);
  INVALID_LSN_int := ltac:(lia); HEADER_PAGE_ID_nonneg := ltac:(lia)
|}.

Lemma HeaderPage_refines_list_witness :
  exists m m' : bytes, HP_Init (replicate 80 0) = Ok m
    /\ run_ops (HP_exec (H := small_page))
         [HInsert [97] 5; HInsert [98; 99] 6; HInsert [97] 7; HUpdate [97] 8; HGet [97]; HDelete [97]; HGet [97]; HGet [98; 99]] m
       = Ok ([HBool true; HBool true; HBool false; HBool true; HRoot (Some 8); HBool true; HRoot None; HRoot (Some 6)], m')
    /\ run_ops (HP_exec (H := small_page)) [HInsert [97] 5; HInsert [98] 6; HInsert [99] 7] m = Err OutOfBounds.
Proof.
  destruct (HP_Init_ok (H := small_page) (replicate 80 0)) as (m & Hm & Hrep); [done|done|].
  pose proof (HeaderPage_refines_list (H := small_page)
    [HInsert [97] 5; HInsert [98; 99] 6; HInsert [97] 7; HUpdate [97] 8; HGet [97]; HDelete [97]; HGet [97]; HGet [98; 99]]
    m [] Hrep) as H1.
  pose proof (HeaderPage_refines_list (H := small_page) [HInsert [97] 5; HInsert [98] 6; HInsert [99] 7] m [] Hrep) as H2.
  destruct H1 as (m' & H1 & _); [repeat first [done|lia|constructor]|].
  exists m, m'. split; [done|]. split; [exact H1|]. apply H2. repeat first [done|lia|constructor].
Defined.
