(* ===== verification/BPlusTreePage.v ===== *)
(** The pages of the B+ tree ([src/storage/page/b_plus_tree_page.cpp],
    [src/include/storage/page/b_plus_tree_page.h],
    [src/include/storage/page/b_plus_tree_leaf_page.h],
    [src/include/storage/page/b_plus_tree_internal_page.h]).

    A page is the record of its members; the array is a list of as many entries as
    the class declares.  An access outside of the array is [Err OutOfBounds].  The
    methods that move entries between pages are empty in the code. *)

From S2P Require Import Prelude HashBucketPage HeaderPage.

(** ** Definitions *)

(** *** The header *)

Inductive IndexPageType : Type := INVALID_INDEX_PAGE | LEAF_PAGE | INTERNAL_PAGE.
#[export] Instance IndexPageType_eq_dec : EqDecision IndexPageType.
Proof. solve_decision. Defined.

Record BPlusTreePage : Type := MkBPage {
  bp_page_type_ : IndexPageType;
  bp_lsn_ : Z;
  bp_size_ : Z;
  bp_max_size_ : Z;
  bp_parent_page_id_ : Z;
  bp_page_id_ : Z
}.

Section Header.
Context `{Config}.
Implicit Types (p : BPlusTreePage).

Definition BPlusTreePage_default : BPlusTreePage :=
  MkBPage INVALID_INDEX_PAGE INVALID_LSN 0 0 INVALID_PAGE_ID INVALID_PAGE_ID.
Definition IsLeafPage p : bool := bool_decide (bp_page_type_ p = LEAF_PAGE).
Definition IsRootPage p : bool := bool_decide (bp_page_type_ p = INTERNAL_PAGE).
Definition SetPageType (page_type : IndexPageType) p : BPlusTreePage :=
  MkBPage page_type (bp_lsn_ p) (bp_size_ p) (bp_max_size_ p) (bp_parent_page_id_ p) (bp_page_id_ p).
Definition SetSize (size : Z) p : BPlusTreePage :=
  MkBPage (bp_page_type_ p) (bp_lsn_ p) size (bp_max_size_ p) (bp_parent_page_id_ p) (bp_page_id_ p).
Definition IncreaseSize (amount : Z) p : res BPlusTreePage := let! size := int_op (bp_size_ p + amount) in Ok (SetSize size p).
Definition SetMaxSize (size : Z) p : BPlusTreePage :=
  MkBPage (bp_page_type_ p) (bp_lsn_ p) (bp_size_ p) size (bp_parent_page_id_ p) (bp_page_id_ p).
Definition GetMinSize p : res Z := let! x := int_op (bp_max_size_ p + 1) in Ok (Z.quot x 2).
Definition SetParentPageId (parent_page_id : Z) p : BPlusTreePage :=
  MkBPage (bp_page_type_ p) (bp_lsn_ p) (bp_size_ p) (bp_max_size_ p) parent_page_id (bp_page_id_ p).
Definition BPage_SetPageId (page_id : Z) p : BPlusTreePage :=
  MkBPage (bp_page_type_ p) (bp_lsn_ p) (bp_size_ p) (bp_max_size_ p) (bp_parent_page_id_ p) page_id.
Definition BPage_SetLSN (lsn : Z) p : BPlusTreePage :=
  MkBPage (bp_page_type_ p) lsn (bp_size_ p) (bp_max_size_ p) (bp_parent_page_id_ p) (bp_page_id_ p).

(** [Init] of both kinds: neither the type nor the size is set. *)
Definition BPage_Init (page_id parent_id max_size : Z) p : BPlusTreePage :=
  SetMaxSize max_size (SetParentPageId parent_id (BPage_SetPageId page_id p)).
End Header.

(** *** Arrays *)

Section Arrays.
Context {K V : Type} `{!MappingType K V}.
Implicit Types (array : list (K * V)).

(** The loop that looks for a key, [n] rounds from [i]; -1 if it finds none. *)
Fixpoint key_loop (n : nat) (i : Z) (key : K) array : res Z :=
  match n with
  | O => Ok (-1)
  | S n => let! e := zlookup array i in if KeyComparator (V := V) key e.1 =? 0 then Ok i else key_loop n (i + 1) key array
  end.

(** The loop that looks for a value: the index behind the last round if it
    finds none. *)
Fixpoint value_loop (n : nat) (index : Z) (value : V) array : res Z :=
  match n with
  | O => Ok index
  | S n => let! e := zlookup array index in
           if ValueType_eqb (K := K) e.2 value then Ok index else value_loop n (index + 1) value array
  end.

(** [array_[i + 1] = array_[i]], [n] rounds down from [i]. *)
Fixpoint up_loop (n : nat) (i : Z) array : res (list (K * V)) :=
  match n with
  | O => Ok array
  | S n => let! e := zlookup array i in let! array := zupdate array (i + 1) e in up_loop n (i - 1) array
  end.

(** [array_[i] = array_[i + 1]], [n] rounds up from [i]. *)
Fixpoint down_loop (n : nat) (i : Z) array : res (list (K * V)) :=
  match n with
  | O => Ok array
  | S n => let! e := zlookup array (i + 1) in let! array := zupdate array i e in down_loop n (i + 1) array
  end.
End Arrays.

(** *** Leaf pages *)

Record BPlusTreeLeafPage (K V : Type) : Type := MkLeaf {
  lf_base : BPlusTreePage;
  next_page_id_ : Z;
  lf_array_ : list (K * V)
}.
Arguments MkLeaf {K V}. Arguments lf_base {K V}. Arguments next_page_id_ {K V}. Arguments lf_array_ {K V}.

Section Leaf.
Context `{Config} {K V : Type} `{!MappingType K V}.
Implicit Types (p : BPlusTreeLeafPage K V) (key : K) (value : V).

Definition LEAF_PAGE_SIZE : Z := (PAGE_SIZE - 28) / sizeof_MappingType (K := K) (V := V).
Definition lf_size p : Z := bp_size_ (lf_base p).
Definition lf_set (size : Z) (array : list (K * V)) p : BPlusTreeLeafPage K V :=
  MkLeaf (SetSize size (lf_base p)) (next_page_id_ p) array.

Definition Leaf_Init (page_id parent_id max_size : Z) p : BPlusTreeLeafPage K V :=
  MkLeaf (BPage_Init page_id parent_id max_size (lf_base p)) (next_page_id_ p) (lf_array_ p).
Definition SetNextPageId (next_page_id : Z) p : BPlusTreeLeafPage K V := MkLeaf (lf_base p) next_page_id (lf_array_ p).
Definition Leaf_KeyAt (index : Z) p : res K := let! e := zlookup (lf_array_ p) index in Ok e.1.
Definition Leaf_KeyIndex key p : res Z := key_loop (Z.to_nat (lf_size p)) 0 key (lf_array_ p).
Definition Leaf_GetItem (index : Z) p : res (K * V) := zlookup (lf_array_ p) index.

Definition Leaf_Insert key value p : res (Z * BPlusTreeLeafPage K V) :=
  let! i := key_loop (Z.to_nat (lf_size p)) 0 key (lf_array_ p) in
  if negb (i =? -1) then Ok (lf_size p, p) else
  let! array := zupdate (lf_array_ p) (lf_size p) (key, value) in
  let! size := int_op (lf_size p + 1) in
  Ok (size, lf_set size array p).

Definition Leaf_Lookup key p : res (option V) :=
  let! i := key_loop (Z.to_nat (lf_size p)) 0 key (lf_array_ p) in
  if i =? -1 then Ok None else let! e := zlookup (lf_array_ p) i in Ok (Some e.2).

(** The outer loop; the inner one ends after its first round. *)
Fixpoint Leaf_Remove_loop (n : nat) (i : Z) key p : res (BPlusTreeLeafPage K V) :=
  match n with
  | O => Ok p
  | S n =>
      if i <? lf_size p then
        let! e := zlookup (lf_array_ p) i in
        let! p :=
          if KeyComparator (V := V) key e.1 =? 0 then
            let! next := zlookup (lf_array_ p) (i + 1) in
            let! array := zupdate (lf_array_ p) i next in
            let! size := int_op (lf_size p - 1) in
            Ok (lf_set size array p)
          else Ok p in
        Leaf_Remove_loop n (i + 1) key p
      else Ok p
  end.
Definition RemoveAndDeleteRecord key p : res (Z * BPlusTreeLeafPage K V) :=
  let! p := Leaf_Remove_loop (Z.to_nat (lf_size p)) 0 key p in Ok (lf_size p, p).
End Leaf.

(** *** Internal pages; the values are page ids *)

Record BPlusTreeInternalPage (K : Type) : Type := MkInternal {
  in_base : BPlusTreePage;
  in_array_ : list (K * Z)
}.
Arguments MkInternal {K}. Arguments in_base {K}. Arguments in_array_ {K}.

Section Internal.
Context `{Config} {K : Type} `{!MappingType K Z}.
Implicit Types (p : BPlusTreeInternalPage K) (key : K) (value : Z).

Definition INTERNAL_PAGE_SIZE : Z := (PAGE_SIZE - 24) / sizeof_MappingType (K := K) (V := Z).
Definition in_size p : Z := bp_size_ (in_base p).
Definition in_set (size : Z) (array : list (K * Z)) p : BPlusTreeInternalPage K := MkInternal (SetSize size (in_base p)) array.

Definition Internal_Init (page_id parent_id max_size : Z) p : BPlusTreeInternalPage K :=
  MkInternal (BPage_Init page_id parent_id max_size (in_base p)) (in_array_ p).
Definition Internal_KeyAt (index : Z) p : res K := let! e := zlookup (in_array_ p) index in Ok e.1.
Definition SetKeyAt (index : Z) key p : res (BPlusTreeInternalPage K) :=
  let! e := zlookup (in_array_ p) index in
  let! array := zupdate (in_array_ p) index (key, e.2) in
  Ok (MkInternal (in_base p) array).
Definition ValueIndex value p : res Z := value_loop (Z.to_nat (in_size p)) 0 value (in_array_ p).
Definition ValueAt (index : Z) p : res Z := let! e := zlookup (in_array_ p) index in Ok e.2.

Definition Internal_Lookup key p : res Z :=
  let! i := key_loop (Z.to_nat (in_size p)) 0 key (in_array_ p) in
  if i =? -1 then Ok INVALID_PAGE_ID else let! e := zlookup (in_array_ p) i in Ok e.2.

Definition PopulateNewRoot (old_value : Z) (new_key : K) (new_value : Z) p : res (BPlusTreeInternalPage K) :=
  let! e := zlookup (in_array_ p) 0 in
  let! array := zupdate (in_array_ p) 0 (e.1, old_value) in
  let! array := zupdate array 1 (new_key, new_value) in
  Ok (in_set 2 array p).

Definition InsertNodeAfter (old_value : Z) (new_key : K) (new_value : Z) p : res (Z * BPlusTreeInternalPage K) :=
  let! index := ValueIndex old_value p in
  let! index := int_op (index + 1) in
  let! array := up_loop (Z.to_nat (in_size p - index)) (in_size p - 1) (in_array_ p) in
  let! array := zupdate array index (new_key, new_value) in
  let! size := int_op (in_size p + 1) in
  Ok (size, in_set size array p).

Definition Internal_Remove (index : Z) p : res (BPlusTreeInternalPage K) :=
  let! array := down_loop (Z.to_nat (in_size p - index)) index (in_array_ p) in
  let! size := int_op (in_size p - 1) in
  Ok (in_set size array p).

Definition RemoveAndReturnOnlyChild p : res (Z * BPlusTreeInternalPage K) :=
  let! e := zlookup (in_array_ p) 1 in Ok (e.2, in_set 1 (in_array_ p) p).
End Internal.

(** ** The header *)

Section HeaderLemmas.
Context `{Config}.

(** Half of the capacity, rounded up. *)
Lemma GetMinSize_ok p : 0 <= bp_max_size_ p < 2 ^ 31 - 1 -> GetMinSize p = Ok ((bp_max_size_ p + 1) / 2).
Proof. intros Hp. unfold GetMinSize. rewrite int_op_ok by (unfold is_signed; lia). cbn [rbind]. by rewrite Z.quot_div_nonneg by lia. Qed.

Lemma IncreaseSize_ok p amount : is_signed 32 (bp_size_ p + amount) ->
  exists p', IncreaseSize amount p = Ok p' /\ bp_size_ p' = bp_size_ p + amount /\ bp_max_size_ p' = bp_max_size_ p.
Proof. intros Hs. unfold IncreaseSize. rewrite int_op_ok by done. by eexists. Qed.
End HeaderLemmas.

(** ** The loops *)

Definition index_of (o : option nat) : Z := from_option Z.of_nat (-1) o.

Lemma index_of_found o : (index_of o =? -1) = match o with Some _ => false | None => true end.
Proof. destruct o as [i|]; [|done]. cbn. apply Z.eqb_neq. lia. Qed.

Section Loops.
Context {K V : Type} `{!MappingType K V}.
Implicit Types (l array : list (K * V)) (key : K) (value : V).

(** The first entry of a key, of a value. *)
Definition pos_of key l : option nat := fst <$> list_find (fun e => KeyComparator (V := V) key e.1 = 0) l.

Lemma pos_of_cons key e l :
  pos_of key (e :: l) = if decide (KeyComparator (V := V) key e.1 = 0) then Some O else S <$> pos_of key l.
Proof. unfold pos_of. cbn [list_find]. case_decide; [done|]. by destruct (list_find _ l) as [[]|]. Qed.

Lemma pos_of_some key l (i : nat) : pos_of key l = Some i ->
  exists e, l !! i = Some e /\ KeyComparator (V := V) key e.1 = 0 /\ forall j e', (j < i)%nat -> l !! j = Some e' -> KeyComparator (V := V) key e'.1 <> 0.
Proof.
  unfold pos_of. destruct (list_find _ l) as [[i' e]|] eqn:Hf; [|done]. intros [= <-]. apply list_find_Some in Hf as (Hi & Hk & Hlt).
  exists e. split_and!; [done|done|]. intros j e' Hj He. by apply (Hlt j e').
Qed.

Lemma pos_of_none key l (i : nat) e : pos_of key l = None -> l !! i = Some e -> KeyComparator (V := V) key e.1 <> 0.
Proof.
  unfold pos_of. destruct (list_find _ l) as [[i' e']|] eqn:Hf; [done|]. intros _ Hi. rewrite list_find_None, Forall_lookup in Hf. by apply (Hf i).
Qed.

Lemma key_loop_ok n (i : nat) key array : (i + n <= length array)%nat ->
  key_loop n (Z.of_nat i) key array = Ok (index_of (Nat.add i <$> pos_of key (take n (drop i array)))).
Proof.
  revert i. induction n as [|n IH]; intros i Hn; [done|]. destruct (lookup_lt_is_Some_2 array i ltac:(lia)) as [e He].
  cbn [key_loop]. rewrite (zlookup_nat _ _ _ He). cbn [rbind]. rewrite (drop_S _ _ _ He), firstn_cons, pos_of_cons.
  destruct (Z.eqb_spec (KeyComparator (V := V) key e.1) 0) as [Hk|Hk]; [rewrite decide_True by done; cbn; by rewrite Nat.add_0_r|].
  rewrite decide_False by done. replace (Z.of_nat i + 1) with (Z.of_nat (S i)) by lia. rewrite IH by lia. f_equal.
  destruct (pos_of key _) as [j|]; [|done]. cbn [fmap option_fmap option_map index_of from_option]. lia.
Qed.

Lemma up_loop_ok n (idx : nat) array : (idx + n < length array)%nat ->
  exists array', up_loop n (Z.of_nat (idx + n) - 1) array = Ok array' /\ length array' = length array
    /\ forall j : nat, array' !! j = if decide (idx < j <= idx + n)%nat then array !! (j - 1)%nat else array !! j.
Proof.
  revert array. induction n as [|n IH]; intros array Hn; cbn [up_loop].
  - exists array. split_and!; [done|done|]. intros j. by rewrite decide_False by lia.
  - destruct (lookup_lt_is_Some_2 array (idx + n) ltac:(lia)) as [e He]. replace (Z.of_nat (idx + S n) - 1) with (Z.of_nat (idx + n)) by lia.
    rewrite (zlookup_nat _ _ _ He). cbn [rbind]. rewrite zupdate_ok by lia. cbn [rbind].
    destruct (IH (<[Z.to_nat (Z.of_nat (idx + n) + 1) := e]> array)) as (array' & Hrun & Hl & Hlook); [rewrite length_insert; lia|].
    rewrite Hrun. exists array'. split_and!; [done|by rewrite Hl, length_insert|]. intros j. rewrite Hlook.
    replace (Z.to_nat (Z.of_nat (idx + n) + 1)) with (S (idx + n)) by lia.
    destruct (decide (idx < j <= idx + n)%nat).
    + rewrite decide_True by lia. by rewrite list_lookup_insert_ne by lia.
    + destruct (decide (j = S (idx + n))) as [->|Hj].
      * rewrite decide_True, list_lookup_insert_eq by lia. rewrite <- He. f_equal. lia.
      * rewrite decide_False by lia. by rewrite list_lookup_insert_ne by lia.
Qed.

Lemma down_loop_ok n (i : nat) array : (i + n < length array)%nat ->
  exists array', down_loop n (Z.of_nat i) array = Ok array' /\ length array' = length array
    /\ forall j : nat, array' !! j = if decide (i <= j < i + n)%nat then array !! S j else array !! j.
Proof.
  revert i array. induction n as [|n IH]; intros i array Hn; cbn [down_loop].
  - exists array. split_and!; [done|done|]. intros j. by rewrite decide_False by lia.
  - destruct (lookup_lt_is_Some_2 array (S i) ltac:(lia)) as [e He]. replace (Z.of_nat i + 1) with (Z.of_nat (S i)) by lia.
    rewrite (zlookup_nat _ _ _ He). cbn [rbind]. rewrite zupdate_ok by lia. cbn [rbind]. rewrite Nat2Z.id.
    destruct (IH (S i) (<[i := e]> array)) as (array' & Hrun & Hl & Hlook); [rewrite length_insert; lia|].
    rewrite Hrun. exists array'. split_and!; [done|by rewrite Hl, length_insert|]. intros j. rewrite Hlook.
    destruct (decide (j = i)) as [->|Hj].
    + rewrite decide_False, decide_True, list_lookup_insert_eq by lia. done.
    + destruct (decide (S i <= j < S i + n)%nat).
      * rewrite list_lookup_insert_ne by lia. by rewrite decide_True by lia.
      * rewrite list_lookup_insert_ne by lia. by rewrite decide_False by lia.
Qed.

(** One entry too many: the loop runs past the end of the array. *)
Lemma down_loop_past n (i : nat) array : (0 < n)%nat -> (i + n = length array)%nat -> down_loop n (Z.of_nat i) array = Err OutOfBounds.
Proof.
  revert i array. induction n as [|n IH]; intros i array Hn Hl; [lia|]. cbn [down_loop].
  replace (Z.of_nat i + 1) with (Z.of_nat (S i)) by lia. destruct (decide (n = O)) as [->|Hne].
  - unfold zlookup. rewrite decide_True by lia. rewrite Nat2Z.id, lookup_ge_None_2 by lia. done.
  - destruct (lookup_lt_is_Some_2 array (S i) ltac:(lia)) as [e He]. rewrite (zlookup_nat _ _ _ He). cbn [rbind].
    rewrite zupdate_ok by lia. cbn [rbind]. apply IH; [lia|rewrite length_insert; lia].
Qed.
End Loops.

(** ** Leaf pages *)

Section LeafLemmas.
Context `{Config} {K V : Type} `{!MappingType K V} `{!MappingOk K V}.
Implicit Types (p : BPlusTreeLeafPage K V) (l : list (K * V)) (key : K) (value : V).
Notation capacity := (LEAF_PAGE_SIZE (K := K) (V := V)).

(** No two entries have keys that compare equal. *)
Definition keys_differ l : Prop := forall (i j : nat) a b, l !! i = Some a -> l !! j = Some b -> KeyComparator (V := V) a.1 b.1 = 0 -> i = j.

(** The page holds the entries [l]. *)
Record leaf_rep p l : Prop := {
  lr_size : lf_size p = Z.of_nat (length l);
  lr_array : Z.of_nat (length (lf_array_ p)) = capacity;
  lr_entries : take (length l) (lf_array_ p) = l;
  lr_keys : keys_differ l
}.

Lemma capacity_int : capacity < 2 ^ 31.
Proof using All.
  unfold LEAF_PAGE_SIZE. destruct (sizeof_ok (K := K) (V := V)) as [Hs _]. pose proof PAGE_SIZE_int.
  destruct (Z.le_gt_cases 0 (PAGE_SIZE - 28)) as [Hp|Hp].
  - pose proof (Z.div_le_upper_bound (PAGE_SIZE - 28) (sizeof_MappingType (K := K) (V := V)) (PAGE_SIZE - 28) Hs). nia.
  - pose proof (Z.div_lt_upper_bound (PAGE_SIZE - 28) (sizeof_MappingType (K := K) (V := V)) 0 Hs). lia.
Qed.

Lemma leaf_bound p l : leaf_rep p l -> (length l <= length (lf_array_ p))%nat.
Proof. intros Hr. rewrite <- (lr_entries _ _ Hr) at 1. rewrite length_take. lia. Qed.

Lemma leaf_entry p l (i : nat) e : leaf_rep p l -> l !! i = Some e -> lf_array_ p !! i = Some e.
Proof. intros Hr Hi. rewrite <- (lr_entries _ _ Hr) in Hi. by apply lookup_take_Some in Hi as [Hi _]. Qed.

Lemma leaf_find p l key : leaf_rep p l -> key_loop (Z.to_nat (lf_size p)) 0 key (lf_array_ p) = Ok (index_of (pos_of key l)).
Proof.
  intros Hr. pose proof (leaf_bound p l Hr). rewrite (lr_size _ _ Hr), Nat2Z.id.
  rewrite (key_loop_ok (length l) 0 key) by lia. rewrite drop_0, (lr_entries _ _ Hr). by destruct (pos_of key l).
Qed.

(** *** Insertion *)

Lemma keys_differ_snoc l key value : keys_differ l -> pos_of key l = None -> keys_differ (l ++ [(key, value)]).
Proof using All.
  intros Hd Hn i j a b [Hi|[Hi Ha]]%lookup_app_Some [Hj|[Hj Hb]]%lookup_app_Some Hc.
  - by apply (Hd i j a b).
  - apply list_lookup_singleton_Some in Hb as [_ <-]. apply cmp_sym in Hc. by apply (pos_of_none _ _ _ _ Hn Hi) in Hc.
  - apply list_lookup_singleton_Some in Ha as [_ <-]. by apply (pos_of_none _ _ _ _ Hn Hj) in Hc.
  - apply list_lookup_singleton_Some in Ha as [Ha _]. apply list_lookup_singleton_Some in Hb as [Hb _]. lia.
Qed.

Lemma Leaf_Insert_new p l key value : leaf_rep p l -> pos_of key l = None ->
  if decide (Z.of_nat (length l) < capacity)
  then exists p', Leaf_Insert key value p = Ok (Z.of_nat (length l) + 1, p') /\ leaf_rep p' (l ++ [(key, value)])
  else Leaf_Insert key value p = Err OutOfBounds.
Proof using All.
  intros Hr Hn. unfold Leaf_Insert. rewrite (leaf_find p l key Hr), Hn. cbn [rbind]. change (negb (index_of None =? -1)) with false. cbv beta iota.
  pose proof (lr_array _ _ Hr) as Ha. rewrite (lr_size _ _ Hr). pose proof capacity_int. case_decide as Hc.
  - rewrite zupdate_ok by lia. cbn [rbind]. rewrite int_op_ok by (unfold is_signed; lia). cbn [rbind]. rewrite Nat2Z.id.
    eexists. split; [done|]. split; cbn.
    + rewrite length_app. simpl. lia.
    + by rewrite length_insert.
    + rewrite length_app. cbn [length]. rewrite Nat.add_1_r, (take_S_r _ _ (key, value)) by (by rewrite list_lookup_insert_eq by lia).
      by rewrite take_insert_ge, (lr_entries _ _ Hr).
    + by apply keys_differ_snoc; [apply Hr|].
  - unfold zupdate. by rewrite decide_False by lia.
Qed.

(** *** Removal *)

(** The entry behind the one that goes takes its place, and the last entry is
    cut off. *)
Definition removed (i : nat) l : list (K * V) :=
  take (length l - 1) (match l !! S i with Some e => <[i := e]> l | None => l end).

Lemma Remove_loop_none n (i : nat) key p : (i + n <= length (lf_array_ p))%nat ->
  (forall (j : nat) e, (i <= j)%nat -> Z.of_nat j < lf_size p -> lf_array_ p !! j = Some e -> KeyComparator (V := V) key e.1 <> 0) ->
  Leaf_Remove_loop n (Z.of_nat i) key p = Ok p.
Proof.
  revert i. induction n as [|n IH]; intros i Hn Hno; cbn [Leaf_Remove_loop]; [done|].
  destruct (Z.ltb_spec (Z.of_nat i) (lf_size p)) as [Hi|Hi]; [|done].
  destruct (lookup_lt_is_Some_2 (lf_array_ p) i ltac:(lia)) as [e He]. rewrite (zlookup_nat _ _ _ He). cbn [rbind].
  destruct (Z.eqb_spec (KeyComparator (V := V) key e.1) 0) as [Hk|Hk]; [by destruct (Hno i e)|]. cbn [rbind].
  replace (Z.of_nat i + 1) with (Z.of_nat (S i)) by lia. apply IH; [lia|]. intros j e' Hj. apply Hno. lia.
Qed.

Lemma Remove_loop_found n (i k : nat) key p l :
  leaf_rep p l -> pos_of key l = Some k -> (i <= k)%nat -> (i + n = length l)%nat ->
  Leaf_Remove_loop n (Z.of_nat i) key p =
    let! next := zlookup (lf_array_ p) (Z.of_nat k + 1) in
    Ok (lf_set (Z.of_nat (length l) - 1) (<[k := next]> (lf_array_ p)) p).
Proof using All.
  intros Hr Hk. pose proof (leaf_bound p l Hr) as Hb. pose proof (lr_size _ _ Hr) as Hs. pose proof (lr_array _ _ Hr) as Ha. pose proof capacity_int as Hint.
  destruct (pos_of_some key l k Hk) as (e & He & Hm & Hlt). pose proof (lookup_lt_Some _ _ _ He) as Hkl.
  revert i. induction n as [|n IH]; intros i Hi Hn; [lia|]. cbn [Leaf_Remove_loop]. rewrite (proj2 (Z.ltb_lt _ _)) by lia.
  destruct (lookup_lt_is_Some_2 l i ltac:(lia)) as [x Hx]. rewrite (zlookup_nat _ _ _ (leaf_entry _ _ _ _ Hr Hx)). cbn [rbind].
  destruct (decide (i = k)) as [->|Hne].
  - assert (x = e) as -> by congruence. rewrite (proj2 (Z.eqb_eq _ _) Hm).
    destruct (zlookup (lf_array_ p) (Z.of_nat k + 1)) as [next|er]; [|done]. cbn [rbind]. rewrite zupdate_ok by lia. cbn [rbind].
    rewrite Hs, int_op_ok by (unfold is_signed; lia). cbn [rbind]. rewrite Nat2Z.id.
    replace (Z.of_nat k + 1) with (Z.of_nat (S k)) by lia. apply Remove_loop_none; cbn.
    + rewrite length_insert. lia.
    + intros j e' Hj Hjl He' Hc. rewrite list_lookup_insert_ne in He' by lia.
      assert (Hl : l !! j = Some e').
      { destruct (lookup_lt_is_Some_2 l j ltac:(lia)) as [y Hy]. rewrite (leaf_entry _ _ _ _ Hr Hy) in He'. by simplify_eq. }
      assert (k = j); [|lia]. apply (lr_keys _ _ Hr k j e e' He Hl). apply (cmp_trans _ key); [by apply cmp_sym|done].
  - rewrite (proj2 (Z.eqb_neq _ _)) by (by apply (Hlt i x); [lia|]). cbn [rbind].
    replace (Z.of_nat i + 1) with (Z.of_nat (S i)) by lia. apply IH; lia.
Qed.

(** The array after a removal. *)
Lemma removed_entries p l (k : nat) next : leaf_rep p l -> (k < length l)%nat -> lf_array_ p !! S k = Some next ->
  take (length l - 1) (<[k := next]> (lf_array_ p)) = removed k l.
Proof.
  intros Hr Hk Hnext. pose proof (leaf_bound p l Hr) as Hb. unfold removed. apply list_eq. intros j.
  destruct (decide (j < length l - 1)%nat) as [Hj|Hj]; [|rewrite !lookup_take_ge by lia; done].
  rewrite !lookup_take_lt by lia. destruct (l !! S k) as [e|] eqn:He.
  - rewrite (leaf_entry _ _ _ _ Hr He) in Hnext. simplify_eq. destruct (decide (j = k)) as [->|Hne].
    + rewrite !list_lookup_insert_eq by lia. done.
    + rewrite !list_lookup_insert_ne by lia. destruct (lookup_lt_is_Some_2 l j ltac:(lia)) as [x Hx]. by rewrite Hx, (leaf_entry _ _ _ _ Hr Hx).
  - apply lookup_ge_None in He. rewrite list_lookup_insert_ne by lia.
    destruct (lookup_lt_is_Some_2 l j ltac:(lia)) as [x Hx]. by rewrite Hx, (leaf_entry _ _ _ _ Hr Hx).
Qed.

(** Only one of the last two entries goes alone. *)
Lemma removed_delete (i : nat) l : (i < length l)%nat -> keys_differ l -> removed i l = delete i l <-> (length l <= i + 2)%nat.
Proof using All.
  intros Hi Hd. unfold removed. split.
  - intros E. destruct (Nat.le_gt_cases (length l) (i + 2)) as [?|Hl]; [done|]. exfalso.
    destruct (lookup_lt_is_Some_2 l (S i) ltac:(lia)) as [x Hx]. destruct (lookup_lt_is_Some_2 l (S (S i)) ltac:(lia)) as [y Hy].
    rewrite Hx in E. apply (f_equal (fun l => l !! S i)) in E. rewrite lookup_take_lt, list_lookup_insert_ne, list_lookup_delete_ge in E by lia.
    rewrite Hx, Hy in E. simplify_eq. specialize (Hd _ _ _ _ Hx Hy (cmp_refl _)). lia.
  - intros Hl. apply list_eq. intros j. destruct (decide (j < length l - 1)%nat) as [Hj|Hj].
    + rewrite lookup_take_lt by lia. destruct (decide (j < i)%nat) as [Hji|Hji].
      * rewrite list_lookup_delete_lt by lia. destruct (l !! S i); [|done]. by rewrite list_lookup_insert_ne by lia.
      * assert (j = i) as -> by lia. rewrite list_lookup_delete_ge by lia. destruct (lookup_lt_is_Some_2 l (S i) ltac:(lia)) as [x Hx].
        rewrite Hx. by rewrite list_lookup_insert_eq by lia.
    + rewrite lookup_take_ge by lia. symmetry. apply lookup_ge_None. rewrite length_delete; [lia|]. by apply lookup_lt_is_Some_2.
Qed.

Lemma keys_differ_delete (i : nat) l : keys_differ l -> keys_differ (delete i l).
Proof.
  intros Hd a b x y Ha Hb Hc.
  assert (Hpos : forall (j : nat) z, delete i l !! j = Some z -> l !! (if decide (j < i)%nat then j else S j) = Some z).
  { intros j z Hj. case_decide; [by rewrite list_lookup_delete_lt in Hj by lia|by rewrite list_lookup_delete_ge in Hj by lia]. }
  pose proof (Hd _ _ _ _ (Hpos _ _ Ha) (Hpos _ _ Hb) Hc) as E. repeat case_decide; lia.
Qed.
End LeafLemmas.

(** *** The calls of a leaf page, and what they do to a list of entries *)

Section LeafRuns.
Context `{Config} {K V : Type} `{!MappingType K V} `{!MappingOk K V}.
Implicit Types (p : BPlusTreeLeafPage K V) (l : list (K * V)) (key : K) (value : V).
Notation capacity := (LEAF_PAGE_SIZE (K := K) (V := V)).

Inductive leaf_op : Type :=
| LInsert (key : K) (value : V)
| LLookup (key : K)
| LKeyIndex (key : K)
| LGetItem (index : Z)
| LRemove (key : K).

Inductive leaf_answer : Type :=
| LSize (size : Z)
| LValue (value : option V)
| LIndex (index : Z)
| LItem (item : K * V).

Definition Leaf_exec (op : leaf_op) p : res (leaf_answer * BPlusTreeLeafPage K V) :=
  match op with
  | LInsert key value => let! ' (size, p) := Leaf_Insert key value p in Ok (LSize size, p)
  | LLookup key => let! value := Leaf_Lookup key p in Ok (LValue value, p)
  | LKeyIndex key => let! index := Leaf_KeyIndex key p in Ok (LIndex index, p)
  | LGetItem index => let! item := Leaf_GetItem index p in Ok (LItem item, p)
  | LRemove key => let! ' (size, p) := RemoveAndDeleteRecord key p in Ok (LSize size, p)
  end.

Definition entries_exec (op : leaf_op) l : res (leaf_answer * list (K * V)) :=
  match op with
  | LInsert key value =>
      match pos_of key l with
      | Some _ => Ok (LSize (Z.of_nat (length l)), l)
      | None => if decide (Z.of_nat (length l) < capacity) then Ok (LSize (Z.of_nat (length l) + 1), l ++ [(key, value)]) else Err OutOfBounds
      end
  | LLookup key => Ok (LValue (snd <$> (pos_of key l ≫= fun i => l !! i)), l)
  | LKeyIndex key => Ok (LIndex (index_of (pos_of key l)), l)
  | LGetItem index => let! item := zlookup l index in Ok (LItem item, l)
  | LRemove key =>
      match pos_of key l with
      | None => Ok (LSize (Z.of_nat (length l)), l)
      | Some i => if decide (Z.of_nat (S i) < capacity) then Ok (LSize (Z.of_nat (length l) - 1), delete i l) else Err OutOfBounds
      end
  end.

(** Items are asked for within the size; a removal is of an absent key or of one
    of the last two. *)
Definition leaf_op_ok (op : leaf_op) l : Prop :=
  match op with
  | LGetItem index => 0 <= index < Z.of_nat (length l)
  | LRemove key => match pos_of key l with Some i => (length l <= i + 2)%nat | None => True end
  | _ => True
  end.

Fixpoint run_calls {O A T} (exec : O -> T -> res (A * T)) (ops : list O) (t : T) : res (list A * T) :=
  match ops with
  | [] => Ok ([], t)
  | op :: ops => let! ' (a, t) := exec op t in let! ' (rs, t) := run_calls exec ops t in Ok (a :: rs, t)
  end.
Fixpoint calls_disciplined {O A T} (ok : O -> T -> Prop) (exec : O -> T -> res (A * T)) (ops : list O) (t : T) : Prop :=
  match ops with
  | [] => True
  | op :: ops => ok op t /\ match exec op t with Ok (_, t) => calls_disciplined ok exec ops t | Err _ => True end
  end.

(** A representation that every call keeps is kept by a run. *)
Lemma run_calls_ok {O A T U} (rep : U -> T -> Prop) (ok : O -> T -> Prop) (exec : O -> U -> res (A * U)) (aexec : O -> T -> res (A * T)) ops :
  (forall op u t, rep u t -> ok op t ->
     match aexec op t with Ok (a, t') => exists u', exec op u = Ok (a, u') /\ rep u' t' | Err e => exec op u = Err e end) ->
  forall u t, rep u t -> calls_disciplined ok aexec ops t ->
  match run_calls aexec ops t with
  | Ok (answers, t') => exists u', run_calls exec ops u = Ok (answers, u') /\ rep u' t'
  | Err e => run_calls exec ops u = Err e
  end.
Proof.
  intros Hstep. induction ops as [|op ops IH]; intros u t Hr Hok; cbn [run_calls calls_disciplined] in *; [by exists u|].
  destruct Hok as [Hop Hok]. specialize (Hstep op u t Hr Hop). destruct (aexec op t) as [[a t1]|e]; cbn [rbind]; [|by rewrite Hstep].
  destruct Hstep as (u1 & -> & Hr1). cbn [rbind]. specialize (IH u1 t1 Hr1 Hok). destruct (run_calls aexec ops t1) as [[rs t2]|e]; cbn [rbind]; [|by rewrite IH].
  destruct IH as (u2 & -> & Hr2). by exists u2.
Qed.

(** The entries of a page. *)
Definition leaf_entries p : list (K * V) := take (Z.to_nat (lf_size p)) (lf_array_ p).

Lemma RemoveAndDeleteRecord_cases p l key : leaf_rep p l ->
  match pos_of key l with
  | None => RemoveAndDeleteRecord key p = Ok (Z.of_nat (length l), p)
  | Some i =>
      if decide (Z.of_nat (S i) < capacity)
      then exists p', RemoveAndDeleteRecord key p = Ok (Z.of_nat (length l) - 1, p') /\ lf_size p' = Z.of_nat (length l) - 1
        /\ Z.of_nat (length (lf_array_ p')) = capacity /\ leaf_entries p' = removed i l
      else RemoveAndDeleteRecord key p = Err OutOfBounds
  end.
Proof using All.
  intros Hr. pose proof (leaf_bound p l Hr) as Hb. pose proof (lr_array _ _ Hr) as Ha. unfold RemoveAndDeleteRecord. rewrite (lr_size _ _ Hr), Nat2Z.id.
  change (Leaf_Remove_loop (length l) 0 key p) with (Leaf_Remove_loop (length l) (Z.of_nat 0) key p).
  destruct (pos_of key l) as [i|] eqn:Hi.
  - rewrite (Remove_loop_found (length l) 0 i key p l Hr Hi) by lia. destruct (pos_of_some _ _ _ Hi) as (e & He & _). apply lookup_lt_Some in He as Hil.
    replace (Z.of_nat i + 1) with (Z.of_nat (S i)) by lia. case_decide as Hc.
    + destruct (lookup_lt_is_Some_2 (lf_array_ p) (S i) ltac:(lia)) as [next Hn]. rewrite (zlookup_nat _ _ _ Hn). cbn [rbind].
      eexists. split; [done|]. split; [done|]. split; [cbn; by rewrite length_insert|]. unfold leaf_entries. cbn.
      replace (Z.to_nat (Z.of_nat (length l) - 1)) with (length l - 1)%nat by lia. by apply removed_entries.
    + unfold zlookup. rewrite decide_True by lia. rewrite lookup_ge_None_2 by lia. done.
  - rewrite (Remove_loop_none (length l) 0) by (lia || (intros j e Hj Hjl He Hc; rewrite (lr_size _ _ Hr) in Hjl;
      destruct (lookup_lt_is_Some_2 l j ltac:(lia)) as [x Hx]; rewrite (leaf_entry _ _ _ _ Hr Hx) in He; simplify_eq; by apply (pos_of_none _ _ _ _ Hi Hx) in Hc)).
    cbn [rbind]. by rewrite (lr_size _ _ Hr).
Qed.

Lemma leaf_exec_ok op p l : leaf_rep p l -> leaf_op_ok op l ->
  match entries_exec op l with
  | Ok (a, l') => exists p', Leaf_exec op p = Ok (a, p') /\ leaf_rep p' l'
  | Err e => Leaf_exec op p = Err e
  end.
Proof using All.
  intros Hr Hop. pose proof (leaf_bound p l Hr) as Hb. destruct op as [key value|key|key|index|key]; cbn [Leaf_exec entries_exec leaf_op_ok] in *.
  - destruct (pos_of key l) as [i|] eqn:Hi.
    + unfold Leaf_Insert. rewrite (leaf_find p l key Hr), Hi. cbn [rbind]. rewrite index_of_found. cbn [negb]. rewrite (lr_size _ _ Hr). by exists p.
    + pose proof (Leaf_Insert_new p l key value Hr Hi) as Hn. case_decide; [destruct Hn as (p' & -> & Hr'); by exists p'|by rewrite Hn].
  - unfold Leaf_Lookup. rewrite (leaf_find p l key Hr). cbn [rbind]. rewrite index_of_found. exists p.
    destruct (pos_of key l) as [i|] eqn:Hi; [|done]. destruct (pos_of_some _ _ _ Hi) as (e & He & _). cbn [index_of from_option].
    rewrite (zlookup_nat _ _ _ (leaf_entry _ _ _ _ Hr He)). cbn. by rewrite He.
  - unfold Leaf_KeyIndex. rewrite (leaf_find p l key Hr). by exists p.
  - destruct (lookup_lt_is_Some_2 l (Z.to_nat index) ltac:(lia)) as [e He]. unfold Leaf_GetItem.
    assert (E : forall array : list (K * V), array !! Z.to_nat index = Some e -> zlookup array index = Ok e) by (intros; apply zlookup_ok; split; [lia|done]).
    rewrite (E _ He), (E _ (leaf_entry _ _ _ _ Hr He)). cbn [rbind]. by exists p.
  - pose proof (RemoveAndDeleteRecord_cases p l key Hr) as Hc. destruct (pos_of key l) as [i|] eqn:Hi; [|rewrite Hc; by exists p].
    destruct (pos_of_some _ _ _ Hi) as (e & He & _). apply lookup_lt_Some in He as Hil. case_decide as Hcap; [|by rewrite Hc].
    destruct Hc as (p' & -> & Hs & Ha & He'). exists p'. split; [done|].
    rewrite (proj2 (removed_delete i l Hil (lr_keys _ _ Hr)) Hop) in He'.
    assert (Hl : length (delete i l) = (length l - 1)%nat) by (rewrite length_delete; [done|by apply lookup_lt_is_Some_2]).
    split; [rewrite Hs, Hl; lia|done| |by apply keys_differ_delete, Hr]. rewrite <- He' at 2. unfold leaf_entries. rewrite Hs, Hl. f_equal. lia.
Qed.

(** C36: A leaf page of the B+ tree is a list of entries with different keys: every
    run of insertions, lookups and removals gives the answers it gives on the
    list.  An insertion appends, whatever the order of the keys, and refuses a key
    that is there; it fails, by a write past the array, exactly on a full page,
    and the removal of the last entry of a full page reads past it.  Removals are
    of absent keys or of one of the last two entries. *)
Theorem LeafPage_refines_entries (ops : list leaf_op) p l :
  leaf_rep p l -> calls_disciplined leaf_op_ok entries_exec ops l ->
  match run_calls entries_exec ops l with
  | Ok (answers, l') => exists p', run_calls Leaf_exec ops p = Ok (answers, p') /\ leaf_rep p' l'
  | Err e => run_calls Leaf_exec ops p = Err e
  end.
Proof. apply run_calls_ok. intros op u t. apply leaf_exec_ok. Qed.

(** C37: [RemoveAndDeleteRecord] shifts one entry and stops: of a page with room it
    puts the entry behind the removed one in its place and cuts off the last one.
    That is the removal of the key exactly if the key is one of the last two;
    otherwise the next entry is there twice and the last one is lost. *)
Theorem RemoveAndDeleteRecord_correct p l key (i : nat) :
  leaf_rep p l -> pos_of key l = Some i -> Z.of_nat (S i) < capacity ->
  (exists p', RemoveAndDeleteRecord key p = Ok (Z.of_nat (length l) - 1, p') /\ leaf_entries p' = removed i l)
  /\ (removed i l = delete i l <-> (length l <= i + 2)%nat).
Proof.
  intros Hr Hi Hc. pose proof (RemoveAndDeleteRecord_cases p l key Hr) as Hcase. rewrite Hi, decide_True in Hcase by done.
  destruct Hcase as (p' & Hrun & _ & _ & He). destruct (pos_of_some _ _ _ Hi) as (e & Hl & _). split; [by exists p'|].
  apply removed_delete; [by apply lookup_lt_Some in Hl|apply Hr].
Qed.
End LeafRuns.

Section LeafConcrete.
#[local] Existing Instance course_config.
#[local] Instance int_mapping_pages : MappingOk Z Z := int_mapping_ok eq_refl.

(** A leaf page of [int]s with the entries [l]. *)
Definition int_leaf (l : list (Z * Z)) : BPlusTreeLeafPage Z Z :=
  MkLeaf (SetSize (Z.of_nat (length l)) BPlusTreePage_default) INVALID_PAGE_ID (l ++ replicate (508 - length l) (0, 0)).

Lemma int_leaf_rep l : (length l <= 508)%nat -> keys_differ l -> leaf_rep (int_leaf l) l.
Proof.
  intros Hl Hd. split; [done| |by apply take_app_length|done]. cbn [lf_array_ int_leaf]. rewrite length_app, length_replicate.
  change (LEAF_PAGE_SIZE (K := Z) (V := Z)) with 508. lia.
Qed.

Lemma LeafPage_refines_entries_witness : exists p', run_calls Leaf_exec
    [LInsert 5 50; LInsert 3 30; LInsert 5 51; LLookup 3; LRemove 5; LKeyIndex 3; LLookup 5; LGetItem 0] (int_leaf [])
  = Ok ([LSize 1; LSize 2; LSize 2; LValue (Some 30); LSize 1; LIndex 0; LValue None; LItem (3, 30)], p').
Proof.
  pose proof (LeafPage_refines_entries [LInsert 5 50; LInsert 3 30; LInsert 5 51; LLookup 3; LRemove 5; LKeyIndex 3; LLookup 5; LGetItem 0] (int_leaf []) []
    (int_leaf_rep [] ltac:(simpl; lia) ltac:(by intros i j a b Ha))) as Hrun.
  destruct Hrun as (p' & Hrun & _); [vm_compute; repeat split; (done || lia)|]. by exists p'.
Defined.

(** Removing the first of three entries loses the last one. *)
Lemma RemoveAndDeleteRecord_correct_witness : exists p',
  RemoveAndDeleteRecord 1 (int_leaf [(1, 10); (2, 20); (3, 30)]) = Ok (2, p') /\ leaf_entries p' = [(2, 20); (2, 20)].
Proof.
  assert (Hd : keys_differ [(1, 10); (2, 20); (3, 30)]).
  { intros i j a b Ha Hb Hc%IntComparator_eq. destruct i as [|[|[|]]], j as [|[|[|]]]; simplify_eq/=; done. }
  destruct (RemoveAndDeleteRecord_correct (int_leaf [(1, 10); (2, 20); (3, 30)]) _ 1 0 (int_leaf_rep [(1, 10); (2, 20); (3, 30)] ltac:(simpl; lia) Hd)) as [(p' & Hrun & He) _];
    [by vm_compute|by vm_compute|]. by exists p'.
Defined.
End LeafConcrete.

(** ** Internal pages *)

Section InternalLemmas.
Context `{Config} {K : Type} `{!MappingType K Z} `{!MappingOk K Z}.
Implicit Types (p : BPlusTreeInternalPage K) (l : list (K * Z)) (key : K) (value : Z).
Notation capacity := (INTERNAL_PAGE_SIZE (K := K)).

(** The page holds the entries [l], children with the keys before them. *)
Record internal_rep p l : Prop := {
  nr_size : in_size p = Z.of_nat (length l);
  nr_array : Z.of_nat (length (in_array_ p)) = capacity;
  nr_entries : take (length l) (in_array_ p) = l
}.

Lemma internal_capacity_int : capacity < 2 ^ 31.
Proof using All.
  unfold INTERNAL_PAGE_SIZE. destruct (sizeof_ok (K := K) (V := Z)) as [Hs _]. pose proof PAGE_SIZE_int.
  destruct (Z.le_gt_cases 0 (PAGE_SIZE - 24)) as [Hp|Hp].
  - pose proof (Z.div_le_upper_bound (PAGE_SIZE - 24) (sizeof_MappingType (K := K) (V := Z)) (PAGE_SIZE - 24) Hs). nia.
  - pose proof (Z.div_lt_upper_bound (PAGE_SIZE - 24) (sizeof_MappingType (K := K) (V := Z)) 0 Hs). lia.
Qed.

Lemma internal_bound p l : internal_rep p l -> (length l <= length (in_array_ p))%nat.
Proof. intros Hr. rewrite <- (nr_entries _ _ Hr) at 1. rewrite length_take. lia. Qed.

Lemma internal_entry p l (i : nat) : internal_rep p l -> (i < length l)%nat -> in_array_ p !! i = l !! i.
Proof. intros Hr Hi. rewrite <- (nr_entries _ _ Hr). by rewrite lookup_take_lt. Qed.

(** An array whose first entries are those of [l]. *)
Lemma internal_set p l' (array : list (K * Z)) (size : Z) : Z.of_nat (length array) = capacity -> size = Z.of_nat (length l') ->
  (length l' <= length array)%nat -> (forall j, (j < length l')%nat -> array !! j = l' !! j) -> internal_rep (in_set size array p) l'.
Proof.
  intros Ha Hs Hl Hlook. split; [done|done|]. cbn. apply list_eq. intros j. destruct (decide (j < length l')%nat) as [Hj|Hj].
  - rewrite lookup_take_lt by done. by apply Hlook.
  - rewrite lookup_take_ge by lia. symmetry. apply lookup_ge_None. lia.
Qed.

(** The first entry of a child. *)
Definition child_of value l : option nat := fst <$> list_find (fun e => e.2 = value) l.

Lemma value_loop_ok n (i : nat) value (array : list (K * Z)) : (i + n <= length array)%nat ->
  value_loop n (Z.of_nat i) value array = Ok (Z.of_nat (from_option (Nat.add i) (i + n) (child_of value (take n (drop i array))))%nat).
Proof using All.
  revert i. induction n as [|n IH]; intros i Hn; [cbn; by rewrite Nat.add_0_r|]. destruct (lookup_lt_is_Some_2 array i ltac:(lia)) as [e He].
  cbn [value_loop]. rewrite (zlookup_nat _ _ _ He). cbn [rbind]. rewrite (drop_S _ _ _ He), firstn_cons. unfold child_of in *. cbn [list_find].
  pose proof (eqb_spec (K := K) e.2 value) as Heq. destruct (ValueType_eqb (K := K) e.2 value).
  - rewrite decide_True by (by apply Heq). cbn. do 2 f_equal. lia.
  - rewrite decide_False by (by intros E%Heq). replace (Z.of_nat i + 1) with (Z.of_nat (S i)) by lia. rewrite IH by lia. do 2 f_equal.
    destruct (list_find _ _) as [[j y]|]; cbn; lia.
Qed.

Lemma internal_value p l value : internal_rep p l ->
  value_loop (Z.to_nat (in_size p)) 0 value (in_array_ p) = Ok (Z.of_nat (default (length l) (child_of value l))).
Proof using All.
  intros Hr. pose proof (internal_bound p l Hr). rewrite (nr_size _ _ Hr), Nat2Z.id.
  rewrite (value_loop_ok (length l) 0) by lia. rewrite drop_0, (nr_entries _ _ Hr). by destruct (child_of value l).
Qed.

Lemma internal_find p l key : internal_rep p l -> key_loop (Z.to_nat (in_size p)) 0 key (in_array_ p) = Ok (index_of (pos_of key l)).
Proof.
  intros Hr. pose proof (internal_bound p l Hr). rewrite (nr_size _ _ Hr), Nat2Z.id.
  rewrite (key_loop_ok (length l) 0 key) by lia. rewrite drop_0, (nr_entries _ _ Hr). by destruct (pos_of key l).
Qed.

(** *** Insertion behind a child *)

Definition inserted (i : nat) (e : K * Z) l : list (K * Z) := take i l ++ e :: drop i l.

Lemma inserted_lookup (i j : nat) e l : (i <= length l)%nat ->
  inserted i e l !! j = if decide (j < i)%nat then l !! j else if decide (j = i) then Some e else l !! (j - 1)%nat.
Proof.
  intros Hi. unfold inserted. assert (Hl : length (take i l) = i) by (rewrite length_take; lia).
  repeat case_decide.
  - rewrite lookup_app_l by lia. by apply lookup_take_lt.
  - subst. by rewrite lookup_app_r, Hl, Nat.sub_diag by lia.
  - rewrite lookup_app_r, Hl by lia. replace (j - i)%nat with (S (j - 1 - i)) by lia. change ((e :: drop i l) !! S (j - 1 - i)) with (drop i l !! (j - 1 - i)%nat). rewrite lookup_drop. f_equal. lia.
Qed.

Lemma InsertNodeAfter_ok p l (i : nat) old new_key new_value : internal_rep p l -> child_of old l = Some i ->
  if decide (Z.of_nat (length l) < capacity)
  then exists p', InsertNodeAfter old new_key new_value p = Ok (Z.of_nat (length l) + 1, p') /\ internal_rep p' (inserted (S i) (new_key, new_value) l)
  else InsertNodeAfter old new_key new_value p = Err OutOfBounds.
Proof using All.
  intros Hr Hi. pose proof (internal_bound p l Hr) as Hb. pose proof (nr_array _ _ Hr) as Ha. pose proof internal_capacity_int.
  assert (Hil : (i < length l)%nat).
  { unfold child_of in Hi. destruct (list_find _ l) as [[i' e]|] eqn:Hf; [|done]. injection Hi as ->. apply list_find_Some in Hf as (Hf & _).
    by apply lookup_lt_Some in Hf. }
  unfold InsertNodeAfter, ValueIndex. rewrite (internal_value p l old Hr), Hi. cbn [default from_option rbind id]. rewrite int_op_ok by (unfold is_signed; lia).
  cbn [rbind]. rewrite (nr_size _ _ Hr). replace (Z.of_nat i + 1) with (Z.of_nat (S i)) by lia.
  replace (Z.to_nat (Z.of_nat (length l) - Z.of_nat (S i))) with (length l - S i)%nat by lia. case_decide as Hc.
  - replace (Z.of_nat (length l) - 1) with (Z.of_nat (S i + (length l - S i)) - 1) by lia.
    destruct (up_loop_ok (length l - S i) (S i) (in_array_ p) ltac:(lia)) as (array & -> & Hal & Hlook). cbn [rbind].
    rewrite zupdate_ok by lia. cbn [rbind]. rewrite int_op_ok by (unfold is_signed; lia). cbn [rbind]. rewrite Nat2Z.id.
    eexists. split; [done|]. assert (Hil' : length (inserted (S i) (new_key, new_value) l) = S (length l)).
    { unfold inserted. rewrite length_app, length_take, length_cons, length_drop. lia. }
    apply internal_set; [rewrite length_insert; lia|lia|rewrite length_insert; lia|]. rewrite Hil'. intros j Hj. rewrite inserted_lookup by lia.
    destruct (decide (j = S i)) as [->|Hne].
    + rewrite list_lookup_insert_eq by lia. by rewrite decide_False by lia.
    + rewrite list_lookup_insert_ne, Hlook by lia. destruct (decide (j < S i)%nat).
      * rewrite decide_False by lia. apply internal_entry; [done|lia].
      * rewrite decide_True by lia. apply internal_entry; [done|lia].
  - destruct (length l - S i)%nat as [|n] eqn:En; cbn [up_loop rbind].
    + unfold zupdate. by rewrite decide_False by lia.
    + destruct (lookup_lt_is_Some_2 (in_array_ p) (length l - 1) ltac:(lia)) as [e He].
      replace (Z.of_nat (length l) - 1) with (Z.of_nat (length l - 1)) by lia. rewrite (zlookup_nat _ _ _ He). cbn [rbind].
      unfold zupdate. by rewrite decide_False by lia.
Qed.

(** Behind a child that is not there the new entry is not among the entries of
    the page: what lay behind them is. *)
Lemma InsertNodeAfter_missing p l old new_key new_value : internal_rep p l -> child_of old l = None -> Z.of_nat (length l) + 1 < capacity ->
  exists p' garbage, InsertNodeAfter old new_key new_value p = Ok (Z.of_nat (length l) + 1, p')
    /\ in_array_ p !! length l = Some garbage /\ internal_rep p' (l ++ [garbage]).
Proof using All.
  intros Hr Hi Hc. pose proof (internal_bound p l Hr) as Hb. pose proof (nr_array _ _ Hr) as Ha. pose proof internal_capacity_int.
  destruct (lookup_lt_is_Some_2 (in_array_ p) (length l) ltac:(lia)) as [g Hg].
  unfold InsertNodeAfter, ValueIndex. rewrite (internal_value p l old Hr), Hi. cbn [default from_option rbind id]. rewrite int_op_ok by (unfold is_signed; lia).
  cbn [rbind]. rewrite (nr_size _ _ Hr). replace (Z.to_nat _) with 0%nat by lia. cbn [up_loop rbind]. rewrite zupdate_ok by lia. cbn [rbind].
  rewrite int_op_ok by (unfold is_signed; lia). eexists _, g. split; [done|]. split; [done|].
  assert (Hl : length (l ++ [g]) = S (length l)) by (rewrite length_app; simpl; lia).
  apply internal_set; [rewrite length_insert; lia|lia|rewrite length_insert; lia|]. intros j Hj. rewrite list_lookup_insert_ne by lia.
  destruct (decide (j = length l)) as [->|Hne]; [by rewrite lookup_app_r, Nat.sub_diag by lia|].
  rewrite lookup_app_l by lia. apply internal_entry; [done|lia].
Qed.

(** *** Removal *)

Lemma Internal_Remove_ok p l (i : nat) : internal_rep p l -> (i < length l)%nat ->
  if decide (Z.of_nat (length l) < capacity)
  then exists p', Internal_Remove (Z.of_nat i) p = Ok p' /\ internal_rep p' (delete i l)
  else Internal_Remove (Z.of_nat i) p = Err OutOfBounds.
Proof using All.
  intros Hr Hil. pose proof (internal_bound p l Hr) as Hb. pose proof (nr_array _ _ Hr) as Ha. pose proof internal_capacity_int.
  unfold Internal_Remove. rewrite (nr_size _ _ Hr). replace (Z.to_nat (Z.of_nat (length l) - Z.of_nat i)) with (length l - i)%nat by lia. case_decide as Hc.
  - destruct (down_loop_ok (length l - i) i (in_array_ p) ltac:(lia)) as (array & -> & Hal & Hlook). cbn [rbind].
    rewrite int_op_ok by (unfold is_signed; lia). cbn [rbind]. eexists. split; [done|].
    assert (Hdl : length (delete i l) = (length l - 1)%nat) by (rewrite length_delete; [done|by apply lookup_lt_is_Some_2]).
    apply internal_set; [lia|lia|lia|]. rewrite Hdl. intros j Hj. rewrite Hlook. destruct (decide (j < i)%nat).
    + rewrite decide_False, list_lookup_delete_lt by lia. apply internal_entry; [done|lia].
    + rewrite decide_True, list_lookup_delete_ge by lia. apply internal_entry; [done|lia].
  - rewrite down_loop_past by lia. done.
Qed.

Lemma PopulateNewRoot_ok p l old new_key new_value : internal_rep p l -> 2 <= capacity ->
  exists k p', PopulateNewRoot old new_key new_value p = Ok p' /\ internal_rep p' [(k, old); (new_key, new_value)].
Proof.
  intros Hr Hc. pose proof (nr_array _ _ Hr) as Ha. destruct (in_array_ p) as [|e0 [|e1 array]] eqn:E; [simpl in Ha; lia..|].
  exists e0.1. unfold PopulateNewRoot. rewrite E. rewrite (zlookup_nat _ 0 e0) by done. cbn [rbind].
  rewrite zupdate_ok by (simpl; lia). cbn [rbind]. rewrite zupdate_ok by (simpl; lia). eexists. split; [reflexivity|]. by split.
Qed.

Lemma RemoveAndReturnOnlyChild_ok p l e0 e1 rest : internal_rep p l -> l = e0 :: e1 :: rest ->
  exists p', RemoveAndReturnOnlyChild p = Ok (e1.2, p') /\ internal_rep p' [e0].
Proof.
  intros Hr ->. pose proof (nr_array _ _ Hr) as Ha. pose proof (internal_entry p _ 0 Hr ltac:(simpl; lia)) as H0. pose proof (internal_entry p _ 1 Hr ltac:(simpl; lia)) as H1.
  unfold RemoveAndReturnOnlyChild. destruct (in_array_ p) as [|x0 [|x1 array]] eqn:E; [done..|]. simplify_eq/=.
  eexists. split; [reflexivity|]. by split.
Qed.
End InternalLemmas.

(** *** The calls of an internal page *)

Section InternalRuns.
Context `{Config} {K : Type} `{!MappingType K Z} `{!MappingOk K Z}.
Implicit Types (p : BPlusTreeInternalPage K) (l : list (K * Z)).
Notation capacity := (INTERNAL_PAGE_SIZE (K := K)).

Inductive internal_op : Type :=
| IInsertAfter (old_value : Z) (new_key : K) (new_value : Z)
| IRemove (index : nat)
| IKeyAt (index : nat)
| IValueAt (index : nat)
| ISetKeyAt (index : nat) (key : K)
| IValueIndex (value : Z)
| ILookup (key : K).

Inductive internal_answer : Type :=
| INone
| INumber (n : Z)
| IKey (key : K).

Definition Internal_exec (op : internal_op) p : res (internal_answer * BPlusTreeInternalPage K) :=
  match op with
  | IInsertAfter old new_key new_value => let! ' (size, p) := InsertNodeAfter old new_key new_value p in Ok (INumber size, p)
  | IRemove index => let! p := Internal_Remove (Z.of_nat index) p in Ok (INone, p)
  | IKeyAt index => let! key := Internal_KeyAt (Z.of_nat index) p in Ok (IKey key, p)
  | IValueAt index => let! value := ValueAt (Z.of_nat index) p in Ok (INumber value, p)
  | ISetKeyAt index key => let! p := SetKeyAt (Z.of_nat index) key p in Ok (INone, p)
  | IValueIndex value => let! index := ValueIndex value p in Ok (INumber index, p)
  | ILookup key => let! value := Internal_Lookup key p in Ok (INumber value, p)
  end.

Definition children_exec (op : internal_op) l : res (internal_answer * list (K * Z)) :=
  match op with
  | IInsertAfter old new_key new_value =>
      match child_of old l with
      | Some i => if decide (Z.of_nat (length l) < capacity) then Ok (INumber (Z.of_nat (length l) + 1), inserted (S i) (new_key, new_value) l)
                  else Err OutOfBounds
      | None => Err OutOfBounds
      end
  | IRemove index => if decide (Z.of_nat (length l) < capacity) then Ok (INone, delete index l) else Err OutOfBounds
  | IKeyAt index => let! e := zlookup l (Z.of_nat index) in Ok (IKey e.1, l)
  | IValueAt index => let! e := zlookup l (Z.of_nat index) in Ok (INumber e.2, l)
  | ISetKeyAt index key => let! e := zlookup l (Z.of_nat index) in Ok (INone, <[index := (key, e.2)]> l)
  | IValueIndex value => Ok (INumber (Z.of_nat (default (length l) (child_of value l))), l)
  | ILookup key => Ok (INumber (from_option snd INVALID_PAGE_ID (pos_of key l ≫= fun i => l !! i)), l)
  end.

(** The indexes are within the size, the child to insert behind is there. *)
Definition internal_op_ok (op : internal_op) l : Prop :=
  match op with
  | IInsertAfter old _ _ => is_Some (child_of old l)
  | IRemove index | IKeyAt index | IValueAt index | ISetKeyAt index _ => (index < length l)%nat
  | _ => True
  end.

Lemma internal_lookup p l (i : nat) e : internal_rep p l -> l !! i = Some e -> zlookup (in_array_ p) (Z.of_nat i) = Ok e.
Proof. intros Hr Hi. apply zlookup_nat. rewrite (internal_entry p l i Hr); [done|]. by apply lookup_lt_Some in Hi. Qed.

Lemma internal_exec_ok op p l : internal_rep p l -> internal_op_ok op l ->
  match children_exec op l with
  | Ok (a, l') => exists p', Internal_exec op p = Ok (a, p') /\ internal_rep p' l'
  | Err e => Internal_exec op p = Err e
  end.
Proof using All.
  intros Hr Hop. pose proof (internal_bound p l Hr) as Hb. pose proof (nr_array _ _ Hr) as Ha.
  assert (Hat : forall i : nat, (i < length l)%nat -> exists e, l !! i = Some e /\ zlookup l (Z.of_nat i) = Ok e /\ zlookup (in_array_ p) (Z.of_nat i) = Ok e).
  { intros i Hi. destruct (lookup_lt_is_Some_2 l i Hi) as [e He]. exists e. split_and!; [done|by apply zlookup_nat|by eapply internal_lookup]. }
  destruct op as [old nk nv|i|i|i|i key|value|key]; cbn [Internal_exec children_exec internal_op_ok] in *.
  - destruct Hop as [i Hi]. rewrite Hi. pose proof (InsertNodeAfter_ok p l i old nk nv Hr Hi) as Hins.
    case_decide; [destruct Hins as (p' & -> & Hr'); by exists p'|by rewrite Hins].
  - pose proof (Internal_Remove_ok p l i Hr Hop) as Hrem. case_decide; [destruct Hrem as (p' & -> & Hr'); by exists p'|by rewrite Hrem].
  - destruct (Hat i Hop) as (e & _ & -> & He). unfold Internal_KeyAt. rewrite He. by exists p.
  - destruct (Hat i Hop) as (e & _ & -> & He). unfold ValueAt. rewrite He. by exists p.
  - destruct (Hat i Hop) as (e & _ & -> & He). unfold SetKeyAt. rewrite He. cbn [rbind]. rewrite zupdate_ok by lia. cbn [rbind].
    eexists. split; [done|]. rewrite Nat2Z.id. split; cbn.
    + rewrite length_insert. apply Hr.
    + by rewrite length_insert.
    + rewrite length_insert. by rewrite take_insert_lt, (nr_entries _ _ Hr).
  - unfold ValueIndex. rewrite (internal_value p l value Hr). by exists p.
  - unfold Internal_Lookup. rewrite (internal_find p l key Hr). cbn [rbind]. rewrite index_of_found. exists p.
    destruct (pos_of key l) as [i|] eqn:Hi; [|done]. destruct (pos_of_some _ _ _ Hi) as (e & He & _). cbn [index_of from_option].
    rewrite (internal_lookup _ _ _ _ Hr He). cbn. by rewrite He.
Qed.

(** C35: An internal page of the B+ tree is a list of children with the keys before
    them: every run of insertions behind a child, removals by index, reads,
    changes of keys and look-ups gives the answers it gives on the list.  An
    insertion into a full page writes past the array, and so does every removal
    from a full page read past it.  [Lookup] answers only for the keys that are in
    the page, with the first such entry, the one before the first child included:
    it does not route a key that lies between two of them. *)
Theorem InternalPage_refines_children (ops : list internal_op) p l :
  internal_rep p l -> calls_disciplined internal_op_ok children_exec ops l ->
  match run_calls children_exec ops l with
  | Ok (answers, l') => exists p', run_calls Internal_exec ops p = Ok (answers, p') /\ internal_rep p' l'
  | Err e => run_calls Internal_exec ops p = Err e
  end.
Proof. apply run_calls_ok. intros op u t. apply internal_exec_ok. Qed.

(** Between two keys of the page the look-up finds no child. *)
Lemma Internal_Lookup_between p l key : internal_rep p l -> pos_of key l = None -> Internal_Lookup key p = Ok INVALID_PAGE_ID.
Proof. intros Hr Hn. unfold Internal_Lookup. rewrite (internal_find p l key Hr), Hn. done. Qed.
End InternalRuns.

Section InternalConcrete.
#[local] Existing Instance course_config.
#[local] Existing Instance int_mapping_pages.

(** An internal page over [int]s with the children [l]. *)
Definition int_internal (l : list (Z * Z)) : BPlusTreeInternalPage Z :=
  MkInternal (SetSize (Z.of_nat (length l)) BPlusTreePage_default) (l ++ replicate (509 - length l) (0, 0)).

Lemma int_internal_rep l : (length l <= 509)%nat -> internal_rep (int_internal l) l.
Proof.
  intros Hl. split; [done| |by apply take_app_length]. cbn [in_array_ int_internal]. rewrite length_app, length_replicate.
  change (INTERNAL_PAGE_SIZE (K := Z)) with 509. lia.
Qed.

Lemma InternalPage_refines_children_witness : exists p', run_calls Internal_exec
    [IInsertAfter 7 20 8; IInsertAfter 7 10 9; IValueIndex 8; ILookup 20; ILookup 15; IRemove 1; IKeyAt 1] (int_internal [(0, 7)])
  = Ok ([INumber 2; INumber 3; INumber 2; INumber 8; INumber (-1); INone; IKey 20], p').
Proof.
  pose proof (InternalPage_refines_children [IInsertAfter 7 20 8; IInsertAfter 7 10 9; IValueIndex 8; ILookup 20; ILookup 15; IRemove 1; IKeyAt 1]
    (int_internal [(0, 7)]) [(0, 7)] (int_internal_rep [(0, 7)] ltac:(simpl; lia))) as Hrun.
  destruct Hrun as (p' & Hrun & _); [vm_compute; repeat split; try done; try lia; by eexists|]. by exists p'.
Defined.
End InternalConcrete.
