(* ===== verification/TablePage.v ===== *)
(** The slotted table page ([src/storage/page/table_page.cpp],
    [src/include/storage/page/table_page.h]), on the bytes of the page.

    [enable_logging] is [false]: no code of the repository sets it.  The lock
    and log managers are only called when it is set, so that the operations are
    functions of the page's memory.  An output parameter is part of the result
    and absent when the call returns [false] without writing it. *)

From S2P Require Import Prelude Bytes Rid.

(** ** Definitions *)

(** A tuple: its id and the [size_] bytes behind [data_]. *)
Record Tuple : Type := MkTuple {
  tuple_rid_ : RID;
  tuple_data_ : bytes
}.
Definition tuple_size_ (t : Tuple) : Z := Z.of_nat (length (tuple_data_ t)).
Definition Tuple_default `{Config} : Tuple := MkTuple RID_default [].

Definition SIZE_TABLE_PAGE_HEADER : Z := 24.
Definition SIZE_TUPLE : Z := 8.
Definition OFFSET_PREV_PAGE_ID : Z := 8.
Definition OFFSET_NEXT_PAGE_ID : Z := 12.
Definition OFFSET_FREE_SPACE : Z := 16.
Definition OFFSET_TUPLE_COUNT : Z := 20.
Definition OFFSET_TUPLE_OFFSET : Z := 24.
Definition OFFSET_TUPLE_SIZE : Z := 28.
Definition DELETE_MASK : Z := 2 ^ 31.

Section TablePage.
Context `{Config}.
Implicit Types m : bytes.

Definition TP_GetTablePageId m : res Z := load_i32 m 0.
Definition TP_GetPrevPageId m : res Z := load_i32 m OFFSET_PREV_PAGE_ID.
Definition TP_GetNextPageId m : res Z := load_i32 m OFFSET_NEXT_PAGE_ID.
Definition TP_SetPrevPageId (prev_page_id : Z) m : res bytes := store_u32 m OFFSET_PREV_PAGE_ID prev_page_id.
Definition TP_SetNextPageId (next_page_id : Z) m : res bytes := store_u32 m OFFSET_NEXT_PAGE_ID next_page_id.
Definition TP_GetFreeSpacePointer m : res Z := load_u32 m OFFSET_FREE_SPACE.
Definition TP_SetFreeSpacePointer (free_space_pointer : Z) m : res bytes := store_u32 m OFFSET_FREE_SPACE free_space_pointer.
Definition TP_GetTupleCount m : res Z := load_u32 m OFFSET_TUPLE_COUNT.
Definition TP_SetTupleCount (tuple_count : Z) m : res bytes := store_u32 m OFFSET_TUPLE_COUNT tuple_count.

(** The subtraction is in [size_t], the result a [uint32_t]. *)
Definition TP_GetFreeSpaceRemaining m : res Z :=
  let! fsp := TP_GetFreeSpacePointer m in
  let! count := TP_GetTupleCount m in
  Ok (unsigned 32 (unsigned 64 (fsp - SIZE_TABLE_PAGE_HEADER - SIZE_TUPLE * count))).

Definition TP_GetTupleOffsetAtSlot (slot_num : Z) m : res Z := load_u32 m (OFFSET_TUPLE_OFFSET + SIZE_TUPLE * slot_num).
Definition TP_SetTupleOffsetAtSlot (slot_num offset : Z) m : res bytes :=
  store_u32 m (OFFSET_TUPLE_OFFSET + SIZE_TUPLE * slot_num) offset.
Definition TP_GetTupleSize (slot_num : Z) m : res Z := load_u32 m (OFFSET_TUPLE_SIZE + SIZE_TUPLE * slot_num).
Definition TP_SetTupleSize (slot_num size : Z) m : res bytes :=
  store_u32 m (OFFSET_TUPLE_SIZE + SIZE_TUPLE * slot_num) size.

Definition TP_IsDeleted (tuple_size : Z) : bool := negb (Z.land tuple_size DELETE_MASK =? 0) || (tuple_size =? 0).
Definition TP_SetDeletedFlag (tuple_size : Z) : Z := unsigned 32 (Z.lor tuple_size DELETE_MASK).
Definition TP_UnsetDeletedFlag (tuple_size : Z) : Z := unsigned 32 (Z.land tuple_size (Z.lnot DELETE_MASK)).

Definition TP_Init (page_id page_size prev_page_id : Z) m : res bytes :=
  let! m := store_u32 m 0 page_id in
  let! m := TP_SetPrevPageId prev_page_id m in
  let! m := TP_SetNextPageId INVALID_PAGE_ID m in
  let! m := TP_SetFreeSpacePointer page_size m in
  TP_SetTupleCount 0 m.

(** The search for a slot to reuse, [n] slots from [i] on. *)
Fixpoint FindSlot_loop (n : nat) (i : Z) m : res Z :=
  match n with
  | O => Ok i
  | S n => let! size := TP_GetTupleSize i m in if size =? 0 then Ok i else FindSlot_loop n (i + 1) m
  end.

Definition TP_InsertTuple (tuple : Tuple) m : res (option RID * bytes) :=
  let! _ := assert (0 <? tuple_size_ tuple) in
  let! remaining := TP_GetFreeSpaceRemaining m in
  if remaining <? tuple_size_ tuple + SIZE_TUPLE then Ok (None, m) else
  let! count := TP_GetTupleCount m in
  let! i := FindSlot_loop (Z.to_nat count) 0 m in
  let! remaining := TP_GetFreeSpaceRemaining m in
  if (i =? count) && (remaining <? tuple_size_ tuple + SIZE_TUPLE) then Ok (None, m) else
  let! fsp := TP_GetFreeSpacePointer m in
  let! m := TP_SetFreeSpacePointer (fsp - tuple_size_ tuple) m in
  let! fsp := TP_GetFreeSpacePointer m in
  let! m := mem_write m fsp (tuple_data_ tuple) in
  let! fsp := TP_GetFreeSpacePointer m in
  let! m := TP_SetTupleOffsetAtSlot i fsp m in
  let! m := TP_SetTupleSize i (tuple_size_ tuple) m in
  let! page_id := TP_GetTablePageId m in
  let! count := TP_GetTupleCount m in
  let! m := if i =? count then TP_SetTupleCount (count + 1) m else Ok m in
  Ok (Some (RID_Set page_id i), m).

Definition TP_MarkDelete (rid : RID) m : res (bool * bytes) :=
  let slot_num := slot_num_ rid in
  let! count := TP_GetTupleCount m in
  if count <=? slot_num then Ok (false, m) else
  let! tuple_size := TP_GetTupleSize slot_num m in
  if TP_IsDeleted tuple_size then Ok (false, m) else
  let! m := if 0 <? tuple_size then TP_SetTupleSize slot_num (TP_SetDeletedFlag tuple_size) m else Ok m in
  Ok (true, m).

(** The loop that moves the offsets below [bound] by [delta], [n] slots from
    [i] on.  (Its condition reads the tuple count, which it does not write.) *)
Fixpoint ShiftOffsets_loop (n : nat) (i bound delta : Z) m : res bytes :=
  match n with
  | O => Ok m
  | S n =>
      let! tuple_offset_i := TP_GetTupleOffsetAtSlot i m in
      let! size_i := TP_GetTupleSize i m in
      let! m :=
        if negb (size_i =? 0) && (tuple_offset_i <? bound)
        then TP_SetTupleOffsetAtSlot i (tuple_offset_i + delta) m else Ok m in
      ShiftOffsets_loop n (i + 1) bound delta m
  end.

(** The result is the old tuple if the call returns [true]. *)
Definition TP_UpdateTuple (new_tuple : Tuple) (rid : RID) m : res (option Tuple * bytes) :=
  let! _ := assert (0 <? tuple_size_ new_tuple) in
  let slot_num := slot_num_ rid in
  let! count := TP_GetTupleCount m in
  if count <=? slot_num then Ok (None, m) else
  let! tuple_size := TP_GetTupleSize slot_num m in
  if TP_IsDeleted tuple_size then Ok (None, m) else
  let! remaining := TP_GetFreeSpaceRemaining m in
  if unsigned 32 (remaining + tuple_size) <? tuple_size_ new_tuple then Ok (None, m) else
  let! tuple_offset := TP_GetTupleOffsetAtSlot slot_num m in
  let! old_data := mem_read m tuple_offset tuple_size in
  let! free_space_pointer := TP_GetFreeSpacePointer m in
  let! _ := assert (free_space_pointer <=? tuple_offset) in
  let! m := mem_move m (free_space_pointer + tuple_size - tuple_size_ new_tuple) free_space_pointer
              (tuple_offset - free_space_pointer) in
  let! m := TP_SetFreeSpacePointer (free_space_pointer + tuple_size - tuple_size_ new_tuple) m in
  let! m := mem_write m (tuple_offset + tuple_size - tuple_size_ new_tuple) (tuple_data_ new_tuple) in
  let! m := TP_SetTupleSize slot_num (tuple_size_ new_tuple) m in
  let! count := TP_GetTupleCount m in
  let! m := ShiftOffsets_loop (Z.to_nat count) 0 (tuple_offset + tuple_size) (tuple_size - tuple_size_ new_tuple) m in
  Ok (Some (MkTuple rid old_data), m).

Definition TP_ApplyDelete (rid : RID) m : res bytes :=
  let slot_num := slot_num_ rid in
  let! count := TP_GetTupleCount m in
  let! _ := assert (slot_num <? count) in
  let! tuple_offset := TP_GetTupleOffsetAtSlot slot_num m in
  let! tuple_size := TP_GetTupleSize slot_num m in
  let tuple_size := if TP_IsDeleted tuple_size then TP_UnsetDeletedFlag tuple_size else tuple_size in
  let! _ := mem_read m tuple_offset tuple_size in
  let! free_space_pointer := TP_GetFreeSpacePointer m in
  let! _ := assert (free_space_pointer <=? tuple_offset) in
  let! m := mem_move m (free_space_pointer + tuple_size) free_space_pointer (tuple_offset - free_space_pointer) in
  let! m := TP_SetFreeSpacePointer (free_space_pointer + tuple_size) m in
  let! m := TP_SetTupleSize slot_num 0 m in
  let! m := TP_SetTupleOffsetAtSlot slot_num 0 m in
  let! count := TP_GetTupleCount m in
  ShiftOffsets_loop (Z.to_nat count) 0 tuple_offset tuple_size m.

Definition TP_RollbackDelete (rid : RID) m : res bytes :=
  let slot_num := slot_num_ rid in
  let! count := TP_GetTupleCount m in
  let! _ := assert (slot_num <? count) in
  let! tuple_size := TP_GetTupleSize slot_num m in
  if TP_IsDeleted tuple_size then TP_SetTupleSize slot_num (TP_UnsetDeletedFlag tuple_size) m else Ok m.

Definition TP_GetTuple (rid : RID) m : res (option Tuple) :=
  let slot_num := slot_num_ rid in
  let! count := TP_GetTupleCount m in
  if count <=? slot_num then Ok None else
  let! tuple_size := TP_GetTupleSize slot_num m in
  if TP_IsDeleted tuple_size then Ok None else
  let! tuple_offset := TP_GetTupleOffsetAtSlot slot_num m in
  let! data := mem_read m tuple_offset tuple_size in
  Ok (Some (MkTuple rid data)).

(** The first slot from [i] on, [n] slots, that holds a tuple. *)
Fixpoint NextTuple_loop (n : nat) (i : Z) m : res (bool * RID) :=
  match n with
  | O => Ok (false, RID_Set INVALID_PAGE_ID 0)
  | S n =>
      let! size := TP_GetTupleSize i m in
      if negb (TP_IsDeleted size) then
        let! page_id := TP_GetTablePageId m in Ok (true, RID_Set page_id i)
      else NextTuple_loop n (i + 1) m
  end.

Definition TP_GetFirstTupleRid m : res (bool * RID) :=
  let! count := TP_GetTupleCount m in NextTuple_loop (Z.to_nat count) 0 m.

Definition TP_GetNextTupleRid (cur_rid : RID) m : res (bool * RID) :=
  let! page_id := TP_GetTablePageId m in
  let! _ := assert (page_id_ cur_rid =? page_id) in
  let! count := TP_GetTupleCount m in
  let i := unsigned 32 (slot_num_ cur_rid + 1) in
  NextTuple_loop (Z.to_nat (count - i)) i m.

(** ** The abstract page *)

(** A slot: empty (its tuple was deleted), a tuple, or a tuple marked as
    deleted. *)
Inductive slot : Type :=
| Empty
| Live (data : bytes)
| Marked (data : bytes).

#[export] Instance slot_eq_dec : EqDecision slot.
Proof. solve_decision. Defined.

Definition slot_data (s : slot) : bytes :=
  match s with Empty => [] | Live d => d | Marked d => d end.
Definition slot_len (s : slot) : Z := Z.of_nat (length (slot_data s)).

(** The size word of a slot. *)
Definition slot_word (s : slot) : Z :=
  match s with Empty => 0 | Live d => Z.of_nat (length d) | Marked d => Z.of_nat (length d) + DELETE_MASK end.

Definition used_space (l : list slot) : Z := foldr (fun s n => slot_len s + n) 0 l.

(** Room for one more slot's directory entry and [n] bytes, as [InsertTuple]
    requires it (also when it reuses a slot). *)
Definition has_room (l : list slot) (n : Z) : bool :=
  SIZE_TABLE_PAGE_HEADER + SIZE_TUPLE * (Z.of_nat (length l) + 1) + used_space l + n <=? PAGE_SIZE.

Definition is_empty (s : slot) : bool := match s with Empty => true | _ => false end.
Definition is_live (s : slot) : bool := match s with Live _ => true | _ => false end.

(** The slot an insertion takes. *)
Definition free_slot (l : list slot) : nat :=
  match list_find (fun s => is_empty s = true) l with Some (i, _) => i | None => length l end.

Definition put_slot (i : nat) (s : slot) (l : list slot) : list slot :=
  if decide (i = length l) then l ++ [s] else <[i := s]> l.

(** The slots' offsets and contents, and how they lie in the page: the tuples
    fill the page from the free space pointer to its end without overlapping. *)
Record page_layout (m : bytes) (pid prev next fsp : Z) (cells : list (Z * slot)) : Prop := {
  lay_length : Z.of_nat (length m) = PAGE_SIZE;
  lay_bytes : is_bytes m;
  lay_pid : load_i32 m 0 = Ok pid;
  lay_prev : load_i32 m OFFSET_PREV_PAGE_ID = Ok prev;
  lay_next : load_i32 m OFFSET_NEXT_PAGE_ID = Ok next;
  lay_fsp : load_u32 m OFFSET_FREE_SPACE = Ok fsp;
  lay_count : load_u32 m OFFSET_TUPLE_COUNT = Ok (Z.of_nat (length cells));
  lay_room : SIZE_TABLE_PAGE_HEADER + SIZE_TUPLE * Z.of_nat (length cells) <= fsp <= PAGE_SIZE;
  lay_used : used_space (snd <$> cells) = PAGE_SIZE - fsp;
  lay_offset (i : nat) c : cells !! i = Some c -> TP_GetTupleOffsetAtSlot (Z.of_nat i) m = Ok c.1;
  lay_size (i : nat) c : cells !! i = Some c -> TP_GetTupleSize (Z.of_nat i) m = Ok (slot_word c.2);
  lay_data (i : nat) c : cells !! i = Some c -> c.2 <> Empty ->
    0 < slot_len c.2 /\ fsp <= c.1 /\ c.1 + slot_len c.2 <= PAGE_SIZE
    /\ mem_read m c.1 (slot_len c.2) = Ok (slot_data c.2);
  lay_disjoint (i j : nat) c c' : i <> j -> cells !! i = Some c -> cells !! j = Some c' ->
    c.2 <> Empty -> c'.2 <> Empty -> c.1 + slot_len c.2 <= c'.1 \/ c'.1 + slot_len c'.2 <= c.1;
  lay_empty (i : nat) c : cells !! i = Some c -> c.2 = Empty -> c.1 = 0
}.

(** The page [m] holds the slots [l]. *)
Definition page_rep (m : bytes) (pid prev next : Z) (l : list slot) : Prop :=
  exists fsp cells, page_layout m pid prev next fsp cells /\ l = snd <$> cells.
End TablePage.

(** ** Lemmas *)

Section Lemmas.
Context `{Config}.
Implicit Types (m : bytes) (cells : list (Z * slot)) (l : list slot).

Lemma load_u32_frame m m' off : mem_read m' off 4 = mem_read m off 4 -> load_u32 m' off = load_u32 m off.
Proof. unfold load_u32. by intros ->. Qed.

Lemma load_i32_frame m m' off : mem_read m' off 4 = mem_read m off 4 -> load_i32 m' off = load_i32 m off.
Proof. unfold load_i32. by intros ->. Qed.

(** A read inside a region that has been written. *)
Lemma mem_read_write_inside m m' dst bs d k :
  mem_write m dst bs = Ok m' -> 0 <= d -> 0 <= k -> d + k <= Z.of_nat (length bs) ->
  mem_read m' (dst + d) k = mem_read bs d k.
Proof.
  intros Hw Hd Hk Hl. pose proof (mem_read_write_same _ _ _ _ _ Hw eq_refl) as Hr.
  by apply (mem_read_sub _ _ _ _ _ _ Hr).
Qed.

(** A write and what it leaves alone. *)
Lemma store_ok m off z : is_bytes m -> 0 <= off -> off + 4 <= Z.of_nat (length m) ->
  exists m', store_u32 m off z = Ok m' /\ length m' = length m /\ is_bytes m' /\ load_u32 m' off = Ok (unsigned 32 z)
    /\ forall o n, o + n <= off \/ off + 4 <= o -> mem_read m' o n = mem_read m o n.
Proof.
  intros Hm H0 Hl. destruct (store_u32_is_ok m off z H0 Hl) as [m' Hs]. exists m'. split_and!; [done|..].
  - exact (store_u32_length _ _ _ _ Hs).
  - exact (store_u32_bytes _ _ _ _ Hm Hs).
  - exact (load_store_u32_same _ _ _ _ Hs).
  - intros o n Ho. exact (mem_read_store_disjoint _ _ _ _ _ _ Hs Ho).
Qed.

Lemma write_ok m off bs : is_bytes m -> is_bytes bs -> 0 <= off -> off + Z.of_nat (length bs) <= Z.of_nat (length m) ->
  exists m', mem_write m off bs = Ok m' /\ length m' = length m /\ is_bytes m'
    /\ (forall d k, 0 <= d -> 0 <= k -> d + k <= Z.of_nat (length bs) -> mem_read m' (off + d) k = mem_read bs d k)
    /\ forall o n, o + n <= off \/ off + Z.of_nat (length bs) <= o -> mem_read m' o n = mem_read m o n.
Proof.
  intros Hm Hb H0 Hl. exists (splice (Z.to_nat off) bs m).
  assert (Hs : mem_write m off bs = Ok (splice (Z.to_nat off) bs m)) by by apply mem_write_ok.
  split_and!; [done|..].
  - exact (mem_write_length _ _ _ _ Hs).
  - exact (mem_write_bytes _ _ _ _ Hm Hb Hs).
  - intros d k Hd Hk Hdk. by apply (mem_read_write_inside m).
  - intros o n Ho. exact (mem_read_write_disjoint _ _ _ _ _ _ Hs Ho).
Qed.

(** [memmove] of a region: the bytes arrive, the rest stays. *)
Lemma move_ok m dst src n : is_bytes m -> 0 <= n -> 0 <= src -> src + n <= Z.of_nat (length m) ->
  0 <= dst -> dst + n <= Z.of_nat (length m) ->
  exists m', mem_move m dst src n = Ok m' /\ length m' = length m /\ is_bytes m'
    /\ (forall d k, 0 <= d -> 0 <= k -> d + k <= n -> mem_read m' (dst + d) k = mem_read m (src + d) k)
    /\ forall o k, o + k <= dst \/ dst + n <= o -> mem_read m' o k = mem_read m o k.
Proof.
  intros Hm Hn Hs0 Hs Hd0 Hd. unfold mem_move. pose proof (mem_read_ok m src n Hs0 Hn Hs) as Hr. rewrite Hr. cbn [rbind].
  pose proof (mem_read_length _ _ _ _ Hr) as Hl. pose proof (mem_read_bytes _ _ _ _ Hm Hr) as Hb.
  destruct (write_ok m dst _ Hm Hb Hd0) as (m' & Hw & Hl' & Hm' & Hin & Hout); [lia|].
  exists m'. split_and!; [done|done|done|..].
  - intros d k H0 Hk Hdk. rewrite Hin by lia. symmetry. apply (mem_read_sub _ _ _ _ _ _ Hr); lia.
  - intros o k Ho. apply Hout. lia.
Qed.

(** *** Slots *)

Lemma slot_word_empty (s : slot) : (s <> Empty -> 0 < slot_len s) -> (slot_word s = 0 <-> s = Empty).
Proof.
  intros Hn. destruct s as [|d|d]; [done|..]; (split; [|done]); intros E; specialize (Hn ltac:(done));
    unfold slot_len in Hn; simpl in *; unfold DELETE_MASK in *; lia.
Qed.

Lemma used_app l1 l2 : used_space (l1 ++ l2) = used_space l1 + used_space l2.
Proof. induction l1 as [|s l1 IH]; simpl; [done|]. lia. Qed.

Lemma used_nonneg l : 0 <= used_space l.
Proof. induction l as [|s l IH]; simpl; [lia|]. unfold slot_len. lia. Qed.

Lemma used_insert l (i : nat) s s0 : l !! i = Some s0 ->
  used_space (<[i := s]> l) = used_space l + slot_len s - slot_len s0.
Proof.
  intros Hi. rewrite <- (take_drop_middle _ _ _ Hi) at 2. rewrite insert_take_drop by (by apply lookup_lt_Some in Hi).
  rewrite !used_app. simpl. lia.
Qed.

Definition put_cell (i : nat) (c : Z * slot) cells : list (Z * slot) :=
  if decide (i = length cells) then cells ++ [c] else <[i := c]> cells.

Lemma put_cell_lookup i c cells k : (i <= length cells)%nat ->
  put_cell i c cells !! k = if decide (k = i) then Some c else cells !! k.
Proof.
  intros Hi. unfold put_cell. case_decide as Hd.
  - subst. destruct (decide (k = length cells)) as [->|Hk]; [by rewrite lookup_app_r, Nat.sub_diag by lia|].
    destruct (decide (k < length cells)%nat); [by rewrite lookup_app_l|].
    rewrite lookup_app_r by lia. rewrite (lookup_ge_None_2 cells k) by lia.
    destruct (k - length cells)%nat eqn:E; [lia|]. by rewrite lookup_cons.
  - destruct (decide (k = i)) as [->|Hk]; [rewrite list_lookup_insert_eq by lia; done|by rewrite list_lookup_insert_ne].
Qed.

Lemma put_cell_slots i c cells : snd <$> put_cell i c cells = put_slot i c.2 (snd <$> cells).
Proof.
  unfold put_cell, put_slot. rewrite length_fmap. case_decide; [by rewrite fmap_app|by rewrite list_fmap_insert].
Qed.

Lemma put_cell_length i c cells : (i <= length cells)%nat ->
  length (put_cell i c cells) = if decide (i = length cells) then Datatypes.S (length cells) else length cells.
Proof. intros Hi. unfold put_cell. case_decide; [rewrite length_app; simpl; lia|by rewrite length_insert]. Qed.

Section OnPage.
Context m pid prev next fsp cells (Hl : page_layout m pid prev next fsp cells).

Lemma lay_bounds : SIZE_TABLE_PAGE_HEADER <= fsp <= PAGE_SIZE /\ PAGE_SIZE < 2 ^ 31
  /\ OFFSET_TUPLE_OFFSET + SIZE_TUPLE * Z.of_nat (length cells) <= fsp.
Proof using Hl.
  pose proof (lay_room _ _ _ _ _ _ Hl) as Hr. pose proof PAGE_SIZE_int.
  unfold SIZE_TABLE_PAGE_HEADER, SIZE_TUPLE, OFFSET_TUPLE_OFFSET in *. lia.
Qed.

Lemma GetCount_ok : TP_GetTupleCount m = Ok (Z.of_nat (length cells)).
Proof using Hl. apply (lay_count _ _ _ _ _ _ Hl). Qed.

Lemma GetRemaining_ok : TP_GetFreeSpaceRemaining m
  = Ok (PAGE_SIZE - used_space (snd <$> cells) - SIZE_TABLE_PAGE_HEADER - SIZE_TUPLE * Z.of_nat (length cells)).
Proof using Hl.
  destruct lay_bounds as (B1 & B2 & B3). unfold TP_GetFreeSpaceRemaining, TP_GetFreeSpacePointer.
  rewrite (lay_fsp _ _ _ _ _ _ Hl). cbn [rbind]. rewrite GetCount_ok. cbn [rbind].
  rewrite (lay_used _ _ _ _ _ _ Hl). unfold SIZE_TABLE_PAGE_HEADER, SIZE_TUPLE, OFFSET_TUPLE_OFFSET in *.
  rewrite !unsigned_id; [f_equal; lia|unfold is_unsigned; lia|].
  rewrite unsigned_id; unfold is_unsigned; lia.
Qed.

Lemma cell_word (i : nat) c : cells !! i = Some c -> (slot_word c.2 = 0 <-> c.2 = Empty).
Proof using Hl. intros Hc. apply slot_word_empty. intros Hn. by apply (lay_data _ _ _ _ _ _ Hl i c Hc Hn). Qed.

Lemma cell_len (i : nat) c : cells !! i = Some c -> 0 <= slot_len c.2 < 2 ^ 31.
Proof using Hl.
  intros Hc. split; [unfold slot_len; lia|]. destruct (c.2) eqn:E; [done|..];
    (destruct (lay_data _ _ _ _ _ _ Hl i c Hc) as (H0 & H1 & H2 & _); [by rewrite E|];
     rewrite <- E; destruct lay_bounds as (B1 & B2 & _); unfold SIZE_TABLE_PAGE_HEADER in *; lia).
Qed.

Lemma FindSlot_ok n (i : nat) : (i + n = length cells)%nat ->
  exists k : nat, FindSlot_loop n (Z.of_nat i) m = Ok (Z.of_nat k) /\ (i <= k <= length cells)%nat
    /\ (forall j c, (i <= j < k)%nat -> cells !! j = Some c -> c.2 <> Empty)
    /\ ((k < length cells)%nat -> exists c, cells !! k = Some c /\ c.2 = Empty).
Proof using Hl.
  revert i. induction n as [|n IH]; intros i Hn.
  { exists i. split_and!; try done; try lia. }
  destruct (lookup_lt_is_Some_2 cells i) as [c Hc]; [lia|].
  cbn [FindSlot_loop]. rewrite (lay_size _ _ _ _ _ _ Hl i c Hc). cbn [rbind].
  destruct (Z.eqb_spec (slot_word c.2) 0) as [E|E].
  - apply (cell_word i c Hc) in E. exists i. split_and!; try done; try lia. intros _. by exists c.
  - replace (Z.of_nat i + 1) with (Z.of_nat (Datatypes.S i)) by lia.
    destruct (IH (Datatypes.S i)) as (k & -> & Hk & Hno & He); [lia|]. exists k. split_and!; [done|lia|lia| |done].
    intros j c' Hj Hc'. destruct (decide (j = i)) as [->|]; [|apply (Hno j); [lia|done]].
    simplify_eq. intros Ec. apply E. by apply (cell_word i c Hc).
Qed.

Lemma free_slot_ok (k : nat) :
  (k <= length cells)%nat -> (forall j c, (j < k)%nat -> cells !! j = Some c -> c.2 <> Empty) ->
  ((k < length cells)%nat -> exists c, cells !! k = Some c /\ c.2 = Empty) ->
  free_slot (snd <$> cells) = k.
Proof using Type.
  intros Hk Hno He. unfold free_slot. destruct (list_find _ _) as [[i s]|] eqn:Hf.
  - apply list_find_Some in Hf as (Hi & Hs & Hbefore).
    apply list_lookup_fmap_Some in Hi as ([o s'] & Es & Hi). simpl in Es. subst s'.
    destruct (lt_eq_lt_dec i k) as [[Hlt|]|Hgt]; [|done|].
    + exfalso. apply (Hno i _ Hlt Hi). by destruct s.
    + exfalso. pose proof (lookup_lt_Some _ _ _ Hi). destruct He as ([o' s'] & Hc & E); [lia|]. simpl in E. subst.
      apply (Hbefore k Empty); [by rewrite list_lookup_fmap, Hc|lia|done].
  - rewrite length_fmap. destruct (decide (k = length cells)) as [->|Hne]; [done|].
    destruct He as ([o s] & Hc & E); [lia|]. simpl in E. subst. exfalso.
    apply list_find_None in Hf. rewrite Forall_forall in Hf. apply (Hf Empty); [|done].
    apply list_elem_of_lookup. exists k. by rewrite list_lookup_fmap, Hc.
Qed.
End OnPage.

(** *** Insertion *)

Lemma insert_writes m pid prev next fsp cells (k : nat) data :
  page_layout m pid prev next fsp cells -> is_bytes data -> data <> [] -> (k <= length cells)%nat ->
  (forall c, cells !! k = Some c -> c.2 = Empty) ->
  SIZE_TABLE_PAGE_HEADER + SIZE_TUPLE * (Z.of_nat (length cells) + 1) <= fsp - Z.of_nat (length data) ->
  let n := Z.of_nat (length data) in
  let cells' := put_cell k (fsp - n, Live data) cells in
  exists m1 m2 m3 m4 m5, TP_SetFreeSpacePointer (fsp - n) m = Ok m1
    /\ TP_GetFreeSpacePointer m1 = Ok (fsp - n) /\ mem_write m1 (fsp - n) data = Ok m2
    /\ TP_GetFreeSpacePointer m2 = Ok (fsp - n) /\ TP_SetTupleOffsetAtSlot (Z.of_nat k) (fsp - n) m2 = Ok m3
    /\ TP_SetTupleSize (Z.of_nat k) n m3 = Ok m4
    /\ TP_GetTablePageId m4 = Ok pid /\ TP_GetTupleCount m4 = Ok (Z.of_nat (length cells))
    /\ (if Z.of_nat k =? Z.of_nat (length cells) then TP_SetTupleCount (Z.of_nat (length cells) + 1) m4 else Ok m4) = Ok m5
    /\ page_layout m5 pid prev next (fsp - n) cells'.
Proof.
  intros Hl Hdata Hne Hk Hempty Hroom n cells'. destruct (lay_bounds _ _ _ _ _ _ Hl) as (B1 & B2 & B3).
  pose proof (lay_length _ _ _ _ _ _ Hl) as Hlen. pose proof (lay_bytes _ _ _ _ _ _ Hl) as Hm.
  unfold SIZE_TABLE_PAGE_HEADER, SIZE_TUPLE, OFFSET_TUPLE_OFFSET in *.
  assert (Hn0 : 0 < n) by (unfold n; destruct data; [done|simpl; lia]).
  unfold TP_SetFreeSpacePointer, TP_GetFreeSpacePointer, TP_SetTupleOffsetAtSlot, TP_SetTupleSize, TP_GetTablePageId,
    TP_GetTupleCount, TP_SetTupleCount, OFFSET_FREE_SPACE, OFFSET_TUPLE_OFFSET, OFFSET_TUPLE_SIZE, OFFSET_TUPLE_COUNT, SIZE_TUPLE.
  destruct (store_ok m 16 (fsp - n) Hm) as (m1 & E1 & L1 & M1 & S1 & F1); [lia|lia|].
  destruct (write_ok m1 (fsp - n) data M1 Hdata) as (m2 & E2 & L2 & M2 & S2 & F2); [lia|lia|].
  destruct (store_ok m2 (24 + 8 * Z.of_nat k) (fsp - n) M2) as (m3 & E3 & L3 & M3 & S3 & F3); [lia|lia|].
  destruct (store_ok m3 (28 + 8 * Z.of_nat k) n M3) as (m4 & E4 & L4 & M4 & S4 & F4); [lia|lia|].
  assert (Hu1 : unsigned 32 (fsp - n) = fsp - n) by (apply unsigned_id; unfold is_unsigned; lia).
  assert (Hu2 : unsigned 32 n = n) by (apply unsigned_id; unfold is_unsigned; lia).
  rewrite Hu1 in S1, S3. rewrite Hu2 in S4.
  assert (H5 : exists m5, (if Z.of_nat k =? Z.of_nat (length cells)
      then store_u32 m4 20 (Z.of_nat (length cells) + 1) else Ok m4) = Ok m5 /\ length m5 = length m /\ is_bytes m5
    /\ load_u32 m5 20 = Ok (Z.of_nat (length cells'))
    /\ forall o n, o + n <= 20 \/ 24 <= o -> mem_read m5 o n = mem_read m4 o n).
  { unfold cells'. rewrite put_cell_length by done. destruct (Z.eqb_spec (Z.of_nat k) (Z.of_nat (length cells))) as [E|E].
    - destruct (store_ok m4 20 (Z.of_nat (length cells) + 1) M4) as (m5 & E5 & L5 & M5 & S5 & F5); [lia|lia|].
      exists m5. rewrite decide_True by lia. split_and!; [done|congruence|done| |].
      + rewrite S5. rewrite unsigned_id by (unfold is_unsigned; lia). f_equal. lia.
      + intros o k' Ho. apply F5. lia.
    - exists m4. rewrite decide_False by lia. split_and!; [done|congruence|done| |done].
      rewrite <- (lay_count _ _ _ _ _ _ Hl). apply load_u32_frame. unfold OFFSET_TUPLE_COUNT.
      rewrite F4, F3, F2, F1 by lia. done. }
  destruct H5 as (m5 & E5 & L5 & M5 & S5 & F5).
  assert (F : forall o k', o + k' <= 16 \/ (24 <= o /\ o + k' <= 24 + 8 * Z.of_nat k)
      \/ (32 + 8 * Z.of_nat k <= o /\ o + k' <= fsp - n) \/ (fsp <= o /\ 0 <= k') -> mem_read m5 o k' = mem_read m o k').
  { intros o k' Ho. rewrite F5, F4, F3, F2, F1 by lia. done. }
  exists m1, m2, m3, m4, m5. split_and!; [done|done|done| |done|done| | |done|].
  - rewrite <- S1. apply load_u32_frame. apply F2. lia.
  - rewrite <- (lay_pid _ _ _ _ _ _ Hl). apply load_i32_frame. rewrite F4, F3, F2, F1 by lia. done.
  - rewrite <- (lay_count _ _ _ _ _ _ Hl). apply load_u32_frame. unfold OFFSET_TUPLE_COUNT. rewrite F4, F3, F2, F1 by lia. done.
  - assert (Hlk : forall j c, cells' !! j = Some c -> (j = k /\ c = (fsp - n, Live data)) \/ (j <> k /\ cells !! j = Some c)).
    { intros j c. unfold cells'. rewrite put_cell_lookup by done. case_decide; [intros [= <-]; by left|by right]. }
    assert (Hcl : Z.of_nat (length cells') <= Z.of_nat (length cells) + 1).
    { unfold cells'. rewrite put_cell_length by done. case_decide; lia. }
    split.
    + lia.
    + done.
    + rewrite <- (lay_pid _ _ _ _ _ _ Hl). apply load_i32_frame, F. lia.
    + rewrite <- (lay_prev _ _ _ _ _ _ Hl). apply load_i32_frame, F. unfold OFFSET_PREV_PAGE_ID. lia.
    + rewrite <- (lay_next _ _ _ _ _ _ Hl). apply load_i32_frame, F. unfold OFFSET_NEXT_PAGE_ID. lia.
    + rewrite <- S1. apply load_u32_frame. unfold OFFSET_FREE_SPACE. rewrite F5, F4, F3, F2 by lia. done.
    + done.
    + unfold SIZE_TABLE_PAGE_HEADER, SIZE_TUPLE. lia.
    + unfold cells'. rewrite put_cell_slots. unfold put_slot. rewrite length_fmap.
      pose proof (lay_used _ _ _ _ _ _ Hl) as Hu. case_decide as Hd.
      * rewrite used_app, Hu. simpl. unfold slot_len. simpl. fold n. lia.
      * destruct (lookup_lt_is_Some_2 cells k) as [c Hc]; [lia|].
        rewrite (used_insert _ _ _ (c.2)) by (by rewrite list_lookup_fmap, Hc). rewrite Hu, (Hempty c Hc).
        unfold slot_len. simpl. fold n. lia.
    + intros j c [[-> ->]|[Hj Hc]]%Hlk; unfold TP_GetTupleOffsetAtSlot, OFFSET_TUPLE_OFFSET, SIZE_TUPLE; simpl.
      * rewrite <- S3. apply load_u32_frame. rewrite F5, F4 by lia. done.
      * rewrite <- (lay_offset _ _ _ _ _ _ Hl j c Hc). unfold TP_GetTupleOffsetAtSlot, OFFSET_TUPLE_OFFSET, SIZE_TUPLE.
        apply load_u32_frame, F. apply lookup_lt_Some in Hc. lia.
    + intros j c [[-> ->]|[Hj Hc]]%Hlk; unfold TP_GetTupleSize, OFFSET_TUPLE_SIZE, SIZE_TUPLE; simpl.
      * fold n. rewrite <- S4. apply load_u32_frame. rewrite F5 by lia. done.
      * rewrite <- (lay_size _ _ _ _ _ _ Hl j c Hc). unfold TP_GetTupleSize, OFFSET_TUPLE_SIZE, SIZE_TUPLE.
        apply load_u32_frame, F. apply lookup_lt_Some in Hc. lia.
    + intros j c [[-> ->]|[Hj Hc]]%Hlk Hnc.
      * unfold slot_len. simpl. fold n. split_and!; [lia|lia|lia|].
        replace (fsp - n) with (fsp - n + 0) by lia. rewrite F5, F4, F3, S2 by lia. unfold n. rewrite mem_read_ok by lia.
        rewrite Z2Nat.inj_0, drop_0, Nat2Z.id. by rewrite take_ge.
      * destruct (lay_data _ _ _ _ _ _ Hl j c Hc Hnc) as (H0 & H1 & H2 & H3). split_and!; [lia|lia|lia|].
        rewrite <- H3. apply F. lia.
    + assert (Hnew : forall j c, cells !! j = Some c -> c.2 <> Empty -> fsp <= c.1).
      { intros j c Hc Hnc. by destruct (lay_data _ _ _ _ _ _ Hl j c Hc Hnc) as (_ & H1 & _). }
      intros i j c c' Hij [[-> ->]|[Hi Hc]]%Hlk [[-> ->]|[Hj Hc']]%Hlk Hn1 Hn2; simpl in *.
      * done.
      * left. unfold slot_len. simpl. fold n. specialize (Hnew j c' Hc' Hn2). lia.
      * right. unfold slot_len. simpl. fold n. specialize (Hnew i c Hc Hn1). lia.
      * by apply (lay_disjoint _ _ _ _ _ _ Hl i j).
    + intros j c [[-> ->]|[Hj Hc]]%Hlk; [done|]. by apply (lay_empty _ _ _ _ _ _ Hl j).
Qed.

Lemma InsertTuple_ok m pid prev next l t :
  page_rep m pid prev next l -> is_bytes (tuple_data_ t) -> tuple_data_ t <> [] ->
  if has_room l (tuple_size_ t)
  then exists m', TP_InsertTuple t m = Ok (Some (RID_Set pid (Z.of_nat (free_slot l))), m')
    /\ page_rep m' pid prev next (put_slot (free_slot l) (Live (tuple_data_ t)) l)
  else TP_InsertTuple t m = Ok (None, m).
Proof.
  intros (fsp & cells & Hl & ->) Hb Hne. unfold TP_InsertTuple.
  assert (Hn : 0 < tuple_size_ t) by (unfold tuple_size_; destruct (tuple_data_ t); [done|simpl; lia]).
  rewrite (proj2 (Z.ltb_lt 0 _) Hn). cbn [assert rbind]. rewrite (GetRemaining_ok _ _ _ _ _ _ Hl). cbn [rbind].
  unfold has_room. rewrite length_fmap. pose proof (lay_used _ _ _ _ _ _ Hl) as Hu.
  unfold SIZE_TABLE_PAGE_HEADER, SIZE_TUPLE in *.
  destruct (Z.leb_spec (24 + 8 * (Z.of_nat (length cells) + 1) + used_space (snd <$> cells) + tuple_size_ t) PAGE_SIZE) as [Hr|Hr].
  2:{ by rewrite (proj2 (Z.ltb_lt _ _)) by lia. }
  rewrite (proj2 (Z.ltb_ge _ _)) by lia. rewrite (GetCount_ok _ _ _ _ _ _ Hl). cbn [rbind]. rewrite Nat2Z.id.
  destruct (FindSlot_ok _ _ _ _ _ _ Hl (length cells) 0 eq_refl) as (k & Hrun & Hk & Hno & He).
  change (Z.of_nat 0) with 0 in Hrun. rewrite Hrun. cbn [rbind]. rewrite andb_false_r.
  assert (Hf : free_slot (snd <$> cells) = k).
  { apply free_slot_ok; [lia| |done]. intros j c Hj. apply Hno. lia. }
  destruct (insert_writes m pid prev next fsp cells k (tuple_data_ t) Hl Hb Hne) as
    (m1 & m2 & m3 & m4 & m5 & E1 & G1 & E2 & G2 & E3 & E4 & G3 & G4 & E5 & Hl'); [lia| | |].
  { intros c Hc. destruct He as (c' & Hc' & E); [by apply lookup_lt_Some in Hc|]. congruence. }
  { unfold SIZE_TABLE_PAGE_HEADER, SIZE_TUPLE. unfold tuple_size_ in *. lia. }
  fold (tuple_size_ t) in *. unfold TP_GetFreeSpacePointer at 1. rewrite (lay_fsp _ _ _ _ _ _ Hl). cbn [rbind].
  rewrite E1. cbn [rbind]. rewrite G1. cbn [rbind]. rewrite E2. cbn [rbind]. rewrite G2. cbn [rbind]. rewrite E3. cbn [rbind].
  rewrite E4. cbn [rbind]. rewrite G3. cbn [rbind]. rewrite G4. cbn [rbind]. rewrite E5. cbn [rbind].
  rewrite Hf. exists m5. split; [done|]. exists (fsp - tuple_size_ t), (put_cell k (fsp - tuple_size_ t, Live (tuple_data_ t)) cells).
  split; [done|]. by rewrite put_cell_slots.
Qed.

(** *** Changing the size word of a slot *)

Lemma set_word_layout m pid prev next fsp cells (k : nat) c s' :
  page_layout m pid prev next fsp cells -> cells !! k = Some c -> (s' = Empty <-> c.2 = Empty) -> slot_data s' = slot_data c.2 ->
  exists m', TP_SetTupleSize (Z.of_nat k) (slot_word s') m = Ok m'
    /\ page_layout m' pid prev next fsp (<[k := (c.1, s')]> cells).
Proof.
  intros Hl Hc Hne Hd. destruct (lay_bounds _ _ _ _ _ _ Hl) as (B1 & B2 & B3).
  pose proof (lay_length _ _ _ _ _ _ Hl) as Hlen. pose proof (lay_bytes _ _ _ _ _ _ Hl) as Hm.
  pose proof (lookup_lt_Some _ _ _ Hc) as Hk. unfold SIZE_TABLE_PAGE_HEADER, SIZE_TUPLE, OFFSET_TUPLE_OFFSET in *.
  assert (Hsl : slot_len s' = slot_len c.2) by (unfold slot_len; by rewrite Hd).
  unfold TP_SetTupleSize, OFFSET_TUPLE_SIZE, SIZE_TUPLE.
  destruct (store_ok m (28 + 8 * Z.of_nat k) (slot_word s') Hm) as (m' & E & L & M & St & F); [lia|lia|].
  rewrite unsigned_id in St.
  2:{ pose proof (cell_len _ _ _ _ _ _ Hl k c Hc) as Hcl. rewrite <- Hsl in Hcl. unfold slot_len in Hcl.
      unfold is_unsigned. destruct s'; simpl in *; unfold DELETE_MASK; lia. }
  assert (Hlk : forall j x, <[k := (c.1, s')]> cells !! j = Some x ->
    exists y, cells !! j = Some y /\ x.1 = y.1 /\ slot_data x.2 = slot_data y.2 /\ (x.2 = Empty <-> y.2 = Empty) /\ (j <> k -> x = y)
      /\ (j = k -> x.2 = s')).
  { intros j x. destruct (decide (j = k)) as [->|Hj].
    - rewrite list_lookup_insert_eq by done. intros [= <-]. exists c. split_and!; try done.
    - rewrite list_lookup_insert_ne by done. intros Hx. by exists x. }
  exists m'. split; [done|]. split.
  - lia.
  - done.
  - rewrite <- (lay_pid _ _ _ _ _ _ Hl). apply load_i32_frame, F. lia.
  - rewrite <- (lay_prev _ _ _ _ _ _ Hl). apply load_i32_frame, F. unfold OFFSET_PREV_PAGE_ID. lia.
  - rewrite <- (lay_next _ _ _ _ _ _ Hl). apply load_i32_frame, F. unfold OFFSET_NEXT_PAGE_ID. lia.
  - rewrite <- (lay_fsp _ _ _ _ _ _ Hl). apply load_u32_frame, F. unfold OFFSET_FREE_SPACE. lia.
  - rewrite length_insert, <- (lay_count _ _ _ _ _ _ Hl). apply load_u32_frame, F. unfold OFFSET_TUPLE_COUNT. lia.
  - rewrite length_insert. apply (lay_room _ _ _ _ _ _ Hl).
  - rewrite list_fmap_insert. rewrite (used_insert _ _ _ (c.2)) by (by rewrite list_lookup_fmap, Hc).
    rewrite (lay_used _ _ _ _ _ _ Hl). simpl. lia.
  - intros j x (y & Hy & -> & _)%Hlk. rewrite <- (lay_offset _ _ _ _ _ _ Hl j y Hy).
    unfold TP_GetTupleOffsetAtSlot, OFFSET_TUPLE_OFFSET, SIZE_TUPLE. apply load_u32_frame, F. lia.
  - intros j x (y & Hy & _ & _ & _ & Hne1 & Heq)%Hlk. unfold TP_GetTupleSize, OFFSET_TUPLE_SIZE, SIZE_TUPLE.
    destruct (decide (j = k)) as [->|Hj]; [by rewrite St, Heq|]. rewrite (Hne1 Hj).
    rewrite <- (lay_size _ _ _ _ _ _ Hl j y Hy). unfold TP_GetTupleSize, OFFSET_TUPLE_SIZE, SIZE_TUPLE. apply load_u32_frame, F. lia.
  - intros j x (y & Hy & Eo & Ed & Hn & _)%Hlk Hx. unfold slot_len. rewrite Eo, Ed.
    destruct (lay_data _ _ _ _ _ _ Hl j y Hy) as (H0 & H1 & H2 & H3); [tauto|].
    unfold slot_len in *. split_and!; [lia|lia|lia|]. rewrite <- H3. apply F. right. lia.
  - intros i j x x' Hij (y & Hy & Eo & Ed & Hn & _)%Hlk (y' & Hy' & Eo' & Ed' & Hn' & _)%Hlk Hx Hx'.
    unfold slot_len. rewrite Eo, Eo', Ed, Ed'. apply (lay_disjoint _ _ _ _ _ _ Hl i j y y' Hij Hy Hy'); tauto.
  - intros j x (y & Hy & -> & _ & Hn & _)%Hlk Hx. apply (lay_empty _ _ _ _ _ _ Hl j y Hy). tauto.
Qed.

(** *** Moving the tuples *)

Definition table m cells : Prop := forall (i : nat) c, cells !! i = Some c ->
  TP_GetTupleOffsetAtSlot (Z.of_nat i) m = Ok c.1 /\ TP_GetTupleSize (Z.of_nat i) m = Ok (slot_word c.2).

Definition shift_cell (bound delta : Z) (c : Z * slot) : Z * slot :=
  if negb (slot_word c.2 =? 0) && (c.1 <? bound) then (c.1 + delta, c.2) else c.

Lemma shift_cell_slot bound delta c : (shift_cell bound delta c).2 = c.2.
Proof. unfold shift_cell. by destruct (_ && _). Qed.

Lemma Shift_ok bound delta n (i : nat) m cells :
  (i + n = length cells)%nat -> is_bytes m -> 24 + 8 * Z.of_nat (length cells) <= Z.of_nat (length m) -> table m cells ->
  (forall j c, (i <= j)%nat -> cells !! j = Some c -> is_unsigned 32 (shift_cell bound delta c).1) ->
  exists m', ShiftOffsets_loop n (Z.of_nat i) bound delta m = Ok m' /\ length m' = length m /\ is_bytes m'
    /\ (forall o k, o + k <= 24 \/ 24 + 8 * Z.of_nat (length cells) <= o -> mem_read m' o k = mem_read m o k)
    /\ table m' (take i cells ++ (shift_cell bound delta <$> drop i cells)).
Proof.
  revert i m cells. induction n as [|n IH]; intros i m cells Hn Hm Hlen Ht Hu.
  { exists m. split_and!; try done. rewrite take_ge, drop_ge by lia. by rewrite app_nil_r. }
  destruct (lookup_lt_is_Some_2 cells i) as [c Hc]; [lia|]. destruct (Ht i c Hc) as [Ho Hs].
  pose proof (lookup_lt_Some _ _ _ Hc) as Hi.
  cbn [ShiftOffsets_loop]. rewrite Ho. cbn [rbind]. rewrite Hs. cbn [rbind].
  assert (Hstep : exists m1, (if negb (slot_word c.2 =? 0) && (c.1 <? bound)
      then TP_SetTupleOffsetAtSlot (Z.of_nat i) (c.1 + delta) m else Ok m) = Ok m1 /\ length m1 = length m /\ is_bytes m1
    /\ (forall o k, o + k <= 24 + 8 * Z.of_nat i \/ 28 + 8 * Z.of_nat i <= o -> mem_read m1 o k = mem_read m o k)
    /\ TP_GetTupleOffsetAtSlot (Z.of_nat i) m1 = Ok (shift_cell bound delta c).1).
  { pose proof (Hu i c (le_n i) Hc) as Huc. unfold shift_cell in *. destruct (_ && _); simpl in *.
    - unfold TP_SetTupleOffsetAtSlot, TP_GetTupleOffsetAtSlot, OFFSET_TUPLE_OFFSET, SIZE_TUPLE.
      destruct (store_ok m (24 + 8 * Z.of_nat i) (c.1 + delta) Hm) as (m1 & E & L & M & St & F); [lia|lia|].
      exists m1. rewrite unsigned_id in St by done. split_and!; try done. intros o k Hk. apply F. lia.
    - by exists m. }
  destruct Hstep as (m1 & -> & L1 & M1 & F1 & O1). cbn [rbind].
  replace (Z.of_nat i + 1) with (Z.of_nat (Datatypes.S i)) by lia.
  destruct (IH (Datatypes.S i) m1 (<[i := shift_cell bound delta c]> cells)) as (m' & -> & L & M & F & T).
  - rewrite length_insert. lia.
  - done.
  - rewrite length_insert. lia.
  - intros j x Hx. destruct (decide (j = i)) as [->|Hj].
    + rewrite list_lookup_insert_eq in Hx by done. simplify_eq. split; [done|]. rewrite shift_cell_slot.
      rewrite <- Hs. apply load_u32_frame, F1. unfold OFFSET_TUPLE_SIZE, SIZE_TUPLE. lia.
    + rewrite list_lookup_insert_ne in Hx by done. destruct (Ht j x Hx) as [To Ts]. rewrite <- To, <- Ts.
      split; apply load_u32_frame, F1; unfold OFFSET_TUPLE_SIZE, OFFSET_TUPLE_OFFSET, SIZE_TUPLE; lia.
  - intros j x Hj Hx. rewrite list_lookup_insert_ne in Hx by lia. apply (Hu j); [lia|done].
  - exists m'. rewrite length_insert in F. split_and!; [done|congruence|done| |].
    + intros o k Hk. rewrite F, F1 by lia. done.
    + rewrite (drop_S _ _ _ Hc). rewrite fmap_cons. rewrite drop_insert_lt in T by lia.
      rewrite (take_S_r _ _ (shift_cell bound delta c)) in T by (by rewrite list_lookup_insert_eq).
      rewrite take_insert_ge in T by lia. by rewrite <- app_assoc in T.
Qed.

(** A page in which the tuple of slot [k] has been replaced by one of another
    length (or removed): the tuples below it have moved by the difference. *)
Lemma resize_layout m m' pid prev next fsp cells cells' (k : nat) c s' :
  page_layout m pid prev next fsp cells -> cells !! k = Some c -> c.2 <> Empty ->
  let delta := slot_len c.2 - slot_len s' in
  24 + 8 * Z.of_nat (length cells) <= fsp + delta ->
  length m' = length m -> is_bytes m' -> (forall o, o + 4 <= 16 -> mem_read m' o 4 = mem_read m o 4) ->
  load_u32 m' OFFSET_FREE_SPACE = Ok (fsp + delta) -> load_u32 m' OFFSET_TUPLE_COUNT = Ok (Z.of_nat (length cells)) ->
  table m' cells' ->
  (forall d n, 0 <= d -> 0 <= n -> d + n <= c.1 - fsp -> mem_read m' (fsp + delta + d) n = mem_read m (fsp + d) n) ->
  (forall o n, c.1 + slot_len c.2 <= o -> mem_read m' o n = mem_read m o n) ->
  (s' <> Empty -> 0 < slot_len s' /\ mem_read m' (c.1 + delta) (slot_len s') = Ok (slot_data s')) ->
  length cells' = length cells -> (exists o', cells' !! k = Some (o', s') /\ (s' <> Empty -> o' = c.1 + delta) /\ (s' = Empty -> o' = 0)) ->
  (forall j x, j <> k -> cells !! j = Some x -> cells' !! j = Some (shift_cell c.1 delta x)) ->
  page_layout m' pid prev next (fsp + delta) cells' /\ snd <$> cells' = <[k := s']> (snd <$> cells).
Proof.
  intros Hl Hc Hne delta Hroom L M Hw Hf Hn Ht Hmv Hkeep Hnew Hlc (o' & Hk & Ho' & Hoe) Hother.
  destruct (lay_bounds _ _ _ _ _ _ Hl) as (B1 & B2 & B3). pose proof (lookup_lt_Some _ _ _ Hc) as Hkl.
  destruct (lay_data _ _ _ _ _ _ Hl k c Hc Hne) as (C0 & C1 & C2 & C3).
  assert (Hdelta : delta <= slot_len c.2) by (unfold delta, slot_len; lia).
  assert (Hslots : snd <$> cells' = <[k := s']> (snd <$> cells)).
  { apply list_eq. intros j. rewrite list_lookup_fmap. destruct (decide (j = k)) as [->|Hj].
    - rewrite Hk, list_lookup_insert_eq by (by rewrite length_fmap). done.
    - rewrite list_lookup_insert_ne, list_lookup_fmap by done. destruct (cells !! j) as [x|] eqn:Hx.
      + rewrite (Hother j x Hj Hx). simpl. by rewrite shift_cell_slot.
      + rewrite (lookup_ge_None_2 cells') by (rewrite Hlc; by apply lookup_ge_None_1). done. }
  split; [|done].
  assert (Hlk : forall j x, cells' !! j = Some x -> x.2 <> Empty -> 0 < slot_len x.2 /\
    ((j = k /\ x = (c.1 + delta, s')) \/ (j <> k /\ exists y, cells !! j = Some y /\ x.2 = y.2 /\ y.2 <> Empty
      /\ ((x.1 = y.1 + delta /\ fsp <= y.1 /\ y.1 + slot_len y.2 <= c.1) \/ (x.1 = y.1 /\ c.1 + slot_len c.2 <= y.1))))).
  { intros j x Hx Hxe. destruct (decide (j = k)) as [->|Hj].
    - rewrite Hk in Hx. simplify_eq. simpl in *. rewrite (Ho' Hxe). split; [by apply Hnew|by left].
    - destruct (lookup_lt_is_Some_2 cells j) as [y Hy]; [apply lookup_lt_Some in Hx; lia|].
      rewrite (Hother j y Hj Hy) in Hx. simplify_eq. rewrite shift_cell_slot in *.
      destruct (lay_data _ _ _ _ _ _ Hl j y Hy Hxe) as (D0 & D1 & D2 & _). split; [done|]. right. split; [done|]. exists y.
      split_and!; [done|done|done|]. unfold shift_cell.
      rewrite (proj2 (Z.eqb_neq _ _)) by (intros E; by apply (cell_word _ _ _ _ _ _ Hl j y Hy) in E). simpl.
      destruct (lay_disjoint _ _ _ _ _ _ Hl j k y c Hj Hy Hc Hxe Hne); destruct (Z.ltb_spec y.1 c.1); simpl; lia. }
  pose proof (lay_used _ _ _ _ _ _ Hl) as Hu. pose proof (lay_length _ _ _ _ _ _ Hl) as Hlen. split.
  - lia.
  - done.
  - rewrite <- (lay_pid _ _ _ _ _ _ Hl). by apply load_i32_frame, Hw.
  - rewrite <- (lay_prev _ _ _ _ _ _ Hl). by apply load_i32_frame, Hw.
  - rewrite <- (lay_next _ _ _ _ _ _ Hl). by apply load_i32_frame, Hw.
  - done.
  - by rewrite Hlc.
  - rewrite Hlc. unfold SIZE_TABLE_PAGE_HEADER, SIZE_TUPLE in *. lia.
  - rewrite Hslots. rewrite (used_insert _ _ _ (c.2)) by (by rewrite list_lookup_fmap, Hc). lia.
  - intros j x Hx. by apply Ht.
  - intros j x Hx. by apply Ht.
  - intros j x Hx Hxe. destruct (Hlk j x Hx Hxe) as (H0 & [[-> ->]|(Hj & y & Hy & Exy & Hye & Hpos)]).
    + simpl in *. split_and!; [done|lia|lia|]. by apply Hnew.
    + destruct (lay_data _ _ _ _ _ _ Hl j y Hy Hye) as (D0 & D1 & D2 & D3). rewrite Exy.
      destruct Hpos as [(-> & P1 & P2)|(-> & P1)]; (split_and!; [done|lia|lia|]); rewrite <- D3.
      * replace (y.1 + delta) with (fsp + delta + (y.1 - fsp)) by lia. replace y.1 with (fsp + (y.1 - fsp)) at 2 by lia.
        apply Hmv; lia.
      * by apply Hkeep.
  - intros i j x x' Hij Hx Hx' Hxe Hxe'.
    destruct (Hlk i x Hx Hxe) as (H0 & [[-> ->]|(Hi & y & Hy & Exy & Hye & Hpos)]);
    destruct (Hlk j x' Hx' Hxe') as (H0' & [[-> ->]|(Hj & y' & Hy' & Exy' & Hye' & Hpos')]); simpl in *.
    + done.
    + rewrite Exy'. lia.
    + rewrite Exy. lia.
    + pose proof (lay_disjoint _ _ _ _ _ _ Hl i j y y' Hij Hy Hy' Hye Hye') as Hdis. rewrite Exy, Exy'. lia.
  - intros j x Hx Hxe. destruct (decide (j = k)) as [->|Hj]; [rewrite Hk in Hx; simplify_eq; by apply Hoe|].
    destruct (lookup_lt_is_Some_2 cells j) as [y Hy]; [apply lookup_lt_Some in Hx; lia|].
    rewrite (Hother j y Hj Hy) in Hx. simplify_eq. rewrite shift_cell_slot in Hxe.
    unfold shift_cell. rewrite Hxe. simpl. by apply (lay_empty _ _ _ _ _ _ Hl j).
Qed.

(** *** The size words *)

Lemma land_flag n : 0 <= n < DELETE_MASK -> Z.land n DELETE_MASK = 0.
Proof.
  intros Hn. unfold DELETE_MASK in *. rewrite <- (Z.mod_small n (2 ^ 31)), <- Z.land_ones, <- Z.land_assoc by lia.
  change (Z.land (Z.ones 31) (2 ^ 31)) with 0. apply Z.land_0_r.
Qed.

Lemma flag_lor n : 0 <= n < DELETE_MASK -> Z.lor DELETE_MASK n = n + DELETE_MASK.
Proof.
  intros Hn. unfold DELETE_MASK in *. change (2 ^ 31) with (Z.shiftl 1 31) at 1.
  rewrite lor_shiftl_add by lia. lia.
Qed.

Lemma SetFlag_ok n : 0 <= n < DELETE_MASK -> TP_SetDeletedFlag n = n + DELETE_MASK.
Proof.
  intros Hn. unfold TP_SetDeletedFlag. rewrite Z.lor_comm, flag_lor by done.
  apply unsigned_id. unfold is_unsigned, DELETE_MASK in *. lia.
Qed.

Lemma UnsetFlag_ok n : 0 <= n < DELETE_MASK -> TP_UnsetDeletedFlag (n + DELETE_MASK) = n /\ TP_UnsetDeletedFlag n = n.
Proof.
  intros Hn. assert (Hc : Z.land n (Z.lnot DELETE_MASK) = n).
  { unfold DELETE_MASK in *. rewrite <- (Z.mod_small n (2 ^ 31)) at 1 by lia.
    rewrite <- Z.land_ones, <- Z.land_assoc by lia. change (Z.land (Z.ones 31) (Z.lnot (2 ^ 31))) with (Z.ones 31).
    rewrite Z.land_ones by lia. apply Z.mod_small. lia. }
  assert (Hu : unsigned 32 n = n) by (apply unsigned_id; unfold is_unsigned, DELETE_MASK in *; lia).
  unfold TP_UnsetDeletedFlag. split; [|by rewrite Hc].
  rewrite <- flag_lor, Z.land_lor_distr_l by done. rewrite Hc.
  change (Z.land DELETE_MASK (Z.lnot DELETE_MASK)) with 0. by rewrite Z.lor_0_l.
Qed.

Lemma IsDeleted_ok s : 0 <= slot_len s < DELETE_MASK -> (s <> Empty -> 0 < slot_len s) ->
  TP_IsDeleted (slot_word s) = negb (is_live s).
Proof.
  unfold TP_IsDeleted, slot_len. destruct s as [|d|d]; simpl; intros Hr Hp; [done|..].
  - specialize (Hp ltac:(done)). rewrite land_flag by done. simpl. apply Z.eqb_neq. lia.
  - rewrite <- flag_lor, Z.land_lor_distr_l, (land_flag (Z.of_nat (length d))), Z.lor_0_r by done. done.
Qed.

Section Words.
Context m pid prev next fsp cells (Hl : page_layout m pid prev next fsp cells).

Lemma cell_deleted (i : nat) c : cells !! i = Some c -> TP_IsDeleted (slot_word c.2) = negb (is_live c.2).
Proof using Hl.
  intros Hc. apply IsDeleted_ok; [apply (cell_len _ _ _ _ _ _ Hl i c Hc)|].
  intros Hn. by apply (lay_data _ _ _ _ _ _ Hl i c Hc Hn).
Qed.

Lemma NextTuple_ok n (i : nat) : (i + n = length cells)%nat ->
  NextTuple_loop n (Z.of_nat i) m =
    Ok (match list_find (fun s => is_live s = true) (drop i (snd <$> cells)) with
        | Some (k, _) => (true, RID_Set pid (Z.of_nat (i + k)))
        | None => (false, RID_Set INVALID_PAGE_ID 0)
        end).
Proof using Hl.
  revert i. induction n as [|n IH]; intros i Hn; cbn [NextTuple_loop].
  { by rewrite drop_ge by (rewrite length_fmap; lia). }
  destruct (lookup_lt_is_Some_2 cells i) as [c Hc]; [lia|].
  rewrite (lay_size _ _ _ _ _ _ Hl i c Hc). cbn [rbind]. rewrite (cell_deleted i c Hc), negb_involutive.
  rewrite (drop_S _ (c.2)) by (by rewrite list_lookup_fmap, Hc). cbn [list_find].
  unfold TP_GetTablePageId. rewrite (lay_pid _ _ _ _ _ _ Hl). cbn [rbind].
  destruct (is_live c.2); [rewrite decide_True by done; by rewrite Nat.add_0_r|]. rewrite decide_False by done.
  replace (Z.of_nat i + 1) with (Z.of_nat (Datatypes.S i)) by lia. rewrite IH by lia.
  destruct (list_find _ _) as [[k s]|]; simpl; [|done]. do 3 f_equal. lia.
Qed.
End Words.
End Lemmas.
