(* ===== verification/TablePageCorrect.v ===== *)
(** Correctness of the slotted table page: every operation, on every input,
    does to the bytes of the page what the abstract page of slots says. *)

From S2P Require Import Prelude Bytes Rid TablePage.

(** ** The operations and their abstract meaning *)

Inductive tp_op : Type :=
| OpInsert (t : Tuple)
| OpMarkDelete (rid : RID)
| OpUpdate (t : Tuple) (rid : RID)
| OpApplyDelete (rid : RID)
| OpRollbackDelete (rid : RID)
| OpGet (rid : RID)
| OpFirst
| OpNext (rid : RID).

Inductive tp_answer : Type :=
| AnsUnit
| AnsBool (b : bool)
| AnsRid (r : option RID)
| AnsTuple (t : option Tuple)
| AnsFound (r : bool * RID).

Section Machine.
Context `{Config}.
Implicit Types (m : bytes) (l : list slot).

(** A call of one of the page's methods. *)
Definition TP_exec (op : tp_op) m : res (tp_answer * bytes) :=
  match op with
  | OpInsert t => let! ' (r, m) := TP_InsertTuple t m in Ok (AnsRid r, m)
  | OpMarkDelete rid => let! ' (b, m) := TP_MarkDelete rid m in Ok (AnsBool b, m)
  | OpUpdate t rid => let! ' (r, m) := TP_UpdateTuple t rid m in Ok (AnsTuple r, m)
  | OpApplyDelete rid => let! m := TP_ApplyDelete rid m in Ok (AnsUnit, m)
  | OpRollbackDelete rid => let! m := TP_RollbackDelete rid m in Ok (AnsUnit, m)
  | OpGet rid => let! r := TP_GetTuple rid m in Ok (AnsTuple r, m)
  | OpFirst => let! r := TP_GetFirstTupleRid m in Ok (AnsFound r, m)
  | OpNext rid => let! r := TP_GetNextTupleRid rid m in Ok (AnsFound r, m)
  end.

Definition slot_at (rid : RID) l : option slot := l !! Z.to_nat (slot_num_ rid).
Definition set_slot (rid : RID) (s : slot) l : list slot := <[Z.to_nat (slot_num_ rid) := s]> l.

(** The first tuple at or after slot [i]. *)
Definition live_from (pid : Z) (i : nat) l : bool * RID :=
  match list_find (fun s => is_live s = true) (drop i l) with
  | Some (k, _) => (true, RID_Set pid (Z.of_nat (i + k)))
  | None => (false, RID_Set INVALID_PAGE_ID 0)
  end.

(** Room for a tuple of [n] bytes in the place of one of [old] bytes. *)
Definition has_room_for l (old n : Z) : bool :=
  SIZE_TABLE_PAGE_HEADER + SIZE_TUPLE * Z.of_nat (length l) + used_space l - old + n <=? PAGE_SIZE.

Definition abs_exec (pid : Z) (op : tp_op) l : res (tp_answer * list slot) :=
  match op with
  | OpInsert t =>
      let! _ := assert (0 <? tuple_size_ t) in
      if has_room l (tuple_size_ t)
      then Ok (AnsRid (Some (RID_Set pid (Z.of_nat (free_slot l)))), put_slot (free_slot l) (Live (tuple_data_ t)) l)
      else Ok (AnsRid None, l)
  | OpMarkDelete rid =>
      match slot_at rid l with
      | Some (Live d) => Ok (AnsBool true, set_slot rid (Marked d) l)
      | _ => Ok (AnsBool false, l)
      end
  | OpUpdate t rid =>
      let! _ := assert (0 <? tuple_size_ t) in
      match slot_at rid l with
      | Some (Live d) =>
          if has_room_for l (Z.of_nat (length d)) (tuple_size_ t)
          then Ok (AnsTuple (Some (MkTuple rid d)), set_slot rid (Live (tuple_data_ t)) l)
          else Ok (AnsTuple None, l)
      | _ => Ok (AnsTuple None, l)
      end
  | OpApplyDelete rid =>
      match slot_at rid l with
      | Some (Live _) | Some (Marked _) => Ok (AnsUnit, set_slot rid Empty l)
      | _ => Err AssertionFailure
      end
  | OpRollbackDelete rid =>
      match slot_at rid l with
      | Some (Marked d) => Ok (AnsUnit, set_slot rid (Live d) l)
      | Some _ => Ok (AnsUnit, l)
      | None => Err AssertionFailure
      end
  | OpGet rid =>
      match slot_at rid l with
      | Some (Live d) => Ok (AnsTuple (Some (MkTuple rid d)), l)
      | _ => Ok (AnsTuple None, l)
      end
  | OpFirst => Ok (AnsFound (live_from pid 0 l), l)
  | OpNext rid =>
      let! _ := assert (page_id_ rid =? pid) in
      Ok (AnsFound (live_from pid (Datatypes.S (Z.to_nat (slot_num_ rid))) l), l)
  end.

(** The arguments have their C++ types. *)
Definition op_ok (op : tp_op) : Prop :=
  match op with
  | OpInsert t => is_bytes (tuple_data_ t)
  | OpUpdate t rid => is_bytes (tuple_data_ t) /\ 0 <= slot_num_ rid
  | OpMarkDelete rid | OpApplyDelete rid | OpRollbackDelete rid | OpGet rid => 0 <= slot_num_ rid
  | OpFirst => True
  | OpNext rid => 0 <= slot_num_ rid < 2 ^ 32 - 1
  end.

(** A sequence of calls; it stops at a failure. *)
Fixpoint TP_run (ops : list tp_op) m : res (list tp_answer * bytes) :=
  match ops with
  | [] => Ok ([], m)
  | op :: ops =>
      let! ' (a, m) := TP_exec op m in let! ' (answers, m) := TP_run ops m in Ok (a :: answers, m)
  end.

Fixpoint abs_run (pid : Z) (ops : list tp_op) l : res (list tp_answer * list slot) :=
  match ops with
  | [] => Ok ([], l)
  | op :: ops =>
      let! ' (a, l) := abs_exec pid op l in let! ' (answers, l) := abs_run pid ops l in Ok (a :: answers, l)
  end.

(** ** One operation at a time *)

Section OnPage.
Context m pid prev next fsp cells (Hl : page_layout m pid prev next fsp cells).

(** The slot an operation addresses. *)
Lemma slot_lookup rid : 0 <= slot_num_ rid ->
  match slot_at rid (snd <$> cells) with
  | Some s => slot_num_ rid < Z.of_nat (length cells)
      /\ exists o, cells !! Z.to_nat (slot_num_ rid) = Some (o, s)
      /\ TP_GetTupleOffsetAtSlot (slot_num_ rid) m = Ok o /\ TP_GetTupleSize (slot_num_ rid) m = Ok (slot_word s)
      /\ TP_IsDeleted (slot_word s) = negb (is_live s)
  | None => Z.of_nat (length cells) <= slot_num_ rid
  end.
Proof using Hl.
  intros H0. unfold slot_at. rewrite list_lookup_fmap. destruct (cells !! _) as [[o s]|] eqn:Hc; simpl.
  - pose proof (lookup_lt_Some _ _ _ Hc). split; [lia|]. exists o.
    pose proof (lay_offset _ _ _ _ _ _ Hl _ _ Hc) as Ho. pose proof (lay_size _ _ _ _ _ _ Hl _ _ Hc) as Hs.
    rewrite Z2Nat.id in Ho, Hs by done. split_and!; [done|done|done|].
    apply (cell_deleted _ _ _ _ _ _ Hl _ _ Hc).
  - apply lookup_ge_None_1 in Hc. lia.
Qed.

Lemma MarkDelete_ok rid : 0 <= slot_num_ rid ->
  match slot_at rid (snd <$> cells) with
  | Some (Live d) => exists m', TP_MarkDelete rid m = Ok (true, m')
      /\ page_rep m' pid prev next (set_slot rid (Marked d) (snd <$> cells))
  | _ => TP_MarkDelete rid m = Ok (false, m)
  end.
Proof using Hl.
  intros H0. pose proof (slot_lookup rid H0) as Hs. unfold TP_MarkDelete. rewrite (GetCount_ok _ _ _ _ _ _ Hl). cbn [rbind].
  destruct (slot_at rid _) as [s|] eqn:E; [|by rewrite (proj2 (Z.leb_le _ _)) by done].
  destruct Hs as (Hlt & o & Hc & _ & Hsz & Hdel). rewrite (proj2 (Z.leb_gt _ _)) by lia. rewrite Hsz. cbn [rbind]. rewrite Hdel.
  destruct s as [|d|d]; simpl; try done.
  pose proof (cell_len _ _ _ _ _ _ Hl _ _ Hc) as Hlen. unfold slot_len in Hlen. simpl in Hlen.
  destruct (lay_data _ _ _ _ _ _ Hl _ _ Hc ltac:(done)) as (Hpos & _). unfold slot_len in Hpos. simpl in Hpos.
  rewrite (proj2 (Z.ltb_lt _ _)) by lia. rewrite SetFlag_ok by (unfold DELETE_MASK; lia).
  destruct (set_word_layout _ _ _ _ _ _ _ _ (Marked d) Hl Hc) as (m' & Hw & Hl'); [done|done|].
  rewrite Z2Nat.id in Hw by done. simpl in Hw. rewrite Hw. cbn [rbind]. exists m'. split; [done|].
  eexists _, _. split; [exact Hl'|]. by rewrite list_fmap_insert.
Qed.

Lemma RollbackDelete_ok rid : 0 <= slot_num_ rid ->
  match slot_at rid (snd <$> cells) with
  | Some s => exists m', TP_RollbackDelete rid m = Ok m'
      /\ page_rep m' pid prev next (match s with Marked d => set_slot rid (Live d) (snd <$> cells) | _ => snd <$> cells end)
  | None => TP_RollbackDelete rid m = Err AssertionFailure
  end.
Proof using Hl.
  intros H0. pose proof (slot_lookup rid H0) as Hs. unfold TP_RollbackDelete. rewrite (GetCount_ok _ _ _ _ _ _ Hl). cbn [rbind].
  destruct (slot_at rid _) as [s|] eqn:E; [|by rewrite (proj2 (Z.ltb_ge _ _)) by done].
  destruct Hs as (Hlt & o & Hc & _ & Hsz & Hdel). rewrite (proj2 (Z.ltb_lt _ _)) by lia. cbn [assert rbind].
  rewrite Hsz. cbn [rbind]. rewrite Hdel.
  pose proof (cell_len _ _ _ _ _ _ Hl _ _ Hc) as Hlen. unfold slot_len in Hlen. simpl in Hlen.
  destruct s as [|d|d]; cbn [is_live negb slot_word].
  - destruct (UnsetFlag_ok 0 ltac:(done)) as [_ ->].
    destruct (set_word_layout _ _ _ _ _ _ _ _ Empty Hl Hc) as (m' & Hw & Hl'); [done|done|].
    rewrite Z2Nat.id in Hw by done. simpl in Hw. exists m'. split; [done|].
    eexists _, _. split; [exact Hl'|]. rewrite list_fmap_insert. symmetry. apply list_insert_id. by rewrite list_lookup_fmap, Hc.
  - exists m. split; [done|]. by exists fsp, cells.
  - destruct (UnsetFlag_ok (Z.of_nat (length d)) ltac:(done)) as [-> _].
    destruct (set_word_layout _ _ _ _ _ _ _ _ (Live d) Hl Hc) as (m' & Hw & Hl'); [done|done|].
    rewrite Z2Nat.id in Hw by done. simpl in Hw. exists m'. split; [done|].
    eexists _, _. split; [exact Hl'|]. by rewrite list_fmap_insert.
Qed.

Lemma GetTuple_ok rid : 0 <= slot_num_ rid ->
  TP_GetTuple rid m = Ok (match slot_at rid (snd <$> cells) with Some (Live d) => Some (MkTuple rid d) | _ => None end).
Proof using Hl.
  intros H0. pose proof (slot_lookup rid H0) as Hs. unfold TP_GetTuple. rewrite (GetCount_ok _ _ _ _ _ _ Hl). cbn [rbind].
  destruct (slot_at rid _) as [s|] eqn:E; [|by rewrite (proj2 (Z.leb_le _ _)) by done].
  destruct Hs as (Hlt & o & Hc & Ho & Hsz & Hdel). rewrite (proj2 (Z.leb_gt _ _)) by lia. rewrite Hsz. cbn [rbind]. rewrite Hdel.
  destruct s as [|d|d]; [done| |done]. cbn [is_live negb slot_word]. rewrite Ho. cbn [rbind].
  destruct (lay_data _ _ _ _ _ _ Hl _ _ Hc ltac:(done)) as (_ & _ & _ & Hd). unfold slot_len in Hd. simpl in Hd.
  by rewrite Hd.
Qed.

Lemma First_ok : TP_GetFirstTupleRid m = Ok (live_from pid 0 (snd <$> cells)).
Proof using Hl.
  unfold TP_GetFirstTupleRid. rewrite (GetCount_ok _ _ _ _ _ _ Hl). cbn [rbind]. rewrite Nat2Z.id.
  by apply (NextTuple_ok _ _ _ _ _ _ Hl (length cells) 0).
Qed.

Lemma Next_ok rid : 0 <= slot_num_ rid < 2 ^ 32 - 1 ->
  TP_GetNextTupleRid rid m =
    if page_id_ rid =? pid then Ok (live_from pid (Datatypes.S (Z.to_nat (slot_num_ rid))) (snd <$> cells)) else Err AssertionFailure.
Proof using Hl.
  intros H0. unfold TP_GetNextTupleRid, TP_GetTablePageId. rewrite (lay_pid _ _ _ _ _ _ Hl). cbn [rbind].
  destruct (page_id_ rid =? pid); [|done]. cbn [assert rbind]. rewrite (GetCount_ok _ _ _ _ _ _ Hl). cbn [rbind].
  rewrite unsigned_id by (unfold is_unsigned; lia).
  set (i := Datatypes.S (Z.to_nat (slot_num_ rid))). replace (slot_num_ rid + 1) with (Z.of_nat i) by lia.
  destruct (decide (i <= length cells)%nat) as [Hi|Hi].
  - replace (Z.to_nat (Z.of_nat (length cells) - Z.of_nat i)) with (length cells - i)%nat by lia.
    apply (NextTuple_ok _ _ _ _ _ _ Hl). lia.
  - replace (Z.to_nat (Z.of_nat (length cells) - Z.of_nat i)) with 0%nat by lia.
    unfold live_from. by rewrite drop_ge by (rewrite length_fmap; lia).
Qed.

(** *** Deleting and updating *)

(** The tuples other than that of slot [k] lie below it or behind it. *)
Lemma shift_other (k j : nat) c x delta : cells !! k = Some c -> c.2 <> Empty -> j <> k -> cells !! j = Some x ->
  shift_cell (c.1 + slot_len c.2) delta x = shift_cell c.1 delta x.
Proof using Hl.
  intros Hc Hne Hj Hx. unfold shift_cell. destruct (Z.eqb_spec (slot_word x.2) 0) as [E|E]; [done|]. simpl.
  assert (Hxe : x.2 <> Empty) by (intros Ex; apply E; by rewrite Ex).
  destruct (lay_data _ _ _ _ _ _ Hl k c Hc Hne) as (H0 & _). destruct (lay_data _ _ _ _ _ _ Hl j x Hx Hxe) as (H0' & _).
  destruct (lay_disjoint _ _ _ _ _ _ Hl j k x c Hj Hx Hc Hxe Hne);
    destruct (Z.ltb_spec x.1 (c.1 + slot_len c.2)), (Z.ltb_spec x.1 c.1); try done; lia.
Qed.

(** Shifted offsets fit their type. *)
Lemma shift_unsigned (j : nat) x bound delta :
  cells !! j = Some x -> 0 <= fsp + delta -> delta < 2 ^ 31 -> is_unsigned 32 (shift_cell bound delta x).1.
Proof using Hl.
  intros Hx H0 H1. destruct (lay_bounds _ _ _ _ _ _ Hl) as (B1 & B2 & _). unfold SIZE_TABLE_PAGE_HEADER in *.
  unfold shift_cell, is_unsigned. destruct (decide (x.2 = Empty)) as [E|E].
  - rewrite E. simpl. rewrite (lay_empty _ _ _ _ _ _ Hl j x Hx E). lia.
  - destruct (lay_data _ _ _ _ _ _ Hl j x Hx E) as (D0 & D1 & D2 & _). destruct (_ && _); simpl; lia.
Qed.

(** The slot table of a page whose slot [k] has been rewritten. *)
Lemma table_set (k : nat) c' m' : (k < length cells)%nat ->
  (forall o, 24 <= o -> o + 4 <= 24 + 8 * Z.of_nat (length cells) ->
     o + 4 <= 24 + 8 * Z.of_nat k \/ 32 + 8 * Z.of_nat k <= o -> mem_read m' o 4 = mem_read m o 4) ->
  TP_GetTupleOffsetAtSlot (Z.of_nat k) m' = Ok c'.1 -> TP_GetTupleSize (Z.of_nat k) m' = Ok (slot_word c'.2) ->
  table m' (<[k := c']> cells).
Proof using Hl.
  intros Hk F Ho Hs j x. destruct (decide (j = k)) as [->|Hj].
  - rewrite list_lookup_insert_eq by done. by intros [= <-].
  - rewrite list_lookup_insert_ne by done. intros Hx. pose proof (lookup_lt_Some _ _ _ Hx).
    rewrite <- (lay_offset _ _ _ _ _ _ Hl j x Hx), <- (lay_size _ _ _ _ _ _ Hl j x Hx).
    unfold TP_GetTupleOffsetAtSlot, TP_GetTupleSize, OFFSET_TUPLE_OFFSET, OFFSET_TUPLE_SIZE, SIZE_TUPLE.
    split; apply load_u32_frame, F; lia.
Qed.

Lemma apply_writes (k : nat) c : cells !! k = Some c -> c.2 <> Empty ->
  let old := slot_len c.2 in
  exists m1 m2 m3 m4 m5, mem_move m (fsp + old) fsp (c.1 - fsp) = Ok m1
    /\ TP_SetFreeSpacePointer (fsp + old) m1 = Ok m2 /\ TP_SetTupleSize (Z.of_nat k) 0 m2 = Ok m3
    /\ TP_SetTupleOffsetAtSlot (Z.of_nat k) 0 m3 = Ok m4 /\ TP_GetTupleCount m4 = Ok (Z.of_nat (length cells))
    /\ ShiftOffsets_loop (length cells) 0 c.1 old m4 = Ok m5
    /\ page_rep m5 pid prev next (<[k := Empty]> (snd <$> cells)).
Proof using Hl.
  intros Hc Hne old. destruct (lay_bounds _ _ _ _ _ _ Hl) as (B1 & B2 & B3).
  pose proof (lay_length _ _ _ _ _ _ Hl) as Hlen. pose proof (lay_bytes _ _ _ _ _ _ Hl) as Hm.
  destruct (lay_data _ _ _ _ _ _ Hl k c Hc Hne) as (D0 & D1 & D2 & _). pose proof (lookup_lt_Some _ _ _ Hc) as Hk. fold old in D0, D2.
  unfold SIZE_TABLE_PAGE_HEADER, SIZE_TUPLE, OFFSET_TUPLE_OFFSET in *.
  destruct (move_ok m (fsp + old) fsp (c.1 - fsp) Hm) as (m1 & E1 & L1 & M1 & V1 & F1); [lia..|].
  destruct (store_ok m1 16 (fsp + old) M1) as (m2 & E2 & L2 & M2 & S2 & F2); [lia|lia|].
  destruct (store_ok m2 (28 + 8 * Z.of_nat k) 0 M2) as (m3 & E3 & L3 & M3 & S3 & F3); [lia|lia|].
  destruct (store_ok m3 (24 + 8 * Z.of_nat k) 0 M3) as (m4 & E4 & L4 & M4 & S4 & F4); [lia|lia|].
  assert (Hcnt : TP_GetTupleCount m4 = Ok (Z.of_nat (length cells))).
  { rewrite <- (lay_count _ _ _ _ _ _ Hl). unfold TP_GetTupleCount, OFFSET_TUPLE_COUNT. apply load_u32_frame.
    rewrite F4, F3, F2, F1 by lia. done. }
  assert (Ht : table m4 (<[k := (0, Empty)]> cells)).
  { apply table_set; [done| | |].
    - intros o Ho1 Ho2 Ho3. rewrite F4, F3, F2, F1 by lia. done.
    - unfold TP_GetTupleOffsetAtSlot, OFFSET_TUPLE_OFFSET, SIZE_TUPLE. by rewrite S4.
    - unfold TP_GetTupleSize, OFFSET_TUPLE_SIZE, SIZE_TUPLE. transitivity (load_u32 m3 (28 + 8 * Z.of_nat k));
        [apply load_u32_frame, F4; lia|exact S3]. }
  destruct (Shift_ok c.1 old (length cells) 0 m4 (<[k := (0, Empty)]> cells)) as (m5 & E5 & L5 & M5 & F5 & T5).
  - by rewrite length_insert.
  - done.
  - rewrite length_insert. lia.
  - done.
  - intros j x _. destruct (decide (j = k)) as [->|Hj].
    + rewrite list_lookup_insert_eq by done. intros [= <-]. done.
    + rewrite list_lookup_insert_ne by done. intros Hx. apply (shift_unsigned j x); [done|lia|lia].
  - exists m1, m2, m3, m4, m5. split_and!; try done. rewrite length_insert in F5. rewrite take_0, drop_0 in T5. simpl in T5.
    assert (Hd : slot_len c.2 - slot_len Empty = old) by (unfold slot_len at 2; simpl; lia).
    destruct (resize_layout m m5 pid prev next fsp cells (shift_cell c.1 old <$> <[k := (0, Empty)]> cells) k c Empty Hl Hc Hne)
      as [Hl' Hs']; rewrite ?Hd; try done.
    + lia.
    + congruence.
    + intros o Ho. rewrite F5, F4, F3, F2, F1 by lia. done.
    + transitivity (load_u32 m2 16); [apply load_u32_frame; unfold OFFSET_FREE_SPACE; rewrite F5, F4, F3 by lia; done|].
      rewrite S2. rewrite unsigned_id by (unfold is_unsigned; lia). done.
    + rewrite <- Hcnt. unfold TP_GetTupleCount, OFFSET_TUPLE_COUNT. apply load_u32_frame, F5. lia.
    + intros d n H0 Hn0 Hdn. rewrite F5, F4, F3, F2 by lia. by apply V1.
    + fold old. intros o n Ho. rewrite F5, F4, F3, F2, F1 by lia. done.
    + by rewrite length_fmap, length_insert.
    + exists 0. rewrite list_lookup_fmap, list_lookup_insert_eq by done. done.
    + intros j x Hj Hx. by rewrite list_lookup_fmap, list_lookup_insert_ne, Hx by done.
    + eexists _, _. split; [exact Hl'|by rewrite Hs'].
Qed.

Lemma ApplyDelete_ok rid : 0 <= slot_num_ rid ->
  match slot_at rid (snd <$> cells) with
  | Some (Live _) | Some (Marked _) => exists m', TP_ApplyDelete rid m = Ok m'
      /\ page_rep m' pid prev next (set_slot rid Empty (snd <$> cells))
  | _ => TP_ApplyDelete rid m = Err AssertionFailure
  end.
Proof using Hl.
  intros H0. pose proof (slot_lookup rid H0) as Hs. unfold TP_ApplyDelete. rewrite (GetCount_ok _ _ _ _ _ _ Hl). cbn [rbind].
  destruct (slot_at rid _) as [s|] eqn:E; [|by rewrite (proj2 (Z.ltb_ge _ _)) by done].
  destruct Hs as (Hlt & o & Hc & Ho & Hsz & Hdel). rewrite (proj2 (Z.ltb_lt _ _)) by lia. cbn [assert rbind].
  rewrite Ho. cbn [rbind]. rewrite Hsz. cbn [rbind]. rewrite Hdel.
  pose proof (cell_len _ _ _ _ _ _ Hl _ _ Hc) as Hlen. destruct (lay_bounds _ _ _ _ _ _ Hl) as (B1 & B2 & B3).
  assert (Hsize : (if negb (is_live s) then TP_UnsetDeletedFlag (slot_word s) else slot_word s) = slot_len s).
  { unfold slot_len in *. destruct s as [|d|d]; simpl in *; [done|done|]. apply UnsetFlag_ok. done. }
  rewrite Hsize. unfold SIZE_TABLE_PAGE_HEADER in B1.
  destruct (decide (s = Empty)) as [->|Hne].
  { pose proof (lay_empty _ _ _ _ _ _ Hl _ _ Hc eq_refl) as Ho0. simpl in Ho0. subst o.
    pose proof (lay_length _ _ _ _ _ _ Hl). change (slot_len Empty) with 0. rewrite mem_read_ok by lia. cbn [rbind].
    unfold TP_GetFreeSpacePointer. rewrite (lay_fsp _ _ _ _ _ _ Hl). cbn [rbind].
    by rewrite (proj2 (Z.leb_gt _ _)) by lia. }
  destruct (lay_data _ _ _ _ _ _ Hl _ _ Hc Hne) as (D0 & D1 & D2 & D3). simpl in D0, D1, D2, D3.
  destruct (apply_writes _ _ Hc Hne) as (m1 & m2 & m3 & m4 & m5 & E1 & E2 & E3 & E4 & Hcnt & E5 & Hrep).
  rewrite Z2Nat.id in E3, E4 by done. simpl in E1, E2, E3, E4, E5.
  assert (Hrun : exists m', (let! _ := mem_read m o (slot_len s) in
      let! free_space_pointer := TP_GetFreeSpacePointer m in
      let! _ := assert (free_space_pointer <=? o) in
      let! m := mem_move m (free_space_pointer + slot_len s) free_space_pointer (o - free_space_pointer) in
      let! m := TP_SetFreeSpacePointer (free_space_pointer + slot_len s) m in
      let! m := TP_SetTupleSize (slot_num_ rid) 0 m in
      let! m := TP_SetTupleOffsetAtSlot (slot_num_ rid) 0 m in
      let! count := TP_GetTupleCount m in
      ShiftOffsets_loop (Z.to_nat count) 0 o (slot_len s) m) = Ok m'
      /\ page_rep m' pid prev next (set_slot rid Empty (snd <$> cells))).
  { exists m5. split; [|exact Hrep]. rewrite D3. cbn [rbind]. unfold TP_GetFreeSpacePointer.
    rewrite (lay_fsp _ _ _ _ _ _ Hl). cbn [rbind]. rewrite (proj2 (Z.leb_le _ _)) by lia. cbn [assert rbind].
    rewrite E1. cbn [rbind]. rewrite E2. cbn [rbind]. rewrite E3. cbn [rbind]. rewrite E4. cbn [rbind]. rewrite Hcnt. cbn [rbind].
    by rewrite Nat2Z.id. }
  by destruct s.
Qed.

Lemma update_writes (k : nat) c data : cells !! k = Some c -> c.2 <> Empty -> is_bytes data -> data <> [] ->
  let delta := slot_len c.2 - Z.of_nat (length data) in
  24 + 8 * Z.of_nat (length cells) <= fsp + delta ->
  exists m1 m2 m3 m4 m5, mem_move m (fsp + delta) fsp (c.1 - fsp) = Ok m1
    /\ TP_SetFreeSpacePointer (fsp + delta) m1 = Ok m2 /\ mem_write m2 (c.1 + delta) data = Ok m3
    /\ TP_SetTupleSize (Z.of_nat k) (Z.of_nat (length data)) m3 = Ok m4
    /\ TP_GetTupleCount m4 = Ok (Z.of_nat (length cells))
    /\ ShiftOffsets_loop (length cells) 0 (c.1 + slot_len c.2) delta m4 = Ok m5
    /\ page_rep m5 pid prev next (<[k := Live data]> (snd <$> cells)).
Proof using Hl.
  intros Hc Hne Hb Hdne delta Hroom. destruct (lay_bounds _ _ _ _ _ _ Hl) as (B1 & B2 & B3).
  pose proof (lay_length _ _ _ _ _ _ Hl) as Hlen. pose proof (lay_bytes _ _ _ _ _ _ Hl) as Hm.
  destruct (lay_data _ _ _ _ _ _ Hl k c Hc Hne) as (D0 & D1 & D2 & _). pose proof (lookup_lt_Some _ _ _ Hc) as Hk.
  pose proof (cell_len _ _ _ _ _ _ Hl k c Hc) as Hcl.
  set (old := slot_len c.2) in *. set (nw := Z.of_nat (length data)) in *.
  assert (Hnw : 0 < nw) by (unfold nw; destruct data; [done|simpl; lia]).
  assert (Hdelta : delta = old - nw) by done. clearbody delta.
  unfold SIZE_TABLE_PAGE_HEADER, SIZE_TUPLE, OFFSET_TUPLE_OFFSET in *.
  destruct (move_ok m (fsp + delta) fsp (c.1 - fsp) Hm) as (m1 & E1 & L1 & M1 & V1 & F1); [lia..|].
  destruct (store_ok m1 16 (fsp + delta) M1) as (m2 & E2 & L2 & M2 & S2 & F2); [lia|lia|].
  destruct (write_ok m2 (c.1 + delta) data M2 Hb) as (m3 & E3 & L3 & M3 & S3 & F3); [lia|lia|]. fold nw in S3, F3.
  destruct (store_ok m3 (28 + 8 * Z.of_nat k) nw M3) as (m4 & E4 & L4 & M4 & S4 & F4); [lia|lia|].
  rewrite unsigned_id in S4 by (unfold is_unsigned; lia).
  assert (Hcnt : TP_GetTupleCount m4 = Ok (Z.of_nat (length cells))).
  { rewrite <- (lay_count _ _ _ _ _ _ Hl). unfold TP_GetTupleCount, OFFSET_TUPLE_COUNT. apply load_u32_frame.
    rewrite F4, F3, F2, F1 by lia. done. }
  assert (Ht : table m4 (<[k := (c.1, Live data)]> cells)).
  { apply table_set; [done| | |].
    - intros o Ho1 Ho2 Ho3. rewrite F4, F3, F2, F1 by lia. done.
    - simpl. rewrite <- (lay_offset _ _ _ _ _ _ Hl k c Hc). unfold TP_GetTupleOffsetAtSlot, OFFSET_TUPLE_OFFSET, SIZE_TUPLE.
      apply load_u32_frame. rewrite F4, F3, F2, F1 by lia. done.
    - unfold TP_GetTupleSize, OFFSET_TUPLE_SIZE, SIZE_TUPLE. by rewrite S4. }
  destruct (Shift_ok (c.1 + old) delta (length cells) 0 m4 (<[k := (c.1, Live data)]> cells)) as (m5 & E5 & L5 & M5 & F5 & T5).
  - by rewrite length_insert.
  - done.
  - rewrite length_insert. lia.
  - done.
  - intros j x _. destruct (decide (j = k)) as [->|Hj].
    + rewrite list_lookup_insert_eq by done. intros [= <-]. unfold shift_cell, is_unsigned.
      destruct (_ && _); simpl; lia.
    + rewrite list_lookup_insert_ne by done. intros Hx. apply (shift_unsigned j x); [done|lia|lia].
  - exists m1, m2, m3, m4, m5. split_and!; try done. rewrite length_insert in F5. rewrite take_0, drop_0 in T5. simpl in T5.
    assert (Hd : slot_len c.2 - slot_len (Live data) = delta) by (unfold slot_len at 2; simpl; fold old nw; lia).
    destruct (resize_layout m m5 pid prev next fsp cells (shift_cell (c.1 + old) delta <$> <[k := (c.1, Live data)]> cells)
      k c (Live data) Hl Hc Hne) as [Hl' Hs']; rewrite ?Hd; try done.
    + congruence.
    + intros o Ho. rewrite F5, F4, F3, F2, F1 by lia. done.
    + transitivity (load_u32 m2 16); [apply load_u32_frame; unfold OFFSET_FREE_SPACE; rewrite F5, F4, F3 by lia; done|].
      rewrite S2. rewrite unsigned_id by (unfold is_unsigned; lia). done.
    + rewrite <- Hcnt. unfold TP_GetTupleCount, OFFSET_TUPLE_COUNT. apply load_u32_frame, F5. lia.
    + intros d n H0 Hn0 Hdn. rewrite F5, F4, F3, F2 by lia. by apply V1.
    + fold old. intros o n Ho. rewrite F5, F4, F3, F2, F1 by lia. done.
    + intros _. unfold slot_len. simpl. fold nw. split; [done|].
      replace (c.1 + delta) with (c.1 + delta + 0) by lia. rewrite F5, F4, S3 by lia. unfold nw. rewrite mem_read_ok by lia.
      rewrite Z2Nat.inj_0, drop_0, Nat2Z.id. by rewrite take_ge.
    + by rewrite length_fmap, length_insert.
    + exists (c.1 + delta). rewrite list_lookup_fmap, list_lookup_insert_eq by done. split_and!; [|done|done].
      simpl. f_equal. unfold shift_cell. simpl. fold nw. rewrite (proj2 (Z.eqb_neq _ _)) by lia.
      rewrite (proj2 (Z.ltb_lt _ _)) by lia. done.
    + intros j x Hj Hx. rewrite list_lookup_fmap, list_lookup_insert_ne, Hx by done. simpl. f_equal.
      by apply (shift_other k j).
    + eexists _, _. split; [exact Hl'|by rewrite Hs'].
Qed.

Lemma UpdateTuple_ok t rid : is_bytes (tuple_data_ t) -> 0 < tuple_size_ t -> 0 <= slot_num_ rid ->
  match slot_at rid (snd <$> cells) with
  | Some (Live d) =>
      if has_room_for (snd <$> cells) (Z.of_nat (length d)) (tuple_size_ t)
      then exists m', TP_UpdateTuple t rid m = Ok (Some (MkTuple rid d), m')
        /\ page_rep m' pid prev next (set_slot rid (Live (tuple_data_ t)) (snd <$> cells))
      else TP_UpdateTuple t rid m = Ok (None, m)
  | _ => TP_UpdateTuple t rid m = Ok (None, m)
  end.
Proof using Hl.
  intros Hb Hpos H0. pose proof (slot_lookup rid H0) as Hs. unfold TP_UpdateTuple.
  rewrite (proj2 (Z.ltb_lt 0 _) Hpos). cbn [assert rbind]. rewrite (GetCount_ok _ _ _ _ _ _ Hl). cbn [rbind].
  destruct (slot_at rid _) as [s|] eqn:E; [|by rewrite (proj2 (Z.leb_le _ _)) by done].
  destruct Hs as (Hlt & o & Hc & Ho & Hsz & Hdel). rewrite (proj2 (Z.leb_gt _ _)) by lia.
  rewrite Hsz. cbn [rbind]. rewrite Hdel. destruct s as [|d|d]; [done| |done]. cbn [is_live negb slot_word].
  rewrite (GetRemaining_ok _ _ _ _ _ _ Hl). cbn [rbind]. unfold has_room_for. rewrite length_fmap.
  destruct (lay_bounds _ _ _ _ _ _ Hl) as (B1 & B2 & B3). pose proof (lay_used _ _ _ _ _ _ Hl) as Hu.
  pose proof (cell_len _ _ _ _ _ _ Hl _ _ Hc) as Hcl. unfold slot_len in Hcl. simpl in Hcl.
  unfold SIZE_TABLE_PAGE_HEADER, SIZE_TUPLE, OFFSET_TUPLE_OFFSET in *.
  rewrite unsigned_id by (unfold is_unsigned; lia).
  destruct (Z.leb_spec (24 + 8 * Z.of_nat (length cells) + used_space (snd <$> cells) - Z.of_nat (length d) + tuple_size_ t) PAGE_SIZE)
    as [Hr|Hr].
  2:{ by rewrite (proj2 (Z.ltb_lt _ _)) by lia. }
  rewrite (proj2 (Z.ltb_ge _ _)) by lia. rewrite Ho. cbn [rbind].
  destruct (lay_data _ _ _ _ _ _ Hl _ _ Hc ltac:(done)) as (D0 & D1 & D2 & D3). unfold slot_len in D0, D2, D3. simpl in D0, D1, D2, D3.
  rewrite D3. cbn [rbind]. unfold TP_GetFreeSpacePointer. rewrite (lay_fsp _ _ _ _ _ _ Hl). cbn [rbind].
  rewrite (proj2 (Z.leb_le _ _)) by lia. cbn [assert rbind].
  destruct (update_writes _ _ (tuple_data_ t) Hc) as (m1 & m2 & m3 & m4 & m5 & E1 & E2 & E3 & E4 & Hcnt & E5 & Hrep).
  { done. } { done. } { intros En. unfold tuple_size_ in Hpos. by rewrite En in Hpos. }
  { unfold slot_len. simpl. unfold tuple_size_ in *. lia. }
  unfold slot_len in *. cbn [slot_data fst snd] in *. fold (tuple_size_ t) in *. rewrite Z2Nat.id in E4 by done.
  rewrite !Z.add_sub_assoc in E1, E2, E3.
  rewrite E1. cbn [rbind]. rewrite E2. cbn [rbind]. rewrite E3. cbn [rbind]. rewrite E4. cbn [rbind]. rewrite Hcnt. cbn [rbind].
  rewrite Nat2Z.id, E5. cbn [rbind]. by exists m5.
Qed.
End OnPage.
End Machine.

Section Refinement.
Context `{Config}.
Implicit Types (m : bytes) (l : list slot).

Lemma exec_ok op m pid prev next l :
  page_rep m pid prev next l -> op_ok op ->
  match abs_exec pid op l with
  | Ok (a, l') => exists m', TP_exec op m = Ok (a, m') /\ page_rep m' pid prev next l'
  | Err e => TP_exec op m = Err e
  end.
Proof.
  intros Hrep Hop. pose proof Hrep as (fsp & cells & Hl & ->). destruct op as [t|rid|t rid|rid|rid|rid| |rid]; simpl in *.
  - destruct (Z.ltb_spec 0 (tuple_size_ t)) as [Hp|Hp].
    2:{ cbn [assert rbind]. unfold TP_InsertTuple. by rewrite (proj2 (Z.ltb_ge _ _)). }
    cbn [assert rbind]. pose proof (InsertTuple_ok m pid prev next (snd <$> cells) t Hrep Hop) as Hi.
    destruct (has_room _ _).
    + destruct Hi as (m' & -> & Hrep'); [by intros En; unfold tuple_size_ in Hp; rewrite En in Hp|]. by exists m'.
    + rewrite Hi; [by exists m|]. by intros En; unfold tuple_size_ in Hp; rewrite En in Hp.
  - pose proof (MarkDelete_ok m pid prev next fsp cells Hl rid Hop) as Hi.
    destruct (slot_at rid _) as [[|d|d]|]; try (rewrite Hi; by exists m). destruct Hi as (m' & -> & Hrep'). by exists m'.
  - destruct Hop as [Hb H0]. destruct (Z.ltb_spec 0 (tuple_size_ t)) as [Hp|Hp].
    2:{ cbn [assert rbind]. unfold TP_UpdateTuple. by rewrite (proj2 (Z.ltb_ge _ _)). }
    cbn [assert rbind]. pose proof (UpdateTuple_ok m pid prev next fsp cells Hl t rid Hb Hp H0) as Hi.
    destruct (slot_at rid _) as [[|d|d]|]; try (rewrite Hi; by exists m).
    destruct (has_room_for _ _ _); [|rewrite Hi; by exists m]. destruct Hi as (m' & -> & Hrep'). by exists m'.
  - pose proof (ApplyDelete_ok m pid prev next fsp cells Hl rid Hop) as Hi.
    destruct (slot_at rid _) as [[|d|d]|]; try (by rewrite Hi); destruct Hi as (m' & -> & Hrep'); by exists m'.
  - pose proof (RollbackDelete_ok m pid prev next fsp cells Hl rid Hop) as Hi.
    destruct (slot_at rid _) as [[|d|d]|]; try (by rewrite Hi); destruct Hi as (m' & -> & Hrep'); by exists m'.
  - rewrite (GetTuple_ok m pid prev next fsp cells Hl rid Hop).
    destruct (slot_at rid _) as [[|d|d]|]; by exists m.
  - rewrite (First_ok m pid prev next fsp cells Hl). by exists m.
  - rewrite (Next_ok m pid prev next fsp cells Hl rid Hop). destruct (page_id_ rid =? pid); cbn [assert rbind]; [by exists m|done].
Qed.

Lemma Init_ok m pid prev :
  Z.of_nat (length m) = PAGE_SIZE -> is_bytes m -> SIZE_TABLE_PAGE_HEADER <= PAGE_SIZE -> is_signed 32 pid -> is_signed 32 prev ->
  exists m', TP_Init pid PAGE_SIZE prev m = Ok m' /\ page_rep m' pid prev INVALID_PAGE_ID [].
Proof.
  intros Hlen Hm Hp Hpid Hprev. pose proof PAGE_SIZE_int as Hint. unfold SIZE_TABLE_PAGE_HEADER in *.
  unfold TP_Init, TP_SetPrevPageId, TP_SetNextPageId, TP_SetFreeSpacePointer, TP_SetTupleCount,
    OFFSET_PREV_PAGE_ID, OFFSET_NEXT_PAGE_ID, OFFSET_FREE_SPACE, OFFSET_TUPLE_COUNT.
  assert (Hinv : is_signed 32 INVALID_PAGE_ID) by (pose proof INVALID_PAGE_ID_neg; unfold is_signed; simpl; lia).
  destruct (store_ok m 0 pid Hm) as (m1 & E1 & L1 & M1 & _ & F1); [lia|lia|].
  pose proof (load_store_i32_same _ _ _ _ E1 Hpid) as S1.
  destruct (store_ok m1 8 prev M1) as (m2 & E2 & L2 & M2 & _ & F2); [lia|lia|].
  pose proof (load_store_i32_same _ _ _ _ E2 Hprev) as S2.
  destruct (store_ok m2 12 INVALID_PAGE_ID M2) as (m3 & E3 & L3 & M3 & _ & F3); [lia|lia|].
  pose proof (load_store_i32_same _ _ _ _ E3 Hinv) as S3.
  destruct (store_ok m3 16 PAGE_SIZE M3) as (m4 & E4 & L4 & M4 & S4 & F4); [lia|lia|].
  rewrite unsigned_id in S4 by (unfold is_unsigned; lia).
  destruct (store_ok m4 20 0 M4) as (m5 & E5 & L5 & M5 & S5 & F5); [lia|lia|].
  rewrite E1. cbn [rbind]. rewrite E2. cbn [rbind]. rewrite E3. cbn [rbind]. rewrite E4. cbn [rbind]. rewrite E5.
  exists m5. split; [done|]. exists PAGE_SIZE, []. split; [|done].
  unfold OFFSET_PREV_PAGE_ID, OFFSET_NEXT_PAGE_ID, OFFSET_FREE_SPACE, OFFSET_TUPLE_COUNT in *.
  split; unfold SIZE_TABLE_PAGE_HEADER, SIZE_TUPLE, OFFSET_PREV_PAGE_ID, OFFSET_NEXT_PAGE_ID, OFFSET_FREE_SPACE,
    OFFSET_TUPLE_COUNT; simpl length; try done; try lia.
  - rewrite <- S1. apply load_i32_frame. rewrite F5, F4, F3, F2 by lia. done.
  - rewrite <- S2. apply load_i32_frame. rewrite F5, F4, F3 by lia. done.
  - rewrite <- S3. apply load_i32_frame. rewrite F5, F4 by lia. done.
  - rewrite <- S4. apply load_u32_frame. rewrite F5 by lia. done.
  - simpl. lia.
Qed.

(** Linking a page to its successor. *)
Lemma SetNext_ok m pid prev next l n : page_rep m pid prev next l -> is_signed 32 n ->
  exists m', TP_SetNextPageId n m = Ok m' /\ page_rep m' pid prev n l.
Proof.
  intros (fsp & cells & Hl & ->) Hn. pose proof (lay_bounds m pid prev next fsp cells Hl) as Hb.
  pose proof (lay_length _ _ _ _ _ _ Hl) as Hlen. pose proof (lay_room _ _ _ _ _ _ Hl) as Hroom.
  unfold SIZE_TABLE_PAGE_HEADER, SIZE_TUPLE in *.
  destruct (store_ok m 12 n (lay_bytes _ _ _ _ _ _ Hl)) as (m' & E & L & M & _ & F); [lia|lia|].
  pose proof (load_store_i32_same _ _ _ _ E Hn) as Sn.
  exists m'. split; [exact E|]. exists fsp, cells. split; [|done].
  pose proof Hl as [H1 H2 H3 H4 H5 H6 H7 H8 H9 H10 H11 H12 H13 H14].
  unfold OFFSET_PREV_PAGE_ID, OFFSET_NEXT_PAGE_ID, OFFSET_FREE_SPACE, OFFSET_TUPLE_COUNT in *.
  split; unfold OFFSET_PREV_PAGE_ID, OFFSET_NEXT_PAGE_ID, OFFSET_FREE_SPACE, OFFSET_TUPLE_COUNT;
    [lia|done|rewrite <- H3; apply load_i32_frame, F; lia|rewrite <- H4; apply load_i32_frame, F; lia|done
    |rewrite <- H6; apply load_u32_frame, F; lia|rewrite <- H7; apply load_u32_frame, F; lia|done|done|..|done|done].
  - intros i c Hi. rewrite <- (H10 i c Hi). apply load_u32_frame, F. unfold OFFSET_TUPLE_OFFSET, SIZE_TUPLE. lia.
  - intros i c Hi. rewrite <- (H11 i c Hi). apply load_u32_frame, F. unfold OFFSET_TUPLE_SIZE, SIZE_TUPLE. lia.
  - intros i c Hi Hc. destruct (H12 i c Hi Hc) as (A1 & A2 & A3 & A4). split_and!; [done..|].
    rewrite <- A4. apply F. lia.
Qed.

(** ** Properties *)

(** C9: the slotted page refines the page of slots: any sequence of insertions,
    mark-deletes, updates, applied and rolled back deletes, reads and scans
    gives, on the bytes of the page, the answers (or the failed assertion) that
    the abstract page gives, and leaves bytes that represent the abstract
    result; in particular tuples are never corrupted by the moves of other
    tuples and no space is lost. *)
Theorem TablePage_refines_slots (ops : list tp_op) m (pid prev next : Z) l :
  page_rep m pid prev next l -> Forall op_ok ops ->
  match abs_run pid ops l with
  | Ok (answers, l') => exists m', TP_run ops m = Ok (answers, m') /\ page_rep m' pid prev next l'
  | Err e => TP_run ops m = Err e
  end.
Proof.
  revert m l. induction ops as [|op ops IH]; intros m l Hrep Hops; simpl; [by exists m|].
  inversion Hops as [|?? Hop Hops']; subst. pose proof (exec_ok op m pid prev next l Hrep Hop) as He.
  destruct (abs_exec pid op l) as [[a l1]|e]; cbn [rbind]; [|by rewrite He].
  destruct He as (m1 & -> & Hrep1). cbn [rbind]. pose proof (IH m1 l1 Hrep1 Hops') as Hr.
  destruct (abs_run pid ops l1) as [[answers l2]|e]; cbn [rbind]; [|by rewrite Hr].
  destruct Hr as (m2 & -> & Hrep2). by exists m2.
Qed.

(** [InsertTuple] on a page: with room for the tuple and one more slot entry
    it takes the first empty slot or a new one, answers its id, and the tuple
    read back from that id is the one inserted while every other slot is
    unchanged; without room nothing is written. *)
Theorem TablePage_InsertTuple_correct m (pid prev next : Z) l (t : Tuple) :
  page_rep m pid prev next l -> is_bytes (tuple_data_ t) -> tuple_data_ t <> [] ->
  if has_room l (tuple_size_ t)
  then let rid := RID_Set pid (Z.of_nat (free_slot l)) in
       exists m', TP_InsertTuple t m = Ok (Some rid, m')
         /\ TP_GetTuple rid m' = Ok (Some (MkTuple rid (tuple_data_ t)))
         /\ forall rid', 0 <= slot_num_ rid' -> slot_num_ rid' <> slot_num_ rid -> TP_GetTuple rid' m' = TP_GetTuple rid' m
  else TP_InsertTuple t m = Ok (None, m).
Proof.
  intros Hrep Hb Hne. pose proof (InsertTuple_ok m pid prev next l t Hrep Hb Hne) as Hi.
  destruct (has_room l (tuple_size_ t)); [|done]. destruct Hi as (m' & Hrun & Hrep'). exists m'.
  split; [done|]. pose proof Hrep as (fsp & cells & Hl & ->). pose proof Hrep' as (fsp' & cells' & Hl' & El).
  set (k := free_slot (snd <$> cells)) in *.
  assert (Hk : (k <= length (snd <$> cells))%nat).
  { unfold k, free_slot. destruct (list_find _ _) as [[i s]|] eqn:Hf; [|done].
    apply list_find_Some in Hf as (Hf & _). apply lookup_lt_Some in Hf. lia. }
  assert (Hput : forall j, (snd <$> cells') !! j = if decide (j = k) then Some (Live (tuple_data_ t)) else (snd <$> cells) !! j).
  { intros j. rewrite <- El. pose proof (put_cell_slots k (0, Live (tuple_data_ t)) cells) as Ep. simpl in Ep. rewrite <- Ep.
    rewrite length_fmap in Hk. rewrite list_lookup_fmap, put_cell_lookup by done. rewrite list_lookup_fmap. by case_decide. }
  split.
  - rewrite (GetTuple_ok m' pid prev next fsp' cells' Hl') by (simpl; lia). unfold slot_at.
    rewrite Hput. simpl. by rewrite decide_True by lia.
  - intros rid' H0 Hne'. rewrite (GetTuple_ok m' pid prev next fsp' cells' Hl'), (GetTuple_ok m pid prev next fsp cells Hl) by done.
    unfold slot_at. rewrite Hput. simpl in Hne'. by rewrite decide_False by lia.
Qed.

(** [Init] of a page of [PAGE_SIZE] bytes gives an empty table page. *)
Theorem TablePage_Init_correct m (pid prev : Z) :
  Z.of_nat (length m) = PAGE_SIZE -> is_bytes m -> SIZE_TABLE_PAGE_HEADER <= PAGE_SIZE -> is_signed 32 pid -> is_signed 32 prev ->
  exists m', TP_Init pid PAGE_SIZE prev m = Ok m' /\ page_rep m' pid prev INVALID_PAGE_ID []
    /\ TP_GetTablePageId m' = Ok pid /\ TP_GetPrevPageId m' = Ok prev /\ TP_GetNextPageId m' = Ok INVALID_PAGE_ID
    /\ TP_GetFirstTupleRid m' = Ok (false, RID_Set INVALID_PAGE_ID 0).
Proof.
  intros Hlen Hm Hp Hpid Hprev. destruct (Init_ok m pid prev Hlen Hm Hp Hpid Hprev) as (m' & Hrun & Hrep).
  exists m'. split_and!; [done|done|..]; destruct Hrep as (fsp & cells & Hl & El).
  - apply (lay_pid _ _ _ _ _ _ Hl).
  - apply (lay_prev _ _ _ _ _ _ Hl).
  - apply (lay_next _ _ _ _ _ _ Hl).
  - rewrite (First_ok m' pid prev _ fsp cells Hl). by rewrite <- El.
Qed.
End Refinement.

(** ** Witnesses *)

Section Concrete.
(** Pages of 64 bytes. *)
Definition small_page : Config.
Proof. refine {| PAGE_SIZE := 64; INVALID_PAGE_ID := -1; INVALID_LSN := -1; HEADER_PAGE_ID := 0 |}; lia. Defined.
#[local] Existing Instance small_page | 0.

Lemma TablePage_Init_correct_witness :
  exists m, TP_Init 3 PAGE_SIZE (-1) (replicate 64 0) = Ok m /\ TP_GetTablePageId m = Ok 3.
Proof.
  destruct (TablePage_Init_correct (replicate 64 0) 3 (-1)) as (m & Hrun & _ & Hp & _); try done.
  - by apply Forall_replicate.
  - by exists m.
Defined.

Lemma empty_page : exists m, page_rep m 3 (-1) (-1) [] /\ TP_Init 3 PAGE_SIZE (-1) (replicate 64 0) = Ok m.
Proof.
  destruct (Init_ok (replicate 64 0) 3 (-1)) as (m & Hrun & Hrep); try done; [by apply Forall_replicate|]. by exists m.
Qed.

Lemma TablePage_InsertTuple_correct_witness :
  exists m m', TP_Init 3 PAGE_SIZE (-1) (replicate 64 0) = Ok m
    /\ TP_InsertTuple (MkTuple RID_default [7; 8; 9]) m = Ok (Some (RID_Set 3 0), m')
    /\ TP_GetTuple (RID_Set 3 0) m' = Ok (Some (MkTuple (RID_Set 3 0) [7; 8; 9])).
Proof.
  destruct empty_page as (m & Hrep & Hinit).
  destruct (TablePage_InsertTuple_correct m 3 (-1) (-1) [] (MkTuple RID_default [7; 8; 9]) Hrep) as (m' & Hrun & Hget & _).
  - repeat constructor; done.
  - done.
  - by exists m, m'.
Defined.

(** Two tuples, one updated to a longer one, the other deleted for good, and a
    third inserted into its slot. *)
Lemma TablePage_refines_slots_witness :
  exists m m', TP_Init 3 PAGE_SIZE (-1) (replicate 64 0) = Ok m
    /\ TP_run [OpInsert (MkTuple RID_default [1; 2]); OpInsert (MkTuple RID_default [3]);
               OpUpdate (MkTuple RID_default [4; 5; 6; 7]) (RID_Set 3 1); OpMarkDelete (RID_Set 3 0); OpGet (RID_Set 3 0);
               OpApplyDelete (RID_Set 3 0); OpFirst; OpInsert (MkTuple RID_default [9]); OpGet (RID_Set 3 1)] m
       = Ok ([AnsRid (Some (RID_Set 3 0)); AnsRid (Some (RID_Set 3 1)); AnsTuple (Some (MkTuple (RID_Set 3 1) [3]));
              AnsBool true; AnsTuple None; AnsUnit; AnsFound (true, RID_Set 3 1); AnsRid (Some (RID_Set 3 0));
              AnsTuple (Some (MkTuple (RID_Set 3 1) [4; 5; 6; 7]))], m').
Proof.
  destruct empty_page as (m & Hrep & Hinit).
  pose proof (TablePage_refines_slots [OpInsert (MkTuple RID_default [1; 2]); OpInsert (MkTuple RID_default [3]);
               OpUpdate (MkTuple RID_default [4; 5; 6; 7]) (RID_Set 3 1); OpMarkDelete (RID_Set 3 0); OpGet (RID_Set 3 0);
               OpApplyDelete (RID_Set 3 0); OpFirst; OpInsert (MkTuple RID_default [9]); OpGet (RID_Set 3 1)]
               m 3 (-1) (-1) [] Hrep) as Hr.
  destruct Hr as (m' & Hrun & _).
  - repeat constructor; done.
  - exists m, m'. split; [done|exact Hrun].
Defined.
End Concrete.
