(* ===== verification/TupleValues.v ===== *)
(** Tuples as rows of values: the schema-driven part of
    [src/storage/table/tuple.cpp].

    The memory of a tuple is its byte list; [data_] is not null when the tuple
    was built from values or copied out of a page, which is where the accessors
    are called. *)

From S2P Require Import Prelude Bytes Ieee CString Value Types Rid Schema TablePage.

(** ** Definitions *)

Section TupleValues.
Context `{Config} {E : Type}.
Implicit Types schema : Schema E.

(** [tuple_size += (values[i].GetLength() + sizeof(uint32_t))]: the sum is a
    [size_t], [tuple_size] a [uint32_t]. *)
Fixpoint TupleSize_loop (values : list Value) (unlined : list Z) (tuple_size : Z) : res Z :=
  match unlined with
  | [] => Ok tuple_size
  | i :: unlined =>
    let! v := zlookup values i in
    let! len := Value_GetLength v in
    TupleSize_loop values unlined (unsigned 32 (tuple_size + unsigned 64 (len + 4)))
  end.

(** The third step of the constructor: one round per column. *)
Fixpoint SerializeColumns_loop (columns : list (Column E)) (values : list Value) (offset : Z) (m : bytes) : res bytes :=
  match columns, values with
  | col :: columns, v :: values =>
    if negb (Column_IsInlined col) then
      let! m := store_u32 m (column_offset_ col) offset in
      let! m := Value_SerializeTo v m offset in
      let! len := Value_GetLength v in
      SerializeColumns_loop columns values (unsigned 32 (offset + unsigned 64 (len + 4))) m
    else
      let! m := Value_SerializeTo v m (column_offset_ col) in
      SerializeColumns_loop columns values offset m
  | [], _ => Ok m
  | _ :: _, [] => Err OutOfBounds
  end.

Definition Tuple_of_values (values : list Value) schema : res Tuple :=
  let! _ := assert (Z.of_nat (length values) =? GetColumnCount schema) in
  let! tuple_size := TupleSize_loop values (uninlined_columns_ schema) (length_ schema) in
  let! m := SerializeColumns_loop (columns_ schema) values (length_ schema)
              (replicate (Z.to_nat tuple_size) 0) in
  Ok (MkTuple RID_default m).

(** The offset of a column's data in the tuple. *)
Definition Tuple_GetDataPtr (t : Tuple) schema (column_idx : Z) : res Z :=
  let! col := GetColumn schema column_idx in
  if Column_IsInlined col then Ok (column_offset_ col) else load_i32 (tuple_data_ t) (column_offset_ col).

Definition Tuple_GetValue (t : Tuple) schema (column_idx : Z) : res Value :=
  let! col := GetColumn schema column_idx in
  let! data_ptr := Tuple_GetDataPtr t schema column_idx in
  Value_DeserializeFrom (tuple_data_ t) data_ptr (column_type_ col).

Definition Tuple_IsNull (t : Tuple) schema (column_idx : Z) : res bool :=
  let! v := Tuple_GetValue t schema column_idx in Ok (IsNull v).

Fixpoint GetValues_loop (t : Tuple) schema (key_attrs : list Z) : res (list Value) :=
  match key_attrs with
  | [] => Ok []
  | idx :: key_attrs =>
    let! v := Tuple_GetValue t schema idx in
    let! vs := GetValues_loop t schema key_attrs in
    Ok (v :: vs)
  end.
Definition Tuple_KeyFromTuple (t : Tuple) schema (key_schema : Schema E) (key_attrs : list Z) : res Tuple :=
  let! values := GetValues_loop t schema key_attrs in Tuple_of_values values key_schema.

(** The columns from [column_itr] on, [n] of them. *)
Fixpoint ToString_loop (t : Tuple) schema (n : nat) (column_itr : Z) (first : bool) : res bytes :=
  match n with
  | O => Ok []
  | S n =>
    let! null := Tuple_IsNull t schema column_itr in
    let! s := if (null : bool) then Ok (str "<NULL>")
              else let! val := Tuple_GetValue t schema column_itr in Value_ToString val in
    let! rest := ToString_loop t schema n (column_itr + 1) false in
    Ok ((if first then [] else str ", ") ++ s ++ rest)
  end.
Definition Tuple_ToString (t : Tuple) schema : res bytes :=
  let! s := ToString_loop t schema (Z.to_nat (GetColumnCount schema)) 0 true in
  Ok (str "(" ++ s ++ str ")" ++ str " Tuple size is " ++ to_string (tuple_size_ t)).

(** [SerializeTo] and [DeserializeFrom] of a whole tuple at [off] of a memory. *)
Definition Tuple_SerializeTo (t : Tuple) (m : bytes) (off : Z) : res bytes :=
  let! m := store_u32 m off (tuple_size_ t) in mem_write m (off + 4) (tuple_data_ t).
Definition Tuple_DeserializeFrom (t : Tuple) (m : bytes) (off : Z) : res Tuple :=
  let! size := load_u32 m off in
  let! data := mem_read m (off + 4) size in
  Ok (MkTuple (tuple_rid_ t) data).

End TupleValues.
