(* ===== verification/TupleCorrect.v ===== *)
(** Building a tuple from values and reading the values back. *)

From S2P Require Import Prelude Bytes Ieee CString Value Types TypesCorrect ValueFactory Rid Schema TablePage TupleValues.

(** ** Values that fit a column *)

(** A value for a column of type [t]: of that type, in the form the
    constructors give it, and not a null string. *)
Definition fits (t : TypeId) (v : Value) : Prop :=
  type_id_ v = t /\ storable v /\ (t = VARCHAR -> value_ v <> VVarlen None).

Lemma encode_inlined t v : fits t v -> t <> VARCHAR -> Z.of_nat (length (encode v)) = TypeSize t.
Proof.
  intros (Ht & Hs & _) Hn. unfold storable in Hs. rewrite Ht in Hs.
  destruct t; try done; unfold wf_value in Hs; rewrite ?Ht in Hs;
    [destruct Hs as (z & _ & ->)..|destruct Hs as (d & _ & ->)]; cbn [encode int_value decimal_value value_ type_id_];
    by rewrite le_split_length.
Qed.

Lemma encode_varlen v : fits VARCHAR v -> Value_GetLength v = Ok (len_ v) /\
  Z.of_nat (length (encode v)) = len_ v + 4 /\ 0 <= len_ v < BUSTUB_VALUE_NULL.
Proof.
  intros (Ht & Hs & Hn). unfold storable in Hs. rewrite Ht in Hs.
  destruct Hs as [->|(bs & Hbs & ->)]; [by destruct (Hn eq_refl)|].
  split; [done|]. cbn [encode value_ len_]. rewrite length_app, le_split_length. lia.
Qed.

Lemma fits_int t T z : int_type_of t = Some T -> is_signed (bits T) z -> fits t (int_value t T z).
Proof.
  intros HT Hz. pose proof (wf_int_value t T z HT Hz) as Hw. unfold fits, storable.
  split; [done|]. split; [by destruct t|done].
Qed.

Lemma fits_varchar s : short s -> fits VARCHAR (varchar_value s).
Proof.
  unfold short, fits, storable. intros Hs. split; [done|]. split; [|done]. right. exists (s ++ [0]).
  unfold BUSTUB_VALUE_NULL. rewrite length_app, Nat2Z.inj_add. split; [simpl; lia|done].
Qed.

Lemma fits_size t v : fits t v -> 1 <= TypeSize t.
Proof. intros (Ht & Hs & _). unfold storable in Hs. rewrite Ht in Hs. destruct t; simpl; (done || lia). Qed.

Section TupleCorrect.
Context `{Config} {E : Type}.
Implicit Types cs : list (Column E).

Definition well_sized cs : Prop := Forall (fun c => fixed_length_ c = TypeSize (column_type_ c)) cs.

(** The bytes behind the fixed part. *)
Fixpoint var_size cs (vs : list Value) : Z :=
  match cs, vs with
  | c :: cs, v :: vs => (if Column_IsInlined c then 0 else len_ v + 4) + var_size cs vs
  | _, _ => 0
  end.

(** Column [c] of the memory [m] holds [v]; a string lies at or after [lo]. *)
Definition holds (m : bytes) (c : Column E) (v : Value) : Prop :=
  let n := Z.of_nat (length (encode v)) in
  if Column_IsInlined c then mem_read m (column_offset_ c) n = Ok (encode v)
  else exists o, load_u32 m (column_offset_ c) = Ok o /\ is_unsigned 31 o /\ mem_read m o n = Ok (encode v).

Lemma inlined_spec (c : Column E) : Column_IsInlined c = false <-> column_type_ c = VARCHAR.
Proof. unfold Column_IsInlined. rewrite negb_false_iff, bool_decide_eq_true. done. Qed.

Lemma var_size_nonneg cs vs : Forall2 (fun c v => fits (column_type_ c) v) cs vs -> 0 <= var_size cs vs.
Proof.
  induction 1 as [|c v cs vs Hcv Hcs IH]; [done|]. cbn [var_size].
  destruct (Column_IsInlined c) eqn:Ei; [lia|]. apply inlined_spec in Ei. rewrite Ei in Hcv.
  destruct (encode_varlen v Hcv) as (_ & _ & ?). lia.
Qed.

(** What [holds] reads is not touched by changes elsewhere. *)
Lemma holds_stable m m' (c : Column E) v off o o' :
  (forall a n, a + n <= off \/ o <= a /\ a + n <= o' -> mem_read m' a n = mem_read m a n) ->
  (Column_IsInlined c = true -> column_offset_ c + Z.of_nat (length (encode v)) <= off) ->
  (Column_IsInlined c = false -> column_offset_ c + 4 <= off /\ 
     load_u32 m (column_offset_ c) = Ok o /\ o + Z.of_nat (length (encode v)) <= o') ->
  holds m c v -> holds m' c v.
Proof.
  intros Hr Hi Hn. unfold holds. destruct (Column_IsInlined c).
  - intros <-. apply Hr. left. by apply Hi.
  - destruct (Hn eq_refl) as (Ho & Hl & He). intros (o1 & Hl1 & Hu & Hm). rewrite Hl in Hl1. injection Hl1 as <-.
    exists o. split_and!; [|done|].
    + unfold load_u32 in *. rewrite Hr; [done|]. by left.
    + rewrite Hr; [done|]. right. lia.
Qed.

(** The bytes column [c] adds behind the fixed part. *)
Definition var_part (c : Column E) (v : Value) : Z := if Column_IsInlined c then 0 else len_ v + 4.

Lemma laid_out_bound cs off fin : laid_out cs off fin -> off <= fin.
Proof.
  revert off. induction cs as [|c cs IH]; intros off; cbn [laid_out]; [lia|].
  intros (_ & ? & Hl). apply IH in Hl. lia.
Qed.

(** One round of the constructor's loop. *)
Lemma column_step (c : Column E) v cs vs m o :
  fits (column_type_ c) v -> fixed_length_ c = TypeSize (column_type_ c) ->
  0 <= column_offset_ c -> column_offset_ c + fixed_length_ c <= o ->
  o + var_part c v <= Z.of_nat (length m) < 2 ^ 31 ->
  exists m', SerializeColumns_loop (c :: cs) (v :: vs) o m = SerializeColumns_loop cs vs (o + var_part c v) m' /\
    length m' = length m /\
    (forall a n, a + n <= column_offset_ c \/ column_offset_ c + fixed_length_ c <= a /\ a + n <= o ->
       mem_read m' a n = mem_read m a n) /\
    holds m' c v /\ (Column_IsInlined c = false -> load_u32 m' (column_offset_ c) = Ok o).
Proof.
  intros Hv Hf H0 Ho Hm. unfold var_part in *. cbn [SerializeColumns_loop]. unfold holds.
  pose proof (proj1 (proj2 Hv)) as Hs.
  destruct (Column_IsInlined c) eqn:Ei; cbn [negb].
  - assert (Hn : column_type_ c <> VARCHAR) by (intros E0%inlined_spec; congruence).
    pose proof (encode_inlined _ _ Hv Hn) as He. rewrite SerializeTo_encode by (done || lia).
    destruct (mem_write m (column_offset_ c) (encode v)) as [m'|e] eqn:Ew.
    2: { rewrite mem_write_ok in Ew by lia. done. }
    exists m'. rewrite Z.add_0_r. split_and!; [done|by eapply mem_write_length| | |done].
    + intros a n Ha. eapply mem_read_write_disjoint; [exact Ew|]. lia.
    + by eapply mem_read_write_same.
  - apply inlined_spec in Ei. rewrite Ei in Hv, Hf. destruct (encode_varlen v Hv) as (Hlen & He & Hr).
    cbn [TypeSize] in Hf. unfold BUSTUB_VALUE_NULL in Hr.
    destruct (store_u32_is_ok m (column_offset_ c) o) as [m1 Hm1]; [lia..|].
    pose proof (store_u32_length _ _ _ _ Hm1) as Hl1. rewrite Hm1. cbn [rbind].
    rewrite SerializeTo_encode by (done || lia).
    destruct (mem_write m1 o (encode v)) as [m'|e] eqn:Ew.
    2: { rewrite mem_write_ok in Ew by lia. done. }
    cbn [rbind]. rewrite Hlen. cbn [rbind].
    assert (Hload : load_u32 m' (column_offset_ c) = Ok o).
    { rewrite (load_u32_write_disjoint _ _ _ _ _ Ew) by lia. rewrite (load_store_u32_same _ _ _ _ Hm1).
      by rewrite unsigned_id by (unfold is_unsigned; lia). }
    exists m'. split_and!; [| |intros a n Ha| |done].
    + rewrite (unsigned_id 64) by (unfold is_unsigned; lia). by rewrite unsigned_id by (unfold is_unsigned; lia).
    + rewrite <- Hl1. by eapply mem_write_length.
    + rewrite (mem_read_write_disjoint _ _ _ _ _ _ Ew) by lia. eapply mem_read_store_disjoint; [exact Hm1|]. lia.
    + exists o. split_and!; [done|unfold is_unsigned; lia|by eapply mem_read_write_same].
Qed.

(** The loop lays every value out, and changes nothing before its columns or in
    the strings that are already there. *)
Lemma SerializeColumns_ok cs vs m off fin o :
  Forall2 (fun c v => fits (column_type_ c) v) cs vs -> well_sized cs -> laid_out cs off fin -> 0 <= off ->
  fin <= o -> o + var_size cs vs <= Z.of_nat (length m) < 2 ^ 31 ->
  exists m', SerializeColumns_loop cs vs o m = Ok m' /\ length m' = length m /\
    (forall a n, a + n <= off \/ fin <= a /\ a + n <= o -> mem_read m' a n = mem_read m a n) /\
    Forall2 (holds m') cs vs.
Proof.
  intros Hfit. revert m off o.
  induction Hfit as [|c v cs vs Hcv Hfit IH]; intros m off o Hw Hl H0 Hfin Hm; [by exists m|].
  inversion_clear Hw as [|? ? Hsz Hw']. destruct Hl as (Hoff & Hpos & Hl).
  pose proof (laid_out_bound _ _ _ Hl) as Hb. pose proof (var_size_nonneg _ _ Hfit) as Hvn.
  change (var_size (c :: cs) (v :: vs)) with (var_part c v + var_size cs vs) in Hm.
  destruct (column_step c v cs vs m o Hcv Hsz) as (m1 & -> & Hl1 & Hr1 & Hh1 & Hp1); [lia..|].
  destruct (IH m1 (off + fixed_length_ c) (o + var_part c v)) as (m2 & -> & Hl2 & Hr2 & Hh2); try done; try lia.
  { unfold var_part. destruct (Column_IsInlined c) eqn:Ei; [lia|]. apply inlined_spec in Ei. rewrite Ei in Hcv.
    destruct (encode_varlen v Hcv) as (_ & _ & ?). lia. }
  assert (Hvp : 0 <= var_part c v).
  { unfold var_part. destruct (Column_IsInlined c) eqn:Ei; [lia|]. apply inlined_spec in Ei. rewrite Ei in Hcv.
    destruct (encode_varlen v Hcv) as (_ & _ & ?). lia. }
  exists m2. split_and!; [done|lia| |].
  - intros a n Ha. rewrite Hr2, Hr1; [done|lia..].
  - constructor; [|done]. eapply (holds_stable m1 m2 c v (off + fixed_length_ c) o (o + var_part c v)); [| | |done].
    + intros a n Ha. apply Hr2. lia.
    + intros Ei. rewrite (encode_inlined _ _ Hcv) by (intros E0%inlined_spec; congruence). lia.
    + intros Ei. split_and!; [|by apply Hp1|]; unfold var_part; rewrite ?Ei; apply inlined_spec in Ei;
        rewrite Ei in *; [simpl in Hsz; lia|]. destruct (encode_varlen v Hcv) as (_ & -> & _). lia.
Qed.

(** The size computed first is the room the values take. *)
Lemma TupleSize_ok cs vs pre acc :
  Forall2 (fun c v => fits (column_type_ c) v) cs vs -> 0 <= acc -> acc + var_size cs vs < 2 ^ 32 ->
  TupleSize_loop (pre ++ vs) (uninlined_from cs (Z.of_nat (length pre))) acc = Ok (acc + var_size cs vs).
Proof.
  intros Hfit. revert pre acc. induction Hfit as [|c v cs vs Hcv Hfit IH]; intros pre acc Ha Hb.
  { simpl. f_equal. lia. }
  assert (Hnext : forall acc, 0 <= acc -> acc + var_size cs vs < 2 ^ 32 ->
    TupleSize_loop (pre ++ v :: vs) (uninlined_from cs (Z.of_nat (length pre) + 1)) acc = Ok (acc + var_size cs vs)).
  { intros acc' ??. pose proof (IH (pre ++ [v]) acc') as IH'. rewrite <- (assoc_L (++)) in IH'.
    rewrite length_app, Nat2Z.inj_add in IH'. by apply IH'. }
  pose proof (var_size_nonneg _ _ Hfit) as Hn. cbn [uninlined_from var_size] in *.
  destruct (Column_IsInlined c) eqn:Ei; [rewrite Hnext by lia; f_equal; lia|].
  apply inlined_spec in Ei. rewrite Ei in Hcv. destruct (encode_varlen v Hcv) as (Hlen & _ & Hr).
  unfold BUSTUB_VALUE_NULL in Hr. cbn [TupleSize_loop].
  rewrite (zlookup_nat (pre ++ v :: vs) (length pre) v) by (by rewrite lookup_app_r, Nat.sub_diag).
  cbn [rbind]. rewrite Hlen. cbn [rbind].
  rewrite (unsigned_id 64) by (unfold is_unsigned; lia). rewrite unsigned_id by (unfold is_unsigned; lia).
  rewrite Hnext by lia. f_equal. lia.
Qed.

(** Reading a column that holds a value. *)
Lemma GetValue_holds (t : Tuple) (s : Schema E) (c : Column E) v i :
  GetColumn s i = Ok c -> fits (column_type_ c) v -> holds (tuple_data_ t) c v -> Tuple_GetValue t s i = Ok v.
Proof.
  intros Hc Hv Hh. pose proof Hv as (Ht & Hs & _). unfold Tuple_GetValue, Tuple_GetDataPtr. rewrite Hc. cbn [rbind].
  unfold holds in Hh. rewrite <- Ht. destruct (Column_IsInlined c); cbn [rbind].
  - by apply DeserializeFrom_encode.
  - destruct Hh as (o & Hl & Hu & Hr). unfold load_i32, load_u32 in *.
    destruct (mem_read (tuple_data_ t) (column_offset_ c) 4) as [bs|] eqn:Hb; [|done].
    injection Hl as Hl. cbn [fmap res_fmap rbind]. unfold compose. rewrite Hl.
    rewrite signed_id by (try unfold is_signed; unfold is_unsigned in Hu; lia). by apply DeserializeFrom_encode.
Qed.

(** What is said of columns by their types and sizes survives their placement. *)
Lemma var_size_types cs cs' vs :
  column_type_ <$> cs = column_type_ <$> cs' -> var_size cs vs = var_size cs' vs.
Proof.
  revert cs' vs. induction cs as [|c cs IH]; intros [|c' cs'] vs Ht; simplify_eq/=; [done|].
  destruct vs as [|v vs]; [done|]. unfold Column_IsInlined. by rewrite H0, (IH cs').
Qed.

Lemma fits_types cs cs' vs :
  column_type_ <$> cs = column_type_ <$> cs' ->
  Forall2 (fun c v => fits (column_type_ c) v) cs vs -> Forall2 (fun c v => fits (column_type_ c) v) cs' vs.
Proof.
  revert cs' vs. induction cs as [|c cs IH]; intros [|c' cs'] vs Ht Hf; simplify_eq/=; [done|].
  inversion_clear Hf. constructor; [by rewrite <- H0|by apply IH].
Qed.

Lemma well_sized_types cs cs' :
  column_type_ <$> cs = column_type_ <$> cs' -> fixed_length_ <$> cs = fixed_length_ <$> cs' ->
  well_sized cs -> well_sized cs'.
Proof.
  revert cs'. induction cs as [|c cs IH]; intros [|c' cs'] Ht Hf Hw; simplify_eq/=; [done|].
  inversion_clear Hw. constructor; [congruence|by apply IH].
Qed.

Lemma fits_count cs vs :
  Forall2 (fun c v => fits (column_type_ c) v) cs vs -> well_sized cs ->
  length cs = length vs /\ Z.of_nat (length cs) <= fixed_size cs /\ Forall (fun c => 0 <= fixed_length_ c) cs.
Proof.
  induction 1 as [|c v cs vs Hcv Hcs IH]; intros Hw; [done|]. inversion_clear Hw as [|? ? Hc Hw'].
  destruct (IH Hw') as (Hl & Hz & Hall). apply fits_size in Hcv.
  change (fixed_size (c :: cs)) with (fixed_length_ c + fixed_size cs). cbn [length].
  split_and!; [lia|lia|]. constructor; [lia|done].
Qed.

Lemma Tuple_of_values_ok cols vs :
  Forall2 (fun c v => fits (column_type_ c) v) cols vs -> well_sized cols ->
  fixed_size cols + var_size cols vs < 2 ^ 31 ->
  let s := Schema_new cols in
  exists t, Tuple_of_values vs s = Ok t /\ tuple_size_ t = fixed_size cols + var_size cols vs /\
    Forall2 (holds (tuple_data_ t)) (columns_ s) vs /\ Forall2 (fun c v => fits (column_type_ c) v) (columns_ s) vs.
Proof.
  intros Hfit Hw Hb s. destruct (fits_count _ _ Hfit Hw) as (Hlen & Hcnt & Hpos).
  pose proof (var_size_nonneg _ _ Hfit) as Hvn. pose proof (fixed_size_nonneg _ Hpos) as Hfn.
  destruct (Schema_new_ok cols Hpos ltac:(lia)) as (Hl & Hlay & Hun & Ht & Hsz). fold s in Hl, Hlay, Hun, Ht, Hsz.
  rewrite (var_size_types cols (columns_ s) vs) in * by done.
  pose proof (fits_types _ (columns_ s) _ (eq_sym Ht) Hfit) as Hfit'.
  pose proof (well_sized_types _ (columns_ s) (eq_sym Ht) (eq_sym Hsz) Hw) as Hw'.
  assert (Hc : length (columns_ s) = length cols) by (by rewrite <- (length_fmap column_type_), Ht, length_fmap).
  unfold Tuple_of_values, GetColumnCount. rewrite unsigned_id by (unfold is_unsigned; lia).
  rewrite Hc, Hlen, Z.eqb_refl. cbn [assert rbind]. rewrite Hun.
  pose proof (TupleSize_ok (columns_ s) vs [] (length_ s) Hfit' ltac:(lia) ltac:(lia)) as Hts.
  change ([] ++ vs) with vs in Hts. change (Z.of_nat (length [])) with 0 in Hts. rewrite Hts. cbn [rbind].
  destruct (SerializeColumns_ok (columns_ s) vs (replicate (Z.to_nat (length_ s + var_size (columns_ s) vs)) 0) 0
              (length_ s) (length_ s)) as (m & -> & Hm & _ & Hh); try done; [len|].
  eexists. split; [reflexivity|]. split_and!; [|done|done]. unfold tuple_size_. simpl. rewrite Hm. len.
Qed.
End TupleCorrect.

(** ** Properties *)

Section TupleProperties.
Context `{Config} {E : Type}.

(** C20: a tuple built from values gives the values back.  For any columns laid
    out by [Schema] and any values that fit them (numbers and strings, no null
    string), the constructor allocates exactly the fixed part and the strings,
    and [GetValue] of every column is the value it was built from; the tuple
    also survives [SerializeTo] and [DeserializeFrom]. *)
Theorem Tuple_values_roundtrip (cols : list (Column E)) vs :
  Forall2 (fun c v => fits (column_type_ c) v) cols vs -> well_sized cols ->
  fixed_size cols + var_size cols vs < 2 ^ 31 ->
  let s := Schema_new cols in
  exists t, Tuple_of_values vs s = Ok t /\ tuple_size_ t = fixed_size cols + var_size cols vs /\
    (forall i v, vs !! i = Some v -> Tuple_GetValue t s (Z.of_nat i) = Ok v) /\
    (forall m off t0, 0 <= off -> off + 4 + tuple_size_ t <= Z.of_nat (length m) ->
       exists m', Tuple_SerializeTo t m off = Ok m' /\
         tuple_data_ <$> Tuple_DeserializeFrom t0 m' off = Ok (tuple_data_ t)).
Proof.
  intros Hfit Hw Hb s. destruct (Tuple_of_values_ok cols vs Hfit Hw Hb) as (t & Ht & Hsz & Hh & Hf).
  pose proof (var_size_nonneg _ _ Hfit). destruct (fits_count _ _ Hfit Hw) as (_ & _ & Hpos%fixed_size_nonneg).
  exists t. split_and!; [done|done| |].
  - intros i v Hi. destruct (Forall2_lookup_r _ _ _ _ _ Hh Hi) as (c & Hc & Hhc).
    destruct (Forall2_lookup_lr _ _ _ _ _ _ Hf Hc Hi). apply (GetValue_holds t s c v); [by apply zlookup_nat| |done].
    by apply (Forall2_lookup_lr _ _ _ _ _ _ Hf Hc Hi).
  - intros m off t0 Ho Hm. unfold Tuple_SerializeTo, Tuple_DeserializeFrom.
    unfold tuple_size_ in *.
    destruct (store_u32_is_ok m off (Z.of_nat (length (tuple_data_ t)))) as [m1 Hm1]; [lia..|].
    pose proof (store_u32_length _ _ _ _ Hm1). rewrite Hm1. cbn [rbind].
    rewrite mem_write_ok by lia. eexists. split; [reflexivity|].
    assert (Hw2 : mem_write m1 (off + 4) (tuple_data_ t) = Ok (splice (Z.to_nat (off + 4)) (tuple_data_ t) m1))
      by (apply mem_write_ok; lia).
    rewrite (load_u32_write_disjoint _ _ _ _ _ Hw2) by lia. rewrite (load_store_u32_same _ _ _ _ Hm1). cbn [rbind].
    rewrite unsigned_id by (unfold is_unsigned; lia). by rewrite (mem_read_write_same _ _ _ _ _ Hw2).
Qed.
End TupleProperties.

(** Two columns, a number and a string. *)
Definition sample_columns : list (Column unit) :=
  [MkColumn (str "a") INTEGER 4 0 0 None; MkColumn (str "b") VARCHAR 12 0 0 None].

Lemma Tuple_values_roundtrip_witness :
  exists t, Tuple_of_values [int_value INTEGER int32_t 7; varchar_value (str "xyz")] (Schema_new sample_columns) = Ok t
    /\ Tuple_GetValue t (Schema_new sample_columns) 1 = Ok (varchar_value (str "xyz")).
Proof.
  destruct (Tuple_values_roundtrip sample_columns [int_value INTEGER int32_t 7; varchar_value (str "xyz")])
    as (t & Ht & _ & Hv & _).
  - constructor; [by apply fits_int|]. constructor; [by apply fits_varchar|]. constructor.
  - repeat constructor.
  - vm_compute. reflexivity.
  - exists t. split; [exact Ht|]. apply (Hv 1%nat). reflexivity.
Defined.

(** a null string breaks the constructor.  Its length is the null marker
    2^32 - 1, so that its four bytes are counted as three: with the null in the
    last column the constructor writes one byte past its allocation; with
    another string behind it, that string overwrites the marker and the column
    does not read back as null. *)
Theorem Tuple_null_string_overflows :
  let c := MkColumn (E:=unit) (str "a") VARCHAR 12 0 0 None in
  exists null, GetNullValueByType VARCHAR = Ok null /\ wf_value null /\
    Tuple_of_values [null] (Schema_new [c]) = Err OutOfBounds /\
    exists t, Tuple_of_values [null; varchar_value (str "hello")] (Schema_new [c; c]) = Ok t /\
      Tuple_IsNull t (Schema_new [c; c]) 0 <> Ok true.
Proof.
  eexists. split; [reflexivity|]. split; [vm_compute; done|]. split; [vm_compute; reflexivity|].
  eexists. split; [vm_compute; reflexivity|]. vm_compute. discriminate.
Qed.
