(* ===== verification/Transaction.v ===== *)
(** Transactions ([src/include/concurrency/transaction.h]).

    The shared pointers to the write sets and lock sets have one owner each, so
    that the record holds their contents.  [thread_id_] and the page sets of the
    B+ tree are not read by any code and are left out. *)

From S2P Require Import Prelude Rid TablePage.

(** ** Definitions *)

Inductive TransactionState : Type := GROWING | SHRINKING | COMMITTED | ABORTED.
Inductive IsolationLevel : Type := READ_UNCOMMITTED | REPEATABLE_READ | READ_COMMITTED.
Inductive WType : Type := WInsert | WDelete | WUpdate.
Inductive AbortReason : Type :=
| LOCK_ON_SHRINKING
| UNLOCK_ON_SHRINKING
| UPGRADE_CONFLICT
| DEADLOCK
| LOCKSHARED_ON_READ_UNCOMMITTED.

#[export] Instance TransactionState_eq_dec : EqDecision TransactionState.
Proof. solve_decision. Defined.
#[export] Instance IsolationLevel_eq_dec : EqDecision IsolationLevel.
Proof. solve_decision. Defined.
#[export] Instance WType_eq_dec : EqDecision WType.
Proof. solve_decision. Defined.
#[export] Instance AbortReason_eq_dec : EqDecision AbortReason.
Proof. solve_decision. Defined.

(** [table_] is the first page of the table heap the record points to. *)
Record TableWriteRecord : Type := MkTableWriteRecord {
  wr_rid_ : RID;
  wr_wtype_ : WType;
  wr_tuple_ : Tuple;
  wr_table_ : Z
}.

Record IndexWriteRecord : Type := MkIndexWriteRecord {
  iw_rid_ : RID;
  iw_table_oid_ : Z;
  iw_wtype_ : WType;
  iw_tuple_ : Tuple;
  iw_old_tuple_ : Tuple;
  iw_index_oid_ : Z
}.

Record Transaction : Type := MkTransaction {
  state_ : TransactionState;
  isolation_level_ : IsolationLevel;
  txn_id_ : Z;
  table_write_set_ : list TableWriteRecord;
  index_write_set_ : list IndexWriteRecord;
  prev_lsn_ : Z;
  shared_lock_set_ : gset RID;
  exclusive_lock_set_ : gset RID
}.

Definition Transaction_new `{Config} (txn_id : Z) (isolation_level : IsolationLevel) : Transaction :=
  MkTransaction GROWING isolation_level txn_id [] [] INVALID_LSN ∅ ∅.

Definition Txn_GetState (t : Transaction) : TransactionState := state_ t.
Definition Txn_SetState (s : TransactionState) (t : Transaction) : Transaction :=
  MkTransaction s (isolation_level_ t) (txn_id_ t) (table_write_set_ t) (index_write_set_ t) (prev_lsn_ t)
    (shared_lock_set_ t) (exclusive_lock_set_ t).
Definition Txn_SetPrevLSN (lsn : Z) (t : Transaction) : Transaction :=
  MkTransaction (state_ t) (isolation_level_ t) (txn_id_ t) (table_write_set_ t) (index_write_set_ t) lsn
    (shared_lock_set_ t) (exclusive_lock_set_ t).
Definition Txn_set_locks (sh ex : gset RID) (t : Transaction) : Transaction :=
  MkTransaction (state_ t) (isolation_level_ t) (txn_id_ t) (table_write_set_ t) (index_write_set_ t) (prev_lsn_ t) sh ex.
Definition Txn_set_writes (w : list TableWriteRecord) (iw : list IndexWriteRecord) (t : Transaction) : Transaction :=
  MkTransaction (state_ t) (isolation_level_ t) (txn_id_ t) w iw (prev_lsn_ t) (shared_lock_set_ t) (exclusive_lock_set_ t).

(** [GetWriteSet()->emplace_back(...)] and [AppendTableWriteRecord]. *)
Definition Txn_AppendTableWriteRecord (r : TableWriteRecord) (t : Transaction) : Transaction :=
  Txn_set_writes (table_write_set_ t ++ [r]) (index_write_set_ t) t.
Definition Txn_AppendIndexWriteRecord (r : IndexWriteRecord) (t : Transaction) : Transaction :=
  Txn_set_writes (table_write_set_ t) (index_write_set_ t ++ [r]) t.

Definition Txn_IsSharedLocked (rid : RID) (t : Transaction) : bool := bool_decide (rid ∈ shared_lock_set_ t).
Definition Txn_IsExclusiveLocked (rid : RID) (t : Transaction) : bool := bool_decide (rid ∈ exclusive_lock_set_ t).

(** The moves between states that the comment of [TransactionState] draws. *)
Definition state_move (s s' : TransactionState) : Prop :=
  match s, s' with
  | GROWING, _ => True
  | SHRINKING, (SHRINKING | COMMITTED | ABORTED) => True
  | COMMITTED, COMMITTED => True
  | ABORTED, ABORTED => True
  | _, _ => False
  end.
