(* ===== verification/TableHeap.v ===== *)
(** The table heap and its iterator ([src/storage/table/table_heap.cpp],
    [src/storage/table/table_iterator.cpp]): a linked list of table pages in a
    buffer pool.

    The heap is code over the buffer pool interface; a [TablePage*] is a page
    pointer whose bytes the methods of the page read and write in place.  The
    transaction object is passed along and returned.  Page latches are not
    modelled: an operation is a sequential piece of code.  The loops that follow
    the page list have fuel; [Err OutOfFuel] is not a behaviour of the code and
    the theorems exclude it. *)

From S2P Require Import Prelude Bytes Rid BufferPoolManager TablePage Transaction.

(** ** Definitions *)

(** The pool, the lock manager and the log manager are arguments. *)
Record TableHeap : Type := MkTableHeap {
  first_page_id_ : Z
}.

(** The iterator's tuple; the table and the transaction are arguments. *)
Record TableIterator : Type := MkTableIterator {
  tuple_ : Tuple
}.

Section TableHeap.
Context `{Config} {S P : Type} `{!BufferPoolManager S P bytes}.
Implicit Types (t : TableHeap) (f : P) (txn : Transaction) (tuple : Tuple).

(** Calling a method of the page behind [f], without and with changes to it; a
    failed [InsertTuple] or [UpdateTuple] leaves the page alone. *)
Definition on_page {A} f (g : bytes -> res A) : M S A :=
  do! m := GetData f in lift (g m).
Definition upd_page f (g : bytes -> res bytes) : M S unit :=
  do! m := GetData f in do! m := lift (g m) in SetData f m.
Definition try_page {A} f (g : bytes -> res (option A * bytes)) : M S (option A) :=
  do! m := GetData f in
  do! ' (r, m) := lift (g m) in
  do! _ := match r with Some _ => SetData f m | None => sret tt end in sret r.

(** [UnpinPage(page->GetTablePageId(), dirty)]. *)
Definition unpin_page f (dirty : bool) : M S bool :=
  do! page_id := on_page f TP_GetTablePageId in UnpinPage page_id dirty.

(** The constructor that creates a table. *)
Definition TableHeap_create : M S TableHeap :=
  do! r := NewPage in
  match r with
  | None => fail AssertionFailure
  | Some (first_page_id, first_page) =>
      do! _ := upd_page first_page (TP_Init first_page_id PAGE_SIZE INVALID_LSN) in
      do! _ := UnpinPage first_page_id true in
      sret (MkTableHeap first_page_id)
  end.

(** The loop of [InsertTuple] from the pinned page [cur_page] on: the page that
    took the tuple, still pinned, and its id, or [None] if no page could be
    allocated. *)
Fixpoint InsertTuple_loop (fuel : nat) (cur_page : P) tuple : M S (option (P * RID)) :=
  match fuel with
  | O => fail OutOfFuel
  | Datatypes.S fuel =>
      do! r := try_page cur_page (TP_InsertTuple tuple) in
      match r with
      | Some rid => sret (Some (cur_page, rid))
      | None =>
          do! next_page_id := on_page cur_page TP_GetNextPageId in
          if negb (next_page_id =? INVALID_PAGE_ID) then
            do! _ := unpin_page cur_page false in
            do! cur_page := do! r := FetchPage next_page_id in deref r in
            InsertTuple_loop fuel cur_page tuple
          else
            do! r := NewPage in
            match r with
            | None => do! _ := unpin_page cur_page false in sret None
            | Some (next_page_id, new_page) =>
                do! _ := upd_page cur_page (TP_SetNextPageId next_page_id) in
                do! cur_page_id := on_page cur_page TP_GetTablePageId in
                do! _ := upd_page new_page (TP_Init next_page_id PAGE_SIZE cur_page_id) in
                do! _ := unpin_page cur_page true in
                InsertTuple_loop fuel new_page tuple
            end
      end
  end.

(** [InsertTuple]: the new id if the call returns [true]. *)
Definition TableHeap_InsertTuple (fuel : nat) t tuple txn : M S (option RID * Transaction) :=
  if PAGE_SIZE <? unsigned 32 (tuple_size_ tuple + 32) then sret (None, Txn_SetState ABORTED txn) else
  do! r := FetchPage (first_page_id_ t) in
  match r with
  | None => sret (None, Txn_SetState ABORTED txn)
  | Some cur_page =>
      do! r := InsertTuple_loop fuel cur_page tuple in
      match r with
      | None => sret (None, Txn_SetState ABORTED txn)
      | Some (cur_page, rid) =>
          do! _ := unpin_page cur_page true in
          sret (Some rid, Txn_AppendTableWriteRecord (MkTableWriteRecord rid WInsert Tuple_default (first_page_id_ t)) txn)
      end
  end.

(** [MarkDelete]: the page's answer is dropped. *)
Definition TableHeap_MarkDelete t (rid : RID) txn : M S (bool * Transaction) :=
  do! r := FetchPage (page_id_ rid) in
  match r with
  | None => sret (false, Txn_SetState ABORTED txn)
  | Some page =>
      do! _ := upd_page page (fun m => let! ' (_, m) := TP_MarkDelete rid m in Ok m) in
      do! _ := unpin_page page true in
      sret (true, Txn_AppendTableWriteRecord (MkTableWriteRecord rid WDelete Tuple_default (first_page_id_ t)) txn)
  end.

Definition TableHeap_UpdateTuple t tuple (rid : RID) txn : M S (bool * Transaction) :=
  do! r := FetchPage (page_id_ rid) in
  match r with
  | None => sret (false, Txn_SetState ABORTED txn)
  | Some page =>
      do! old_tuple := try_page page (TP_UpdateTuple tuple rid) in
      do! _ := unpin_page page (match old_tuple with Some _ => true | None => false end) in
      match old_tuple with
      | Some old_tuple =>
          if decide (Txn_GetState txn = ABORTED) then sret (true, txn) else
          sret (true, Txn_AppendTableWriteRecord (MkTableWriteRecord rid WUpdate old_tuple (first_page_id_ t)) txn)
      | None => sret (false, txn)
      end
  end.

Definition TableHeap_ApplyDelete (rid : RID) : M S unit :=
  do! r := FetchPage (page_id_ rid) in
  match r with
  | None => fail AssertionFailure
  | Some page =>
      do! _ := upd_page page (TP_ApplyDelete rid) in
      do! _ := unpin_page page true in sret tt
  end.

Definition TableHeap_RollbackDelete (rid : RID) : M S unit :=
  do! r := FetchPage (page_id_ rid) in
  match r with
  | None => fail AssertionFailure
  | Some page =>
      do! _ := upd_page page (TP_RollbackDelete rid) in
      do! _ := unpin_page page true in sret tt
  end.

Definition TableHeap_GetTuple (rid : RID) txn : M S (option Tuple * Transaction) :=
  do! r := FetchPage (page_id_ rid) in
  match r with
  | None => sret (None, Txn_SetState ABORTED txn)
  | Some page =>
      do! r := on_page page (TP_GetTuple rid) in
      do! _ := UnpinPage (page_id_ rid) false in
      sret (r, txn)
  end.

(** *** The iterator *)

Definition TableIterator_new (rid : RID) txn : M S (TableIterator * Transaction) :=
  if negb (page_id_ rid =? INVALID_PAGE_ID) then
    do! ' (r, txn) := TableHeap_GetTuple rid txn in
    sret (MkTableIterator (match r with Some tuple => tuple | None => MkTuple rid [] end), txn)
  else sret (MkTableIterator (MkTuple rid []), txn).

(** The loop of [Begin]; the next page id is read after the page is unpinned. *)
Fixpoint Begin_loop (fuel : nat) (page_id : Z) (rid : RID) : M S RID :=
  match fuel with
  | O => fail OutOfFuel
  | Datatypes.S fuel =>
      if page_id =? INVALID_PAGE_ID then sret rid else
      do! page := do! r := FetchPage page_id in deref r in
      do! ' (found_tuple, rid) := on_page page TP_GetFirstTupleRid in
      do! _ := UnpinPage page_id false in
      if found_tuple : bool then sret rid else
      do! page_id := on_page page TP_GetNextPageId in
      Begin_loop fuel page_id rid
  end.

Definition TableHeap_Begin (fuel : nat) t txn : M S (TableIterator * Transaction) :=
  do! rid := Begin_loop fuel (first_page_id_ t) RID_default in
  TableIterator_new rid txn.

Definition TableHeap_End : TableIterator := MkTableIterator (MkTuple (MkRID INVALID_PAGE_ID 0) []).

(** [operator==]. *)
Definition TableIterator_eqb (a b : TableIterator) : bool :=
  RID_Get (tuple_rid_ (tuple_ a)) =? RID_Get (tuple_rid_ (tuple_ b)).

(** [operator*]. *)
Definition TableIterator_deref (it : TableIterator) : res Tuple :=
  let! _ := assert (negb (TableIterator_eqb it TableHeap_End)) in Ok (tuple_ it).

(** The loop of [operator++] over the pages after [cur_page]. *)
Fixpoint NextPage_loop (fuel : nat) (cur_page : P) (next_tuple_rid : RID) : M S (P * RID) :=
  match fuel with
  | O => fail OutOfFuel
  | Datatypes.S fuel =>
      do! next_page_id := on_page cur_page TP_GetNextPageId in
      if next_page_id =? INVALID_PAGE_ID then sret (cur_page, next_tuple_rid) else
      do! next_page_id := on_page cur_page TP_GetNextPageId in
      do! next_page := FetchPage next_page_id in
      do! _ := unpin_page cur_page false in
      do! cur_page := deref next_page in
      do! ' (found, next_tuple_rid) := on_page cur_page TP_GetFirstTupleRid in
      if found : bool then sret (cur_page, next_tuple_rid) else NextPage_loop fuel cur_page next_tuple_rid
  end.

(** [operator++]. *)
Definition TableIterator_next (fuel : nat) (it : TableIterator) txn : M S (TableIterator * Transaction) :=
  let cur_rid := tuple_rid_ (tuple_ it) in
  do! cur_page := do! r := FetchPage (page_id_ cur_rid) in deref r in
  do! ' (found, next_tuple_rid) := on_page cur_page (TP_GetNextTupleRid cur_rid) in
  do! ' (cur_page, next_tuple_rid) :=
    if found : bool then sret (cur_page, next_tuple_rid) else NextPage_loop fuel cur_page next_tuple_rid in
  let it := MkTableIterator (MkTuple next_tuple_rid (tuple_data_ (tuple_ it))) in
  do! ' (it, txn) :=
    if negb (TableIterator_eqb it TableHeap_End) then
      do! ' (r, txn) := TableHeap_GetTuple next_tuple_rid txn in
      sret (MkTableIterator (match r with Some tuple => tuple | None => tuple_ it end), txn)
    else sret (it, txn) in
  do! _ := unpin_page cur_page false in
  sret (it, txn).
End TableHeap.
