(* ===== verification/TableHeapCorrect.v ===== *)
(** Correctness of the table heap over any buffer pool that keeps its contract:
    the heap is a list of pages of slots, and each operation does to it what its
    abstract counterpart says. *)

From S2P Require Import Prelude Bytes Rid BufferPoolManager TablePage TablePageCorrect Transaction TableHeap.

(** ** What the code relies on *)

(** Any [PAGE_SIZE] bytes can be written to a page; a new page is zeroed. *)
Class TablePagesOk `{Config} (good : bytes -> Prop) (zero : bytes) : Prop := {
  page_good m : Z.of_nat (length m) = PAGE_SIZE -> good m;
  page_zeroed : Z.of_nat (length zero) = PAGE_SIZE /\ is_bytes zero
}.

(** ** The abstract heap *)

(** Pages in list order: their ids and their slots. *)
Notation heap := (list (Z * list slot)).

Section Abstract.
Context `{Config}.
Implicit Types (h : heap) (l : list slot) (p : Z).

(** The id of the page after the [i]-th. *)
Definition next_id h (i : nat) : Z := from_option fst INVALID_PAGE_ID (h !! Datatypes.S i).

(** The first page with room takes the tuple, or a new page [new] at the end. *)
Fixpoint heap_insert (new : Z) (t : Tuple) h : RID * heap :=
  match h with
  | [] => (RID_Set new 0, [(new, [Live (tuple_data_ t)])])
  | (p, l) :: h =>
      if has_room l (tuple_size_ t)
      then (RID_Set p (Z.of_nat (free_slot l)), (p, put_slot (free_slot l) (Live (tuple_data_ t)) l) :: h)
      else let ' (rid, h) := heap_insert new t h in (rid, (p, l) :: h)
  end.

(** The slots of a page, and the heap with the slots of a page replaced. *)
Fixpoint heap_page (p : Z) h : option (list slot) :=
  match h with
  | [] => None
  | (q, l) :: h => if decide (q = p) then Some l else heap_page p h
  end.
Fixpoint set_heap_page (p : Z) (l : list slot) h : heap :=
  match h with
  | [] => []
  | (q, l') :: h => if decide (q = p) then (p, l) :: h else (q, l') :: set_heap_page p l h
  end.

Definition heap_slot (rid : RID) h : option slot := heap_page (page_id_ rid) h ≫= slot_at rid.

(** The operations that go to the page of a record id, and what they do there. *)
Inductive th_op : Type :=
| ThMarkDelete (rid : RID)
| ThUpdate (tuple : Tuple) (rid : RID)
| ThApplyDelete (rid : RID)
| ThRollbackDelete (rid : RID)
| ThGet (rid : RID).

Definition th_rid (op : th_op) : RID :=
  match op with ThMarkDelete rid | ThUpdate _ rid | ThApplyDelete rid | ThRollbackDelete rid | ThGet rid => rid end.

Definition page_op (op : th_op) : tp_op :=
  match op with
  | ThMarkDelete rid => OpMarkDelete rid
  | ThUpdate tuple rid => OpUpdate tuple rid
  | ThApplyDelete rid => OpApplyDelete rid
  | ThRollbackDelete rid => OpRollbackDelete rid
  | ThGet rid => OpGet rid
  end.

(** The heap's answer and the transaction's write record, from the page's
    answer: [MarkDelete] succeeds whatever the page says. *)
Definition th_finish (t : TableHeap) (op : th_op) (a : tp_answer) (txn : Transaction) : tp_answer * Transaction :=
  match op, a with
  | ThMarkDelete rid, _ =>
      (AnsBool true, Txn_AppendTableWriteRecord (MkTableWriteRecord rid WDelete Tuple_default (first_page_id_ t)) txn)
  | ThUpdate _ rid, AnsTuple (Some old) =>
      (AnsBool true, if decide (state_ txn = ABORTED) then txn
                     else Txn_AppendTableWriteRecord (MkTableWriteRecord rid WUpdate old (first_page_id_ t)) txn)
  | ThUpdate _ _, _ => (AnsBool false, txn)
  | _, a => (a, txn)
  end.

(** The tuples from slot [k] on, and of all pages, in scan order. *)
Fixpoint page_tuples (p : Z) (k : nat) l : list Tuple :=
  match l with
  | [] => []
  | s :: l => match s with Live d => [MkTuple (RID_Set p (Z.of_nat k)) d] | _ => [] end ++ page_tuples p (Datatypes.S k) l
  end.
Definition heap_tuples h : list Tuple := mjoin ((fun x => page_tuples x.1 0 x.2) <$> h).

Lemma heap_insert_full new t p l h : has_room l (tuple_size_ t) = false ->
  heap_insert new t ((p, l) :: h) = ((heap_insert new t h).1, (p, l) :: (heap_insert new t h).2).
Proof. intros Hr. simpl. rewrite Hr. by destruct (heap_insert new t h). Qed.

Lemma next_id_set h (i j : nat) p l l' : h !! i = Some (p, l) -> next_id (<[i := (p, l')]> h) j = next_id h j.
Proof.
  intros Hi. unfold next_id. destruct (decide (i = Datatypes.S j)) as [->|Hne].
  - rewrite list_lookup_insert_eq by (by apply lookup_lt_Some in Hi). by rewrite Hi.
  - by rewrite list_lookup_insert_ne.
Qed.

Lemma ids_set h (i : nat) p l l' : h !! i = Some (p, l) -> (<[i := (p, l')]> h).*1 = h.*1.
Proof. intros Hi. rewrite list_fmap_insert. simpl. apply list_insert_id. by rewrite list_lookup_fmap, Hi. Qed.

Lemma heap_page_some h (i : nat) p l : NoDup h.*1 -> h !! i = Some (p, l) -> heap_page p h = Some l.
Proof.
  revert i. induction h as [|[q l'] h IH]; intros i Hn Hi; [done|]. inversion Hn as [|?? Hq Hn']; subst. simpl.
  destruct i as [|i]; simplify_eq/=; [by rewrite decide_True|]. rewrite decide_False; [by apply (IH i)|].
  intros ->. apply Hq. apply list_elem_of_fmap. exists (p, l). split; [done|]. by apply list_elem_of_lookup_2 in Hi.
Qed.

Lemma heap_page_elem h p : p ∈ h.*1 -> exists (i : nat) l, h !! i = Some (p, l) /\ heap_page p h = Some l.
Proof.
  induction h as [|[q l'] h IH]; simpl; [set_solver|]. intros Hp. case_decide as Hq.
  - subst q. by exists O, l'.
  - apply elem_of_cons in Hp as [->|Hp]; [done|]. destruct (IH Hp) as (i & l & Hi & Hl). by exists (Datatypes.S i), l.
Qed.

Lemma heap_page_in h p l : heap_page p h = Some l -> p ∈ h.*1.
Proof. induction h as [|[q l3] h IH]; simpl; [done|]. case_decide; set_solver. Qed.

Lemma set_heap_page_insert h (i : nat) p l l' : NoDup h.*1 -> h !! i = Some (p, l) -> set_heap_page p l' h = <[i := (p, l')]> h.
Proof.
  revert i. induction h as [|[q l0] h IH]; intros i Hn Hi; [done|]. inversion Hn as [|?? Hq Hn']; subst. simpl.
  destruct i as [|i]; simplify_eq/=; [by rewrite decide_True|]. rewrite decide_False; [by rewrite (IH i)|].
  intros ->. apply Hq. apply list_elem_of_fmap. exists (p, l). split; [done|]. by apply list_elem_of_lookup_2 in Hi.
Qed.

Lemma free_slot_le l : (free_slot l <= length l)%nat.
Proof.
  unfold free_slot. destruct (list_find _ _) as [[i x]|] eqn:Hf; [|done].
  apply list_find_Some in Hf as (Hf & _). apply lookup_lt_Some in Hf. lia.
Qed.

Lemma put_slot_lookup (i k : nat) x l : (i <= length l)%nat -> put_slot i x l !! k = if decide (k = i) then Some x else l !! k.
Proof.
  intros Hi. unfold put_slot. case_decide as E; [subst i|]; case_decide as Ek; try subst k.
  - by rewrite lookup_app_r, Nat.sub_diag.
  - destruct (decide (k < length l)%nat); [by rewrite lookup_app_l|]. rewrite !lookup_ge_None_2; [done|lia|].
    rewrite length_app. simpl. lia.
  - apply list_lookup_insert_eq. lia.
  - by apply list_lookup_insert_ne.
Qed.

(** The inserted tuple is under its id, every other id keeps its slot. *)
Lemma heap_insert_slot new t h : NoDup (heap_insert new t h).2.*1 ->
  let rid := (heap_insert new t h).1 in
  heap_slot rid (heap_insert new t h).2 = Some (Live (tuple_data_ t)) /\ 0 <= slot_num_ rid
  /\ (page_id_ rid = new \/ page_id_ rid ∈ h.*1)
  /\ forall rid', 0 <= slot_num_ rid' -> rid' <> rid -> heap_slot rid' (heap_insert new t h).2 = heap_slot rid' h.
Proof.
  induction h as [|[p l] h IH]; intros Hn rid.
  - unfold rid, heap_slot. simpl. rewrite decide_True by done. split_and!; [done|done|by left|].
    intros [q k] Hk Hne. simpl in *. case_decide as E; [|done]. subst q. unfold slot_at. simpl.
    destruct (Z.to_nat k) as [|n] eqn:En; [|done]. exfalso. apply Hne. unfold RID_Set. f_equal. lia.
  - destruct (has_room l (tuple_size_ t)) eqn:Hr.
    + unfold rid, heap_slot. simpl. rewrite Hr. simpl. rewrite decide_True by done. simpl. unfold slot_at. simpl. rewrite Nat2Z.id.
      rewrite put_slot_lookup, decide_True by (done || apply free_slot_le). split_and!; [done|lia|set_solver|].
      intros [q k] Hk Hne. simpl in *. case_decide as E; [|done]. subst q. simpl. unfold slot_at. simpl.
      rewrite put_slot_lookup by apply free_slot_le. rewrite decide_False; [done|]. intros Ek. apply Hne. unfold RID_Set. f_equal. lia.
    + subst rid. rewrite (heap_insert_full _ _ _ _ _ Hr) in *. destruct (heap_insert new t h) as [rid h']. cbn [fst snd] in *.
      rewrite fmap_cons in Hn. inversion Hn as [|?? Hp Hn']; subst. destruct (IH Hn') as (H1 & H2 & H3 & H4).
      assert (Hpage : p <> page_id_ rid).
      { intros ->. unfold heap_slot in H1. destruct (heap_page _ _) as [l2|] eqn:Hl; [|done]. by apply heap_page_in in Hl. }
      split_and!; [|done|set_solver|].
      * unfold heap_slot in *. simpl. by rewrite decide_False.
      * intros rid' Hk Hne. unfold heap_slot in *. simpl. case_decide; [done|by apply H4].
Qed.
End Abstract.

(** ** The heap in the pool *)

Section Correct.
Context `{Config} {S P : Type} `{!BufferPoolManager S P bytes} `{!BufferPoolSpec S P bytes}
  `{!TablePagesOk (good_data (S := S) (P := P)) (zero_data (S := S) (P := P))}.
Implicit Types (t : TableHeap) (s : S) (f : P) (h : heap) (l : list slot) (p : Z) (txn : Transaction) (m : bytes).

(** A live page that holds the slots [l] and is followed by [next]. *)
Definition page_at s p l (next : Z) : Prop :=
  live (view s) p /\ exists m prev, logical (view s) p = Some m /\ page_rep m p prev next l.

Record heap_rep t s h : Prop := {
  hr_ok : pool_ok s;
  hr_first : h.*1 !! O = Some (first_page_id_ t);
  hr_nodup : NoDup h.*1;
  hr_page (i : nat) p l : h !! i = Some (p, l) -> page_at s p l (next_id h i)
}.

(** The heap at rest: no operation holds a pin on its pages. *)
Definition heap_inv t s h : Prop := heap_rep t s h /\ forall p, p ∈ h.*1 -> pins (view s) !! p = None.

(** *** Methods of one page *)

Lemma page_at_keeps s s' o p l next : evolves o (view s) (view s') -> o <> Some p -> page_at s p l next -> page_at s' p l next.
Proof.
  intros Hk Ho (Hl & m & prev & Hx & Hr). split; [by apply (ev_live _ _ _ Hk)|].
  exists m, prev. split; [by apply (ev_logical _ _ _ Hk)|done].
Qed.

(** A page pointer that may be used. *)
Record at_page s f p l (next : Z) : Prop := {
  ap_ok : pool_ok s;
  ap_holds : holds (view s) f p;
  ap_pin : is_Some (pins (view s) !! p);
  ap_at : page_at s p l next
}.

Lemma GetData_run s f p l next : at_page s f p l next ->
  exists m prev, GetData f s = Ok (m, s) /\ page_rep m p prev next l.
Proof.
  intros [Ho Hf Hp (_ & m & prev & Hx & Hr)]. exists m, prev. split; [|done]. exact (GetData_spec s f p m Ho Hf Hp Hx).
Qed.

Lemma wp_on_page {A C} s f p l next (g : bytes -> res A) a (k : A -> M S C) (Q : C -> S -> Prop) :
  at_page s f p l next -> (forall m prev, page_rep m p prev next l -> g m = Ok a) ->
  wp (k a) Q s -> wp (sbind (on_page f g) k) Q s.
Proof.
  intros Hat Hg HQ. destruct (GetData_run _ _ _ _ _ Hat) as (m & prev & Hm & Hr).
  unfold wp, sbind, on_page, sbind, lift. rewrite Hm, (Hg m prev Hr). exact HQ.
Qed.

(** What a write to the page leaves behind. *)
Record written s s' p l (next : Z) : Prop := {
  wn_ok : pool_ok s';
  wn_at : page_at s' p l next;
  wn_keeps : keeps (Some p) (view s) (view s');
  wn_pins : pins (view s') = pins (view s);
  wn_budget n : budget (view s) n -> budget (view s') n
}.

Lemma SetData_run s f p m' prev' l' next' :
  pool_ok s -> holds (view s) f p -> is_Some (pins (view s) !! p) -> live (view s) p -> page_rep m' p prev' next' l' ->
  exists s', SetData f m' s = Ok (tt, s') /\ written s s' p l' next'.
Proof.
  intros Ho Hf Hp Hl Hr.
  assert (Hg : good_data m') by (apply page_good; destruct Hr as (? & ? & Hlay & _); apply (lay_length _ _ _ _ _ _ Hlay)).
  pose proof (SetData_spec s f p m' Ho Hf Hp Hg) as Hw. apply wp_run in Hw as ([] & s' & Hrun & Ho' & Hx & Hk & Hpin & Hb).
  exists s'. split; [done|]. split; try done. split; [by apply (keeps_live _ _ _ Hk)|]. by exists m', prev'.
Qed.

Lemma wp_upd_page {C} s f p l next (g : bytes -> res bytes) l' next' (k : unit -> M S C) (Q : C -> S -> Prop) :
  at_page s f p l next ->
  (forall m prev, page_rep m p prev next l -> exists m' prev', g m = Ok m' /\ page_rep m' p prev' next' l') ->
  (forall s', written s s' p l' next' -> wp (k tt) Q s') -> wp (sbind (upd_page f g) k) Q s.
Proof.
  intros Hat Hg HQ. destruct (GetData_run _ _ _ _ _ Hat) as (m & prev & Hm & Hr).
  destruct (Hg m prev Hr) as (m' & prev' & Hg' & Hr').
  pose proof Hat as [Ho Hf Hp (Hl & _)].
  destruct (SetData_run _ _ _ _ _ _ _ Ho Hf Hp Hl Hr') as (s' & Hset & Hw).
  unfold wp, sbind, upd_page, sbind, lift. rewrite Hm, Hg'. cbn [rbind]. rewrite Hset. by apply HQ.
Qed.

Lemma wp_try_page {A C} s f p l next (g : bytes -> res (option A * bytes)) a l' (k : option A -> M S C) (Q : C -> S -> Prop) :
  at_page s f p l next ->
  (forall m prev, page_rep m p prev next l -> exists m', g m = Ok (Some a, m') /\ page_rep m' p prev next l') ->
  (forall s', written s s' p l' next -> wp (k (Some a)) Q s') -> wp (sbind (try_page f g) k) Q s.
Proof.
  intros Hat Hg HQ. destruct (GetData_run _ _ _ _ _ Hat) as (m & prev & Hm & Hr).
  destruct (Hg m prev Hr) as (m' & Hg' & Hr').
  pose proof Hat as [Ho Hf Hp (Hl & _)].
  destruct (SetData_run _ _ _ _ _ _ _ Ho Hf Hp Hl Hr') as (s' & Hset & Hw).
  unfold wp, sbind, try_page, sbind, lift. rewrite Hm, Hg'. cbn [rbind]. rewrite Hset. by apply HQ.
Qed.

Lemma wp_try_page_none {A C} s f p l next (g : bytes -> res (option A * bytes)) (k : option A -> M S C) (Q : C -> S -> Prop) :
  at_page s f p l next -> (forall m prev, page_rep m p prev next l -> exists m', g m = Ok (None, m')) ->
  wp (k None) Q s -> wp (sbind (try_page f g) k) Q s.
Proof.
  intros Hat Hg HQ. destruct (GetData_run _ _ _ _ _ Hat) as (m & prev & Hm & Hr). destruct (Hg m prev Hr) as (m' & Hg').
  unfold wp, sbind, try_page, sbind, lift. rewrite Hm, Hg'. exact HQ.
Qed.

(** What giving the only pin of a page back leaves behind. *)
Record released s s' (m0 : gmap Z Z) : Prop := {
  rl_ok : pool_ok s';
  rl_keeps : keeps None (view s) (view s');
  rl_pins : pins (view s') = m0;
  rl_budget n : budget (view s) n -> budget (view s') n
}.

Lemma wp_release {C} s p (dirty : bool) (m0 : gmap Z Z) (k : bool -> M S C) (Q : C -> S -> Prop) :
  pool_ok s -> pins (view s) = <[p := 1]> m0 -> m0 !! p = None -> dirty = true \/ synced (view s) p ->
  (forall s', released s s' m0 -> wp (k true) Q s') -> wp (sbind (UnpinPage p dirty) k) Q s.
Proof.
  intros Ho Hp Hm Hd HQ. apply (wp_unpin s p); [done|by rewrite Hp, lookup_insert_eq|done|].
  intros s' Hs' Hk Hpin Hb. apply HQ. split; try done. by rewrite Hpin, Hp, delete_insert_id.
Qed.

Lemma page_id_ok m p prev next l : page_rep m p prev next l -> TP_GetTablePageId m = Ok p.
Proof. intros (? & ? & Hl & _). apply (lay_pid _ _ _ _ _ _ Hl). Qed.

Lemma next_page_ok m p prev next l : page_rep m p prev next l -> TP_GetNextPageId m = Ok next.
Proof. intros (? & ? & Hl & _). apply (lay_next _ _ _ _ _ _ Hl). Qed.

Lemma wp_unpin_page {C} s f p l next (dirty : bool) (m0 : gmap Z Z) (k : bool -> M S C) (Q : C -> S -> Prop) :
  at_page s f p l next -> pins (view s) = <[p := 1]> m0 -> m0 !! p = None -> dirty = true \/ synced (view s) p ->
  (forall s', released s s' m0 -> wp (k true) Q s') -> wp (sbind (unpin_page f dirty) k) Q s.
Proof.
  intros Hat Hp Hm Hd HQ. apply wp_bind. eapply wp_on_page; [exact Hat|intros; by eapply page_id_ok|].
  pose proof (wp_release s p dirty m0 k Q (ap_ok _ _ _ _ _ Hat) Hp Hm Hd HQ) as Hw.
  unfold wp, sbind in *. by destruct (UnpinPage p dirty s) as [[b s']|].
Qed.

(** *** The list of pages *)

Lemma heap_rep_evolves t s s' h : heap_rep t s h -> pool_ok s' -> evolves None (view s) (view s') -> heap_rep t s' h.
Proof.
  intros [Ho Hf Hn Hp] Hs' Hk. split; [done..|]. intros i p l Hi. eapply page_at_keeps; [exact Hk|done|by apply Hp].
Qed.

Lemma heap_rep_set t s s' h (i : nat) p l l' : heap_rep t s h -> h !! i = Some (p, l) -> pool_ok s' ->
  evolves (Some p) (view s) (view s') -> page_at s' p l' (next_id h i) -> heap_rep t s' (<[i := (p, l')]> h).
Proof.
  intros [Ho Hf Hn Hp] Hi Hs' Hk Hat. pose proof (ids_set h i p l l' Hi) as Hids. split; [done|by rewrite Hids..|].
  intros j q l2 Hj. rewrite (next_id_set h i j p l l' Hi). destruct (decide (i = j)) as [<-|Hne].
  - rewrite list_lookup_insert_eq in Hj by (by apply lookup_lt_Some in Hi). by simplify_eq.
  - rewrite list_lookup_insert_ne in Hj by done. eapply page_at_keeps; [exact Hk| |by apply Hp].
    intros [= ->]. apply Hne. eapply NoDup_lookup; [exact Hn| |]; rewrite list_lookup_fmap; [by rewrite Hi|by rewrite Hj].
Qed.

Lemma heap_ids t s h p : heap_rep t s h -> p ∈ h.*1 -> live (view s) p /\ exists x, logical (view s) p = Some x.
Proof.
  intros Hr (i & l & Hi & _)%heap_page_elem. destruct (hr_page _ _ _ Hr i p l Hi) as (Hl & m & prev & Hx & _).
  split; [done|by exists m].
Qed.

Lemma heap_ids_range t s h p : heap_rep t s h -> p ∈ h.*1 -> 0 <= p < 2 ^ 31.
Proof. intros Hr Hp. destruct (heap_ids _ _ _ _ Hr Hp) as [Hl _]. exact (live_page_id s p (hr_ok _ _ _ Hr) Hl). Qed.

Lemma lookup_id h (i : nat) p l : h !! i = Some (p, l) -> p ∈ h.*1.
Proof. intros Hi. apply list_elem_of_fmap. exists (p, l). split; [done|]. by apply list_elem_of_lookup_2 in Hi. Qed.

Lemma next_id_cases t s h (i : nat) : heap_rep t s h ->
  (next_id h i = INVALID_PAGE_ID /\ h !! Datatypes.S i = None)
  \/ (next_id h i <> INVALID_PAGE_ID /\ exists l, h !! Datatypes.S i = Some (next_id h i, l)).
Proof.
  intros Hr. unfold next_id. destruct (h !! Datatypes.S i) as [[q l]|] eqn:Hi; simpl; [right|by left].
  pose proof (heap_ids_range _ _ _ q Hr (lookup_id _ _ _ _ Hi)). pose proof INVALID_PAGE_ID_neg. split; [lia|by exists l].
Qed.

(** The heap with a pin on its page [p]. *)
Record on_heap t s h f p l (next : Z) (pins0 : gmap Z Z) : Prop := {
  oh_rep : heap_rep t s h;
  oh_at : at_page s f p l next;
  oh_pins : pins (view s) = <[p := 1]> pins0;
  oh_rest q : q ∈ h.*1 -> pins0 !! q = None
}.

Lemma on_heap_fetched t s s' h f (i : nat) p l : heap_rep t s h -> h !! i = Some (p, l) ->
  (forall q, q ∈ h.*1 -> pins (view s) !! q = None) -> fetched s s' f p -> on_heap t s' h f p l (next_id h i) (pins (view s)).
Proof.
  intros Hr Hi Hun [Ho Hf Hk Hpin Hsy Hb]. pose proof (heap_rep_evolves t s s' h Hr Ho (keeps_evolves _ _ _ Hk)) as Hr'.
  split; [done| |done|done]. split; [done|done|by rewrite Hpin, lookup_insert_eq; eexists|by apply (hr_page _ _ _ Hr')].
Qed.

(** Opening and closing an operation on one page of the heap. *)
Lemma wp_heap_fetch {C} t s h (i : nat) p l (k : option P -> M S C) (Q : C -> S -> Prop) :
  heap_inv t s h -> h !! i = Some (p, l) -> room 1 s ->
  (forall f s', fetched s s' f p -> on_heap t s' h f p l (next_id h i) (pins (view s)) -> wp (k (Some f)) Q s') ->
  wp (sbind (FetchPage p) k) Q s.
Proof.
  intros [Hr Hun] Hi Hroom HQ. pose proof (lookup_id _ _ _ _ Hi) as Hp. destruct (heap_ids _ _ _ _ Hr Hp) as [Hl Hx].
  apply wp_fetch_some; [by apply (hr_ok _ _ _ Hr)|done|done|by apply Hun|done|].
  intros f s' Hf. apply HQ; [done|]. by eapply on_heap_fetched.
Qed.

Lemma wp_heap_close {C} t s h f p l next (dirty : bool) pins0 (k : bool -> M S C) (Q : C -> S -> Prop) :
  on_heap t s h f p l next pins0 -> p ∈ h.*1 -> dirty = true \/ synced (view s) p ->
  (forall s', heap_inv t s' h -> released s s' pins0 -> wp (k true) Q s') -> wp (sbind (unpin_page f dirty) k) Q s.
Proof.
  intros [Hr Hat Hpin Hun] Hp Hd HQ. eapply wp_unpin_page; [exact Hat|exact Hpin|by apply Hun|done|].
  intros s' Hrel. apply HQ; [|done]. split; [|intros q Hq; rewrite (rl_pins _ _ _ Hrel); by apply Hun].
  eapply heap_rep_evolves; [exact Hr|apply (rl_ok _ _ _ Hrel)|]. apply keeps_evolves, (rl_keeps _ _ _ Hrel).
Qed.

Lemma on_heap_written t s s' h f (i : nat) p l l' pins0 : on_heap t s h f p l (next_id h i) pins0 -> h !! i = Some (p, l) ->
  written s s' p l' (next_id h i) -> on_heap t s' (<[i := (p, l')]> h) f p l' (next_id h i) pins0.
Proof.
  intros [Hr Hat Hpin Hun] Hi [Ho Hat' Hk Hpin' Hb].
  assert (Hr' : heap_rep t s' (<[i := (p, l')]> h)) by (eapply heap_rep_set; [exact Hr|exact Hi|done|by apply keeps_evolves|done]).
  split; [done| |by rewrite Hpin'|].
  - split; [done|apply (keeps_holds _ _ _ Hk); [apply (ap_pin _ _ _ _ _ Hat)|apply (ap_holds _ _ _ _ _ Hat)]| |done].
    rewrite Hpin', Hpin, lookup_insert_eq. by eexists.
  - intros q Hq. rewrite (ids_set h i p l l' Hi) in Hq. by apply Hun.
Qed.

(** *** Operations on one page *)

(** A call of one of the heap's methods. *)
Definition TH_exec t (op : th_op) txn : M S (tp_answer * Transaction) :=
  match op with
  | ThMarkDelete rid => do! ' (b, txn) := TableHeap_MarkDelete t rid txn in sret (AnsBool b, txn)
  | ThUpdate tuple rid => do! ' (b, txn) := TableHeap_UpdateTuple t tuple rid txn in sret (AnsBool b, txn)
  | ThApplyDelete rid => do! _ := TableHeap_ApplyDelete rid in sret (AnsUnit, txn)
  | ThRollbackDelete rid => do! _ := TableHeap_RollbackDelete rid in sret (AnsUnit, txn)
  | ThGet rid => do! ' (r, txn) := TableHeap_GetTuple rid txn in sret (AnsTuple r, txn)
  end.

(** An operation that ended: the heap at rest, at most page [p] changed. *)
Record touched t s s' h p : Prop := {
  to_inv : heap_inv t s' h;
  to_evolves : evolves (Some p) (view s) (view s');
  to_pins : pins (view s') = pins (view s);
  to_budget n : budget (view s) n -> budget (view s') n
}.

Lemma touched_write t s0 s1 s2 s3 h f (i : nat) p l' : heap_inv t s3 h -> fetched s0 s1 f p ->
  written s1 s2 p l' (next_id h i) -> released s2 s3 (pins (view s0)) -> touched t s0 s3 h p.
Proof.
  intros Hi Hf Hw Hr. split; [done| |apply (rl_pins _ _ _ Hr)|].
  - eapply evolves_trans; [apply evolves_none, keeps_evolves, (ft_keeps _ _ _ _ Hf)|].
    eapply evolves_trans; [apply keeps_evolves, (wn_keeps _ _ _ _ _ Hw)|apply evolves_none, keeps_evolves, (rl_keeps _ _ _ Hr)].
  - intros n Hn. by apply (rl_budget _ _ _ Hr), (wn_budget _ _ _ _ _ Hw), (ft_budget _ _ _ _ Hf).
Qed.

Lemma touched_read t s0 s1 s3 h f p : heap_inv t s3 h -> fetched s0 s1 f p -> released s1 s3 (pins (view s0)) -> touched t s0 s3 h p.
Proof.
  intros Hi Hf Hr. split; [done| |apply (rl_pins _ _ _ Hr)|].
  - eapply evolves_trans; apply evolves_none, keeps_evolves; [apply (ft_keeps _ _ _ _ Hf)|apply (rl_keeps _ _ _ Hr)].
  - intros n Hn. by apply (rl_budget _ _ _ Hr), (ft_budget _ _ _ _ Hf).
Qed.

(** Fetch, write through [upd_page], unpin dirty. *)
Lemma wp_heap_update {C} t s h (i : nat) p l l' (g : bytes -> res bytes) (n k : M S C) (Q : C -> S -> Prop) :
  heap_inv t s h -> h !! i = Some (p, l) -> room 1 s ->
  (forall m prev next, page_rep m p prev next l -> exists m', g m = Ok m' /\ page_rep m' p prev next l') ->
  (forall s', touched t s s' (<[i := (p, l')]> h) p -> wp k Q s') ->
  wp (do! r := FetchPage p in
      match r with
      | None => n
      | Some page => do! _ := upd_page page g in do! _ := unpin_page page true in k
      end) Q s.
Proof.
  intros Hinv Hi Hroom Hg HQ. eapply wp_heap_fetch; [exact Hinv|exact Hi|done|]. intros f s1 Hf Hon.
  eapply wp_upd_page; [apply (oh_at _ _ _ _ _ _ _ _ Hon)| |].
  - intros m prev Hr. destruct (Hg m prev _ Hr) as (m' & Hm & Hr'). by exists m', prev.
  - intros s2 Hw. pose proof (on_heap_written _ _ _ _ _ _ _ _ _ _ Hon Hi Hw) as Hon2.
    eapply wp_heap_close; [exact Hon2| |by left|].
    + rewrite (ids_set h i p l l' Hi). by eapply lookup_id.
    + intros s3 Hinv3 Hrel. apply HQ. apply (touched_write _ _ s1 s2 _ _ f i p l'); [done|done| |done].
      by rewrite (next_id_set h i i p l l' Hi).
Qed.

Lemma upd_page_err s f p l next (g : bytes -> res bytes) e : at_page s f p l next ->
  (forall m prev, page_rep m p prev next l -> g m = Err e) -> upd_page f g s = Err e.
Proof.
  intros Hat Hg. destruct (GetData_run _ _ _ _ _ Hat) as (m & prev & Hm & Hr).
  unfold upd_page, sbind, lift. by rewrite Hm, (Hg m prev Hr).
Qed.

Lemma try_page_err {A} s f p l next (g : bytes -> res (option A * bytes)) e : at_page s f p l next ->
  (forall m prev, page_rep m p prev next l -> g m = Err e) -> try_page f g s = Err e.
Proof.
  intros Hat Hg. destruct (GetData_run _ _ _ _ _ Hat) as (m & prev & Hm & Hr).
  unfold try_page, sbind, lift. by rewrite Hm, (Hg m prev Hr).
Qed.

Lemma heap_fetch_run t s h (i : nat) p l : heap_inv t s h -> h !! i = Some (p, l) -> room 1 s ->
  exists f s', FetchPage p s = Ok (Some f, s') /\ at_page s' f p l (next_id h i).
Proof.
  intros [Hr Hun] Hi Hroom. pose proof (lookup_id _ _ _ _ Hi) as Hp. destruct (heap_ids _ _ _ _ Hr Hp) as [Hl Hx].
  destruct (fetch_run s p (hr_ok _ _ _ Hr) Hl Hx (Hun p Hp) Hroom) as (f & s' & Hrun & Hf). exists f, s'. split; [done|].
  apply (oh_at _ _ _ _ _ _ _ _ (on_heap_fetched t s s' h f i p l Hr Hi Hun Hf)).
Qed.

(** The page's step, as [exec_ok] gives it. *)
Lemma exec_step op l p a l' m prev next : abs_exec p op l = Ok (a, l') -> op_ok op -> page_rep m p prev next l ->
  exists m', TP_exec op m = Ok (a, m') /\ page_rep m' p prev next l'.
Proof. intros Ha Hop Hr. pose proof (exec_ok op m p prev next l Hr Hop) as He. by rewrite Ha in He. Qed.

Lemma exec_error op l p e m prev next : abs_exec p op l = Err e -> op_ok op -> page_rep m p prev next l -> TP_exec op m = Err e.
Proof. intros Ha Hop Hr. pose proof (exec_ok op m p prev next l Hr Hop) as He. by rewrite Ha in He. Qed.

Ltac exec_cases E := unfold page_op, abs_exec, assert, rbind in E; repeat match type of E with context [match ?x with _ => _ end] => destruct x eqn:? end; simplify_eq/=.

(** What an operation on a page does when the page's step succeeds. *)
Lemma wp_op t s h (i : nat) p l a l' op txn :
  heap_inv t s h -> h !! i = Some (p, l) -> room 1 s -> page_id_ (th_rid op) = p -> op_ok (page_op op) ->
  abs_exec p (page_op op) l = Ok (a, l') ->
  wp (TH_exec t op txn) (fun r s' => r = th_finish t op a txn /\ touched t s s' (<[i := (p, l')]> h) p) s.
Proof.
  intros Hinv Hi Hroom Hrid Hop Ha.
  pose proof (fun m prev next => exec_step _ _ _ _ _ m prev next Ha Hop) as Hstep.
  destruct op as [rid|tuple rid|rid|rid|rid]; simpl in Hrid, Hop; subst p; apply wp_bind; simpl in Hstep.
  - eapply wp_heap_update; [exact Hinv|exact Hi|done| |].
    + intros m prev next Hr. destruct (Hstep m prev next Hr) as (m' & E & Hr').
      apply rbind_ok in E as ([b m1] & -> & E). simplify_eq/=. by exists m'.
    + intros s' Ht. apply wp_ret. apply wp_ret. done.
  - eapply wp_heap_fetch; [exact Hinv|exact Hi|done|]. intros f s1 Hf Hon.
    assert (Hcase : exists o, a = AnsTuple o /\ (o = None -> l' = l)) by (exec_cases Ha; eexists; by split).
    destruct Hcase as ([old|] & -> & Hl').
    + eapply wp_try_page; [apply (oh_at _ _ _ _ _ _ _ _ Hon)| |].
      { intros m prev Hr. destruct (Hstep m prev _ Hr) as (m' & E & Hr').
        apply rbind_ok in E as ([r m1] & -> & E). simplify_eq/=. by exists m'. }
      intros s2 Hw. pose proof (on_heap_written _ _ _ _ _ _ _ _ _ _ Hon Hi Hw) as Hon2.
      eapply wp_heap_close; [exact Hon2| |by left|]; [rewrite (ids_set h i _ l l' Hi); by eapply lookup_id|].
      intros s3 Hinv3 Hrel. simpl. unfold Txn_GetState.
      assert (Ht : touched t s s3 (<[i := (page_id_ rid, l')]> h) (page_id_ rid)).
      { apply (touched_write _ _ s1 s2 _ _ f i _ l'); [done|done| |done]. by rewrite (next_id_set h i i _ l l' Hi). }
      case_decide; do 2 apply wp_ret; done.
    + specialize (Hl' eq_refl) as ->. rewrite list_insert_id by done.
      eapply wp_try_page_none; [apply (oh_at _ _ _ _ _ _ _ _ Hon)| |].
      { intros m prev Hr. destruct (Hstep m prev _ Hr) as (m' & E & Hr').
        apply rbind_ok in E as ([r m1] & -> & E). simplify_eq/=. by exists m'. }
      eapply wp_heap_close; [exact Hon|by eapply lookup_id|right; apply (ft_synced _ _ _ _ Hf)|].
      intros s3 Hinv3 Hrel. do 2 apply wp_ret. split; [done|]. by eapply touched_read.
  - eapply wp_heap_update; [exact Hinv|exact Hi|done| |].
    + intros m prev next Hr. destruct (Hstep m prev next Hr) as (m' & E & Hr').
      apply rbind_ok in E as (m1 & -> & E). simplify_eq/=. by exists m'.
    + intros s' Ht. do 2 apply wp_ret. split; [|done]. exec_cases Ha; done.
  - eapply wp_heap_update; [exact Hinv|exact Hi|done| |].
    + intros m prev next Hr. destruct (Hstep m prev next Hr) as (m' & E & Hr').
      apply rbind_ok in E as (m1 & -> & E). simplify_eq/=. by exists m'.
    + intros s' Ht. do 2 apply wp_ret. split; [|done]. exec_cases Ha; done.
  - eapply wp_heap_fetch; [exact Hinv|exact Hi|done|]. intros f s1 Hf Hon.
    assert (Hl' : l' = l) by (exec_cases Ha; done). subst l'. rewrite list_insert_id by done.
    assert (Hcase : exists o, a = AnsTuple o) by (exec_cases Ha; by eexists). destruct Hcase as (o & ->).
    eapply wp_on_page; [apply (oh_at _ _ _ _ _ _ _ _ Hon)| |].
    { intros m prev Hr. destruct (Hstep m prev _ Hr) as (m' & E & Hr').
      apply rbind_ok in E as (r & -> & E). simplify_eq/=. done. }
    pose proof (oh_rep _ _ _ _ _ _ _ _ Hon) as Hr1.
    eapply wp_release; [apply (hr_ok _ _ _ Hr1)|apply (oh_pins _ _ _ _ _ _ _ _ Hon)| |right; apply (ft_synced _ _ _ _ Hf)|].
    { apply (oh_rest _ _ _ _ _ _ _ _ Hon). by eapply lookup_id. }
    intros s3 Hrel. do 2 apply wp_ret. split; [done|]. eapply touched_read; [|exact Hf|exact Hrel]. split.
    + eapply heap_rep_evolves; [exact Hr1|apply (rl_ok _ _ _ Hrel)|]. apply keeps_evolves, (rl_keeps _ _ _ Hrel).
    + intros q Hq. rewrite (rl_pins _ _ _ Hrel). by apply (oh_rest _ _ _ _ _ _ _ _ Hon).
Qed.

(** A failed assertion of the page's step stops the operation. *)
Lemma op_error t s h (i : nat) p l e op txn :
  heap_inv t s h -> h !! i = Some (p, l) -> room 1 s -> page_id_ (th_rid op) = p -> op_ok (page_op op) ->
  abs_exec p (page_op op) l = Err e -> TH_exec t op txn s = Err e.
Proof.
  intros Hinv Hi Hroom Hrid Hop Ha. destruct (heap_fetch_run t s h i p l Hinv Hi Hroom) as (f & s1 & Hrun & Hat).
  pose proof (fun m prev next => exec_error _ _ _ _ m prev next Ha Hop) as Hstep.
  destruct op as [rid|tuple rid|rid|rid|rid]; simpl in Hrid, Hop; subst p; simpl in Hstep.
  - exec_cases Ha.
  - simpl. unfold TableHeap_UpdateTuple, sbind. rewrite Hrun. erewrite try_page_err; [done|exact Hat|].
    intros m prev Hr. specialize (Hstep m prev _ Hr). destruct (TP_UpdateTuple _ _ _) as [[]|]; by simplify_eq/=.
  - simpl. unfold TableHeap_ApplyDelete, sbind. rewrite Hrun. erewrite upd_page_err; [done|exact Hat|].
    intros m prev Hr. specialize (Hstep m prev _ Hr). destruct (TP_ApplyDelete _ _) as [|]; by simplify_eq/=.
  - simpl. unfold TableHeap_RollbackDelete, sbind. rewrite Hrun. erewrite upd_page_err; [done|exact Hat|].
    intros m prev Hr. specialize (Hstep m prev _ Hr). destruct (TP_RollbackDelete _ _) as [|]; by simplify_eq/=.
  - exec_cases Ha.
Qed.

(** *** Insertion *)

(** Initialising a new page. *)
Lemma wp_init_page {C} s f p prev m (k : unit -> M S C) (Q : C -> S -> Prop) :
  pool_ok s -> holds (view s) f p -> is_Some (pins (view s) !! p) -> live (view s) p -> logical (view s) p = Some m ->
  Z.of_nat (length m) = PAGE_SIZE -> is_bytes m -> SIZE_TABLE_PAGE_HEADER <= PAGE_SIZE -> is_signed 32 p -> is_signed 32 prev ->
  (forall s', written s s' p [] INVALID_PAGE_ID -> wp (k tt) Q s') ->
  wp (sbind (upd_page f (TP_Init p PAGE_SIZE prev)) k) Q s.
Proof.
  intros Ho Hf Hp Hl Hx Hlen Hm Hsz Hpid Hprev HQ. destruct (Init_ok m p prev Hlen Hm Hsz Hpid Hprev) as (m' & Hi & Hr).
  destruct (SetData_run _ _ _ _ _ _ _ Ho Hf Hp Hl Hr) as (s' & Hset & Hw).
  unfold wp, sbind, upd_page, sbind, lift. rewrite (GetData_spec s f p m Ho Hf Hp Hx), Hi. cbn [rbind]. rewrite Hset. by apply HQ.
Qed.

(** The page list with a new page at its end. *)
Lemma heap_rep_append t s s' h1 p l q : heap_rep t s (h1 ++ [(p, l)]) -> q ∉ (h1 ++ [(p, l)]).*1 -> pool_ok s' ->
  evolves_in {[p; q]} (view s) (view s') -> page_at s' p l q -> page_at s' q [] INVALID_PAGE_ID ->
  heap_rep t s' ((h1 ++ [(p, l)]) ++ [(q, [])]).
Proof.
  intros Hr Hq Hs' Hk Hp Hat. pose proof Hr as [Ho Hf Hn Hpage]. split; [done| | |].
  - rewrite fmap_app, lookup_app_l; [done|]. rewrite length_fmap, length_app. simpl. lia.
  - rewrite fmap_app. apply NoDup_app. split_and!; [done| |simpl; apply NoDup_singleton].
    intros x Hx Hx'. simpl in Hx'. apply list_elem_of_singleton in Hx' as ->. done.
  - intros i p' l' Hi. unfold next_id. destruct (lt_eq_lt_dec i (length h1)) as [[Hlt| ->]|Hgt].
    + assert (Hi1 : h1 !! i = Some (p', l')) by (by rewrite <- app_assoc, lookup_app_l in Hi).
      assert (Hi2 : (h1 ++ [(p, l)]) !! i = Some (p', l')) by (by rewrite lookup_app_l).
      pose proof (Hpage i p' l' Hi2) as (Hl & m & prev & Hx & Hrep). rewrite lookup_app_l by (rewrite length_app; simpl; lia).
      assert (Hne : p' <> p).
      { intros ->. rewrite fmap_app in Hn. apply NoDup_app in Hn as (_ & Hn & _). apply (Hn p); [by eapply lookup_id|set_solver]. }
      assert (Hne' : p' <> q) by (intros ->; apply Hq; by eapply lookup_id).
      split; [by apply (ei_live _ _ _ Hk)|]. exists m, prev. split; [|done]. apply (ei_logical _ _ _ Hk); [set_solver|done].
    + rewrite <- app_assoc in Hi. rewrite lookup_app_r, Nat.sub_diag in Hi by lia. simplify_eq/=.
      rewrite lookup_app_r by (rewrite length_app; simpl; lia).
      rewrite length_app. simpl. by replace (Datatypes.S (length h1) - (length h1 + 1))%nat with O by lia.
    + rewrite lookup_app_r in Hi by (rewrite length_app; simpl; lia). rewrite length_app in Hi. simpl in Hi.
      destruct (i - (length h1 + 1))%nat as [|k] eqn:Ek; [|done]. simplify_eq/=.
      rewrite lookup_ge_None_2; [done|]. rewrite !length_app. simpl. lia.
Qed.

Lemma insert_middle h1 h2 (x y : Z * list slot) : <[length h1 := x]> (h1 ++ y :: h2) = h1 ++ x :: h2.
Proof. rewrite insert_app_r_alt by lia. by rewrite Nat.sub_diag. Qed.

(** The loop on a page with room. *)
Lemma wp_insert_here t s h1 p l h2 f pins0 tuple fuel :
  let h := h1 ++ (p, l) :: h2 in
  on_heap t s h f p l (next_id h (length h1)) pins0 -> is_bytes (tuple_data_ tuple) -> 0 < tuple_size_ tuple ->
  has_room l (tuple_size_ tuple) = true -> (0 < fuel)%nat ->
  wp (InsertTuple_loop fuel f tuple) (fun r s' =>
    let rid := RID_Set p (Z.of_nat (free_slot l)) in
    let l' := put_slot (free_slot l) (Live (tuple_data_ tuple)) l in
    r = Some (f, rid) /\ on_heap t s' (h1 ++ (p, l') :: h2) f p l' (next_id h (length h1)) pins0
    /\ evolves (Some p) (view s) (view s') /\ (forall n, budget (view s) n -> budget (view s') n)) s.
Proof.
  intros h Hon Hb Hsz Hroom Hfuel. destruct fuel as [|fuel]; [lia|]. simpl.
  assert (Hi : h !! length h1 = Some (p, l)) by (unfold h; by rewrite lookup_app_r, Nat.sub_diag).
  eapply wp_try_page; [apply (oh_at _ _ _ _ _ _ _ _ Hon)| |].
  - intros m prev Hr. pose proof (InsertTuple_ok m p prev _ l tuple Hr Hb) as He. rewrite Hroom in He.
    destruct He as (m' & Hm & Hr'); [|by exists m']. intros E. unfold tuple_size_ in Hsz. by rewrite E in Hsz.
  - intros s' Hw. apply wp_ret. pose proof (on_heap_written _ _ _ _ _ _ _ _ _ _ Hon Hi Hw) as Hon'.
    pose proof (insert_middle h1 h2 (p, put_slot (free_slot l) (Live (tuple_data_ tuple)) l) (p, l)) as E. fold h in E.
    rewrite E in Hon'. split_and!; [done|exact Hon'| |apply (wn_budget _ _ _ _ _ Hw)].
    apply keeps_evolves, (wn_keeps _ _ _ _ _ Hw).
Qed.

Lemma room_new (size : Z) : 0 < size -> size + 32 <= PAGE_SIZE -> has_room [] size = true.
Proof.
  intros Hs Hp. unfold has_room. apply Z.leb_le. unfold SIZE_TABLE_PAGE_HEADER, SIZE_TUPLE. simpl. lia.
Qed.

(** The list of pages grows: a new page is linked behind the last one, which is
    given back, and stays pinned. *)
Lemma wp_append_page {C} t s h1 p l f pins0 (nb : nat) (k : P -> M S C) (n : M S C) (Q : C -> S -> Prop) :
  let h := h1 ++ [(p, l)] in
  on_heap t s h f p l INVALID_PAGE_ID pins0 -> (size pins0 + 2 <= frames (view s))%nat -> budget (view s) (1 + nb) ->
  SIZE_TABLE_PAGE_HEADER <= PAGE_SIZE ->
  (forall new fnew s', ~ live (view s) new -> on_heap t s' (h ++ [(new, [])]) fnew new [] INVALID_PAGE_ID pins0 ->
     evolves_in {[p; new]} (view s) (view s') -> budget (view s') nb -> wp (k fnew) Q s') ->
  wp (do! r := NewPage in
      match r with
      | None => n
      | Some (next_page_id, new_page) =>
          do! _ := upd_page f (TP_SetNextPageId next_page_id) in
          do! cur_page_id := on_page f TP_GetTablePageId in
          do! _ := upd_page new_page (TP_Init next_page_id PAGE_SIZE cur_page_id) in
          do! _ := unpin_page f true in
          k new_page
      end) Q s.
Proof.
  intros h [Hr Hat Hpin Hun] Hroom Hbud Hps HQ. pose proof Hat as [Ho Hf Hp [Hlive Hx]].
  assert (Hph : p ∈ h.*1) by (unfold h; rewrite fmap_app; set_solver).
  assert (Hp0 : pins0 !! p = None) by (by apply Hun).
  apply wp_bind. eapply wp_mono; [apply (NewPage_spec s nb Ho Hbud); rewrite Hpin, map_size_insert_None by done; lia|].
  simpl. intros r s1 (new & fnew & -> & Ho1 & Hsg & Hnl & Hl1 & Hpn & Hf1 & Hz & Hk1 & Hpin1 & Hb1).
  assert (Hnew : new ∉ h.*1) by (intros Hin; apply Hnl; by apply (heap_ids t s h)).
  assert (Hnp : new <> p) by (by intros ->).
  assert (Hat1 : at_page s1 f p l INVALID_PAGE_ID).
  { split; [done|by apply (keeps_holds _ _ _ Hk1)|rewrite Hpin1, lookup_insert_ne by done; by rewrite Hpin, lookup_insert_eq; eexists|].
    eapply page_at_keeps; [by apply keeps_evolves| |split; [exact Hlive|exact Hx]]. by intros [= ->]. }
  eapply wp_upd_page; [exact Hat1| |].
  { intros m prev Hm. destruct (SetNext_ok m p prev _ l new Hm Hsg) as (m' & Hm' & Hr'). by exists m', prev. }
  intros s2 [Ho2 Hat2 Hk2 Hpin2 Hb2].
  assert (Hp2 : is_Some (pins (view s2) !! p)) by (rewrite Hpin2; apply (ap_pin _ _ _ _ _ Hat1)).
  assert (Hap2 : at_page s2 f p l new).
  { split; [done|apply (keeps_holds _ _ _ Hk2); [by rewrite <- Hpin2|apply (ap_holds _ _ _ _ _ Hat1)]|done|done]. }
  eapply wp_on_page; [exact Hap2|intros; by eapply page_id_ok|].
  destruct page_zeroed as [Hzl Hzb].
  assert (Hn1 : is_Some (pins (view s1) !! new)) by (rewrite Hpin1, lookup_insert_eq; by eexists).
  assert (Hn2 : is_Some (pins (view s2) !! new)) by (by rewrite Hpin2).
  assert (Hpsg : is_signed 32 p).
  { pose proof (heap_ids_range t s h p Hr Hph). unfold is_signed. simpl. lia. }
  eapply (wp_init_page s2 fnew new p zero_data); [done|by apply (keeps_holds _ _ _ Hk2)|done|by apply (keeps_live _ _ _ Hk2)| |done..|].
  { apply (keeps_logical _ _ _ Hk2); [by intros [= ->]|done]. }
  intros s3 [Ho3 Hat3 Hk3 Hpin3 Hb3].
  assert (Hev : evolves_in {[p; new]} (view s) (view s3)).
  { eapply evolves_in_trans; [|eapply evolves_in_trans]; eapply keeps_evolves_in; [|exact Hk1| |exact Hk2| |exact Hk3];
      intros q [= <-]; set_solver. }
  assert (Hap3 : at_page s3 f p l new).
  { split; [done|by apply (keeps_holds _ _ _ Hk3); [|apply (ap_holds _ _ _ _ _ Hap2)]|by rewrite Hpin3|].
    eapply page_at_keeps; [by apply keeps_evolves|by intros [= ->]|exact Hat2]. }
  assert (Hr3 : heap_rep t s3 (h ++ [(new, [])])).
  { unfold h in *. eapply heap_rep_append; [exact Hr|done|done|exact Hev|apply (ap_at _ _ _ _ _ Hap3)|done]. }
  eapply (wp_unpin_page s3 f p l new true (<[new := 1]> pins0)); [exact Hap3| | |by left|].
  { rewrite Hpin3, Hpin2, Hpin1, Hpin. by rewrite insert_insert_ne. }
  { by rewrite lookup_insert_ne. }
  intros s4 [Ho4 Hk4 Hpin4 Hb4]. apply (HQ new fnew); [done|..].
  - pose proof (heap_rep_evolves _ _ s4 _ Hr3 Ho4 (keeps_evolves _ _ _ Hk4)) as Hr4. split; [exact Hr4| |done|].
    + split; [done| |rewrite Hpin4, lookup_insert_eq; by eexists|].
      * apply (keeps_holds _ _ _ Hk4); [by rewrite Hpin3|]. apply (keeps_holds _ _ _ Hk3); [done|]. by apply (keeps_holds _ _ _ Hk2).
      * eapply page_at_keeps; [by apply keeps_evolves|done|exact Hat3].
    + intros q. rewrite fmap_app. intros [Hq|Hq]%elem_of_app; [by apply Hun|].
      simpl in Hq. apply list_elem_of_singleton in Hq as ->. rewrite <- Hpn, Hpin, lookup_insert_ne by done. done.
  - eapply evolves_in_trans; [exact Hev|]. eapply keeps_evolves_in; [|exact Hk4]. done.
  - by apply Hb4, Hb3, Hb2.
Qed.

Lemma next_id_last h x : next_id (h ++ [x]) (length h) = INVALID_PAGE_ID.
Proof. unfold next_id. rewrite lookup_ge_None_2; [done|]. rewrite length_app. simpl. lia. Qed.

Lemma next_id_middle h1 p l q l' h2 : next_id (h1 ++ (p, l) :: (q, l') :: h2) (length h1) = q.
Proof.
  unfold next_id. rewrite lookup_app_r by lia. by replace (Datatypes.S (length h1) - length h1)%nat with 1%nat by lia.
Qed.

(** What the insertion leaves behind. *)
Definition inserted t s h1 h2 pins0 tuple (nb : nat) (r : option (P * RID)) s' : Prop :=
  exists new f rid h2' p l next, r = Some (f, rid) /\ heap_insert new tuple h2 = (rid, h2') /\ p ∈ (h1 ++ h2').*1
    /\ on_heap t s' (h1 ++ h2') f p l next pins0 /\ evolves_in (list_to_set h2'.*1) (view s) (view s')
    /\ (forall q, q ∈ h2'.*1 -> q ∈ h2.*1 \/ ~ live (view s) q)
    /\ exists m : nat, (nb <= m)%nat /\ budget (view s') m.

Lemma inserted_here t s s' h1 p l h2 f next pins0 tuple (nb : nat) :
  let rid := RID_Set p (Z.of_nat (free_slot l)) in
  let l' := put_slot (free_slot l) (Live (tuple_data_ tuple)) l in
  has_room l (tuple_size_ tuple) = true -> on_heap t s' (h1 ++ (p, l') :: h2) f p l' next pins0 ->
  evolves (Some p) (view s) (view s') -> budget (view s') (1 + nb) -> inserted t s h1 ((p, l) :: h2) pins0 tuple nb (Some (f, rid)) s'.
Proof.
  intros rid l' Hroom Hon [E1 E2 E3 E4] Hb. exists 0, f, rid, ((p, l') :: h2), p, l', next.
  split_and!; [done|simpl; by rewrite Hroom|rewrite fmap_app; set_solver|done| |by left|exists (1 + nb)%nat; split; [lia|done]]. simpl.
  split; [|done|done|]; intros q; intros; [apply E1|apply E4]; first [done|intros [= ->]; set_solver].
Qed.

Lemma wp_insert_loop t fuel h1 p l h2 s f pins0 tuple (nb : nat) :
  let h := h1 ++ (p, l) :: h2 in
  on_heap t s h f p l (next_id h (length h1)) pins0 -> synced (view s) p ->
  (size pins0 + 2 <= frames (view s))%nat -> budget (view s) (1 + nb) ->
  is_bytes (tuple_data_ tuple) -> 0 < tuple_size_ tuple -> tuple_size_ tuple + 32 <= PAGE_SIZE ->
  (length h2 + 1 < fuel)%nat ->
  wp (InsertTuple_loop fuel f tuple) (inserted t s h1 ((p, l) :: h2) pins0 tuple nb) s.
Proof.
  revert h1 p l h2 s f. induction fuel as [|fuel IH]; intros h1 p l h2 s f h Hon Hsy Hroom Hbud Hb Hsz Hps Hfuel; [lia|].
  destruct (has_room l (tuple_size_ tuple)) eqn:Hr.
  { eapply wp_mono; [apply (wp_insert_here t s h1 p l h2 f pins0 tuple); [exact Hon|done|done|done|lia]|].
    simpl. intros r s' (-> & Hon' & Hk & Hbk). eapply inserted_here; [done|exact Hon'|done|by apply Hbk]. }
  assert (Hi : h !! length h1 = Some (p, l)) by (unfold h; by rewrite lookup_app_r, Nat.sub_diag).
  pose proof (lookup_id _ _ _ _ Hi) as Hph. cbn [InsertTuple_loop].
  eapply wp_try_page_none; [apply (oh_at _ _ _ _ _ _ _ _ Hon)| |].
  { intros m prev Hm. pose proof (InsertTuple_ok m p prev _ l tuple Hm Hb) as He. rewrite Hr in He.
    exists m. apply He. intros E. unfold tuple_size_ in Hsz. by rewrite E in Hsz. }
  eapply wp_on_page; [apply (oh_at _ _ _ _ _ _ _ _ Hon)|intros; by eapply next_page_ok|].
  destruct h2 as [|[q l2] h2].
  - assert (En : next_id h (length h1) = INVALID_PAGE_ID) by apply next_id_last. rewrite En in *.
    rewrite Z.eqb_refl. simpl negb. cbv iota.
    eapply wp_append_page; [exact Hon|done|done|unfold SIZE_TABLE_PAGE_HEADER; lia|].
    intros new fnew s1 Hnl Hon1 Hk1 Hb1. pose proof (next_id_last (h1 ++ [(p, l)]) (new, [])) as Hlast.
    eapply wp_mono; [apply (wp_insert_here t s1 (h1 ++ [(p, l)]) new [] [] fnew pins0 tuple); [by rewrite Hlast|done|done|by apply room_new|simpl in Hfuel; lia]|].
    simpl. intros r s' (-> & Hon' & Hk & Hbk). eexists new, fnew, _, _, new, _, _. split; [done|]. simpl. rewrite Hr.
    split; [done|]. rewrite <- app_assoc in Hon'. simpl in Hon'. split; [rewrite fmap_app; set_solver|]. split; [exact Hon'|].
    split; [|split; [|exists nb; split; [done|by apply Hbk]]].
    2: { intros q Hq. rewrite !fmap_cons in Hq. apply elem_of_cons in Hq as [->|Hq]; [left; set_solver|]. right.
         simpl in Hq. by apply list_elem_of_singleton in Hq as ->. }
    eapply evolves_in_trans with (v2 := view s1).
    + destruct Hk1 as [A1 A2 A3 A4]. split; [|done|done|]; intros x; intros; [apply A1|apply A4]; try done; set_solver.
    + destruct Hk as [A1 A2 A3 A4]. split; [|done|done|]; intros x; intros; [apply A1|apply A4]; try done; intros [= ->]; set_solver.
  - assert (En : next_id h (length h1) = q) by apply next_id_middle. rewrite En in *.
    assert (Hq : h !! Datatypes.S (length h1) = Some (q, l2)).
    { unfold h. rewrite lookup_app_r by lia. by replace (Datatypes.S (length h1) - length h1)%nat with 1%nat by lia. }
    pose proof (heap_ids_range t s h q (oh_rep _ _ _ _ _ _ _ _ Hon) (lookup_id _ _ _ _ Hq)) as Hqr.
    pose proof INVALID_PAGE_ID_neg as Hinv. rewrite (proj2 (Z.eqb_neq q _)) by lia. simpl negb. cbv iota.
    eapply wp_heap_close; [exact Hon|done|by right|]. intros s1 Hinv1 [Ho1 Hk1 Hpin1 Hb1]. apply wp_bind.
    eapply wp_heap_fetch; [exact Hinv1|exact Hq|unfold room; rewrite Hpin1, (keeps_frames _ _ _ Hk1); lia|].
    intros f2 s2 Hf2 Hon2. apply wp_ret.
    assert (Eh : h = (h1 ++ [(p, l)]) ++ (q, l2) :: h2) by (unfold h; by rewrite <- app_assoc).
    rewrite Hpin1, Eh in Hon2.
    replace (Datatypes.S (length h1)) with (length (h1 ++ [(p, l)])) in Hon2 by (rewrite length_app; simpl; lia).
    eapply wp_mono; [apply (IH (h1 ++ [(p, l)]) q l2 h2 s2 f2); [exact Hon2|apply (ft_synced _ _ _ _ Hf2)| | |done|done|done|simpl in Hfuel; lia]|].
    { rewrite (keeps_frames _ _ _ (ft_keeps _ _ _ _ Hf2)), (keeps_frames _ _ _ Hk1). done. }
    { by apply (ft_budget _ _ _ _ Hf2), Hb1. }
    intros r s' (new & f' & rid & h2' & p' & l' & next & -> & Hins & Hp' & Hon' & Hk' & Hfresh & Hbk').
    exists new, f', rid, ((p, l) :: h2'), p', l', next. rewrite <- app_assoc in Hp', Hon'. simpl in Hp', Hon'.
    rewrite heap_insert_full, Hins by done. split_and!; [done|done|done|done| | |done].
    2: { intros x Hx. rewrite !fmap_cons in Hx |- *. apply elem_of_cons in Hx as [->|Hx]; [by left; left|].
         destruct (Hfresh x Hx) as [Hq'|Hnl]; [left; by right|right]. intros Hl. apply Hnl.
         apply (keeps_live _ _ _ (ft_keeps _ _ _ _ Hf2)). by apply (keeps_live _ _ _ Hk1). }
    eapply evolves_in_trans; [|eapply evolves_in_trans]; [eapply keeps_evolves_in; [|exact Hk1]; done|
      eapply keeps_evolves_in; [|apply (ft_keeps _ _ _ _ Hf2)]; done|].
    destruct Hk' as [A1 A2 A3 A4]. split; [|done|done|]; intros x; intros; [apply A1|apply A4]; try done; set_solver.
Qed.

(** What [InsertTuple] of a tuple that fits a page does. *)
Definition insert_post t s h tuple txn (nb : nat) (r : option RID * Transaction) s' : Prop :=
  exists new rid h', heap_insert new tuple h = (rid, h')
    /\ r = (Some rid, Txn_AppendTableWriteRecord (MkTableWriteRecord rid WInsert Tuple_default (first_page_id_ t)) txn)
    /\ heap_inv t s' h' /\ pins (view s') = pins (view s) /\ evolves_in (list_to_set h'.*1) (view s) (view s')
    /\ (forall q, q ∈ h'.*1 -> q ∈ h.*1 \/ ~ live (view s) q)
    /\ exists m : nat, (nb <= m)%nat /\ budget (view s') m.

Lemma wp_insert t s h tuple txn fuel (nb : nat) :
  heap_inv t s h -> room 2 s -> budget (view s) (1 + nb) -> is_bytes (tuple_data_ tuple) -> 0 < tuple_size_ tuple < 2 ^ 32 - 32 ->
  tuple_size_ tuple + 32 <= PAGE_SIZE -> (length h < fuel)%nat ->
  wp (TableHeap_InsertTuple fuel t tuple txn) (insert_post t s h tuple txn nb) s.
Proof.
  intros Hinv Hroom Hbud Hb Hsz Hfit Hfuel.
  assert (Hu : unsigned 32 (tuple_size_ tuple + 32) = tuple_size_ tuple + 32) by (apply unsigned_id; unfold is_unsigned; lia).
  unfold TableHeap_InsertTuple. rewrite Hu, (proj2 (Z.ltb_ge _ _) Hfit).
    pose proof Hinv as [[_ Hfirst _ _] _]. destruct h as [|[p l] h]; [done|]. injection Hfirst as Hp. rewrite <- Hp.
    eapply (wp_heap_fetch t s ((p, l) :: h) 0 p l); [exact Hinv|done|unfold room in *; lia|]. intros f s1 Hf Hon.
    apply wp_bind. eapply wp_mono.
    { apply (wp_insert_loop t fuel [] p l h s1 f (pins (view s)) tuple nb); [exact Hon|apply (ft_synced _ _ _ _ Hf)| | |done|lia|lia|].
      - rewrite (keeps_frames _ _ _ (ft_keeps _ _ _ _ Hf)). exact Hroom.
      - by apply (ft_budget _ _ _ _ Hf).
      - simpl in Hfuel. lia. }
    intros r s2 (new & f' & rid & h' & p' & l' & next & -> & Hins & Hp' & Hon' & Hk' & Hfresh & m & Hm & Hbm).
    eapply wp_heap_close; [exact Hon'|done|by left|]. intros s3 Hinv3 Hrel. apply wp_ret. exists new, rid, h'.
    split_and!; [done|by rewrite Hp|done|apply (rl_pins _ _ _ Hrel)| | |exists m; split; [done|by apply (rl_budget _ _ _ Hrel)]].
    2: { intros q Hq. destruct (Hfresh q Hq) as [Hq'|Hnl]; [by left|right]. intros Hl. apply Hnl.
         by apply (keeps_live _ _ _ (ft_keeps _ _ _ _ Hf)). }
    eapply evolves_in_trans; [|eapply evolves_in_trans]; [eapply keeps_evolves_in; [|apply (ft_keeps _ _ _ _ Hf)]; done|exact Hk'|].
    eapply keeps_evolves_in; [|apply (rl_keeps _ _ _ Hrel)]. done.
Qed.

(** The constructor. *)
Lemma wp_create s (n : nat) :
  pool_ok s -> budget (view s) (1 + n) -> room 1 s -> SIZE_TABLE_PAGE_HEADER <= PAGE_SIZE ->
  wp TableHeap_create (fun t s' => exists p, heap_inv t s' [(p, [])] /\ pins (view s') = pins (view s)
    /\ evolves_in {[p]} (view s) (view s') /\ ~ live (view s) p /\ budget (view s') n) s.
Proof.
  intros Hs Hb Hr Hp. unfold room in Hr.
  apply wp_bind. eapply wp_mono; [apply (NewPage_spec s n Hs Hb); lia|].
  simpl. intros r s1 (new & f & -> & Ho1 & Hsg & Hnl & Hl1 & Hpn & Hf1 & Hz & Hk1 & Hpin1 & Hb1).
  destruct page_zeroed as [Hzl Hzb].
  eapply (wp_init_page s1 f new INVALID_LSN zero_data); [done|done|by rewrite Hpin1, lookup_insert_eq; eexists|done..|exact INVALID_LSN_int|].
  intros s2 [Ho2 Hat2 Hk2 Hpin2 Hb2].
  eapply (wp_release s2 new true (pins (view s))); [done|by rewrite Hpin2|done|by left|].
  intros s3 [Ho3 Hk3 Hpin3 Hb3]. apply wp_ret. exists new. split_and!; [|done| |done|by apply Hb3, Hb2].
  - split; [split; [done|done|apply NoDup_singleton|]|].
    + intros i p l Hi. destruct i as [|i]; simplify_eq/=. eapply page_at_keeps; [by apply keeps_evolves|done|exact Hat2].
    + intros q Hq. simpl in Hq. apply list_elem_of_singleton in Hq as ->. by rewrite Hpin3.
  - eapply evolves_in_trans; [|eapply evolves_in_trans]; eapply keeps_evolves_in; [|exact Hk1| |exact Hk2| |exact Hk3];
      intros q [= <-]; set_solver.
Qed.

Lemma create_ok s (n : nat) :
  pool_ok s -> budget (view s) (1 + n) -> room 1 s -> SIZE_TABLE_PAGE_HEADER <= PAGE_SIZE ->
  exists t s' p, TableHeap_create s = Ok (t, s') /\ heap_inv t s' [(p, [])] /\ pins (view s') = pins (view s)
    /\ frames (view s') = frames (view s) /\ budget (view s') n.
Proof.
  intros Hs Hb Hr Hp. pose proof (wp_create s n Hs Hb Hr Hp) as Hw.
  apply wp_run in Hw as (t & s' & Hrun & p & Hi & Hpins & Hev & _ & Hb'). exists t, s', p. split_and!; try done. apply Hev.
Qed.
End Correct.
