(* ===== verification/TableScan.v ===== *)
(** Scanning a table heap: [Begin] and [++] of the iterator visit exactly the
    tuples of the heap, in page order and slot order, and the scan ends. *)

From S2P Require Import Prelude Bytes Rid BufferPoolManager TablePage TablePageCorrect Transaction TableHeap TableHeapCorrect.

(** ** The tuples of a page and the page's own search *)

Section Pages.
Context `{Config}.
Implicit Types (l : list slot) (p : Z).

(** The record id a scan with these tuples left stands at. *)
Definition rid_of (ts : list Tuple) : RID := match ts with [] => MkRID INVALID_PAGE_ID 0 | x :: _ => tuple_rid_ x end.

Lemma page_tuples_find p k l :
  match page_tuples p k l with
  | [] => list_find (fun s => is_live s = true) l = None
  | x :: ts => exists (j : nat) d, l !! j = Some (Live d) /\ list_find (fun s => is_live s = true) l = Some (j, Live d)
      /\ x = MkTuple (RID_Set p (Z.of_nat (k + j))) d /\ ts = page_tuples p (S (k + j)) (drop (S j) l)
  end.
Proof.
  revert k. induction l as [|s l IH]; intros k; [done|]. destruct s as [|d|d]; simpl.
  2:{ exists O, d. rewrite Nat.add_0_r. simpl. by rewrite drop_0. }
  all: specialize (IH (S k)); destruct (page_tuples p (S k) l) as [|x ts]; [by rewrite IH|].
  all: destruct IH as (j & d' & Hj & Hf & -> & ->); exists (S j), d'; rewrite Hf; simpl.
  all: by rewrite <- !plus_n_Sm.
Qed.

Lemma live_from_tuples p (i : nat) l :
  match page_tuples p i (drop i l) with
  | [] => live_from p i l = (false, MkRID INVALID_PAGE_ID 0)
  | x :: ts => exists (j : nat) d, l !! j = Some (Live d) /\ live_from p i l = (true, tuple_rid_ x)
      /\ x = MkTuple (RID_Set p (Z.of_nat j)) d /\ ts = page_tuples p (S j) (drop (S j) l)
  end.
Proof.
  pose proof (page_tuples_find p i (drop i l)) as Hf. unfold live_from.
  destruct (page_tuples p i (drop i l)) as [|x ts]; [by rewrite Hf|]. destruct Hf as (j & d & Hj & -> & -> & ->).
  exists (i + j)%nat, d. rewrite lookup_drop in Hj. split_and!; [done|done|done|]. rewrite drop_drop. do 2 f_equal. lia.
Qed.

Lemma slots_bound m p prev next l : page_rep m p prev next l -> Z.of_nat (length l) < 2 ^ 31.
Proof.
  intros (fsp & cells & Hl & ->). rewrite length_fmap. pose proof (lay_room _ _ _ _ _ _ Hl) as Hr. pose proof PAGE_SIZE_int.
  unfold SIZE_TABLE_PAGE_HEADER, SIZE_TUPLE in Hr. lia.
Qed.

Lemma at_end_true it : tuple_rid_ (tuple_ it) = MkRID INVALID_PAGE_ID 0 -> TableIterator_eqb it TableHeap_End = true.
Proof. intros E. unfold TableIterator_eqb. rewrite E. apply Z.eqb_refl. Qed.

Lemma at_end_false it p k : tuple_rid_ (tuple_ it) = RID_Set p k -> 0 <= p < 2 ^ 31 -> 0 <= k < 2 ^ 32 ->
  TableIterator_eqb it TableHeap_End = false.
Proof.
  intros E Hp Hk. unfold TableIterator_eqb. rewrite E. apply Z.eqb_neq. pose proof INVALID_PAGE_ID_neg as Hi. simpl.
  rewrite !RID_Get_sum; unfold RID_wf, is_signed, is_unsigned; simpl in *; lia.
Qed.
End Pages.

(** ** The iterator over the heap *)

Section Scan.
Context `{Config} {S P : Type} `{!BufferPoolManager S P bytes} `{!BufferPoolSpec S P bytes}
  `{!TablePagesOk (good_data (S := S) (P := P)) (zero_data (S := S) (P := P))}.
Implicit Types (t : TableHeap) (s : S) (f : P) (h : heap) (l : list slot) (p : Z) (txn : Transaction).

(** [x] is a tuple of the heap, the tuples after it are [ts]; [i] is its page. *)
Definition at_tuple h (i : nat) (x : Tuple) (ts : list Tuple) : Prop :=
  exists p l (j : nat) d, h !! i = Some (p, l) /\ l !! j = Some (Live d) /\ x = MkTuple (RID_Set p (Z.of_nat j)) d
    /\ ts = page_tuples p (Datatypes.S j) (drop (Datatypes.S j) l) ++ heap_tuples (drop (Datatypes.S i) h).

(** The iterator has the tuples [ts] left. *)
Definition cursor h (ts : list Tuple) (it : TableIterator) : Prop :=
  match ts with
  | [] => tuple_rid_ (tuple_ it) = MkRID INVALID_PAGE_ID 0
  | x :: ts => tuple_ it = x /\ exists i, at_tuple h i x ts
  end.

(** A step that reads: the heap is as before. *)
Record unchanged t s s' h : Prop := {
  un_inv : heap_inv t s' h;
  un_evolves : evolves None (view s) (view s');
  un_pins : pins (view s') = pins (view s);
  un_budget n : budget (view s) n -> budget (view s') n
}.

Lemma unchanged_trans t s1 s2 s3 h : unchanged t s1 s2 h -> unchanged t s2 s3 h -> unchanged t s1 s3 h.
Proof.
  intros [A1 A2 A3 A4] [B1 B2 B3 B4]. split; [done|by eapply evolves_trans|congruence|]. intros n Hn. by apply B4, A4.
Qed.

Lemma heap_tuples_cons p l h : heap_tuples ((p, l) :: h) = page_tuples p 0 l ++ heap_tuples h.
Proof. done. Qed.

Lemma drop_page h (i : nat) p l : h !! i = Some (p, l) -> drop i h = (p, l) :: drop (Datatypes.S i) h.
Proof. intros Hi. by rewrite (drop_S _ _ _ Hi). Qed.

(** The first tuple of a page, if it has one. *)
Lemma first_at h (i : nat) p l : h !! i = Some (p, l) ->
  match page_tuples p 0 l with
  | [] => live_from p 0 l = (false, MkRID INVALID_PAGE_ID 0) /\ heap_tuples (drop i h) = heap_tuples (drop (Datatypes.S i) h)
  | x :: ts => live_from p 0 l = (true, tuple_rid_ x) /\ at_tuple h i x (ts ++ heap_tuples (drop (Datatypes.S i) h))
      /\ heap_tuples (drop i h) = x :: ts ++ heap_tuples (drop (Datatypes.S i) h)
  end.
Proof.
  intros Hi. pose proof (live_from_tuples p 0 l) as Hl. rewrite drop_0 in Hl. rewrite (drop_page h i p l Hi), heap_tuples_cons.
  destruct (page_tuples p 0 l) as [|x ts]; [done|]. destruct Hl as (j & d & Hj & -> & -> & ->).
  split_and!; [done| |done]. by exists p, l, j, d.
Qed.

(** *** [Begin] *)

Lemma wp_on_page_read {A C} s f m (g : bytes -> res A) a (k : A -> M S C) (Q : C -> S -> Prop) :
  GetData f s = Ok (m, s) -> g m = Ok a -> wp (k a) Q s -> wp (sbind (on_page f g) k) Q s.
Proof. intros Hm Hg HQ. unfold wp, sbind, on_page, sbind, lift. by rewrite Hm, Hg. Qed.

Lemma wp_begin_loop t s h (i fuel : nat) :
  heap_inv t s h -> room 1 s -> (i <= length h)%nat -> (length h - i < fuel)%nat ->
  wp (Begin_loop fuel (from_option fst INVALID_PAGE_ID (h !! i)) (MkRID INVALID_PAGE_ID 0)) (fun r s' =>
    r = rid_of (heap_tuples (drop i h)) /\ unchanged t s s' h
    /\ match heap_tuples (drop i h) with [] => True | x :: ts => exists i', at_tuple h i' x ts end) s.
Proof.
  revert s i. induction fuel as [|fuel IH]; intros s i Hinv Hroom Hi Hfuel; [lia|]. cbn [Begin_loop].
  destruct (h !! i) as [[p l]|] eqn:Hp; simpl.
  2:{ rewrite Z.eqb_refl. apply wp_ret. apply lookup_ge_None_1 in Hp. rewrite (drop_ge h i Hp).
      split_and!; [done| |done]. split; [done|apply evolves_refl|done|done]. }
  pose proof Hinv as [Hr Hun]. pose proof (heap_ids_range t s h p Hr (lookup_id _ _ _ _ Hp)) as Hrange.
  pose proof INVALID_PAGE_ID_neg. rewrite (proj2 (Z.eqb_neq p _)) by lia.
  apply wp_bind. eapply wp_heap_fetch; [exact Hinv|exact Hp|done|]. intros f s1 Hf Hon. apply wp_ret.
  pose proof (oh_at _ _ _ _ _ _ _ _ Hon) as [Ho1 Hh1 Hp1 (Hl1 & m & prev & Hx1 & Hm)].
  assert (Hfirst : TP_GetFirstTupleRid m = Ok (live_from p 0 l)).
  { destruct Hm as (fsp & cells & Hlay & ->). by eapply First_ok. }
  eapply wp_on_page_read; [by apply (GetData_spec s1 f p m)|exact Hfirst|].
  pose proof (first_at h i p l Hp) as Hat. destruct (live_from p 0 l) as [found rid].
  eapply (wp_unpin_read s1 p f m false); [done|by rewrite (ft_pins _ _ _ _ Hf), lookup_insert_eq|right; apply (ft_synced _ _ _ _ Hf)|done|done|].
  intros s2 Ho2 Hk2 Hpin2 Hb2 Hread.
  assert (Hu : unchanged t s s2 h).
  { split.
    - split; [by eapply heap_rep_evolves; [apply (oh_rep _ _ _ _ _ _ _ _ Hon)|done|apply keeps_evolves]|].
      intros q Hq. rewrite Hpin2, (ft_pins _ _ _ _ Hf), delete_insert_id by (apply Hun; by eapply lookup_id). by apply Hun.
    - eapply evolves_trans; apply keeps_evolves; [apply (ft_keeps _ _ _ _ Hf)|done].
    - rewrite Hpin2, (ft_pins _ _ _ _ Hf), delete_insert_id; [done|]. apply Hun. by eapply lookup_id.
    - intros n Hn. by apply Hb2, (ft_budget _ _ _ _ Hf). }
  destruct (page_tuples p 0 l) as [|x ts].
  - destruct Hat as [[= -> ->] Heq]. rewrite Heq.
    eapply wp_on_page_read; [exact Hread|by eapply next_page_ok|].
    apply lookup_lt_Some in Hp. fold (next_id h i). unfold next_id.
    eapply wp_mono; [apply (IH s2 (Datatypes.S i)); [apply (un_inv _ _ _ _ Hu)| |lia|lia]|].
    { unfold room in *. rewrite (un_pins _ _ _ _ Hu), (ev_frames _ _ _ (un_evolves _ _ _ _ Hu)). done. }
    intros r s' (-> & Hu' & Hcase). split_and!; [done|by eapply unchanged_trans|done].
  - destruct Hat as ([= -> ->] & Hat & Heq). rewrite Heq. apply wp_ret. split_and!; [done|done|by exists i].
Qed.

(** *** Reading a tuple *)

Lemma get_page m p prev next l (j : nat) d : page_rep m p prev next l -> l !! j = Some (Live d) ->
  TP_GetTuple (RID_Set p (Z.of_nat j)) m = Ok (Some (MkTuple (RID_Set p (Z.of_nat j)) d)).
Proof.
  intros (fsp & cells & Hlay & ->) Hj. rewrite (GetTuple_ok m p prev next fsp cells Hlay) by (simpl; lia).
  unfold slot_at. simpl. by rewrite Nat2Z.id, Hj.
Qed.

Lemma wp_get_tuple t s h (i j : nat) p l d txn :
  heap_inv t s h -> room 1 s -> h !! i = Some (p, l) -> l !! j = Some (Live d) ->
  wp (TableHeap_GetTuple (RID_Set p (Z.of_nat j)) txn) (fun r s' =>
    r = (Some (MkTuple (RID_Set p (Z.of_nat j)) d), txn) /\ unchanged t s s' h) s.
Proof.
  intros Hinv Hroom Hi Hj. unfold TableHeap_GetTuple. cbn [page_id_ RID_Set].
  eapply wp_heap_fetch; [exact Hinv|exact Hi|done|]. intros f s1 Hf Hon.
  eapply wp_on_page; [apply (oh_at _ _ _ _ _ _ _ _ Hon)|intros; by eapply get_page|].
  pose proof (oh_rep _ _ _ _ _ _ _ _ Hon) as Hr1.
  eapply wp_release; [apply (hr_ok _ _ _ Hr1)|apply (oh_pins _ _ _ _ _ _ _ _ Hon)| |right; apply (ft_synced _ _ _ _ Hf)|].
  { apply (oh_rest _ _ _ _ _ _ _ _ Hon). by eapply lookup_id. }
  intros s2 [Ho2 Hk2 Hpin2 Hb2]. apply wp_ret. split; [done|]. split; [|..|done|].
  - split; [by eapply heap_rep_evolves; [exact Hr1|done|apply keeps_evolves]|]. intros q Hq. rewrite Hpin2.
    by apply (oh_rest _ _ _ _ _ _ _ _ Hon).
  - eapply evolves_trans; apply keeps_evolves; [apply (ft_keeps _ _ _ _ Hf)|done].
  - intros n Hn. by apply Hb2, (ft_budget _ _ _ _ Hf).
Qed.

(** The same while the page is pinned. *)
Lemma wp_get_tuple_pinned t s h (i j : nat) f p l d pins0 txn :
  on_heap t s h f p l (next_id h i) pins0 -> h !! i = Some (p, l) -> l !! j = Some (Live d) ->
  wp (TableHeap_GetTuple (RID_Set p (Z.of_nat j)) txn) (fun r s' =>
    r = (Some (MkTuple (RID_Set p (Z.of_nat j)) d), txn) /\ on_heap t s' h f p l (next_id h i) pins0
    /\ evolves None (view s) (view s') /\ (forall n, budget (view s) n -> budget (view s') n)) s.
Proof.
  intros Hon Hi Hj. pose proof Hon as [Hr Hat Hpin Hun]. pose proof Hat as [Ho Hh Hp Hpage].
  destruct (heap_ids t s h p Hr (lookup_id _ _ _ _ Hi)) as [Hl Hx].
  unfold TableHeap_GetTuple. cbn [page_id_ RID_Set].
  apply (wp_fetch_again s p 1); [done|done|done|by rewrite Hpin, lookup_insert_eq|done|].
  intros f1 s1 Ho1 Hh1 Hk1 Hpin1 Hb1. rewrite Hpin, insert_insert_eq in Hpin1.
  assert (Hr1 : heap_rep t s1 h) by (by eapply heap_rep_evolves; [exact Hr|done|apply keeps_evolves]).
  assert (Hat1 : at_page s1 f1 p l (next_id h i)).
  { split; [done|done|rewrite Hpin1, lookup_insert_eq; by eexists|by apply (hr_page _ _ _ Hr1)]. }
  eapply wp_on_page; [exact Hat1|intros; by eapply get_page|].
  apply (wp_unpin_again s1 p 2); [done|by rewrite Hpin1, lookup_insert_eq|done|].
  intros s2 Ho2 Hk2 Hpin2 Hb2. rewrite Hpin1, insert_insert_eq in Hpin2. apply wp_ret.
  assert (Hr2 : heap_rep t s2 h) by (by eapply heap_rep_evolves; [exact Hr1|done|apply keeps_evolves]).
  split_and!; [done| |eapply evolves_trans; by apply keeps_evolves|by intros n Hn; apply Hb2, Hb1].
  split; [done| |done|done]. split; [done| |rewrite Hpin2, lookup_insert_eq; by eexists|by apply (hr_page _ _ _ Hr2)].
  apply (keeps_holds _ _ _ Hk2); [rewrite Hpin1, lookup_insert_eq; by eexists|]. by apply (keeps_holds _ _ _ Hk1).
Qed.

(** *** [operator++] *)

(** The cursor's page: pinned, unchanged heap. *)
Record scanning t s0 s h f (i : nat) p l pins0 : Prop := {
  sc_page : h !! i = Some (p, l);
  sc_on : on_heap t s h f p l (next_id h i) pins0;
  sc_synced : synced (view s) p;
  sc_evolves : evolves None (view s0) (view s);
  sc_budget n : budget (view s0) n -> budget (view s) n
}.

(** From one page to the next: the next one is pinned before the other is
    given back. *)
Lemma wp_next_page {C} t s0 s h f (i : nat) p l q l2 pins0 (k : P -> M S C) (Q : C -> S -> Prop) :
  scanning t s0 s h f i p l pins0 -> h !! Datatypes.S i = Some (q, l2) -> (size pins0 + 2 <= frames (view s))%nat ->
  (forall f2 s2, scanning t s0 s2 h f2 (Datatypes.S i) q l2 pins0 -> frames (view s2) = frames (view s) -> wp (k f2) Q s2) ->
  wp (do! next_page := FetchPage q in do! _ := unpin_page f false in do! cur_page := deref next_page in k cur_page) Q s.
Proof.
  intros [Hi [Hr Hat Hpin Hun] Hsy Hev Hbud] Hq Hroom HQ. pose proof (lookup_id _ _ _ _ Hi) as Hp. pose proof (lookup_id _ _ _ _ Hq) as Hqh.
  assert (Hne : q <> p).
  { intros ->. assert (E : Datatypes.S i = i); [|lia]. eapply (NoDup_lookup h.*1 _ _ p); [apply (hr_nodup _ _ _ Hr)|..];
      rewrite list_lookup_fmap; [by rewrite Hq|by rewrite Hi]. }
  destruct (heap_ids t s h q Hr Hqh) as [Hl Hx].
  apply wp_fetch_some; [apply (hr_ok _ _ _ Hr)|done|done|rewrite Hpin, lookup_insert_ne by done; by apply Hun| |].
  { unfold room. rewrite Hpin, map_size_insert_None by (by apply Hun). lia. }
  intros f2 s1 [Ho1 Hh1 Hk1 Hpin1 Hsy1 Hb1].
  assert (Hat1 : at_page s1 f p l (next_id h i)).
  { split; [done|apply (keeps_holds _ _ _ Hk1); [apply (ap_pin _ _ _ _ _ Hat)|apply (ap_holds _ _ _ _ _ Hat)]| |].
    - rewrite Hpin1, lookup_insert_ne by done. apply (ap_pin _ _ _ _ _ Hat).
    - eapply page_at_keeps; [by apply keeps_evolves|done|apply (ap_at _ _ _ _ _ Hat)]. }
  eapply (wp_unpin_page s1 f p l _ false (<[q := 1]> pins0)); [exact Hat1| | |right; by apply (keeps_synced _ _ _ Hk1)|].
  { rewrite Hpin1, Hpin. by rewrite insert_insert_ne. }
  { rewrite lookup_insert_ne by done. by apply Hun. }
  intros s2 [Ho2 Hk2 Hpin2 Hb2]. apply wp_bind, wp_ret.
  assert (Hr2 : heap_rep t s2 h).
  { eapply heap_rep_evolves; [exact Hr|done|]. eapply evolves_trans; by apply keeps_evolves. }
  apply HQ; [|by rewrite (keeps_frames _ _ _ Hk2), (keeps_frames _ _ _ Hk1)]. split; [done| |by apply (keeps_synced _ _ _ Hk2)| |].
  - split; [done| |done|done]. split; [done| |rewrite Hpin2, lookup_insert_eq; by eexists|by apply (hr_page _ _ _ Hr2)].
    apply (keeps_holds _ _ _ Hk2); [rewrite Hpin1, lookup_insert_eq; by eexists|done].
  - eapply evolves_trans; [exact Hev|]. eapply evolves_trans; by apply keeps_evolves.
  - intros n Hn. by apply Hb2, Hb1, Hbud.
Qed.

Lemma wp_next_page_loop t s0 s h fuel f (i : nat) p l pins0 :
  scanning t s0 s h f i p l pins0 -> (size pins0 + 2 <= frames (view s))%nat -> (length h - i <= fuel)%nat -> (0 < fuel)%nat ->
  wp (NextPage_loop fuel f (MkRID INVALID_PAGE_ID 0)) (fun r s' => exists f' i' p' l',
    r = (f', rid_of (heap_tuples (drop (Datatypes.S i) h))) /\ scanning t s0 s' h f' i' p' l' pins0
    /\ match heap_tuples (drop (Datatypes.S i) h) with [] => True | x :: ts => at_tuple h i' x ts end) s.
Proof.
  revert s f i p l. induction fuel as [|fuel IH]; intros s f i p l Hsc Hroom Hfuel Hpos; [lia|]. cbn [NextPage_loop].
  pose proof Hsc as [Hi Hon Hsy Hev Hbud].
  eapply wp_on_page; [apply (oh_at _ _ _ _ _ _ _ _ Hon)|intros; by eapply next_page_ok|].
  destruct (next_id_cases t s h i (oh_rep _ _ _ _ _ _ _ _ Hon)) as [[En Hlast]|[En (l2 & Hq)]].
  - rewrite En, Z.eqb_refl. apply wp_ret. rewrite (drop_ge h (Datatypes.S i)) by (by apply lookup_ge_None_1).
    by exists f, i, p, l.
  - rewrite (proj2 (Z.eqb_neq _ _)) by done.
    eapply wp_on_page; [apply (oh_at _ _ _ _ _ _ _ _ Hon)|intros; by eapply next_page_ok|].
    eapply wp_next_page; [exact Hsc|exact Hq|done|]. intros f2 s2 Hsc2 Hfr.
    pose proof (first_at h (Datatypes.S i) _ l2 Hq) as Hat. set (q := next_id h i) in *.
    eapply (wp_on_page _ _ _ _ _ _ (live_from q 0 l2)); [apply (oh_at _ _ _ _ _ _ _ _ (sc_on _ _ _ _ _ _ _ _ _ Hsc2))| |].
    { intros m prev (fsp & cells & Hlay & ->). by eapply First_ok. }
    destruct (live_from q 0 l2) as [found rid]. destruct (page_tuples q 0 l2) as [|x ts].
    + destruct Hat as [[= -> ->] Heq]. rewrite Heq. pose proof (lookup_lt_Some _ _ _ Hq).
      apply (IH s2 f2 (Datatypes.S i) q l2); [done|by rewrite Hfr|lia|lia].
    + destruct Hat as ([= -> ->] & Hat & Heq). rewrite Heq. apply wp_ret. by exists f2, (Datatypes.S i), q, l2.
Qed.

(** The cursor's page is given back. *)
Lemma wp_scan_close {C} t s s1 h f (i : nat) p l (k : bool -> M S C) (Q : C -> S -> Prop) :
  scanning t s s1 h f i p l (pins (view s)) ->
  (forall s', unchanged t s s' h -> wp (k true) Q s') -> wp (sbind (unpin_page f false) k) Q s1.
Proof.
  intros [Hi Hon Hsy Hev Hb] HQ. eapply wp_heap_close; [exact Hon|by eapply lookup_id|by right|].
  intros s' Hinv' [Ho Hk Hpin Hb']. apply HQ. split; [done| |done|by intros n Hn; apply Hb', Hb].
  eapply evolves_trans; [exact Hev|by apply keeps_evolves].
Qed.

Lemma wp_next t s h x ts it txn fuel :
  heap_inv t s h -> room 2 s -> cursor h (x :: ts) it -> (length h <= fuel)%nat ->
  wp (TableIterator_next fuel it txn) (fun r s' => exists it', r = (it', txn) /\ cursor h ts it' /\ unchanged t s s' h) s.
Proof.
  intros Hinv Hroom [Hit (i & p & l & j & d & Hi & Hj & -> & ->)] Hfuel. unfold TableIterator_next. rewrite Hit. cbn [tuple_rid_ page_id_ RID_Set].
  apply wp_bind. eapply wp_heap_fetch; [exact Hinv|exact Hi|unfold room in *; lia|]. intros f s1 Hf Hon. apply wp_ret.
  assert (Hsc : scanning t s s1 h f i p l (pins (view s))).
  { split; [done|done|apply (ft_synced _ _ _ _ Hf)|apply keeps_evolves, (ft_keeps _ _ _ _ Hf)|apply (ft_budget _ _ _ _ Hf)]. }
  pose proof (live_from_tuples p (Datatypes.S j) l) as Hlive.
  eapply (wp_on_page _ _ _ _ _ _ (live_from p (Datatypes.S j) l)); [apply (oh_at _ _ _ _ _ _ _ _ Hon)| |].
  { intros m prev Hm. pose proof (slots_bound _ _ _ _ _ Hm) as Hb. apply lookup_lt_Some in Hj.
    destruct Hm as (fsp & cells & Hlay & ->). rewrite (Next_ok m p prev _ fsp cells Hlay) by (simpl; lia).
    simpl. by rewrite Z.eqb_refl, Nat2Z.id. }
  set (ts := page_tuples p (Datatypes.S j) (drop (Datatypes.S j) l) ++ heap_tuples (drop (Datatypes.S i) h)).
  assert (Hsearch : wp (let ' (found, next_tuple_rid) := live_from p (Datatypes.S j) l in
      if found : bool then sret (f, next_tuple_rid) else NextPage_loop fuel f next_tuple_rid)
    (fun r s' => exists f' i' p' l', r = (f', rid_of ts) /\ scanning t s s' h f' i' p' l' (pins (view s))
      /\ match ts with [] => True | y :: ts' => at_tuple h i' y ts' end) s1).
  { unfold ts. destruct (page_tuples p (Datatypes.S j) (drop (Datatypes.S j) l)) as [|y ts'].
    - rewrite Hlive. simpl. apply lookup_lt_Some in Hi.
      apply (wp_next_page_loop t s s1 h fuel f i p l); [done| |lia|lia].
      rewrite (keeps_frames _ _ _ (ft_keeps _ _ _ _ Hf)). exact Hroom.
    - destruct Hlive as (j' & d' & Hj' & -> & -> & ->). apply wp_ret. exists f, i, p, l. split_and!; [done|done|].
      by exists p, l, j', d'. }
  clear Hlive. destruct (live_from p (Datatypes.S j) l) as [found rid]. apply wp_bind. eapply wp_mono; [exact Hsearch|].
  clear Hsearch. intros r s2 (f' & i' & p' & l' & -> & Hsc' & Hat).
  destruct ts as [|y ts']; cbn [rid_of].
  - rewrite at_end_true by done. cbn [negb]. apply wp_bind, wp_ret. eapply wp_scan_close; [exact Hsc'|].
    intros s3 Hu. apply wp_ret. by eexists.
  - pose proof Hat as (p2 & l2 & j' & d' & Hi' & Hj' & -> & _). pose proof Hsc' as [Hp' Hon' Hsy' Hev' Hb'].
    rewrite Hp' in Hi'. injection Hi' as <- <-. cbn [tuple_rid_].
    pose proof (heap_ids_range t s2 h p' (oh_rep _ _ _ _ _ _ _ _ Hon') (lookup_id _ _ _ _ Hp')) as Hrange.
    assert (Hj2 : (j' < length l')%nat) by (by apply lookup_lt_Some in Hj').
    pose proof (oh_at _ _ _ _ _ _ _ _ Hon') as [_ _ _ (_ & m & prev & _ & Hm)]. pose proof (slots_bound _ _ _ _ _ Hm) as Hb2.
    rewrite (at_end_false _ p' (Z.of_nat j')) by (done || lia). cbn [negb]. apply wp_bind, wp_bind.
    eapply wp_mono; [eapply (wp_get_tuple_pinned t s2 h i' j' f' p' l' d'); [exact Hon'|done|done]|].
    intros r s3 (-> & Hon3 & Hev3 & Hb3). apply wp_ret. eapply (wp_scan_close t s s3).
    + split; [exact Hp'|exact Hon3|by apply (ev_synced _ _ _ Hev3)|by eapply evolves_trans|by intros n Hn; apply Hb3, Hb'].
    + intros s4 Hu. apply wp_ret. eexists. split; [done|]. split; [|done]. split; [done|]. by exists i'.
Qed.

(** *** A whole scan *)

(** The loop of a client, [for (it = Begin(); it != End(); ++it)]; [n] bounds
    the number of its rounds. *)
Fixpoint scan_loop (n fuel : nat) (it : TableIterator) txn : M S (list Tuple * Transaction) :=
  match n with
  | O => fail OutOfFuel
  | Datatypes.S n =>
      if TableIterator_eqb it TableHeap_End then sret ([], txn) else
      do! tuple := lift (TableIterator_deref it) in
      do! ' (it, txn) := TableIterator_next fuel it txn in
      do! ' (ts, txn) := scan_loop n fuel it txn in
      sret (tuple :: ts, txn)
  end.

Definition TableHeap_scan (n fuel : nat) t txn : M S (list Tuple * Transaction) :=
  do! ' (it, txn) := TableHeap_Begin fuel t txn in scan_loop n fuel it txn.

Lemma room_unchanged t s s' h n : unchanged t s s' h -> room n s -> room n s'.
Proof. intros Hu. unfold room. by rewrite (un_pins _ _ _ _ Hu), (ev_frames _ _ _ (un_evolves _ _ _ _ Hu)). Qed.

Lemma cursor_end t s h x ts it : heap_inv t s h -> cursor h (x :: ts) it -> TableIterator_eqb it TableHeap_End = false.
Proof.
  intros [Hr _] [Hit (i & p & l & j & d & Hi & Hj & -> & _)].
  pose proof (heap_ids_range t s h p Hr (lookup_id _ _ _ _ Hi)) as Hrange. apply lookup_lt_Some in Hj.
  destruct (hr_page _ _ _ Hr i p l Hi) as (_ & m & prev & _ & Hm). pose proof (slots_bound _ _ _ _ _ Hm) as Hb.
  apply (at_end_false _ p (Z.of_nat j)); [by rewrite Hit|done|lia].
Qed.

Lemma wp_scan_loop t s h ts n fuel it txn :
  heap_inv t s h -> room 2 s -> cursor h ts it -> (length h <= fuel)%nat -> (length ts < n)%nat ->
  wp (scan_loop n fuel it txn) (fun r s' => r = (ts, txn) /\ unchanged t s s' h) s.
Proof.
  revert s ts it. induction n as [|n IH]; intros s ts it Hinv Hroom Hc Hfuel Hn; [lia|]. cbn [scan_loop].
  destruct ts as [|x ts].
  - rewrite at_end_true by done. apply wp_ret. split; [done|]. split; [done|apply evolves_refl|done|done].
  - pose proof (cursor_end t s h x ts it Hinv Hc) as He. rewrite He. apply wp_bind.
    eapply (wp_lift _ _ _ x). { unfold TableIterator_deref. rewrite He. simpl. by destruct Hc as [-> _]. }
    apply wp_bind. eapply wp_mono; [by apply (wp_next t s h x ts it txn fuel)|].
    intros r s1 (it' & -> & Hc' & Hu). apply wp_bind. simpl in Hn.
    eapply wp_mono; [apply (IH s1 ts it'); [apply (un_inv _ _ _ _ Hu)|by eapply room_unchanged|done|done|lia]|].
    intros r s2 (-> & Hu2). apply wp_ret. split; [done|by eapply unchanged_trans].
Qed.

(** [Begin] stands at the first tuple. *)
Lemma wp_begin t s h txn fuel :
  heap_inv t s h -> room 2 s -> (length h < fuel)%nat ->
  wp (TableHeap_Begin fuel t txn) (fun r s' => exists it, r = (it, txn) /\ cursor h (heap_tuples h) it /\ unchanged t s s' h) s.
Proof.
  intros Hinv Hroom Hfuel. unfold TableHeap_Begin. apply wp_bind.
  assert (Hfirst : first_page_id_ t = from_option fst INVALID_PAGE_ID (h !! O)).
  { pose proof (hr_first _ _ _ (proj1 Hinv)) as Hf. rewrite list_lookup_fmap in Hf. by destruct (h !! O); simplify_eq/=. }
  rewrite Hfirst. eapply wp_mono; [apply (wp_begin_loop t s h 0 fuel); [done|unfold room in *; lia|lia|lia]|].
  rewrite drop_0. intros rid s1 (-> & Hu & Hat).
  assert (Hnew : wp (TableIterator_new (rid_of (heap_tuples h)) txn) (fun r s' => exists it, r = (it, txn) /\ cursor h (heap_tuples h) it /\ unchanged t s s' h) s1).
  { unfold TableIterator_new. destruct (heap_tuples h) as [|x ts].
    - simpl. rewrite Z.eqb_refl. simpl. apply wp_ret. by eexists.
    - destruct Hat as [i Hat]. pose proof Hat as (p & l & j & d & Hi & Hj & -> & _). simpl.
      pose proof (heap_ids_range t s1 h p (proj1 (un_inv _ _ _ _ Hu)) (lookup_id _ _ _ _ Hi)) as Hrange.
      pose proof INVALID_PAGE_ID_neg. rewrite (proj2 (Z.eqb_neq p _)) by lia. simpl. apply wp_bind.
      eapply wp_mono; [apply (wp_get_tuple t s1 h i j p l d); [apply (un_inv _ _ _ _ Hu)| |done|done]|].
      { pose proof (room_unchanged _ _ _ _ 2 Hu Hroom). unfold room in *. lia. }
      intros r s2 (-> & Hu2). apply wp_ret. eexists. split; [done|]. split; [split; [done|by exists i]|by eapply unchanged_trans]. }
  exact Hnew.
Qed.
End Scan.
