(* ===== verification/TableHeapProperties.v ===== *)
(** The properties of the table heap and its iterator. *)

From S2P Require Import Prelude Bytes Rid Replacer LRUReplacer DiskManager BufferPoolManager BufferPool BufferPoolCorrect TablePage TablePageCorrect Transaction TableHeap TableHeapCorrect TableScan.

(** ** Properties *)

Section Properties.
Context `{Config} {S P : Type} `{!BufferPoolManager S P bytes} `{!BufferPoolSpec S P bytes}
  `{!TablePagesOk (good_data (S := S) (P := P)) (zero_data (S := S) (P := P))}.
Implicit Types (t : TableHeap) (s : S) (h : heap) (txn : Transaction).

(** C23: [InsertTuple] walks the page list and ends: a tuple too large for a page
    aborts the transaction and touches nothing; any other goes to the first page
    with room, or to a new page linked to the end of the list.  The heap stays
    well formed, every pin is given back, the tuple is stored under the id the
    call returns, and no other id changes. *)
Theorem TableHeap_InsertTuple_correct t s h tuple txn fuel :
  heap_inv t s h -> room 2 s -> budget (view s) 1 -> is_bytes (tuple_data_ tuple) -> 0 < tuple_size_ tuple < 2 ^ 32 - 32 ->
  (length h < fuel)%nat ->
  if PAGE_SIZE <? tuple_size_ tuple + 32
  then TableHeap_InsertTuple fuel t tuple txn s = Ok ((None, Txn_SetState ABORTED txn), s)
  else exists new rid h' s', heap_insert new tuple h = (rid, h')
    /\ TableHeap_InsertTuple fuel t tuple txn s = Ok ((Some rid,
         Txn_AppendTableWriteRecord (MkTableWriteRecord rid WInsert Tuple_default (first_page_id_ t)) txn), s')
    /\ heap_inv t s' h' /\ pins (view s') = pins (view s) /\ evolves_in (list_to_set h'.*1) (view s) (view s')
    /\ (forall q, q ∈ h'.*1 -> q ∈ h.*1 \/ ~ live (view s) q)
    /\ heap_slot rid h' = Some (Live (tuple_data_ tuple))
    /\ forall rid', 0 <= slot_num_ rid' -> rid' <> rid -> heap_slot rid' h' = heap_slot rid' h.
Proof.
  intros Hinv Hroom Hbud Hb Hsz Hfuel.
  assert (Hu : unsigned 32 (tuple_size_ tuple + 32) = tuple_size_ tuple + 32) by (apply unsigned_id; unfold is_unsigned; lia).
  destruct (Z.ltb_spec PAGE_SIZE (tuple_size_ tuple + 32)) as [Hbig|Hfit].
  { unfold TableHeap_InsertTuple. rewrite Hu. by rewrite (proj2 (Z.ltb_lt _ _) Hbig). }
  pose proof (wp_insert t s h tuple txn fuel 0 Hinv Hroom Hbud Hb Hsz Hfit Hfuel) as Hw.
  apply wp_run in Hw as (r & s' & Hrun & new & rid & h' & Hins & -> & Hinv' & Hpin & Hk & Hnew & _).
  exists new, rid, h', s'. pose proof (heap_insert_slot new tuple h) as Hs. rewrite Hins in Hs. simpl in Hs.
  destruct Hs as (H1 & _ & _ & H2); [apply Hinv'|]. split_and!; done.
Qed.

(** C15: [MarkDelete], [UpdateTuple], [ApplyDelete], [RollbackDelete] and
    [GetTuple] on an id of the heap do to its page what the abstract page of
    slots does, leave all other pages alone, give their pin back and record the
    write in the transaction ([MarkDelete] also when the page refused); a failed
    assertion of the page stops them. *)
Theorem TableHeap_operations_refine t s h l op txn :
  heap_inv t s h -> room 1 s -> heap_page (page_id_ (th_rid op)) h = Some l -> op_ok (page_op op) ->
  match abs_exec (page_id_ (th_rid op)) (page_op op) l with
  | Ok (a, l') => exists s', TH_exec t op txn s = Ok (th_finish t op a txn, s')
      /\ touched t s s' (set_heap_page (page_id_ (th_rid op)) l' h) (page_id_ (th_rid op))
  | Err e => TH_exec t op txn s = Err e
  end.
Proof.
  intros Hinv Hroom Hl Hop. set (p := page_id_ (th_rid op)) in *. pose proof (hr_nodup _ _ _ (proj1 Hinv)) as Hn.
  pose proof (heap_page_in h p l Hl) as Hp. apply heap_page_elem in Hp as (i & l0 & Hi & Hl0). rewrite Hl in Hl0. injection Hl0 as <-.
  destruct (abs_exec p (page_op op) l) as [[a l']|e] eqn:Ha.
  - pose proof (wp_op t s h i p l a l' op txn Hinv Hi Hroom eq_refl Hop Ha) as Hw.
    apply wp_run in Hw as (r & s' & Hrun & -> & Ht). exists s'. by rewrite (set_heap_page_insert h i p l l' Hn Hi).
  - by eapply op_error.
Qed.
(** C19: a scan ends and visits exactly the tuples of the heap, in page order and
    slot order, skipping deleted and marked slots and empty pages; the heap is
    as before and every pin is given back. *)
Theorem TableHeap_scan_correct t s h txn (n fuel : nat) :
  heap_inv t s h -> room 2 s -> (length h < fuel)%nat -> (length (heap_tuples h) < n)%nat ->
  exists s', TableHeap_scan n fuel t txn s = Ok ((heap_tuples h, txn), s') /\ unchanged t s s' h.
Proof.
  intros Hinv Hroom Hfuel Hn. cut (wp (TableHeap_scan n fuel t txn) (fun r s' => r = (heap_tuples h, txn) /\ unchanged t s s' h) s).
  { intros Hw. apply wp_run in Hw as (r & s' & Hrun & -> & Hu). by exists s'. }
  unfold TableHeap_scan. apply wp_bind. eapply wp_mono; [by apply (wp_begin t s h)|]. intros r s2 (it & -> & Hc & Hu2).
  eapply wp_mono; [apply (wp_scan_loop t s2 h (heap_tuples h)); [apply (un_inv _ _ _ _ Hu2)|by eapply room_unchanged|done|lia|done]|].
  intros r s3 (-> & Hu3). split; [done|by eapply unchanged_trans].
Qed.

(** the creating constructor makes a heap of one empty page. *)
Theorem TableHeap_create_correct (s : S) (n : nat) :
  pool_ok s -> budget (view s) (1 + n) -> room 1 s -> SIZE_TABLE_PAGE_HEADER <= PAGE_SIZE ->
  exists t s' p, TableHeap_create s = Ok (t, s') /\ heap_inv t s' [(p, [])] /\ pins (view s') = pins (view s)
    /\ frames (view s') = frames (view s) /\ budget (view s') n.
Proof.
  intros Hs Hb Hr Hp. destruct (create_ok s n Hs Hb Hr Hp) as (t & s' & p & H1 & H2 & H3 & H4 & H5).
  by exists t, s', p.
Qed.
End Properties.

(** ** Witnesses: a heap over a fresh pool of three frames *)

Section Concrete.
#[local] Existing Instance course_config.
Notation pool := (BPI bytes LRUReplacer DiskManager).
Implicit Types (t : TableHeap) (s : pool).

#[local] Instance course_table_pages :
  TablePagesOk (good_data (S := pool) (P := Z)) (zero_data (S := pool) (P := Z)).
Proof.
  split; [done|]. split; [by vm_compute|]. apply Forall_replicate. by split.
Qed.

Definition txn0 : Transaction := Transaction_new 0 REPEATABLE_READ.
Definition tuple0 : Tuple := MkTuple RID_default [1; 2; 3].

Lemma fresh_create : exists s, fresh_pool 3 = Ok s /\ pool_ok s /\ budget (view s) (1 + 1) /\ room 3 s.
Proof.
  destruct (fresh_pool_inv 3) as (s & Hrun & Hs & Hp & Hf & Hb). exists s. split_and!; [done|done|apply Hb; lia|].
  unfold room. rewrite Hp, Hf, map_size_empty. lia.
Qed.

Lemma TableHeap_create_correct_witness :
  exists s t s' p, fresh_pool 3 = Ok s /\ TableHeap_create s = Ok (t, s') /\ heap_inv t s' [(p, [])].
Proof.
  destruct fresh_create as (s & Hrun & Hs & Hb & Hr).
  destruct (TableHeap_create_correct s 1 Hs Hb) as (t & s' & p & Hc & Hi & _); [unfold room in *; lia|by vm_compute|].
  by exists s, t, s', p.
Defined.

Lemma fresh_heap : exists t s p, heap_inv t s [(p, [])] /\ room 2 s /\ budget (view s) 1.
Proof.
  destruct fresh_create as (s & Hrun & Hs & Hb & Hr).
  destruct (create_ok s 1 Hs Hb) as (t & s' & p & Hc & Hi & Hp & Hf & Hb'); [unfold room in *; lia|by vm_compute|].
  exists t, s', p. split_and!; [done|unfold room in *; rewrite Hp, Hf; lia|done].
Qed.

Lemma TableHeap_InsertTuple_correct_witness :
  exists t s s' p, heap_inv t s [(p, [])]
    /\ TableHeap_InsertTuple 2 t tuple0 txn0 s
       = Ok ((Some (RID_Set p 0), Txn_AppendTableWriteRecord (MkTableWriteRecord (RID_Set p 0) WInsert Tuple_default (first_page_id_ t)) txn0), s')
    /\ heap_inv t s' [(p, [Live [1; 2; 3]])].
Proof.
  destruct fresh_heap as (t & s & p & Hi & Hr & Hb).
  destruct (TableHeap_InsertTuple_correct t s _ tuple0 txn0 2 Hi Hr Hb) as (new & rid & h' & s' & Hins & Hrun & Hi' & _).
  - repeat constructor; done.
  - unfold tuple_size_. simpl. lia.
  - simpl. lia.
  - vm_compute in Hins. injection Hins as <- <-. by exists t, s, s', p.
Defined.

Lemma filled_heap : exists t s p, heap_inv t s [(p, [Live [1; 2; 3]])] /\ room 2 s.
Proof.
  destruct fresh_heap as (t & s & p & Hi & Hr & Hb).
  assert (Hw : wp (TableHeap_InsertTuple 2 t tuple0 txn0) (insert_post t s [(p, [])] tuple0 txn0 0) s).
  { apply wp_insert; [done|done|done|repeat constructor; done|unfold tuple_size_; simpl; lia|by vm_compute|simpl; lia]. }
  apply wp_run in Hw as (r & s' & _ & new & rid & h' & Hins & _ & Hi' & Hp & Hk & _).
  vm_compute in Hins. injection Hins as <- <-. exists t, s', p. split; [done|].
  unfold room in *. by rewrite Hp, (ei_frames _ _ _ Hk).
Qed.

Lemma TableHeap_operations_refine_witness :
  exists t s s' p txn', TH_exec t (ThMarkDelete (RID_Set p 0)) txn0 s = Ok ((AnsBool true, txn'), s')
    /\ heap_inv t s' [(p, [Marked [1; 2; 3]])]
    /\ TH_exec t (ThApplyDelete (RID_Set p 5)) txn0 s = Err AssertionFailure.
Proof.
  destruct filled_heap as (t & s & p & Hi & Hr).
  assert (Hl : heap_page p [(p, [Live [1; 2; 3]])] = Some [Live [1; 2; 3]]) by (simpl; by rewrite decide_True).
  assert (Hr1 : room 1 s) by (unfold room in *; lia).
  pose proof (TableHeap_operations_refine t s _ _ (ThMarkDelete (RID_Set p 0)) txn0 Hi Hr1 Hl ltac:(by simpl)) as Ha.
  pose proof (TableHeap_operations_refine t s _ _ (ThApplyDelete (RID_Set p 5)) txn0 Hi Hr1 Hl ltac:(by simpl)) as Hb.
  simpl in Ha, Hb. destruct Ha as (s' & Hrun & Ht). rewrite decide_True in Ht by done.
  eexists t, s, s', p, _. split_and!; [exact Hrun|apply (to_inv _ _ _ _ _ Ht)|exact Hb].
Defined.

Lemma TableHeap_scan_correct_witness :
  exists t s s' p, TableHeap_scan 2 2 t txn0 s = Ok (([MkTuple (RID_Set p 0) [1; 2; 3]], txn0), s').
Proof.
  destruct filled_heap as (t & s & p & Hi & Hr).
  destruct (TableHeap_scan_correct t s _ txn0 2 2 Hi Hr) as (s' & Hrun & _); [simpl; lia|simpl; lia|].
  exists t, s, s', p. exact Hrun.
Defined.
End Concrete.
