(* ===== verification/LockManager.v ===== *)
(** The lock manager ([src/concurrency/lock_manager.cpp]).

    Every method runs under [latch_] and gives it up only inside [cv_.wait], so
    that a call is at most two atomic steps: from its beginning to its end or to
    the wait, and from the wait, whenever the waited-for condition holds, to its
    end.  (A waiter may look at the condition at any time: notifications only
    say when it has to.)  Transactions are objects shared between the manager
    and its callers; a [Transaction*] is the transaction's id. *)

From S2P Require Import Prelude Rid TablePage Transaction.

(** ** Definitions *)

Inductive LockMode : Type := SHARED | EXCLUSIVE.
#[export] Instance LockMode_eq_dec : EqDecision LockMode.
Proof. solve_decision. Defined.

Record LockRequest : Type := MkRequest {
  req_txn_id_ : Z;
  lock_mode_ : LockMode;
  granted_ : bool
}.
#[export] Instance LockRequest_eq_dec : EqDecision LockRequest.
Proof. solve_decision. Defined.

Record LockRequestQueue : Type := MkQueue {
  request_queue_ : list LockRequest;
  upgrading_ : bool;
  sharing_count_ : Z;
  is_writing_ : bool
}.
Definition Queue_new : LockRequestQueue := MkQueue [] false 0 false.

(** The manager and the transactions it shares with its callers. *)
Record LockWorld : Type := MkLockWorld {
  txns_ : gmap Z Transaction;
  lock_table_ : gmap RID LockRequestQueue;
  id_2_txn_ : gset Z
}.

(** How a step of a call ends. *)
Inductive lock_result : Type :=
| Returned (b : bool)
| Thrown (reason : AbortReason)
| Waiting.

Definition set_txns (m : gmap Z Transaction) (w : LockWorld) : LockWorld := MkLockWorld m (lock_table_ w) (id_2_txn_ w).
Definition set_table (m : gmap RID LockRequestQueue) (w : LockWorld) : LockWorld := MkLockWorld (txns_ w) m (id_2_txn_ w).

Notation LM := (M LockWorld).

(** Dereferencing a [Transaction*], with and without changing the object. *)
Definition get_txn (id : Z) : LM Transaction := fun w => let! t := of_option NullDereference (txns_ w !! id) in Ok (t, w).
Definition upd_txn (id : Z) (f : Transaction -> Transaction) : LM unit :=
  do! t := get_txn id in fun w => Ok (tt, set_txns (<[id := f t]> (txns_ w)) w).

(** [lock_table_.find(rid)->second]. *)
Definition get_queue (rid : RID) : LM LockRequestQueue :=
  fun w => let! q := of_option DanglingIterator (lock_table_ w !! rid) in Ok (q, w).
Definition put_queue (rid : RID) (q : LockRequestQueue) : LM unit :=
  fun w => Ok (tt, set_table (<[rid := q]> (lock_table_ w)) w).

Definition emplace_id (id : Z) : LM unit :=
  fun w => Ok (tt, MkLockWorld (txns_ w) (lock_table_ w) ({[id]} ∪ id_2_txn_ w)).

(** The transaction's request and its position; [end()] is [None]. *)
Definition GetIterator (l : list LockRequest) (id : Z) : option (nat * LockRequest) :=
  list_find (fun r => req_txn_id_ r = id) l.

Definition set_requests (l : list LockRequest) (q : LockRequestQueue) : LockRequestQueue :=
  MkQueue l (upgrading_ q) (sharing_count_ q) (is_writing_ q).

(** Changing or erasing the request an iterator points to. *)
Definition with_request (id : Z) (f : LockRequest -> LockRequest) (q : LockRequestQueue) : res LockRequestQueue :=
  let! ' (i, r) := of_option DanglingIterator (GetIterator (request_queue_ q) id) in
  Ok (set_requests (<[i := f r]> (request_queue_ q)) q).
Definition erase_request (id : Z) (q : LockRequestQueue) : res LockRequestQueue :=
  let! ' (i, _) := of_option DanglingIterator (GetIterator (request_queue_ q) id) in
  Ok (set_requests (delete i (request_queue_ q)) q).

Definition push_request (id : Z) (m : LockMode) (q : LockRequestQueue) : LockRequestQueue :=
  set_requests (request_queue_ q ++ [MkRequest id m false]) q.
Definition set_granted (r : LockRequest) : LockRequest := MkRequest (req_txn_id_ r) (lock_mode_ r) true.
Definition set_counts (up : bool) (n : Z) (wr : bool) (q : LockRequestQueue) : LockRequestQueue :=
  MkQueue (request_queue_ q) up n wr.

(** [LockPrepare]; [Some reason] is the exception. *)
Definition LockPrepare (id : Z) (rid : RID) : LM (option AbortReason) :=
  do! t := get_txn id in
  if decide (Txn_GetState t = SHRINKING) then
    do! _ := upd_txn id (Txn_SetState ABORTED) in sret (Some LOCK_ON_SHRINKING)
  else
    do! _ := fun w => Ok (tt, match lock_table_ w !! rid with
                              | None => set_table (<[rid := Queue_new]> (lock_table_ w)) w
                              | Some _ => w
                              end) in
    sret None.

(** The loop of [DeadlockPrevent] over the requests: the granted requests of
    younger transactions are aborted and their counts taken back. *)
Fixpoint DeadlockPrevent_loop (id : Z) (rid : RID) (l : list LockRequest) : LM unit :=
  match l with
  | [] => sret tt
  | r :: l =>
      do! _ :=
        if granted_ r && (id <? req_txn_id_ r) then
          do! _ := fun w => if decide (req_txn_id_ r ∈ id_2_txn_ w) then Ok (tt, w) else Err NullDereference in
          do! _ := upd_txn (req_txn_id_ r) (Txn_SetState ABORTED) in
          do! q := get_queue rid in
          match lock_mode_ r with
          | SHARED => put_queue rid (set_counts (upgrading_ q) (sharing_count_ q - 1) (is_writing_ q) q)
          | EXCLUSIVE => put_queue rid (set_counts (upgrading_ q) (sharing_count_ q) false q)
          end
        else sret tt in
      DeadlockPrevent_loop id rid l
  end.

Definition DeadlockPrevent (id : Z) (rid : RID) : LM unit :=
  do! q := get_queue rid in DeadlockPrevent_loop id rid (request_queue_ q).

(** [CheckAborted]; [Some reason] is the exception. *)
Definition CheckAborted (id : Z) (rid : RID) : LM (option AbortReason) :=
  do! t := get_txn id in
  if decide (Txn_GetState t = ABORTED) then
    do! q := get_queue rid in
    do! q := lift (erase_request id q) in
    do! _ := put_queue rid q in sret (Some DEADLOCK)
  else sret None.

(** *** Shared locks *)

(** The end of [LockShared], after the wait. *)
Definition LockShared_finish (id : Z) (rid : RID) : LM lock_result :=
  do! e := CheckAborted id rid in
  match e with
  | Some reason => sret (Thrown reason)
  | None =>
      do! _ := upd_txn id (fun t => Txn_set_locks ({[rid]} ∪ shared_lock_set_ t) (exclusive_lock_set_ t) t) in
      do! q := get_queue rid in
      let q := set_counts (upgrading_ q) (sharing_count_ q + 1) (is_writing_ q) q in
      do! q := lift (with_request id set_granted q) in
      do! _ := put_queue rid q in
      sret (Returned true)
  end.

(** The condition a shared request waits for. *)
Definition shared_ready (id : Z) (rid : RID) : LM bool :=
  do! t := get_txn id in
  do! q := get_queue rid in
  sret (bool_decide (Txn_GetState t = ABORTED) || negb (is_writing_ q)).

Definition LockShared_wait (id : Z) (rid : RID) : LM lock_result :=
  do! ready := shared_ready id rid in
  if ready then LockShared_finish id rid else sret Waiting.

Definition LockShared (id : Z) (rid : RID) : LM lock_result :=
  do! _ := emplace_id id in
  do! t := get_txn id in
  if decide (isolation_level_ t = READ_UNCOMMITTED) then
    do! _ := upd_txn id (Txn_SetState ABORTED) in
    sret (Thrown LOCKSHARED_ON_READ_UNCOMMITTED)
  else
    do! e := LockPrepare id rid in
    match e with
    | Some reason => sret (Thrown reason)
    | None =>
        do! q := get_queue rid in
        do! _ := put_queue rid (push_request id SHARED q) in
        if is_writing_ q then
          do! _ := DeadlockPrevent id rid in LockShared_wait id rid
        else LockShared_finish id rid
    end.

(** *** Exclusive locks *)

Definition LockExclusive_finish (id : Z) (rid : RID) : LM lock_result :=
  do! e := CheckAborted id rid in
  match e with
  | Some reason => sret (Thrown reason)
  | None =>
      do! _ := upd_txn id (fun t => Txn_set_locks (shared_lock_set_ t) ({[rid]} ∪ exclusive_lock_set_ t) t) in
      do! q := get_queue rid in
      let q := set_counts (upgrading_ q) (sharing_count_ q) true q in
      do! q := lift (with_request id set_granted q) in
      do! _ := put_queue rid q in
      sret (Returned true)
  end.

Definition exclusive_ready (id : Z) (rid : RID) : LM bool :=
  do! t := get_txn id in
  do! q := get_queue rid in
  sret (bool_decide (Txn_GetState t = ABORTED) || (negb (is_writing_ q) && (sharing_count_ q =? 0))).

Definition LockExclusive_wait (id : Z) (rid : RID) : LM lock_result :=
  do! ready := exclusive_ready id rid in
  if ready then LockExclusive_finish id rid else sret Waiting.

Definition LockExclusive (id : Z) (rid : RID) : LM lock_result :=
  do! _ := emplace_id id in
  do! e := LockPrepare id rid in
  match e with
  | Some reason => sret (Thrown reason)
  | None =>
      do! q := get_queue rid in
      do! _ := put_queue rid (push_request id EXCLUSIVE q) in
      if is_writing_ q || (0 <? sharing_count_ q) then
        do! _ := DeadlockPrevent id rid in LockExclusive_wait id rid
      else LockExclusive_finish id rid
  end.

(** *** Upgrades *)

Definition LockUpgrade_finish (id : Z) (rid : RID) : LM lock_result :=
  do! e := CheckAborted id rid in
  match e with
  | Some reason => sret (Thrown reason)
  | None =>
      do! _ := upd_txn id (fun t => Txn_set_locks (shared_lock_set_ t) ({[rid]} ∪ exclusive_lock_set_ t) t) in
      do! q := get_queue rid in
      let q := set_counts false (sharing_count_ q) true q in
      do! q := lift (with_request id set_granted q) in
      do! _ := put_queue rid q in
      sret (Returned true)
  end.

Definition LockUpgrade_wait (id : Z) (rid : RID) : LM lock_result :=
  do! ready := exclusive_ready id rid in
  if ready then LockUpgrade_finish id rid else sret Waiting.

Definition LockUpgrade (id : Z) (rid : RID) : LM lock_result :=
  do! t := get_txn id in
  if decide (Txn_GetState t = SHRINKING) then
    do! _ := upd_txn id (Txn_SetState ABORTED) in sret (Thrown LOCK_ON_SHRINKING)
  else
    do! q := get_queue rid in
    if upgrading_ q then
      do! _ := upd_txn id (Txn_SetState ABORTED) in sret (Thrown UPGRADE_CONFLICT)
    else
      do! _ := upd_txn id (fun t => Txn_set_locks (shared_lock_set_ t ∖ {[rid]}) (exclusive_lock_set_ t) t) in
      let q := set_counts (upgrading_ q) (sharing_count_ q - 1) (is_writing_ q) q in
      do! q := lift (with_request id (fun r => MkRequest (req_txn_id_ r) EXCLUSIVE false) q) in
      do! _ := put_queue rid q in
      if is_writing_ q || (0 <? sharing_count_ q) then
        do! _ := DeadlockPrevent id rid in
        do! q := get_queue rid in
        do! _ := put_queue rid (set_counts true (sharing_count_ q) (is_writing_ q) q) in
        LockUpgrade_wait id rid
      else LockUpgrade_finish id rid.

(** *** Unlocking *)

Definition LM_Unlock (id : Z) (rid : RID) : LM lock_result :=
  do! q := get_queue rid in
  do! _ := upd_txn id (fun t => Txn_set_locks (shared_lock_set_ t ∖ {[rid]}) (exclusive_lock_set_ t ∖ {[rid]}) t) in
  do! mode := lift (let! ' (_, r) := of_option DanglingIterator (GetIterator (request_queue_ q) id) in Ok (lock_mode_ r)) in
  do! q := lift (erase_request id q) in
  do! _ := put_queue rid q in
  do! t := get_txn id in
  do! _ :=
    if negb (bool_decide (mode = SHARED) && bool_decide (isolation_level_ t = READ_COMMITTED))
       && bool_decide (Txn_GetState t = GROWING)
    then upd_txn id (Txn_SetState SHRINKING) else sret tt in
  do! _ :=
    match mode with
    | SHARED => put_queue rid (set_counts (upgrading_ q) (sharing_count_ q - 1) (is_writing_ q) q)
    | EXCLUSIVE => put_queue rid (set_counts (upgrading_ q) (sharing_count_ q) false q)
    end in
  sret (Returned true).

(** ** Interleavings *)

Inductive lock_op : Type := OpShared | OpExclusive | OpUpgrade | OpUnlock.
#[export] Instance lock_op_eq_dec : EqDecision lock_op.
Proof. solve_decision. Defined.

(** What can happen next: an idle transaction makes a call, or a waiting one
    looks at its condition. *)
Inductive lock_action : Type :=
| Call (id : Z) (op : lock_op) (rid : RID)
| Wake (id : Z).

Record LockSystem : Type := MkLockSystem {
  world : LockWorld;
  waiting : gmap Z (lock_op * RID)
}.

Definition run_call (id : Z) (op : lock_op) (rid : RID) : LM lock_result :=
  match op with
  | OpShared => LockShared id rid
  | OpExclusive => LockExclusive id rid
  | OpUpgrade => LockUpgrade id rid
  | OpUnlock => LM_Unlock id rid
  end.

Definition run_wake (id : Z) (op : lock_op) (rid : RID) : LM lock_result :=
  match op with
  | OpShared => LockShared_wait id rid
  | OpExclusive => LockExclusive_wait id rid
  | OpUpgrade => LockUpgrade_wait id rid
  | OpUnlock => sret (Returned true)
  end.

Definition settle (id : Z) (op : lock_op) (rid : RID) (r : lock_result) (m : gmap Z (lock_op * RID)) : gmap Z (lock_op * RID) :=
  match r with Waiting => <[id := (op, rid)]> m | _ => delete id m end.

(** One action; an idle transaction cannot be woken, a waiting one cannot call. *)
Definition lock_step (a : lock_action) (s : LockSystem) : res (lock_result * LockSystem) :=
  match a with
  | Call id op rid =>
      match waiting s !! id with
      | Some _ => Ok (Waiting, s)
      | None => let! ' (r, w) := run_call id op rid (world s) in Ok (r, MkLockSystem w (settle id op rid r (waiting s)))
      end
  | Wake id =>
      match waiting s !! id with
      | Some (op, rid) =>
          let! ' (r, w) := run_wake id op rid (world s) in Ok (r, MkLockSystem w (settle id op rid r (waiting s)))
      | None => Ok (Waiting, s)
      end
  end.

Fixpoint lock_run (l : list lock_action) (s : LockSystem) : res (list lock_result * LockSystem) :=
  match l with
  | [] => Ok ([], s)
  | a :: l => let! ' (r, s) := lock_step a s in let! ' (rs, s) := lock_run l s in Ok (r :: rs, s)
  end.

(** A system of transactions that hold nothing. *)
Definition lock_start `{Config} (l : list (Z * IsolationLevel)) : LockSystem :=
  MkLockSystem (MkLockWorld (list_to_map ((fun p => (p.1, Transaction_new p.1 p.2)) <$> l)) ∅ ∅) ∅.

Definition holds_exclusive (w : LockWorld) (id : Z) (rid : RID) : Prop :=
  exists t, txns_ w !! id = Some t /\ rid ∈ exclusive_lock_set_ t.
Definition holds_shared (w : LockWorld) (id : Z) (rid : RID) : Prop :=
  exists t, txns_ w !! id = Some t /\ rid ∈ shared_lock_set_ t.
Definition txn_live (w : LockWorld) (id : Z) : Prop :=
  exists t, txns_ w !! id = Some t /\ state_ t <> ABORTED.
