(* ===== verification/LockManagerCorrect.v ===== *)
(** The lock manager: mutual exclusion of the locks it grants as long as no
    transaction is wounded, and how it is lost when one is. *)

From S2P Require Import Prelude Rid TablePage Transaction LockManager.

(** ** The invariant *)

Definition weight (m : LockMode) (r : LockRequest) : Z :=
  if granted_ r && bool_decide (lock_mode_ r = m) then 1 else 0.

(** The number of granted requests of a mode. *)
Definition count_of (m : LockMode) (l : list LockRequest) : Z := foldr (fun r n => weight m r + n) 0 l.

(** The counters of a queue count its granted requests, a transaction has at
    most one request, and a granted exclusive request is the only granted one. *)
Record queue_inv (q : LockRequestQueue) : Prop := {
  qi_nodup : NoDup (req_txn_id_ <$> request_queue_ q);
  qi_count : sharing_count_ q = count_of SHARED (request_queue_ q);
  qi_write : (if is_writing_ q then 1 else 0) = count_of EXCLUSIVE (request_queue_ q);
  qi_sep : is_writing_ q = true -> sharing_count_ q = 0
}.

Definition op_mode (op : lock_op) : LockMode := match op with OpShared => SHARED | _ => EXCLUSIVE end.

(** [r] is in the queue of [rid]. *)
Definition requested (w : LockWorld) (rid : RID) (r : LockRequest) : Prop :=
  exists q, lock_table_ w !! rid = Some q /\ r ∈ request_queue_ q.

Record lock_inv (s : LockSystem) : Prop := {
  li_queue rid q : lock_table_ (world s) !! rid = Some q -> queue_inv q;
  li_txn rid r : requested (world s) rid r -> is_Some (txns_ (world s) !! req_txn_id_ r) /\ req_txn_id_ r ∈ id_2_txn_ (world s);
  li_shared id t rid : txns_ (world s) !! id = Some t ->
    rid ∈ shared_lock_set_ t <-> requested (world s) rid (MkRequest id SHARED true);
  li_exclusive id t rid : txns_ (world s) !! id = Some t ->
    rid ∈ exclusive_lock_set_ t <-> requested (world s) rid (MkRequest id EXCLUSIVE true);
  li_waiting id op rid : waiting s !! id = Some (op, rid) ->
    op <> OpUnlock /\ requested (world s) rid (MkRequest id (op_mode op) false)
}.

(** What the callers promise: a transaction asks for a lock on a record it has
    no request for, upgrades a shared lock and releases a lock it holds. *)
Definition disciplined (a : lock_action) (s : LockSystem) : Prop :=
  match a with
  | Call id (OpShared | OpExclusive) rid =>
      is_Some (txns_ (world s) !! id) /\ forall m g, ~ requested (world s) rid (MkRequest id m g)
  | Call id OpUpgrade rid => holds_shared (world s) id rid
  | Call id OpUnlock rid => holds_shared (world s) id rid \/ holds_exclusive (world s) id rid
  | Wake _ => True
  end.

(** No granted lock in the way of the call belongs to a younger transaction:
    [DeadlockPrevent] aborts nobody. *)
Definition nobody_younger (id : Z) (q : LockRequestQueue) : Prop :=
  Forall (fun r => granted_ r = true -> req_txn_id_ r <= id) (request_queue_ q).

Definition no_wound (a : lock_action) (s : LockSystem) : Prop :=
  match a with
  | Call id OpShared rid => forall q, lock_table_ (world s) !! rid = Some q -> is_writing_ q = true -> nobody_younger id q
  | Call id (OpExclusive | OpUpgrade) rid =>
      forall q, lock_table_ (world s) !! rid = Some q -> is_writing_ q = true \/ 0 < sharing_count_ q -> nobody_younger id q
  | _ => True
  end.

(** ** Lemmas *)

Lemma count_app m l1 l2 : count_of m (l1 ++ l2) = count_of m l1 + count_of m l2.
Proof. induction l1 as [|r l1 IH]; simpl; lia. Qed.

Lemma weight_range m r : 0 <= weight m r <= 1.
Proof. unfold weight. destruct (_ && _); lia. Qed.

Lemma count_nonneg m l : 0 <= count_of m l.
Proof. induction l as [|r l IH]; simpl; [lia|]. pose proof (weight_range m r). lia. Qed.

Lemma count_insert m l (i : nat) r r' : l !! i = Some r -> count_of m (<[i := r']> l) = count_of m l - weight m r + weight m r'.
Proof.
  intros Hi. rewrite <- (take_drop_middle _ _ _ Hi) at 2. rewrite insert_take_drop by (by apply lookup_lt_Some in Hi).
  rewrite !count_app. simpl. lia.
Qed.

Lemma count_delete m l (i : nat) r : l !! i = Some r -> count_of m (delete i l) = count_of m l - weight m r.
Proof.
  intros Hi. rewrite <- (take_drop_middle _ _ _ Hi) at 2. rewrite delete_take_drop, !count_app. simpl. lia.
Qed.

Lemma count_elem m l r : r ∈ l -> weight m r <= count_of m l.
Proof.
  intros [i Hi]%list_elem_of_lookup. pose proof (count_delete m l i r Hi). pose proof (count_nonneg m (delete i l)). lia.
Qed.

Section Queues.
Context (q : LockRequestQueue) (Hq : queue_inv q).
Notation l := (request_queue_ q).

Lemma iterator_ok id m g : MkRequest id m g ∈ l ->
  exists i, GetIterator l id = Some (i, MkRequest id m g) /\ l !! i = Some (MkRequest id m g).
Proof using Hq.
  intros [i Hi]%list_elem_of_lookup. exists i. split; [|done]. apply list_find_Some. split_and!; [done|done|].
  intros j r Hj Hlt E. pose proof (qi_nodup _ Hq) as Hn.
  assert (j = i); [|lia]. apply (NoDup_lookup _ j i id Hn); rewrite list_lookup_fmap; [by rewrite Hj; simpl; rewrite E|by rewrite Hi].
Qed.

(** A request is determined by its transaction. *)
Lemma request_unique r r' : r ∈ l -> r' ∈ l -> req_txn_id_ r = req_txn_id_ r' -> r = r'.
Proof using Hq.
  intros [i Hi]%list_elem_of_lookup [j Hj]%list_elem_of_lookup E.
  assert (i = j) as ->; [|congruence].
  apply (NoDup_lookup _ i j (req_txn_id_ r) (qi_nodup _ Hq)); rewrite list_lookup_fmap; [by rewrite Hi|by rewrite Hj; simpl; rewrite E].
Qed.

Lemma queue_set (i : nat) r r' up n wr :
  l !! i = Some r -> req_txn_id_ r' = req_txn_id_ r ->
  n = sharing_count_ q - weight SHARED r + weight SHARED r' ->
  (if wr : bool then 1 else 0) = (if is_writing_ q then 1 else 0) - weight EXCLUSIVE r + weight EXCLUSIVE r' ->
  (wr = true -> n = 0) -> queue_inv (MkQueue (<[i := r']> l) up n wr).
Proof using Hq.
  intros Hi E Hn Hw Hs. split; simpl.
  - rewrite list_fmap_insert, E. rewrite list_insert_id; [apply (qi_nodup _ Hq)|]. by rewrite list_lookup_fmap, Hi.
  - rewrite (count_insert _ _ _ _ _ Hi), <- (qi_count _ Hq). done.
  - rewrite (count_insert _ _ _ _ _ Hi), <- (qi_write _ Hq). done.
  - done.
Qed.

Lemma queue_delete (i : nat) r up n wr :
  l !! i = Some r -> n = sharing_count_ q - weight SHARED r ->
  (if wr : bool then 1 else 0) = (if is_writing_ q then 1 else 0) - weight EXCLUSIVE r ->
  (wr = true -> n = 0) -> queue_inv (MkQueue (delete i l) up n wr).
Proof using Hq.
  intros Hi Hn Hw Hs. split; simpl.
  - pose proof (qi_nodup _ Hq) as Hnd. rewrite <- (take_drop_middle _ _ _ Hi) in Hnd.
    rewrite delete_take_drop, fmap_app. rewrite fmap_app, fmap_cons in Hnd.
    apply NoDup_app in Hnd as (H1 & H2 & [_ H3]%NoDup_cons). apply NoDup_app. split_and!; [done| |done].
    intros x Hx Hx'. apply (H2 x Hx). set_solver.
  - rewrite (count_delete _ _ _ _ Hi), <- (qi_count _ Hq). done.
  - rewrite (count_delete _ _ _ _ Hi), <- (qi_write _ Hq). done.
  - done.
Qed.

Lemma queue_push id m : (forall r, r ∈ l -> req_txn_id_ r <> id) -> queue_inv (push_request id m q).
Proof using Hq.
  intros Hno. split; simpl.
  - rewrite fmap_app. apply NoDup_app. split_and!; [apply (qi_nodup _ Hq)| |apply NoDup_singleton].
    intros x (r & -> & Hr)%list_elem_of_fmap Hx. apply list_elem_of_singleton in Hx. by apply (Hno r).
  - rewrite count_app. simpl. rewrite (qi_count _ Hq). unfold weight. simpl. lia.
  - rewrite count_app. simpl. rewrite (qi_write _ Hq). unfold weight. simpl. lia.
  - apply (qi_sep _ Hq).
Qed.

(** A granted exclusive request is the only granted request. *)
Lemma exclusive_alone id id' m : MkRequest id EXCLUSIVE true ∈ l -> MkRequest id' m true ∈ l -> id = id' /\ m = EXCLUSIVE.
Proof using Hq.
  intros Hx Hr. pose proof (count_elem EXCLUSIVE _ _ Hx) as Hc. unfold weight in Hc. simpl in Hc.
  pose proof (qi_write _ Hq) as Hw. destruct (is_writing_ q) eqn:Ew; [|lia]. pose proof (qi_sep _ Hq Ew) as Hs.
  rewrite (qi_count _ Hq) in Hs. destruct m.
  - pose proof (count_elem SHARED _ _ Hr) as Hc'. unfold weight in Hc'. simpl in Hc'. lia.
  - split; [|done]. apply list_elem_of_lookup in Hx as [i Hi]. apply list_elem_of_lookup in Hr as [j Hj].
    destruct (decide (i = j)) as [->|Hij]; [congruence|].
    pose proof (count_delete EXCLUSIVE l i _ Hi) as Hd. unfold weight in Hd. simpl in Hd.
    assert (Hin : MkRequest id' EXCLUSIVE true ∈ delete i l).
    { apply list_elem_of_lookup. destruct (decide (j < i)%nat).
      - exists j. by rewrite list_lookup_delete_lt.
      - exists (j - 1)%nat. rewrite list_lookup_delete_ge by lia. by replace (S (j - 1)) with j by lia. }
    pose proof (count_elem EXCLUSIVE _ _ Hin) as Hc'. unfold weight in Hc'. simpl in Hc'. lia.
Qed.
End Queues.

(** ** One step of a call *)

(** The world after a step of [id] on [rid]: its transaction and the queue have
    changed, nothing else. *)
Definition changed (w : LockWorld) (id : Z) (rid : RID) (t' : Transaction) (q' : LockRequestQueue) (ids : gset Z) : LockWorld :=
  MkLockWorld (<[id := t']> (txns_ w)) (<[rid := q']> (lock_table_ w)) ids.

Lemma requested_changed w id rid t' q' ids rid' r :
  requested (changed w id rid t' q' ids) rid' r <-> (rid' = rid /\ r ∈ request_queue_ q') \/ (rid' <> rid /\ requested w rid' r).
Proof.
  unfold requested, changed. simpl. destruct (decide (rid' = rid)) as [->|Hne].
  - rewrite lookup_insert_eq. split; [intros (q & [= <-] & Hr); by left|]. intros [[_ Hr]|[? _]]; [by exists q'|done].
  - rewrite lookup_insert_ne by done. split; [intros (q & Hq & Hr); right; split; [done|by exists q]|].
    by intros [[? _]|[_ ?]].
Qed.

Lemma inv_change w wt id rid t t' q' ids wt' :
  lock_inv (MkLockSystem w wt) -> txns_ w !! id = Some t -> queue_inv q' ->
  (forall r, req_txn_id_ r <> id -> r ∈ request_queue_ q' <-> requested w rid r) ->
  (forall rid', rid' <> rid -> (rid' ∈ shared_lock_set_ t' <-> rid' ∈ shared_lock_set_ t)
     /\ (rid' ∈ exclusive_lock_set_ t' <-> rid' ∈ exclusive_lock_set_ t)) ->
  (rid ∈ shared_lock_set_ t' <-> MkRequest id SHARED true ∈ request_queue_ q') ->
  (rid ∈ exclusive_lock_set_ t' <-> MkRequest id EXCLUSIVE true ∈ request_queue_ q') ->
  {[id]} ∪ id_2_txn_ w ⊆ ids ->
  (forall id', id' <> id -> wt' !! id' = wt !! id') ->
  (forall op rid', wt' !! id = Some (op, rid') ->
     rid' = rid /\ op <> OpUnlock /\ MkRequest id (op_mode op) false ∈ request_queue_ q') ->
  lock_inv (MkLockSystem (changed w id rid t' q' ids) wt').
Proof.
  intros [Iq It Is Ie Iw] Ht Hq' Hother Hsets Hsh Hex Hids Hwt Hwid. simpl in *. split; simpl.
  - intros rid' q. destruct (decide (rid' = rid)) as [->|Hne]; [rewrite lookup_insert_eq; by intros [= <-]|].
    rewrite lookup_insert_ne by done. by apply Iq.
  - intros rid' r Hr. destruct (decide (req_txn_id_ r = id)) as [E|E].
    + rewrite E, lookup_insert_eq. split; [by eexists|]. set_solver.
    + rewrite lookup_insert_ne by done. assert (Hold : requested w rid' r).
      { apply requested_changed in Hr as [[-> Hr]|[_ Hr]]; [by apply Hother|done]. }
      destruct (It rid' r Hold) as [H1 H2]. split; [done|]. set_solver.
  - intros id' t0 rid' H0. rewrite requested_changed. destruct (decide (id' = id)) as [->|Hne].
    + rewrite lookup_insert_eq in H0. simplify_eq. destruct (decide (rid' = rid)) as [->|Hr]; [rewrite Hsh; tauto|].
      rewrite (proj1 (Hsets rid' Hr)), (Is id t rid' Ht). tauto.
    + rewrite lookup_insert_ne in H0 by done. rewrite (Is id' t0 rid' H0).
      destruct (decide (rid' = rid)) as [->|Hr]; [|tauto]. rewrite <- Hother by done. tauto.
  - intros id' t0 rid' H0. rewrite requested_changed. destruct (decide (id' = id)) as [->|Hne].
    + rewrite lookup_insert_eq in H0. simplify_eq. destruct (decide (rid' = rid)) as [->|Hr]; [rewrite Hex; tauto|].
      rewrite (proj2 (Hsets rid' Hr)), (Ie id t rid' Ht). tauto.
    + rewrite lookup_insert_ne in H0 by done. rewrite (Ie id' t0 rid' H0).
      destruct (decide (rid' = rid)) as [->|Hr]; [|tauto]. rewrite <- Hother by done. tauto.
  - intros id' op rid' H0. rewrite requested_changed. destruct (decide (id' = id)) as [->|Hne].
    + destruct (Hwid op rid' H0) as (-> & H1 & H2). split; [done|]. by left.
    + rewrite Hwt in H0 by done. destruct (Iw id' op rid' H0) as [H1 H2]. split; [done|].
      destruct (decide (rid' = rid)) as [->|Hr]; [left; split; [done|]; by apply Hother|by right].
Qed.

(** A step that ends in an exception before it reaches the queue. *)
Lemma inv_abort w wt id t ids wt' st :
  lock_inv (MkLockSystem w wt) -> txns_ w !! id = Some t -> id_2_txn_ w ⊆ ids -> wt !! id = None -> wt' = delete id wt ->
  lock_inv (MkLockSystem (MkLockWorld (<[id := Txn_SetState st t]> (txns_ w)) (lock_table_ w) ids) wt').
Proof.
  intros [Iq It Is Ie Iw] Ht Hids Hw ->. rewrite delete_id by done. split; simpl in *.
  - done.
  - intros rid r Hr. destruct (It rid r Hr) as [[t0 H0] H2]. split; [|set_solver].
    rewrite lookup_insert. case_decide; by eexists.
  - intros id' t0 rid H0. destruct (decide (id' = id)) as [->|Hne].
    + rewrite lookup_insert_eq in H0. simplify_eq. simpl. by apply Is.
    + rewrite lookup_insert_ne in H0 by done. by apply Is.
  - intros id' t0 rid H0. destruct (decide (id' = id)) as [->|Hne].
    + rewrite lookup_insert_eq in H0. simplify_eq. simpl. by apply Ie.
    + rewrite lookup_insert_ne in H0 by done. by apply Ie.
  - intros id' op rid H0. by apply Iw.
Qed.

Lemma DeadlockPrevent_none id rid l w :
  Forall (fun r => granted_ r = true -> req_txn_id_ r <= id) l -> DeadlockPrevent_loop id rid l w = Ok (tt, w).
Proof.
  induction 1 as [|r l Hr _ IH]; [done|]. cbn [DeadlockPrevent_loop].
  assert (E : granted_ r && (id <? req_txn_id_ r) = false).
  { destruct (granted_ r) eqn:Eg; [|done]. simpl. apply Z.ltb_ge. by apply Hr. }
  rewrite E. unfold sbind at 1. simpl. exact IH.
Qed.

(** The requests of the others are those of the old queue. *)
Lemma others_set (l : list LockRequest) (i : nat) r r' (id : Z) x : l !! i = Some r -> req_txn_id_ r = id -> req_txn_id_ r' = id -> req_txn_id_ x <> id ->
  x ∈ (<[i := r']> l : list LockRequest) <-> x ∈ l.
Proof.
  intros Hi Er Er' Ex. rewrite !list_elem_of_lookup. split; intros [j Hj]; exists j.
  - destruct (decide (j = i)) as [->|Hne].
    + rewrite list_lookup_insert_eq in Hj by (by apply lookup_lt_Some in Hi). congruence.
    + by rewrite list_lookup_insert_ne in Hj.
  - destruct (decide (j = i)) as [->|Hne]; [congruence|]. by rewrite list_lookup_insert_ne.
Qed.

Lemma others_delete (l : list LockRequest) (i : nat) r (id : Z) x : l !! i = Some r -> req_txn_id_ r = id -> req_txn_id_ x <> id ->
  x ∈ delete i l <-> x ∈ l.
Proof.
  intros Hi Er Ex. split; [apply list_elem_of_delete_inv|].
  intros [j Hj]%list_elem_of_lookup. apply list_elem_of_lookup. destruct (decide (j < i)%nat).
  - exists j. by rewrite list_lookup_delete_lt.
  - exists (j - 1)%nat. destruct (decide (j = i)) as [->|]; [congruence|].
    rewrite list_lookup_delete_ge by lia. by replace (S (j - 1)) with j by lia.
Qed.

Lemma elem_set_eq (l : list LockRequest) (i : nat) (r : LockRequest) : (i < length l)%nat -> r ∈ (<[i := r]> l : list LockRequest).
Proof. intros Hi. apply list_elem_of_lookup. exists i. by rewrite list_lookup_insert_eq. Qed.

(** No request of a transaction is left after its only one is erased. *)
Lemma deleted_gone q (i : nat) r x : queue_inv q -> request_queue_ q !! i = Some r -> req_txn_id_ x = req_txn_id_ r ->
  x ∉ delete i (request_queue_ q).
Proof.
  intros Hq Hi E [j Hj]%list_elem_of_lookup. rewrite list_lookup_delete in Hj.
  pose proof (qi_nodup _ Hq) as Hn. set (k := if decide (j < i)%nat then j else S j) in *.
  assert (k = i); [|unfold k in *; case_decide; lia].
  apply (NoDup_lookup _ k i (req_txn_id_ r) Hn); rewrite list_lookup_fmap; [by rewrite Hj; simpl; rewrite E|by rewrite Hi].
Qed.

(** *** The ends of the calls *)

Definition lock_finish (op : lock_op) (id : Z) (rid : RID) : M LockWorld lock_result :=
  match op with
  | OpShared => LockShared_finish id rid
  | OpExclusive => LockExclusive_finish id rid
  | OpUpgrade => LockUpgrade_finish id rid
  | OpUnlock => sret (Returned true)
  end.

(** A request of [op] can be granted. *)
Definition grantable (op : lock_op) (q : LockRequestQueue) : Prop :=
  is_writing_ q = false /\ (op_mode op = EXCLUSIVE -> sharing_count_ q = 0).

(** A granted request, in the transaction and in the queue. *)
Definition grant_sets (m : LockMode) (rid : RID) (t : Transaction) : Transaction :=
  match m with
  | SHARED => Txn_set_locks ({[rid]} ∪ shared_lock_set_ t) (exclusive_lock_set_ t) t
  | EXCLUSIVE => Txn_set_locks (shared_lock_set_ t) ({[rid]} ∪ exclusive_lock_set_ t) t
  end.

Definition grant_queue (m : LockMode) (id : Z) (q : LockRequestQueue) (i : nat) (up : bool) : LockRequestQueue :=
  MkQueue (<[i := MkRequest id m true]> (request_queue_ q)) up
    (match m with SHARED => sharing_count_ q + 1 | EXCLUSIVE => sharing_count_ q end)
    (match m with SHARED => is_writing_ q | EXCLUSIVE => true end).

Section Finish.
Context (w : LockWorld) (wt : gmap Z (lock_op * RID)) (id : Z) (rid : RID) (t : Transaction) (op : lock_op) (q : LockRequestQueue).
Context (Hinv : lock_inv (MkLockSystem w wt)) (Ht : txns_ w !! id = Some t) (Hq : lock_table_ w !! rid = Some q)
  (Hop : op <> OpUnlock) (Hr : MkRequest id (op_mode op) false ∈ request_queue_ q).

Lemma id_known : {[id]} ∪ id_2_txn_ w ⊆ id_2_txn_ w.
Proof using Hinv Hq Hr.
  destruct (li_txn _ Hinv rid (MkRequest id (op_mode op) false)) as [_ H1]; [by exists q|]. simpl in H1.
  apply union_subseteq. split; [by apply singleton_subseteq_l|done].
Qed.

Lemma not_held : rid ∉ shared_lock_set_ t /\ rid ∉ exclusive_lock_set_ t.
Proof using Hinv Ht Hq Hr.
  pose proof (li_queue _ Hinv rid q Hq) as Hqi.
  assert (Hno : forall m, ~ requested w rid (MkRequest id m true)).
  { intros m (q' & Hq' & Hin). simplify_eq. pose proof (request_unique q Hqi _ _ Hr Hin eq_refl). done. }
  split; intros Hx.
  - apply (Hno SHARED). by apply (li_shared _ Hinv id t rid Ht).
  - apply (Hno EXCLUSIVE). by apply (li_exclusive _ Hinv id t rid Ht).
Qed.

Lemma requested_here r : requested w rid r <-> r ∈ request_queue_ q.
Proof using Hq. unfold requested. split; [intros (q' & ? & ?); by simplify_eq|by exists q]. Qed.

(** The request leaves the queue: the waiting transaction had been aborted. *)
Lemma finish_aborted (i : nat) : request_queue_ q !! i = Some (MkRequest id (op_mode op) false) ->
  lock_inv (MkLockSystem (set_table (<[rid := set_requests (delete i (request_queue_ q)) q]> (lock_table_ w)) w) (delete id wt)).
Proof using All.
  intros Hi. pose proof (li_queue _ Hinv rid q Hq) as Hqi. destruct not_held as [H1 H2].
  replace (set_table _ w) with (changed w id rid t (set_requests (delete i (request_queue_ q)) q) (id_2_txn_ w)).
  2:{ unfold changed, set_table. by rewrite insert_id. }
  apply (inv_change w wt id rid t); try done.
  - eapply (queue_delete q Hqi i); [exact Hi|..]; unfold weight; simpl; rewrite ?Z.sub_0_r; try done. apply (qi_sep _ Hqi).
  - intros r Hne. rewrite requested_here. simpl. by eapply others_delete.
  - split; [done|]. intros Hx. by destruct (deleted_gone q i _ (MkRequest id SHARED true) Hqi Hi eq_refl Hx).
  - split; [done|]. intros Hx. by destruct (deleted_gone q i _ (MkRequest id EXCLUSIVE true) Hqi Hi eq_refl Hx).
  - apply id_known.
  - intros id' Hne. by rewrite lookup_delete_ne.
  - intros op' rid' Hx. by rewrite lookup_delete_eq in Hx.
Qed.

Lemma finish_granted (i : nat) up : request_queue_ q !! i = Some (MkRequest id (op_mode op) false) -> grantable op q ->
  lock_inv (MkLockSystem (changed w id rid (grant_sets (op_mode op) rid t) (grant_queue (op_mode op) id q i up) (id_2_txn_ w)) (delete id wt)).
Proof using All.
  intros Hi [Hw Hc]. pose proof (li_queue _ Hinv rid q Hq) as Hqi. destruct not_held as [H1 H2].
  pose proof (lookup_lt_Some _ _ _ Hi) as Hlt.
  assert (Hin : MkRequest id (op_mode op) true ∈ request_queue_ (grant_queue (op_mode op) id q i up)) by by apply elem_set_eq.
  assert (Hqi' : queue_inv (grant_queue (op_mode op) id q i up)).
  { eapply (queue_set q Hqi i); [exact Hi|done|..]; unfold weight; simpl; rewrite ?Hw; destruct (op_mode op) eqn:Em; simpl; try lia; try done.
    intros _. by apply Hc. }
  assert (Honly : forall m, MkRequest id m true ∈ request_queue_ (grant_queue (op_mode op) id q i up) -> m = op_mode op).
  { intros m Hx. by pose proof (request_unique _ Hqi' _ _ Hx Hin eq_refl) as [= E]. }
  apply (inv_change w wt id rid t); try done.
  - intros r Hne. rewrite requested_here. simpl. by eapply others_set.
  - intros rid' Hne. unfold grant_sets. destruct (op_mode op); simpl; set_solver.
  - unfold grant_sets. destruct (op_mode op) eqn:Em; simpl; [set_solver|]. split; [done|]. intros Hx. by apply Honly in Hx.
  - unfold grant_sets. destruct (op_mode op) eqn:Em; simpl; [|set_solver]. split; [done|]. intros Hx. by apply Honly in Hx.
  - apply id_known.
  - intros id' Hne. by rewrite lookup_delete_ne.
  - intros op' rid' Hx. by rewrite lookup_delete_eq in Hx.
Qed.

Lemma lock_finish_ok : (state_ t <> ABORTED -> grantable op q) ->
  exists r w', lock_finish op id rid w = Ok (r, w') /\ r <> Waiting /\ lock_inv (MkLockSystem w' (delete id wt)).
Proof using All.
  intros Hg. pose proof (li_queue _ Hinv rid q Hq) as Hqi. destruct (iterator_ok q Hqi id (op_mode op) false Hr) as (i & Hit & Hi).
  assert (Hca : CheckAborted id rid w = if decide (state_ t = ABORTED)
     then Ok (Some DEADLOCK, set_table (<[rid := set_requests (delete i (request_queue_ q)) q]> (lock_table_ w)) w) else Ok (None, w)).
  { unfold CheckAborted, sbind, get_txn. rewrite Ht. simpl. unfold Txn_GetState. case_decide; [|done].
    unfold get_queue. rewrite Hq. simpl. unfold lift, erase_request. rewrite Hit. done. }
  destruct (decide (state_ t = ABORTED)) as [Ha|Ha].
  - exists (Thrown DEADLOCK), (set_table (<[rid := set_requests (delete i (request_queue_ q)) q]> (lock_table_ w)) w).
    split_and!; [|done|by apply finish_aborted].
    destruct op; [| | |done]; simpl; unfold LockShared_finish, LockExclusive_finish, LockUpgrade_finish;
      unfold sbind at 1; rewrite Hca; done.
  - specialize (Hg Ha).
    exists (Returned true), (changed w id rid (grant_sets (op_mode op) rid t) (grant_queue (op_mode op) id q i (match op with OpUpgrade => false | _ => upgrading_ q end)) (id_2_txn_ w)).
    split_and!; [|done|by apply finish_granted].
    destruct op; [| | |done]; simpl in *; unfold LockShared_finish, LockExclusive_finish, LockUpgrade_finish;
      unfold sbind at 1; rewrite Hca; unfold sbind, upd_txn, get_txn, sbind; rewrite Ht; simpl;
      unfold get_queue; simpl; rewrite Hq; simpl; unfold lift, with_request; simpl; rewrite Hit; done.
Qed.
End Finish.

Lemma inv_wait w wt id op rid :
  lock_inv (MkLockSystem w wt) -> op <> OpUnlock -> requested w rid (MkRequest id (op_mode op) false) ->
  lock_inv (MkLockSystem w (<[id := (op, rid)]> wt)).
Proof.
  intros [Iq It Is Ie Iw] Hop Hr. split; try done. simpl in *. intros id' op' rid'.
  destruct (decide (id' = id)) as [->|Hne]; [rewrite lookup_insert_eq; by intros [= <- <-]|].
  rewrite lookup_insert_ne by done. apply Iw.
Qed.

Lemma lock_wait_ok w wt id rid t op q :
  lock_inv (MkLockSystem w wt) -> txns_ w !! id = Some t -> lock_table_ w !! rid = Some q -> op <> OpUnlock ->
  MkRequest id (op_mode op) false ∈ request_queue_ q ->
  exists r w', run_wake id op rid w = Ok (r, w') /\ lock_inv (MkLockSystem w' (settle id op rid r wt)).
Proof.
  intros Hinv Ht Hq Hop Hr.
  assert (Hready : exists ready, run_wake id op rid w = (if ready : bool then lock_finish op id rid w else Ok (Waiting, w))
     /\ (ready = true -> state_ t <> ABORTED -> grantable op q)).
  { destruct op; [| | |done]; simpl; unfold LockShared_wait, LockExclusive_wait, LockUpgrade_wait, shared_ready, exclusive_ready,
      sbind, get_txn, get_queue; rewrite Ht; simpl; rewrite Hq; simpl; unfold Txn_GetState.
    - exists (bool_decide (state_ t = ABORTED) || negb (is_writing_ q)). split; [by destruct (_ || _)|].
      intros [Hx%bool_decide_eq_true|Hx%negb_true_iff]%orb_true_iff Ha; [done|]. by split.
    - exists (bool_decide (state_ t = ABORTED) || negb (is_writing_ q) && (sharing_count_ q =? 0)). split; [by destruct (_ || _)|].
      intros [Hx%bool_decide_eq_true|[Hx%negb_true_iff Hy%Z.eqb_eq]%andb_true_iff]%orb_true_iff Ha; [done|]. by split.
    - exists (bool_decide (state_ t = ABORTED) || negb (is_writing_ q) && (sharing_count_ q =? 0)). split; [by destruct (_ || _)|].
      intros [Hx%bool_decide_eq_true|[Hx%negb_true_iff Hy%Z.eqb_eq]%andb_true_iff]%orb_true_iff Ha; [done|]. by split. }
  destruct Hready as (ready & -> & Hg). destruct ready.
  - destruct (lock_finish_ok w wt id rid t op q Hinv Ht Hq Hop Hr (Hg eq_refl)) as (r & w' & Hrun & Hne & Hinv').
    exists r, w'. split; [done|]. by destruct r.
  - exists Waiting, w. split; [done|]. apply inv_wait; [done|done|]. by exists q.
Qed.

(** *** The beginnings of the calls *)

Lemma inv_ids w wt ids : lock_inv (MkLockSystem w wt) -> id_2_txn_ w ⊆ ids ->
  lock_inv (MkLockSystem (MkLockWorld (txns_ w) (lock_table_ w) ids) wt).
Proof.
  intros [Iq It Is Ie Iw] Hids. split; try done. simpl in *. intros rid r Hr. destruct (It rid r Hr). split; [done|set_solver].
Qed.

Lemma inv_new_queue w wt rid : lock_inv (MkLockSystem w wt) -> lock_table_ w !! rid = None ->
  lock_inv (MkLockSystem (set_table (<[rid := Queue_new]> (lock_table_ w)) w) wt).
Proof.
  intros [Iq It Is Ie Iw] Hn.
  assert (Hreq : forall rid' r, requested (set_table (<[rid := Queue_new]> (lock_table_ w)) w) rid' r <-> requested w rid' r).
  { intros rid' r. unfold requested. simpl. destruct (decide (rid' = rid)) as [->|Hne]; [|by rewrite lookup_insert_ne].
    rewrite lookup_insert_eq, Hn. split; [intros (q & [= <-] & Hx); simpl in Hx; set_solver|by intros (q & ? & _)]. }
  split; simpl in *.
  - intros rid' q. destruct (decide (rid' = rid)) as [->|Hne]; [|rewrite lookup_insert_ne by done; apply Iq].
    rewrite lookup_insert_eq. intros [= <-]. split; simpl; try done. apply NoDup_nil_2.
  - intros rid' r Hr%Hreq. by apply (It rid' r).
  - intros id t rid' Ht. rewrite Hreq. by apply Is.
  - intros id t rid' Ht. rewrite Hreq. by apply Ie.
  - intros id op rid' Hw. rewrite Hreq. by apply (Iw id op rid').
Qed.

Lemma prepare_ok w wt id rid t :
  lock_inv (MkLockSystem w wt) -> txns_ w !! id = Some t -> wt !! id = None ->
  (exists r w', LockPrepare id rid w = Ok (Some r, w') /\ lock_inv (MkLockSystem w' (delete id wt)))
  \/ (exists w' q, LockPrepare id rid w = Ok (None, w') /\ lock_inv (MkLockSystem w' wt) /\ txns_ w' !! id = Some t
      /\ lock_table_ w' !! rid = Some q /\ id_2_txn_ w' = id_2_txn_ w
      /\ (lock_table_ w !! rid = Some q \/ (lock_table_ w !! rid = None /\ q = Queue_new))).
Proof.
  intros Hinv Ht Hw. unfold LockPrepare, sbind, get_txn. rewrite Ht. simpl. unfold Txn_GetState.
  destruct (decide (state_ t = SHRINKING)) as [Hs|Hs].
  - left. exists LOCK_ON_SHRINKING. unfold upd_txn, sbind, get_txn. rewrite Ht. simpl. eexists. split; [done|].
    by apply (inv_abort w wt id t).
  - right. destruct (lock_table_ w !! rid) as [q|] eqn:Hq.
    + exists w, q. split_and!; try done. by left.
    + eexists _, Queue_new. split; [done|]. split; [by apply inv_new_queue|]. simpl. split_and!; try done; [by rewrite lookup_insert_eq|].
      by right.
Qed.

(** A new request is queued. *)
Lemma push_ok w wt id rid t m q :
  lock_inv (MkLockSystem w wt) -> txns_ w !! id = Some t -> wt !! id = None -> lock_table_ w !! rid = Some q ->
  id ∈ id_2_txn_ w -> (forall r, r ∈ request_queue_ q -> req_txn_id_ r <> id) ->
  let w' := set_table (<[rid := push_request id m q]> (lock_table_ w)) w in
  lock_inv (MkLockSystem w' wt) /\ lock_table_ w' !! rid = Some (push_request id m q)
  /\ MkRequest id m false ∈ request_queue_ (push_request id m q).
Proof.
  intros Hinv Ht Hw Hq Hid Hno w'. split_and!; [|by apply lookup_insert_eq|simpl; set_solver].
  replace w' with (changed w id rid t (push_request id m q) (id_2_txn_ w)) by (unfold w', changed, set_table; by rewrite insert_id).
  assert (Hnot : forall m' g, ~ requested w rid (MkRequest id m' g)).
  { intros m' g (q' & Hq' & Hx). simplify_eq. by apply (Hno _ Hx). }
  assert (Hnew : forall m', MkRequest id m' true ∉ request_queue_ (push_request id m q)).
  { intros m'. simpl. intros [Hx|Hx]%elem_of_app; [by apply (Hno _ Hx)|]. by apply list_elem_of_singleton in Hx. }
  apply (inv_change w wt id rid t); try done.
  - apply queue_push; [by apply (li_queue _ Hinv rid)|done].
  - intros r Hne. simpl. rewrite elem_of_app, list_elem_of_singleton. unfold requested. split.
    + intros [Hx|Hx]; [by exists q|by subst].
    + intros (q' & Hq' & Hx). simplify_eq. by left.
  - split; [|intros Hx; by apply Hnew in Hx]. intros Hx. apply (li_shared _ Hinv id t rid Ht) in Hx. by apply Hnot in Hx.
  - split; [|intros Hx; by apply Hnew in Hx]. intros Hx. apply (li_exclusive _ Hinv id t rid Ht) in Hx. by apply Hnot in Hx.
  - set_solver.
  - intros op rid' Hx. congruence.
Qed.

Lemma call_lock_ok w wt id rid t op :
  lock_inv (MkLockSystem w wt) -> txns_ w !! id = Some t -> wt !! id = None -> op = OpShared \/ op = OpExclusive ->
  (forall m g, ~ requested w rid (MkRequest id m g)) ->
  no_wound (Call id op rid) (MkLockSystem w wt) ->
  exists r w', run_call id op rid w = Ok (r, w') /\ lock_inv (MkLockSystem w' (settle id op rid r wt)).
Proof.
  intros Hinv Ht Hw Hop Hno Hnw.
  set (w1 := MkLockWorld (txns_ w) (lock_table_ w) ({[id]} ∪ id_2_txn_ w)).
  assert (Hinv1 : lock_inv (MkLockSystem w1 wt)) by (apply inv_ids; [done|set_solver]).
  (* after the preparation, for either kind of lock *)
  assert (Hmain : forall (k : LockWorld -> res (lock_result * LockWorld)),
    (forall w2 q, LockPrepare id rid w1 = Ok (None, w2) -> lock_table_ w2 !! rid = Some q ->
       let w3 := set_table (<[rid := push_request id (op_mode op) q]> (lock_table_ w2)) w2 in
       k w2 = if is_writing_ q || (bool_decide (op = OpExclusive) && (0 <? sharing_count_ q))
              then (match DeadlockPrevent_loop id rid (request_queue_ (push_request id (op_mode op) q)) w3 with
                    | Ok (_, w4) => run_wake id op rid w4 | Err e => Err e end)
              else lock_finish op id rid w3) ->
    exists r w', (match LockPrepare id rid w1 with
       | Ok (Some reason, w2) => Ok (Thrown reason, w2) | Ok (None, w2) => k w2 | Err e => Err e end) = Ok (r, w')
      /\ lock_inv (MkLockSystem w' (settle id op rid r wt))).
  { intros k Hk. destruct (prepare_ok w1 wt id rid t Hinv1 Ht Hw) as [(r & w2 & -> & Hinv2)|
      (w2 & q & Hpr & Hinv2 & Ht2 & Hq & Hids & Hold)].
    { exists (Thrown r), w2. by split. }
    rewrite Hpr, (Hk w2 q Hpr Hq).
    assert (Hfresh : forall r, r ∈ request_queue_ q -> req_txn_id_ r <> id).
    { intros r Hr E. destruct Hold as [Hold|[_ ->]]; [|simpl in Hr; set_solver].
      apply (Hno (lock_mode_ r) (granted_ r)). exists q. split; [done|]. rewrite <- E. by destruct r. }
    destruct (push_ok w2 wt id rid t (op_mode op) q Hinv2 Ht2 Hw Hq) as (Hinv3 & Hq3 & Hr3); [rewrite Hids; simpl; set_solver|done|].
    set (w3 := set_table _ w2) in *. assert (Hnu : op <> OpUnlock) by (by destruct Hop as [-> | ->]).
    destruct (is_writing_ q || _) eqn:Ec.
    - assert (Hny : nobody_younger id q).
      { destruct Hold as [Hold|[_ ->]]; [|by constructor]. destruct Hop as [-> | ->]; simpl in *; apply (Hnw q Hold).
        - by rewrite orb_false_r in Ec.
        - apply orb_true_iff in Ec as [Ec|Ec%Z.ltb_lt]; [by left|by right]. }
      rewrite DeadlockPrevent_none.
      2:{ simpl. apply Forall_app. split; [done|]. by repeat constructor. }
      by apply (lock_wait_ok w3 wt id rid t op (push_request id (op_mode op) q)).
    - destruct (lock_finish_ok w3 wt id rid t op (push_request id (op_mode op) q) Hinv3 Ht2 Hq3 Hnu Hr3) as (r & w' & Hrun & Hne & Hinv').
      + intros _. apply orb_false_iff in Ec as [E1 E2]. split; [done|]. intros Em. simpl.
        destruct Hop as [-> | ->]; [done|]. simpl in E2. apply Z.ltb_ge in E2.
        pose proof (qi_count _ (li_queue _ Hinv2 rid q Hq)) as Hc. pose proof (count_nonneg SHARED (request_queue_ q)). lia.
      + exists r, w'. split; [done|]. by destruct r. }
  destruct Hop as [-> | ->]; simpl; unfold LockShared, LockExclusive; unfold sbind at 1, emplace_id; fold w1.
  - unfold sbind at 1, get_txn. change (txns_ w1 !! id) with (txns_ w !! id). rewrite Ht. simpl.
    destruct (decide (isolation_level_ t = READ_UNCOMMITTED)).
    + unfold sbind, upd_txn, sbind, get_txn. change (txns_ w1 !! id) with (txns_ w !! id). rewrite Ht. simpl. eexists _, _.
      split; [done|]. simpl. apply (inv_abort w wt id t); [done|done|set_solver|done|done].
    + specialize (Hmain (fun w2 => (do! q := get_queue rid in
        do! _ := put_queue rid (push_request id SHARED q) in
        if is_writing_ q then do! _ := DeadlockPrevent id rid in LockShared_wait id rid else LockShared_finish id rid) w2)).
      destruct Hmain as (r & w' & Hrun & Hinv').
      { intros w2 q _ Hq. simpl. unfold sbind, get_queue, put_queue. rewrite Hq. simpl. rewrite orb_false_r.
        destruct (is_writing_ q); [|done]. unfold DeadlockPrevent, sbind, get_queue. simpl. rewrite lookup_insert_eq. done. }
      exists r, w'. split; [|done]. rewrite <- Hrun. unfold sbind at 1. by destruct (LockPrepare id rid w1) as [[[?|] ?]|].
  - specialize (Hmain (fun w2 => (do! q := get_queue rid in
      do! _ := put_queue rid (push_request id EXCLUSIVE q) in
      if is_writing_ q || (0 <? sharing_count_ q)
      then do! _ := DeadlockPrevent id rid in LockExclusive_wait id rid else LockExclusive_finish id rid) w2)).
    destruct Hmain as (r & w' & Hrun & Hinv').
    { intros w2 q _ Hq. simpl. unfold sbind, get_queue, put_queue. rewrite Hq. simpl.
      destruct (is_writing_ q || _); [|done]. unfold DeadlockPrevent, sbind, get_queue. simpl. rewrite lookup_insert_eq. done. }
    exists r, w'. split; [|done]. rewrite <- Hrun. unfold sbind at 1. by destruct (LockPrepare id rid w1) as [[[?|] ?]|].
Qed.

Lemma inv_flag w wt id rid t q up :
  lock_inv (MkLockSystem w wt) -> txns_ w !! id = Some t -> wt !! id = None -> lock_table_ w !! rid = Some q -> id ∈ id_2_txn_ w ->
  lock_inv (MkLockSystem (set_table (<[rid := set_counts up (sharing_count_ q) (is_writing_ q) q]> (lock_table_ w)) w) wt).
Proof.
  intros Hinv Ht Hw Hq Hid. set (q' := set_counts _ _ _ q).
  replace (set_table _ w) with (changed w id rid t q' (id_2_txn_ w)) by (unfold changed, set_table; by rewrite insert_id).
  assert (Hreq : forall r, requested w rid r <-> r ∈ request_queue_ q').
  { intros r. unfold requested. split; [intros (q0 & ? & ?); by simplify_eq|by exists q]. }
  apply (inv_change w wt id rid t); try done.
  - destruct (li_queue _ Hinv rid q Hq) as [A1 A2 A3 A4]. by split.
  - rewrite <- Hreq. apply (li_shared _ Hinv id t rid Ht).
  - rewrite <- Hreq. apply (li_exclusive _ Hinv id t rid Ht).
  - set_solver.
  - intros op rid' Hx. congruence.
Qed.

(** An upgrade gives up the shared lock and asks for the exclusive one. *)
Lemma upgrade_request_ok w wt id rid t q (i : nat) :
  lock_inv (MkLockSystem w wt) -> txns_ w !! id = Some t -> wt !! id = None -> lock_table_ w !! rid = Some q ->
  request_queue_ q !! i = Some (MkRequest id SHARED true) ->
  let t' := Txn_set_locks (shared_lock_set_ t ∖ {[rid]}) (exclusive_lock_set_ t) t in
  let q' := MkQueue (<[i := MkRequest id EXCLUSIVE false]> (request_queue_ q)) (upgrading_ q) (sharing_count_ q - 1) (is_writing_ q) in
  lock_inv (MkLockSystem (changed w id rid t' q' (id_2_txn_ w)) wt)
  /\ MkRequest id EXCLUSIVE false ∈ request_queue_ q' /\ id ∈ id_2_txn_ w.
Proof.
  intros Hinv Ht Hw Hq Hi t' q'. pose proof (li_queue _ Hinv rid q Hq) as Hqi. pose proof (lookup_lt_Some _ _ _ Hi) as Hlt.
  assert (Hin : MkRequest id SHARED true ∈ request_queue_ q) by (apply list_elem_of_lookup; by exists i).
  assert (Hreq : forall r, requested w rid r <-> r ∈ request_queue_ q).
  { intros r. unfold requested. split; [intros (q0 & ? & ?); by simplify_eq|by exists q]. }
  assert (Hid : id ∈ id_2_txn_ w) by (apply (li_txn _ Hinv rid _ (proj2 (Hreq _) Hin))).
  assert (Hin' : MkRequest id EXCLUSIVE false ∈ request_queue_ q') by by apply elem_set_eq.
  assert (Hc : count_of SHARED (request_queue_ q) >= 1) by (pose proof (count_elem SHARED _ _ Hin); unfold weight in *; simpl in *; lia).
  rewrite <- (qi_count _ Hqi) in Hc.
  assert (Hnw : is_writing_ q = false) by (destruct (is_writing_ q) eqn:E; [|done]; pose proof (qi_sep _ Hqi E); lia).
  assert (Hqi' : queue_inv q').
  { eapply (queue_set q Hqi i); [exact Hi|done|..]; unfold weight; simpl; rewrite ?Hnw; try lia; done. }
  assert (Hnone : forall m, MkRequest id m true ∉ request_queue_ q').
  { intros m Hx. pose proof (request_unique _ Hqi' _ _ Hx Hin' eq_refl). done. }
  split_and!; [|done|done]. apply (inv_change w wt id rid t); try done.
  - intros r Hne. rewrite Hreq. simpl. by eapply others_set.
  - intros rid' Hne. simpl. set_solver.
  - simpl. split; [set_solver|]. intros Hx. by apply Hnone in Hx.
  - simpl. split; [|intros Hx; by apply Hnone in Hx]. intros Hx. apply (li_exclusive _ Hinv id t rid Ht), Hreq in Hx.
    pose proof (request_unique _ Hqi _ _ Hx Hin eq_refl). done.
  - set_solver.
  - intros op rid' Hx. congruence.
Qed.

Lemma call_upgrade_ok w wt id rid :
  lock_inv (MkLockSystem w wt) -> wt !! id = None -> holds_shared w id rid ->
  no_wound (Call id OpUpgrade rid) (MkLockSystem w wt) ->
  exists r w', run_call id OpUpgrade rid w = Ok (r, w') /\ lock_inv (MkLockSystem w' (settle id OpUpgrade rid r wt)).
Proof.
  intros Hinv Hw (t & Ht & Hsh) Hnw. apply (li_shared _ Hinv id t rid Ht) in Hsh as (q & Hq & Hin). simpl in Hq, Hnw.
  pose proof (li_queue _ Hinv rid q Hq) as Hqi. destruct (iterator_ok q Hqi id SHARED true Hin) as (i & Hit & Hi).
  assert (Habort : forall reason, exists r w', (do! _ := upd_txn id (Txn_SetState ABORTED) in sret (Thrown reason)) w = Ok (r, w')
     /\ lock_inv (MkLockSystem w' (settle id OpUpgrade rid r wt))).
  { intros reason. unfold sbind, upd_txn, sbind, get_txn. rewrite Ht. simpl. eexists _, _. split; [done|]. simpl.
    by apply (inv_abort w wt id t). }
  simpl. unfold LockUpgrade. unfold sbind at 1, get_txn. rewrite Ht. simpl. unfold Txn_GetState.
  destruct (decide (state_ t = SHRINKING)) as [Hs|Hs]; [apply Habort|].
  unfold sbind at 1, get_queue at 1. rewrite Hq. simpl. destruct (upgrading_ q) eqn:Eu; [apply Habort|].
  destruct (upgrade_request_ok w wt id rid t q i Hinv Ht Hw Hq Hi) as (Hinv1 & Hr1 & Hid).
  set (t' := Txn_set_locks _ _ t) in *. set (q1 := MkQueue _ _ _ _) in *. set (w1 := changed w id rid t' q1 (id_2_txn_ w)) in *.
  assert (Ht1 : txns_ w1 !! id = Some t') by apply lookup_insert_eq.
  assert (Hq1 : lock_table_ w1 !! rid = Some q1) by apply lookup_insert_eq.
  unfold sbind at 1, upd_txn, sbind at 1, get_txn. rewrite Ht. simpl.
  unfold sbind at 1, lift, with_request. simpl. rewrite Hit. simpl.
  unfold sbind at 1, put_queue at 1. simpl.
  match goal with |- context [set_table ?a ?b] => replace (set_table a b) with w1 end.
  2:{ unfold w1, changed, set_table, set_txns, q1, set_requests, set_counts, t'. simpl. by rewrite Eu. }
  destruct (is_writing_ q || (0 <? sharing_count_ q - 1)) eqn:Ec.
  - assert (Hny : nobody_younger id q).
    { apply (Hnw q Hq). apply orb_true_iff in Ec as [Ec|Ec%Z.ltb_lt]; [by left|right; lia]. }
    unfold sbind at 1, DeadlockPrevent, sbind at 1, get_queue. rewrite Hq1. simpl. rewrite DeadlockPrevent_none.
    2:{ simpl. by apply Forall_insert. }
    unfold sbind at 1. rewrite Hq1. simpl. unfold sbind at 1, put_queue. simpl.
    set (q2 := set_counts true (sharing_count_ q1) (is_writing_ q1) q1).
    assert (Hinv2 : lock_inv (MkLockSystem (set_table (<[rid := q2]> (lock_table_ w1)) w1) wt)).
    { apply (inv_flag w1 wt id rid t' q1 true); done. }
    apply (lock_wait_ok _ wt id rid t' OpUpgrade q2 Hinv2 Ht1); [apply lookup_insert_eq|done|done].
  - destruct (lock_finish_ok w1 wt id rid t' OpUpgrade q1 Hinv1 Ht1 Hq1) as (r & w' & Hrun & Hne & Hinv'); [done|done| |].
    + intros _. apply orb_false_iff in Ec as [E1 E2%Z.ltb_ge]. split; [done|]. intros _. simpl.
      pose proof (qi_count _ Hqi) as Hc. pose proof (count_elem SHARED _ _ Hin) as Hc'. unfold weight in Hc'. simpl in Hc'. lia.
    + exists r, w'. split; [exact Hrun|]. by destruct r.
Qed.

(** Releasing a granted request. *)
Lemma release_ok w wt id rid t t' q (i : nat) m up :
  lock_inv (MkLockSystem w wt) -> txns_ w !! id = Some t -> wt !! id = None -> lock_table_ w !! rid = Some q ->
  request_queue_ q !! i = Some (MkRequest id m true) ->
  shared_lock_set_ t' = shared_lock_set_ t ∖ {[rid]} -> exclusive_lock_set_ t' = exclusive_lock_set_ t ∖ {[rid]} ->
  let q' := MkQueue (delete i (request_queue_ q)) up
    (match m with SHARED => sharing_count_ q - 1 | EXCLUSIVE => sharing_count_ q end)
    (match m with SHARED => is_writing_ q | EXCLUSIVE => false end) in
  lock_inv (MkLockSystem (changed w id rid t' q' (id_2_txn_ w)) wt).
Proof.
  intros Hinv Ht Hw Hq Hi Es Ee q'. pose proof (li_queue _ Hinv rid q Hq) as Hqi.
  assert (Hin : MkRequest id m true ∈ request_queue_ q) by (apply list_elem_of_lookup; by exists i).
  assert (Hreq : forall r, requested w rid r <-> r ∈ request_queue_ q).
  { intros r. unfold requested. split; [intros (q0 & ? & ?); by simplify_eq|by exists q]. }
  assert (Hid : id ∈ id_2_txn_ w) by (apply (li_txn _ Hinv rid _ (proj2 (Hreq _) Hin))).
  assert (Hgone : forall m' g, MkRequest id m' g ∉ request_queue_ q') by (intros m' g; by eapply deleted_gone).
  apply (inv_change w wt id rid t); try done.
  - pose proof (qi_write _ Hqi) as Hwr. pose proof (qi_count _ Hqi) as Hc. pose proof (qi_sep _ Hqi) as Hs.
    pose proof (count_elem m _ _ Hin) as Hge. unfold q'.
    destruct m; eapply (queue_delete q Hqi i); try exact Hi; unfold weight in *; simpl in *; rewrite ?Z.sub_0_r; try done; try lia;
      destruct (is_writing_ q); try (specialize (Hs eq_refl)); lia.
  - intros r Hne. rewrite Hreq. simpl. by eapply others_delete.
  - intros rid' Hne. rewrite Es, Ee. set_solver.
  - rewrite Es. split; [set_solver|]. intros Hx. by apply Hgone in Hx.
  - rewrite Ee. split; [set_solver|]. intros Hx. by apply Hgone in Hx.
  - set_solver.
  - intros op rid' Hx. congruence.
Qed.

Lemma call_unlock_ok w wt id rid :
  lock_inv (MkLockSystem w wt) -> wt !! id = None -> holds_shared w id rid \/ holds_exclusive w id rid ->
  exists w', run_call id OpUnlock rid w = Ok (Returned true, w') /\ lock_inv (MkLockSystem w' (delete id wt)).
Proof.
  intros Hinv Hw Hh. rewrite delete_id by done.
  assert (Hreq : exists t q m, txns_ w !! id = Some t /\ lock_table_ w !! rid = Some q /\ MkRequest id m true ∈ request_queue_ q).
  { destruct Hh as [(t & Ht & Hx)|(t & Ht & Hx)].
    - apply (li_shared _ Hinv id t rid Ht) in Hx as (q & Hq & Hin). by exists t, q, SHARED.
    - apply (li_exclusive _ Hinv id t rid Ht) in Hx as (q & Hq & Hin). by exists t, q, EXCLUSIVE. }
  destruct Hreq as (t & q & m & Ht & Hq & Hin). pose proof (li_queue _ Hinv rid q Hq) as Hqi.
  destruct (iterator_ok q Hqi id m true Hin) as (i & Hit & Hi).
  set (t1 := Txn_set_locks (shared_lock_set_ t ∖ {[rid]}) (exclusive_lock_set_ t ∖ {[rid]}) t).
  set (t2 := if negb (bool_decide (m = SHARED) && bool_decide (isolation_level_ t1 = READ_COMMITTED))
       && bool_decide (Txn_GetState t1 = GROWING) then Txn_SetState SHRINKING t1 else t1).
  eexists. split.
  2:{ apply (release_ok w wt id rid t t2 q i m (upgrading_ q) Hinv Ht Hw Hq Hi); unfold t2; by destruct (_ && _). }
  simpl. unfold LM_Unlock. unfold sbind at 1, get_queue. rewrite Hq. simpl.
  unfold sbind at 1, upd_txn at 1, sbind at 1, get_txn. rewrite Ht. simpl. fold t1.
  unfold sbind at 1, lift at 1. rewrite Hit. simpl. unfold sbind at 1, lift, erase_request. rewrite Hit. simpl.
  unfold sbind at 1, put_queue at 1. simpl. unfold sbind at 1. simpl. rewrite lookup_insert_eq. simpl.
  unfold sbind, t2. destruct (negb _ && _).
  - unfold upd_txn, sbind, get_txn. simpl. rewrite lookup_insert_eq. simpl. unfold changed, set_table, set_txns.
    destruct m; simpl; by rewrite !insert_insert_eq.
  - unfold changed, set_table, set_txns. destruct m; simpl; by rewrite !insert_insert_eq.
Qed.

(** *** Steps and runs *)

Lemma lock_step_ok a s :
  lock_inv s -> disciplined a s -> no_wound a s -> exists r s', lock_step a s = Ok (r, s') /\ lock_inv s'.
Proof.
  intros Hinv Hd Hnw. destruct s as [w wt]. destruct a as [id op rid|id]; simpl.
  - destruct (wt !! id) as [?|] eqn:Hw; [by eexists _, _|].
    assert (Hcall : exists r w', run_call id op rid w = Ok (r, w') /\ lock_inv (MkLockSystem w' (settle id op rid r wt))).
    { destruct op.
      - destruct Hd as [[t Ht] Hno]. apply (call_lock_ok w wt id rid t); [done|done|done|by left|done|done].
      - destruct Hd as [[t Ht] Hno]. apply (call_lock_ok w wt id rid t); [done|done|done|by right|done|done].
      - by apply call_upgrade_ok.
      - destruct (call_unlock_ok w wt id rid Hinv Hw Hd) as (w' & Hrun & Hinv'). by exists (Returned true), w'. }
    destruct Hcall as (r & w' & -> & Hinv'). by eexists _, _.
  - destruct (wt !! id) as [[op rid]|] eqn:Hw; [|by eexists _, _].
    destruct (li_waiting _ Hinv id op rid Hw) as (Hop & q & Hq & Hin). simpl in *.
    destruct (li_txn _ Hinv rid (MkRequest id (op_mode op) false)) as [[t Ht] _]; [by exists q|]. simpl in Ht.
    destruct (lock_wait_ok w wt id rid t op q Hinv Ht Hq Hop Hin) as (r & w' & -> & Hinv'). by eexists _, _.
Qed.

(** Every action of the run is disciplined and wounds nobody. *)
Fixpoint quiet_run (l : list lock_action) (s : LockSystem) : Prop :=
  match l with
  | [] => True
  | a :: l => disciplined a s /\ no_wound a s /\ forall r s', lock_step a s = Ok (r, s') -> quiet_run l s'
  end.

Lemma lock_run_ok l s : lock_inv s -> quiet_run l s -> exists rs s', lock_run l s = Ok (rs, s') /\ lock_inv s'.
Proof.
  revert s. induction l as [|a l IH]; intros s Hinv Hq; simpl; [by eexists _, _|].
  destruct Hq as (Hd & Hnw & Hrest). destruct (lock_step_ok a s Hinv Hd Hnw) as (r & s1 & Hrun & Hinv1). rewrite Hrun. simpl.
  destruct (IH s1 Hinv1 (Hrest r s1 Hrun)) as (rs & s' & -> & Hinv'). by eexists _, _.
Qed.

Lemma lock_start_inv `{Config} l : NoDup l.*1 -> lock_inv (lock_start l).
Proof.
  intros Hn. assert (Hno : forall rid r, ~ requested (world (lock_start l)) rid r).
  { intros rid r (q & Hq & _). simpl in Hq. by rewrite lookup_empty in Hq. }
  assert (Htxn : forall id t, txns_ (world (lock_start l)) !! id = Some t -> shared_lock_set_ t = ∅ /\ exclusive_lock_set_ t = ∅).
  { intros id t Ht. simpl in Ht. apply elem_of_list_to_map_2 in Ht. apply list_elem_of_fmap in Ht as ([? ?] & [= -> ->] & _). done. }
  split.
  - intros rid q Hq. simpl in Hq. by rewrite lookup_empty in Hq.
  - intros rid r Hr. by apply Hno in Hr.
  - intros id t rid Ht. destruct (Htxn id t Ht) as [-> _]. split; [set_solver|]. intros Hr. by apply Hno in Hr.
  - intros id t rid Ht. destruct (Htxn id t Ht) as [_ ->]. split; [set_solver|]. intros Hr. by apply Hno in Hr.
  - intros id op rid Hw. simpl in Hw. by rewrite lookup_empty in Hw.
Qed.

(** Mutual exclusion of the granted locks. *)
Lemma inv_exclusion s id id' rid : lock_inv s ->
  holds_exclusive (world s) id rid -> holds_exclusive (world s) id' rid \/ holds_shared (world s) id' rid ->
  id = id' /\ ~ holds_shared (world s) id' rid.
Proof.
  intros Hinv (t & Ht & Hx) Hor. apply (li_exclusive _ Hinv id t rid Ht) in Hx as (q & Hq & Hin).
  pose proof (li_queue _ Hinv rid q Hq) as Hqi.
  assert (Hns : forall id0, ~ holds_shared (world s) id0 rid).
  { intros id0 (t0 & Ht0 & H0). apply (li_shared _ Hinv id0 t0 rid Ht0) in H0 as (q0 & Hq0 & Hin0). simplify_eq.
    by destruct (exclusive_alone q Hqi _ _ _ Hin Hin0). }
  split; [|apply Hns]. destruct Hor as [(t0 & Ht0 & H0)|H0]; [|by apply Hns in H0].
  apply (li_exclusive _ Hinv id' t0 rid Ht0) in H0 as (q0 & Hq0 & Hin0). simplify_eq.
  by destruct (exclusive_alone q Hqi _ _ _ Hin Hin0).
Qed.

(** *** Wounding *)

Definition wounded (id : Z) (l : list LockRequest) (id' : Z) : bool :=
  existsb (fun r => granted_ r && (id <? req_txn_id_ r) && (req_txn_id_ r =? id')) l.

Definition wound (b : bool) (t : Transaction) : Transaction := if b then Txn_SetState ABORTED t else t.

Lemma wound_loop_ok id rid l w q :
  lock_table_ w !! rid = Some q ->
  (forall r, r ∈ l -> is_Some (txns_ w !! req_txn_id_ r) /\ req_txn_id_ r ∈ id_2_txn_ w) ->
  exists w' q', DeadlockPrevent_loop id rid l w = Ok (tt, w') /\ lock_table_ w' !! rid = Some q' /\ request_queue_ q' = request_queue_ q
    /\ id_2_txn_ w' = id_2_txn_ w
    /\ (forall rid', rid' <> rid -> lock_table_ w' !! rid' = lock_table_ w !! rid')
    /\ (forall id', txns_ w' !! id' = wound (wounded id l id') <$> txns_ w !! id').
Proof.
  revert w q. induction l as [|r l IH]; intros w q Hq Hl.
  { exists w, q. split_and!; try done. intros id'. simpl. by destruct (txns_ w !! id'). }
  destruct (Hl r) as [[t Ht] Hid]; [set_solver|]. cbn [DeadlockPrevent_loop].
  destruct (granted_ r && (id <? req_txn_id_ r)) eqn:E.
  2:{ unfold sbind at 1. simpl. destruct (IH w q Hq) as (w' & q' & Hrun & H1 & H2 & H3 & H4 & H5); [intros x Hx; apply Hl; set_solver|].
      exists w', q'. split_and!; try done. intros id'. rewrite H5. unfold wounded. simpl. by rewrite E. }
  set (q1 := match lock_mode_ r with SHARED => set_counts (upgrading_ q) (sharing_count_ q - 1) (is_writing_ q) q
             | EXCLUSIVE => set_counts (upgrading_ q) (sharing_count_ q) false q end).
  set (w1 := MkLockWorld (<[req_txn_id_ r := Txn_SetState ABORTED t]> (txns_ w)) (<[rid := q1]> (lock_table_ w)) (id_2_txn_ w)).
  destruct (IH w1 q1) as (w' & q' & Hrun & H1 & H2 & H3 & H4 & H5).
  - apply lookup_insert_eq.
  - intros x Hx. destruct (Hl x) as [Hs Hi]; [set_solver|]. split; [|done]. simpl. rewrite lookup_insert.
    case_decide; [by eexists|done].
  - exists w', q'. split_and!; try done.
    + rewrite <- Hrun. unfold sbind at 1 2. rewrite decide_True by done. unfold upd_txn, sbind, get_txn. rewrite Ht. simpl.
      unfold get_queue. simpl. rewrite Hq. simpl. unfold w1, q1. by destruct (lock_mode_ r).
    + rewrite H2. unfold q1. by destruct (lock_mode_ r).
    + intros rid' Hne. rewrite H4 by done. simpl. by rewrite lookup_insert_ne.
    + intros id'. rewrite H5. simpl. unfold wounded. simpl. rewrite E. simpl.
      destruct (Z.eqb_spec (req_txn_id_ r) id') as [<-|Hne]; simpl.
      * rewrite lookup_insert_eq, Ht. simpl. f_equal. unfold wound, Txn_SetState. simpl. by destruct (existsb _ l).
      * by rewrite lookup_insert_ne.
Qed.

(** Discharges [quiet_run] at a concrete start: every state is computed. *)
Ltac quiet_fact :=
  match goal with
  | |- is_Some _ => eexists; vm_compute; reflexivity
  | |- forall m g, ~ requested _ _ _ =>
      let Hq := fresh in let Hin := fresh in
      intros ? ? (? & Hq & Hin); vm_compute in Hq; first [discriminate Hq | injection Hq as <-];
      vm_compute in Hin; apply list_elem_of_In in Hin; simpl in Hin; intuition discriminate
  | |- forall q, _ -> _ =>
      let Hq := fresh in
      intros ? Hq; vm_compute in Hq; first [discriminate Hq | injection Hq as <-]; unfold nobody_younger; simpl; intros _;
      repeat constructor; simpl; lia
  | |- holds_shared _ _ _ => eexists; split; vm_compute; reflexivity
  | |- holds_shared _ _ _ \/ _ => left; eexists; split; vm_compute; reflexivity
  | |- holds_shared _ _ _ \/ _ => right; eexists; split; vm_compute; reflexivity
  | |- True => exact I
  end.
Ltac quiet :=
  cbn [quiet_run]; repeat (split; [cbn [disciplined]; try split; quiet_fact | split; [cbn [no_wound]; quiet_fact |]];
    let H := fresh in intros ? ? H; vm_compute in H; injection H as <- <-; cbn [quiet_run]); exact I.

(** ** Properties *)

(** C10: as long as no transaction is wounded and the callers follow the
    documented discipline, every interleaving of calls and wake-ups runs without
    undefined behaviour, and an exclusive lock excludes every other lock on its
    record. *)
Theorem LockManager_mutual_exclusion `{Config} (l : list (Z * IsolationLevel)) (actions : list lock_action) :
  NoDup l.*1 -> quiet_run actions (lock_start l) ->
  exists answers s, lock_run actions (lock_start l) = Ok (answers, s)
    /\ forall id id' rid, holds_exclusive (world s) id rid ->
         holds_exclusive (world s) id' rid \/ holds_shared (world s) id' rid ->
         id = id' /\ ~ holds_shared (world s) id' rid.
Proof.
  intros Hn Hq. destruct (lock_run_ok actions (lock_start l) (lock_start_inv l Hn) Hq) as (rs & s & Hrun & Hinv).
  exists rs, s. split; [done|]. intros id id' rid. by apply inv_exclusion.
Qed.

(** Two readers, a writer that waits for them, and its turn. *)
Lemma LockManager_mutual_exclusion_witness :
  let txns := [(0, REPEATABLE_READ); (1, READ_COMMITTED); (2, REPEATABLE_READ)] in
  let r := MkRID 3 1 in
  let actions := [Call 0 OpShared r; Call 1 OpShared r; Call 2 OpExclusive r; Call 0 OpUnlock r; Call 1 OpUnlock r; Wake 2] in
  exists answers s, lock_run actions (lock_start txns) = Ok (answers, s)
    /\ forall id id' rid, holds_exclusive (world s) id rid ->
         holds_exclusive (world s) id' rid \/ holds_shared (world s) id' rid ->
         id = id' /\ ~ holds_shared (world s) id' rid.
Proof.
  intros txns r actions. apply (LockManager_mutual_exclusion txns actions).
  - subst txns. simpl. repeat constructor; set_solver.
  - quiet.
Defined.

(** wounding breaks mutual exclusion.  An older transaction takes the lock
    of a younger one; when the wounded transaction aborts and releases the lock
    it no longer has, [Unlock] clears [is_writing_] a second time, and a third
    transaction is granted an exclusive lock the older one still holds; both
    are live. *)
Theorem LockManager_two_exclusive `{Config} :
  exists s, lock_run [Call 1 OpExclusive (MkRID 0 0); Call 0 OpExclusive (MkRID 0 0); Call 1 OpUnlock (MkRID 0 0);
                      Call 2 OpExclusive (MkRID 0 0)]
      (lock_start [(0, REPEATABLE_READ); (1, REPEATABLE_READ); (2, REPEATABLE_READ)])
      = Ok ([Returned true; Returned true; Returned true; Returned true], s)
    /\ holds_exclusive (world s) 0 (MkRID 0 0) /\ holds_exclusive (world s) 2 (MkRID 0 0)
    /\ txn_live (world s) 0 /\ txn_live (world s) 2.
Proof.
  eexists. split; [by vm_compute|]. unfold holds_exclusive, txn_live. split_and!; eexists; (split; [by vm_compute|]).
  - by vm_compute.
  - by vm_compute.
  - done.
  - done.
Qed.

(** C33: [DeadlockPrevent] aborts exactly the transactions that hold a granted
    lock on the record and are younger than the requester; it changes no lock
    set, no request and no other queue. *)
Theorem LockManager_wound_wait (w : LockWorld) (id : Z) (rid : RID) (q : LockRequestQueue) :
  lock_table_ w !! rid = Some q ->
  (forall r, r ∈ request_queue_ q -> is_Some (txns_ w !! req_txn_id_ r) /\ req_txn_id_ r ∈ id_2_txn_ w) ->
  exists w' q', DeadlockPrevent id rid w = Ok (tt, w')
    /\ lock_table_ w' !! rid = Some q' /\ request_queue_ q' = request_queue_ q
    /\ (forall rid', rid' <> rid -> lock_table_ w' !! rid' = lock_table_ w !! rid')
    /\ forall id' t, txns_ w !! id' = Some t ->
         exists t', txns_ w' !! id' = Some t' /\ shared_lock_set_ t' = shared_lock_set_ t
           /\ exclusive_lock_set_ t' = exclusive_lock_set_ t
           /\ let younger_holder := exists r, r ∈ request_queue_ q /\ granted_ r = true /\ req_txn_id_ r = id' /\ id < id' in
              (younger_holder -> state_ t' = ABORTED) /\ (~ younger_holder -> state_ t' = state_ t).
Proof.
  intros Hq Hl. destruct (wound_loop_ok id rid (request_queue_ q) w q Hq Hl) as (w' & q' & Hrun & H1 & H2 & H3 & H4 & H5).
  exists w', q'. split_and!; [|done|done|done|].
  { unfold DeadlockPrevent, sbind, get_queue. by rewrite Hq. }
  intros id' t Ht. rewrite H5, Ht. simpl. eexists. split; [done|].
  assert (Hw : wounded id (request_queue_ q) id' = true <-> exists r, r ∈ request_queue_ q /\ granted_ r = true /\ req_txn_id_ r = id' /\ id < id').
  { unfold wounded. rewrite existsb_exists. split.
    - intros (r & Hr & [[Hg Hlt%Z.ltb_lt]%andb_true_iff He%Z.eqb_eq]%andb_true_iff). exists r. apply list_elem_of_In in Hr.
      split_and!; try done. by rewrite <- He.
    - intros (r & Hr & Hg & He & Hlt). exists r. split; [by apply list_elem_of_In|]. rewrite Hg, He. simpl.
      apply andb_true_iff. split; [by apply Z.ltb_lt|by apply Z.eqb_eq]. }
  unfold wound. destruct (wounded _ _ _); (split_and!; [done|done|..]); [done|intros Hn; destruct Hn; by apply Hw| |done].
  intros Hy%Hw. done.
Qed.

(** A younger writer is wounded by an older reader. *)
Lemma LockManager_wound_wait_witness :
  let w := world (lock_start [(0, REPEATABLE_READ); (1, REPEATABLE_READ)]) in
  let q := MkQueue [MkRequest 1 EXCLUSIVE true; MkRequest 0 SHARED false] false 0 true in
  let w := MkLockWorld (txns_ w) {[MkRID 0 0 := q]} {[0; 1]} in
  exists w' q', DeadlockPrevent 0 (MkRID 0 0) w = Ok (tt, w')
    /\ lock_table_ w' !! MkRID 0 0 = Some q' /\ request_queue_ q' = request_queue_ q
    /\ (forall rid', rid' <> MkRID 0 0 -> lock_table_ w' !! rid' = lock_table_ w !! rid')
    /\ forall id' t, txns_ w !! id' = Some t ->
         exists t', txns_ w' !! id' = Some t' /\ shared_lock_set_ t' = shared_lock_set_ t
           /\ exclusive_lock_set_ t' = exclusive_lock_set_ t
           /\ let younger_holder := exists r, r ∈ request_queue_ q /\ granted_ r = true /\ req_txn_id_ r = id' /\ 0 < id' in
              (younger_holder -> state_ t' = ABORTED) /\ (~ younger_holder -> state_ t' = state_ t).
Proof.
  intros w0 q w. apply (LockManager_wound_wait w 0 (MkRID 0 0) q).
  - by vm_compute.
  - intros r Hr. subst q. simpl in Hr. apply elem_of_cons in Hr as [->|Hr]; [split; [by eexists|by vm_compute]|].
    apply list_elem_of_singleton in Hr as ->. split; [by eexists|by vm_compute].
Defined.

(** C34: two-phase locking.  A shrinking transaction gets no lock: each of the
    three requests throws and aborts it without touching the lock table.  A
    release of the only request a transaction has in a queue erases it, leaves
    the record in no lock set and, if the transaction was growing, makes it
    shrinking, unless the lock was shared and the level is read committed. *)
Theorem LockManager_two_phase (w : LockWorld) (id : Z) (rid : RID) (t : Transaction) :
  txns_ w !! id = Some t ->
  (state_ t = SHRINKING -> forall op, op = OpExclusive \/ op = OpUpgrade \/ (op = OpShared /\ isolation_level_ t <> READ_UNCOMMITTED) ->
     exists w', run_call id op rid w = Ok (Thrown LOCK_ON_SHRINKING, w') /\ lock_table_ w' = lock_table_ w
       /\ txns_ w' = <[id := Txn_SetState ABORTED t]> (txns_ w))
  /\ (forall q l1 m g l2, lock_table_ w !! rid = Some q -> request_queue_ q = l1 ++ MkRequest id m g :: l2 ->
        Forall (fun r => req_txn_id_ r <> id) l1 ->
        exists w' q' t', LM_Unlock id rid w = Ok (Returned true, w')
          /\ lock_table_ w' = <[rid := q']> (lock_table_ w) /\ request_queue_ q' = l1 ++ l2
          /\ txns_ w' = <[id := t']> (txns_ w)
          /\ rid ∉ shared_lock_set_ t' /\ rid ∉ exclusive_lock_set_ t'
          /\ state_ t' = (if decide (state_ t = GROWING /\ ~ (m = SHARED /\ isolation_level_ t = READ_COMMITTED))
                          then SHRINKING else state_ t)).
Proof.
  intros Ht. split.
  - intros Hs op Hop.
    assert (Hrun : forall w1, txns_ w1 = txns_ w -> LockPrepare id rid w1 = Ok (Some LOCK_ON_SHRINKING, set_txns (<[id := Txn_SetState ABORTED t]> (txns_ w)) w1)).
    { intros w1 Hw1. unfold LockPrepare, upd_txn, sbind, get_txn, Txn_GetState. rewrite Hw1, Ht. simpl. rewrite Hs. simpl.
      rewrite Hw1, Ht. simpl. by rewrite Hw1. }
    destruct Hop as [->|[->|[-> Hi]]]; simpl.
    + unfold LockExclusive, sbind, emplace_id. rewrite Hrun by done. simpl. by eexists.
    + unfold LockUpgrade, upd_txn, sbind, get_txn, Txn_GetState. rewrite Ht. simpl. rewrite Hs. simpl. rewrite Ht. simpl. by eexists.
    + unfold LockShared. unfold sbind at 1, emplace_id at 1. unfold sbind at 1, get_txn at 1. cbn [txns_]. rewrite Ht. cbn [of_option rbind].
      rewrite decide_False by done. unfold sbind. rewrite Hrun by done. simpl. by eexists.
  - intros q l1 m g l2 Hq Hl Hn.
    assert (Hit : GetIterator (request_queue_ q) id = Some (length l1, MkRequest id m g)).
    { unfold GetIterator. rewrite Hl. apply list_find_Some. split_and!; [by rewrite lookup_app_r, Nat.sub_diag|done|].
      intros j y Hj Hlt. rewrite lookup_app_l in Hj by done. exact (proj1 (Forall_lookup _ _) Hn j y Hj). }
    assert (Hdel : delete (length l1) (request_queue_ q) = l1 ++ l2).
    { rewrite Hl. rewrite delete_take_drop. rewrite take_app_length. f_equal.
      rewrite drop_app_ge by lia. by replace (S (length l1) - length l1)%nat with 1%nat by lia. }
    unfold LM_Unlock, upd_txn, sbind, get_txn, get_queue, put_queue, erase_request, lift. rewrite Hq. simpl. rewrite Ht. simpl.
    rewrite Hit. simpl. rewrite lookup_insert_eq. simpl. unfold Txn_GetState. simpl.
    destruct (bool_decide (state_ t = GROWING)) eqn:Eg; [apply bool_decide_eq_true in Eg|apply bool_decide_eq_false in Eg].
    + destruct (bool_decide (m = SHARED) && bool_decide (isolation_level_ t = READ_COMMITTED)) eqn:Em; simpl.
      * apply andb_true_iff in Em as [Em%bool_decide_eq_true Ei%bool_decide_eq_true]. subst m.
        rewrite decide_False by tauto.
        eexists _, _, _; split_and!; [done|simpl; by rewrite insert_insert_eq|simpl; exact Hdel|done|set_solver..|done].
      * rewrite lookup_insert_eq. simpl.
        rewrite decide_True by (split; [done|]; intros [-> Hi]; by rewrite Hi in Em).
        destruct m; (eexists _, _, _; split_and!; [done|simpl; by rewrite insert_insert_eq|simpl; exact Hdel|simpl; by rewrite insert_insert_eq|set_solver..|done]).
    + rewrite andb_false_r. simpl. rewrite decide_False by tauto.
      destruct m; (eexists _, _, _; split_and!; [done|simpl; by rewrite insert_insert_eq|simpl; exact Hdel|done|set_solver..|done]).
Qed.

Lemma LockManager_two_phase_witness :
  let t := Txn_SetState SHRINKING (Transaction_new 0 REPEATABLE_READ) in
  let r := MkRID 0 0 in
  let q := MkQueue [MkRequest 1 SHARED true; MkRequest 0 SHARED true] false 2 false in
  let w := MkLockWorld {[0 := t]} {[r := q]} {[0; 1]} in
  (exists w', run_call 0 OpExclusive r w = Ok (Thrown LOCK_ON_SHRINKING, w'))
  /\ exists w' q', LM_Unlock 0 r w = Ok (Returned true, w') /\ lock_table_ w' = <[r := q']> (lock_table_ w)
       /\ request_queue_ q' = [MkRequest 1 SHARED true].
Proof.
  intros t r q w. destruct (LockManager_two_phase w 0 r t) as [H1 H2]; [by vm_compute|]. split.
  - destruct (H1 eq_refl OpExclusive) as (w' & Hw & _); [by left|]. by exists w'.
  - destruct (H2 q [MkRequest 1 SHARED true] SHARED true []) as (w' & q' & t' & Hw & Hq & Hl & _); [done|done|by repeat constructor|].
    exists w', q'. done.
Defined.
