(* ===== verification/Log.v ===== *)
(** Log records and the log ([src/include/recovery/log_record.h],
    [src/include/recovery/log_manager.h], [src/recovery/log_manager.cpp],
    [src/recovery/log_recovery.cpp], [src/recovery/checkpoint_manager.cpp]).

    The records are complete in the code; what appends, writes, reads and replays
    them are stubs, and nothing turns logging on.  The layout a record is to have
    on disk is the comment of the class. *)

From S2P Require Import Prelude Bytes Rid TablePage.

(** ** Definitions *)

Inductive LogRecordType : Type :=
| LOG_INVALID | LOG_INSERT | LOG_MARKDELETE | LOG_APPLYDELETE | LOG_ROLLBACKDELETE
| LOG_UPDATE | LOG_BEGIN | LOG_COMMIT | LOG_ABORT | LOG_NEWPAGE.
#[export] Instance LogRecordType_eq_dec : EqDecision LogRecordType.
Proof. solve_decision. Defined.

(** The values of the enumeration. *)
Definition LogRecordType_num (t : LogRecordType) : Z :=
  match t with
  | LOG_INVALID => 0 | LOG_INSERT => 1 | LOG_MARKDELETE => 2 | LOG_APPLYDELETE => 3 | LOG_ROLLBACKDELETE => 4
  | LOG_UPDATE => 5 | LOG_BEGIN => 6 | LOG_COMMIT => 7 | LOG_ABORT => 8 | LOG_NEWPAGE => 9
  end.

Record LogRecord : Type := MkLogRecord {
  lr_size_ : Z;
  lr_lsn_ : Z;
  lr_txn_id_ : Z;
  lr_prev_lsn_ : Z;
  log_record_type_ : LogRecordType;
  delete_rid_ : RID;
  delete_tuple_ : Tuple;
  insert_rid_ : RID;
  insert_tuple_ : Tuple;
  update_rid_ : RID;
  old_tuple_ : Tuple;
  new_tuple_ : Tuple;
  lr_prev_page_id_ : Z;
  lr_page_id_ : Z
}.

Definition LOG_HEADER_SIZE : Z := 20.
Definition sizeof_RID : Z := 8.

(** A sum of an [int], sizes and tuple lengths is a [size_t], stored in an [int32_t]. *)
Definition size_sum (z : Z) : Z := signed 32 (unsigned 64 z).

Section Records.
Context `{Config} (INVALID_TXN_ID : Z).
Implicit Types (t : LogRecordType) (rid : RID) (tuple : Tuple).

Definition LogRecord_default : LogRecord :=
  MkLogRecord 0 INVALID_LSN INVALID_TXN_ID INVALID_LSN LOG_INVALID RID_default Tuple_default RID_default Tuple_default
    RID_default Tuple_default Tuple_default INVALID_PAGE_ID INVALID_PAGE_ID.

(** The record of a transaction's begin, commit or abort. *)
Definition LogRecord_txn (txn_id prev_lsn : Z) t : LogRecord :=
  MkLogRecord LOG_HEADER_SIZE INVALID_LSN txn_id prev_lsn t RID_default Tuple_default RID_default Tuple_default
    RID_default Tuple_default Tuple_default INVALID_PAGE_ID INVALID_PAGE_ID.

(** An insertion or a deletion. *)
Definition LogRecord_tuple (txn_id prev_lsn : Z) t rid tuple : res LogRecord :=
  let size := size_sum (LOG_HEADER_SIZE + sizeof_RID + 4 + tuple_size_ tuple) in
  if decide (t = LOG_INSERT) then
    Ok (MkLogRecord size INVALID_LSN txn_id prev_lsn t RID_default Tuple_default rid tuple
          RID_default Tuple_default Tuple_default INVALID_PAGE_ID INVALID_PAGE_ID)
  else
    let! _ := assert (bool_decide (t = LOG_APPLYDELETE) || bool_decide (t = LOG_MARKDELETE) || bool_decide (t = LOG_ROLLBACKDELETE)) in
    Ok (MkLogRecord size INVALID_LSN txn_id prev_lsn t rid tuple RID_default Tuple_default
          RID_default Tuple_default Tuple_default INVALID_PAGE_ID INVALID_PAGE_ID).

Definition LogRecord_update (txn_id prev_lsn : Z) t rid (old_tuple new_tuple : Tuple) : LogRecord :=
  MkLogRecord (size_sum (LOG_HEADER_SIZE + sizeof_RID + tuple_size_ old_tuple + tuple_size_ new_tuple + 2 * 4))
    INVALID_LSN txn_id prev_lsn t RID_default Tuple_default RID_default Tuple_default
    rid old_tuple new_tuple INVALID_PAGE_ID INVALID_PAGE_ID.

Definition LogRecord_newpage (txn_id prev_lsn : Z) t (prev_page_id page_id : Z) : LogRecord :=
  MkLogRecord (size_sum (LOG_HEADER_SIZE + 4 * 2)) INVALID_LSN txn_id prev_lsn t RID_default Tuple_default RID_default Tuple_default
    RID_default Tuple_default Tuple_default prev_page_id page_id.
End Records.

(** *** The log *)

Record LogManager : Type := MkLogManager {
  next_lsn_ : Z;
  persistent_lsn_ : Z
}.

Section Log.
Context `{Config}.
Implicit Types (g : LogManager) (r : LogRecord).

Definition LogManager_new : LogManager := MkLogManager 0 INVALID_LSN.
Definition RunFlushThread g : LogManager := g.
Definition StopFlushThread g : LogManager := g.
Definition AppendLogRecord r g : Z * LogRecord * LogManager := (INVALID_LSN, r, g).
Definition SetPersistentLSN (lsn : Z) g : LogManager := MkLogManager (next_lsn_ g) lsn.

(** The recovery manager and the checkpoints keep the state [S] of the pool. *)
Context {S : Type}.
Definition Redo : M S unit := sret tt.
Definition Undo : M S unit := sret tt.
Definition DeserializeLogRecord (data : bytes) r : bool * LogRecord := (false, r).
Definition BeginCheckpoint : M S unit := sret tt.
Definition EndCheckpoint : M S unit := sret tt.
End Log.

(** ** The layout of the comment *)

Definition rid_bytes (r : RID) : bytes := le_split 4 (page_id_ r) ++ le_split 4 (slot_num_ r).
Definition tuple_bytes (t : Tuple) : bytes := le_split 4 (tuple_size_ t) ++ tuple_data_ t.

(** The five common fields and what follows them for the type of the record. *)
Definition log_header (r : LogRecord) : bytes :=
  le_split 4 (lr_size_ r) ++ le_split 4 (lr_lsn_ r) ++ le_split 4 (lr_txn_id_ r) ++ le_split 4 (lr_prev_lsn_ r)
  ++ le_split 4 (LogRecordType_num (log_record_type_ r)).
Definition log_body (r : LogRecord) : bytes :=
  match log_record_type_ r with
  | LOG_INSERT => rid_bytes (insert_rid_ r) ++ tuple_bytes (insert_tuple_ r)
  | LOG_MARKDELETE | LOG_APPLYDELETE | LOG_ROLLBACKDELETE => rid_bytes (delete_rid_ r) ++ tuple_bytes (delete_tuple_ r)
  | LOG_UPDATE => rid_bytes (update_rid_ r) ++ tuple_bytes (old_tuple_ r) ++ tuple_bytes (new_tuple_ r)
  | LOG_NEWPAGE => le_split 4 (lr_prev_page_id_ r)
  | LOG_INVALID | LOG_BEGIN | LOG_COMMIT | LOG_ABORT => []
  end.
Definition log_layout (r : LogRecord) : bytes := log_header r ++ log_body r.

Definition layout_length (r : LogRecord) : Z := Z.of_nat (length (log_layout r)).

(** ** Lemmas *)

Lemma size_sum_ok z : 0 <= z < 2 ^ 31 -> size_sum z = z.
Proof. intros Hz. unfold size_sum. rewrite unsigned_id by (unfold is_unsigned; lia). apply signed_id; [lia|]. unfold is_signed. lia. Qed.

Lemma rid_bytes_length r : length (rid_bytes r) = 8%nat.
Proof. unfold rid_bytes. by rewrite length_app, !le_split_length. Qed.

Lemma tuple_bytes_length t : Z.of_nat (length (tuple_bytes t)) = 4 + tuple_size_ t.
Proof. unfold tuple_bytes, tuple_size_. rewrite length_app, le_split_length. lia. Qed.

Lemma layout_length_body r : layout_length r = LOG_HEADER_SIZE + Z.of_nat (length (log_body r)).
Proof. unfold layout_length, log_layout, log_header, LOG_HEADER_SIZE. rewrite !length_app, !le_split_length. lia. Qed.

Section Sizes.
Context `{Config} (INVALID_TXN_ID : Z).

(** The size of a record is the length of its layout... *)
Lemma LogRecord_txn_size txn prev t : t ∈ [LOG_BEGIN; LOG_COMMIT; LOG_ABORT] ->
  lr_size_ (LogRecord_txn txn prev t) = layout_length (LogRecord_txn txn prev t).
Proof. rewrite layout_length_body. intros Ht. set_unfold. by destruct Ht as [->|[->|[->|[]]]]. Qed.

Lemma LogRecord_tuple_size txn prev t rid tuple :
  t ∈ [LOG_INSERT; LOG_MARKDELETE; LOG_APPLYDELETE; LOG_ROLLBACKDELETE] -> tuple_size_ tuple < 2 ^ 31 - 32 ->
  exists r, LogRecord_tuple txn prev t rid tuple = Ok r /\ lr_size_ r = layout_length r.
Proof.
  intros Ht Hl. assert (0 <= tuple_size_ tuple) by (unfold tuple_size_; lia). set_unfold. unfold LogRecord_tuple.
  destruct Ht as [->|[->|[->|[->|[]]]]]; eexists; (split; [reflexivity|]); rewrite layout_length_body; cbn [log_body lr_size_ log_record_type_ insert_rid_ insert_tuple_ delete_rid_ delete_tuple_ update_rid_ old_tuple_ new_tuple_ LogRecord_update];
    rewrite length_app, Nat2Z.inj_add, rid_bytes_length, tuple_bytes_length, size_sum_ok;
    unfold LOG_HEADER_SIZE, sizeof_RID; lia.
Qed.

Lemma LogRecord_update_size txn prev rid old new : tuple_size_ old + tuple_size_ new < 2 ^ 31 - 36 ->
  lr_size_ (LogRecord_update txn prev LOG_UPDATE rid old new) = layout_length (LogRecord_update txn prev LOG_UPDATE rid old new).
Proof.
  intros Hl. assert (0 <= tuple_size_ old /\ 0 <= tuple_size_ new) by (unfold tuple_size_; lia).
  rewrite layout_length_body. cbn [log_body lr_size_ log_record_type_ insert_rid_ insert_tuple_ delete_rid_ delete_tuple_ update_rid_ old_tuple_ new_tuple_ LogRecord_update]. rewrite !length_app, !Nat2Z.inj_add, rid_bytes_length, !tuple_bytes_length, size_sum_ok;
    unfold LOG_HEADER_SIZE, sizeof_RID; lia.
Qed.

(** ...but for a new page: the size counts the id of the page, which the layout
    does not have. *)
Lemma LogRecord_newpage_size txn prev prev_page page :
  lr_size_ (LogRecord_newpage txn prev LOG_NEWPAGE prev_page page) = layout_length (LogRecord_newpage txn prev LOG_NEWPAGE prev_page page) + 4.
Proof. rewrite layout_length_body. reflexivity. Qed.
End Sizes.
