(* ===== verification/TransactionManager.v ===== *)
(** The transaction manager ([src/concurrency/transaction_manager.cpp],
    [src/include/concurrency/transaction_manager.h]).

    It works on the pool (through the table heaps and indexes the write sets
    name), on the lock manager with its transactions, and on its own members.  A
    [Transaction*] is the transaction's id; [txn_id_t], whose width is not known,
    is unbounded.  The catalog and the indexes of the index write set are the
    interface [TransactionIndexes].  Setting a waiting call aside is left to the
    latch: a call that would wait answers [None]. *)

From S2P Require Import Prelude Bytes Rid BufferPoolManager TablePage Transaction TableHeap LockManager RWLatch.

(** ** Definitions *)

(** What [Abort] needs of the catalog and of an index: the key of a tuple for an
    index ([KeyFromTuple] with the schemas that the catalog has for the table
    and the index), and the two entry points of the index. *)
Class TransactionIndexes (S : Type) : Type := {
  index_key : Z -> Z -> Tuple -> M S Tuple;
  InsertEntry : Z -> Tuple -> RID -> M S unit;
  DeleteEntry : Z -> Tuple -> RID -> M S unit
}.

Record TransactionManager (S : Type) : Type := MkTransactionManager {
  tm_pool_ : S;
  tm_locks_ : LockWorld;
  next_txn_id_ : Z;
  txn_map_ : gmap Z Z;
  global_txn_latch_ : ReaderWriterLatch
}.
Arguments MkTransactionManager {S} _ _ _ _ _.
Arguments tm_pool_ {S} _.
Arguments tm_locks_ {S} _.
Arguments next_txn_id_ {S} _.
Arguments txn_map_ {S} _.
Arguments global_txn_latch_ {S} _.

Section TransactionManager.
Context `{Config} {S P : Type} `{!BufferPoolManager S P bytes} `{!TransactionIndexes S}.
Notation tmgr := (TransactionManager S).
Notation TM := (M tmgr).
Implicit Types (w : tmgr) (id : Z).

Definition on_pool {A} (m : M S A) : TM A := fun w =>
  let! '(a, s) := m (tm_pool_ w) in
  Ok (a, MkTransactionManager s (tm_locks_ w) (next_txn_id_ w) (txn_map_ w) (global_txn_latch_ w)).
Definition on_locks {A} (m : LM A) : TM A := fun w =>
  let! '(a, l) := m (tm_locks_ w) in
  Ok (a, MkTransactionManager (tm_pool_ w) l (next_txn_id_ w) (txn_map_ w) (global_txn_latch_ w)).
Definition set_latch (l : ReaderWriterLatch) w : tmgr :=
  MkTransactionManager (tm_pool_ w) (tm_locks_ w) (next_txn_id_ w) (txn_map_ w) l.

(** A method of a table heap that is given the transaction. *)
Definition with_txn {A} id (f : Transaction -> M S (A * Transaction)) : TM A :=
  do! t := on_locks (get_txn id) in
  do! ' (a, t) := on_pool (f t) in
  do! _ := on_locks (upd_txn id (fun _ => t)) in sret a.

(** [new Transaction(...)] and the other side of the pointer. *)
Definition new_txn id (isolation_level : IsolationLevel) : LM unit :=
  fun l => Ok (tt, set_txns (<[id := Transaction_new id isolation_level]> (txns_ l)) l).

(** *** [Begin] *)

(** [None]: the call waits for a checkpoint to end. *)
Definition TM_Begin (txn : option Z) (isolation_level : IsolationLevel) : TM (option Z) := fun w =>
  match RLock (global_txn_latch_ w) with
  | (Reading, latch) =>
      let w := set_latch latch w in
      (do! id :=
         match txn with
         | Some id => sret id
         | None =>
             do! id := fun w => Ok (next_txn_id_ w, MkTransactionManager (tm_pool_ w) (tm_locks_ w) (next_txn_id_ w + 1)
                                                     (txn_map_ w) (global_txn_latch_ w)) in
             do! _ := on_locks (new_txn id isolation_level) in sret id
         end in
       do! t := on_locks (get_txn id) in
       do! _ := fun w => Ok (tt, MkTransactionManager (tm_pool_ w) (tm_locks_ w) (next_txn_id_ w)
                                   (<[txn_id_ t := id]> (txn_map_ w)) (global_txn_latch_ w)) in
       sret (Some id)) w
  | (_, latch) => Ok (None, set_latch latch w)
  end.

(** [GetTransaction]. *)
Definition TM_GetTransaction (txn_id : Z) : TM Z := fun w =>
  match txn_map_ w !! txn_id with Some id => Ok (id, w) | None => Err AssertionFailure end.

(** *** The end of a transaction *)

(** [write_set->back()] and [write_set->pop_back()]. *)
Definition pop_table_write id : LM unit :=
  upd_txn id (fun t => Txn_set_writes (take (pred (length (table_write_set_ t))) (table_write_set_ t)) (index_write_set_ t) t).
Definition pop_index_write id : LM unit :=
  upd_txn id (fun t => Txn_set_writes (table_write_set_ t) (take (pred (length (index_write_set_ t))) (index_write_set_ t)) t).

(** [lock_set] holds the exclusive and the shared locks; the order in which the
    set is traversed does not matter to the proofs. *)
Definition ReleaseLocks id : LM unit :=
  do! t := get_txn id in
  foldr (fun rid rest => do! _ := LM_Unlock id rid in rest) (sret tt)
    (elements (exclusive_lock_set_ t ∪ shared_lock_set_ t)).

(** The loop of [Commit], one round per write record. *)
Fixpoint Commit_loop (fuel : nat) id : TM unit :=
  match fuel with
  | O => fail OutOfFuel
  | Datatypes.S fuel =>
      do! t := on_locks (get_txn id) in
      match last (table_write_set_ t) with
      | None => sret tt
      | Some item =>
          do! _ := if decide (wr_wtype_ item = WDelete) then on_pool (TableHeap_ApplyDelete (wr_rid_ item)) else sret tt in
          do! _ := on_locks (pop_table_write id) in
          Commit_loop fuel id
      end
  end.

Definition release_latch : TM unit := fun w => Ok (tt, set_latch (RUnlock (global_txn_latch_ w)).2 w).

Definition TM_Commit (fuel : nat) id : TM unit :=
  do! _ := on_locks (upd_txn id (Txn_SetState COMMITTED)) in
  do! _ := Commit_loop fuel id in
  do! _ := on_locks (upd_txn id (fun t => Txn_set_writes [] (index_write_set_ t) t)) in
  do! _ := on_locks (ReleaseLocks id) in
  release_latch.

(** One round of the first loop of [Abort]; the answer of [UpdateTuple] is
    dropped. *)
Definition undo_table id (item : TableWriteRecord) : TM unit :=
  match wr_wtype_ item with
  | WDelete => on_pool (TableHeap_RollbackDelete (wr_rid_ item))
  | WInsert => on_pool (TableHeap_ApplyDelete (wr_rid_ item))
  | WUpdate =>
      do! _ := with_txn id (TableHeap_UpdateTuple (MkTableHeap (wr_table_ item)) (wr_tuple_ item) (wr_rid_ item)) in sret tt
  end.

Fixpoint Abort_table_loop (fuel : nat) id : TM unit :=
  match fuel with
  | O => fail OutOfFuel
  | Datatypes.S fuel =>
      do! t := on_locks (get_txn id) in
      match last (table_write_set_ t) with
      | None => sret tt
      | Some item =>
          do! _ := undo_table id item in
          do! _ := on_locks (pop_table_write id) in
          Abort_table_loop fuel id
      end
  end.

(** One round of the second loop. *)
Definition undo_index (item : IndexWriteRecord) : M S unit :=
  do! new_key := index_key (iw_table_oid_ item) (iw_index_oid_ item) (iw_tuple_ item) in
  match iw_wtype_ item with
  | WDelete => InsertEntry (iw_index_oid_ item) new_key (iw_rid_ item)
  | WInsert => DeleteEntry (iw_index_oid_ item) new_key (iw_rid_ item)
  | WUpdate =>
      do! _ := DeleteEntry (iw_index_oid_ item) new_key (iw_rid_ item) in
      do! old_key := index_key (iw_table_oid_ item) (iw_index_oid_ item) (iw_old_tuple_ item) in
      InsertEntry (iw_index_oid_ item) old_key (iw_rid_ item)
  end.

Fixpoint Abort_index_loop (fuel : nat) id : TM unit :=
  match fuel with
  | O => fail OutOfFuel
  | Datatypes.S fuel =>
      do! t := on_locks (get_txn id) in
      match last (index_write_set_ t) with
      | None => sret tt
      | Some item =>
          do! _ := on_pool (undo_index item) in
          do! _ := on_locks (pop_index_write id) in
          Abort_index_loop fuel id
      end
  end.

Definition TM_Abort (fuel : nat) id : TM unit :=
  do! _ := on_locks (upd_txn id (Txn_SetState ABORTED)) in
  do! _ := Abort_table_loop fuel id in
  do! _ := on_locks (upd_txn id (fun t => Txn_set_writes [] (index_write_set_ t) t)) in
  do! _ := Abort_index_loop fuel id in
  do! _ := on_locks (upd_txn id (Txn_set_writes [] [])) in
  do! _ := on_locks (ReleaseLocks id) in
  release_latch.

(** Blocking all transactions: the answer tells whether the call has the latch
    or waits. *)
Definition TM_BlockAllTransactions : TM bool := fun w =>
  let '(p, latch) := WLock (global_txn_latch_ w) in Ok (bool_decide (p = Writing), set_latch latch w).
Definition TM_ResumeTransactions : TM unit := fun w => Ok (tt, set_latch (WUnlock (global_txn_latch_ w)).2 w).
End TransactionManager.
