(* ===== verification/TransactionUndo.v ===== *)
(** Rolling back and applying the writes of a transaction: what the rounds of
    [Abort] and [Commit] do to the records of a table heap.

    The records a heap shows are a function from ids to slots ([visible]); a
    write record undoes one change of it. *)

From S2P Require Import Prelude Bytes Rid BufferPoolManager TablePage TablePageCorrect Transaction TableHeap TableHeapCorrect.
From S2P Require Import LockManager RWLatch TransactionManager.

(** ** Definitions *)

(** The records of a heap: an empty slot is no record. *)
Definition contents_of : Type := RID -> option slot.
Definition no_empty (o : option slot) : option slot := match o with Some Empty => None | o => o end.
Definition visible (h : heap) : contents_of := fun rid => no_empty (heap_slot rid h).

Definition vset (v : contents_of) (rid : RID) (o : option slot) : contents_of := fun r => if decide (r = rid) then o else v r.

(** The heap with the slot of one record replaced. *)
Definition heap_put (rid : RID) (y : slot) (h : heap) : heap :=
  match heap_page (page_id_ rid) h with
  | Some l => set_heap_page (page_id_ rid) (set_slot rid y l) h
  | None => h
  end.

(** Agreement on the ids that a record can have. *)
Definition same_records (v v' : contents_of) : Prop := forall rid, 0 <= slot_num_ rid -> v rid = v' rid.

(** What a round of [Abort] does, and when it can. *)
Definition undo (v : contents_of) (r : TableWriteRecord) : contents_of :=
  vset v (wr_rid_ r)
    (match wr_wtype_ r, v (wr_rid_ r) with
     | WInsert, _ => None
     | WDelete, Some (Marked d) => Some (Live d)
     | WDelete, o => o
     | WUpdate, _ => Some (Live (tuple_data_ (wr_tuple_ r)))
     end).

Definition undoable (v : contents_of) (r : TableWriteRecord) : Prop :=
  0 <= slot_num_ (wr_rid_ r) /\
  match wr_wtype_ r with
  | WInsert => is_Some (v (wr_rid_ r))
  | WDelete => exists d, v (wr_rid_ r) = Some (Marked d)
  | WUpdate =>
      let old := tuple_data_ (wr_tuple_ r) in
      old <> [] /\ is_bytes old /\ exists d, v (wr_rid_ r) = Some (Live d) /\ (length old <= length d)%nat
  end.

(** The rounds, last record first. *)
Fixpoint undo_all (v : contents_of) (l : list TableWriteRecord) : contents_of :=
  match l with [] => v | r :: l => undo_all (undo v r) l end.
Fixpoint undoable_all (v : contents_of) (l : list TableWriteRecord) : Prop :=
  match l with [] => True | r :: l => undoable v r /\ undoable_all (undo v r) l end.

(** What a round of [Commit] does. *)
Definition apply_write (v : contents_of) (r : TableWriteRecord) : contents_of :=
  if decide (wr_wtype_ r = WDelete) then vset v (wr_rid_ r) None else v.
Definition deleted_rids (l : list TableWriteRecord) : list RID := wr_rid_ <$> filter (fun r => wr_wtype_ r = WDelete) l.

(** ** Lemmas *)

Lemma vset_eq v rid o : vset v rid o rid = o.
Proof. unfold vset. by rewrite decide_True. Qed.

Lemma vset_ne v rid o r : r <> rid -> vset v rid o r = v r.
Proof. intros. unfold vset. by rewrite decide_False. Qed.

Lemma same_refl v : same_records v v.
Proof. by intros rid. Qed.
Lemma same_sym v v' : same_records v v' -> same_records v' v.
Proof. intros Hs rid Hr. symmetry. by apply Hs. Qed.
Lemma same_trans v1 v2 v3 : same_records v1 v2 -> same_records v2 v3 -> same_records v1 v3.
Proof. intros H1 H2 rid Hr. by rewrite H1, H2. Qed.

#[export] Instance same_records_equiv : Equivalence same_records.
Proof. split; [exact same_refl|exact same_sym|exact same_trans]. Qed.

Lemma vset_same v v' rid o : same_records v v' -> same_records (vset v rid o) (vset v' rid o).
Proof. intros Hs r Hr. unfold vset. case_decide; [done|by apply Hs]. Qed.

Lemma undo_same v v' r : 0 <= slot_num_ (wr_rid_ r) -> same_records v v' -> same_records (undo v r) (undo v' r).
Proof. intros Hr Hs. unfold undo. rewrite (Hs _ Hr). by apply vset_same. Qed.

Lemma undoable_same v v' r : same_records v v' -> undoable v r -> undoable v' r.
Proof. intros Hs [H0 H]. split; [done|]. by rewrite (Hs _ H0) in H. Qed.

Lemma undoable_all_same v v' l : same_records v v' -> undoable_all v l -> undoable_all v' l /\ same_records (undo_all v l) (undo_all v' l).
Proof.
  revert v v'. induction l as [|r l IH]; intros v v' Hs; [done|]. cbn [undoable_all undo_all]. intros [Hr Hl].
  destruct (IH (undo v r) (undo v' r)) as [H1 H2]; [apply undo_same; [apply Hr|done]|done|].
  split; [|done]. split; [by eapply undoable_same|done].
Qed.

(** ** The heap *)

Section Heap.
Context `{Config} {S P : Type} `{!BufferPoolManager S P bytes} `{!BufferPoolSpec S P bytes}
  `{!TablePagesOk (good_data (S := S) (P := P)) (zero_data (S := S) (P := P))}.
Implicit Types (t : TableHeap) (s : S) (h : heap) (l : list slot) (rid : RID) (x y : slot).

(** The page and the slot of a record. *)
Lemma record_slot t s h rid x :
  heap_inv t s h -> 0 <= slot_num_ rid -> visible h rid = Some x ->
  exists (i : nat) l, h !! i = Some (page_id_ rid, l) /\ slot_at rid l = Some x /\ x <> Empty.
Proof.
  intros Hi Hr Hv. unfold visible, heap_slot in Hv. destruct (heap_page (page_id_ rid) h) as [l|] eqn:E; [|done]. simpl in Hv.
  pose proof (heap_page_in _ _ _ E) as Hin. destruct (heap_page_elem _ _ Hin) as (i & l' & Hl & E'). assert (l' = l) as -> by congruence.
  exists i, l. split; [done|]. destruct (slot_at rid l) as [[]|]; by simplify_eq/=.
Qed.

Lemma visible_slot t s h (i : nat) rid l :
  heap_inv t s h -> h !! i = Some (page_id_ rid, l) -> visible h rid = no_empty (slot_at rid l).
Proof.
  intros Hi Hl. unfold visible, heap_slot. by rewrite (heap_page_some h i _ l (hr_nodup _ _ _ (proj1 Hi)) Hl).
Qed.

(** Changing one slot changes one record. *)
Lemma visible_set t s s' h (i : nat) rid l x y :
  heap_inv t s h -> h !! i = Some (page_id_ rid, l) -> slot_at rid l = Some x ->
  heap_inv t s' (<[i := (page_id_ rid, set_slot rid y l)]> h) -> 0 <= slot_num_ rid ->
  same_records (visible (<[i := (page_id_ rid, set_slot rid y l)]> h)) (vset (visible h) rid (no_empty (Some y))).
Proof.
  intros Hi Hl Hx Hi' Hr r Hr0. pose proof (lookup_lt_Some _ _ _ Hl) as Hlt.
  assert (Hl' : <[i := (page_id_ rid, set_slot rid y l)]> h !! i = Some (page_id_ rid, set_slot rid y l)) by (by apply list_lookup_insert_eq).
  unfold vset. case_decide as Hd.
  - subst r. rewrite (visible_slot t s' _ i rid _ Hi' Hl'). unfold slot_at, set_slot.
    apply lookup_lt_Some in Hx. by rewrite list_lookup_insert_eq.
  - destruct (decide (page_id_ r = page_id_ rid)) as [Hp|Hp].
    + unfold visible, heap_slot. rewrite Hp.
      rewrite (heap_page_some _ i _ _ (hr_nodup _ _ _ (proj1 Hi')) Hl'), (heap_page_some _ i _ _ (hr_nodup _ _ _ (proj1 Hi)) Hl).
      cbn [mbind option_bind]. unfold slot_at, set_slot. rewrite list_lookup_insert_ne; [done|].
      intros E. apply Hd. destruct r, rid. simpl in *. f_equal; lia.
    + unfold visible, heap_slot. f_equal.
      assert (E : heap_page (page_id_ r) (<[i := (page_id_ rid, set_slot rid y l)]> h) = heap_page (page_id_ r) h); [|by rewrite E].
      clear -Hl Hp. revert i Hl. induction h as [|[q l0] h IH]; intros [|i] Hl; simpl in *; try done.
      * simplify_eq. by rewrite !decide_False by congruence.
      * case_decide; [done|]. by apply IH.
Qed.

Lemma heap_put_at h (i : nat) rid y l :
  NoDup h.*1 -> h !! i = Some (page_id_ rid, l) -> heap_put rid y h = <[i := (page_id_ rid, set_slot rid y l)]> h.
Proof. intros Hn Hl. unfold heap_put. rewrite (heap_page_some h i _ l Hn Hl). by apply (set_heap_page_insert h i _ l). Qed.

(** A slot put where it is. *)
Lemma heap_put_same h (i : nat) rid x l :
  NoDup h.*1 -> h !! i = Some (page_id_ rid, l) -> slot_at rid l = Some x -> heap_put rid x h = h.
Proof.
  intros Hn Hl Hx. rewrite (heap_put_at h i rid x l Hn Hl).
  assert (E : set_slot rid x l = l) by by apply list_insert_id. rewrite E. by apply list_insert_id.
Qed.

(** A page always has room for its own records. *)
Lemma page_bound t s h (i : nat) p l :
  heap_inv t s h -> h !! i = Some (p, l) ->
  SIZE_TABLE_PAGE_HEADER + SIZE_TUPLE * Z.of_nat (length l) + used_space l <= PAGE_SIZE.
Proof.
  intros [Hr _] Hl. destruct (hr_page _ _ _ Hr i p l Hl) as (_ & m & prev & _ & (fsp & cells & Hlay & ->)).
  pose proof (lay_room _ _ _ _ _ _ Hlay). rewrite (lay_used _ _ _ _ _ _ Hlay), length_fmap. lia.
Qed.

(** The bytes of a record. *)
Lemma record_bytes t s h rid x :
  heap_inv t s h -> 0 <= slot_num_ rid -> visible h rid = Some x -> is_bytes (slot_data x) /\ slot_data x <> [].
Proof.
  intros Hi Hr Hv. destruct (record_slot t s h rid x Hi Hr Hv) as (i & l & Hl & Hx & Hne).
  destruct (hr_page _ _ _ (proj1 Hi) i _ l Hl) as (_ & m & prev & _ & (fsp & cells & Hlay & ->)).
  unfold slot_at in Hx. rewrite list_lookup_fmap in Hx. destruct (cells !! Z.to_nat (slot_num_ rid)) as [c|] eqn:Hc; [|done].
  simpl in Hx. simplify_eq. destruct (lay_data _ _ _ _ _ _ Hlay _ c Hc Hne) as (H0 & _ & _ & Hrd).
  split; [by apply (mem_read_bytes _ _ _ _ (lay_bytes _ _ _ _ _ _ Hlay) Hrd)|]. intros E. unfold slot_len in H0. by rewrite E in H0.
Qed.

Lemma pages_length h h' : h'.*1 = h.*1 -> length h' = length h.
Proof. intros E. by rewrite <- (length_fmap fst h), <- E, length_fmap. Qed.

(** What every operation on a heap keeps. *)
Record calm h s s' : Prop := {
  cm_pins : pins (view s') = pins (view s);
  cm_evolves : evolves_in (list_to_set h.*1) (view s) (view s');
  cm_budget n : budget (view s) n -> budget (view s') n
}.

Lemma calm_refl h s : calm h s s.
Proof. split; [done|apply evolves_in_refl|done]. Qed.

Lemma calm_trans h h' s1 s2 s3 : h'.*1 = h.*1 -> calm h s1 s2 -> calm h' s2 s3 -> calm h s1 s3.
Proof.
  intros E [A1 A2 A3] [B1 B2 B3]. rewrite E in B2. split; [congruence|by eapply evolves_in_trans|]. intros n Hn. by apply B3, A3.
Qed.

Lemma calm_frames h s s' : calm h s s' -> frames (view s') = frames (view s).
Proof. intros [_ A2 _]. apply (ei_frames _ _ _ A2). Qed.

Lemma calm_room n h s s' : calm h s s' -> room n s -> room n s'.
Proof. intros Hc. unfold room. by rewrite (cm_pins _ _ _ Hc), (calm_frames _ _ _ Hc). Qed.

(** An operation that turns the slot of one record from [x] into [y]. *)
Definition slot_done t s h rid y (r : tp_answer * Transaction) (r' : tp_answer * Transaction) s' : Prop :=
  r' = r /\ calm h s s' /\ exists h', heap_inv t s' h' /\ h'.*1 = h.*1
    /\ same_records (visible h') (vset (visible h) rid (no_empty (Some y))) /\ h' = heap_put rid y h.

Lemma slot_op_at t s h op txn (i : nat) l x y a :
  heap_inv t s h -> room 1 s -> 0 <= slot_num_ (th_rid op) -> h !! i = Some (page_id_ (th_rid op), l) ->
  slot_at (th_rid op) l = Some x -> op_ok (page_op op) ->
  abs_exec (page_id_ (th_rid op)) (page_op op) l = Ok (a, set_slot (th_rid op) y l) ->
  wp (TH_exec t op txn) (slot_done t s h (th_rid op) y (th_finish t op a txn)) s.
Proof.
  intros Hi Hroom Hr Hl Hx Hop Ha.
  eapply wp_mono; [by apply (wp_op t s h i _ l a _ op txn Hi Hl Hroom eq_refl Hop Ha)|].
  intros r s' [-> [Hi' Hev Hp Hb]]. split; [done|]. split; [split; [done| |done]|].
  { eapply evolves_evolves_in; [|exact Hev]. intros q [= <-]. apply elem_of_list_to_set.
    exact (list_elem_of_fmap_2' fst _ _ _ (list_elem_of_lookup_2 _ _ _ Hl) eq_refl). }
  eexists. split; [exact Hi'|]. split; [|split; [by eapply visible_set|]].
  - rewrite list_fmap_insert. apply list_insert_id. by rewrite list_lookup_fmap, Hl.
  - symmetry. apply heap_put_at; [apply (hr_nodup _ _ _ (proj1 Hi))|done].
Qed.

Lemma slot_op t s h op txn x y a :
  heap_inv t s h -> room 1 s -> 0 <= slot_num_ (th_rid op) -> visible h (th_rid op) = Some x -> op_ok (page_op op) ->
  (forall l, slot_at (th_rid op) l = Some x ->
     SIZE_TABLE_PAGE_HEADER + SIZE_TUPLE * Z.of_nat (length l) + used_space l <= PAGE_SIZE ->
     abs_exec (page_id_ (th_rid op)) (page_op op) l = Ok (a, set_slot (th_rid op) y l)) ->
  wp (TH_exec t op txn) (slot_done t s h (th_rid op) y (th_finish t op a txn)) s.
Proof.
  intros Hi Hroom Hr Hv Hop Ha. destruct (record_slot t s h _ x Hi Hr Hv) as (i & l & Hl & Hx & Hne).
  apply (slot_op_at t s h op txn i l x y a); try done. apply Ha; [done|]. by apply (page_bound t s h i _ l Hi Hl).
Qed.

(** *** The operations of a rollback and of a commit *)

Lemma set_slot_same rid l x : slot_at rid l = Some x -> set_slot rid x l = l.
Proof. intros Hx. unfold set_slot. by apply list_insert_id. Qed.

Lemma wp_apply t s h rid x :
  heap_inv t s h -> room 1 s -> 0 <= slot_num_ rid -> visible h rid = Some x ->
  wp (TableHeap_ApplyDelete rid) (fun _ s' => calm h s s' /\ exists h', heap_inv t s' h' /\ h'.*1 = h.*1
    /\ same_records (visible h') (vset (visible h) rid None)) s.
Proof.
  intros Hi Hroom Hr Hv. destruct (record_slot t s h rid x Hi Hr Hv) as (_ & _ & _ & _ & Hne).
  pose proof (slot_op t s h (ThApplyDelete rid) (Transaction_new 0 REPEATABLE_READ) x Empty AnsUnit Hi Hroom Hr Hv Hr) as Hw.
  cbn [th_rid page_op abs_exec TH_exec] in Hw.
  assert (Ha : forall l, slot_at rid l = Some x ->
     SIZE_TABLE_PAGE_HEADER + SIZE_TUPLE * Z.of_nat (length l) + used_space l <= PAGE_SIZE ->
     match slot_at rid l with Some (Live _) | Some (Marked _) => Ok (AnsUnit, set_slot rid Empty l) | _ => Err AssertionFailure end
     = Ok (AnsUnit, set_slot rid Empty l)) by (intros l -> _; by destruct x).
  specialize (Hw Ha). apply wp_run in Hw as (r & s' & Hrun & _ & Hc & h' & Hh1 & Hh2 & Hh3 & _).
  unfold sbind in Hrun. apply wp_run. destruct (TableHeap_ApplyDelete rid s) as [[[] s1]|]; [|done]. unfold sret in Hrun. simplify_eq.
  exists tt, s'. split; [done|]. split; [done|]. by exists h'.
Qed.

Lemma wp_rollback t s h rid d :
  heap_inv t s h -> room 1 s -> 0 <= slot_num_ rid -> visible h rid = Some (Marked d) ->
  wp (TableHeap_RollbackDelete rid) (fun _ s' => calm h s s' /\ exists h', heap_inv t s' h' /\ h'.*1 = h.*1
    /\ same_records (visible h') (vset (visible h) rid (Some (Live d)))) s.
Proof.
  intros Hi Hroom Hr Hv.
  pose proof (slot_op t s h (ThRollbackDelete rid) (Transaction_new 0 REPEATABLE_READ) (Marked d) (Live d) AnsUnit Hi Hroom Hr Hv Hr) as Hw.
  cbn [th_rid page_op abs_exec TH_exec] in Hw.
  assert (Ha : forall l, slot_at rid l = Some (Marked d) ->
     SIZE_TABLE_PAGE_HEADER + SIZE_TUPLE * Z.of_nat (length l) + used_space l <= PAGE_SIZE ->
     match slot_at rid l with Some (Marked d) => Ok (AnsUnit, set_slot rid (Live d) l) | Some _ => Ok (AnsUnit, l) | None => Err AssertionFailure end
     = Ok (AnsUnit, set_slot rid (Live d) l)) by (by intros l -> _).
  specialize (Hw Ha). apply wp_run in Hw as (r & s' & Hrun & _ & Hc & h' & Hh1 & Hh2 & Hh3 & _).
  unfold sbind in Hrun. apply wp_run. destruct (TableHeap_RollbackDelete rid s) as [[[] s1]|]; [|done]. unfold sret in Hrun. simplify_eq.
  exists tt, s'. split; [done|]. split; [done|]. by exists h'.
Qed.

(** An update by a tuple that is not longer has room. *)
Lemma wp_update t s h rid d tuple txn :
  heap_inv t s h -> room 1 s -> 0 <= slot_num_ rid -> visible h rid = Some (Live d) ->
  is_bytes (tuple_data_ tuple) -> tuple_data_ tuple <> [] -> (length (tuple_data_ tuple) <= length d)%nat ->
  wp (TableHeap_UpdateTuple t tuple rid txn) (fun r s' => r = (true, (th_finish t (ThUpdate tuple rid) (AnsTuple (Some (MkTuple rid d))) txn).2)
    /\ calm h s s' /\ exists h', heap_inv t s' h' /\ h'.*1 = h.*1
    /\ same_records (visible h') (vset (visible h) rid (Some (Live (tuple_data_ tuple))))) s.
Proof.
  intros Hi Hroom Hr Hv Hb Hne Hlen.
  pose proof (slot_op t s h (ThUpdate tuple rid) txn (Live d) (Live (tuple_data_ tuple)) (AnsTuple (Some (MkTuple rid d)))
    Hi Hroom Hr Hv (conj Hb Hr)) as Hw.
  cbn [th_rid page_op TH_exec] in Hw.
  assert (Ha : forall l, slot_at rid l = Some (Live d) ->
     SIZE_TABLE_PAGE_HEADER + SIZE_TUPLE * Z.of_nat (length l) + used_space l <= PAGE_SIZE ->
     abs_exec (page_id_ rid) (OpUpdate tuple rid) l = Ok (AnsTuple (Some (MkTuple rid d)), set_slot rid (Live (tuple_data_ tuple)) l)).
  { intros l Hx Hbound. cbn [abs_exec]. unfold tuple_size_.
    assert (0 < length (tuple_data_ tuple))%nat by (destruct (tuple_data_ tuple); [done|simpl; lia]).
    rewrite (proj2 (Z.ltb_lt 0 _)) by lia. cbn [assert rbind]. rewrite Hx. unfold has_room_for.
    by rewrite (proj2 (Z.leb_le _ _)) by lia. }
  specialize (Hw Ha). apply wp_run in Hw as (r & s' & Hrun & Hfin & Hc & h' & Hh1 & Hh2 & Hh3 & _).
  unfold sbind in Hrun. apply wp_run. destruct (TableHeap_UpdateTuple t tuple rid txn s) as [[[b txn'] s1]|]; [|done].
  unfold sret in Hrun. cbn [th_finish] in Hfin. injection Hrun as <- <-. injection Hfin as -> ->. eexists _, _. split; [done|].
  split; [done|]. split; [done|]. by exists h'.
Qed.

(** *** The calls of a transaction *)

(** [MarkDelete] of a record. *)
Lemma wp_mark t s h rid d txn :
  heap_inv t s h -> room 1 s -> 0 <= slot_num_ rid -> visible h rid = Some (Live d) ->
  wp (TableHeap_MarkDelete t rid txn) (fun r s' =>
    r = (true, Txn_AppendTableWriteRecord (MkTableWriteRecord rid WDelete Tuple_default (first_page_id_ t)) txn)
    /\ calm h s s' /\ exists h', heap_inv t s' h' /\ h'.*1 = h.*1
    /\ same_records (visible h') (vset (visible h) rid (Some (Marked d))) /\ h' = heap_put rid (Marked d) h) s.
Proof.
  intros Hi Hroom Hr Hv.
  pose proof (slot_op t s h (ThMarkDelete rid) txn (Live d) (Marked d) (AnsBool true) Hi Hroom Hr Hv Hr) as Hw.
  cbn [th_rid page_op TH_exec] in Hw.
  assert (Ha : forall l, slot_at rid l = Some (Live d) ->
     SIZE_TABLE_PAGE_HEADER + SIZE_TUPLE * Z.of_nat (length l) + used_space l <= PAGE_SIZE ->
     abs_exec (page_id_ rid) (OpMarkDelete rid) l = Ok (AnsBool true, set_slot rid (Marked d) l)) by (intros l Hx _; simpl; by rewrite Hx).
  specialize (Hw Ha). apply wp_run in Hw as (r & s' & Hrun & Hfin & Hc & Hh).
  unfold sbind in Hrun. apply wp_run. destruct (TableHeap_MarkDelete t rid txn s) as [[[b txn'] s1]|]; [|done].
  unfold sret in Hrun. cbn [th_finish] in Hfin. injection Hrun as <- <-. injection Hfin as -> ->. by eexists _, _.
Qed.

(** [UpdateTuple] of a record by a tuple, whether there is room or not. *)
Lemma wp_try_update t s h rid d tuple txn l :
  heap_inv t s h -> room 1 s -> 0 <= slot_num_ rid -> visible h rid = Some (Live d) -> state_ txn <> ABORTED ->
  is_bytes (tuple_data_ tuple) -> tuple_data_ tuple <> [] -> heap_page (page_id_ rid) h = Some l ->
  wp (TableHeap_UpdateTuple t tuple rid txn) (fun r s' => calm h s s' /\ exists h', heap_inv t s' h' /\ h'.*1 = h.*1 /\
    if has_room_for l (Z.of_nat (length d)) (tuple_size_ tuple)
    then r = (true, Txn_AppendTableWriteRecord (MkTableWriteRecord rid WUpdate (MkTuple rid d) (first_page_id_ t)) txn)
       /\ same_records (visible h') (vset (visible h) rid (Some (Live (tuple_data_ tuple)))) /\ h' = heap_put rid (Live (tuple_data_ tuple)) h
    else r = (false, txn) /\ h' = h) s.
Proof.
  intros Hi Hroom Hr Hv Hst Hb Hne Hpage. destruct (record_slot t s h rid _ Hi Hr Hv) as (i & l' & Hl & Hx & _).
  pose proof (hr_nodup _ _ _ (proj1 Hi)) as Hnd. rewrite (heap_page_some h i _ l' Hnd Hl) in Hpage. injection Hpage as ->.
  set (ok := has_room_for l (Z.of_nat (length d)) (tuple_size_ tuple)).
  pose proof (slot_op_at t s h (ThUpdate tuple rid) txn i l (Live d) (if ok then Live (tuple_data_ tuple) else Live d)
    (AnsTuple (if ok then Some (MkTuple rid d) else None)) Hi Hroom Hr Hl Hx (conj Hb Hr)) as Hw.
  cbn [th_rid page_op TH_exec] in Hw.
  assert (Ha : abs_exec (page_id_ rid) (OpUpdate tuple rid) l
    = Ok (AnsTuple (if ok then Some (MkTuple rid d) else None), set_slot rid (if ok then Live (tuple_data_ tuple) else Live d) l)).
  { cbn [abs_exec]. unfold tuple_size_ at 1. assert (0 < length (tuple_data_ tuple))%nat by (destruct (tuple_data_ tuple); [done|simpl; lia]).
    rewrite (proj2 (Z.ltb_lt 0 _)) by lia. cbn [assert rbind]. rewrite Hx. fold ok. destruct ok; [done|]. by rewrite (set_slot_same rid l (Live d) Hx). }
  specialize (Hw Ha). apply wp_run in Hw as (r & s' & Hrun & Hfin & Hc & h' & Hi' & Hlen & Hs & Hput).
  unfold sbind in Hrun. apply wp_run. destruct (TableHeap_UpdateTuple t tuple rid txn s) as [[[b txn'] s1]|]; [|done].
  unfold sret in Hrun. injection Hrun as <- <-. eexists _, _. split; [done|]. split; [done|]. exists h'. split; [done|]. split; [done|].
  destruct ok; cbn [th_finish] in Hfin.
  - rewrite decide_False in Hfin by done. injection Hfin as -> ->. by split.
  - injection Hfin as -> ->. split; [done|]. rewrite Hput. by apply (heap_put_same h i rid (Live d) l).
Qed.

(** [GetTuple] of a record: a marked one is not shown. *)
Lemma wp_read_record t s h rid x txn :
  heap_inv t s h -> room 1 s -> 0 <= slot_num_ rid -> visible h rid = Some x ->
  wp (TableHeap_GetTuple rid txn) (fun r s' =>
    r = (match x with Live d => Some (MkTuple rid d) | _ => None end, txn)
    /\ calm h s s' /\ heap_inv t s' h) s.
Proof.
  intros Hi Hroom Hr Hv.
  set (o := match x with Live d => Some (MkTuple rid d) | _ => None end).
  pose proof (slot_op t s h (ThGet rid) txn x x (AnsTuple o) Hi Hroom Hr Hv Hr) as Hw.
  cbn [th_rid page_op TH_exec] in Hw.
  assert (Ha : forall l, slot_at rid l = Some x ->
     SIZE_TABLE_PAGE_HEADER + SIZE_TUPLE * Z.of_nat (length l) + used_space l <= PAGE_SIZE ->
     abs_exec (page_id_ rid) (OpGet rid) l = Ok (AnsTuple o, set_slot rid x l)).
  { intros l Hx _. simpl. rewrite (set_slot_same rid l x Hx), Hx. unfold o. by destruct x. }
  specialize (Hw Ha). apply wp_run in Hw as (r & s' & Hrun & Hfin & Hc & h' & Hi' & Hlen & Hs & Hput).
  destruct (record_slot t s h rid x Hi Hr Hv) as (i & l & Hl & Hx & _).
  rewrite (heap_put_same h i rid x l (hr_nodup _ _ _ (proj1 Hi)) Hl Hx) in Hput. subst h'.
  unfold sbind in Hrun. apply wp_run. destruct (TableHeap_GetTuple rid txn s) as [[[b txn'] s1]|]; [|done].
  unfold sret in Hrun. cbn [th_finish] in Hfin. injection Hrun as <- <-. injection Hfin as -> ->. by eexists _, _.
Qed.
End Heap.

(** * The loops of commit and abort *)

Section Manager.
Context `{Config} {S P : Type} `{!BufferPoolManager S P bytes} `{!BufferPoolSpec S P bytes}
  `{!TablePagesOk (good_data (S := S) (P := P)) (zero_data (S := S) (P := P))} `{!TransactionIndexes S}.
Notation tmgr := (TransactionManager S).
Implicit Types (w : tmgr) (s : S) (t : TableHeap) (h : heap) (txn : Transaction) (id : Z) (v : contents_of).

(** ** Worlds *)

Definition put_pool s w : tmgr :=
  MkTransactionManager s (tm_locks_ w) (next_txn_id_ w) (txn_map_ w) (global_txn_latch_ w).
Definition put_locks (l : LockWorld) w : tmgr :=
  MkTransactionManager (tm_pool_ w) l (next_txn_id_ w) (txn_map_ w) (global_txn_latch_ w).
Definition put_txn id txn w : tmgr := put_locks (set_txns (<[id := txn]> (txns_ (tm_locks_ w))) (tm_locks_ w)) w.
Definition txn_at w id txn : Prop := txns_ (tm_locks_ w) !! id = Some txn.

Lemma put_txn_at w id txn : txn_at (put_txn id txn w) id txn.
Proof. unfold txn_at. simpl. apply lookup_insert_eq. Qed.

Lemma put_txn_twice w id txn txn' : put_txn id txn' (put_txn id txn w) = put_txn id txn' w.
Proof. unfold put_txn, put_locks, set_txns. simpl. by rewrite insert_insert_eq. Qed.

Lemma put_txn_same w id txn : txn_at w id txn -> put_txn id txn w = w.
Proof.
  intros Ht. unfold put_txn, put_locks, set_txns. rewrite insert_id by exact Ht. destruct w as [p [] n m g]. done.
Qed.

Lemma put_pool_same w : put_pool (tm_pool_ w) w = w.
Proof. by destruct w. Qed.

Lemma wp_on_pool {A} (m : M S A) (Q : A -> tmgr -> Prop) w :
  wp m (fun a s => Q a (put_pool s w)) (tm_pool_ w) -> wp (on_pool m) Q w.
Proof. unfold wp, on_pool. by destruct (m (tm_pool_ w)) as [[a s]|]. Qed.

Lemma wp_on_locks {A} (m : LM A) (Q : A -> tmgr -> Prop) w :
  wp m (fun a l => Q a (put_locks l w)) (tm_locks_ w) -> wp (on_locks m) Q w.
Proof. unfold wp, on_locks. by destruct (m (tm_locks_ w)) as [[a l]|]. Qed.

Lemma wp_get_txn w id txn (Q : Transaction -> tmgr -> Prop) : txn_at w id txn -> Q txn w -> wp (on_locks (get_txn id)) Q w.
Proof.
  intros Ht HQ. apply wp_on_locks. unfold wp, get_txn. rewrite Ht. cbn [of_option rbind].
  unfold put_locks. by destruct w.
Qed.

Lemma wp_upd_txn w id txn f (Q : unit -> tmgr -> Prop) :
  txn_at w id txn -> Q tt (put_txn id (f txn) w) -> wp (on_locks (upd_txn id f)) Q w.
Proof. intros Ht HQ. apply wp_on_locks. unfold wp, upd_txn, sbind, get_txn. rewrite Ht. exact HQ. Qed.

Lemma wp_with_txn {A} w id txn (f : Transaction -> M S (A * Transaction)) (Q : A -> tmgr -> Prop) :
  txn_at w id txn -> wp (f txn) (fun r s => Q r.1 (put_txn id r.2 (put_pool s w))) (tm_pool_ w) -> wp (with_txn id f) Q w.
Proof.
  intros Ht Hf. unfold with_txn. apply wp_bind, (wp_get_txn _ _ txn); [done|]. apply wp_bind, wp_on_pool.
  eapply wp_mono; [exact Hf|]. intros [a txn'] s HQ. apply wp_bind, (wp_upd_txn _ _ txn); [done|]. by apply wp_ret.
Qed.

Lemma set_writes_same txn : Txn_set_writes (table_write_set_ txn) (index_write_set_ txn) txn = txn.
Proof. by destruct txn. Qed.

Lemma take_pred {A} (l : list A) x : take (pred (length (l ++ [x]))) (l ++ [x]) = l.
Proof. rewrite length_app, Nat.add_1_r. cbn [pred length]. by rewrite take_app_length. Qed.

Lemma wp_pop_table w id txn l r (Q : unit -> tmgr -> Prop) :
  txn_at w id txn -> table_write_set_ txn = l ++ [r] -> Q tt (put_txn id (Txn_set_writes l (index_write_set_ txn) txn) w) ->
  wp (on_locks (pop_table_write id)) Q w.
Proof. intros Ht Hl HQ. eapply wp_upd_txn; [exact Ht|]. cbn beta. by rewrite Hl, take_pred. Qed.

(** ** The rounds of [Abort] *)

Lemma wp_undo w id txn t h v item :
  txn_at w id txn -> state_ txn = ABORTED -> heap_inv t (tm_pool_ w) h -> room 1 (tm_pool_ w) ->
  same_records (visible h) v -> undoable v item -> wr_table_ item = first_page_id_ t ->
  wp (undo_table id item) (fun _ w' => exists s' h', w' = put_pool s' w /\ calm h (tm_pool_ w) s' /\ heap_inv t s' h'
    /\ h'.*1 = h.*1 /\ same_records (visible h') (undo v item)) w.
Proof.
  intros Ht Hst Hi Hroom Hs [Hr Hu] Htab. unfold undo_table, undo. rewrite <- (Hs _ Hr) in Hu |- *.
  assert (Hfin : forall o s' h', same_records (visible h') (vset (visible h) (wr_rid_ item) o) ->
    same_records (visible h') (vset v (wr_rid_ item) o)).
  { intros o s' h' Hv. etransitivity; [exact Hv|]. by apply vset_same. }
  destruct (wr_wtype_ item) eqn:Ety.
  - destruct Hu as [x Hx]. apply wp_on_pool. eapply wp_mono; [by apply (wp_apply t _ h _ x)|].
    intros [] s' (Hc & h' & Hi' & Hl & Hv). exists s', h'. split_and!; try done. by eapply Hfin.
  - destruct Hu as [d Hd]. rewrite Hd. apply wp_on_pool. eapply wp_mono; [by apply (wp_rollback t _ h _ d)|].
    intros [] s' (Hc & h' & Hi' & Hl & Hv). exists s', h'. split_and!; try done. by eapply Hfin.
  - destruct Hu as (Hne & Hb & d & Hd & Hlen). apply wp_bind, (wp_with_txn _ _ txn); [done|].
    replace (MkTableHeap (wr_table_ item)) with t by (rewrite Htab; by destruct t).
    eapply wp_mono; [by apply (wp_update t _ h _ d)|]. intros r s' (-> & Hc & h' & Hi' & Hl & Hv). apply wp_ret.
    exists s', h'. cbn [fst snd]. split; [|split_and!; try done; by eapply Hfin].
    cbn [th_finish snd]. rewrite decide_True by done. by apply put_txn_same.
Qed.

Lemma wp_abort_loop id t (ws : list TableWriteRecord) : forall (fuel : nat) w txn h v,
  table_write_set_ txn = ws -> txn_at w id txn -> state_ txn = ABORTED -> heap_inv t (tm_pool_ w) h -> room 1 (tm_pool_ w) ->
  same_records (visible h) v -> undoable_all v (rev ws) -> Forall (fun r => wr_table_ r = first_page_id_ t) ws ->
  (length ws < fuel)%nat ->
  wp (Abort_table_loop fuel id) (fun _ w' => exists s' h',
    w' = put_pool s' (put_txn id (Txn_set_writes [] (index_write_set_ txn) txn) w) /\ calm h (tm_pool_ w) s'
    /\ heap_inv t s' h' /\ h'.*1 = h.*1 /\ same_records (visible h') (undo_all v (rev ws))) w.
Proof.
  induction ws as [|r ws IH] using rev_ind; intros fuel w txn h v Hws Ht Hst Hi Hroom Hs Hu Htab Hfuel;
    (destruct fuel as [|fuel]; [lia|]); cbn [Abort_table_loop]; apply wp_bind, (wp_get_txn _ _ txn); try done; rewrite Hws.
  - cbn [last]. apply wp_ret. exists (tm_pool_ w), h. split_and!; [|apply calm_refl|done|done|done].
    rewrite <- Hws, set_writes_same, put_txn_same by done. by rewrite put_pool_same.
  - rewrite last_snoc. rewrite rev_app_distr in Hu |- *. cbn [rev app undoable_all undo_all] in *. destruct Hu as [Hu Hu'].
    apply Forall_app in Htab as [Htab Hr]. inversion Hr as [|?? Hr' _]; subst. rewrite length_app in Hfuel. simpl in Hfuel.
    apply wp_bind. eapply wp_mono; [by apply (wp_undo w id txn t h v r)|].
    intros [] w1 (s1 & h1 & -> & Hc1 & Hi1 & Hp1 & Hs1).
    set (txn1 := Txn_set_writes ws (index_write_set_ txn) txn).
    apply wp_bind, (wp_pop_table _ _ txn ws r); [done|done|].
    eapply wp_mono; [apply (IH fuel _ txn1 h1 (undo v r)); try done; [apply put_txn_at|by apply (calm_room _ _ _ _ Hc1)|lia]|].
    intros [] w2 (s2 & h2 & -> & Hc2 & Hi2 & Hp2 & Hs2). exists s2, h2. split_and!; [|by eapply (calm_trans h h1)|done|congruence|done].
    unfold txn1. cbn [index_write_set_ Txn_set_writes]. rewrite put_txn_twice. done.
Qed.

(** ** The rounds of [Commit] *)

(** The marks the transaction made are still there. *)
Definition marked_all v (l : list RID) : Prop :=
  NoDup l /\ forall rid, rid ∈ l -> 0 <= slot_num_ rid /\ exists d, v rid = Some (Marked d).

Definition purge v (l : list RID) : contents_of := fun rid => if decide (rid ∈ l) then None else v rid.

Lemma wp_commit_loop id t (ws : list TableWriteRecord) : forall (fuel : nat) w txn h v,
  table_write_set_ txn = ws -> txn_at w id txn -> heap_inv t (tm_pool_ w) h -> room 1 (tm_pool_ w) ->
  same_records (visible h) v -> marked_all v (deleted_rids ws) -> (length ws < fuel)%nat ->
  wp (Commit_loop fuel id) (fun _ w' => exists s' h',
    w' = put_pool s' (put_txn id (Txn_set_writes [] (index_write_set_ txn) txn) w) /\ calm h (tm_pool_ w) s'
    /\ heap_inv t s' h' /\ h'.*1 = h.*1 /\ same_records (visible h') (purge v (deleted_rids ws))) w.
Proof.
  induction ws as [|r ws IH] using rev_ind; intros fuel w txn h v Hws Ht Hi Hroom Hs Hm Hfuel;
    (destruct fuel as [|fuel]; [lia|]); cbn [Commit_loop]; apply wp_bind, (wp_get_txn _ _ txn); try done; rewrite Hws.
  - cbn [last]. apply wp_ret. exists (tm_pool_ w), h. split_and!; [|apply calm_refl|done|done|].
    + rewrite <- Hws, set_writes_same, put_txn_same by done. by rewrite put_pool_same.
    + intros rid Hr. unfold purge. rewrite decide_False by set_solver. by apply Hs.
  - rewrite last_snoc. rewrite length_app in Hfuel. simpl in Hfuel. unfold deleted_rids in Hm |- *.
    rewrite filter_app, fmap_app in Hm |- *. fold (deleted_rids ws) in Hm |- *.
    set (txn1 := Txn_set_writes ws (index_write_set_ txn) txn).
    assert (Hrest : forall s1 h1 v1, calm h (tm_pool_ w) s1 -> heap_inv t s1 h1 -> h1.*1 = h.*1 -> same_records (visible h1) v1 ->
      marked_all v1 (deleted_rids ws) ->
      (forall rid, purge v1 (deleted_rids ws) rid = purge v (deleted_rids ws ++ (wr_rid_ <$> filter (fun r => wr_wtype_ r = WDelete) [r])) rid) ->
      wp (do! _ := on_locks (pop_table_write id) in Commit_loop fuel id) (fun _ w' => exists s' h',
        w' = put_pool s' (put_txn id (Txn_set_writes [] (index_write_set_ txn) txn) w) /\ calm h (tm_pool_ w) s'
        /\ heap_inv t s' h' /\ h'.*1 = h.*1
        /\ same_records (visible h') (purge v (deleted_rids ws ++ (wr_rid_ <$> filter (fun r => wr_wtype_ r = WDelete) [r])))) (put_pool s1 w)).
    { intros s1 h1 v1 Hc1 Hi1 Hp1 Hs1 Hm1 Hpurge. apply wp_bind, (wp_pop_table _ _ txn ws r); [done|done|].
      eapply wp_mono; [apply (IH fuel _ txn1 h1 v1); try done; [apply put_txn_at|by apply (calm_room _ _ _ _ Hc1)|lia]|].
      intros [] w2 (s2 & h2 & -> & Hc2 & Hi2 & Hp2 & Hs2). exists s2, h2. split_and!; [|by eapply (calm_trans h h1)|done|congruence|].
      - unfold txn1. cbn [index_write_set_ Txn_set_writes]. by rewrite put_txn_twice.
      - intros rid Hr. rewrite <- Hpurge. by apply Hs2. }
    destruct Hm as [Hnd Hm]. apply NoDup_app in Hnd as (Hnd & Hdis & _). apply wp_bind. rewrite filter_cons in Hdis, Hm, Hrest |- *. cbn [filter list_filter] in Hdis, Hm, Hrest |- *.
    destruct (decide (wr_wtype_ r = WDelete)) as [Hd|Hd].
    + destruct (Hm (wr_rid_ r)) as (Hr & d & Hv); [set_solver|]. apply wp_on_pool.
      eapply wp_mono; [apply (wp_apply t _ h _ (Marked d)); [done|done|done|by rewrite Hs]|].
      intros [] s1 (Hc & h1 & Hi1 & Hp1 & Hs1). apply (Hrest s1 h1 (vset v (wr_rid_ r) None) Hc Hi1 Hp1).
      * etransitivity; [exact Hs1|]. by apply vset_same.
      * split; [done|]. intros rid Hin. destruct (Hm rid) as (H0 & d' & Hd'); [set_solver|]. split; [done|]. exists d'.
        rewrite vset_ne; [done|]. intros ->. apply (Hdis _ Hin). set_solver.
      * intros rid. unfold purge, vset. destruct (decide (rid = wr_rid_ r)) as [->|Hne].
        -- rewrite (decide_True (P := wr_rid_ r ∈ _ ++ _)) by set_solver. by case_decide.
        -- by repeat case_decide; set_solver.
    + apply wp_ret. rewrite <- (put_pool_same w) at 1. apply (Hrest (tm_pool_ w) h v); [apply calm_refl|done|done|done| |].
      * split; [done|]. intros rid Hin. apply Hm. set_solver.
      * intros rid. simpl. by rewrite app_nil_r.
Qed.
End Manager.
