(* ===== verification/TransactionPrograms.v ===== *)
(** Whole transactions: a program of insertions, deletions, updates and reads,
    followed by [Abort] or by [Commit]. *)

From S2P Require Import Prelude Bytes Rid BufferPoolManager TablePage TablePageCorrect Transaction TableHeap TableHeapCorrect.
From S2P Require Import LockManager RWLatch TransactionManager TransactionUndo.

(** ** Programs *)

Inductive txn_call : Type :=
| TInsert (tuple : Tuple)
| TDelete (rid : RID)
| TUpdate (tuple : Tuple) (rid : RID)
| TGet (rid : RID).

Inductive txn_answer : Type :=
| TRid (r : option RID)
| TBool (b : bool)
| TTuple (r : option Tuple).

(** The program goes on with the answers it gets. *)
Inductive txn_prog : Type :=
| TReturn
| TCall (c : txn_call) (k : txn_answer -> txn_prog).

Section Programs.
Context `{Config} {S P : Type} `{!BufferPoolManager S P bytes}.
Notation TM := (M (TransactionManager S)).

(** The calls of transaction [id] on the table [t]. *)
Definition exec_txn_call (fuel : nat) (t : TableHeap) (id : Z) (c : txn_call) : TM txn_answer :=
  match c with
  | TInsert tuple => do! r := with_txn id (TableHeap_InsertTuple fuel t tuple) in sret (TRid r)
  | TDelete rid => do! b := with_txn id (TableHeap_MarkDelete t rid) in sret (TBool b)
  | TUpdate tuple rid => do! b := with_txn id (TableHeap_UpdateTuple t tuple rid) in sret (TBool b)
  | TGet rid => do! r := with_txn id (TableHeap_GetTuple rid) in sret (TTuple r)
  end.

Fixpoint txn_run (fuel : nat) (t : TableHeap) (id : Z) (prog : txn_prog) : TM unit :=
  match prog with
  | TReturn => sret tt
  | TCall c k => do! r := exec_txn_call fuel t id c in txn_run fuel t id (k r)
  end.
End Programs.

(** *** The abstract table *)

(** The pages of slots, the records the transaction has marked, and how many
    more pages may be created. *)
Record TxnView : Type := MkTxnView {
  tv_heap : heap;
  tv_deleted : list RID;
  tv_spare : nat
}.
Definition tv_records (a : TxnView) : contents_of := visible (tv_heap a).

(** The calls a transaction may make: insertions of tuples that fit a page,
    deletions of unmarked records, reads of records that are there, updates of
    unmarked records that do not shrink them. *)
Definition txn_call_ok `{Config} (fuel : nat) (a : TxnView) (c : txn_call) : Prop :=
  match c with
  | TInsert tuple => is_bytes (tuple_data_ tuple) /\ 0 < tuple_size_ tuple < 2 ^ 32 - 32
      /\ tuple_size_ tuple + 32 <= PAGE_SIZE /\ (length (tv_heap a) < fuel)%nat /\ tv_spare a <> O
  | TDelete rid => 0 <= slot_num_ rid /\ exists d, tv_records a rid = Some (Live d)
  | TUpdate tuple rid => 0 <= slot_num_ rid /\ is_bytes (tuple_data_ tuple) /\ tuple_data_ tuple <> []
      /\ exists d, tv_records a rid = Some (Live d) /\ (length d <= length (tuple_data_ tuple))%nat
  | TGet rid => 0 <= slot_num_ rid /\ is_Some (tv_records a rid)
  end.

(** What a call answers and does.  An insertion takes the first free slot of the
    first page with room, or a new page; an update stores the new bytes exactly
    when the page has room for them in the place of the old. *)
Inductive txn_call_step `{Config} (a : TxnView) : txn_call -> txn_answer -> TxnView -> Prop :=
| txn_insert tuple new rid h' :
    heap_insert new tuple (tv_heap a) = (rid, h') -> NoDup h'.*1 ->
    txn_call_step a (TInsert tuple) (TRid (Some rid)) (MkTxnView h' (tv_deleted a) (pred (tv_spare a)))
| txn_delete rid d :
    tv_records a rid = Some (Live d) ->
    txn_call_step a (TDelete rid) (TBool true)
      (MkTxnView (heap_put rid (Marked d) (tv_heap a)) (tv_deleted a ++ [rid]) (tv_spare a))
| txn_update tuple rid d l :
    tv_records a rid = Some (Live d) -> heap_page (page_id_ rid) (tv_heap a) = Some l ->
    has_room_for l (Z.of_nat (length d)) (tuple_size_ tuple) = true ->
    txn_call_step a (TUpdate tuple rid) (TBool true)
      (MkTxnView (heap_put rid (Live (tuple_data_ tuple)) (tv_heap a)) (tv_deleted a) (tv_spare a))
| txn_update_full tuple rid d l :
    tv_records a rid = Some (Live d) -> heap_page (page_id_ rid) (tv_heap a) = Some l ->
    has_room_for l (Z.of_nat (length d)) (tuple_size_ tuple) = false ->
    txn_call_step a (TUpdate tuple rid) (TBool false) a
| txn_get rid d : tv_records a rid = Some (Live d) -> txn_call_step a (TGet rid) (TTuple (Some (MkTuple rid d))) a
| txn_get_marked rid d : tv_records a rid = Some (Marked d) -> txn_call_step a (TGet rid) (TTuple None) a.

Fixpoint txn_disciplined `{Config} (fuel : nat) (a : TxnView) (prog : txn_prog) : Prop :=
  match prog with
  | TReturn => True
  | TCall c k => txn_call_ok fuel a c /\ forall r a', txn_call_step a c r a' -> txn_disciplined fuel a' (k r)
  end.

(** The final table of a run. *)
Inductive txn_result `{Config} : TxnView -> txn_prog -> TxnView -> Prop :=
| result_return a : txn_result a TReturn a
| result_call a c k r a1 a2 : txn_call_step a c r a1 -> txn_result a1 (k r) a2 -> txn_result a (TCall c k) a2.

(** ** A program on the heap *)

Section Heaps.
Context `{Config}.
Implicit Types (h : heap) (l : list slot).

Lemma free_slot_empty l : no_empty (l !! free_slot l) = None.
Proof.
  unfold free_slot. destruct (list_find _ l) as [[i x]|] eqn:E.
  - apply list_find_Some in E as (Hi & He & _). rewrite Hi. by destruct x.
  - by rewrite lookup_ge_None_2.
Qed.

(** An insertion takes an id that has no record. *)
Lemma heap_insert_fresh new t h : NoDup (heap_insert new t h).2.*1 -> visible h (heap_insert new t h).1 = None.
Proof.
  unfold visible. induction h as [|[p l] h IH]; intros Hn; [done|]. destruct (has_room l (tuple_size_ t)) eqn:Hr.
  - simpl. rewrite Hr. cbn [fst]. unfold heap_slot. simpl. rewrite decide_True by done. simpl. unfold slot_at. simpl.
    rewrite Nat2Z.id. apply free_slot_empty.
  - rewrite (heap_insert_full _ _ _ _ _ Hr) in Hn |- *. cbn [fst snd] in *. rewrite fmap_cons in Hn. inversion Hn as [|?? Hp Hn']; subst.
    pose proof (heap_insert_slot new t h Hn') as (Hs & _). unfold heap_slot in *. cbn [heap_page].
    destruct (decide (p = page_id_ (heap_insert new t h).1)) as [->|Hne]; [|by apply IH].
    destruct Hp. destruct (heap_page _ (heap_insert new t h).2) as [l2|] eqn:E; [|done]. by apply heap_page_in in E.
Qed.

Lemma heap_insert_length new t h : (length (heap_insert new t h).2 <= Datatypes.S (length h))%nat.
Proof.
  induction h as [|[p l] h IH]; [done|]. cbn [heap_insert]. destruct (has_room l (tuple_size_ t)); [simpl; lia|].
  destruct (heap_insert new t h) as [rid h']. simpl in *. lia.
Qed.
End Heaps.

Section Simulation.
Context `{Config} {S P : Type} `{!BufferPoolManager S P bytes} `{!BufferPoolSpec S P bytes}
  `{!TablePagesOk (good_data (S := S) (P := P)) (zero_data (S := S) (P := P))} `{!TransactionIndexes S}.
Notation tmgr := (TransactionManager S).
Implicit Types (w : tmgr) (s : S) (t : TableHeap) (h : heap) (txn : Transaction) (id : Z) (a : TxnView).
Context (id : Z) (t : TableHeap) (w0 : tmgr) (txn0 : Transaction) (v0 : contents_of).

(** The transaction in progress: [w0] and [txn0] are the world and the
    transaction as they were when it began, [v0] the records then. *)
Record in_progress w a (s : S) (h : heap) (ws : list TableWriteRecord) : Prop := {
  ip_world : w = put_pool s (put_txn id (Txn_set_writes ws (index_write_set_ txn0) txn0) w0);
  ip_heap : heap_inv t s h;
  ip_room : room 2 s;
  ip_pins : pins (view s) = pins (view (tm_pool_ w0));
  ip_budget : exists n, (tv_spare a <= n)%nat /\ budget (view s) n;
  ip_shape : h = tv_heap a;
  ip_undo : undoable_all (tv_records a) (rev ws);
  ip_before : same_records (undo_all (tv_records a) (rev ws)) v0;
  ip_table : Forall (fun r => wr_table_ r = first_page_id_ t) ws;
  ip_deleted : deleted_rids ws = tv_deleted a;
  ip_marks : marked_all (tv_records a) (deleted_rids ws)
}.

Hypothesis Hlive : state_ txn0 <> ABORTED.

Lemma in_progress_txn w a s h ws :
  in_progress w a s h ws -> txn_at w id (Txn_set_writes ws (index_write_set_ txn0) txn0) /\ tm_pool_ w = s.
Proof. intros Hp. rewrite (ip_world _ _ _ _ _ Hp). split; [apply lookup_insert_eq|done]. Qed.

(** One more write: the records change from [v] to [v'] and [r] undoes it. *)
Lemma in_progress_write w a s h ws s' h' r a' :
  in_progress w a s h ws -> heap_inv t s' h' -> calm h s s' \/ (pins (view s') = pins (view s) /\ frames (view s') = frames (view s)) ->
  (exists n, (tv_spare a' <= n)%nat /\ budget (view s') n) ->
  h' = tv_heap a' -> wr_table_ r = first_page_id_ t ->
  undoable (tv_records a') r -> same_records (undo (tv_records a') r) (tv_records a) ->
  tv_deleted a' = tv_deleted a ++ deleted_rids [r] ->
  marked_all (tv_records a') (tv_deleted a') ->
  in_progress (put_pool s' (put_txn id (Txn_set_writes (ws ++ [r]) (index_write_set_ txn0) txn0) w)) a' s' h' (ws ++ [r]).
Proof.
  intros Hp Hi Hc Hb Hs Htab Hu Hun Hd Hm. pose proof (ip_deleted _ _ _ _ _ Hp) as Hdel.
  assert (Hdel' : deleted_rids (ws ++ [r]) = tv_deleted a').
  { rewrite Hd, <- Hdel. unfold deleted_rids. by rewrite filter_app, fmap_app. }
  destruct (undoable_all_same (tv_records a) (undo (tv_records a') r) (rev ws)) as [H1 H2]; [by symmetry|apply Hp|].
  split; try done.
  - rewrite (ip_world _ _ _ _ _ Hp). unfold put_pool, put_txn, put_locks, set_txns. simpl. by rewrite insert_insert_eq.
  - pose proof (ip_room _ _ _ _ _ Hp) as Hr. unfold room in *. destruct Hc as [Hc|[-> ->]]; [|done]. by rewrite (cm_pins _ _ _ Hc), (calm_frames _ _ _ Hc).
  - destruct Hc as [[-> _ _]|[-> _]]; apply Hp.
  - rewrite rev_app_distr. by split.
  - rewrite rev_app_distr. cbn [rev app undo_all]. etransitivity; [symmetry; exact H2|apply Hp].
  - apply Forall_app. split; [apply Hp|]. by constructor.
  - by rewrite Hdel'.
Qed.

(** A call that writes nothing. *)
Lemma in_progress_read w a s h ws s' :
  in_progress w a s h ws -> heap_inv t s' h -> calm h s s' ->
  in_progress (put_pool s' (put_txn id (Txn_set_writes ws (index_write_set_ txn0) txn0) w)) a s' h ws.
Proof.
  intros Hp Hi Hc. destruct Hp as [P1 P2 P3 P3' P5 P6 P7 P8 P9 P10 P11]. split; try done.
  - rewrite P1. unfold put_pool, put_txn, put_locks, set_txns. simpl. by rewrite insert_insert_eq.
  - by apply (calm_room _ _ _ _ Hc).
  - by rewrite (cm_pins _ _ _ Hc).
  - destruct P5 as (n & Hn & Hb). exists n. split; [done|by apply Hc].
Qed.

(** *** One call *)

Definition call_done (fuel : nat) w a c : Prop :=
  exists r a' w' s' h' ws', exec_txn_call fuel t id c w = Ok (r, w') /\ txn_call_step a c r a' /\ in_progress w' a' s' h' ws'.

(** Running a method of the heap for the transaction. *)
Lemma with_txn_run {A} w a s h ws (f : Transaction -> M S (A * Transaction)) (Q : A * Transaction -> S -> Prop) :
  in_progress w a s h ws -> wp (f (Txn_set_writes ws (index_write_set_ txn0) txn0)) Q s ->
  exists x txn' s', with_txn id f w = Ok (x, put_pool s' (put_txn id txn' w)) /\ Q (x, txn') s'.
Proof.
  intros Hp Hw. destruct (in_progress_txn w a s h ws Hp) as [Ht Hs]. subst s.
  pose proof (wp_with_txn w id _ f (fun x w' => exists txn' s', w' = put_pool s' (put_txn id txn' w) /\ Q (x, txn') s') Ht) as Hx.
  destruct (proj1 (wp_run _ _ _) (Hx ltac:(eapply wp_mono; [exact Hw|]; intros [x txn'] s' HQ; by exists txn', s')))
    as (x & w' & Hrun & txn' & s' & -> & HQ). by exists x, txn', s'.
Qed.

(** The records and marks after a change of an unmarked record. *)
Lemma marks_change v v' l rid o :
  same_records v' (vset v rid o) -> marked_all v l -> (forall d, v rid <> Some (Marked d)) -> marked_all v' l.
Proof.
  intros Hs [Hnd Hm] Hne. split; [done|]. intros r Hr. destruct (Hm r Hr) as (H0 & d & Hd). split; [done|]. exists d.
  rewrite (Hs r H0), vset_ne; [done|]. intros ->. by apply (Hne d).
Qed.

Lemma undo_change v v' rid o r o' :
  same_records v' (vset v rid o) -> 0 <= slot_num_ rid -> wr_rid_ r = rid ->
  (forall u, u rid = o -> undo u r = vset u rid o') -> v rid = o' -> same_records (undo v' r) v.
Proof.
  intros Hs H0 Hr Hu Hv. subst rid. etransitivity; [apply undo_same; [exact H0|exact Hs]|].
  rewrite (Hu (vset v (wr_rid_ r) o)) by apply vset_eq. intros rid' _. unfold vset. case_decide; [by subst|done].
Qed.

Lemma insert_done fuel w a s h ws tuple :
  in_progress w a s h ws -> txn_call_ok fuel a (TInsert tuple) -> call_done fuel w a (TInsert tuple).
Proof.
  intros Hp (Hb & Hsz & Hps & Hfuel & Hspare). set (txn := Txn_set_writes ws (index_write_set_ txn0) txn0).
  pose proof (ip_shape _ _ _ _ _ Hp) as E. subst h. set (h := tv_heap a) in *.
  destruct (ip_budget _ _ _ _ _ Hp) as ([|nb] & Hn & Hbud); [lia|].
  pose proof (wp_insert t s h tuple txn fuel nb (ip_heap _ _ _ _ _ Hp) (ip_room _ _ _ _ _ Hp) Hbud Hb Hsz Hps ltac:(lia)) as Hw.
  destruct (with_txn_run w a s h ws _ _ Hp Hw) as (x & txn' & s' & Hrun & new & rid & h' & Hins & Hr & Hi' & Hpin & Hev & _ & m & Hm & Hbm).
  simplify_eq/=. pose proof (heap_insert_slot new tuple h) as Hslot. pose proof (heap_insert_fresh new tuple h) as Hfresh.
  rewrite Hins in Hslot, Hfresh. cbn [fst snd] in *. pose proof (hr_nodup _ _ _ (proj1 Hi')) as Hnd.
  destruct Hslot as (Hs1 & Hs0 & _ & Hs2); [done|]. specialize (Hfresh Hnd).
  assert (Hs : same_records (visible h') (vset (visible h) rid (Some (Live (tuple_data_ tuple))))).
  { intros r Hr0. unfold vset. case_decide as E; [subst r; unfold visible; by rewrite Hs1|]. unfold visible. by rewrite Hs2. }
  set (a' := MkTxnView h' (tv_deleted a) (pred (tv_spare a))).
  exists (TRid (Some rid)), a'. eexists _, s', h', _. split; [unfold exec_txn_call, sbind; rewrite Hrun; done|].
  split; [by apply (txn_insert a tuple new)|].
  apply (in_progress_write w a s h ws s' h' (MkTableWriteRecord rid WInsert Tuple_default (first_page_id_ t)) a' Hp); try done.
  - right. split; [done|apply (ei_frames _ _ _ Hev)].
  - exists m. simpl. split; [lia|done].
  - split; [done|]. cbn [wr_wtype_ wr_rid_]. unfold tv_records. cbn [tv_heap a']. rewrite (Hs rid Hs0), vset_eq. by eexists.
  - by apply (undo_change (visible h) _ rid _ _ None Hs).
  - simpl. by rewrite app_nil_r.
  - cbn [tv_deleted a']. rewrite <- (ip_deleted _ _ _ _ _ Hp). apply (marks_change _ _ _ _ _ Hs); [apply Hp|]. by rewrite Hfresh.
Qed.

Lemma delete_done fuel w a s h ws rid :
  in_progress w a s h ws -> txn_call_ok fuel a (TDelete rid) -> call_done fuel w a (TDelete rid).
Proof.
  intros Hp (H0 & d & Hd). set (txn := Txn_set_writes ws (index_write_set_ txn0) txn0).
  pose proof (ip_room _ _ _ _ _ Hp) as Hroom. pose proof (ip_heap _ _ _ _ _ Hp) as Hheap.
  pose proof (ip_shape _ _ _ _ _ Hp) as E. subst h. set (h := tv_heap a) in *. change (visible h rid = Some (Live d)) in Hd.
  pose proof (wp_mark t s h rid d txn Hheap ltac:(unfold room in *; lia) H0 Hd) as Hw.
  destruct (with_txn_run w a s h ws _ _ Hp Hw) as (x & txn' & s' & Hrun & Hr & Hc & h' & Hi' & Hlen & Hs & Hput). simplify_eq/=.
  set (a' := MkTxnView (heap_put rid (Marked d) h) (tv_deleted a ++ [rid]) (tv_spare a)).
  exists (TBool true), a'. eexists _, s', _, _. split; [unfold exec_txn_call, sbind; rewrite Hrun; done|].
  split; [by apply txn_delete|].
  apply (in_progress_write w a s h ws s' _ (MkTableWriteRecord rid WDelete Tuple_default (first_page_id_ t)) a' Hp Hi'); try done.
  - by left.
  - destruct (ip_budget _ _ _ _ _ Hp) as (n & Hn & Hb). exists n. split; [done|by apply Hc].
  - split; [done|]. cbn [wr_wtype_ wr_rid_]. exists d. unfold tv_records. cbn [tv_heap a']. by rewrite (Hs rid H0), vset_eq.
  - apply (undo_change (visible h) _ rid _ _ (Some (Live d)) Hs); try done.
    intros u Hu. unfold undo. cbn [wr_wtype_ wr_rid_]. by rewrite Hu.
  - destruct (ip_marks _ _ _ _ _ Hp) as [Hnd Hm]. rewrite (ip_deleted _ _ _ _ _ Hp) in Hnd, Hm. cbn [tv_deleted a']. split.
    + apply NoDup_app. split; [done|]. split; [|apply NoDup_singleton]. intros r Hr Hr'. apply list_elem_of_singleton in Hr' as ->.
      destruct (Hm _ Hr) as (_ & d' & Hd'). change (visible h rid = Some (Marked d')) in Hd'. congruence.
    + intros r [Hr|Hr]%elem_of_app.
      * destruct (Hm r Hr) as (Hr0 & d' & Hd'). change (visible h r = Some (Marked d')) in Hd'. split; [done|]. exists d'.
        unfold tv_records. cbn [tv_heap a']. rewrite (Hs r Hr0), vset_ne; [done|]. intros ->. congruence.
      * apply list_elem_of_singleton in Hr as ->. split; [done|]. exists d. unfold tv_records. cbn [tv_heap a']. by rewrite (Hs rid H0), vset_eq.
Qed.

Lemma update_done fuel w a s h ws tuple rid :
  in_progress w a s h ws -> txn_call_ok fuel a (TUpdate tuple rid) -> call_done fuel w a (TUpdate tuple rid).
Proof.
  intros Hp (H0 & Hb & Hne & d & Hd & Hlen'). set (txn := Txn_set_writes ws (index_write_set_ txn0) txn0).
  pose proof (ip_room _ _ _ _ _ Hp) as Hroom. pose proof (ip_heap _ _ _ _ _ Hp) as Hheap.
  pose proof (ip_shape _ _ _ _ _ Hp) as E. subst h. set (h := tv_heap a) in *. change (visible h rid = Some (Live d)) in Hd.
  destruct (heap_page (page_id_ rid) h) as [l|] eqn:Hl.
  2:{ destruct (record_slot t s h rid _ Hheap H0 Hd) as (i & l & Hl' & _). by rewrite (heap_page_some h i _ l (hr_nodup _ _ _ (proj1 Hheap)) Hl') in Hl. }
  pose proof (wp_try_update t s h rid d tuple txn l Hheap ltac:(unfold room in *; lia) H0 Hd Hlive Hb Hne Hl) as Hw.
  destruct (with_txn_run w a s h ws _ _ Hp Hw) as (x & txn' & s' & Hrun & Hc & h' & Hi' & Hlen & Hcase).
  destruct (has_room_for l (Z.of_nat (length d)) (tuple_size_ tuple)) eqn:Hfit.
  - destruct Hcase as (Hr & Hs & ->). simplify_eq/=.
    set (a' := MkTxnView (heap_put rid (Live (tuple_data_ tuple)) h) (tv_deleted a) (tv_spare a)).
    exists (TBool true), a'. eexists _, s', _, _. split; [unfold exec_txn_call, sbind; rewrite Hrun; done|].
    split; [by apply (txn_update a tuple rid d l)|]. destruct (record_bytes t s h rid _ Hheap H0 Hd) as [Hdb Hdn].
    apply (in_progress_write w a s h ws s' _ (MkTableWriteRecord rid WUpdate (MkTuple rid d) (first_page_id_ t)) a' Hp Hi'); try done.
    + by left.
    + destruct (ip_budget _ _ _ _ _ Hp) as (n & Hn & Hbud). exists n. split; [done|by apply Hc].
    + split; [done|]. cbn [wr_wtype_ wr_rid_ wr_tuple_ tuple_data_]. split; [done|]. split; [done|]. eexists. unfold tv_records. cbn [tv_heap a'].
      rewrite (Hs rid H0), vset_eq. by split.
    + by apply (undo_change (visible h) _ rid _ _ (Some (Live d)) Hs).
    + simpl. by rewrite app_nil_r.
    + cbn [tv_deleted a']. rewrite <- (ip_deleted _ _ _ _ _ Hp). apply (marks_change _ _ _ _ _ Hs); [apply Hp|]. intros d'. by rewrite Hd.
  - destruct Hcase as (Hr & ->). simplify_eq/=. exists (TBool false), a. eexists _, s', h, ws.
    split; [unfold exec_txn_call, sbind; rewrite Hrun; done|].
    split; [by apply (txn_update_full a tuple rid d l)|]. by apply (in_progress_read w a s h ws s').
Qed.

Lemma get_done fuel w a s h ws rid : in_progress w a s h ws -> txn_call_ok fuel a (TGet rid) -> call_done fuel w a (TGet rid).
Proof.
  intros Hp (H0 & x & Hx). set (txn := Txn_set_writes ws (index_write_set_ txn0) txn0).
  pose proof (ip_room _ _ _ _ _ Hp) as Hroom. pose proof (ip_heap _ _ _ _ _ Hp) as Hheap.
  pose proof (ip_shape _ _ _ _ _ Hp) as E. subst h. set (h := tv_heap a) in *. change (visible h rid = Some x) in Hx.
  pose proof (wp_read_record t s h rid x txn Hheap ltac:(unfold room in *; lia) H0 Hx) as Hw.
  destruct (with_txn_run w a s h ws _ _ Hp Hw) as (y & txn' & s' & Hrun & Hr & Hc & Hi'). simplify_eq/=.
  eexists (TTuple _), a, _, s', h, ws. split; [unfold exec_txn_call, sbind; rewrite Hrun; done|].
  split; [|by apply (in_progress_read w a s h ws s')].
  destruct (record_slot t s h rid x Hheap H0 Hx) as (_ & _ & _ & _ & Hne). destruct x as [|d|d]; [done|by constructor|by eapply txn_get_marked].
Qed.

(** *** Programs *)

Lemma prog_simulated fuel (prog : txn_prog) : forall w a s h ws,
  in_progress w a s h ws -> txn_disciplined fuel a prog ->
  exists w' a' s' h' ws', txn_run fuel t id prog w = Ok (tt, w') /\ txn_result a prog a' /\ in_progress w' a' s' h' ws'.
Proof.
  induction prog as [|c k IH]; intros w a s h ws Hp Hd.
  - exists w, a, s, h, ws. split; [done|]. split; [constructor|done].
  - destruct Hd as [Hc Hd].
    assert (Hdone : call_done fuel w a c) by (destruct c; eauto using insert_done, delete_done, update_done, get_done).
    destruct Hdone as (r & a1 & w1 & s1 & h1 & ws1 & Hrun & Hst & Hp1).
    destruct (IH r w1 a1 s1 h1 ws1 Hp1 (Hd r a1 Hst)) as (w2 & a2 & s2 & h2 & ws2 & Hrun2 & Hres & Hp2).
    exists w2, a2, s2, h2, ws2. split; [|split; [by econstructor|done]]. cbn [txn_run]. unfold sbind. by rewrite Hrun.
Qed.
End Simulation.
