(* ===== verification/TransactionProperties.v ===== *)
(** The properties of whole transactions: a program of insertions, deletions,
    updates and reads on a table heap, then [Abort] or [Commit]. *)

From S2P Require Import Prelude Bytes Rid Replacer LRUReplacer DiskManager BufferPoolManager BufferPool BufferPoolCorrect.
From S2P Require Import TablePage TablePageCorrect Transaction TableHeap TableHeapCorrect TableHeapProperties.
From S2P Require Import LockManager LockManagerCorrect RWLatch TransactionManager TransactionUndo TransactionPrograms.

(** ** The locks *)

(** A queue after the transaction's request is unlocked. *)
Definition unlock_queue (id : Z) (q : LockRequestQueue) : option LockRequestQueue :=
  '(i, r) ← GetIterator (request_queue_ q) id;
  let q := set_requests (delete i (request_queue_ q)) q in
  Some (match lock_mode_ r with
        | SHARED => set_counts (upgrading_ q) (sharing_count_ q - 1) (is_writing_ q) q
        | EXCLUSIVE => set_counts (upgrading_ q) (sharing_count_ q) false q
        end).

(** Every lock the transaction holds has a request in its queue. *)
Definition holds (id : Z) (l : LockWorld) (rids : gset RID) : Prop :=
  forall rid, rid ∈ rids -> is_Some (lock_table_ l !! rid ≫= unlock_queue id).

(** The locks [rids] given back, all else as it was. *)
Definition released (id : Z) (rids : gset RID) (l l' : LockWorld) : Prop :=
  id_2_txn_ l' = id_2_txn_ l /\
  forall rid, lock_table_ l' !! rid = (if decide (rid ∈ rids) then lock_table_ l !! rid ≫= unlock_queue id else lock_table_ l !! rid).

Definition drop_locks (rids : gset RID) (txn : Transaction) : Transaction :=
  Txn_set_locks (shared_lock_set_ txn ∖ rids) (exclusive_lock_set_ txn ∖ rids) txn.

Lemma unlock_run id rid l txn q q' :
  txns_ l !! id = Some txn -> state_ txn <> GROWING -> lock_table_ l !! rid = Some q -> unlock_queue id q = Some q' ->
  LM_Unlock id rid l = Ok (Returned true, MkLockWorld (<[id := drop_locks {[rid]} txn]> (txns_ l)) (<[rid := q']> (lock_table_ l)) (id_2_txn_ l)).
Proof.
  intros Ht Hst Hq Hu. unfold unlock_queue in Hu.
  unfold LM_Unlock, upd_txn, sbind, get_txn, get_queue, put_queue, erase_request, lift. rewrite Hq. simpl. rewrite Ht. simpl.
  destruct (GetIterator (request_queue_ q) id) as [[i r]|]; [|done]. simpl in *. rewrite lookup_insert_eq. simpl. unfold Txn_GetState. simpl.
  rewrite (bool_decide_eq_false_2 _ Hst), andb_false_r. injection Hu as <-. unfold set_txns, set_table. simpl. do 3 f_equal.
  destruct (lock_mode_ r); simpl; unfold set_txns, set_table; simpl; by rewrite insert_insert_eq.
Qed.

Lemma release_fold id (rids : list RID) : forall l txn,
  txns_ l !! id = Some txn -> state_ txn <> GROWING -> NoDup rids -> holds id l (list_to_set rids) ->
  exists l', foldr (fun rid rest => do! _ := LM_Unlock id rid in rest) (sret tt) rids l = Ok (tt, l')
    /\ txns_ l' = <[id := drop_locks (list_to_set rids) txn]> (txns_ l) /\ released id (list_to_set rids) l l'.
Proof.
  induction rids as [|rid rids IH]; intros l txn Ht Hst Hnd Hh.
  - exists l. split; [done|]. split; [|split; [done|]; intros rid; by rewrite decide_False].
    unfold drop_locks. simpl. rewrite !difference_empty_L, insert_id; [done|]. rewrite Ht. by destruct txn.
  - inversion Hnd as [|?? Hni Hnd']; subst. destruct (Hh rid) as [q' Hq]; [set_solver|].
    destruct (lock_table_ l !! rid) as [q|] eqn:Eq; [|done]. simpl in Hq. cbn [foldr]. unfold sbind at 1.
    rewrite (unlock_run id rid l txn q q' Ht Hst Eq Hq). cbn [rbind].
    set (l1 := MkLockWorld _ _ _).
    destruct (IH l1 (drop_locks {[rid]} txn)) as (l' & Hrun & Htx & Hids & Hrel); [apply lookup_insert_eq|done|done| |].
    { intros rid' Hin. unfold l1. simpl. rewrite lookup_insert_ne by set_solver. apply Hh. set_solver. }
    exists l'. split; [exact Hrun|]. split.
    + rewrite Htx. unfold l1, drop_locks, Txn_set_locks. simpl. rewrite insert_insert_eq. do 2 f_equal; set_solver.
    + split; [done|]. intros rid'. rewrite Hrel. unfold l1. simpl. destruct (decide (rid' = rid)) as [->|Hne].
      * rewrite (decide_False (P := rid ∈ list_to_set rids)) by set_solver. rewrite lookup_insert_eq, decide_True by set_solver. by rewrite Eq.
      * rewrite lookup_insert_ne by done. by repeat case_decide; set_solver.
Qed.

Lemma release_run id l txn :
  txns_ l !! id = Some txn -> state_ txn <> GROWING -> holds id l (exclusive_lock_set_ txn ∪ shared_lock_set_ txn) ->
  exists l', ReleaseLocks id l = Ok (tt, l') /\ txns_ l' = <[id := Txn_set_locks ∅ ∅ txn]> (txns_ l)
    /\ released id (exclusive_lock_set_ txn ∪ shared_lock_set_ txn) l l'.
Proof.
  intros Ht Hst Hh. unfold ReleaseLocks, sbind at 1, get_txn. rewrite Ht. cbn [of_option rbind].
  set (rids := exclusive_lock_set_ txn ∪ shared_lock_set_ txn) in *.
  destruct (release_fold id (elements rids) l txn Ht Hst (NoDup_elements _)) as (l' & Hrun & Htx & Hrel).
  { by rewrite list_to_set_elements_L. }
  rewrite list_to_set_elements_L in Htx, Hrel. exists l'. split; [done|]. split; [|done]. rewrite Htx.
  unfold drop_locks. do 2 f_equal; set_solver.
Qed.

(** ** The end of a transaction *)

Section Properties.
Context `{Config} {S P : Type} `{!BufferPoolManager S P bytes} `{!BufferPoolSpec S P bytes}
  `{!TablePagesOk (good_data (S := S) (P := P)) (zero_data (S := S) (P := P))} `{!TransactionIndexes S}.
Notation tmgr := (TransactionManager S).
Implicit Types (w : tmgr) (s : S) (t : TableHeap) (h : heap) (txn : Transaction) (id : Z) (a : TxnView).

(** What [Abort] and [Commit] leave of a transaction that began as [txn] in the
    world [w]: it has the given state, no writes and no locks; its requests are
    out of the lock manager's queues; the latch has a reader less; nothing else
    changed outside of the pool. *)
Record ended id (st : TransactionState) txn w w' : Prop := {
  en_txns : txns_ (tm_locks_ w') = <[id := Txn_set_locks ∅ ∅ (Txn_set_writes [] [] (Txn_SetState st txn))]> (txns_ (tm_locks_ w));
  en_locks : released id (exclusive_lock_set_ txn ∪ shared_lock_set_ txn) (tm_locks_ w) (tm_locks_ w');
  en_latch : global_txn_latch_ w' = (RUnlock (global_txn_latch_ w)).2;
  en_ids : next_txn_id_ w' = next_txn_id_ w;
  en_map : txn_map_ w' = txn_map_ w
}.

(** A transaction that begins to work on a heap: it lives, has written nothing,
    its locks are in their queues, and the pool can take [spare] more pages. *)
Record starting id t txn w h (spare : nat) : Prop := {
  sg_txn : txn_at w id txn;
  sg_live : state_ txn <> ABORTED;
  sg_table : table_write_set_ txn = [];
  sg_index : index_write_set_ txn = [];
  sg_locks : holds id (tm_locks_ w) (exclusive_lock_set_ txn ∪ shared_lock_set_ txn);
  sg_heap : heap_inv t (tm_pool_ w) h;
  sg_room : room 2 (tm_pool_ w);
  sg_budget : budget (view (tm_pool_ w)) spare
}.

Definition start_view h (spare : nat) : TxnView := MkTxnView h [] spare.

Lemma starting_progress id t txn w h spare :
  starting id t txn w h spare -> in_progress id t w txn (visible h) w (start_view h spare) (tm_pool_ w) h [].
Proof.
  intros [H1 H2 H3 H4 H5 H6 H7 H8]. split; try done.
  - rewrite <- H3, set_writes_same, put_txn_same by done. by rewrite put_pool_same.
  - by exists spare.
  - split; [apply NoDup_nil_2|]. intros rid Hr. by apply not_elem_of_nil in Hr.
Qed.

(** The last steps of both. *)
Lemma wp_give_back id st txn w0 w :
  txns_ (tm_locks_ w) = <[id := Txn_set_writes [] [] (Txn_SetState st txn)]> (txns_ (tm_locks_ w0)) -> st <> GROWING ->
  lock_table_ (tm_locks_ w) = lock_table_ (tm_locks_ w0) -> id_2_txn_ (tm_locks_ w) = id_2_txn_ (tm_locks_ w0) ->
  global_txn_latch_ w = global_txn_latch_ w0 -> next_txn_id_ w = next_txn_id_ w0 -> txn_map_ w = txn_map_ w0 ->
  holds id (tm_locks_ w0) (exclusive_lock_set_ txn ∪ shared_lock_set_ txn) ->
  wp (do! _ := on_locks (ReleaseLocks id) in release_latch) (fun _ w' => ended id st txn w0 w' /\ tm_pool_ w' = tm_pool_ w) w.
Proof.
  intros Ht Hst Hl Hi Hg Hn Hm Hh.
  destruct (release_run id (tm_locks_ w) (Txn_set_writes [] [] (Txn_SetState st txn))) as (l' & Hrun & Htx & Hids & Hrel).
  - rewrite Ht. apply lookup_insert_eq.
  - done.
  - intros rid Hin. rewrite Hl. by apply Hh.
  - apply wp_bind, wp_on_locks. unfold wp at 1. rewrite Hrun. split; [|done]. split; simpl; try congruence.
    + by rewrite Htx, Ht, insert_insert_eq.
    + split; [simpl; congruence|]. intros rid. simpl. rewrite Hrel, Hl. done.
Qed.

Lemma wp_abort_writes fuel id t txn0 w0 v0 v s h ws :
  heap_inv t s h -> room 1 s -> pins (view s) = pins (view (tm_pool_ w0)) -> same_records (visible h) v ->
  undoable_all v (rev ws) -> same_records (undo_all v (rev ws)) v0 -> Forall (fun r => wr_table_ r = first_page_id_ t) ws ->
  index_write_set_ txn0 = [] -> (length ws < fuel)%nat ->
  holds id (tm_locks_ w0) (exclusive_lock_set_ txn0 ∪ shared_lock_set_ txn0) ->
  wp (TM_Abort fuel id) (fun _ w' => ended id ABORTED txn0 w0 w' /\ exists h', heap_inv t (tm_pool_ w') h'
    /\ pins (view (tm_pool_ w')) = pins (view (tm_pool_ w0)) /\ same_records (visible h') v0
    /\ calm h s (tm_pool_ w') /\ h'.*1 = h.*1)
    (put_pool s (put_txn id (Txn_set_writes ws (index_write_set_ txn0) txn0) w0)).
Proof.
  intros Hi Hroom Hpins Hv Hun Hv0 Htab Hx Hfuel Hh. set (w := put_pool s _).
  assert (Ht : txn_at w id (Txn_set_writes ws (index_write_set_ txn0) txn0)) by apply put_txn_at.
  unfold TM_Abort. eapply wp_bind, wp_upd_txn; [exact Ht|]. set (txn1 := Txn_SetState ABORTED _).
  apply wp_bind. eapply wp_mono; [apply (wp_abort_loop id t ws fuel _ txn1 h v); try done; apply put_txn_at|].
  intros [] w1 (s' & h' & -> & Hc & Hi' & Hpg & Hsame). eapply wp_bind, wp_upd_txn; [apply put_txn_at|].
  apply wp_bind. destruct fuel as [|fuel]; [lia|]. cbn [Abort_index_loop].
  eapply wp_bind, wp_get_txn; [apply put_txn_at|]. simpl. rewrite Hx. simpl. apply wp_ret.
  eapply wp_bind, wp_upd_txn; [apply put_txn_at|].
  eapply wp_mono; [apply (wp_give_back id ABORTED txn0 w0); try done; simpl; by rewrite !insert_insert_eq|].
  intros [] w2 [He Hpool]. split; [done|]. exists h'. rewrite Hpool. split; [exact Hi'|]. split; [etransitivity; [apply Hc|done]|].
  split; [by etransitivity|done].
Qed.

Lemma wp_abort fuel id t txn0 w0 v0 w a s h ws :
  in_progress id t w0 txn0 v0 w a s h ws -> index_write_set_ txn0 = [] -> (length ws < fuel)%nat ->
  holds id (tm_locks_ w0) (exclusive_lock_set_ txn0 ∪ shared_lock_set_ txn0) ->
  wp (TM_Abort fuel id) (fun _ w' => ended id ABORTED txn0 w0 w' /\ exists h', heap_inv t (tm_pool_ w') h'
    /\ pins (view (tm_pool_ w')) = pins (view (tm_pool_ w0)) /\ same_records (visible h') v0) w.
Proof.
  intros [-> Hi Hroom Hpins _ Hshape Hun Hv0 Htab _ _] Hx Hfuel Hh.
  assert (Hv : same_records (visible h) (tv_records a)) by by rewrite Hshape.
  eapply wp_mono; [eapply wp_abort_writes; try done; unfold room in *; lia|].
  intros u w' (He & h' & Hi' & Hp & Hs & _). split; [done|]. by exists h'.
Qed.

Lemma wp_commit_writes fuel id t txn0 w0 v s h ws :
  heap_inv t s h -> room 1 s -> pins (view s) = pins (view (tm_pool_ w0)) -> same_records (visible h) v ->
  marked_all v (deleted_rids ws) -> index_write_set_ txn0 = [] -> (length ws < fuel)%nat ->
  holds id (tm_locks_ w0) (exclusive_lock_set_ txn0 ∪ shared_lock_set_ txn0) ->
  wp (TM_Commit fuel id) (fun _ w' => ended id COMMITTED txn0 w0 w' /\ exists h', heap_inv t (tm_pool_ w') h'
    /\ pins (view (tm_pool_ w')) = pins (view (tm_pool_ w0)) /\ same_records (visible h') (purge v (deleted_rids ws))
    /\ calm h s (tm_pool_ w') /\ h'.*1 = h.*1)
    (put_pool s (put_txn id (Txn_set_writes ws (index_write_set_ txn0) txn0) w0)).
Proof.
  intros Hi Hroom Hpins Hv Hm Hx Hfuel Hh. set (w := put_pool s _).
  assert (Ht : txn_at w id (Txn_set_writes ws (index_write_set_ txn0) txn0)) by apply put_txn_at.
  unfold TM_Commit. eapply wp_bind, wp_upd_txn; [exact Ht|]. set (txn1 := Txn_SetState COMMITTED _).
  apply wp_bind. eapply wp_mono; [apply (wp_commit_loop id t ws fuel _ txn1 h v); try done; apply put_txn_at|].
  intros [] w1 (s' & h' & -> & Hc & Hi' & Hpg & Hsame). eapply wp_bind, wp_upd_txn; [apply put_txn_at|].
  eapply wp_mono; [apply (wp_give_back id COMMITTED txn0 w0); try done|].
  { simpl. rewrite !insert_insert_eq. unfold Txn_set_writes. simpl. by rewrite Hx. }
  intros [] w2 [He Hpool]. split; [done|]. exists h'. rewrite Hpool. split; [exact Hi'|]. split; [etransitivity; [apply Hc|done]|].
  split; [done|]. by split.
Qed.

Lemma wp_commit fuel id t txn0 w0 v0 w a s h ws :
  in_progress id t w0 txn0 v0 w a s h ws -> index_write_set_ txn0 = [] -> (length ws < fuel)%nat ->
  holds id (tm_locks_ w0) (exclusive_lock_set_ txn0 ∪ shared_lock_set_ txn0) ->
  wp (TM_Commit fuel id) (fun _ w' => ended id COMMITTED txn0 w0 w' /\ exists h', heap_inv t (tm_pool_ w') h'
    /\ pins (view (tm_pool_ w')) = pins (view (tm_pool_ w0)) /\ same_records (visible h') (purge (tv_records a) (tv_deleted a))) w.
Proof.
  intros [-> Hi Hroom Hpins _ Hshape _ _ _ Hdel Hm] Hx Hfuel Hh. rewrite <- Hdel.
  assert (Hv : same_records (visible h) (tv_records a)) by by rewrite Hshape.
  eapply wp_mono; [eapply wp_commit_writes; try done; unfold room in *; lia|].
  intros u w' (He & h' & Hi' & Hp & Hs & _). split; [done|]. by exists h'.
Qed.

(** C11: A transaction that is aborted leaves no trace.  It runs any program of
    insertions, deletions, updates and reads on a table heap within the
    discipline [txn_call_ok]: inserted tuples fit a page (and the pool has the
    pages), deleted and updated records are there and unmarked, read ones are
    there, and no update shrinks its record (the room it frees may be taken
    before the abort, and the rollback of that update is then lost).  The run
    ends, and [Abort] then ends and leaves the records of the heap as they were
    when it began: what it inserted is gone, what it marked is live again, what
    it overwrote is back.  The heap is well formed, every pin is given back, the
    transaction is [ABORTED] with empty write sets and no locks, each of its
    requests is out of its queue, and the latch has lost its reader. *)
Theorem TM_Abort_restores id t txn w h (spare fuel : nat) (prog : txn_prog) :
  starting id t txn w h spare -> txn_disciplined fuel (start_view h spare) prog ->
  exists w1, txn_run fuel t id prog w = Ok (tt, w1) /\
    exists n, forall fuel', (n < fuel')%nat ->
      exists w2 h2, TM_Abort fuel' id w1 = Ok (tt, w2) /\ ended id ABORTED txn w w2
        /\ heap_inv t (tm_pool_ w2) h2 /\ pins (view (tm_pool_ w2)) = pins (view (tm_pool_ w)) /\ same_records (visible h2) (visible h).
Proof.
  intros Hsg Hd. pose proof (starting_progress id t txn w h spare Hsg) as Hp.
  destruct (prog_simulated id t w txn (visible h) (sg_live _ _ _ _ _ _ Hsg) fuel prog w _ _ h [] Hp Hd)
    as (w1 & a1 & s1 & h1 & ws1 & Hrun & _ & Hp1).
  exists w1. split; [done|]. exists (length ws1). intros fuel' Hf.
  pose proof (wp_abort fuel' id t txn w (visible h) w1 a1 s1 h1 ws1 Hp1 (sg_index _ _ _ _ _ _ Hsg) Hf (sg_locks _ _ _ _ _ _ Hsg)) as Hw.
  apply wp_run in Hw as ([] & w2 & Hab & He & h2 & Hi & Hpins & Hs). by exists w2, h2.
Qed.

(** C13: A transaction that commits makes its writes final.  For any program
    within the discipline of C11 (in particular it deletes only records that are
    there and unmarked: a second deletion makes [Commit] stop at an assertion),
    the run follows the abstract table call by call ([txn_result]): an insertion
    takes the first free slot of the first page with room, or a new page, a
    deletion marks, an update stores the new bytes and answers true exactly when
    the page has room for them in the place of the old, a read gives the bytes
    of an unmarked record.  [Commit] then ends and leaves exactly the records of
    that table without those the transaction deleted, which give their slots
    back.  The transaction is [COMMITTED], with no writes, locks or requests,
    and the latch has lost its reader. *)
Theorem TM_Commit_keeps id t txn w h (spare fuel : nat) (prog : txn_prog) :
  starting id t txn w h spare -> txn_disciplined fuel (start_view h spare) prog ->
  exists w1 a1, txn_run fuel t id prog w = Ok (tt, w1) /\ txn_result (start_view h spare) prog a1 /\
    exists n, forall fuel', (n < fuel')%nat ->
      exists w2 h2, TM_Commit fuel' id w1 = Ok (tt, w2) /\ ended id COMMITTED txn w w2
        /\ heap_inv t (tm_pool_ w2) h2 /\ pins (view (tm_pool_ w2)) = pins (view (tm_pool_ w)) /\ same_records (visible h2) (purge (tv_records a1) (tv_deleted a1)).
Proof.
  intros Hsg Hd. pose proof (starting_progress id t txn w h spare Hsg) as Hp.
  destruct (prog_simulated id t w txn (visible h) (sg_live _ _ _ _ _ _ Hsg) fuel prog w _ _ h [] Hp Hd)
    as (w1 & a1 & s1 & h1 & ws1 & Hrun & Hres & Hp1).
  exists w1, a1. split; [done|]. split; [done|]. exists (length ws1). intros fuel' Hf.
  pose proof (wp_commit fuel' id t txn w (visible h) w1 a1 s1 h1 ws1 Hp1 (sg_index _ _ _ _ _ _ Hsg) Hf (sg_locks _ _ _ _ _ _ Hsg)) as Hw.
  apply wp_run in Hw as ([] & w2 & Hc & He & h2 & Hi & Hpins & Hs). by exists w2, h2.
Qed.
End Properties.

(** ** Witnesses: a table with one record, in a pool of three frames *)

Section Concrete.
#[local] Existing Instance course_config.
#[local] Existing Instance course_table_pages.
Notation pool := (BPI bytes LRUReplacer DiskManager).

(** No indexes. *)
#[local] Instance no_indexes : TransactionIndexes pool := {
  index_key _ _ t := sret t;
  InsertEntry _ _ _ := sret tt;
  DeleteEntry _ _ _ := sret tt
}.

(** The transaction holds the record's exclusive lock. *)
Definition sample_locks (rid : RID) : LockWorld :=
  MkLockWorld {[0 := Txn_set_locks ∅ {[rid]} txn0]} {[rid := MkQueue [MkRequest 0 EXCLUSIVE true] false 0 true]} {[0]}.
Definition sample_world (s : pool) (rid : RID) : TransactionManager pool :=
  MkTransactionManager s (sample_locks rid) 1 {[0 := 0]} (RLock Latch_new).2.

(** Overwriting the record, marking it and reading it; marking it only. *)
Definition sample_prog (rid : RID) : txn_prog :=
  TCall (TUpdate (MkTuple rid [4; 5; 6; 7]) rid) (fun _ => TCall (TDelete rid) (fun _ => TCall (TGet rid) (fun _ => TReturn))).
Definition sample_delete (rid : RID) : txn_prog := TCall (TDelete rid) (fun _ => TReturn).

Lemma sample_starting : exists t s p spare, starting 0 t (Txn_set_locks ∅ {[RID_Set p 0]} txn0) (sample_world s (RID_Set p 0)) [(p, [Live [1; 2; 3]])] spare.
Proof.
  destruct fresh_heap as (t & s & p & Hi & Hr & Hb).
  assert (Hw : wp (TableHeap_InsertTuple 2 t tuple0 txn0) (insert_post t s [(p, [])] tuple0 txn0 0) s).
  { apply wp_insert; [done|done|done|repeat constructor; done|unfold tuple_size_; simpl; lia|by vm_compute|simpl; lia]. }
  apply wp_run in Hw as (r & s' & _ & new & rid & h' & Hins & _ & Hi' & Hp & Hk & _ & m & Hm & Hbm).
  vm_compute in Hins. injection Hins as <- <-. exists t, s', p, m. split; try done.
  - intros rid Hin. assert (rid = RID_Set p 0) as -> by set_solver. simpl. rewrite lookup_singleton_eq. by eexists.
  - simpl. unfold room in *. by rewrite Hp, (ei_frames _ _ _ Hk).
Qed.

Lemma sample_record p : visible [(p, [Live [1; 2; 3]])] (RID_Set p 0) = Some (Live [1; 2; 3]).
Proof. unfold visible, heap_slot. simpl. by rewrite decide_True. Qed.

(** The heap of one record, before and after a change of it. *)
Definition one (p : Z) (x : slot) : heap := [(p, [x])].
Lemma one_visible p x : visible (one p x) (RID_Set p 0) = no_empty (Some x).
Proof. unfold visible, heap_slot. simpl. by rewrite decide_True. Qed.
Lemma one_page p x : heap_page p (one p x) = Some [x].
Proof. simpl. by rewrite decide_True. Qed.
Lemma one_put p x y : heap_put (RID_Set p 0) y (one p x) = one p y.
Proof. unfold heap_put. simpl. by rewrite !decide_True. Qed.

(** An update of the one record is answered by the room of its page. *)
Lemma one_update p d deleted spare tuple r a' :
  txn_call_step (MkTxnView (one p (Live d)) deleted spare) (TUpdate tuple (RID_Set p 0)) r a' ->
  if has_room_for [Live d] (Z.of_nat (length d)) (tuple_size_ tuple)
  then r = TBool true /\ a' = MkTxnView (one p (Live (tuple_data_ tuple))) deleted spare
  else r = TBool false /\ a' = MkTxnView (one p (Live d)) deleted spare.
Proof.
  intros Hst. inversion Hst as [| |? ? d' l Hd Hl Hroom|? ? d' l Hd Hl Hroom| |]; subst; unfold tv_records in Hd; cbn [tv_heap page_id_] in *;
    rewrite one_visible in Hd; rewrite one_page in Hl; injection Hd as <-; injection Hl as <-; rewrite Hroom; [|done].
  split; [done|]. by rewrite one_put.
Qed.

Lemma sample_prog_disciplined p spare : txn_disciplined 2 (start_view (one p (Live [1; 2; 3])) spare) (sample_prog (RID_Set p 0)).
Proof.
  split.
  - split; [done|]. split; [repeat constructor; done|]. split; [done|]. exists [1; 2; 3]. split; [apply one_visible|simpl; lia].
  - intros r a' Hst. apply one_update in Hst as [-> ->]. split; [split; [done|exists [4; 5; 6; 7]; apply one_visible]|].
    intros r2 a2 Hst. inversion Hst as [|? d Hd| | | |]; subst. unfold tv_records in Hd. cbn [tv_heap] in Hd. rewrite one_visible in Hd. injection Hd as <-.
    cbn [tv_heap]. rewrite one_put. split; [|done]. split; [done|]. unfold tv_records. cbn [tv_heap]. rewrite one_visible. by eexists.
Qed.

Lemma TM_Abort_restores_witness : exists p t s w1 w2 h2,
  txn_run 2 t 0 (sample_prog (RID_Set p 0)) (sample_world s (RID_Set p 0)) = Ok (tt, w1)
  /\ (exists fuel, TM_Abort fuel 0 w1 = Ok (tt, w2)) /\ heap_inv t (tm_pool_ w2) h2
  /\ visible h2 (RID_Set p 0) = Some (Live [1; 2; 3]) /\ global_txn_latch_ w2 = Latch_new
  /\ (request_queue_ <$> lock_table_ (tm_locks_ w2) !! RID_Set p 0) = Some [].
Proof.
  destruct sample_starting as (t & s & p & spare & Hsg).
  destruct (TM_Abort_restores 0 t _ _ _ spare 2 (sample_prog (RID_Set p 0)) Hsg (sample_prog_disciplined p spare)) as (w1 & Hrun & n & Hab).
  destruct (Hab (Datatypes.S n)) as (w2 & h2 & Hrun2 & He & Hi & _ & Hs); [lia|]. exists p, t, s, w1, w2, h2.
  split; [done|]. split; [by exists (Datatypes.S n)|]. split; [done|]. split; [rewrite Hs by done; apply sample_record|].
  split; [by rewrite (en_latch _ _ _ _ _ He)|]. rewrite (proj2 (en_locks _ _ _ _ _ He)). simpl.
  rewrite decide_True by set_solver. by rewrite lookup_singleton_eq.
Defined.

(** An update that fits, then one that cannot: had the answers been others, the
    record would be gone. *)
Definition big_tuple : Tuple := MkTuple RID_default (replicate 4096 7).
Definition sample_updates (rid : RID) : txn_prog :=
  TCall (TUpdate (MkTuple rid [4; 5; 6; 7]) rid) (fun r =>
    match r with
    | TBool true => TCall (TUpdate big_tuple rid) (fun r =>
        match r with TBool false => TReturn | _ => TCall (TDelete rid) (fun _ => TReturn) end)
    | _ => TCall (TDelete rid) (fun _ => TReturn)
    end).

Lemma big_update : has_room_for [Live [4; 5; 6; 7]] 4 (tuple_size_ big_tuple) = false.
Proof. by vm_compute. Qed.

Lemma sample_updates_disciplined p spare : txn_disciplined 2 (start_view (one p (Live [1; 2; 3])) spare) (sample_updates (RID_Set p 0)).
Proof.
  split.
  - split; [done|]. split; [repeat constructor; done|]. split; [done|]. exists [1; 2; 3]. split; [apply one_visible|simpl; lia].
  - intros r a' Hst. apply one_update in Hst as [-> ->]. split.
    + split; [done|]. split; [apply Forall_replicate; done|]. split; [done|]. exists [4; 5; 6; 7]. split; [apply one_visible|].
      unfold big_tuple. cbn [tuple_data_]. rewrite length_replicate. simpl. lia.
    + intros r2 a2 Hst. apply one_update in Hst. cbn [tuple_data_] in Hst. change (Z.of_nat (length [4; 5; 6; 7])) with 4 in Hst. rewrite big_update in Hst.
      by destruct Hst as [-> ->].
Qed.

Lemma sample_updates_result p spare a1 :
  txn_result (start_view (one p (Live [1; 2; 3])) spare) (sample_updates (RID_Set p 0)) a1 ->
  a1 = MkTxnView (one p (Live [4; 5; 6; 7])) [] spare.
Proof.
  intros Hres. inversion Hres as [|????? a2 Hst Hres2]; subst. apply one_update in Hst as [-> ->].
  inversion Hres2 as [|????? a3 Hst Hres3]; subst. apply one_update in Hst. cbn [tuple_data_] in Hst. change (Z.of_nat (length [4; 5; 6; 7])) with 4 in Hst.
  rewrite big_update in Hst. destruct Hst as [-> ->]. by inversion Hres3.
Qed.

Lemma TM_Commit_keeps_witness : exists p t s,
  (exists w1 w2 h2, txn_run 2 t 0 (sample_delete (RID_Set p 0)) (sample_world s (RID_Set p 0)) = Ok (tt, w1)
    /\ (exists fuel, TM_Commit fuel 0 w1 = Ok (tt, w2)) /\ heap_inv t (tm_pool_ w2) h2 /\ visible h2 (RID_Set p 0) = None)
  /\ exists w1 w2 h2, txn_run 2 t 0 (sample_updates (RID_Set p 0)) (sample_world s (RID_Set p 0)) = Ok (tt, w1)
    /\ (exists fuel, TM_Commit fuel 0 w1 = Ok (tt, w2)) /\ heap_inv t (tm_pool_ w2) h2 /\ visible h2 (RID_Set p 0) = Some (Live [4; 5; 6; 7]).
Proof.
  destruct sample_starting as (t & s & p & spare & Hsg). exists p, t, s. split.
  - destruct (TM_Commit_keeps 0 t _ _ _ spare 2 (sample_delete (RID_Set p 0)) Hsg) as (w1 & a1 & Hrun & Hres & n & Hc).
    { split; [|done]. split; [done|]. exists [1; 2; 3]. apply (one_visible p (Live [1; 2; 3])). }
    destruct (Hc (Datatypes.S n)) as (w2 & h2 & Hrun2 & He & Hi & _ & Hs); [lia|]. exists w1, w2, h2.
    split; [done|]. split; [by exists (Datatypes.S n)|]. split; [done|]. rewrite Hs by done.
    inversion Hres as [|????? a2 Hst Hret]; subst. inversion Hret; subst. inversion Hst; subst. unfold purge. simpl. by rewrite decide_True by set_solver.
  - destruct (TM_Commit_keeps 0 t _ _ _ spare 2 (sample_updates (RID_Set p 0)) Hsg (sample_updates_disciplined p spare))
      as (w1 & a1 & Hrun & Hres & n & Hc).
    destruct (Hc (Datatypes.S n)) as (w2 & h2 & Hrun2 & He & Hi & _ & Hs); [lia|]. exists w1, w2, h2.
    split; [done|]. split; [by exists (Datatypes.S n)|]. split; [done|]. rewrite Hs by done.
    rewrite (sample_updates_result p spare a1 Hres). apply one_visible.
Defined.
End Concrete.
