(* ===== verification/RecordChange.v ===== *)
(** Changing one record of a heap in place: its tuples and the iterators over
    it, the records that transactions see, the write records that undo a change,
    and the marks that deletions leave. *)

From S2P Require Import Prelude Bytes Rid BufferPoolManager TablePage TablePageCorrect Transaction TableHeap TableHeapCorrect TableScan.
From S2P Require Import LockManager RWLatch TransactionManager TransactionUndo.

(** ** Definitions *)

Section RecordChange.
Context `{Config}.
Implicit Types (h : heap) (l : list slot) (p : Z) (rid : RID) (y : slot).

(** The slot of [rid] holds [y] instead. *)
Fixpoint change_slots rid y (p : Z) (k : nat) l : list slot :=
  match l with
  | [] => []
  | s :: l => (if decide (RID_Set p (Z.of_nat k) = rid) then y else s) :: change_slots rid y p (Datatypes.S k) l
  end.
Definition change_record rid y h : heap := (fun x => (x.1, change_slots rid y x.1 0 x.2)) <$> h.

(** ** Lemmas *)

Lemma change_slots_other rid y p k l : page_id_ rid <> p -> change_slots rid y p k l = l.
Proof.
  intros Hp. revert k. induction l as [|s l IH]; intros k; [done|]. cbn [change_slots]. rewrite decide_False, IH; [done|].
  by intros <-.
Qed.

Lemma change_slots_at rid y p k l :
  change_slots rid y p k l = if decide (page_id_ rid = p /\ Z.of_nat k <= slot_num_ rid) then <[(Z.to_nat (slot_num_ rid) - k)%nat := y]> l else l.
Proof.
  revert k. induction l as [|s l IH]; intros k; [by case_decide|]. cbn [change_slots]. rewrite IH. destruct rid as [q n]. cbn [page_id_ slot_num_].
  unfold RID_Set. destruct (decide (q = p)) as [->|Hq].
  - destruct (decide (n = Z.of_nat k)) as [->|Hn].
    + rewrite decide_True by done. rewrite decide_False by lia. rewrite decide_True by lia. by rewrite Nat2Z.id, Nat.sub_diag.
    + rewrite (decide_False (P := MkRID _ _ = _)) by congruence. destruct (decide (p = p /\ Z.of_nat k <= n)) as [[_ Hle]|Hle].
      * rewrite decide_True by (split; [done|lia]). replace (Z.to_nat n - k)%nat with (Datatypes.S (Z.to_nat n - Datatypes.S k)) by lia. done.
      * rewrite decide_False by (intros [_ ?]; apply Hle; split; [done|lia]). done.
  - rewrite (decide_False (P := MkRID _ _ = _)) by congruence. by rewrite !decide_False by tauto.
Qed.

Lemma change_record_cons rid y p l h : change_record rid y ((p, l) :: h) = (p, change_slots rid y p 0 l) :: change_record rid y h.
Proof. done. Qed.

Lemma change_record_others rid y h : page_id_ rid ∉ h.*1 -> change_record rid y h = h.
Proof.
  induction h as [|[p l] h IH]; [done|]. rewrite fmap_cons, change_record_cons. intros [Hp Hh]%not_elem_of_cons.
  by rewrite change_slots_other, IH.
Qed.

Lemma change_record_insert rid y h (i : nat) l :
  NoDup h.*1 -> h !! i = Some (page_id_ rid, l) -> 0 <= slot_num_ rid ->
  <[i := (page_id_ rid, set_slot rid y l)]> h = change_record rid y h.
Proof.
  intros Hnd Hi Hr. revert i Hi. induction h as [|[q l0] h IH]; intros [|i] Hi; try done; rewrite fmap_cons in Hnd;
    apply NoDup_cons in Hnd as [Hq Hnd]; rewrite change_record_cons.
  - injection Hi as -> ->. rewrite change_record_others by done.
    rewrite change_slots_at, decide_True by (split; [done|lia]). unfold set_slot. by rewrite Nat.sub_0_r.
  - simpl in Hi. rewrite change_slots_other.
    + rewrite <- (IH Hnd i Hi). done.
    + intros E. apply Hq. cbn [fst]. rewrite <- E. by apply (list_elem_of_fmap_2' fst _ _ _ (list_elem_of_lookup_2 _ _ _ Hi)).
Qed.

Lemma change_record_pages rid y h : (change_record rid y h).*1 = h.*1.
Proof. unfold change_record. by rewrite <- list_fmap_compose. Qed.

(** The tuples of the changed heap. *)
Definition change_tuple rid y (t : Tuple) : list Tuple :=
  if decide (tuple_rid_ t = rid) then match y with Live d => [MkTuple rid d] | _ => [] end else [t].

Lemma page_tuples_change rid y p k l :
  (forall (j : nat) s, l !! j = Some s -> RID_Set p (Z.of_nat (k + j)) = rid -> is_live s = true) ->
  page_tuples p k (change_slots rid y p k l) = page_tuples p k l ≫= change_tuple rid y.
Proof.
  revert k. induction l as [|s l IH]; intros k Hlive; [done|]. cbn [change_slots page_tuples]. rewrite bind_app, IH.
  2: { intros j s' Hj E. apply (Hlive (Datatypes.S j) s' Hj). by rewrite Nat.add_succ_r. }
  f_equal. destruct (decide (RID_Set p (Z.of_nat k) = rid)) as [E|E].
  - specialize (Hlive 0%nat s eq_refl). rewrite Nat.add_0_r in Hlive. specialize (Hlive E). destruct s; try done.
    cbn [mbind list_bind]. unfold change_tuple. cbn [tuple_rid_]. rewrite decide_True by done. rewrite E. by destruct y.
  - destruct s; try done. cbn [mbind list_bind]. unfold change_tuple. cbn [tuple_rid_]. by rewrite decide_False.
Qed.

(** The slot of [rid], if there is one, has a tuple. *)
Definition live_record rid h : Prop :=
  forall (i : nat) l, h !! i = Some (page_id_ rid, l) -> exists d, slot_at rid l = Some (Live d).

Lemma page_tuples_changed rid y h (i : nat) p l k :
  live_record rid h -> h !! i = Some (p, l) ->
  page_tuples p k (drop k (change_slots rid y p 0 l)) = page_tuples p k (drop k l) ≫= change_tuple rid y.
Proof.
  intros Hlive Hi.
  assert (E : drop k (change_slots rid y p 0 l) = change_slots rid y p k (drop k l)).
  { clear. change k with (0 + k)%nat at 2. generalize 0%nat. revert k. induction l as [|s l IH]; intros [|k] m; [done|done|by rewrite Nat.add_0_r|].
    cbn [change_slots drop]. rewrite IH. f_equal. lia. }
  rewrite E. apply page_tuples_change. intros j s Hj Er. rewrite lookup_drop in Hj. destruct (Hlive i l) as [d Hd]; [by rewrite <- Er|].
  unfold slot_at in Hd. rewrite <- Er in Hd. cbn [slot_num_ RID_Set] in Hd. rewrite Nat2Z.id in Hd. by assert (s = Live d) as -> by congruence.
Qed.

Lemma heap_tuples_changed rid y h (i : nat) :
  live_record rid h -> heap_tuples (drop i (change_record rid y h)) = heap_tuples (drop i h) ≫= change_tuple rid y.
Proof.
  intros Hlive. unfold change_record. rewrite <- fmap_drop. fold (change_record rid y (drop i h)).
  assert (Hsub : forall (j : nat) x, drop i h !! j = Some x -> exists j' : nat, h !! j' = Some x).
  { intros j x Hj. rewrite lookup_drop in Hj. by eexists. }
  revert Hsub. generalize (drop i h). intros g Hsub. induction g as [|[p l] g IH]; [done|]. rewrite change_record_cons.
  rewrite !heap_tuples_cons, bind_app, IH by (intros j x Hj; by apply (Hsub (Datatypes.S j))). f_equal.
  destruct (Hsub 0%nat (p, l) eq_refl) as [j Hj]. by apply (page_tuples_changed rid y h j p l 0).
Qed.

Lemma change_others rid y ts : rid ∉ tuple_rid_ <$> ts -> ts ≫= change_tuple rid y = ts.
Proof.
  induction ts as [|t ts IH]; [done|]. cbn [fmap list_fmap]. intros [Ht Hts]%not_elem_of_cons. cbn [mbind list_bind].
  unfold change_tuple at 1. rewrite decide_False by done. cbn [app]. f_equal. by apply IH.
Qed.

Lemma change_slots_lookup rid y p k l (j : nat) :
  change_slots rid y p k l !! j = (fun s => if decide (RID_Set p (Z.of_nat (k + j)) = rid) then y else s) <$> l !! j.
Proof.
  revert k j. induction l as [|s l IH]; intros k [|j]; [done..| |]; cbn [change_slots lookup list_lookup].
  - by rewrite Nat.add_0_r.
  - etransitivity; [apply IH|]. by rewrite Nat.add_succ_r.
Qed.

(** An iterator with the record behind it. *)
Lemma cursor_change rid y h ts it :
  live_record rid h -> rid ∉ tuple_rid_ <$> ts -> cursor h ts it -> cursor (change_record rid y h) ts it.
Proof.
  intros Hlive Hrid Hc. destruct ts as [|x ts]; [done|]. destruct Hc as [Hx (i & p & l & j & d & Hi & Hj & Ex & Ets)]. split; [done|].
  rewrite fmap_cons in Hrid. apply not_elem_of_cons in Hrid as [Hne Hrid]. exists i, p, (change_slots rid y p 0 l), j, d. split_and!.
  - unfold change_record. rewrite list_lookup_fmap, Hi. done.
  - rewrite change_slots_lookup, Hj. cbn [fmap option_fmap option_map]. rewrite decide_False; [done|]. intros E. apply Hne. by rewrite Ex.
  - done.
  - rewrite (page_tuples_changed rid y h i p l) by done. rewrite heap_tuples_changed by done. rewrite <- bind_app, <- Ets.
    by rewrite change_others.
Qed.

(** *** The ids of the tuples are distinct *)

Lemma page_tuple_id p k l t : t ∈ page_tuples p k l -> page_id_ (tuple_rid_ t) = p /\ Z.of_nat k <= slot_num_ (tuple_rid_ t).
Proof.
  revert k. induction l as [|s l IH]; intros k; cbn [page_tuples]; [by intros ?%elem_of_nil|]. intros [Ht|Ht]%elem_of_app.
  - destruct s; try by apply elem_of_nil in Ht. apply list_elem_of_singleton in Ht as ->. simpl. split; [done|lia].
  - apply IH in Ht as [Hp Hk]. split; [done|lia].
Qed.

Lemma page_ids_nodup p k l : NoDup (tuple_rid_ <$> page_tuples p k l).
Proof.
  revert k. induction l as [|s l IH]; intros k; cbn [page_tuples]; [constructor|]. destruct s; try apply IH.
  cbn [app]. rewrite fmap_cons. constructor; [|apply IH]. intros (t & Ht & Hin)%list_elem_of_fmap. apply page_tuple_id in Hin as [_ Hk].
  rewrite <- Ht in Hk. cbn [slot_num_ RID_Set tuple_rid_] in Hk. lia.
Qed.

Lemma heap_tuple_page h t : t ∈ heap_tuples h -> page_id_ (tuple_rid_ t) ∈ h.*1.
Proof.
  induction h as [|[p l] h IH]; [by intros ?%elem_of_nil|]. rewrite heap_tuples_cons, fmap_cons. intros [Ht|Ht]%elem_of_app.
  - apply page_tuple_id in Ht as [-> _]. by left.
  - right. by apply IH.
Qed.

Lemma heap_ids_nodup h : NoDup h.*1 -> NoDup (tuple_rid_ <$> heap_tuples h).
Proof.
  induction h as [|[p l] h IH]; [constructor|]. rewrite fmap_cons, heap_tuples_cons, fmap_app. intros [Hp Hnd]%NoDup_cons.
  apply NoDup_app. split_and!; [apply page_ids_nodup| |by apply IH]. intros r (t & -> & Ht)%list_elem_of_fmap (t' & E & Ht')%list_elem_of_fmap.
  apply page_tuple_id in Ht as [Ht _]. apply heap_tuple_page in Ht'. rewrite <- E, Ht in Ht'. done.
Qed.

(** A tuple of the heap is a live record. *)
Lemma heap_tuple_record h t : t ∈ heap_tuples h ->
  exists (i : nat) l, h !! i = Some (page_id_ (tuple_rid_ t), l) /\ slot_at (tuple_rid_ t) l = Some (Live (tuple_data_ t))
    /\ 0 <= slot_num_ (tuple_rid_ t).
Proof.
  assert (Hpage : forall p k l, t ∈ page_tuples p k l -> exists j : nat, l !! j = Some (Live (tuple_data_ t)) /\ tuple_rid_ t = RID_Set p (Z.of_nat (k + j))).
  { intros p k l. revert k. induction l as [|s l IH]; intros k; cbn [page_tuples]; [by intros ?%elem_of_nil|]. intros [Ht|Ht]%elem_of_app.
    - destruct s; try by apply elem_of_nil in Ht. apply list_elem_of_singleton in Ht as ->. exists 0%nat. by rewrite Nat.add_0_r.
    - apply IH in Ht as (j & Hj & E). exists (Datatypes.S j). by rewrite Nat.add_succ_r. }
  induction h as [|[p l] h IH]; [by intros ?%elem_of_nil|]. rewrite heap_tuples_cons. intros [Ht|Ht]%elem_of_app.
  - apply Hpage in Ht as (j & Hj & E). exists 0%nat, l. rewrite E. cbn [page_id_ slot_num_ RID_Set]. split_and!; [done| |lia].
    unfold slot_at. cbn [slot_num_ RID_Set]. by rewrite Nat2Z.id.
  - destruct (IH Ht) as (i & l0 & ? & ?). by exists (Datatypes.S i), l0.
Qed.

Lemma heap_tuple_live h t : NoDup h.*1 -> t ∈ heap_tuples h -> live_record (tuple_rid_ t) h.
Proof.
  intros Hnd (i & l & Hi & Hs & _)%heap_tuple_record i' l' Hi'. assert (i' = i) as ->.
  { apply (NoDup_lookup h.*1 i' i (page_id_ (tuple_rid_ t)) Hnd); by rewrite list_lookup_fmap, ?Hi, ?Hi'. }
  eexists. by simplify_eq.
Qed.
(** The tuples around a tuple that changes. *)
Lemma change_tuples (h : heap) pre pre' t ts' y :
  NoDup h.*1 -> heap_tuples h = pre ++ pre' ++ t :: ts' ->
  heap_tuples (change_record (tuple_rid_ t) y h) = (pre ++ pre' ++ change_tuple (tuple_rid_ t) y t) ++ ts'
  /\ tuple_rid_ t ∉ tuple_rid_ <$> ts' /\ live_record (tuple_rid_ t) h.
Proof.
  intros Hnd Hts. pose proof (heap_ids_nodup h Hnd) as Hids.
  assert (Hlive : live_record (tuple_rid_ t) h) by (apply heap_tuple_live; [done|rewrite Hts; set_solver]).
  rewrite Hts, app_assoc, fmap_app, fmap_cons in Hids. apply NoDup_app in Hids as (_ & Hdis & [Hne _]%NoDup_cons). split; [|done].
  rewrite <- (drop_0 (change_record _ _ _)), heap_tuples_changed, drop_0, Hts by done.
  rewrite app_assoc, bind_app, bind_cons, (change_others _ _ ts') by done. rewrite (change_others _ _ (pre ++ pre')).
  - by rewrite !app_assoc.
  - intros Hin. apply (Hdis _ Hin). by left.
Qed.
End RecordChange.

(** ** What a change does to the records that transactions see *)

Section Records.
Context `{Config}.
Implicit Types (h : heap) (v : contents_of) (t : Tuple) (y : slot) (rid : RID).

Lemma heap_page_change rid y p h : heap_page p (change_record rid y h) = change_slots rid y p 0 <$> heap_page p h.
Proof.
  induction h as [|[q l] h IH]; [done|]. rewrite change_record_cons. cbn [heap_page]. by case_decide; subst.
Qed.

Lemma visible_change h t y :
  NoDup h.*1 -> t ∈ heap_tuples h -> same_records (visible (change_record (tuple_rid_ t) y h)) (vset (visible h) (tuple_rid_ t) (no_empty (Some y))).
Proof.
  intros Hnd Ht r Hr. destruct (heap_tuple_record h t Ht) as (i & l & Hi & Hs & Hpos).
  unfold visible, heap_slot, vset. rewrite heap_page_change. destruct (decide (r = tuple_rid_ t)) as [->|Hne].
  - rewrite (heap_page_some h i _ l Hnd Hi). cbn [fmap option_fmap option_map mbind option_bind]. unfold slot_at in *.
    rewrite change_slots_lookup, Hs. cbn [fmap option_fmap option_map]. rewrite decide_True; [done|].
    destruct (tuple_rid_ t) as [p n]. cbn [slot_num_ page_id_ RID_Set] in *. unfold RID_Set. f_equal. lia.
  - destruct (heap_page (page_id_ r) h) as [l'|]; [|done]. cbn [fmap option_fmap option_map mbind option_bind]. unfold slot_at.
    rewrite change_slots_lookup. destruct (l' !! Z.to_nat (slot_num_ r)) as [s|]; [|done]. cbn [fmap option_fmap option_map].
    rewrite decide_False; [done|]. intros E. apply Hne. rewrite <- E. destruct r as [p n]. cbn [slot_num_ page_id_ RID_Set] in *.
    unfold RID_Set. f_equal. lia.
Qed.

Lemma visible_tuple h t : NoDup h.*1 -> t ∈ heap_tuples h -> visible h (tuple_rid_ t) = Some (Live (tuple_data_ t)).
Proof.
  intros Hnd (i & l & Hi & Hs & _)%heap_tuple_record. unfold visible, heap_slot. rewrite (heap_page_some h i _ l Hnd Hi).
  cbn [mbind option_bind]. by rewrite Hs.
Qed.

(** The record of a change can be undone where the change is seen. *)
Definition reverts (record : Tuple -> TableWriteRecord) t y : Prop :=
  forall v, v (tuple_rid_ t) = Some y -> undoable v (record t) /\ undo v (record t) = vset v (tuple_rid_ t) (Some (Live (tuple_data_ t))).

Definition change_all (found : list (Tuple * slot)) h : heap := foldl (fun h p => change_record (tuple_rid_ p.1) p.2 h) h found.

Lemma change_all_pages found h : (change_all found h).*1 = h.*1.
Proof. revert h. induction found as [|p found IH]; intros h; [done|]. cbn [change_all foldl]. etransitivity; [apply IH|apply change_record_pages]. Qed.

Lemma change_other_tuples h t t' y : NoDup h.*1 -> t ∈ heap_tuples h -> t' ∈ heap_tuples h -> tuple_rid_ t' <> tuple_rid_ t ->
  t' ∈ heap_tuples (change_record (tuple_rid_ t) y h).
Proof.
  intros Hnd Ht Ht' Hne. rewrite <- (drop_0 (change_record _ _ _)), heap_tuples_changed, drop_0 by (by apply heap_tuple_live).
  apply list_elem_of_bind. exists t'. split; [|done]. unfold change_tuple. rewrite decide_False by done. by apply list_elem_of_singleton.
Qed.

Lemma undo_all_app v (l l' : list TableWriteRecord) : undo_all v (l ++ l') = undo_all (undo_all v l) l'.
Proof. revert v. induction l as [|r l IH]; intros v; [done|]. apply IH. Qed.

Lemma undoable_all_app v (l l' : list TableWriteRecord) : undoable_all v (l ++ l') <-> undoable_all v l /\ undoable_all (undo_all v l) l'.
Proof.
  revert v. induction l as [|r l IH]; intros v; cbn [app undoable_all undo_all]; [tauto|]. rewrite IH. tauto.
Qed.

Lemma change_all_undo record found : forall h,
  NoDup h.*1 -> found.*1 ⊆ heap_tuples h -> NoDup (tuple_rid_ <$> found.*1) ->
  Forall (fun p => reverts record p.1 p.2 /\ p.2 <> Empty) found ->
  undoable_all (visible (change_all found h)) (rev (record <$> found.*1))
  /\ same_records (undo_all (visible (change_all found h)) (rev (record <$> found.*1))) (visible h).
Proof.
  induction found as [|[t y] found IH]; intros h Hnd Hsub Hids Hall; [by split|].
  rewrite !fmap_cons in *. cbn [fst] in *. apply Forall_cons in Hall as [[Hrev Hne] Hall]. apply NoDup_cons in Hids as [Hni Hids].
  assert (Ht : t ∈ heap_tuples h) by set_solver. set (h1 := change_record (tuple_rid_ t) y h).
  change (change_all ((t, y) :: found) h) with (change_all found h1).
  assert (Hp1 : h1.*1 = h.*1) by apply change_record_pages.
  destruct (IH h1) as [Hu Hsame]; [by rewrite Hp1| |done|done|].
  { intros t' Ht'. apply change_other_tuples; [done|done|set_solver|]. intros E. apply Hni. rewrite <- E. by apply list_elem_of_fmap_2. }
  pose proof (visible_change h t y Hnd Ht) as Hv. fold h1 in Hv.
  destruct (heap_tuple_record h t Ht) as (_ & _ & _ & _ & Hpos).
  set (v1 := undo_all (visible (change_all found h1)) (rev (record <$> found.*1))) in *.
  assert (Hy : v1 (tuple_rid_ t) = Some y).
  { rewrite (Hsame _ Hpos), (Hv _ Hpos), vset_eq. by destruct y. }
  destruct (Hrev v1 Hy) as [Hu1 Hun]. cbn [fst snd rev] in *. rewrite undoable_all_app, undo_all_app. fold v1. cbn [undoable_all undo_all].
  split; [done|]. cbn [fst snd] in Hun. rewrite Hun. intros r Hr. unfold vset. case_decide as Hd.
  - subst r. by rewrite visible_tuple.
  - rewrite (Hsame r Hr), (Hv r Hr). by apply vset_ne.
Qed.

(** ** The marks of the deletions *)

(** The records of [h], when the writes [ws] have made it [h']: those that were
    deleted had tuples and are marked; a mark stays, and no record gets a tuple
    that had none. *)
Record marks h h' (ws : list TableWriteRecord) : Prop := {
  mk_once : NoDup (deleted_rids ws);
  mk_deleted rid : rid ∈ deleted_rids ws ->
    0 <= slot_num_ rid /\ (exists d, visible h rid = Some (Live d)) /\ exists d, visible h' rid = Some (Marked d);
  mk_stay rid d : 0 <= slot_num_ rid -> visible h rid = Some (Marked d) -> visible h' rid = Some (Marked d);
  mk_marked rid d : 0 <= slot_num_ rid -> visible h' rid = Some (Marked d) -> rid ∈ deleted_rids ws \/ visible h rid = Some (Marked d);
  mk_live rid d : 0 <= slot_num_ rid -> visible h' rid = Some (Live d) -> exists d', visible h rid = Some (Live d')
}.

Lemma deleted_rids_app (ws ws' : list TableWriteRecord) : deleted_rids (ws ++ ws') = deleted_rids ws ++ deleted_rids ws'.
Proof. unfold deleted_rids. by rewrite filter_app, fmap_app. Qed.

Lemma marks_none h : marks h h [].
Proof.
  split; [constructor|by intros rid ?%elem_of_nil|done|by right|]. intros rid d _ Hd. by exists d.
Qed.

Lemma marks_app h1 h2 h3 ws ws' : marks h1 h2 ws -> marks h2 h3 ws' -> marks h1 h3 (ws ++ ws').
Proof.
  intros [A1 A2 A3 A4 A5] [B1 B2 B3 B4 B5]. split.
  - rewrite deleted_rids_app. apply NoDup_app. split_and!; [done| |done]. intros rid Hin Hin'.
    destruct (A2 rid Hin) as (_ & _ & d & Hd). destruct (B2 rid Hin') as (_ & (d' & Hd') & _). congruence.
  - intros rid. rewrite deleted_rids_app. intros [Hin|Hin]%elem_of_app.
    + destruct (A2 rid Hin) as (Hpos & Hl & d & Hd). split_and!; [done|done|]. exists d. by apply B3.
    + destruct (B2 rid Hin) as (Hpos & (d & Hd) & Hm). split_and!; [done| |done]. by eapply A5.
  - intros rid d Hpos Hd. by apply B3, A3.
  - intros rid d Hpos Hd. rewrite deleted_rids_app, elem_of_app. destruct (B4 rid d Hpos Hd) as [?|Hd']; [by left; right|].
    destruct (A4 rid d Hpos Hd') as [?|?]; [by left; left|by right].
  - intros rid d Hpos Hd. destruct (B5 rid d Hpos Hd) as [d' Hd']. by eapply A5.
Qed.

(** A record that a deletion marks or an update overwrites. *)
Definition written_slot (record : Tuple -> TableWriteRecord) t y : Prop :=
  wr_rid_ (record t) = tuple_rid_ t /\
  match y with Marked _ => wr_wtype_ (record t) = WDelete | Live _ => wr_wtype_ (record t) <> WDelete | Empty => False end.

Lemma change_record_marks record h t y : NoDup h.*1 -> t ∈ heap_tuples h -> written_slot record t y ->
  marks h (change_record (tuple_rid_ t) y h) [record t].
Proof.
  intros Hnd Ht [Hrid Hy]. pose proof (visible_change h t y Hnd Ht) as Hv. pose proof (visible_tuple h t Hnd Ht) as Hl.
  destruct (heap_tuple_record h t Ht) as (_ & _ & _ & _ & Hpos).
  assert (Hdel : forall rid, rid ∈ deleted_rids [record t] <-> rid = tuple_rid_ t /\ wr_wtype_ (record t) = WDelete).
  { intros rid. unfold deleted_rids. rewrite filter_cons, filter_nil. case_decide as Hd; cbn [fmap list_fmap].
    - rewrite list_elem_of_singleton, Hrid. tauto.
    - rewrite elem_of_nil. tauto. }
  split.
  - unfold deleted_rids. rewrite filter_cons. case_decide; [apply NoDup_singleton|constructor].
  - intros rid [-> Hd]%Hdel. split_and!; [done|by eexists|]. rewrite (Hv _ Hpos), vset_eq. destruct y; try done. by eexists.
  - intros rid d Hr Hd. rewrite (Hv _ Hr), vset_ne; [done|]. intros ->. congruence.
  - intros rid d Hr Hd. rewrite (Hv _ Hr) in Hd. rewrite Hdel. destruct (decide (rid = tuple_rid_ t)) as [->|Hne].
    + rewrite vset_eq in Hd. destruct y; try done. by left.
    + rewrite vset_ne in Hd by done. by right.
  - intros rid d Hr Hd. rewrite (Hv _ Hr) in Hd. destruct (decide (rid = tuple_rid_ t)) as [->|Hne]; [by eexists|].
    rewrite vset_ne in Hd by done. by eexists.
Qed.

Lemma change_all_marks record found : forall h,
  NoDup h.*1 -> found.*1 ⊆ heap_tuples h -> NoDup (tuple_rid_ <$> found.*1) -> Forall (fun p => written_slot record p.1 p.2) found ->
  marks h (change_all found h) (record <$> found.*1).
Proof.
  induction found as [|[t y] found IH]; intros h Hnd Hsub Hids Hall; [apply marks_none|].
  rewrite !fmap_cons in *. cbn [fst] in *. apply Forall_cons in Hall as [Hw Hall]. apply NoDup_cons in Hids as [Hni Hids].
  assert (Ht : t ∈ heap_tuples h) by set_solver. cbn [fst snd] in Hw.
  change (marks h (change_all found (change_record (tuple_rid_ t) y h)) ([record t] ++ (record <$> found.*1))).
  eapply marks_app; [by apply change_record_marks|]. apply IH; [by rewrite change_record_pages| |done|done].
  intros t' Ht'. apply change_other_tuples; [done|done|set_solver|]. intros E. apply Hni. rewrite <- E. by apply list_elem_of_fmap_2.
Qed.

(** Heaps that show the same tuples. *)
Lemma page_tuples_live p k (l l' : list slot) : (forall (j : nat) d, l !! j = Some (Live d) <-> l' !! j = Some (Live d)) ->
  page_tuples p k l = page_tuples p k l'.
Proof.
  assert (Hnone : forall (l : list slot) k, (forall (j : nat) d, l !! j <> Some (Live d)) -> page_tuples p k l = []).
  { clear. induction l as [|s l IH]; intros k Hl; [done|]. cbn [page_tuples]. rewrite IH by (intros j; apply (Hl (Datatypes.S j))).
    destruct s as [|d|]; try done. by destruct (Hl 0%nat d). }
  revert k l'. induction l as [|s l IH]; intros k [|s' l'] Hl; [done|symmetry; apply Hnone|apply Hnone|].
  - intros j d Hj. by apply Hl in Hj.
  - intros j d Hj. by apply Hl in Hj.
  - cbn [page_tuples]. rewrite (IH (Datatypes.S k) l') by (intros j; apply (Hl (Datatypes.S j))). f_equal.
    pose proof (fun d => Hl 0%nat d) as H0. cbn in H0.
    destruct s as [|d|d], s' as [|d'|d']; try done; first [by discriminate (proj1 (H0 d) eq_refl)|by discriminate (proj2 (H0 d') eq_refl)|idtac].
    specialize (proj1 (H0 d) eq_refl). by intros [= ->].
Qed.

Lemma same_tuples h h' : h'.*1 = h.*1 -> NoDup h.*1 ->
  (forall rid d, 0 <= slot_num_ rid -> visible h rid = Some (Live d) <-> visible h' rid = Some (Live d)) -> heap_tuples h' = heap_tuples h.
Proof.
  revert h'. induction h as [|[p l] h IH]; intros [|[p' l'] h'] Hp Hnd Hv; try done. rewrite !fmap_cons in Hp. injection Hp as -> Hp.
  rewrite fmap_cons in Hnd. apply NoDup_cons in Hnd as [Hn Hnd]. cbn [fst] in *. rewrite !heap_tuples_cons.
  assert (Hvis : forall rid (l : list slot) h, visible ((p, l) :: h) rid = if decide (p = page_id_ rid) then no_empty (slot_at rid l) else visible h rid).
  { intros rid l0 h0. unfold visible, heap_slot. cbn [heap_page]. by case_decide. }
  f_equal.
  - apply page_tuples_live. intros j d. specialize (Hv (RID_Set p (Z.of_nat j)) d ltac:(simpl; lia)). rewrite !Hvis in Hv.
    cbn [page_id_ RID_Set] in Hv. rewrite !decide_True in Hv by done. unfold slot_at in Hv. cbn [slot_num_ RID_Set] in Hv. rewrite Nat2Z.id in Hv.
    unfold no_empty in Hv. destruct (l !! j) as [[]|], (l' !! j) as [[]|]; naive_solver.
  - apply IH; [done|done|]. intros rid d Hr. specialize (Hv rid d Hr). rewrite !Hvis in Hv. case_decide as Hd; [|done].
    assert (Hno : forall h, p ∉ h.*1 -> visible h rid = None).
    { intros h0 Hh0. unfold visible, heap_slot. rewrite <- Hd. assert (E : heap_page p h0 = None); [|by rewrite E].
      induction h0 as [|[q l0] h0 IH0]; [done|]. rewrite fmap_cons in Hh0. apply not_elem_of_cons in Hh0 as [Hq Hh0]. cbn [heap_page].
      rewrite decide_False by (intros ->; by apply Hq). by apply IH0. }
    by rewrite !Hno by (rewrite ?Hp; done).
Qed.

(** Purging the deleted records leaves the tuples. *)
Lemma purge_tuples h h' h2 ws : marks h h' ws -> h2.*1 = h'.*1 -> NoDup h'.*1 -> same_records (visible h2) (purge (visible h') (deleted_rids ws)) ->
  heap_tuples h2 = heap_tuples h'.
Proof.
  intros [_ Hdel _ _ _] Hp Hnd Hs. apply same_tuples; [done|done|]. intros rid d Hr. rewrite (Hs rid Hr). unfold purge.
  case_decide as Hd; [|done]. destruct (Hdel rid Hd) as (_ & _ & d' & E). rewrite E. done.
Qed.
End Records.
