(* ===== verification/HashUtil.v ===== *)
(** Hashes of values ([src/include/common/util/hash_util.h]) and the unordered
    containers of the executors.

    [hash_t] is a 64-bit [size_t]; memory is little endian.  The keys of the
    executors' containers are lists of values; [std::unordered_map] and
    [std::unordered_set] keep the hash code with each element, compare codes
    before keys, and are traversed in an order of their own ([HashOrder]). *)

From S2P Require Import Prelude Bytes Ieee Value Types TypesCorrect.

(** ** Definitions *)

(** [char] is signed: a byte is extended with its sign. *)
Definition hash_byte (hash b : Z) : Z :=
  Z.lxor (Z.lxor (unsigned 64 (Z.shiftl hash 5)) (Z.shiftr hash 27)) (unsigned 64 (signed 8 b)).
Definition HashBytes (bs : bytes) : Z := foldl hash_byte (Z.of_nat (length bs)) bs.

Definition CombineHashes (l r : Z) : Z := HashBytes (le_split 8 l ++ le_split 8 r).

Definition PRIME_FACTOR : Z := 10000019.
Definition SumHashes (l r : Z) : Z := (l mod PRIME_FACTOR + r mod PRIME_FACTOR) mod PRIME_FACTOR.

Definition HashValue (val : Value) : res Z :=
  match type_id_ val with
  | TINYINT | SMALLINT | INTEGER | BIGINT | TIMESTAMP =>
      let! raw := GetAs_int val in Ok (HashBytes (le_split 8 (unsigned 64 raw)))
  | BOOLEAN => let! raw := GetAs_int val in Ok (HashBytes (le_split 1 (unsigned 8 raw)))
  | DECIMAL => let! raw := GetAs_double val in Ok (HashBytes (le_split 8 (double_bits raw)))
  | VARCHAR =>
      let! raw := Value_GetData val in
      let! len := Value_GetLength val in
      let! bs := read_data raw len in Ok (HashBytes bs)
  | INVALID => Err AssertionFailure
  end.

(** *** Keys of several values *)

(** [operator()] of the hash of [AggregateKey] and of [DistinctKey]. *)
Fixpoint hash_values (curr_hash : Z) (keys : list Value) : res Z :=
  match keys with
  | [] => Ok curr_hash
  | key :: keys =>
      let! curr_hash := if negb (IsNull key) then let! h := HashValue key in Ok (CombineHashes curr_hash h) else Ok curr_hash in
      hash_values curr_hash keys
  end.

(** Their [operator==]: one round per value of the right key. *)
Fixpoint eq_values (keys others : list Value) : res bool :=
  match others with
  | [] => Ok true
  | other :: others =>
      match keys with
      | [] => Err OutOfBounds
      | key :: keys =>
          let! c := Value_CompareEquals key other in
          if decide (c = CmpTrue) then eq_values keys others else Ok false
      end
  end.

(** *** Unordered maps *)

(** The order in which a container is traversed is its own affair. *)
Class HashOrder : Type := {
  hash_order : forall {A : Type}, list A -> list A;
  hash_order_perm {A} (l : list A) : hash_order l ≡ₚ l
}.

(** An element with its hash code, in order of insertion. *)
Notation umap K V := (list (Z * (K * V))).

Section UnorderedMap.
Context {K V : Type} (hash : K -> res Z) (key_eq : K -> K -> res bool).
Implicit Types (k : K) (v : V) (m : umap K V).

(** The position of the element with a key. *)
Fixpoint umap_scan (code : Z) k m (i : nat) : res (option nat) :=
  match m with
  | [] => Ok None
  | (c, (k', _)) :: m =>
      let! eq := if code =? c then key_eq k k' else Ok false in
      if eq : bool then Ok (Some i) else umap_scan code k m (S i)
  end.
Definition umap_find k m : res (option nat) := let! code := hash k in umap_scan code k m O.

(** [count(k) > 0]. *)
Definition umap_count k m : res bool := let! r := umap_find k m in Ok (bool_decide (is_Some r)).

(** [insert({k, v})]: nothing when the key is there. *)
Definition umap_insert k v m : res (umap K V) :=
  let! r := umap_find k m in
  match r with
  | Some _ => Ok m
  | None => let! code := hash k in Ok (m ++ [(code, (k, v))])
  end.

(** [m[k]] and a change of the element it gives: a missing key is inserted with
    the default value [d] first. *)
Definition umap_at k (d : V) (f : V -> res V) m : res (umap K V) :=
  let! r := umap_find k m in
  match r with
  | Some i =>
      match m !! i with
      | Some (c, (k', v)) => let! v := f v in Ok (<[i := (c, (k', v))]> m)
      | None => Err DanglingIterator
      end
  | None => let! v := f d in let! code := hash k in Ok (m ++ [(code, (k, v))])
  end.

Definition umap_elements m : list (K * V) := m.*2.
End UnorderedMap.

(** ** Lemmas *)

(** *** Values that serve as keys *)

(** A number, a truth value or a string, and not null. *)
Definition plain (v : Value) : Prop :=
  match type_id_ v with
  | BOOLEAN => exists z, is_signed 8 z /\ z <> BUSTUB_BOOLEAN_NULL /\ v = int_value BOOLEAN int8_t z
  | VARCHAR => exists s, short s /\ v = varchar_value s
  | t => exists T z, int_type_of t = Some T /\ proper_int T z /\ v = int_value t T z
  end.

Lemma lex_compare_eq s1 s2 : cmp_holds OpEq (lex_compare s1 s2) = bool_decide (s1 = s2).
Proof.
  revert s2. induction s1 as [|b1 s1 IH]; intros [|b2 s2]; try done. cbn [lex_compare].
  destruct (Z.compare_spec b1 b2) as [->|Hlt|Hgt].
  - rewrite IH. apply bool_decide_ext. split; congruence.
  - rewrite bool_decide_false; [done|]. intros [= ]. lia.
  - rewrite bool_decide_false; [done|]. intros [= ]. lia.
Qed.

Lemma plain_equal v o : plain v -> plain o -> type_id_ v = type_id_ o ->
  Value_CompareEquals v o = Ok (GetCmpBool (bool_decide (v = o))).
Proof.
  intros Hv Ho Ht. unfold plain in Hv, Ho. rewrite <- Ht in Ho.
  assert (Hint : forall t, type_id_ v = t ->
    (exists T z, int_type_of t = Some T /\ proper_int T z /\ v = int_value t T z) ->
    (exists T z, int_type_of t = Some T /\ proper_int T z /\ o = int_value t T z) ->
    Value_CompareEquals v o = Ok (GetCmpBool (bool_decide (v = o)))).
  { intros t _ (T & x & HT & [_ Hx] & ->) (T' & y & HT' & [_ Hy] & ->). assert (T' = T) as -> by congruence.
    pose proof (Value_compare_exact OpEq t T x t T y HT HT) as E. cbn [Value_compare] in E. rewrite E.
    rewrite (proj2 (Z.eqb_neq _ _) Hx), (proj2 (Z.eqb_neq _ _) Hy). cbn [orb zcmp]. do 2 f_equal.
    destruct (Z.eqb_spec x y) as [->|Hne]; [by rewrite bool_decide_true|]. rewrite bool_decide_false; [done|].
    unfold int_value. congruence. }
  destruct (type_id_ v) eqn:Ev; try (by apply (Hint _ eq_refl)).
  - destruct Hv as (x & Hx & Hnx & ->), Ho as (y & Hy & Hny & ->). unfold Value_CompareEquals. simpl.
    unfold BooleanType_CompareEquals, compare_checked. cbn [CheckComparable type_id_ int_value assert rbind].
    fold (int_value BOOLEAN int8_t x) (int_value BOOLEAN int8_t y).
    rewrite !IsNull_int, !(proj2 (Z.eqb_neq _ (null_int int8_t))) by done. cbn [orb].
    assert (E : BOOLEAN_COMPARE_FUNC OpEq (int_value BOOLEAN int8_t x) (int_value BOOLEAN int8_t y) = Ok (GetCmpBool (x =? y))).
    { unfold BOOLEAN_COMPARE_FUNC, Value_CastAs. cbn [GetAs_int int_value value_ rbind type_id_ GetInstance vt_boolean].
      unfold BooleanType_CastAs. cbn [type_id_ int_value]. fold (int_value BOOLEAN int8_t y). simpl.
      by rewrite signed_id. }
    rewrite E. do 2 f_equal. destruct (Z.eqb_spec x y) as [->|Hne]; [by rewrite bool_decide_true|].
    rewrite bool_decide_false; [done|]. unfold int_value. congruence.
  - destruct Hv as (s1 & Hs1 & ->), Ho as (s2 & Hs2 & ->).
    pose proof (Value_compare_lex OpEq s1 s2 (varchar_value s2) Hs1 Hs2 (IsNull_varchar s2 Hs2) eq_refl) as E.
    cbn [Value_compare] in E. rewrite E. do 2 f_equal. rewrite lex_compare_eq. apply bool_decide_ext.
    split; [by intros ->|]. unfold varchar_value. intros Heq. injection Heq as Heq _. by apply app_inv_tail in Heq.
Qed.

Lemma plain_not_null v : plain v -> IsNull v = false.
Proof.
  intros Hv. unfold plain in Hv.
  assert (Hint : (exists T z, int_type_of (type_id_ v) = Some T /\ proper_int T z /\ v = int_value (type_id_ v) T z) -> IsNull v = false).
  { intros (T & z & _ & [_ Hz] & ->). rewrite IsNull_int. by apply Z.eqb_neq. }
  destruct (type_id_ v) eqn:Ev; try (by apply Hint).
  - destruct Hv as (z & _ & Hz & ->). rewrite IsNull_int. by apply Z.eqb_neq.
  - destruct Hv as (s & Hs & ->). by apply IsNull_varchar.
Qed.

Lemma plain_hash v : plain v -> exists h, HashValue v = Ok h.
Proof.
  intros Hv. unfold plain in Hv. unfold HashValue.
  assert (Hint : (exists T z, int_type_of (type_id_ v) = Some T /\ proper_int T z /\ v = int_value (type_id_ v) T z) ->
    exists h, (let! raw := GetAs_int v in Ok (HashBytes (le_split 8 (unsigned 64 raw)))) = Ok h).
  { intros (T & z & _ & _ & ->). by eexists. }
  destruct (type_id_ v) eqn:Ev; try (by apply Hint); try (by destruct Hv as (T & z & HT & _)).
  - destruct Hv as (z & _ & _ & ->). by eexists.
  - destruct Hv as (s & Hs & ->).
    change (Value_GetData (varchar_value s)) with (Ok (Some (s ++ [0]))).
    change (Value_GetLength (varchar_value s)) with (Ok (Z.of_nat (length s) + 1)). cbn [rbind read_data].
    assert (Z.of_nat (length s) + 1 = Z.of_nat (length (s ++ [0]))) as -> by (rewrite length_app; simpl; lia).
    rewrite read_all. by eexists.
Qed.

(** Keys of the given types. *)
Definition plain_keys (ts : list TypeId) (l : list Value) : Prop := Forall2 (fun t v => plain v /\ type_id_ v = t) ts l.

Lemma hash_values_ok ts l code : plain_keys ts l -> exists h, hash_values code l = Ok h.
Proof.
  intros Hl. revert code. induction Hl as [|t v ts l [Hv _] _ IH]; intros code; [by exists code|].
  cbn [hash_values]. rewrite (plain_not_null v Hv). cbn [negb]. destruct (plain_hash v Hv) as [h ->]. cbn [rbind]. apply IH.
Qed.

Lemma eq_values_ok ts l l' : plain_keys ts l -> plain_keys ts l' -> eq_values l l' = Ok (bool_decide (l = l')).
Proof.
  intros Hl. revert l'. induction Hl as [|t v ts l [Hv Ht] _ IH]; intros l' Hl'; inversion Hl' as [|? v' ? l0 [Hv' Ht'] Hl0]; subst.
  - done.
  - cbn [eq_values]. rewrite (plain_equal v v' Hv Hv') by congruence. cbn [rbind].
    destruct (decide (v = v')) as [<-|Hne].
    + rewrite bool_decide_true by done. cbn [GetCmpBool]. rewrite decide_True by done. rewrite (IH l0 Hl0).
      f_equal. apply bool_decide_ext. split; congruence.
    + rewrite bool_decide_false by done. cbn [GetCmpBool]. rewrite decide_False by done.
      f_equal. symmetry. apply bool_decide_eq_false. congruence.
Qed.

(** *** A container of such keys is an association list *)

(** Change the value of a key, [d] when it has none. *)
Fixpoint assoc_update {K V} `{EqDecision K} (k : K) (d : V) (f : V -> res V) (l : list (K * V)) : res (list (K * V)) :=
  match l with
  | [] => let! v := f d in Ok [(k, v)]
  | (k', v) :: l =>
      if decide (k' = k) then let! v := f v in Ok ((k', v) :: l)
      else let! l := assoc_update k d f l in Ok ((k', v) :: l)
  end.

Definition assoc_find {K V} `{EqDecision K} (k : K) (l : list (K * V)) : option V :=
  snd ∘ snd <$> list_find (fun e => e.1 = k) l.

Lemma assoc_find_is_Some {K V} `{EqDecision K} (k : K) (l : list (K * V)) : is_Some (assoc_find k l) <-> k ∈ l.*1.
Proof.
  unfold assoc_find. rewrite fmap_is_Some. induction l as [|[k' v] l IH]; cbn [list_find fst fmap list_fmap].
  - rewrite elem_of_nil. split; [by intros [? ?]|done].
  - rewrite elem_of_cons, <- IH. case_decide as Hk.
    + split; [by left|by eexists].
    + rewrite fmap_is_Some. split; [by right|]. by intros [->|?].
Qed.

Lemma assoc_find_None {K V} `{EqDecision K} (k : K) (l : list (K * V)) : assoc_find k l = None <-> k ∉ l.*1.
Proof. by rewrite <- assoc_find_is_Some, eq_None_not_Some. Qed.

Lemma assoc_update_new {K V} `{EqDecision K} (k : K) (d : V) (f : V -> res V) (l : list (K * V)) :
  k ∉ l.*1 -> assoc_update k d f l = let! v := f d in Ok (l ++ [(k, v)]).
Proof.
  induction l as [|[k' v] l IH]; [done|]. cbn [fmap list_fmap fst assoc_update]. rewrite elem_of_cons.
  intros Hk. rewrite decide_False by (intros ->; tauto). rewrite IH by tauto. by destruct (f d).
Qed.

Lemma assoc_update_last {K V} `{EqDecision K} (k : K) (d v : V) (f : V -> res V) (l : list (K * V)) :
  k ∉ l.*1 -> assoc_update k d f (l ++ [(k, v)]) = let! v := f v in Ok (l ++ [(k, v)]).
Proof.
  induction l as [|[k' v'] l IH]; cbn [fmap list_fmap fst assoc_update app]; [by rewrite decide_True|]. rewrite elem_of_cons.
  intros Hk. rewrite decide_False by (intros ->; tauto). rewrite IH by tauto. by destruct (f v).
Qed.

(** A key that is there needs no default. *)
Lemma assoc_update_there {K V} `{EqDecision K} (k : K) (d d' : V) (f g : V -> res V) (P : V -> Prop) (l l' : list (K * V)) :
  Forall (fun e => P e.2) l -> (forall v v', P v -> f v = Ok v' -> g v = Ok v') -> k ∈ l.*1 ->
  assoc_update k d f l = Ok l' -> assoc_update k d' g l = Ok l'.
Proof.
  intros HP Hfg. revert l'. induction HP as [|[k' v] l Hv HP IH]; intros l' Hk; [by apply elem_of_nil in Hk|].
  cbn [fmap list_fmap fst assoc_update] in *. apply elem_of_cons in Hk. case_decide as Hd.
  - destruct (f v) as [v'|] eqn:E; [|done]. by rewrite (Hfg v v').
  - destruct (assoc_update k d f l) as [l0|]; [|done]. rewrite (IH l0); [done| |done]. by destruct Hk as [->|?].
Qed.

Lemma assoc_find_fmap {K V W} `{EqDecision K} (k : K) (f : V -> W) (l : list (K * V)) :
  assoc_find k ((fun p => (p.1, f p.2)) <$> l) = f <$> assoc_find k l.
Proof.
  unfold assoc_find. rewrite list_find_fmap. change (list_find _ l) with (list_find (fun e => e.1 = k) l).
  by destruct (list_find _ l) as [[i p]|].
Qed.

Section UmapCorrect.
Context {K V : Type} `{EqDecision K} (hash : K -> res Z) (key_eq : K -> K -> res bool) (good : K -> Prop).
Implicit Types (k : K) (v : V) (m : umap K V).
Hypothesis hash_good : forall k, good k -> exists h, hash k = Ok h.
Hypothesis eq_good : forall k k', good k -> good k' -> key_eq k k' = Ok (bool_decide (k = k')).

Definition umap_ok m : Prop := Forall (fun e => good e.2.1 /\ hash e.2.1 = Ok e.1) m.

Lemma umap_scan_ok code k m i :
  good k -> hash k = Ok code -> umap_ok m ->
  umap_scan key_eq code k m i = Ok ((fun p => i + p.1)%nat <$> list_find (fun e => e.1 = k) m.*2).
Proof.
  intros Hk Hc Hm. revert i. induction Hm as [|[c [k' v]] m [Hk' Hc'] _ IH]; intros i; [done|]. cbn [umap_scan fst snd] in *.
  cbn [fmap list_fmap snd list_find fst]. destruct (decide (k' = k)) as [->|Hne].
  - assert (c = code) as -> by congruence. rewrite Z.eqb_refl, eq_good, bool_decide_true by done. simpl. by rewrite Nat.add_0_r.
  - assert (E : (if code =? c then key_eq k k' else Ok false) = Ok false).
    { case_match; [|done]. rewrite eq_good by done. by rewrite bool_decide_false. }
    rewrite E. cbn [rbind]. rewrite IH. f_equal. destruct (list_find _ m.*2) as [[j e]|]; simpl; [|done]. f_equal. lia.
Qed.

Lemma umap_find_ok k m : good k -> umap_ok m -> umap_find hash key_eq k m = Ok (fst <$> list_find (fun e => e.1 = k) m.*2).
Proof.
  intros Hk Hm. unfold umap_find. destruct (hash_good k Hk) as [code Hc]. rewrite Hc. cbn [rbind].
  rewrite (umap_scan_ok code) by done. done.
Qed.

(** What a search finds. *)
Lemma umap_lookup_ok k m :
  good k -> umap_ok m ->
  exists i, umap_find hash key_eq k m = Ok i /\ (fun e => e.2.2) <$> (i ≫= fun i => m !! i) = assoc_find k m.*2.
Proof.
  intros Hk Hm. eexists. split; [by apply umap_find_ok|]. unfold assoc_find.
  destruct (list_find _ m.*2) as [[i kv]|] eqn:E; [|done]. apply list_find_Some in E as (Hi & _ & _).
  rewrite list_lookup_fmap in Hi. cbn. destruct (m !! i) as [e|]; [|done]. by injection Hi as <-.
Qed.

Lemma assoc_update_find k (d : V) (f : V -> res V) (l : list (K * V)) :
  assoc_update k d f l = match list_find (fun e => e.1 = k) l with
                         | Some (i, (_, v)) => let! v := f v in Ok (<[i := (k, v)]> l)
                         | None => let! v := f d in Ok (l ++ [(k, v)])
                         end.
Proof.
  induction l as [|[k' v] l IH]; [done|]. cbn [assoc_update list_find fst]. destruct (decide (k' = k)) as [->|Hne]; [done|].
  rewrite IH. destruct (list_find _ l) as [[i [k0 v0]]|]; simpl; [destruct (f v0)|destruct (f d)]; done.
Qed.

Lemma umap_at_ok k (d : V) (f : V -> res V) m (l : list (K * V)) :
  good k -> umap_ok m -> assoc_update k d f m.*2 = Ok l ->
  exists m', umap_at hash key_eq k d f m = Ok m' /\ m'.*2 = l /\ umap_ok m'.
Proof.
  intros Hk Hm Hl. rewrite assoc_update_find in Hl. unfold umap_at. rewrite umap_find_ok by done. cbn [rbind].
  destruct (hash_good k Hk) as [code Hc]. destruct (list_find _ m.*2) as [[i [k0 v0]]|] eqn:E; cbn [fmap option_fmap option_map fst].
  - apply list_find_Some in E as (Hi & Hk0 & _). cbn [fst] in Hk0. subst k0. apply list_lookup_fmap_Some in Hi as ([c kv] & Ekv & Hi).
    simpl in Ekv. subst kv. rewrite Hi. destruct (f v0) as [v|] eqn:Ev; [|done]. cbn [rbind] in Hl |- *.
    eexists. split; [done|]. injection Hl as <-. split; [by rewrite list_fmap_insert|].
    apply Forall_insert; [done|]. exact (proj1 (Forall_lookup _ _) Hm i _ Hi).
  - destruct (f d) as [v|]; [|done]. cbn [rbind] in Hl |- *. rewrite Hc. cbn [rbind]. eexists. split; [done|].
    injection Hl as <-. split; [by rewrite fmap_app|]. apply Forall_app. by split; [|constructor].
Qed.

Lemma umap_count_ok k m : good k -> umap_ok m -> umap_count hash key_eq k m = Ok (bool_decide (is_Some (assoc_find k m.*2))).
Proof.
  intros Hk Hm. unfold umap_count, assoc_find. rewrite umap_find_ok by done. cbn [rbind]. f_equal. apply bool_decide_ext.
  by rewrite !fmap_is_Some.
Qed.

(** [insert] of a key that is not there, as a change of the default. *)
Lemma umap_insert_ok k v m (l : list (K * V)) :
  good k -> umap_ok m -> assoc_find k m.*2 = None -> assoc_update k v Ok m.*2 = Ok l ->
  exists m', umap_insert hash key_eq k v m = Ok m' /\ m'.*2 = l /\ umap_ok m'.
Proof.
  intros Hk Hm Hn Hl. unfold assoc_find in Hn. apply fmap_None in Hn. rewrite assoc_update_find, Hn in Hl. cbn [rbind] in Hl.
  unfold umap_insert. rewrite umap_find_ok, Hn by done. cbn [rbind fmap option_fmap option_map].
  destruct (hash_good k Hk) as [code Hc]. rewrite Hc. eexists. split; [done|]. injection Hl as <-.
  split; [by rewrite fmap_app|]. apply Forall_app. by split; [|constructor].
Qed.
End UmapCorrect.
