(* ===== verification/Expression.v ===== *)
(** Expressions ([src/include/execution/expressions/]).

    The classes derived from [AbstractExpression] are the constructors of a
    tree; the virtual calls are functions by recursion on it.  A column of an
    output schema points to the expression that computes it. *)

From S2P Require Import Prelude Bytes Value Types TypesCorrect ValueFactory Rid Schema TablePage TupleValues TupleCorrect.

(** ** Definitions *)

Inductive ComparisonType : Type := Equal | NotEqual | LessThan | LessThanOrEqual | GreaterThan | GreaterThanOrEqual.

Inductive Expression : Type :=
| ConstantValueExpression (val_ : Value)
| ColumnValueExpression (tuple_idx_ col_idx_ : Z) (ret_type : TypeId)
| ComparisonExpression (left_ right_ : Expression) (comp_type_ : ComparisonType)
| AggregateValueExpression (is_group_by_term_ : bool) (term_idx_ : Z) (ret_type : TypeId).

(** [GetReturnType]. *)
Definition GetReturnType (e : Expression) : TypeId :=
  match e with
  | ConstantValueExpression val_ => type_id_ val_
  | ColumnValueExpression _ _ ret_type | AggregateValueExpression _ _ ret_type => ret_type
  | ComparisonExpression _ _ _ => BOOLEAN
  end.

Definition PerformComparison (comp_type_ : ComparisonType) (lhs rhs : Value) : res CmpBool :=
  match comp_type_ with
  | Equal => Value_CompareEquals lhs rhs
  | NotEqual => Value_CompareNotEquals lhs rhs
  | LessThan => Value_CompareLessThan lhs rhs
  | LessThanOrEqual => Value_CompareLessThanEquals lhs rhs
  | GreaterThan => Value_CompareGreaterThan lhs rhs
  | GreaterThanOrEqual => Value_CompareGreaterThanEquals lhs rhs
  end.

(** [value.GetAs<bool>()]: the first byte of the union read as a [bool], which
    has no meaning for a byte other than 0 and 1, such as a null's. *)
Definition GetAs_bool (v : Value) : res bool :=
  let! z := GetAs_int v in
  let b := unsigned 8 z in
  if b =? 0 then Ok false else if b =? 1 then Ok true else Err InvalidBool.

Section Expressions.
Context `{Config}.
Notation schema := (Schema Expression).

(** A column of a tuple under the schema behind a pointer. *)
Definition value_under (s : option schema) (tuple : Tuple) (col_idx : Z) : res Value :=
  let! s := of_option NullDereference s in Tuple_GetValue tuple s col_idx.

(** The schemas are pointers. *)
Fixpoint Evaluate (e : Expression) (tuple : Tuple) (s : option schema) : res Value :=
  match e with
  | ConstantValueExpression val_ => Ok val_
  | ColumnValueExpression _ col_idx_ _ => value_under s tuple col_idx_
  | ComparisonExpression left_ right_ comp_type_ =>
      let! lhs := Evaluate left_ tuple s in
      let! rhs := Evaluate right_ tuple s in
      let! c := PerformComparison comp_type_ lhs rhs in
      GetBooleanValue_cmp c
  | AggregateValueExpression _ _ _ => Err StdLogicError
  end.

Fixpoint EvaluateJoin (e : Expression) (left_tuple : Tuple) (left_schema : option schema) (right_tuple : Tuple)
    (right_schema : option schema) : res Value :=
  match e with
  | ConstantValueExpression val_ => Ok val_
  | ColumnValueExpression tuple_idx_ col_idx_ _ =>
      if tuple_idx_ =? 0 then value_under left_schema left_tuple col_idx_
      else value_under right_schema right_tuple col_idx_
  | ComparisonExpression left_ right_ comp_type_ =>
      let! lhs := EvaluateJoin left_ left_tuple left_schema right_tuple right_schema in
      let! rhs := EvaluateJoin right_ left_tuple left_schema right_tuple right_schema in
      let! c := PerformComparison comp_type_ lhs rhs in
      GetBooleanValue_cmp c
  | AggregateValueExpression _ _ _ => Err StdLogicError
  end.

Fixpoint EvaluateAggregate (e : Expression) (group_bys aggregates : list Value) : res Value :=
  match e with
  | ConstantValueExpression val_ => Ok val_
  | ColumnValueExpression _ _ _ => Err AssertionFailure
  | ComparisonExpression left_ right_ comp_type_ =>
      let! lhs := EvaluateAggregate left_ group_bys aggregates in
      let! rhs := EvaluateAggregate right_ group_bys aggregates in
      let! c := PerformComparison comp_type_ lhs rhs in
      GetBooleanValue_cmp c
  | AggregateValueExpression is_group_by_term_ term_idx_ _ =>
      zlookup (if is_group_by_term_ then group_bys else aggregates) term_idx_
  end.

(** A column's expression that the joins take for a column of theirs. *)
Definition as_column (e : option Expression) : res (Z * Z) :=
  match e with
  | Some (ColumnValueExpression tuple_idx_ col_idx_ _) => Ok (tuple_idx_, col_idx_)
  | Some _ => Err TypeConfusion
  | None => Err NullDereference
  end.

(** ** Expressions on rows of values *)

(** The tuple holds these values under the schema. *)
Definition row_of (s : schema) (tuple : Tuple) (row : list Value) : Prop :=
  forall (i : Z) v, zlookup row i = Ok v -> Tuple_GetValue tuple s i = Ok v.

Fixpoint eval (e : Expression) (row : list Value) : res Value :=
  match e with
  | ConstantValueExpression val_ => Ok val_
  | ColumnValueExpression _ col_idx_ _ => zlookup row col_idx_
  | ComparisonExpression left_ right_ comp_type_ =>
      let! lhs := eval left_ row in
      let! rhs := eval right_ row in
      let! c := PerformComparison comp_type_ lhs rhs in
      GetBooleanValue_cmp c
  | AggregateValueExpression _ _ _ => Err StdLogicError
  end.

Fixpoint eval_join (e : Expression) (left_row right_row : list Value) : res Value :=
  match e with
  | ConstantValueExpression val_ => Ok val_
  | ColumnValueExpression tuple_idx_ col_idx_ _ => zlookup (if tuple_idx_ =? 0 then left_row else right_row) col_idx_
  | ComparisonExpression left_ right_ comp_type_ =>
      let! lhs := eval_join left_ left_row right_row in
      let! rhs := eval_join right_ left_row right_row in
      let! c := PerformComparison comp_type_ lhs rhs in
      GetBooleanValue_cmp c
  | AggregateValueExpression _ _ _ => Err StdLogicError
  end.

Lemma Evaluate_row e s t row v : row_of s t row -> eval e row = Ok v -> Evaluate e t (Some s) = Ok v.
Proof.
  intros Hr. revert v. induction e as [x|ti ci rt|l IHl r IHr c|g i rt]; intros v; cbn [eval Evaluate]; try done; [by apply Hr|].
  destruct (eval l row) as [x|]; [|done]. destruct (eval r row) as [y|]; [|done]. by rewrite (IHl x), (IHr y).
Qed.

Lemma EvaluateJoin_row e s1 t1 row1 s2 t2 row2 v :
  row_of s1 t1 row1 -> row_of s2 t2 row2 -> eval_join e row1 row2 = Ok v -> EvaluateJoin e t1 (Some s1) t2 (Some s2) = Ok v.
Proof.
  intros H1 H2. revert v. induction e as [x|ti ci rt|l IHl r IHr c|g i rt]; intros v; cbn [eval_join EvaluateJoin]; try done.
  - case_match; [by apply H1|by apply H2].
  - destruct (eval_join l row1 row2) as [x|]; [|done]. destruct (eval_join r row1 row2) as [y|]; [|done]. by rewrite (IHl x), (IHr y).
Qed.

(** *** Rows that fit a schema *)

(** A schema as [Schema] lays it out. *)
Definition good_schema (s : schema) : Prop := exists cols, s = Schema_new cols /\ well_sized cols /\ fixed_size cols < 2 ^ 31.

(** Values for the columns, together not too long for a tuple. *)
Definition fits_row (s : schema) (row : list Value) : Prop :=
  Forall2 (fun c v => fits (column_type_ c) v) (columns_ s) row /\ length_ s + var_size (columns_ s) row < 2 ^ 31.

Lemma build_row s row :
  good_schema s -> fits_row s row ->
  exists t, Tuple_of_values row s = Ok t /\ tuple_rid_ t = RID_default /\ row_of s t row
    /\ tuple_size_ t = length_ s + var_size (columns_ s) row.
Proof.
  intros (cols & -> & Hw & Hfix) [Hf Hb].
  assert (Hpos : Forall (fun c => 0 <= fixed_length_ c) cols).
  { clear -Hw. induction Hw as [|c cols Hc Hw IH]; constructor; [|done]. rewrite Hc. by destruct (column_type_ c). }
  destruct (Schema_new_ok cols Hpos ltac:(lia)) as (Hl & _ & _ & Ht & _).
  rewrite (var_size_types (columns_ (Schema_new cols)) cols row Ht) in *. rewrite Hl in *.
  destruct (Tuple_of_values_ok cols row (fits_types _ _ _ Ht Hf) Hw Hb) as (t & Hrun & Hsz & Hh & _). exists t.
  split_and!; [done| | |done].
  - unfold Tuple_of_values in Hrun. destruct (assert _); [|done]. cbn [rbind] in Hrun. destruct (TupleSize_loop _ _ _); [|done].
    cbn [rbind] in Hrun. destruct (SerializeColumns_loop _ _ _ _); [|done]. by injection Hrun as <-.
  - intros i v Hi. apply zlookup_ok in Hi as [Hi0 Hi]. destruct (Forall2_lookup_r _ _ _ _ _ Hh Hi) as (c & Hc & Hhc).
    apply (GetValue_holds t _ c v); [|by apply (Forall2_lookup_lr _ _ _ _ _ _ Hf Hc Hi)|done].
    apply zlookup_ok. by split.
Qed.
End Expressions.

(** * Plans ([src/include/execution/plans/])

    The plan node classes are the constructors of a tree; a node's children are
    its arguments.  An absent predicate is [None].  The two constructors of
    [InsertPlanNode] are told apart by [IsRawInsert]. *)

(** ** Definitions *)

Inductive AggregationType : Type := CountAggregate | SumAggregate | MinAggregate | MaxAggregate.
#[export] Instance AggregationType_eq_dec : EqDecision AggregationType.
Proof. solve_decision. Defined.

Inductive UpdateType : Type := UpdateAdd | UpdateSet.
Record UpdateInfo : Type := MkUpdateInfo {
  update_type_ : UpdateType;
  update_val_ : Z
}.

Inductive PlanNode : Type :=
| SeqScanPlanNode (output_schema_ : Schema Expression) (predicate_ : option Expression) (table_oid_ : Z)
| IndexScanPlanNode (output_schema_ : Schema Expression) (predicate_ : option Expression) (index_oid_ : Z)
| RawInsertPlanNode (raw_values_ : list (list Value)) (table_oid_ : Z)
| InsertPlanNode (child : PlanNode) (table_oid_ : Z)
| UpdatePlanNode (child : PlanNode) (table_oid_ : Z) (update_attrs_ : gmap Z UpdateInfo)
| DeletePlanNode (child : PlanNode) (table_oid_ : Z)
| AggregationPlanNode (output_schema_ : Schema Expression) (child : PlanNode) (having_ : option Expression)
    (group_bys_ aggregates_ : list Expression) (agg_types_ : list AggregationType)
| LimitPlanNode (output_schema_ : Schema Expression) (child : PlanNode) (limit_ : Z)
| DistinctPlanNode (output_schema_ : Schema Expression) (child : PlanNode)
| NestedLoopJoinPlanNode (output_schema_ : Schema Expression) (left_plan right_plan : PlanNode) (predicate_ : option Expression)
| NestedIndexJoinPlanNode (output_schema_ : Schema Expression) (child : PlanNode) (predicate_ : option Expression)
    (inner_table_oid_ : Z) (index_name_ : bytes) (outer_table_schema_ inner_table_schema_ : Schema Expression)
| HashJoinPlanNode (output_schema_ : Schema Expression) (left_plan right_plan : PlanNode)
    (left_key_expression_ right_key_expression_ : Expression).

Inductive PlanType : Type :=
| SeqScan | IndexScan | Insert | Update | Delete | Aggregation | Limit | Distinct | NestedLoopJoin | NestedIndexJoin | HashJoin.
#[export] Instance PlanType_eq_dec : EqDecision PlanType.
Proof. solve_decision. Defined.

Definition GetType (p : PlanNode) : PlanType :=
  match p with
  | SeqScanPlanNode _ _ _ => SeqScan
  | IndexScanPlanNode _ _ _ => IndexScan
  | RawInsertPlanNode _ _ | InsertPlanNode _ _ => Insert
  | UpdatePlanNode _ _ _ => Update
  | DeletePlanNode _ _ => Delete
  | AggregationPlanNode _ _ _ _ _ _ => Aggregation
  | LimitPlanNode _ _ _ => Limit
  | DistinctPlanNode _ _ => Distinct
  | NestedLoopJoinPlanNode _ _ _ _ => NestedLoopJoin
  | NestedIndexJoinPlanNode _ _ _ _ _ _ _ => NestedIndexJoin
  | HashJoinPlanNode _ _ _ _ _ => HashJoin
  end.

(** [OutputSchema]: the plans that change a table have none. *)
Definition OutputSchema (p : PlanNode) : option (Schema Expression) :=
  match p with
  | SeqScanPlanNode s _ _ | IndexScanPlanNode s _ _ | AggregationPlanNode s _ _ _ _ _ | LimitPlanNode s _ _
  | DistinctPlanNode s _ | NestedLoopJoinPlanNode s _ _ _ | NestedIndexJoinPlanNode s _ _ _ _ _ _ | HashJoinPlanNode s _ _ _ _ => Some s
  | RawInsertPlanNode _ _ | InsertPlanNode _ _ | UpdatePlanNode _ _ _ | DeletePlanNode _ _ => None
  end.

(** The schema behind the pointer. *)
Definition output_schema (p : PlanNode) : res (Schema Expression) := of_option NullDereference (OutputSchema p).
