(* ===== verification/Catalog.v ===== *)
(** The catalog ([src/include/catalog/catalog.h]), the index objects it owns
    ([src/include/storage/index/index.h]) and the objects an executor context
    points to ([src/include/execution/executor_context.h]).

    [TableInfo] and [IndexInfo] do not change once they are built, so that a
    pointer to one is the record.  Index objects are an interface, as in the
    code: the class [Index].  Oids are 32-bit unsigned counters. *)

From S2P Require Import Prelude Bytes Rid BufferPoolManager Value Schema Expression TablePage TupleValues Transaction TableHeap HashUtil.

(** ** Definitions *)

(** *** Indexes *)

Record IndexMetadata : Type := MkIndexMetadata {
  index_md_name_ : bytes;
  index_md_table_name_ : bytes;
  key_attrs_ : list Z;
  index_md_key_schema_ : Schema Expression
}.

Definition IndexMetadata_new (index_name table_name : bytes) (tuple_schema : Schema Expression) (key_attrs : list Z) :
    res IndexMetadata :=
  let! key_schema := CopySchema tuple_schema key_attrs in
  Ok (MkIndexMetadata index_name table_name key_attrs key_schema).

Definition GetIndexColumnCount (m : IndexMetadata) : Z := unsigned 32 (Z.of_nat (length (key_attrs_ m))).

(** The virtual methods of [Index], with the constructor that the catalog
    calls; [S] is the state of the buffer pool. *)
Class Index (S I : Type) : Type := {
  NewIndex : IndexMetadata -> M S I;
  GetMetadata : I -> IndexMetadata;
  InsertEntry : I -> Tuple -> RID -> M S unit;
  DeleteEntry : I -> Tuple -> RID -> M S unit;
  ScanKey : I -> Tuple -> M S (list RID)
}.
Definition GetKeyAttrs {S I} `{!Index S I} (index : I) : list Z := key_attrs_ (GetMetadata index).
Definition GetKeySchema {S I} `{!Index S I} (index : I) : Schema Expression := index_md_key_schema_ (GetMetadata index).

(** *** Metadata *)

Record TableInfo : Type := MkTableInfo {
  schema_ : Schema Expression;
  name_ : bytes;
  table_ : TableHeap;
  oid_ : Z
}.

Record IndexInfo (I : Type) : Type := MkIndexInfo {
  key_schema_ : Schema Expression;
  index_name_ : bytes;
  index_ : I;
  index_oid_ : Z;
  table_name_ : bytes;
  key_size_ : Z
}.
Arguments MkIndexInfo {I}. Arguments key_schema_ {I}. Arguments index_name_ {I}. Arguments index_ {I}.
Arguments index_oid_ {I}. Arguments table_name_ {I}. Arguments key_size_ {I}.

Record Catalog (I : Type) : Type := MkCatalog {
  tables_ : gmap Z TableInfo;
  table_names_ : gmap bytes Z;
  next_table_oid_ : Z;
  indexes_ : gmap Z (IndexInfo I);
  index_names_ : gmap bytes (gmap bytes Z);
  next_index_oid_ : Z
}.
Arguments MkCatalog {I}. Arguments tables_ {I}. Arguments table_names_ {I}. Arguments next_table_oid_ {I}.
Arguments indexes_ {I}. Arguments index_names_ {I}. Arguments next_index_oid_ {I}.

Definition Catalog_new {I} : Catalog I := MkCatalog ∅ ∅ 0 ∅ ∅ 0.

(** What an [ExecutorContext] points to: the pool, the transaction and the
    catalog (the managers of locks and transactions are not used). *)
Record ExecutorContext (S I : Type) : Type := MkContext {
  bpm_ : S;
  transaction_ : Transaction;
  catalog_ : Catalog I
}.
Arguments MkContext {S I}. Arguments bpm_ {S I}. Arguments transaction_ {S I}. Arguments catalog_ {S I}.

(** [emplace]: an element that is there stays. *)
Definition emplace {K V} `{Countable K} (k : K) (v : V) (m : gmap K V) : gmap K V :=
  match m !! k with Some _ => m | None => <[k := v]> m end.

Section Catalog.
Context `{Config} `{!HashOrder} {S P I : Type} `{!BufferPoolManager S P bytes} `{!Index S I}.
Notation X := (M (ExecutorContext S I)).
Implicit Types (c : Catalog I).

(** Code on the pool, code that is also given the transaction, the members. *)
Definition on_bpm {A} (m : M S A) : X A := fun w =>
  let! '(a, s) := m (bpm_ w) in Ok (a, MkContext s (transaction_ w) (catalog_ w)).
Definition on_table {A} (m : Transaction -> M S (A * Transaction)) : X A := fun w =>
  let! '((a, txn), s) := m (transaction_ w) (bpm_ w) in Ok (a, MkContext s txn (catalog_ w)).
Definition get_catalog : X (Catalog I) := fun w => Ok (catalog_ w, w).
Definition put_catalog c : X unit := fun w => Ok (tt, MkContext (bpm_ w) (transaction_ w) c).

(** [nullptr] is [None]. *)
Definition CreateTable (table_name : bytes) (schema : Schema Expression) : X (option TableInfo) :=
  do! c := get_catalog in
  match table_names_ c !! table_name with
  | Some _ => sret None
  | None =>
      do! table := on_bpm TableHeap_create in
      let table_oid := next_table_oid_ c in
      let meta := MkTableInfo schema table_name table table_oid in
      do! _ := put_catalog (MkCatalog (emplace table_oid meta (tables_ c)) (emplace table_name table_oid (table_names_ c))
                              (unsigned 32 (table_oid + 1)) (indexes_ c) (emplace table_name ∅ (index_names_ c)) (next_index_oid_ c)) in
      sret (Some meta)
  end.

(** The two overloads of [GetTable]. *)
Definition GetTable_name (table_name : bytes) c : res (option TableInfo) :=
  match table_names_ c !! table_name with
  | None => Ok None
  | Some table_oid =>
      match tables_ c !! table_oid with Some meta => Ok (Some meta) | None => Err AssertionFailure end
  end.
Definition GetTable (table_oid : Z) c : option TableInfo := tables_ c !! table_oid.

(** The loop of [CreateIndex] over the tuples of the table. *)
Fixpoint Populate_loop (fuel scan_fuel : nat) (tuple : TableIterator) (index : I) (schema key_schema : Schema Expression)
    (key_attrs : list Z) : X unit :=
  match fuel with
  | O => fail OutOfFuel
  | Datatypes.S fuel =>
      if negb (TableIterator_eqb tuple TableHeap_End) then
        do! t := lift (TableIterator_deref tuple) in
        do! key := lift (Tuple_KeyFromTuple t schema key_schema key_attrs) in
        do! _ := on_bpm (InsertEntry index key (tuple_rid_ t)) in
        do! tuple := on_table (TableIterator_next scan_fuel tuple) in
        Populate_loop fuel scan_fuel tuple index schema key_schema key_attrs
      else sret tt
  end.

Definition CreateIndex (fuel : nat) (index_name table_name : bytes) (schema key_schema : Schema Expression) (key_attrs : list Z)
    (keysize : Z) : X (option (IndexInfo I)) :=
  do! c := get_catalog in
  match table_names_ c !! table_name with
  | None => sret None
  | Some _ =>
      match index_names_ c !! table_name with
      | None => fail AssertionFailure
      | Some table_indexes =>
          match table_indexes !! index_name with
          | Some _ => sret None
          | None =>
              do! meta := lift (IndexMetadata_new index_name table_name schema key_attrs) in
              do! index := on_bpm (NewIndex meta) in
              do! table_meta := lift (GetTable_name table_name c) in
              do! table_meta := deref table_meta in
              do! tuple := on_table (TableHeap_Begin fuel (table_ table_meta)) in
              do! _ := Populate_loop fuel fuel tuple index schema key_schema key_attrs in
              let index_oid := next_index_oid_ c in
              let index_info := MkIndexInfo key_schema index_name index index_oid table_name keysize in
              do! _ := put_catalog (MkCatalog (tables_ c) (table_names_ c) (next_table_oid_ c)
                                      (emplace index_oid index_info (indexes_ c))
                                      (<[table_name := emplace index_name index_oid table_indexes]> (index_names_ c))
                                      (unsigned 32 (index_oid + 1))) in
              sret (Some index_info)
          end
      end
  end.

(** The overloads of [GetIndex]: by names, by the table's oid, by oid. *)
Definition GetIndex_name (index_name table_name : bytes) c : res (option (IndexInfo I)) :=
  match index_names_ c !! table_name with
  | None => let! _ := assert (bool_decide (table_names_ c !! table_name = None)) in Ok None
  | Some table_indexes =>
      match table_indexes !! index_name with
      | None => Ok None
      | Some index_oid =>
          match indexes_ c !! index_oid with Some info => Ok (Some info) | None => Err AssertionFailure end
      end
  end.
Definition GetIndex_table (index_name : bytes) (table_oid : Z) c : res (option (IndexInfo I)) :=
  match tables_ c !! table_oid with
  | None => Ok None
  | Some table_meta => GetIndex_name index_name (name_ table_meta) c
  end.
Definition GetIndex (index_oid : Z) c : option (IndexInfo I) := indexes_ c !! index_oid.

(** The loop of [GetTableIndexes]. *)
Fixpoint collect_indexes (oids : list Z) c : res (list (IndexInfo I)) :=
  match oids with
  | [] => Ok []
  | oid :: oids =>
      match indexes_ c !! oid with
      | None => Err AssertionFailure
      | Some info => let! infos := collect_indexes oids c in Ok (info :: infos)
      end
  end.

Definition GetTableIndexes (table_name : bytes) c : res (list (IndexInfo I)) :=
  match table_names_ c !! table_name with
  | None => Ok []
  | Some _ =>
      match index_names_ c !! table_name with
      | None => Err AssertionFailure
      | Some table_indexes => collect_indexes (hash_order (map_to_list table_indexes).*2) c
      end
  end.
End Catalog.
