(* ===== verification/CatalogCorrect.v ===== *)
(** The catalog's invariant, and what the lookups answer. *)

From S2P Require Import Prelude Bytes CString Rid BufferPoolManager Value Schema Expression TablePage TupleValues Transaction TableHeap HashUtil Catalog.
From S2P Require Import Replacer LRUReplacer DiskManager BufferPool TablePageCorrect TableHeapCorrect TableHeapProperties.
From S2P Require Import BufferPoolCorrect.

(** ** The invariant *)

(** Names and oids agree in both directions, every table has its map of indexes,
    and the counters are ahead of the oids. *)
Record catalog_ok {I} (c : Catalog I) : Prop := {
  co_table name oid : table_names_ c !! name = Some oid ->
    exists info, tables_ c !! oid = Some info /\ name_ info = name /\ oid_ info = oid;
  co_name oid info : tables_ c !! oid = Some info -> table_names_ c !! name_ info = Some oid /\ 0 <= oid < next_table_oid_ c;
  co_maps name : is_Some (index_names_ c !! name) <-> is_Some (table_names_ c !! name);
  co_index table m name oid : index_names_ c !! table = Some m -> m !! name = Some oid ->
    exists info, indexes_ c !! oid = Some info /\ index_name_ info = name /\ table_name_ info = table /\ index_oid_ info = oid;
  co_index_name oid info : indexes_ c !! oid = Some info ->
    (exists m, index_names_ c !! table_name_ info = Some m /\ m !! index_name_ info = Some oid) /\ 0 <= oid < next_index_oid_ c;
  co_counters : 0 <= next_table_oid_ c /\ 0 <= next_index_oid_ c
}.

Lemma catalog_new_ok {I} : catalog_ok (Catalog_new (I := I)).
Proof.
  split; simpl; try (intros *; rewrite lookup_empty; done); [|lia]. intros name. rewrite !lookup_empty.
  split; intros [? [=]].
Qed.

Lemma emplace_fresh {K V} `{Countable K} (k : K) (v : V) (m : gmap K V) : m !! k = None -> emplace k v m = <[k := v]> m.
Proof. unfold emplace. by intros ->. Qed.

Section Invariant.
Context {I : Type}.
Implicit Types (c : Catalog I).

Lemma fresh_table_oid c : catalog_ok c -> tables_ c !! next_table_oid_ c = None.
Proof.
  intros Hc. destruct (tables_ c !! next_table_oid_ c) as [info|] eqn:E; [|done]. apply (co_name _ Hc) in E. lia.
Qed.

Lemma fresh_index_oid c : catalog_ok c -> indexes_ c !! next_index_oid_ c = None.
Proof.
  intros Hc. destruct (indexes_ c !! next_index_oid_ c) as [info|] eqn:E; [|done]. apply (co_index_name _ Hc) in E. lia.
Qed.

(** The catalog with one more table. *)
Definition add_table (meta : TableInfo) c : Catalog I :=
  MkCatalog (<[oid_ meta := meta]> (tables_ c)) (<[name_ meta := oid_ meta]> (table_names_ c)) (oid_ meta + 1)
    (indexes_ c) (<[name_ meta := ∅]> (index_names_ c)) (next_index_oid_ c).

Lemma add_table_ok meta c :
  catalog_ok c -> oid_ meta = next_table_oid_ c -> table_names_ c !! name_ meta = None -> catalog_ok (add_table meta c).
Proof.
  intros Hc Ho Hn. pose proof (co_counters _ Hc) as [Hz Hz'].
  assert (Hni : index_names_ c !! name_ meta = None).
  { apply eq_None_not_Some. rewrite (co_maps _ Hc), Hn. by intros [? [=]]. }
  split; simpl.
  - intros name oid [[<- <-]|[Hne Hl]]%lookup_insert_Some.
    + exists meta. by rewrite lookup_insert_eq.
    + destruct (co_table _ Hc _ _ Hl) as (info & Hi & Hnm & Hoid). exists info. split; [|done].
      rewrite lookup_insert_ne; [done|]. apply (co_name _ Hc) in Hi. lia.
  - intros oid info [[<- <-]|[Hne Hl]]%lookup_insert_Some; [rewrite lookup_insert_eq; split; [done|lia]|].
    destruct (co_name _ Hc _ _ Hl) as [Hl' Hr]. split; [|lia]. rewrite lookup_insert_ne; [done|]. intros E. congruence.
  - intros name. rewrite !lookup_insert_is_Some. pose proof (co_maps _ Hc name). tauto.
  - intros table m name oid [[<- <-]|[Hne Hl]]%lookup_insert_Some; [by rewrite lookup_empty|]. by apply (co_index _ Hc).
  - intros oid info Hl. destruct (co_index_name _ Hc _ _ Hl) as [(m & Hm & Hi) Hr]. split; [|done]. exists m.
    rewrite lookup_insert_ne; [done|]. intros E. congruence.
  - lia.
Qed.

(** The catalog with one more index. *)
Definition add_index (info : IndexInfo I) (m : gmap bytes Z) c : Catalog I :=
  MkCatalog (tables_ c) (table_names_ c) (next_table_oid_ c) (<[index_oid_ info := info]> (indexes_ c))
    (<[table_name_ info := <[index_name_ info := index_oid_ info]> m]> (index_names_ c)) (index_oid_ info + 1).

Lemma add_index_ok info m c :
  catalog_ok c -> index_oid_ info = next_index_oid_ c -> index_names_ c !! table_name_ info = Some m ->
  m !! index_name_ info = None -> catalog_ok (add_index info m c).
Proof.
  intros Hc Ho Hm Hn. pose proof (co_counters _ Hc) as [Hz Hz']. split; simpl; try apply Hc.
  - intros name. rewrite lookup_insert_is_Some. pose proof (co_maps _ Hc name) as Hmap.
    split; [|intros ?%Hmap; destruct (decide (table_name_ info = name)); tauto].
    intros [<-|[_ Hs]]; [|by apply Hmap]. apply (co_maps _ Hc). by exists m.
  - assert (Hold : forall table m' name oid, index_names_ c !! table = Some m' -> m' !! name = Some oid ->
      exists info0, <[index_oid_ info := info]> (indexes_ c) !! oid = Some info0 /\ index_name_ info0 = name
        /\ table_name_ info0 = table /\ index_oid_ info0 = oid).
    { intros table m' name oid H1 H2. destruct (co_index _ Hc _ _ _ _ H1 H2) as (i0 & Hi & H3). exists i0. split; [|done].
      rewrite lookup_insert_ne; [done|]. apply (co_index_name _ Hc) in Hi. lia. }
    intros table m' name oid [[<- <-]|[Hne Hl]]%lookup_insert_Some; [|by apply Hold].
    intros [[<- <-]|[Hne Hl]]%lookup_insert_Some; [exists info; by rewrite lookup_insert_eq|]. by apply (Hold _ m).
  - intros oid i0 [[<- <-]|[Hne Hl]]%lookup_insert_Some.
    + split; [|lia]. eexists. rewrite lookup_insert_eq. split; [done|]. by rewrite lookup_insert_eq.
    + destruct (co_index_name _ Hc _ _ Hl) as [(m' & Hm' & Hi) Hr]. split; [|lia].
      destruct (decide (table_name_ info = table_name_ i0)) as [E|E].
      * eexists. rewrite E, lookup_insert_eq. split; [done|]. rewrite lookup_insert_ne; [congruence|]. congruence.
      * exists m'. by rewrite lookup_insert_ne.
  - lia.
Qed.

(** *** Lookups *)

Lemma collect_indexes_ok c oids :
  (forall oid, oid ∈ oids -> is_Some (indexes_ c !! oid)) ->
  exists infos, collect_indexes oids c = Ok infos /\ Forall2 (fun oid info => indexes_ c !! oid = Some info) oids infos.
Proof.
  induction oids as [|oid oids IH]; intros Hin; [by exists []|]. cbn [collect_indexes].
  destruct (Hin oid) as [info Hi]; [by left|]. rewrite Hi. destruct IH as (infos & -> & Hf); [intros o Ho; apply Hin; by right|].
  cbn [rbind]. exists (info :: infos). split; [done|]. by constructor.
Qed.
End Invariant.

(** ** Properties *)

Section Properties.
Context `{Config} `{!HashOrder} {S P I : Type} `{!BufferPoolManager S P bytes} `{!Index S I}.
Notation context := (ExecutorContext S I).
Implicit Types (c : Catalog I) (w : context).

(** Calls that create a table or an index, as long as the counters do not wrap. *)
Inductive catalog_step : context -> context -> Prop :=
| step_table table_name schema r w w' :
    CreateTable table_name schema w = Ok (r, w') -> next_table_oid_ (catalog_ w) + 1 < 2 ^ 32 -> catalog_step w w'
| step_index fuel index_name table_name schema key_schema key_attrs keysize r w w' :
    CreateIndex fuel index_name table_name schema key_schema key_attrs keysize w = Ok (r, w') ->
    next_index_oid_ (catalog_ w) + 1 < 2 ^ 32 -> catalog_step w w'.

Lemma populate_catalog fuel scan_fuel index schema key_schema key_attrs : forall it w w',
  Populate_loop fuel scan_fuel it index schema key_schema key_attrs w = Ok (tt, w') -> catalog_ w' = catalog_ w.
Proof.
  induction fuel as [|fuel IH]; intros it w w' Hrun; [done|]. cbn [Populate_loop] in Hrun.
  destruct (negb _); [|by injection Hrun as <-]. unfold sbind, lift, on_bpm, on_table in Hrun.
  destruct (TableIterator_deref it) as [t|]; [|done]. cbn [rbind] in Hrun.
  destruct (Tuple_KeyFromTuple t schema key_schema key_attrs) as [k|]; [|done]. cbn [rbind] in Hrun.
  destruct (InsertEntry index k (tuple_rid_ t) (bpm_ w)) as [[[] s]|]; [|done]. cbn [rbind bpm_ transaction_] in Hrun.
  destruct (TableIterator_next scan_fuel it (transaction_ w) s) as [[[it' txn] s']|]; [|done]. cbn [rbind] in Hrun.
  by rewrite (IH _ _ _ Hrun).
Qed.

Lemma create_table_ok table_name schema r w w' :
  CreateTable table_name schema w = Ok (r, w') -> catalog_ok (catalog_ w) -> next_table_oid_ (catalog_ w) + 1 < 2 ^ 32 ->
  match table_names_ (catalog_ w) !! table_name with
  | Some _ => r = None /\ w' = w
  | None => exists meta, r = Some meta /\ schema_ meta = schema /\ name_ meta = table_name
      /\ oid_ meta = next_table_oid_ (catalog_ w) /\ catalog_ w' = add_table meta (catalog_ w)
  end.
Proof.
  intros Hrun Hc Hw. unfold CreateTable in Hrun. unfold sbind at 1, get_catalog in Hrun. cbn [rbind] in Hrun.
  destruct (table_names_ (catalog_ w) !! table_name) as [oid|] eqn:En; [by injection Hrun as <- <-|].
  unfold sbind, on_bpm in Hrun. destruct (TableHeap_create (bpm_ w)) as [[t s]|]; [|done]. cbn [rbind] in Hrun.
  injection Hrun as <- <-. eexists. split; [done|]. split_and!; try done. simpl. unfold add_table. simpl.
  pose proof (co_counters _ Hc). rewrite unsigned_id by (unfold is_unsigned; lia).
  rewrite !emplace_fresh; [done| |done|by apply fresh_table_oid].
  apply eq_None_not_Some. rewrite (co_maps _ Hc), En. by intros [? [=]].
Qed.

Lemma create_index_ok fuel index_name table_name schema key_schema key_attrs keysize r w w' :
  CreateIndex fuel index_name table_name schema key_schema key_attrs keysize w = Ok (r, w') ->
  catalog_ok (catalog_ w) -> next_index_oid_ (catalog_ w) + 1 < 2 ^ 32 ->
  (r = None /\ w' = w) \/
  exists m info, index_names_ (catalog_ w) !! table_name = Some m /\ m !! index_name = None /\ r = Some info
    /\ index_name_ info = index_name /\ table_name_ info = table_name /\ key_schema_ info = key_schema
    /\ index_oid_ info = next_index_oid_ (catalog_ w) /\ catalog_ w' = add_index info m (catalog_ w).
Proof.
  intros Hrun Hc Hw. unfold CreateIndex in Hrun. unfold sbind at 1, get_catalog in Hrun. cbn [rbind] in Hrun.
  destruct (table_names_ (catalog_ w) !! table_name) as [oid|] eqn:En; [|left; by injection Hrun as <- <-].
  destruct (index_names_ (catalog_ w) !! table_name) as [m|] eqn:Em; [|done].
  destruct (m !! index_name) as [ioid|] eqn:Ei; [left; by injection Hrun as <- <-|]. right. exists m.
  unfold sbind, lift, on_bpm, on_table, deref in Hrun.
  destruct (IndexMetadata_new index_name table_name schema key_attrs) as [meta|]; [|done]. cbn [rbind] in Hrun.
  destruct (NewIndex meta (bpm_ w)) as [[index s]|]; [|done]. cbn [rbind] in Hrun.
  destruct (GetTable_name table_name (catalog_ w)) as [[info|]|]; try done. cbn [rbind of_option] in Hrun.
  unfold sret, put_catalog in Hrun. cbn [rbind bpm_ transaction_ catalog_] in Hrun.
  destruct (TableHeap_Begin fuel (table_ info) (transaction_ w) s) as [[[it txn] s']|]; [|done]. cbn [rbind] in Hrun.
  destruct (Populate_loop fuel fuel it index schema key_schema key_attrs _) as [[[] w1]|] eqn:Ep; [|done]. cbn [rbind] in Hrun.
  apply populate_catalog in Ep. cbn [catalog_] in Ep. injection Hrun as <- <-. eexists.
  split; [done|]. split; [done|]. split; [done|]. split_and!; try done. simpl. unfold add_index. simpl.
  pose proof (co_counters _ Hc). rewrite unsigned_id by (unfold is_unsigned; lia).
  by rewrite !emplace_fresh by (try apply fresh_index_oid; done).
Qed.

Lemma catalog_step_ok w w' : catalog_step w w' -> catalog_ok (catalog_ w) -> catalog_ok (catalog_ w').
Proof.
  intros Hs Hc. destruct Hs as [table_name schema r w w' Hrun Hb|fuel iname tname schema ks ka kz r w w' Hrun Hb].
  - pose proof (create_table_ok _ _ _ _ _ Hrun Hc Hb) as Hr. destruct (table_names_ (catalog_ w) !! table_name) eqn:En.
    + by destruct Hr as [_ ->].
    + destruct Hr as (meta & _ & _ & Hn & Ho & ->). apply add_table_ok; [done|done|by rewrite Hn].
  - destruct (create_index_ok _ _ _ _ _ _ _ _ _ _ Hrun Hc Hb) as [[_ ->]|(m & info & Hm & Hi & _ & Hn & Ht & _ & Ho & ->)]; [done|].
    apply add_index_ok; [done|done|by rewrite Ht|by rewrite Hn].
Qed.

Lemma GetTable_name_ok c name : catalog_ok c ->
  exists r, GetTable_name name c = Ok r /\ forall info, r = Some info <-> name_ info = name /\ GetTable (oid_ info) c = Some info.
Proof.
  intros Hc. unfold GetTable_name, GetTable. destruct (table_names_ c !! name) as [oid|] eqn:En.
  - destruct (co_table _ Hc _ _ En) as (info & Hi & Hn & Ho). rewrite Hi. exists (Some info). split; [done|]. intros info'. split.
    + intros [= <-]. by rewrite Ho.
    + intros [Hn' Hi']. destruct (co_name _ Hc _ _ Hi') as [Hl _]. congruence.
  - exists None. split; [done|]. intros info. split; [done|]. intros [Hn Hi]. destruct (co_name _ Hc _ _ Hi). congruence.
Qed.

Lemma GetIndex_name_ok c iname tname : catalog_ok c ->
  exists r, GetIndex_name iname tname c = Ok r /\
    forall info, r = Some info <-> index_name_ info = iname /\ table_name_ info = tname /\ GetIndex (index_oid_ info) c = Some info.
Proof.
  intros Hc. unfold GetIndex_name, GetIndex.
  assert (Hno : (forall m oid, index_names_ c !! tname = Some m -> m !! iname = Some oid -> False) ->
    forall info, None = Some info <-> index_name_ info = iname /\ table_name_ info = tname /\ indexes_ c !! index_oid_ info = Some info).
  { intros Hn info. split; [done|]. intros (<- & <- & Hi). destruct (co_index_name _ Hc _ _ Hi) as [(m & Hm & Hi') _]. by destruct (Hn m (index_oid_ info)). }
  destruct (index_names_ c !! tname) as [m|] eqn:Em.
  - destruct (m !! iname) as [oid|] eqn:Ei.
    + destruct (co_index _ Hc _ _ _ _ Em Ei) as (info & Hi & Hn & Ht & Ho). rewrite Hi. exists (Some info). split; [done|].
      intros info'. split; [intros [= <-]; by rewrite Ho|]. intros (Hn' & Ht' & Hi').
      destruct (co_index_name _ Hc _ _ Hi') as [(m' & Hm' & Hx) _]. congruence.
    + exists None. split; [done|]. apply Hno. intros m' oid. congruence.
  - assert (table_names_ c !! tname = None) as Ht.
    { apply eq_None_not_Some. rewrite <- (co_maps _ Hc), Em. by intros [? [=]]. }
    rewrite bool_decide_true by done. exists None. split; [done|]. apply Hno. intros m' oid. congruence.
Qed.

Lemma GetIndex_table_ok c iname oid : catalog_ok c ->
  exists r, GetIndex_table iname oid c = Ok r /\
    forall info, r = Some info <-> index_name_ info = iname /\ GetIndex (index_oid_ info) c = Some info
      /\ exists table, GetTable oid c = Some table /\ name_ table = table_name_ info.
Proof.
  intros Hc. unfold GetIndex_table, GetTable. destruct (tables_ c !! oid) as [table|].
  - destruct (GetIndex_name_ok c iname (name_ table) Hc) as (r & -> & Hr). exists r. split; [done|]. intros info. rewrite Hr. split.
    + intros (Hn & Ht & Hi). split_and!; [done|done|]. by exists table.
    + by intros (Hn & Hi & table' & [= <-] & Ht).
  - exists None. split; [done|]. intros info. split; [done|]. by intros (_ & _ & table & [=] & _).
Qed.

Lemma indexes_oids c oids infos :
  catalog_ok c -> Forall2 (fun oid info => indexes_ c !! oid = Some info) oids infos -> index_oid_ <$> infos = oids.
Proof.
  intros Hc. induction 1 as [|oid info oids infos Hi _ IH]; [done|]. rewrite fmap_cons, IH. f_equal.
  destruct (co_index_name _ Hc _ _ Hi) as [(m & Hm & Hx) _]. destruct (co_index _ Hc _ _ _ _ Hm Hx) as (info' & Hi' & _ & _ & Ho). congruence.
Qed.

Lemma GetTableIndexes_ok c name : catalog_ok c ->
  exists infos, GetTableIndexes name c = Ok infos /\ NoDup (index_oid_ <$> infos) /\
    forall info, info ∈ infos <-> table_name_ info = name /\ GetIndex (index_oid_ info) c = Some info.
Proof.
  intros Hc. unfold GetTableIndexes, GetIndex.
  destruct (table_names_ c !! name) as [oid|] eqn:En.
  - destruct (proj2 (co_maps _ Hc name)) as [m Hm]; [by exists oid|]. rewrite Hm. set (oids := hash_order (map_to_list m).*2).
    assert (Hin : forall oid, oid ∈ oids <-> exists iname, m !! iname = Some oid).
    { intros o. unfold oids. rewrite hash_order_perm, list_elem_of_fmap. split.
      - intros ([iname o'] & -> & Hx%elem_of_map_to_list). by exists iname.
      - intros [iname Hx]. exists (iname, o). split; [done|by apply elem_of_map_to_list]. }
    destruct (collect_indexes_ok c oids) as (infos & -> & Hf).
    { intros o [iname Hx]%Hin. destruct (co_index _ Hc _ _ _ _ Hm Hx) as (info & Hi & _). by exists info. }
    exists infos. split; [done|]. rewrite (indexes_oids c oids infos Hc Hf). split.
    + unfold oids. rewrite hash_order_perm. apply NoDup_fmap_2_strong; [|apply NoDup_map_to_list].
      intros [n1 o1] [n2 o2] H1%elem_of_map_to_list H2%elem_of_map_to_list Ho. simpl in Ho. subst o2.
      destruct (co_index _ Hc _ _ _ _ Hm H1) as (i1 & E1 & <- & _), (co_index _ Hc _ _ _ _ Hm H2) as (i2 & E2 & <- & _). congruence.
    + intros info. rewrite list_elem_of_lookup. split.
      * intros [k Hk]. destruct (Forall2_lookup_r _ _ _ _ _ Hf Hk) as (o & Ho & Hi).
        apply list_elem_of_lookup_2, Hin in Ho as [iname Hx]. destruct (co_index _ Hc _ _ _ _ Hm Hx) as (info' & Hi' & _ & Ht & Hoid).
        by simplify_eq.
      * intros [Ht Hi]. destruct (co_index_name _ Hc _ _ Hi) as [(m' & Hm' & Hx) _]. assert (m' = m) as -> by congruence.
        assert (Ho : index_oid_ info ∈ oids) by (apply Hin; by eexists).
        apply list_elem_of_lookup in Ho as [k Hk]. destruct (Forall2_lookup_l _ _ _ _ _ Hf Hk) as (info' & Hk' & Hi').
        exists k. congruence.
  - exists []. split; [done|]. split; [apply NoDup_nil_2|]. intros info. split; [by intros ?%elem_of_nil|].
    intros [Ht Hi]. destruct (co_index_name _ Hc _ _ Hi) as [(m & Hm & _) _].
    assert (Hs : is_Some (table_names_ c !! name)) by (apply (co_maps _ Hc); rewrite <- Ht; by exists m).
    rewrite En in Hs. by destruct Hs as [? [=]].
Qed.

(** C26: The catalog stays consistent: after any sequence of [CreateTable] and
    [CreateIndex] calls no lookup meets a broken invariant, a table is found by
    its name exactly when it is registered under its oid, an index by its name
    and its table's name or oid exactly when it is registered, and
    [GetTableIndexes] lists every index of the table once. *)
Theorem Catalog_lookups (s : S) (txn : Transaction) w :
  rtc catalog_step (MkContext s txn Catalog_new) w ->
  let c := catalog_ w in
  (forall name, exists r, GetTable_name name c = Ok r /\
     forall info, r = Some info <-> name_ info = name /\ GetTable (oid_ info) c = Some info) /\
  (forall iname tname, exists r, GetIndex_name iname tname c = Ok r /\
     forall info, r = Some info <-> index_name_ info = iname /\ table_name_ info = tname /\ GetIndex (index_oid_ info) c = Some info) /\
  (forall iname oid, exists r, GetIndex_table iname oid c = Ok r /\
     forall info, r = Some info <-> index_name_ info = iname /\ GetIndex (index_oid_ info) c = Some info
       /\ exists table, GetTable oid c = Some table /\ name_ table = table_name_ info) /\
  (forall name, exists infos, GetTableIndexes name c = Ok infos /\ NoDup (index_oid_ <$> infos) /\
     forall info, info ∈ infos <-> table_name_ info = name /\ GetIndex (index_oid_ info) c = Some info).
Proof.
  intros Hr c. assert (Hc : catalog_ok c).
  { unfold c. pose proof (catalog_new_ok (I := I)) as Hn. remember (MkContext s txn Catalog_new) as w0 eqn:E.
    assert (Hstart : catalog_ok (catalog_ w0)) by (by rewrite E). clear E. induction Hr as [|w0 w1 w Hs _ IH]; [done|].
    apply IH. by eapply catalog_step_ok. }
  split; [intros; by apply GetTable_name_ok|]. split; [intros; by apply GetIndex_name_ok|].
  split; [intros; by apply GetIndex_table_ok|intros; by apply GetTableIndexes_ok].
Qed.
End Properties.

(** ** A witness *)

Section Concrete.
#[local] Existing Instance course_config.
#[local] Existing Instance course_table_pages.
Notation pool := (BPI bytes LRUReplacer DiskManager).

#[local] Instance given_order : HashOrder := { hash_order _ l := l; hash_order_perm _ l := reflexivity l }.

(** Indexes without contents. *)
#[local] Instance empty_index : Index pool IndexMetadata := {
  NewIndex meta := sret meta;
  GetMetadata meta := meta;
  InsertEntry _ _ _ := sret tt;
  DeleteEntry _ _ _ := sret tt;
  ScanKey _ _ := sret []
}.

(** CREATE TABLE t (x INTEGER); CREATE INDEX ix ON t (x). *)
Definition x_column : Schema Expression := Schema_new [MkColumn (str "x") INTEGER 4 0 0 None].
Definition create_both : res (option TableInfo * option (IndexInfo IndexMetadata) * ExecutorContext pool IndexMetadata * ExecutorContext pool IndexMetadata) :=
  let! s := fresh_pool 3 in
  let! ' (table, w1) := CreateTable (str "t") x_column (MkContext s txn0 Catalog_new) in
  let! ' (index, w2) := CreateIndex 5 (str "ix") (str "t") x_column x_column [0] 4 w1 in
  Ok (table, index, w1, w2).
Definition created : bool :=
  match create_both with Ok (Some _, Some _, w1, _) => next_index_oid_ (catalog_ w1) =? 0 | _ => false end.

Lemma Catalog_lookups_witness :
  exists (w : ExecutorContext pool IndexMetadata) table index infos, GetTable_name (str "t") (catalog_ w) = Ok (Some table)
    /\ GetIndex_name (str "ix") (str "t") (catalog_ w) = Ok (Some index) /\ GetIndex_table (str "ix") 0 (catalog_ w) = Ok (Some index)
    /\ GetTableIndexes (str "t") (catalog_ w) = Ok infos /\ index ∈ infos.
Proof.
  assert (E : created = true) by by vm_compute. unfold created, create_both in E.
  destruct (fresh_pool 3) as [s|]; [|done]. cbn [rbind] in E.
  destruct (CreateTable _ _ _) as [[table w1]|] eqn:E1; [|done]. cbn [rbind] in E.
  destruct (CreateIndex _ _ _ _ _ _ _ w1) as [[index w2]|] eqn:E2; [|done]. cbn [rbind] in E.
  destruct table as [table|]; [|done]. destruct index as [index|]; [|done]. apply Z.eqb_eq in E.
  assert (H1 : next_table_oid_ (catalog_ (MkContext s txn0 (Catalog_new (I := IndexMetadata)))) + 1 < 2 ^ 32) by done.
  assert (H2 : next_index_oid_ (catalog_ w1) + 1 < 2 ^ 32) by (by rewrite E).
  pose proof (create_table_ok _ _ _ _ _ E1 catalog_new_ok H1) as (meta & [= <-] & _ & Hn & Ho & Hc1).
  assert (Hok1 : catalog_ok (catalog_ w1)) by (rewrite Hc1; by apply add_table_ok; [apply catalog_new_ok|done|rewrite Hn]).
  destruct (create_index_ok _ _ _ _ _ _ _ _ _ _ E2 Hok1 H2) as [[[=] _]|(m & info & _ & _ & [= <-] & Hin & Hit & _ & _ & Hc2)].
  assert (Hst : rtc catalog_step (MkContext s txn0 Catalog_new) w2).
  { eapply rtc_l; [eapply step_table; [exact E1|exact H1]|]. apply rtc_once. eapply step_index; [exact E2|exact H2]. }
  assert (Ht : GetTable (oid_ table) (catalog_ w2) = Some table) by (unfold GetTable; rewrite Hc2, Hc1; apply lookup_insert_eq).
  assert (Hi : GetIndex (index_oid_ index) (catalog_ w2) = Some index) by (unfold GetIndex; rewrite Hc2; apply lookup_insert_eq).
  change (oid_ table = 0) in Ho. rewrite Ho in Ht.
  destruct (Catalog_lookups s txn0 w2 Hst) as (L1 & L2 & L3 & L4).
  destruct (L1 (str "t")) as (r1 & R1 & I1), (L2 (str "ix") (str "t")) as (r2 & R2 & I2), (L3 (str "ix") 0) as (r3 & R3 & I3),
    (L4 (str "t")) as (infos & R4 & _ & I4).
  exists w2, table, index, infos. split_and!.
  - rewrite R1. f_equal. apply I1. split; [done|]. by rewrite Ho.
  - rewrite R2. f_equal. by apply I2.
  - rewrite R3. f_equal. apply I3. split_and!; [done|done|]. exists table. split; [done|]. by rewrite Hn, Hit.
  - done.
  - by apply I4.
Defined.
End Concrete.
