(* ===== verification/IndexContract.v ===== *)
(** What the statements rely on when they keep the indexes of a table: an index
    is a set of entries, a key and the id of a record, on pages of its own; and the
    runs of calls of an index. *)

From S2P Require Import Prelude Bytes Rid BufferPoolManager Value Types Schema Expression TablePage TupleValues Transaction TableHeap Catalog.

(** ** The contract *)

Section Contract.
Context `{Config} {S P I : Type} `{!BufferPoolManager S P bytes} `{!BufferPoolSpec S P bytes} `{!Index S I}.
Implicit Types (x : I) (s : S) (X Y : gset Z) (es : gset (bytes * RID)) (t : Tuple) (rid : RID).

(** A call that changes pages of [X] only and gives back its pins. *)
Record within X s s' : Prop := {
  wi_ok : pool_ok s';
  wi_evolves : evolves_in X (view s) (view s');
  wi_pins : pins (view s') = pins (view s);
  wi_budget n : budget (view s) n -> budget (view s') n
}.

(** [index_at x s X es]: the index is at rest, holds the entries [es] and uses
    no pages but those of [X].  The bytes a key tuple is stored as are
    [index_key]; [index_accepts] says that they fit the index.  The contract
    covers indexes of less than [index_capacity] entries. *)
Class IndexSpec : Type := {
  index_at : I -> S -> gset Z -> gset (bytes * RID) -> Prop;
  index_key : I -> Tuple -> bytes;
  index_accepts : I -> Tuple -> Prop;
  index_capacity : I -> nat;
  index_kept x s s' X Y es : index_at x s X es -> pool_ok s' -> evolves_in Y (view s) (view s') ->
    pins (view s') = pins (view s) -> X ## Y -> index_at x s' X es;
  index_live x s X es p : index_at x s X es -> p ∈ X -> live (view s) p;
  InsertEntry_spec x s X es t rid :
    index_at x s X es -> room 2 s -> index_accepts x t -> RID_wf rid -> (size es < index_capacity x)%nat ->
    wp (InsertEntry x t rid) (fun _ s' => index_at x s' X ({[(index_key x t, rid)]} ∪ es) /\ within X s s') s;
  DeleteEntry_spec x s X es t rid :
    index_at x s X es -> room 2 s -> index_accepts x t ->
    wp (DeleteEntry x t rid) (fun _ s' => index_at x s' X (es ∖ {[(index_key x t, rid)]}) /\ within X s s') s;
  ScanKey_spec x s X es t :
    index_at x s X es -> room 2 s -> index_accepts x t ->
    wp (ScanKey x t) (fun rids s' => NoDup rids /\ (forall rid, rid ∈ rids <-> (index_key x t, rid) ∈ es)
      /\ index_at x s' X es /\ within ∅ s s') s
}.

(** ** Lemmas *)

Lemma within_refl X s : pool_ok s -> within X s s.
Proof. intros Hs. split; [done|apply evolves_in_refl|done|done]. Qed.

Lemma within_trans X s1 s2 s3 : within X s1 s2 -> within X s2 s3 -> within X s1 s3.
Proof.
  intros [A1 A2 A3 A4] [B1 B2 B3 B4]. split; [done|by eapply evolves_in_trans|congruence|]. intros n Hn. by apply B4, A4.
Qed.

Lemma evolves_in_mono X Y (v v' : PoolView P bytes) : X ⊆ Y -> evolves_in X v v' -> evolves_in Y v v'.
Proof. intros HXY [A1 A2 A3 A4]. split; [|done|done|]; intros; [apply A1|apply A4]; set_solver. Qed.

Lemma within_mono X Y s s' : X ⊆ Y -> within X s s' -> within Y s s'.
Proof. intros HXY [A1 A2 A3 A4]. split; [done|by eapply evolves_in_mono|done|done]. Qed.

Lemma within_room X n s s' : within X s s' -> room n s -> room n s'.
Proof. intros [_ A2 A3 _] Hr. unfold room in *. rewrite A3. by rewrite (ei_frames _ _ _ A2). Qed.
End Contract.
Arguments IndexSpec S P I {_ _ _}.

(** ** Runs of calls on an index *)

Inductive IndexCall : Type :=
| CallInsert (key : Tuple) (rid : RID)
| CallDelete (key : Tuple) (rid : RID)
| CallScan (key : Tuple).

Section Calls.
Context `{Config} {S P I : Type} `{!BufferPoolManager S P bytes} `{!BufferPoolSpec S P bytes} `{!Index S I} `{!IndexSpec S P I}.
Implicit Types (x : I) (s : S) (X : gset Z) (es : gset (bytes * RID)) (c : IndexCall).

Definition index_call x c : M S (list RID) :=
  match c with
  | CallInsert key rid => do! _ := InsertEntry x key rid in sret []
  | CallDelete key rid => do! _ := DeleteEntry x key rid in sret []
  | CallScan key => ScanKey x key
  end.
Fixpoint index_calls x (cs : list IndexCall) : M S (list (list RID)) :=
  match cs with
  | [] => sret []
  | c :: cs => do! r := index_call x c in do! rs := index_calls x cs in sret (r :: rs)
  end.

(** The same calls on a set of entries: the entries after a call, and the
    answers it may give. *)
Definition entries_after x es c : gset (bytes * RID) :=
  match c with
  | CallInsert key rid => {[(index_key x key, rid)]} ∪ es
  | CallDelete key rid => es ∖ {[(index_key x key, rid)]}
  | CallScan _ => es
  end.
Definition entries_answer x es c (r : list RID) : Prop :=
  match c with
  | CallScan key => NoDup r /\ forall rid, rid ∈ r <-> (index_key x key, rid) ∈ es
  | _ => r = []
  end.
Fixpoint entries_run x es (cs : list IndexCall) (rs : list (list RID)) : Prop :=
  match cs, rs with
  | [], [] => True
  | c :: cs, r :: rs => entries_answer x es c r /\ entries_run x (entries_after x es c) cs rs
  | _, _ => False
  end.
End Calls.
