(* ===== verification/HashIndex.v ===== *)
(** The keys of indexes and the index on the hash table
    ([src/include/storage/index/generic_key.h], [int_comparator.h],
    [src/storage/index/extendible_hash_table_index.cpp]).

    A [GenericKey<KeySize>] is its array of bytes.  The index calls a hash table
    whose key type is that array; the table's comparator is the class
    [MappingType]. *)

From S2P Require Import Prelude Bytes CString Rid BufferPoolManager Value Types TypesCorrect ValueFactory Schema TablePage TupleValues TupleCorrect Expression.
From S2P Require Import HashBucketPage HashDirectoryPage ExtendibleHashTable Transaction TableHeap HashUtil Catalog.

(** ** Definitions *)

Definition GenericKey : Type := bytes.

Section GenericKey.
Context (KeySize : Z).

(** [memset], then [memcpy] of the whole tuple. *)
Definition SetFromKey (tuple : Tuple) : res GenericKey :=
  mem_write (replicate (Z.to_nat KeySize) 0) 0 (tuple_data_ tuple).
Definition SetFromInteger (key : Z) : res GenericKey :=
  mem_write (replicate (Z.to_nat KeySize) 0) 0 (le_split 8 key).
End GenericKey.

Definition GenericKey_ToValue (key : GenericKey) (schema : Schema Expression) (column_idx : Z) : res Value :=
  let! col := GetColumn schema column_idx in
  let! data_ptr := if Column_IsInlined col then Ok (column_offset_ col) else load_i32 key (column_offset_ col) in
  Value_DeserializeFrom key data_ptr (column_type_ col).

Definition GenericKey_ToString (key : GenericKey) : res Z := fetch_int 8 key 0.

(** [GenericComparator::operator()]: its loop over the columns [idxs]. *)
Fixpoint GenericComparator_loop (idxs : list Z) (key_schema : Schema Expression) (lhs rhs : GenericKey) : res Z :=
  match idxs with
  | [] => Ok 0
  | i :: idxs =>
      let! lhs_value := GenericKey_ToValue lhs key_schema i in
      let! rhs_value := GenericKey_ToValue rhs key_schema i in
      let! lt := Value_CompareLessThan lhs_value rhs_value in
      if bool_decide (lt = CmpTrue) then Ok (-1) else
      let! gt := Value_CompareGreaterThan lhs_value rhs_value in
      if bool_decide (gt = CmpTrue) then Ok 1 else
      GenericComparator_loop idxs key_schema lhs rhs
  end.
Definition GenericComparator (key_schema : Schema Expression) (lhs rhs : GenericKey) : res Z :=
  GenericComparator_loop (seqZ 0 (GetColumnCount key_schema)) key_schema lhs rhs.

(** *** The index *)

Record ExtendibleHashTableIndex : Type := MkHashIndex {
  hx_metadata_ : IndexMetadata;
  container_ : ExtendibleHashTable
}.

Section HashIndex.
Context `{Config} {S P D : Type} `{!BufferPoolManager S P D}
  `{!MappingType GenericKey RID} `{!HashFunction GenericKey} `{!HashPages D GenericKey RID} (KeySize : Z).

Definition HashIndex_new (metadata : IndexMetadata) : M S ExtendibleHashTableIndex :=
  do! container := HashTable_new in sret (MkHashIndex metadata container).

Definition HashIndex_InsertEntry (x : ExtendibleHashTableIndex) (key : Tuple) (rid : RID) : M S unit :=
  do! index_key := lift (SetFromKey KeySize key) in
  do! _ := HashTable_Insert (container_ x) index_key rid in sret tt.
Definition HashIndex_DeleteEntry (x : ExtendibleHashTableIndex) (key : Tuple) (rid : RID) : M S unit :=
  do! index_key := lift (SetFromKey KeySize key) in
  do! _ := HashTable_Remove (container_ x) index_key rid in sret tt.
Definition HashIndex_ScanKey (x : ExtendibleHashTableIndex) (key : Tuple) : M S (list RID) :=
  do! index_key := lift (SetFromKey KeySize key) in
  do! r := HashTable_GetValue (container_ x) index_key [] in sret r.2.

#[export] Instance HashIndex_index : Index S ExtendibleHashTableIndex := {
  NewIndex := HashIndex_new;
  GetMetadata := hx_metadata_;
  InsertEntry := HashIndex_InsertEntry;
  DeleteEntry := HashIndex_DeleteEntry;
  ScanKey := HashIndex_ScanKey
}.
End HashIndex.

(** ** Keys and rows *)

(** The order of two plain values of one type. *)
Definition datum_compare (v w : Value) : comparison :=
  match value_ v, value_ w with
  | VInt x, VInt y => x ?= y
  | VVarlen (Some s), VVarlen (Some s') => lex_compare (removelast s) (removelast s')
  | _, _ => Eq
  end.
Fixpoint row_compare (r r' : list Value) : comparison :=
  match r, r' with
  | v :: r, w :: r' => match datum_compare v w with Eq => row_compare r r' | c => c end
  | _, _ => Eq
  end.
Definition sign_of (c : comparison) : Z := match c with Lt => -1 | Eq => 0 | Gt => 1 end.

(** A plain value that is a number or a string. *)
Definition indexable (v : Value) : Prop := plain v /\ type_id_ v <> BOOLEAN.

(** ** Lemmas *)

Lemma mem_read_app m z off n bs : mem_read m off n = Ok bs -> mem_read (m ++ z) off n = Ok bs.
Proof.
  intros (H0 & Hn & Hl & ->)%mem_read_inv. rewrite mem_read_ok by (rewrite ?length_app; lia). f_equal.
  rewrite drop_app_le by lia. by rewrite take_app_le by (rewrite length_drop; lia).
Qed.

Lemma Value_DeserializeFrom_app m z off type v : Value_DeserializeFrom m off type = Ok v -> Value_DeserializeFrom (m ++ z) off type = Ok v.
Proof.
  unfold Value_DeserializeFrom. intros (f & Hf & Hv)%rbind_ok. rewrite Hf. cbn [rbind].
  assert (Hint : forall n k, (let! z := fetch_int n m off in k z) = Ok v -> (let! z := fetch_int n (m ++ z) off in k z) = Ok v).
  { intros n k (x & Hx & Hk)%rbind_ok. unfold fetch_int in *. apply rbind_ok in Hx as (bs & Hbs & Hx).
    rewrite (mem_read_app _ _ _ _ _ Hbs). cbn [rbind]. inversion Hx; subst. exact Hk. }
  destruct type; try discriminate Hf; injection Hf as Hf; subst f; try done; try by apply Hint.
  - unfold DecimalType_DeserializeFrom in *. apply rbind_ok in Hv as (bs & Hbs & Hv). by rewrite (mem_read_app _ _ _ _ _ Hbs).
  - unfold VarlenType_DeserializeFrom, load_u32 in *. apply rbind_ok in Hv as (len & Hlen & Hv).
    destruct (mem_read m off 4) as [bs|] eqn:Hbs; [|done]. rewrite (mem_read_app _ _ _ _ _ Hbs). cbn in Hlen |- *. injection Hlen as <-.
    case_match; [done|]. apply mem_read_inv in Hbs as (H0 & _ & Hl & _). rewrite drop_app_le by lia.
    unfold Value_varlen in *. apply rbind_ok in Hv as (u & Hu & Hv). rewrite Hu. cbn [rbind]. apply rbind_ok in Hv as (cs & Hcs & Hv).
    by rewrite (mem_read_app _ _ _ _ _ Hcs).
Qed.

Lemma SetFromKey_ok KeySize t : tuple_size_ t <= KeySize ->
  SetFromKey KeySize t = Ok (tuple_data_ t ++ replicate (Z.to_nat KeySize - length (tuple_data_ t)) 0).
Proof.
  intros Hl. unfold SetFromKey, tuple_size_ in *. rewrite mem_write_ok by len. unfold splice. cbn [Z.to_nat take app Nat.add].
  by rewrite drop_replicate.
Qed.

(** The key has the values of the tuple. *)
Lemma ToValue_tuple KeySize t key s i v : SetFromKey KeySize t = Ok key -> Tuple_GetValue t s i = Ok v -> GenericKey_ToValue key s i = Ok v.
Proof.
  intros Hk Hv. assert (Hz : exists z, key = tuple_data_ t ++ z).
  { unfold SetFromKey in Hk. pose proof Hk as Hk'. apply mem_write_inv in Hk' as (_ & Hl & ->). unfold splice. by eexists. }
  destruct Hz as [z ->]. unfold Tuple_GetValue, Tuple_GetDataPtr in Hv. unfold GenericKey_ToValue.
  apply rbind_ok in Hv as (col & Hcol & Hv). rewrite Hcol in *. cbn [rbind] in *. apply rbind_ok in Hv as (p & Hp & Hv).
  assert (Hp' : (if Column_IsInlined col then Ok (column_offset_ col) else load_i32 (tuple_data_ t ++ z) (column_offset_ col)) = Ok p).
  { destruct (Column_IsInlined col); [done|]. unfold load_i32 in *. destruct (mem_read (tuple_data_ t) _ 4) as [bs|] eqn:Hbs; [|done].
    by rewrite (mem_read_app _ _ _ _ _ Hbs). }
  rewrite Hp'. cbn [rbind]. by apply Value_DeserializeFrom_app.
Qed.

(** *** Comparisons *)

Lemma datum_cmp v w op : indexable v -> indexable w -> type_id_ v = type_id_ w ->
  Value_compare op v w = Ok (GetCmpBool (cmp_holds op (datum_compare v w))).
Proof.
  intros [Hv Hb] [Hw _] Ht. unfold plain in Hv, Hw. rewrite <- Ht in Hw.
  assert (Hint : forall t, type_id_ v = t ->
    (exists T z, int_type_of t = Some T /\ proper_int T z /\ v = int_value t T z) ->
    (exists T z, int_type_of t = Some T /\ proper_int T z /\ w = int_value t T z) ->
    Value_compare op v w = Ok (GetCmpBool (cmp_holds op (datum_compare v w)))).
  { intros t _ (T & x & HT & [_ Hx] & ->) (T' & y & HT' & [_ Hy] & ->). assert (T' = T) as -> by congruence.
    rewrite (Value_compare_exact op t T x t T y HT HT), (proj2 (Z.eqb_neq _ _) Hx), (proj2 (Z.eqb_neq _ _) Hy).
    cbn [orb datum_compare value_ int_value]. do 2 f_equal. destruct op, (Z.compare_spec x y); cbn [zcmp cmp_holds]; lia. }
  destruct (type_id_ v) eqn:Ev; try done; try (by apply (Hint _ eq_refl)).
  destruct Hv as (s1 & Hs1 & ->), Hw as (s2 & Hs2 & ->).
  rewrite (Value_compare_lex op s1 s2 (varchar_value s2) Hs1 Hs2 (IsNull_varchar s2 Hs2) eq_refl).
  unfold datum_compare. cbn [value_ varchar_value]. by rewrite !removelast_last.
Qed.

Lemma lex_compare_Eq s1 s2 : lex_compare s1 s2 = Eq <-> s1 = s2.
Proof.
  pose proof (lex_compare_eq s1 s2) as Heq. destruct (decide (s1 = s2)) as [->|Hne].
  - rewrite bool_decide_true in Heq by done. by destruct (lex_compare s2 s2).
  - rewrite bool_decide_false in Heq by done. by destruct (lex_compare s1 s2).
Qed.

Lemma datum_compare_Eq v w : indexable v -> indexable w -> type_id_ v = type_id_ w -> datum_compare v w = Eq <-> v = w.
Proof.
  intros Hv Hw Ht. pose proof (datum_cmp v w OpEq Hv Hw Ht) as E. cbn [Value_compare] in E.
  rewrite (plain_equal v w (proj1 Hv) (proj1 Hw) Ht) in E. destruct (decide (v = w)) as [Heq|Hne].
  - rewrite bool_decide_true in E by done. by destruct (datum_compare v w).
  - rewrite bool_decide_false in E by done. by destruct (datum_compare v w).
Qed.

(** The values of two keys, column by column. *)
Definition keys_hold (s : Schema Expression) (k k' : GenericKey) (i : Z) (r r' : list Value) : Prop :=
  forall j v w, r !! j = Some v -> r' !! j = Some w ->
    GenericKey_ToValue k s (i + Z.of_nat j) = Ok v /\ GenericKey_ToValue k' s (i + Z.of_nat j) = Ok w.

Lemma Comparator_loop_ok s k k' r : forall i r',
  Forall2 (fun v w => indexable v /\ indexable w /\ type_id_ v = type_id_ w) r r' -> keys_hold s k k' i r r' ->
  GenericComparator_loop (seqZ i (Z.of_nat (length r))) s k k' = Ok (sign_of (row_compare r r')).
Proof.
  induction r as [|v r IH]; intros i r' Hr Hk; inversion Hr as [|? w ? r2 (Hv & Hw & Ht) Hr2]; subst; [done|].
  rewrite seqZ_cons by (cbn [length]; lia). cbn [GenericComparator_loop length].
  destruct (Hk 0%nat v w eq_refl eq_refl) as [E1 E2]. rewrite Z.add_0_r in E1, E2. rewrite E1, E2. cbn [rbind].
  pose proof (datum_cmp v w OpLt Hv Hw Ht) as EL. pose proof (datum_cmp v w OpGt Hv Hw Ht) as EG. cbn [Value_compare] in EL, EG.
  rewrite EL. cbn [rbind row_compare]. destruct (datum_compare v w) eqn:Ec; cbn [cmp_holds GetCmpBool] in *.
  - rewrite bool_decide_false by done. rewrite EG. cbn [rbind]. rewrite bool_decide_false by done.
    replace (Z.pred (Z.of_nat (Datatypes.S (length r)))) with (Z.of_nat (length r)) by lia. apply IH; [done|].
    intros j a b Ha Hb. replace (Z.succ i + Z.of_nat j) with (i + Z.of_nat (Datatypes.S j)) by lia. by apply Hk.
  - by rewrite bool_decide_true.
  - rewrite bool_decide_false by done. rewrite EG. cbn [rbind]. by rewrite bool_decide_true.
Qed.

Lemma row_compare_Eq r r' : Forall2 (fun v w => indexable v /\ indexable w /\ type_id_ v = type_id_ w) r r' ->
  row_compare r r' = Eq <-> r = r'.
Proof.
  induction 1 as [|v w r r' (Hv & Hw & Ht) _ IH]; [done|]. cbn [row_compare].
  pose proof (datum_compare_Eq v w Hv Hw Ht) as E. destruct (datum_compare v w).
  - rewrite (proj1 E eq_refl), IH. split; [by intros ->|]. by intros [= ->].
  - split; [done|]. intros [= -> ->]. discriminate (proj2 E eq_refl).
  - split; [done|]. intros [= -> ->]. discriminate (proj2 E eq_refl).
Qed.

(** *** Keys of rows *)

(** A row of numbers and strings whose tuple fits a key of [KeySize] bytes. *)
Definition key_row (KeySize : Z) (s : Schema Expression) (row : list Value) : Prop :=
  fits_row s row /\ Forall indexable row /\ length_ s + var_size (columns_ s) row <= KeySize.

(** [key] is the index key of [row]. *)
Definition key_of (KeySize : Z) (s : Schema Expression) (row : list Value) (key : GenericKey) : Prop :=
  exists t, Tuple_of_values row s = Ok t /\ SetFromKey KeySize t = Ok key.

Lemma good_schema_count s row : good_schema s -> fits_row s row -> GetColumnCount s = Z.of_nat (length row).
Proof.
  intros (cols & -> & Hw & Hb) [Hf _].
  assert (Hpos : Forall (fun c => 0 <= fixed_length_ c) cols).
  { eapply Forall_impl; [exact Hw|]. intros c ->. by destruct (column_type_ c). }
  destruct (Schema_new_ok cols Hpos ltac:(lia)) as (_ & _ & _ & Ht & _).
  destruct (fits_count cols row) as (Hl & Hc & _); [by apply (fits_types _ _ _ Ht)|done|].
  assert (Hl' : length (columns_ (Schema_new cols)) = length cols) by (by rewrite <- (length_fmap column_type_), Ht, length_fmap).
  unfold GetColumnCount. rewrite unsigned_id by (unfold is_unsigned; lia). lia.
Qed.

Lemma key_of_row KeySize s row : good_schema s -> key_row KeySize s row ->
  exists k, key_of KeySize s row k /\ Z.of_nat (length k) = KeySize
    /\ forall i v, row !! i = Some v -> GenericKey_ToValue k s (Z.of_nat i) = Ok v.
Proof.
  intros Hs (Hf & _ & Hl). destruct (build_row s row Hs Hf) as (t & Ht & _ & Hr & Hz). rewrite <- Hz in Hl.
  pose proof (SetFromKey_ok KeySize t Hl) as Hk. eexists. split; [by exists t|]. split.
  - unfold tuple_size_ in Hl. len.
  - intros i v Hv. eapply ToValue_tuple; [exact Hk|]. apply Hr. apply zlookup_ok. split; [lia|]. by rewrite Nat2Z.id.
Qed.

Lemma same_types s row row' : fits_row s row -> fits_row s row' -> Forall indexable row -> Forall indexable row' ->
  Forall2 (fun v w => indexable v /\ indexable w /\ type_id_ v = type_id_ w) row row'.
Proof.
  intros [Hf _] [Hf' _]. revert row' Hf'. induction Hf as [|c v cs row Hv _ IH]; intros row' Hf'; inversion Hf' as [|? w ? row2 Hw Hf2]; subst; [done|].
  intros Hi Hi'. inversion Hi; inversion Hi'; subst. destruct Hv as [Hv _], Hw as [Hw _]. constructor; [split; [done|split; [done|congruence]]|].
  by apply IH.
Qed.

(** ** Properties *)

(** C39: index keys are ordered like the rows they are made of.  For a laid out
    schema, two rows of numbers and strings without nulls whose tuples fit a key
    have keys of [KeySize] bytes from which [ToValue] reads the columns back;
    [GenericComparator] orders the keys lexicographically by column, and calls
    them equal exactly when the rows are the same, and then the keys are the
    same bytes, so that the hash table, which hashes bytes and compares with
    the comparator, treats them alike. *)
Theorem GenericComparator_lexicographic KeySize s row row' :
  good_schema s -> key_row KeySize s row -> key_row KeySize s row' ->
  exists k k', key_of KeySize s row k /\ key_of KeySize s row' k'
    /\ Z.of_nat (length k) = KeySize
    /\ (forall i v, row !! i = Some v -> GenericKey_ToValue k s (Z.of_nat i) = Ok v)
    /\ GenericComparator s k k' = Ok (sign_of (row_compare row row'))
    /\ (GenericComparator s k k' = Ok 0 <-> row = row')
    /\ (GenericComparator s k k' = Ok 0 -> k = k').
Proof.
  intros Hs Hr Hr'. destruct (key_of_row _ _ _ Hs Hr) as (k & Hk & Hlk & Hv), (key_of_row _ _ _ Hs Hr') as (k' & Hk' & _ & Hv').
  destruct Hr as (Hf & Hi & _), Hr' as (Hf' & Hi' & _). pose proof (same_types s row row' Hf Hf' Hi Hi') as Ht.
  assert (Hc : GenericComparator s k k' = Ok (sign_of (row_compare row row'))).
  { unfold GenericComparator. rewrite (good_schema_count s row Hs Hf). apply Comparator_loop_ok; [done|].
    intros j v w Ev Ew. split; [by apply Hv|by apply Hv']. }
  assert (Heq : GenericComparator s k k' = Ok 0 <-> row = row').
  { rewrite Hc, <- (row_compare_Eq row row' Ht). destruct (row_compare row row'); cbn [sign_of]; split; by intros [= ]. }
  exists k, k'. repeat (split; [done|]). intros ->%Heq. destruct Hk as (t & Ht1 & Hk), Hk' as (t' & Ht2 & Hk'). congruence.
Qed.

(** The key of one number column, and of a number and a string. *)
Definition key_columns : list (Column Expression) := [MkColumn (str "a") INTEGER 4 0 0 None; MkColumn (str "b") VARCHAR 12 0 0 None].

Lemma GenericComparator_lexicographic_witness :
  exists k k', key_of 32 (Schema_new key_columns) [int_value INTEGER int32_t 7; varchar_value (str "xyz")] k
    /\ key_of 32 (Schema_new key_columns) [int_value INTEGER int32_t 7; varchar_value (str "xz")] k'
    /\ GenericComparator (Schema_new key_columns) k k' = Ok (-1).
Proof.
  assert (Hs : good_schema (Schema_new key_columns)) by (by exists key_columns; repeat constructor).
  assert (Hrow : forall x, (length x <= 4)%nat -> key_row 32 (Schema_new key_columns) [int_value INTEGER int32_t 7; varchar_value x]).
  { intros x Hx. assert (Hsx : short x) by (unfold short; lia).
    assert (Hz : length_ (Schema_new key_columns) + var_size (columns_ (Schema_new key_columns)) [int_value INTEGER int32_t 7; varchar_value x]
      = 16 + (Z.of_nat (length x) + 1 + 4 + 0)) by done. split_and!.
    - split; [constructor; [by apply fits_int|constructor; [by apply fits_varchar|constructor]]|]. rewrite Hz. lia.
    - constructor; [|constructor; [|done]]; (split; [|done]); [by exists int32_t, 7|by exists x].
    - rewrite Hz. lia. }
  destruct (GenericComparator_lexicographic 32 _ _ _ Hs (Hrow (str "xyz") ltac:(by apply Nat.leb_le)) (Hrow (str "xz") ltac:(by apply Nat.leb_le)))
    as (k & k' & Hk & Hk' & _ & _ & Hc & _). exists k, k'. split; [done|]. split; [done|]. rewrite Hc. vm_compute. reflexivity.
Defined.

(** the comparator is not an order when keys hold nulls, and a tuple longer
    than the key overflows it.  A null compares equal to every number, because
    neither [CompareLessThan] nor [CompareGreaterThan] is [CmpTrue], so equality
    of keys is not transitive: 1 equals null, null equals 2, 1 is less than 2. *)
Theorem GenericComparator_null_not_transitive :
  let s := Schema_new [MkColumn (str "a") INTEGER 4 0 0 None] in
  (exists k1 kn k2 null, GetNullValueByType INTEGER = Ok null
    /\ key_of 4 s [int_value INTEGER int32_t 1] k1 /\ key_of 4 s [null] kn /\ key_of 4 s [int_value INTEGER int32_t 2] k2
    /\ GenericComparator s k1 kn = Ok 0 /\ GenericComparator s kn k2 = Ok 0 /\ GenericComparator s k1 k2 = Ok (-1))
  /\ exists t, Tuple_of_values [int_value INTEGER int32_t 1; varchar_value (str "abc")] (Schema_new key_columns) = Ok t
    /\ SetFromKey 8 t = Err OutOfBounds.
Proof.
  split.
  - do 4 eexists. split; [reflexivity|]. split; [eexists; split; vm_compute; reflexivity|]. split; [eexists; split; vm_compute; reflexivity|].
    split; [eexists; split; vm_compute; reflexivity|]. vm_compute. done.
  - eexists. split; vm_compute; reflexivity.
Qed.
