(* ===== verification/HashIndexCorrect.v ===== *)
(** The index on the hash table as a set of entries.  The comparator of the table
    is a parameter, equal on equal keys only, as [GenericComparator] is on keys of
    rows without nulls.  [HashIndex_spec] meets the contract of indexes for
    indexes of less entries than one bucket has slots, on pages that do not
    change; the property follows runs in which buckets split and merge. *)

From S2P Require Import Prelude Bytes CString Bitmap Rid Replacer LRUReplacer DiskManager BufferPoolManager BufferPool BufferPoolCorrect Value Types Schema Expression TablePage TupleValues Transaction TableHeap Catalog IndexContract.
From S2P Require Import HashBucketPage HashDirectoryPage ExtendibleHashTable HashTableCorrect HashTableSplit HashTableInsert HashPageLayout HashIndex.

(** ** A hash table of less entries than a bucket has slots *)

Section Table.
Context `{Config} {S P D K V : Type} `{!BufferPoolManager S P D} `{!BufferPoolSpec S P D} `{Countable K, Countable V}
  `{!MappingType K V} `{!MappingOk K V} `{!ExactMapping K V} `{!HashFunction K} `{!HashFunctionOk K V}
  `{!HashPages D K V} `{!HashPagesOk D K V (good_data (S := S) (P := P)) (zero_data (S := S) (P := P))}.
Implicit Types (t : ExtendibleHashTable) (key : K) (value : V) (d : HashTableDirectoryPage)
  (B : Z -> HashTableBucketPage K V) (s : S) (es : gset (K * V)) (X : gset Z).

Definition table_at t s X es : Prop :=
  exists d B, table_inv t s d B /\ inside t d X /\ (forall p, p ∈ X -> live (view s) p) /\ entry_set d B es.

Lemma table_insert t s X es key value :
  table_at t s X es -> room 2 s -> storable (key, value) -> (size es < bucket_size)%nat ->
  wp (HashTable_Insert t key value) (fun _ s' => table_at t s' X ({[(key, value)]} ∪ es) /\ evolves_in X (view s) (view s')
    /\ pins (view s') = pins (view s) /\ (forall n, budget (view s) n -> budget (view s') n)) s.
Proof.
  intros (d & B & Hi & Hin & Hlive & Hes) Hr Hst Hcap. pose proof (tr_hash _ _ _ _ (proj1 Hi)) as Hh.
  eapply wp_mono; [apply (Insert_not_full_in t s d B key value Hi Hr Hst)|].
  { pose proof (bucket_bound d B es _ Hh Hes (index_range d key (hi_dir _ _ Hh))). unfold key_page. lia. }
  intros r s' (B' & Hi' & Hres & Hvals & Hp & Hev & Hb). split_and!; [|by apply Hev|done|done].
  exists d, B'. split_and!; [done|done|intros p Hpx; by apply (ei_live _ _ _ (Hev X Hin)), Hlive|].
  exact (entry_set_insert d B d B' es key value r Hes Hres Hvals).
Qed.

Lemma table_remove t s X es key value :
  table_at t s X es -> room 2 s ->
  wp (HashTable_Remove t key value) (fun _ s' => table_at t s' X (es ∖ {[(key, value)]}) /\ evolves_in X (view s) (view s')
    /\ pins (view s') = pins (view s) /\ (forall n, budget (view s) n -> budget (view s') n)) s.
Proof.
  intros (d & B & Hi & Hin & Hlive & Hes) Hr.
  eapply wp_mono; [apply (Remove_wp t s d B key value Hi Hr)|].
  intros r s' (d' & B' & Hi' & Hres & Hvals & Hp & [Hev Hb] & Hsub). split_and!; [|by apply Hev|done|done].
  exists d', B'. split_and!; [done|by eapply inside_sub|intros p Hpx; by apply (ei_live _ _ _ (Hev X Hin)), Hlive|].
  exact (entry_set_remove d B d' B' es key value r (tr_hash _ _ _ _ (proj1 Hi)) Hes Hres Hvals).
Qed.

Lemma table_scan t s X es key :
  table_at t s X es -> room 2 s ->
  wp (HashTable_GetValue t key []) (fun r s' => NoDup r.2 /\ (forall v, v ∈ r.2 <-> (key, v) ∈ es) /\ table_at t s' X es
    /\ evolves_in ∅ (view s) (view s') /\ pins (view s') = pins (view s) /\ (forall n, budget (view s) n -> budget (view s') n)) s.
Proof.
  intros (d & B & Hi & Hin & Hlive & Hes) Hr. pose proof (tr_hash _ _ _ _ (proj1 Hi)) as Hh.
  eapply wp_mono; [apply (GetValue_wp t s d B key [] Hi Hr)|]. intros r s' (-> & Hi' & Hev & Hp & Hb). cbn [snd app].
  split_and!; [by apply (hi_uniq _ _ Hh _ key), index_range, (hi_dir _ _ Hh)|by intros v; rewrite (Hes key v)| |by apply evolves_in_none|done|done].
  exists d, B. split_and!; [done|done|intros p Hpx; by apply (ev_live _ _ _ Hev), Hlive|done].
Qed.

Lemma table_kept t s s' X Y es : table_at t s X es -> pool_ok s' -> evolves_in Y (view s) (view s') ->
  pins (view s') = pins (view s) -> X ## Y -> table_at t s' X es.
Proof.
  intros (d & B & [[Ho Hh Hd Hb Hs] Hu] & [Hin1 Hin2] & Hlive & Hes) Hs' Hev Hp HXY. exists d, B.
  split_and!; [|by split|intros p Hpx; by apply (ei_live _ _ _ Hev), Hlive|done]. split; [|by rewrite Hp].
  split; [done|done| | |done].
  - eapply dir_at_in; [exact Hev|set_solver|done].
  - intros i Hi. eapply bucket_at_in; [exact Hev| |by apply Hb]. specialize (Hin2 i Hi). set_solver.
Qed.
End Table.

(** ** The index *)

Section Index.
Context `{Config} {S P : Type} `{!BufferPoolManager S P bytes} `{!BufferPoolSpec S P bytes}
  `{!MappingType GenericKey RID} `{!MappingOk GenericKey RID} `{!ExactMapping GenericKey RID} `{!HashFunction GenericKey} `{!HashFunctionOk GenericKey RID}
  `{!HashPages bytes GenericKey RID} `{!HashPagesOk bytes GenericKey RID (good_data (S := S) (P := P)) (zero_data (S := S) (P := P))}.
Context (KeySize : Z) (Hstore : forall k rid, Z.of_nat (length k) = KeySize -> RID_wf rid -> storable (k, rid)).
#[local] Instance the_index : Index S ExtendibleHashTableIndex := HashIndex_index (D := bytes) KeySize.

(** The bytes of a key tuple in the index. *)
Definition padded (t : Tuple) : GenericKey := tuple_data_ t ++ replicate (Z.to_nat KeySize - length (tuple_data_ t)) 0.

Lemma wp_index_key {A} t (k : GenericKey -> M S A) (Q : A -> S -> Prop) s :
  tuple_size_ t <= KeySize -> wp (k (padded t)) Q s -> wp (do! index_key := lift (SetFromKey KeySize t) in k index_key) Q s.
Proof. intros Ht HQ. eapply wp_bind, wp_lift; [by apply SetFromKey_ok|exact HQ]. Qed.

Lemma padded_length t : tuple_size_ t <= KeySize -> Z.of_nat (length (padded t)) = KeySize.
Proof. unfold padded, tuple_size_. len. Qed.

#[export] Program Instance HashIndex_spec : IndexSpec S P ExtendibleHashTableIndex := {
  index_at x s X es := table_at (container_ x) s X es;
  index_key _ t := padded t;
  index_accepts _ t := tuple_size_ t <= KeySize;
  index_capacity _ := bucket_size (K := GenericKey) (V := RID)
}.
Next Obligation. intros x s s' X Y es. apply table_kept. Qed.
Next Obligation. intros x s X es p (d & B & _ & _ & Hlive & _) Hp. by apply Hlive. Qed.
Next Obligation.
  intros x s X es t rid Hat Hr Ht Hrid Hcap. simpl in *. unfold HashIndex_InsertEntry. apply wp_index_key; [done|]. apply wp_bind.
  eapply wp_mono; [apply (table_insert _ s X es (padded t) rid Hat Hr); [|done]|].
  { apply Hstore; [by apply padded_length|done]. }
  intros r s' (Hat' & Hev & Hp & Hb). apply wp_ret. split; [done|]. split; try done. destruct Hat' as (d & B & Hi & _). apply Hi.
Qed.
Next Obligation.
  intros x s X es t rid Hat Hr Ht. simpl in *. unfold HashIndex_DeleteEntry. apply wp_index_key; [done|]. apply wp_bind.
  eapply wp_mono; [by apply (table_remove _ s X es (padded t) rid)|].
  intros r s' (Hat' & Hev & Hp & Hb). apply wp_ret. split; [done|]. split; try done. destruct Hat' as (d & B & Hi & _). apply Hi.
Qed.
Next Obligation.
  intros x s X es t Hat Hr Ht. simpl in *. unfold HashIndex_ScanKey. apply wp_index_key; [done|]. apply wp_bind.
  eapply wp_mono; [by apply (table_scan _ s X es (padded t))|].
  intros r s' (Hn & Hv & Hat' & Hev & Hp & Hb). apply wp_ret. split_and!; [done..|]. split; try done. destruct Hat' as (d & B & Hi & _). apply Hi.
Qed.
End Index.

(** ** The property *)

Section Property.
Context `{Config} {S P : Type} `{!BufferPoolManager S P bytes} `{!BufferPoolSpec S P bytes}
  `{!MappingType GenericKey RID} `{!MappingOk GenericKey RID} `{!ExactMapping GenericKey RID} `{!HashFunction GenericKey} `{!HashFunctionOk GenericKey RID}
  `{!HashPages bytes GenericKey RID} `{!HashPagesOk bytes GenericKey RID (good_data (S := S) (P := P)) (zero_data (S := S) (P := P))}.

Section Runs.
Context (KeySize : Z) (Hstore : forall k rid, Z.of_nat (length k) = KeySize -> RID_wf rid -> storable (k, rid)).
#[local] Instance run_index : Index S ExtendibleHashTableIndex := HashIndex_index (D := bytes) KeySize.
#[local] Instance run_spec : IndexSpec S P ExtendibleHashTableIndex := HashIndex_spec KeySize Hstore.
Implicit Types (x : ExtendibleHashTableIndex) (s : S) (d : HashTableDirectoryPage) (B : Z -> HashTableBucketPage GenericKey RID)
  (c : IndexCall) (es : gset (bytes * RID)).
Notation padded := (padded KeySize).

(** What a call needs of the table it finds: a key that fits; for an insertion
    also pages for its splits, and a bucket that has a free slot or that can be
    split until it has one. *)
Definition call_fits s d B c : Prop :=
  match c with
  | CallInsert key rid => tuple_size_ key <= KeySize /\ RID_wf rid /\ budget (view s) (Z.to_nat (9 - global_depth_ d))
      /\ (length (entries (B (key_page (padded key) d))) = bucket_size (K := GenericKey) (V := RID) -> separable d B (padded key))
  | CallDelete key _ | CallScan key => tuple_size_ key <= KeySize
  end.
Fixpoint calls_fit x (cs : list IndexCall) s : Prop :=
  match cs with
  | [] => True
  | c :: cs => (forall d B, table_inv (container_ x) s d B -> call_fits s d B c)
      /\ forall r s', index_call x c s = Ok (r, s') -> calls_fit x cs s'
  end.

Lemma index_call_fits x s d B es c : table_inv (container_ x) s d B -> entry_set d B es -> room 3 s -> call_fits s d B c ->
  wp (index_call x c) (fun r s' => entries_answer x es c r /\ pins (view s') = pins (view s) /\ room 3 s'
    /\ exists d' B', table_inv (container_ x) s' d' B' /\ entry_set d' B' (entries_after x es c)) s.
Proof.
  intros Hi Hes Hr Hc. assert (Hr2 : room 2 s) by (unfold room in *; lia).
  pose proof (tr_hash _ _ _ _ (proj1 Hi)) as Hh. destruct c as [key rid|key rid|key]; cbn [call_fits index_call entries_answer entries_after] in *.
  - destruct Hc as (Hk & Hw & Hb & Hsep). apply wp_bind. cbn [InsertEntry run_index HashIndex_index]. unfold HashIndex_InsertEntry.
    apply wp_index_key; [done|]. apply wp_bind.
    eapply wp_mono; [apply (Insert_wp _ s d B (padded key) rid Hi Hr); [by apply Hstore; [apply padded_length|]|done|done]|].
    intros r s' (d' & B' & Hi' & Hres & Hvals & Hp & Hf). apply wp_ret, wp_ret. split_and!; [done|done|unfold room in *; congruence|].
    exists d', B'. split; [done|]. exact (entry_set_insert d B d' B' es (padded key) rid r Hes Hres Hvals).
  - apply wp_bind. cbn [DeleteEntry run_index HashIndex_index]. unfold HashIndex_DeleteEntry. apply wp_index_key; [done|]. apply wp_bind.
    eapply wp_mono; [apply (Remove_wp _ s d B (padded key) rid Hi Hr2)|].
    intros r s' (d' & B' & Hi' & Hres & Hvals & Hp & Hst & _). apply wp_ret, wp_ret.
    pose proof (stays_frames _ _ _ _ _ Hi Hst) as Hf. split_and!; [done|done|unfold room in *; congruence|].
    exists d', B'. split; [done|]. exact (entry_set_remove d B d' B' es (padded key) rid r Hh Hes Hres Hvals).
  - cbn [ScanKey run_index HashIndex_index]. unfold HashIndex_ScanKey. apply wp_index_key; [done|]. apply wp_bind.
    eapply wp_mono; [apply (GetValue_wp _ s d B (padded key) [] Hi Hr2)|].
    intros r s' (-> & Hi' & Hev & Hp & Hb). apply wp_ret. cbn [snd app]. split_and!; [|by intros v; rewrite (Hes _ v)|done| |by exists d, B].
    + apply (hi_uniq _ _ Hh). by apply index_range, (hi_dir _ _ Hh).
    + unfold room in *. by rewrite Hp, (ev_frames _ _ _ Hev).
Qed.

Lemma index_calls_fit x cs : forall s d B es, table_inv (container_ x) s d B -> entry_set d B es -> room 3 s -> calls_fit x cs s ->
  wp (index_calls x cs) (fun rs s' => entries_run x es cs rs /\ pins (view s') = pins (view s)
    /\ exists d' B', table_inv (container_ x) s' d' B' /\ entry_set d' B' (foldl (entries_after x) es cs)) s.
Proof.
  induction cs as [|c cs IH]; intros s d B es Hi Hes Hr Hok; cbn [index_calls foldl calls_fit entries_run] in *.
  - apply wp_ret. split_and!; [done|done|by exists d, B].
  - destruct Hok as [Hc Hok]. pose proof (index_call_fits x s d B es c Hi Hes Hr (Hc d B Hi)) as Hw.
    apply wp_run in Hw as (r & s1 & Hrun & Ha & Hp1 & Hr1 & d1 & B1 & Hi1 & Hes1). apply wp_bind. unfold wp at 1. rewrite Hrun.
    apply wp_bind. eapply wp_mono; [apply (IH s1 d1 B1 (entries_after x es c)); try done; by eapply Hok|].
    intros rs s2 (Hrs & Hp2 & Hend). apply wp_ret. split_and!; [done..|congruence|done].
Qed.

(** *** A run that fills a bucket *)

(** What a state says about its table. *)
Lemma table_unique t s d B d' B' : table_inv t s d B -> table_inv t s d' B' ->
  d' = d /\ forall i, 0 <= i < dir_size d -> B' (dir_page d i) = B (dir_page d i).
Proof.
  intros [[_ _ (_ & y & Hy & <-) Hb _] _] [[_ _ (_ & y' & Hy' & <-) Hb' _] _]. assert (y' = y) as -> by congruence.
  split; [done|]. intros i Hi. destruct (Hb i Hi) as (_ & z & Hz & <-), (Hb' i Hi) as (_ & z' & Hz' & <-). congruence.
Qed.

Lemma call_fits_unique t s d B c : table_inv t s d B -> call_fits s d B c -> forall d' B', table_inv t s d' B' -> call_fits s d' B' c.
Proof.
  intros Hi Hc d' B' Hi'. destruct (table_unique t s d B d' B' Hi Hi') as [-> HB].
  destruct c as [key rid|key rid|key]; cbn [call_fits] in *; try done.
  pose proof (HB _ (index_range d (padded key) (hi_dir _ _ (tr_hash _ _ _ _ (proj1 Hi))))) as E.
  change (dir_page d (key_index (padded key) d)) with (key_page (padded key) d) in E. unfold separable in *. by rewrite E.
Qed.

Definition insert_calls (l : list (Tuple * RID)) : list IndexCall := (fun e => CallInsert e.1 e.2) <$> l.
Definition stored_entry (e : Tuple * RID) : bytes * RID := (padded e.1, e.2).

Lemma foldl_insert_calls x l : forall es, foldl (entries_after x) es (insert_calls l) = list_to_set (stored_entry <$> l) ∪ es.
Proof.
  induction l as [|e l IH]; intros es; [by cbn; rewrite union_empty_l_L|]. cbn [insert_calls fmap list_fmap foldl list_to_set].
  unfold insert_calls in IH. rewrite IH. cbn [entries_after]. change (index_key x e.1) with (padded e.1). unfold stored_entry at 2. set_solver.
Qed.

Lemma entries_run_insert_calls x l rest : forall es rs, entries_run x es (insert_calls l ++ rest) rs ->
  exists rs', rs = replicate (length l) [] ++ rs' /\ entries_run x (foldl (entries_after x) es (insert_calls l)) rest rs'.
Proof.
  induction l as [|e l IH]; intros es rs Hrs; [by exists rs|]. destruct rs as [|r rs]; [done|]. destruct Hrs as [-> Hrs].
  destruct (IH _ _ Hrs) as (rs' & -> & Hrs'). by exists rs'.
Qed.

Lemma first_insert_fits x s d B es key rid : table_inv (container_ x) s d B -> entry_set d B es -> room 3 s ->
  tuple_size_ key <= KeySize -> RID_wf rid -> (size es < bucket_size (K := GenericKey) (V := RID))%nat ->
  length (entries (B (key_page (padded key) d))) <> bucket_size (K := GenericKey) (V := RID)
  /\ wp (index_call x (CallInsert key rid)) (fun _ s' => exists B', table_inv (container_ x) s' d B'
       /\ entry_set d B' ({[(padded key, rid)]} ∪ es) /\ room 3 s' /\ (forall n, budget (view s) n -> budget (view s') n)) s.
Proof.
  intros Hi Hes Hr Hk Hw Hsz. pose proof (tr_hash _ _ _ _ (proj1 Hi)) as Hh.
  assert (Hfree : length (entries (B (key_page (padded key) d))) <> bucket_size (K := GenericKey) (V := RID)).
  { assert (Hle : (length (entries (B (key_page (padded key) d))) <= size es)%nat)
      by exact (bucket_bound d B es _ Hh Hes (index_range d (padded key) (hi_dir _ _ Hh))). lia. }
  split; [done|]. cbn [index_call InsertEntry run_index HashIndex_index]. unfold HashIndex_InsertEntry. apply wp_bind, wp_index_key; [done|].
  apply wp_bind. eapply wp_mono; [apply (Insert_not_full_in _ s d B (padded key) rid Hi)|].
  - unfold room in *. lia.
  - by apply Hstore; [apply padded_length|].
  - done.
  - intros r s' (B' & Hi' & Hres & Hvals & Hp & Hst). apply wp_ret, wp_ret. exists B'.
    pose proof (stays_frames _ _ _ _ _ Hi Hst) as Hf. split_and!; [done| |unfold room in *; congruence|apply Hst].
    exact (entry_set_insert d B d B' es (padded key) rid r Hes Hres Hvals).
Qed.

Lemma insert_calls_fit x l rest : forall s d B es, table_inv (container_ x) s d B -> entry_set d B es -> room 3 s ->
  budget (view s) (Z.to_nat (9 - global_depth_ d)) -> Forall (fun e => tuple_size_ e.1 <= KeySize /\ RID_wf e.2) l ->
  (size es + length l <= bucket_size (K := GenericKey) (V := RID))%nat ->
  (forall s' B', table_inv (container_ x) s' d B' -> entry_set d B' (list_to_set (stored_entry <$> l) ∪ es) -> room 3 s' ->
     budget (view s') (Z.to_nat (9 - global_depth_ d)) -> calls_fit x rest s') ->
  calls_fit x (insert_calls l ++ rest) s.
Proof.
  induction l as [|[key rid] l IH]; intros s d B es Hi Hes Hr Hb Hl Hsz Hrest.
  - apply (Hrest s B); [done| |done|done]. cbn. by rewrite union_empty_l_L.
  - inversion Hl as [|? ? [Hk Hw] Hl']; subst. cbn [length fst snd] in *.
    destruct (first_insert_fits x s d B es key rid Hi Hes Hr Hk Hw ltac:(lia)) as [Hfree Hwp].
    change (insert_calls ((key, rid) :: l) ++ rest) with (CallInsert key rid :: (insert_calls l ++ rest)). cbn [calls_fit]. split.
    + by apply (call_fits_unique _ s d B _ Hi).
    + intros r s1 Hrun. apply wp_run in Hwp as (r' & s1' & Hrun' & B1 & Hi1 & Hes1 & Hr1 & Hb1). rewrite Hrun in Hrun'.
      injection Hrun' as <- <-. apply (IH s1 d B1 ({[(padded key, rid)]} ∪ es)); try done.
      * by apply Hb1.
      * rewrite size_union_alt, size_singleton. pose proof (subseteq_size (es ∖ {[(padded key, rid)]}) es ltac:(set_solver)). lia.
      * intros s' B' Hi' Hes'. apply (Hrest s' B' Hi'). cbn [fmap list_fmap list_to_set]. unfold stored_entry at 1. cbn [fst snd].
        by rewrite (union_comm_L {[(padded key, rid)]}), <- union_assoc_L.
Qed.
End Runs.

End Property.

(** ** An index of four-byte keys *)

Section FourBytes.
#[local] Existing Instance course_config.
Notation pool := (BPI bytes LRUReplacer DiskManager).

(** [GenericKey<4>]: a row without nulls is equal to another if the bytes are. *)
#[export] Instance key_mapping : MappingType GenericKey RID := {
  KeyComparator k k' := if decide (k = k') then 0 else 1;
  sizeof_MappingType := 12;
  ValueType_eqb := RID_eqb;
  zero_mapping := (replicate 4 0, RID_Set 0 0)
}.

#[export] Instance key_layout : EntryLayout GenericKey RID := {
  entry_bytes e := e.1 ++ le_split 4 (page_id_ e.2) ++ le_split 4 (slot_num_ e.2);
  entry_of_bytes m := (take 4 m, RID_Set (signed 32 (le_combine (take 4 (drop 4 m)))) (le_combine (take 4 (drop 8 m))))
}.

#[export] Instance key_hash : HashFunction GenericKey := fun key => le_combine key.

Lemma key_equal (k k' : GenericKey) : KeyComparator (V := RID) k k' = 0 -> k = k'.
Proof. cbn. by case_decide. Qed.

#[export] Instance key_exact : ExactMapping GenericKey RID.
Proof. exact key_equal. Qed.

#[export] Instance key_mapping_ok : MappingOk GenericKey RID.
Proof.
  split.
  - intros k. cbn. by rewrite decide_True.
  - intros k k' ->%key_equal. cbn. by rewrite decide_True.
  - by intros k1 k2 k3 ->%key_equal.
  - intros [p n] [p' n']. cbn. unfold RID_eqb. cbn [page_id_ slot_num_]. rewrite andb_true_iff, !Z.eqb_eq. naive_solver.
  - by vm_compute.
Qed.

#[export] Instance key_hash_ok : HashFunctionOk GenericKey RID.
Proof. by intros k k' ->%key_equal. Qed.

Definition key_entry (e : GenericKey * RID) : Prop := length e.1 = 4%nat /\ RID_wf e.2.

Lemma key_entry_sound e : key_entry e -> sound_entry e.
Proof.
  destruct e as [k [p n]]. intros [Hk [Hp Hn]]. cbn [fst snd page_id_ slot_num_] in *. split; cbn [entry_bytes entry_of_bytes key_layout fst snd page_id_ slot_num_].
  - by rewrite !length_app, !le_split_length, Hk.
  - assert (E8 : forall l : bytes, drop 8 l = drop 4 (drop 4 l)) by (intros; by rewrite drop_drop).
    rewrite E8, !(drop_app_length' k), (take_app_length' k) by done.
    rewrite take_app_length', drop_app_length', (take_ge (le_split 4 n)), le_split_i32, le_split_u32 by done. done.
Qed.

Lemma key_fits : (array_offset (K := GenericKey) (V := RID) + entry_size (K := GenericKey) (V := RID) * array_size (K := GenericKey) (V := RID) <= Z.to_nat PAGE_SIZE)%nat.
Proof. apply Nat.leb_le. by vm_compute. Qed.

#[export] Program Instance key_layout_ok :
    HashPagesOk bytes GenericKey RID (good_data (S := pool) (P := Z)) (zero_data (S := pool) (P := Z)) := {|
  storable := key_entry
|}.
Next Obligation. intros d x Hd Hx. by apply Dir_layout. Qed.
Next Obligation. intros b x Hb He Hx. apply Bucket_layout; [apply key_fits|done| |done]. eapply Forall_impl; [exact He|]. apply key_entry_sound. Qed.
Next Obligation. by vm_compute. Qed.
Next Obligation. by vm_compute. Qed.
Next Obligation. by split. Qed.

Definition four_store (k : GenericKey) (rid : RID) : Z.of_nat (length k) = 4 -> RID_wf rid -> storable (k, rid).
Proof. intros Hk Hr. split; [simpl; lia|done]. Qed.

#[export] Instance four_index : Index pool ExtendibleHashTableIndex := HashIndex_index (D := bytes) 4.
#[export] Instance four_spec : IndexSpec pool Z ExtendibleHashTableIndex := HashIndex_spec 4 four_store.
(** An index on the INTEGER column [x] of a table. *)
Definition x_schema : Schema Expression := Schema_new [MkColumn (str "x") INTEGER (TypeSize INTEGER) 0 0 (Some (ColumnValueExpression 0 0 INTEGER))].
Definition x_index (ht : ExtendibleHashTable) : ExtendibleHashTableIndex :=
  MkHashIndex (MkIndexMetadata (str "ix") (str "t") [0] x_schema) ht.

(** An index the constructor has made. *)
Lemma new_index : exists ht (s0 s : pool) b0 b1, zero_pool 3 = Ok s0 /\ HashIndex_new (D := bytes) (hx_metadata_ (x_index ht)) s0 = Ok (x_index ht, s)
  /\ table_inv ht s (Dir_initial (directory_page_id_ ht) b0 b1) (fun _ => Bucket_zero (K := GenericKey) (V := RID))
  /\ pins (view s) = ∅ /\ frames (view s) = 3%nat /\ budget (view s) 8.
Proof.
  destruct (zero_pool_inv 3) as (s0 & Hrun0 & Hs & Hp & Hf & Hb).
  assert (Hroom : room 3 s0) by (unfold room; rewrite Hp, Hf, map_size_empty; lia).
  assert (Hsaved : buckets_saved (HashTable_init (K := GenericKey) (V := RID) s0) = true).
  { assert (E : (let! s0 := zero_pool 3 in Ok (buckets_saved (HashTable_init (K := GenericKey) (V := RID) s0))) = Ok true) by by vm_compute.
    rewrite Hrun0 in E. by injection E. }
  pose proof (new_wp (K := GenericKey) (V := RID) s0 8 Hs (Hb (3 + 8)%nat ltac:(lia)) Hroom (buckets_saved_synced _ _ Hsaved)) as Hw.
  apply wp_run in Hw as (ht & s & Hrun & b0 & b1 & Hi & Hp1 & Hf1 & Hb1). exists ht, s0, s, b0, b1.
  split_and!; [done| |done|congruence|congruence|done]. unfold HashIndex_new, sbind. by rewrite Hrun.
Qed.

Lemma no_entries ht b0 b1 : entry_set (Dir_initial (directory_page_id_ ht) b0 b1) (fun _ => Bucket_zero (K := GenericKey) (V := RID)) ∅.
Proof. intros k v. unfold table_values. destruct (bucket_zero_inv (K := GenericKey) (V := RID)) as [_ ->]. cbn. set_solver. Qed.

Lemma fresh_index : exists ht (s : pool) X, index_at (x_index ht) s X ∅ /\ pool_ok s /\ pins (view s) = ∅ /\ frames (view s) = 3%nat /\ budget (view s) 8.
Proof.
  destruct new_index as (ht & s0 & s & b0 & b1 & _ & _ & Hi & Hp & Hf & Hb). exists ht, s, {[directory_page_id_ ht; b0; b1]}.
  pose proof (proj1 Hi) as Hrep. set (d := Dir_initial (directory_page_id_ ht) b0 b1) in *.
  assert (Hsz : dir_size d = 2) by done.
  split_and!; [|apply Hrep|done|done|done].
  exists d, (fun _ => Bucket_zero). split_and!; [exact Hi| | |apply no_entries].
  - split; [set_solver|]. intros i [E|E]%initial_entry; fold d in E; rewrite E; set_solver.
  - assert (Hl : forall i, 0 <= i < 2 -> live (view s) (dir_page d i)) by (intros i Hi'; apply (tr_bucket _ _ _ _ Hrep i); lia).
    intros p. rewrite !elem_of_union, !elem_of_singleton. intros [[->| ->]| ->]; [apply Hrep|by apply (Hl 0)|by apply (Hl 1)].
Qed.
End FourBytes.

(** ** A run over a new index *)

Section Concrete.
#[local] Existing Instance course_config.
Notation pool := (BPI bytes LRUReplacer DiskManager).

(** The key of an integer, and records with even keys that fill a bucket; the
    next one splits it. *)
Definition int_key (z : Z) : Tuple := MkTuple RID_default (le_split 4 z).
Definition even_records : list (Tuple * RID) := (fun i => (int_key (2 * Z.of_nat i), RID_Set (Z.of_nat i) 0)) <$> seq 0 334.
Definition calls : list IndexCall :=
  insert_calls even_records ++ [CallInsert (int_key 668) (RID_Set 7 1); CallDelete (int_key 2) (RID_Set 1 0);
    CallScan (int_key 668); CallScan (int_key 666); CallScan (int_key 2)].

Lemma padded_key z : padded 4 (int_key z) = le_split 4 z.
Proof. unfold padded, int_key. cbn [tuple_data_]. rewrite le_split_length. apply app_nil_r. Qed.

Lemma even_entry z rid : 0 <= z < 2 ^ 32 ->
  (le_split 4 z, rid) ∈ (stored_entry 4 <$> even_records) <-> exists i, 0 <= i < 334 /\ z = 2 * i /\ rid = RID_Set i 0.
Proof.
  intros Hz. unfold even_records. rewrite <- list_fmap_compose, list_elem_of_fmap. split.
  - intros (i & E & Hi%elem_of_seq). pose proof (f_equal fst E) as E1. pose proof (f_equal snd E) as E2.
    unfold compose, stored_entry in E1, E2. cbn [fst snd] in E1, E2. rewrite padded_key in E1. exists (Z.of_nat i).
    split; [lia|]. split; [|done]. apply (f_equal le_combine) in E1. rewrite !le_split_u32 in E1 by (unfold is_unsigned; simpl; lia). done.
  - intros (i & Hi & -> & ->). exists (Z.to_nat i). rewrite elem_of_seq. split; [|lia]. unfold compose, stored_entry. cbn [fst snd].
    by rewrite padded_key, Z2Nat.id by lia.
Qed.

Lemma list_to_set_size {A} `{Countable A} (l : list A) : (size (list_to_set l : gset A) <= length l)%nat.
Proof.
  induction l as [|a l IH]; [done|]. cbn [list_to_set length]. rewrite size_union_alt, size_singleton.
  pose proof (subseteq_size (list_to_set l ∖ {[a]} : gset A) (list_to_set l) ltac:(set_solver)). lia.
Qed.

(** The split of the full bucket: every entry is in it, the first one parts from
    the new key. *)
Lemma calls_fit_witness ht (s : pool) b0 b1 :
  let d := Dir_initial (directory_page_id_ ht) b0 b1 in
  table_inv ht s d (fun _ => Bucket_zero (K := GenericKey) (V := RID)) -> room 3 s -> budget (view s) 8 ->
  calls_fit 4 (x_index ht) calls s.
Proof.
  intros d Hi Hr Hb. pose proof (no_entries ht b0 b1) as Hes. fold d in Hes.
  assert (Hk : forall z, tuple_size_ (int_key z) <= 4) by (intros z; by unfold tuple_size_, int_key; cbn [tuple_data_]; rewrite le_split_length).
  assert (Hsz : bucket_size (K := GenericKey) (V := RID) = 334%nat) by by vm_compute.
  assert (Hlen : length even_records = 334%nat) by (unfold even_records; by rewrite length_fmap, length_seq).
  unfold calls. apply (insert_calls_fit 4 four_store (x_index ht) even_records _ s d _ ∅ Hi Hes Hr Hb).
  - apply Forall_forall. intros e [i [-> Hi'%elem_of_seq]]%list_elem_of_fmap. split; [apply Hk|].
    split; cbn; unfold is_signed, is_unsigned; simpl; lia.
  - rewrite size_empty, Hsz, Hlen. done.
  - intros s' B Hi' Hes' Hr' Hb'. cbn [calls_fit]. rewrite union_empty_r_L in Hes'. split; [|intros; split; [|intros; split; [|intros; split; [|intros; split; [|done]]]]]; try (intros; apply Hk).
    apply (call_fits_unique 4 _ s' d B _ Hi'). split; [apply Hk|]. split; [by vm_compute|]. split; [exact Hb'|].
    intros Hfull. split; [by vm_compute|]. exists (le_split 4 0, RID_Set 0 0). split; [|rewrite padded_key; by vm_compute].
    pose proof (tr_hash _ _ _ _ (proj1 Hi')) as Hh.
    apply (bucket_all d B _ _ Hh Hes' (index_range d _ (hi_dir _ _ Hh))).
    + etransitivity; [|apply Nat.eq_le_incl; symmetry; exact Hfull]. rewrite Hsz, <- Hlen, <- (length_fmap (stored_entry 4) even_records).
      apply list_to_set_size.
    + apply elem_of_list_to_set, even_entry; [lia|]. exists 0. done.
Qed.

End Concrete.
