(* ===== verification/BPlusTree.v ===== *)
(** The B+ tree and its index ([src/storage/index/b_plus_tree.cpp],
    [src/storage/index/index_iterator.cpp],
    [src/storage/index/b_plus_tree_index.cpp]).

    The methods that search and change the tree are stubs in the code: they
    return a constant and touch nothing, or throw.  [UpdateRootPageId], which
    keeps the root of the tree in the header page, is complete. *)

From S2P Require Import Prelude Bytes CString Rid Replacer LRUReplacer DiskManager BufferPoolManager BufferPool BufferPoolCorrect Value Types Schema Expression TablePage TupleValues.
From S2P Require Import Transaction TableHeap TableHeapCorrect TableHeapProperties Catalog IndexContract HashBucketPage HeaderPage BPlusTreePage HashIndex HashIndexCorrect.

(** ** Definitions *)

Record BPlusTree : Type := MkBPlusTree {
  tree_name_ : bytes;
  root_page_id_ : Z;
  leaf_max_size_ : Z;
  internal_max_size_ : Z
}.

Section Tree.
Context `{Config} {S P K V : Type} `{!BufferPoolManager S P bytes}.
Implicit Types (t : BPlusTree) (key : K) (value : V) (result : list V).

Definition BPlusTree_new (name : bytes) (leaf_max_size internal_max_size : Z) : BPlusTree :=
  MkBPlusTree name INVALID_PAGE_ID leaf_max_size internal_max_size.

Definition BPlusTree_IsEmpty t : bool := true.
Definition BPlusTree_GetValue key result t : bool * list V := (false, result).
Definition BPlusTree_Insert key value t : bool * BPlusTree := (false, t).
Definition StartNewTree key value t : BPlusTree := t.
Definition InsertIntoLeaf key value t : bool * BPlusTree := (false, t).
Definition BPlusTree_Split {N : Type} (node : N) t : option N := None.
Definition InsertIntoParent {N : Type} (old_node new_node : N) key t : BPlusTree := t.
Definition BPlusTree_Remove key t : BPlusTree := t.
Definition CoalesceOrRedistribute {N : Type} (node : N) t : bool := false.
Definition Coalesce {N : Type} (neighbor_node node : N) (index : Z) t : bool := false.
Definition Redistribute {N : Type} (neighbor_node node : N) (index : Z) t : N * N := (neighbor_node, node).
Definition AdjustRoot {N : Type} (old_root_node : N) t : bool := false.
Definition FindLeafPage key (leftMost : bool) t : M S (option P) := fail (Raised EX_NOT_IMPLEMENTED).

(** Iterators have no members. *)
Definition IndexIterator : Type := unit.
Definition BPlusTree_Begin t : IndexIterator := tt.
Definition BPlusTree_Begin_key key t : IndexIterator := tt.
Definition BPlusTree_End t : IndexIterator := tt.
Definition IndexIterator_IsEnd (it : IndexIterator) : res bool := Err StdRuntimeError.
Definition IndexIterator_deref (it : IndexIterator) : res (K * V) := Err StdRuntimeError.
Definition IndexIterator_next (it : IndexIterator) : res IndexIterator := Err StdRuntimeError.
Definition IndexIterator_eqb (it it' : IndexIterator) : res bool := Err StdRuntimeError.
Definition IndexIterator_neqb (it it' : IndexIterator) : res bool := Err StdRuntimeError.

(** What the header page answers is not looked at. *)
Definition UpdateRootPageId (insert_record : Z) t : M S unit :=
  do! header_page := (do! r := FetchPage HEADER_PAGE_ID in deref r) in
  do! m := GetData header_page in
  do! ' (_, m) := lift (if negb (insert_record =? 0) then HP_InsertRecord (tree_name_ t) (root_page_id_ t) m
                        else HP_UpdateRecord (tree_name_ t) (root_page_id_ t) m) in
  do! _ := SetData header_page m in
  do! _ := UnpinPage HEADER_PAGE_ID true in
  sret tt.
End Tree.

(** *** The index *)

Record BPlusTreeIndex : Type := MkBPlusTreeIndex {
  bx_metadata_ : IndexMetadata;
  bx_container_ : BPlusTree
}.

Section TreeIndex.
Context `{Config} {S : Type} `{!MappingType GenericKey RID} `{!MappingType GenericKey Z} (KeySize : Z).

Definition BPlusTreeIndex_new (metadata : IndexMetadata) : M S BPlusTreeIndex :=
  sret (MkBPlusTreeIndex metadata
          (BPlusTree_new (index_md_name_ metadata) (LEAF_PAGE_SIZE (K := GenericKey) (V := RID)) (INTERNAL_PAGE_SIZE (K := GenericKey)))).
Definition BPlusTreeIndex_InsertEntry (x : BPlusTreeIndex) (key : Tuple) (rid : RID) : M S unit :=
  do! index_key := lift (SetFromKey KeySize key) in
  let _ := BPlusTree_Insert index_key rid (bx_container_ x) in sret tt.
Definition BPlusTreeIndex_DeleteEntry (x : BPlusTreeIndex) (key : Tuple) (rid : RID) : M S unit :=
  do! index_key := lift (SetFromKey KeySize key) in
  let _ := BPlusTree_Remove index_key (bx_container_ x) in sret tt.
Definition BPlusTreeIndex_ScanKey (x : BPlusTreeIndex) (key : Tuple) : M S (list RID) :=
  do! index_key := lift (SetFromKey KeySize key) in
  sret (BPlusTree_GetValue index_key [] (bx_container_ x)).2.

Definition GetBeginIterator (x : BPlusTreeIndex) : IndexIterator := BPlusTree_Begin (bx_container_ x).
Definition GetBeginIterator_key (key : GenericKey) (x : BPlusTreeIndex) : IndexIterator := BPlusTree_Begin_key key (bx_container_ x).
Definition GetEndIterator (x : BPlusTreeIndex) : IndexIterator := BPlusTree_End (bx_container_ x).

Definition BPlusTreeIndex_index : Index S BPlusTreeIndex := {|
  NewIndex := BPlusTreeIndex_new;
  GetMetadata := bx_metadata_;
  InsertEntry := BPlusTreeIndex_InsertEntry;
  DeleteEntry := BPlusTreeIndex_DeleteEntry;
  ScanKey := BPlusTreeIndex_ScanKey
|}.

(** An index on the B+ tree forgets every entry: no scan finds anything, and
    nothing is stored. *)
Lemma BPlusTreeIndex_stores_nothing (x : BPlusTreeIndex) (cs : list IndexCall) (s : S) :
  Forall (fun c => match c with CallInsert key _ | CallDelete key _ | CallScan key => tuple_size_ key <= KeySize end) cs ->
  index_calls (Index0 := BPlusTreeIndex_index) x cs s = Ok (replicate (length cs) [], s).
Proof.
  induction 1 as [|c cs Hc _ IH]; [done|]. cbn [index_calls length replicate]. unfold sbind.
  assert (E : index_call (Index0 := BPlusTreeIndex_index) x c s = Ok ([], s)).
  { destruct c as [key rid|key rid|key]; cbn; unfold BPlusTreeIndex_InsertEntry, BPlusTreeIndex_DeleteEntry, BPlusTreeIndex_ScanKey, sbind, lift;
      by rewrite (SetFromKey_ok _ _ Hc). }
  rewrite E. cbn [rbind]. by rewrite IH.
Qed.
End TreeIndex.

(** ** The root of the tree in the header page *)

Section Root.
Context `{Config} {S P : Type} `{!BufferPoolManager S P bytes} `{!BufferPoolSpec S P bytes}
  `{!TablePagesOk (good_data (S := S) (P := P)) (zero_data (S := S) (P := P))}.
Implicit Types (t : BPlusTree) (s : S) (l : list (bytes * Z)).

(** The header page is in the pool and holds the records [l]. *)
Definition header_at s l : Prop :=
  live (view s) HEADER_PAGE_ID /\ exists m, logical (view s) HEADER_PAGE_ID = Some m /\ header_rep m l.

Definition root_op (insert_record : Z) t : hp_op :=
  if negb (insert_record =? 0) then HInsert (tree_name_ t) (root_page_id_ t) else HUpdate (tree_name_ t) (root_page_id_ t).

(** C38: [UpdateRootPageId] does to the records of the header page what inserting,
    or updating, the record of the tree does to a list of names and roots, and to
    nothing else: it ends, the header page holds the new list, no other page
    changes and the page is unpinned.  A name that is there is not inserted again
    and one that is not there is not updated, and neither is reported.  The call
    fails exactly where the insertion does: for an invalid root, and on a page that
    is full. *)
Theorem UpdateRootPageId_correct t s l (insert_record : Z) :
  pool_ok s -> header_at s l -> pins (view s) !! HEADER_PAGE_ID = None -> room 1 s ->
  good_name (tree_name_ t) -> is_signed 32 (root_page_id_ t) ->
  match header_exec (root_op insert_record t) l with
  | Ok (_, l') => exists s', UpdateRootPageId insert_record t s = Ok (tt, s') /\ header_at s' l' /\ within {[HEADER_PAGE_ID]} s s'
  | Err e => UpdateRootPageId insert_record t s = Err e
  end.
Proof.
  intros Hs (Hl & m & Hm & Hrep) Hp Hr Hn Hroot.
  assert (Hop : hp_op_ok (root_op insert_record t)) by (unfold root_op; by destruct (negb _)).
  pose proof (header_exec_ok (root_op insert_record t) m l Hrep Hop) as Hex.
  destruct (fetch_run s HEADER_PAGE_ID Hs Hl ltac:(by exists m) Hp Hr) as (f & s1 & Hrun & [Hs1 Hf Hk Hpin Hsy Hb]).
  assert (Hm1 : logical (view s1) HEADER_PAGE_ID = Some m) by (by apply (keeps_logical _ _ _ Hk)).
  assert (Hp1 : is_Some (pins (view s1) !! HEADER_PAGE_ID)) by (rewrite Hpin, lookup_insert_eq; by eexists).
  pose proof (GetData_spec s1 f HEADER_PAGE_ID m Hs1 Hf Hp1 Hm1) as Hget.
  set (call := if negb (insert_record =? 0) then HP_InsertRecord (tree_name_ t) (root_page_id_ t) m else HP_UpdateRecord (tree_name_ t) (root_page_id_ t) m).
  assert (Hcall : HP_exec (root_op insert_record t) m = let! ' (b, m) := call in Ok (HBool b, m)).
  { unfold root_op, call. by destruct (negb _). }
  assert (Hstart : UpdateRootPageId insert_record t s =
    (do! ' (_, m) := lift call in do! _ := SetData f m in do! _ := UnpinPage HEADER_PAGE_ID true in sret tt) s1).
  { unfold UpdateRootPageId, sbind. rewrite Hrun. cbn [rbind deref]. unfold deref, sret. cbn [rbind]. by rewrite Hget. }
  rewrite Hstart, Hcall in *. destruct (header_exec _ l) as [[a l']|e].
  - destruct Hex as (m' & Hex & Hrep'). apply rbind_ok in Hex as ([b m1] & Hc & [= <- ->]). unfold sbind at 1, lift. rewrite Hc. cbn [rbind].
    assert (Hg : good_data m') by (apply page_good, (hr_size _ _ Hrep')).
    pose proof (SetData_spec s1 f HEADER_PAGE_ID m' Hs1 Hf Hp1 Hg) as Hset. apply wp_run in Hset as ([] & s2 & Hset & Hs2 & Hm2 & Hk2 & Hpin2 & Hb2).
    unfold sbind at 1. rewrite Hset. cbn [rbind].
    assert (Hu : pins (view s2) !! HEADER_PAGE_ID = Some 1) by (by rewrite Hpin2, Hpin, lookup_insert_eq).
    pose proof (UnpinPage_spec s2 HEADER_PAGE_ID 1 true Hs2 Hu ltac:(by left)) as Hun.
    apply wp_run in Hun as (r & s3 & Hun & -> & Hs3 & Hk3 & Hpin3 & Hb3). unfold sbind. rewrite Hun. exists s3. split; [done|].
    assert (Hp3 : pins (view s3) = pins (view s)).
    { rewrite Hpin3, Hpin2, Hpin. unfold pin_sub. cbn. by apply delete_insert_id. }
    split; [|split; [done| |done|]].
    + split; [by apply (keeps_live _ _ _ Hk3), (keeps_live _ _ _ Hk2), (keeps_live _ _ _ Hk)|]. exists m'. split; [by apply (keeps_logical _ _ _ Hk3)|done].
    + eapply evolves_in_trans; [eapply keeps_evolves_in; [|exact Hk]; done|].
      eapply evolves_in_trans; [eapply keeps_evolves_in; [|exact Hk2]; by intros q [= <-]; apply elem_of_singleton|].
      eapply keeps_evolves_in; [|exact Hk3]; done.
    + intros n Hbn. by apply Hb3, Hb2, Hb.
  - unfold sbind, lift. destruct call as [[b m1]|e']; [done|]. by injection Hex as ->.
Qed.
End Root.

(** ** A witness: the first root over a fresh pool, whose first page is the header
    page *)

Section RootConcrete.
#[local] Existing Instance course_config.
#[local] Existing Instance course_table_pages.
Notation pool := (BPI bytes LRUReplacer DiskManager).
Implicit Types (s : pool).

(** A page of zeros holds no record. *)
Lemma header_zero : header_rep zero_page [].
Proof. split; [by vm_compute|by vm_compute| |constructor]. intros i e Hi. by rewrite lookup_nil in Hi. Qed.

Lemma fresh_header : exists s, pool_ok s /\ header_at s [] /\ pins (view s) !! HEADER_PAGE_ID = None /\ room 1 s.
Proof.
  destruct (fresh_pool_inv 3) as (s & Hrun & Hs & Hp & Hf & Hb).
  pose proof (NewPage_spec s 0 Hs (Hb (1 + 0)%nat ltac:(lia)) ltac:(rewrite Hp, Hf, map_size_empty; lia)) as Hnew.
  apply wp_run in Hnew as (r & s1 & Hnew & p & f & -> & Hs1 & _ & _ & Hl1 & _ & _ & Hz & Hk1 & Hp1 & _).
  assert (E : (let! s := fresh_pool 3 in let! ' (r, _) := NewPage s in Ok (fst <$> r)) = Ok (Some 0)) by by vm_compute.
  rewrite Hrun in E. cbn [rbind] in E. rewrite Hnew in E. injection E as ->.
  pose proof (UnpinPage_spec s1 0 1 true Hs1) as Hun. rewrite Hp1, Hp, lookup_insert_eq in Hun. specialize (Hun eq_refl ltac:(by left)).
  apply wp_run in Hun as (r & s2 & Hun & -> & Hs2 & Hk & Hp2 & _). exists s2. change HEADER_PAGE_ID with 0.
  assert (Hp2' : pins (view s2) = ∅) by (rewrite Hp2; unfold pin_sub; cbn; by rewrite delete_insert_id).
  split_and!; [done| |by rewrite Hp2'|unfold room; rewrite Hp2', map_size_empty, (keeps_frames _ _ _ Hk), (keeps_frames _ _ _ Hk1), Hf; lia].
  split; [by apply (keeps_live _ _ _ Hk)|]. exists zero_page. split; [by apply (keeps_logical _ _ _ Hk)|exact header_zero].
Qed.

Lemma UpdateRootPageId_correct_witness :
  exists s s' : pool, header_at s [] /\ UpdateRootPageId 1 (MkBPlusTree [97] 5 0 0) s = Ok (tt, s') /\ header_at s' [([97], 5)].
Proof.
  destruct fresh_header as (s & Hs & Hh & Hp & Hr). exists s.
  destruct (UpdateRootPageId_correct (MkBPlusTree [97] 5 0 0) s [] 1 Hs Hh Hp Hr) as (s' & Hrun & Hh' & _).
  - split; [repeat constructor|simpl; lia].
  - by vm_compute.
  - by exists s'.
Defined.
End RootConcrete.
