(* ===== verification/Executor.v ===== *)
(** The interface of the executors
    ([src/include/execution/executors/abstract_executor.h]) and what an executor
    that only reads promises through it. *)

From S2P Require Import Prelude Bytes Rid BufferPoolManager Value Schema Expression TablePage Transaction TableHeap HashUtil Catalog.

(** ** Definitions *)

(** The virtual methods.  [Next] is given the caller's tuple and record id,
    which it may change, and the fuel of its loops; [None] is the null pointer
    of an executor without output schema. *)
Class AbstractExecutor (S I E : Type) : Type := {
  Init : nat -> E -> M (ExecutorContext S I) E;
  Next : nat -> E -> Tuple * RID -> M (ExecutorContext S I) (bool * (Tuple * RID) * E);
  GetOutputSchema : E -> option (Schema Expression)
}.

(** [std::unique_ptr<AbstractExecutor>]. *)
Record AnyExecutor (S I : Type) : Type := MkAny {
  any_type : Type;
  any_methods : AbstractExecutor S I any_type;
  any_object : any_type
}.
Arguments MkAny {S I} _ _ _. Arguments any_type {S I}. Arguments any_methods {S I}. Arguments any_object {S I}.

(** The tuple and the record id before the first call. *)
Definition no_row : Tuple * RID := (Tuple_default, RID_default).

(** ** The contract *)

(** A row of a result: its values and, from an executor that sets it, its record
    id. *)
Definition qrow : Type := list Value * option RID.

Section Contract.
Context `{Config} {S I E : Type} `{!AbstractExecutor S I E}.
Implicit Types (e : E) (rows : list qrow).

(** [at_rest] holds of the worlds in which the executor runs, and its calls
    keep it.  [stands e o] says where an executor stands: [o] is [None] before
    [Init] and after [Next] found nothing, and the rows left otherwise.  After
    [Init] it has [rows] left, under the schema [s]; [n] is fuel enough for each
    call. *)
Record implements (at_rest : ExecutorContext S I -> Prop) (stands : E -> option (list qrow) -> Prop)
    (s : Schema Expression) rows (n : nat) : Prop := {
  im_width : Forall (fun q => GetColumnCount s = Z.of_nat (length q.1)) rows;
  im_schema e o : stands e o -> GetOutputSchema e = Some s;
  im_init e o w fuel : stands e o -> at_rest w -> (n <= fuel)%nat ->
    wp (Init fuel e) (fun e' w' => at_rest w' /\ stands e' (Some rows)) w;
  im_next e rest w fuel row : stands e (Some rest) -> at_rest w -> (n <= fuel)%nat ->
    wp (Next fuel e row) (fun r w' => at_rest w' /\
      match rest with
      | [] => r.1.1 = false /\ stands r.2 None
      | q :: rest => r.1.1 = true /\ row_of s r.1.2.1 q.1 /\ (forall rid, q.2 = Some rid -> r.1.2.2 = rid)
          /\ stands r.2 (Some rest)
      end) w
}.

Lemma implements_more at_rest stands s rows n n' :
  (n <= n')%nat -> implements at_rest stands s rows n -> implements at_rest stands s rows n'.
Proof.
  intros Hn [Hw Hs Hi Hx]. split; [done|..]; intros *; intros; [by eapply Hs|eapply Hi|eapply Hx]; try done; lia.
Qed.
End Contract.
