(* ===== verification/ReadExecutors.v ===== *)
(** The executors over one child or none that read: sequential scan, limit and
    distinct ([src/execution/seq_scan_executor.cpp], [limit_executor.cpp],
    [distinct_executor.cpp] and their headers), and the index scan, a stub.

    An executor is a record of its members; its children are objects of any
    class of executors.  The plan node's members that it uses are kept with it.
    Loops have fuel. *)

From S2P Require Import Prelude Bytes Rid BufferPoolManager Value Types ValueFactory Schema Expression TablePage TupleValues.
From S2P Require Import Transaction TableHeap HashUtil Catalog Executor.

(** ** Sequential scan *)

Record SeqScanExecutor : Type := MkSeqScan {
  ss_output_ : Schema Expression;
  ss_predicate_ : Expression;
  ss_table_info_ : option TableInfo;
  out_schema_idx_ : list Z;
  cur_ : TableIterator;
  end_ : TableIterator
}.

(** The condition of a plan without predicate. *)
Definition always_true : res Expression := let! v := GetBooleanValue_bool true in Ok (ConstantValueExpression v).
Definition predicate_or_true (predicate : option Expression) : res Expression :=
  match predicate with Some e => Ok e | None => always_true end.

(** The [try] block of the constructor: the indices found, and whether a name
    was not. *)
Fixpoint Resolve_loop (columns : list (Column Expression)) (table_info : option TableInfo) : res (list Z * bool) :=
  match columns with
  | [] => Ok ([], false)
  | c :: columns =>
      let! info := of_option NullDereference table_info in
      match GetColIdx (schema_ info) (column_name_ c) with
      | Ok i => let! ' (l, caught) := Resolve_loop columns table_info in Ok (i :: l, caught)
      | Err StdLogicError => Ok ([], true)
      | Err e => Err e
      end
  end.

(** A name that is not found adds the index of every column after those found. *)
Definition out_schema_idx (output : Schema Expression) (table_info : option TableInfo) : res (list Z) :=
  let! ' (l, caught) := Resolve_loop (columns_ output) table_info in
  Ok (if caught then l ++ seqZ 0 (GetColumnCount output) else l).

Section ReadExecutors.
Context `{Config} `{!HashOrder} {S P I : Type} `{!BufferPoolManager S P bytes}.
Notation X := (M (ExecutorContext S I)).

Definition SeqScan_new (output : Schema Expression) (predicate : option Expression) (table_oid : Z) : X SeqScanExecutor :=
  do! c := get_catalog in
  let table_info := GetTable table_oid c in
  do! idx := lift (out_schema_idx output table_info) in
  do! predicate := lift (predicate_or_true predicate) in
  sret (MkSeqScan output predicate table_info idx (MkTableIterator (MkTuple RID_default [])) (MkTableIterator (MkTuple RID_default []))).

Definition set_cur (cur : TableIterator) (e : SeqScanExecutor) : SeqScanExecutor :=
  MkSeqScan (ss_output_ e) (ss_predicate_ e) (ss_table_info_ e) (out_schema_idx_ e) cur (end_ e).

Definition SeqScan_Init (fuel : nat) (e : SeqScanExecutor) : X SeqScanExecutor :=
  do! info := deref (ss_table_info_ e) in
  do! cur := on_table (TableHeap_Begin fuel (table_ info)) in
  sret (MkSeqScan (ss_output_ e) (ss_predicate_ e) (ss_table_info_ e) (out_schema_idx_ e) cur TableHeap_End).

Fixpoint SeqScan_Next_loop (fuel scan_fuel : nat) (e : SeqScanExecutor) (row : Tuple * RID) :
    X (bool * (Tuple * RID) * SeqScanExecutor) :=
  match fuel with
  | O => fail OutOfFuel
  | Datatypes.S fuel =>
      if negb (TableIterator_eqb (cur_ e) (end_ e)) then
        let temp := cur_ e in
        do! cur := on_table (TableIterator_next scan_fuel (cur_ e)) in
        let e := set_cur cur e in
        do! tuple := lift (TableIterator_deref temp) in
        do! info := deref (ss_table_info_ e) in
        do! value := lift (Evaluate (ss_predicate_ e) tuple (Some (schema_ info))) in
        do! keep := lift (GetAs_bool value) in
        if keep : bool then
          do! values := lift (GetValues_loop tuple (schema_ info) (out_schema_idx_ e)) in
          do! out := lift (Tuple_of_values values (ss_output_ e)) in
          sret (true, (out, tuple_rid_ tuple), e)
        else SeqScan_Next_loop fuel scan_fuel e row
      else sret (false, row, e)
  end.

#[export] Instance SeqScan_executor : AbstractExecutor S I SeqScanExecutor := {
  Init := SeqScan_Init;
  Next fuel := SeqScan_Next_loop fuel fuel;
  GetOutputSchema e := Some (ss_output_ e)
}.

(** ** Limit *)

Record LimitExecutor (C : Type) : Type := MkLimit {
  lm_output_ : Schema Expression;
  lm_limit_ : Z;
  lm_child_ : C;
  num_tuples_ : Z
}.
Arguments MkLimit {C}. Arguments lm_output_ {C}. Arguments lm_limit_ {C}. Arguments lm_child_ {C}. Arguments num_tuples_ {C}.

Section Limit.
Context {C : Type} `{!AbstractExecutor S I C}.

Definition Limit_new (output : Schema Expression) (limit : Z) (child : C) : LimitExecutor C := MkLimit output limit child 0.

Definition Limit_Init (fuel : nat) (e : LimitExecutor C) : X (LimitExecutor C) :=
  do! child := Init fuel (lm_child_ e) in sret (MkLimit (lm_output_ e) (lm_limit_ e) child 0).

Definition Limit_Next (fuel : nat) (e : LimitExecutor C) (row : Tuple * RID) : X (bool * (Tuple * RID) * LimitExecutor C) :=
  let n := num_tuples_ e in
  let e := MkLimit (lm_output_ e) (lm_limit_ e) (lm_child_ e) (unsigned 64 (n + 1)) in
  if n <? lm_limit_ e then
    do! ' (found, row, child) := Next fuel (lm_child_ e) row in
    sret (found, row, MkLimit (lm_output_ e) (lm_limit_ e) child (num_tuples_ e))
  else sret (false, row, e).

#[export] Instance Limit_executor : AbstractExecutor S I (LimitExecutor C) := {
  Init := Limit_Init;
  Next := Limit_Next;
  GetOutputSchema e := Some (lm_output_ e)
}.
End Limit.

(** ** Distinct *)

Record DistinctExecutor (C : Type) : Type := MkDistinct {
  ds_output_ : Schema Expression;
  ds_child_ : C;
  ds_hash_table_ : list (Z * (list Value * unit))
}.
Arguments MkDistinct {C}. Arguments ds_output_ {C}. Arguments ds_child_ {C}. Arguments ds_hash_table_ {C}.

(** The values of all columns. *)
Definition all_values (tuple : Tuple) (s : Schema Expression) : res (list Value) :=
  GetValues_loop tuple s (seqZ 0 (GetColumnCount s)).

Section Distinct.
Context {C : Type} `{!AbstractExecutor S I C}.

Definition Distinct_new (output : Schema Expression) (child : C) : DistinctExecutor C := MkDistinct output child [].

Definition Distinct_Init (fuel : nat) (e : DistinctExecutor C) : X (DistinctExecutor C) :=
  do! child := Init fuel (ds_child_ e) in sret (MkDistinct (ds_output_ e) child []).

Fixpoint Distinct_Next_loop (fuel child_fuel : nat) (e : DistinctExecutor C) (row : Tuple * RID) :
    X (bool * (Tuple * RID) * DistinctExecutor C) :=
  match fuel with
  | O => fail OutOfFuel
  | Datatypes.S fuel =>
      do! ' (found, row, child) := Next child_fuel (ds_child_ e) row in
      let e := MkDistinct (ds_output_ e) child (ds_hash_table_ e) in
      if found : bool then
        do! key := lift (all_values row.1 (ds_output_ e)) in
        do! there := lift (umap_count (hash_values 0) eq_values key (ds_hash_table_ e)) in
        if negb there then
          do! table := lift (umap_insert (hash_values 0) eq_values key tt (ds_hash_table_ e)) in
          sret (true, row, MkDistinct (ds_output_ e) (ds_child_ e) table)
        else Distinct_Next_loop fuel child_fuel e row
      else sret (false, row, e)
  end.

#[export] Instance Distinct_executor : AbstractExecutor S I (DistinctExecutor C) := {
  Init := Distinct_Init;
  Next fuel := Distinct_Next_loop fuel fuel;
  GetOutputSchema e := Some (ds_output_ e)
}.
End Distinct.

(** ** Index scan *)

(** The constructor drops the plan, and [Next] answers that there is nothing;
    the output schema is behind a pointer that is never set. *)
Inductive IndexScanExecutor : Type := MkIndexScan.
Definition IndexScan_Next (row : Tuple * RID) : X (bool * (Tuple * RID) * IndexScanExecutor) := sret (false, row, MkIndexScan).

#[export] Instance IndexScan_executor : AbstractExecutor S I IndexScanExecutor := {
  Init _ e := sret e;
  Next _ _ := IndexScan_Next;
  GetOutputSchema _ := None
}.
End ReadExecutors.
Arguments MkLimit {C}. Arguments lm_output_ {C}. Arguments lm_limit_ {C}. Arguments lm_child_ {C}. Arguments num_tuples_ {C}.
Arguments MkDistinct {C}. Arguments ds_output_ {C}. Arguments ds_child_ {C}. Arguments ds_hash_table_ {C}.
