(* ===== verification/JoinExecutors.v ===== *)
(** The joins ([src/execution/nested_loop_join_executor.cpp],
    [hash_join_executor.cpp] and their headers), and the nested index join, a
    stub. *)

From S2P Require Import Prelude Bytes Rid BufferPoolManager Value Types ValueFactory Schema Expression TablePage TupleValues.
From S2P Require Import Transaction TableHeap HashUtil Catalog Executor ReadExecutors.

Section JoinExecutors.
Context `{Config} {S I : Type}.
Notation X := (M (ExecutorContext S I)).

(** ** Nested-loop join *)

Record NestedLoopJoinExecutor (L R : Type) : Type := MkNestedLoopJoin {
  nl_output_ : Schema Expression;
  nl_left_schema_ : option (Schema Expression);
  nl_right_schema_ : option (Schema Expression);
  nl_predicate_ : Expression;
  nl_left_ : L;
  nl_right_ : R;
  left_tuple_ : Tuple;
  left_rid_ : RID;
  is_left_selected_ : option bool  (* not initialised before [Init] *)
}.
Arguments MkNestedLoopJoin {L R}. Arguments nl_output_ {L R}. Arguments nl_left_schema_ {L R}. Arguments nl_right_schema_ {L R}.
Arguments nl_predicate_ {L R}. Arguments nl_left_ {L R}. Arguments nl_right_ {L R}. Arguments left_tuple_ {L R}.
Arguments left_rid_ {L R}. Arguments is_left_selected_ {L R}.

Section NestedLoopJoin.
Context {L R : Type} `{!AbstractExecutor S I L} `{!AbstractExecutor S I R}.
Notation join := (NestedLoopJoinExecutor L R).

Definition NestedLoopJoin_new (output : Schema Expression) (left_schema right_schema : option (Schema Expression))
    (predicate : option Expression) (left_ : L) (right_ : R) : res join :=
  let! predicate := predicate_or_true predicate in
  Ok (MkNestedLoopJoin output left_schema right_schema predicate left_ right_ Tuple_default RID_default None).

(** The children and the left tuple after calls on them. *)
Definition nl_set (l : L) (r : R) (left_row : Tuple * RID) (selected : option bool) (e : join) : join :=
  MkNestedLoopJoin (nl_output_ e) (nl_left_schema_ e) (nl_right_schema_ e) (nl_predicate_ e) l r left_row.1 left_row.2 selected.

Definition NestedLoopJoin_Init (fuel : nat) (e : join) : X join :=
  do! l := Init fuel (nl_left_ e) in
  do! r := Init fuel (nl_right_ e) in
  do! ' (found, row, l) := Next fuel l (left_tuple_ e, left_rid_ e) in
  sret (nl_set l r row (Some found) e).

(** The values of an output row, one round per column. *)
Fixpoint Join_loop (columns : list (Column Expression)) (left_value right_value : Z -> res Value) : res (list Value) :=
  match columns with
  | [] => Ok []
  | column :: columns =>
      let! ' (tuple_idx, col_idx) := as_column (expr_ column) in
      let! v := if tuple_idx =? 0 then left_value col_idx else right_value col_idx in
      let! values := Join_loop columns left_value right_value in
      Ok (v :: values)
  end.

(** The loops of [Next], a round per call of the right child. *)
Fixpoint NestedLoopJoin_loop (fuel child_fuel : nat) (e : join) (right_row row : Tuple * RID) : X (bool * (Tuple * RID) * join) :=
  match fuel with
  | O => fail OutOfFuel
  | Datatypes.S fuel =>
      do! ' (found, right_row, r) := Next child_fuel (nl_right_ e) right_row in
      let e := nl_set (nl_left_ e) r (left_tuple_ e, left_rid_ e) (is_left_selected_ e) e in
      if negb found then
        do! ' (found, left_row, l) := Next child_fuel (nl_left_ e) (left_tuple_ e, left_rid_ e) in
        let e := nl_set l (nl_right_ e) left_row (is_left_selected_ e) e in
        if negb found then sret (false, row, e) else
        do! r := Init child_fuel (nl_right_ e) in
        NestedLoopJoin_loop fuel child_fuel (nl_set (nl_left_ e) r (left_tuple_ e, left_rid_ e) (is_left_selected_ e) e) right_row row
      else
        do! value := lift (EvaluateJoin (nl_predicate_ e) (left_tuple_ e) (nl_left_schema_ e) right_row.1 (nl_right_schema_ e)) in
        do! keep := lift (GetAs_bool value) in
        if keep : bool then
          do! values := lift (Join_loop (columns_ (nl_output_ e)) (value_under (nl_left_schema_ e) (left_tuple_ e))
                                (value_under (nl_right_schema_ e) right_row.1)) in
          do! out := lift (Tuple_of_values values (nl_output_ e)) in
          sret (true, (out, tuple_rid_ (left_tuple_ e)), e)
        else NestedLoopJoin_loop fuel child_fuel e right_row row
  end.

Definition NestedLoopJoin_Next (fuel : nat) (e : join) (row : Tuple * RID) : X (bool * (Tuple * RID) * join) :=
  match is_left_selected_ e with
  | None => fail InvalidBool
  | Some false => sret (false, row, e)
  | Some true => NestedLoopJoin_loop fuel fuel e no_row row
  end.

#[export] Instance NestedLoopJoin_executor : AbstractExecutor S I join := {
  Init := NestedLoopJoin_Init;
  Next := NestedLoopJoin_Next;
  GetOutputSchema e := Some (nl_output_ e)
}.
End NestedLoopJoin.

(** ** Hash join *)

Record HashJoinExecutor (L R : Type) : Type := MkHashJoin {
  hj_output_ : Schema Expression;
  hj_right_schema_ : option (Schema Expression);
  hj_right_key_ : Expression;
  hj_left_ : L;
  hj_right_ : R;
  next_pos_ : Z;
  hj_hash_table_ : list (Z * (Value * list (list Value)));
  outer_table_buffer_ : list (list Value)
}.
Arguments MkHashJoin {L R}. Arguments hj_output_ {L R}. Arguments hj_right_schema_ {L R}. Arguments hj_right_key_ {L R}.
Arguments hj_left_ {L R}. Arguments hj_right_ {L R}. Arguments next_pos_ {L R}. Arguments hj_hash_table_ {L R}.
Arguments outer_table_buffer_ {L R}.

(** [operator==] of [HashJoinKey]. *)
Definition eq_value (key other : Value) : res bool :=
  let! c := Value_CompareEquals key other in Ok (bool_decide (c = CmpTrue)).

Section HashJoin.
Context {L R : Type} `{!AbstractExecutor S I L} `{!AbstractExecutor S I R}.
Notation join := (HashJoinExecutor L R).
Notation table := (list (Z * (Value * list (list Value)))).

(** The insertion of one row of the left child. *)
Definition HashJoin_insert (key : Value) (values : list Value) (t : table) : res table :=
  let! there := umap_count HashValue eq_value key t in
  if there : bool then umap_at HashValue eq_value key [] (fun l => Ok (l ++ [values])) t
  else umap_insert HashValue eq_value key [values] t.

(** The loop of the constructor; the tuple and the id are locals of it. *)
Fixpoint HashJoin_build (fuel child_fuel : nat) (left_schema : option (Schema Expression)) (left_key : Expression) (l : L)
    (row : Tuple * RID) (t : table) : X (L * table) :=
  match fuel with
  | O => fail OutOfFuel
  | Datatypes.S fuel =>
      do! ' (found, row, l) := Next child_fuel l row in
      if found : bool then
        do! key := lift (Evaluate left_key row.1 left_schema) in
        do! s := deref left_schema in
        do! values := lift (all_values row.1 s) in
        do! t := lift (HashJoin_insert key values t) in
        HashJoin_build fuel child_fuel left_schema left_key l row t
      else sret (l, t)
  end.

Definition HashJoin_new (fuel : nat) (output : Schema Expression) (left_schema right_schema : option (Schema Expression))
    (left_key right_key : Expression) (l : L) (r : R) : X join :=
  do! l := Init fuel l in
  do! r := Init fuel r in
  do! ' (l, t) := HashJoin_build fuel fuel left_schema left_key l no_row [] in
  sret (MkHashJoin output right_schema right_key l r 0 t []).

Definition hj_set (l : L) (r : R) (next_pos : Z) (buffer : list (list Value)) (e : join) : join :=
  MkHashJoin (hj_output_ e) (hj_right_schema_ e) (hj_right_key_ e) l r next_pos (hj_hash_table_ e) buffer.

Definition HashJoin_Init (fuel : nat) (e : join) : X join :=
  do! l := Init fuel (hj_left_ e) in
  do! r := Init fuel (hj_right_ e) in
  sret (hj_set l r 0 [] e).

(** The search of the next right tuple with a match: the tuple goes through the
    caller's [tuple]. *)
Fixpoint HashJoin_probe (fuel child_fuel : nat) (e : join) (row : Tuple * RID) : X (bool * (Tuple * RID) * join) :=
  match fuel with
  | O => fail OutOfFuel
  | Datatypes.S fuel =>
      do! ' (found, row, r) := Next child_fuel (hj_right_ e) row in
      let e := hj_set (hj_left_ e) r (next_pos_ e) (outer_table_buffer_ e) e in
      if found : bool then
        do! value := lift (Evaluate (hj_right_key_ e) row.1 (hj_right_schema_ e)) in
        do! i := lift (umap_find HashValue eq_value value (hj_hash_table_ e)) in
        match i ≫= fun i => hj_hash_table_ e !! i with
        | Some (_, (_, rows)) => sret (true, row, hj_set (hj_left_ e) (hj_right_ e) 0 rows e)
        | None => HashJoin_probe fuel child_fuel e row
        end
      else sret (false, row, e)
  end.

(** The rest of [Next]: an output row, whose right part is read from the caller's
    tuple. *)
Definition HashJoin_emit (e : join) (row : Tuple * RID) : res (bool * (Tuple * RID) * join) :=
  let left_value col_idx := let! values := zlookup (outer_table_buffer_ e) (next_pos_ e) in zlookup values col_idx in
  let! values := Join_loop (columns_ (hj_output_ e)) left_value (value_under (hj_right_schema_ e) row.1) in
  let! out := Tuple_of_values values (hj_output_ e) in
  Ok (true, (out, row.2), hj_set (hj_left_ e) (hj_right_ e) (unsigned 64 (next_pos_ e + 1)) (outer_table_buffer_ e) e).

Definition HashJoin_Next (fuel : nat) (e : join) (row : Tuple * RID) : X (bool * (Tuple * RID) * join) :=
  if Z.of_nat (length (outer_table_buffer_ e)) <=? next_pos_ e then
    do! ' (is_find, row, e) := HashJoin_probe fuel fuel e row in
    if negb is_find then sret (false, row, e) else lift (HashJoin_emit e row)
  else lift (HashJoin_emit e row).

#[export] Instance HashJoin_executor : AbstractExecutor S I join := {
  Init := HashJoin_Init;
  Next := HashJoin_Next;
  GetOutputSchema e := Some (hj_output_ e)
}.
End HashJoin.

(** ** Nested index join: a stub *)

Inductive NestIndexJoinExecutor : Type := MkNestIndexJoin.
Definition NestIndexJoin_Next (row : Tuple * RID) : X (bool * (Tuple * RID) * NestIndexJoinExecutor) :=
  sret (false, row, MkNestIndexJoin).

#[export] Instance NestIndexJoin_executor : AbstractExecutor S I NestIndexJoinExecutor := {
  Init _ e := sret e;
  Next _ _ := NestIndexJoin_Next;
  GetOutputSchema _ := None
}.
End JoinExecutors.
Arguments MkNestedLoopJoin {L R}. Arguments nl_output_ {L R}. Arguments nl_left_schema_ {L R}. Arguments nl_right_schema_ {L R}.
Arguments nl_predicate_ {L R}. Arguments nl_left_ {L R}. Arguments nl_right_ {L R}. Arguments left_tuple_ {L R}.
Arguments left_rid_ {L R}. Arguments is_left_selected_ {L R}.
Arguments MkHashJoin {L R}. Arguments hj_output_ {L R}. Arguments hj_right_schema_ {L R}. Arguments hj_right_key_ {L R}.
Arguments hj_left_ {L R}. Arguments hj_right_ {L R}. Arguments next_pos_ {L R}. Arguments hj_hash_table_ {L R}.
Arguments outer_table_buffer_ {L R}.
