(* ===== verification/AggregationExecutor.v ===== *)
(** Aggregation ([src/execution/aggregation_executor.cpp],
    [src/include/execution/executors/aggregation_executor.h] and the keys and
    values of [plans/aggregation_plan.h]).

    An [AggregateKey] and an [AggregateValue] are their lists of values.  The
    constructor reads the child and fills the hash table; [Next] traverses it in
    the order of the container. *)

From S2P Require Import Prelude Bytes Rid BufferPoolManager Value Types ValueFactory Schema Expression TablePage TupleValues.
From S2P Require Import Transaction TableHeap HashUtil Catalog Executor.

(** ** The hash table *)

Notation agg_table := (list (Z * (list Value * list Value))).

Fixpoint GenerateInitialAggregateValue (agg_types : list AggregationType) : res (list Value) :=
  match agg_types with
  | [] => Ok []
  | t :: agg_types =>
      let! v := match t with
                | CountAggregate | SumAggregate => GetIntegerValue 0
                | MinAggregate => GetIntegerValue BUSTUB_INT32_MAX
                | MaxAggregate => GetIntegerValue BUSTUB_INT32_MIN
                end in
      let! vs := GenerateInitialAggregateValue agg_types in
      Ok (v :: vs)
  end.

(** One round of [CombineAggregateValues]. *)
Definition combine_one (t : AggregationType) (result input : Value) : res Value :=
  match t with
  | CountAggregate => let! one := GetIntegerValue 1 in Value_Add result one
  | SumAggregate => Value_Add result input
  | MinAggregate => Value_Min result input
  | MaxAggregate => Value_Max result input
  end.

(** [n] rounds from [i] on; a count does not read its input. *)
Fixpoint Combine_loop (n : nat) (i : Z) (agg_types : list AggregationType) (result input : list Value) : res (list Value) :=
  match n with
  | O => Ok result
  | S n =>
      let! t := zlookup agg_types i in
      let! r := zlookup result i in
      let! v := match t with
                | CountAggregate => combine_one t r r
                | _ => let! x := zlookup input i in combine_one t r x
                end in
      let! result := zupdate result i v in
      Combine_loop n (i + 1) agg_types result input
  end.
Definition CombineAggregateValues (agg_exprs : list Expression) (agg_types : list AggregationType) (result input : list Value) :
    res (list Value) :=
  Combine_loop (length agg_exprs) 0 agg_types result input.

Definition InsertCombine (agg_exprs : list Expression) (agg_types : list AggregationType) (agg_key agg_val : list Value)
    (ht : agg_table) : res agg_table :=
  let! there := umap_count (hash_values 0) eq_values agg_key ht in
  let! ht :=
    if there : bool then Ok ht
    else let! v := GenerateInitialAggregateValue agg_types in umap_insert (hash_values 0) eq_values agg_key v ht in
  umap_at (hash_values 0) eq_values agg_key [] (fun result => CombineAggregateValues agg_exprs agg_types result agg_val) ht.

(** ** The executor *)

Record AggregationExecutor (C : Type) : Type := MkAggregation {
  ag_output_ : Schema Expression;
  ag_having_ : option Expression;
  ag_child_ : C;
  aht_ : agg_table;
  aht_iterator_ : list (list Value * list Value)
}.
Arguments MkAggregation {C}. Arguments ag_output_ {C}. Arguments ag_having_ {C}. Arguments ag_child_ {C}.
Arguments aht_ {C}. Arguments aht_iterator_ {C}.

(** The values of expressions on a tuple of the child. *)
Fixpoint evaluate_all (exprs : list Expression) (tuple : Tuple) (s : option (Schema Expression)) `{Config} : res (list Value) :=
  match exprs with
  | [] => Ok []
  | e :: exprs =>
      let! v := Evaluate e tuple s in
      let! vs := evaluate_all exprs tuple s in
      Ok (v :: vs)
  end.

Section Aggregation.
Context `{Config} `{!HashOrder} {S I C : Type} `{!AbstractExecutor S I C}.
Notation X := (M (ExecutorContext S I)).

(** The loop of the constructor: [key] stays what it is when there is nothing to
    group by. *)
Fixpoint Aggregation_build (fuel child_fuel : nat) (group_bys agg_exprs : list Expression) (agg_types : list AggregationType)
    (child : C) (row : Tuple * RID) (key : list Value) (ht : agg_table) : X (C * agg_table) :=
  match fuel with
  | O => fail OutOfFuel
  | Datatypes.S fuel =>
      do! ' (found, row, child) := Next child_fuel child row in
      if found : bool then
        do! key := lift (match group_bys with [] => Ok key | _ => evaluate_all group_bys row.1 (GetOutputSchema child) end) in
        do! value := lift (evaluate_all agg_exprs row.1 (GetOutputSchema child)) in
        do! ht := lift (InsertCombine agg_exprs agg_types key value ht) in
        Aggregation_build fuel child_fuel group_bys agg_exprs agg_types child row key ht
      else sret (child, ht)
  end.

Definition Aggregation_new (fuel : nat) (output : Schema Expression) (having : option Expression)
    (group_bys agg_exprs : list Expression) (agg_types : list AggregationType) (child : C) : X (AggregationExecutor C) :=
  do! key := lift (GenerateInitialAggregateValue agg_types) in
  do! child := Init fuel child in
  do! ' (child, ht) := Aggregation_build fuel fuel group_bys agg_exprs agg_types child no_row key [] in
  sret (MkAggregation output having child ht []).

Definition Aggregation_Init (fuel : nat) (e : AggregationExecutor C) : X (AggregationExecutor C) :=
  do! child := Init fuel (ag_child_ e) in
  sret (MkAggregation (ag_output_ e) (ag_having_ e) child (aht_ e) (hash_order (umap_elements (aht_ e)))).

(** The values of an output row. *)
Fixpoint Output_loop (columns : list (Column Expression)) (group_bys aggregates : list Value) : res (list Value) :=
  match columns with
  | [] => Ok []
  | column :: columns =>
      let! e := of_option NullDereference (expr_ column) in
      let! v := EvaluateAggregate e group_bys aggregates in
      let! vs := Output_loop columns group_bys aggregates in
      Ok (v :: vs)
  end.

(** [Next] from an iterator on: the row, if any, and the iterator behind it. *)
Fixpoint Aggregation_Next_loop (output : Schema Expression) (having : option Expression) (it : list (list Value * list Value)) :
    res (option Tuple * list (list Value * list Value)) :=
  match it with
  | [] => Ok (None, [])
  | (key, val) :: it =>
      let! keep :=
        match having with
        | Some having => let! value := EvaluateAggregate having key val in GetAs_bool value
        | None => Ok true
        end in
      if keep : bool then
        let! values := Output_loop (columns_ output) key val in
        let! out := Tuple_of_values values output in
        Ok (Some out, it)
      else Aggregation_Next_loop output having it
  end.

Definition Aggregation_Next (fuel : nat) (e : AggregationExecutor C) (row : Tuple * RID) :
    X (bool * (Tuple * RID) * AggregationExecutor C) :=
  do! ' (out, it) := lift (Aggregation_Next_loop (ag_output_ e) (ag_having_ e) (aht_iterator_ e)) in
  let e := MkAggregation (ag_output_ e) (ag_having_ e) (ag_child_ e) (aht_ e) it in
  match out with
  | Some out => sret (true, (out, row.2), e)
  | None => sret (false, row, e)
  end.

#[export] Instance Aggregation_executor : AbstractExecutor S I (AggregationExecutor C) := {
  Init := Aggregation_Init;
  Next := Aggregation_Next;
  GetOutputSchema e := Some (ag_output_ e)
}.
End Aggregation.
