(* ===== verification/WriteExecutors.v ===== *)
(** The executors that change a table: insert, update and delete
    ([src/execution/insert_executor.cpp], [update_executor.cpp],
    [delete_executor.cpp] and their headers). *)

From S2P Require Import Prelude Bytes Rid BufferPoolManager Value Types ValueFactory Schema Expression TablePage TupleValues.
From S2P Require Import Transaction TableHeap HashUtil Catalog Executor.

Section WriteExecutors.
Context `{Config} `{!HashOrder} {S P I : Type} `{!BufferPoolManager S P bytes} `{!Index S I}.
Notation X := (M (ExecutorContext S I)).

(** The part the constructors share: the table, which has to exist, and its
    indexes. *)
Definition table_and_indexes (table_oid : Z) : X (TableInfo * list (IndexInfo I)) :=
  do! c := get_catalog in
  do! info := deref (GetTable table_oid c) in
  do! indexes := lift (GetTableIndexes (name_ info) c) in
  sret (info, indexes).

(** ** Insert *)

Record InsertExecutor (C : Type) : Type := MkInsert {
  in_raw_values_ : list (list Value);
  in_table_info_ : TableInfo;
  in_index_info_array_ : list (IndexInfo I);
  in_child_ : option C;  (* none for a raw insert *)
  next_insert_pos_ : Z
}.
Arguments MkInsert {C}. Arguments in_raw_values_ {C}. Arguments in_table_info_ {C}. Arguments in_index_info_array_ {C}.
Arguments in_child_ {C}. Arguments next_insert_pos_ {C}.

(** The entry of a tuple in every index. *)
Fixpoint insert_entries (indexes : list (IndexInfo I)) (schema : Schema Expression) (tuple : Tuple) (rid : RID) : X unit :=
  match indexes with
  | [] => sret tt
  | info :: indexes =>
      do! key := lift (Tuple_KeyFromTuple tuple schema (key_schema_ info) (GetKeyAttrs (index_ info))) in
      do! _ := on_bpm (InsertEntry (index_ info) key rid) in
      insert_entries indexes schema tuple rid
  end.

Section Insert.
Context {C : Type} `{!AbstractExecutor S I C}.

Definition Insert_new (raw_values : list (list Value)) (table_oid : Z) (child : option C) : X (InsertExecutor C) :=
  do! ' (info, indexes) := table_and_indexes table_oid in
  sret (MkInsert raw_values info indexes child 0).

Definition Insert_Init (fuel : nat) (e : InsertExecutor C) : X (InsertExecutor C) :=
  match in_child_ e with
  | Some child =>
      do! child := Init fuel child in
      sret (MkInsert (in_raw_values_ e) (in_table_info_ e) (in_index_info_array_ e) (Some child) 0)
  | None => sret (MkInsert (in_raw_values_ e) (in_table_info_ e) (in_index_info_array_ e) None 0)
  end.

(** [table_->InsertTuple(tuple, rid, ...)]: the id is set when it succeeds. *)
Definition insert_into_table (fuel : nat) (info : TableInfo) (row : Tuple * RID) : X (bool * (Tuple * RID)) :=
  do! r := on_table (TableHeap_InsertTuple fuel (table_ info) row.1) in
  match r with
  | Some rid => sret (true, (row.1, rid))
  | None => sret (false, row)
  end.

Definition Insert_Next (fuel : nat) (e : InsertExecutor C) (row : Tuple * RID) : X (bool * (Tuple * RID) * InsertExecutor C) :=
  let info := in_table_info_ e in
  do! ' (is_inserted, row, e) :=
    match in_child_ e with
    | None =>
        if next_insert_pos_ e =? unsigned 64 (Z.of_nat (length (in_raw_values_ e))) then sret (false, row, e) else
        do! values := lift (zlookup (in_raw_values_ e) (next_insert_pos_ e)) in
        let e := MkInsert (in_raw_values_ e) info (in_index_info_array_ e) None (unsigned 64 (next_insert_pos_ e + 1)) in
        do! tuple := lift (Tuple_of_values values (schema_ info)) in
        do! ' (b, row) := insert_into_table fuel info (tuple, row.2) in
        sret (b, row, e)
    | Some child =>
        do! ' (found, row, child) := Next fuel child row in
        let e := MkInsert (in_raw_values_ e) info (in_index_info_array_ e) (Some child) (next_insert_pos_ e) in
        if found : bool then
          do! ' (b, row) := insert_into_table fuel info row in
          sret (b, row, e)
        else sret (false, row, e)
    end in
  do! _ := if is_inserted : bool then insert_entries (in_index_info_array_ e) (schema_ info) row.1 row.2 else sret tt in
  sret (is_inserted, row, e).

#[export] Instance Insert_executor : AbstractExecutor S I (InsertExecutor C) := {
  Init := Insert_Init;
  Next := Insert_Next;
  GetOutputSchema _ := None
}.
End Insert.

(** ** Delete *)

Record DeleteExecutor (C : Type) : Type := MkDelete {
  de_table_info_ : TableInfo;
  de_index_info_array_ : list (IndexInfo I);
  de_child_ : C
}.
Arguments MkDelete {C}. Arguments de_table_info_ {C}. Arguments de_index_info_array_ {C}. Arguments de_child_ {C}.

Fixpoint delete_entries (indexes : list (IndexInfo I)) (schema : Schema Expression) (tuple : Tuple) (rid : RID) : X unit :=
  match indexes with
  | [] => sret tt
  | info :: indexes =>
      do! key := lift (Tuple_KeyFromTuple tuple schema (key_schema_ info) (GetKeyAttrs (index_ info))) in
      do! _ := on_bpm (DeleteEntry (index_ info) key rid) in
      delete_entries indexes schema tuple rid
  end.

Section Delete.
Context {C : Type} `{!AbstractExecutor S I C}.

(** The constructor runs the child's [Init]; [Init] does nothing. *)
Definition Delete_new (fuel : nat) (table_oid : Z) (child : C) : X (DeleteExecutor C) :=
  do! ' (info, indexes) := table_and_indexes table_oid in
  do! child := Init fuel child in
  sret (MkDelete info indexes child).

Definition Delete_Next (fuel : nat) (e : DeleteExecutor C) (row : Tuple * RID) : X (bool * (Tuple * RID) * DeleteExecutor C) :=
  let info := de_table_info_ e in
  do! ' (found, row, child) := Next fuel (de_child_ e) row in
  let e := MkDelete info (de_index_info_array_ e) child in
  do! is_deleted := if found : bool then on_table (TableHeap_MarkDelete (table_ info) row.2) else sret false in
  do! _ := if is_deleted : bool then delete_entries (de_index_info_array_ e) (schema_ info) row.1 row.2 else sret tt in
  sret (is_deleted, row, e).

#[export] Instance Delete_executor : AbstractExecutor S I (DeleteExecutor C) := {
  Init _ e := sret e;
  Next := Delete_Next;
  GetOutputSchema _ := None
}.
End Delete.

(** ** Update *)

Record UpdateExecutor (C : Type) : Type := MkUpdate {
  up_update_attrs_ : gmap Z UpdateInfo;
  up_table_info_ : TableInfo;
  up_index_info_array_ : list (IndexInfo I);
  up_child_ : C
}.
Arguments MkUpdate {C}. Arguments up_update_attrs_ {C}. Arguments up_table_info_ {C}. Arguments up_index_info_array_ {C}.
Arguments up_child_ {C}.

(** The loop of [GenerateUpdatedTuple], over the columns of [idxs]. *)
Fixpoint Updated_loop (idxs : list Z) (update_attrs : gmap Z UpdateInfo) (src_tuple : Tuple) (schema : Schema Expression) :
    res (list Value) :=
  match idxs with
  | [] => Ok []
  | idx :: idxs =>
      let! val := Tuple_GetValue src_tuple schema idx in
      let! val :=
        match update_attrs !! idx with
        | None => Ok val
        | Some info =>
            let! update_val := GetIntegerValue (update_val_ info) in
            match update_type_ info with
            | UpdateAdd => Value_Add val update_val
            | UpdateSet => Ok update_val
            end
        end in
      let! values := Updated_loop idxs update_attrs src_tuple schema in
      Ok (val :: values)
  end.
Definition GenerateUpdatedTuple (update_attrs : gmap Z UpdateInfo) (schema : Schema Expression) (src_tuple : Tuple) : res Tuple :=
  let! values := Updated_loop (seqZ 0 (GetColumnCount schema)) update_attrs src_tuple schema in
  Tuple_of_values values schema.

(** The entries of the new tuple in place of those of the old one. *)
Fixpoint update_entries (indexes : list (IndexInfo I)) (schema : Schema Expression) (new_tuple tuple : Tuple) (rid : RID) : X unit :=
  match indexes with
  | [] => sret tt
  | info :: indexes =>
      do! index_key := lift (Tuple_KeyFromTuple new_tuple schema (key_schema_ info) (GetKeyAttrs (index_ info))) in
      do! old_index := lift (Tuple_KeyFromTuple tuple schema (key_schema_ info) (GetKeyAttrs (index_ info))) in
      do! _ := on_bpm (DeleteEntry (index_ info) old_index rid) in
      do! _ := on_bpm (InsertEntry (index_ info) index_key rid) in
      update_entries indexes schema new_tuple tuple rid
  end.

Section Update.
Context {C : Type} `{!AbstractExecutor S I C}.

Definition Update_new (update_attrs : gmap Z UpdateInfo) (table_oid : Z) (child : C) : X (UpdateExecutor C) :=
  do! ' (info, indexes) := table_and_indexes table_oid in
  sret (MkUpdate update_attrs info indexes child).

Definition Update_Init (fuel : nat) (e : UpdateExecutor C) : X (UpdateExecutor C) :=
  do! child := Init fuel (up_child_ e) in
  sret (MkUpdate (up_update_attrs_ e) (up_table_info_ e) (up_index_info_array_ e) child).

Definition Update_Next (fuel : nat) (e : UpdateExecutor C) (row : Tuple * RID) : X (bool * (Tuple * RID) * UpdateExecutor C) :=
  let info := up_table_info_ e in
  do! ' (found, row, child) := Next fuel (up_child_ e) row in
  let e := MkUpdate (up_update_attrs_ e) info (up_index_info_array_ e) child in
  if found : bool then
    do! new_tuple := lift (GenerateUpdatedTuple (up_update_attrs_ e) (schema_ info) row.1) in
    do! is_updated := on_table (TableHeap_UpdateTuple (table_ info) new_tuple row.2) in
    do! _ := if is_updated : bool then update_entries (up_index_info_array_ e) (schema_ info) new_tuple row.1 row.2 else sret tt in
    sret (is_updated, row, e)
  else sret (false, row, e).

#[export] Instance Update_executor : AbstractExecutor S I (UpdateExecutor C) := {
  Init := Update_Init;
  Next := Update_Next;
  GetOutputSchema _ := None
}.
End Update.
End WriteExecutors.
