(* ===== verification/ExecutionEngine.v ===== *)
(** The executor factory ([src/execution/executor_factory.cpp]) and the execution
    engine ([src/include/execution/execution_engine.h]).

    The engine catches the exceptions of the program's own class while it runs
    the executor; the world after a caught exception is not described. *)

From S2P Require Import Prelude Bytes Rid BufferPoolManager Value Types ValueFactory Schema Expression TablePage TupleValues.
From S2P Require Import Transaction TableHeap HashUtil Catalog Executor ReadExecutors JoinExecutors AggregationExecutor WriteExecutors.

(** ** Definitions *)

Section ExecutionEngine.
Context `{Config} `{!HashOrder} {S P I : Type} `{!BufferPoolManager S P bytes} `{!Index S I}.
Notation X := (M (ExecutorContext S I)).
Notation any := (AnyExecutor S I).

(** [std::make_unique<E>(...)]. *)
Definition make {E} `{!AbstractExecutor S I E} (e : E) : any := MkAny E _ e.

(** [CreateExecutor]; [fuel] is for the loops of the constructors. *)
Fixpoint CreateExecutor (fuel : nat) (plan : PlanNode) : X any :=
  match plan with
  | SeqScanPlanNode output predicate table_oid =>
      do! e := SeqScan_new output predicate table_oid in sret (make e)
  | IndexScanPlanNode _ _ _ => sret (make MkIndexScan)
  | RawInsertPlanNode raw_values table_oid =>
      do! e := Insert_new (C := IndexScanExecutor) raw_values table_oid None in sret (make e)
  | InsertPlanNode child table_oid =>
      do! ' (MkAny C methods child) := CreateExecutor fuel child in
      do! e := Insert_new [] table_oid (Some child) in sret (make e)
  | UpdatePlanNode child table_oid update_attrs =>
      do! ' (MkAny C methods child) := CreateExecutor fuel child in
      do! e := Update_new update_attrs table_oid child in sret (make e)
  | DeletePlanNode child table_oid =>
      do! ' (MkAny C methods child) := CreateExecutor fuel child in
      do! e := Delete_new fuel table_oid child in sret (make e)
  | LimitPlanNode output child limit =>
      do! ' (MkAny C methods child) := CreateExecutor fuel child in sret (make (Limit_new output limit child))
  | DistinctPlanNode output child =>
      do! ' (MkAny C methods child) := CreateExecutor fuel child in sret (make (Distinct_new output child))
  | AggregationPlanNode output child having group_bys aggregates agg_types =>
      do! ' (MkAny C methods child) := CreateExecutor fuel child in
      do! e := Aggregation_new fuel output having group_bys aggregates agg_types child in sret (make e)
  | NestedLoopJoinPlanNode output left_plan right_plan predicate =>
      do! ' (MkAny L methods_l l) := CreateExecutor fuel left_plan in
      do! ' (MkAny R methods_r r) := CreateExecutor fuel right_plan in
      do! e := lift (NestedLoopJoin_new output (OutputSchema left_plan) (OutputSchema right_plan) predicate l r) in sret (make e)
  | NestedIndexJoinPlanNode _ child _ _ _ _ _ =>
      do! _ := CreateExecutor fuel child in sret (make MkNestIndexJoin)
  | HashJoinPlanNode output left_plan right_plan left_key right_key =>
      do! ' (MkAny L methods_l l) := CreateExecutor fuel left_plan in
      do! ' (MkAny R methods_r r) := CreateExecutor fuel right_plan in
      do! e := HashJoin_new fuel output (OutputSchema left_plan) (OutputSchema right_plan) left_key right_key l r in sret (make e)
  end.

(** The loop of [Execute]: the tuples produced. *)
Fixpoint Execute_loop {E} `{!AbstractExecutor S I E} (fuel exec_fuel : nat) (e : E) (row : Tuple * RID) (result_set : list Tuple) :
    X (list Tuple) :=
  match fuel with
  | O => fail OutOfFuel
  | Datatypes.S fuel =>
      do! ' (found, row, e) := Next exec_fuel e row in
      if found : bool then Execute_loop fuel exec_fuel e row (result_set ++ [row.1]) else sret result_set
  end.

Definition modifies (plan : PlanNode) : bool :=
  bool_decide (GetType plan = Insert) || bool_decide (GetType plan = Update) || bool_decide (GetType plan = Delete).

(** [Execute] with a result set: the answer, the tuples and the world, or [None]
    for an exception that was caught.  What the constructors and [Init] throw is
    not caught. *)
Definition Execute (fuel : nat) (plan : PlanNode) (w : ExecutorContext S I) :
    res (bool * option (list Tuple * ExecutorContext S I)) :=
  let! ' (MkAny E methods executor, w) := CreateExecutor fuel plan w in
  let! ' (executor, w) := Init fuel executor w in
  match Execute_loop fuel fuel executor no_row [] w with
  | Ok (tuples, w) => Ok (true, Some (if modifies plan then [] else tuples, w))
  | Err (Raised _) => Ok (false, None)
  | Err e => Err e
  end.
End ExecutionEngine.
