(* ===== verification/QuerySemantics.v ===== *)
(** What a query means: a reference evaluator of plans over tables of rows of
    values.

    An error stands for what the reference does not define: the errors of
    the values' operations, rows that do not fit their schema, keys that are null
    or of mixed types, hash joins with several left rows for one key, plans that
    change tables, and the executors that are stubs. *)

From S2P Require Import Prelude Bytes Ieee Value Types TypesCorrect Rid Schema Expression TablePage TupleCorrect TableHeap HashUtil Catalog Executor.
From S2P Require Import ReadExecutors JoinExecutors AggregationExecutor.

(** ** Decisions *)

(** [fits], decided for the values a table can hold. *)
Definition fits_int_b (t : TypeId) (T : int_type) (v : Value) : bool :=
  match value_ v with VInt z => bool_decide (is_signed (bits T) z) && bool_decide (v = int_value t T z) | _ => false end.
Definition fits_b (t : TypeId) (v : Value) : bool :=
  match t with
  | BOOLEAN => fits_int_b t int8_t v
  | TINYINT => fits_int_b t int8_t v
  | SMALLINT => fits_int_b t int16_t v
  | INTEGER => fits_int_b t int32_t v
  | BIGINT => fits_int_b t int64_t v
  | DECIMAL => match value_ v with VDecimal d => bool_decide (is_double d) && bool_decide (v = decimal_value d) | _ => false end
  | VARCHAR =>
      match value_ v with
      | VVarlen (Some bs) => (Z.of_nat (length bs) <? BUSTUB_VALUE_NULL)
          && bool_decide (v = MkValue VARCHAR (VVarlen (Some bs)) (Z.of_nat (length bs)) true)
      | _ => false
      end
  | TIMESTAMP | INVALID => false
  end.

Lemma fits_b_sound t v : fits_b t v = true -> fits t v.
Proof.
  intros Hb.
  assert (Hint : forall T, fits_int_b t T v = true -> exists z, is_signed (bits T) z /\ v = int_value t T z).
  { intros T. unfold fits_int_b. destruct (value_ v) as [|z| |]; try done. intros [H1%bool_decide_eq_true H2%bool_decide_eq_true]%andb_true_iff.
    by exists z. }
  destruct t; try done; cbn [fits_b] in Hb.
  1-5: apply Hint in Hb as (z & Hz & ->); unfold fits, storable, wf_value; simpl; split_and!; [done|by exists z|done].
  - destruct (value_ v) as [| |d|] eqn:Ev; try done. apply andb_true_iff in Hb as [H1%bool_decide_eq_true H2%bool_decide_eq_true].
    rewrite H2. unfold fits, storable. simpl. split_and!; [done|by exists d|done].
  - destruct (value_ v) as [| | |[bs|]] eqn:Ev; try done. apply andb_true_iff in Hb as [H1%Z.ltb_lt H2%bool_decide_eq_true].
    rewrite H2. unfold fits, storable. simpl. split_and!; [done|right; by exists bs|done].
Qed.

Definition fits_row_b (s : Schema Expression) (row : list Value) : bool :=
  bool_decide (length (columns_ s) = length row)
  && forallb (fun cv => fits_b (column_type_ cv.1) cv.2) (zip (columns_ s) row)
  && (length_ s + var_size (columns_ s) row <? 2 ^ 31).

Lemma fits_row_b_sound s row : fits_row_b s row = true -> fits_row s row.
Proof.
  intros [[Hl%bool_decide_eq_true Hf]%andb_true_iff Hs%Z.ltb_lt]%andb_true_iff. split; [|done].
  rewrite forallb_forall in Hf. clear Hs. revert row Hl Hf. generalize (columns_ s). intros cs.
  induction cs as [|c cs IH]; intros [|v row] Hl Hf; try done. constructor.
  - apply fits_b_sound, (Hf (c, v)). by left.
  - apply IH; [by injection Hl|]. intros x Hx. apply Hf. by right.
Qed.

(** [plain] *)
Definition plain_b (v : Value) : bool :=
  match type_id_ v with
  | VARCHAR =>
      match value_ v with
      | VVarlen (Some bs) => let s := removelast bs in (Z.of_nat (length s) <? 2 ^ 31 - 1) && bool_decide (v = varchar_value s)
      | _ => false
      end
  | t => fits_b t v && negb (IsNull v) && negb (bool_decide (t = DECIMAL))
  end.

Lemma plain_b_sound v : plain_b v = true -> plain v.
Proof.
  unfold plain_b, plain. intros Hb.
  assert (Hint : forall t T, fits_int_b t T v && negb (IsNull v) && negb (bool_decide (t = DECIMAL)) = true ->
    exists z, proper_int T z /\ v = int_value t T z).
  { intros t T [[Hf Hn]%andb_true_iff _]%andb_true_iff. unfold fits_int_b in Hf. destruct (value_ v) as [|z| |]; try done.
    apply andb_true_iff in Hf as [H1%bool_decide_eq_true H2%bool_decide_eq_true]. exists z. split; [|done]. split; [done|].
    rewrite H2, IsNull_int in Hn. by apply negb_true_iff, Z.eqb_neq in Hn. }
  destruct (type_id_ v) eqn:Et; cbn [fits_b] in Hb; try done.
  1: { apply Hint in Hb as (z & [Hz Hn] & Hv). by exists z. }
  1-4: apply Hint in Hb as (z & Hz & Hv); by eexists _, z.
  - by rewrite !andb_false_r in Hb.
  - destruct (value_ v) as [| | |[bs|]] eqn:Ev; try done. apply andb_true_iff in Hb as [H1%Z.ltb_lt H2%bool_decide_eq_true].
    by exists (removelast bs).
Qed.

(** ** Lists with failures *)

Section Lists.
Context {A B : Type}.

Fixpoint rmap (f : A -> res B) (l : list A) : res (list B) :=
  match l with
  | [] => Ok []
  | x :: l => let! y := f x in let! ys := rmap f l in Ok (y :: ys)
  end.

Fixpoint rfilter (f : A -> res bool) (l : list A) : res (list A) :=
  match l with
  | [] => Ok []
  | x :: l => let! b := f x in let! ys := rfilter f l in Ok (if b : bool then x :: ys else ys)
  end.

Fixpoint rfold (f : B -> A -> res B) (b : B) (l : list A) : res B :=
  match l with
  | [] => Ok b
  | x :: l => let! b := f b x in rfold f b l
  end.
End Lists.

Lemma rfold_app {A B} (f : B -> A -> res B) b l l' : rfold f b (l ++ l') = let! b := rfold f b l in rfold f b l'.
Proof. revert b. induction l as [|x l IH]; intros b; [done|]. cbn [rfold app]. destruct (f b x); [|done]. apply IH. Qed.

(** The elements that are kept, each mapped. *)
Definition select {A B} (keep : A -> res bool) (f : A -> res B) (l : list A) : res (list B) :=
  let! kept := rfilter keep l in rmap f kept.

(** The first element of each key, in order. *)
Fixpoint nub_by {A K} `{EqDecision K} (f : A -> K) (l : list A) : list A :=
  match l with [] => [] | x :: l => x :: filter (fun y => f y <> f x) (nub_by f l) end.

(** ** The reference *)

(** The tables: their metadata and their rows. *)
Definition database : Type := Z -> option (TableInfo * list (list Value * RID)).

Section Semantics.
Context `{Config} `{!HashOrder}.
Implicit Types (db : database) (row : list Value).

Definition eval_bool (e : Expression) row : res bool := let! v := eval e row in GetAs_bool v.

(** A row of an output schema. *)
Definition build (s : Schema Expression) row : res (list Value) := if fits_row_b s row then Ok row else Err TypeConfusion.

Definition make_row (s : Schema Expression) (row : res (list Value)) (rid : option RID) : res qrow :=
  let! row := row in let! row := build s row in Ok (row, rid).

(** Columns by position, and the columns of a join. *)
Definition project (idxs : list Z) row : res (list Value) := rmap (zlookup row) idxs.
Definition join_columns (s : Schema Expression) left_row right_row : res (list Value) :=
  Join_loop (columns_ s) (zlookup left_row) (zlookup right_row).

Definition check (b : bool) : res unit := if b then Ok tt else Err TypeConfusion.

(** Keys that can be compared: not null, of the types of the first. *)
Definition keys_ok (keys : list (list Value)) : bool :=
  match keys with
  | [] => true
  | k0 :: _ => forallb (fun k => forallb plain_b k && bool_decide (type_id_ <$> k = type_id_ <$> k0)) keys
  end.

Definition denote_scan db (out : Schema Expression) (predicate : option Expression) (table_oid : Z) : res (list qrow) :=
  let! ' (info, rows) := of_option NullDereference (db table_oid) in
  let! idxs := out_schema_idx out (Some info) in
  let! predicate := predicate_or_true predicate in
  select (fun r => eval_bool predicate r.1) (fun r => make_row out (project idxs r.1) (Some r.2)) rows.

(** The pairs in the order of the left rows. *)
Definition denote_nested_loop (out : Schema Expression) (predicate : option Expression) (left_rows right_rows : list qrow) :
    res (list qrow) :=
  let! predicate := predicate_or_true predicate in
  select (fun p => let! v := eval_join predicate p.1 p.2 in GetAs_bool v)
    (fun p => make_row out (join_columns out p.1 p.2) None)
    (left_rows ≫= fun l => (fun r => (l.1, r.1)) <$> right_rows).

(** In the order of the right rows; a key has one left row at most. *)
Definition denote_hash_join (out : Schema Expression) (left_key right_key : Expression) (left_rows right_rows : list qrow) :
    res (list qrow) :=
  let! lefts := rmap (fun l => let! k := eval left_key l.1 in Ok (k, l.1)) left_rows in
  let! rights := rmap (fun r => let! k := eval right_key r.1 in Ok (k, r)) right_rows in
  let! _ := check (keys_ok ((fun k => [k]) <$> (lefts.*1 ++ rights.*1))) in
  let! _ := check (bool_decide (NoDup lefts.*1)) in
  rmap (fun p => make_row out (join_columns out p.1 p.2.1) p.2.2)
    (rights ≫= fun r => match assoc_find r.1 lefts with Some l => [(l, r.2)] | None => [] end).

Definition denote_distinct (rows : list qrow) : res (list qrow) :=
  let! _ := check (keys_ok rows.*1) in
  Ok (nub_by fst rows).

(** One group: its rows' inputs folded. *)
Definition fold_group (agg_types : list AggregationType) (init : list Value) (inputs : list (list Value)) : res (list Value) :=
  rfold (fun result input => rmap (fun p => combine_one p.1 p.2.1 p.2.2) (zip agg_types (zip result input))) init inputs.

Definition denote_aggregation (out : Schema Expression) (having : option Expression) (group_bys aggregates : list Expression)
    (agg_types : list AggregationType) (rows : list qrow) : res (list qrow) :=
  let! _ := check (bool_decide (length aggregates = length agg_types)) in
  let! init := GenerateInitialAggregateValue agg_types in
  let! keyed := rmap (fun r =>
    let! key := match group_bys with [] => Ok init | _ => rmap (fun e => eval e r.1) group_bys end in
    let! input := rmap (fun e => eval e r.1) aggregates in Ok (key, input)) rows in
  let! _ := check (keys_ok keyed.*1) in
  let! groups := rmap (fun key =>
    let! result := fold_group agg_types init (filter (fun p => p.1 = key) keyed).*2 in Ok (key, result)) (nub_by id keyed.*1) in
  select (fun g => match having with Some e => let! v := EvaluateAggregate e g.1 g.2 in GetAs_bool v | None => Ok true end)
    (fun g => make_row out (Output_loop (columns_ out) g.1 g.2) None) (hash_order groups).

Fixpoint denote db (plan : PlanNode) : res (list qrow) :=
  match plan with
  | SeqScanPlanNode out predicate table_oid => denote_scan db out predicate table_oid
  | LimitPlanNode _ child limit => let! rows := denote db child in Ok (take (Z.to_nat limit) rows)
  | DistinctPlanNode _ child => let! rows := denote db child in denote_distinct rows
  | NestedLoopJoinPlanNode out left_plan right_plan predicate =>
      let! left_rows := denote db left_plan in
      let! right_rows := denote db right_plan in
      denote_nested_loop out predicate left_rows right_rows
  | HashJoinPlanNode out left_plan right_plan left_key right_key =>
      let! left_rows := denote db left_plan in
      let! right_rows := denote db right_plan in
      denote_hash_join out left_key right_key left_rows right_rows
  | AggregationPlanNode out child having group_bys aggregates agg_types =>
      let! rows := denote db child in denote_aggregation out having group_bys aggregates agg_types rows
  | _ => Err (Raised EX_NOT_IMPLEMENTED)
  end.

(** Plans whose schemas are laid out by [Schema] and that pass rows on under
    the schema they come with. *)
Fixpoint plan_ok (plan : PlanNode) : Prop :=
  match plan with
  | SeqScanPlanNode out _ _ => good_schema out
  | LimitPlanNode out child limit => plan_ok child /\ OutputSchema child = Some out /\ 0 <= limit < 2 ^ 64
  | DistinctPlanNode out child => plan_ok child /\ OutputSchema child = Some out
  | NestedLoopJoinPlanNode out left_plan right_plan _ => plan_ok left_plan /\ plan_ok right_plan /\ good_schema out
  | HashJoinPlanNode out left_plan right_plan _ _ => plan_ok left_plan /\ plan_ok right_plan /\ good_schema out
  | AggregationPlanNode out child _ _ _ _ => plan_ok child /\ good_schema out
  | _ => False
  end.
End Semantics.
