(* ===== verification/Matrix.v ===== *)
(** The row matrices of the primer ([src/include/primer/p0_starter.h]), for
    [T = int].

    A new array of integers is not initialised: such an element is [None], and
    reading it is an error.  Additions and products of [int]s that overflow are
    undefined. *)

From S2P Require Import Prelude QuerySemantics.

(** ** Definitions *)

Definition checked32 (z : Z) : res Z := if decide (is_signed 32 z) then Ok z else Err IntegerOverflow.
Definition int_add (x y : Z) : res Z := checked32 (x + y).
Definition int_mul (x y : Z) : res Z := checked32 (x * y).

(** The base class and the derived class: [data_[i]] points to row [i] of
    [linear_]. *)
Record RowMatrix : Type := MkRowMatrix {
  rows_ : Z;
  cols_ : Z;
  linear_ : list (option Z)
}.

Definition RowMatrix_new (rows cols : Z) : res RowMatrix :=
  if (rows <=? 0) || (cols <=? 0) then Ok (MkRowMatrix (-1) (-1) []) else
  let! n := int_mul rows cols in
  Ok (MkRowMatrix rows cols (replicate (Z.to_nat n) None)).

Definition RowMatrix_GetRowCount (m : RowMatrix) : Z := rows_ m.
Definition RowMatrix_GetColumnCount (m : RowMatrix) : Z := cols_ m.

Definition out_of_range (i j : Z) (m : RowMatrix) : bool := (rows_ m <=? i) || (cols_ m <=? j) || (i <? 0) || (j <? 0).

Definition GetElement (i j : Z) (m : RowMatrix) : res Z :=
  if out_of_range i j m then Err (Raised EX_OUT_OF_RANGE) else
  let! x := zlookup (linear_ m) (i * cols_ m + j) in of_option TypeConfusion x.

Definition SetElement (i j val : Z) (m : RowMatrix) : res RowMatrix :=
  if out_of_range i j m then Err (Raised EX_OUT_OF_RANGE) else
  let! l := zupdate (linear_ m) (i * cols_ m + j) (Some val) in Ok (MkRowMatrix (rows_ m) (cols_ m) l).

(** The two nested loops over the elements, row by row. *)
Definition cells (rows cols : Z) : list (Z * Z) := i ← seqZ 0 rows; j ← seqZ 0 cols; [(i, j)].
Definition for_cells (rows cols : Z) (val : Z -> Z -> res Z) (m : RowMatrix) : res RowMatrix :=
  rfold (fun m ij => let! v := val ij.1 ij.2 in SetElement ij.1 ij.2 v m) m (cells rows cols).

Definition FillFrom (source : list Z) (m : RowMatrix) : res RowMatrix :=
  let! n := int_mul (rows_ m) (cols_ m) in
  if negb (signed 32 (Z.of_nat (length source)) =? n) then Err (Raised EX_OUT_OF_RANGE) else
  for_cells (rows_ m) (cols_ m) (fun row col => zlookup source (cols_ m * row + col)) m.

(** [nullptr] is [None]. *)
Definition Add (matrixA matrixB : option RowMatrix) : res (option RowMatrix) :=
  match matrixA, matrixB with
  | Some a, Some b =>
      if negb (RowMatrix_GetRowCount a =? RowMatrix_GetRowCount b) || negb (RowMatrix_GetColumnCount a =? RowMatrix_GetColumnCount b) then Ok None else
      let! result := RowMatrix_new (RowMatrix_GetRowCount a) (RowMatrix_GetColumnCount a) in
      let! result := for_cells (RowMatrix_GetRowCount a) (RowMatrix_GetColumnCount a) (fun row col =>
        let! x := GetElement row col a in let! y := GetElement row col b in int_add x y) result in
      Ok (Some result)
  | _, _ => Ok None
  end.

(** The innermost loop of [Multiply]. *)
Definition dot_loop (commons row_a col_b : Z) (a b : RowMatrix) : res Z :=
  rfold (fun sum common =>
    let! x := GetElement row_a common a in
    let! y := GetElement common col_b b in
    let! p := int_mul x y in int_add sum p) 0 (seqZ 0 commons).

Definition Multiply (matrixA matrixB : option RowMatrix) : res (option RowMatrix) :=
  match matrixA, matrixB with
  | Some a, Some b =>
      if negb (RowMatrix_GetColumnCount a =? RowMatrix_GetRowCount b) then Ok None else
      let! result := RowMatrix_new (RowMatrix_GetRowCount a) (RowMatrix_GetColumnCount b) in
      let! result := for_cells (RowMatrix_GetRowCount a) (RowMatrix_GetColumnCount b) (fun row_a col_b =>
        dot_loop (RowMatrix_GetColumnCount a) row_a col_b a b) result in
      Ok (Some result)
  | _, _ => Ok None
  end.

Definition GEMM (matrixA matrixB matrixC : option RowMatrix) : res (option RowMatrix) :=
  let! product := Multiply matrixA matrixB in Add product matrixC.

(** ** Matrices and functions *)

(** The matrix has these elements. *)
Record is_matrix (m : RowMatrix) (rows cols : Z) (f : Z -> Z -> Z) : Prop := {
  mx_rows : rows_ m = rows;
  mx_cols : cols_ m = cols;
  mx_pos : 0 < rows /\ 0 < cols;
  mx_size : rows * cols < 2 ^ 31;
  mx_length : Z.of_nat (length (linear_ m)) = rows * cols;
  mx_elements i j : 0 <= i < rows -> 0 <= j < cols -> linear_ m !! Z.to_nat (i * cols + j) = Some (Some (f i j))
}.

Definition dot (n : Z) (f : Z -> Z) : Z := foldl Z.add 0 (f <$> seqZ 0 n).

(** ** Lemmas *)

Lemma checked32_ok z : is_signed 32 z -> checked32 z = Ok z.
Proof. intros. unfold checked32. by rewrite decide_True. Qed.

Lemma in_range rows cols i j : 0 <= i < rows -> 0 <= j < cols -> 0 <= i * cols + j < rows * cols.
Proof. nia. Qed.

Lemma cell_inj cols i j i' j' : 0 <= j < cols -> 0 <= j' < cols -> i * cols + j = i' * cols + j' -> i = i' /\ j = j'.
Proof. intros. assert (i = i') by nia. split; [done|nia]. Qed.

Lemma get_element m rows cols f i j : is_matrix m rows cols f -> 0 <= i < rows -> 0 <= j < cols -> GetElement i j m = Ok (f i j).
Proof.
  intros [Hr Hc Hp Hs Hl He] Hi Hj. unfold GetElement, out_of_range. rewrite Hr, Hc.
  rewrite !(proj2 (Z.leb_gt _ _)), !(proj2 (Z.ltb_ge _ _)) by lia. cbn [orb]. pose proof (in_range _ _ _ _ Hi Hj).
  unfold zlookup. rewrite decide_True by lia. by rewrite He.
Qed.

Lemma elem_of_cells rows cols i j : (i, j) ∈ cells rows cols <-> 0 <= i < rows /\ 0 <= j < cols.
Proof.
  unfold cells. rewrite list_elem_of_bind. split.
  - intros (x & Hin & Hx%elem_of_seqZ). apply list_elem_of_bind in Hin as (y & Hin & Hy%elem_of_seqZ).
    apply list_elem_of_singleton in Hin as [= -> ->]. lia.
  - intros [Hi Hj]. exists i. split; [|by apply elem_of_seqZ; lia]. apply list_elem_of_bind. exists j.
    split; [by left|apply elem_of_seqZ; lia].
Qed.

Lemma for_cells_ok rows cols val f m : rows_ m = rows -> cols_ m = cols -> 0 < rows -> 0 < cols -> rows * cols < 2 ^ 31 ->
  Z.of_nat (length (linear_ m)) = rows * cols ->
  (forall i j, 0 <= i < rows -> 0 <= j < cols -> val i j = Ok (f i j)) ->
  exists m', for_cells rows cols val m = Ok m' /\ is_matrix m' rows cols f.
Proof.
  intros Hr Hc Hr0 Hc0 Hs Hl Hval.
  assert (Hloop : forall todo done_cells m0, cells rows cols = done_cells ++ todo -> rows_ m0 = rows -> cols_ m0 = cols ->
    Z.of_nat (length (linear_ m0)) = rows * cols ->
    (forall i j, (i, j) ∈ done_cells -> linear_ m0 !! Z.to_nat (i * cols + j) = Some (Some (f i j))) ->
    exists m', rfold (fun m ij => let! v := val ij.1 ij.2 in SetElement ij.1 ij.2 v m) m0 todo = Ok m' /\ rows_ m' = rows /\ cols_ m' = cols
      /\ Z.of_nat (length (linear_ m')) = rows * cols
      /\ forall i j, (i, j) ∈ cells rows cols -> linear_ m' !! Z.to_nat (i * cols + j) = Some (Some (f i j))).
  { induction todo as [|[i j] todo IH]; intros done_cells m0 Hall Hr' Hc' Hl' Hdone.
    - exists m0. rewrite app_nil_r in Hall. split_and!; try done. by rewrite Hall.
    - assert (Hin : (i, j) ∈ cells rows cols) by (rewrite Hall; set_solver).
      apply elem_of_cells in Hin as [Hi Hj]. cbn [rfold fst snd]. rewrite (Hval i j Hi Hj). cbn [rbind]. unfold SetElement at 1, out_of_range. rewrite Hr', Hc'.
      rewrite !(proj2 (Z.leb_gt _ _)), !(proj2 (Z.ltb_ge _ _)) by lia. cbn [orb]. pose proof (in_range _ _ _ _ Hi Hj) as Hb.
      rewrite zupdate_ok by lia. cbn [rbind]. apply (IH (done_cells ++ [(i, j)])); cbn [rows_ cols_ linear_]; try done.
      + by rewrite <- app_assoc.
      + by rewrite length_insert.
      + intros i' j' [Hin'|Hin']%elem_of_app.
        * assert (Hin2 : (i', j') ∈ cells rows cols) by (rewrite Hall; set_solver). apply elem_of_cells in Hin2 as [Hi' Hj'].
          destruct (decide (i' * cols + j' = i * cols + j)) as [E|E].
          -- destruct (cell_inj _ _ _ _ _ Hj' Hj E) as [-> ->]. by rewrite list_lookup_insert_eq by lia.
          -- rewrite list_lookup_insert_ne by nia. by apply Hdone.
        * apply list_elem_of_singleton in Hin' as [= -> ->]. by rewrite list_lookup_insert_eq by lia. }
  destruct (Hloop (cells rows cols) [] m) as (m' & Hrun & Hr' & Hc' & Hl' & He); [done..|by intros i j ?%elem_of_nil|].
  exists m'. split; [exact Hrun|]. split; try done. intros i j Hi Hj. by apply He, elem_of_cells.
Qed.

(** A new matrix, filled. *)
Lemma new_cells_ok rows cols val f : 0 < rows -> 0 < cols -> rows * cols < 2 ^ 31 ->
  (forall i j, 0 <= i < rows -> 0 <= j < cols -> val i j = Ok (f i j)) ->
  exists m m', RowMatrix_new rows cols = Ok m /\ for_cells rows cols val m = Ok m' /\ is_matrix m' rows cols f.
Proof.
  intros Hr Hc Hs Hval. unfold RowMatrix_new. rewrite !(proj2 (Z.leb_gt _ _)) by lia. cbn [orb]. unfold int_mul.
  rewrite checked32_ok by (unfold is_signed; nia). cbn [rbind]. eexists.
  destruct (for_cells_ok rows cols val f (MkRowMatrix rows cols (replicate (Z.to_nat (rows * cols)) None))) as (m' & Hrun & Hm); try done.
  { cbn [linear_]. rewrite length_replicate. nia. }
  by exists m'.
Qed.

Lemma dot_succ n f : 0 <= n -> dot (n + 1) f = dot n f + f n.
Proof.
  intros Hn. unfold dot. rewrite seqZ_app by lia. rewrite fmap_app, foldl_app. by rewrite Z.add_0_l.
Qed.

Lemma dot_loop_ok r k c f g a b i j : is_matrix a r k f -> is_matrix b k c g -> 0 <= i < r -> 0 <= j < c ->
  (forall n, 0 <= n < k -> is_signed 32 (f i n * g n j)) -> (forall n, 0 <= n <= k -> is_signed 32 (dot n (fun x => f i x * g x j))) ->
  dot_loop k i j a b = Ok (dot k (fun x => f i x * g x j)).
Proof.
  intros Ha Hb Hi Hj Hp Hs. unfold dot_loop. pose proof (mx_pos _ _ _ _ Ha) as [_ Hk].
  assert (Hloop : forall m : nat, Z.of_nat m <= k -> rfold (fun sum common =>
    let! x := GetElement i common a in let! y := GetElement common j b in let! p := int_mul x y in int_add sum p) 0 (seqZ 0 (Z.of_nat m))
    = Ok (dot (Z.of_nat m) (fun x => f i x * g x j))).
  { induction m as [|m IH]; intros Hm; [done|]. rewrite Nat2Z.inj_succ, <- Z.add_1_r, dot_succ by lia.
    rewrite seqZ_app by lia. rewrite rfold_app, IH by lia. cbn [rbind]. rewrite Z.add_0_l. change (seqZ (Z.of_nat m) 1) with [Z.of_nat m].
    cbn [rfold]. rewrite (get_element a r k f) by (done || lia). cbn [rbind]. rewrite (get_element b k c g) by (done || lia). cbn [rbind].
    unfold int_mul, int_add. rewrite checked32_ok by (apply Hp; lia). cbn [rbind]. rewrite checked32_ok; [done|].
    rewrite <- (dot_succ (Z.of_nat m) (fun x => f i x * g x j)) by lia. apply Hs. lia. }
  specialize (Hloop (Z.to_nat k)). rewrite Z2Nat.id in Hloop by lia. apply Hloop. lia.
Qed.

(** ** Properties *)

(** [GEMM] is the product of two matrices plus the third, when their sizes
    match and no sum or product leaves the range of an [int]; it is [nullptr]
    when the sizes do not match. *)
Theorem GEMM_correct a b d r k c r' c' (f g h : Z -> Z -> Z) k' :
  is_matrix a r k f -> is_matrix b k' c g -> is_matrix d r' c' h -> r * c < 2 ^ 31 ->
  (k = k' -> forall i j, 0 <= i < r -> 0 <= j < c ->
     (forall n, 0 <= n < k -> is_signed 32 (f i n * g n j)) /\
     (forall n, 0 <= n <= k -> is_signed 32 (dot n (fun x => f i x * g x j)))) ->
  (forall i j, 0 <= i < r -> 0 <= j < c -> is_signed 32 (dot k (fun x => f i x * g x j) + h i j)) ->
  if decide (k = k' /\ r = r' /\ c = c')
  then exists m, GEMM (Some a) (Some b) (Some d) = Ok (Some m) /\ is_matrix m r c (fun i j => dot k (fun x => f i x * g x j) + h i j)
  else GEMM (Some a) (Some b) (Some d) = Ok None.
Proof.
  intros Ha Hb Hd Hs Hsum Hplus. unfold GEMM, Multiply, RowMatrix_GetRowCount, RowMatrix_GetColumnCount.
  rewrite (mx_rows _ _ _ _ Ha), (mx_cols _ _ _ _ Ha), (mx_rows _ _ _ _ Hb), (mx_cols _ _ _ _ Hb).
  destruct (Z.eqb_spec k k') as [<-|Hk]; cbn [negb]; [|by rewrite decide_False by tauto].
  pose proof (mx_pos _ _ _ _ Ha) as [Hr0 Hk0]. pose proof (mx_pos _ _ _ _ Hb) as [_ Hc0].
  destruct (new_cells_ok r c (fun i j => dot_loop k i j a b) (fun i j => dot k (fun x => f i x * g x j))) as (m & p & -> & Hp & Hpm); try done.
  { intros i j Hi Hj. destruct (Hsum eq_refl i j Hi Hj). by eapply (dot_loop_ok r k c f g). }
  cbn [rbind]. rewrite Hp. cbn [rbind]. unfold Add, RowMatrix_GetRowCount, RowMatrix_GetColumnCount.
  rewrite (mx_rows _ _ _ _ Hpm), (mx_cols _ _ _ _ Hpm), (mx_rows _ _ _ _ Hd), (mx_cols _ _ _ _ Hd).
  destruct (Z.eqb_spec r r') as [<-|Hr]; cbn [negb orb]; [|by rewrite decide_False by tauto].
  destruct (Z.eqb_spec c c') as [<-|Hc]; cbn [negb]; [|by rewrite decide_False by tauto]. rewrite decide_True by done.
  destruct (new_cells_ok r c (fun i j => let! x := GetElement i j p in let! y := GetElement i j d in int_add x y)
    (fun i j => dot k (fun x => f i x * g x j) + h i j)) as (m2 & q & -> & Hq & Hqm); try done.
  { intros i j Hi Hj. rewrite (get_element p r c _ i j Hpm Hi Hj). cbn [rbind]. rewrite (get_element d r c h i j Hd Hi Hj). cbn [rbind].
    unfold int_add. rewrite checked32_ok; [done|by apply Hplus]. }
  cbn [rbind]. rewrite Hq. cbn [rbind]. by exists q.
Qed.

(** [[1, 2], [3, 4]], the unit matrix and a matrix of tens. *)
Definition matrix_1234 : RowMatrix := MkRowMatrix 2 2 [Some 1; Some 2; Some 3; Some 4].
Definition matrix_unit : RowMatrix := MkRowMatrix 2 2 [Some 1; Some 0; Some 0; Some 1].
Definition matrix_tens : RowMatrix := MkRowMatrix 2 2 [Some 10; Some 10; Some 10; Some 10].

Lemma two_cases i : 0 <= i < 2 -> i = 0 \/ i = 1.
Proof. lia. Qed.

Lemma is_matrix_2 m x00 x01 x10 x11 : m = MkRowMatrix 2 2 [Some x00; Some x01; Some x10; Some x11] ->
  is_matrix m 2 2 (fun i j => if i =? 0 then if j =? 0 then x00 else x01 else if j =? 0 then x10 else x11).
Proof.
  intros ->. split; try done. intros i j [->| ->]%two_cases [->| ->]%two_cases; done.
Qed.

Lemma GEMM_correct_witness : exists m, GEMM (Some matrix_1234) (Some matrix_unit) (Some matrix_tens) = Ok (Some m)
  /\ GetElement 1 0 m = Ok 13.
Proof.
  destruct (GEMM_correct matrix_1234 matrix_unit matrix_tens 2 2 2 2 2 _ _ _ 2 (is_matrix_2 _ 1 2 3 4 eq_refl)
    (is_matrix_2 _ 1 0 0 1 eq_refl) (is_matrix_2 _ 10 10 10 10 eq_refl)) as (m & Hm & Hmx).
  - done.
  - intros _ i j Hi Hj. split.
    + intros n Hn. destruct (two_cases i Hi) as [->| ->], (two_cases j Hj) as [->| ->], (two_cases n Hn) as [->| ->]; by vm_compute.
    + intros n Hn. assert (n = 0 \/ n = 1 \/ n = 2) as [->|[->| ->]] by lia;
        destruct (two_cases i Hi) as [->| ->], (two_cases j Hj) as [->| ->]; by vm_compute.
  - intros i j Hi Hj. destruct (two_cases i Hi) as [->| ->], (two_cases j Hj) as [->| ->]; by vm_compute.
  - exists m. split; [done|]. by rewrite (get_element m 2 2 _ 1 0 Hmx).
Defined.
