(* ===== verification/ScanCorrect.v ===== *)
(** The worlds in which queries run, and the sequential scan, limit and
    distinct: they produce the rows the reference says. *)

From S2P Require Import Prelude Bytes Rid BufferPoolManager Value Types TypesCorrect ValueFactory Schema Expression TablePage TablePageCorrect TupleValues TupleCorrect.
From S2P Require Import Transaction TableHeap TableHeapCorrect TableScan HashUtil Catalog Executor ReadExecutors JoinExecutors AggregationExecutor QuerySemantics.

(** ** Lists with failures *)

Lemma rmap_ok {A B} (f : A -> res B) l ys : rmap f l = Ok ys <-> Forall2 (fun x y => f x = Ok y) l ys.
Proof.
  revert ys. induction l as [|x l IH]; intros ys; cbn [rmap].
  - split; [intros [= <-]; constructor|by inversion 1].
  - split.
    + destruct (f x) as [y|] eqn:Ef; [|done]. cbn [rbind]. destruct (rmap f l) as [ys'|]; [|done]. intros [= <-].
      constructor; [done|]. by apply IH.
    + inversion 1 as [|? y ? ys' Hy Hys]; subst. rewrite Hy. cbn [rbind]. by rewrite (proj2 (IH ys') Hys).
Qed.

Lemma GetValues_row s t row idxs vals : row_of s t row -> rmap (zlookup row) idxs = Ok vals -> GetValues_loop t s idxs = Ok vals.
Proof.
  intros Hr. rewrite rmap_ok. induction 1 as [|i v idxs vals Hv _ IH]; [done|]. cbn [GetValues_loop].
  rewrite (Hr i v Hv). cbn [rbind]. by rewrite IH.
Qed.

Lemma rmap_cons {A B} (f : A -> res B) x l ys :
  rmap f (x :: l) = Ok ys -> exists y ys', f x = Ok y /\ rmap f l = Ok ys' /\ ys = y :: ys'.
Proof. rewrite rmap_ok. inversion 1 as [|? y ? ys' Hy Hys]; subst. exists y, ys'. by rewrite rmap_ok. Qed.

Lemma select_cons {A B} (keep : A -> res bool) (f : A -> res B) x l ys :
  select keep f (x :: l) = Ok ys ->
  exists b, keep x = Ok b /\
  if b then exists y ys', f x = Ok y /\ select keep f l = Ok ys' /\ ys = y :: ys' else select keep f l = Ok ys.
Proof.
  unfold select. cbn [rfilter]. destruct (keep x) as [b|]; [|done]. cbn [rbind]. intros Hys. exists b. split; [done|].
  destruct (rfilter keep l) as [kept|]; [|done]. cbn [rbind] in *. destruct b; [by apply rmap_cons|done].
Qed.

Lemma rmap_Forall {A B} (f : A -> res B) (P : B -> Prop) l ys :
  (forall x y, f x = Ok y -> P y) -> rmap f l = Ok ys -> Forall P ys.
Proof. intros HP. rewrite rmap_ok. induction 1; constructor; [by eapply HP|done]. Qed.

Lemma select_Forall {A B} (keep : A -> res bool) (f : A -> res B) (P : B -> Prop) l ys :
  (forall x y, f x = Ok y -> P y) -> select keep f l = Ok ys -> Forall P ys.
Proof. intros HP. unfold select. destruct (rfilter keep l); [|done]. by apply rmap_Forall. Qed.

(** *** Rows as the reference builds them *)

Lemma make_row_ok `{Config} s r rid q :
  good_schema s -> make_row s r rid = Ok q ->
  exists row t, r = Ok row /\ q = (row, rid) /\ GetColumnCount s = Z.of_nat (length row)
    /\ Tuple_of_values row s = Ok t /\ row_of s t row.
Proof.
  intros Hs. unfold make_row, build. destruct r as [row|]; [|done]. cbn [rbind]. destruct (fits_row_b s row) eqn:Hf; [|done].
  intros [= <-]. apply fits_row_b_sound in Hf. destruct (build_row s row Hs Hf) as (t & Hrun & _ & Ht & _). exists row, t.
  split_and!; try done. unfold Tuple_of_values in Hrun. destruct (_ =? _) eqn:E; [|done]. by apply Z.eqb_eq in E.
Qed.

Lemma make_row_width `{Config} s r rid q :
  good_schema s -> make_row s r rid = Ok q -> GetColumnCount s = Z.of_nat (length q.1).
Proof. intros Hs Hq. by destruct (make_row_ok _ _ _ _ Hs Hq) as (row & t & _ & -> & ? & _). Qed.

(** ** Worlds at rest *)

Section Rest.
Context `{Config} `{!HashOrder} {S P I : Type} `{!BufferPoolManager S P bytes} `{!BufferPoolSpec S P bytes}
  `{!TablePagesOk (good_data (S := S) (P := P)) (zero_data (S := S) (P := P))}.
Notation world := (ExecutorContext S I).
Implicit Types (w : world) (h : heap).

(** What else is in the pool: the pins, and an invariant that depends only on the
    pages [fr_pages]. *)
Record Frame : Type := MkFrame {
  fr_pins : gmap Z Z;
  fr_pages : gset Z;
  fr_inv : S -> Prop;
  fr_kept s s' (Y : gset Z) : fr_inv s -> pool_ok s' -> evolves_in Y (view s) (view s') -> pins (view s') = pins (view s) ->
    fr_pages ## Y -> fr_inv s';
  fr_live s p : fr_inv s -> p ∈ fr_pages -> live (view s) p
}.

Program Definition plain_frame (pins0 : gmap Z Z) : Frame := MkFrame pins0 ∅ (fun _ => True) _ _.
Next Obligation. done. Qed.
Next Obligation. set_solver. Qed.

(** The catalog and the transaction, the pins, the heaps of the tables and the
    rest. *)
Record at_rest (c : Catalog I) (txn : Transaction) (F : Frame) (heaps : TableInfo -> heap -> Prop) w : Prop := {
  ar_catalog : catalog_ w = c;
  ar_txn : transaction_ w = txn;
  ar_pins : pins (view (bpm_ w)) = fr_pins F;
  ar_frame : fr_inv F (bpm_ w);
  ar_room : room 2 (bpm_ w);
  ar_heaps info h : heaps info h -> heap_inv (table_ info) (bpm_ w) h
}.

Context (c : Catalog I) (txn : Transaction) (F : Frame) (heaps : TableInfo -> heap -> Prop).
Notation rest := (at_rest c txn F heaps).

Lemma rest_unchanged w t s' h : rest w -> unchanged t (bpm_ w) s' h -> rest (MkContext s' (transaction_ w) (catalog_ w)).
Proof.
  intros [Hc Ht Hp HF Hr Hh] Hu. split; simpl; try done.
  - by rewrite (un_pins _ _ _ _ Hu).
  - eapply (fr_kept _ _ _ ∅); [exact HF|apply (un_inv _ _ _ _ Hu)|apply evolves_in_none, (un_evolves _ _ _ _ Hu)|apply (un_pins _ _ _ _ Hu)|set_solver].
  - by eapply room_unchanged.
  - intros info h' Hin. destruct (Hh info h' Hin) as [Hrep Hn]. split.
    + eapply heap_rep_evolves; [exact Hrep| |exact (un_evolves _ _ _ _ Hu)]. apply (un_inv _ _ _ _ Hu).
    + intros p Hp'. rewrite (un_pins _ _ _ _ Hu). by apply Hn.
Qed.

(** A call on a table's heap that reads. *)
Lemma wp_on_table {A} (m : Transaction -> M S (A * Transaction)) (Q : A -> world -> Prop) w t h :
  rest w -> wp (m (transaction_ w)) (fun r s' => exists a, r = (a, transaction_ w) /\ unchanged t (bpm_ w) s' h
    /\ (forall w', rest w' -> Q a w')) (bpm_ w) -> wp (on_table m) Q w.
Proof.
  intros Hr Hw. apply wp_run in Hw as (r & s' & Hrun & a & -> & Hu & HQ). unfold wp, on_table. rewrite Hrun. cbn [rbind].
  apply HQ. by eapply rest_unchanged.
Qed.

(** *** Sequential scan *)

(** The rows that are left when the scan has [rs] of the table's rows before it. *)
Definition scan_rows (e : SeqScanExecutor) (rs : list (list Value * RID)) : res (list qrow) :=
  select (fun r => eval_bool (ss_predicate_ e) r.1) (fun r => make_row (ss_output_ e) (project (out_schema_idx_ e) r.1) (Some r.2)) rs.

(** A tuple of the table for a row of the reference. *)
Definition stored (info : TableInfo) (t : Tuple) (r : list Value * RID) : Prop :=
  row_of (schema_ info) t r.1 /\ tuple_rid_ t = r.2.

Definition scan_static (e0 : SeqScanExecutor) (info : TableInfo) (e : SeqScanExecutor) : Prop :=
  ss_output_ e = ss_output_ e0 /\ ss_predicate_ e = ss_predicate_ e0 /\ ss_table_info_ e = Some info
  /\ out_schema_idx_ e = out_schema_idx_ e0.

(** The scan has the tuples [ts] of the heap before it, which hold the rows
    [rs]. *)
Definition scan_at (e0 : SeqScanExecutor) (info : TableInfo) (h : heap) ts rs (e : SeqScanExecutor) : Prop :=
  scan_static e0 info e /\ end_ e = TableHeap_End /\ cursor h ts (cur_ e) /\ Forall2 (stored info) ts rs.

Definition scan_stands (e0 : SeqScanExecutor) (info : TableInfo) (h : heap) (e : SeqScanExecutor) (o : option (list qrow)) : Prop :=
  scan_static e0 info e /\
  match o with
  | None => True
  | Some rows => exists ts rs, scan_at e0 info h ts rs e /\ scan_rows e0 rs = Ok rows /\ (length ts <= length (heap_tuples h))%nat
  end.

(** The scan of [rs] passes over [rpre], finds [x], and makes [q] of it. *)
Definition scan_finds (e0 : SeqScanExecutor) (rpre : list (list Value * RID)) (x : list Value * RID) (q : qrow) : Prop :=
  Forall (fun r => eval_bool (ss_predicate_ e0) r.1 = Ok false) rpre /\ eval_bool (ss_predicate_ e0) x.1 = Ok true
  /\ make_row (ss_output_ e0) (project (out_schema_idx_ e0) x.1) (Some x.2) = Ok q.

(** The scan builds the rows of the reference. *)
Lemma scan_row e0 info t r rs rows :
  good_schema (ss_output_ e0) -> stored info t r -> scan_rows e0 (r :: rs) = Ok rows ->
  exists v b, Evaluate (ss_predicate_ e0) t (Some (schema_ info)) = Ok v /\ GetAs_bool v = Ok b
  /\ eval_bool (ss_predicate_ e0) r.1 = Ok b /\
  if b then exists q rows', rows = q :: rows' /\ scan_rows e0 rs = Ok rows' /\ q.2 = Some (tuple_rid_ t)
      /\ scan_finds e0 [] r q
      /\ exists vals out, GetValues_loop t (schema_ info) (out_schema_idx_ e0) = Ok vals
      /\ Tuple_of_values vals (ss_output_ e0) = Ok out /\ row_of (ss_output_ e0) out q.1
  else scan_rows e0 rs = Ok rows.
Proof.
  intros Hs [Ht Hid] Hrows. apply select_cons in Hrows as (b & Hb & Hrows). pose proof Hb as Hb0. unfold eval_bool in Hb.
  destruct (eval (ss_predicate_ e0) r.1) as [v|] eqn:Ev; [|done]. exists v, b.
  split_and!; [by eapply Evaluate_row|done|done|]. destruct b; [|done]. destruct Hrows as (q & rows' & Hq & Hrest & ->).
  destruct (make_row_ok _ _ _ _ Hs Hq) as (row & out & Hrow & Eq & _ & Hout & Hro). exists q, rows'. rewrite Hid.
  split_and!; [done|done|by rewrite Eq|by split_and!|]. exists row, out. rewrite Eq. split_and!; try done. by eapply GetValues_row.
Qed.

Lemma scan_next e0 info h rs : forall ts rows fuel scan_fuel e w row,
  good_schema (ss_output_ e0) -> heaps info h -> scan_at e0 info h ts rs e -> scan_rows e0 rs = Ok rows -> rest w ->
  (length ts < fuel)%nat -> (length h < scan_fuel)%nat ->
  wp (SeqScan_Next_loop fuel scan_fuel e row) (fun r w' => rest w' /\ scan_static e0 info r.2 /\
    match rows with
    | [] => r.1.1 = false
    | q :: rows => r.1.1 = true /\ row_of (ss_output_ e0) r.1.2.1 q.1 /\ q.2 = Some r.1.2.2
        /\ exists pre t ts' rpre x rs', ts = pre ++ t :: ts' /\ rs = rpre ++ x :: rs' /\ length pre = length rpre
        /\ scan_finds e0 rpre x q /\ tuple_rid_ t = r.1.2.2 /\ scan_at e0 info h ts' rs' r.2 /\ scan_rows e0 rs' = Ok rows
    end) w.
Proof.
  induction rs as [|x rs IH]; intros ts rows fuel scan_fuel e w row Hs Hin Hst Hrows Hr Hfuel Hsf;
    (destruct fuel as [|fuel]; [lia|]); cbn [SeqScan_Next_loop]; pose proof Hst as ((Ho & Hp & Hi & Hx) & Hend & Hcur & Hall); rewrite Hend;
    inversion Hall as [|t ? ts' ? Ht Hall']; subst.
  - rewrite at_end_true by done. cbn [negb]. apply wp_ret. split; [exact Hr|]. injection Hrows as <-. by split.
  - pose proof (ar_heaps _ _ _ _ _ Hr info h Hin) as Hh. rewrite (cursor_end _ _ _ _ _ _ Hh Hcur). cbn [negb].
    apply wp_bind, (wp_on_table _ _ w (table_ info) h Hr).
    eapply wp_mono; [apply (wp_next (table_ info) (bpm_ w) h t ts'); [done|apply Hr|done|lia]|].
    intros r s' (it & -> & Hcur' & Hu). exists it. split; [done|]. split; [done|]. intros w' Hr'.
    assert (Hd : TableIterator_deref (cur_ e) = Ok t).
    { unfold TableIterator_deref. rewrite (cursor_end _ _ _ _ _ _ Hh Hcur). cbn [negb assert rbind]. f_equal. apply Hcur. }
    destruct (scan_row e0 info t x rs rows Hs Ht Hrows) as (v & b & Hv & Hb & Heb & Hcase).
    eapply wp_bind, wp_lift; [exact Hd|]. cbn [ss_table_info_ set_cur]. rewrite Hi. apply wp_bind, wp_ret. cbn [ss_predicate_ set_cur].
    rewrite Hp. eapply wp_bind, wp_lift; [exact Hv|]. eapply wp_bind, wp_lift; [exact Hb|]. simpl in Hfuel.
    assert (Hst' : scan_static e0 info (set_cur it e)) by (by split_and!).
    assert (Hat : scan_at e0 info h ts' rs (set_cur it e)) by (by split_and!). destruct b.
    + destruct Hcase as (q & rows' & -> & Hrest & Hq & Hfinds & vals & out & Hvals & Hout & Hro).
      cbn [out_schema_idx_ set_cur ss_output_]. rewrite Hx, Ho. eapply wp_bind, wp_lift; [exact Hvals|].
      eapply wp_bind, wp_lift; [exact Hout|]. apply wp_ret. split; [done|]. split; [done|]. cbn [fst snd].
      split_and!; [done|done|done|]. by exists [], t, ts', [], x, rs.
    + eapply wp_mono; [apply (IH ts' rows fuel scan_fuel (set_cur it e) w' row); try done; lia|].
      intros r w2 (Hw2 & Hs2 & Hc). split; [done|]. split; [done|]. destruct rows as [|q rows]; [done|].
      destruct Hc as (Hc1 & Hc2 & Hc3 & pre & t' & ts2 & rpre & x' & rs2 & -> & -> & Hlen & (Hpre & Hx') & Hc4).
      split_and!; [done..|]. exists (t :: pre), t', ts2, (x :: rpre), x', rs2. do 2 (split; [done|]). split; [by simpl; rewrite Hlen|].
      split; [split; [by constructor|done]|done].
Qed.

(** [Init]. *)
Lemma scan_init e0 info h rs e w fuel :
  heaps info h -> Forall2 (stored info) (heap_tuples h) rs -> scan_static e0 info e -> rest w -> (length h < fuel)%nat ->
  wp (SeqScan_Init fuel e) (fun e' w' => rest w' /\ scan_at e0 info h (heap_tuples h) rs e') w.
Proof.
  intros Hin Hall (Ho & Hp & Hi & Hx) Hr Hf. unfold SeqScan_Init. rewrite Hi. apply wp_bind, wp_ret.
  apply wp_bind, (wp_on_table _ _ w (table_ info) h Hr).
  eapply wp_mono; [apply (wp_begin (table_ info) (bpm_ w) h); [by apply Hr|apply Hr|lia]|].
  intros r s' (it & -> & Hc & Hu). exists it. split; [done|]. split; [done|]. intros w' Hr'. apply wp_ret. split; [done|]. by split_and!.
Qed.

Lemma scan_implements e0 info h rs rows :
  good_schema (ss_output_ e0) -> heaps info h -> Forall2 (stored info) (heap_tuples h) rs -> scan_rows e0 rs = Ok rows ->
  implements rest (scan_stands e0 info h) (ss_output_ e0) rows (Datatypes.S (length h + length (heap_tuples h))).
Proof.
  intros Hs Hin Hall Hrows. split.
  - eapply select_Forall; [|exact Hrows]. intros x q. by apply make_row_width.
  - intros e o ((Ho & _) & _). simpl. by rewrite Ho.
  - intros e o w fuel [Hst _] Hr Hf. simpl. eapply wp_mono; [apply (scan_init e0 info h rs e w fuel); try done; lia|].
    intros e' w' [Hr' Hat]. split; [done|]. split; [apply Hat|]. by exists (heap_tuples h), rs.
  - intros e rows' w fuel row (Hst & ts & rs' & Hat & Hrows' & Hle) Hr Hf. simpl.
    eapply wp_mono; [apply (scan_next e0 info h rs' ts rows' fuel fuel e w row); try done; lia|].
    intros r w' (Hr' & Hst' & Hc). split; [done|]. destruct rows' as [|q rows']; [by split|].
    destruct Hc as (Hb & Hrow & Hq & pre & t & ts' & rpre & x & rs2 & Ets & _ & _ & _ & _ & Hat' & Hrows2). split_and!; [done|done|by rewrite Hq; intros rid [= ]|].
    split; [done|]. exists ts', rs2. split_and!; [done|done|]. rewrite Ets in Hle. rewrite length_app in Hle. simpl in Hle. lia.
Qed.
End Rest.
Arguments Frame S P {_ _}.

(** * Limit and distinct *)

(** ** Keys that can be compared *)

Lemma keys_ok_plain keys : keys_ok keys = true -> exists ts, Forall (plain_keys ts) keys.
Proof.
  destruct keys as [|k0 keys]; [by exists []|]. unfold keys_ok. rewrite forallb_forall. intros Hk. exists (type_id_ <$> k0).
  apply Forall_forall. intros k Hin. apply list_elem_of_In, Hk, andb_true_iff in Hin as [Hp Ht%bool_decide_eq_true].
  rewrite forallb_forall in Hp.
  unfold plain_keys. rewrite <- Ht. clear -Hp. induction k as [|v k IH]; constructor.
  - split; [|done]. apply plain_b_sound, Hp. by left.
  - apply IH. intros x Hx. apply Hp. by right.
Qed.

Lemma all_values_row `{Config} s t row :
  GetColumnCount s = Z.of_nat (length row) -> row_of s t row -> all_values t s = Ok row.
Proof.
  intros Hc Hr. unfold all_values. rewrite Hc. apply (GetValues_row _ _ _ _ _ Hr). apply rmap_ok.
  apply Forall2_same_length_lookup. rewrite length_seqZ, Nat2Z.id. split; [done|]. intros i x v Hx Hv.
  apply lookup_seqZ in Hx as [-> _]. rewrite Z.add_0_l. by apply zlookup_nat.
Qed.

Lemma nub_by_cons {A K} `{EqDecision K} (f : A -> K) x l seen :
  filter (fun y => f y ∉ seen) (nub_by f (x :: l))
  = if decide (f x ∈ seen) then filter (fun y => f y ∉ seen) (nub_by f l)
    else x :: filter (fun y => f y ∉ seen ++ [f x]) (nub_by f l).
Proof.
  cbn [nub_by]. case_decide as Hx.
  - rewrite filter_cons_False by tauto. rewrite list_filter_filter. apply list_filter_iff. intros y. split; [tauto|].
    intros Hy. split; [done|]. by intros E; rewrite E in Hy.
  - rewrite filter_cons_True by done. f_equal. rewrite list_filter_filter. apply list_filter_iff. intros y. set_solver.
Qed.

Lemma nub_by_sub {A K} `{EqDecision K} (f : A -> K) x l : x ∈ nub_by f l -> x ∈ l.
Proof.
  induction l as [|y l IH]; [done|]. cbn [nub_by]. rewrite !elem_of_cons, list_elem_of_filter. intros [->|[_ Hx]]; [by left|right; by apply IH].
Qed.

Lemma filter_all {A} (P : A -> Prop) `{!forall x, Decision (P x)} (l : list A) : (forall x, x ∈ l -> P x) -> filter P l = l.
Proof.
  induction l as [|x l IH]; intros Hl; [done|]. rewrite filter_cons_True by (apply Hl; by left). f_equal. apply IH. intros y Hy.
  apply Hl. by right.
Qed.

Section ReadCorrect.
Context `{Config} `{!HashOrder} {S I C : Type} `{!AbstractExecutor S I C}.
Context (at_rest : ExecutorContext S I -> Prop) (stands : C -> option (list qrow) -> Prop) (s : Schema Expression) (rows : list qrow) (n : nat).
Hypothesis child : implements at_rest stands s rows n.

(** ** Limit *)

(** With [k] calls made, a row may come for the rest of the limit. *)
Definition limit_stands (limit : Z) (e : LimitExecutor C) (o : option (list qrow)) : Prop :=
  lm_output_ e = s /\ lm_limit_ e = limit /\
  match o with
  | None => exists o', stands (lm_child_ e) o'
  | Some rest => exists more, stands (lm_child_ e) (Some more) /\ 0 <= num_tuples_ e <= limit
      /\ rest = take (Z.to_nat (limit - num_tuples_ e)) more
  end.

Lemma limit_implements limit :
  0 <= limit < 2 ^ 64 -> implements at_rest (limit_stands limit) s (take (Z.to_nat limit) rows) n.
Proof.
  intros Hlim. split.
  - apply Forall_take, child.
  - intros e o (Ho & _). simpl. by rewrite Ho.
  - intros e o w fuel (Ho & Hl & Hst) Hr Hf. simpl. unfold Limit_Init. apply wp_bind.
    assert (exists o', stands (lm_child_ e) o') as [o' Hc] by (destruct o; [destruct Hst as (? & ? & _); by eexists|done]).
    eapply wp_mono; [by eapply (im_init _ _ _ _ _ child)|]. intros c w' [Hr' Hc']. apply wp_ret. split; [done|].
    split_and!; [done..|]. exists rows. cbn [num_tuples_]. rewrite Z.sub_0_r. split_and!; [done|lia..|done].
  - intros e rest w fuel row (Ho & Hl & more & Hst & Hn & ->) Hr Hf. simpl. unfold Limit_Next. rewrite Hl.
    cbn [lm_child_ lm_output_ lm_limit_ num_tuples_].
    destruct (num_tuples_ e <? limit) eqn:Hlt; [apply Z.ltb_lt in Hlt|apply Z.ltb_ge in Hlt].
    + apply wp_bind. eapply wp_mono; [by eapply (im_next _ _ _ _ _ child)|].
      intros [[b row'] c] w' [Hr' Hc]. apply wp_ret. split; [done|]. rewrite unsigned_id by (unfold is_unsigned; lia).
      replace (Z.to_nat (limit - num_tuples_ e)) with (Datatypes.S (Z.to_nat (limit - (num_tuples_ e + 1)))) by lia.
      destruct more as [|q more]; cbn [take].
      * destruct Hc as [Hb Hc]. split; [done|]. split_and!; [done..|]. by exists None.
      * destruct Hc as (Hb & Ht & Hid & Hc). split_and!; [done..|]. split_and!; [done..|]. exists more. cbn [num_tuples_ lm_child_ snd].
        split_and!; [done|lia..|done].
    + replace (Z.to_nat (limit - num_tuples_ e)) with 0%nat by lia. cbn [take]. apply wp_ret. split; [done|]. split; [done|].
      split_and!; [done..|]. by exists (Some more).
Qed.

(** ** Distinct *)

(** The rows left are those of a key not seen. *)
Definition distinct_stands (e : DistinctExecutor C) (o : option (list qrow)) : Prop :=
  ds_output_ e = s /\
  match o with
  | None => exists o', stands (ds_child_ e) o'
  | Some rest => exists more ts seen, stands (ds_child_ e) (Some more) /\ (length more <= length rows)%nat
      /\ Forall (fun q => GetColumnCount s = Z.of_nat (length q.1) /\ plain_keys ts q.1) more
      /\ umap_ok (hash_values 0) (plain_keys ts) (ds_hash_table_ e) /\ (ds_hash_table_ e).*2.*1 = seen
      /\ rest = filter (fun q => q.1 ∉ seen) (nub_by fst more)
  end.

Lemma distinct_next ts more : forall fuel child_fuel e w row,
  ds_output_ e = s -> stands (ds_child_ e) (Some more) -> (length more <= length rows)%nat ->
  Forall (fun q => GetColumnCount s = Z.of_nat (length q.1) /\ plain_keys ts q.1) more ->
  umap_ok (hash_values 0) (plain_keys ts) (ds_hash_table_ e) -> at_rest w -> (n <= child_fuel)%nat -> (length more < fuel)%nat ->
  wp (Distinct_Next_loop fuel child_fuel e row) (fun r w' => at_rest w' /\
    match filter (fun q => q.1 ∉ (ds_hash_table_ e).*2.*1) (nub_by fst more) with
    | [] => r.1.1 = false /\ distinct_stands r.2 None
    | q :: rest => r.1.1 = true /\ row_of s r.1.2.1 q.1 /\ (forall rid, q.2 = Some rid -> r.1.2.2 = rid)
        /\ distinct_stands r.2 (Some rest)
    end) w.
Proof.
  induction more as [|q more IH]; intros fuel child_fuel e w row Ho Hst Hlen Hall Hum Hr Hcf Hf; (destruct fuel as [|fuel]; [lia|]);
    cbn [Distinct_Next_loop]; apply wp_bind; (eapply wp_mono; [by eapply (im_next _ _ _ _ _ child)|]);
    intros [[b [t rid]] c] w' [Hr' Hc]; cbn [fst snd] in Hc.
  - destruct Hc as [-> Hc]. apply wp_ret. split; [done|]. split; [done|]. split; [done|]. by exists None.
  - destruct Hc as (-> & Ht & Hid & Hc). apply Forall_cons_1 in Hall as [[Hcol Hq] Hall]. cbn [ds_output_ ds_hash_table_ fst].
    rewrite Ho. eapply wp_bind, wp_lift; [by apply all_values_row|].
    pose proof (hash_values_ok ts) as Hhash. pose proof (eq_values_ok ts) as Heq.
    eapply wp_bind, wp_lift; [by apply (umap_count_ok _ _ (plain_keys ts)); [intros; apply Hhash|..]|].
    rewrite nub_by_cons. case_decide as Hd.
    + rewrite bool_decide_true by (by apply assoc_find_is_Some). cbn [negb]. simpl in Hlen, Hf.
      apply (IH fuel child_fuel (MkDistinct s c (ds_hash_table_ e)) w' (t, rid)); try done; lia.
    + rewrite bool_decide_false by (by rewrite assoc_find_is_Some). cbn [negb].
      destruct (umap_insert_ok (hash_values 0) eq_values (plain_keys ts) (fun k => Hhash k 0) Heq q.1 tt (ds_hash_table_ e)
        ((ds_hash_table_ e).*2 ++ [(q.1, tt)])) as (m' & Hm' & Hl' & Hum'); [done|done|by apply assoc_find_None|by rewrite assoc_update_new|].
      eapply wp_bind, wp_lift; [exact Hm'|]. apply wp_ret. split; [done|]. split_and!; [done..|]. split; [done|].
      exists more, ts, (m'.*2.*1). simpl in Hlen. split_and!; [done|lia|done|done|done|]. by rewrite Hl', fmap_app.
Qed.

Lemma distinct_implements :
  keys_ok rows.*1 = true -> implements at_rest distinct_stands s (nub_by fst rows) (Datatypes.S (n + length rows)).
Proof.
  intros [ts Hk]%keys_ok_plain. split.
  - apply Forall_forall. intros q Hq. apply nub_by_sub in Hq. by apply (proj1 (Forall_forall _ _) (im_width _ _ _ _ _ child)).
  - intros e o (Ho & _). simpl. by rewrite Ho.
  - intros e o w fuel (Ho & Hst) Hr Hf. simpl. unfold Distinct_Init. apply wp_bind.
    assert (exists o', stands (ds_child_ e) o') as [o' Hc] by (destruct o; [destruct Hst as (? & ? & ? & ? & _); by eexists|done]).
    eapply wp_mono; [eapply (im_init _ _ _ _ _ child); [done..|lia]|]. intros c w' [Hr' Hc']. apply wp_ret. split; [done|].
    split; [done|]. exists rows, ts, []. split_and!; [done|done| |by constructor|done|].
    + apply Forall_and. split; [by apply child|]. by apply (Forall_fmap fst).
    + symmetry. apply filter_all. intros x _. apply not_elem_of_nil.
  - intros e rest w fuel row (Ho & more & ts' & seen & Hst & Hlen & Hall & Hum & <- & ->) Hr Hf. simpl.
    apply (distinct_next ts' more); try done; lia.
Qed.
End ReadCorrect.
