(* ===== verification/JoinCorrect.v ===== *)
(** The joins produce the rows the reference says. *)

From S2P Require Import Prelude Bytes Rid BufferPoolManager Value Types TypesCorrect ValueFactory Schema Expression TablePage TupleValues.
From S2P Require Import Transaction TableHeap HashUtil Catalog Executor ReadExecutors JoinExecutors QuerySemantics ScanCorrect.

(** ** Output rows *)

Lemma Join_loop_ok columns left_value right_value left_value' right_value' vs :
  (forall i v, left_value i = Ok v -> left_value' i = Ok v) -> (forall i v, right_value i = Ok v -> right_value' i = Ok v) ->
  Join_loop columns left_value right_value = Ok vs -> Join_loop columns left_value' right_value' = Ok vs.
Proof.
  intros Hl Hr. revert vs. induction columns as [|c columns IH]; intros vs; [done|]. cbn [Join_loop].
  destruct (as_column (expr_ c)) as [[ti ci]|]; [|done]. cbn [rbind].
  assert (Hc : forall v, (if ti =? 0 then left_value ci else right_value ci) = Ok v ->
    (if ti =? 0 then left_value' ci else right_value' ci) = Ok v) by (case_match; auto).
  destruct (if ti =? 0 then left_value ci else right_value ci) as [v|]; [|done]. rewrite (Hc v eq_refl). cbn [rbind].
  destruct (Join_loop columns left_value right_value) as [vs'|]; [|done]. by rewrite (IH vs' eq_refl).
Qed.

Section JoinCorrect.
Context `{Config} `{!HashOrder} {S I L R : Type} `{!AbstractExecutor S I L} `{!AbstractExecutor S I R}.
Context (at_rest : ExecutorContext S I -> Prop).
Context (stands_l : L -> option (list qrow) -> Prop) (sl : Schema Expression) (left_rows : list qrow) (n_l : nat).
Context (stands_r : R -> option (list qrow) -> Prop) (sr : Schema Expression) (right_rows : list qrow) (n_r : nat).
Hypothesis left_child : implements at_rest stands_l sl left_rows n_l.
Hypothesis right_child : implements at_rest stands_r sr right_rows n_r.

(** ** Nested-loop join *)

Section NestedLoopJoin.
Context (out : Schema Expression) (predicate : Expression).
Hypothesis good : good_schema out.
Notation join := (NestedLoopJoinExecutor L R).

Definition join_pairs (pairs : list (list Value * list Value)) : res (list qrow) :=
  select (fun p => let! v := eval_join predicate p.1 p.2 in GetAs_bool v)
    (fun p => make_row out (join_columns out p.1 p.2) None) pairs.

Definition pairs_of (ls rs : list qrow) : list (list Value * list Value) := ls ≫= fun l => (fun r => (l.1, r.1)) <$> rs.

(** The left tuple has the right rows [rs] before it, the left rows [ls] all of
    them. *)
Definition nl_left (e : join) (ls rs : list qrow) (rest : list qrow) : Prop :=
  stands_l (nl_left_ e) (Some ls) /\ stands_r (nl_right_ e) (Some rs)
  /\ (length ls <= length left_rows)%nat /\ (length rs <= length right_rows)%nat
  /\ exists l, row_of sl (left_tuple_ e) l
  /\ join_pairs (((fun r => (l, r.1)) <$> rs) ++ pairs_of ls right_rows) = Ok rest.

Definition nl_static (e : join) : Prop :=
  nl_output_ e = out /\ nl_predicate_ e = predicate /\ nl_left_schema_ e = Some sl /\ nl_right_schema_ e = Some sr.

Definition nl_stands (e : join) (o : option (list qrow)) : Prop :=
  nl_static e /\
  match o with
  | None => (exists o, stands_l (nl_left_ e) o) /\ (exists o, stands_r (nl_right_ e) o)
  | Some rest =>
      is_left_selected_ e = Some false /\ rest = [] /\ (exists o, stands_l (nl_left_ e) o) /\ (exists o, stands_r (nl_right_ e) o)
      \/ is_left_selected_ e = Some true /\ exists ls rs, nl_left e ls rs rest
  end.

Lemma nl_stands_none e o : nl_stands e o -> nl_stands e None.
Proof.
  intros [Hs Hst]. split; [done|]. destruct o as [rest|]; [|done].
  destruct Hst as [(_ & _ & ? & ?)|(_ & ls & rs & ? & ? & _)]; [done|]. split; by eexists.
Qed.

Lemma nl_loop : forall fuel child_fuel e ls rs rest w right_row row,
  nl_static e -> is_left_selected_ e = Some true -> nl_left e ls rs rest ->
  at_rest w -> (n_l <= child_fuel)%nat -> (n_r <= child_fuel)%nat ->
  (length rs + length ls * Datatypes.S (length right_rows) < fuel)%nat ->
  wp (NestedLoopJoin_loop fuel child_fuel e right_row row) (fun r w' => at_rest w' /\
    match rest with
    | [] => r.1.1 = false /\ nl_stands r.2 None
    | q :: rest => r.1.1 = true /\ row_of out r.1.2.1 q.1 /\ (forall rid, q.2 = Some rid -> r.1.2.2 = rid)
        /\ nl_stands r.2 (Some rest)
    end) w.
Proof.
  induction fuel as [|fuel IH]; intros * (Ho & Hp & Hsl & Hsr) Hsel (Hl & Hr & Hll & Hlr & l & Hrow & Hpairs) Hw Hnl Hnr Hf; [lia|].
  cbn [NestedLoopJoin_loop]. apply wp_bind.
  eapply wp_mono; [by eapply (im_next _ _ _ _ _ right_child)|]. intros [[b right_row'] r] w1 [Hw1 Hc]. cbn [fst snd] in Hc.
  destruct rs as [|x rs].
  - destruct Hc as [-> Hc]. cbn [negb]. apply wp_bind.
    eapply wp_mono; [by eapply (im_next _ _ _ _ _ left_child)|]. intros [[b left_row] lc] w2 [Hw2 Hd]. cbn [fst snd] in Hd.
    destruct ls as [|y ls].
    + destruct Hd as [-> Hd]. cbn [negb]. apply wp_ret. injection Hpairs as <-. split; [done|]. split; [done|].
      split; [by split_and!|]. split; by eexists.
    + destruct Hd as (-> & Hy & _ & Hd). cbn [negb]. apply wp_bind.
      eapply wp_mono; [by eapply (im_init _ _ _ _ _ right_child)|]. intros rc w3 [Hw3 Hrc].
      apply (IH child_fuel _ ls right_rows rest); try done; [|simpl in *; nia]. split_and!; [done..|simpl in *; lia|done|].
      exists y.1. by split.
  - destruct Hc as (-> & Hx & _ & Hc). cbn [negb]. apply select_cons in Hpairs as (keep & Hkeep & Hpairs). cbn [fst snd] in Hkeep, Hpairs.
    destruct (eval_join predicate l x.1) as [v|] eqn:Ev; [|done].
    cbn [nl_set nl_predicate_ nl_left_schema_ nl_right_schema_ nl_output_ nl_left_ nl_right_ left_tuple_ left_rid_ is_left_selected_].
    rewrite Hp, Hsl, Hsr, Ho. eapply wp_bind, wp_lift; [by eapply EvaluateJoin_row|]. eapply wp_bind, wp_lift; [exact Hkeep|].
    destruct keep.
    + destruct Hpairs as (q & rest' & Hq & Hrest & ->). destruct (make_row_ok _ _ _ _ good Hq) as (vals & t & Hvals & -> & _ & Ht & Hrt).
      eapply wp_bind, wp_lift; [|eapply wp_bind, wp_lift; [exact Ht|]].
      { eapply Join_loop_ok; [| |exact Hvals]; intros i v' Hv'; cbn [value_under of_option rbind]; auto. }
      apply wp_ret. split; [done|]. split_and!; [done..|]. split; [by split_and!|]. right. split; [done|]. exists ls, rs.
      split_and!; [done..|simpl in *; lia|]. exists l. by split.
    + apply (IH child_fuel _ ls rs rest); try done; [|simpl in *; lia]. split_and!; [done..|simpl in *; lia|]. exists l. by split.
Qed.

Lemma nested_loop_implements rows :
  join_pairs (pairs_of left_rows right_rows) = Ok rows ->
  implements at_rest nl_stands out rows
    (n_l + n_r + Datatypes.S (length right_rows + length left_rows * Datatypes.S (length right_rows))).
Proof.
  intros Hrows. split.
  - eapply select_Forall; [|exact Hrows]. intros x q. by apply make_row_width.
  - intros e o ((Ho & _) & _). simpl. by rewrite Ho.
  - intros e o w fuel [Hs [[ol Hl] [o_r Hr]]]%nl_stands_none Hw Hf. simpl. unfold NestedLoopJoin_Init. apply wp_bind.
    eapply wp_mono; [eapply (im_init _ _ _ _ _ left_child); [done..|lia]|]. intros l w1 [Hw1 Hl1]. apply wp_bind.
    eapply wp_mono; [eapply (im_init _ _ _ _ _ right_child); [done..|lia]|]. intros r w2 [Hw2 Hr2]. apply wp_bind.
    eapply wp_mono; [eapply (im_next _ _ _ _ _ left_child); [done..|lia]|]. intros [[b row] l'] w3 [Hw3 Hc]. cbn [fst snd] in Hc.
    apply wp_ret. split; [done|]. split; [done|]. destruct left_rows as [|x ls] eqn:El.
    + left. destruct Hc as [-> Hc]. injection Hrows as <-. split_and!; [done|done|by eexists|by eexists].
    + right. destruct Hc as (-> & Hx & _ & Hc). split; [done|]. exists ls, right_rows. split_and!; [done|done|rewrite El; simpl; lia|done|].
      by exists x.1.
  - intros e rest w fuel row [Hs Hst] Hw Hf. simpl. unfold NestedLoopJoin_Next. destruct Hst as [(Hsel & -> & Hl & Hr)|(Hsel & ls & rs & Hst)].
    + rewrite Hsel. apply wp_ret. by split.
    + rewrite Hsel. pose proof Hst as (_ & _ & ? & ? & _). by apply (nl_loop fuel fuel e ls rs rest); try done; nia.
Qed.
End NestedLoopJoin.

(** ** Hash join *)

Section HashJoin.
Context (out : Schema Expression) (left_key right_key : Expression).
Hypothesis good : good_schema out.
Notation join := (HashJoinExecutor L R).

(** A key of the type of the others. *)
Definition good_key (t : TypeId) (v : Value) : Prop := plain v /\ type_id_ v = t.

Lemma good_key_hash t v : good_key t v -> exists h, HashValue v = Ok h.
Proof. intros [Hv _]. by apply plain_hash. Qed.
Lemma good_key_eq t v v' : good_key t v -> good_key t v' -> eq_value v v' = Ok (bool_decide (v = v')).
Proof.
  intros [Hv Ht] [Hv' Ht']. unfold eq_value. rewrite plain_equal by congruence. cbn [rbind]. f_equal.
  destruct (bool_decide (v = v')); by vm_compute.
Qed.

Definition keyed_left (ls : list qrow) : res (list (Value * list Value)) :=
  rmap (fun l => let! k := eval left_key l.1 in Ok (k, l.1)) ls.
Definition keyed_right (rs : list qrow) : res (list (Value * qrow)) :=
  rmap (fun r => let! k := eval right_key r.1 in Ok (k, r)) rs.

(** The container holds these rows, one per key. *)
Definition holds_lefts (t : TypeId) (table : list (Z * (Value * list (list Value)))) (lefts : list (Value * list Value)) : Prop :=
  umap_ok HashValue (good_key t) table /\ table.*2 = (fun p => (p.1, [p.2])) <$> lefts.

Lemma HashJoin_insert_ok t table lefts key row :
  good_key t key -> holds_lefts t table lefts -> key ∉ lefts.*1 ->
  exists table', HashJoin_insert key row table = Ok table' /\ holds_lefts t table' (lefts ++ [(key, row)]).
Proof.
  intros Hk [Hum Ht] Hnew. unfold HashJoin_insert.
  assert (Hn : key ∉ table.*2.*1) by (rewrite Ht, <- list_fmap_compose; exact Hnew).
  rewrite (umap_count_ok _ _ (good_key t) (good_key_hash t) (good_key_eq t)) by done. cbn [rbind].
  rewrite bool_decide_false by (by rewrite assoc_find_is_Some).
  destruct (umap_insert_ok _ eq_value _ (good_key_hash t) (good_key_eq t) key [row] table (table.*2 ++ [(key, [row])]))
    as (table' & -> & Ht' & Hum'); [done|done|by apply assoc_find_None|by rewrite assoc_update_new|].
  exists table'. split; [done|]. split; [done|]. by rewrite Ht', Ht, fmap_app.
Qed.

Lemma hash_build t : forall ls lefts more fuel child_fuel l row table w,
  stands_l l (Some ls) -> Forall (fun q => GetColumnCount sl = Z.of_nat (length q.1)) ls -> keyed_left ls = Ok more ->
  Forall (good_key t) more.*1 -> NoDup (lefts ++ more).*1 -> holds_lefts t table lefts ->
  at_rest w -> (n_l <= child_fuel)%nat -> (length ls < fuel)%nat ->
  wp (HashJoin_build fuel child_fuel (Some sl) left_key l row table) (fun r w' =>
    at_rest w' /\ stands_l r.1 None /\ holds_lefts t r.2 (lefts ++ more)) w.
Proof.
  induction ls as [|x ls IH]; intros * Hl Hwidth Hmore Hkeys Hnd Hh Hw Hcf Hf; (destruct fuel as [|fuel]; [lia|]); cbn [HashJoin_build];
    apply wp_bind; (eapply wp_mono; [by eapply (im_next _ _ _ _ _ left_child)|]); intros [[b row'] l'] w' [Hw' Hc]; cbn [fst snd] in Hc.
  - destruct Hc as [-> Hc]. apply wp_ret. injection Hmore as <-. by rewrite app_nil_r.
  - destruct Hc as (-> & Hx & _ & Hc). apply rmap_cons in Hmore as (y & more' & Hy & Hmore & ->).
    destruct (eval left_key x.1) as [k|] eqn:Ek; [|done]. injection Hy as <-. apply Forall_cons in Hwidth as [Hwx Hwidth].
    cbn [fmap list_fmap fst] in Hkeys. apply Forall_cons in Hkeys as [Hk Hkeys]. simpl in Hf.
    eapply wp_bind, wp_lift; [by eapply Evaluate_row|]. apply wp_bind, wp_ret. eapply wp_bind, wp_lift; [by apply all_values_row|].
    destruct (HashJoin_insert_ok t table lefts k x.1) as (table' & Hins & Hh'); [done|done| |].
    { rewrite fmap_app in Hnd. apply NoDup_app in Hnd as (_ & Hd & _). intros Hin. apply (Hd k Hin). by left. }
    eapply wp_bind, wp_lift; [exact Hins|].
    replace (lefts ++ (k, x.1) :: more') with ((lefts ++ [(k, x.1)]) ++ more') in * by (by rewrite <- app_assoc).
    apply IH; try done. lia.
Qed.

Section Probe.
Context (t : TypeId) (lefts : list (Value * list Value)).

(** The rows of the right rows that are left. *)
Definition matches (rights : list (Value * qrow)) : res (list qrow) :=
  rmap (fun p => make_row out (join_columns out p.1 p.2.1) p.2.2)
    (rights ≫= fun r => match assoc_find r.1 lefts with Some l => [(l, r.2)] | None => [] end).

Definition hj_static (e : join) : Prop :=
  hj_output_ e = out /\ hj_right_schema_ e = Some sr /\ hj_right_key_ e = right_key /\ holds_lefts t (hj_hash_table_ e) lefts
  /\ exists o, stands_l (hj_left_ e) o.

Definition hj_stands (e : join) (o : option (list qrow)) : Prop :=
  hj_static e /\
  match o with
  | None => exists o, stands_r (hj_right_ e) o
  | Some rest => Z.of_nat (length (outer_table_buffer_ e)) <= next_pos_ e
      /\ exists rs rights, stands_r (hj_right_ e) (Some rs) /\ (length rs <= length right_rows)%nat
      /\ keyed_right rs = Ok rights /\ Forall (good_key t) rights.*1 /\ matches rights = Ok rest
  end.

Lemma hash_emit e l x q w row rs rights rest :
  hj_static e -> outer_table_buffer_ e = [l] -> next_pos_ e = 0 -> row_of sr row.1 x ->
  (forall rid, q.2 = Some rid -> row.2 = rid) -> make_row out (join_columns out l x) q.2 = Ok q ->
  stands_r (hj_right_ e) (Some rs) -> (length rs <= length right_rows)%nat -> keyed_right rs = Ok rights ->
  Forall (good_key t) rights.*1 -> matches rights = Ok rest -> at_rest w ->
  wp (lift (HashJoin_emit e row)) (fun r w' => at_rest w' /\ r.1.1 = true /\ row_of out r.1.2.1 q.1
    /\ (forall rid, q.2 = Some rid -> r.1.2.2 = rid) /\ hj_stands r.2 (Some rest)) w.
Proof.
  intros Hst Hb Hn Hx Hid Hq Hrs Hlen Hrights Hkeys Hrest Hw. pose proof Hst as (Ho & Hs & _).
  destruct (make_row_ok _ _ _ _ good Hq) as (vals & tup & Hvals & Eq & _ & Ht & Hrt).
  assert (Hrun : HashJoin_emit e row = Ok (true, (tup, row.2), hj_set (hj_left_ e) (hj_right_ e) 1 [l] e)).
  { unfold HashJoin_emit. rewrite Ho, Hs, Hn, Hb.
    erewrite Join_loop_ok; [..|exact Hvals]; cbn [rbind]; [by rewrite Ht|by intros|intros i v; cbn [value_under of_option rbind]; auto]. }
  eapply wp_lift; [exact Hrun|]. split; [done|]. rewrite Eq in *. split_and!; [done..|]. split; [done|]. split; [done|].
  by exists rs, rights.
Qed.

Lemma hash_probe : forall rs rights rest fuel child_fuel e w row,
  hj_static e -> stands_r (hj_right_ e) (Some rs) -> (length rs <= length right_rows)%nat -> keyed_right rs = Ok rights ->
  Forall (good_key t) rights.*1 -> matches rights = Ok rest -> at_rest w -> (n_r <= child_fuel)%nat -> (length rs < fuel)%nat ->
  wp (HashJoin_probe fuel child_fuel e row) (fun x =>
    wp (let ' (is_find, row, e) := x in if negb is_find then sret (false, row, e) else lift (HashJoin_emit e row)) (fun r w' => at_rest w' /\
    match rest with
    | [] => r.1.1 = false /\ hj_stands r.2 None
    | q :: rest => r.1.1 = true /\ row_of out r.1.2.1 q.1 /\ (forall rid, q.2 = Some rid -> r.1.2.2 = rid)
        /\ hj_stands r.2 (Some rest)
    end)) w.
Proof.
  induction rs as [|x rs IH]; intros * Hst Hr Hlen Hrights Hkeys Hrest Hw Hcf Hf; (destruct fuel as [|fuel]; [lia|]); cbn [HashJoin_probe];
    apply wp_bind; (eapply wp_mono; [by eapply (im_next _ _ _ _ _ right_child)|]); intros [[b row'] r] w' [Hw' Hc]; cbn [fst snd] in Hc.
  - destruct Hc as [-> Hc]. apply wp_ret. cbn [negb]. apply wp_ret. injection Hrights as <-. injection Hrest as <-.
    split; [done|]. split; [done|]. split; [done|]. by eexists.
  - destruct Hc as (-> & Hx & Hid & Hc). pose proof Hst as (Ho & Hs & Hk & [Hum Ht] & Hl).
    apply rmap_cons in Hrights as (y & rights' & Hy & Hrights & ->). destruct (eval right_key x.1) as [k|] eqn:Ek; [|done].
    injection Hy as <-. cbn [fmap list_fmap fst] in Hkeys. apply Forall_cons in Hkeys as [Hgk Hkeys]. simpl in Hlen, Hf.
    cbn [hj_set hj_right_key_ hj_right_schema_ hj_hash_table_ hj_left_ hj_right_ next_pos_ outer_table_buffer_]. rewrite Hk, Hs.
    eapply wp_bind, wp_lift; [by eapply Evaluate_row|].
    destruct (umap_lookup_ok _ _ _ (good_key_hash t) (good_key_eq t) k (hj_hash_table_ e) Hgk Hum) as (i & Hi & Hfind).
    eapply wp_bind, wp_lift; [exact Hi|].
    assert (Hfind' : assoc_find k (hj_hash_table_ e).*2 = (fun l => [l]) <$> assoc_find k lefts) by (rewrite Ht; apply (assoc_find_fmap k (fun l => [l]) lefts)).
    rewrite Hfind' in Hfind. unfold matches in Hrest. cbn [mbind list_bind fst snd] in Hrest.
    destruct (assoc_find k lefts) as [l|]; cbn [fmap option_fmap option_map app] in Hfind, Hrest.
    + destruct (i ≫= fun i => hj_hash_table_ e !! i) as [[c [k' rows]]|]; [|done]. cbn [fmap option_fmap option_map snd] in Hfind.
      injection Hfind as ->. apply rmap_cons in Hrest as (q & rest' & Hq & Hrest & ->). cbn [fst snd] in Hq. apply wp_ret. cbn [negb].
      assert (Hq2 : q.2 = x.2) by (by destruct (make_row_ok _ _ _ _ good Hq) as (? & ? & _ & -> & _)).
      apply (hash_emit _ l x.1 q w' row' rs rights' rest'); try done; [by rewrite Hq2|by rewrite Hq2|lia].
    + destruct (i ≫= fun i => hj_hash_table_ e !! i) as [e'|]; [done|]. by apply (IH rights' rest fuel child_fuel _ w' row'); try done; lia.
Qed.

Lemma hash_join_implements rights rows :
  keyed_right right_rows = Ok rights -> Forall (good_key t) rights.*1 -> matches rights = Ok rows ->
  implements at_rest hj_stands out rows (n_l + n_r + Datatypes.S (length right_rows)).
Proof.
  intros Hrights Hkeys Hrows. split.
  - eapply rmap_Forall; [|exact Hrows]. intros x q. by apply make_row_width.
  - intros e o ((Ho & _) & _). simpl. by rewrite Ho.
  - intros e o w fuel [(Ho & Hs & Hk & Ht & ol & Hl) Hst] Hw Hf. simpl. unfold HashJoin_Init. apply wp_bind.
    assert (exists o, stands_r (hj_right_ e) o) as [o_r Hr].
    { destruct o; [|done]. destruct Hst as (_ & rs & ? & ? & _). by eexists. }
    eapply wp_mono; [eapply (im_init _ _ _ _ _ left_child); [done..|lia]|]. intros l w1 [Hw1 Hl1]. apply wp_bind.
    eapply wp_mono; [eapply (im_init _ _ _ _ _ right_child); [done..|lia]|]. intros r w2 [Hw2 Hr2]. apply wp_ret.
    split; [done|]. split; [|split; [done|by exists right_rows, rights]]. split_and!; try done. by eexists.
  - intros e rest w fuel row [Hst (Hpos & rs & rights' & Hr & Hlen & Hrs & Hk & Hrest)] Hw Hf. simpl. unfold HashJoin_Next.
    rewrite (proj2 (Z.leb_le _ _) Hpos). apply wp_bind, (hash_probe rs rights'); try done; lia.
Qed.
End Probe.

(** The constructor. *)
Lemma HashJoin_new_ok t lefts fuel l r o_l o_r w :
  stands_l l o_l -> stands_r r o_r -> keyed_left left_rows = Ok lefts -> Forall (good_key t) lefts.*1 -> NoDup lefts.*1 ->
  at_rest w -> (n_l + n_r + length left_rows < fuel)%nat ->
  wp (HashJoin_new fuel out (Some sl) (Some sr) left_key right_key l r) (fun e w' => at_rest w' /\ hj_stands t lefts e None) w.
Proof.
  intros Hl Hr Hlefts Hkeys Hnd Hw Hf. unfold HashJoin_new. apply wp_bind.
  eapply wp_mono; [eapply (im_init _ _ _ _ _ left_child); [done..|lia]|]. intros l1 w1 [Hw1 Hl1]. apply wp_bind.
  eapply wp_mono; [eapply (im_init _ _ _ _ _ right_child); [done..|lia]|]. intros r1 w2 [Hw2 Hr2]. apply wp_bind.
  eapply wp_mono; [apply (hash_build t left_rows [] lefts); try done; [apply left_child|split; [by apply Forall_nil|done]|lia..]|].
  intros [l2 table] w3 (Hw3 & Hl2 & Ht). apply wp_ret. split; [done|]. split; [|by eexists]. split_and!; try done. by eexists.
Qed.
End HashJoin.
End JoinCorrect.
