(* ===== verification/AggregationCorrect.v ===== *)
(** The aggregation produces the rows the reference says. *)

From S2P Require Import Prelude Bytes Rid BufferPoolManager Value Types TypesCorrect ValueFactory Schema Expression TablePage TupleValues.
From S2P Require Import Transaction TableHeap HashUtil Catalog Executor ReadExecutors JoinExecutors AggregationExecutor QuerySemantics ScanCorrect.

(** ** Lists *)

Lemma nub_snoc {A} `{EqDecision A} (l : list A) k : nub_by id (l ++ [k]) = if decide (k ∈ l) then nub_by id l else nub_by id l ++ [k].
Proof.
  induction l as [|x l IH]; [done|]. cbn [nub_by app id]. rewrite IH. destruct (decide (k ∈ l)) as [Hin|Hout].
  - by rewrite decide_True by (by right).
  - destruct (decide (k = x)) as [->|Hne].
    + rewrite decide_True by (by left). rewrite filter_app, filter_cons_False, filter_nil, app_nil_r by tauto. done.
    + rewrite decide_False by (rewrite elem_of_cons; tauto). by rewrite filter_app, filter_cons_True, filter_nil.
Qed.

Lemma nub_NoDup {A} `{EqDecision A} (l : list A) : NoDup (nub_by id l).
Proof.
  induction l as [|x l IH]; [constructor|]. cbn [nub_by id]. constructor; [|by apply NoDup_filter].
  rewrite list_elem_of_filter. tauto.
Qed.

Lemma nub_elem {A} `{EqDecision A} (l : list A) k : k ∈ nub_by id l <-> k ∈ l.
Proof.
  induction l as [|x l IH]; [done|]. cbn [nub_by id]. rewrite !elem_of_cons, list_elem_of_filter, IH.
  destruct (decide (k = x)); tauto.
Qed.

Lemma rmap_app {A B} (f : A -> res B) l l' : rmap f (l ++ l') = let! ys := rmap f l in let! ys' := rmap f l' in Ok (ys ++ ys').
Proof.
  induction l as [|x l IH]; cbn [rmap app]; [by destruct (rmap f l')|]. destruct (f x) as [y|]; [|done]. cbn [rbind]. rewrite IH.
  destruct (rmap f l) as [ys|]; [|done]. cbn [rbind]. by destruct (rmap f l').
Qed.

Lemma rmap_ext {A B} (f g : A -> res B) l : (forall x, x ∈ l -> f x = g x) -> rmap f l = rmap g l.
Proof.
  induction l as [|x l IH]; intros Hl; [done|]. cbn [rmap]. rewrite (Hl x) by (by left). destruct (g x); [|done]. cbn [rbind].
  rewrite IH; [done|]. intros y Hy. apply Hl. by right.
Qed.


(** *** Changing one key of a mapped list *)

Section Groups.
Context {K V X : Type} `{EqDecision K} (init : V) (f : V -> X -> res V).

(** The inputs of each key folded, in the order of the keys. *)
Definition fold_key (keyed : list (K * X)) (k : K) : res (K * V) :=
  let! v := rfold f init (filter (fun p => p.1 = k) keyed).*2 in Ok (k, v).
Definition grouped (keyed : list (K * X)) : res (list (K * V)) := rmap (fold_key keyed) (nub_by id keyed.*1).

Definition insert_one (groups : list (K * V)) (p : K * X) : res (list (K * V)) := assoc_update p.1 init (fun v => f v p.2) groups.

Lemma fold_key_other keyed p k : k <> p.1 -> fold_key (keyed ++ [p]) k = fold_key keyed k.
Proof. intros Hk. unfold fold_key. rewrite filter_app, (filter_cons_False _ p), filter_nil, app_nil_r by congruence. done. Qed.

Lemma fold_key_same keyed p : fold_key (keyed ++ [p]) p.1 = let! ' (k, v) := fold_key keyed p.1 in let! v := f v p.2 in Ok (k, v).
Proof.
  unfold fold_key. rewrite filter_app, (filter_cons_True _ p), filter_nil by done. rewrite fmap_app, rfold_app.
  destruct (rfold f init _) as [v|]; [|done]. cbn [rbind rfold fmap list_fmap]. by destruct (f v p.2).
Qed.

Lemma fold_key_key keyed k g : fold_key keyed k = Ok g -> g.1 = k.
Proof. unfold fold_key. destruct (rfold _ _ _); [|done]. by intros [= <-]. Qed.

Lemma fold_keys_keys keyed ks groups : rmap (fold_key keyed) ks = Ok groups -> groups.*1 = ks.
Proof.
  rewrite rmap_ok. induction 1 as [|k g ks groups Hg _ IH]; [done|]. cbn [fmap list_fmap]. rewrite (fold_key_key _ _ _ Hg).
  f_equal. exact IH.
Qed.

(** One more input for a key that is there. *)
Lemma grouped_old keyed p ks groups :
  NoDup ks -> p.1 ∈ ks -> rmap (fold_key (keyed ++ [p])) ks = Ok groups ->
  exists before, rmap (fold_key keyed) ks = Ok before /\ insert_one before p = Ok groups.
Proof.
  intros Hnd. revert groups. induction Hnd as [|k ks Hk Hnd IH]; intros groups Hin Hg; [by apply elem_of_nil in Hin|].
  apply rmap_cons in Hg as (g & groups' & Hg & Hrest & ->). cbn [rmap]. destruct (decide (k = p.1)) as [->|Hne].
  - rewrite fold_key_same in Hg. destruct (fold_key keyed p.1) as [[k v]|] eqn:E; [|done]. pose proof (fold_key_key _ _ _ E) as Hk'.
    cbn [fst] in Hk'. subst k. cbn [rbind] in Hg |- *. destruct (f v p.2) as [v'|] eqn:Ef; [|done]. injection Hg as <-.
    rewrite (rmap_ext _ (fold_key keyed)) in Hrest.
    2: { intros k Hk'. apply fold_key_other. by intros ->. }
    rewrite Hrest. eexists. split; [done|]. unfold insert_one. cbn [assoc_update]. rewrite decide_True by done. by rewrite Ef.
  - rewrite fold_key_other in Hg by done. rewrite Hg. cbn [rbind]. apply elem_of_cons in Hin as [?|Hin]; [congruence|].
    destruct (IH groups' Hin Hrest) as (before & -> & Hb). eexists. split; [done|]. unfold insert_one in *. destruct g as [k' v].
    pose proof (fold_key_key _ _ _ Hg) as Hk'. cbn [fst] in Hk'. subst k'. cbn [assoc_update]. by rewrite decide_False, Hb.
Qed.

(** Inserting the inputs one by one gives the groups. *)
Lemma grouped_fold keyed groups : grouped keyed = Ok groups -> rfold insert_one [] keyed = Ok groups.
Proof.
  revert groups. induction keyed as [|p keyed IH] using rev_ind; intros groups Hg; [done|]. unfold grouped in Hg.
  rewrite fmap_app in Hg. cbn [fmap list_fmap] in Hg. rewrite nub_snoc in Hg. rewrite rfold_app. case_decide as Hin.
  - apply grouped_old in Hg as (before & Hb & Hg); [|apply nub_NoDup|by apply nub_elem]. rewrite (IH before Hb). cbn [rbind rfold].
    by rewrite Hg.
  - rewrite rmap_app in Hg. rewrite (rmap_ext _ (fold_key keyed)) in Hg.
    2: { intros k Hk. apply fold_key_other. intros ->. exact (Hin (proj1 (nub_elem _ _) Hk)). }
    destruct (rmap (fold_key keyed) (nub_by id keyed.*1)) as [before|] eqn:E; [|done]. rewrite (IH before E). cbn [rbind rmap rfold] in Hg |- *.
    rewrite fold_key_same in Hg. unfold fold_key in Hg.
    assert (Hnone : filter (fun q => q.1 = p.1) keyed = []).
    { destruct (filter (fun q => q.1 = p.1) keyed) as [|q l] eqn:Eq; [done|]. exfalso. apply Hin.
      assert (Hq : q ∈ filter (fun q => q.1 = p.1) keyed) by (rewrite Eq; by left). apply list_elem_of_filter in Hq as [<- Hq].
      by apply list_elem_of_fmap_2. }
    rewrite Hnone in Hg. cbn [fmap list_fmap rfold rbind] in Hg. unfold insert_one. rewrite assoc_update_new.
    2: { rewrite (fold_keys_keys _ _ _ E). by rewrite nub_elem. }
    destruct (f init p.2); done.
Qed.
End Groups.

(** ** The hash table *)

Lemma Combine_loop_ok : forall ts results inputs types done_r pre_t pre_i out,
  length results = length ts -> length inputs = length ts -> length pre_t = length done_r -> length pre_i = length done_r ->
  types = pre_t ++ ts ->
  rmap (fun p => combine_one p.1 p.2.1 p.2.2) (zip ts (zip results inputs)) = Ok out ->
  Combine_loop (length ts) (Z.of_nat (length done_r)) types (done_r ++ results) (pre_i ++ inputs) = Ok (done_r ++ out).
Proof.
  induction ts as [|t ts IH]; intros [|r results] [|x inputs] types done_r pre_t pre_i out Hr Hi Hpt Hpi -> Hout; try done.
  - by injection Hout as <-.
  - cbn [zip zip_with] in Hout. apply rmap_cons in Hout as (v & out' & Hv & Hout & ->). cbn [fst snd] in Hv. cbn [length Combine_loop].
    rewrite (zlookup_nat (pre_t ++ t :: ts) _ t) by (rewrite <- Hpt; by apply list_lookup_middle). cbn [rbind].
    rewrite (zlookup_nat (done_r ++ r :: results) _ r) by (by apply list_lookup_middle). cbn [rbind].
    rewrite (zlookup_nat (pre_i ++ x :: inputs) _ x) by (rewrite <- Hpi; by apply list_lookup_middle). cbn [rbind].
    assert ((match t with CountAggregate => combine_one t r r | _ => combine_one t r x end) = Ok v) as Hv' by (by destruct t).
    rewrite Hv'. cbn [rbind]. rewrite zupdate_ok by (rewrite length_app; simpl; lia). cbn [rbind]. rewrite Nat2Z.id.
    replace (<[length done_r := v]> (done_r ++ r :: results)) with ((done_r ++ [v]) ++ results)
      by (rewrite <- app_assoc; symmetry; rewrite insert_app_r_alt, Nat.sub_diag by lia; done).
    replace (Z.of_nat (length done_r) + 1) with (Z.of_nat (length (done_r ++ [v]))) by (rewrite length_app; simpl; lia).
    rewrite (app_assoc done_r [v] out' : done_r ++ v :: out' = _). replace (pre_i ++ x :: inputs) with ((pre_i ++ [x]) ++ inputs) by (by rewrite <- app_assoc).
    apply (IH results inputs _ _ (pre_t ++ [t]) (pre_i ++ [x]) out'); try done.
    + by injection Hr.
    + by injection Hi.
    + rewrite !length_app. simpl. lia.
    + rewrite !length_app. simpl. lia.
    + by rewrite <- app_assoc.
Qed.

Section AggregationCorrect.
Context `{Config} `{!HashOrder} {S I C : Type} `{!AbstractExecutor S I C}.
Context (at_rest : ExecutorContext S I -> Prop) (stands : C -> option (list qrow) -> Prop) (s : Schema Expression) (rows : list qrow) (n : nat).
Hypothesis child : implements at_rest stands s rows n.
Context (out : Schema Expression) (having : option Expression) (group_bys aggregates : list Expression) (agg_types : list AggregationType).
Hypothesis good : good_schema out.
Context (init : list Value) (ts : list TypeId).
Hypothesis init_ok : GenerateInitialAggregateValue agg_types = Ok init.
Hypothesis same_length : length aggregates = length agg_types.

(** One input into a result, as the reference folds it. *)
Definition fold_one (result input : list Value) : res (list Value) :=
  rmap (fun p => combine_one p.1 p.2.1 p.2.2) (zip agg_types (zip result input)).

Notation insert := (insert_one (K := list Value) init fold_one).

Definition wide (v : list Value) : Prop := length v = length agg_types.

Lemma init_wide : wide init.
Proof.
  unfold wide. clear same_length. revert init init_ok. induction agg_types as [|t l IH]; intros i Hi; [by injection Hi as <-|].
  cbn [GenerateInitialAggregateValue] in Hi. destruct (match t with MinAggregate => _ | _ => _ end); [|done]. cbn [rbind] in Hi.
  destruct (GenerateInitialAggregateValue l) as [vs|]; [|done]. injection Hi as <-. simpl. f_equal. by apply IH.
Qed.

Lemma fold_one_wide r x v : wide r -> wide x -> fold_one r x = Ok v -> wide v.
Proof.
  unfold wide, fold_one. rewrite rmap_ok. intros Hr Hx Hv. apply Forall2_length in Hv. rewrite <- Hv, !length_zip. lia.
Qed.

Lemma CombineAggregateValues_ok r x v :
  wide r -> wide x -> fold_one r x = Ok v -> CombineAggregateValues aggregates agg_types r x = Ok v.
Proof.
  intros Hr Hx Hv. unfold CombineAggregateValues. rewrite same_length.
  by apply (Combine_loop_ok agg_types r x agg_types [] [] [] v).
Qed.

(** The table holds the groups. *)
Definition holds_groups (ht : agg_table) (groups : list (list Value * list Value)) : Prop :=
  umap_ok (hash_values 0) (plain_keys ts) ht /\ ht.*2 = groups /\ Forall (fun g => wide g.2) groups.

Lemma insert_wide groups p groups' :
  Forall (fun g => wide g.2) groups -> wide p.2 -> insert groups p = Ok groups' -> Forall (fun g => wide g.2) groups'.
Proof.
  unfold insert_one. intros Hg Hp. revert groups'. induction Hg as [|[k v] groups Hv Hg IH]; intros groups'; cbn [assoc_update].
  - destruct (fold_one init p.2) as [v|] eqn:E; [|done]. intros [= <-]. constructor; [|done]. by eapply fold_one_wide; [apply init_wide|..].
  - case_decide.
    + destruct (fold_one v p.2) as [v'|] eqn:E; [|done]. intros [= <-]. constructor; [|done]. by eapply fold_one_wide; [exact Hv|..].
    + destruct (assoc_update _ _ _ groups) as [l|]; [|done]. intros [= <-]. constructor; [done|]. by apply IH.
Qed.

Lemma InsertCombine_ok ht groups key input groups' :
  holds_groups ht groups -> plain_keys ts key -> wide input -> insert groups (key, input) = Ok groups' ->
  exists ht', InsertCombine aggregates agg_types key input ht = Ok ht' /\ holds_groups ht' groups'.
Proof.
  intros (Hum & Hht & Hw) Hk Hi Hins. pose proof (insert_wide _ (key, input) _ Hw Hi Hins) as Hw'.
  pose proof (fun k => hash_values_ok ts k 0) as Hhash. pose proof (eq_values_ok ts) as Heq. unfold InsertCombine.
  rewrite (umap_count_ok _ _ (plain_keys ts)), Hht by done. cbn [rbind]. unfold insert_one in Hins. cbn [fst snd] in Hins.
  case_bool_decide as Hthere; rewrite assoc_find_is_Some in Hthere; cbn [rbind].
  - assert (Hup : assoc_update key [] (fun r => CombineAggregateValues aggregates agg_types r input) ht.*2 = Ok groups').
    { rewrite Hht. eapply (assoc_update_there _ _ _ _ _ wide); [done| |done|exact Hins]. intros v v' Hv. by apply CombineAggregateValues_ok. }
    destruct (umap_at_ok _ _ _ Hhash Heq _ _ _ _ _ Hk Hum Hup) as (ht' & -> & Hht' & Hum'). by exists ht'.
  - rewrite init_ok. cbn [rbind].
    destruct (umap_insert_ok _ _ _ Hhash Heq key init ht (groups ++ [(key, init)])) as (ht1 & -> & Hht1 & Hum1);
      [done|done|by rewrite Hht; apply assoc_find_None|by rewrite Hht, assoc_update_new|]. cbn [rbind].
    rewrite assoc_update_new in Hins by done. destruct (fold_one init input) as [v|] eqn:E; [|done]. injection Hins as <-.
    assert (Hup : assoc_update key [] (fun r => CombineAggregateValues aggregates agg_types r input) ht1.*2 = Ok (groups ++ [(key, v)])).
    { rewrite Hht1, assoc_update_last by done. by rewrite (CombineAggregateValues_ok _ _ v init_wide Hi E). }
    destruct (umap_at_ok _ _ _ Hhash Heq _ _ _ _ _ Hk Hum1 Hup) as (ht' & -> & Hht' & Hum'). by exists ht'.
Qed.

(** ** The constructor *)

Lemma evaluate_all_row es t row vs :
  row_of s t row -> rmap (fun e => eval e row) es = Ok vs -> evaluate_all es t (Some s) = Ok vs.
Proof.
  intros Hr. rewrite rmap_ok. induction 1 as [|e v es vs Hv _ IH]; [done|]. cbn [evaluate_all].
  rewrite (Evaluate_row e s t row v Hr Hv). cbn [rbind]. by rewrite IH.
Qed.

(** The key and the input of a row. *)
Definition keyed_input (r : qrow) : res (list Value * list Value) :=
  let! key := match group_bys with [] => Ok init | _ => rmap (fun e => eval e r.1) group_bys end in
  let! input := rmap (fun e => eval e r.1) aggregates in Ok (key, input).

Lemma aggregation_build : forall more keyed groups groups' fuel child_fuel c row key ht w,
  stands c (Some more) -> rmap keyed_input more = Ok keyed -> Forall (plain_keys ts) keyed.*1 -> (group_bys = [] -> key = init) ->
  holds_groups ht groups -> rfold insert groups keyed = Ok groups' ->
  at_rest w -> (n <= child_fuel)%nat -> (length more < fuel)%nat ->
  wp (Aggregation_build fuel child_fuel group_bys aggregates agg_types c row key ht) (fun r w' =>
    at_rest w' /\ stands r.1 None /\ holds_groups r.2 groups') w.
Proof.
  induction more as [|q more IH]; intros * Hc Hkeyed Hkeys Hkey Hht Hgroups Hw Hcf Hf; (destruct fuel as [|fuel]; [lia|]); cbn [Aggregation_build];
    apply wp_bind; (eapply wp_mono; [by eapply (im_next _ _ _ _ _ child)|]); intros [[b row'] c'] w' [Hw' Hn]; cbn [fst snd] in Hn.
  - destruct Hn as [-> Hn]. apply wp_ret. injection Hkeyed as <-. by injection Hgroups as <-.
  - destruct Hn as (-> & Hq & _ & Hn). apply rmap_cons in Hkeyed as (p & keyed' & Hp & Hkeyed & ->). unfold keyed_input in Hp.
    destruct (match group_bys with [] => Ok init | _ => rmap (fun e => eval e q.1) group_bys end) as [k|] eqn:Ek; [|done].
    cbn [rbind] in Hp. destruct (rmap (fun e => eval e q.1) aggregates) as [input|] eqn:Ei; [|done]. injection Hp as <-.
    cbn [rfold] in Hgroups. destruct (insert groups (k, input)) as [groups1|] eqn:Eins; [|done]. cbn [rbind] in Hgroups.
    cbn [fmap list_fmap fst] in Hkeys. apply Forall_cons in Hkeys as [Hk Hkeys]. rewrite (im_schema _ _ _ _ _ child c' _ Hn).
    eapply wp_bind, wp_lift with (a := k).
    { destruct group_bys as [|g gs]; [by rewrite (Hkey eq_refl)|]. by eapply evaluate_all_row. }
    eapply wp_bind, wp_lift; [by eapply evaluate_all_row|].
    assert (Hwide : wide input) by (unfold wide; rewrite <- same_length; apply rmap_ok, Forall2_length in Ei; done).
    destruct (InsertCombine_ok ht groups k input groups1 Hht Hk Hwide Eins) as (ht' & Hins & Hht').
    eapply wp_bind, wp_lift; [exact Hins|]. simpl in Hf. apply (IH keyed' groups1); try done; [|lia].
    intros Hg. rewrite Hg in Ek. by injection Ek.
Qed.

(** ** The executor *)

Definition keep_group (g : list Value * list Value) : res bool :=
  match having with Some e => let! v := EvaluateAggregate e g.1 g.2 in GetAs_bool v | None => Ok true end.
Definition group_row (g : list Value * list Value) : res qrow := make_row out (Output_loop (columns_ out) g.1 g.2) None.

Definition ag_stands (groups : list (list Value * list Value)) (e : AggregationExecutor C) (o : option (list qrow)) : Prop :=
  ag_output_ e = out /\ ag_having_ e = having /\ (exists o, stands (ag_child_ e) o) /\ umap_elements (aht_ e) = groups /\
  match o with None => True | Some rest => select keep_group group_row (aht_iterator_ e) = Ok rest end.

Lemma Next_loop_ok it rest :
  select keep_group group_row it = Ok rest ->
  match rest with
  | [] => Aggregation_Next_loop out having it = Ok (None, [])
  | q :: rest => q.2 = None /\ exists t it', Aggregation_Next_loop out having it = Ok (Some t, it') /\ row_of out t q.1
      /\ select keep_group group_row it' = Ok rest
  end.
Proof.
  revert rest. induction it as [|[key val] it IH]; intros rest Hsel; [by injection Hsel as <-|]. cbn [Aggregation_Next_loop].
  apply select_cons in Hsel as (b & Hb & Hsel). unfold keep_group in Hb. cbn [fst snd] in Hb. rewrite Hb. cbn [rbind].
  destruct b; [|by apply IH]. destruct Hsel as (q & rest' & Hq & Hrest & ->).
  destruct (make_row_ok _ _ _ _ good Hq) as (vals & t & Hvals & -> & _ & Ht & Hrt). cbn [fst snd] in Hvals |- *. split; [done|].
  rewrite Hvals. cbn [rbind]. rewrite Ht. cbn [rbind]. by exists t, it.
Qed.

Lemma aggregation_implements groups result :
  select keep_group group_row (hash_order groups) = Ok result ->
  implements at_rest (ag_stands groups) out result n.
Proof.
  intros Hres. split.
  - eapply select_Forall; [|exact Hres]. intros x q. by apply make_row_width.
  - intros e o (Ho & _). simpl. by rewrite Ho.
  - intros e o w fuel (Ho & Hh & [o' Hc] & He & _) Hw Hf. simpl. unfold Aggregation_Init. apply wp_bind.
    eapply wp_mono; [by eapply (im_init _ _ _ _ _ child)|]. intros c w' [Hw' Hc']. apply wp_ret. split; [done|].
    split_and!; [done|done|by eexists|done|]. cbn [aht_iterator_]. by rewrite He.
  - intros e rest w fuel row (Ho & Hh & Hc & He & Hsel) Hw Hf. simpl. unfold Aggregation_Next. apply Next_loop_ok in Hsel.
    rewrite Ho, Hh. destruct rest as [|q rest].
    + eapply wp_bind, wp_lift; [exact Hsel|]. apply wp_ret. split; [done|]. split; [done|]. by split_and!.
    + destruct Hsel as (Hq & t & it' & Hrun & Ht & Hsel). eapply wp_bind, wp_lift; [exact Hrun|]. apply wp_ret. split; [done|].
      split_and!; [done|done|by rewrite Hq|]. by split_and!.
Qed.

Lemma Aggregation_new_ok keyed groups fuel c o w :
  stands c o -> rmap keyed_input rows = Ok keyed -> Forall (plain_keys ts) keyed.*1 -> grouped init fold_one keyed = Ok groups ->
  at_rest w -> (n + length rows < fuel)%nat ->
  wp (Aggregation_new fuel out having group_bys aggregates agg_types c) (fun e w' => at_rest w' /\ ag_stands groups e None) w.
Proof.
  intros Hc Hkeyed Hkeys Hgroups Hw Hf. unfold Aggregation_new. eapply wp_bind, wp_lift; [exact init_ok|]. apply wp_bind.
  eapply wp_mono; [eapply (im_init _ _ _ _ _ child); [done..|lia]|]. intros c1 w1 [Hw1 Hc1]. apply wp_bind.
  apply grouped_fold in Hgroups.
  eapply wp_mono; [apply (aggregation_build rows keyed [] groups); try done; [|lia..]|].
  { split_and!; [by apply Forall_nil|done|by constructor]. }
  intros [c2 ht] w2 (Hw2 & Hc2 & Hum & Hht & _). apply wp_ret. split; [done|]. split_and!; [done|done|by eexists|done|done].
Qed.
End AggregationCorrect.
