(* ===== verification/QueryCorrect.v ===== *)
(** Queries through the execution engine: what [Execute] returns for a plan is
    what the reference evaluator says, and the world is at rest again. *)

From S2P Require Import Prelude Bytes Rid BufferPoolManager Value Types TypesCorrect ValueFactory Schema Expression TablePage TablePageCorrect TupleValues TupleCorrect.
From S2P Require Import Transaction TableHeap TableHeapCorrect TableScan HashUtil Catalog Executor ReadExecutors JoinExecutors AggregationExecutor WriteExecutors ExecutionEngine.
From S2P Require Import QuerySemantics ScanCorrect JoinCorrect AggregationCorrect.


Lemma check_ok b (u : unit) : check b = Ok u -> b = true.
Proof. by destruct b. Qed.

Lemma keys_ok_type (keys : list Value) : keys_ok ((fun k => [k]) <$> keys) = true -> exists t, Forall (good_key t) keys.
Proof.
  destruct keys as [|k0 keys]; [by exists INVALID|]. intros [ts Hts]%keys_ok_plain. exists (type_id_ k0).
  pose proof Hts as Hts0. apply Forall_cons in Hts0 as [H0 _]. inversion H0 as [|? ? ts' ? [_ Ht] Hnil]; subst.
  inversion Hnil; subst. eapply Forall_impl; [exact (proj1 (Forall_fmap (fun k => [k]) _ (k0 :: keys)) Hts)|]. intros k Hk. by inversion Hk; subst.
Qed.

Section QueryCorrect.
Context `{Config} `{!HashOrder} {S P I : Type} `{!BufferPoolManager S P bytes} `{!BufferPoolSpec S P bytes} `{!Index S I}
  `{!TablePagesOk (good_data (S := S) (P := P)) (zero_data (S := S) (P := P))}.
Context (c : Catalog I) (txn : Transaction) (F : Frame S P) (heaps : TableInfo -> heap -> Prop).
Notation rest := (at_rest c txn F heaps).

Lemma wp_get_catalog (Q : Catalog I -> ExecutorContext S I -> Prop) w : Q (catalog_ w) w -> wp get_catalog Q w.
Proof. done. Qed.

(** The rows of the database are in the heaps of the catalog's tables. *)
Definition stores (db : database) : Prop :=
  forall oid info rs, db oid = Some (info, rs) ->
  GetTable oid c = Some info /\ exists h, heaps info h /\ Forall2 (stored info) (heap_tuples h) rs.

(** What the factory makes is an executor of these rows. *)
Definition creates (plan : PlanNode) (out : Schema Expression) (rows : list qrow) (n : nat) : Prop :=
  forall fuel (w : ExecutorContext S I), (n <= fuel)%nat -> rest w ->
  wp (CreateExecutor fuel plan) (fun a w' => rest w' /\ exists stands,
    @implements _ _ _ (any_methods a) rest stands out rows n /\ stands (any_object a) None) w.

Context (db : database).
Hypothesis Hdb : stores db.

Lemma create_scan out predicate oid rows :
  good_schema out -> denote_scan db out predicate oid = Ok rows -> exists n, creates (SeqScanPlanNode out predicate oid) out rows n.
Proof.
  intros Hs Hd. unfold denote_scan in Hd. destruct (db oid) as [[info rs]|] eqn:Edb; [|done]. cbn [of_option rbind] in Hd.
  apply rbind_ok in Hd as (idxs & Hidx & Hd). apply rbind_ok in Hd as (p & Hp & Hrows).
  destruct (Hdb oid info rs Edb) as (Hget & h & Hh & Hall).
  eexists. intros fuel w Hf Hw. cbn [CreateExecutor]. apply wp_bind. unfold SeqScan_new. apply wp_bind, wp_get_catalog.
  rewrite (ar_catalog _ _ _ _ _ Hw), Hget. eapply wp_bind, wp_lift; [exact Hidx|]. eapply wp_bind, wp_lift; [exact Hp|].
  apply wp_ret, wp_ret. split; [done|]. cbn [make any_methods any_object]. eexists.
  split; [by eapply (scan_implements c txn F heaps (MkSeqScan out p (Some info) idxs TableHeap_End TableHeap_End) info h rs)|].
  by split_and!.
Qed.

Lemma create_limit out plan limit rows n :
  0 <= limit < 2 ^ 64 -> creates plan out rows n -> creates (LimitPlanNode out plan limit) out (take (Z.to_nat limit) rows) n.
Proof.
  intros Hl Hc fuel w Hf Hw. cbn [CreateExecutor]. apply wp_bind. eapply wp_mono; [by apply Hc|].
  intros [C methods e] w' (Hw' & st & Him & Hst). apply wp_ret. split; [done|]. cbn [make any_methods any_object any_type] in *.
  eexists. split; [by apply (limit_implements _ _ _ _ _ Him)|]. split_and!; [done|done|by eexists].
Qed.

Lemma create_distinct out plan rows n :
  keys_ok rows.*1 = true -> creates plan out rows n -> creates (DistinctPlanNode out plan) out (nub_by fst rows) (Datatypes.S (n + length rows)).
Proof.
  intros Hk Hc fuel w Hf Hw. cbn [CreateExecutor]. apply wp_bind. eapply wp_mono; [by apply Hc; [lia|]|].
  intros [C methods e] w' (Hw' & st & Him & Hst). apply wp_ret. split; [done|]. cbn [make any_methods any_object any_type] in *.
  eexists. split; [by apply (distinct_implements _ _ _ _ _ Him)|]. split_and!; [done|by eexists].
Qed.

Lemma create_nested_loop out left_plan right_plan predicate sl sr left_rows right_rows rows nl nr :
  good_schema out -> OutputSchema left_plan = Some sl -> OutputSchema right_plan = Some sr ->
  creates left_plan sl left_rows nl -> creates right_plan sr right_rows nr ->
  denote_nested_loop out predicate left_rows right_rows = Ok rows ->
  exists n, creates (NestedLoopJoinPlanNode out left_plan right_plan predicate) out rows n.
Proof.
  intros Hs Hsl Hsr Hl Hr Hd. apply rbind_ok in Hd as (p & Hp & Hrows). eexists. intros fuel w Hf Hw. cbn [CreateExecutor].
  apply wp_bind. eapply wp_mono; [apply Hl; [|exact Hw]|]; [shelve|]. intros [L ml l] w1 (Hw1 & stl & Himl & Hstl).
  apply wp_bind. eapply wp_mono; [apply Hr; [|exact Hw1]|]; [shelve|]. intros [R mr r] w2 (Hw2 & str & Himr & Hstr).
  rewrite Hsl, Hsr. unfold NestedLoopJoin_new. eapply wp_bind, wp_lift; [by rewrite Hp|]. apply wp_ret. split; [done|].
  cbn [make any_methods any_object any_type] in *. eexists.
  split; [by apply (nested_loop_implements _ _ _ _ _ _ _ _ _ Himl Himr out p Hs)|]. split_and!; try done; by eexists.
  Unshelve. all: lia.
Qed.

Lemma create_hash_join out left_plan right_plan left_key right_key sl sr left_rows right_rows rows nl nr :
  good_schema out -> OutputSchema left_plan = Some sl -> OutputSchema right_plan = Some sr ->
  creates left_plan sl left_rows nl -> creates right_plan sr right_rows nr ->
  denote_hash_join out left_key right_key left_rows right_rows = Ok rows ->
  exists n, creates (HashJoinPlanNode out left_plan right_plan left_key right_key) out rows n.
Proof.
  intros Hs Hsl Hsr Hl Hr Hd. apply rbind_ok in Hd as (lefts & Hlefts & Hd). apply rbind_ok in Hd as (rights & Hrights & Hd).
  apply rbind_ok in Hd as (u & Hkeys%check_ok & Hd). apply rbind_ok in Hd as (u' & Hnd%check_ok%bool_decide_eq_true & Hrows).
  destruct (keys_ok_type _ Hkeys) as [t [Hkl Hkr]%Forall_app].
  exists (nl + nr + Datatypes.S (length left_rows + length right_rows))%nat. intros fuel w Hf Hw. cbn [CreateExecutor].
  apply wp_bind. eapply wp_mono; [apply Hl; [lia|exact Hw]|]. intros [L ml l] w1 (Hw1 & stl & Himl & Hstl).
  apply wp_bind. eapply wp_mono; [apply Hr; [lia|exact Hw1]|]. intros [R mr r] w2 (Hw2 & str & Himr & Hstr).
  rewrite Hsl, Hsr. cbn [any_methods any_object any_type] in *. apply wp_bind.
  eapply wp_mono; [eapply (HashJoin_new_ok _ _ _ _ _ _ _ _ _ Himl Himr out left_key right_key t lefts); try done; lia|].
  intros e w3 [Hw3 He]. apply wp_ret. split; [done|]. cbn [make any_methods any_object]. eexists. split; [|exact He].
  eapply implements_more; [|by eapply (hash_join_implements _ _ _ _ _ _ _ _ _ Himl Himr out right_key Hs t lefts rights)]. lia.
Qed.

Lemma create_aggregation out plan s having group_bys aggregates agg_types child_rows rows n :
  good_schema out -> creates plan s child_rows n ->
  denote_aggregation out having group_bys aggregates agg_types child_rows = Ok rows ->
  exists n, creates (AggregationPlanNode out plan having group_bys aggregates agg_types) out rows n.
Proof.
  intros Hs Hc Hd. apply rbind_ok in Hd as (u & Hlen%check_ok%bool_decide_eq_true & Hd). apply rbind_ok in Hd as (init & Hinit & Hd).
  apply rbind_ok in Hd as (keyed & Hkeyed & Hd). apply rbind_ok in Hd as (u' & Hkeys%check_ok & Hd).
  apply rbind_ok in Hd as (groups & Hgroups & Hrows). destruct (keys_ok_plain _ Hkeys) as [ts Hts].
  exists (Datatypes.S (n + length child_rows)). intros fuel w Hf Hw. cbn [CreateExecutor].
  apply wp_bind. eapply wp_mono; [apply Hc; [lia|exact Hw]|]. intros [C methods e] w1 (Hw1 & st & Him & Hst).
  cbn [any_methods any_object any_type] in *. apply wp_bind.
  eapply wp_mono; [eapply (Aggregation_new_ok _ _ _ _ _ Him out having group_bys aggregates agg_types init ts Hinit Hlen keyed groups); try done; lia|].
  intros e' w2 [Hw2 He]. apply wp_ret. split; [done|]. cbn [make any_methods any_object]. eexists. split; [|exact He].
  eapply implements_more; [|by eapply (aggregation_implements _ _ _ _ _ Him)]. lia.
Qed.

Lemma plan_creates plan : forall rows, plan_ok plan -> denote db plan = Ok rows ->
  exists out n, OutputSchema plan = Some out /\ creates plan out rows n.
Proof.
  induction plan as [out p oid| | | | | |out child IH having gs ags types|out child IH limit|out child IH|out l IHl r IHr p| |out l IHl r IHr lk rk];
    intros rows Hok Hd; try done; cbn [plan_ok denote] in Hok, Hd.
  - destruct (create_scan out p oid rows Hok Hd) as [n Hn]. by exists out, n.
  - destruct Hok as [Hok Hs]. apply rbind_ok in Hd as (child_rows & Hchild & Hd). destruct (IH child_rows Hok Hchild) as (s & n & Hs' & Hn).
    destruct (create_aggregation out child s having gs ags types child_rows rows n Hs Hn Hd) as [n' Hn']. by exists out, n'.
  - destruct Hok as (Hok & Hs & Hl). apply rbind_ok in Hd as (child_rows & Hchild & Hd). injection Hd as <-.
    destruct (IH child_rows Hok Hchild) as (s & n & Hs' & Hn). rewrite Hs in Hs'. injection Hs' as <-. exists out, n.
    split; [done|]. by apply create_limit.
  - destruct Hok as (Hok & Hs). apply rbind_ok in Hd as (child_rows & Hchild & Hd). apply rbind_ok in Hd as (u & Hk%check_ok & Hd).
    injection Hd as <-. destruct (IH child_rows Hok Hchild) as (s & n & Hs' & Hn). rewrite Hs in Hs'. injection Hs' as <-.
    exists out. eexists. split; [done|]. by apply create_distinct.
  - destruct Hok as (Hl & Hr & Hs). apply rbind_ok in Hd as (lrows & Hlr & Hd). apply rbind_ok in Hd as (rrows & Hrr & Hd).
    destruct (IHl lrows Hl Hlr) as (sl & nl & Hsl & Hnl), (IHr rrows Hr Hrr) as (sr & nr & Hsr & Hnr).
    destruct (create_nested_loop out l r p sl sr lrows rrows rows nl nr) as [n Hn]; try done. by exists out, n.
  - destruct Hok as (Hl & Hr & Hs). apply rbind_ok in Hd as (lrows & Hlr & Hd). apply rbind_ok in Hd as (rrows & Hrr & Hd).
    destruct (IHl lrows Hl Hlr) as (sl & nl & Hsl & Hnl), (IHr rrows Hr Hrr) as (sr & nr & Hsr & Hnr).
    destruct (create_hash_join out l r lk rk sl sr lrows rrows rows nl nr) as [n Hn]; try done. by exists out, n.
Qed.

(** ** The engine *)

Lemma execute_loop {E} `{!AbstractExecutor S I E} stands s all n : forall rows fuel exec_fuel e w row acc done_rows,
  implements rest stands s all n -> stands e (Some rows) -> rest w -> (n <= exec_fuel)%nat -> (length rows < fuel)%nat ->
  Forall2 (row_of s) acc done_rows ->
  wp (Execute_loop fuel exec_fuel e row acc) (fun tuples w' => rest w' /\ Forall2 (row_of s) tuples (done_rows ++ rows.*1)) w.
Proof.
  induction rows as [|q rows IH]; intros * Him Hst Hw Hn Hf Hacc; (destruct fuel as [|fuel]; [lia|]); cbn [Execute_loop]; apply wp_bind;
    (eapply wp_mono; [by eapply (im_next _ _ _ _ _ Him)|]); intros [[b row'] e'] w' [Hw' Hc]; cbn [fst snd] in Hc.
  - destruct Hc as [-> _]. apply wp_ret. rewrite app_nil_r. by split.
  - destruct Hc as (-> & Hq & _ & Hc). eapply wp_mono; [apply (IH _ _ _ _ _ _ (done_rows ++ [q.1])); try done; [simpl in Hf; lia|]|].
    { apply Forall2_app; [done|]. by constructor. }
    intros tuples w2 [Hw2 Ht]. split; [done|]. cbn [fmap list_fmap]. by rewrite <- app_assoc in Ht.
Qed.

Lemma plan_ok_reads plan : plan_ok plan -> modifies plan = false.
Proof. by destruct plan. Qed.

Lemma execute_ok plan rows : plan_ok plan -> denote db plan = Ok rows ->
  exists out n, OutputSchema plan = Some out /\ forall fuel w, (n <= fuel)%nat -> rest w ->
  exists tuples w', Execute fuel plan w = Ok (true, Some (tuples, w')) /\ rest w' /\ Forall2 (row_of out) tuples rows.*1.
Proof.
  intros Hok Hd. destruct (plan_creates plan rows Hok Hd) as (out & n & Hs & Hn). exists out, (Datatypes.S (n + length rows)). split; [done|].
  intros fuel w Hf Hw. assert (Hnf : (n <= fuel)%nat) by lia. apply (Hn fuel w Hnf), wp_run in Hw as ([E m e] & w1 & Hrun & Hw1 & st & Him & Hst).
  unfold Execute. rewrite Hrun. cbn [rbind any_methods any_object any_type] in *.
  pose proof (im_init _ _ _ _ _ Him _ _ _ _ Hst Hw1 Hnf) as Hinit. apply wp_run in Hinit as (e' & w2 & Hrun2 & Hw2 & Hst2).
  rewrite Hrun2. cbn [rbind].
  pose proof (execute_loop st out rows n rows fuel fuel e' w2 no_row [] [] Him Hst2 Hw2 Hnf ltac:(lia) ltac:(constructor)) as Hloop.
  apply wp_run in Hloop as (tuples & w3 & Hrun3 & Hw3 & Ht). rewrite Hrun3, plan_ok_reads by done. by exists tuples, w3.
Qed.
End QueryCorrect.
