(* ===== verification/WriteCorrect.v ===== *)
(** Deleting and updating the rows a scan of the same table finds. *)

From S2P Require Import Prelude Bytes Rid BufferPoolManager Value Types TypesCorrect ValueFactory Schema Expression TablePage TablePageCorrect TupleValues TupleCorrect.
From S2P Require Import Transaction TableHeap TableHeapCorrect TableScan LockManager RWLatch TransactionManager TransactionUndo RecordChange HashUtil Catalog Executor ReadExecutors JoinExecutors AggregationExecutor WriteExecutors ExecutionEngine.
From S2P Require Import QuerySemantics ScanCorrect QueryCorrect.

Section WriteCorrect.
Context `{Config} `{!HashOrder} {S P I : Type} `{!BufferPoolManager S P bytes} `{!BufferPoolSpec S P bytes} `{!Index S I}
  `{!TablePagesOk (good_data (S := S) (P := P)) (zero_data (S := S) (P := P))}.
Notation world := (ExecutorContext S I).

(** ** What a change of the rows a scan finds means *)

(** The rows of the table after the change: a row that the scan finds is
    replaced by [next_row] of the row itself and of the scan's output row, or
    removed. *)
Fixpoint change_rows (e0 : SeqScanExecutor) (next_row : list Value -> list Value -> res (option (list Value)))
    (rs : list (list Value * RID)) : res (list (list Value * RID)) :=
  match rs with
  | [] => Ok []
  | r :: rs =>
      let! b := eval_bool (ss_predicate_ e0) r.1 in
      let! here :=
        if b : bool then
          let! q := make_row (ss_output_ e0) (project (out_schema_idx_ e0) r.1) (Some r.2) in
          let! new := next_row r.1 q.1 in
          Ok (match new with Some row => [(row, r.2)] | None => [] end)
        else Ok [r] in
      let! rest := change_rows e0 next_row rs in
      Ok (here ++ rest)
  end.

(** The values of an updated row. *)
Definition updated_value (update_attrs : gmap Z UpdateInfo) (row : list Value) (idx : Z) : res Value :=
  let! val := zlookup row idx in
  match update_attrs !! idx with
  | None => Ok val
  | Some info =>
      let! update_val := GetIntegerValue (update_val_ info) in
      match update_type_ info with UpdateAdd => Value_Add val update_val | UpdateSet => Ok update_val end
  end.

(** The characters of a string are bytes. *)
Definition value_bytes (v : Value) : bool :=
  match value_ v with VVarlen (Some bs) => forallb (fun b => (0 <=? b) && (b <? 256)) bs | _ => true end.

(** The row an update puts in the place of [old]: of the same length. *)
Definition updated_row (s : Schema Expression) (update_attrs : gmap Z UpdateInfo) (old row : list Value) : res (option (list Value)) :=
  let! new := rmap (updated_value update_attrs row) (seqZ 0 (GetColumnCount s)) in
  let! new := build s new in
  let! _ := check (forallb value_bytes new && (var_size (columns_ s) new =? var_size (columns_ s) old)) in
  Ok (Some new).

(** The slots of the rows that are found, after the change: a mark, or the
    tuple of the new row. *)
Definition new_slot (s : Schema Expression) (t : Tuple) (new : option (list Value)) : slot :=
  match new with
  | None => Marked (tuple_data_ t)
  | Some row => match Tuple_of_values row s with Ok tuple => Live (tuple_data_ tuple) | Err _ => Empty end
  end.

Definition change_of (s : Schema Expression) (e0 : SeqScanExecutor) (next_row : list Value -> list Value -> res (option (list Value)))
    (t : Tuple) (r : list Value * RID) : list (Tuple * slot) :=
  match eval_bool (ss_predicate_ e0) r.1 with
  | Ok true =>
      match (let! q := make_row (ss_output_ e0) (project (out_schema_idx_ e0) r.1) (Some r.2) in next_row r.1 q.1) with
      | Ok new => [(t, new_slot s t new)]
      | Err _ => []
      end
  | _ => []
  end.
Definition changes (s : Schema Expression) (e0 : SeqScanExecutor) (next_row : list Value -> list Value -> res (option (list Value)))
    (ts : list Tuple) (rs : list (list Value * RID)) : list (Tuple * slot) :=
  zip ts rs ≫= fun p => change_of s e0 next_row p.1 p.2.

Lemma wp_on_table_write {A} (m : Transaction -> M S (A * Transaction)) (Q : A -> world -> Prop) w :
  wp (m (transaction_ w)) (fun r s' => Q r.1 (MkContext s' r.2 (catalog_ w))) (bpm_ w) -> wp (on_table m) Q w.
Proof.
  intros Hw. apply wp_run in Hw as ([a txn] & s' & Hrun & HQ). unfold wp, on_table. by rewrite Hrun.
Qed.

Context (c : Catalog I) (others : TableInfo -> heap -> Prop) (info : TableInfo).

(** The table's heap is [h], next to the heaps of other tables and the pages
    [X]. *)
Definition with_heap (h : heap) (i : TableInfo) (g : heap) : Prop := others i g \/ i = info /\ g = h.
Record apart (X : gset Z) (h : heap) : Prop := {
  ap_heaps i g p : others i g -> p ∈ h.*1 -> p ∉ g.*1;
  ap_pages p : p ∈ h.*1 -> p ∉ X
}.

Lemma apart_same X h h' : h'.*1 = h.*1 -> apart X h -> apart X h'.
Proof. intros E [H1 H2]. split; intros; rewrite E in *; [by eapply H1|by apply H2]. Qed.

(** A heap none of whose pages changes. *)
Lemma heap_inv_evolves_in Y t (s s' : S) (g : heap) :
  heap_inv t s g -> pool_ok s' -> evolves_in Y (view s) (view s') -> pins (view s') = pins (view s) ->
  (forall q, q ∈ g.*1 -> q ∉ Y) -> heap_inv t s' g.
Proof.
  intros [[Ho Hf Hn Hpg] Hpin] Hs' Hev Hpins HX. split; [|intros q Hq; rewrite Hpins; by apply Hpin]. split; [done..|].
  intros j q l Hj. destruct (Hpg j q l Hj) as (Hl & m & prev & Hx & Hrep). split; [by apply (ei_live _ _ _ Hev)|].
  exists m, prev. split; [|done]. apply (ei_logical _ _ _ Hev); [|done]. apply HX. by eapply lookup_id.
Qed.

Lemma rest_changed F txn txn' h h' p w s' :
  at_rest c txn F (with_heap h) w -> apart (fr_pages F) h -> p ∈ h.*1 -> touched (table_ info) (bpm_ w) s' h' p ->
  at_rest c txn' F (with_heap h') (MkContext s' txn' (catalog_ w)).
Proof.
  intros [Hc Ht Hp HF Hr Hh] Hap Hin Hto. split; simpl; try done.
  - by rewrite (to_pins _ _ _ _ _ Hto).
  - eapply (fr_kept _ _ _ {[p]}); [exact HF|apply (to_inv _ _ _ _ _ Hto)| |apply (to_pins _ _ _ _ _ Hto)|].
    + eapply evolves_evolves_in; [|exact (to_evolves _ _ _ _ _ Hto)]. set_solver.
    + pose proof (ap_pages _ _ Hap p Hin). set_solver.
  - unfold room in *. rewrite (to_pins _ _ _ _ _ Hto). by rewrite (ev_frames _ _ _ (to_evolves _ _ _ _ _ Hto)).
  - intros i g [Hg|[-> ->]]; [|by apply Hto]. pose proof (Hh i g (or_introl Hg)) as Hi.
    eapply (heap_inv_evolves_in {[p]}); [exact Hi|apply (hr_ok _ _ _ (proj1 (to_inv _ _ _ _ _ Hto)))| |apply Hto|].
    + eapply evolves_evolves_in; [|exact (to_evolves _ _ _ _ _ Hto)]. set_solver.
    + intros q Hq ->%elem_of_singleton. by apply (ap_heaps _ _ Hap i g p Hg Hin).
Qed.

(** An operation on the record of a tuple. *)
Lemma on_record F txn h t op a y w :
  at_rest c txn F (with_heap h) w -> apart (fr_pages F) h -> t ∈ heap_tuples h -> th_rid op = tuple_rid_ t -> op_ok (page_op op) ->
  (forall l, slot_at (tuple_rid_ t) l = Some (Live (tuple_data_ t)) ->
     SIZE_TABLE_PAGE_HEADER + SIZE_TUPLE * Z.of_nat (length l) + used_space l <= PAGE_SIZE ->
     abs_exec (page_id_ (tuple_rid_ t)) (page_op op) l = Ok (a, set_slot (tuple_rid_ t) y l)) ->
  wp (TH_exec (table_ info) op txn) (fun r s' => r = th_finish (table_ info) op a txn
    /\ at_rest c r.2 F (with_heap (change_record (tuple_rid_ t) y h)) (MkContext s' r.2 (catalog_ w))) (bpm_ w).
Proof.
  intros Hr Hap Ht Hrid Hop Ha. pose proof (ar_heaps _ _ _ _ _ Hr info h (or_intror (conj eq_refl eq_refl))) as Hinv.
  destruct (heap_tuple_record h t Ht) as (i & l & Hi & Hs & Hpos).
  eapply wp_mono; [apply (wp_op (table_ info) (bpm_ w) h i _ l a (set_slot (tuple_rid_ t) y l) op txn Hinv Hi); [|by rewrite Hrid|done|apply Ha; [done|by eapply page_bound]]|].
  { pose proof (ar_room _ _ _ _ _ Hr). unfold room in *. lia. }
  intros r s' (-> & Hto). split; [done|]. rewrite change_record_insert in Hto by (try done; apply Hinv).
  eapply rest_changed; [exact Hr|done| |exact Hto]. by apply heap_tuple_page.
Qed.

(** ** The loop of [Execute] over an executor that changes what a scan finds *)

Section Modify.
Context {E : Type} `{!AbstractExecutor S I E} (mk : SeqScanExecutor -> E) (act : Tuple * RID -> M world bool)
  (e0 : SeqScanExecutor) (next_row : list Value -> list Value -> res (option (list Value)))
  (holds : Tuple -> list Value * RID -> Prop) (record : Tuple -> TableWriteRecord).
Context (X : gset Z) (Fr : list (list Value * RID) -> Frame S P).
Hypothesis (Hout : good_schema (ss_output_ e0)).
Hypothesis (Hholds : forall t r, holds t r -> stored info t r).

(** [Next] asks the scan, and acts on the row found. *)
Hypothesis Hnext : forall fuel e w row (Q : bool * (Tuple * RID) * E -> world -> Prop),
  wp (SeqScan_Next_loop fuel fuel e row) (fun r w' =>
    if r.1.1 then wp (act r.1.2) (fun b w'' => Q (b, r.1.2, mk r.2) w'') w' else Q (false, r.1.2, mk r.2) w') w ->
  wp (Next fuel (mk e) row) Q w.

(** What becomes of a row of the table. *)
Definition row_after (x : list Value * RID) (new : option (list Value)) : list (list Value * RID) :=
  match new with Some row => [(row, x.2)] | None => [] end.

(** The action puts the new slot in the place of the record; the frame follows
    the rows of the table. *)
Hypothesis Hact : forall h txn t A x B q new w out,
  at_rest c txn (Fr (A ++ x :: B)) (with_heap h) w -> state_ txn <> ABORTED -> apart X h -> t ∈ heap_tuples h -> holds t x ->
  NoDup (A ++ x :: B).*2 -> row_of (ss_output_ e0) out q.1 -> scan_finds e0 [] x q -> next_row x.1 q.1 = Ok new ->
  wp (act (out, tuple_rid_ t)) (fun b w' => b = true /\
    at_rest c (Txn_AppendTableWriteRecord (record t) txn) (Fr (A ++ row_after x new ++ B))
         (with_heap (change_record (tuple_rid_ t) (new_slot (schema_ info) t new) h)) w') w.

Hypothesis Hslot : forall t x q new, holds t x -> next_row x.1 q = Ok new ->
  Forall2 holds (change_tuple (tuple_rid_ t) (new_slot (schema_ info) t new) t) (row_after x new).

Lemma change_rows_skip rpre rs rs' :
  Forall (fun r => eval_bool (ss_predicate_ e0) r.1 = Ok false) rpre ->
  change_rows e0 next_row (rpre ++ rs) = Ok rs' -> exists rest, change_rows e0 next_row rs = Ok rest /\ rs' = rpre ++ rest.
Proof.
  intros Hpre. revert rs'. induction Hpre as [|r rpre Hr _ IH]; intros rs' Hc; [by exists rs'|].
  cbn [app change_rows] in Hc. rewrite Hr in Hc. cbn [rbind] in Hc. apply rbind_ok in Hc as (rest & Hrest & [= <-]).
  destruct (IH rest Hrest) as (rest' & ? & ->). by exists rest'.
Qed.

Lemma change_rows_found rpre x q rs rs' :
  scan_finds e0 rpre x q -> change_rows e0 next_row (rpre ++ x :: rs) = Ok rs' ->
  exists new rest, next_row x.1 q.1 = Ok new /\ change_rows e0 next_row rs = Ok rest
    /\ rs' = rpre ++ row_after x new ++ rest.
Proof.
  intros (Hpre & Hx & Hq) Hc. apply change_rows_skip in Hc as (rest & Hrest & ->); [|done]. cbn [change_rows] in Hrest.
  rewrite Hx, Hq in Hrest. cbn [rbind] in Hrest. apply rbind_ok in Hrest as (here & Hhere & Hrest).
  apply rbind_ok in Hhere as (new & Hnew & [= <-]). apply rbind_ok in Hrest as (rest' & ? & [= <-]). by exists new, rest'.
Qed.

Lemma scan_rows_none rs : scan_rows e0 rs = Ok [] -> Forall (fun r => eval_bool (ss_predicate_ e0) r.1 = Ok false) rs.
Proof.
  induction rs as [|r rs IH]; intros Hrows; [constructor|]. apply select_cons in Hrows as ([] & Hb & Hrows).
  - by destruct Hrows as (? & ? & _ & _ & ?).
  - constructor; [done|by apply IH].
Qed.

Lemma changes_skip pre rpre ts rs :
  Forall (fun r => eval_bool (ss_predicate_ e0) r.1 = Ok false) rpre -> length pre = length rpre ->
  changes (schema_ info) e0 next_row (pre ++ ts) (rpre ++ rs) = changes (schema_ info) e0 next_row ts rs.
Proof.
  intros Hpre. revert pre. induction Hpre as [|r rpre Hr _ IH]; intros [|t pre] Hl; try done. cbn [app]. unfold changes in *.
  cbn [zip zip_with]. rewrite bind_cons. unfold change_of at 1. cbn [fst snd]. rewrite Hr. apply IH. by injection Hl.
Qed.

Lemma changes_found pre rpre x q new t ts rs :
  scan_finds e0 rpre x q -> length pre = length rpre -> next_row x.1 q.1 = Ok new ->
  changes (schema_ info) e0 next_row (pre ++ t :: ts) (rpre ++ x :: rs)
  = (t, new_slot (schema_ info) t new) :: changes (schema_ info) e0 next_row ts rs.
Proof.
  intros (Hpre & Hx & Hq) Hl Hnew. rewrite changes_skip by done. unfold changes. cbn [zip zip_with]. rewrite bind_cons.
  unfold change_of at 1. cbn [fst snd]. by rewrite Hx, Hq; cbn [rbind]; rewrite Hnew.
Qed.

(** One row of the scan: what is left of the tuples and of the scan. *)
Lemma change_found (h : heap) pre pre' t ts' y e rs' :
  NoDup h.*1 -> heap_tuples h = pre ++ pre' ++ t :: ts' -> scan_at e0 info h ts' rs' e ->
  scan_at e0 info (change_record (tuple_rid_ t) y h) ts' rs' e
  /\ heap_tuples (change_record (tuple_rid_ t) y h) = (pre ++ pre' ++ change_tuple (tuple_rid_ t) y t) ++ ts'.
Proof.
  intros Hnd Hts (Hst & Hend & Hcur & Hall). destruct (change_tuples h pre pre' t ts' y Hnd Hts) as (Htup & Hne & Hlive).
  split; [|done]. split_and!; [done|done|by apply cursor_change|done].
Qed.

(** The transaction after the changes of [found]. *)
Definition log_all (found : list (Tuple * slot)) (txn : Transaction) : Transaction :=
  foldl (fun txn p => Txn_AppendTableWriteRecord (record p.1) txn) txn found.

Lemma held_ids (ts : list Tuple) rs : Forall2 holds ts rs -> rs.*2 = tuple_rid_ <$> ts.
Proof using Hholds. induction 1 as [|t r ts rs Ht _ IH]; [done|]. rewrite !fmap_cons, IH. by destruct (Hholds _ _ Ht) as [_ ->]. Qed.

Lemma modify_loop : forall rows rs dn (h : heap) txn ts pre e w row acc fuel exec_fuel rs',
  at_rest c txn (Fr (dn ++ rs)) (with_heap h) w -> state_ txn <> ABORTED -> apart X h ->
  scan_at e0 info h ts rs e -> heap_tuples h = pre ++ ts -> Forall2 holds pre dn -> Forall2 holds ts rs ->
  scan_rows e0 rs = Ok rows -> change_rows e0 next_row rs = Ok rs' ->
  (length rows < fuel)%nat -> (length ts < exec_fuel)%nat -> (length h < exec_fuel)%nat ->
  wp (Execute_loop fuel exec_fuel (mk e) row acc) (fun _ w' =>
    at_rest c (log_all (changes (schema_ info) e0 next_row ts rs) txn) (Fr (dn ++ rs'))
      (with_heap (change_all (changes (schema_ info) e0 next_row ts rs) h)) w') w.
Proof using TablePagesOk0 Hact Hholds Hnext Hout Hslot.
  induction rows as [|q rows IH]; intros * Hr Hlive Hap Hat Hpre Hdn Hall Hrows Hch Hf Hef Hh; (destruct fuel as [|fuel]; [lia|]);
    cbn [Execute_loop]; apply wp_bind, Hnext;
    (eapply wp_mono; [eapply (scan_next c txn _ (with_heap h) e0 info h rs ts); try done; by right|]);
    intros [[b [out rid]] e'] w' (Hr' & Hst & Hc); cbn [fst snd] in Hc |- *.
  - rewrite Hc. apply wp_ret. apply scan_rows_none in Hrows. pose proof (Forall2_length _ _ _ Hall) as Hl.
    rewrite <- (app_nil_r rs) in Hch. destruct (change_rows_skip _ _ _ Hrows Hch) as (rest & [= <-] & ->).
    by rewrite <- (app_nil_r ts), <- (app_nil_r rs), changes_skip, !app_nil_r.
  - destruct Hc as (-> & Hq & _ & pre' & t & ts' & rpre & x & rs2 & -> & -> & Hlen & Hfinds & <- & Hat' & Hrows2).
    destruct (change_rows_found _ _ _ _ _ Hfinds Hch) as (new & rest & Hnew & Hrest & ->).
    rewrite (changes_found _ _ _ _ _ _ _ _ Hfinds Hlen Hnew).
    apply Forall2_app_inv in Hall as [Hall1 Hall2]; [|by rewrite Hlen]. inversion Hall2 as [|? ? ? ? Htx Hall3]; subst.
    assert (Hin : t ∈ heap_tuples h) by (rewrite Hpre; set_solver).
    pose proof (hr_nodup _ _ _ (proj1 (ar_heaps _ _ _ _ _ Hr' info h (or_intror (conj eq_refl eq_refl))))) as Hnd.
    rewrite (app_assoc dn) in Hr'. eapply wp_mono; [apply (Hact h txn t (dn ++ rpre) x rs2 q new); try done|].
    { rewrite <- app_assoc, (held_ids (heap_tuples h)); [by apply heap_ids_nodup|]. rewrite Hpre. by repeat apply Forall2_app. }
    { destruct Hfinds as (_ & Hx & Hmk). by split_and!. }
    intros b w2 (-> & Hr2). set (y := new_slot _ _ _) in *.
    destruct (change_found h pre pre' t ts' y e' rs2 Hnd Hpre Hat') as [Hat2 Hts2].
    assert (Hpgs : (change_record (tuple_rid_ t) y h).*1 = h.*1) by apply change_record_pages.
    cbv beta iota. simpl in Hf. rewrite length_app in Hef. simpl in Hef. rewrite (app_assoc _ (row_after x new)) in Hr2.
    eapply wp_mono; [eapply (IH rs2 ((dn ++ rpre) ++ row_after x new) _ _ ts' _ _ _ _ _ _ _ rest Hr2); try done|].
    + by apply (apart_same X h).
    + rewrite <- app_assoc. apply Forall2_app; [done|]. apply Forall2_app; [done|]. by eapply Hslot.
    + lia.
    + lia.
    + unfold change_record. by rewrite length_fmap.
    + intros tuples w3 Hr3. rewrite <- !app_assoc in Hr3. exact Hr3.
Qed.

(** The rows of the heap after the changes. *)
Lemma changes_rows rs : forall ts (h : heap) pre rs',
  NoDup h.*1 -> heap_tuples h = pre ++ ts -> Forall2 holds ts rs -> change_rows e0 next_row rs = Ok rs' ->
  exists post, heap_tuples (change_all (changes (schema_ info) e0 next_row ts rs) h) = pre ++ post /\ Forall2 holds post rs'.
Proof using Hslot.
  induction rs as [|x rs IH]; intros ts h pre rs' Hnd Hpre Hall Hc; inversion Hall as [|t ? ts' ? Ht Hall']; subst.
  - injection Hc as <-. by exists [].
  - cbn [change_rows] in Hc. apply rbind_ok in Hc as (b & Hb & Hc). apply rbind_ok in Hc as (here & Hhere & Hc).
    apply rbind_ok in Hc as (rest & Hrest & [= <-]). unfold changes. cbn [zip zip_with]. rewrite bind_cons. unfold change_of at 1.
    cbn [fst snd]. rewrite Hb. fold (changes (schema_ info) e0 next_row ts' rs). destruct b.
    + apply rbind_ok in Hhere as (q & Hq & Hhere). apply rbind_ok in Hhere as (new & Hnew & [= <-]). rewrite Hq. cbn [rbind]. rewrite Hnew.
      set (y := new_slot (schema_ info) t new). cbn [app change_all foldl fst snd]. fold (change_all (changes (schema_ info) e0 next_row ts' rs)).
      destruct (IH ts' (change_record (tuple_rid_ t) y h) (pre ++ change_tuple (tuple_rid_ t) y t) rest) as (post & Hpost & Hrows); try done.
      * by rewrite change_record_pages.
      * by apply (change_tuples h pre [] t ts' y).
      * exists (change_tuple (tuple_rid_ t) y t ++ post). split; [etransitivity; [exact Hpost|by rewrite <- app_assoc]|].
        apply Forall2_app; [by eapply Hslot|done].
    + injection Hhere as <-. cbn [app]. destruct (IH ts' h (pre ++ [t]) rest) as (post & Hpost & Hrows); try done.
      { by rewrite <- app_assoc. }
      exists (t :: post). split; [by rewrite <- app_assoc in Hpost|by constructor].
Qed.
End Modify.

(** ** The tuples of a table *)

(** A tuple built from the row. *)
Definition holds_row (t : Tuple) (r : list Value * RID) : Prop :=
  stored info t r /\ tuple_size_ t = length_ (schema_ info) + var_size (columns_ (schema_ info)) r.1.

(** A scan that hands out the rows of the table as they are. *)
Definition scans_rows (e0 : SeqScanExecutor) : Prop :=
  ss_output_ e0 = schema_ info /\ out_schema_idx_ e0 = seqZ 0 (GetColumnCount (schema_ info)).

Lemma scanned_row e0 t x q : good_schema (schema_ info) -> scans_rows e0 -> holds_row t x -> scan_finds e0 [] x q ->
  q.1 = x.1 /\ fits_row (schema_ info) x.1.
Proof.
  intros Hs [Eo Ei] [[Hro _] _] (_ & _ & Hq). rewrite Eo, Ei in Hq.
  destruct (make_row_ok _ _ _ _ Hs Hq) as (row & t' & Hp & -> & Hc & _). unfold make_row, build in Hq. rewrite Hp in Hq. cbn [rbind] in Hq.
  destruct (fits_row_b (schema_ info) row) eqn:Hf; [|done]. apply fits_row_b_sound in Hf. cbn [fst].
  assert (E : row = x.1); [|by rewrite <- E]. unfold project in Hp. rewrite rmap_ok in Hp. pose proof (Forall2_length _ _ _ Hp) as Hl.
  apply list_eq. intros i. destruct (row !! i) as [v|] eqn:Hv.
  - apply (Forall2_lookup_r _ _ _ _ _ Hp) in Hv as (z & Hz & Hx). apply lookup_seqZ in Hz as [-> _]. rewrite Z.add_0_l in Hx.
    apply zlookup_ok in Hx as [_ Hx]. by rewrite Nat2Z.id in Hx.
  - destruct (x.1 !! i) as [v|] eqn:Hx; [|done]. apply lookup_ge_None in Hv. specialize (Hro (Z.of_nat i) v (zlookup_nat _ _ _ Hx)).
    unfold Tuple_GetValue in Hro. apply rbind_ok in Hro as (col & Hcol & _). apply zlookup_ok in Hcol as [_ Hcol].
    apply lookup_lt_Some in Hcol. destruct Hf as [Hf _]. apply Forall2_length in Hf. lia.
Qed.

(** ** Keeping the indexes *)

(** The frame follows the rows of the table as the indexes [ixs] are kept; up to
    [cap] rows fit. *)
Record keeps_indexes (X : gset Z) (Fr : list (list Value * RID) -> Frame S P) (ixs : list (IndexInfo I)) (cap : nat) : Prop := {
  kx_pages rs : fr_pages (Fr rs) = X;
  kx_perm txn hs w rs rs' : rs ≡ₚ rs' -> at_rest c txn (Fr rs) hs w -> at_rest c txn (Fr rs') hs w;
  kx_none txn hs w rs rs' : ixs = [] -> (length rs' <= length rs)%nat -> at_rest c txn (Fr rs) hs w -> at_rest c txn (Fr rs') hs w;
  kx_insert txn h w rs x t :
    at_rest c txn (Fr rs) (with_heap h) w -> apart X h -> fits_row (schema_ info) x.1 -> row_of (schema_ info) t x.1 -> RID_wf x.2 ->
    (length rs < cap)%nat ->
    wp (insert_entries ixs (schema_ info) t x.2) (fun _ w' => at_rest c txn (Fr (x :: rs)) (with_heap h) w'
      /\ forall n, budget (view (bpm_ w)) n -> budget (view (bpm_ w')) n) w;
  kx_delete txn h w A B x t :
    at_rest c txn (Fr (A ++ x :: B)) (with_heap h) w -> apart X h -> NoDup (A ++ x :: B).*2 ->
    fits_row (schema_ info) x.1 -> row_of (schema_ info) t x.1 ->
    wp (delete_entries ixs (schema_ info) t x.2) (fun _ w' => at_rest c txn (Fr (A ++ B)) (with_heap h) w') w;
  kx_update txn h w A B x t row new :
    at_rest c txn (Fr (A ++ x :: B)) (with_heap h) w -> apart X h -> NoDup (A ++ x :: B).*2 -> RID_wf x.2 ->
    fits_row (schema_ info) x.1 -> row_of (schema_ info) t x.1 -> fits_row (schema_ info) row -> row_of (schema_ info) new row ->
    wp (update_entries ixs (schema_ info) new t x.2) (fun _ w' => at_rest c txn (Fr (A ++ (row, x.2) :: B)) (with_heap h) w') w
}.

(** Without indexes any frame does. *)
Lemma keeps_none F cap : keeps_indexes (fr_pages F) (fun _ => F) [] cap.
Proof. split; try done; intros; by apply wp_ret. Qed.

Lemma on_change F txn h t op a y w (Q : bool * Transaction -> S -> Prop) (m : M S (bool * Transaction)) :
  at_rest c txn F (with_heap h) w -> apart (fr_pages F) h -> t ∈ heap_tuples h -> th_rid op = tuple_rid_ t -> op_ok (page_op op) ->
  (forall l, slot_at (tuple_rid_ t) l = Some (Live (tuple_data_ t)) ->
     SIZE_TABLE_PAGE_HEADER + SIZE_TUPLE * Z.of_nat (length l) + used_space l <= PAGE_SIZE ->
     abs_exec (page_id_ (tuple_rid_ t)) (page_op op) l = Ok (a, set_slot (tuple_rid_ t) y l)) ->
  TH_exec (table_ info) op txn = (do! ' (b, txn) := m in sret (AnsBool b, txn)) ->
  (forall b txn' s', (AnsBool b, txn') = th_finish (table_ info) op a txn ->
    at_rest c txn' F (with_heap (change_record (tuple_rid_ t) y h)) (MkContext s' txn' (catalog_ w)) -> Q (b, txn') s') ->
  wp m Q (bpm_ w).
Proof.
  intros Hr Hap Ht Hrid Hop Ha Hm HQ. pose proof (on_record F txn h t op a y w Hr Hap Ht Hrid Hop Ha) as Hw.
  rewrite Hm in Hw. apply wp_run in Hw as (r & s' & Hrun & Hfin & Hr'). unfold sbind in Hrun. apply wp_run.
  destruct (m (bpm_ w)) as [[[b txn'] s1]|]; [|done]. unfold sret in Hrun. injection Hrun as <- <-. eexists _, _. split; [done|].
  by apply HQ.
Qed.

(** ** Delete *)

Definition deletion (t : Tuple) : TableWriteRecord :=
  MkTableWriteRecord (tuple_rid_ t) WDelete Tuple_default (first_page_id_ (table_ info)).

Lemma change_tuple_self t y : change_tuple (tuple_rid_ t) y t = match y with Live d => [MkTuple (tuple_rid_ t) d] | _ => [] end.
Proof. unfold change_tuple. by rewrite decide_True. Qed.

Lemma mark_record F h txn t w :
  at_rest c txn F (with_heap h) w -> apart (fr_pages F) h -> t ∈ heap_tuples h ->
  wp (on_table (TableHeap_MarkDelete (table_ info) (tuple_rid_ t))) (fun b w' => b = true
    /\ at_rest c (Txn_AppendTableWriteRecord (deletion t) txn) F
         (with_heap (change_record (tuple_rid_ t) (Marked (tuple_data_ t)) h)) w') w.
Proof.
  intros Hr Hap Ht. apply wp_on_table_write. rewrite (ar_txn _ _ _ _ _ Hr).
  destruct (heap_tuple_record h t Ht) as (_ & _ & _ & _ & Hpos).
  eapply (on_change F txn h t (ThMarkDelete (tuple_rid_ t)) (AnsBool true) (Marked (tuple_data_ t)) w); try done.
  - intros l Hl _. cbn [page_op abs_exec]. by rewrite Hl.
  - intros b txn' s' [= -> ->] Hr'. by split.
Qed.

Section Actions.
Context (X : gset Z) (Fr : list (list Value * RID) -> Frame S P) (ixs : list (IndexInfo I)) (cap : nat) (Hkeep : keeps_indexes X Fr ixs cap).

(** What [Next] does with the row the scan found. *)
Definition delete_one (row : Tuple * RID) : M world bool :=
  do! is_deleted := on_table (TableHeap_MarkDelete (table_ info) row.2) in
  do! _ := if is_deleted : bool then delete_entries ixs (schema_ info) row.1 row.2 else sret tt in sret is_deleted.

Lemma act_delete h txn t A x B w out :
  at_rest c txn (Fr (A ++ x :: B)) (with_heap h) w -> apart X h -> t ∈ heap_tuples h -> holds_row t x -> NoDup (A ++ x :: B).*2 ->
  (ixs = [] \/ fits_row (schema_ info) x.1 /\ row_of (schema_ info) out x.1) ->
  wp (delete_one (out, tuple_rid_ t)) (fun b w' => b = true
    /\ at_rest c (Txn_AppendTableWriteRecord (deletion t) txn) (Fr (A ++ B))
         (with_heap (change_record (tuple_rid_ t) (Marked (tuple_data_ t)) h)) w') w.
Proof.
  intros Hr Hap Ht [[_ Hid] _] Hnd Hcase. unfold delete_one. cbn [fst snd]. apply wp_bind.
  eapply wp_mono; [apply (mark_record _ h txn t w Hr); [by rewrite (kx_pages _ _ _ _ Hkeep)|done]|]. intros b w' (-> & Hr').
  assert (Hap' : apart X (change_record (tuple_rid_ t) (Marked (tuple_data_ t)) h)).
  { eapply apart_same; [apply change_record_pages|done]. }
  apply wp_bind. destruct Hcase as [Hno|[Hfit Hrow]].
  - rewrite Hno. apply wp_ret, wp_ret. split; [done|]. eapply (kx_none _ _ _ _ Hkeep); [exact Hno| |exact Hr']. rewrite !length_app. simpl. lia.
  - rewrite Hid in *. eapply wp_mono; [by apply (kx_delete _ _ _ _ Hkeep _ _ _ A B x out Hr')|]. intros u w2 Hr2. apply wp_ret. by split.
Qed.

Lemma next_delete fuel e w row (Q : bool * (Tuple * RID) * DeleteExecutor (I := I) SeqScanExecutor -> world -> Prop) :
  wp (SeqScan_Next_loop fuel fuel e row) (fun r w' =>
    if r.1.1 then wp (delete_one r.1.2) (fun b w'' => Q (b, r.1.2, MkDelete _ info ixs r.2) w'') w'
    else Q (false, r.1.2, MkDelete _ info ixs r.2) w') w ->
  wp (Delete_Next fuel (MkDelete _ info ixs e) row) Q w.
Proof.
  intros Hw. unfold Delete_Next. apply wp_bind. eapply wp_mono; [exact Hw|]. intros [[[] row'] e'] w' HQ; cbn [fst snd] in HQ.
  - unfold delete_one, wp, sbind in *. cbn [de_table_info_ de_index_info_array_] in *.
    destruct (on_table _ w') as [[[] w1]|]; [|exact HQ|done]. by destruct (delete_entries _ _ _ _ w1) as [[u w2]|].
  - apply wp_bind, wp_ret, wp_bind, wp_ret, wp_ret, HQ.
Qed.
End Actions.

(** ** Update *)

Lemma Updated_loop_row attrs (s : Schema Expression) t row idxs vals :
  row_of s t row -> rmap (updated_value attrs row) idxs = Ok vals -> Updated_loop idxs attrs t s = Ok vals.
Proof.
  intros Hr. rewrite rmap_ok. induction 1 as [|i v idxs vals Hv _ IH]; [done|]. cbn [Updated_loop]. unfold updated_value in Hv.
  apply rbind_ok in Hv as (val & Hval & Hv). rewrite (Hr i val Hval). cbn [rbind]. by rewrite Hv, IH.
Qed.

Lemma Value_SerializeTo_bytes v m off m' :
  value_bytes v = true -> is_bytes m -> Value_SerializeTo v m off = Ok m' -> is_bytes m'.
Proof.
  unfold Value_SerializeTo, value_bytes. intros Hv Hm Hs. apply rbind_ok in Hs as (f & Hf & Hs).
  assert (Hint : forall n, store_int n v m off = Ok m' -> is_bytes m').
  { intros n (z & _ & Hw)%rbind_ok. exact (mem_write_bytes _ _ _ _ Hm (le_split_bytes _ _) Hw). }
  destruct (type_id_ v); try done; injection Hf as <-; try done; try exact (Hint _ Hs).
  - apply rbind_ok in Hs as (d & _ & Hw). exact (mem_write_bytes _ _ _ _ Hm (le_split_bytes _ _) Hw).
  - apply rbind_ok in Hs as (len & _ & Hs). destruct (len =? BUSTUB_VALUE_NULL); [exact (store_u32_bytes _ _ _ _ Hm Hs)|].
    apply rbind_ok in Hs as (m1 & Hm1 & Hs). apply rbind_ok in Hs as (p & Hp & Hs). apply rbind_ok in Hs as (bs & Hbs & Hw).
    apply (mem_write_bytes _ _ _ _ (store_u32_bytes _ _ _ _ Hm Hm1)) in Hw; [done|]. clear Hw. unfold VarlenType_GetData in Hp.
    destruct (value_ v) as [| | |[cs|]]; try done; injection Hp as <-.
    + apply (mem_read_bytes _ _ _ _) in Hbs; [done|]. clear Hbs. apply Forall_forall. intros b Hb.
      rewrite forallb_forall in Hv. specialize (Hv b). rewrite <- list_elem_of_In in Hv. specialize (Hv Hb). unfold is_byte. lia.
    + done.
Qed.

Lemma Tuple_of_values_bytes (s : Schema Expression) row t :
  forallb value_bytes row = true -> Tuple_of_values row s = Ok t -> is_bytes (tuple_data_ t).
Proof.
  intros Hv Ht. apply rbind_ok in Ht as (u & _ & Ht). apply rbind_ok in Ht as (n & _ & Ht). apply rbind_ok in Ht as (m & Hm & [= <-]).
  cbn [tuple_data_]. assert (Hz : is_bytes (replicate (Z.to_nat n) 0)) by (by apply Forall_replicate).
  revert Hv Hz Hm. generalize (replicate (Z.to_nat n) 0), (length_ s). revert row. induction (columns_ s) as [|col cols IH];
    intros [|v row] m0 off Hv Hz; cbn [SerializeColumns_loop]; try done; [by intros [= <-]..|].
  cbn [forallb] in Hv. apply andb_true_iff in Hv as [Hv Hrow]. destruct (negb _); intros Hm.
  - apply rbind_ok in Hm as (m1 & Hm1 & Hm). apply rbind_ok in Hm as (m2 & Hm2 & Hm). apply rbind_ok in Hm as (len & _ & Hm).
    eapply IH; [exact Hrow| |exact Hm]. eapply Value_SerializeTo_bytes; [exact Hv| |exact Hm2]. by eapply store_u32_bytes.
  - apply rbind_ok in Hm as (m1 & Hm1 & Hm). eapply IH; [exact Hrow| |exact Hm]. by eapply Value_SerializeTo_bytes.
Qed.

Definition overwriting (t : Tuple) : TableWriteRecord :=
  MkTableWriteRecord (tuple_rid_ t) WUpdate t (first_page_id_ (table_ info)).

Section UpdateNext.
Context (ixs : list (IndexInfo I)) (attrs : gmap Z UpdateInfo).

Definition update_one (row : Tuple * RID) : M world bool :=
  do! new_tuple := lift (GenerateUpdatedTuple attrs (schema_ info) row.1) in
  do! is_updated := on_table (TableHeap_UpdateTuple (table_ info) new_tuple row.2) in
  do! _ := if is_updated : bool then update_entries ixs (schema_ info) new_tuple row.1 row.2 else sret tt in sret is_updated.

Lemma next_update fuel e w row (Q : bool * (Tuple * RID) * UpdateExecutor (I := I) SeqScanExecutor -> world -> Prop) :
  wp (SeqScan_Next_loop fuel fuel e row) (fun r w' =>
    if r.1.1 then wp (update_one r.1.2) (fun b w'' => Q (b, r.1.2, MkUpdate _ attrs info ixs r.2) w'') w'
    else Q (false, r.1.2, MkUpdate _ attrs info ixs r.2) w') w ->
  wp (Update_Next fuel (MkUpdate _ attrs info ixs e) row) Q w.
Proof.
  intros Hw. unfold Update_Next. apply wp_bind. eapply wp_mono; [exact Hw|]. intros [[[] row'] e'] w' HQ; cbn [fst snd] in HQ.
  - unfold update_one, wp, sbind in *. cbn [up_update_attrs_ up_table_info_ up_index_info_array_] in *.
    destruct (lift _ w') as [[new w1]|]; [|done]. destruct (on_table _ w1) as [[[] w2]|]; [|exact HQ|done].
    by destruct (update_entries _ _ _ _ _ w2) as [[u w3]|].
  - apply wp_ret, HQ.
Qed.
End UpdateNext.

Lemma updated_slot attrs t x q new :
  good_schema (schema_ info) -> holds_row t x -> updated_row (schema_ info) attrs x.1 q = Ok new ->
  exists vals tn, new = Some vals /\ rmap (updated_value attrs q) (seqZ 0 (GetColumnCount (schema_ info))) = Ok vals
    /\ Tuple_of_values vals (schema_ info) = Ok tn /\ new_slot (schema_ info) t new = Live (tuple_data_ tn)
    /\ is_bytes (tuple_data_ tn) /\ length (tuple_data_ tn) = length (tuple_data_ t)
    /\ fits_row (schema_ info) vals /\ row_of (schema_ info) tn vals
    /\ forall rid, rid = x.2 -> holds_row (MkTuple rid (tuple_data_ tn)) (vals, x.2).
Proof.
  intros Hs [_ Hsz] Hnew. unfold updated_row in Hnew. apply rbind_ok in Hnew as (vals & Hvals & Hnew).
  apply rbind_ok in Hnew as (row & Hrow & Hnew). unfold build in Hrow. destruct (fits_row_b _ vals) eqn:Hfit; [|done]. injection Hrow as <-.
  apply rbind_ok in Hnew as (u & Hck%check_ok & [= <-]). apply andb_true_iff in Hck as [Hb Hlen%Z.eqb_eq].
  destruct (build_row (schema_ info) vals Hs (fits_row_b_sound _ _ Hfit)) as (tn & Htn & _ & Hro & Hsn).
  exists vals, tn. cbn [new_slot]. rewrite Htn. do 4 (split; [done|]). split_and!; [by eapply Tuple_of_values_bytes|unfold tuple_size_ in *; lia|by apply fits_row_b_sound|done|].
  intros rid Hrid. subst rid. split; [split; [exact Hro|done]|exact Hsn].
Qed.

Lemma updated_tuple attrs t x q new :
  good_schema (schema_ info) -> holds_row t x -> updated_row (schema_ info) attrs x.1 q = Ok new ->
  Forall2 holds_row (change_tuple (tuple_rid_ t) (new_slot (schema_ info) t new) t) (row_after x new).
Proof.
  intros Hs Hx Hnew. destruct (updated_slot attrs t x q new Hs Hx Hnew) as (vals & tn & -> & _ & _ & -> & _ & _ & _ & _ & Hrow).
  rewrite change_tuple_self. constructor; [|constructor]. apply Hrow, Hx.
Qed.

(** The new bytes in the place of the record. *)
Lemma update_record F h txn t tn w :
  at_rest c txn F (with_heap h) w -> state_ txn <> ABORTED -> apart (fr_pages F) h -> t ∈ heap_tuples h ->
  is_bytes (tuple_data_ tn) -> length (tuple_data_ tn) = length (tuple_data_ t) ->
  wp (on_table (TableHeap_UpdateTuple (table_ info) tn (tuple_rid_ t))) (fun b w' => b = true
    /\ at_rest c (Txn_AppendTableWriteRecord (overwriting t) txn) F
         (with_heap (change_record (tuple_rid_ t) (Live (tuple_data_ tn)) h)) w') w.
Proof.
  intros Hr Hst Hap Ht Hbytes Hsize. pose proof (ar_heaps _ _ _ _ _ Hr info h (or_intror (conj eq_refl eq_refl))) as Hinv.
  destruct (heap_tuple_record h t Ht) as (i & l & Hi & Hsl & Hpos).
  destruct (record_bytes _ _ h (tuple_rid_ t) (Live (tuple_data_ t)) Hinv Hpos) as [_ Hne].
  { rewrite (visible_slot _ _ _ _ _ _ Hinv Hi). by rewrite Hsl. }
  cbn [slot_data] in Hne. apply wp_on_table_write. rewrite (ar_txn _ _ _ _ _ Hr).
  eapply (on_change F txn h t (ThUpdate tn (tuple_rid_ t)) (AnsTuple (Some t)) (Live (tuple_data_ tn)) w); try done.
  - intros l' Hl' Hroom. cbn [page_op abs_exec]. unfold tuple_size_ at 1.
    assert (0 < length (tuple_data_ tn))%nat by (rewrite Hsize; destruct (tuple_data_ t); [done|simpl; lia]).
    rewrite (proj2 (Z.ltb_lt 0 _)) by lia. cbn [assert rbind]. rewrite Hl'. unfold has_room_for, tuple_size_.
    rewrite (proj2 (Z.leb_le _ _)) by lia. by destruct t.
  - intros b txn' s' Hfin Hr'. cbn [th_finish] in Hfin. rewrite decide_False in Hfin by done. injection Hfin as -> ->.
    by split.
Qed.

(** The ids of tuples are 64-bit integers. *)
Lemma tuple_rid_wf txn F h w t : at_rest c txn F (with_heap h) w -> t ∈ heap_tuples h -> RID_wf (tuple_rid_ t).
Proof.
  intros Hr Ht. pose proof (ar_heaps _ _ _ _ _ Hr info h (or_intror (conj eq_refl eq_refl))) as Hinv.
  destruct (heap_tuple_record h t Ht) as (i & l & Hi & Hsl & Hpos). pose proof (page_bound _ _ _ _ _ _ Hinv Hi) as Hb.
  destruct (hr_page _ _ _ (proj1 Hinv) i _ l Hi) as (Hl & _). pose proof (live_page_id _ _ (hr_ok _ _ _ (proj1 Hinv)) Hl) as Hp.
  unfold slot_at in Hsl. apply lookup_lt_Some in Hsl. pose proof PAGE_SIZE_int.
  assert (0 <= used_space l) by (clear; induction l as [|s l IH]; simpl; [lia|unfold slot_len; lia]). unfold SIZE_TABLE_PAGE_HEADER, SIZE_TUPLE in Hb.
  split; [unfold is_signed; lia|unfold is_unsigned; lia].
Qed.

Lemma act_update X Fr ixs cap h txn t A x B attrs q new w out :
  keeps_indexes X Fr ixs cap -> good_schema (schema_ info) ->
  at_rest c txn (Fr (A ++ x :: B)) (with_heap h) w -> state_ txn <> ABORTED -> apart X h -> t ∈ heap_tuples h ->
  holds_row t x -> NoDup (A ++ x :: B).*2 -> row_of (schema_ info) out q -> updated_row (schema_ info) attrs x.1 q = Ok new ->
  (ixs = [] \/ q = x.1 /\ fits_row (schema_ info) x.1) ->
  wp (update_one ixs attrs (out, tuple_rid_ t)) (fun b w' => b = true
    /\ at_rest c (Txn_AppendTableWriteRecord (overwriting t) txn) (Fr (A ++ row_after x new ++ B))
         (with_heap (change_record (tuple_rid_ t) (new_slot (schema_ info) t new) h)) w') w.
Proof.
  intros Hkeep Hs Hr Hst Hap Ht Hx Hnd Hq Hnew Hcase. pose proof (tuple_rid_wf _ _ _ _ _ Hr Ht) as Hwf.
  destruct (updated_slot attrs t x q new Hs Hx Hnew) as (vals & tn & -> & Hvals & Htn & -> & Hbytes & Hsize & Hfit & Hro & _).
  destruct Hx as [[_ Hid] _]. unfold update_one. cbn [fst snd]. eapply wp_bind, wp_lift.
  { unfold GenerateUpdatedTuple. by rewrite (Updated_loop_row _ _ _ _ _ _ Hq Hvals). }
  apply wp_bind. eapply wp_mono; [apply (update_record _ h txn t tn w Hr); try done; by rewrite (kx_pages _ _ _ _ Hkeep)|].
  intros b w' (-> & Hr'). apply wp_bind. destruct Hcase as [Hno|[-> Hfit']].
  - rewrite Hno. apply wp_ret, wp_ret. split; [done|]. eapply (kx_none _ _ _ _ Hkeep); [exact Hno| |exact Hr']. rewrite !length_app. simpl. lia.
  - rewrite Hid in *. eapply wp_mono; [apply (kx_update _ _ _ _ Hkeep _ _ _ A B x out vals tn Hr'); try done|].
    { eapply apart_same; [apply change_record_pages|done]. }
    intros u w2 Hr2. apply wp_ret. by split.
Qed.

(** ** What is undone *)

Lemma reverts_delete t : 0 <= slot_num_ (tuple_rid_ t) -> reverts deletion t (Marked (tuple_data_ t)).
Proof.
  intros Hpos v Hv. split; [split; [done|by eexists]|]. unfold undo. cbn [deletion wr_rid_ wr_wtype_]. by rewrite Hv.
Qed.

Lemma reverts_update t d : 0 <= slot_num_ (tuple_rid_ t) -> is_bytes (tuple_data_ t) -> tuple_data_ t <> [] ->
  length d = length (tuple_data_ t) -> reverts overwriting t (Live d).
Proof.
  intros Hpos Hb Hne Hd v Hv. split; [|done]. split; [done|]. cbn [overwriting wr_rid_ wr_wtype_ wr_tuple_]. split_and!; try done.
  exists d. split; [done|lia].
Qed.

(** The tuples that change. *)
Lemma changes_facts e0 next_row ts rs rs' : Forall2 holds_row ts rs -> change_rows e0 next_row rs = Ok rs' ->
  Forall (fun p => p.1 ∈ ts /\ exists x q new, holds_row p.1 x /\ next_row x.1 q = Ok new /\ p.2 = new_slot (schema_ info) p.1 new)
    (changes (schema_ info) e0 next_row ts rs)
  /\ (changes (schema_ info) e0 next_row ts rs).*1 `sublist_of` ts.
Proof.
  intros Hall. revert rs'. induction Hall as [|t r ts rs Ht Hall IH]; intros rs' Hc; [by split|]. cbn [change_rows] in Hc.
  apply rbind_ok in Hc as (b & Hb & Hc). apply rbind_ok in Hc as (here & Hhere & Hc). apply rbind_ok in Hc as (rest & Hrest & _).
  destruct (IH rest Hrest) as [IH1 IH2]. unfold changes in *. cbn [zip zip_with]. rewrite bind_cons. unfold change_of at 1 3.
  cbn [fst snd]. rewrite Hb. assert (IH3 : forall R : Tuple * slot -> Prop, Forall (fun p => p.1 ∈ ts /\ R p) (zip ts rs ≫= fun p => change_of (schema_ info) e0 next_row p.1 p.2) ->
    Forall (fun p => p.1 ∈ t :: ts /\ R p) (zip ts rs ≫= fun p => change_of (schema_ info) e0 next_row p.1 p.2)).
  { intros R HP. eapply Forall_impl; [exact HP|]. intros p [Hp HP']. split; [by right|done]. }
  destruct b; cbn [app]; [|split; [by apply IH3|by apply sublist_cons]].
  apply rbind_ok in Hhere as (q & Hq & Hhere). apply rbind_ok in Hhere as (new & Hnew & _). rewrite Hq. cbn [rbind]. rewrite Hnew.
  cbn [app]. split; [|rewrite fmap_cons; by apply sublist_skip]. constructor; [|by apply IH3]. split; [by left|]. by exists r, q.1, new.
Qed.
End WriteCorrect.
