(* ===== verification/QueryProperties.v ===== *)
(** The property of queries, with a table over a pool of three frames. *)

From S2P Require Import Prelude Bytes CString Rid Replacer LRUReplacer DiskManager BufferPoolManager BufferPool BufferPoolCorrect Value Types TypesCorrect ValueFactory.
From S2P Require Import Schema Expression TablePage TablePageCorrect TupleValues TupleCorrect Transaction TableHeap TableHeapCorrect TableScan TableHeapProperties.
From S2P Require Import HashUtil Catalog Executor ReadExecutors JoinExecutors AggregationExecutor WriteExecutors ExecutionEngine.
From S2P Require Import QuerySemantics ScanCorrect JoinCorrect AggregationCorrect QueryCorrect.

(** ** The property *)

Section Properties.
Context `{Config} `{!HashOrder} {S P I : Type} `{!BufferPoolManager S P bytes} `{!BufferPoolSpec S P bytes} `{!Index S I}
  `{!TablePagesOk (good_data (S := S) (P := P)) (zero_data (S := S) (P := P))}.

(** C2: A plan of scans, joins, aggregations, [DISTINCT] and [LIMIT] runs to its
    end when its loops may take enough rounds, and the tuples [Execute] returns
    hold, in order, the rows that the reference evaluator gives for the rows
    stored in the tables; the pages, the pins, the catalog and the transaction
    are as before.  The reference folds aggregates and combines joined rows with
    the arithmetic of the code; what it does not share are the executors, their
    hash containers and cursors, and the bytes of the tuples. *)
Theorem Execute_query (c : Catalog I) (txn : Transaction) (F : Frame S P) (heaps : TableInfo -> heap -> Prop) (db : database)
    (plan : PlanNode) (rows : list qrow) :
  stores c heaps db -> plan_ok plan -> denote db plan = Ok rows ->
  exists out n, OutputSchema plan = Some out /\
  forall fuel (w : ExecutorContext S I), (n <= fuel)%nat -> at_rest c txn F heaps w ->
  exists tuples w', Execute fuel plan w = Ok (true, Some (tuples, w')) /\ at_rest c txn F heaps w'
    /\ Forall2 (row_of out) tuples rows.*1.
Proof. intros Hdb Hok Hd. by apply (execute_ok c txn F heaps db). Qed.
End Properties.

(** ** A table with three rows *)

Section Concrete.
#[local] Existing Instance course_config.
#[local] Existing Instance course_table_pages.
Notation pool := (BPI bytes LRUReplacer DiskManager).

#[local] Instance listed_order : HashOrder := { hash_order _ l := l; hash_order_perm _ l := reflexivity l }.

#[local] Instance no_index : Index pool IndexMetadata := {
  NewIndex meta := sret meta;
  GetMetadata meta := meta;
  InsertEntry _ _ _ := sret tt;
  DeleteEntry _ _ _ := sret tt;
  ScanKey _ _ := sret []
}.

(** A column that takes column [i] of side [side]. *)
Definition col (name : bytes) (type : TypeId) (side i : Z) : Column Expression :=
  MkColumn name type (TypeSize type) 0 0 (Some (ColumnValueExpression side i type)).
Definition agg (name : bytes) (type : TypeId) (group : bool) (i : Z) : Column Expression :=
  MkColumn name type (TypeSize type) 0 0 (Some (AggregateValueExpression group i type)).

Definition abc : Schema Expression := Schema_new [col (str "a") TINYINT 0 0; col (str "b") TINYINT 0 1; col (str "c") TINYINT 0 2].
Definition tiny (z : Z) : Value := int_value TINYINT int8_t z.
Definition abc_rows : list (list Z) := [[1; 2; 3]; [2; 2; 4]; [3; 1; 5]].

(** SELECT l.b, COUNT( * ), SUM(r.c) FROM t l, t r WHERE l.a = r.b GROUP BY l.b,
    of the rows with [a] at least 1. *)
Definition scan_plan : PlanNode :=
  SeqScanPlanNode abc (Some (ComparisonExpression (ColumnValueExpression 0 0 TINYINT) (ConstantValueExpression (tiny 1)) GreaterThanOrEqual)) 0.
Definition joined : Schema Expression := Schema_new [col (str "lb") TINYINT 0 1; col (str "rc") TINYINT 1 2].
Definition grouped_by_b : Schema Expression :=
  Schema_new [agg (str "b") TINYINT true 0; agg (str "n") INTEGER false 0; agg (str "sum") INTEGER false 1].
Definition report : PlanNode :=
  LimitPlanNode grouped_by_b
    (AggregationPlanNode grouped_by_b
       (HashJoinPlanNode joined scan_plan scan_plan (ColumnValueExpression 0 0 TINYINT) (ColumnValueExpression 0 1 TINYINT))
       None [ColumnValueExpression 0 0 TINYINT] [ColumnValueExpression 0 1 TINYINT; ColumnValueExpression 0 1 TINYINT]
       [CountAggregate; SumAggregate]) 5.

Definition info_of (t : TableHeap) : TableInfo := MkTableInfo abc (str "t") t 0.
Definition db_of (t : TableHeap) (p : Z) : database := fun oid =>
  if oid =? 0 then Some (info_of t, imap (fun i zs => (tiny <$> zs, RID_Set p (Z.of_nat i))) abc_rows) else None.

Definition abc_heap (p : Z) : heap := [(p, Live <$> abc_rows)].

Lemma abc_insert t s h h' zs n :
  heap_inv t s h -> room 2 s -> budget (view s) (1 + n) -> (0 < length zs <= 16)%nat -> is_bytes zs -> (length h < 2)%nat ->
  (forall new, (heap_insert new (MkTuple RID_default zs) h).2 = h') ->
  exists s' k, heap_inv t s' h' /\ room 2 s' /\ budget (view s') k /\ (n <= k)%nat.
Proof.
  intros Hi Hr Hb Hl Hz Hh Hins.
  assert (Hw : wp (TableHeap_InsertTuple 2 t (MkTuple RID_default zs) txn0) (insert_post t s h (MkTuple RID_default zs) txn0 n) s).
  { apply wp_insert; try done; unfold tuple_size_; cbn [tuple_data_]; [lia|]. unfold PAGE_SIZE, SIZE_TABLE_PAGE_HEADER, SIZE_TUPLE. simpl. lia. }
  apply wp_run in Hw as (r & s' & _ & new & rid & h1 & Hins' & _ & Hi' & Hp & Hk & _ & m & Hm & Hbm). specialize (Hins new).
  rewrite Hins' in Hins. cbn [snd] in Hins. subst h1. exists s', m. split_and!; try done. unfold room in *. by rewrite Hp, (ei_frames _ _ _ Hk).
Qed.

Definition small_record (zs : bytes) : Prop := (0 < length zs <= 16)%nat /\ is_bytes zs.

Lemma three_records r1 r2 r3 : small_record r1 -> small_record r2 -> small_record r3 ->
  exists t (s : pool) p k, heap_inv t s [(p, Live <$> [r1; r2; r3])] /\ room 2 s /\ budget (view s) k /\ (4 <= k)%nat.
Proof.
  intros [Hl1 Hr1] [Hl2 Hr2] [Hl3 Hr3]. destruct (fresh_pool_inv 3) as (s & _ & Hs & Hp & Hf & Hb).
  assert (Hr : room 3 s) by (unfold room; rewrite Hp, Hf, map_size_empty; lia).
  destruct (create_ok s 9 Hs (Hb 10%nat ltac:(lia))) as (t & s0 & p & _ & Hi0 & Hp0 & Hf0 & Hb0); [unfold room in *; lia|by vm_compute|].
  assert (Hroom0 : room 2 s0) by (unfold room in *; rewrite Hp0, Hf0; lia).
  assert (Hfit : forall l n, used_space l + n <= 64 -> (length l <= 2)%nat -> has_room l n = true).
  { intros l n Hu Hl. unfold has_room. apply Z.leb_le. unfold PAGE_SIZE, SIZE_TABLE_PAGE_HEADER, SIZE_TUPLE. simpl. lia. }
  destruct (abc_insert t s0 _ [(p, Live <$> [r1])] r1 8 Hi0 Hroom0 Hb0) as (s1 & [|k1] & Hi1 & Hroom1 & Hb1 & Hk1);
    [done|done|simpl; lia| |lia|].
  { intros new. simpl. rewrite Hfit; [done|unfold tuple_size_; simpl; unfold slot_len; simpl; lia|simpl; lia]. }
  destruct (abc_insert t s1 _ [(p, Live <$> [r1; r2])] r2 k1 Hi1 Hroom1 Hb1) as (s2 & [|k2] & Hi2 & Hroom2 & Hb2 & Hk2);
    [done|done|simpl; lia| |lia|].
  { intros new. simpl. rewrite Hfit; [done|unfold tuple_size_; simpl; unfold slot_len; simpl; lia|simpl; lia]. }
  destruct (abc_insert t s2 _ [(p, Live <$> [r1; r2; r3])] r3 k2 Hi2 Hroom2 Hb2) as (s3 & k3 & Hi3 & Hroom3 & Hb3 & Hk3);
    [done|done|simpl; lia| |exists t, s3, p, k3; split_and!; [done|done|done|lia]].
  intros new. simpl. rewrite Hfit; [done|unfold tuple_size_; simpl; unfold slot_len; simpl; lia|simpl; lia].
Qed.

Lemma abc_table : exists t (s : pool) p, heap_inv t s (abc_heap p) /\ room 2 s.
Proof.
  destruct (three_records [1; 2; 3] [2; 2; 4] [3; 1; 5]) as (t & s & p & _ & Hi & Hr & _); [split; [simpl; lia|by repeat constructor]..|].
  by exists t, s, p.
Qed.

Definition abc_catalog (t : TableHeap) : Catalog IndexMetadata := MkCatalog {[0 := info_of t]} {[str "t" := 0]} 1 ∅ {[str "t" := ∅]} 0.
Definition abc_heaps (t : TableHeap) (p : Z) (info : TableInfo) (h : heap) : Prop := info = info_of t /\ h = abc_heap p.

(** Reading every column gives the row. *)
Lemma row_of_all s t row : rmap (Tuple_GetValue t s) (seqZ 0 (Z.of_nat (length row))) = Ok row -> row_of s t row.
Proof.
  rewrite rmap_ok. intros Hall i v [Hi Hv]%zlookup_ok. destruct (Forall2_lookup_r _ _ _ _ _ Hall Hv) as (j & Hj & Hg).
  apply lookup_seqZ in Hj as [-> _]. by rewrite Z.add_0_l, Z2Nat.id in Hg.
Qed.

Lemma abc_stores t p : stores (abc_catalog t) (abc_heaps t p) (db_of t p).
Proof.
  intros oid info rs. unfold db_of. destruct (Z.eqb_spec oid 0) as [->|]; [|done]. intros [= <- <-]. split; [done|].
  exists (abc_heap p). split; [done|]. repeat constructor; apply row_of_all; by vm_compute.
Qed.

Lemma good_new cols : well_sized cols -> fixed_size cols < 2 ^ 31 -> good_schema (Schema_new cols).
Proof. intros. by exists cols. Qed.

Lemma report_ok : plan_ok report.
Proof.
  assert (Ha : good_schema abc) by (apply good_new; [by repeat constructor|done]).
  assert (Hj : good_schema joined) by (apply good_new; [by repeat constructor|done]).
  assert (Hg : good_schema grouped_by_b) by (apply good_new; [by repeat constructor|done]).
  unfold report, scan_plan. cbn [plan_ok]. by split_and!.
Qed.

Lemma Execute_query_witness :
  exists t (w w' : ExecutorContext pool IndexMetadata) n tuples, catalog_ w = abc_catalog t
    /\ Execute n report w = Ok (true, Some (tuples, w'))
    /\ Forall2 (row_of grouped_by_b) tuples [[tiny 2; int_value INTEGER int32_t 3; int_value INTEGER int32_t 12]].
Proof.
  destruct abc_table as (t & s & p & Hi & Hr).
  destruct (Execute_query (abc_catalog t) txn0 (plain_frame (pins (view s))) (abc_heaps t p) (db_of t p) report
    [([tiny 2; int_value INTEGER int32_t 3; int_value INTEGER int32_t 12], None)]) as (out & n & Hout & Hrun).
  - apply abc_stores.
  - apply report_ok.
  - by vm_compute.
  - injection Hout as <-. destruct (Hrun n (MkContext s txn0 (abc_catalog t)) ltac:(lia)) as (tuples & w' & Hex & _ & Hrows).
    + split; try done. by intros info h [-> ->].
    + by exists t, (MkContext s txn0 (abc_catalog t)), w', n, tuples.
Defined.
End Concrete.

(** * The two joins *)

(** ** Lists *)

Lemma bind_app_perm {A B} (f g : A -> list B) l : l ≫= (fun x => f x ++ g x) ≡ₚ (l ≫= f) ++ (l ≫= g).
Proof.
  induction l as [|x l IH]; [done|]. rewrite !bind_cons, IH, <- !app_assoc. f_equiv. rewrite !app_assoc. f_equiv. by rewrite Permutation_app_comm.
Qed.

Lemma bind_exchange {A B C} (f : A -> B -> list C) l l' : l ≫= (fun x => l' ≫= f x) ≡ₚ l' ≫= (fun y => l ≫= fun x => f x y).
Proof.
  induction l as [|x l IH]; [by induction l'|]. rewrite bind_cons, IH. symmetry.
  rewrite <- (bind_app_perm (fun y => f x y) (fun y => l ≫= fun x => f x y) l'). done.
Qed.

(** A key that occurs once is found. *)
Lemma bind_find {K V W} `{EqDecision K} (k : K) (f : V -> W) (l : list (K * V)) : NoDup l.*1 ->
  l ≫= (fun e => if decide (e.1 = k) then [f e.2] else []) = match assoc_find k l with Some v => [f v] | None => [] end.
Proof.
  unfold assoc_find. induction l as [|[k' v] l IH]; [done|]. cbn [fmap list_fmap fst]. intros [Hn Hnd]%NoDup_cons. rewrite bind_cons.
  cbn [list_find fst snd]. destruct (decide (k' = k)) as [->|Hk].
  - cbn. rewrite (IH Hnd). destruct (list_find _ l) as [[i e]|] eqn:E; [|done]. apply list_find_Some in E as (Hi & He & _).
    destruct Hn. rewrite <- He. apply list_elem_of_fmap_2, (list_elem_of_lookup_2 _ _ _ Hi).
  - rewrite (IH Hnd). cbn [app]. by destruct (list_find _ l) as [[i e]|].
Qed.

Lemma rmap_perm {A B} (f : A -> res B) l l' ys : l ≡ₚ l' -> rmap f l = Ok ys -> exists ys', rmap f l' = Ok ys' /\ ys ≡ₚ ys'.
Proof.
  intros Hp Hl%rmap_ok. destruct (Permutation_Forall2 Hp Hl) as (ys' & Hperm & Hl'). exists ys'. split; [by apply rmap_ok|done].
Qed.

Lemma rfilter_app {A} (f : A -> res bool) l l' ys ys' : rfilter f l = Ok ys -> rfilter f l' = Ok ys' -> rfilter f (l ++ l') = Ok (ys ++ ys').
Proof.
  revert ys. induction l as [|x l IH]; intros ys Hl Hl'; [by injection Hl as <-|]. cbn [rfilter app] in *.
  destruct (f x) as [b|]; [|done]. cbn [rbind] in *. destruct (rfilter f l) as [zs|]; [|done]. cbn [rbind] in *. injection Hl as <-.
  rewrite (IH zs eq_refl Hl'). by destruct b.
Qed.

(** ** The predicate *)

(** The expression with its columns taken from side [i]. *)
Fixpoint on_side (i : Z) (e : Expression) : Expression :=
  match e with
  | ColumnValueExpression _ col_idx ret_type => ColumnValueExpression i col_idx ret_type
  | ComparisonExpression left_ right_ comp_type => ComparisonExpression (on_side i left_) (on_side i right_) comp_type
  | _ => e
  end.

(** [left_key = right_key]. *)
Definition keys_equal (left_key right_key : Expression) : Expression :=
  ComparisonExpression (on_side 0 left_key) (on_side 1 right_key) Equal.

Section JoinEquivalence.
Context `{Config} `{!HashOrder}.

Lemma eval_join_left e l r : eval_join (on_side 0 e) l r = eval e l.
Proof. induction e as [|ti ci rt|e1 IH1 e2 IH2|]; cbn [on_side eval_join eval]; [done|done|by rewrite IH1, IH2|done]. Qed.
Lemma eval_join_right e l r : eval_join (on_side 1 e) l r = eval e r.
Proof. induction e as [|ti ci rt|e1 IH1 e2 IH2|]; cbn [on_side eval_join eval]; [done|done|by rewrite IH1, IH2|done]. Qed.

Lemma keys_equal_ok left_key right_key l r x y t : eval left_key l = Ok x -> eval right_key r = Ok y -> good_key t x -> good_key t y ->
  (let! v := eval_join (keys_equal left_key right_key) l r in GetAs_bool v) = Ok (bool_decide (x = y)).
Proof.
  intros Hx Hy [Hpx Htx] [Hpy Hty]. unfold keys_equal. cbn [eval_join]. rewrite eval_join_left, eval_join_right, Hx, Hy. cbn [rbind PerformComparison].
  rewrite (plain_equal x y Hpx Hpy) by congruence. cbn [rbind]. by destruct (bool_decide (x = y)).
Qed.

(** The rows of an input with their keys. *)
Lemma keyed_rows {B} (g : qrow -> B) (key : Expression) (rows : list qrow) keyed :
  rmap (fun r : qrow => let! k := eval key r.1 in Ok (k, g r)) rows = Ok keyed ->
  g <$> rows = keyed.*2 /\ Forall2 (fun r p => eval key r.1 = Ok p.1) rows keyed.
Proof.
  intros Hr%rmap_ok. induction Hr as [|r p rows keyed Hp _ [IH1 IH2]]; [done|]. apply rbind_ok in Hp as (k & Hk & Hp). injection Hp as <-.
  cbn [fmap list_fmap fst snd]. rewrite IH1. split; [done|by constructor].
Qed.

Section Pairs.
Context (left_key right_key : Expression) (t : TypeId) (lefts : list (Value * list Value)) (rights : list (Value * qrow)).
Hypothesis Hlefts : Forall (fun l => eval left_key l.2 = Ok l.1 /\ good_key t l.1) lefts.
Hypothesis Hrights : Forall (fun r => eval right_key r.2.1 = Ok r.1 /\ good_key t r.1) rights.

Definition keep (p : list Value * list Value) : res bool :=
  let! v := eval_join (keys_equal left_key right_key) p.1 p.2 in GetAs_bool v.

(** The pairs with equal keys, in the order of the left rows and in the order of
    the right rows. *)
Definition left_pairs : list (list Value * qrow) := lefts ≫= fun l => rights ≫= fun r => if decide (l.1 = r.1) then [(l.2, r.2)] else [].
Definition right_pairs : list (list Value * qrow) :=
  rights ≫= fun r => match assoc_find r.1 lefts with Some l => [(l, r.2)] | None => [] end.

Lemma pairs_perm : NoDup lefts.*1 -> left_pairs ≡ₚ right_pairs.
Proof.
  intros Hnd. unfold left_pairs, right_pairs. rewrite bind_exchange. clear Hrights. induction rights as [|r rs IH]; [done|]. rewrite !bind_cons, IH.
  by rewrite (bind_find r.1 (fun v => (v, r.2)) lefts Hnd).
Qed.

Lemma nested_loop_pairs :
  rfilter keep (lefts ≫= fun l => (fun r => (l.2, r.2.1)) <$> rights) = Ok ((fun p => (p.1, p.2.1)) <$> left_pairs).
Proof.
  unfold left_pairs. induction Hlefts as [|l ls [Hl Hgl] _ IH]; [done|]. rewrite !bind_cons, fmap_app. apply rfilter_app; [|apply IH]. clear IH.
  induction Hrights as [|r rs [Hr Hgr] _ IH]; [done|]. rewrite bind_cons. cbn [fmap list_fmap rfilter]. unfold keep at 1. cbn [fst snd].
  rewrite (keys_equal_ok _ _ _ _ _ _ _ Hl Hr Hgl Hgr). cbn [rbind]. rewrite IH. cbn [rbind]. rewrite fmap_app.
  { case_decide as E; [by rewrite bool_decide_true|by rewrite bool_decide_false]. }
  - by apply Forall_cons in Hrights as [_ Hrs].
  - by apply Forall_cons in Hlefts as [_ Hls].
Qed.
End Pairs.

Lemma make_rows_values out (l : list (list Value * qrow)) rows :
  rmap (fun p => make_row out (join_columns out p.1 p.2.1) p.2.2) l = Ok rows ->
  exists rows', rmap (fun p => make_row out (join_columns out p.1 p.2) None) ((fun p => (p.1, p.2.1)) <$> l) = Ok rows' /\ rows'.*1 = rows.*1.
Proof.
  intros Hl%rmap_ok. induction Hl as [|p row l rows Hp _ (rows' & Hr & E)]; [by exists []|].
  unfold make_row in Hp. apply rbind_ok in Hp as (x & Hx & Hp). apply rbind_ok in Hp as (y & Hy & Hp). injection Hp as <-.
  exists ((y, None) :: rows'). cbn [fmap list_fmap rmap fst snd]. unfold make_row at 1. rewrite Hx. cbn [rbind]. rewrite Hy. cbn [rbind].
  rewrite Hr. by rewrite E.
Qed.

(** On the reference: when the hash join is defined, so is the nested loop join,
    and it has the same rows. *)
Lemma denote_joins_agree out left_key right_key left_rows right_rows rows :
  denote_hash_join out left_key right_key left_rows right_rows = Ok rows ->
  exists rows', denote_nested_loop out (Some (keys_equal left_key right_key)) left_rows right_rows = Ok rows' /\ rows'.*1 ≡ₚ rows.*1.
Proof.
  intros Hd. apply rbind_ok in Hd as (lefts & Hlefts & Hd). apply rbind_ok in Hd as (rights & Hrights & Hd).
  apply rbind_ok in Hd as (u & Hkeys%check_ok & Hd). apply rbind_ok in Hd as (u' & Hnd%check_ok%bool_decide_eq_true & Hrows).
  destruct (keys_ok_type _ Hkeys) as [t [Hkl Hkr]%Forall_app].
  destruct (keyed_rows fst left_key left_rows lefts) as [El Fl]; [exact Hlefts|].
  destruct (keyed_rows id right_key right_rows rights) as [Er Fr]; [exact Hrights|]. rewrite list_fmap_id in Er.
  assert (HL : Forall (fun l => eval left_key l.2 = Ok l.1 /\ good_key t l.1) lefts).
  { clear -El Fl Hkl. revert El. induction Fl as [|r p rs ps Hp _ IH]; [done|]. intros [= E1 E2]. apply Forall_cons in Hkl as [Hk Hkl].
    constructor; [split; [by rewrite <- E1|done]|by apply IH]. }
  assert (HR : Forall (fun r => eval right_key r.2.1 = Ok r.1 /\ good_key t r.1) rights).
  { clear -Er Fr Hkr. revert Er. induction Fr as [|r p rs ps Hp _ IH]; [done|]. intros [= -> E2]. apply Forall_cons in Hkr as [Hk Hkr].
    constructor; [by split|by apply IH]. }
  destruct (rmap_perm _ _ (left_pairs lefts rights) _ (Permutation_sym (pairs_perm lefts rights Hnd)) Hrows) as (rows1 & Hrows1 & Hp).
  destruct (make_rows_values out _ _ Hrows1) as (rows' & Hr' & E). exists rows'. split; [|by rewrite E, Hp].
  unfold denote_nested_loop. cbn [predicate_or_true rbind]. unfold select.
  assert (Hpairs : (left_rows ≫= fun l => (fun r => (l.1, r.1)) <$> right_rows) = (lefts ≫= fun l => (fun r => (l.2, r.2.1)) <$> rights)).
  { subst right_rows. clear -El. revert El. generalize dependent left_rows. induction lefts as [|l ls IH]; intros [|r rs] El; try done.
    injection El as El1 El2. rewrite !bind_cons, El1, (IH rs El2). f_equal. by rewrite <- list_fmap_compose. }
  rewrite Hpairs. pose proof (nested_loop_pairs left_key right_key t lefts rights HL HR) as Hf. unfold keep in Hf. rewrite Hf. exact Hr'.
Qed.
End JoinEquivalence.

(** ** Properties *)

Section Properties.
Context `{Config} `{!HashOrder} {S P I : Type} `{!BufferPoolManager S P bytes} `{!BufferPoolSpec S P bytes} `{!Index S I}
  `{!TablePagesOk (good_data (S := S) (P := P)) (zero_data (S := S) (P := P))}.

(** C8: A hash join and the nested loop join whose predicate is the equality of
    the two keys return the same rows, those of the reference, up to their order,
    whenever the reference evaluator is defined on the hash join: the keys are of
    one type and not null, and no two left rows have one key (the code would
    answer with a left row that was overwritten).  Both run to their end and
    leave the world as it was. *)
Theorem Joins_agree (c : Catalog I) (txn : Transaction) (F : Frame S P) (heaps : TableInfo -> heap -> Prop) (db : database)
    out left_plan right_plan left_key right_key (rows : list qrow) :
  let hash_join := HashJoinPlanNode out left_plan right_plan left_key right_key in
  let nested_loop := NestedLoopJoinPlanNode out left_plan right_plan (Some (keys_equal left_key right_key)) in
  stores c heaps db -> plan_ok hash_join -> denote db hash_join = Ok rows ->
  exists rows2 n, rows2 ≡ₚ rows.*1 /\ forall fuel (w : ExecutorContext S I), (n <= fuel)%nat -> at_rest c txn F heaps w ->
  exists tuples1 tuples2 w1 w2, Execute fuel hash_join w = Ok (true, Some (tuples1, w1)) /\ Forall2 (row_of out) tuples1 rows.*1
    /\ Execute fuel nested_loop w = Ok (true, Some (tuples2, w2)) /\ Forall2 (row_of out) tuples2 rows2
    /\ at_rest c txn F heaps w1 /\ at_rest c txn F heaps w2.
Proof.
  intros hash_join nested_loop Hdb Hok Hd. pose proof Hd as Hd2. cbn [hash_join denote] in Hd2.
  apply rbind_ok in Hd2 as (left_rows & Hl & Hd2). apply rbind_ok in Hd2 as (right_rows & Hr & Hd2).
  destruct (denote_joins_agree _ _ _ _ _ _ Hd2) as (rows' & Hn & Hp).
  assert (Hd' : denote db nested_loop = Ok rows') by (cbn [nested_loop denote]; by rewrite Hl, Hr).
  destruct (execute_ok c txn F heaps db Hdb hash_join rows Hok Hd) as (o1 & n1 & Ho1 & Hrun1).
  destruct (execute_ok c txn F heaps db Hdb nested_loop rows' Hok Hd') as (o2 & n2 & Ho2 & Hrun2).
  injection Ho1 as <-. injection Ho2 as <-. exists rows'.*1, (n1 + n2)%nat. split; [done|]. intros fuel w Hf Hw.
  destruct (Hrun1 fuel w ltac:(lia) Hw) as (t1 & w1 & ? & ? & ?), (Hrun2 fuel w ltac:(lia) Hw) as (t2 & w2 & ? & ? & ?).
  by exists t1, t2, w1, w2.
Qed.
End Properties.

(** ** SELECT l.b, r.c FROM t l, t r WHERE l.a = r.b, both ways *)

Section Concrete.
#[local] Existing Instance course_config.
#[local] Existing Instance course_table_pages.
#[local] Existing Instance listed_order.
#[local] Existing Instance no_index.
Notation pool := (BPI bytes LRUReplacer DiskManager).

Definition key_a : Expression := ColumnValueExpression 0 0 TINYINT.
Definition key_b : Expression := ColumnValueExpression 0 1 TINYINT.

Lemma Joins_agree_witness :
  exists t (w w1 w2 : ExecutorContext pool IndexMetadata) n tuples1 tuples2 rows1 rows2, catalog_ w = abc_catalog t
    /\ Execute n (HashJoinPlanNode joined scan_plan scan_plan key_a key_b) w = Ok (true, Some (tuples1, w1))
    /\ Execute n (NestedLoopJoinPlanNode joined scan_plan scan_plan (Some (keys_equal key_a key_b))) w = Ok (true, Some (tuples2, w2))
    /\ Forall2 (row_of joined) tuples1 rows1 /\ Forall2 (row_of joined) tuples2 rows2 /\ rows2 ≡ₚ rows1.
Proof.
  destruct abc_table as (t & s & p & Hi & Hr).
  assert (Hrest : at_rest (abc_catalog t) txn0 (plain_frame (pins (view s))) (abc_heaps t p) (MkContext s txn0 (abc_catalog t))).
  { split; try done. by intros info h [-> ->]. }
  destruct (denote (db_of t p) (HashJoinPlanNode joined scan_plan scan_plan key_a key_b)) as [rows|] eqn:E; [|by vm_compute in E].
  destruct (Joins_agree (abc_catalog t) txn0 (plain_frame (pins (view s))) (abc_heaps t p) (db_of t p) joined scan_plan scan_plan key_a key_b rows)
    as (rows2 & n & Hp & Hrun); [apply abc_stores| |exact E|].
  - assert (Ha : good_schema abc) by (apply good_new; [by repeat constructor|done]).
    assert (Hj : good_schema joined) by (apply good_new; [by repeat constructor|done]). unfold scan_plan. cbn [plan_ok]. by split_and!.
  - destruct (Hrun n _ ltac:(lia) Hrest) as (t1 & t2 & w1 & w2 & ? & ? & ? & ? & _).
    by exists t, (MkContext s txn0 (abc_catalog t)), w1, w2, n, t1, t2, rows.*1, rows2.
Defined.
End Concrete.
