(* ===== verification/IndexKeeping.v ===== *)
(** Statements keep the indexes of their table: while the rows change, every index
    holds the entries of the rows. *)

From S2P Require Import Prelude Bytes Rid BufferPoolManager Value Types TypesCorrect ValueFactory Schema Expression TablePage TablePageCorrect TupleValues TupleCorrect.
From S2P Require Import Transaction TableHeap TableHeapCorrect TableScan HashUtil Catalog IndexContract Executor ReadExecutors JoinExecutors AggregationExecutor WriteExecutors.
From S2P Require Import QuerySemantics ScanCorrect QueryCorrect WriteCorrect.

(** ** The entries of rows *)

Section Entries.
Context `{Config} {S P I : Type} `{!BufferPoolManager S P bytes} `{!BufferPoolSpec S P bytes} `{!Index S I} `{!IndexSpec S P I}.
Notation trow := (list Value * RID)%type.
Implicit Types (x : IndexInfo I) (r : trow) (rs : list trow).

(** The key tuple of a row, and its entry. *)
Definition key_tuple x (row : list Value) : res Tuple :=
  let! values := rmap (zlookup row) (GetKeyAttrs (index_ x)) in Tuple_of_values values (key_schema_ x).
Definition row_key x (row : list Value) : bytes :=
  match key_tuple x row with Ok t => index_key (index_ x) t | Err _ => [] end.
Definition entry x r : bytes * RID := (row_key x r.1, r.2).
Definition content x rs : gset (bytes * RID) := list_to_set (entry x <$> rs).

Lemma elem_of_content x rs k rid : (k, rid) ∈ content x rs <-> exists row, (row, rid) ∈ rs /\ row_key x row = k.
Proof.
  unfold content. rewrite elem_of_list_to_set, list_elem_of_fmap. split.
  - intros ([row rid'] & [= -> ->] & Hin). by exists row.
  - intros (row & Hin & <-). by exists (row, rid).
Qed.

Lemma content_perm x rs rs' : rs ≡ₚ rs' -> content x rs = content x rs'.
Proof. intros Hp. apply set_eq. intros e. unfold content. rewrite !elem_of_list_to_set. by rewrite Hp. Qed.

Lemma content_size x rs : (size (content x rs) <= length rs)%nat.
Proof.
  unfold content. induction rs as [|r rs IH]; [done|]. cbn [fmap list_fmap list_to_set length].
  rewrite size_union_alt, size_singleton. pose proof (subseteq_size (list_to_set (entry x <$> rs) ∖ {[entry x r]}) (list_to_set (entry x <$> rs) : gset _)
    ltac:(set_solver)). unfold fmap, list_fmap in *. lia.
Qed.

Lemma content_middle x A r B : content x (A ++ r :: B) = {[entry x r]} ∪ content x (A ++ B).
Proof. rewrite (content_perm x _ (r :: A ++ B)) by by rewrite Permutation_middle. done. Qed.

(** The entry of a row is no other row's. *)
Lemma content_remove x A r B : NoDup (A ++ r :: B).*2 -> content x (A ++ r :: B) ∖ {[entry x r]} = content x (A ++ B).
Proof.
  intros Hnd. rewrite content_middle. apply set_eq. intros [k rid]. rewrite elem_of_difference, elem_of_union, !elem_of_singleton.
  split; [tauto|]. intros Hin. split; [by right|]. intros [= -> ->]. apply elem_of_content in Hin as (row & Hin & _).
  rewrite fmap_app, fmap_cons, <- Permutation_middle in Hnd. apply NoDup_cons in Hnd as [Hn _]. apply Hn. rewrite <- fmap_app.
  apply list_elem_of_fmap. by exists (row, r.2).
Qed.

(** The key the code reads off a tuple of the row. *)
Lemma KeyFromTuple_row s x t row kt : row_of s t row -> key_tuple x row = Ok kt -> Tuple_KeyFromTuple t s (key_schema_ x) (GetKeyAttrs (index_ x)) = Ok kt.
Proof.
  intros Hro Hk. unfold key_tuple in Hk. apply rbind_ok in Hk as (vals & Hv & Hk). unfold Tuple_KeyFromTuple.
  by rewrite (GetValues_row _ _ _ _ _ Hro Hv).
Qed.
End Entries.

(** ** Indexes next to the heaps *)

Section Keeping.
Context `{Config} `{!HashOrder} {S P I : Type} `{!BufferPoolManager S P bytes} `{!BufferPoolSpec S P bytes} `{!Index S I} `{!IndexSpec S P I}
  `{!TablePagesOk (good_data (S := S) (P := P)) (zero_data (S := S) (P := P))}.
Notation world := (ExecutorContext S I).
Notation trow := (list Value * RID)%type.
Notation holding := (I * gset Z * gset (bytes * RID))%type.
Implicit Types (l A B : list holding) (F : Frame S P) (c : Catalog I) (txn : Transaction) (w : world) (hs : TableInfo -> heap -> Prop).

(** A frame with indexes: each on its pages, with its entries. *)
Definition index_pages l : gset Z := ⋃ (l.*1.*2).

Lemma elem_of_index_pages l p : p ∈ index_pages l <-> exists e, e ∈ l /\ p ∈ e.1.2.
Proof.
  unfold index_pages. rewrite elem_of_union_list. split.
  - intros (X & HX & Hp). apply list_elem_of_fmap in HX as (e & -> & He). apply list_elem_of_fmap in He as (e' & -> & He). by exists e'.
  - intros (e & He & Hp). exists e.1.2. split; [|done]. by do 2 apply list_elem_of_fmap_2.
Qed.

Program Definition with_indexes F (ok : Prop) l : Frame S P :=
  MkFrame (fr_pins F) (index_pages l ∪ fr_pages F)
    (fun s => fr_inv F s /\ ok /\ Forall (fun e => index_at e.1.1 s e.1.2 e.2) l) _ _.
Next Obligation.
  intros F ok l s s' Y (HF & Hok & Hl) Hs' Hev Hp Hd. cbn beta. split_and!; [|done|].
  - eapply fr_kept; [exact HF|done|exact Hev|done|set_solver].
  - eapply Forall_impl; [by apply Forall_and, conj; [exact Hl|apply Forall_forall; intros e He; exact He]|].
    intros e [He Hin]. eapply index_kept; [exact He|done|exact Hev|done|]. intros p Hpx Hpy. apply (Hd p); [|done].
    apply elem_of_union_l, elem_of_index_pages. by exists e.
Qed.
Next Obligation.
  intros F ok l s p (HF & _ & Hl) [Hp|Hp]%elem_of_union; [|by eapply fr_live].
  apply elem_of_index_pages in Hp as (e & He & Hp). rewrite Forall_forall in Hl. eapply index_live; [by apply Hl|done].
Qed.

(** The pages of the indexes are apart from each other and from the rest. *)
Definition pages_apart F (Xs : list (gset Z)) : Prop :=
  (forall Xs1 X Xs2, Xs = Xs1 ++ X :: Xs2 -> forall Y, Y ∈ Xs1 ++ Xs2 -> X ## Y) /\ ⋃ Xs ## fr_pages F.

Lemma rest_index c txn F ok A x X es es' B hs w s' :
  at_rest c txn (with_indexes F ok (A ++ (x, X, es) :: B)) hs w -> pages_apart F (A ++ (x, X, es) :: B).*1.*2 ->
  (forall i g p, hs i g -> p ∈ g.*1 -> p ∉ X) ->
  index_at x s' X es' -> within X (bpm_ w) s' ->
  at_rest c txn (with_indexes F ok (A ++ (x, X, es') :: B)) hs (MkContext s' (transaction_ w) (catalog_ w)).
Proof.
  intros [Hc Ht Hp (HF & Hok & Hl) Hr Hh] [Hpair Hrest] Hheaps Hat Hw. pose proof Hw as [Hs' Hev Hpins _].
  assert (HXF : X ## fr_pages F).
  { intros p HpX HpF. apply (Hrest p); [|done]. apply elem_of_union_list. exists X. split; [|done]. rewrite !fmap_app. set_solver. }
  split; simpl; try done; [by rewrite Hpins| |by eapply within_room|].
  - split_and!; [by eapply fr_kept|done|]. apply Forall_app in Hl as [HA HB]. apply Forall_cons in HB as [_ HB].
    assert (Hkept : forall l, Forall (fun e => index_at e.1.1 (bpm_ w) e.1.2 e.2) l -> (forall e, e ∈ l -> e ∈ A ++ B) ->
      Forall (fun e => index_at e.1.1 s' e.1.2 e.2) l).
    { intros l Hl Hin. apply Forall_forall. intros e He. rewrite Forall_forall in Hl.
      eapply index_kept; [by apply Hl|done|exact Hev|done|]. symmetry. rewrite !fmap_app in Hpair.
      apply (Hpair A.*1.*2 X B.*1.*2 eq_refl). rewrite <- !fmap_app. do 2 apply list_elem_of_fmap_2. by apply Hin. }
    apply Forall_app. split; [by apply Hkept; [|set_solver]|]. constructor; [done|]. by apply Hkept; [|set_solver].
  - intros i g Hg. eapply heap_inv_evolves_in; [by apply Hh|done|exact Hev|done|]. intros q. by apply (Hheaps i g q).
Qed.

(** A call on one index. *)
Lemma wp_on_index {C : Type} c txn F ok A x X es es' B hs w (m : M S C) :
  at_rest c txn (with_indexes F ok (A ++ (x, X, es) :: B)) hs w -> pages_apart F (A ++ (x, X, es) :: B).*1.*2 ->
  (forall i g p, hs i g -> p ∈ g.*1 -> p ∉ X) ->
  wp m (fun _ s' => index_at x s' X es' /\ within X (bpm_ w) s') (bpm_ w) ->
  wp (on_bpm m) (fun _ w' => at_rest c txn (with_indexes F ok (A ++ (x, X, es') :: B)) hs w'
    /\ forall n, budget (view (bpm_ w)) n -> budget (view (bpm_ w')) n) w.
Proof.
  intros Hr Ha Hheaps Hw. apply wp_run in Hw as (a & s' & Hrun & Hat & Hwi). unfold wp, on_bpm. rewrite Hrun. cbn [rbind].
  split; [by eapply rest_index|]. simpl. apply Hwi.
Qed.

(** ** The indexes of a table *)

Lemma rest_ok c txn F (ok ok' : Prop) l hs w : ok' -> at_rest c txn (with_indexes F ok l) hs w -> at_rest c txn (with_indexes F ok' l) hs w.
Proof. intros Hok [Hc Ht Hp (HF & _ & Hl) Hr Hh]. by split. Qed.

Definition filled (ixp : list (IndexInfo I * gset Z)) (rs : list trow) : list holding :=
  (fun e => (index_ e.1, e.2, content e.1 rs)) <$> ixp.

Lemma filled_pages ixp rs : (filled ixp rs).*1.*2 = ixp.*2.
Proof. induction ixp as [|e ixp IH]; [done|]. cbn [filled fmap list_fmap] in *. by f_equal. Qed.

Section Loop.
Context c txn F (ok : Prop) hs (ixp : list (IndexInfo I * gset Z)) (rs rs' : list trow).
Context (op : list (IndexInfo I) -> M world unit) (step : IndexInfo I -> M world unit).
Hypothesis (Hapart : pages_apart F ixp.*2) (Hheaps : forall i g p, hs i g -> p ∈ g.*1 -> p ∉ ⋃ ixp.*2).
Hypothesis (Hop0 : op [] = sret tt)
  (Hop : forall x (xs : list (IndexInfo I)) w (Q : unit -> world -> Prop), wp (step x) (fun _ w' => wp (op xs) Q w') w -> wp (op (x :: xs)) Q w).
Hypothesis Hstep : forall e A B w, e ∈ ixp -> pages_apart F (A ++ (index_ e.1, e.2, content e.1 rs) :: B).*1.*2 ->
  (forall i g p, hs i g -> p ∈ g.*1 -> p ∉ e.2) ->
  at_rest c txn (with_indexes F ok (A ++ (index_ e.1, e.2, content e.1 rs) :: B)) hs w ->
  wp (step e.1) (fun _ w' => at_rest c txn (with_indexes F ok (A ++ (index_ e.1, e.2, content e.1 rs') :: B)) hs w'
    /\ forall n, budget (view (bpm_ w)) n -> budget (view (bpm_ w')) n) w.

(** Every index in turn goes from the entries of [rs] to those of [rs']. *)
Lemma wp_each (B A : list (IndexInfo I * gset Z)) w : ixp = A ++ B -> at_rest c txn (with_indexes F ok (filled A rs' ++ filled B rs)) hs w ->
  wp (op B.*1) (fun _ w' => at_rest c txn (with_indexes F ok (filled ixp rs')) hs w'
    /\ forall n, budget (view (bpm_ w)) n -> budget (view (bpm_ w')) n) w.
Proof using Hapart Hheaps Hop Hop0 Hstep.
  revert A w. induction B as [|e B IH]; intros A w E Hr.
  - rewrite app_nil_r in E. cbn [filled fmap list_fmap] in Hr |- *. rewrite app_nil_r in Hr. rewrite Hop0, E. by apply wp_ret.
  - rewrite fmap_cons. apply Hop. assert (Hin : e ∈ ixp) by (rewrite E; set_solver). cbn [filled fmap list_fmap] in Hr.
    eapply wp_mono; [apply (Hstep e (filled A rs') (filled B rs) w Hin); [| |exact Hr]|].
    + rewrite !fmap_app, !fmap_cons, !filled_pages. rewrite E, fmap_app, fmap_cons in Hapart. exact Hapart.
    + intros i g p Hg Hp Hpe. apply (Hheaps i g p Hg Hp). apply elem_of_union_list. exists e.2. split; [by apply list_elem_of_fmap_2|done].
    + intros _ w1 (Hr1 & Hb1). eapply wp_mono; [apply (IH (A ++ [e]) w1)|].
      * by rewrite <- app_assoc.
      * unfold filled at 1. rewrite fmap_app, <- app_assoc. exact Hr1.
      * intros _ w2 (Hr2 & Hb2). split; [done|]. intros n Hn. by apply Hb2, Hb1.
Qed.
End Loop.

(** ** What the statements need *)

(** The table [info] has the indexes [ixp], each with the pages it may use: apart
    from each other, from the heaps and from the rest of the pool.  A row that
    fits the table has a key that fits the index, and [cap] rows fit. *)
Record indexed (others : TableInfo -> heap -> Prop) (info : TableInfo) F (ixp : list (IndexInfo I * gset Z)) (cap : nat) : Prop := {
  ix_apart : pages_apart F ixp.*2;
  ix_others i g p : others i g -> p ∈ g.*1 -> p ∉ ⋃ ixp.*2;
  ix_keys e row : e ∈ ixp -> fits_row (schema_ info) row ->
    exists t, key_tuple e.1 row = Ok t /\ index_accepts (index_ e.1) t;
  ix_cap e : e ∈ ixp -> (cap <= index_capacity (index_ e.1))%nat
}.

(** The indexes hold the entries of the rows. *)
Definition index_frame F ixp (cap : nat) (rs : list trow) : Frame S P := with_indexes F (length rs <= cap)%nat (filled ixp rs).

Lemma wp_lifted_key {C : Type} (t : Tuple) (k : Tuple -> M world C) (r : res Tuple) (Q : C -> world -> Prop) w :
  r = Ok t -> wp (k t) Q w -> wp (do! key := lift r in k key) Q w.
Proof. intros Hr HQ. by eapply wp_bind, wp_lift. Qed.

Section Keeps.
Context c (others : TableInfo -> heap -> Prop) (info : TableInfo) F (ixp : list (IndexInfo I * gset Z)) (cap : nat).
Hypothesis Hix : indexed others info F ixp cap.
Notation frame := (index_frame F ixp cap).
Notation X := (⋃ ixp.*2 ∪ fr_pages F).

Lemma frame_pages rs : fr_pages (frame rs) = X.
Proof. unfold index_frame, with_indexes, index_pages. cbn [fr_pages]. by rewrite filled_pages. Qed.

Lemma frame_perm txn hs w rs rs' : rs ≡ₚ rs' -> at_rest c txn (frame rs) hs w -> at_rest c txn (frame rs') hs w.
Proof.
  intros Hp. unfold index_frame. assert (E : filled ixp rs' = filled ixp rs).
  { unfold filled. apply list_fmap_ext. intros i e _. by rewrite (content_perm e.1 _ _ Hp). }
  rewrite E. intros Hr. eapply rest_ok; [|exact Hr]. destruct Hr as [_ _ _ (_ & Hl & _) _ _]. by rewrite <- (Permutation_length Hp).
Qed.

Lemma heaps_clear h i g p : apart others X h -> with_heap others info h i g -> p ∈ g.*1 -> p ∉ ⋃ ixp.*2.
Proof.
  intros Hap [Hg|[-> ->]] Hp; [by eapply (ix_others _ _ _ _ _ Hix)|]. pose proof (ap_pages _ _ _ Hap p Hp). set_solver.
Qed.

(** The steps on one index. *)
Definition add_entry (t : Tuple) (rid : RID) (x : IndexInfo I) : M world unit :=
  do! key := lift (Tuple_KeyFromTuple t (schema_ info) (key_schema_ x) (GetKeyAttrs (index_ x))) in on_bpm (InsertEntry (index_ x) key rid).
Definition drop_entry (t : Tuple) (rid : RID) (x : IndexInfo I) : M world unit :=
  do! key := lift (Tuple_KeyFromTuple t (schema_ info) (key_schema_ x) (GetKeyAttrs (index_ x))) in on_bpm (DeleteEntry (index_ x) key rid).

Section Step.
Context (e : IndexInfo I * gset Z) (Hin : e ∈ ixp) (txn : Transaction) (ok : Prop) (hs : TableInfo -> heap -> Prop) (A B : list holding).
Notation at_entries es w := (at_rest c txn (with_indexes F ok (A ++ (index_ e.1, e.2, es) :: B)) hs w).
Hypothesis (Hpages : forall es, pages_apart F (A ++ (index_ e.1, e.2, es) :: B).*1.*2) (Hclear : forall i g p, hs i g -> p ∈ g.*1 -> p ∉ e.2).

Lemma add_step es w t r : at_entries es w -> fits_row (schema_ info) r.1 -> row_of (schema_ info) t r.1 -> RID_wf r.2 -> (size es < cap)%nat ->
  wp (add_entry t r.2 e.1) (fun _ w' => at_entries ({[entry e.1 r]} ∪ es) w' /\ forall n, budget (view (bpm_ w)) n -> budget (view (bpm_ w')) n) w.
Proof using Hix Hin Hpages Hclear.
  intros Hr Hfit Hrow Hwf Hsz. destruct (ix_keys _ _ _ _ _ Hix e r.1 Hin Hfit) as (kt & Hkt & Hacc).
  eapply wp_lifted_key; [by eapply KeyFromTuple_row|]. apply (wp_on_index _ _ _ _ _ _ _ es); [exact Hr|apply Hpages|exact Hclear|].
  unfold entry, row_key. rewrite Hkt. apply InsertEntry_spec; try done.
  - destruct Hr as [_ _ _ (_ & _ & Hl) _ _]. apply Forall_app in Hl as [_ Hl]. by apply Forall_cons in Hl as [Hl _].
  - apply Hr.
  - pose proof (ix_cap _ _ _ _ _ Hix e Hin). lia.
Qed.

Lemma drop_step es w t r : at_entries es w -> fits_row (schema_ info) r.1 -> row_of (schema_ info) t r.1 ->
  wp (drop_entry t r.2 e.1) (fun _ w' => at_entries (es ∖ {[entry e.1 r]}) w' /\ forall n, budget (view (bpm_ w)) n -> budget (view (bpm_ w')) n) w.
Proof using Hix Hin Hpages Hclear.
  intros Hr Hfit Hrow. destruct (ix_keys _ _ _ _ _ Hix e r.1 Hin Hfit) as (kt & Hkt & Hacc).
  eapply wp_lifted_key; [by eapply KeyFromTuple_row|]. apply (wp_on_index _ _ _ _ _ _ _ es); [exact Hr|apply Hpages|exact Hclear|].
  unfold entry, row_key. rewrite Hkt. apply DeleteEntry_spec; try done.
  - destruct Hr as [_ _ _ (_ & _ & Hl) _ _]. apply Forall_app in Hl as [_ Hl]. by apply Forall_cons in Hl as [Hl _].
  - apply Hr.
Qed.
End Step.

(** The three loops run a step per index. *)
Lemma insert_loop_step t rid x xs w (Q : unit -> world -> Prop) :
  wp (add_entry t rid x) (fun _ w' => wp (insert_entries xs (schema_ info) t rid) Q w') w -> wp (insert_entries (x :: xs) (schema_ info) t rid) Q w.
Proof.
  unfold add_entry, wp, sbind. cbn [insert_entries]. unfold sbind. destruct (lift _ w) as [[k w1]|]; [|done].
  by destruct (on_bpm _ w1) as [[u w2]|].
Qed.

Lemma delete_loop_step t rid x xs w (Q : unit -> world -> Prop) :
  wp (drop_entry t rid x) (fun _ w' => wp (delete_entries xs (schema_ info) t rid) Q w') w -> wp (delete_entries (x :: xs) (schema_ info) t rid) Q w.
Proof.
  unfold drop_entry, wp, sbind. cbn [delete_entries]. unfold sbind. destruct (lift _ w) as [[k w1]|]; [|done].
  by destruct (on_bpm _ w1) as [[u w2]|].
Qed.

(** The entry of the old tuple gives way to that of the new one. *)
Definition swap_entry (new t : Tuple) (rid : RID) (x : IndexInfo I) : M world unit :=
  do! index_key := lift (Tuple_KeyFromTuple new (schema_ info) (key_schema_ x) (GetKeyAttrs (index_ x))) in
  do! _ := drop_entry t rid x in on_bpm (InsertEntry (index_ x) index_key rid).

Lemma update_loop_step new t rid x xs w (Q : unit -> world -> Prop) :
  wp (swap_entry new t rid x) (fun _ w' => wp (update_entries xs (schema_ info) new t rid) Q w') w ->
  wp (update_entries (x :: xs) (schema_ info) new t rid) Q w.
Proof.
  unfold swap_entry, drop_entry, wp, sbind. cbn [update_entries]. unfold sbind. destruct (lift _ w) as [[k w1]|]; [|done].
  destruct (lift _ w1) as [[k' w2]|]; [|done]. destruct (on_bpm _ w2) as [[u w3]|]; [|done]. by destruct (on_bpm _ w3) as [[u' w4]|].
Qed.

(** Whatever holds of the entries on one set of pages. *)
Lemma same_pages (A B : list holding) (x : I) (Y : gset Z) es es' : pages_apart F (A ++ (x, Y, es) :: B).*1.*2 -> pages_apart F (A ++ (x, Y, es') :: B).*1.*2.
Proof. by rewrite !fmap_app. Qed.

Lemma index_keeps : keeps_indexes c others info X frame ixp.*1 cap.
Proof using Hix TablePagesOk0.
  pose proof (ix_apart _ _ _ _ _ Hix) as Hpa. split.
  - apply frame_pages.
  - intros *. apply frame_perm.
  - intros txn hs w rs rs' Hno Hlen Hr. apply fmap_nil_inv in Hno. unfold index_frame in *. rewrite Hno in *.
    eapply rest_ok; [|exact Hr]. destruct Hr as [_ _ _ (_ & Hl & _) _ _]. lia.
  - intros txn h w rs r t Hr Hap Hfit Hrow Hwf Hcap.
    eapply wp_mono; [apply (wp_each c txn F (length rs <= cap)%nat (with_heap others info h) ixp rs (r :: rs)
      (fun xs : list (IndexInfo I) => insert_entries xs (schema_ info) t r.2) (add_entry t r.2)) with (B := ixp) (A := []); try done|].
    + intros i g p. by apply heaps_clear.
    + intros x xs w' Q. apply insert_loop_step.
    + intros e A B w' Hin Hpg Hcl Hr'. apply (add_step e Hin txn _ _ A B); try done; [intros es; by eapply same_pages|].
      eapply Nat.le_lt_trans; [apply content_size|done].
    + intros _ w' [Hr' Hb]. split; [|done]. eapply rest_ok; [|exact Hr']. simpl. lia.
  - intros txn h w A0 B0 r t Hr Hap Hnd Hfit Hrow. pose proof (ar_frame _ _ _ _ _ Hr) as (_ & Hl & _).
    eapply wp_mono; [apply (wp_each c txn F (length (A0 ++ r :: B0) <= cap)%nat (with_heap others info h) ixp (A0 ++ r :: B0) (A0 ++ B0)
      (fun xs : list (IndexInfo I) => delete_entries xs (schema_ info) t r.2) (drop_entry t r.2)) with (B := ixp) (A := []); try done|].
    + intros i g p. by apply heaps_clear.
    + intros x xs w' Q. apply delete_loop_step.
    + intros e A B w' Hin Hpg Hcl Hr'. rewrite <- (content_remove e.1 A0 r B0 Hnd).
      apply (drop_step e Hin txn _ _ A B); try done. intros es. by eapply same_pages.
    + intros _ w' [Hr' Hb]. eapply rest_ok; [|exact Hr']. rewrite length_app in *. simpl in Hl. lia.
  - intros txn h w A0 B0 r t row new Hr Hap Hnd Hwf Hfit Hrow Hfit' Hrow'. pose proof (ar_frame _ _ _ _ _ Hr) as (_ & Hl & _).
    rewrite length_app in Hl. simpl in Hl.
    eapply wp_mono; [apply (wp_each c txn F (length (A0 ++ r :: B0) <= cap)%nat (with_heap others info h) ixp (A0 ++ r :: B0) (A0 ++ (row, r.2) :: B0)
      (fun xs : list (IndexInfo I) => update_entries xs (schema_ info) new t r.2) (swap_entry new t r.2)) with (B := ixp) (A := []); try done|].
    + intros i g p. by apply heaps_clear.
    + intros x xs w' Q. apply update_loop_step.
    + intros e A B w' Hin Hpg Hcl Hr'. destruct (ix_keys _ _ _ _ _ Hix e row Hin Hfit') as (kt & Hkt & _). unfold swap_entry.
      eapply wp_lifted_key; [by eapply KeyFromTuple_row|]. apply wp_bind.
      eapply wp_mono; [apply (drop_step e Hin txn (length (A0 ++ r :: B0) <= cap)%nat (with_heap others info h) A B) with (r := r); [intros es; by eapply same_pages|exact Hcl|exact Hr'|done|done]|].
      rewrite (content_remove e.1 A0 r B0 Hnd), content_middle. intros _ w1 (Hr1 & Hb1).
      pose proof (add_step e Hin txn (length (A0 ++ r :: B0) <= cap)%nat (with_heap others info h) A B) as Hadd.
      specialize (Hadd ltac:(intros es; by eapply same_pages) Hcl (content e.1 (A0 ++ B0)) w1 new (row, r.2) Hr1 Hfit' Hrow' Hwf).
      unfold add_entry in Hadd. cbn [fst snd] in Hadd. rewrite (KeyFromTuple_row _ _ _ _ _ Hrow' Hkt) in Hadd.
      eapply wp_mono; [apply Hadd|].
      { eapply Nat.le_lt_trans; [apply content_size|]. rewrite length_app. lia. }
      intros _ w2 (Hr2 & Hb2). split; [done|]. intros n Hn. by apply Hb2, Hb1.
    + intros _ w' [Hr' Hb]. eapply rest_ok; [|exact Hr']. rewrite length_app. simpl. lia.
Qed.
End Keeps.
End Keeping.
