(* ===== verification/WriteRun.v ===== *)
(** Sequences of statements, plans that read and plans that delete or update what
    a scan of one table finds, run one after the other in one transaction. *)

From S2P Require Import Prelude Bytes Rid BufferPoolManager Value Types TypesCorrect ValueFactory Schema Expression TablePage TablePageCorrect TupleValues TupleCorrect.
From S2P Require Import Transaction TableHeap TableHeapCorrect TableScan LockManager RWLatch TransactionManager TransactionUndo RecordChange.
From S2P Require Import HashUtil Catalog Executor ReadExecutors JoinExecutors AggregationExecutor WriteExecutors ExecutionEngine.
From S2P Require Import QuerySemantics ScanCorrect JoinCorrect AggregationCorrect QueryCorrect WriteCorrect.

(** ** Definitions *)

Section Definitions.
Context `{Config} `{!HashOrder}.

(** The scan of a plan that changes the table, and what the rows it finds turn
    to. *)
Definition scan_of (info : TableInfo) (out : Schema Expression) (predicate : option Expression) : res SeqScanExecutor :=
  let! idxs := out_schema_idx out (Some info) in
  let! predicate := predicate_or_true predicate in
  Ok (MkSeqScan out predicate (Some info) idxs TableHeap_End TableHeap_End).

Definition write_of (info : TableInfo) (plan : PlanNode) : res (SeqScanExecutor * (list Value -> list Value -> res (option (list Value)))) :=
  match plan with
  | DeletePlanNode (SeqScanPlanNode out predicate _) _ =>
      let! e := scan_of info out predicate in Ok (e, fun _ _ => Ok None)
  | UpdatePlanNode (SeqScanPlanNode out predicate _) _ update_attrs =>
      let! e := scan_of info out predicate in Ok (e, updated_row (schema_ info) update_attrs)
  | _ => Err (Raised EX_NOT_IMPLEMENTED)
  end.

(** The rows of the table after it. *)
Definition denote_write (info : TableInfo) (plan : PlanNode) (rs : list (list Value * RID)) : res (list (list Value * RID)) :=
  let! ' (e0, next_row) := write_of info plan in change_rows e0 next_row rs.

(** The slots that change, and the write record of a tuple. *)
Definition write_changes (info : TableInfo) (plan : PlanNode) (ts : list Tuple) (rs : list (list Value * RID)) : list (Tuple * slot) :=
  match write_of info plan with Ok (e0, next_row) => changes (schema_ info) e0 next_row ts rs | Err _ => [] end.
Definition write_record (info : TableInfo) (plan : PlanNode) : Tuple -> TableWriteRecord :=
  match plan with DeletePlanNode _ _ => deletion info | _ => overwriting info end.

(** The plan changes the table [table_oid], whose metadata are [info]; an update
    reads the tuples of the scan by the table's schema. *)
Definition write_ok (info : TableInfo) (oid : Z) (plan : PlanNode) : Prop :=
  match plan with
  | DeletePlanNode (SeqScanPlanNode out _ scan_oid) table_oid => scan_oid = oid /\ table_oid = oid /\ good_schema out
  | UpdatePlanNode (SeqScanPlanNode out _ scan_oid) table_oid _ =>
      scan_oid = oid /\ table_oid = oid /\ good_schema out /\ out = schema_ info
  | _ => False
  end.

(** The transaction after it wrote these. *)
Definition wrote (records : list TableWriteRecord) (txn : Transaction) : Transaction :=
  Txn_set_writes (table_write_set_ txn ++ records) (index_write_set_ txn) txn.

(** A script: what each statement answers, and the rows of the table at the
    end; [db] has the other tables. *)
Definition with_table (db : database) (oid : Z) (info : TableInfo) (rs : list (list Value * RID)) : database :=
  fun o => if decide (o = oid) then Some (info, rs) else db o.

Fixpoint denote_script (db : database) (oid : Z) (info : TableInfo) (plans : list PlanNode) (rs : list (list Value * RID)) :
    res (list (list (list Value)) * list (list Value * RID)) :=
  match plans with
  | [] => Ok ([], rs)
  | plan :: plans =>
      if modifies plan then
        let! rs := denote_write info plan rs in
        let! ' (outs, rs) := denote_script db oid info plans rs in
        Ok ([] :: outs, rs)
      else
        let! rows := denote (with_table db oid info rs) plan in
        let! ' (outs, rs) := denote_script db oid info plans rs in
        Ok (rows.*1 :: outs, rs)
  end.

Definition statement_ok (info : TableInfo) (oid : Z) (plan : PlanNode) : Prop := if modifies plan then write_ok info oid plan else plan_ok plan.

(** The tuples hold the rows, under the schema of the plan. *)
Definition answers (plan : PlanNode) (tuples : list Tuple) (rows : list (list Value)) : Prop :=
  if modifies plan then tuples = [] /\ rows = [] else exists s, OutputSchema plan = Some s /\ Forall2 (row_of s) tuples rows.
End Definitions.

(** The statements one after the other, as a client calls the engine; [None] if
    one of them fails. *)
Fixpoint Execute_all `{Config} `{!HashOrder} {S P I : Type} `{!BufferPoolManager S P bytes} `{!Index S I}
    (fuel : nat) (plans : list PlanNode) (w : ExecutorContext S I) : res (option (list (list Tuple) * ExecutorContext S I)) :=
  match plans with
  | [] => Ok (Some ([], w))
  | plan :: plans =>
      let! r := Execute fuel plan w in
      match r with
      | (true, Some (tuples, w)) =>
          let! r := Execute_all fuel plans w in
          Ok (match r with Some (results, w) => Some (tuples :: results, w) | None => None end)
      | _ => Ok None
      end
  end.

(** ** One statement that writes *)

Section WriteRun.
Context `{Config} `{!HashOrder} {S P I : Type} `{!BufferPoolManager S P bytes} `{!BufferPoolSpec S P bytes} `{!Index S I}
  `{!TablePagesOk (good_data (S := S) (P := P)) (zero_data (S := S) (P := P))}.
Notation world := (ExecutorContext S I).

Lemma execute_from plan fuel (w : world) (Q : world -> Prop) :
  modifies plan = true ->
  wp (CreateExecutor fuel plan) (fun a w1 => wp (@Init _ _ _ (any_methods a) fuel (any_object a)) (fun e w2 =>
    wp (@Execute_loop _ _ _ (any_methods a) fuel fuel e no_row []) (fun _ w3 => Q w3) w2) w1) w ->
  exists w', Execute fuel plan w = Ok (true, Some ([], w')) /\ Q w'.
Proof.
  intros Hm (a & w1 & Hrun & Hw)%wp_run. apply wp_run in Hw as (e & w2 & Hrun2 & Hw). apply wp_run in Hw as (tuples & w3 & Hrun3 & HQ).
  exists w3. split; [|done]. unfold Execute. rewrite Hrun. cbn [rbind]. destruct a as [E m o]. cbn [any_methods any_object any_type] in *.
  by rewrite Hrun2; cbn [rbind]; rewrite Hrun3, Hm.
Qed.

Lemma log_all_wrote record found txn : log_all record found txn = wrote (record <$> found.*1) txn.
Proof.
  revert txn. induction found as [|p found IH]; intros txn.
  - unfold wrote. simpl. by rewrite app_nil_r, set_writes_same.
  - cbn [log_all foldl]. etransitivity; [apply IH|]. unfold wrote. destruct txn. cbn. by rewrite <- app_assoc.
Qed.

(** The table, its indexes [ixs], and the frame [Fr] that follows its rows. *)
Context (c : Catalog I) (others : TableInfo -> heap -> Prop) (info : TableInfo) (oid : Z)
  (X : gset Z) (Fr : list (list Value * RID) -> Frame S P) (ixs : list (IndexInfo I)) (cap : nat).
Notation rest txn F h := (at_rest c txn F (with_heap others info h)).
Hypothesis (Hget : GetTable oid c = Some info) (Hidx : GetTableIndexes (name_ info) c = Ok ixs)
  (Hkeep : keeps_indexes c others info X Fr ixs cap).

(** The rows a statement that writes finds are those of the table, as the code
    that keeps the indexes relies on. *)
Definition keyed_scan (plan : PlanNode) : Prop := forall e0 next_row, write_of info plan = Ok (e0, next_row) -> scans_rows info e0.

Lemma wp_create_scan txn F h out predicate e0 fuel w (Q : AnyExecutor S I -> world -> Prop) :
  rest txn F h w -> scan_of info out predicate = Ok e0 ->
  Q (make e0) w -> wp (CreateExecutor fuel (SeqScanPlanNode out predicate oid)) Q w.
Proof using Hget.
  intros Hr He HQ. apply rbind_ok in He as (idxs & Hi & He). apply rbind_ok in He as (p & Hp & [= <-]).
  cbn [CreateExecutor]. apply wp_bind. unfold SeqScan_new. apply wp_bind, wp_get_catalog.
  rewrite (ar_catalog _ _ _ _ _ Hr), Hget. eapply wp_bind, wp_lift; [exact Hi|]. eapply wp_bind, wp_lift; [exact Hp|]. by apply wp_ret, wp_ret.
Qed.

Lemma scan_of_static out predicate e0 : scan_of info out predicate = Ok e0 -> scan_static e0 info e0 /\ ss_output_ e0 = out.
Proof. intros (idxs & _ & (p & _ & [= <-])%rbind_ok)%rbind_ok. by split. Qed.

Lemma wp_table_and_indexes txn F h w (Q : TableInfo * list (IndexInfo I) -> world -> Prop) :
  rest txn F h w -> Q (info, ixs) w -> wp (table_and_indexes oid) Q w.
Proof using Hget Hidx.
  intros Hr HQ. unfold table_and_indexes. apply wp_bind, wp_get_catalog. rewrite (ar_catalog _ _ _ _ _ Hr), Hget.
  apply wp_bind, wp_ret. eapply wp_bind, wp_lift; [exact Hidx|]. by apply wp_ret.
Qed.

(** A change that is defined scans rows that are defined. *)
Lemma change_rows_scan e0 next_row rs rs' : change_rows e0 next_row rs = Ok rs' ->
  exists rows, scan_rows e0 rs = Ok rows /\ (length rows <= length rs)%nat.
Proof.
  revert rs'. induction rs as [|r rs IH]; intros rs' Hc; [by exists []|]. cbn [change_rows] in Hc.
  apply rbind_ok in Hc as (b & Hb & Hc). apply rbind_ok in Hc as (here & Hhere & Hc). apply rbind_ok in Hc as (rest & Hrest & _).
  destruct (IH rest Hrest) as (rows & Hrows & Hlen). unfold scan_rows, select in *. cbn [rfilter]. rewrite Hb. cbn [rbind].
  apply rbind_ok in Hrows as (kept & Hkept & Hrows). rewrite Hkept. cbn [rbind]. destruct b; [|exists rows; split; [done|simpl; lia]].
  apply rbind_ok in Hhere as (q & Hq & _). exists (q :: rows). cbn [rmap]. rewrite Hq, Hrows. split; [done|simpl; lia].
Qed.

Lemma stored_rows h rs : Forall2 (holds_row info) (heap_tuples h) rs -> Forall2 (stored info) (heap_tuples h) rs.
Proof. intros Hrows. eapply Forall2_impl; [exact Hrows|]. by intros t r []. Qed.

Section Statement.
Context (h : heap) (txn : Transaction) (rs : list (list Value * RID)).
Hypothesis (Hlive : state_ txn <> ABORTED) (Hap : apart others X h) (Hnd : NoDup h.*1) (Hrows : Forall2 (holds_row info) (heap_tuples h) rs).

Definition enough : nat := Datatypes.S (length h + length (heap_tuples h)).

(** What a statement that writes leaves. *)
Definition written plan rs' (w' : world) : Prop :=
  let found := write_changes info plan (heap_tuples h) rs in
  rest (wrote (write_record info plan <$> found.*1) txn) (Fr rs') (change_all found h) w'.

Lemma deleted_tuple t x new : holds_row info t x -> Ok None = Ok new ->
  Forall2 (holds_row info) (change_tuple (tuple_rid_ t) (new_slot (schema_ info) t new) t) (row_after x new).
Proof. intros _ [= <-]. cbn [new_slot]. rewrite change_tuple_self. constructor. Qed.

Lemma run_delete out predicate e0 rs' fuel w (plan := DeletePlanNode (SeqScanPlanNode out predicate oid) oid) :
  scan_of info out predicate = Ok e0 -> good_schema out -> ixs = [] \/ good_schema (schema_ info) /\ scans_rows info e0 ->
  change_rows e0 (fun _ _ => Ok None) rs = Ok rs' -> (enough <= fuel)%nat ->
  rest txn (Fr rs) h w -> exists w', Execute fuel plan w = Ok (true, Some ([], w')) /\ written plan rs' w'.
Proof using Hget Hidx Hkeep Hlive Hap Hrows TablePagesOk0.
  intros He Hout Hcase Hch Hf Hr. unfold enough in Hf. destruct (change_rows_scan _ _ _ _ Hch) as (rows & Hscan & Hlen).
  destruct (scan_of_static _ _ _ He) as [Hst Eo]. pose proof (Forall2_length _ _ _ Hrows) as Hl.
  apply execute_from; [done|]. unfold plan. cbn [CreateExecutor]. apply wp_bind, (wp_create_scan txn (Fr rs) h out predicate e0 fuel w); [done..|]. cbn [make].
  unfold Delete_new. apply wp_bind, wp_bind, (wp_table_and_indexes txn (Fr rs) h); [done..|]. apply wp_bind.
  eapply wp_mono; [apply (scan_init c txn (Fr rs) (with_heap others info h) e0 info h rs e0); try done; [by right|by apply stored_rows|lia]|].
  intros e w1 [Hr1 Hat]. apply wp_ret, wp_ret. cbn [make any_methods any_object any_type]. apply wp_ret.
  eapply wp_mono; [eapply (modify_loop c others info (fun e => MkDelete _ info ixs e)
    (delete_one info ixs) e0 (fun _ _ => Ok None) (holds_row info) (deletion info) X Fr)
    with (rows := rows) (dn := []) (pre := []) (rs' := rs'); try done; try lia; try by rewrite Eo|].
  - by intros t r [].
  - intros *. apply next_delete.
  - intros * Hr2 _ Hap2 Ht Hx Hnd2 Hq Hfinds [= <-]. cbn [new_slot row_after app].
    eapply (act_delete c others info X Fr ixs cap Hkeep); try done. destruct Hcase as [?|[Hgood Hs]]; [by left|right].
    destruct (scanned_row info e0 t x q Hgood Hs Hx Hfinds) as [E Hfit]. destruct Hs as [Es _]. split; [done|]. by rewrite <- E, <- Es.
  - intros t x q new. apply deleted_tuple.
  - intros tuples w' Hr'. unfold written, write_changes, plan. cbn [write_of]. rewrite He. cbn [rbind]. by rewrite <- log_all_wrote.
Qed.

Lemma run_update predicate attrs e0 rs' fuel w (plan := UpdatePlanNode (SeqScanPlanNode (schema_ info) predicate oid) oid attrs) :
  scan_of info (schema_ info) predicate = Ok e0 -> good_schema (schema_ info) -> ixs = [] \/ scans_rows info e0 ->
  change_rows e0 (updated_row (schema_ info) attrs) rs = Ok rs' -> (enough <= fuel)%nat ->
  rest txn (Fr rs) h w -> exists w', Execute fuel plan w = Ok (true, Some ([], w')) /\ written plan rs' w'.
Proof using Hget Hidx Hkeep Hlive Hap Hrows TablePagesOk0.
  intros He Hout Hcase Hch Hf Hr. unfold enough in Hf. destruct (change_rows_scan _ _ _ _ Hch) as (rows & Hscan & Hlen).
  destruct (scan_of_static _ _ _ He) as [Hst Eo]. pose proof (Forall2_length _ _ _ Hrows) as Hl.
  apply execute_from; [done|]. unfold plan. cbn [CreateExecutor].
  apply wp_bind, (wp_create_scan txn (Fr rs) h (schema_ info) predicate e0 fuel w); [done..|]. cbn [make].
  unfold Update_new. apply wp_bind, wp_bind, (wp_table_and_indexes txn (Fr rs) h); [done..|]. apply wp_ret, wp_ret.
  cbn [make any_methods any_object any_type Init Update_executor]. apply wp_bind.
  eapply wp_mono; [apply (scan_init c txn (Fr rs) (with_heap others info h) e0 info h rs e0); try done; [by right|by apply stored_rows|lia]|].
  intros e w1 [Hr1 Hat]. apply wp_ret.
  eapply wp_mono; [eapply (modify_loop c others info (fun e => MkUpdate _ attrs info ixs e)
    (update_one info ixs attrs) e0 (updated_row (schema_ info) attrs) (holds_row info) (overwriting info) X Fr)
    with (rows := rows) (dn := []) (pre := []) (rs' := rs'); try done; try lia; try by rewrite Eo|].
  - by intros t r [].
  - intros *. apply next_update.
  - intros * Hr2 Hst2 Hap2 Ht Hx Hnd2 Hq Hfinds Hnew. rewrite Eo in Hq. eapply (act_update c others info X Fr ixs cap); try done.
    destruct Hcase as [?|Hs]; [by left|right]. by apply (scanned_row info e0 t x q).
  - intros t x q new. by apply updated_tuple.
  - intros tuples w' Hr'. unfold written, write_changes, plan. cbn [write_of]. rewrite He. cbn [rbind]. by rewrite <- log_all_wrote.
Qed.

Lemma run_write plan rs' fuel w :
  write_ok info oid plan -> ixs = [] \/ good_schema (schema_ info) /\ keyed_scan plan ->
  denote_write info plan rs = Ok rs' -> (enough <= fuel)%nat -> rest txn (Fr rs) h w ->
  exists w', Execute fuel plan w = Ok (true, Some ([], w')) /\ written plan rs' w'.
Proof using Hget Hidx Hkeep Hlive Hap Hrows TablePagesOk0.
  intros Hok Hcase Hd. apply rbind_ok in Hd as ([e0 next_row] & Hw & Hd).
  assert (Hs : ixs = [] \/ good_schema (schema_ info) /\ scans_rows info e0).
  { destruct Hcase as [?|[? Hk]]; [by left|right]. split; [done|]. by eapply Hk. }
  destruct plan as [| | | |child ? attrs|child| | | | | | ]; try done; destruct child; try done; cbn [write_ok write_of] in Hok, Hw;
    apply rbind_ok in Hw as (e & He & [= -> <-]).
  - destruct Hok as (-> & -> & Hout & ->). apply run_update with (e0 := e0) (rs' := rs'); try done. tauto.
  - destruct Hok as (-> & -> & Hout). by apply run_delete with (e0 := e0) (rs' := rs').
Qed.

(** The rows of the table after it. *)
Lemma write_rows plan rs' :
  write_ok info oid plan -> denote_write info plan rs = Ok rs' ->
  Forall2 (holds_row info) (heap_tuples (change_all (write_changes info plan (heap_tuples h) rs) h)) rs'.
Proof using Hnd Hrows.
  intros Hok Hd. apply rbind_ok in Hd as ([e0 next_row] & Hw & Hd). unfold write_changes. rewrite Hw.
  destruct (changes_rows info e0 next_row (holds_row info)) with (rs := rs) (ts := heap_tuples h) (h := h) (pre := @nil Tuple) (rs' := rs')
    as (post & -> & Hpost); try done.
  intros t x q new Hx Hnew. destruct plan as [| | | |child ? attrs|child| | | | | | ]; try done; destruct child; try done;
    cbn [write_ok write_of] in Hok, Hw; apply rbind_ok in Hw as (e & He & [= -> <-]).
  - destruct Hok as (_ & _ & Hout & ->). by eapply updated_tuple.
  - injection Hnew as <-. cbn [new_slot]. rewrite change_tuple_self. constructor.
Qed.

(** Its write records undo it. *)
Lemma write_undo plan rs' t s :
  write_ok info oid plan -> denote_write info plan rs = Ok rs' -> heap_inv t s h ->
  let found := write_changes info plan (heap_tuples h) rs in
  undoable_all (visible (change_all found h)) (rev (write_record info plan <$> found.*1))
  /\ same_records (undo_all (visible (change_all found h)) (rev (write_record info plan <$> found.*1))) (visible h).
Proof using Hnd Hrows TablePagesOk0.
  intros Hok Hd Hi. apply rbind_ok in Hd as ([e0 next_row] & Hw & Hd). unfold write_changes. rewrite Hw. cbn zeta.
  destruct (changes_facts info e0 next_row _ _ _ Hrows Hd) as [Hall Hsub].
  apply change_all_undo; [done| | |].
  - intros x Hx. by eapply elem_of_sublist.
  - eapply sublist_NoDup; [by apply heap_ids_nodup|]. by apply fmap_sublist.
  - eapply Forall_impl; [exact Hall|]. intros [x y] (Hx & r & q & new & Hr & Hnew & ->). cbn [fst snd] in *.
    destruct (heap_tuple_record h x Hx) as (i & l & Hl & Hsl & Hpos).
    destruct (record_bytes _ _ h (tuple_rid_ x) (Live (tuple_data_ x)) Hi Hpos) as [Hb Hne].
    { rewrite (visible_slot _ _ _ _ _ _ Hi Hl). by rewrite Hsl. }
    destruct plan as [| | | |child ? attrs|child| | | | | | ]; try done; destruct child; try done; cbn [write_ok write_of] in Hok, Hw;
      apply rbind_ok in Hw as (e & He & [= -> <-]).
    + destruct Hok as (_ & _ & Hout & ->). destruct (updated_slot info attrs x r q new Hout Hr Hnew) as (vals & tn & -> & _ & _ & -> & _ & Hlen & _ & _ & _).
      split; [|done]. by apply reverts_update.
    + injection Hnew as <-. split; [|done]. by apply reverts_delete.
Qed.

Lemma write_marks plan rs' :
  write_ok info oid plan -> denote_write info plan rs = Ok rs' ->
  let found := write_changes info plan (heap_tuples h) rs in marks h (change_all found h) (write_record info plan <$> found.*1).
Proof using Hnd Hrows.
  intros Hok Hd. apply rbind_ok in Hd as ([e0 next_row] & Hw & Hd). unfold write_changes. rewrite Hw. cbn zeta.
  destruct (changes_facts info e0 next_row _ _ _ Hrows Hd) as [Hall Hsub]. apply change_all_marks; [done| | |].
  - intros x Hx. by eapply elem_of_sublist.
  - eapply sublist_NoDup; [by apply heap_ids_nodup|]. by apply fmap_sublist.
  - eapply Forall_impl; [exact Hall|]. intros [x y] (Hx & r & q & new & Hr & Hnew & ->). cbn [fst snd] in *.
    destruct plan as [| | | |child ? attrs|child| | | | | | ]; try done; destruct child; try done; cbn [write_ok write_of] in Hok, Hw;
      apply rbind_ok in Hw as (e & He & [= -> <-]).
    + destruct Hok as (_ & _ & Hout & ->). by destruct (updated_slot info attrs x r q new Hout Hr Hnew) as (vals & tn & -> & _ & _ & -> & _).
    + by injection Hnew as <-.
Qed.
End Statement.

(** ** Scripts *)

Lemma apart_change h found : apart others X h -> apart others X (change_all found h).
Proof. apply apart_same, change_all_pages. Qed.

(** The statements that keep the indexes right: all, if there are none. *)
Definition keeping (plan : PlanNode) : Prop := ixs = [] \/ good_schema (schema_ info) /\ (modifies plan = true -> keyed_scan plan).

Context (db : database).
Hypothesis Hdb : stores c others db.

Lemma stores_with h rs : Forall2 (holds_row info) (heap_tuples h) rs -> stores c (with_heap others info h) (with_table db oid info rs).
Proof using Hget Hdb.
  intros Hrows o i rs0. unfold with_table. case_decide as Ho.
  - subst o. intros [= <- <-]. split; [exact Hget|]. exists h. split; [by right|by apply stored_rows].
  - intros Hd. destruct (Hdb o i rs0 Hd) as (? & g & ? & ?). split; [done|]. exists g. split; [by left|done].
Qed.

Lemma wrote_app ws ws' txn : wrote ws' (wrote ws txn) = wrote (ws ++ ws') txn.
Proof. unfold wrote, Txn_set_writes. cbn. by rewrite app_assoc. Qed.

(** What a script leaves: the records [ws] it wrote undo what it did. *)
Definition undone_by (h h' : heap) (ws : list TableWriteRecord) : Prop :=
  undoable_all (visible h') (rev ws) /\ same_records (undo_all (visible h') (rev ws)) (visible h)
  /\ Forall (fun r => wr_table_ r = first_page_id_ (table_ info)) ws.

Lemma undone_app h1 h2 h3 ws ws' : undone_by h1 h2 ws -> undone_by h2 h3 ws' -> undone_by h1 h3 (ws ++ ws').
Proof.
  intros (Hu & Hs & Ht) (Hu' & Hs' & Ht'). destruct (undoable_all_same (visible h2) (undo_all (visible h3) (rev ws')) (rev ws)) as [Hu2 Hs2];
    [by symmetry|done|]. unfold undone_by. rewrite rev_app_distr, undo_all_app, undoable_all_app. split_and!; [done|done| |].
  - etransitivity; [symmetry; exact Hs2|exact Hs].
  - by apply Forall_app.
Qed.

Lemma write_tables plan found : Forall (fun r => wr_table_ r = first_page_id_ (table_ info)) (write_record info plan <$> found).
Proof. apply Forall_fmap, Forall_forall. intros t _. by destruct plan. Qed.

Lemma script_run plans : forall h txn rs outs rs',
  state_ txn <> ABORTED -> apart others X h -> NoDup h.*1 -> Forall2 (holds_row info) (heap_tuples h) rs ->
  Forall (statement_ok info oid) plans -> Forall keeping plans -> denote_script db oid info plans rs = Ok (outs, rs') ->
  exists h' ws n, h'.*1 = h.*1 /\ forall fuel w, (n <= fuel)%nat -> rest txn (Fr rs) h w ->
  exists results w', Execute_all fuel plans w = Ok (Some (results, w')) /\ rest (wrote ws txn) (Fr rs') h' w'
    /\ Forall3 answers plans results outs /\ Forall2 (holds_row info) (heap_tuples h') rs' /\ undone_by h h' ws /\ marks h h' ws.
Proof using Hget Hidx Hkeep Hdb TablePagesOk0.
  induction plans as [|plan plans IH]; intros h txn rs outs rs' Hlive Hap Hnd Hrows Hok Hks Hd.
  { injection Hd as <- <-. exists h, [], 0%nat. split; [done|]. intros fuel w _ Hr. exists [], w. split; [done|].
    assert (E : wrote [] txn = txn) by (unfold wrote; by rewrite app_nil_r, set_writes_same). rewrite E.
    split_and!; [done|constructor|done|split_and!; [done|done|constructor]|apply marks_none]. }
  apply Forall_cons in Hok as [Hplan Hok]. apply Forall_cons in Hks as [Hk Hks]. unfold statement_ok in Hplan. cbn [denote_script] in Hd. destruct (modifies plan) eqn:Hm.
  - apply rbind_ok in Hd as (rs1 & Hwr & Hd). apply rbind_ok in Hd as ([outs1 rs2] & Hd & [= <- <-]).
    set (found := write_changes info plan (heap_tuples h) rs). set (h1 := change_all found h).
    set (ws := write_record info plan <$> found.*1).
    assert (Hnd1 : NoDup h1.*1) by (unfold h1; by rewrite change_all_pages).
    pose proof (write_rows h rs Hnd Hrows plan rs1 Hplan Hwr) as Hrows1. fold found h1 in Hrows1.
    destruct (IH h1 (wrote ws txn) rs1 outs1 rs2) as (h2 & ws2 & n & Hpg & Hrun); [done|by apply apart_change|done..|].
    exists h2, (ws ++ ws2), (Nat.max n (enough h)). split; [rewrite Hpg; apply change_all_pages|]. intros fuel w Hf Hr.
    destruct (run_write h txn rs Hlive Hap Hrows plan rs1 fuel w) as (w1 & Hex & Hr1); [done| |done|lia|done|].
    { destruct Hk as [?|[? Hk]]; [by left|right]. split; [done|by apply Hk]. }
    destruct (Hrun fuel w1) as (results & w2 & Hex2 & Hr2 & Hans & Hrows2 & Hun & Hmk); [lia|exact Hr1|].
    exists ([] :: results), w2. cbn [Execute_all]. rewrite Hex. cbn [rbind]. rewrite Hex2. cbn [rbind]. rewrite <- wrote_app.
    split_and!; [done|done|constructor; [unfold answers; by rewrite Hm|done]|done| |by eapply marks_app; [apply (write_marks h rs Hnd Hrows plan rs1)|]].
    eapply undone_app; [|exact Hun].
    destruct (write_undo h rs Hnd Hrows plan rs1 (table_ info) (bpm_ w) Hplan Hwr) as [Hu Hs].
    { apply (ar_heaps _ _ _ _ _ Hr). by right. }
    split_and!; [exact Hu|exact Hs|apply write_tables].
  - apply rbind_ok in Hd as (rows & Hrd & Hd). apply rbind_ok in Hd as ([outs1 rs2] & Hd & [= <- <-]).
    destruct (execute_ok c txn (Fr rs) (with_heap others info h) (with_table db oid info rs) (stores_with h rs Hrows) plan rows Hplan Hrd)
      as (out & n1 & Hs & Hq).
    destruct (IH h txn rs outs1 rs2) as (h2 & ws2 & n & Hpg & Hrun); [done..|]. exists h2, ws2, (Nat.max n n1). split; [done|]. intros fuel w Hf Hr.
    destruct (Hq fuel w) as (tuples & w1 & Hex & Hr1 & Ht); [lia|done|].
    destruct (Hrun fuel w1) as (results & w2 & Hex2 & Hr2 & Hans & Hrows2 & Hun & Hmk); [lia|exact Hr1|].
    exists (tuples :: results), w2. cbn [Execute_all]. rewrite Hex. cbn [rbind]. rewrite Hex2. cbn [rbind].
    split_and!; [done|done|constructor; [unfold answers; rewrite Hm; by exists out|done]|done|exact Hun|exact Hmk].
Qed.
End WriteRun.

Lemma keeping_none `{Config} `{!HashOrder} {I} info plans : Forall (keeping info (@nil (IndexInfo I))) plans.
Proof. apply Forall_forall. intros plan _. by left. Qed.
