(* ===== verification/InsertCorrect.v ===== *)
(** Inserting rows of values into a table. *)

From S2P Require Import Prelude Bytes Rid BufferPoolManager Value Types TypesCorrect ValueFactory Schema Expression TablePage TablePageCorrect TupleValues TupleCorrect.
From S2P Require Import Transaction TableHeap TableHeapCorrect TableScan LockManager RWLatch TransactionManager TransactionUndo TransactionPrograms RecordChange.
From S2P Require Import HashUtil Catalog Executor ReadExecutors JoinExecutors AggregationExecutor WriteExecutors ExecutionEngine.
From S2P Require Import QuerySemantics ScanCorrect JoinCorrect AggregationCorrect QueryCorrect WriteCorrect WriteRun.

(** ** The tuples of a heap with one more *)

Section Tuples.
Context `{Config}.
Implicit Types (h : heap) (l : list slot).

Lemma page_tuples_app p k l1 l2 : page_tuples p k (l1 ++ l2) = page_tuples p k l1 ++ page_tuples p (k + length l1) l2.
Proof.
  revert k. induction l1 as [|s l1 IH]; intros k; cbn [app page_tuples length]; [by rewrite Nat.add_0_r|].
  rewrite IH, <- app_assoc. by rewrite Nat.add_succ_r.
Qed.

Lemma page_tuples_put p l d :
  page_tuples p 0 (put_slot (free_slot l) (Live d) l) ≡ₚ MkTuple (RID_Set p (Z.of_nat (free_slot l))) d :: page_tuples p 0 l.
Proof.
  unfold put_slot, free_slot. destruct (list_find _ l) as [[i x]|] eqn:E.
  - apply list_find_Some in E as (Hi & He & _). destruct x; [|done..]. pose proof (lookup_lt_Some _ _ _ Hi) as Hlt.
    rewrite decide_False by lia. rewrite (insert_take_drop l i (Live d) Hlt).
    rewrite <- (take_drop_middle l i Empty Hi) at 3. rewrite !page_tuples_app. cbn [page_tuples app].
    rewrite length_take_le by lia. cbn [Nat.add]. by rewrite Permutation_middle.
  - rewrite decide_True by done. rewrite page_tuples_app. cbn [page_tuples Nat.add]. rewrite app_nil_r. by rewrite Permutation_app_comm.
Qed.

Lemma heap_insert_tuples new t h :
  heap_tuples (heap_insert new t h).2 ≡ₚ MkTuple (heap_insert new t h).1 (tuple_data_ t) :: heap_tuples h.
Proof.
  induction h as [|[p l] h IH]; [done|]. destruct (has_room l (tuple_size_ t)) eqn:Hr.
  - cbn [heap_insert]. rewrite Hr. cbn [fst snd]. rewrite !heap_tuples_cons. by rewrite page_tuples_put.
  - rewrite (heap_insert_full _ _ _ _ _ Hr). cbn [fst snd]. rewrite !heap_tuples_cons, IH. by rewrite Permutation_middle.
Qed.
End Tuples.

(** ** Definitions *)

Section Definitions.
Context `{Config}.

(** A row that fits the schema, and one whose tuple fits a page. *)
Definition row_fits (s : Schema Expression) (row : list Value) : bool :=
  fits_row_b s row && forallb value_bytes row && (0 <? length_ s + var_size (columns_ s) row).
Definition page_fits (s : Schema Expression) (row : list Value) : bool := length_ s + var_size (columns_ s) row + 32 <=? PAGE_SIZE.

Definition insertion (info : TableInfo) (rid : RID) : TableWriteRecord :=
  MkTableWriteRecord rid WInsert Tuple_default (first_page_id_ (table_ info)).
End Definitions.

(** ** The loop *)

Section InsertCorrect.
Context `{Config} `{!HashOrder} {S P I : Type} `{!BufferPoolManager S P bytes} `{!BufferPoolSpec S P bytes} `{!Index S I}
  `{!TablePagesOk (good_data (S := S) (P := P)) (zero_data (S := S) (P := P))}.
Notation world := (ExecutorContext S I).
Context (c : Catalog I) (others : TableInfo -> heap -> Prop) (info : TableInfo)
  (X : gset Z) (Fr : list (list Value * RID) -> Frame S P) (ixs : list (IndexInfo I)) (cap : nat)
  (Hkeep : keeps_indexes c others info X Fr ixs cap).
Notation rest txn F h := (at_rest c txn F (with_heap others info h)).

(** The heap after the insertion of one tuple. *)
Lemma rest_inserted F txn txn' h h' w s' :
  rest txn F h w -> apart others (fr_pages F) h -> heap_inv (table_ info) s' h' -> pins (view s') = pins (view (bpm_ w)) ->
  evolves_in (list_to_set h'.*1) (view (bpm_ w)) (view s') ->
  (forall q, q ∈ h'.*1 -> q ∈ h.*1 \/ ~ live (view (bpm_ w)) q) ->
  rest txn' F h' (MkContext s' txn' (catalog_ w)) /\ apart others (fr_pages F) h'.
Proof.
  intros [Hc Ht Hp HF Hr Hh] Hap Hi Hpins Hev Hnew.
  assert (Hap' : apart others (fr_pages F) h').
  { split.
    - intros i g p Hg Hin Hpg. destruct (Hnew p Hin) as [Hold|Hnl]; [by apply (ap_heaps _ _ _ Hap i g p Hg Hold)|]. apply Hnl.
      apply (heap_ids _ _ _ _ (proj1 (Hh i g (or_introl Hg))) Hpg).
    - intros p Hin Hpf. destruct (Hnew p Hin) as [Hold|Hnl]; [by apply (ap_pages _ _ _ Hap p Hold)|]. apply Hnl. by eapply fr_live. }
  split; [|exact Hap']. split; simpl; try done; [congruence| |unfold room in *; rewrite Hpins; by rewrite (ei_frames _ _ _ Hev)|].
  { eapply fr_kept; [exact HF|apply Hi|exact Hev|done|]. intros q Hq Hin%elem_of_list_to_set. by apply (ap_pages _ _ _ Hap' q). }
  intros i g [Hg|[-> ->]]; [|done]. eapply heap_inv_evolves_in; [exact (Hh i g (or_introl Hg))|apply Hi|exact Hev|done|].
  intros q Hq Hin%elem_of_list_to_set. exact (ap_heaps _ _ _ Hap' i g q Hg Hin Hq).
Qed.

(** One call of [InsertTuple] with the tuple of a row. *)
Lemma insert_row F txn h row t w fuel (nb : nat) out :
  rest txn F h w -> apart others (fr_pages F) h -> good_schema (schema_ info) -> row_fits (schema_ info) row = true -> page_fits (schema_ info) row = true ->
  Tuple_of_values row (schema_ info) = Ok t -> budget (view (bpm_ w)) (1 + nb) -> (length h < fuel)%nat ->
  wp (insert_into_table fuel info (t, out)) (fun r w' => exists rid h' (m : nat), r = (true, (t, rid))
    /\ rest (wrote [insertion info rid] txn) F h' w' /\ apart others (fr_pages F) h' /\ (nb <= m)%nat /\ budget (view (bpm_ w')) m
    /\ (length h' <= Datatypes.S (length h))%nat /\ NoDup h'.*1 /\ undone_by info h h' [insertion info rid]
    /\ exists t', heap_tuples h' ≡ₚ t' :: heap_tuples h /\ holds_row info t' (row, rid)) w.
Proof.
  intros Hr Hap Hs [[Hfit Hb]%andb_true_iff Hpos%Z.ltb_lt]%andb_true_iff Hpage%Z.leb_le Ht Hbud Hf.
  destruct (build_row (schema_ info) row Hs (fits_row_b_sound _ _ Hfit)) as (t0 & Ht0 & _ & Hro & Hsz). assert (t0 = t) as -> by congruence.
  pose proof (fits_row_b_sound _ _ Hfit) as [_ H31].
  pose proof (ar_heaps _ _ _ _ _ Hr info h (or_intror (conj eq_refl eq_refl))) as Hinv.
  unfold insert_into_table. apply wp_bind, wp_on_table_write. cbn [fst snd].
  eapply wp_mono; [apply (wp_insert (table_ info) (bpm_ w) h t (transaction_ w) fuel nb); try done; try lia; [apply Hr|by eapply Tuple_of_values_bytes]|].
  intros r s' (new & rid & h' & Hins & -> & Hinv' & Hpins & Hev & Hnew & m & Hm & Hbm). cbn [fst snd]. apply wp_ret.
  exists rid, h', m. split; [done|].
  pose proof (heap_insert_slot new t h) as Hslot. pose proof (heap_insert_fresh new t h) as Hfresh.
  pose proof (heap_insert_length new t h) as Hlen. pose proof (heap_insert_tuples new t h) as Htup. rewrite Hins in Hslot, Hfresh, Hlen, Htup.
  cbn [fst snd] in *. pose proof (hr_nodup _ _ _ (proj1 Hinv')) as Hnd. destruct (Hslot Hnd) as (Hs1 & Hs0 & _ & Hs2). specialize (Hfresh Hnd).
  rewrite (ar_txn _ _ _ _ _ Hr).
  assert (Etxn : Txn_AppendTableWriteRecord (MkTableWriteRecord rid WInsert Tuple_default (first_page_id_ (table_ info))) txn = wrote [insertion info rid] txn)
    by (by destruct txn).
  rewrite Etxn. destruct (rest_inserted F txn (wrote [insertion info rid] txn) h h' w s') as [Hr' Hap']; [done..|].
  split_and!; try done.
  - split; [|split; [|by repeat constructor]]; cbn [rev app undoable_all undo_all].
    + split; [|done]. split; [done|]. cbn [insertion wr_wtype_ wr_rid_]. unfold visible. rewrite Hs1. by eexists.
    + intros r Hr0. unfold undo, vset. cbn [insertion wr_wtype_ wr_rid_]. case_decide as Hd; [by subst|].
      unfold visible. by rewrite Hs2.
  - exists (MkTuple rid (tuple_data_ t)). split; [done|]. split; [split; [exact Hro|done]|exact Hsz].
Qed.

(** The rows that are left to insert. *)
Notation ins_exec k raw := (MkInsert IndexScanExecutor raw info ixs None k).

Lemma next_insert_row txn h rs raw (k : nat) row t w fuel (nb : nat) out :
  Z.of_nat (length raw) < 2 ^ 64 -> raw !! k = Some row -> (length rs < cap)%nat ->
  rest txn (Fr rs) h w -> apart others X h -> good_schema (schema_ info) -> row_fits (schema_ info) row = true -> page_fits (schema_ info) row = true ->
  Tuple_of_values row (schema_ info) = Ok t -> budget (view (bpm_ w)) (1 + nb) -> (length h < fuel)%nat ->
  wp (Insert_Next fuel (ins_exec (Z.of_nat k) raw) out) (fun r w' => exists rid h' (m : nat), r = (true, (t, rid), ins_exec (Z.of_nat (Datatypes.S k)) raw)
    /\ rest (wrote [insertion info rid] txn) (Fr ((row, rid) :: rs)) h' w' /\ apart others X h' /\ (nb <= m)%nat /\ budget (view (bpm_ w')) m
    /\ (length h' <= Datatypes.S (length h))%nat /\ NoDup h'.*1 /\ undone_by info h h' [insertion info rid]
    /\ exists t', heap_tuples h' ≡ₚ t' :: heap_tuples h /\ holds_row info t' (row, rid)) w.
Proof using Hkeep TablePagesOk0.
  intros H64 Hk Hcap Hr Hap Hs Hfit Hpage Ht Hbud Hf. pose proof (lookup_lt_Some _ _ _ Hk) as Hlt.
  pose proof Hfit as [[Hfits%fits_row_b_sound _]%andb_true_iff _]%andb_true_iff.
  destruct (build_row (schema_ info) row Hs Hfits) as (t0 & Ht0 & _ & Hro & _). assert (t0 = t) as -> by congruence.
  unfold Insert_Next. cbn [in_child_ in_raw_values_ in_table_info_ in_index_info_array_ next_insert_pos_].
  rewrite (unsigned_id 64 (Z.of_nat (length raw))) by (unfold is_unsigned; lia). rewrite (proj2 (Z.eqb_neq _ _)) by lia.
  apply wp_bind. eapply wp_bind, wp_lift; [by apply zlookup_nat|]. eapply wp_bind, wp_lift; [exact Ht|]. apply wp_bind.
  eapply wp_mono; [apply (insert_row (Fr rs) txn h row t w fuel nb out.2); try done; by rewrite (kx_pages _ _ _ _ _ _ _ Hkeep)|].
  intros r w' (rid & h' & m & -> & Hr' & Hap' & Hm & Hbm & Hlen & Hnd & Hun & t' & Htup & Hrow).
  rewrite (kx_pages _ _ _ _ _ _ _ Hkeep) in Hap'.
  assert (Hwf : RID_wf rid).
  { destruct (proj1 Hrow) as [_ Eid]. cbn [snd] in Eid. rewrite <- Eid. apply (tuple_rid_wf c others info _ _ _ _ _ Hr'). rewrite Htup. by left. }
  apply wp_ret, wp_bind. cbn [in_index_info_array_ fst snd].
  eapply wp_mono; [by apply (kx_insert _ _ _ _ _ _ _ Hkeep _ _ _ rs (row, rid) t Hr')|]. intros u w2 (Hr2 & Hb2). apply wp_ret.
  exists rid, h', m. split; [|split_and!; try done; [by apply Hb2|by exists t']].
  rewrite unsigned_id by (unfold is_unsigned; lia). do 3 f_equal. lia.
Qed.

(** A row whose tuple is too large for a page aborts the transaction and ends the
    statement. *)
Lemma next_insert_large F txn h raw (k : nat) row t w fuel out :
  Z.of_nat (length raw) < 2 ^ 64 -> raw !! k = Some row ->
  rest txn F h w -> good_schema (schema_ info) -> row_fits (schema_ info) row = true -> page_fits (schema_ info) row = false ->
  Tuple_of_values row (schema_ info) = Ok t ->
  wp (Insert_Next fuel (ins_exec (Z.of_nat k) raw) out) (fun r w' => r.1.1 = false /\ rest (Txn_SetState ABORTED txn) F h w') w.
Proof.
  intros H64 Hk Hr Hs [[Hfit Hb]%andb_true_iff Hpos%Z.ltb_lt]%andb_true_iff Hpage%Z.leb_gt Ht. pose proof (lookup_lt_Some _ _ _ Hk) as Hlt.
  destruct (build_row (schema_ info) row Hs (fits_row_b_sound _ _ Hfit)) as (t0 & Ht0 & _ & _ & Hsz). assert (t0 = t) as -> by congruence.
  pose proof (fits_row_b_sound _ _ Hfit) as [_ H31].
  unfold Insert_Next. cbn [in_child_ in_raw_values_ in_table_info_ in_index_info_array_ next_insert_pos_].
  rewrite (unsigned_id 64 (Z.of_nat (length raw))) by (unfold is_unsigned; lia). rewrite (proj2 (Z.eqb_neq _ _)) by lia.
  apply wp_bind. eapply wp_bind, wp_lift; [by apply zlookup_nat|]. eapply wp_bind, wp_lift; [exact Ht|]. apply wp_bind.
  unfold insert_into_table. apply wp_bind, wp_on_table_write. cbn [fst snd]. unfold TableHeap_InsertTuple.
  rewrite (unsigned_id 32) by (unfold is_unsigned; lia). rewrite (proj2 (Z.ltb_lt _ _)) by lia. apply wp_ret. cbn [fst snd].
  apply wp_ret, wp_ret, wp_bind, wp_ret, wp_ret. split; [done|]. destruct Hr as [Hc Htx Hp HF Hroom Hh]. split; simpl; try done. by rewrite Htx.
Qed.

Lemma next_insert_end F txn h raw w fuel out : Z.of_nat (length raw) < 2 ^ 64 -> rest txn F h w ->
  wp (Insert_Next fuel (ins_exec (Z.of_nat (length raw)) raw) out) (fun r w' => r.1.1 = false /\ rest txn F h w') w.
Proof.
  intros H64 Hr. unfold Insert_Next. cbn [in_child_ in_raw_values_ in_table_info_ in_index_info_array_ next_insert_pos_].
  rewrite unsigned_id by (unfold is_unsigned; lia). rewrite Z.eqb_refl. apply wp_bind, wp_ret, wp_bind, wp_ret, wp_ret. by split.
Qed.

(** The transaction after the rows, when [large] are the rows behind them. *)
Definition insert_end (large : list (list Value)) (txn : Transaction) : Transaction :=
  match large with [] => txn | _ => Txn_SetState ABORTED txn end.

(** What the statement leaves. *)
Definition rows_inserted (txn : Transaction) (h : heap) (rs : list (list Value * RID)) (good large : list (list Value)) (w' : world) : Prop :=
  exists h' rids rs', rest (insert_end large (wrote (insertion info <$> rids) txn)) (Fr rs') h' w' /\ length rids = length good
    /\ Forall2 (holds_row info) (heap_tuples h') rs' /\ rs' ≡ₚ rs ++ zip good rids
    /\ apart others X h' /\ NoDup h'.*1 /\ undone_by info h h' (insertion info <$> rids).

Lemma row_tuple row : good_schema (schema_ info) -> row_fits (schema_ info) row = true -> exists t, Tuple_of_values row (schema_ info) = Ok t.
Proof.
  intros Hs [[Hfit _]%andb_true_iff _]%andb_true_iff. destruct (build_row (schema_ info) row Hs (fits_row_b_sound _ _ Hfit)) as (t & Ht & _). by exists t.
Qed.

Lemma insert_loop raw large : Z.of_nat (length raw) < 2 ^ 64 -> good_schema (schema_ info) ->
  match large with [] => True | row :: _ => row_fits (schema_ info) row = true /\ page_fits (schema_ info) row = false end ->
  forall good done_rows h txn w fuel exec_fuel acc row rs (nb : nat),
  raw = done_rows ++ good ++ large -> Forall (fun row => row_fits (schema_ info) row = true /\ page_fits (schema_ info) row = true) good ->
  rest txn (Fr rs) h w -> apart others X h -> NoDup h.*1 -> Forall2 (holds_row info) (heap_tuples h) rs ->
  (length rs + length good <= cap)%nat -> budget (view (bpm_ w)) (length good + nb) ->
  (length good < fuel)%nat -> (length h + length good < exec_fuel)%nat ->
  wp (Execute_loop fuel exec_fuel (ins_exec (Z.of_nat (length done_rows)) raw) row acc) (fun _ w' => rows_inserted txn h rs good large w') w.
Proof using Hkeep TablePagesOk0.
  intros H64 Hs Hlarge. induction good as [|g good IH]; intros * Hraw Hgood Hr Hap Hnd Hrows Hcap Hbud Hf Hef; (destruct fuel as [|fuel]; [simpl in Hf; lia|]);
    cbn [Execute_loop]; apply wp_bind.
  - assert (Hstop : wp (Insert_Next exec_fuel (ins_exec (Z.of_nat (length done_rows)) raw) row)
      (fun r w' => r.1.1 = false /\ rest (insert_end large txn) (Fr rs) h w') w).
    { destruct large as [|b large].
      - rewrite Hraw, app_nil_r. rewrite Hraw, app_nil_r in H64. by apply next_insert_end.
      - destruct Hlarge as [Hb1 Hb2]. destruct (row_tuple b Hs Hb1) as [t Ht].
        apply (next_insert_large (Fr rs) txn h raw (length done_rows) b t); try done. rewrite Hraw. by rewrite lookup_app_r, Nat.sub_diag. }
    eapply wp_mono; [exact Hstop|]. intros [[b row'] e'] w' [Hb Hr']. cbn [fst] in Hb. subst b. apply wp_ret.
    assert (E : wrote [] txn = txn) by (unfold wrote; by rewrite app_nil_r, set_writes_same).
    exists h, [], rs. cbn [fmap list_fmap zip zip_with]. rewrite E, app_nil_r. split_and!; done.
  - apply Forall_cons in Hgood as [[Hg1 Hg2] Hgood]. destruct (row_tuple g Hs Hg1) as [t Ht].
    eapply wp_mono; [apply (next_insert_row txn h rs raw (length done_rows) g t w exec_fuel (length good + nb) row); try done|].
    { rewrite Hraw. by rewrite lookup_app_r, Nat.sub_diag. } { simpl in Hcap. lia. } { simpl in Hef. lia. }
    intros r w' (rid & h' & m & -> & Hr' & Hap' & Hm & Hbm & Hlen & Hnd' & Hun & t' & Htup & Hrow). cbv beta iota.
    destruct (Permutation_Forall2 (Permutation_sym Htup) (proj2 (Forall2_cons (holds_row info) t' _ (g, rid) rs) (conj Hrow Hrows)))
      as (rs' & Hperm & Hrows'). apply (kx_perm _ _ _ _ _ _ _ Hkeep _ _ _ _ _ Hperm) in Hr'.
    pose proof (Permutation_length Hperm) as Hlrs. simpl in Hlrs, Hcap.
    replace (Z.of_nat (Datatypes.S (length done_rows))) with (Z.of_nat (length (done_rows ++ [g]))) by (rewrite length_app; simpl; lia).
    simpl in Hf, Hef.
    eapply wp_mono; [apply (IH (done_rows ++ [g]) h' (wrote [insertion info rid] txn) w' fuel exec_fuel _ (t, rid) rs' (m - length good)%nat); try done; try lia|].
    + by rewrite <- app_assoc.
    + by replace (length good + (m - length good))%nat with m by lia.
    + intros tuples w2 (h2 & rids & rs2 & Hr2 & Hl2 & Hrows2 & Hp2 & Hap2 & Hnd2 & Hun2). exists h2, (rid :: rids), rs2.
      rewrite wrote_app in Hr2. split_and!; try done.
      * by simpl; rewrite Hl2.
      * rewrite Hp2, <- Hperm. cbn [zip zip_with]. by rewrite <- Permutation_middle.
      * exact (undone_app info _ _ _ _ _ Hun Hun2).
Qed.

(** The statement. *)
Lemma run_insert oid good large h txn fuel w rs k :
  GetTable oid c = Some info -> GetTableIndexes (name_ info) c = Ok ixs -> good_schema (schema_ info) ->
  Z.of_nat (length (good ++ large)) < 2 ^ 64 ->
  match large with [] => True | row :: _ => row_fits (schema_ info) row = true /\ page_fits (schema_ info) row = false end ->
  Forall (fun row => row_fits (schema_ info) row = true /\ page_fits (schema_ info) row = true) good ->
  rest txn (Fr rs) h w -> apart others X h -> NoDup h.*1 -> Forall2 (holds_row info) (heap_tuples h) rs ->
  (length rs + length good <= cap)%nat -> (length good <= k)%nat -> budget (view (bpm_ w)) k -> (length h + length good < fuel)%nat ->
  exists w', Execute fuel (RawInsertPlanNode (good ++ large) oid) w = Ok (true, Some ([], w')) /\ rows_inserted txn h rs good large w'.
Proof using Hkeep TablePagesOk0.
  intros Hget Hidx Hs H64 Hlarge Hgood Hr Hap Hnd Hrows Hcap Hk Hb Hf. apply execute_from; [done|]. cbn [CreateExecutor]. apply wp_bind.
  unfold Insert_new. apply wp_bind, (wp_table_and_indexes c others info oid ixs Hget Hidx txn (Fr rs) h); [done|].
  apply wp_ret, wp_ret. cbn [make any_methods any_object any_type]. apply wp_ret.
  replace k with (length good + (k - length good))%nat in Hb by lia.
  by eapply (insert_loop (good ++ large) large H64 Hs Hlarge good [] h txn w fuel fuel [] no_row rs); [..|lia|lia].
Qed.
End InsertCorrect.
