(* ===== verification/WriteProperties.v ===== *)
(** The properties of scripts: what their statements answer and leave in the
    table and in its indexes, and what is left when the transaction is committed
    or aborted. *)

From S2P Require Import Prelude Bytes CString Rid Replacer LRUReplacer DiskManager BufferPoolManager BufferPool BufferPoolCorrect Value Types TypesCorrect ValueFactory.
From S2P Require Import Schema Expression TablePage TablePageCorrect TupleValues TupleCorrect Transaction TableHeap TableHeapCorrect TableScan TableHeapProperties.
From S2P Require Import LockManager RWLatch TransactionManager TransactionUndo TransactionProperties RecordChange.
From S2P Require Import ExtendibleHashTable HashUtil Catalog IndexContract HashIndex Executor ReadExecutors JoinExecutors AggregationExecutor WriteExecutors ExecutionEngine.
From S2P Require Import QuerySemantics ScanCorrect JoinCorrect AggregationCorrect QueryCorrect WriteCorrect QueryProperties IndexKeeping WriteRun InsertCorrect.
From S2P Require Import HashIndexCorrect.

(** ** The properties *)

Section Properties.
Context `{Config} `{!HashOrder} {S P I : Type} `{!BufferPoolManager S P bytes} `{!BufferPoolSpec S P bytes} `{!Index S I} `{!IndexSpec S P I}
  `{!TablePagesOk (good_data (S := S) (P := P)) (zero_data (S := S) (P := P))} `{!TransactionIndexes S}.
Notation world := (ExecutorContext S I).
Notation rest_pages F ixp := (⋃ ixp.*2 ∪ fr_pages F).

(** The table [oid] of the catalog with the indexes [ixs]: its heap [h] holds the
    rows [rs]; the other tables and the pages [X] of the rest of the pool are
    apart from it. *)
Record table_at (c : Catalog I) (X : gset Z) (ixs : list (IndexInfo I)) (others : TableInfo -> heap -> Prop) (db : database)
    (info : TableInfo) (oid : Z) (h : heap) (rs : list (list Value * RID)) : Prop := {
  ta_table : GetTable oid c = Some info;
  ta_indexes : GetTableIndexes (name_ info) c = Ok ixs;
  ta_others : stores c others db;
  ta_apart : apart others X h;
  ta_pages : NoDup h.*1;
  ta_rows : Forall2 (holds_row info) (heap_tuples h) rs
}.

(** The indexes hold an entry per row, and no other. *)
Definition indexes_hold (ixp : list (IndexInfo I * gset Z)) (s : S) (rs : list (list Value * RID)) : Prop :=
  Forall (fun e => index_at (index_ e.1) s e.2 (content e.1 rs)) ixp.

Lemma filled_hold ixp s (rs : list (list Value * RID)) : Forall (fun e => index_at e.1.1 s e.1.2 e.2) (filled ixp rs) -> indexes_hold ixp s rs.
Proof. unfold filled. by rewrite Forall_fmap. Qed.

(** What the end of the transaction leaves of the indexes: changes of the heap's
    pages do not reach them. *)
Lemma frame_calm c txn F others info ixp cap (h : heap) rs (w : world) s' :
  at_rest c txn (index_frame F ixp cap rs) (with_heap others info h) w -> apart others (rest_pages F ixp) h ->
  calm h (bpm_ w) s' -> pool_ok s' -> indexes_hold ixp s' rs.
Proof.
  intros Hr Hap Hc Hs. apply filled_hold.
  assert (Hf : fr_inv (index_frame F ixp cap rs) s').
  { eapply fr_kept; [exact (ar_frame _ _ _ _ _ Hr)|done|exact (cm_evolves _ _ _ Hc)|exact (cm_pins _ _ _ Hc)|]. rewrite frame_pages.
    intros p HpX Hph%elem_of_list_to_set. by apply (ap_pages _ _ _ Hap p). }
  apply Hf.
Qed.

(** C3: A script, a sequence of statements that read any tables and delete or
    update rows of one table, runs to its end when its loops may take enough
    rounds.  Every statement answers what the reference evaluator says for the
    rows that the statements before it leave; at the end the table holds the rows
    the reference says, under the ids they had, every index of the table holds
    the entries of these rows, and the transaction has written the records [ws];
    the other tables, the pins, the catalog and whatever else is in the pool are
    as before.  If the table has indexes, the statements that write read its
    columns in their order; the keys fit the indexes, whose pages are unpinned,
    and the rows are at most as many as every index has room for (for the hash
    table, the slots of one bucket). *)
Theorem Execute_script c (txn : Transaction) F others db info ixp cap oid h rs plans outs rs' :
  table_at c (rest_pages F ixp) ixp.*1 others db info oid h rs -> indexed others info F ixp cap -> state_ txn <> ABORTED ->
  Forall (statement_ok info oid) plans -> Forall (keeping info ixp.*1) plans -> denote_script db oid info plans rs = Ok (outs, rs') ->
  exists h' ws n, forall fuel (w : world), (n <= fuel)%nat -> at_rest c txn (index_frame F ixp cap rs) (with_heap others info h) w ->
  exists results w', Execute_all fuel plans w = Ok (Some (results, w')) /\ Forall3 answers plans results outs
    /\ at_rest c (wrote ws txn) (index_frame F ixp cap rs') (with_heap others info h') w' /\ indexes_hold ixp (bpm_ w') rs'
    /\ Forall2 (holds_row info) (heap_tuples h') rs'.
Proof.
  intros [Hget Hidx Hdb Hap Hnd Hrows] Hix Hlive Hok Hks Hd.
  destruct (script_run c others info oid (rest_pages F ixp) (index_frame F ixp cap) ixp.*1 cap Hget Hidx (index_keeps _ _ _ _ _ _ Hix) db Hdb
    plans h txn rs outs rs' Hlive Hap Hnd Hrows Hok Hks Hd) as (h' & ws & n & _ & Hrun).
  exists h', ws, n. intros fuel w Hf Hr. destruct (Hrun fuel w Hf Hr) as (results & w' & ? & Hr' & ? & ? & _). exists results, w'.
  split_and!; [done|done|done| |done]. apply filled_hold, (ar_frame _ _ _ _ _ Hr').
Qed.

(** A transaction that begins, in the manager's world [w0]: it has written
    nothing, and holds the locks it has. *)
Record fresh_txn (id : Z) (txn : Transaction) (w0 : TransactionManager S) : Prop := {
  ft_at : txn_at w0 id txn;
  ft_live : state_ txn <> ABORTED;
  ft_table : table_write_set_ txn = [];
  ft_index : index_write_set_ txn = [];
  ft_locks : holds id (tm_locks_ w0) (exclusive_lock_set_ txn ∪ shared_lock_set_ txn)
}.

(** C4: Aborting a script undoes it in the table and not in the indexes: after
    the statements of a script ran in a transaction that had written nothing,
    [Abort] ends, the transaction is [ABORTED], its locks are given back, all pins
    are as before, and the table holds the rows it had: what was deleted is back,
    what was updated has its old bytes.  But every index still holds the entries
    of the rows the script left, because no executor notes its writes to the
    indexes in the transaction.  The conditions on the indexes are those of the
    script. *)
Theorem Execute_script_abort id c (txn : Transaction) F (w0 : TransactionManager S) others db info ixp cap oid h rs plans outs rs' :
  table_at c (rest_pages F ixp) ixp.*1 others db info oid h rs -> indexed others info F ixp cap -> fresh_txn id txn w0 ->
  at_rest c txn (index_frame F ixp cap rs) (with_heap others info h) (MkContext (tm_pool_ w0) txn c) ->
  Forall (statement_ok info oid) plans -> Forall (keeping info ixp.*1) plans -> denote_script db oid info plans rs = Ok (outs, rs') ->
  exists n, forall fuel, (n <= fuel)%nat ->
  exists results w', Execute_all fuel plans (MkContext (tm_pool_ w0) txn c) = Ok (Some (results, w'))
    /\ exists m, forall fuel', (m < fuel')%nat ->
    exists w2 h2, TM_Abort fuel' id (put_pool (bpm_ w') (put_txn id (transaction_ w') w0)) = Ok (tt, w2) /\ ended id ABORTED txn w0 w2
      /\ heap_inv (table_ info) (tm_pool_ w2) h2 /\ pins (view (tm_pool_ w2)) = pins (view (tm_pool_ w0))
      /\ same_records (visible h2) (visible h) /\ Forall2 (holds_row info) (heap_tuples h2) rs /\ indexes_hold ixp (tm_pool_ w2) rs'.
Proof.
  intros [Hget Hidx Hdb Hap Hnd Hrows] Hix [Ht Hlive Hws Hiws Hlocks] Hr Hok Hks Hd.
  destruct (script_run c others info oid (rest_pages F ixp) (index_frame F ixp cap) ixp.*1 cap Hget Hidx (index_keeps _ _ _ _ _ _ Hix) db Hdb
    plans h txn rs outs rs' Hlive Hap Hnd Hrows Hok Hks Hd) as (h' & ws & n & Hpg & Hrun).
  exists n. intros fuel Hf. destruct (Hrun fuel _ Hf Hr) as (results & w' & Hex & Hr' & _ & _ & (Hu & Hs & Htab) & _).
  pose proof Hr' as [Hc Htx Hp _ Hroom Hh]. pose proof (ar_pins _ _ _ _ _ Hr) as Hp0. simpl in Hp, Hp0.
  exists results, w'. split; [done|]. exists (length ws). intros fuel' Hf'. rewrite Htx. unfold wrote. rewrite Hws. cbn [app].
  pose proof (wp_abort_writes fuel' id (table_ info) txn w0 (visible h) (visible h') (bpm_ w') h' ws) as Hw.
  assert (Hinv : heap_inv (table_ info) (bpm_ w') h') by (apply Hh; by right).
  apply wp_run in Hw as ([] & w2 & Hab & He & h2 & Hi & Hpins & Hsame & Hcalm & Hpg2); try done.
  - exists w2, h2. split_and!; try done.
    + rewrite (same_tuples h h2); [done|congruence|done|]. intros rid d Hrid. by rewrite (Hsame rid Hrid).
    + eapply frame_calm; [exact Hr'|by eapply apart_same|exact Hcalm|apply Hi].
  - unfold room in *. lia.
  - congruence.
Qed.

(** C6: Committing a script makes it final: [Commit] ends, the transaction is
    [COMMITTED], its locks are given back, all pins are as before, the table holds
    the rows the reference says and every index holds their entries; a slot that
    is still marked was so before the script.  The conditions on the indexes are
    those of the script. *)
Theorem Execute_script_commit id c (txn : Transaction) F (w0 : TransactionManager S) others db info ixp cap oid h rs plans outs rs' :
  table_at c (rest_pages F ixp) ixp.*1 others db info oid h rs -> indexed others info F ixp cap -> fresh_txn id txn w0 ->
  at_rest c txn (index_frame F ixp cap rs) (with_heap others info h) (MkContext (tm_pool_ w0) txn c) ->
  Forall (statement_ok info oid) plans -> Forall (keeping info ixp.*1) plans -> denote_script db oid info plans rs = Ok (outs, rs') ->
  exists n, forall fuel, (n <= fuel)%nat ->
  exists results w', Execute_all fuel plans (MkContext (tm_pool_ w0) txn c) = Ok (Some (results, w'))
    /\ exists m, forall fuel', (m < fuel')%nat ->
    exists w2 h2, TM_Commit fuel' id (put_pool (bpm_ w') (put_txn id (transaction_ w') w0)) = Ok (tt, w2) /\ ended id COMMITTED txn w0 w2
      /\ heap_inv (table_ info) (tm_pool_ w2) h2 /\ pins (view (tm_pool_ w2)) = pins (view (tm_pool_ w0))
      /\ Forall2 (holds_row info) (heap_tuples h2) rs' /\ indexes_hold ixp (tm_pool_ w2) rs'
      /\ forall rid d, 0 <= slot_num_ rid -> visible h2 rid = Some (Marked d) -> visible h rid = Some (Marked d).
Proof.
  intros [Hget Hidx Hdb Hap Hnd Hrows] Hix [Ht Hlive Hws Hiws Hlocks] Hr Hok Hks Hd.
  destruct (script_run c others info oid (rest_pages F ixp) (index_frame F ixp cap) ixp.*1 cap Hget Hidx (index_keeps _ _ _ _ _ _ Hix) db Hdb
    plans h txn rs outs rs' Hlive Hap Hnd Hrows Hok Hks Hd) as (h' & ws & n & Hpg & Hrun).
  exists n. intros fuel Hf. destruct (Hrun fuel _ Hf Hr) as (results & w' & Hex & Hr' & _ & Hrows' & _ & Hmk).
  pose proof Hr' as [Hc Htx Hp _ Hroom Hh]. pose proof (ar_pins _ _ _ _ _ Hr) as Hp0. simpl in Hp, Hp0.
  exists results, w'. split; [done|]. exists (length ws). intros fuel' Hf'. rewrite Htx. unfold wrote. rewrite Hws. cbn [app].
  pose proof (wp_commit_writes fuel' id (table_ info) txn w0 (visible h') (bpm_ w') h' ws) as Hw.
  assert (Hinv : heap_inv (table_ info) (bpm_ w') h') by (apply Hh; by right).
  apply wp_run in Hw as ([] & w2 & Hab & He & h2 & Hi & Hpins & Hsame & Hcalm & Hpg2); try done.
  - exists w2, h2. split_and!; try done.
    + rewrite (purge_tuples h h' h2 ws); [done|done|done|congruence|done].
    + eapply frame_calm; [exact Hr'|by eapply apart_same|exact Hcalm|apply Hi].
    + intros rid d Hrid Hm. rewrite (Hsame rid Hrid) in Hm. unfold purge in Hm. case_decide as Hdel; [done|].
      by destruct (mk_marked _ _ _ Hmk rid d Hrid Hm).
  - unfold room in *. lia.
  - congruence.
  - split; [apply Hmk|]. intros rid Hin. destruct (mk_deleted _ _ _ Hmk rid Hin) as (? & _ & ?). done.
Qed.

(** C5: INSERT of rows of values, when the pool can take a new page per row and
    the indexes an entry per row: the rows before the first one whose tuple is too
    large for a page are added, each under an id of its own and with an entry in
    every index, and nothing else changes; the write records of the transaction
    undo what the statement did to the table.  A row that is too large aborts the
    transaction and ends the statement, and [Execute] reports success even then. *)
Theorem Execute_insert c (txn : Transaction) F others db info ixp cap oid h rs (good large : list (list Value)) :
  table_at c (rest_pages F ixp) ixp.*1 others db info oid h rs -> indexed others info F ixp cap ->
  good_schema (schema_ info) -> Z.of_nat (length (good ++ large)) < 2 ^ 64 ->
  Forall (fun row => row_fits (schema_ info) row = true /\ page_fits (schema_ info) row = true) good ->
  match large with [] => True | row :: _ => row_fits (schema_ info) row = true /\ page_fits (schema_ info) row = false end ->
  forall fuel (w : world) k, (length h + length good < fuel)%nat -> at_rest c txn (index_frame F ixp cap rs) (with_heap others info h) w ->
  (length rs + length good <= cap)%nat -> (length good <= k)%nat -> budget (view (bpm_ w)) k ->
  exists w' h' rids rs', Execute fuel (RawInsertPlanNode (good ++ large) oid) w = Ok (true, Some ([], w'))
    /\ at_rest c (insert_end large (wrote (insertion info <$> rids) txn)) (index_frame F ixp cap rs') (with_heap others info h') w'
    /\ length rids = length good /\ rs' ≡ₚ rs ++ zip good rids
    /\ table_at c (rest_pages F ixp) ixp.*1 others db info oid h' rs' /\ indexes_hold ixp (bpm_ w') rs'
    /\ undone_by info h h' (insertion info <$> rids).
Proof.
  intros [Hget Hidx Hdb Hap Hnd Hrows] Hix Hs H64 Hgood Hlarge fuel w k Hf Hr Hcap Hk Hb.
  destruct (run_insert c others info (rest_pages F ixp) (index_frame F ixp cap) ixp.*1 cap (index_keeps _ _ _ _ _ _ Hix) oid good large h txn fuel w rs k
    Hget Hidx Hs H64 Hlarge Hgood Hr Hap Hnd Hrows Hcap Hk Hb Hf)
    as (w' & Hex & h' & rids & rs' & Hr' & Hlen & Hrows' & Hperm & Hap' & Hnd' & Hun).
  exists w', h', rids, rs'. split_and!; try done. apply filled_hold, (ar_frame _ _ _ _ _ Hr').
Qed.
End Properties.

(** ** The table *)

Section Table.
#[local] Existing Instance course_config.
#[local] Existing Instance course_table_pages.
#[local] Existing Instance listed_order.
Notation pool := (BPI bytes LRUReplacer DiskManager).

Definition xy : Schema Expression := Schema_new [col (str "x") INTEGER 0 0; col (str "y") INTEGER 0 1].
Definition int (z : Z) : Value := int_value INTEGER int32_t z.
(** The table t of a schema. *)
Definition t_info (schema : Schema Expression) (t : TableHeap) : TableInfo := MkTableInfo schema (str "t") t 0.
Notation xy_info := (t_info xy).

(** CREATE INDEX ix ON t (x). *)
Definition x_info (ht : ExtendibleHashTable) : IndexInfo ExtendibleHashTableIndex :=
  MkIndexInfo x_schema (str "ix") (x_index ht) 0 (str "t") 4.
Definition t_catalog (schema : Schema Expression) (t : TableHeap) (ht : ExtendibleHashTable) : Catalog ExtendibleHashTableIndex :=
  MkCatalog {[0 := t_info schema t]} {[str "t" := 0]} 1 {[0 := x_info ht]} {[str "t" := {[str "ix" := 0]}]} 1.
Notation xy_catalog := (t_catalog xy).

Definition no_other (info : TableInfo) (h : heap) : Prop := False.
Definition no_db : database := fun _ => None.

(** CREATE TABLE t (x INTEGER, y INTEGER). *)
Lemma fresh_indexed_table : exists t ht (s : pool) p X, heap_inv t s [(p, [])] /\ index_at (x_index ht) s X ∅ /\ p ∉ X
  /\ pins (view s) = ∅ /\ room 2 s /\ budget (view s) 7.
Proof.
  destruct fresh_index as (ht & s0 & X & Hix & Hs & Hp & Hf & Hb).
  pose proof (wp_create s0 7 Hs Hb) as Hw. apply wp_run in Hw as (t & s & _ & p & Hi & Hp' & Hev & Hnl & Hb'); [|unfold room; rewrite Hp, Hf, map_size_empty; lia|by vm_compute].
  assert (HpX : p ∉ X) by (intros Hin; by apply Hnl, (index_live _ _ _ _ _ Hix)).
  exists t, ht, s, p, X. split_and!; [done| |done|congruence| |done].
  - eapply index_kept; [exact Hix|apply Hi|exact Hev|done|set_solver].
  - unfold room. rewrite Hp', Hp, (ei_frames _ _ _ Hev), Hf, map_size_empty. lia.
Qed.

(** The index and its pages; [cap] rows fit. *)
Definition x_indexes (ht : ExtendibleHashTable) (X : gset Z) : list (IndexInfo ExtendibleHashTableIndex * gset Z) := [(x_info ht, X)].
Definition cap : nat := 10.

Lemma xy_good : good_schema xy.
Proof. apply good_new; [by repeat constructor|done]. Qed.

(** The index is on the first column. *)
Definition x_first (schema : Schema Expression) : Prop := exists cols, columns_ schema = col (str "x") INTEGER 0 0 :: cols.

Lemma x_keys schema ht row : x_first schema -> fits_row schema row ->
  exists t, key_tuple (S := pool) (x_info ht) row = Ok t /\ tuple_size_ t <= 4.
Proof.
  intros [cols Hc] [Hrow _]. rewrite Hc in Hrow. destruct row as [|v row]; [by apply Forall2_cons_nil_inv in Hrow|].
  apply Forall2_cons in Hrow as [Hv _]. destruct (build_row x_schema [v]) as (t & Ht & _ & _ & Hsz).
  - apply good_new; [by repeat constructor|done].
  - split; [by constructor|done].
  - exists t. split; [exact Ht|]. rewrite Hsz. done.
Qed.

Lemma t_indexed schema t ht X : x_first schema -> indexed (S := pool) no_other (t_info schema t) (plain_frame ∅) (x_indexes ht X) cap.
Proof.
  intros Hx. split.
  - split; [|simpl; set_solver]. intros Xs1 Y Xs2 E Z. destruct Xs1 as [|? [|]]; try done. injection E as -> <-. by intros ?%not_elem_of_nil.
  - by intros i g p [].
  - intros e row ->%list_elem_of_singleton Hrow. by apply (x_keys schema).
  - intros e ->%list_elem_of_singleton. apply Nat.leb_le. by vm_compute.
Qed.

Lemma xy_first : x_first xy.
Proof. by eexists. Qed.
Notation xy_indexed t ht X := (t_indexed xy t ht X xy_first).

Notation frame ht X rs := (index_frame (plain_frame ∅) (x_indexes ht X) cap rs).

Lemma t_rest schema t ht (s : pool) h X rs : heap_inv t s h -> room 2 s -> pins (view s) = ∅ -> (length rs <= cap)%nat ->
  index_at (x_index ht) s X (content (x_info ht) rs) ->
  at_rest (t_catalog schema t ht) txn0 (frame ht X rs) (with_heap no_other (t_info schema t) h) (MkContext s txn0 (t_catalog schema t ht)).
Proof.
  intros Hi Hr Hp Hl Hix. split; try done.
  - split; [done|]. split; [done|]. by constructor.
  - by intros i g [[]|[-> ->]].
Qed.

Lemma xy_apart (X : gset Z) p : p ∉ X -> apart no_other (⋃ [X] ∪ ∅) [(p, [])].
Proof.
  intros Hp. split; [by intros i g q []|]. intros q ->%list_elem_of_singleton. cbn. set_solver.
Qed.

(** The pool may be in the hands of another transaction. *)
Lemma rest_txn c txn txn' F heaps (w : ExecutorContext pool ExtendibleHashTableIndex) :
  at_rest c txn F heaps w -> at_rest c txn' F heaps (MkContext (bpm_ w) txn' c).
Proof. by intros []. Qed.

(** INSERT INTO t VALUES (1, 10), (2, 20). *)
Definition xy_rows : list (list Value) := [[int 1; int 10]; [int 2; int 20]].

Lemma xy_table : exists t ht (s : pool) h X r1 r2 rs,
  at_rest (xy_catalog t ht) txn0 (frame ht X rs) (with_heap no_other (xy_info t) h) (MkContext s txn0 (xy_catalog t ht))
  /\ apart no_other (⋃ [X] ∪ ∅) h /\ NoDup h.*1 /\ Forall2 (holds_row (xy_info t)) (heap_tuples h) rs
  /\ (rs = [([int 1; int 10], r1); ([int 2; int 20], r2)] \/ rs = [([int 2; int 20], r2); ([int 1; int 10], r1)]).
Proof.
  destruct fresh_indexed_table as (t & ht & s & p & X & Hi & Hix & HpX & Hp & Hr & Hb).
  destruct (run_insert (xy_catalog t ht) no_other (xy_info t) (⋃ [X] ∪ ∅) (fun rs => frame ht X rs) [x_info ht] cap
    (index_keeps _ _ _ _ _ _ (xy_indexed t ht X)) 0 xy_rows [] [(p, [])] txn0 4 (MkContext s txn0 (xy_catalog t ht)) [] 7)
    as (w & _ & h & rids & rs & Hrest & Hlen & Hrows & Hperm & Hap & Hnd & _); try done.
  - apply xy_good.
  - by repeat constructor.
  - apply t_rest; (done || simpl; lia).
  - by apply xy_apart.
  - apply NoDup_singleton.
  - simpl. unfold cap. lia.
  - simpl. lia.
  - simpl. lia.
  - destruct rids as [|r1 [|r2 [|]]]; try done. exists t, ht, (bpm_ w), h, X, r1, r2, rs.
    split_and!; [by eapply rest_txn|done..|]. by apply Permutation_length_2_inv.
Qed.
End Table.

(** ** A script over a table with an index *)

Section Concrete.
#[local] Existing Instance course_config.
#[local] Existing Instance course_table_pages.
#[local] Existing Instance listed_order.
#[local] Existing Instance no_indexes.
Notation pool := (BPI bytes LRUReplacer DiskManager).
Notation world := (ExecutorContext pool ExtendibleHashTableIndex).
Notation xy_info := (t_info xy).
Notation xy_catalog := (t_catalog xy).
Notation xy_indexed t ht X := (t_indexed xy t ht X xy_first).

(** UPDATE t SET x = x + 5 WHERE x >= 2; DELETE FROM t WHERE x <= 1; SELECT x, y FROM t. *)
Definition x_is (op : ComparisonType) (z : Z) : Expression :=
  ComparisonExpression (ColumnValueExpression 0 0 INTEGER) (ConstantValueExpression (int z)) op.
Definition script : list PlanNode :=
  [UpdatePlanNode (SeqScanPlanNode xy (Some (x_is GreaterThanOrEqual 2)) 0) 0 {[0 := MkUpdateInfo UpdateAdd 5]};
   DeletePlanNode (SeqScanPlanNode xy (Some (x_is LessThanOrEqual 1)) 0) 0;
   SeqScanPlanNode xy None 0].
Definition script_answers : list (list (list Value)) := [[]; []; [[int 7; int 20]]].

Lemma script_ok t : Forall (statement_ok (xy_info t) 0) script.
Proof. pose proof xy_good. by repeat constructor. Qed.

Lemma xy_scan t predicate e0 : scan_of (xy_info t) xy predicate = Ok e0 -> scans_rows (xy_info t) e0.
Proof.
  intros (idxs & Hi & (p & _ & [= <-])%rbind_ok)%rbind_ok. split; [done|]. assert (E : Ok idxs = Ok [0; 1]) by (rewrite <- Hi; by vm_compute).
  by injection E as ->.
Qed.

Lemma script_keeping t ht X : Forall (keeping (xy_info t) (x_indexes ht X).*1) script.
Proof.
  apply Forall_forall. intros plan Hplan. right. split; [apply xy_good|]. intros Hm e0 next_row Hw. unfold script in Hplan.
  rewrite !elem_of_cons, elem_of_nil in Hplan. destruct Hplan as [->|[->|[->|[]]]]; [..|done];
    apply rbind_ok in Hw as (e & He & Hw); assert (e = e0) as -> by congruence; by eapply xy_scan.
Qed.

Lemma script_result t r1 r2 rs : rs = [([int 1; int 10], r1); ([int 2; int 20], r2)] \/ rs = [([int 2; int 20], r2); ([int 1; int 10], r1)] ->
  denote_script no_db 0 (xy_info t) script rs = Ok (script_answers, [([int 7; int 20], r2)]).
Proof. intros [-> | ->]; by vm_compute. Qed.

Lemma t_at schema t ht X h rs : apart no_other (⋃ [X] ∪ ∅) h -> NoDup h.*1 -> Forall2 (holds_row (t_info schema t)) (heap_tuples h) rs ->
  table_at (t_catalog schema t ht) (⋃ (x_indexes ht X).*2 ∪ fr_pages (plain_frame (S := pool) ∅)) (x_indexes ht X).*1 no_other no_db (t_info schema t) 0 h rs.
Proof. by split. Qed.
Notation xy_at := (t_at xy).

(** The keys of the rows. *)
Lemma x_content ht r : content (S := pool) (x_info ht) [([int 7; int 20], r)] = {[([7; 0; 0; 0], r)]}.
Proof.
  assert (E : row_key (S := pool) (x_info ht) [int 7; int 20] = [7; 0; 0; 0]) by by vm_compute.
  apply set_eq. intros [k rid]. rewrite elem_of_content, elem_of_singleton. split.
  - by intros (row & [= -> ->]%list_elem_of_singleton & <-); rewrite E.
  - intros [= -> ->]. exists [int 7; int 20]. split; [by left|done].
Qed.

Lemma Execute_script_witness : exists t ht X r2 (w w' : world) n results, catalog_ w = xy_catalog t ht
  /\ Execute_all n script w = Ok (Some (results, w')) /\ Forall3 answers script results script_answers
  /\ index_at (x_index ht) (bpm_ w') X {[([7; 0; 0; 0], r2)]}.
Proof.
  destruct xy_table as (t & ht & s & h & X & r1 & r2 & rs & Hr & Hap & Hnd & Hrows & Hrs).
  destruct (Execute_script (xy_catalog t ht) txn0 (plain_frame ∅) no_other no_db (xy_info t) (x_indexes ht X) cap 0 h rs script
    script_answers [([int 7; int 20], r2)] (xy_at t ht X h rs Hap Hnd Hrows) (xy_indexed t ht X)) as (h' & ws & n & Hrun).
  - done.
  - apply script_ok.
  - apply script_keeping.
  - by apply (script_result t r1).
  - destruct (Hrun n _ ltac:(lia) Hr) as (results & w' & Hex & Hans & _ & Hix & _).
    apply Forall_cons in Hix as [Hix _]. cbn [fst snd] in Hix. rewrite x_content in Hix.
    exists t, ht, X, r2, (MkContext s txn0 (xy_catalog t ht)), w', n, results. split_and!; [reflexivity|exact Hex|exact Hans|exact Hix].
Defined.

(** The transaction runs in a manager's world, without locks. *)
Definition xy_world (s : pool) : TransactionManager pool :=
  MkTransactionManager s (MkLockWorld {[0 := txn0]} ∅ {[0]}) 1 {[0 := 0]} (RLock Latch_new).2.

Lemma xy_fresh s : fresh_txn 0 txn0 (xy_world s).
Proof. by split. Qed.

(** The deleted row is back, the index does not have it. *)
Lemma Execute_script_abort_witness : exists t ht s X r1 n results w' w2 h2 m rs es,
  Execute_all n script (MkContext (tm_pool_ (xy_world s)) txn0 (xy_catalog t ht)) = Ok (Some (results, w'))
  /\ TM_Abort m 0 (put_pool (bpm_ w') (put_txn 0 (transaction_ w') (xy_world s))) = Ok (tt, w2)
  /\ heap_inv t (tm_pool_ w2) h2 /\ Forall2 (holds_row (xy_info t)) (heap_tuples h2) rs /\ ([int 1; int 10], r1) ∈ rs
  /\ index_at (x_index ht) (tm_pool_ w2) X es /\ ([1; 0; 0; 0], r1) ∉ es.
Proof.
  destruct xy_table as (t & ht & s & h & X & r1 & r2 & rs & Hr & Hap & Hnd & Hrows & Hrs).
  destruct (Execute_script_abort 0 (xy_catalog t ht) txn0 (plain_frame ∅) (xy_world s) no_other no_db (xy_info t) (x_indexes ht X) cap 0 h rs script
    script_answers [([int 7; int 20], r2)] (xy_at t ht X h rs Hap Hnd Hrows) (xy_indexed t ht X) (xy_fresh s) Hr) as (n & Hrun).
  - apply script_ok.
  - apply script_keeping.
  - by apply (script_result t r1).
  - destruct (Hrun n ltac:(lia)) as (results & w' & Hex & m & Hab).
    destruct (Hab (Datatypes.S m) ltac:(lia)) as (w2 & h2 & Hab2 & _ & Hi2 & _ & _ & Hrows2 & Hix).
    apply Forall_cons in Hix as [Hix _]. cbn [fst snd] in Hix. rewrite x_content in Hix.
    exists t, ht, s, X, r1, n, results, w', w2, h2, (Datatypes.S m), rs, {[([7; 0; 0; 0], r2)]}.
    split_and!; [exact Hex|exact Hab2|exact Hi2|exact Hrows2| |exact Hix|].
    + destruct Hrs as [-> | ->]; [by left|by right; left].
    + by intros [= ?]%elem_of_singleton.
Defined.

Lemma Execute_script_commit_witness : exists t ht s X r2 n results w' w2 h2 m,
  Execute_all n script (MkContext (tm_pool_ (xy_world s)) txn0 (xy_catalog t ht)) = Ok (Some (results, w'))
  /\ TM_Commit m 0 (put_pool (bpm_ w') (put_txn 0 (transaction_ w') (xy_world s))) = Ok (tt, w2)
  /\ heap_inv t (tm_pool_ w2) h2 /\ Forall2 (holds_row (xy_info t)) (heap_tuples h2) [([int 7; int 20], r2)]
  /\ index_at (x_index ht) (tm_pool_ w2) X {[([7; 0; 0; 0], r2)]}.
Proof.
  destruct xy_table as (t & ht & s & h & X & r1 & r2 & rs & Hr & Hap & Hnd & Hrows & Hrs).
  destruct (Execute_script_commit 0 (xy_catalog t ht) txn0 (plain_frame ∅) (xy_world s) no_other no_db (xy_info t) (x_indexes ht X) cap 0 h rs script
    script_answers [([int 7; int 20], r2)] (xy_at t ht X h rs Hap Hnd Hrows) (xy_indexed t ht X) (xy_fresh s) Hr) as (n & Hrun).
  - apply script_ok.
  - apply script_keeping.
  - by apply (script_result t r1).
  - destruct (Hrun n ltac:(lia)) as (results & w' & Hex & m & Hab).
    destruct (Hab (Datatypes.S m) ltac:(lia)) as (w2 & h2 & Hab2 & _ & Hi2 & _ & Hrows2 & Hix & _).
    apply Forall_cons in Hix as [Hix _]. cbn [fst snd] in Hix. rewrite x_content in Hix.
    exists t, ht, s, X, r2, n, results, w', w2, h2, (Datatypes.S m). split_and!; [exact Hex|exact Hab2|exact Hi2|exact Hrows2|exact Hix].
Defined.

(** CREATE TABLE t (x INTEGER, s VARCHAR), with the index; INSERT INTO t VALUES
    (7, 'abc') and a row whose string is longer than a page. *)
Definition xs : Schema Expression := Schema_new [col (str "x") INTEGER 0 0; col (str "s") VARCHAR 0 1].
Definition small_row : list Value := [int 7; varchar_value (str "abc")].
Definition large_row : list Value := [int 8; varchar_value (replicate 5000 97)].

Lemma xs_content ht r : content (S := pool) (x_info ht) [(small_row, r)] = {[([7; 0; 0; 0], r)]}.
Proof.
  assert (E : row_key (S := pool) (x_info ht) small_row = [7; 0; 0; 0]) by by vm_compute.
  apply set_eq. intros [k rid]. rewrite elem_of_content, elem_of_singleton. split.
  - by intros (row & [= -> ->]%list_elem_of_singleton & <-); rewrite E.
  - intros [= -> ->]. exists small_row. split; [by left|done].
Qed.

Lemma Execute_insert_witness : exists t ht X (w w' : world) n r h', catalog_ w = t_catalog xs t ht
  /\ Execute n (RawInsertPlanNode [small_row; large_row] 0) w = Ok (true, Some ([], w')) /\ state_ (transaction_ w') = ABORTED
  /\ heap_inv t (bpm_ w') h' /\ Forall2 (holds_row (t_info xs t)) (heap_tuples h') [(small_row, r)]
  /\ index_at (x_index ht) (bpm_ w') X {[([7; 0; 0; 0], r)]}.
Proof.
  destruct fresh_indexed_table as (t & ht & s & p & X & Hi & Hix & HpX & Hp & Hr & Hb).
  destruct (Execute_insert (t_catalog xs t ht) txn0 (plain_frame ∅) no_other no_db (t_info xs t) (x_indexes ht X) cap 0 [(p, [])] [] [small_row] [large_row]
    (t_at xs t ht X _ [] (xy_apart X p HpX) (NoDup_singleton p) (@List.Forall2_nil _ _ _)) (t_indexed xs t ht X (ex_intro _ _ eq_refl)))
    with (fuel := 3%nat) (w := MkContext s txn0 (t_catalog xs t ht)) (k := 7%nat)
    as (w' & h' & rids & rs' & Hex & Hr' & Hlen & Hperm & Hta & Hix' & _).
  - apply good_new; [by repeat constructor|done].
  - simpl. lia.
  - constructor; [|constructor]. split; by vm_compute.
  - split; by vm_compute.
  - simpl. lia.
  - by apply t_rest; try (simpl; lia).
  - unfold cap. simpl. lia.
  - simpl. lia.
  - done.
  - destruct rids as [|r [|]]; [discriminate Hlen| |discriminate Hlen]. apply Permutation_singleton_r in Hperm as ->.
    apply Forall_cons in Hix' as [Hix' _]. cbn [fst snd] in Hix'. rewrite xs_content in Hix'.
    exists t, ht, X, (MkContext s txn0 (t_catalog xs t ht)), w', 3%nat, r, h'. split_and!; [reflexivity|exact Hex| | |apply Hta|exact Hix'].
    + by rewrite (ar_txn _ _ _ _ _ Hr').
    + apply (ar_heaps _ _ _ _ _ Hr' (t_info xs t) h'). right. split; reflexivity.
Defined.
End Concrete.

(** ** Updates of columns that are not INTEGER *)

(** C40: An update by SET does not look at the type of the column: it stores the
    four bytes of an INTEGER.  In a table of one SMALLINT column every such update
    writes behind the tuple; in a BIGINT column it leaves the upper half zero, so
    that a negative number reads back as a large positive one. *)
Theorem Update_ignores_column_type (t : Tuple) v z : let c type := Schema_new [col (str "c") type 0 0] in
  is_signed 32 z ->
  (Tuple_GetValue t (c SMALLINT) 0 = Ok v ->
     GenerateUpdatedTuple (H := course_config) {[0 := MkUpdateInfo UpdateSet z]} (c SMALLINT) t = Err OutOfBounds) /\
  (Tuple_GetValue t (c BIGINT) 0 = Ok v -> exists t',
     GenerateUpdatedTuple (H := course_config) {[0 := MkUpdateInfo UpdateSet z]} (c BIGINT) t = Ok t' /\
     Tuple_GetValue t' (c BIGINT) 0 = Ok (int_value BIGINT int64_t (unsigned 32 z))).
Proof.
  intros c Hz.
  assert (Hval : forall type, Tuple_GetValue t (c type) 0 = Ok v ->
    GenerateUpdatedTuple (H := course_config) {[0 := MkUpdateInfo UpdateSet z]} (c type) t = Tuple_of_values [int_value INTEGER int32_t z] (c type)).
  { intros type Hv. unfold GenerateUpdatedTuple. change (seqZ 0 _) with [0]. cbn [Updated_loop]. rewrite Hv. cbn [rbind].
    rewrite lookup_singleton_eq. cbn [update_val_ update_type_]. unfold GetIntegerValue, Value_int32, set_int. by rewrite signed_id. }
  split; intros Hv; rewrite (Hval _ Hv).
  - reflexivity.
  - exists (MkTuple RID_default (le_split 4 z ++ [0; 0; 0; 0])). split; [reflexivity|].
    assert (E : unsigned 32 z = le_combine (le_split 4 z ++ [0; 0; 0; 0])) by (rewrite <- le_combine_split_u32; cbn [le_split app le_combine]; lia).
    assert (Hu : signed 64 (unsigned 32 z) = unsigned 32 z) by (apply signed_id; pose proof (unsigned_range 32 z ltac:(lia)) as Hr; unfold is_signed, is_unsigned in *; lia).
    transitivity (@Ok Value (int_value BIGINT int64_t (signed 64 (signed 64 (le_combine (le_split 4 z ++ [0; 0; 0; 0])))))); [reflexivity|].
    by rewrite <- E, !Hu.
Qed.

Lemma Update_ignores_column_type_witness : exists t t', let c := Schema_new [col (str "c") BIGINT 0 0] in
  Tuple_GetValue t c 0 = Ok (int_value BIGINT int64_t 5)
  /\ GenerateUpdatedTuple (H := course_config) {[0 := MkUpdateInfo UpdateSet (-1)]} c t = Ok t'
  /\ Tuple_GetValue t' c 0 = Ok (int_value BIGINT int64_t 4294967295).
Proof.
  set (t := MkTuple RID_default [5; 0; 0; 0; 0; 0; 0; 0]).
  destruct (Update_ignores_column_type t (int_value BIGINT int64_t 5) (-1)) as [_ Hw]; [by vm_compute|].
  destruct (Hw eq_refl) as (t' & Ht' & Hv). by exists t, t'.
Defined.
