(* ===== verification/TableGenerator.v ===== *)
(** The generator of test tables ([src/catalog/table_generator.cpp],
    [src/include/catalog/table_generator.h]).

    The random numbers are those of the standard library's distributions on a
    fresh [std::default_random_engine]: what is the [i]-th number drawn is up to
    the implementation ([RandomDistribution]). *)

From Stdlib Require Import SpecFloat.
From S2P Require Import Prelude Bytes CString Ieee Rid Replacer LRUReplacer DiskManager BufferPoolManager BufferPool Value Types TypesCorrect ValueFactory.
From S2P Require Import Schema Expression TablePage TablePageCorrect TupleValues TupleCorrect Transaction TableHeap TableHeapCorrect TableScan TableHeapProperties.
From S2P Require Import LockManager RWLatch TransactionManager TransactionUndo TransactionPrograms RecordChange.
From S2P Require Import HashUtil Catalog CatalogCorrect Executor ReadExecutors JoinExecutors AggregationExecutor WriteExecutors ExecutionEngine.
From S2P Require Import QuerySemantics ScanCorrect JoinCorrect AggregationCorrect QueryCorrect WriteCorrect QueryProperties WriteRun InsertCorrect.
From S2P Require Import BufferPoolCorrect.

(** ** Definitions *)

(** The [i]-th number of a distribution over [a .. b]. *)
Class RandomDistribution : Type := {
  uniform_int : Z -> Z -> nat -> Z;
  uniform_real : double -> double -> nat -> double
}.

Inductive Dist : Type := Uniform | Zipf_50 | Zipf_75 | Zipf_95 | Zipf_99 | Serial | Cyclic.

#[export] Instance Dist_eq_dec : EqDecision Dist.
Proof. solve_decision. Defined.

Record ColumnInsertMeta : Type := MkColumnInsertMeta {
  cm_name_ : bytes;
  cm_type_ : TypeId;
  nullable_ : bool;
  dist_ : Dist;
  min_ : Z;
  max_ : Z;
  serial_counter_ : Z
}.
Definition ColumnInsertMeta_new (name : bytes) (type : TypeId) (nullable : bool) (dist : Dist) (min max : Z) : ColumnInsertMeta :=
  MkColumnInsertMeta name type nullable dist min max 0.
Definition set_counter (n : Z) (c : ColumnInsertMeta) : ColumnInsertMeta :=
  MkColumnInsertMeta (cm_name_ c) (cm_type_ c) (nullable_ c) (dist_ c) (min_ c) (max_ c) n.

Record TableInsertMeta : Type := MkTableInsertMeta {
  tm_name_ : bytes;
  num_rows_ : Z;
  col_meta_ : list ColumnInsertMeta
}.

(** The template parameter of [GenNumericValues]. *)
Inductive CppType : Type := CInt (T : int_type) | CDouble.

(** [Value(type, static_cast<CppType>(n))] of a [uint64_t]. *)
Definition cast_value (ty : CppType) (type : TypeId) (n : Z) : res Value :=
  match ty with
  | CInt T => Value_int T type (signed (bits T) n)
  | CDouble => Value_double type (double_of_Z n)
  end.

Section TableGenerator.
Context `{RandomDistribution}.

(** The distribution, whose bounds must be in order, and its [i]-th number. *)
Definition distribution (ty : CppType) (col_meta : ColumnInsertMeta) : res (nat -> res Value) :=
  match ty with
  | CInt T =>
      let a := signed 32 (signed (bits T) (min_ col_meta)) in
      let b := signed 32 (signed (bits T) (max_ col_meta)) in
      let! _ := assert (a <=? b) in
      Ok (fun i => Value_int int32_t (cm_type_ col_meta) (uniform_int a b i))
  | CDouble =>
      let a := double_of_Z (min_ col_meta) in
      let b := double_of_Z (max_ col_meta) in
      let! _ := assert (SFleb a b) in
      Ok (fun i => Value_double (cm_type_ col_meta) (uniform_real a b i))
  end.

Fixpoint Serial_loop (ty : CppType) (count : nat) (c : ColumnInsertMeta) : res (list Value * ColumnInsertMeta) :=
  match count with
  | O => Ok ([], c)
  | Datatypes.S count =>
      let! v := cast_value ty (cm_type_ c) (serial_counter_ c) in
      let c := set_counter (unsigned 64 (serial_counter_ c + 1)) c in
      let! '(vs, c) := Serial_loop ty count c in
      Ok (v :: vs, c)
  end.
Fixpoint Cyclic_loop (ty : CppType) (count : nat) (c : ColumnInsertMeta) : res (list Value * ColumnInsertMeta) :=
  match count with
  | O => Ok ([], c)
  | Datatypes.S count =>
      let! v := cast_value ty (cm_type_ c) (serial_counter_ c) in
      let c := set_counter (unsigned 64 (serial_counter_ c + 1)) c in
      let c := if max_ c <? serial_counter_ c then set_counter 0 c else c in
      let! '(vs, c) := Cyclic_loop ty count c in
      Ok (v :: vs, c)
  end.

Definition GenNumericValues (ty : CppType) (col_meta : ColumnInsertMeta) (count : Z) : res (list Value * ColumnInsertMeta) :=
  match dist_ col_meta with
  | Serial => Serial_loop ty (Z.to_nat count) col_meta
  | Cyclic => Cyclic_loop ty (Z.to_nat count) col_meta
  | _ =>
      let! draw := distribution ty col_meta in
      let! values := rmap draw (seq 0 (Z.to_nat count)) in
      Ok (values, col_meta)
  end.

Definition MakeValues (col_meta : ColumnInsertMeta) (count : Z) : res (list Value * ColumnInsertMeta) :=
  match cm_type_ col_meta with
  | TINYINT => GenNumericValues (CInt int8_t) col_meta count
  | SMALLINT => GenNumericValues (CInt int16_t) col_meta count
  | INTEGER => GenNumericValues (CInt int32_t) col_meta count
  | BIGINT => GenNumericValues (CInt int64_t) col_meta count
  | DECIMAL => GenNumericValues CDouble col_meta count
  | _ => Err StdLogicError
  end.

(** The loop over the columns. *)
Fixpoint MakeColumns (cols : list ColumnInsertMeta) (num_values : Z) : res (list (list Value) * list ColumnInsertMeta) :=
  match cols with
  | [] => Ok ([], [])
  | c :: cols =>
      let! '(v, c) := MakeValues c num_values in
      let! '(values, cols) := MakeColumns cols num_values in
      Ok (v :: values, c :: cols)
  end.
End TableGenerator.

Definition batch_size : Z := 128.
Definition TEST1_SIZE : Z := 1000.
Definition TEST2_SIZE : Z := 100.
Definition TEST3_SIZE : Z := 100.
Definition TEST4_SIZE : Z := 100.
Definition TEST6_SIZE : Z := 100.
Definition TEST7_SIZE : Z := 100.
Definition TEST8_SIZE : Z := 10.
Definition TEST9_SIZE : Z := 10.
Definition TEST_VARLEN_SIZE : Z := 10.

Section Fill.
Context `{Config} `{!HashOrder} {S P I : Type} `{!BufferPoolManager S P bytes} `{!Index S I} `{!RandomDistribution}.
Notation X := (M (ExecutorContext S I)).

(** The loop over the rows of a batch, from row [i] on. *)
Fixpoint Fill_rows (fuel count : nat) (i : Z) (info : option TableInfo) (values : list (list Value)) : X unit :=
  match count with
  | O => sret tt
  | Datatypes.S count =>
      do! entry := lift (rmap (fun col => zlookup col i) values) in
      do! info' := deref info in
      do! tuple := lift (Tuple_of_values entry (schema_ info')) in
      do! ' (inserted, _) := insert_into_table fuel info' (tuple, RID_default) in
      do! _ := lift (assert inserted) in
      Fill_rows fuel count (i + 1) info values
  end.

(** The loop over the batches, for at most [rounds] of them. *)
Fixpoint Fill_loop (rounds fuel : nat) (info : option TableInfo) (num_rows num_inserted : Z) (cols : list ColumnInsertMeta) :
    X (list ColumnInsertMeta) :=
  match rounds with
  | O => fail OutOfFuel
  | Datatypes.S rounds =>
      if num_rows <=? num_inserted then sret cols else
      let num_values := Z.min batch_size (unsigned 32 (num_rows - num_inserted)) in
      do! ' (values, cols) := lift (MakeColumns cols num_values) in
      do! _ := Fill_rows fuel (Z.to_nat num_values) 0 info values in
      Fill_loop rounds fuel info num_rows (unsigned 32 (num_inserted + num_values)) cols
  end.

Definition FillTable (fuel : nat) (info : option TableInfo) (table_meta : TableInsertMeta) : X (list ColumnInsertMeta) :=
  Fill_loop fuel fuel info (num_rows_ table_meta) 0 (col_meta_ table_meta).

(** *** The test tables *)

Notation column := ColumnInsertMeta_new.
Definition insert_meta : list TableInsertMeta := [
  MkTableInsertMeta (str "empty_table") 0 [column (str "colA") INTEGER false Serial 0 0];
  MkTableInsertMeta (str "test_1") TEST1_SIZE
    [column (str "colA") INTEGER false Serial 0 0;
     column (str "colB") INTEGER false Uniform 0 9;
     column (str "colC") INTEGER false Uniform 0 9999;
     column (str "colD") INTEGER false Uniform 0 99999];
  MkTableInsertMeta (str "test_2") TEST2_SIZE
    [column (str "col1") SMALLINT false Serial 0 0;
     column (str "col2") INTEGER true Uniform 0 9;
     column (str "col3") BIGINT false Uniform 0 1024;
     column (str "col4") INTEGER true Uniform 0 2048];
  MkTableInsertMeta (str "test_3") TEST3_SIZE
    [column (str "colA") INTEGER false Serial 0 0; column (str "colB") INTEGER true Serial 0 0];
  MkTableInsertMeta (str "test_4") TEST4_SIZE
    [column (str "colA") BIGINT false Serial 0 0;
     column (str "colB") INTEGER true Serial 0 0;
     column (str "colC") INTEGER true Uniform 0 9];
  MkTableInsertMeta (str "test_5") 0
    [column (str "colA") BIGINT false Serial 0 0; column (str "colB") INTEGER true Serial 0 0];
  MkTableInsertMeta (str "test_6") TEST6_SIZE
    [column (str "colA") BIGINT false Serial 0 0;
     column (str "colB") INTEGER true Serial 0 0;
     column (str "colC") INTEGER true Uniform 0 9];
  MkTableInsertMeta (str "test_7") TEST7_SIZE
    [column (str "colA") BIGINT false Serial 0 0;
     column (str "colB") INTEGER true Serial 0 0;
     column (str "colC") INTEGER true Cyclic 0 9];
  MkTableInsertMeta (str "test_8") TEST8_SIZE
    [column (str "colA") BIGINT false Serial 0 0; column (str "colB") INTEGER true Serial 0 0];
  MkTableInsertMeta (str "test_9") TEST9_SIZE
    [column (str "colA") BIGINT false Serial 0 0; column (str "colB") INTEGER true Serial 0 0];
  MkTableInsertMeta (str "empty_table2") 0
    [column (str "colA") INTEGER false Serial 0 0; column (str "colB") INTEGER false Uniform 0 9];
  MkTableInsertMeta (str "empty_table3") 0
    [column (str "colA") BIGINT false Serial 0 0; column (str "colB") INTEGER false Uniform 0 9];
  MkTableInsertMeta (str "varchar_table") 0
    [column (str "colA") VARCHAR false Serial 0 0;
     column (str "colB") TINYINT false Serial 0 0;
     column (str "colC") DECIMAL false Serial 0 0]].

Definition make_column (col_meta : ColumnInsertMeta) : res (Column Expression) :=
  if negb (bool_decide (cm_type_ col_meta = VARCHAR)) then Column_fixed (cm_name_ col_meta) (cm_type_ col_meta) None
  else Column_varlen (cm_name_ col_meta) (cm_type_ col_meta) TEST_VARLEN_SIZE None.

Fixpoint Generate_loop (fuel : nat) (metas : list TableInsertMeta) : X unit :=
  match metas with
  | [] => sret tt
  | table_meta :: metas =>
      do! cols := lift (rmap make_column (col_meta_ table_meta)) in
      do! info := CreateTable (tm_name_ table_meta) (Schema_new cols) in
      do! _ := FillTable fuel info table_meta in
      Generate_loop fuel metas
  end.
Definition GenerateTestTables (fuel : nat) : X unit := Generate_loop fuel insert_meta.
End Fill.

(** ** The rows a table is filled with *)

Section Rows.
Context `{RandomDistribution}.

Definition cpp_type_of (t : TypeId) : option CppType :=
  match t with
  | TINYINT => Some (CInt int8_t) | SMALLINT => Some (CInt int16_t) | INTEGER => Some (CInt int32_t) | BIGINT => Some (CInt int64_t)
  | DECIMAL => Some CDouble | _ => None
  end.

(** A column after one more value. *)
Definition next_counter (c : ColumnInsertMeta) : ColumnInsertMeta :=
  let n := unsigned 64 (serial_counter_ c + 1) in
  match dist_ c with
  | Serial => set_counter n c
  | Cyclic => set_counter (if max_ c <? n then 0 else n) c
  | _ => c
  end.

(** The value of column [c] in row [k].  The generator of random numbers is made
    anew for every batch, so the numbers repeat every 128 rows. *)
Definition datum_at (c : ColumnInsertMeta) (k : nat) : res Value :=
  let! ty := of_option StdLogicError (cpp_type_of (cm_type_ c)) in
  match dist_ c with
  | Serial | Cyclic => cast_value ty (cm_type_ c) (serial_counter_ (Nat.iter k next_counter c))
  | _ => let! draw := distribution ty c in draw (k mod 128)%nat
  end.
Definition row_at (cols : list ColumnInsertMeta) (k : nat) : res (list Value) := rmap (fun c => datum_at c k) cols.

Lemma next_same c : cm_type_ (next_counter c) = cm_type_ c /\ dist_ (next_counter c) = dist_ c /\ max_ (next_counter c) = max_ c.
Proof. unfold next_counter. by destruct (dist_ c) eqn:E. Qed.

Lemma iter_next k c : cm_type_ (Nat.iter k next_counter c) = cm_type_ c /\ dist_ (Nat.iter k next_counter c) = dist_ c
  /\ max_ (Nat.iter k next_counter c) = max_ c.
Proof.
  induction k as [|k (IH1 & IH2 & IH3)]; [done|]. rewrite !Nat.iter_succ. destruct (next_same (Nat.iter k next_counter c)) as (E1 & E2 & E3).
  by rewrite E1, E2, E3.
Qed.

Lemma iter_random k c : dist_ c <> Serial -> dist_ c <> Cyclic -> Nat.iter k next_counter c = c.
Proof. intros Hs Hc. induction k as [|k IH]; [done|]. rewrite Nat.iter_succ, IH. unfold next_counter. by destruct (dist_ c). Qed.

Lemma counter_loop ty c n : dist_ c = Serial \/ dist_ c = Cyclic -> forall k vs,
  rmap (fun k => cast_value ty (cm_type_ c) (serial_counter_ (Nat.iter k next_counter c))) (seq k n) = Ok vs ->
  (if decide (dist_ c = Serial) then Serial_loop ty n (Nat.iter k next_counter c) else Cyclic_loop ty n (Nat.iter k next_counter c))
  = Ok (vs, Nat.iter (k + n) next_counter c).
Proof.
  intros Hd. induction n as [|n IH]; intros k vs Hvs.
  - injection Hvs as <-. rewrite Nat.add_0_r. by case_decide.
  - cbn [seq rmap] in Hvs. apply rbind_ok in Hvs as (v & Hv & Hvs). apply rbind_ok in Hvs as (vs' & Hvs' & Hr). injection Hr as <-.
    specialize (IH (Datatypes.S k) vs' Hvs'). destruct (iter_next k c) as (Et & Ed & Em).
    rewrite Nat.add_succ_r. cbn [Nat.add] in IH. change (Nat.iter (Datatypes.S k) next_counter c) with (next_counter (Nat.iter k next_counter c)) in IH.
    set (c' := Nat.iter k next_counter c) in *. clearbody c'. unfold next_counter at 1 2 in IH. rewrite Ed in IH.
    destruct Hd as [Hd|Hd]; rewrite Hd in *; [rewrite !decide_True in * by done|rewrite !decide_False in * by done];
      cbn [Serial_loop Cyclic_loop]; rewrite Et, Hv; cbn [rbind max_ serial_counter_ set_counter].
    + by rewrite IH.
    + revert IH. unfold set_counter. destruct (max_ c' <? _); intros IH; cbn [cm_name_ cm_type_ nullable_ dist_ min_ max_ serial_counter_] in *; by rewrite IH.
Qed.

Lemma rmap_total {A B} (f : A -> res B) l : (forall x, x ∈ l -> exists y, f x = Ok y) -> exists ys, rmap f l = Ok ys.
Proof.
  induction l as [|x l IH]; intros Hl; [by exists []|]. destruct (Hl x) as [y Hy]; [by left|]. destruct IH as [ys Hys]; [intros z Hz; apply Hl; by right|].
  exists (y :: ys). cbn [rmap]. by rewrite Hy, Hys.
Qed.

Lemma rmap_shift {A} (draw : nat -> res A) k n : (k mod 128 = 0)%nat -> (n <= 128)%nat ->
  rmap draw (seq 0 n) = rmap (fun k => draw (k mod 128)%nat) (seq k n).
Proof.
  intros Hk Hn. rewrite <- (Nat.add_0_r k) at 1. rewrite <- fmap_add_seq.
  assert (Hf : forall l, (forall i, i ∈ l -> (i < 128)%nat) -> rmap draw l = rmap (fun k => draw (k mod 128)%nat) (Nat.add k <$> l)).
  { induction l as [|i l IH]; intros Hl; [done|]. cbn [rmap fmap list_fmap]. rewrite IH by (intros; apply Hl; by right).
    rewrite Nat.Div0.add_mod, Hk, Nat.add_0_l, !Nat.Div0.mod_mod, Nat.mod_small; [done|]. apply Hl. by left. }
  apply Hf. intros i Hi%elem_of_seq. lia.
Qed.

(** A batch of values of a column. *)
Lemma MakeValues_ok c k n vs : (k mod 128 = 0)%nat -> (0 < n <= 128)%nat -> rmap (datum_at c) (seq k n) = Ok vs ->
  MakeValues (Nat.iter k next_counter c) (Z.of_nat n) = Ok (vs, Nat.iter (k + n) next_counter c).
Proof.
  intros Hk Hn Hvs. destruct (iter_next k c) as (Et & Ed & Em). unfold MakeValues. rewrite Et.
  assert (Hgen : forall ty, cpp_type_of (cm_type_ c) = Some ty ->
    GenNumericValues ty (Nat.iter k next_counter c) (Z.of_nat n) = Ok (vs, Nat.iter (k + n) next_counter c)).
  { intros ty Ety. unfold GenNumericValues. rewrite Ed, Nat2Z.id. unfold datum_at in Hvs. rewrite Ety in Hvs. cbn [of_option rbind] in Hvs.
    assert (Hrand : dist_ c <> Serial -> dist_ c <> Cyclic -> rmap (fun k => let! draw := distribution ty c in draw (k mod 128)%nat) (seq k n) = Ok vs ->
      (let! draw := distribution ty (Nat.iter k next_counter c) in let! values := rmap draw (seq 0 n) in Ok (values, Nat.iter k next_counter c))
      = Ok (vs, Nat.iter (k + n) next_counter c)).
    { intros Hs Hc Hr. rewrite !iter_random by done. destruct (distribution ty c) as [draw|e]; cbn [rbind] in *.
      - assert (E : rmap draw (seq 0 n) = Ok vs); [|by rewrite E]. rewrite <- Hr. apply rmap_shift; [done|lia].
      - destruct n; [lia|]. done. }
    destruct (dist_ c) eqn:Edist; try (by apply Hrand).
    - pose proof (counter_loop ty c n (or_introl Edist) k vs Hvs) as E. by rewrite Edist, decide_True in E.
    - pose proof (counter_loop ty c n (or_intror Edist) k vs Hvs) as E. by rewrite Edist, decide_False in E. }
  destruct (cm_type_ c) eqn:E; try (by apply Hgen); unfold datum_at in Hvs; rewrite E in Hvs; (destruct n; [lia|done]).
Qed.

(** The values of a batch, column by column, are the rows of the batch. *)
Lemma MakeColumns_ok cols k n : (k mod 128 = 0)%nat -> (0 < n <= 128)%nat ->
  (forall i, (i < n)%nat -> exists row, row_at cols (k + i) = Ok row) ->
  exists values, MakeColumns (Nat.iter k next_counter <$> cols) (Z.of_nat n) = Ok (values, Nat.iter (k + n) next_counter <$> cols)
    /\ forall i, (i < n)%nat -> rmap (fun col => zlookup col (Z.of_nat i)) values = row_at cols (k + i).
Proof.
  intros Hk Hn. induction cols as [|c cols IH]; intros Hrows; [by exists []|].
  assert (Hd : forall i, (i < n)%nat -> exists v row, datum_at c (k + i) = Ok v /\ row_at cols (k + i) = Ok row).
  { intros i Hi. destruct (Hrows i Hi) as [row Hrow]. unfold row_at in Hrow. cbn [rmap] in Hrow.
    apply rbind_ok in Hrow as (v & Hv & Hrow). apply rbind_ok in Hrow as (row' & Hrow' & _). by exists v, row'. }
  destruct IH as (values & Hvalues & Hlook). { intros i Hi. destruct (Hd i Hi) as (v & row & _ & Hrow). by exists row. }
  destruct (rmap_total (datum_at c) (seq k n)) as [vs Hvs].
  { intros j [Hj1 Hj2]%elem_of_seq. destruct (Hd (j - k)%nat ltac:(lia)) as (v & _ & Hv & _). exists v. rewrite <- Hv. f_equal. lia. }
  exists (vs :: values). cbn [fmap list_fmap MakeColumns]. rewrite (MakeValues_ok c k n vs Hk Hn Hvs). cbn [rbind]. rewrite Hvalues. split; [done|].
  intros i Hi. unfold row_at. cbn [rmap]. fold (row_at cols (k + i)). rewrite <- (Hlook i Hi). destruct (Hd i Hi) as (v & _ & Hv & _). rewrite Hv.
  apply rmap_ok in Hvs. destruct (Forall2_lookup_l _ _ _ i (k + i)%nat Hvs) as (v' & Hv' & E); [by apply lookup_seq|].
  rewrite (zlookup_nat _ _ _ Hv'). assert (v' = v) as -> by congruence. done.
Qed.
End Rows.

(** ** Filling a table *)

Section FillCorrect.
Context `{Config} `{!HashOrder} {S P I : Type} `{!BufferPoolManager S P bytes} `{!BufferPoolSpec S P bytes} `{!Index S I} `{!RandomDistribution}
  `{!TablePagesOk (good_data (S := S) (P := P)) (zero_data (S := S) (P := P))}.
Notation world := (ExecutorContext S I).
Context (c : Catalog I) (F : Frame S P) (others : TableInfo -> heap -> Prop) (info : TableInfo).
Notation rest txn h := (at_rest c txn F (with_heap others info h)).

(** The rows [rows] are added to the table; the pool has room for [nb] more
    pages. *)
Definition rows_added (txn : Transaction) (h : heap) (rs : list (list Value * RID)) (rows : list (list Value)) (nb : nat) (w' : world) : Prop :=
  exists h' rids rs' (m : nat), rest (wrote (insertion info <$> rids) txn) h' w' /\ length rids = length rows
    /\ Forall2 (holds_row info) (heap_tuples h') rs' /\ rs' ≡ₚ rs ++ zip rows rids
    /\ apart others (fr_pages F) h' /\ NoDup h'.*1 /\ undone_by info h h' (insertion info <$> rids)
    /\ (nb <= m)%nat /\ budget (view (bpm_ w')) m /\ (length h' <= length h + length rows)%nat.

Lemma rows_added_app txn (h h1 : heap) rs rs1 rows1 rids1 rows2 nb w' :
  length rids1 = length rows1 -> rs1 ≡ₚ rs ++ zip rows1 rids1 -> undone_by info h h1 (insertion info <$> rids1) ->
  (length h1 <= length h + length rows1)%nat ->
  rows_added (wrote (insertion info <$> rids1) txn) h1 rs1 rows2 nb w' -> rows_added txn h rs (rows1 ++ rows2) nb w'.
Proof.
  intros Hl1 Hp1 Hu1 Hh1 (h2 & rids2 & rs2 & m & Hr & Hl & Hrows & Hp & Hap & Hnd & Hu & Hm & Hb & Hh).
  exists h2, (rids1 ++ rids2), rs2, m. rewrite wrote_app in Hr. rewrite fmap_app. split_and!; try done.
  - rewrite !length_app. lia.
  - rewrite Hp, Hp1, zip_with_app by done. by rewrite app_assoc.
  - by eapply undone_app.
  - rewrite length_app. lia.
Qed.

Lemma rows_added_none txn h rs nb (m : nat) w :
  rest txn h w -> apart others (fr_pages F) h -> NoDup h.*1 -> Forall2 (holds_row info) (heap_tuples h) rs -> (nb <= m)%nat -> budget (view (bpm_ w)) m ->
  rows_added txn h rs [] nb w.
Proof.
  intros Hr Hap Hnd Hrows Hm Hb. assert (E : wrote [] txn = txn) by (unfold wrote; by rewrite app_nil_r, set_writes_same).
  exists h, [], rs, m. cbn [fmap list_fmap zip zip_with length]. rewrite E, app_nil_r. split_and!; try done. lia.
Qed.

Definition good_rows (rows : list (list Value)) : Prop :=
  Forall (fun row => row_fits (schema_ info) row = true /\ page_fits (schema_ info) row = true) rows.

Lemma Fill_rows_wp fuel values : good_schema (schema_ info) ->
  forall rows (i : nat) h txn w rs nb (m : nat),
  (forall j row, rows !! j = Some row -> rmap (fun col => zlookup col (Z.of_nat (i + j))) values = Ok row) -> good_rows rows ->
  rest txn h w -> apart others (fr_pages F) h -> NoDup h.*1 -> Forall2 (holds_row info) (heap_tuples h) rs ->
  (length rows + nb <= m)%nat -> budget (view (bpm_ w)) m -> (length h + length rows < fuel)%nat ->
  wp (Fill_rows fuel (length rows) (Z.of_nat i) (Some info) values) (fun _ w' => rows_added txn h rs rows nb w') w.
Proof.
  intros Hs. induction rows as [|row rows IH]; intros i h txn w rs nb m Hlook Hgood Hr Hap Hnd Hrows Hm Hb Hf; cbn [length Fill_rows].
  - apply wp_ret. simpl in Hm. eapply rows_added_none; done.
  - apply Forall_cons in Hgood as [[Hg1 Hg2] Hgood]. destruct (row_tuple info row Hs Hg1) as [t Ht]. simpl in Hm, Hf.
    pose proof (Hlook 0%nat row eq_refl) as Hrow. rewrite Nat.add_0_r in Hrow.
    eapply wp_bind, wp_lift; [exact Hrow|]. apply wp_bind, wp_ret. eapply wp_bind, wp_lift; [exact Ht|]. apply wp_bind.
    replace m with (1 + (m - 1))%nat in Hb by lia.
    eapply wp_mono; [apply (insert_row c others info F txn h row t w fuel (m - 1)); (done || lia)|].
    intros r w1 (rid & h1 & m1 & -> & Hr1 & Hap1 & Hm1 & Hb1 & Hlen & Hnd1 & Hun & t' & Htup & Hh). cbv beta iota.
    eapply wp_bind, wp_lift; [done|].
    destruct (Permutation_Forall2 (Permutation_sym Htup) (proj2 (Forall2_cons (holds_row info) t' _ (row, rid) rs) (conj Hh Hrows)))
      as (rs1 & Hperm & Hrows1).
    replace (Z.of_nat i + 1) with (Z.of_nat (Datatypes.S i)) by lia.
    eapply wp_mono; [apply (IH (Datatypes.S i) h1 (wrote [insertion info rid] txn) w1 rs1 nb m1); try done; try lia|].
    + intros j row' Hj. rewrite <- (Hlook (Datatypes.S j) row' Hj). apply rmap_ext. intros col _. f_equal. lia.
    + intros u w2 Hw2. apply (rows_added_app txn h h1 rs rs1 [row] [rid] rows); try done; [|simpl; lia].
      rewrite <- Hperm. cbn [zip zip_with]. by rewrite Permutation_app_comm.
Qed.

Lemma Fill_loop_wp fuel cols N : good_schema (schema_ info) -> 0 <= N < 2 ^ 32 ->
  forall rounds rows (k : nat) h txn w rs nb (m : nat),
  (k mod 128 = 0)%nat \/ rows = [] -> N = Z.of_nat (k + length rows) ->
  (forall j row, rows !! j = Some row -> row_at cols (k + j) = Ok row) -> good_rows rows ->
  rest txn h w -> apart others (fr_pages F) h -> NoDup h.*1 -> Forall2 (holds_row info) (heap_tuples h) rs ->
  (length rows + nb <= m)%nat -> budget (view (bpm_ w)) m -> (length h + length rows < fuel)%nat -> (length rows < rounds)%nat ->
  wp (Fill_loop rounds fuel (Some info) N (Z.of_nat k) (Nat.iter k next_counter <$> cols))
    (fun cols' w' => cols' = Nat.iter (k + length rows) next_counter <$> cols /\ rows_added txn h rs rows nb w') w.
Proof.
  intros Hs HN. induction rounds as [|rounds IH]; intros rows k h txn w rs nb m Hk HNk Hlook Hgood Hr Hap Hnd Hrows Hm Hb Hf Hro; [lia|].
  cbn [Fill_loop]. destruct (decide (rows = [])) as [->|Hne].
  { simpl in *. rewrite (proj2 (Z.leb_le _ _)) by lia. apply wp_ret. rewrite Nat.add_0_r. split; [done|]. eapply rows_added_none; done. }
  destruct Hk as [Hk|Hk]; [|done]. assert (Hl : (0 < length rows)%nat) by (destruct rows; [done|simpl; lia]).
  rewrite (proj2 (Z.leb_gt _ _)) by lia. set (n := Nat.min 128 (length rows)).
  assert (En : Z.min batch_size (unsigned 32 (N - Z.of_nat k)) = Z.of_nat n).
  { rewrite unsigned_id by (unfold is_unsigned; lia). unfold batch_size, n. lia. }
  rewrite En. rewrite <- (take_drop n rows) in Hgood. apply Forall_app in Hgood as [Hg1 Hg2].
  assert (Hlt : length (take n rows) = n) by (rewrite length_take; lia). assert (Hld : (length (drop n rows) = length rows - n)%nat) by apply length_drop.
  destruct (MakeColumns_ok cols k n Hk ltac:(lia)) as (values & Hvalues & Hv).
  { intros i Hi. destruct (lookup_lt_is_Some_2 rows i ltac:(lia)) as [row Hrow]. exists row. by apply Hlook. }
  eapply wp_bind, wp_lift; [exact Hvalues|]. cbv beta iota. rewrite Nat2Z.id. apply wp_bind. rewrite <- Hlt at 1.
  eapply wp_mono; [apply (Fill_rows_wp fuel values Hs (take n rows) 0 h txn w rs (length (drop n rows) + nb) m); try done; try lia|].
  { intros j row Hj. pose proof (lookup_lt_Some _ _ _ Hj) as Hjn. rewrite Hlt in Hjn. cbn [Nat.add]. rewrite (Hv j Hjn). apply Hlook.
    by apply lookup_take_Some in Hj as [Hj _]. }
  intros u w1 (h1 & rids & rs1 & m1 & Hr1 & Hl1 & Hrows1 & Hp1 & Hap1 & Hnd1 & Hu1 & Hm1 & Hb1 & Hh1).
  rewrite unsigned_id by (unfold is_unsigned; lia). rewrite <- Nat2Z.inj_add.
  eapply wp_mono; [apply (IH (drop n rows) (k + n)%nat h1 (wrote (insertion info <$> rids) txn) w1 rs1 nb m1); try done; try lia|].
  - destruct (decide (length rows <= 128)%nat).
    + right. apply length_zero_iff_nil. lia.
    + left. replace n with 128%nat by lia. by rewrite <- Nat.Div0.add_mod_idemp_l, Hk.
  - intros j row Hj. rewrite <- Nat.add_assoc. apply Hlook. by rewrite lookup_drop in Hj.
  - intros cols' w2 [-> Hw2]. split; [do 2 f_equal; lia|]. rewrite <- (take_drop n rows).
    by apply (rows_added_app txn h h1 rs rs1 (take n rows) rids).
Qed.
End FillCorrect.

(** ** Columns of integers *)

Section IntColumns.
Context `{Config} `{RandomDistribution}.

(** A column of integers whose distribution, if it is random, has its bounds in
    order. *)
Definition int_column (c : ColumnInsertMeta) : bool :=
  match int_type_of (cm_type_ c) with
  | Some T =>
      match dist_ c with
      | Serial | Cyclic => true
      | _ => signed 32 (signed (bits T) (min_ c)) <=? signed 32 (signed (bits T) (max_ c))
      end
  | None => false
  end.
Definition holds_int (c : ColumnInsertMeta) (v : Value) : Prop :=
  exists T z, int_type_of (cm_type_ c) = Some T /\ is_signed (bits T) z /\ v = int_value (cm_type_ c) T z.

Lemma datum_int c k : int_column c = true -> exists v, datum_at c k = Ok v /\ holds_int c v.
Proof.
  unfold int_column, datum_at, holds_int. intros Hc. destruct (int_type_of (cm_type_ c)) as [T|] eqn:ET; [|done].
  assert (Ety : cpp_type_of (cm_type_ c) = Some (CInt T)) by (destruct (cm_type_ c); simplify_eq/=; done).
  rewrite Ety. cbn [of_option rbind].
  assert (Hok : forall T' z, exists v, Value_int T' (cm_type_ c) z = Ok v /\ exists T0 z0, Some T = Some T0 /\ is_signed (bits T0) z0 /\ v = int_value (cm_type_ c) T0 z0).
  { intros T' z. eexists. split; [by apply Value_int_ok|]. eexists T, _. split; [done|]. split; [|done]. apply signed_range, bits_pos. }
  destruct (dist_ c); try (by apply Hok); cbn [distribution]; rewrite Hc; cbn [assert rbind]; apply Hok.
Qed.

Lemma row_int cols k : forallb int_column cols = true -> exists row, row_at cols k = Ok row /\ Forall2 holds_int cols row.
Proof.
  induction cols as [|c cols IH]; [by exists []|]. cbn [forallb]. intros [Hc Hcols]%andb_true_iff. destruct (datum_int c k Hc) as (v & Hv & Hi).
  destruct (IH Hcols) as (row & Hrow & Hr). exists (v :: row). split; [|by constructor]. unfold row_at in *. cbn [rmap]. by rewrite Hv, Hrow.
Qed.

(** The column of the schema, the schema, and the size of its rows. *)
Definition column_of (c : ColumnInsertMeta) : Column Expression := MkColumn (cm_name_ c) (cm_type_ c) (TypeSize (cm_type_ c)) 0 0 None.
Definition schema_of (meta : TableInsertMeta) : Schema Expression := Schema_new (column_of <$> col_meta_ meta).
Definition width (cols : list ColumnInsertMeta) : Z := fixed_size (column_of <$> cols).

Lemma make_column_ok cols : rmap make_column cols = Ok (column_of <$> cols).
Proof.
  induction cols as [|c cols IH]; [done|]. cbn [rmap]. rewrite IH. unfold make_column, Column_fixed, Column_varlen, column_of.
  destruct (decide (cm_type_ c = VARCHAR)) as [E|E]; [rewrite !bool_decide_true by done|rewrite !bool_decide_false by done]; done.
Qed.

Lemma columns_sized cols : Forall (fun c : Column Expression => 0 <= fixed_length_ c) (column_of <$> cols).
Proof. apply Forall_fmap, Forall_true. intros c. unfold column_of. simpl. by destruct (cm_type_ c). Qed.

Lemma schema_of_good meta : width (col_meta_ meta) < 2 ^ 31 -> good_schema (schema_of meta).
Proof.
  intros Hw. exists (column_of <$> col_meta_ meta). split; [done|]. split; [|done]. apply Forall_fmap, Forall_true. done.
Qed.

Lemma int_row_columns cols row : Forall2 holds_int cols row -> forall cs : list (Column Expression), column_type_ <$> cs = cm_type_ <$> cols ->
  length cs = length row /\ forallb (fun cv => fits_b (column_type_ cv.1) cv.2) (zip cs row) = true /\ var_size cs row = 0
  /\ forallb value_bytes row = true.
Proof.
  induction 1 as [|c v cols row (T & z & HT & Hz & ->) _ IH]; intros [|c' cs] Hcs; try done. injection Hcs as Hc Hcs.
  destruct (IH cs Hcs) as (IH1 & IH2 & IH3 & IH4). cbn [length zip zip_with forallb var_size fst snd]. rewrite IH2, IH4, Hc.
  unfold Column_IsInlined. rewrite Hc. split; [by rewrite IH1|].
  assert (Hf : fits_b (cm_type_ c) (int_value (cm_type_ c) T z) = true).
  { destruct (cm_type_ c); try done; injection HT as <-; unfold fits_b, fits_int_b; cbn [value_ int_value]; by rewrite !bool_decide_true. }
  rewrite Hf. split; [done|]. split; [|done]. rewrite bool_decide_false by (by intros E; rewrite E in HT). done.
Qed.

Lemma int_row_fits meta row : Forall2 holds_int (col_meta_ meta) row -> 0 < width (col_meta_ meta) -> width (col_meta_ meta) + 32 <= PAGE_SIZE ->
  row_fits (schema_of meta) row = true /\ page_fits (schema_of meta) row = true.
Proof.
  intros Hrow Hw Hp. pose proof PAGE_SIZE_int as Hint.
  destruct (Schema_new_ok (column_of <$> col_meta_ meta) (columns_sized _)) as (Hlen & _ & _ & Htypes & _); [unfold width in *; lia|].
  destruct (int_row_columns _ _ Hrow (columns_ (schema_of meta))) as (Hl & Hf & Hv & Hb).
  { unfold schema_of. rewrite Htypes, <- list_fmap_compose. done. }
  unfold row_fits, page_fits, fits_row_b. rewrite Hf, Hv, Hb, bool_decide_true by done. change (length_ (schema_of meta)) with (length_ (Schema_new (column_of <$> col_meta_ meta))).
  rewrite Hlen. fold (width (col_meta_ meta)). rewrite !(proj2 (Z.ltb_lt _ _)), (proj2 (Z.leb_le _ _)) by lia. done.
Qed.
End IntColumns.

(** ** The test tables *)

(** A table that was made: its data, its heap and its rows. *)
Definition made : Type := TableInfo * heap * list (list Value * RID).

Section GenerateCorrect.
Context `{Config} `{!HashOrder} {S P I : Type} `{!BufferPoolManager S P bytes} `{!BufferPoolSpec S P bytes} `{!Index S I} `{!RandomDistribution}
  `{!TablePagesOk (good_data (S := S) (P := P)) (zero_data (S := S) (P := P))}.
Notation world := (ExecutorContext S I).
Implicit Types (c : Catalog I) (w : world) (tabs : list made).

Definition heaps_of tabs (i : TableInfo) (h : heap) : Prop := exists rs, (i, h, rs) ∈ tabs.

(** The tables [tabs] are in the catalog, with their rows, on pages of their
    own. *)
Fixpoint tables_made c tabs : Prop :=
  match tabs with
  | [] => True
  | (i, h, rs) :: tabs =>
      GetTable (oid_ i) c = Some i /\ NoDup h.*1 /\ Forall2 (holds_row i) (heap_tuples h) rs /\ apart (heaps_of tabs) ∅ h /\ tables_made c tabs
  end.

Record generating c txn pins0 tabs w : Prop := {
  ge_rest : at_rest c txn (plain_frame pins0) (heaps_of tabs) w;
  ge_pool : pool_ok (bpm_ w);
  ge_catalog : catalog_ok c;
  ge_made : tables_made c tabs
}.

Lemma at_rest_mono c txn pins0 (heaps heaps' : TableInfo -> heap -> Prop) w :
  (forall i h, heaps' i h -> heaps i h) -> at_rest c txn (plain_frame pins0) heaps w -> at_rest c txn (plain_frame pins0) heaps' w.
Proof. intros Hi [? ? ? ? ? Hh]. split; try done. intros i h Hx. by apply Hh, Hi. Qed.

Lemma heaps_of_cons i h rs tabs j g : heaps_of ((i, h, rs) :: tabs) j g -> with_heap (heaps_of tabs) i h j g.
Proof. intros (rs' & [[= -> -> ->]|Hin]%elem_of_cons); [by right|left; by exists rs']. Qed.

Lemma tables_made_mono c c' tabs : (forall oid i, GetTable oid c = Some i -> GetTable oid c' = Some i) -> tables_made c tabs -> tables_made c' tabs.
Proof. intros Hc. induction tabs as [|[[i h] rs] tabs IH]; [done|]. cbn [tables_made]. intros (Hg & ? & ? & ? & ?). split; [by apply Hc|]. auto. Qed.

Lemma GetTable_add c meta oid i : catalog_ok c -> oid_ meta = next_table_oid_ c -> GetTable oid c = Some i -> GetTable oid (add_table meta c) = Some i.
Proof.
  unfold GetTable, add_table. cbn [tables_]. intros Hc Hm Hi. rewrite lookup_insert_ne; [done|]. apply (co_name _ Hc) in Hi. lia.
Qed.

Lemma wp_put_catalog c (Q : unit -> world -> Prop) w : Q tt (MkContext (bpm_ w) (transaction_ w) c) -> wp (put_catalog c) Q w.
Proof. done. Qed.

Lemma wp_on_bpm {A} (m : M S A) (Q : A -> world -> Prop) w :
  wp m (fun a s => Q a (MkContext s (transaction_ w) (catalog_ w))) (bpm_ w) -> wp (on_bpm m) Q w.
Proof. unfold wp, on_bpm. by destruct (m (bpm_ w)) as [[a s]|]. Qed.

(** [CreateTable] of a new name. *)
Lemma CreateTable_wp c txn pins0 tabs w name schema (n : nat) :
  generating c txn pins0 tabs w -> table_names_ c !! name = None -> next_table_oid_ c + 1 < 2 ^ 32 -> budget (view (bpm_ w)) (1 + n) ->
  SIZE_TABLE_PAGE_HEADER <= PAGE_SIZE ->
  wp (CreateTable name schema) (fun r w' => exists meta p, r = Some meta /\ schema_ meta = schema /\ name_ meta = name
    /\ oid_ meta = next_table_oid_ c /\ generating (add_table meta c) txn pins0 ((meta, [(p, [])], []) :: tabs) w' /\ budget (view (bpm_ w')) n) w.
Proof.
  intros [[Hcat Ht Hp _ Hroom Hh] Hpool Hc Hm] Hn Ho Hb Hsz. unfold CreateTable. apply wp_bind, wp_get_catalog. rewrite Hcat, Hn.
  apply wp_bind, wp_on_bpm. eapply wp_mono; [apply (wp_create (bpm_ w) n Hpool Hb); [unfold room in *; lia|done]|].
  intros t s' (p & Hi & Hpins & Hev & Hnl & Hb'). cbv zeta. apply wp_bind, wp_put_catalog, wp_ret. cbn [bpm_ transaction_ catalog_].
  set (meta := MkTableInfo schema name t (next_table_oid_ c)). exists meta, p. split_and!; try done.
  assert (Hnew : next_table_oid_ c = oid_ meta) by done.
  assert (Hni : index_names_ c !! name = None).
  { apply eq_None_not_Some. rewrite (co_maps _ Hc), Hn. by intros [? [=]]. }
  pose proof (co_counters _ Hc) as [Hco _].
  assert (Hap : apart (heaps_of tabs) ∅ [(p, [])]).
  { split; [|set_solver]. intros i g q Hg Hq Hqg. apply list_elem_of_singleton in Hq as ->. apply Hnl. apply (heap_ids _ _ _ _ (proj1 (Hh i g Hg)) Hqg). }
  split.
  - split; cbn [catalog_ transaction_ bpm_]; try done.
    + unfold add_table. cbn [oid_ name_ meta]. rewrite unsigned_id by (unfold is_unsigned; lia).
      rewrite !emplace_fresh; [done|done|done|by apply fresh_table_oid].
    + simpl in *. congruence.
    + unfold room in *. rewrite Hpins. by rewrite (ei_frames _ _ _ Hev).
    + intros i g [Hg|[-> ->]]%heaps_of_cons; [|exact Hi].
      eapply heap_inv_evolves_in; [exact (Hh i g Hg)|apply Hi|exact Hev|done|]. intros q Hq Hin%elem_of_singleton. subst q.
      apply (ap_heaps _ _ _ Hap i g p Hg); [by left|done].
  - apply Hi.
  - by apply add_table_ok.
  - cbn [tables_made]. split; [unfold GetTable, add_table; cbn [tables_]; by rewrite lookup_insert_eq|].
    split; [apply NoDup_singleton|]. split; [constructor|]. split; [done|].
    eapply tables_made_mono; [|exact Hm]. intros oid i. by apply GetTable_add.
Qed.

(** A configuration of a table that the generator can fill. *)
Definition meta_ok (meta : TableInsertMeta) : Prop :=
  0 <= num_rows_ meta < 2 ^ 32 /\ 0 < width (col_meta_ meta) /\ width (col_meta_ meta) + 32 <= PAGE_SIZE
  /\ (num_rows_ meta = 0 \/ forallb int_column (col_meta_ meta) = true).

(** [tab] is the table of [meta]: it has the schema of [meta], and its rows are
    those that [meta] asks for, each under an id. *)
Definition table_for c (meta : TableInsertMeta) (tab : made) : Prop :=
  let '(info, h, rs) := tab in
  name_ info = tm_name_ meta /\ schema_ info = schema_of meta /\ GetTable (oid_ info) c = Some info
  /\ Forall2 (holds_row info) (heap_tuples h) rs
  /\ exists rows (rids : list RID), rmap (row_at (col_meta_ meta)) (seq 0 (Z.to_nat (num_rows_ meta))) = Ok rows
       /\ length rids = length rows /\ rs ≡ₚ zip rows rids.

Lemma table_for_mono c c' meta tab : (forall oid i, GetTable oid c = Some i -> GetTable oid c' = Some i) -> table_for c meta tab -> table_for c' meta tab.
Proof. intros Hc. destruct tab as [[info h] rs]. intros (H2 & H3 & H4 & H5). split; [done|]. split; [done|]. split; [by apply Hc|done]. Qed.

Lemma meta_rows meta : meta_ok meta -> exists rows, rmap (row_at (col_meta_ meta)) (seq 0 (Z.to_nat (num_rows_ meta))) = Ok rows
  /\ length rows = Z.to_nat (num_rows_ meta)
  /\ Forall (fun row => row_fits (schema_of meta) row = true /\ page_fits (schema_of meta) row = true) rows.
Proof.
  intros (HN & Hw & Hp & [H0'|Hint]); [rewrite H0'; by exists []|].
  destruct (rmap_total (row_at (col_meta_ meta)) (seq 0 (Z.to_nat (num_rows_ meta)))) as [rows Hrows].
  { intros k _. destruct (row_int (col_meta_ meta) k Hint) as (row & Hrow & _). by exists row. }
  exists rows. split; [done|]. apply rmap_ok in Hrows. split; [by rewrite <- (Forall2_length _ _ _ Hrows), length_seq|].
  clear HN. induction Hrows as [|k row l rows Hk _ IH]; [done|]. constructor; [|done].
  destruct (row_int (col_meta_ meta) k Hint) as (row' & Hrow' & Hr). assert (row' = row) as -> by congruence. by apply int_row_fits.
Qed.

(** One table: [CreateTable] and [FillTable]. *)
Lemma Generate_one c txn pins0 tabs w meta fuel (nb m : nat) (Q : unit -> world -> Prop) metas :
  generating c txn pins0 tabs w -> meta_ok meta -> table_names_ c !! tm_name_ meta = None -> next_table_oid_ c + 1 < 2 ^ 32 ->
  SIZE_TABLE_PAGE_HEADER <= PAGE_SIZE -> (1 + Z.to_nat (num_rows_ meta) + nb <= m)%nat -> budget (view (bpm_ w)) m ->
  (1 + Z.to_nat (num_rows_ meta) < fuel)%nat ->
  (forall info txn' tab w' (m' : nat), name_ info = tm_name_ meta -> oid_ info = next_table_oid_ c ->
     generating (add_table info c) txn' pins0 (tab :: tabs) w' -> table_for (add_table info c) meta tab ->
     (nb <= m')%nat -> budget (view (bpm_ w')) m' -> wp (Generate_loop fuel metas) Q w') ->
  wp (Generate_loop fuel (meta :: metas)) Q w.
Proof.
  intros Hg Hmeta Hn Ho Hsz Hm Hb Hf HQ. destruct (meta_rows meta Hmeta) as (rows & Hrows & Hlen & Hgood). pose proof Hmeta as (HN & Hw & Hp & _).
  pose proof PAGE_SIZE_int as Hpi. cbn [Generate_loop]. eapply wp_bind, wp_lift; [apply make_column_ok|]. apply wp_bind.
  replace m with (1 + (m - 1))%nat in Hb by lia.
  eapply wp_mono; [apply (CreateTable_wp c txn pins0 tabs w _ (schema_of meta) (m - 1) Hg Hn Ho Hb Hsz)|].
  intros r w1 (info & p & -> & Hsch & Hname & Hoid & [Hr Hpool Hcat Hmade] & Hb1). apply wp_bind.
  destruct Hmade as (Hget & Hnd & Hrs & Hap & Hmade).
  assert (Hr1 : at_rest (add_table info c) txn (plain_frame pins0) (with_heap (heaps_of tabs) info [(p, [])]) w1).
  { eapply at_rest_mono; [|exact Hr]. intros i h [[rs Hin]|[-> ->]]; [exists rs; by right|exists []; by left]. }
  assert (Hs : good_schema (schema_ info)) by (rewrite Hsch; apply schema_of_good; lia).
  assert (Hfill := Fill_loop_wp (add_table info c) (plain_frame pins0) (heaps_of tabs) info fuel (col_meta_ meta) (num_rows_ meta) Hs HN
    fuel rows 0 [(p, [])] txn w1 [] nb (m - 1)).
  replace (Nat.iter 0 next_counter <$> col_meta_ meta) with (col_meta_ meta) in Hfill by (symmetry; apply list_fmap_id).
  unfold FillTable. eapply wp_mono; [apply Hfill; try done; try (simpl; lia)|].
  - intros j row Hj. apply rmap_ok in Hrows. destruct (Forall2_lookup_r _ _ _ _ _ Hrows Hj) as (k & Hk & Hrow).
    apply lookup_seq in Hk as [-> _]. exact Hrow.
  - unfold good_rows. by rewrite Hsch.
  - intros cols' w2 [_ (h' & rids & rs' & m' & Hr2 & Hlr & Hrows' & Hperm & Hap' & Hnd' & _ & Hm' & Hb' & _)].
    apply (HQ info (wrote (insertion info <$> rids) txn) (info, h', rs') w2 m'); try done.
    + split; [|exact (hr_ok _ _ _ (proj1 (ar_heaps _ _ _ _ _ Hr2 info h' (or_intror (conj eq_refl eq_refl)))))|done|done].
      eapply at_rest_mono; [|exact Hr2]. intros i h. apply heaps_of_cons.
    + split; [done|]. split; [done|]. split; [done|]. split; [done|]. by exists rows, rids.
Qed.

Definition rows_of (metas : list TableInsertMeta) : nat := sum_list ((fun meta => 1 + Z.to_nat (num_rows_ meta))%nat <$> metas).

Lemma Generate_loop_wp pins0 fuel : SIZE_TABLE_PAGE_HEADER <= PAGE_SIZE -> forall metas c txn tabs w (m : nat),
  generating c txn pins0 tabs w -> Forall meta_ok metas -> NoDup (tm_name_ <$> metas) ->
  (forall meta, meta ∈ metas -> table_names_ c !! tm_name_ meta = None) -> next_table_oid_ c + Z.of_nat (length metas) < 2 ^ 32 ->
  (rows_of metas <= m)%nat -> budget (view (bpm_ w)) m -> (rows_of metas < fuel)%nat ->
  wp (Generate_loop fuel metas) (fun _ w' => exists c' txn' tabs', tabs ⊆ tabs' /\ generating c' txn' pins0 tabs' w'
    /\ (forall oid i, GetTable oid c = Some i -> GetTable oid c' = Some i)
    /\ forall meta, meta ∈ metas -> exists tab, tab ∈ tabs' /\ table_for c' meta tab) w.
Proof.
  intros Hsz. induction metas as [|meta metas IH]; intros c txn tabs w m Hg Hok Hnd Hnew Ho Hm Hb Hf.
  - apply wp_ret. exists c, txn, tabs. split_and!; try done. by intros meta ?%elem_of_nil.
  - apply Forall_cons in Hok as [Hmeta Hok]. cbn [fmap list_fmap] in Hnd. apply NoDup_cons in Hnd as [Hni Hnd].
    change (rows_of (meta :: metas)) with (1 + Z.to_nat (num_rows_ meta) + rows_of metas)%nat in Hm, Hf. cbn [length] in Ho.
    eapply (Generate_one c txn pins0 tabs w meta fuel (rows_of metas) m); try done; try lia; [apply Hnew; by left|].
    intros info txn1 tab w1 m1 Hname Hoid Hg1 Htab Hm1 Hb1. pose proof (ge_catalog _ _ _ _ _ Hg) as Hc.
    assert (Hadd : forall oid i, GetTable oid c = Some i -> GetTable oid (add_table info c) = Some i) by (intros oid i; by apply GetTable_add).
    eapply wp_mono; [apply (IH (add_table info c) txn1 (tab :: tabs) w1 m1); try done|].
    + intros meta' Hin. unfold add_table. cbn [table_names_]. rewrite lookup_insert_ne; [apply Hnew; by right|].
      rewrite Hname. intros E. apply Hni. rewrite E. by apply list_elem_of_fmap_2.
    + unfold add_table. cbn [next_table_oid_]. lia.
    + lia.
    + intros [] w2 (c' & txn' & tabs' & Hsub & Hg2 & Hget & Hall). exists c', txn', tabs'. split_and!; [set_solver|done|auto|].
      intros meta' [->|Hin]%elem_of_cons; [|by apply Hall]. exists tab. split; [set_solver|]. by apply (table_for_mono _ _ _ _ Hget).
Qed.

(** The list of the test tables, whose widest rows have 21 bytes. *)
Definition test_meta (meta : TableInsertMeta) : bool :=
  (0 <=? num_rows_ meta) && (num_rows_ meta <? 2 ^ 32) && (0 <? width (col_meta_ meta)) && (width (col_meta_ meta) <=? 21)
  && ((num_rows_ meta =? 0) || forallb int_column (col_meta_ meta)).

Lemma insert_meta_ok : 53 <= PAGE_SIZE -> Forall meta_ok insert_meta.
Proof.
  intros Hp. assert (Hall : forallb test_meta insert_meta = true) by (by vm_compute). rewrite forallb_forall in Hall.
  apply Forall_forall. intros meta Hin%list_elem_of_In%Hall. unfold test_meta in Hin. unfold meta_ok.
  repeat (apply andb_true_iff in Hin as [Hin ?]). rewrite orb_true_iff in *. split_and!; try lia.
  match goal with Hor : _ \/ _ |- _ => destruct Hor as [?%Z.eqb_eq|?]; [by left|by right] end.
Qed.

(** ** Properties *)

(** C27: [GenerateTestTables], run in a world with an empty catalog over a pool
    that can take a page per row and table, ends, and makes every table of the
    list: it is found by its name, has the schema of the list, and its heap holds
    exactly the rows that the list asks for, each under an id: counters and
    cycles run on across the batches of 128 rows, random columns start anew in
    each batch (the generator of random numbers is made again with the same
    seed).  No pin is left. *)
Theorem GenerateTestTables_correct (txn : Transaction) fuel w :
  catalog_ w = Catalog_new -> transaction_ w = txn -> pool_ok (bpm_ w) -> room 2 (bpm_ w) ->
  53 <= PAGE_SIZE -> SIZE_TABLE_PAGE_HEADER <= PAGE_SIZE -> budget (view (bpm_ w)) (rows_of insert_meta) -> (rows_of insert_meta < fuel)%nat ->
  exists w', GenerateTestTables fuel w = Ok (tt, w') /\ pool_ok (bpm_ w') /\ pins (view (bpm_ w')) = pins (view (bpm_ w))
    /\ forall meta, meta ∈ insert_meta -> exists info h rs, GetTable_name (tm_name_ meta) (catalog_ w') = Ok (Some info)
         /\ heap_inv (table_ info) (bpm_ w') h /\ table_for (catalog_ w') meta (info, h, rs).
Proof.
  intros Hc Ht Hpool Hroom Hpage Hsz Hb Hf.
  assert (Hg : generating Catalog_new txn (pins (view (bpm_ w))) [] w).
  { split; [|done|apply catalog_new_ok|done]. split; try done. intros i h [rs Hin]. by apply elem_of_nil in Hin. }
  pose proof (Generate_loop_wp (pins (view (bpm_ w))) fuel Hsz insert_meta Catalog_new txn [] w (rows_of insert_meta) Hg) as Hw.
  apply wp_run in Hw as ([] & w' & Hrun & c' & txn' & tabs' & _ & [Hr Hpool' Hcat Hmade] & _ & Hall); try done; try lia.
  - exists w'. split; [exact Hrun|]. split; [done|]. split; [apply Hr|]. intros meta Hin. rewrite (ar_catalog _ _ _ _ _ Hr).
    destruct (Hall meta Hin) as ([[info h] rs] & Htab & Hfor). exists info, h, rs. split; [|split; [|done]].
    + destruct (GetTable_name_ok c' (tm_name_ meta) Hcat) as (r & Hget & Hspec). rewrite Hget. f_equal. apply Hspec. split; apply Hfor.
    + apply (ar_heaps _ _ _ _ _ Hr). by exists rs.
  - by apply insert_meta_ok.
  - apply (bool_decide_unpack _). by vm_compute.
Qed.
End GenerateCorrect.

(** ** The test tables over a pool of three frames *)

Section Concrete.
#[local] Existing Instance course_config.
#[local] Existing Instance course_table_pages.
#[local] Existing Instance listed_order.
#[local] Existing Instance no_index.
Notation pool := (BPI bytes LRUReplacer DiskManager).

(** A distribution that always draws its lower bound. *)
#[local] Instance lowest : RandomDistribution := { uniform_int a _ _ := a; uniform_real a _ _ := a }.

Lemma GenerateTestTables_correct_witness : exists (w w' : ExecutorContext pool IndexMetadata) info,
  catalog_ w = Catalog_new /\ GenerateTestTables 2000 w = Ok (tt, w') /\ GetTable_name (str "test_7") (catalog_ w') = Ok (Some info)
  /\ name_ info = str "test_7".
Proof.
  destruct (fresh_pool_inv 3) as (s & _ & Hs & Hp & Hf & Hb).
  assert (Hroom : room 2 s) by (unfold room; rewrite Hp, Hf, map_size_empty; lia).
  destruct (GenerateTestTables_correct txn0 2000 (MkContext s txn0 (Catalog_new (I := IndexMetadata)))) as (w' & Hrun & _ & _ & Hall); try done.
  - apply Hb. by vm_compute.
  - by apply Nat.ltb_lt.
  - destruct (Hall (MkTableInsertMeta (str "test_7") TEST7_SIZE
      [ColumnInsertMeta_new (str "colA") BIGINT false Serial 0 0; ColumnInsertMeta_new (str "colB") INTEGER true Serial 0 0;
       ColumnInsertMeta_new (str "colC") INTEGER true Cyclic 0 9])) as (info & h & rs & Hget & _ & Hname & _).
    { unfold insert_meta. do 7 right. by left. }
    exists (MkContext s txn0 Catalog_new), w', info. done.
Defined.
End Concrete.
